(* ===== verification/_CoqProject ===== *)
-Q . S2P
Prelude.v
Fields.v
Hw.v
Common.v
Clock.v
Mem.v
Securec.v
SecurecProps.v
Printf.v
PrintfSpec.v
PrintfProps.v
PrintfConv.v
PrintfLoop.v
PrintfOutProps.v
PrintfContract.v
PrintfSafe.v
Fscmem.v
FscmemProps.v
Gic.v
GicProps.v
Osal.v
OsalProps.v
Message.v
MessageProps.v
Mmu.v
MmuProps.v
Cache.v
Os.v
Dmac.v
DmacProps.v
Serial.v
I2c.v
I2cProps.v
Timer.v
TimerProps.v
Wdg.v
WdgProps.v
Gpio.v
GpioProps.v
Uart.v
UartProps.v
Spi.v
SpiProps.v
LocalBus.v
LocalBusProps.v
GicQuiet.v
Mcs.v
McsProps.v
GmacRegs.v
Mdio.v
MdioProps.v
Phy.v
PhyProps.v
Gmac.v
GmacBoard.v
GmacLib.v
GmacProps.v
GmacInitProps.v
Loader.v
LoaderProps.v
Linux.v
LinuxRegs.v
LinuxRegsProps.v
HwLock.v
HwLockProps.v
MsgScm3.v
MsgCrc.v
MsgRing.v
MsgScm3Props.v
MsgIoctlProps.v
Scanf.v
ScanfSpec.v
ScanfProps.v
ScanfNumber.v
ScanfFormat.v
ScanfText.v
ScanfLoop.v
ScanfContract.v
ScanfRoundtrip.v
ScanfEdge.v
