(* ===== verification/Prelude.v ===== *)
(** * Verification of the Hi309x real-time libraries

    The repository holds the system software of a management controller with
    four ARMv8 cores, one part of which runs Linux and another real-time code.
    This development is about the repository's own real-time C code under
    [src/src/real_time] (drivers and the baremetal runtime) and the platform
    libraries under [src/platform] (bounds-checked C functions, OS abstraction)
    they are built on, and about those Linux drivers under
    [src/src/non_real_time/drivers] that talk to the other processors.  This
    file is the root: integers and bit fields.

    ** How the code is modelled

    Every C function is a computation in the error-and-state monad of [Hw]: it
    threads the C globals of the program, the state of the outside world and
    the trace of accesses.  The hardware is an arbitrary [Machine]; theorems
    hold for every one of them (or for every one with a documented property
    such as [GicQuiesces], [Clock], [IrqMask], [settles_in]), so each volatile
    load may return anything.  A NULL dereference, an index outside an array, a
    byte outside the memory, a division by zero and a loop that runs out of the
    rounds given to it are faults, and the predicates used in the theorems
    ([wp], [emits], [quiet], [does]) exclude them: a theorem that says what an
    operation does also says that it ends.  Components own parts of the globals
    ([Has], [Indep]); RAM is the finite map of bytes of [Mem].

    Accesses to RAM leave no event in the trace.  Where their order with a
    store to a shared word matters (announcing READY at the start of the cores,
    moving the index of a ring of messages), that store is
    [Mem.writel_shared], which records in the trace what RAM holds at that
    moment (the event [Seen]): it is a [writel] otherwise.

    Integers keep their width ([wrap]); C bit fields are [bf_get] and
    [bf_set].  Log output is left out.  What the C code takes from a build or
    from the linker (which devices exist, addresses of objects and functions,
    memory maps) is a class with one field per such name; client callbacks are
    a parameter.

    ** The parts

    - [Prelude], [Hw], [Mem], [Serial]: integers, the monad and its rules, byte
      memory, streams through a register block.
    - [Securec], [SecurecProps]: platform/securec/src, the memory and string
      functions.  Contracts of each function on each branch, agreement of the
      unrolled variants with the plain ones.
    - [Printf]: platform/securec/src/output.inl and the functions on it, printf
      for narrow characters.  [PrintfSpec] says which text a format and its
      arguments stand for ([render]); [PrintfProps], [PrintfConv], [PrintfLoop]
      and [PrintfOutProps] show in steps (writing, conversions, reading the
      format, the whole) that this text is written; [PrintfContract] has the
      contracts of the functions, [PrintfSafe] that no format, however
      ill-formed, makes them write outside the destination.  What the C library
      does with floating point numbers and wide characters is the class [Libc].
    - [Scanf]: platform/securec/src/input.inl with vsscanf_s.c, sscanf_s.c and
      gets_s.c, scanf for narrow characters from a string.  [ScanfSpec] says
      what a list of directives does with a text ([scan]: a verdict with what
      is stored where); [ScanfProps], [ScanfNumber], [ScanfFormat],
      [ScanfText] and [ScanfLoop] show in steps (characters and digits, a number,
      reading the format, strings and sets, a round and the loop) that the code
      does it; [ScanfContract] has the contract, [ScanfRoundtrip] that what
      [Printf] writes is read back (and a pointer is not), [ScanfEdge] the
      empty text, a set without an end, and lines.  strtod, strtold and mbtowc
      are the class [LibcIn], fgets is a parameter.  Floating point directives
      are modelled but not part of [scan].
    - [Common], [Clock]: drivers/common and include/bm_common.h: subsystem and
      pin registers, core id, busy wait (on a counter that never goes back and
      moves now and then).
    - [Gic], [GicProps]: baremetal/hwi/hwi_init.c, hwi_proc.c.  Which bits
      enabling, priority, routing and triggering write; dispatching.
    - [Osal], [OsalProps], [Os]: platform/osal/nonos and
      baremetal/osal_adapter.  Nesting of critical sections; a refinement from
      requested handlers to dispatched ones; [Os] is the interface the drivers
      are verified against, with the implementation shown to meet it.
    - [Fscmem], [FscmemProps]: baremetal/memory/bm_fscmem.c, bm_mem.c.
      Initialisation, allocation and release as a round trip, detection of bad
      releases, the layout of a block.
    - [Message], [MessageProps]: baremetal/message/message.c.  Mutual
      exclusion and untorn messages for every interleaving of the cores (a step
      relation, one step per access the code makes to a box; no theorem links
      it to the code), and send and receive of the code as a round trip.
    - [Mmu], [MmuProps], [Cache]: drivers/mmu/mmu.c, drivers/cache/cache.c.
      The translation tables map what the list of regions says.
    - [Dmac], [DmacProps]: drivers/dma/dmac.c.  Channel choice, encoding,
      interrupt handler, both kinds of transfer.
    - [I2c], [I2cProps], [Spi], [SpiProps], [Uart], [UartProps]: drivers/i2c,
      drivers/spi, drivers/uart.  What a transfer puts on the bus and into the
      buffer, on every outcome; how a controller is programmed.
    - [Timer], [TimerProps], [Wdg], [WdgProps], [Gpio], [GpioProps]:
      drivers/timer, drivers/watchdog, drivers/gpio.
    - [Fields], [GmacRegs], [Mdio], [Phy], [Gmac] and their [Props],
      [GmacBoard]: drivers/net, from the unions of bit fields up to sending
      and receiving.  The MDIO protocol under its lock word, one descriptor per
      packet sent, one buffer handed back per frame received, the lock word of
      initialisation taken and given back once, mode changes while stopped.
      [GmacLib] has the lemmas they share, [GmacBoard] two boards on which the
      witnesses run.
    - [LocalBus], [LocalBusProps]: drivers/local_bus/localbus.c.  Registering
      on a chip select, and the routing of accesses to what is registered.
    - [GicQuiet]: which registers the operations of the interrupt controller
      touch, for the components that use them, and the group of a shared
      interrupt.
    - [Mcs], [McsProps]: baremetal/mcs/mcs.c over the class [OpenAmp] of what
      libmetal and open-amp offer.  Channels and endpoints, what is sent, the
      rings and the interrupt.
    - [Loader], [LoaderProps]: baremetal/loader/loader.c.  The protocol of the
      cores on the boot word as a step relation (set up once, nobody stuck, a
      core that comes too late), and what one core does to the word in the
      code, with what RAM holds when it announces READY.  [bfuel] bounds the wait for READY, which has no bound in the code;
      [announced] says that the word turns READY within it.
    - [Linux]: what the Linux drivers ask of the kernel.  A kernel call is an
      event of the trace and its answer is the environment's, as a register's
      value is; [under] is a section of a spin lock.
    - [LinuxRegs], [LinuxRegsProps]: non_real_time/drivers/comm: sysctrl.c,
      lp_subsys.c, hp_subsys.c, host_subsys.c, a5x_subsys.c, m_reset.c and the
      device helpers of comm.c.  Access under the lock, resets.
    - [HwLock], [HwLockProps]: non_real_time/drivers/hw_lock.  What acquiring
      and releasing do to the registers and the count; one lock with any
      number of tasks and the M3 as a step relation ([Contend]): what a task holds
      the M3 does not get, and what becomes of a lock whose release is lost.
    - [MsgScm3] and its theorems in [MsgCrc], [MsgRing], [MsgScm3Props],
      [MsgIoctlProps]: non_real_time/drivers/msg_scm3, messages to the M3.  The
      checksum against its definition and what it detects; the ring, its sender,
      worker and processes interleaving, as a refinement of a queue, with what
      a process is promised that copies its answer after the slot was given
      back (the other end of each ring is the M3's firmware, not in the
      repository, and taken to follow the same protocol); sending, with the
      message complete when the index is stored; answers; data buffers given
      back on every path.  [meanwhile] is what other processes do
      during a wait, [wfuel] bounds the answers handled in one go, [uninit] is
      an unassigned local.
    Components interact through interfaces: the drivers call the OS layer
    through the class [Os] (laws in [OsLaws]), the DMA controller through
    [Dma], buffers are checked against the transfer segment by [Xfer], and the
    baremetal handlers reach the drivers through the table of [Gic].

    ** Bounds and fuel

    A loop of the code is [loop fuel body]: the number of rounds is the bound
    the code has (a time-out, a count, a length), plus one for the last test,
    and the theorems show it is enough.  Loops that the code does not bound
    take a parameter: [fuel] for the busy wait (enough by
    [Clock.udelay_waits] when the counter moves at least once in [clk_stall]
    reads) and for register polls (enough when the register
    settles, [GicQuiesces]), [fuel] of [Printf] for the length of a format and
    its strings (more than the length is enough, [call_ok]), [fuel] of [Scanf]
    for the length of the text and of the format (five more than that is
    enough, [scan_call]), [lfuel] for lock words shared with other cores
    (enough when the word comes free, [MdioProps.lock_comes]), [xfuel] for the SPI FIFO loops (enough by
    [Serial.does_poll_loop] when the FIFO gets ready; no fuel is enough when it
    does not, [SpiProps.spi_write_sends]).

    ** What is not modelled

    - Vendored code under src/open_source (u-boot, ATF, musl, libmetal,
      open-amp, mcs).
    - Assembly (start-up, exception entry, cache loops): the operations the C
      code calls are system operations of [Hw].
    - Formatted input of securec from files and the standard input (except
      lines), and formatted input and output of wide characters (the same
      files compiled for wchar_t).
    - libck and UniProton: configuration and glue around kernels delivered
      as libraries; samples and host tools.
    - Not yet: the variants for the libck kernel (libck/), wide-character
      functions of securec, the OS layer for other kernels, and the Linux
      drivers not named above, most of whose state belongs to frameworks of
      the kernel. *)
From stdpp Require Import prelude gmap list strings.
From Stdlib Require Import ZArith Lia Btauto.
Local Open Scope Z_scope.

(** ** Machine-width integers

    A C unsigned integer of [w] bits is a [Z] in [0, 2^w); every operation
    that may leave the range wraps explicitly with [wrap]. *)
Definition wrap (w x : Z) : Z := x mod 2 ^ w.
Abbreviation u8 := (wrap 8).
Abbreviation u16 := (wrap 16).
Abbreviation u32 := (wrap 32).
Abbreviation u64 := (wrap 64).

(** A C [int] read back from its 32-bit pattern. *)
Definition s32 (x : Z) : Z := let y := wrap 32 x in if y <? 2 ^ 31 then y else y - 2 ^ 32.

(** The C complement [~x] at width [w]. *)
Definition bnot (w x : Z) : Z := wrap w (Z.lnot x).

(** [fits w x]: [x] is a value of the [w]-bit unsigned type. *)
Definition fits (w x : Z) : Prop := 0 <= x < 2 ^ w.

#[export] Instance fits_dec w x : Decision (fits w x).
Proof. unfold fits. apply _. Defined.

(** ** Bit fields

    Structures declared with C bit fields are allocated from the least
    significant bit: field [off, off+len) of the container word. *)
Definition bf_get (off len v : Z) : Z := Z.land (Z.shiftr v off) (Z.ones len).
Definition bf_set (off len f v : Z) : Z :=
  Z.lor (Z.ldiff v (Z.shiftl (Z.ones len) off))
        (Z.shiftl (Z.land f (Z.ones len)) off).

(** C truth values. *)
Definition cbool (b : bool) : Z := if b then 1 else 0.
Definition ctrue (x : Z) : bool := negb (x =? 0).

(** The read-modify-write of every subsystem accessor:
    [value &= ~mask; value |= (val & mask)]. *)
Definition mask_merge (mask val old : Z) : Z :=
  Z.lor (Z.land old (bnot 32 mask)) (Z.land val mask).

Create Rewrite HintDb bits.
Create HintDb hw discriminated.

(** *** Bit-level reasoning *)
Lemma wrap_spec w x i : 0 <= i -> 0 <= w ->
  Z.testbit (wrap w x) i = (i <? w) && Z.testbit x i.
Proof.
  intros Hi Hw. unfold wrap. destruct (Z.ltb_spec i w).
  - rewrite Z.mod_pow2_bits_low by lia. done.
  - rewrite Z.mod_pow2_bits_high by lia. done.
Qed.

Lemma ones_spec w i : 0 <= i -> 0 <= w -> Z.testbit (Z.ones w) i = (i <? w).
Proof.
  intros Hi Hw. destruct (Z.ltb_spec i w).
  - apply Z.ones_spec_low. lia.
  - apply Z.ones_spec_high. lia.
Qed.

Lemma shiftl_spec' a n i : 0 <= i -> 0 <= n ->
  Z.testbit (Z.shiftl a n) i = (n <=? i) && Z.testbit a (i - n).
Proof.
  intros Hi Hn. rewrite Z.shiftl_spec by lia.
  destruct (Z.leb_spec n i); [done |]. by rewrite Z.testbit_neg_r by lia.
Qed.

Lemma fits_testbit w x i : fits w x -> 0 <= w -> w <= i -> Z.testbit x i = false.
Proof.
  intros Hf Hw Hi. rewrite <- (Z.mod_small x (2 ^ w)) by apply Hf.
  apply Z.mod_pow2_bits_high. lia.
Qed.

Lemma wrap_fits w x : 0 <= w -> fits w (wrap w x).
Proof. intros Hw. unfold fits, wrap. apply Z.mod_pos_bound. lia. Qed.

Lemma wrap_id w x : fits w x -> wrap w x = x.
Proof. intros H. apply Z.mod_small, H. Qed.

Lemma wrap_idem w x : 0 <= w -> wrap w (wrap w x) = wrap w x.
Proof. intros H. apply wrap_id, wrap_fits, H. Qed.

#[export] Hint Rewrite Z.land_spec Z.lor_spec Z.lxor_spec Z.ldiff_spec Z.testbit_0_l : bits.
#[export] Hint Rewrite wrap_spec ones_spec shiftl_spec' Z.shiftr_spec Z.lnot_spec
  using lia : bits.

(** Decide equality of two bit expressions: compare bit [i], split on the
    comparisons of [i] with the field bounds, close by boolean reasoning. *)
Ltac bit_cases :=
  repeat match goal with
  | |- context [Z.ltb ?a ?b] => destruct (Z.ltb_spec a b)
  | |- context [Z.leb ?a ?b] => destruct (Z.leb_spec a b)
  end.

Ltac bitwise :=
  unfold bf_get, bf_set, bnot, mask_merge;
  apply Z.bits_inj'; intros ?i ?Hi;
  repeat (progress (autorewrite with bits); bit_cases; try lia); try btauto; try done.

Lemma fits_bits w x : 0 <= w -> 0 <= x ->
  (forall i, w <= i -> Z.testbit x i = false) -> fits w x.
Proof.
  intros Hw Hx Hb. split; [done |].
  assert (x = wrap w x) as ->; [| apply wrap_fits; done].
  apply Z.bits_inj'. intros i Hi. rewrite wrap_spec by lia.
  destruct (Z.ltb_spec i w); [done |]. by rewrite Hb.
Qed.

Lemma land_fits_l w a b : 0 <= w -> fits w a -> fits w (Z.land a b).
Proof.
  intros Hw Ha. assert (0 <= Z.land a b) by (apply Z.land_nonneg; left; apply Ha).
  apply fits_bits; [done | done |]. intros i Hi.
  rewrite Z.land_spec, (fits_testbit w a) by (done || lia). done.
Qed.

Lemma land_fits_r w a b : 0 <= w -> fits w b -> fits w (Z.land a b).
Proof. intros. rewrite Z.land_comm. by apply land_fits_l. Qed.

Lemma lor_fits w a b : 0 <= w -> fits w a -> fits w b -> fits w (Z.lor a b).
Proof.
  intros Hw Ha Hb. apply fits_bits; [done | apply Z.lor_nonneg; split; [apply Ha | apply Hb] |].
  intros i Hi. rewrite Z.lor_spec, (fits_testbit w a), (fits_testbit w b) by (done || lia). done.
Qed.

Lemma ldiff_fits w a b : 0 <= w -> fits w a -> fits w (Z.ldiff a b).
Proof.
  intros Hw Ha. assert (0 <= Z.ldiff a b) by (apply Z.ldiff_nonneg; left; apply Ha).
  apply fits_bits; [done | done |]. intros i Hi.
  rewrite Z.ldiff_spec, (fits_testbit w a) by (done || lia). done.
Qed.

Lemma ones_fits w : 0 <= w -> fits w (Z.ones w).
Proof. intros. rewrite Z.ones_equiv. split; lia. Qed.

Lemma bnot_fits w x : 0 <= w -> fits w (bnot w x).
Proof. intros. by apply wrap_fits. Qed.

Lemma fits_mono w w' x : w <= w' -> fits w x -> fits w' x.
Proof.
  intros Hle [H1 H2]. split; [done |].
  destruct (Z.le_gt_cases 0 w).
  - pose proof (Z.pow_le_mono_r 2 w w'). lia.
  - rewrite (Z.pow_neg_r 2 w) in H2 by lia. lia.
Qed.

(** *** Laws of bit fields *)
Lemma bf_get_fits off len v : 0 <= len -> fits len (bf_get off len v).
Proof. intros. apply land_fits_r; [done |]. by apply ones_fits. Qed.

Lemma bf_set_fits w off len f v :
  0 <= off -> 0 <= len -> off + len <= w -> fits w v -> fits w (bf_set off len f v).
Proof.
  intros Ho Hl Hw Hv. unfold bf_set. apply lor_fits; [lia | by apply ldiff_fits; [lia |] |].
  apply fits_bits; [lia | |].
  - apply Z.shiftl_nonneg, Z.land_nonneg. right. apply ones_fits. done.
  - intros i Hi. autorewrite with bits. bit_cases; try lia; btauto.
Qed.

Lemma bf_get_set_eq off len f v :
  0 <= off -> 0 <= len -> bf_get off len (bf_set off len f v) = wrap len f.
Proof.
  intros Ho Hl. bitwise. replace (i + off - off) with i by lia. btauto.
Qed.

Lemma bf_get_set_ne off len off' len' f v :
  0 <= off -> 0 <= len -> 0 <= off' -> 0 <= len' ->
  off + len <= off' \/ off' + len' <= off ->
  bf_get off' len' (bf_set off len f v) = bf_get off' len' v.
Proof. intros. bitwise. Qed.

Lemma bf_set_set off len f g v :
  0 <= off -> 0 <= len -> bf_set off len f (bf_set off len g v) = bf_set off len f v.
Proof. intros. bitwise. Qed.

Lemma bf_set_comm off len off' len' f g v :
  0 <= off -> 0 <= len -> 0 <= off' -> 0 <= len' ->
  off + len <= off' \/ off' + len' <= off ->
  bf_set off len f (bf_set off' len' g v) = bf_set off' len' g (bf_set off len f v).
Proof. intros. bitwise. Qed.

Lemma bf_set_testbit_out off len f v i :
  0 <= off -> 0 <= len -> 0 <= i -> i < off \/ off + len <= i ->
  Z.testbit (bf_set off len f v) i = Z.testbit v i.
Proof.
  intros Ho Hl Hi Hout. unfold bf_set.
  rewrite Z.lor_spec, Z.ldiff_spec, !shiftl_spec' by lia.
  destruct (Z.leb_spec off i); cbn [andb negb]; [| btauto].
  rewrite Z.land_spec, ones_spec by lia.
  destruct (Z.ltb_spec (i - off) len); [lia | btauto].
Qed.

(** *** Laws of the masked update *)
Lemma mask_merge_fits mask val old :
  fits 32 mask -> fits 32 old -> fits 32 (mask_merge mask val old).
Proof.
  intros. unfold mask_merge. apply lor_fits; [lia | by apply land_fits_l | by apply land_fits_r].
Qed.

Lemma mask_merge_inside mask val old :
  Z.land (mask_merge mask val old) mask = Z.land val mask.
Proof.
  unfold mask_merge, bnot. apply Z.bits_inj'. intros i Hi. autorewrite with bits.
  destruct (Z.ltb_spec i 32); btauto.
Qed.

Lemma mask_merge_outside mask val old :
  fits 32 old -> Z.ldiff (mask_merge mask val old) mask = Z.ldiff old mask.
Proof.
  intros Ho. unfold mask_merge, bnot. apply Z.bits_inj'. intros i Hi. autorewrite with bits.
  destruct (Z.ltb_spec i 32); [btauto |].
  rewrite (fits_testbit 32 old) by (done || lia). btauto.
Qed.

#[export] Hint Resolve wrap_fits bf_get_fits bf_set_fits mask_merge_fits land_fits_l
  lor_fits ldiff_fits ones_fits bnot_fits : hw.

(** Close a range side condition. *)
Ltac fits := solve [eauto with hw | unfold fits in *; lia | auto with hw lia].

(** Split on every integer comparison of the goal and simplify. *)
Ltac zcase1 :=
  match goal with
  | |- context [Z.eqb ?a ?b] => destruct (Z.eqb_spec a b)
  | |- context [Z.leb ?a ?b] => destruct (Z.leb_spec a b)
  | |- context [Z.ltb ?a ?b] => destruct (Z.ltb_spec a b)
  end; cbn [negb andb orb]; try lia.
Ltac zcases := repeat zcase1.
