(* ===== verification/Fields.v ===== *)
(** * Fields: a union of a bit-field structure and a 32-bit word

    The network driver declares each register as a C union of a structure of
    bit fields and an [unsigned int].  A [layout] is the structure's
    declaration, the fields in order with their widths; the compiler allocates
    them from the least significant bit up, so the place of a field is the sum
    of the widths before it.  [get_bits] and [set_bits] are the accesses
    [r.bits.f] and [r.bits.f = v]. *)
From stdpp Require Import prelude list strings.
From Stdlib Require Import ZArith Lia.
From S2P Require Import Prelude.
Local Open Scope Z_scope.

Definition layout : Type := list (string * Z).

Fixpoint place_from (off : Z) (l : layout) (f : string) : option (Z * Z) :=
  match l with
  | [] => None
  | (g, n) :: l' => if decide (f = g) then Some (off, n) else place_from (off + n) l' f
  end.
Definition place (l : layout) (f : string) : option (Z * Z) := place_from 0 l f.

Definition get_bits (l : layout) (f : string) (v : Z) : Z :=
  match place l f with Some (off, n) => bf_get off n v | None => 0 end.
Definition set_bits (l : layout) (f : string) (x v : Z) : Z :=
  match place l f with Some (off, n) => bf_set off n x v | None => v end.

(** A declaration the compiler accepts as a view of one word: distinct names,
    positive widths that add up to 32. *)
Definition width_sum (l : layout) : Z := foldr (fun p a => snd p + a) 0 l.
Definition layout_ok (l : layout) : bool :=
  bool_decide (NoDup (fst <$> l)) && forallb (fun p => 0 <? snd p) l && (width_sum l =? 32).

Lemma place_from_range off l f o n : Forall (fun p => 0 < snd p) l ->
  place_from off l f = Some (o, n) -> off <= o /\ 0 < n /\ o + n <= off + width_sum l.
Proof.
  revert off. induction l as [| [g k] l IH]; intros off Hp Hf; [done |].
  apply Forall_cons in Hp as [Hk Hp]. cbn [snd] in Hk. cbn [place_from] in Hf.
  assert (0 <= width_sum l) as Hw.
  { clear -Hp. induction Hp as [| [h m] l Hm _ IH]; cbn [width_sum foldr snd] in *; [lia |].
    fold (width_sum l). lia. }
  cbn [width_sum foldr snd]. fold (width_sum l). case_decide.
  - simplify_eq. lia.
  - apply IH in Hf; [lia | done].
Qed.

Lemma layout_ok_positive l : layout_ok l = true -> Forall (fun p => 0 < snd p) l.
Proof.
  unfold layout_ok. intros [[_ H]%andb_true_iff _]%andb_true_iff. apply Forall_forall.
  intros p Hp. apply list_elem_of_In in Hp. rewrite forallb_forall in H.
  specialize (H p Hp). lia.
Qed.

Lemma place_range l f o n : layout_ok l = true -> place l f = Some (o, n) ->
  0 <= o /\ 0 < n /\ o + n <= 32.
Proof.
  intros Hl Hf. pose proof (layout_ok_positive l Hl) as Hp.
  apply place_from_range in Hf; [| done]. unfold layout_ok in Hl.
  apply andb_true_iff in Hl as [_ Hl]. lia.
Qed.

(** Distinct fields do not overlap. *)
Lemma place_from_disjoint off l f g o n o' n' : Forall (fun p => 0 < snd p) l -> f <> g ->
  place_from off l f = Some (o, n) -> place_from off l g = Some (o', n') ->
  o + n <= o' \/ o' + n' <= o.
Proof.
  revert off. induction l as [| [h k] l IH]; intros off Hp Hne Hf Hg; [done |].
  pose proof Hp as Hp'. apply Forall_cons in Hp as [Hk Hp]. cbn [snd] in Hk. cbn [place_from] in Hf, Hg.
  repeat case_decide; subst; simplify_eq.
  - apply place_from_range in Hf; [lia | done].
  - apply place_from_range in Hg; [lia | done].
  - by apply (IH (off + k)).
Qed.

Lemma get_set_bits l f x v : layout_ok l = true -> is_Some (place l f) ->
  get_bits l f (set_bits l f x v) = wrap (default 0 (snd <$> place l f)) x.
Proof.
  intros Hl [[o n] Hf]. unfold get_bits, set_bits. rewrite Hf. simpl.
  pose proof (place_range l f o n Hl Hf). apply bf_get_set_eq; lia.
Qed.

Lemma get_set_bits_ne l f g x v : layout_ok l = true -> f <> g ->
  get_bits l f (set_bits l g x v) = get_bits l f v.
Proof.
  intros Hl Hne. unfold get_bits, set_bits. destruct (place l f) as [[o n] |] eqn:Hf; [| done].
  destruct (place l g) as [[o' n'] |] eqn:Hg; [| done].
  pose proof (place_range l f o n Hl Hf). pose proof (place_range l g o' n' Hl Hg).
  pose proof (place_from_disjoint 0 l f g o n o' n' (layout_ok_positive l Hl) Hne Hf Hg).
  apply bf_get_set_ne; lia.
Qed.

Lemma set_bits_fits l f x v : layout_ok l = true -> fits 32 v -> fits 32 (set_bits l f x v).
Proof.
  intros Hl Hv. unfold set_bits. destruct (place l f) as [[o n] |] eqn:Hf; [| done].
  pose proof (place_range l f o n Hl Hf). apply bf_set_fits; [lia.. | done].
Qed.

Lemma get_bits_fits l f v : layout_ok l = true -> fits (default 0 (snd <$> place l f)) (get_bits l f v).
Proof.
  intros Hl. unfold get_bits. destruct (place l f) as [[o n] |] eqn:Hf; simpl; [| unfold fits; simpl; lia].
  pose proof (place_range l f o n Hl Hf). apply bf_get_fits. lia.
Qed.

(** Several fields assigned in turn. *)
Definition set_fields (l : layout) (fs : list (string * Z)) (v : Z) : Z :=
  foldl (fun v '(f, x) => set_bits l f x v) v fs.

Lemma set_fields_fits l fs v : layout_ok l = true -> fits 32 v -> fits 32 (set_fields l fs v).
Proof.
  intros Hl. revert v. induction fs as [| [f x] fs IH]; intros v Hv; [done |].
  apply IH. by apply set_bits_fits.
Qed.

Lemma get_set_fields_ne l fs f v : layout_ok l = true -> f ∉ fs.*1 ->
  get_bits l f (set_fields l fs v) = get_bits l f v.
Proof.
  intros Hl. revert v. induction fs as [| [g x] fs IH]; intros v Hf; [done |].
  cbn [fmap list_fmap fst] in Hf. apply not_elem_of_cons in Hf as [Hne Hf].
  change (set_fields l ((g, x) :: fs) v) with (set_fields l fs (set_bits l g x v)).
  rewrite IH by done. by apply get_set_bits_ne.
Qed.

(** The last assignment to a field decides it. *)
Lemma get_set_fields l fs1 f x fs2 v : layout_ok l = true -> is_Some (place l f) -> f ∉ fs2.*1 ->
  get_bits l f (set_fields l (fs1 ++ (f, x) :: fs2) v) = wrap (default 0 (snd <$> place l f)) x.
Proof.
  intros Hl Hf Hn. unfold set_fields. rewrite foldl_app. cbn [foldl].
  fold (set_fields l fs1 v). set (u := set_bits l f x _).
  change (foldl _ u fs2) with (set_fields l fs2 u). rewrite get_set_fields_ne by done.
  by apply get_set_bits.
Qed.

Lemma get_set_fields_at l fs k f x v : layout_ok l = true -> is_Some (place l f) ->
  fs !! k = Some (f, x) -> f ∉ (drop (S k) fs).*1 ->
  get_bits l f (set_fields l fs v) = wrap (default 0 (snd <$> place l f)) x.
Proof.
  intros Hl Hf Hk Hn. rewrite <- (take_drop_middle fs k (f, x) Hk).
  by apply get_set_fields.
Qed.

(** The value of field [f], assigned at position [k] of the list and not later. *)
Ltac field_at k :=
  erewrite (get_set_fields_at _ _ k);
  [| reflexivity | by eexists | reflexivity | by apply (bool_decide_unpack _)].
