(* ===== verification/Hw.v ===== *)
(** * Hw: the machine the drivers run on

    A small error-and-state monad in which every driver of this development
    is written.  A state ([world]) holds the C globals of the program ([glob],
    any type [G]), the state of everything outside the program ([dev], any
    type [D]) and the trace of the accesses made so far.  The hardware is not
    part of the repository: it is the class [Machine], an arbitrary device
    that answers each load and each system operation and moves to a new state
    on each access.  Theorems quantify over it; witnesses instantiate it.

    A C null dereference, an out-of-range array access and a loop that runs
    out of the fuel given to it are [Fault]s, so the [wp] of a computation
    states both that it finishes without them and what it returns. *)
From S2P Require Import Prelude.
From stdpp Require Import prelude gmap list strings.
From Stdlib Require Import ZArith Lia.
Local Open Scope Z_scope.

(** ** Outside the program *)

(** AArch64 system operations used by the code, written there as inline
    assembly or in [cache_asm.S]. *)
Inductive sysreg :=
| MPIDR_EL1 | CNTVCT_EL0 | CNTFRQ_EL0 | DAIF | SCTLR_EL1
| TTBR0_EL1 | TTBR1_EL1 | TCR_EL1 | MAIR_EL1 | VBAR_EL1
| ICC_SRE_EL1 | ICC_BPR1_EL1 | ICC_IGRPEN1_EL1 | ICC_PMR_EL1
| ICC_IAR1_EL1 | ICC_EOIR1_EL1 | ICC_DIR_EL1 | ICC_SGI1R_EL1.

Inductive sysop :=
| Mrs (r : sysreg)                    (* read a system register *)
| Msr (r : sysreg) (v : Z)            (* write it *)
| Dsb | Isb | Dmb                     (* barriers *)
| DaifSet (m : Z) | DaifClr (m : Z)   (* msr DAIFSet / DAIFClr, #imm *)
| Udelay (us : Z)                     (* busy wait *)
| Smc (x0 : Z)                        (* call the firmware, with x0 *)
| Call (f obj : string) (args : list Z) (* call an operating system *)
| DcacheFlushAll | DcacheInvAll | IcacheInvAll | TlbInvAll
| DcacheFlushRange (a b : Z) | DcacheInvRange (a b : Z).

#[export] Instance sysreg_eq_dec : EqDecision sysreg.
Proof. solve_decision. Defined.
#[export] Instance sysop_eq_dec : EqDecision sysop.
Proof. solve_decision. Defined.

(** One access of the program to the outside, with the value seen.  [Seen m] is
    no access: it stands right before a store that tells another processor to
    look at byte memory, and records what that memory holds at that moment.
    Byte stores leave no event of their own, so it is what orders them before
    such a store ([writel_shared] of [Mem]). *)
Inductive event :=
| Rd (addr v : Z)
| Wr (addr v : Z)
| Sy (op : sysop) (v : Z)
| Seen (m : gmap Z Z).

#[export] Instance event_eq_dec : EqDecision event.
Proof. solve_decision. Defined.

Class Machine (D : Type) := {
  m_load : Z -> D -> Z * D;
  m_store : Z -> Z -> D -> D;
  m_sys : sysop -> D -> Z * D;
}.

Inductive fault := NullDeref | OutOfBounds | Unmapped | NoFuel | DivZero.

#[export] Instance fault_eq_dec : EqDecision fault.
Proof. solve_decision. Defined.

Record world (G D : Type) := World { glob : G; dev : D; tr : list event }.
Arguments World {_ _} _ _ _.
Arguments glob {_ _} _.
Arguments dev {_ _} _.
Arguments tr {_ _} _.

Inductive outcome (S A : Type) :=
| Done (a : A) (s : S)
| Fault (f : fault).
Arguments Done {_ _} _ _.
Arguments Fault {_ _} _.

(** The value a computation returned, if it did. *)
Definition result {S A} (o : outcome S A) : option A :=
  match o with Done a _ => Some a | Fault _ => None end.

(** ** The monad *)
Definition M (G D A : Type) : Type := world G D -> outcome (world G D) A.

#[export] Instance M_ret G D : MRet (M G D) := fun A a w => Done a w.
#[export] Instance M_bind G D : MBind (M G D) := fun A B f m w =>
  match m w with
  | Done a w' => f a w'
  | Fault e => Fault e
  end.

(** The part [S] of the program's globals [G] that one component owns. *)
Class Has (G S : Type) := {
  hget : G -> S;
  hput : S -> G -> G;
  hget_hput : forall s g, hget (hput s g) = s;
  hput_hget : forall g, hput (hget g) g = g;
  hput_hput : forall s s' g, hput s (hput s' g) = hput s g;
}.

#[export, refine] Instance Has_self S : Has S S | 10 :=
  {| hget g := g; hput s _ := s |}.
Proof. all: reflexivity. Defined.

(** A component without globals of its own. *)
#[export, refine] Instance Has_unit G : Has G unit | 30 :=
  {| hget _ := tt; hput _ g := g |}.
Proof. - by intros []. - done. - done. Defined.

(** Two components side by side: each sees its own half. *)
#[export, refine] Instance Has_fst A B S `{Has A S} : Has (A * B) S | 20 :=
  {| hget g := hget (fst g); hput s g := (hput s (fst g), snd g) |}.
Proof.
  - intros s [a b]. apply hget_hput.
  - intros [a b]. simpl. f_equal. apply hput_hget.
  - intros s s' [a b]. simpl. f_equal. apply hput_hput.
Defined.

#[export, refine] Instance Has_snd A B S `{Has B S} : Has (A * B) S | 20 :=
  {| hget g := hget (snd g); hput s g := (fst g, hput s (snd g)) |}.
Proof.
  - intros s [a b]. apply hget_hput.
  - intros [a b]. simpl. f_equal. apply hput_hget.
  - intros s s' [a b]. simpl. f_equal. apply hput_hput.
Defined.

(** Two parts of the globals that do not overlap. *)
Class Indep (G S T : Type) {HS : Has G S} {HT : Has G T} := {
  indep_l : forall (s : S) (g : G), hget (S := T) (hput s g) = hget g;
  indep_r : forall (t : T) (g : G), hget (S := S) (hput t g) = hget g;
  indep_comm : forall (s : S) (t : T) (g : G), hput s (hput t g) = hput t (hput s g);
}.

#[export] Instance Indep_unit G T `{Has G T} : Indep G T unit | 30.
Proof. split; intros; done. Qed.

#[export] Instance Indep_pair A B S T `{Has A S, Has B T} : Indep (A * B) S T.
Proof. split; intros; reflexivity. Qed.

#[export] Instance Indep_pair_r A B S T `{Has B S, Has A T} : Indep (A * B) S T.
Proof. split; intros; reflexivity. Qed.

#[export] Instance Indep_fst A B S T `{HS : Has A S, HT : Has A T, !Indep A S T} :
  Indep (A * B) S T.
Proof. split; intros; simpl; [apply indep_l | apply indep_r | f_equal; apply indep_comm]. Qed.

#[export] Instance Indep_snd A B S T `{HS : Has B S, HT : Has B T, !Indep B S T} :
  Indep (A * B) S T.
Proof. split; intros; simpl; [apply indep_l | apply indep_r | f_equal; apply indep_comm]. Qed.

Definition NULL : Z := 0.

Section Ops.
Context {G D : Type} `{MD : Machine D}.

Definition fail {A} (f : fault) : M G D A := fun _ => Fault f.

(** [bm_readl], [dmac_readl], [gic_reg_read] ...: a volatile 32-bit load. *)
Definition readl (addr : Z) : M G D Z := fun w =>
  let '(v, d) := m_load addr (dev w) in
  let v := u32 v in
  Done v (World (glob w) d (tr w ++ [Rd addr v])).

(** [bm_writel] ...: a volatile 32-bit store. *)
Definition writel (v addr : Z) : M G D unit := fun w =>
  let v := u32 v in
  Done tt (World (glob w) (m_store addr v (dev w)) (tr w ++ [Wr addr v])).

(** A system operation; the value it yields is a 64-bit one. *)
Definition sys (op : sysop) : M G D Z := fun w =>
  let '(v, d) := m_sys op (dev w) in
  let v := u64 v in
  Done v (World (glob w) d (tr w ++ [Sy op v])).

Definition sys_ (op : sysop) : M G D unit := _ ← sys op; mret tt.

(** The component's own globals. *)
Definition gets {S} `{Has G S} : M G D S := fun w => Done (hget (glob w)) w.
Definition puts {S} `{Has G S} (s : S) : M G D unit := fun w =>
  Done tt (World (hput s (glob w)) (dev w) (tr w)).
Definition modg {S} `{Has G S} (f : S -> S) : M G D unit := fun w =>
  Done tt (World (hput (f (hget (glob w))) (glob w)) (dev w) (tr w)).

Definition when (b : bool) (m : M G D unit) : M G D unit :=
  if b then m else mret tt.

(** A value the C code indexes out of an array: out of range is a fault. *)
Definition some_or {A} (f : fault) (o : option A) : M G D A :=
  match o with Some a => mret a | None => fail f end.

(** Read-modify-write of one bit field of a volatile 32-bit register. *)
Definition rmw_field (addr off len v : Z) : M G D unit :=
  x ← readl addr; writel (bf_set off len v x) addr.

(** [for (i = lo; i < lo + n; i++) body(i)]. *)
Fixpoint for_up (n : nat) (lo : Z) (body : Z -> M G D unit) : M G D unit :=
  match n with
  | O => mret tt
  | S n' => body lo ;; for_up n' (lo + 1) body
  end.

(** A loop whose body either goes on with a new loop state or leaves. *)
Fixpoint loop {S A} (fuel : nat) (body : S -> M G D (S + A)) (s : S) : M G D A :=
  match fuel with
  | O => fail NoFuel
  | Datatypes.S n =>
      r ← body s;
      match r with
      | inl s' => loop n body s'
      | inr a => mret a
      end
  end.

Lemma bind_ret {A B} (a : A) (f : A -> M G D B) : mret a ≫= f = f a.
Proof. reflexivity. Qed.

Lemma loop_S {S A} n (body : S -> M G D (S + A)) (s : S) :
  loop (Datatypes.S n) body s =
  r ← body s; match r with inl s' => loop n body s' | inr a => mret a end.
Proof. reflexivity. Qed.
End Ops.

(** ** Weakest preconditions *)
Definition wp {G D A} (m : M G D A) (Q : A -> world G D -> Prop) (w : world G D) : Prop :=
  match m w with Done a w' => Q a w' | Fault _ => False end.

Section WP.
Context {G D : Type} `{MD : Machine D}.
Implicit Types (w : world G D).

Lemma wp_mono {A} (m : M G D A) (P Q : A -> world G D -> Prop) w :
  wp m P w -> (forall a w', P a w' -> Q a w') -> wp m Q w.
Proof. unfold wp. destruct (m w); naive_solver. Qed.

Lemma wp_and {A} (m : M G D A) (P Q : A -> world G D -> Prop) w :
  wp m P w -> wp m Q w -> wp m (fun a w' => P a w' /\ Q a w') w.
Proof. unfold wp. destruct (m w); naive_solver. Qed.

Lemma wp_ret {A} (a : A) (Q : A -> world G D -> Prop) w : Q a w -> wp (mret a) Q w.
Proof. done. Qed.

Lemma wp_bind {A B} (m : M G D A) (f : A -> M G D B) Q w :
  wp m (fun a w' => wp (f a) Q w') w -> wp (m ≫= f) Q w.
Proof. unfold wp, mbind, M_bind. by destruct (m w). Qed.

Lemma wp_bind_inv {A B} (m : M G D A) (f : A -> M G D B) Q w :
  wp (m ≫= f) Q w -> wp m (fun a w' => wp (f a) Q w') w.
Proof. unfold wp, mbind, M_bind. by destruct (m w). Qed.

Lemma wp_readl a (Q : Z -> world G D -> Prop) w :
  (forall v d, fits 32 v -> Q v (World (glob w) d (tr w ++ [Rd a v]))) ->
  wp (readl a) Q w.
Proof.
  intros H. unfold wp, readl. destruct (m_load a (dev w)) as [v d].
  apply H. by apply wrap_fits.
Qed.

Lemma wp_writel v a (Q : unit -> world G D -> Prop) w :
  (forall d, Q tt (World (glob w) d (tr w ++ [Wr a (u32 v)]))) ->
  wp (writel v a) Q w.
Proof. intros H. apply H. Qed.

Lemma wp_sys op (Q : Z -> world G D -> Prop) w :
  (forall v d, fits 64 v -> Q v (World (glob w) d (tr w ++ [Sy op v]))) ->
  wp (sys op) Q w.
Proof.
  intros H. unfold wp, sys. destruct (m_sys op (dev w)) as [v d].
  apply H. by apply wrap_fits.
Qed.

Lemma wp_sys_ op (Q : unit -> world G D -> Prop) w :
  (forall v d, fits 64 v -> Q tt (World (glob w) d (tr w ++ [Sy op v]))) ->
  wp (sys_ op) Q w.
Proof. intros H. apply wp_bind, wp_sys. intros v d Hv. by apply wp_ret, H. Qed.

Lemma wp_gets {S} `{Has G S} (Q : S -> world G D -> Prop) w :
  Q (hget (glob w)) w -> wp gets Q w.
Proof. done. Qed.

Lemma wp_puts {S} `{Has G S} (s : S) (Q : unit -> world G D -> Prop) w :
  Q tt (World (hput s (glob w)) (dev w) (tr w)) -> wp (puts s) Q w.
Proof. done. Qed.

Lemma wp_modg {S} `{Has G S} (f : S -> S) (Q : unit -> world G D -> Prop) w :
  Q tt (World (hput (f (hget (glob w))) (glob w)) (dev w) (tr w)) -> wp (modg f) Q w.
Proof. done. Qed.

Lemma wp_some_or {A} f (o : option A) (Q : A -> world G D -> Prop) w :
  (exists a, o = Some a /\ Q a w) -> wp (some_or f o) Q w.
Proof. intros (a & -> & HQ). by apply wp_ret. Qed.

Lemma wp_rmw_field addr off len v (Q : unit -> world G D -> Prop) w :
  (forall x d, fits 32 x ->
     Q tt (World (glob w) d (tr w ++ [Rd addr x; Wr addr (u32 (bf_set off len v x))]))) ->
  wp (rmw_field addr off len v) Q w.
Proof.
  intros H. apply wp_bind, wp_readl. intros x d Hx.
  apply wp_writel. intros d'. simpl. rewrite <- app_assoc. by apply H.
Qed.

(** The rule of counted loops: [I k] holds after [k] rounds. *)
Lemma wp_for_up (I : Z -> world G D -> Prop) n lo body w :
  I lo w ->
  (forall i w', lo <= i < lo + Z.of_nat n -> I i w' ->
     wp (body i) (fun _ w'' => I (i + 1) w'') w') ->
  wp (for_up n lo body) (fun _ w' => I (lo + Z.of_nat n) w') w.
Proof.
  revert lo w. induction n as [| n IH]; intros lo w HI Hb; simpl.
  - apply wp_ret. by replace (lo + Z.of_nat 0) with lo by lia.
  - apply wp_bind. eapply wp_mono; [apply Hb; [lia | done] |].
    intros [] w' HI'. replace (lo + Z.of_nat (S n)) with (lo + 1 + Z.of_nat n) by lia.
    apply IH; [done |]. intros i w'' Hi. apply Hb. lia.
Qed.

(** The rule of general loops: an invariant and a decreasing measure give
    both the result and termination within the fuel. *)
Lemma wp_loop {S A} (I : S -> world G D -> Prop) (m : S -> world G D -> nat)
    fuel (body : S -> M G D (S + A)) s (Q : A -> world G D -> Prop) w :
  (forall s w, I s w ->
     wp (body s) (fun r w' =>
       match r with
       | inl s' => I s' w' /\ (m s' w' < m s w)%nat
       | inr a => Q a w'
       end) w) ->
  I s w -> (m s w < fuel)%nat -> wp (loop fuel body s) Q w.
Proof.
  intros Hb. revert s w. induction fuel as [| fuel IH]; intros s w HI Hm; [lia |].
  simpl. apply wp_bind. eapply wp_mono; [by apply Hb |].
  intros [s' | a] w'; simpl; [| by intros ?; apply wp_ret].
  intros [HI' Hlt]. apply IH; [done | lia].
Qed.
End WP.

(** Step through a computation: one rule per monadic primitive. *)
Ltac wp_step :=
  lazymatch goal with
  | |- wp (mbind _ _) _ _ => apply wp_bind
  | |- wp (mret _) _ _ => apply wp_ret
  | |- wp (readl _) _ _ => apply wp_readl; intros ?v ?d ?Hv
  | |- wp (writel _ _) _ _ => apply wp_writel; intros ?d
  | |- wp (sys _) _ _ => apply wp_sys; intros ?v ?d ?Hv
  | |- wp (sys_ _) _ _ => apply wp_sys_; intros ?v ?d ?Hv
  | |- wp gets _ _ => apply wp_gets
  | |- wp (puts _) _ _ => apply wp_puts
  | |- wp (modg _) _ _ => apply wp_modg
  | |- wp (rmw_field _ _ _ _) _ _ => apply wp_rmw_field; intros ?x ?d ?Hx
  | |- wp (when true _) _ _ => unfold when
  | |- wp (when false _) _ _ => unfold when
  end; cbn [glob dev tr].

Ltac wp_steps := repeat wp_step.

(** Use the specification [L] of the computation in front. *)
Tactic Notation "wp_apply" uconstr(L) :=
  eapply wp_mono; [apply L | cbv beta].

(** Flatten [((t ++ a) ++ b) ++ c]. *)
Ltac trace_simpl := rewrite <- ?app_assoc; cbn [app].

(** ** Views of a trace *)
Definition ev_write (e : event) : option (Z * Z) :=
  match e with Wr a v => Some (a, v) | _ => None end.
Definition writes (t : list event) : list (Z * Z) := omap ev_write t.

(** Every register access of [t] falls in [lo, hi). *)
Definition ev_in (lo hi : Z) (e : event) : Prop :=
  match e with Rd a _ | Wr a _ => lo <= a < hi | Sy _ _ | Seen _ => True end.
Definition within (lo hi : Z) (t : list event) : Prop := Forall (ev_in lo hi) t.

#[export] Instance ev_in_dec lo hi e : Decision (ev_in lo hi e).
Proof. destruct e; apply _. Defined.

Lemma writes_app t1 t2 : writes (t1 ++ t2) = writes t1 ++ writes t2.
Proof. apply omap_app. Qed.

(** The writes to one block of registers. *)
Definition writes_in (lo hi : Z) (t : list event) : list (Z * Z) :=
  filter (fun x => lo <= x.1 < hi) (writes t).

Lemma writes_in_app lo hi t1 t2 : writes_in lo hi (t1 ++ t2) = writes_in lo hi t1 ++ writes_in lo hi t2.
Proof. unfold writes_in. by rewrite writes_app, filter_app. Qed.

Lemma writes_in_wr lo hi a v t : lo <= a < hi ->
  writes_in lo hi (Wr a v :: t) = (a, v) :: writes_in lo hi t.
Proof. intros H. unfold writes_in. simpl. by rewrite filter_cons_True. Qed.

Lemma writes_in_out lo hi a v t : a < lo \/ hi <= a ->
  writes_in lo hi (Wr a v :: t) = writes_in lo hi t.
Proof. intros H. unfold writes_in. simpl. rewrite filter_cons_False; [done | simpl; lia]. Qed.

(** A block that a trace does not touch. *)
Definition outside (lo hi : Z) (e : event) : Prop :=
  match e with Rd a _ | Wr a _ => a < lo \/ hi <= a | Sy _ _ | Seen _ => True end.

Lemma writes_in_outside lo hi t : Forall (outside lo hi) t -> writes_in lo hi t = [].
Proof.
  induction 1 as [| [a v | a v | op v | m] t H _ IH]; [done | exact IH | | exact IH | exact IH].
  by rewrite writes_in_out.
Qed.

(** Evaluate [writes_in] on a concrete trace; [lia] places each address. *)
Ltac writes_in :=
  repeat first
  [ rewrite writes_in_app
  | rewrite writes_in_wr by lia
  | rewrite writes_in_out by lia
  | rewrite writes_in_outside by assumption
  | progress change (writes_in ?lo ?hi (Rd ?a ?v :: ?t)) with (writes_in lo hi t)
  | progress change (writes_in ?lo ?hi (Sy ?o ?v :: ?t)) with (writes_in lo hi t)
  | progress change (writes_in ?lo ?hi []) with (@nil (Z * Z)) ];
  cbn [app].

(** ** A concrete machine: registers that are plain memory

    Used by the witnesses, and by the theorems about what a driver leaves in
    the registers when they keep what is written to them. *)
Record ram := Ram { ram_cells : gmap Z Z; ram_sys : sysop -> Z }.

#[export] Instance ram_machine : Machine ram := {|
  m_load a d := (default 0 (ram_cells d !! a), d);
  m_store a v d := Ram (<[a := v]> (ram_cells d)) (ram_sys d);
  m_sys op d := (ram_sys d op, d);
|}.

Definition ram0 : ram := Ram ∅ (fun _ => 0).

(** ** Specifications by trace

    [emits m w P]: from [w], [m] returns some [a] without a fault, leaves the
    globals alone and appends a trace [t] with [P a t], whatever the device
    answers. *)
Definition emits {G D A} (m : M G D A) (w : world G D) (P : A -> list event -> Prop) : Prop :=
  wp m (fun a w' => glob w' = glob w /\ exists t, tr w' = tr w ++ t /\ P a t) w.

Section Emits.
Context {G D : Type} `{MD : Machine D}.
Implicit Types (w : world G D).

Lemma emits_mono {A} (m : M G D A) w (P Q : A -> list event -> Prop) :
  emits m w P -> (forall a t, P a t -> Q a t) -> emits m w Q.
Proof.
  intros Hm HPQ. eapply wp_mono; [exact Hm |]. cbv beta.
  intros a w' (Hg & t & Ht & HP). eauto.
Qed.

Lemma emits_ret {A} (a : A) w (P : A -> list event -> Prop) : P a [] -> emits (mret a) w P.
Proof. intros HP. apply wp_ret. split; [done |]. exists []. by rewrite app_nil_r. Qed.

Lemma emits_bind {A B} (m : M G D A) (f : A -> M G D B) w (P : B -> list event -> Prop) :
  emits m w (fun a t => forall w', glob w' = glob w ->
    emits (f a) w' (fun b t' => P b (t ++ t'))) ->
  emits (m ≫= f) w P.
Proof.
  intros Hm. apply wp_bind. eapply wp_mono; [exact Hm |]. cbv beta.
  intros a w' (Hg & t & Ht & HP). eapply wp_mono; [by apply HP |]. cbv beta.
  intros b w'' (Hg' & t' & Ht' & HP'). split; [congruence |].
  exists (t ++ t'). split; [by rewrite Ht', Ht, app_assoc | done].
Qed.

Lemma emits_readl a w (P : Z -> list event -> Prop) :
  (forall v, fits 32 v -> P v [Rd a v]) -> emits (readl a) w P.
Proof. intros H. apply wp_readl. intros v d Hv. split; [done |]. exists [Rd a v]. auto. Qed.

Lemma emits_writel v a w (P : unit -> list event -> Prop) :
  P tt [Wr a (u32 v)] -> emits (writel v a) w P.
Proof. intros H. apply wp_writel. intros d. split; [done |]. exists [Wr a (u32 v)]. auto. Qed.

Lemma emits_sys op w (P : Z -> list event -> Prop) :
  (forall v, fits 64 v -> P v [Sy op v]) -> emits (sys op) w P.
Proof. intros H. apply wp_sys. intros v d Hv. split; [done |]. exists [Sy op v]. auto. Qed.

Lemma emits_sys_ op w (P : unit -> list event -> Prop) :
  (forall v, fits 64 v -> P tt [Sy op v]) -> emits (sys_ op) w P.
Proof. intros H. apply wp_sys_. intros v d Hv. split; [done |]. exists [Sy op v]. auto. Qed.

Lemma emits_gets {S} `{Has G S} w (P : S -> list event -> Prop) :
  P (hget (glob w)) [] -> emits gets w P.
Proof. intros HP. apply wp_gets. split; [done |]. exists []. by rewrite app_nil_r. Qed.

Lemma emits_wp {A} (m : M G D A) w (P : A -> list event -> Prop) :
  emits m w P ->
  wp m (fun a w' => glob w' = glob w /\ exists t, tr w' = tr w ++ t /\ P a t) w.
Proof. done. Qed.

(** The rule of loops: [I] holds of the loop state and the trace so far. *)
Lemma emits_loop {S A} (I : S -> list event -> Prop) (m : S -> nat) fuel
    (body : S -> M G D (S + A)) s w (P : A -> list event -> Prop) :
  (forall s t w', glob w' = glob w -> I s t ->
     emits (body s) w' (fun r t' =>
       match r with
       | inl s' => I s' (t ++ t') /\ (m s' < m s)%nat
       | inr a => P a (t ++ t')
       end)) ->
  I s [] -> (m s < fuel)%nat -> emits (loop fuel body s) w P.
Proof.
  intros Hb HI Hm.
  enough (forall t w', glob w' = glob w -> I s t ->
    emits (loop fuel body s) w' (fun a t' => P a (t ++ t'))) as H by (by apply (H [])).
  clear HI. revert s Hm. induction fuel as [| n IH]; intros s Hm t w' Hw HI; [lia |].
  rewrite loop_S. apply emits_bind. eapply emits_mono; [by apply Hb |]. cbv beta.
  intros [s' | a] t'.
  - intros [HI' Hlt] w2 Hw2. eapply emits_mono; [apply IH; [lia | congruence | exact HI'] |].
    cbv beta. intros a t2 HP. by rewrite app_assoc.
  - intros HP w2 Hw2. apply emits_ret. by rewrite app_nil_r.
Qed.

(** *** Polling loops: [do v = read(addr); while (more v)] *)
Definition poll (fuel : nat) (addr : Z) (more : Z -> bool) : M G D Z :=
  loop fuel (fun _ : unit =>
    v ← readl addr; mret (if more v then inl tt else inr v)) tt.

(** The accesses of a poll: reads of [addr], the last one [v] is accepted. *)
Definition polled (addr : Z) (more : Z -> bool) (v : Z) (t : list event) : Prop :=
  more v = false /\ exists vs, t = ((fun x => Rd addr x) <$> vs) ++ [Rd addr v] /\
  Forall (fun x => more x = true) vs.

(** The device state after [k] reads of [addr]. *)
Fixpoint after_reads (addr : Z) (k : nat) (d : D) : D :=
  match k with O => d | S k' => after_reads addr k' (snd (m_load addr d)) end.

(** From any state the register accepts within [n] reads. *)
Definition settles_in (n : nat) (addr : Z) (more : Z -> bool) : Prop :=
  forall d, exists k, (k < n)%nat /\
    more (u32 (fst (m_load addr (after_reads addr k d)))) = false.

Lemma emits_poll fuel addr more w :
  settles_in fuel addr more ->
  emits (poll fuel addr more) w (fun v t => fits 32 v /\ polled addr more v t).
Proof.
  intros Hs. destruct (Hs (dev w)) as (k & Hk & Hmore). clear Hs. unfold poll, emits.
  revert k w Hk Hmore. induction fuel as [| fuel IH]; intros k w Hk Hmore; [lia |].
  cbn [loop]. apply wp_bind, wp_bind. unfold wp at 1, readl.
  destruct (m_load addr (dev w)) as [v0 d0] eqn:E. set (v := u32 v0).
  unfold wp at 1. cbv beta. unfold mret, M_ret. cbv beta iota.
  destruct (more v) eqn:Em.
  - destruct k as [| k]; simpl in Hmore; rewrite E in Hmore; simpl in Hmore;
      [subst v; congruence |].
    eapply wp_mono; [apply (IH k); [lia | exact Hmore] |]. cbv beta. cbn [glob tr].
    intros u w' (Hg & t & Ht & Hu & Hp & vs & -> & Hvs). split; [done |].
    eexists. split; [rewrite Ht, <- app_assoc; reflexivity |]. split; [done |]. split; [done |].
    exists (v :: vs). split; [done |]. by constructor.
  - unfold wp. cbn [glob tr]. split; [done |]. exists [Rd addr v]. split; [done |].
    split; [by apply wrap_fits |]. split; [done |]. by exists [].
Qed.
End Emits.

(** Compute the trace of straight-line code. *)
Ltac emits_step :=
  lazymatch goal with
  | |- emits (mbind _ _) _ _ => apply emits_bind
  | |- emits (mret _) _ _ => apply emits_ret; cbv beta; try (intros ?w ?Hw)
  | |- emits (readl _) _ _ => apply emits_readl; intros ?v ?Hv; cbv beta; try (intros ?w ?Hw)
  | |- emits (writel _ _) _ _ => apply emits_writel; cbv beta; try (intros ?w ?Hw)
  | |- emits (sys _) _ _ => apply emits_sys; intros ?v ?Hv; cbv beta; try (intros ?w ?Hw)
  | |- emits (sys_ _) _ _ => apply emits_sys_; intros ?v ?Hv; cbv beta; try (intros ?w ?Hw)
  | |- emits gets _ _ => apply emits_gets; cbv beta; try (intros ?w ?Hw)
  end.
Ltac emits_steps := repeat emits_step; cbn [app].

(** Use the trace specification [L] of the computation in front. *)
Tactic Notation "emits_apply" uconstr(L) :=
  eapply emits_mono; [apply L | cbv beta].

(** ** What an operation leaves alone

    [quiet S P m]: from every state, [m] ends without a fault, the part [S] of
    the globals is what it was, and every access made satisfies [P]. *)
Definition quiet {G D A} (S : Type) `{Has G S} (P : event -> Prop) (m : M G D A) : Prop :=
  forall w, wp m (fun _ w' => hget (S := S) (glob w') = hget (glob w) /\
    exists t, tr w' = tr w ++ t /\ Forall P t) w.

Section Quiet.
Context {G D : Type} `{MD : Machine D} {S : Type} `{HS : !Has G S} (P : event -> Prop).
Implicit Types (w : world G D).

Lemma quiet_ret {A} (a : A) : quiet (G := G) (D := D) S P (mret a).
Proof. intros w. apply wp_ret. split; [done |]. exists []. by rewrite app_nil_r. Qed.

Lemma quiet_bind {A B} (m : M G D A) (f : A -> M G D B) :
  quiet S P m -> (forall a, quiet S P (f a)) -> quiet S P (m ≫= f).
Proof.
  intros Hm Hf w. apply wp_bind. eapply wp_mono; [apply Hm |]. cbv beta.
  intros a w1 (Hg & t & Ht & HP). eapply wp_mono; [apply Hf |]. cbv beta.
  intros b w2 (Hg' & t' & Ht' & HP'). split; [congruence |].
  exists (t ++ t'). rewrite Ht', Ht, app_assoc. split; [done |]. by apply Forall_app.
Qed.

Lemma quiet_emits {A} (m : M G D A) :
  (forall w, emits m w (fun _ t => Forall P t)) -> quiet S P m.
Proof.
  intros Hm w. eapply wp_mono; [apply Hm |]. cbv beta.
  intros a w' (Hg & t & Ht & HP). split; [by rewrite Hg | by exists t].
Qed.

Lemma quiet_readl a : (forall v, P (Rd a v)) -> quiet (G := G) (D := D) S P (readl a).
Proof. intros HP. apply quiet_emits. intros w. apply emits_readl. intros v _. by constructor. Qed.

Lemma quiet_writel v a : P (Wr a (u32 v)) -> quiet (G := G) (D := D) S P (writel v a).
Proof. intros HP. apply quiet_emits. intros w. apply emits_writel. by constructor. Qed.

Lemma quiet_sys op : (forall v, P (Sy op v)) -> quiet (G := G) (D := D) S P (sys op).
Proof. intros HP. apply quiet_emits. intros w. apply emits_sys. intros v _. by constructor. Qed.

Lemma quiet_sys_ op : (forall v, P (Sy op v)) -> quiet (G := G) (D := D) S P (sys_ op).
Proof. intros HP. apply quiet_bind; [by apply quiet_sys | intros; apply quiet_ret]. Qed.

Lemma quiet_gets {T} `{Has G T} : quiet (G := G) (D := D) S P (gets (S := T)).
Proof. intros w. apply wp_gets. split; [done |]. exists []. by rewrite app_nil_r. Qed.

(** Another part of the globals may change. *)
Lemma quiet_modg {T} `{HT : !Has G T} `{IN : !Indep G T S} (f : T -> T) :
  quiet (G := G) (D := D) S P (modg f).
Proof.
  intros w. apply wp_modg. cbn [glob tr]. split; [apply indep_l |]. exists [].
  by rewrite app_nil_r.
Qed.

Lemma quiet_when b (m : M G D unit) : quiet S P m -> quiet S P (when b m).
Proof. intros Hm. destruct b; [done | apply quiet_ret]. Qed.

Lemma quiet_for_up n lo (body : Z -> M G D unit) :
  (forall i, lo <= i < lo + Z.of_nat n -> quiet S P (body i)) -> quiet S P (for_up n lo body).
Proof.
  revert lo. induction n as [| n IH]; intros lo Hb; cbn [for_up]; [apply quiet_ret |].
  apply quiet_bind; [apply Hb; lia |]. intros []. apply IH. intros i Hi. apply Hb. lia.
Qed.
End Quiet.

Lemma quiet_weaken {G D A S} `{Has G S} (P Q : event -> Prop) (m : M G D A) :
  quiet S P m -> (forall e, P e -> Q e) -> quiet S Q m.
Proof.
  intros Hm HPQ w. eapply wp_mono; [apply Hm |]. cbv beta.
  intros a w' (Hg & t & Ht & HP). split; [done |]. exists t. split; [done |].
  eapply Forall_impl; [exact HP | exact HPQ].
Qed.

(** Step through a computation that should be quiet. *)
Ltac quiet_step :=
  lazymatch goal with
  | |- quiet _ _ (mbind _ _) => apply quiet_bind; [| intros ?]
  | |- quiet _ _ (mret _) => apply quiet_ret
  | |- quiet _ _ (readl _) => apply quiet_readl; intros ?
  | |- quiet _ _ (writel _ _) => apply quiet_writel
  | |- quiet _ _ (sys _) => apply quiet_sys; intros ?
  | |- quiet _ _ (sys_ _) => apply quiet_sys_; intros ?
  | |- quiet _ _ gets => apply quiet_gets
  | |- quiet _ _ (modg _) => apply quiet_modg; try exact _
  | |- quiet _ _ (when _ _) => apply quiet_when
  | |- quiet _ _ (for_up _ _ _) => apply quiet_for_up; intros ? ?
  | |- quiet _ _ (if ?b then _ else _) => destruct b
  | |- quiet _ _ (let _ := _ in _) => cbv zeta
  end.
Ltac quiet_steps := repeat quiet_step.

(** ** A device that always answers the same: [f] for loads, [g] for system
    operations; it has one state. *)
Inductive fixed (f : Z -> Z) (g : sysop -> Z) := Fixed.
Arguments Fixed {_ _}.

#[export] Instance fixed_machine f g : Machine (fixed f g) := {|
  m_load a d := (f a, d);
  m_store a v d := d;
  m_sys op d := (g op, d);
|}.
