(* ===== verification/Common.v ===== *)
(** * Common: what every driver of src/real_time/drivers shares

    Return codes ([include/bm_types.h]), the register accessors of the three
    subsystem control blocks ([common/lp_subsys.c], [common/hp_subsys.c],
    [common/reg_sysctrl.c]), the pin-mux accessors ([common/io_config.c]), the
    core id, the tick counter and the busy wait ([common/bm_common.c]) and the
    address check of [include/bm_common.h].

    A pointer the code only tests against NULL and stores one value through is
    a [bool] (non-null) here, and the value stored is part of the result. *)
From S2P Require Import Prelude Hw.
From stdpp Require Import prelude gmap list strings.
From Stdlib Require Import ZArith Lia Btauto.
Local Open Scope Z_scope.

Definition BM_OK : Z := 0.
Definition BM_FAIL : Z := -1.
Definition BM_TIMEOUT : Z := -2.
Definition BM_WAIT_FOREVER : Z := 0xffffffff.
Definition BM_MAX_CORE_NUM : Z := 4.

(** The interrupt mask of the core, and the clock gates of the low-speed subsystem. *)
Definition DAIF_IRQ_BIT : Z := 2.
Definition INT_MASK : Z := 128.
Definition LPSC_CLKEN_CTRL0 : Z := 0x10.

(** The transfer segment: its bounds are linker symbols. *)
Class Xfer := { xfer_segment_start : Z; xfer_segment_end : Z }.

(** [is_invalid_addr_len] with [BM_ADDR_PROTECT] on: 0 when the buffer lies in
    the transfer segment, 1 otherwise. *)
Definition is_invalid_addr_len `{Xfer} (addr len : Z) : Z :=
  let tmp := u64 (addr + len) in
  if (u32 xfer_segment_start <=? addr) && (addr <? u32 xfer_segment_end)
     && (u32 xfer_segment_start <? tmp) && (tmp <=? u32 xfer_segment_end)
  then 0 else 1.

Section Common.
Context {G D : Type} `{MD : Machine D}.
Abbreviation M := (M G D).

(** ** Core id and time *)
Definition bm_core_mpid_cpuid (mpid : Z) : Z :=
  Z.land (Z.lor mpid (Z.shiftr mpid 8)) 0xFF.

Definition bm_get_coreid : M Z :=
  mpid ← sys (Mrs MPIDR_EL1); mret (bm_core_mpid_cpuid mpid).

Definition bm_get_tick : M Z := sys (Mrs CNTVCT_EL0).

(** [while (more cur) cur = bm_get_tick();] *)
Definition tick_while (fuel : nat) (more : Z -> bool) (cur : Z) : M Z :=
  loop fuel (fun cur =>
    if more cur then t ← bm_get_tick; mret (inl t) else mret (inr cur)) cur.

Definition udelay (fuel : nat) (usec : Z) : M unit :=
  cur_freq ← sys (Mrs CNTFRQ_EL0);
  let cycles := u64 (usec * cur_freq) / 1000000 in
  cur ← bm_get_tick;
  let end_ := u64 (cur + cycles) in
  if cur <? end_ then
    _ ← tick_while fuel (fun c => c <? end_) cur; mret tt
  else
    cur ← tick_while fuel (fun c => end_ <? c) cur;
    _ ← tick_while fuel (fun c => c <? end_) cur; mret tt.

(** ** Subsystem control blocks *)
Definition csr_reg_read (base offset : Z) (val : bool) : M (Z * option Z) :=
  if negb val then mret (BM_FAIL, None)
  else v ← readl (u32 (base + offset)); mret (BM_OK, Some v).

Definition csr_reg_write (base offset val : Z) : M Z :=
  writel val (u32 (base + offset)) ;; mret BM_OK.

Definition csr_reg_read_write (base offset mask val : Z) : M Z :=
  value ← readl (u32 (base + offset));
  writel (mask_merge mask val value) (u32 (base + offset)) ;;
  mret BM_OK.

Definition csr_reg_set_bits (base offset mask set_bit : Z) : M Z :=
  value ← readl (u32 (base + offset));
  let value := Z.land value (bnot 32 mask) in
  let value := if ctrue set_bit then Z.lor value mask else value in
  writel value (u32 (base + offset)) ;;
  mret BM_OK.

Definition LP_SUBSYS_CSR_BASE_ADDR : Z := 0x871d000.
Definition bm_lp_subsys_reg_read := csr_reg_read LP_SUBSYS_CSR_BASE_ADDR.
Definition bm_lp_subsys_reg_write := csr_reg_write LP_SUBSYS_CSR_BASE_ADDR.
Definition bm_lp_subsys_reg_read_write := csr_reg_read_write LP_SUBSYS_CSR_BASE_ADDR.
Definition bm_lp_subsys_reg_set_bits := csr_reg_set_bits LP_SUBSYS_CSR_BASE_ADDR.

Definition HP_SUB_CSR_BASE_ADDR : Z := 0xcd0c000.
Definition bm_hp_subsys_reg_read := csr_reg_read HP_SUB_CSR_BASE_ADDR.
Definition bm_hp_subsys_reg_write := csr_reg_write HP_SUB_CSR_BASE_ADDR.
Definition bm_hp_subsys_reg_read_write := csr_reg_read_write HP_SUB_CSR_BASE_ADDR.
Definition bm_hp_subsys_reg_set_bits := csr_reg_set_bits HP_SUB_CSR_BASE_ADDR.

Definition SYSCTRL_CSR_BASE_ADDR : Z := 0x8740000.
Definition bm_sysctrl_reg_read := csr_reg_read SYSCTRL_CSR_BASE_ADDR.
Definition bm_sysctrl_reg_write := csr_reg_write SYSCTRL_CSR_BASE_ADDR.
Definition bm_sysctrl_reg_read_write := csr_reg_read_write SYSCTRL_CSR_BASE_ADDR.
Definition bm_sysctrl_reg_set_bits := csr_reg_set_bits SYSCTRL_CSR_BASE_ADDR.

(** ** Pin multiplexing: the base comes from a two-entry table *)
Definition IO_CONFIG_R : Z := 0.
Definition IO_CONFIG_T : Z := 1.
Definition g_io_config_base : list Z := [0x876e000; 0x8745000].

(** [g_io_config_base[type] + offset], an [unsigned long] sum; a type
    outside the table is an out-of-range array access. *)
Definition io_config_addr (type offset : Z) : M Z :=
  base ← some_or OutOfBounds (g_io_config_base !! Z.to_nat type);
  mret (u64 (base + offset)).

Definition bm_io_config_read (type offset : Z) (val : bool) : M (Z * option Z) :=
  if negb val || (IO_CONFIG_T <? type) then mret (BM_FAIL, None)
  else a ← io_config_addr type offset; v ← readl a; mret (BM_OK, Some v).

Definition bm_io_config_write (type offset val : Z) : M Z :=
  if IO_CONFIG_T <? type then mret BM_FAIL
  else a ← io_config_addr type offset; writel val a ;; mret BM_OK.

Definition bm_io_config_read_write (type offset mask val : Z) : M Z :=
  if IO_CONFIG_T <? type then mret BM_FAIL
  else
    a ← io_config_addr type offset;
    temp_val ← readl a;
    writel (mask_merge mask val temp_val) a ;; mret BM_OK.

Definition bm_io_config_set_bits (type offset mask set_bit : Z) : M Z :=
  if IO_CONFIG_T <? type then mret BM_FAIL
  else
    a ← io_config_addr type offset;
    val ← readl a;
    let val := Z.land val (bnot 32 mask) in
    let val := if ctrue set_bit then Z.lor val mask else val in
    writel val a ;; mret BM_OK.

Definition bm_io_config_r_read := bm_io_config_read IO_CONFIG_R.
Definition bm_io_config_t_read := bm_io_config_read IO_CONFIG_T.
Definition bm_io_config_r_write := bm_io_config_write IO_CONFIG_R.
Definition bm_io_config_t_write := bm_io_config_write IO_CONFIG_T.
Definition bm_io_config_r_read_write := bm_io_config_read_write IO_CONFIG_R.
Definition bm_io_config_t_read_write := bm_io_config_read_write IO_CONFIG_T.
Definition bm_io_config_r_set_bits := bm_io_config_set_bits IO_CONFIG_R.
Definition bm_io_config_t_set_bits := bm_io_config_set_bits IO_CONFIG_T.
End Common.

(** ** Rules for clients: what each accessor does, for any device *)
Section CommonRules.
Context {G D : Type} `{MD : Machine D}.
Implicit Types (w : world G D).

Lemma wp_csr_reg_read base off (Q : Z * option Z -> world G D -> Prop) w :
  (forall v d, fits 32 v ->
     Q (BM_OK, Some v) (World (glob w) d (tr w ++ [Rd (u32 (base + off)) v]))) ->
  wp (csr_reg_read base off true) Q w.
Proof. intros H. unfold csr_reg_read. simpl. wp_steps. by apply H. Qed.

Lemma wp_csr_reg_write base off val (Q : Z -> world G D -> Prop) w :
  (forall d, Q BM_OK (World (glob w) d (tr w ++ [Wr (u32 (base + off)) (u32 val)]))) ->
  wp (csr_reg_write base off val) Q w.
Proof. intros H. unfold csr_reg_write. wp_steps. apply H. Qed.

(** The masked update as the accessors make it: bits of [mask] come from
    [val], the others keep the value that was read. *)
Lemma wp_csr_reg_read_write base off mask val (Q : Z -> world G D -> Prop) w :
  fits 32 mask ->
  (forall old d, fits 32 old ->
     Q BM_OK (World (glob w) d (tr w ++
       [Rd (u32 (base + off)) old; Wr (u32 (base + off)) (mask_merge mask val old)]))) ->
  wp (csr_reg_read_write base off mask val) Q w.
Proof.
  intros Hm H. unfold csr_reg_read_write. wp_steps. trace_simpl.
  rewrite (wrap_id 32 (mask_merge _ _ _)) by fits. by apply H.
Qed.

Lemma set_bits_merge mask set_bit old : fits 32 mask ->
  (let v := Z.land old (bnot 32 mask) in if ctrue set_bit then Z.lor v mask else v)
  = mask_merge mask (if ctrue set_bit then mask else 0) old.
Proof.
  intros Hm. cbv zeta. unfold mask_merge. destruct (ctrue set_bit).
  - by rewrite Z.land_diag.
  - by rewrite Z.land_0_l, Z.lor_0_r.
Qed.

(** [set_bits] is the masked update with all ones or all zeros. *)
Lemma csr_set_bits_is_read_write base off mask set_bit w :
  fits 32 mask ->
  csr_reg_set_bits base off mask set_bit w
  = csr_reg_read_write base off mask (if ctrue set_bit then mask else 0) w.
Proof.
  intros Hm. unfold csr_reg_set_bits, csr_reg_read_write, mbind, M_bind.
  destruct (readl _ w) as [old w' | f]; [| done].
  pose proof (set_bits_merge mask set_bit old Hm) as E. cbv zeta in *. by rewrite E.
Qed.

Lemma wp_bm_get_coreid (Q : Z -> world G D -> Prop) w :
  (forall mpid d, fits 8 (bm_core_mpid_cpuid mpid) ->
     Q (bm_core_mpid_cpuid mpid) (World (glob w) d (tr w ++ [Sy (Mrs MPIDR_EL1) mpid]))) ->
  wp bm_get_coreid Q w.
Proof.
  intros H. unfold bm_get_coreid. wp_steps. apply H.
  apply land_fits_r; [lia | unfold fits; lia].
Qed.
End CommonRules.

(** ** The address check accepts exactly the buffers inside the segment *)
Lemma is_invalid_addr_len_iff `{Xfer} addr len :
  fits 32 xfer_segment_start -> fits 32 xfer_segment_end ->
  fits 32 addr -> fits 32 len ->
  is_invalid_addr_len addr len = 0 <->
  xfer_segment_start <= addr /\ addr < xfer_segment_end /\
  xfer_segment_start < addr + len <= xfer_segment_end.
Proof.
  intros Hs He Ha Hl. unfold is_invalid_addr_len.
  rewrite !(wrap_id 32), (wrap_id 64) by (done || (unfold fits in *; lia)).
  destruct (_ && _) eqn:E; repeat (rewrite ?andb_true_iff, ?andb_false_iff in E); lia.
Qed.
