(* ===== verification/Clock.v ===== *)
(** * Clock: the busy wait against a counter that ticks

    [udelay] of common/bm_common.c (modelled in [Common]) on a processor whose
    generic timer never goes back, moves by at most [clk_step] ticks from one
    read to the next (it may not move at all), has moved after [clk_stall]
    reads in a row, and does not reach 2^64 during the wait. *)
From S2P Require Import Prelude Hw Common.
From stdpp Require Import prelude gmap list strings.
From Stdlib Require Import ZArith Lia.
Local Open Scope Z_scope.

(** The state after [n] reads of the counter in a row. *)
Fixpoint clk_reads {D} `{Machine D} (n : nat) (d : D) : D :=
  match n with O => d | S n' => clk_reads n' (snd (m_sys (Mrs CNTVCT_EL0) d)) end.

(** The generic timer as the architecture describes it: a read may see what the
    read before saw; time does pass, so after [clk_stall] reads the counter
    has moved. *)
Class Clock (D : Type) `{Machine D} := {
  now : D -> Z;
  clk_freq : Z;
  clk_step : Z;
  clk_stall : nat;
  clk_read d : fst (m_sys (Mrs CNTVCT_EL0) d) = now d;
  clk_ticks d : now d <= now (snd (m_sys (Mrs CNTVCT_EL0) d)) <= now d + clk_step;
  clk_moves d : now d < now (clk_reads clk_stall d);
  clk_frq d : fst (m_sys (Mrs CNTFRQ_EL0) d) = clk_freq;
  clk_frq_time d : now d <= now (snd (m_sys (Mrs CNTFRQ_EL0) d)) <= now d + clk_step;
}.

Section Delay.
Context {G D : Type} `{MD : Machine D} `{CK : !Clock D}.
Implicit Types (w : world G D).

Lemma clk_reads_add n k (d : D) : clk_reads (n + k) d = clk_reads k (clk_reads n d).
Proof. revert d. induction n as [| n IH]; intros d; cbn; [done | apply IH]. Qed.

(** A value of the counter is reached within [clk_stall] reads per tick. *)
Lemma clk_reaches v (d : D) : exists k, (k <= clk_stall * Z.to_nat (v - now d))%nat /\ v <= now (clk_reads k d).
Proof.
  remember (Z.to_nat (v - now d)) as n eqn:En. revert d En.
  induction n as [n IH] using lt_wf_ind. intros d ->.
  destruct (decide (v <= now d)) as [Hv | Hv]; [exists O; split; [lia | done] |].
  pose proof (clk_moves d). set (d1 := clk_reads clk_stall d) in *.
  destruct (IH (Z.to_nat (v - now d1))) with (d := d1) as (k & Hk & Hr); [lia | done |].
  exists (clk_stall + k)%nat. rewrite clk_reads_add. split; [| exact Hr]. nia.
Qed.

(** Reading the counter. *)
Lemma wp_tick (Q : Z -> world G D -> Prop) w : 0 <= now (dev w) < 2 ^ 64 ->
  (forall w', glob w' = glob w -> dev w' = clk_reads 1 (dev w) ->
     now (dev w) <= now (dev w') <= now (dev w) + clk_step -> Q (now (dev w)) w') -> wp bm_get_tick Q w.
Proof.
  intros Hn HQ. unfold bm_get_tick, wp, sys. cbn [clk_reads] in HQ. pose proof (clk_read (dev w)) as Hr.
  pose proof (clk_ticks (dev w)) as Ht. destruct (m_sys (Mrs CNTVCT_EL0) (dev w)) as [v d].
  simpl in *. subst v. rewrite wrap_id by (unfold fits; lia). by apply HQ.
Qed.

(** Waiting for the counter to reach [end_], which it does within [k] reads. *)
Lemma wp_tick_while k fuel end_ cur w : end_ <= now (clk_reads k (dev w)) -> (k + 1 < fuel)%nat ->
  0 <= cur -> cur <= now (dev w) <= cur + clk_step -> end_ + clk_step + clk_step < 2 ^ 64 ->
  wp (tick_while fuel (fun c => c <? end_) cur)
     (fun r w' => glob w' = glob w /\ end_ <= r /\ r <= now (dev w')) w.
Proof.
  intros Hk Hfuel H0 Hnow Hend. unfold tick_while. revert k fuel cur w Hk Hfuel H0 Hnow.
  induction k as [| k IH]; intros fuel cur w Hk Hfuel H0 Hnow; (destruct fuel as [| fuel]; [lia |]);
    rewrite loop_S; destruct (Z.ltb_spec cur end_); (apply wp_bind || idtac);
    try (apply wp_ret, wp_ret; split_and!; [done | lia | lia]);
    apply wp_bind, wp_tick; try lia; intros w1 Hg1 Hd1 Hn1; apply wp_ret.
  - cbn [clk_reads] in Hk. destruct fuel as [| fuel]; [lia |]. rewrite loop_S.
    replace (now (dev w) <? end_) with false by lia. apply wp_bind, wp_ret, wp_ret. split_and!; [done | lia | lia].
  - eapply wp_mono; [apply IH; [rewrite Hd1; exact Hk | lia | lia | lia] |].
    intros r w2 (Hg2 & Hr). split; [congruence | exact Hr].
Qed.

Lemma udelay_spec fuel usec w :
  let cycles := usec * clk_freq / 1000000 in
  0 <= usec -> 0 <= clk_freq -> usec * clk_freq < 2 ^ 64 -> 0 <= now (dev w) ->
  now (dev w) + cycles + clk_step * 4 < 2 ^ 64 -> (clk_stall * Z.to_nat cycles + 1 < fuel)%nat ->
  wp (udelay fuel usec) (fun _ w' => glob w' = glob w /\ now (dev w) + cycles <= now (dev w')) w.
Proof.
  intros cycles Hu Hf Hov H0 Hend Hfuel. unfold udelay. wp_step. unfold wp at 1, sys.
  pose proof (clk_frq (dev w)) as Hr. pose proof (clk_frq_time (dev w)) as Ht.
  destruct (m_sys (Mrs CNTFRQ_EL0) (dev w)) as [v d]. simpl in Hr, Ht. subst v.
  assert (0 <= usec * clk_freq) by lia.
  assert (clk_freq = 0 \/ usec = 0 \/ clk_freq <= usec * clk_freq) as Hcase by nia.
  assert (u64 (usec * u64 clk_freq) / 1000000 = cycles \/ usec = 0) as Ecyc.
  { destruct (decide (usec = 0)); [by right | left]. rewrite (wrap_id 64 clk_freq) by (unfold fits; lia).
    rewrite wrap_id by (unfold fits; lia). done. }
  assert (u64 (usec * u64 clk_freq) / 1000000 = cycles) as ->.
  { destruct Ecyc as [-> | ->]; [done |]. unfold cycles. by rewrite !Z.mul_0_l. }
  assert (0 <= cycles) by (apply Z.div_pos; lia).
  wp_step. apply wp_tick; [simpl; lia |]. cbn [dev glob]. intros w1 Hg1 _ Hn1. cbv zeta.
  rewrite (wrap_id 64 (now d + cycles)) by (unfold fits; lia).
  destruct (Z.ltb_spec (now d) (now d + cycles)).
  - destruct (clk_reaches (now d + cycles) (dev w1)) as (k & Hk & Hreach).
    wp_step. wp_apply (wp_tick_while k fuel); [exact Hreach | nia | lia | lia | lia |].
    intros r w2 (Hg2 & Hr2 & Hlt). apply wp_ret. split; [congruence | lia].
  - assert (cycles = 0) as Ec by lia. destruct fuel as [| fuel]; [lia |]. unfold tick_while.
    wp_step. rewrite loop_S. replace (now d + cycles <? now d) with false by lia. wp_steps.
    rewrite loop_S. replace (now d <? now d + cycles) with false by lia. wp_steps.
    split; [done | lia].
Qed.
End Delay.

(** C16: [udelay] returns, and not too early.  On a counter that never goes
    back and has moved after [clk_stall] reads in a row (two reads may be
    equal), it ends within [clk_stall] reads per tick of the delay, plus two,
    without touching the program's state, and at least [usec] microseconds'
    worth of ticks have gone by. *)
Theorem udelay_waits {G D : Type} `{CK : Clock D} fuel usec (w : world G D) :
  let cycles := usec * clk_freq / 1000000 in
  0 <= usec -> 0 <= clk_freq -> usec * clk_freq < 2 ^ 64 -> 0 <= now (dev w) ->
  now (dev w) + cycles + clk_step * 4 < 2 ^ 64 -> (clk_stall * Z.to_nat cycles + 1 < fuel)%nat ->
  wp (udelay fuel usec) (fun _ w' => glob w' = glob w /\ now (dev w) + cycles <= now (dev w')) w.
Proof. apply udelay_spec. Qed.

(** ** Witness: a 100 MHz counter that shows each value twice, then advances by
    three *)
Record counter := Counter { ticks : Z; shown : bool }.
#[export] Instance counter_machine : Machine counter := {|
  m_load a d := (0, d);
  m_store a v d := d;
  m_sys op d := match op with
    | Mrs CNTVCT_EL0 => (ticks d, if shown d then Counter (ticks d + 3) false else Counter (ticks d) true)
    | Mrs CNTFRQ_EL0 => (100000000, d)
    | _ => (0, d)
    end;
|}.
#[export, refine] Instance counter_clock : Clock counter :=
  {| now := ticks; clk_freq := 100000000; clk_step := 3; clk_stall := 2 |}.
Proof. all: intros [n []]; simpl; lia. Defined.

Lemma udelay_waits_witness :
  wp (udelay (G := unit) 1002 5) (fun _ w' => 1500 <= ticks (dev w')) (World tt (Counter 1000 false) []).
Proof.
  eapply wp_mono.
  - apply (udelay_waits 1002 5 (World tt (Counter 1000 false) [])); vm_compute; first [discriminate | reflexivity | lia].
  - intros _ w' [_ H]. exact H.
Defined.
