(* ===== verification/Mem.v ===== *)
(** * Mem: byte-addressed memory

    RAM as the C code sees it: a finite map from addresses to bytes.  A load
    or store outside the map is the fault [Unmapped], so a [wp] also says that
    a routine stays inside its buffers.  Multi-byte values are little-endian.
    [memcpy], [memset], [memmove] of the C library are modelled byte by byte. *)
From S2P Require Import Prelude Hw.
From stdpp Require Import prelude gmap list strings.
From Stdlib Require Import ZArith Lia Btauto.
Local Open Scope Z_scope.

Abbreviation mem := (gmap Z Z).

(** ** The pure layer *)

(** [n] bytes from [a] on. *)
Fixpoint rd (m : mem) (a : Z) (n : nat) : option (list Z) :=
  match n with
  | O => Some []
  | S n' => b ← m !! a; bs ← rd m (a + 1) n'; Some (b :: bs)
  end.

(** The bytes [bs] stored from [a] on. *)
Fixpoint wr (m : mem) (a : Z) (bs : list Z) : mem :=
  match bs with
  | [] => m
  | b :: bs' => wr (<[a := b]> m) (a + 1) bs'
  end.

Definition mapped (m : mem) (a : Z) (n : Z) : Prop :=
  forall i, a <= i < a + n -> is_Some (m !! i).

(** Little-endian words. *)
Fixpoint le_bytes (n : nat) (v : Z) : list Z :=
  match n with
  | O => []
  | S n' => u8 v :: le_bytes n' (Z.shiftr v 8)
  end.

Fixpoint le_word (bs : list Z) : Z :=
  match bs with
  | [] => 0
  | b :: bs' => Z.lor b (Z.shiftl (le_word bs') 8)
  end.

Lemma length_le_bytes n v : length (le_bytes n v) = n.
Proof. revert v. induction n as [| n IH]; intros v; simpl; [done |]. by rewrite IH. Qed.

Lemma le_word_bytes n v : le_word (le_bytes n v) = wrap (8 * Z.of_nat n) v.
Proof.
  revert v. induction n as [| n IH]; intros v.
  - unfold wrap. simpl. by rewrite Z.mod_1_r.
  - cbn [le_bytes le_word]. rewrite IH. apply Z.bits_inj'. intros i Hi.
    rewrite Z.lor_spec, shiftl_spec', (wrap_spec 8 v), (wrap_spec (8 * Z.of_nat (S n)) v) by lia.
    destruct (Z.leb_spec 8 i).
    + rewrite wrap_spec, Z.shiftr_spec by lia. replace (i - 8 + 8) with i by lia.
      destruct (Z.ltb_spec i 8), (Z.ltb_spec (i - 8) (8 * Z.of_nat n)),
        (Z.ltb_spec i (8 * Z.of_nat (S n))); try lia; btauto.
    + destruct (Z.ltb_spec i 8), (Z.ltb_spec i (8 * Z.of_nat (S n))); try lia; btauto.
Qed.

Lemma lookup_wr m a bs i :
  wr m a bs !! i =
    if decide (a <= i < a + Z.of_nat (length bs)) then bs !! Z.to_nat (i - a) else m !! i.
Proof.
  revert m a. induction bs as [| b bs IH]; intros m a; cbn [wr length].
  - case_decide; [lia | done].
  - rewrite IH. repeat case_decide; try lia.
    + replace (Z.to_nat (i - a)) with (S (Z.to_nat (i - (a + 1)))) by lia. done.
    + assert (i = a) as -> by lia. rewrite lookup_insert_eq.
      by replace (Z.to_nat (a - a)) with O by lia.
    + by rewrite lookup_insert_ne by lia.
Qed.

Lemma rd_length m a n bs : rd m a n = Some bs -> length bs = n.
Proof.
  revert a bs. induction n as [| n IH]; intros a bs; simpl; intros H; simplify_option_eq; [done |].
  simpl. f_equal. by eapply IH.
Qed.

Lemma rd_mapped m a n : mapped m a (Z.of_nat n) -> is_Some (rd m a n).
Proof.
  revert a. induction n as [| n IH]; intros a Hm; simpl; [by eexists |].
  destruct (Hm a) as [b ->]; [lia |].
  destruct (IH (a + 1)) as [bs ->]; [intros i Hi; apply Hm; lia |].
  by eexists.
Qed.

Lemma rd_ext m m' a n :
  (forall i, a <= i < a + Z.of_nat n -> m !! i = m' !! i) -> rd m a n = rd m' a n.
Proof.
  revert a. induction n as [| n IH]; intros a H; simpl; [done |].
  rewrite (H a) by lia. destruct (m' !! a); [| done]. simpl.
  by rewrite (IH (a + 1)) by (intros i Hi; apply H; lia).
Qed.

Lemma rd_lookup m a n bs i : rd m a n = Some bs -> a <= i < a + Z.of_nat n ->
  m !! i = bs !! Z.to_nat (i - a).
Proof.
  revert a bs. induction n as [| n IH]; intros a bs H Hi; [lia |].
  simpl in H. simplify_option_eq. destruct (decide (i = a)) as [-> | Hne].
  - by replace (Z.to_nat (a - a)) with O by lia.
  - replace (Z.to_nat (i - a)) with (S (Z.to_nat (i - (a + 1)))) by lia. simpl.
    eapply IH; [done | lia].
Qed.

Lemma rd_wr_eq m a bs : rd (wr m a bs) a (length bs) = Some bs.
Proof.
  revert m a. induction bs as [| b bs IH]; intros m a; [done |]. cbn [length wr rd].
  rewrite lookup_wr. case_decide; [lia |]. rewrite lookup_insert_eq. simpl.
  by rewrite IH.
Qed.

Lemma rd_wr_ne m a bs a' n :
  a + Z.of_nat (length bs) <= a' \/ a' + Z.of_nat n <= a ->
  rd (wr m a bs) a' n = rd m a' n.
Proof.
  intros H. apply rd_ext. intros i Hi. rewrite lookup_wr. case_decide; [lia | done].
Qed.

Lemma rd_sub m a n bs i k : rd m a n = Some bs -> (i + k <= n)%nat ->
  rd m (a + Z.of_nat i) k = Some (take k (drop i bs)).
Proof.
  revert a n bs i. induction k as [| k IH]; intros a n bs i Hr Hle; cbn [rd]; [done |].
  pose proof (rd_length _ _ _ _ Hr) as Hl.
  destruct (lookup_lt_is_Some_2 bs i) as [b Hb]; [lia |].
  rewrite (rd_lookup _ _ _ _ _ Hr) by lia.
  replace (Z.to_nat (a + Z.of_nat i - a)) with i by lia. rewrite Hb. cbn [mbind option_bind].
  replace (a + Z.of_nat i + 1) with (a + Z.of_nat (S i)) by lia.
  rewrite (IH a n bs (S i)) by (done || lia). cbn. by rewrite (drop_S _ _ _ Hb).
Qed.

Lemma mapped_wr m a bs b n : mapped m b n -> mapped (wr m a bs) b n.
Proof.
  intros Hm i Hi. rewrite lookup_wr. case_decide; [| by apply Hm].
  apply lookup_lt_is_Some. lia.
Qed.

Lemma mapped_insert (m : mem) a v b n : mapped m b n -> mapped (<[a := v]> m) b n.
Proof. apply (mapped_wr m a [v]). Qed.

Lemma mapped_sub m a n b k : mapped m a n -> a <= b -> b + k <= a + n -> mapped m b k.
Proof. intros Hm H1 H2 i Hi. apply Hm. lia. Qed.

Lemma wr_app m a xs ys : wr m a (xs ++ ys) = wr (wr m a xs) (a + Z.of_nat (length xs)) ys.
Proof.
  revert m a. induction xs as [| x xs IH]; intros m a; cbn [app wr length].
  - by rewrite Z.add_0_r.
  - rewrite IH. f_equal. lia.
Qed.

#[export] Hint Resolve mapped_wr mapped_insert : hw.

(** ** The monadic layer *)
Section MemOps.
Context {G D : Type} `{MD : Machine D} `{HM : !Has G mem}.
Abbreviation M := (M G D).

Definition ldn (n : nat) (a : Z) : M Z :=
  m ← gets; bs ← some_or Unmapped (rd m a n); mret (le_word bs).

Definition st_bytes (a : Z) (bs : list Z) : M unit :=
  m ← gets;
  _ ← some_or Unmapped (rd m a (length bs));
  puts (wr m a bs).

Definition stn (n : nat) (a v : Z) : M unit := st_bytes a (le_bytes n v).

Definition ld8 := ldn 1.
Definition st8 := stn 1.
Definition ld16 := ldn 2.
Definition st16 := stn 2.
Definition ld32 := ldn 4.
Definition st32 := stn 4.
Definition ld64 := ldn 8.
Definition st64 := stn 8.

(** One byte, moved. *)
Definition cp1 (dest src : Z) : M unit := b ← ld8 src; st8 dest b.

(** A copy from low to high addresses, one byte at a time. *)
Fixpoint copy_up (n : nat) (dest src : Z) : M unit :=
  match n with
  | O => mret tt
  | S n' => cp1 dest src ;; copy_up n' (dest + 1) (src + 1)
  end.

(** A copy from high to low addresses. *)
Fixpoint copy_down (n : nat) (dest src : Z) : M unit :=
  match n with
  | O => mret tt
  | S n' => cp1 (dest + Z.of_nat n') (src + Z.of_nat n') ;; copy_down n' dest src
  end.

Fixpoint fill (n : nat) (dest c : Z) : M unit :=
  match n with
  | O => mret tt
  | S n' => st8 dest c ;; fill n' (dest + 1) c
  end.

Definition memcpy (dest src count : Z) : M unit := copy_up (Z.to_nat count) dest src.
Definition memset (dest c count : Z) : M unit := fill (Z.to_nat count) dest c.

(** Assignment of an [n]-byte structure: all bytes read, then all stored. *)
Definition copy_struct (n : nat) (dest src : Z) : M unit :=
  m ← gets; bs ← some_or Unmapped (rd m src n); st_bytes dest bs.

(** A store to a word by which another processor learns that byte memory is
    ready for it: [writel], with what memory holds at that moment in the
    trace. *)
Definition writel_shared (v addr : Z) : M unit := fun w =>
  writel v addr (World (glob w) (dev w) (tr w ++ [Seen (hget (glob w))])).
End MemOps.

(** ** Rules *)
Definition setm {G D} `{Has G mem} (m : mem) (w : world G D) : world G D :=
  World (hput m (glob w)) (dev w) (tr w).
Abbreviation memof w := (hget (S := mem) (glob w)).

Section MemRules.
Context {G D : Type} `{MD : Machine D} `{HM : !Has G mem}.
Implicit Types (w : world G D).

Lemma wp_writel_shared v a (Q : unit -> world G D -> Prop) w :
  (forall d, Q tt (World (glob w) d (tr w ++ [Seen (memof w); Wr a (u32 v)]))) ->
  wp (writel_shared v a) Q w.
Proof. intros H. apply wp_writel. intros d. cbn [glob tr]. rewrite <- app_assoc. apply H. Qed.

Lemma memof_setm m w : memof (setm m w) = m.
Proof. apply hget_hput. Qed.

Lemma setm_setm m m' w : setm m (setm m' w) = setm m w.
Proof. unfold setm. simpl. by rewrite hput_hput. Qed.

Lemma setm_memof w : setm (memof w) w = w.
Proof. unfold setm. rewrite hput_hget. by destruct w. Qed.

Lemma wp_ldn n a (Q : Z -> world G D -> Prop) w :
  (exists bs, rd (memof w) a n = Some bs /\ Q (le_word bs) w) -> wp (ldn n a) Q w.
Proof.
  intros (bs & Hr & HQ). unfold ldn. wp_steps.
  apply wp_some_or. exists bs. split; [done |]. by wp_steps.
Qed.

Lemma wp_st_bytes a bs (Q : unit -> world G D -> Prop) w :
  mapped (memof w) a (Z.of_nat (length bs)) ->
  Q tt (setm (wr (memof w) a bs) w) -> wp (st_bytes a bs) Q w.
Proof.
  intros Hm HQ. unfold st_bytes. wp_steps. apply wp_some_or.
  destruct (rd_mapped _ _ _ Hm) as [old Hold]. exists old. split; [done |].
  by wp_steps.
Qed.

Lemma wp_stn n a v (Q : unit -> world G D -> Prop) w :
  mapped (memof w) a (Z.of_nat n) ->
  Q tt (setm (wr (memof w) a (le_bytes n v)) w) -> wp (stn n a v) Q w.
Proof. intros Hm HQ. apply wp_st_bytes; [by rewrite length_le_bytes | done]. Qed.

Definition bytes (m : mem) : Prop := map_Forall (fun _ b => fits 8 b) m.

Lemma bytes_wr m a bs : bytes m -> Forall (fits 8) bs -> bytes (wr m a bs).
Proof.
  intros Hm Hbs. revert m a Hm. induction Hbs as [| b bs Hb _ IH]; intros m a Hm; [done |].
  apply IH. by apply map_Forall_insert_2.
Qed.

Lemma bytes_rd m a n bs : bytes m -> rd m a n = Some bs -> Forall (fits 8) bs.
Proof.
  intros Hm. revert a bs. induction n as [| n IH]; intros a bs H; simpl in H;
    simplify_option_eq; constructor; [by eapply Hm | by eapply IH].
Qed.

Lemma le_word_1 b : le_word [b] = b.
Proof. simpl. apply Z.lor_0_r. Qed.

(** Moving one byte, in a memory of bytes. *)
Lemma wp_cp1 dest src (Q : unit -> world G D -> Prop) w :
  (exists b, memof w !! src = Some b /\ fits 8 b /\ is_Some (memof w !! dest) /\
     Q tt (setm (<[dest := b]> (memof w)) w)) ->
  wp (cp1 dest src) Q w.
Proof.
  intros (b & Hs & Hb & Hd & HQ). unfold cp1. wp_steps.
  apply wp_ldn. exists [b]. split; [cbn [rd]; by rewrite Hs |].
  rewrite le_word_1. apply wp_stn.
  - intros i Hi. by replace i with dest by lia.
  - simpl. by rewrite wrap_id.
Qed.

(** A forward byte copy between disjoint buffers writes the source's bytes. *)
Lemma wp_copy_up n dest src bs w :
  bytes (memof w) -> rd (memof w) src n = Some bs ->
  mapped (memof w) dest (Z.of_nat n) ->
  dest <= src \/ src + Z.of_nat n <= dest ->
  wp (copy_up n dest src) (fun _ w' => w' = setm (wr (memof w) dest bs) w) w.
Proof.
  revert dest src bs w. induction n as [| n IH]; intros dest src bs w Hb Hr Hm Hd;
    cbn [rd] in Hr; simplify_option_eq; cbn [copy_up].
  - wp_steps. simpl. by rewrite setm_memof.
  - rename select (memof w !! src = Some _) into Hsrc.
    wp_step. apply wp_cp1. eexists. split; [done |]. split; [by eapply Hb |].
    split; [apply Hm; lia |].
    wp_apply IH.
    + rewrite memof_setm. apply map_Forall_insert_2; [by eapply Hb | done].
    + rewrite memof_setm. rewrite <- (rd_ext (memof w)); [done |].
      intros i Hi. by rewrite lookup_insert_ne by lia.
    + rewrite memof_setm. apply mapped_insert. apply (mapped_sub _ _ _ _ _ Hm); lia.
    + lia.
    + intros _ w' ->. rewrite memof_setm, setm_setm. done.
Qed.

(** A downward copy is right when the destination is above the source. *)
Lemma wp_copy_down n dest src bs w :
  bytes (memof w) -> rd (memof w) src n = Some bs ->
  mapped (memof w) dest (Z.of_nat n) -> src <= dest ->
  wp (copy_down n dest src) (fun _ w' => w' = setm (wr (memof w) dest bs) w) w.
Proof.
  revert bs w. induction n as [| n IH]; intros bs w Hb Hr Hm Hd; cbn [copy_down].
  - cbn [rd] in Hr. simplify_eq. wp_steps. simpl. by rewrite setm_memof.
  - assert (length bs = S n) as Hlen by (by eapply rd_length).
    destruct (exists_last (l := bs)) as (xs & b & ->); [by intros -> |].
    rewrite length_app in Hlen. simpl in Hlen.
    assert (memof w !! (src + Z.of_nat n) = Some b) as Hsrc.
    { rewrite (rd_lookup _ _ _ _ _ Hr) by lia.
      rewrite lookup_app_r by lia. by replace (_ - _)%nat with O by lia. }
    wp_step. apply wp_cp1. exists b. split; [done |]. split; [by eapply Hb |].
    split; [apply Hm; lia |].
    wp_apply (IH xs).
    + rewrite memof_setm. apply map_Forall_insert_2; [by eapply Hb | done].
    + rewrite memof_setm. destruct (rd_mapped (memof w) src n) as [ys Hys].
      { intros i Hi. rewrite (rd_lookup _ _ _ _ i Hr) by lia. apply lookup_lt_is_Some.
        rewrite length_app. simpl. lia. }
      rewrite (rd_ext _ (memof w)); [| intros i Hi; by rewrite lookup_insert_ne by lia].
      rewrite Hys. f_equal. apply list_eq. intros k.
      pose proof (rd_length _ _ _ _ Hys). destruct (decide (k < n)%nat).
      * pose proof (rd_lookup _ _ _ _ (src + Z.of_nat k) Hys ltac:(lia)) as H1.
        rewrite (rd_lookup _ _ _ _ _ Hr) in H1 by lia.
        replace (Z.to_nat (src + Z.of_nat k - src)) with k in H1 by lia.
        rewrite lookup_app_l in H1 by lia. done.
      * rewrite !lookup_ge_None_2 by lia. done.
    + rewrite memof_setm. apply mapped_insert. apply (mapped_sub _ _ _ _ _ Hm); lia.
    + done.
    + intros _ w' ->. rewrite memof_setm, setm_setm. f_equal.
      apply map_eq. intros i. rewrite !lookup_wr, length_app. simpl.
      repeat case_decide; try lia.
      * by rewrite lookup_app_l by lia.
      * rewrite lookup_app_r by lia.
        replace (Z.to_nat (i - dest) - length xs)%nat with O by lia.
        by replace i with (dest + Z.of_nat n) by lia; rewrite lookup_insert_eq.
      * by rewrite lookup_insert_ne by lia.
Qed.

Lemma wp_fill n dest c w :
  mapped (memof w) dest (Z.of_nat n) ->
  wp (fill n dest c) (fun _ w' => w' = setm (wr (memof w) dest (replicate n (u8 c))) w) w.
Proof.
  revert dest w. induction n as [| n IH]; intros dest w Hm; cbn [fill].
  - wp_steps. simpl. by rewrite setm_memof.
  - wp_step. apply wp_stn; [apply (mapped_sub _ _ _ _ _ Hm); lia |].
    wp_apply IH.
    + rewrite memof_setm. apply mapped_wr. apply (mapped_sub _ _ _ _ _ Hm); lia.
    + intros _ w' ->. rewrite memof_setm, setm_setm. done.
Qed.

Lemma wp_copy_struct n dest src bs w :
  rd (memof w) src n = Some bs -> mapped (memof w) dest (Z.of_nat n) ->
  wp (copy_struct n dest src) (fun _ w' => w' = setm (wr (memof w) dest bs) w) w.
Proof.
  intros Hr Hm. unfold copy_struct. wp_steps. apply wp_some_or. exists bs. split; [done |].
  apply wp_st_bytes; [| done]. by rewrite (rd_length _ _ _ _ Hr).
Qed.
End MemRules.

Lemma emits_ld8 {G D} `{Machine D} `{!Has G mem} a b (w : world G D) (P : Z -> list event -> Prop) :
  memof w !! a = Some b -> P b [] -> emits (ld8 a) w P.
Proof.
  intros Hb HP. apply wp_ldn. exists [b]. cbn [rd]. rewrite Hb. split; [done |].
  rewrite le_word_1. split; [done |]. exists []. by rewrite app_nil_r.
Qed.

Ltac wp_mem :=
  repeat first
  [ wp_step
  | lazymatch goal with
    | |- wp (ldn _ _) _ _ => apply wp_ldn
    | |- wp (stn _ _ _) _ _ => apply wp_stn
    end ].

(** Storing back what is there changes nothing. *)
Lemma wr_rd_id m a n bs : rd m a n = Some bs -> wr m a bs = m.
Proof.
  intros Hr. apply map_eq. intros i. rewrite lookup_wr. case_decide; [| done].
  pose proof (rd_length _ _ _ _ Hr). symmetry. eapply rd_lookup; [done | lia].
Qed.

(** Memory made of one block. *)
Lemma mapped_block m a bs b n : a <= b -> b + n <= a + Z.of_nat (length bs) ->
  mapped (wr m a bs) b n.
Proof.
  intros H1 H2 i Hi. rewrite lookup_wr, decide_True by lia. apply lookup_lt_is_Some. lia.
Qed.

Lemma bytes_block a bs : Forall (fits 8) bs -> bytes (wr ∅ a bs).
Proof. intros H. by apply bytes_wr; [apply map_Forall_empty |]. Qed.

(** Bytes are the encoding of the word they form. *)
Lemma le_bytes_word bs : Forall (fits 8) bs -> le_bytes (length bs) (le_word bs) = bs.
Proof.
  induction 1 as [| b bs Hb _ IH]; [done |]. cbn [length le_bytes le_word].
  assert (u8 (Z.lor b (Z.shiftl (le_word bs) 8)) = b) as ->.
  { apply Z.bits_inj'. intros i Hi. rewrite wrap_spec, Z.lor_spec, shiftl_spec' by lia.
    destruct (Z.ltb_spec i 8).
    - destruct (Z.leb_spec 8 i); [lia | btauto].
    - by rewrite (fits_testbit 8 b) by (done || lia). }
  assert (Z.shiftr (Z.lor b (Z.shiftl (le_word bs) 8)) 8 = le_word bs) as ->; [| by rewrite IH].
  apply Z.bits_inj'. intros i Hi. rewrite Z.shiftr_spec, Z.lor_spec, shiftl_spec' by lia.
  rewrite (fits_testbit 8 b) by (done || lia). replace (i + 8 - 8) with i by lia.
  destruct (Z.leb_spec 8 (i + 8)); [done | lia].
Qed.
