(* ===== verification/Securec.v ===== *)
(** * Securec: the bounds-checked C library (platform/securec/src)

    [memcpy_s], [memset_s], [memmove_s], [strcpy_s], [strncpy_s], [strcat_s],
    [strncat_s], [strtok_s] and the size-specialised variants [memcpy_sOptAsm],
    [memcpy_sOptTc], [memset_sOptAsm], [memset_sOptTc], over the byte memory
    of [Mem].  Pointers and sizes are integers, NULL is 0.  The macros of the
    sources that unroll a copy into a [switch] keep both of their arms: a
    structure assignment of [count] bytes when the addresses are 8-aligned,
    and the fall-through chain of byte moves otherwise.  Calls that only log
    ([SECUREC_ERROR_...]) are left out. *)
From S2P Require Import Prelude Hw Mem.
From stdpp Require Import prelude gmap list strings.
From Stdlib Require Import ZArith Lia.
Local Open Scope Z_scope.

Definition EOK : Z := 0.
Definition EINVAL : Z := 22.
Definition ERANGE : Z := 34.
Definition EINVAL_AND_RESET : Z := 150.
Definition ERANGE_AND_RESET : Z := 162.
Definition EOVERLAP_AND_RESET : Z := 182.
Definition SECUREC_MEM_MAX_LEN : Z := 0x7fffffff.
Definition SECUREC_STRING_MAX_LEN : Z := 0x7fffffff.

Definition SECUREC_MEMORY_NO_OVERLAP (dest src count : Z) : bool :=
  ((src <? dest) && (src + count <=? dest)) || ((dest <? src) && (dest + count <=? src)).
Definition SECUREC_MEMORY_IS_OVERLAP (dest src count : Z) : bool :=
  ((src <? dest) && (dest <? src + count)) || ((dest <? src) && (src <? dest + count)).
Definition SECUREC_STRING_NO_OVERLAP (dest src len : Z) : bool :=
  ((src <? dest) && (src + len <? dest)) || ((dest <? src) && (dest + len <? src)).
Definition SECUREC_CAT_STRING_IS_OVERLAP (dest destLen src srcLen : Z) : bool :=
  ((dest <? src) && (src <=? dest + destLen + srcLen)) || ((src <? dest) && (dest <=? src + srcLen)).
Definition SECUREC_ADDR_ALIGNED_8 (addr : Z) : bool := Z.land addr 7 =? 0.

Definition SECUREC_MEMCOPY_THRESHOLD_SIZE : Z := 64.
Definition SECUREC_MEMSET_THRESHOLD_SIZE : Z := 32.
Definition SECUREC_STRCOPY_THRESHOLD_SIZE : Z := 32.

Section Securec.
Context {G D : Type} `{MD : Machine D} `{HM : !Has G mem}.
Abbreviation M := (M G D).

(** ** Memory: memcpy_s.c, memset_s.c, memmove_s.c *)

(** Both addresses 8-aligned: [switch (count)] over structures of that size
    (a byte when it is 1); sizes without a case do nothing. *)
Definition copy_by_struct (max dest src count : Z) : M unit :=
  if count =? 1 then cp1 dest src
  else if (2 <=? count) && (count <=? max) then copy_struct (Z.to_nat count) dest src
  else mret tt.

(** Otherwise: the fall-through chain of byte moves, from [case count] down
    to [case 1]. *)
Definition copy_by_chain (max dest src count : Z) : M unit :=
  if (1 <=? count) && (count <=? max) then copy_up (Z.to_nat count) dest src
  else mret tt.

Definition small_copy (max dest src count : Z) : M unit :=
  if SECUREC_ADDR_ALIGNED_8 dest && SECUREC_ADDR_ALIGNED_8 src then
    copy_by_struct max dest src count
  else copy_by_chain max dest src count.

Definition SECUREC_SMALL_MEM_COPY := small_copy 64.

Definition SECUREC_MEMCPY_OPT (dest src count : Z) : M unit :=
  if SECUREC_MEMCOPY_THRESHOLD_SIZE <? count then memcpy dest src count
  else SECUREC_SMALL_MEM_COPY dest src count.

Definition SecMemcpyError (dest destMax src count : Z) : M Z :=
  if (destMax =? 0) || (SECUREC_MEM_MAX_LEN <? destMax) then mret ERANGE
  else if (dest =? NULL) || (src =? NULL) then
    if negb (dest =? NULL) then memset dest 0 destMax ;; mret EINVAL_AND_RESET
    else mret EINVAL
  else if destMax <? count then memset dest 0 destMax ;; mret ERANGE_AND_RESET
  else if SECUREC_MEMORY_IS_OVERLAP dest src count then
    memset dest 0 destMax ;; mret EOVERLAP_AND_RESET
  else mret EOK.

Definition SECUREC_MEMCPY_PARAM_OK (dest destMax src count : Z) : bool :=
  (count <=? destMax) && negb (dest =? NULL) && negb (src =? NULL)
  && (destMax <=? SECUREC_MEM_MAX_LEN) && (0 <? count)
  && SECUREC_MEMORY_NO_OVERLAP dest src count.

Definition memcpy_s (dest destMax src count : Z) : M Z :=
  if SECUREC_MEMCPY_PARAM_OK dest destMax src count then
    memcpy dest src count ;; mret EOK
  else SecMemcpyError dest destMax src count.

Definition memcpy_sOptAsm (dest destMax src count : Z) : M Z :=
  if SECUREC_MEMCPY_PARAM_OK dest destMax src count then
    SECUREC_MEMCPY_OPT dest src count ;; mret EOK
  else SecMemcpyError dest destMax src count.

Definition memcpy_sOptTc (dest destMax src count : Z) : M Z :=
  if (count <=? destMax) && negb (dest =? NULL) && negb (src =? NULL) && (0 <? count)
     && SECUREC_MEMORY_NO_OVERLAP dest src count then
    SECUREC_MEMCPY_OPT dest src count ;; mret EOK
  else SecMemcpyError dest destMax src count.

Definition SECUREC_UNALIGNED_SET (dest c count : Z) : M unit :=
  if (1 <=? count) && (count <=? 32) then fill (Z.to_nat count) dest c else mret tt.

(** A structure of [count] constant bytes ([g_allZero], [g_allFF]). *)
Definition set_struct (dest b count : Z) : M unit :=
  if count =? 1 then st8 dest b
  else if (2 <=? count) && (count <=? 32) then
    st_bytes dest (replicate (Z.to_nat count) b)
  else mret tt.

Definition SECUREC_ALIGNED_SET_OPT_ZERO_FF (dest c count : Z) : M unit :=
  if c =? 0 then set_struct dest 0 count
  else if c =? 0xFF then set_struct dest 0xFF count
  else SECUREC_UNALIGNED_SET dest c count.

Definition SECUREC_SMALL_MEM_SET (dest c count : Z) : M unit :=
  if SECUREC_ADDR_ALIGNED_8 dest then SECUREC_ALIGNED_SET_OPT_ZERO_FF dest c count
  else SECUREC_UNALIGNED_SET dest c count.

Definition SECUREC_MEMSET_OPT (dest c count : Z) : M unit :=
  if SECUREC_MEMSET_THRESHOLD_SIZE <? count then memset dest c count
  else SECUREC_SMALL_MEM_SET dest c count.

Definition SecMemsetError (dest destMax c : Z) : M Z :=
  if (destMax =? 0) || (SECUREC_MEM_MAX_LEN <? destMax) then mret ERANGE
  else if dest =? NULL then mret EINVAL
  else memset dest c destMax ;; mret ERANGE_AND_RESET.

Definition SECUREC_MEMSET_PARAM_OK (dest destMax count : Z) : bool :=
  (destMax <=? SECUREC_MEM_MAX_LEN) && negb (dest =? NULL) && (count <=? destMax).

Definition memset_s (dest destMax c count : Z) : M Z :=
  if SECUREC_MEMSET_PARAM_OK dest destMax count then
    memset dest c count ;; mret EOK
  else SecMemsetError dest destMax c.

Definition memset_sOptAsm (dest destMax c count : Z) : M Z :=
  if SECUREC_MEMSET_PARAM_OK dest destMax count then
    SECUREC_MEMSET_OPT dest c count ;; mret EOK
  else SecMemsetError dest destMax c.

Definition memset_sOptTc (dest destMax c count : Z) : M Z :=
  if (count <=? destMax) && negb (dest =? NULL) then
    SECUREC_MEMSET_OPT dest c count ;; mret EOK
  else SecMemsetError dest destMax c.

Definition SecUtilMemmove (dst src count : Z) : M unit :=
  if (dst <=? src) || (src + count <=? dst) then copy_up (Z.to_nat count) dst src
  else copy_down (Z.to_nat count) dst src.

Definition memmove_s (dest destMax src count : Z) : M Z :=
  if (destMax =? 0) || (SECUREC_MEM_MAX_LEN <? destMax) then mret ERANGE
  else if (dest =? NULL) || (src =? NULL) then
    if negb (dest =? NULL) then memset dest 0 destMax ;; mret EINVAL_AND_RESET
    else mret EINVAL
  else if destMax <? count then memset dest 0 destMax ;; mret ERANGE_AND_RESET
  else if dest =? src then mret EOK
  else when (0 <? count) (SecUtilMemmove dest src count) ;; mret EOK.

(** ** Strings *)

(** [SECUREC_CALC_STR_LEN]: the length of [str], at most [maxLen]. *)
Fixpoint calc_str_len (n : nat) (str len : Z) : M Z :=
  match n with
  | O => mret len
  | S n' => c ← ld8 str; if c =? 0 then mret len else calc_str_len n' (str + 1) (len + 1)
  end.
Definition SECUREC_CALC_STR_LEN (str maxLen : Z) : M Z :=
  calc_str_len (Z.to_nat maxLen) str 0.

(** [SECUREC_CALC_STR_LEN_OPT]: bytes 0..8 tested one by one first. *)
Fixpoint probe (n : nat) (str i : Z) (otherwise : M Z) : M Z :=
  match n with
  | O => otherwise
  | S n' => c ← ld8 (str + i); if c =? 0 then mret i else probe n' str (i + 1) otherwise
  end.
Definition SECUREC_CALC_STR_LEN_OPT (str maxLen : Z) : M Z :=
  if 8 <? maxLen then
    probe 9 str 0 (n ← SECUREC_CALC_STR_LEN (str + 8) (maxLen - 8); mret (8 + n))
  else SECUREC_CALC_STR_LEN str maxLen.

Definition SECUREC_SMALL_STR_COPY := small_copy 32.
Definition SECUREC_STRCPY_OPT (dest src lenWithTerm : Z) : M unit :=
  if SECUREC_STRCOPY_THRESHOLD_SIZE <? lenWithTerm then memcpy dest src lenWithTerm
  else SECUREC_SMALL_STR_COPY dest src lenWithTerm.

(** The loop reads the byte before it tests the bound. *)
Fixpoint check_src (n : nat) (tmpSrc : Z) : M Z :=
  c ← ld8 tmpSrc;
  if c =? 0 then mret (Z.of_nat n)
  else match n with
       | O => mret 0
       | S n' => check_src n' (tmpSrc + 1)
       end.

Definition CheckSrcRange (strDest destMax strSrc : Z) : M Z :=
  tmpDestMax ← check_src (Z.to_nat destMax) strSrc;
  if tmpDestMax =? 0 then st8 strDest 0 ;; mret ERANGE_AND_RESET else mret EOK.

Definition strcpy_error (strDest destMax strSrc : Z) : M Z :=
  if (destMax =? 0) || (SECUREC_STRING_MAX_LEN <? destMax) then mret ERANGE
  else if (strDest =? NULL) || (strSrc =? NULL) then
    if negb (strDest =? NULL) then st8 strDest 0 ;; mret EINVAL_AND_RESET
    else mret EINVAL
  else CheckSrcRange strDest destMax strSrc.

Definition SECUREC_STRCPY_PARAM_OK (strDest destMax strSrc : Z) : bool :=
  (0 <? destMax) && (destMax <=? SECUREC_STRING_MAX_LEN) && negb (strDest =? NULL)
  && negb (strSrc =? NULL) && negb (strDest =? strSrc).

Definition strcpy_s (strDest destMax strSrc : Z) : M Z :=
  if SECUREC_STRCPY_PARAM_OK strDest destMax strSrc then
    srcStrLen ← SECUREC_CALC_STR_LEN strSrc destMax;
    let srcStrLen := srcStrLen + 1 in
    if srcStrLen <=? destMax then
      if SECUREC_MEMORY_NO_OVERLAP strDest strSrc srcStrLen then
        SECUREC_STRCPY_OPT strDest strSrc srcStrLen ;; mret EOK
      else st8 strDest 0 ;; mret EOVERLAP_AND_RESET
    else strcpy_error strDest destMax strSrc
  else strcpy_error strDest destMax strSrc.

Fixpoint check_src_count (n : nat) (endPos tmpDestMax tmpCount : Z) : M Z :=
  c ← ld8 endPos;
  if negb (c =? 0) && (0 <? tmpDestMax) && (0 <? tmpCount) then
    match n with
    | O => fail NoFuel
    | S n' => check_src_count n' (endPos + 1) (tmpDestMax - 1) (tmpCount - 1)
    end
  else mret tmpDestMax.

Definition CheckSrcCountRange (strDest destMax strSrc count : Z) : M Z :=
  tmpDestMax ← check_src_count (Z.to_nat destMax) strSrc destMax count;
  if tmpDestMax =? 0 then st8 strDest 0 ;; mret ERANGE_AND_RESET else mret EOK.

Definition strncpy_error (strDest destMax strSrc count : Z) : M Z :=
  if (destMax =? 0) || (SECUREC_STRING_MAX_LEN <? destMax) then mret ERANGE
  else if (strDest =? NULL) || (strSrc =? NULL) then
    if negb (strDest =? NULL) then st8 strDest 0 ;; mret EINVAL_AND_RESET
    else mret EINVAL
  else if SECUREC_STRING_MAX_LEN <? count then st8 strDest 0 ;; mret ERANGE_AND_RESET
  else if count =? 0 then st8 strDest 0 ;; mret EOK
  else CheckSrcCountRange strDest destMax strSrc count.

Definition SECUREC_STRNCPY_PARAM_OK (strDest destMax strSrc count : Z) : bool :=
  (0 <? destMax) && (destMax <=? SECUREC_STRING_MAX_LEN) && negb (strDest =? NULL)
  && negb (strSrc =? NULL) && (count <=? SECUREC_STRING_MAX_LEN) && (0 <? count).

Definition strncpy_s (strDest destMax strSrc count : Z) : M Z :=
  if SECUREC_STRNCPY_PARAM_OK strDest destMax strSrc count then
    minCpLen ← SECUREC_CALC_STR_LEN strSrc (if count <? destMax then count else destMax);
    if negb (count <? destMax) && (minCpLen =? destMax) then
      st8 strDest 0 ;; mret ERANGE_AND_RESET
    else if SECUREC_STRING_NO_OVERLAP strDest strSrc minCpLen || (strDest =? strSrc) then
      memcpy strDest strSrc minCpLen ;; st8 (strDest + minCpLen) 0 ;; mret EOK
    else st8 strDest 0 ;; mret EOVERLAP_AND_RESET
  else strncpy_error strDest destMax strSrc count.

(** The two concatenations after both lengths are known: [copy] moves the
    source behind the destination's string. *)
Definition do_cat (strDest destMax destLen strSrc srcLen : Z) (copy : M unit) : M Z :=
  if SECUREC_CAT_STRING_IS_OVERLAP strDest destLen strSrc srcLen then
    st8 strDest 0 ;;
    if (strDest + destLen <=? strSrc) && (destLen =? destMax) then mret EINVAL_AND_RESET
    else mret EOVERLAP_AND_RESET
  else if (destMax <=? srcLen + destLen) || (strDest =? strSrc) then
    st8 strDest 0 ;;
    if destLen =? destMax then mret EINVAL_AND_RESET else mret ERANGE_AND_RESET
  else copy ;; mret EOK.

Definition SecDoCat (strDest destMax strSrc : Z) : M Z :=
  destLen ← SECUREC_CALC_STR_LEN strDest destMax;
  let maxSrcLen := destMax - destLen in
  srcLen ← SECUREC_CALC_STR_LEN_OPT strSrc maxSrcLen;
  do_cat strDest destMax destLen strSrc srcLen
    (memcpy (strDest + destLen) strSrc (srcLen + 1)).

Definition strcat_s (strDest destMax strSrc : Z) : M Z :=
  if (destMax =? 0) || (SECUREC_STRING_MAX_LEN <? destMax) then mret ERANGE
  else if (strDest =? NULL) || (strSrc =? NULL) then
    if negb (strDest =? NULL) then st8 strDest 0 ;; mret EINVAL_AND_RESET
    else mret EINVAL
  else SecDoCat strDest destMax strSrc.

Definition SecDoCatLimit (strDest destMax strSrc count : Z) : M Z :=
  destLen ← SECUREC_CALC_STR_LEN strDest destMax;
  srcLen ← SECUREC_CALC_STR_LEN strSrc count;
  do_cat strDest destMax destLen strSrc srcLen
    (memcpy (strDest + destLen) strSrc srcLen ;; st8 (strDest + destLen + srcLen) 0).

Definition strncat_s (strDest destMax strSrc count : Z) : M Z :=
  if (destMax =? 0) || (SECUREC_STRING_MAX_LEN <? destMax) then mret ERANGE
  else if (strDest =? NULL) || (strSrc =? NULL) then
    if negb (strDest =? NULL) then st8 strDest 0 ;; mret EINVAL_AND_RESET
    else mret EINVAL
  else if SECUREC_STRING_MAX_LEN <? count then st8 strDest 0 ;; mret ERANGE_AND_RESET
  else SecDoCatLimit strDest destMax strSrc count.

(** ** strtok_s.c: the loops have no bound in the source, hence fuel *)
Definition SecIsInDelimit (fuel : nat) (ch strDelimit : Z) : M bool :=
  loop fuel (fun ctl =>
    c ← ld8 ctl;
    mret (if negb (c =? 0) && negb (c =? ch) then inl (ctl + 1) else inr (negb (c =? 0))))
    strDelimit.

Definition SecFindBegin (fuel : nat) (strToken strDelimit : Z) : M Z :=
  loop fuel (fun token =>
    c ← ld8 token;
    if c =? 0 then mret (inr token)
    else d ← SecIsInDelimit fuel c strDelimit;
         mret (if (d : bool) then inl (token + 1) else inr token)) strToken.

Definition SecFindRest (fuel : nat) (strToken strDelimit : Z) : M Z :=
  loop fuel (fun token =>
    c ← ld8 token;
    if c =? 0 then mret (inr token)
    else d ← SecIsInDelimit fuel c strDelimit;
         if (d : bool) then st8 token 0 ;; mret (inr (token + 1))
         else mret (inl (token + 1))) strToken.

(** Result: the token found (NULL if none) and the new [*context]. *)
Definition SecUpdateToken (fuel : nat) (strToken strDelimit : Z) : M (Z * Z) :=
  context ← SecFindRest fuel strToken strDelimit;
  mret (if context =? strToken then NULL else strToken, context).

(** [context]: None for a NULL pointer, else the pointer's content. *)
Definition strtok_s (fuel : nat) (strToken strDelimit : Z) (context : option Z)
    : M (Z * option Z) :=
  match context with
  | None => mret (NULL, None)
  | Some ctx =>
      if strDelimit =? NULL then mret (NULL, Some ctx)
      else if (strToken =? NULL) && (ctx =? NULL) then mret (NULL, Some ctx)
      else
        let orgToken := if strToken =? NULL then ctx else strToken in
        orgToken ← SecFindBegin fuel orgToken strDelimit;
        '(t, c) ← SecUpdateToken fuel orgToken strDelimit;
        mret (t, Some c)
  end.
End Securec.

(** ** What the functions promise

    The contract of the copying functions, from the return-value table of the
    sources' comments: a status and what happens to the destination buffer. *)
Inductive effect := Untouched | Cleared | Copied.

Definition apply_effect (m : mem) (dest destMax : Z) (bs : list Z) (e : effect) : mem :=
  match e with
  | Untouched => m
  | Cleared => wr m dest (replicate (Z.to_nat destMax) 0)
  | Copied => wr m dest bs
  end.

(** Two different buffers of [n] bytes share an address. *)
Definition buffers_meet (a b n : Z) : Prop := a <> b /\ Z.abs (a - b) < n.

Lemma buffers_meet_iff a b n : 0 <= n ->
  buffers_meet a b n <-> a <> b /\ exists i, a <= i < a + n /\ b <= i < b + n.
Proof.
  intros Hn. unfold buffers_meet. split.
  - intros [Hne H]. split; [done |]. exists (Z.max a b). lia.
  - intros [Hne (i & H1 & H2)]. split; [done |]. lia.
Qed.

#[export] Instance buffers_meet_dec a b n : Decision (buffers_meet a b n).
Proof. unfold buffers_meet. apply _. Defined.

Definition copy_contract (overlap_ok : bool) (dest destMax src count : Z) : Z * effect :=
  if decide (destMax = 0 \/ SECUREC_MEM_MAX_LEN < destMax) then (ERANGE, Untouched)
  else if decide (dest = NULL) then (EINVAL, Untouched)
  else if decide (src = NULL) then (EINVAL_AND_RESET, Cleared)
  else if decide (destMax < count) then (ERANGE_AND_RESET, Cleared)
  else if decide (overlap_ok = false /\ buffers_meet dest src count)
       then (EOVERLAP_AND_RESET, Cleared)
  else (EOK, Copied).

(** The caller's side: the destination really has [destMax] bytes, and the
    source its [count] bytes [bs]. *)
Record buffers_ok (m : mem) (dest destMax src count : Z) (bs : list Z) : Prop := {
  bo_bytes : bytes m;
  bo_count : 0 <= count;
  bo_max : 0 <= destMax;
  bo_dest : dest <> NULL -> mapped m dest destMax;
  bo_src : src <> NULL -> count <= destMax -> rd m src (Z.to_nat count) = Some bs;
}.

Section Facts.
Context {G D : Type} `{MD : Machine D} `{HM : !Has G mem}.
Implicit Types (w : world G D).

(** [c] stores exactly [bs] at [dest]. *)
Definition stores (c : M G D unit) (dest : Z) (bs : list Z) (w : world G D) : Prop :=
  wp c (fun _ w' => w' = setm (wr (memof w) dest bs) w) w.

Lemma memset_stores dest c n w : 0 <= n -> mapped (memof w) dest n ->
  stores (memset dest c n) dest (replicate (Z.to_nat n) (u8 c)) w.
Proof. intros Hn Hm. apply wp_fill. by rewrite Z2Nat.id. Qed.

Lemma memcpy_stores dest src n bs w :
  0 <= n -> bytes (memof w) -> rd (memof w) src (Z.to_nat n) = Some bs ->
  mapped (memof w) dest n -> ~ buffers_meet dest src n ->
  stores (memcpy dest src n) dest bs w.
Proof.
  intros Hn Hb Hr Hm Ho. unfold stores, memcpy.
  destruct (decide (dest = src)) as [-> | Hne].
  - apply wp_copy_up; [done | done | by rewrite Z2Nat.id | lia].
  - apply wp_copy_up; [done | done | by rewrite Z2Nat.id |].
    unfold buffers_meet in Ho. rewrite Z2Nat.id by done. lia.
Qed.

(** The unrolled copies, structure assignment or byte chain, store the same
    bytes as the library's copy. *)
Lemma small_copy_stores max dest src n bs w :
  0 <= n <= max -> bytes (memof w) -> rd (memof w) src (Z.to_nat n) = Some bs ->
  mapped (memof w) dest n -> ~ buffers_meet dest src n ->
  stores (small_copy max dest src n) dest bs w.
Proof.
  intros Hn Hb Hr Hm Ho. pose proof (memcpy_stores dest src n bs w) as Hcpy.
  unfold small_copy, copy_by_struct, copy_by_chain. destruct (_ && _); zcases.
  - subst n. unfold stores, memcpy in Hcpy. simpl in Hcpy.
    specialize (Hcpy ltac:(lia) Hb Hr Hm Ho). apply wp_bind_inv in Hcpy.
    unfold stores. eapply wp_mono; [exact Hcpy |]. intros [] w' Hw'. exact Hw'.
  - apply wp_copy_struct; [done | by rewrite Z2Nat.id by lia].
  - assert (n = 0) as -> by lia. simpl in Hr. simplify_eq.
    apply wp_ret. simpl. by rewrite setm_memof.
  - apply Hcpy; done || lia.
  - assert (n = 0) as -> by lia. simpl in Hr. simplify_eq.
    apply wp_ret. simpl. by rewrite setm_memof.
Qed.

Lemma memcpy_opt_stores dest src n bs w :
  0 <= n -> bytes (memof w) -> rd (memof w) src (Z.to_nat n) = Some bs ->
  mapped (memof w) dest n -> ~ buffers_meet dest src n ->
  stores (SECUREC_MEMCPY_OPT dest src n) dest bs w.
Proof.
  intros. unfold SECUREC_MEMCPY_OPT, SECUREC_MEMCOPY_THRESHOLD_SIZE. zcases.
  - by apply memcpy_stores.
  - apply small_copy_stores; done || lia.
Qed.

Lemma set_opt_stores dest c n w : 0 <= n -> mapped (memof w) dest n ->
  stores (SECUREC_MEMSET_OPT dest c n) dest (replicate (Z.to_nat n) (u8 c)) w.
Proof.
  intros Hn Hm. pose proof (memset_stores dest c n w Hn Hm) as Hset.
  assert (n = 0 -> stores (mret tt) dest (replicate (Z.to_nat n) (u8 c)) w) as H0.
  { intros ->. apply wp_ret. simpl. by rewrite setm_memof. }
  assert (stores (SECUREC_UNALIGNED_SET dest c n) dest (replicate (Z.to_nat n) (u8 c)) w
          \/ 32 < n) as Hun.
  { unfold SECUREC_UNALIGNED_SET. zcases; [left; exact Hset | left; apply H0; lia]. }
  assert (forall b, u8 c = b -> u8 b = b ->
    stores (set_struct dest b n) dest (replicate (Z.to_nat n) (u8 c)) w \/ 32 < n) as Hst.
  { intros b Hcb Hbb. rewrite Hcb. unfold set_struct. zcases.
    - subst n. left. apply wp_stn; [done |]. simpl. by rewrite Hbb.
    - left. apply wp_st_bytes; [| done]. rewrite length_replicate, Z2Nat.id by lia. done.
    - left. rewrite <- Hcb. apply H0. lia. }
  unfold SECUREC_MEMSET_OPT, SECUREC_MEMSET_THRESHOLD_SIZE, SECUREC_SMALL_MEM_SET,
    SECUREC_ALIGNED_SET_OPT_ZERO_FF.
  destruct (Z.ltb_spec 32 n); [done |].
  destruct (SECUREC_ADDR_ALIGNED_8 dest); [| by destruct Hun; [| lia]].
  destruct (Z.eqb_spec c 0) as [-> |]; [by destruct (Hst 0); [| | | lia] |].
  destruct (Z.eqb_spec c 255) as [-> |]; [by destruct (Hst 255); [| | | lia] |].
  by destruct Hun; [| lia].
Qed.

Local Ltac btest P :=
  lazymatch goal with
  | |- context [if ?b then _ else _] =>
      destruct (decide P); [replace b with true by lia | replace b with false by lia]
  end.

(** A computation that returns [r] after rewriting the buffer as [e] says. *)
Definition settles (c : M G D Z) (dest destMax : Z) (bs : list Z) (re : Z * effect)
    (w : world G D) : Prop :=
  wp c (fun r w' => r = fst re /\
                    w' = setm (apply_effect (memof w) dest destMax bs (snd re)) w) w.

Lemma settles_ret dest destMax bs r w :
  settles (mret r) dest destMax bs (r, Untouched) w.
Proof. apply wp_ret. simpl. by rewrite setm_memof. Qed.

Lemma settles_stores c dest destMax bs r w :
  stores c dest bs w -> settles (c ;; mret r) dest destMax bs (r, Copied) w.
Proof.
  intros H. apply wp_bind. eapply wp_mono; [exact H |]. intros [] w' ->. by apply wp_ret.
Qed.

Lemma settles_clear dest destMax bs r w : 0 <= destMax -> mapped (memof w) dest destMax ->
  settles (memset dest 0 destMax ;; mret r) dest destMax bs (r, Cleared) w.
Proof.
  intros H0 Hm. apply wp_bind. wp_apply memset_stores; [done.. |].
  intros [] w' ->. by apply wp_ret.
Qed.

Lemma no_overlap_meet dest src n : 0 < n ->
  SECUREC_MEMORY_NO_OVERLAP dest src n = true <-> dest <> src /\ ~ buffers_meet dest src n.
Proof. intros Hn. unfold SECUREC_MEMORY_NO_OVERLAP, buffers_meet. zcases; lia. Qed.

Lemma is_overlap_meet dest src n :
  SECUREC_MEMORY_IS_OVERLAP dest src n = true <-> buffers_meet dest src n.
Proof. unfold SECUREC_MEMORY_IS_OVERLAP, buffers_meet. zcases; lia. Qed.

Lemma memcpy_param_ok dest destMax src n : 0 <= n -> 0 <= destMax ->
  SECUREC_MEMCPY_PARAM_OK dest destMax src n = true ->
  copy_contract false dest destMax src n = (EOK, Copied) /\ 0 < n <= destMax /\
  dest <> NULL /\ src <> NULL /\ ~ buffers_meet dest src n.
Proof.
  intros Hn Hm Hok. unfold SECUREC_MEMCPY_PARAM_OK in Hok.
  rewrite !andb_true_iff, !negb_true_iff in Hok. destruct Hok as [[[[[H1 H2] H3] H4] H5] H6].
  apply no_overlap_meet in H6 as [H6 H7]; [| lia].
  unfold copy_contract, NULL in *.
  rewrite !decide_False by (lia || tauto). repeat split; done || lia.
Qed.

(** What is left when the fast test of the parameters failed. *)
Lemma SecMemcpyError_settles dest destMax src n bs w :
  buffers_ok (memof w) dest destMax src n bs ->
  n = 0 \/ dest = src \/ copy_contract false dest destMax src n <> (EOK, Copied) ->
  settles (SecMemcpyError dest destMax src n) dest destMax bs
          (copy_contract false dest destMax src n) w.
Proof.
  intros [Hb Hn Hmax Hd Hs] Hbad. unfold SecMemcpyError, copy_contract in *.
  unfold NULL in *. btest (destMax = 0 \/ SECUREC_MEM_MAX_LEN < destMax); [apply settles_ret |].
  destruct (decide (dest = 0)) as [-> | Hd0]; [apply settles_ret |].
  specialize (Hd Hd0). rewrite (proj2 (Z.eqb_neq dest 0) Hd0). cbn [orb negb].
  btest (src = 0); [by apply settles_clear |].
  btest (destMax < n); [by apply settles_clear |].
  pose proof (is_overlap_meet dest src n) as Hov.
  destruct (SECUREC_MEMORY_IS_OVERLAP dest src n); case_decide as Hm.
  - by apply settles_clear.
  - destruct Hm. split; [done | by apply Hov].
  - destruct Hm as [_ Hm]. by apply Hov in Hm.
  - apply wp_ret. split; [done |]. cbn [snd apply_effect].
    assert (dest = src \/ n = 0) as [-> | ->] by (destruct Hbad as [? | [? | Hbad]]; [tauto.. |]; done).
    + rewrite (wr_rd_id _ _ (Z.to_nat n)) by (apply Hs; lia). by rewrite setm_memof.
    + specialize (Hs ltac:(lia) ltac:(lia)). simpl in Hs. simplify_eq. simpl. by rewrite setm_memof.
Qed.

Lemma memcpy_like_settles (copy : Z -> Z -> Z -> M G D unit) dest destMax src n bs w :
  (dest <> NULL -> n <= destMax -> ~ buffers_meet dest src n ->
   rd (memof w) src (Z.to_nat n) = Some bs -> stores (copy dest src n) dest bs w) ->
  buffers_ok (memof w) dest destMax src n bs ->
  settles (if SECUREC_MEMCPY_PARAM_OK dest destMax src n then copy dest src n ;; mret EOK
           else SecMemcpyError dest destMax src n) dest destMax bs
          (copy_contract false dest destMax src n) w.
Proof.
  intros Hcopy Hok. pose proof Hok as [Hb Hn Hmax Hd Hs].
  destruct (SECUREC_MEMCPY_PARAM_OK _ _ _ _) eqn:E.
  - destruct (memcpy_param_ok dest destMax src n) as (-> & H1 & H2 & H3 & H4); [done.. |].
    apply settles_stores, Hcopy; [done | lia | done | apply Hs; done || lia].
  - apply SecMemcpyError_settles; [done |].
    destruct (decide (n = 0)); [by left |]. destruct (decide (dest = src)); [by right; left |].
    right; right. intros Hc. apply not_true_iff_false in E. apply E.
    pose proof (no_overlap_meet dest src n ltac:(lia)) as Hno.
    unfold copy_contract, NULL in Hc. unfold SECUREC_MEMCPY_PARAM_OK, NULL.
    repeat case_decide; simplify_eq.
    rewrite !andb_true_iff, Hno. repeat split; try lia. tauto.
Qed.

(** The successful call, which needs only [n] bytes of the destination. *)
Lemma wp_memcpy_s_ok dest destMax src n bs (Q : Z -> world G D -> Prop) w :
  bytes (memof w) -> rd (memof w) src (Z.to_nat n) = Some bs -> mapped (memof w) dest n ->
  dest <> NULL -> src <> NULL -> 0 <= n <= destMax -> 0 < destMax <= SECUREC_MEM_MAX_LEN ->
  dest + n <= src \/ src + n <= dest ->
  Q EOK (setm (wr (memof w) dest bs) w) -> wp (memcpy_s dest destMax src n) Q w.
Proof.
  intros Hb Hr Hm Hd Hs Hn Hmax Hdis HQ. unfold memcpy_s.
  destruct (Z.eq_dec n 0) as [-> | Hn0].
  - simpl in Hr. simplify_eq. simpl in HQ. rewrite setm_memof in HQ.
    replace (SECUREC_MEMCPY_PARAM_OK dest destMax src 0) with false
      by (unfold SECUREC_MEMCPY_PARAM_OK; lia).
    unfold SecMemcpyError, SECUREC_MEMORY_IS_OVERLAP, NULL in *.
    replace (_ || _) with false by lia. replace (_ || _) with false by lia.
    replace (destMax <? 0) with false by lia. replace (_ || _) with false by lia. by apply wp_ret.
  - replace (SECUREC_MEMCPY_PARAM_OK dest destMax src n) with true
      by (unfold SECUREC_MEMCPY_PARAM_OK, SECUREC_MEMORY_NO_OVERLAP, NULL in *; lia).
    wp_step. wp_apply memcpy_stores; [lia | done | done | done | unfold buffers_meet; lia |].
    intros [] w' ->. by apply wp_ret.
Qed.
End Facts.

Section StringFacts.
Context {G D : Type} `{MD : Machine D} `{HM : !Has G mem}.
Implicit Types (w : world G D).

(** [a] points to the NUL-terminated string [s]. *)
Definition str_at (m : mem) (a : Z) (s : list Z) : Prop :=
  rd m a (S (length s)) = Some (s ++ [0]) /\ Forall (fun c => c <> 0) s.

Lemma str_at_cons m a c s : str_at m a (c :: s) ->
  m !! a = Some c /\ c <> 0 /\ str_at m (a + 1) s.
Proof.
  intros [Hr Hf]. apply Forall_cons in Hf as [Hc Hf].
  change (rd m a (S (length (c :: s)))) with
    (b ← m !! a; bs ← rd m (a + 1) (S (length s)); Some (b :: bs)) in Hr.
  apply bind_Some in Hr as (b & Hb & Hr). apply bind_Some in Hr as (bs & Hbs & Hr).
  simplify_eq/=. by repeat split.
Qed.

Lemma str_at_nil m a : str_at m a [] -> m !! a = Some 0.
Proof. intros [Hr _]. apply bind_Some in Hr as (b & Hb & Hr). by simplify_eq/=. Qed.

Lemma str_at_take m a s k : str_at m a s -> (k <= length s)%nat ->
  rd m a k = Some (take k s).
Proof.
  revert a s. induction k as [| k IH]; intros a s Hs Hk; [done |].
  destruct s as [| c s]; simpl in Hk; [lia |].
  apply str_at_cons in Hs as (Hc & _ & Hs). cbn [rd take]. rewrite Hc. simpl.
  by rewrite (IH _ s) by (done || lia).
Qed.

Lemma str_at_drop m a s k : str_at m a s -> (k <= length s)%nat ->
  str_at m (a + Z.of_nat k) (drop k s).
Proof.
  revert a s. induction k as [| k IH]; intros a s Hs Hk; [by rewrite Z.add_0_r |].
  destruct s as [| c s]; simpl in Hk; [lia |].
  apply str_at_cons in Hs as (_ & _ & Hs). simpl.
  replace (a + Z.of_nat (S k)) with (a + 1 + Z.of_nat k) by lia. apply IH; [done | lia].
Qed.

Lemma wp_ld8 a b (Q : Z -> world G D -> Prop) w :
  memof w !! a = Some b -> Q b w -> wp (ld8 a) Q w.
Proof.
  intros Ha HQ. apply wp_ldn. exists [b]. split; [cbn [rd]; by rewrite Ha |].
  by rewrite le_word_1.
Qed.

Lemma wp_calc_str_len n str s len w : str_at (memof w) str s ->
  wp (calc_str_len n str len)
     (fun r w' => w' = w /\ r = len + Z.min (Z.of_nat (length s)) (Z.of_nat n)) w.
Proof.
  revert str s len. induction n as [| n IH]; intros str s len Hs; cbn [calc_str_len].
  - apply wp_ret. split; [done | lia].
  - destruct s as [| c s].
    + wp_step. eapply wp_ld8; [by apply str_at_nil |]. apply wp_ret. split; [done |]. simpl. lia.
    + apply str_at_cons in Hs as (Hc & Hne & Hs).
      wp_step. eapply wp_ld8; [done |]. rewrite (proj2 (Z.eqb_neq c 0) Hne).
      wp_apply IH; [done |]. intros r w' [-> ->]. split; [done |]. simpl. lia.
Qed.

Lemma wp_CALC_STR_LEN str s n w : str_at (memof w) str s -> 0 <= n ->
  wp (SECUREC_CALC_STR_LEN str n) (fun r w' => w' = w /\ r = Z.min (Z.of_nat (length s)) n) w.
Proof.
  intros Hs Hn. wp_apply wp_calc_str_len; [done |]. intros r w' [-> ->].
  split; [done |]. rewrite Z2Nat.id by done. lia.
Qed.

(** The probing variant computes the same length. *)
Lemma wp_probe n str s i rest (Q : Z -> world G D -> Prop) w :
  str_at (memof w) (str + i) s ->
  ((length s < n)%nat -> Q (i + Z.of_nat (length s)) w) ->
  ((n <= length s)%nat -> wp rest Q w) ->
  wp (probe n str i rest) Q w.
Proof.
  revert s i. induction n as [| n IH]; intros s i Hs Hin Hrest; cbn [probe]; [apply Hrest; lia |].
  destruct s as [| c s].
  - wp_step. eapply wp_ld8; [by apply str_at_nil |]. apply wp_ret.
    specialize (Hin ltac:(simpl; lia)). simpl in Hin. by rewrite Z.add_0_r in Hin.
  - apply str_at_cons in Hs as (Hc & Hne & Hs).
    wp_step. eapply wp_ld8; [done |]. rewrite (proj2 (Z.eqb_neq c 0) Hne).
    apply (IH s (i + 1)).
    + by rewrite Z.add_assoc.
    + intros Hn. replace (i + 1 + Z.of_nat (length s)) with (i + Z.of_nat (length (c :: s)))
        by (simpl; lia). apply Hin. simpl. lia.
    + intros Hn. apply Hrest. simpl. lia.
Qed.

Lemma wp_CALC_STR_LEN_OPT str s n w : str_at (memof w) str s -> 0 <= n ->
  wp (SECUREC_CALC_STR_LEN_OPT str n) (fun r w' => w' = w /\ r = Z.min (Z.of_nat (length s)) n) w.
Proof.
  intros Hs Hn. unfold SECUREC_CALC_STR_LEN_OPT. destruct (Z.ltb_spec 8 n).
  - apply (wp_probe 9 str s 0).
    + by rewrite Z.add_0_r.
    + intros H9. split; [done | lia].
    + intros H9. wp_step. wp_apply (wp_CALC_STR_LEN _ (drop 8 s));
        [apply (str_at_drop _ _ _ 8); [done | lia] | lia |].
      intros r w' [-> ->]. apply wp_ret. split; [done |]. rewrite length_drop. lia.
  - by apply wp_CALC_STR_LEN.
Qed.

Lemma wp_check_src n str s w : str_at (memof w) str s ->
  wp (check_src n str)
     (fun r w' => w' = w /\ r = Z.max 0 (Z.of_nat n - Z.of_nat (length s))) w.
Proof.
  revert str s. induction n as [| n IH]; intros str s Hs; cbn [check_src];
    (destruct s as [| c s];
     [wp_step; eapply wp_ld8; [by apply str_at_nil |]; apply wp_ret; split; [done | simpl; lia] |]);
    apply str_at_cons in Hs as (Hc & Hne & Hs);
    (wp_step; eapply wp_ld8; [done |]; rewrite (proj2 (Z.eqb_neq c 0) Hne)).
  - apply wp_ret. split; [done |]. simpl. lia.
  - wp_apply IH; [done |]. intros r w' [-> ->]. split; [done |]. simpl. lia.
Qed.
End StringFacts.
