(* ===== verification/SecurecProps.v ===== *)
(** * SecurecProps: what the bounds-checked C library guarantees

    The contract of every function of [Securec], on every branch, for any
    memory; the agreement of the size-specialised variants with the plain
    functions; what the string functions leave in the destination. *)
From S2P Require Import Prelude Hw Mem Securec.
From stdpp Require Import prelude gmap list strings.
From Stdlib Require Import ZArith Lia.
Local Open Scope Z_scope.

Section Memory.
Context {G D : Type} `{MD : Machine D} `{HM : !Has G mem}.
Implicit Types (w : world G D).

(** Two computations that settle alike are equal. *)
Lemma settles_det (c c' : M G D Z) dest destMax bs re w :
  settles c dest destMax bs re w -> settles c' dest destMax bs re w -> c w = c' w.
Proof.
  unfold settles, wp. destruct (c w), (c' w); try done. intros [-> ->] [-> ->]. done.
Qed.

Lemma memcpy_s_settles dest destMax src count bs w :
  buffers_ok (memof w) dest destMax src count bs ->
  settles (memcpy_s dest destMax src count) dest destMax bs
          (copy_contract false dest destMax src count) w.
Proof.
  intros Hok. apply memcpy_like_settles; [| done]. intros Hd Hc Ho Hr.
  destruct Hok. apply memcpy_stores; eauto using mapped_sub with lia.
Qed.

Lemma memcpy_sOptAsm_settles dest destMax src count bs w :
  buffers_ok (memof w) dest destMax src count bs ->
  settles (memcpy_sOptAsm dest destMax src count) dest destMax bs
          (copy_contract false dest destMax src count) w.
Proof.
  intros Hok. apply memcpy_like_settles; [| done]. intros Hd Hc Ho Hr.
  destruct Hok. apply memcpy_opt_stores; eauto using mapped_sub with lia.
Qed.

(** the two optimised variants, whose macros unroll small copies into
    structure assignments or byte chains, are equal to [memcpy_s] as state
    transformers; [memcpy_sOptTc], which does not test the upper limit of
    [destMax] first, as long as [destMax] respects it. *)
Theorem memcpy_variants_agree dest destMax src count bs w :
  buffers_ok (memof w) dest destMax src count bs ->
  memcpy_sOptAsm dest destMax src count w = memcpy_s dest destMax src count w /\
  (destMax <= SECUREC_MEM_MAX_LEN ->
   memcpy_sOptTc dest destMax src count w = memcpy_s dest destMax src count w).
Proof.
  intros Hok.
  assert (memcpy_sOptAsm dest destMax src count w = memcpy_s dest destMax src count w) as E.
  { eapply settles_det; [by apply memcpy_sOptAsm_settles | by apply memcpy_s_settles]. }
  split; [done |]. intros Hm. rewrite <- E. unfold memcpy_sOptTc, memcpy_sOptAsm.
  unfold SECUREC_MEMCPY_PARAM_OK. rewrite (proj2 (Z.leb_le _ _) Hm), andb_true_r. done.
Qed.

Lemma memmove_stores dest src n bs w :
  0 <= n -> bytes (memof w) -> rd (memof w) src (Z.to_nat n) = Some bs ->
  mapped (memof w) dest n -> stores (SecUtilMemmove dest src n) dest bs w.
Proof.
  intros Hn Hb Hr Hm. unfold SecUtilMemmove.
  assert (mapped (memof w) dest (Z.of_nat (Z.to_nat n))) by (by rewrite Z2Nat.id).
  destruct (Z.leb_spec dest src); cbn [orb].
  - apply wp_copy_up; auto.
  - destruct (Z.leb_spec (src + n) dest); [apply wp_copy_up | apply wp_copy_down]; auto; lia.
Qed.

Lemma memmove_s_settles dest destMax src count bs w :
  buffers_ok (memof w) dest destMax src count bs ->
  settles (memmove_s dest destMax src count) dest destMax bs
          (copy_contract true dest destMax src count) w.
Proof.
  intros [Hb Hn Hmax Hd Hs].
  unfold memmove_s, copy_contract, NULL in *.
  destruct (decide (destMax = 0 \/ SECUREC_MEM_MAX_LEN < destMax)) as [Hr | Hr].
  { replace (_ || _) with true by lia. apply settles_ret. }
  replace (_ || _) with false by lia.
  destruct (decide (dest = 0)) as [-> | Hd0]; [apply settles_ret |].
  specialize (Hd Hd0). rewrite (proj2 (Z.eqb_neq dest 0) Hd0). cbn [orb negb].
  destruct (Z.eqb_spec src 0); rewrite ?(decide_True (P := src = 0)), ?(decide_False (P := src = 0))
    by done; [by apply settles_clear |].
  destruct (Z.ltb_spec destMax count); [rewrite decide_True by done; by apply settles_clear |].
  rewrite decide_False by lia. rewrite decide_False by (intros [? _]; done).
  specialize (Hs ltac:(done) ltac:(done)).
  destruct (Z.eqb_spec dest src) as [-> | Hne].
  { apply wp_ret. split; [done |]. simpl. by rewrite (wr_rd_id _ _ _ _ Hs), setm_memof. }
  apply settles_stores. unfold when. destruct (Z.ltb_spec 0 count).
  - apply memmove_stores; [lia | done | done |]. apply (mapped_sub _ _ _ _ _ Hd); lia.
  - assert (count = 0) as -> by lia. simpl in Hs. simplify_eq.
    apply wp_ret. simpl. by rewrite setm_memof.
Qed.

(** C1: [memcpy_s] and [memmove_s] meet the return-value tables of their
    comments on every branch: the status, and the destination untouched,
    cleared up to [destMax], or overwritten by exactly the bytes the source
    had before the call; nothing else in memory changes and no access leaves
    the two buffers.  The tables differ for overlapping buffers only, which
    [memcpy_s] refuses and [memmove_s] moves. *)
Theorem copies_meet_table (move : bool) dest destMax src count bs w :
  buffers_ok (memof w) dest destMax src count bs ->
  wp ((if move then memmove_s else memcpy_s) dest destMax src count)
     (fun r w' =>
        r = fst (copy_contract move dest destMax src count) /\
        w' = setm (apply_effect (memof w) dest destMax bs
                     (snd (copy_contract move dest destMax src count))) w) w.
Proof. destruct move; [apply memmove_s_settles | apply memcpy_s_settles]. Qed.

(** The contract of the filling functions. *)
Definition set_contract (dest destMax count : Z) : Z * effect :=
  if decide (destMax = 0 /\ 0 < count \/ SECUREC_MEM_MAX_LEN < destMax) then (ERANGE, Untouched)
  else if decide (dest = NULL) then
    if decide (destMax = 0) then (ERANGE, Untouched) else (EINVAL, Untouched)
  else if decide (destMax < count) then (ERANGE_AND_RESET, Cleared)
  else (EOK, Copied).

(** [memset_s] reports an oversized or empty buffer and a NULL pointer
    without writing, fills the whole buffer when [count] exceeds it, and
    otherwise stores exactly [count] copies of the byte; the optimised
    [memset_sOptAsm] (constant structures, byte chains) is equal to it, and
    so is [memset_sOptTc] when [destMax] respects the limit. *)
Theorem memset_s_contract dest destMax c count w :
  0 <= count -> 0 <= destMax -> (dest <> NULL -> mapped (memof w) dest destMax) ->
  wp (memset_s dest destMax c count)
     (fun r w' =>
        let '(st, e) := set_contract dest destMax count in
        r = st /\
        w' = match e with
             | Untouched => w
             | Cleared => setm (wr (memof w) dest (replicate (Z.to_nat destMax) (u8 c))) w
             | Copied => setm (wr (memof w) dest (replicate (Z.to_nat count) (u8 c))) w
             end) w /\
  memset_sOptAsm dest destMax c count w = memset_s dest destMax c count w /\
  (destMax <= SECUREC_MEM_MAX_LEN ->
   memset_sOptTc dest destMax c count w = memset_s dest destMax c count w).
Proof.
  intros Hc Hm Hd.
  assert (dest <> NULL -> count <= destMax ->
    (SECUREC_MEMSET_OPT dest c count ;; mret EOK) w = (memset dest c count ;; mret EOK) w) as E.
  { intros Hn Hle. eapply (settles_det _ _ dest destMax); apply settles_stores;
      [apply set_opt_stores | apply memset_stores]; eauto using mapped_sub with lia. }
  unfold memset_sOptAsm, memset_sOptTc, memset_s, SECUREC_MEMSET_PARAM_OK, SecMemsetError,
    set_contract, NULL in *.
  destruct (Z.leb_spec destMax SECUREC_MEM_MAX_LEN), (Z.eqb_spec dest 0),
    (Z.leb_spec count destMax); cbn [andb negb] in *;
    (split; [| split; [try (by apply E) | intros ?; try (by apply E); try lia]; try done]).
  all: repeat case_decide; try lia; zcases; cbn [orb]; try (by apply wp_ret).
  all: wp_step; wp_apply memset_stores; [lia | eauto using mapped_sub with lia |];
    intros [] w' ->; apply wp_ret; done.
Qed.
End Memory.

Section Strings.
Context {G D : Type} `{MD : Machine D} `{HM : !Has G mem}.
Implicit Types (w : world G D).

(** The caller's side of the string functions: the destination really has
    [destMax] bytes and the source is terminated. *)
Record strings_ok (m : mem) (dest destMax src : Z) (s : list Z) : Prop := {
  so_bytes : bytes m;
  so_max : 0 <= destMax;
  so_dest : dest <> NULL -> mapped m dest destMax;
  so_src : src <> NULL -> str_at m src s;
}.

Lemma settles_term dest bs r w : mapped (memof w) dest 1 ->
  settles (st8 dest 0 ;; mret r) dest 1 bs (r, Cleared) w.
Proof. intros Hm. apply wp_bind, wp_stn; [done |]. by apply wp_ret. Qed.

Lemma settles_bind {A} (c : M G D A) (k : A -> M G D Z) a dest n bs re w :
  wp c (fun r w' => w' = w /\ r = a) w ->
  settles (k a) dest n bs re w -> settles (c ≫= k) dest n bs re w.
Proof.
  intros Hc Hk. apply wp_bind. eapply wp_mono; [exact Hc |]. by intros r w' [-> ->].
Qed.

(** What [strcpy_s] promises: only the first byte is cleared on error. *)
Definition strcpy_contract (dest destMax src : Z) (len : Z) : Z * effect :=
  if decide (destMax = 0 \/ SECUREC_STRING_MAX_LEN < destMax) then (ERANGE, Untouched)
  else if decide (dest = NULL) then (EINVAL, Untouched)
  else if decide (src = NULL) then (EINVAL_AND_RESET, Cleared)
  else if decide (destMax <= len) then (ERANGE_AND_RESET, Cleared)
  else if decide (buffers_meet dest src (len + 1)) then (EOVERLAP_AND_RESET, Cleared)
  else (EOK, Copied).

Lemma str_at_rd m a s : str_at m a s -> rd m a (S (length s)) = Some (s ++ [0]).
Proof. by intros [H _]. Qed.

Lemma strcpy_error_settles dest destMax src s w :
  strings_ok (memof w) dest destMax src s ->
  destMax = 0 \/ SECUREC_STRING_MAX_LEN < destMax \/ dest = NULL \/ src = NULL \/
    dest = src \/ destMax <= Z.of_nat (length s) ->
  settles (strcpy_error dest destMax src) dest 1 (s ++ [0])
          (strcpy_contract dest destMax src (Z.of_nat (length s))) w.
Proof.
  intros [Hb Hmax Hd Hs] Hbad. unfold strcpy_error, strcpy_contract, NULL in *.
  destruct (decide (destMax = 0 \/ SECUREC_STRING_MAX_LEN < destMax)) as [Hr | Hr].
  { replace (_ || _) with true by lia. apply settles_ret. }
  replace (_ || _) with false by lia.
  destruct (decide (dest = 0)) as [-> | Hd0]; [apply settles_ret |].
  assert (mapped (memof w) dest 1) as Hd1 by (eapply mapped_sub; [by apply Hd | lia..]).
  rewrite (proj2 (Z.eqb_neq dest 0) Hd0). cbn [orb negb].
  destruct (decide (src = 0)) as [-> | Hs0]; [by apply settles_term |].
  specialize (Hs Hs0). rewrite (proj2 (Z.eqb_neq src 0) Hs0).
  eapply settles_bind; [by apply wp_check_src |]. rewrite Z2Nat.id by done.
  destruct (decide (destMax <= Z.of_nat (length s))).
  { replace (_ =? 0) with true by lia. by apply settles_term. }
  replace (_ =? 0) with false by lia.
  assert (dest = src) as -> by lia. rewrite decide_False by (intros [? _]; done).
  apply wp_ret. split; [done |]. simpl.
  by rewrite (wr_rd_id _ _ _ _ (str_at_rd _ _ _ Hs)), setm_memof.
Qed.

Lemma strcpy_opt_stores dest src n bs w :
  0 <= n -> bytes (memof w) -> rd (memof w) src (Z.to_nat n) = Some bs ->
  mapped (memof w) dest n -> ~ buffers_meet dest src n ->
  stores (SECUREC_STRCPY_OPT dest src n) dest bs w.
Proof.
  intros. unfold SECUREC_STRCPY_OPT, SECUREC_STRCOPY_THRESHOLD_SIZE. zcases.
  - by apply memcpy_stores.
  - apply small_copy_stores; done || lia.
Qed.

Lemma strcpy_s_settles dest destMax src s w :
  strings_ok (memof w) dest destMax src s ->
  settles (strcpy_s dest destMax src) dest 1 (s ++ [0])
    (strcpy_contract dest destMax src (Z.of_nat (length s))) w.
Proof.
  intros Hok. pose proof Hok as [Hb Hmax Hd Hs].
  unfold strcpy_s. destruct (SECUREC_STRCPY_PARAM_OK _ _ _) eqn:E.
  2: { apply strcpy_error_settles; [done |]. unfold SECUREC_STRCPY_PARAM_OK, NULL in *. lia. }
  assert (0 < destMax <= SECUREC_STRING_MAX_LEN /\ dest <> 0 /\ src <> 0 /\ dest <> src)
    as (Hr & Hd0 & Hs0 & Hne) by (unfold SECUREC_STRCPY_PARAM_OK, NULL in E; lia).
  specialize (Hs Hs0). specialize (Hd Hd0).
  eapply settles_bind; [apply wp_CALC_STR_LEN; [done | lia] |]. cbv zeta.
  destruct (Z.leb_spec (Z.min (Z.of_nat (length s)) destMax + 1) destMax).
  2: { apply strcpy_error_settles; [done | lia]. }
  rewrite Z.min_l by lia.
  unfold strcpy_contract, NULL. rewrite !(decide_False (P := _ \/ _)) by lia.
  rewrite !(decide_False (P := _ = _)), (decide_False (P := _ <= _)) by lia.
  pose proof (no_overlap_meet dest src (Z.of_nat (length s) + 1) ltac:(lia)) as Hno.
  destruct (SECUREC_MEMORY_NO_OVERLAP _ _ _); case_decide as Hm.
  - exfalso. by apply Hno.
  - apply settles_stores, strcpy_opt_stores; [lia | done | | | done].
    + replace (Z.to_nat _) with (S (length s)) by lia. by apply str_at_rd.
    + apply (mapped_sub _ _ _ _ _ Hd); lia.
  - apply settles_term. apply (mapped_sub _ _ _ _ _ Hd); lia.
  - exfalso. assert (false = true); [| done]. apply Hno. by split.
Qed.

(** What [strncpy_s] promises; [k] is the number of characters to copy. *)
Definition strncpy_contract (dest destMax src count len : Z) : Z * effect :=
  let k := Z.min len count in
  if decide (destMax = 0 \/ SECUREC_STRING_MAX_LEN < destMax) then (ERANGE, Untouched)
  else if decide (dest = NULL) then (EINVAL, Untouched)
  else if decide (src = NULL) then (EINVAL_AND_RESET, Cleared)
  else if decide (SECUREC_STRING_MAX_LEN < count) then (ERANGE_AND_RESET, Cleared)
  else if decide (count = 0) then (EOK, Cleared)
  else if decide (destMax <= k) then (ERANGE_AND_RESET, Cleared)
  else if decide (buffers_meet dest src (k + 1)) then (EOVERLAP_AND_RESET, Cleared)
  else (EOK, Copied).

Lemma strncpy_error_settles dest destMax src count s w :
  strings_ok (memof w) dest destMax src s -> 0 <= count ->
  SECUREC_STRNCPY_PARAM_OK dest destMax src count = false ->
  settles (strncpy_error dest destMax src count) dest 1 (take (Z.to_nat count) s ++ [0])
          (strncpy_contract dest destMax src count (Z.of_nat (length s))) w.
Proof.
  intros [Hb Hmax Hd Hs] Hc Hbad. unfold strncpy_error, strncpy_contract, NULL in *. cbv zeta.
  destruct (decide (destMax = 0 \/ SECUREC_STRING_MAX_LEN < destMax)) as [Hr | Hr].
  { replace (_ || _) with true by lia. apply settles_ret. }
  replace (_ || _) with false by lia.
  destruct (decide (dest = 0)) as [-> | Hd0]; [apply settles_ret |].
  assert (mapped (memof w) dest 1) as Hd1 by (eapply mapped_sub; [by apply Hd | lia..]).
  rewrite (proj2 (Z.eqb_neq dest 0) Hd0). cbn [orb negb].
  destruct (decide (src = 0)) as [-> | Hs0]; [by apply settles_term |].
  rewrite (proj2 (Z.eqb_neq src 0) Hs0).
  destruct (decide (SECUREC_STRING_MAX_LEN < count)).
  { replace (_ <? count) with true by lia. by apply settles_term. }
  replace (_ <? count) with false by lia.
  destruct (decide (count = 0)).
  { replace (count =? 0) with true by lia. by apply settles_term. }
  exfalso. unfold SECUREC_STRNCPY_PARAM_OK, NULL in Hbad. lia.
Qed.

Lemma strncpy_s_settles dest destMax src count s w :
  strings_ok (memof w) dest destMax src s -> 0 <= count ->
  settles (strncpy_s dest destMax src count) dest 1 (take (Z.to_nat count) s ++ [0])
    (strncpy_contract dest destMax src count (Z.of_nat (length s))) w.
Proof.
  intros Hok Hc. pose proof Hok as [Hb Hmax Hd Hs].
  unfold strncpy_s. destruct (SECUREC_STRNCPY_PARAM_OK _ _ _ _) eqn:E;
    [| by apply strncpy_error_settles].
  assert (0 < destMax <= SECUREC_STRING_MAX_LEN /\ dest <> 0 /\ src <> 0 /\
          0 < count <= SECUREC_STRING_MAX_LEN)
    as (Hr & Hd0 & Hs0 & Hcr) by (unfold SECUREC_STRNCPY_PARAM_OK, NULL in E; lia).
  specialize (Hs Hs0). specialize (Hd Hd0).
  assert (mapped (memof w) dest 1) as Hd1 by (eapply mapped_sub; [by apply Hd | lia..]).
  eapply settles_bind; [apply wp_CALC_STR_LEN; [done | case_match; lia] |].
  unfold strncpy_contract, NULL. cbv zeta. rewrite !(decide_False (P := _ \/ _)) by lia.
  rewrite !(decide_False (P := _ = _)), (decide_False (P := _ < _)) by lia.
  replace (if count <? destMax then count else destMax) with (Z.min count destMax)
    by (destruct (Z.ltb_spec count destMax); lia).
  set (len := Z.of_nat (length s)).
  destruct (decide (destMax <= Z.min len count)).
  { replace (negb _ && _) with true by lia. by apply settles_term. }
  replace (negb _ && _) with false by lia.
  replace (Z.min len (Z.min count destMax)) with (Z.min len count) by lia.
  set (k := Z.min len count) in *.
  assert (SECUREC_STRING_NO_OVERLAP dest src k || (dest =? src) =
          negb (bool_decide (buffers_meet dest src (k + 1)))) as ->.
  { case_bool_decide as Hm; unfold SECUREC_STRING_NO_OVERLAP, buffers_meet in *; lia. }
  case_bool_decide as Hm; [rewrite decide_True by done | rewrite decide_False by done];
    cbn [negb]; [by apply settles_term |].
  assert (rd (memof w) src (Z.to_nat k) = Some (take (Z.to_nat count) s)) as Hrd.
  { erewrite str_at_take; [| done | lia]. f_equal. unfold k, len.
    destruct (decide (Z.of_nat (length s) <= count)).
    - rewrite !take_ge by lia. done.
    - by rewrite Z.min_r by lia. }
  unfold settles. wp_step. wp_apply memcpy_stores; [lia | done | done | | |].
  { apply (mapped_sub _ _ _ _ _ Hd); lia. }
  { unfold buffers_meet in *. lia. }
  intros [] w' ->. wp_step. apply wp_stn.
  { rewrite memof_setm. apply mapped_wr. apply (mapped_sub _ _ _ _ _ Hd); lia. }
  rewrite memof_setm, setm_setm. apply wp_ret. split; [done |]. simpl.
  rewrite wr_app. by rewrite (rd_length _ _ _ _ Hrd), Z2Nat.id by lia.
Qed.

(** [strcpy_s] and, for every [count], [strncpy_s] follow their tables on
    every branch.  On success the destination holds the source string (its
    first [count] characters at most) and the terminator; an overlap, a
    destination too small and every invalid argument give the documented
    status, with an empty string in a usable destination; no other byte
    changes. *)
Theorem string_copies_meet_table dest destMax src s w :
  strings_ok (memof w) dest destMax src s ->
  wp (strcpy_s dest destMax src)
     (fun r w' =>
        let re := strcpy_contract dest destMax src (Z.of_nat (length s)) in
        r = fst re /\
        w' = setm (apply_effect (memof w) dest 1 (s ++ [0]) (snd re)) w) w /\
  forall count, 0 <= count ->
  wp (strncpy_s dest destMax src count)
     (fun r w' =>
        let re := strncpy_contract dest destMax src count (Z.of_nat (length s)) in
        r = fst re /\
        w' = setm (apply_effect (memof w) dest 1 (take (Z.to_nat count) s ++ [0]) (snd re)) w) w.
Proof. split; [by apply strcpy_s_settles | intros; by apply strncpy_s_settles]. Qed.
End Strings.

Section Concatenation.
Context {G D : Type} `{MD : Machine D} `{HM : !Has G mem}.
Implicit Types (w : world G D).

(** The status of a concatenation once the lengths [dl] of the destination
    (at most [destMax]) and [sl] of the source are known. *)
Definition join_contract (dest destMax src dl sl : Z) : Z * effect :=
  if decide (dest < src <= dest + dl + sl \/ src < dest <= src + sl) then
    (if decide (dest + dl <= src /\ dl = destMax) then EINVAL_AND_RESET
     else EOVERLAP_AND_RESET, Cleared)
  else if decide (destMax <= sl + dl \/ dest = src) then
    (if decide (dl = destMax) then EINVAL_AND_RESET else ERANGE_AND_RESET, Cleared)
  else (EOK, Copied).

Definition cat_contract (limit : option Z) (dest destMax src dl sl : Z) : Z * effect :=
  if decide (destMax = 0 \/ SECUREC_STRING_MAX_LEN < destMax) then (ERANGE, Untouched)
  else if decide (dest = NULL) then (EINVAL, Untouched)
  else if decide (src = NULL) then (EINVAL_AND_RESET, Cleared)
  else if decide (SECUREC_STRING_MAX_LEN < default 0 limit) then (ERANGE_AND_RESET, Cleared)
  else join_contract dest destMax src dl sl.

Lemma do_cat_settles dest destMax src d s' dl copy w :
  0 < destMax -> mapped (memof w) dest destMax -> str_at (memof w) dest d ->
  dl = Z.min (Z.of_nat (length d)) destMax ->
  (forall sl, snd (join_contract dest destMax src dl sl) = Copied ->
     sl = Z.of_nat (length s') ->
     stores copy (dest + Z.of_nat (length d)) (s' ++ [0]) w) ->
  forall sl, (sl + dl < destMax -> sl = Z.of_nat (length s')) ->
  settles (do_cat dest destMax dl src sl copy) dest 1 (d ++ s' ++ [0])
          (join_contract dest destMax src dl sl) w.
Proof.
  intros Hmax Hm Hd Hdl Hcopy sl Hsl. unfold do_cat. pose proof (Hcopy sl) as Hc.
  assert (mapped (memof w) dest 1) as Hm1 by (apply (mapped_sub _ _ _ _ _ Hm); lia).
  unfold join_contract in *. unfold SECUREC_CAT_STRING_IS_OVERLAP.
  destruct (decide (dest < src <= dest + dl + sl \/ src < dest <= src + sl)).
  { replace (_ || _) with true by lia.
    destruct (decide (dest + dl <= src /\ dl = destMax)).
    - replace (_ && _) with true by lia. by apply settles_term.
    - replace (_ && _) with false by lia. by apply settles_term. }
  replace (_ || _) with false by lia.
  destruct (decide (destMax <= sl + dl \/ dest = src)).
  { replace (_ || _) with true by lia. case_decide.
    - replace (_ =? _) with true by lia. by apply settles_term.
    - replace (_ =? _) with false by lia. by apply settles_term. }
  replace (_ || _) with false by lia. unfold settles. wp_step.
  eapply wp_mono; [apply Hc; [done | lia] |].
  intros [] w' ->. apply wp_ret. split; [done |]. cbn [snd apply_effect].
  rewrite (wr_app _ _ d). f_equal. f_equal.
  rewrite (wr_rd_id _ _ (length d)); [done |].
  rewrite (str_at_take _ _ d) by done. by rewrite take_ge.
Qed.

Record cat_ok (m : mem) (dest destMax src : Z) (d s : list Z) : Prop := {
  co_strings : strings_ok m dest destMax src s;
  co_dest : dest <> NULL -> str_at m dest d;
}.

Local Ltac cat_errors Hd :=
  destruct (decide (_ = 0 \/ _)) as [?Hr | ?Hr];
  [replace (_ || _) with true by lia; apply settles_ret |];
  replace (_ || _) with false by lia;
  destruct (decide (_ = 0)) as [-> | ?Hd0]; [apply settles_ret |];
  specialize (Hd Hd0); rewrite (proj2 (Z.eqb_neq _ 0) Hd0); cbn [orb negb];
  destruct (decide (_ = 0)) as [-> | ?Hs0];
  [apply settles_term, (mapped_sub _ _ _ _ _ Hd); lia |];
  rewrite (proj2 (Z.eqb_neq _ 0) Hs0).

Lemma strcat_s_settles dest destMax src d s w :
  cat_ok (memof w) dest destMax src d s ->
  let dl := Z.min (Z.of_nat (length d)) destMax in
  let sl := Z.min (Z.of_nat (length s)) (destMax - dl) in
  settles (strcat_s dest destMax src) dest 1 (d ++ s ++ [0])
    (cat_contract None dest destMax src dl sl) w.
Proof.
  intros [[Hb Hmax Hd Hs] Hds] dl sl.
  unfold strcat_s, cat_contract, NULL in *. cat_errors Hd.
  specialize (Hs Hs0). specialize (Hds Hd0).
  rewrite decide_False by (simpl; unfold SECUREC_STRING_MAX_LEN; lia).
  unfold SecDoCat. eapply settles_bind; [by apply wp_CALC_STR_LEN |]. fold dl. cbv zeta.
  eapply settles_bind; [apply wp_CALC_STR_LEN_OPT; [done | lia] |]. fold sl.
  apply do_cat_settles; [lia | done | done | done | | lia].
  intros sl' Hj ->. unfold join_contract in Hj. repeat case_decide; try done.
  replace dl with (Z.of_nat (length d)) in * by lia.
  apply memcpy_stores; [lia | done | | | unfold buffers_meet; lia].
  - replace (Z.to_nat _) with (S (length s)) by lia. by apply str_at_rd.
  - apply (mapped_sub _ _ _ _ _ Hd); lia.
Qed.

Lemma strncat_s_settles dest destMax src count d s w :
  cat_ok (memof w) dest destMax src d s -> 0 <= count ->
  let dl := Z.min (Z.of_nat (length d)) destMax in
  let sl := Z.min (Z.of_nat (length s)) count in
  settles (strncat_s dest destMax src count) dest 1 (d ++ take (Z.to_nat count) s ++ [0])
    (cat_contract (Some count) dest destMax src dl sl) w.
Proof.
  intros [[Hb Hmax Hd Hs] Hds] Hc dl sl.
  unfold strncat_s, cat_contract, NULL in *. cat_errors Hd.
  specialize (Hs Hs0). specialize (Hds Hd0). change (default 0 (Some count)) with count.
  destruct (decide (SECUREC_STRING_MAX_LEN < count)).
  { replace (_ <? count) with true by lia. apply settles_term, (mapped_sub _ _ _ _ _ Hd); lia. }
  replace (_ <? count) with false by lia.
  unfold SecDoCatLimit. eapply settles_bind; [by apply wp_CALC_STR_LEN |]. fold dl.
  eapply settles_bind; [by apply wp_CALC_STR_LEN |]. fold sl.
  assert (sl = Z.of_nat (length (take (Z.to_nat count) s))) as Hsl by (rewrite length_take; lia).
  apply do_cat_settles; [lia | done | done | done | | done].
  intros sl' Hj ->. rewrite <- Hsl in Hj. unfold join_contract in Hj. repeat case_decide; try done.
  replace dl with (Z.of_nat (length d)) in * by lia.
  unfold stores. wp_step.
  assert (rd (memof w) src (Z.to_nat sl) = Some (take (Z.to_nat count) s)) as Hrd.
  { erewrite str_at_take; [| done | lia]. f_equal. unfold sl.
    destruct (decide (Z.of_nat (length s) <= count)).
    - rewrite !take_ge by lia. done.
    - by rewrite Z.min_r by lia. }
  wp_apply memcpy_stores; [lia | done | done | | unfold buffers_meet; lia |].
  { apply (mapped_sub _ _ _ _ _ Hd); lia. }
  intros [] w' ->. apply wp_stn.
  { rewrite memof_setm. apply mapped_wr. apply (mapped_sub _ _ _ _ _ Hd); lia. }
  by rewrite memof_setm, setm_setm, wr_app, <- Hsl.
Qed.

(** [strcat_s] and, for every [count], [strncat_s] append: on success the
    destination holds its own characters, those of the source (the first
    [count] at most) and the terminator; on every error the documented status
    is returned and at most the first byte changes. *)
Theorem concatenations_meet_table dest destMax src d s w :
  cat_ok (memof w) dest destMax src d s ->
  let dl := Z.min (Z.of_nat (length d)) destMax in
  wp (strcat_s dest destMax src)
     (fun r w' =>
        let sl := Z.min (Z.of_nat (length s)) (destMax - dl) in
        let re := cat_contract None dest destMax src dl sl in
        r = fst re /\
        w' = setm (apply_effect (memof w) dest 1 (d ++ s ++ [0]) (snd re)) w) w /\
  forall count, 0 <= count ->
  wp (strncat_s dest destMax src count)
     (fun r w' =>
        let sl := Z.min (Z.of_nat (length s)) count in
        let re := cat_contract (Some count) dest destMax src dl sl in
        r = fst re /\
        w' = setm (apply_effect (memof w) dest 1 (d ++ take (Z.to_nat count) s ++ [0])
                     (snd re)) w) w.
Proof.
  intros Hok dl. split; [by apply (strcat_s_settles _ _ _ d s) |].
  intros count Hc. by apply (strncat_s_settles _ _ _ count d s).
Qed.
End Concatenation.

Section Tokens.
Context {G D : Type} `{MD : Machine D} `{HM : !Has G mem}.
Implicit Types (w : world G D).

(** How many leading characters satisfy [p]. *)
Fixpoint lead (p : Z -> bool) (s : list Z) : nat :=
  match s with
  | [] => 0
  | c :: s' => if p c then S (lead p s') else 0
  end.

Lemma lead_le p s : (lead p s <= length s)%nat.
Proof. induction s as [| c s IH]; simpl; [lia | destruct (p c); lia]. Qed.

Lemma wp_SecIsInDelimit fuel ch delim ds w :
  str_at (memof w) delim ds -> (length ds < fuel)%nat ->
  wp (SecIsInDelimit fuel ch delim)
     (fun r w' => w' = w /\ r = bool_decide (ch ∈ ds)) w.
Proof.
  unfold SecIsInDelimit. revert delim ds. induction fuel as [| fuel IH]; intros delim ds Hd Hf;
    [lia |]. cbn [loop].
  destruct ds as [| c ds]; simpl in Hf.
  - wp_step. wp_step. eapply wp_ld8; [by apply str_at_nil |]. wp_steps.
    split; [done |]. by rewrite bool_decide_false by apply not_elem_of_nil.
  - apply str_at_cons in Hd as (Hc & Hne & Hd).
    wp_step. wp_step. eapply wp_ld8; [done |]. rewrite (proj2 (Z.eqb_neq c 0) Hne).
    wp_step. destruct (Z.eqb_spec c ch) as [-> | Hcc]; cbn [negb andb].
    + wp_steps. split; [done |]. by rewrite bool_decide_true by left.
    + wp_apply (IH (delim + 1) ds); [done | lia |]. intros r w' [-> ->]. split; [done |].
      apply bool_decide_ext. rewrite elem_of_cons.
      split; [by right | by intros [-> | ?]].
Qed.

Abbreviation isd ds := (fun c => bool_decide (c ∈ ds)).

Lemma wp_SecFindBegin fuel tok delim s ds w :
  str_at (memof w) tok s -> str_at (memof w) delim ds ->
  (length s < fuel)%nat -> (length ds < fuel)%nat ->
  wp (SecFindBegin fuel tok delim)
     (fun r w' => w' = w /\ r = tok + Z.of_nat (lead (isd ds) s)) w.
Proof.
  intros Hs Hd Hf Hfd. unfold SecFindBegin.
  match goal with |- context [loop fuel ?b _] => set (body := b) end.
  revert tok s Hs Hf. generalize fuel at 1 2 as k.
  induction k as [| k IH]; intros tok s Hs Hf; [lia |]. cbn [loop].
  destruct s as [| c s]; wp_step; unfold body at 1; wp_step.
  - eapply wp_ld8; [by apply str_at_nil |]. wp_steps. split; [done |]. simpl. lia.
  - apply str_at_cons in Hs as (Hc & Hne & Hs).
    eapply wp_ld8; [done |]. rewrite (proj2 (Z.eqb_neq c 0) Hne).
    wp_step. wp_apply wp_SecIsInDelimit; [done | done |]. intros r w' [-> ->].
    cbn [lead]. case_bool_decide; wp_step.
    + wp_apply (IH (tok + 1) s); [done | simpl in *; lia.. |].
      intros r w' [-> ->]. split; [done | lia].
    + wp_steps. split; [done | lia].
Qed.

(** The end of the token: the terminating delimiter, if any, becomes NUL. *)
Lemma wp_SecFindRest fuel tok delim s ds w :
  str_at (memof w) tok s -> str_at (memof w) delim ds ->
  (length s < fuel)%nat -> (length ds < fuel)%nat ->
  let n := lead (fun c => negb (isd ds c)) s in
  wp (SecFindRest fuel tok delim)
     (fun r w' =>
        if decide (n = length s) then w' = w /\ r = tok + Z.of_nat n
        else w' = setm (<[tok + Z.of_nat n := 0]> (memof w)) w /\ r = tok + Z.of_nat n + 1) w.
Proof.
  intros Hs Hd Hf Hfd. cbv zeta. unfold SecFindRest.
  match goal with |- context [loop fuel ?b _] => set (body := b) end.
  revert tok s Hs Hf. generalize fuel at 1 2 as k.
  induction k as [| k IH]; intros tok s Hs Hf; [lia |]. cbn [loop].
  destruct s as [| c s]; wp_step; unfold body at 1; wp_step.
  - eapply wp_ld8; [by apply str_at_nil |]. wp_steps.
    simpl. split; [done |]. lia.
  - apply str_at_cons in Hs as (Hc & Hne & Hs).
    eapply wp_ld8; [done |]. rewrite (proj2 (Z.eqb_neq c 0) Hne).
    wp_step. wp_apply wp_SecIsInDelimit; [done | done |]. intros r w' [-> ->].
    cbn [lead]. case_bool_decide; cbn [negb]; wp_step.
    + apply wp_stn.
      { intros i Hi. replace i with tok by lia. by eexists. }
      wp_steps. rewrite decide_False by done. simpl. rewrite !Z.add_0_r. done.
    + wp_apply (IH (tok + 1) s); [done | simpl in *; lia.. |].
      intros r w' Hr. cbn [length]. set (n := lead _ s) in *.
      replace (tok + Z.of_nat (S n)) with (tok + 1 + Z.of_nat n) by lia.
      destruct (decide (n = length s)); [rewrite decide_True by congruence |
        rewrite decide_False by congruence]; exact Hr.
Qed.

(** The split of a string into delimiters, token and remainder. *)
Definition token_of (ds s : list Z) : list Z :=
  let s1 := drop (lead (isd ds) s) s in take (lead (fun c => negb (isd ds c)) s1) s1.
Definition rest_of (ds s : list Z) : list Z :=
  let s1 := drop (lead (isd ds) s) s in drop (S (lead (fun c => negb (isd ds c)) s1)) s1.

Lemma str_at_cut m a s n : (n < length s)%nat -> str_at m a s ->
  str_at (<[a + Z.of_nat n := 0]> m) a (take n s) /\
  str_at (<[a + Z.of_nat n := 0]> m) (a + Z.of_nat n + 1) (drop (S n) s).
Proof.
  intros Hn Hs. pose proof (proj2 Hs) as Hf. split.
  - split; [| by apply Forall_take]. rewrite length_take_le by lia.
    pose proof (rd_wr_eq (<[a + Z.of_nat n := 0]> m) a (take n s ++ [0])) as E.
    replace (length (take n s ++ [0])) with (S n) in E
      by (rewrite length_app, length_take_le by lia; simpl; lia).
    rewrite <- E. apply rd_ext. intros i _. rewrite lookup_wr, length_app, length_take_le by lia.
    case_decide as Hi; [| done]. simpl in Hi. destruct (decide (i = a + Z.of_nat n)) as [-> | Hne].
    + rewrite lookup_insert_eq, lookup_app_r by (rewrite length_take_le; lia).
      rewrite length_take_le by lia. by replace (_ - n)%nat with O by lia.
    + rewrite lookup_insert_ne by lia. rewrite lookup_app_l by (rewrite length_take_le; lia).
      eapply rd_lookup; [apply str_at_take; [done | lia] | lia].
  - pose proof (str_at_drop m a s (S n) Hs ltac:(lia)) as [Hr Hff]. split; [| done].
    rewrite <- Hr. replace (a + Z.of_nat (S n)) with (a + Z.of_nat n + 1) by lia.
    apply rd_ext. intros i Hi. by rewrite lookup_insert_ne by lia.
Qed.

Lemma lead_stop p s : (lead p s < length s)%nat ->
  exists c, s !! lead p s = Some c /\ p c = false.
Proof.
  induction s as [| c s IH]; simpl; [lia |]. destruct (p c) eqn:E; intros Hl.
  - apply IH. lia.
  - by exists c.
Qed.

Lemma str_at_lookup m a s n c : str_at m a s -> s !! n = Some c ->
  m !! (a + Z.of_nat n) = Some c.
Proof.
  intros [Hr _] Hc. pose proof (lookup_lt_Some _ _ _ Hc).
  rewrite (rd_lookup _ _ _ _ _ Hr) by lia.
  replace (Z.to_nat _) with n by lia. by rewrite lookup_app_l by lia.
Qed.

(** [strtok_s] splits the string at [strToken], or at the saved
    position when [strToken] is NULL: it returns NULL exactly when only
    delimiters are left; otherwise the pointer it returns is the next token,
    terminated in place, and [*context] points to the remaining string.  At
    most one byte changes: the delimiter in front of the new [*context]. *)
Theorem strtok_s_splits fuel strToken strDelimit ctx s ds w :
  let start := if decide (strToken = NULL) then ctx else strToken in
  0 < start -> strDelimit <> NULL ->
  str_at (memof w) start s -> str_at (memof w) strDelimit ds ->
  (length s < fuel)%nat -> (length ds < fuel)%nat ->
  wp (strtok_s fuel strToken strDelimit (Some ctx))
     (fun '(t, c) w' =>
        exists c', c = Some c' /\
        (t = NULL <-> token_of ds s = []) /\
        (t <> NULL -> str_at (memof w') t (token_of ds s)) /\
        str_at (memof w') c' (rest_of ds s) /\
        (w' = w \/ exists x, x ∈ ds /\ memof w !! (c' - 1) = Some x /\
           w' = setm (<[c' - 1 := 0]> (memof w)) w)) w.
Proof.
  intros start Hpos Hdl Hs Hd Hf Hfd. unfold strtok_s.
  rewrite (proj2 (Z.eqb_neq strDelimit NULL) Hdl). unfold NULL in *.
  assert ((strToken =? 0) && (ctx =? 0) = false) as ->.
  { subst start. destruct (decide (strToken = 0)); lia. }
  replace (if strToken =? 0 then ctx else strToken) with start
    by (subst start; case_decide; [by replace (_ =? _) with true by lia |
        by replace (_ =? _) with false by lia]).
  wp_step. wp_apply wp_SecFindBegin; [done.. |]. intros r w' [-> ->].
  unfold token_of, rest_of. cbv beta. set (n := lead (isd ds) s).
  pose proof (str_at_drop _ _ _ n Hs (lead_le _ s)) as Hs1. set (s1 := drop n s) in *.
  set (tok := start + Z.of_nat n) in *.
  wp_step. unfold SecUpdateToken, NULL. wp_step. wp_apply wp_SecFindRest; [done | done | | done |].
  { unfold s1. rewrite length_drop. lia. }
  pose proof (lead_le (fun c => negb (bool_decide (c ∈ ds))) s1) as Hk.
  pose proof (lead_stop (fun c => negb (bool_decide (c ∈ ds))) s1) as Hstop.
  set (k := lead (fun c => negb (bool_decide (c ∈ ds))) s1) in *.
  intros r w'. case_decide as Hkl; intros [-> ->]; wp_step; wp_step; eexists; split; try done.
  - rewrite take_ge, drop_ge by lia.
    pose proof (str_at_drop _ _ _ k Hs1 Hk) as H0. rewrite drop_ge in H0 by lia.
    clearbody k s1. destruct (Z.eqb_spec (tok + Z.of_nat k) tok).
    + destruct s1; [| simpl in *; lia]. split; [done |]. split; [done |]. split; [done | by left].
    + split; [split; [lia | intros ->; simpl in *; lia] |]. split; [done |]. split; [done | by left].
  - destruct (Hstop ltac:(lia)) as (x & Hx & Hxd). apply negb_false_iff, bool_decide_eq_true in Hxd.
    pose proof (str_at_lookup _ _ _ _ _ Hs1 Hx) as Hmx.
    replace (tok + Z.of_nat k + 1 =? tok) with false by lia.
    destruct (str_at_cut _ _ s1 k ltac:(lia) Hs1) as [H1 H2]. rewrite memof_setm.
    replace (tok + Z.of_nat k + 1 - 1) with (tok + Z.of_nat k) by lia.
    split; [| split; [done | split; [done |]]].
    + destruct (lead_stop (isd ds) s) as (y & Hy & Hyd).
      { pose proof (lookup_lt_Some _ _ _ Hx) as Hl. unfold s1 in Hl. rewrite length_drop in Hl.
        fold n. lia. }
      fold n in Hy. rewrite <- (Nat.add_0_r n), <- lookup_drop in Hy. fold s1 in Hy.
      split; [lia |]. intros Ht. exfalso. unfold k in Ht.
      destruct s1 as [| y' s1']; [done |]. simpl in Hy. simplify_eq. cbn [lead] in Ht.
      by rewrite Hyd in Ht.
    + right. by exists x.
Qed.
End Tokens.

(** ** Witnesses: the contracts at concrete buffers *)
(** Addresses 96..127: "abc" at 96, "de" at 104, ",a" at 112. *)
Definition wit_bytes : list Z :=
  [97; 98; 99; 0; 7; 7; 7; 7; 100; 101; 0; 7; 7; 7; 7; 7; 44; 97; 0; 7; 7; 7; 7; 7;
   0; 0; 0; 0; 0; 0; 0; 0].
Definition wit_mem : mem := wr ∅ 96 wit_bytes.
Definition wit_world : world mem ram := World wit_mem ram0 [].

Lemma wit_bytes_ok : bytes wit_mem.
Proof. apply bytes_block. repeat constructor; unfold fits; lia. Qed.

Ltac wit_ok :=
  first
  [ exact wit_bytes_ok
  | apply mapped_block; simpl; lia
  | split; [vm_compute; reflexivity | repeat constructor; lia]
  | vm_compute; reflexivity
  | lia ].

Lemma copies_meet_table_witness :
  buffers_ok wit_mem 120 8 96 4 [97; 98; 99; 0] /\
  wp (memcpy_s (G := mem) (D := ram) 120 8 96 4)
     (fun r w' => r = EOK /\ rd (memof w') 120 5 = Some [97; 98; 99; 0; 0]) wit_world /\
  wp (memmove_s (G := mem) (D := ram) 98 8 96 4)
     (fun r w' => r = EOK /\ rd (memof w') 96 7 = Some [97; 98; 97; 98; 99; 0; 7]) wit_world.
Proof.
  assert (buffers_ok wit_mem 120 8 96 4 [97; 98; 99; 0]) as H
    by (split; intros; wit_ok).
  split; [exact H |]. split.
  - eapply wp_mono; [apply (copies_meet_table false 120 8 96 4 [97; 98; 99; 0] wit_world); exact H |].
    intros r w' [-> ->]. split; vm_compute; reflexivity.
  - eapply wp_mono; [apply (copies_meet_table true 98 8 96 4 [97; 98; 99; 0] wit_world) |].
    + split; intros; wit_ok.
    + intros r w' [-> ->]. split; vm_compute; reflexivity.
Defined.

Lemma memcpy_variants_agree_witness :
  memcpy_sOptTc (G := mem) (D := ram) 96 8 104 8 wit_world
  = memcpy_s 96 8 104 8 wit_world.
Proof.
  apply (memcpy_variants_agree 96 8 104 8 [100; 101; 0; 7; 7; 7; 7; 7] wit_world);
    [split; intros; wit_ok | vm_compute; discriminate].
Defined.

Lemma memset_s_contract_witness :
  wp (memset_s (G := mem) (D := ram) 120 4 257 5)
     (fun r w' => r = ERANGE_AND_RESET /\ rd (memof w') 120 5 = Some [1; 1; 1; 1; 0]) wit_world.
Proof.
  eapply wp_mono; [apply (memset_s_contract 120 4 257 5 wit_world); [lia | lia |] |].
  - intros _. wit_ok.
  - intros r w' [-> ->]. split; vm_compute; reflexivity.
Defined.

Lemma string_copies_meet_table_witness :
  wp (strcpy_s (G := mem) (D := ram) 104 8 96)
     (fun r w' => r = EOK /\ rd (memof w') 104 5 = Some [97; 98; 99; 0; 7]) wit_world /\
  wp (strncpy_s (G := mem) (D := ram) 104 8 96 2)
     (fun r w' => r = EOK /\ rd (memof w') 104 4 = Some [97; 98; 0; 7]) wit_world.
Proof.
  destruct (string_copies_meet_table 104 8 96 [97; 98; 99] wit_world) as [H1 H2].
  { split; intros; wit_ok. }
  split; [eapply wp_mono; [exact H1 |] | eapply wp_mono; [apply (H2 2); lia |]];
    intros r w' [-> ->]; split; vm_compute; reflexivity.
Defined.

Lemma concatenations_meet_table_witness :
  wp (strcat_s (G := mem) (D := ram) 96 8 104)
     (fun r w' => r = EOK /\ rd (memof w') 96 6 = Some [97; 98; 99; 100; 101; 0]) wit_world /\
  wp (strncat_s (G := mem) (D := ram) 96 8 104 1)
     (fun r w' => r = EOK /\ rd (memof w') 96 5 = Some [97; 98; 99; 100; 0]) wit_world.
Proof.
  destruct (concatenations_meet_table 96 8 104 [97; 98; 99] [100; 101] wit_world) as [H1 H2].
  { split; [split |]; intros; wit_ok. }
  split; [eapply wp_mono; [exact H1 |] | eapply wp_mono; [apply (H2 1); lia |]];
    intros r w' [-> ->]; split; vm_compute; reflexivity.
Defined.

(** The string ",a" split at the delimiters "," : the token "a". *)
Lemma strtok_s_splits_witness :
  token_of [44] [44; 97] = [97] /\
  wp (strtok_s (G := mem) (D := ram) 8 0 116 (Some 112))
     (fun '(t, c) w' => t <> NULL /\ exists c', c = Some c') 
     (World (<[116 := 44]> (<[117 := 0]> wit_mem)) ram0 []).
Proof.
  split; [reflexivity |].
  eapply wp_mono; [apply (strtok_s_splits 8 0 116 112 [44; 97] [44]) |].
  - vm_compute; reflexivity.
  - discriminate.
  - split; [vm_compute; reflexivity | repeat constructor; lia].
  - split; [vm_compute; reflexivity | repeat constructor; lia].
  - simpl; lia.
  - simpl; lia.
  - intros [t c] w' (c' & -> & [Ht _] & _). split; [| by exists c'].
    intros E. specialize (Ht E). discriminate Ht.
Defined.
