(* ===== verification/Printf.v ===== *)
(** * Printf: formatted output of the bounds-checked C library
    (platform/securec/src: output.inl, vsnprintf_s.c, vsprintf_s.c and the
    functions with a variable number of arguments on top of them)

    [SecOutput] reads the format by a table of states and writes to a stream
    that knows how much room is left.  The configuration is that of a 64-bit
    build outside the kernel: Linux formats, floats, wide characters.

    A [va_list] is the list of the arguments that are left, words or floating
    point numbers.  The text of a conversion is in the buffer of the
    attributes, filled from its end ([Buf l]: the pointer into it, by what is
    there from the pointer on), in the caller's memory ([Ptr]), or elsewhere
    ([Static]); wide text apart ([WBuf], [WPtr]).  Formatting a floating point
    number and converting a wide character are the C library's: the class
    [Libc].  [fuel] bounds the length of the format and of the strings.  The
    counters are the source's [int]s; they stay within the bounds of the
    buffer, so that nothing wraps. *)
From stdpp Require Import prelude gmap list strings.
From Stdlib Require Import ZArith Lia.
From S2P Require Import Prelude Hw Mem Securec.
Local Open Scope Z_scope.

(** *** Characters *)
Definition chr (s : string) : Z := match s with String a _ => Z.of_nat (Ascii.nat_of_ascii a) | EmptyString => 0 end.
Definition chars (s : string) : list Z := (fun a => Z.of_nat (Ascii.nat_of_ascii a)) <$> String.list_ascii_of_string s.

(** A [w]-bit pattern as a signed number. *)
Definition signed (w x : Z) : Z := let y := wrap w x in if y <? 2 ^ (w - 1) then y else y - 2 ^ w.

(** *** Constants *)
Definition SECUREC_RADIX_OCTAL : Z := 8.
Definition SECUREC_RADIX_DECIMAL : Z := 10.
Definition SECUREC_RADIX_HEX : Z := 16.
Definition SECUREC_PREFIX_LEN : Z := 2.
Definition SECUREC_FLOAT_BUF_EXT : Z := 2.
Definition SECUREC_FMT_STR_LEN : Z := 16.
Definition SECUREC_NUMBER_OF_X : Z := 16.
Definition SECUREC_BUFFER_SIZE : Z := 512.
Definition SECUREC_MAX_PRECISION : Z := SECUREC_BUFFER_SIZE.
Definition SECUREC_WCHAR_STRING_MAX_LEN : Z := SECUREC_STRING_MAX_LEN / 4.
Definition SECUREC_PRINTF_TRUNCATE : Z := -2.
Definition SECUREC_MAX_WIDTH_LEN_DIV_TEN : Z := 21474836.
Definition SECUREC_MAX_WIDTH_LEN : Z := SECUREC_MAX_WIDTH_LEN_DIV_TEN * 10.
Definition SECUREC_FLOAT_BUFSIZE : Z := 309 + 40.
Definition SECUREC_FLOAT_BUFSIZE_LB : Z := 4932 + 40.
Definition SECUREC_FLOAT_DEFAULT_PRECISION : Z := 6.
Definition SECUREC_FMT_STATE_OFFSET : Z := 256.

Definition SECUREC_FLAG_SIGN : Z := 0x00001.
Definition SECUREC_FLAG_SIGN_SPACE : Z := 0x00002.
Definition SECUREC_FLAG_LEFT : Z := 0x00004.
Definition SECUREC_FLAG_LEADZERO : Z := 0x00008.
Definition SECUREC_FLAG_LONG : Z := 0x00010.
Definition SECUREC_FLAG_SHORT : Z := 0x00020.
Definition SECUREC_FLAG_SIGNED : Z := 0x00040.
Definition SECUREC_FLAG_ALTERNATE : Z := 0x00080.
Definition SECUREC_FLAG_NEGATIVE : Z := 0x00100.
Definition SECUREC_FLAG_FORCE_OCTAL : Z := 0x00200.
Definition SECUREC_FLAG_LONG_DOUBLE : Z := 0x00400.
Definition SECUREC_FLAG_WIDECHAR : Z := 0x00800.
Definition SECUREC_FLAG_LONGLONG : Z := 0x01000.
Definition SECUREC_FLAG_CHAR : Z := 0x02000.
Definition SECUREC_FLAG_POINTER : Z := 0x04000.
Definition SECUREC_FLAG_I64 : Z := 0x08000.
Definition SECUREC_FLAG_PTRDIFF : Z := 0x10000.
Definition SECUREC_FLAG_SIZE : Z := 0x20000.
Definition SECUREC_FLAG_INTMAX : Z := 0x40000.

Definition g_itoaUpperDigits : list Z := chars "0123456789ABCDEFX".
Definition g_itoaLowerDigits : list Z := chars "0123456789abcdefx".

(** *** The states of the format *)
Inductive SecFmtState :=
| STAT_NORMAL | STAT_PERCENT | STAT_FLAG | STAT_WIDTH | STAT_DOT | STAT_PRECIS | STAT_SIZE | STAT_TYPE | STAT_INVALID.
#[export] Instance SecFmtState_eq_dec : EqDecision SecFmtState.
Proof. solve_decision. Defined.
Definition state_num (s : SecFmtState) : Z :=
  match s with
  | STAT_NORMAL => 0 | STAT_PERCENT => 1 | STAT_FLAG => 2 | STAT_WIDTH => 3 | STAT_DOT => 4
  | STAT_PRECIS => 5 | STAT_SIZE => 6 | STAT_TYPE => 7 | STAT_INVALID => 8
  end.
Definition num_state (n : Z) : SecFmtState :=
  if n =? 0 then STAT_NORMAL else if n =? 1 then STAT_PERCENT else if n =? 2 then STAT_FLAG
  else if n =? 3 then STAT_WIDTH else if n =? 4 then STAT_DOT else if n =? 5 then STAT_PRECIS
  else if n =? 6 then STAT_SIZE else if n =? 7 then STAT_TYPE else STAT_INVALID.

Definition stateTable : list Z :=
  [0; 0; 0; 0; 0; 0; 0; 0; 0; 0; 0; 0; 0; 0; 0; 0;
   0; 0; 0; 0; 0; 0; 0; 0; 0; 0; 0; 0; 0; 0; 0; 0;
   6; 0; 0; 6; 0; 1; 0; 0; 0; 0; 3; 6; 0; 6; 2; 0;
   4; 5; 5; 5; 5; 5; 5; 5; 5; 5; 0; 0; 0; 0; 0; 0;
   0; 0; 0; 8; 0; 8; 8; 8; 0; 7; 0; 0; 7; 0; 7; 0;
   0; 0; 0; 8; 0; 0; 0; 0; 8; 0; 7; 0; 0; 0; 0; 0;
   0; 0; 0; 8; 8; 8; 8; 8; 7; 8; 7; 0; 7; 0; 0; 8;
   8; 7; 0; 8; 7; 8; 0; 7; 8; 0; 7; 0; 0; 0; 0; 0] ++
  replicate 128 0 ++
  [0; 8; 8; 8; 8; 8; 8; 0; 0; 1; 0; 8; 8; 8; 8; 8;
   1; 0; 0; 4; 4; 4; 8; 8; 8; 0; 0; 0; 3; 3; 8; 5;
   8; 8; 0; 0; 0; 2; 2; 3; 5; 5; 8; 0; 0; 0; 3; 3;
   3; 5; 5; 8; 0; 0; 0; 2; 2; 2; 8; 8; 8; 0; 0; 0;
   6; 6; 6; 6; 6; 6; 0; 0; 0; 7; 7; 7; 7; 7; 7; 0;
   0].

(** The bytes read are below 256 and the states below 9: never outside. *)
Definition SecDecodeState (ch : Z) (lastState : SecFmtState) : SecFmtState :=
  let fmtType := nth (Z.to_nat (u8 ch)) stateTable 0 in
  num_state (nth (Z.to_nat (fmtType * (state_num STAT_INVALID + 1) + state_num lastState + SECUREC_FMT_STATE_OFFSET)) stateTable 0).

(** *** The stream and the attributes *)
Record SecPrintfStream := Stream { count : Z; cur : Z }.

Inductive SecFormatBuf :=
| Buf (l : list Z) | Ptr (p : Z) | Static (l : list Z) | WBuf (c : Z) | WPtr (p : Z) | WStatic (l : list Z).

Record SecFormatAttr := FormatAttr {
  digits : list Z; text : SecFormatBuf; textLen : Z; textIsWide : Z; radix : Z; flags : Z;
  fldWidth : Z; precision : Z; dynWidth : Z; dynPrecision : Z; padding : Z; prefixLen : Z; prefix : list Z;
}.

Definition set_digits d a := FormatAttr d (text a) (textLen a) (textIsWide a) (radix a) (flags a) (fldWidth a) (precision a) (dynWidth a) (dynPrecision a) (padding a) (prefixLen a) (prefix a).
Definition set_text t a := FormatAttr (digits a) t (textLen a) (textIsWide a) (radix a) (flags a) (fldWidth a) (precision a) (dynWidth a) (dynPrecision a) (padding a) (prefixLen a) (prefix a).
Definition set_textLen n a := FormatAttr (digits a) (text a) n (textIsWide a) (radix a) (flags a) (fldWidth a) (precision a) (dynWidth a) (dynPrecision a) (padding a) (prefixLen a) (prefix a).
Definition set_wide n a := FormatAttr (digits a) (text a) (textLen a) n (radix a) (flags a) (fldWidth a) (precision a) (dynWidth a) (dynPrecision a) (padding a) (prefixLen a) (prefix a).
Definition set_radix r a := FormatAttr (digits a) (text a) (textLen a) (textIsWide a) r (flags a) (fldWidth a) (precision a) (dynWidth a) (dynPrecision a) (padding a) (prefixLen a) (prefix a).
Definition set_flags f a := FormatAttr (digits a) (text a) (textLen a) (textIsWide a) (radix a) f (fldWidth a) (precision a) (dynWidth a) (dynPrecision a) (padding a) (prefixLen a) (prefix a).
Definition set_fldWidth n a := FormatAttr (digits a) (text a) (textLen a) (textIsWide a) (radix a) (flags a) n (precision a) (dynWidth a) (dynPrecision a) (padding a) (prefixLen a) (prefix a).
Definition set_precision n a := FormatAttr (digits a) (text a) (textLen a) (textIsWide a) (radix a) (flags a) (fldWidth a) n (dynWidth a) (dynPrecision a) (padding a) (prefixLen a) (prefix a).
Definition set_dynWidth n a := FormatAttr (digits a) (text a) (textLen a) (textIsWide a) (radix a) (flags a) (fldWidth a) (precision a) n (dynPrecision a) (padding a) (prefixLen a) (prefix a).
Definition set_dynPrecision n a := FormatAttr (digits a) (text a) (textLen a) (textIsWide a) (radix a) (flags a) (fldWidth a) (precision a) (dynWidth a) n (padding a) (prefixLen a) (prefix a).
Definition set_padding n a := FormatAttr (digits a) (text a) (textLen a) (textIsWide a) (radix a) (flags a) (fldWidth a) (precision a) (dynWidth a) (dynPrecision a) n (prefixLen a) (prefix a).
(** The first [n] characters of the prefix. *)
Definition set_prefix (p : list Z) (n : Z) a := FormatAttr (digits a) (text a) (textLen a) (textIsWide a) (radix a) (flags a) (fldWidth a) (precision a) (dynWidth a) (dynPrecision a) (padding a) n (p ++ drop (length p) (prefix a)).

Definition has (f : Z) (a : SecFormatAttr) : bool := negb (Z.land (flags a) f =? 0).
Definition add_flag (f : Z) (a : SecFormatAttr) : SecFormatAttr := set_flags (Z.lor (flags a) f) a.
Definition clear_flag (f : Z) (a : SecFormatAttr) : SecFormatAttr := set_flags (Z.land (flags a) (bnot 32 f)) a.

(** *** The arguments that are left, and the C library *)
Inductive arg (F : Type) := Word (v : Z) | Real (x : F).
Arguments Word {F} v.
Arguments Real {F} x.

(** [vsprintf] of one floating point number: the format, the [int]s in front
    of the number, the number, and whether it is a long double.  [wctomb]:
    the bytes of a wide character, or none. *)
Class Libc := {
  real : Type;
  vsprintf_real : list Z -> list Z -> real -> bool -> list Z;
  wctomb : Z -> option (list Z);
}.

Section FormattedOutput.
Context {G D : Type} `{MD : Machine D} `{HM : !Has G mem} `{LC : Libc}.
Abbreviation M := (M G D).
Abbreviation va_list := (list (arg real)).
Context (fuel : nat).

(** [va_arg]: an argument of the other class is not there. *)
Definition va_word (args : va_list) : M (Z * va_list) :=
  match args with Word v :: args' => mret (v, args') | _ => fail OutOfBounds end.
Definition va_real (args : va_list) : M (real * va_list) :=
  match args with Real x :: args' => mret (x, args') | _ => fail OutOfBounds end.

(** ** Numbers, filled into the buffer from its end *)
Definition push (c : Z) (l : list Z) : M (list Z) :=
  if Z.of_nat (length l) <? SECUREC_BUFFER_SIZE then mret (c :: l) else fail OutOfBounds.
(** [--attr->text.str; *(attr->text.str) = c]; no other text is written to. *)
Definition push_text (c : Z) (a : SecFormatAttr) : M SecFormatAttr :=
  match text a with
  | Buf l => l ← push c l; mret (set_text (Buf l) a)
  | _ => fail Unmapped
  end.

(** [do { ... val64 /= radix; } while (val64 != 0)]; 64 bits have at most 64 digits. *)
Fixpoint number_loop (n : nat) (ds : list Z) (radix val64 : Z) (a : SecFormatAttr) : M SecFormatAttr :=
  match n with
  | O => fail NoFuel
  | Datatypes.S n' =>
      d ← some_or OutOfBounds (ds !! Z.to_nat (val64 mod radix));
      a ← push_text d a;
      let val64 := val64 / radix in
      if val64 =? 0 then mret a else number_loop n' ds radix val64 a
  end.
Definition SecNumber64ToDecString (number : Z) (a : SecFormatAttr) : M SecFormatAttr :=
  number_loop 64 g_itoaLowerDigits SECUREC_RADIX_DECIMAL number a.
Definition SecNumber64ToOctalString (number : Z) (a : SecFormatAttr) : M SecFormatAttr :=
  number_loop 64 g_itoaLowerDigits SECUREC_RADIX_OCTAL number a.
Definition SecNumber64ToHexString (number : Z) (a : SecFormatAttr) : M SecFormatAttr :=
  number_loop 64 (digits a) SECUREC_RADIX_HEX number a.
Definition SecNumber64ToString (number : Z) (a : SecFormatAttr) : M SecFormatAttr :=
  if radix a =? SECUREC_RADIX_DECIMAL then SecNumber64ToDecString number a
  else if radix a =? SECUREC_RADIX_OCTAL then SecNumber64ToOctalString number a
  else if radix a =? SECUREC_RADIX_HEX then SecNumber64ToHexString number a
  else mret a.
Definition SecNumberToString := SecNumber64ToString.

Definition SecIsNumberNeedTo32Bit (a : SecFormatAttr) : bool :=
  negb (has SECUREC_FLAG_I64 a) && negb (has SECUREC_FLAG_INTMAX a) && negb (has SECUREC_FLAG_PTRDIFF a) &&
  negb (has SECUREC_FLAG_SIZE a) && negb (has SECUREC_FLAG_LONG a) && negb (has SECUREC_FLAG_LONGLONG a).

Definition buf_length (t : SecFormatBuf) : Z := match t with Buf l => Z.of_nat (length l) | _ => 0 end.

Definition SecNumberToBuffer (a : SecFormatAttr) (num64 : Z) : M SecFormatAttr :=
  let negative := has SECUREC_FLAG_SIGNED a && (num64 <? 0) in
  let number := u64 (if negative then 0 - num64 else num64) in
  let a := if negative then add_flag SECUREC_FLAG_NEGATIVE a else a in
  let number := if SecIsNumberNeedTo32Bit a then Z.land number 0xffffffff else number in
  let a := set_text (Buf []) a in
  if number =? 0 then mret (set_textLen 0 (set_prefix [] 0 a))
  else
    a ← SecNumberToString number a;
    mret (set_textLen (buf_length (text a)) a).

Fixpoint zeros_loop (n : nat) (precision : Z) (a : SecFormatAttr) : M SecFormatAttr :=
  if precision <=? textLen a then mret a
  else match n with
  | O => fail NoFuel
  | Datatypes.S n' => a ← push_text (chr "0") a; zeros_loop n' precision (set_textLen (textLen a + 1) a)
  end.
(** The precision is at most that of the buffer. *)
Definition SecNumberSatisfyPrecision (a : SecFormatAttr) : M SecFormatAttr :=
  if precision a <? 0 then zeros_loop 1 1 a
  else
    let a := if has SECUREC_FLAG_POINTER a then a else clear_flag SECUREC_FLAG_LEADZERO a in
    let a := if SECUREC_MAX_PRECISION <? precision a then set_precision SECUREC_MAX_PRECISION a else a in
    zeros_loop (Z.to_nat (precision a)) (precision a) a.

Definition first_char (t : SecFormatBuf) : option Z := match t with Buf l => head l | _ => None end.
Definition SecNumberForceOctal (a : SecFormatAttr) : M SecFormatAttr :=
  if has SECUREC_FLAG_FORCE_OCTAL a then
    c ← (if textLen a =? 0 then mret 0 else some_or Unmapped (first_char (text a)));
    if (textLen a =? 0) || negb (c =? chr "0") then
      a ← push_text (chr "0") a; mret (set_textLen (textLen a + 1) a)
    else mret a
  else mret a.

Definition SecUpdateSignedNumberPrefix (a : SecFormatAttr) : SecFormatAttr :=
  if negb (has SECUREC_FLAG_SIGNED a) then a
  else if has SECUREC_FLAG_NEGATIVE a then set_prefix [chr "-"] 1 a
  else if has SECUREC_FLAG_SIGN a then set_prefix [chr "+"] 1 a
  else if has SECUREC_FLAG_SIGN_SPACE a then set_prefix [chr " "] 1 a
  else a.

Definition SecNumberCompatZero (a : SecFormatAttr) : SecFormatAttr :=
  if has SECUREC_FLAG_POINTER a then
    clear_flag SECUREC_FLAG_LEADZERO (set_textLen 5 (set_text (Static (chars "(nil)")) a))
  else a.

(** ** Writing.  The stream and the number of characters so far, or -1. *)
Definition SecWriteChar (s : SecPrintfStream) (ch charsOut : Z) : M (SecPrintfStream * Z) :=
  let n := count s - 1 in
  if 0 <=? n then st8 (cur s) ch ;; mret (Stream n (cur s + 1), charsOut + 1)
  else mret (Stream n (cur s), -1).

Fixpoint multi_loop (count' : nat) (s : SecPrintfStream) (ch : Z) : M (SecPrintfStream * bool) :=
  match count' with
  | O => mret (s, true)
  | Datatypes.S c =>
      let n := count s - 1 in
      if n <? 0 then mret (Stream n (cur s), false)
      else st8 (cur s) ch ;; multi_loop c (Stream n (cur s + 1)) ch
  end.
Definition SecWriteMultiChar (s : SecPrintfStream) (ch num charsOut : Z) : M (SecPrintfStream * Z) :=
  r ← multi_loop (Z.to_nat num) s ch;
  mret (r.1, if (r.2 : bool) then charsOut + num else -1).

(** The character [i] of the text. *)
Definition char_at (t : SecFormatBuf) (i : Z) : M Z :=
  match t with
  | Buf l | Static l => some_or OutOfBounds (l !! Z.to_nat i)
  | Ptr p => ld8 (p + i)
  | _ => fail Unmapped
  end.

Fixpoint string_loop (count' : nat) (s : SecPrintfStream) (str : SecFormatBuf) (i : Z) : M (SecPrintfStream * bool) :=
  match count' with
  | O => mret (s, true)
  | Datatypes.S c =>
      let n := count s - 1 in
      if n <? 0 then mret (Stream n (cur s), false)
      else ch ← char_at str i; st8 (cur s) ch ;; string_loop c (Stream n (cur s + 1)) str (i + 1)
  end.
Definition SecWriteString (s : SecPrintfStream) (str : SecFormatBuf) (len charsOut : Z) : M (SecPrintfStream * Z) :=
  r ← string_loop (Z.to_nat len) s str 0;
  mret (r.1, if (r.2 : bool) then charsOut + len else -1).

Fixpoint by_loop (n : nat) (cur : Z) (str : SecFormatBuf) (i : Z) : M unit :=
  match n with
  | O => mret tt
  | Datatypes.S n' => ch ← char_at str i; st8 cur ch ;; by_loop n' (cur + 1) str (i + 1)
  end.
Definition SecWriteStringByLoop (s : SecPrintfStream) (str : SecFormatBuf) (len : Z) : M SecPrintfStream :=
  by_loop (Z.to_nat len) (cur s) str 0 ;; mret (Stream (count s - len) (cur s + Z.max 0 len)).

(** [memcpy] from the text. *)
Definition memcpy_text (dest : Z) (str : SecFormatBuf) (n : Z) : M unit :=
  match str with
  | Buf l | Static l => if Z.of_nat (length l) <? n then fail OutOfBounds else st_bytes dest (take (Z.to_nat n) l)
  | Ptr p => memcpy dest p n
  | _ => fail Unmapped
  end.
Definition SecWriteStringOpt (s : SecPrintfStream) (str : SecFormatBuf) (len : Z) : M SecPrintfStream :=
  if len <? 12 then SecWriteStringByLoop s str len
  else memcpy_text (cur s) str (u32 len) ;; mret (Stream (count s - len) (cur s + len)).

Definition SecIsStreamBufEnough (s : SecPrintfStream) (needLen : Z) : bool := needLen <=? count s.

Definition SecWriteTextOpt (s : SecPrintfStream) (str : SecFormatBuf) (len charsOut : Z) : M (SecPrintfStream * Z) :=
  if SecIsStreamBufEnough s len then s ← SecWriteStringOpt s str len; mret (s, charsOut + len)
  else SecWriteString s str len charsOut.

Definition SecWriteLeftPadding (s : SecPrintfStream) (a : SecFormatAttr) (charsOut : Z) : M (SecPrintfStream * Z) :=
  if (Z.land (flags a) (Z.lor SECUREC_FLAG_LEFT SECUREC_FLAG_LEADZERO) =? 0) && (0 <? padding a) then
    SecWriteMultiChar s (chr " ") (padding a) charsOut
  else mret (s, charsOut).
Definition SecWritePrefix (s : SecPrintfStream) (a : SecFormatAttr) (charsOut : Z) : M (SecPrintfStream * Z) :=
  if 0 <? prefixLen a then SecWriteString s (Static (prefix a)) (prefixLen a) charsOut else mret (s, charsOut).
Definition SecWriteLeadingZero (s : SecPrintfStream) (a : SecFormatAttr) (charsOut : Z) : M (SecPrintfStream * Z) :=
  if has SECUREC_FLAG_LEADZERO a && negb (has SECUREC_FLAG_LEFT a) && (0 <? padding a) then
    SecWriteMultiChar s (chr "0") (padding a) charsOut
  else mret (s, charsOut).
Definition SecWriteRightPadding (s : SecPrintfStream) (a : SecFormatAttr) (charsOut : Z) : M (SecPrintfStream * Z) :=
  if (0 <=? charsOut) && has SECUREC_FLAG_LEFT a && (0 <? padding a) then
    SecWriteMultiChar s (chr " ") (padding a) charsOut
  else mret (s, charsOut).

(** The wide character [i] of the text. *)
Definition wide_at (t : SecFormatBuf) (i : Z) : M Z :=
  match t with
  | WBuf c => if i =? 0 then mret c else fail OutOfBounds
  | WStatic l => some_or OutOfBounds (l !! Z.to_nat i)
  | WPtr p => ld32 (p + 4 * i)
  | _ => fail Unmapped
  end.
Fixpoint wctomb_loop (count' : nat) (s : SecPrintfStream) (t : SecFormatBuf) (i charsOut : Z) : M (SecPrintfStream * Z) :=
  match count' with
  | O => mret (s, charsOut)
  | Datatypes.S c =>
      wc ← wide_at t i;
      match wctomb wc with
      | None | Some [] => mret (s, -1)
      | Some bs =>
          r ← SecWriteString s (Static bs) (Z.of_nat (length bs)) charsOut;
          if r.2 =? -1 then mret r else wctomb_loop c r.1 t (i + 1) r.2
      end
  end.
Definition SecWriteTextAfterWctomb (s : SecPrintfStream) (a : SecFormatAttr) (charsOut : Z) : M (SecPrintfStream * Z) :=
  wctomb_loop (Z.to_nat (textLen a)) s (text a) 0 charsOut.
Definition SecWriteFloatText (s : SecPrintfStream) (a : SecFormatAttr) (charsOut : Z) : M (SecPrintfStream * Z) :=
  SecWriteString s (text a) (textLen a) charsOut.
Definition SecWriteText (s : SecPrintfStream) (a : SecFormatAttr) (charsOut : Z) : M (SecPrintfStream * Z) :=
  if negb (textIsWide a =? 0) then SecWriteTextAfterWctomb s a charsOut
  else SecWriteTextOpt s (text a) (textLen a) charsOut.

(** ** Reading the format *)
Definition SecDecodeFlags (ch : Z) (a : SecFormatAttr) : SecFormatAttr :=
  if ch =? chr " " then add_flag SECUREC_FLAG_SIGN_SPACE a
  else if ch =? chr "+" then add_flag SECUREC_FLAG_SIGN a
  else if ch =? chr "-" then add_flag SECUREC_FLAG_LEFT a
  else if ch =? chr "0" then add_flag SECUREC_FLAG_LEADZERO a
  else if ch =? chr "#" then add_flag SECUREC_FLAG_ALTERNATE a
  else a.

(** [**format == c]. *)
Definition at_char (format : Z) (c : string) : M bool := x ← ld8 format; mret (x =? chr c).

(** Whether the size is one, the attributes and the format behind it. *)
Definition SecDecodeSizeI (a : SecFormatAttr) (format : Z) : M (bool * SecFormatAttr * Z) :=
  let a := add_flag SECUREC_FLAG_I64 a in
  c0 ← ld8 format;
  c1 ← (if (c0 =? chr "6") || (c0 =? chr "3") then ld8 (format + 1) else mret 0);
  if (c0 =? chr "6") && (c1 =? chr "4") then mret (true, add_flag SECUREC_FLAG_I64 a, format + 2)
  else if (c0 =? chr "3") && (c1 =? chr "2") then mret (true, clear_flag SECUREC_FLAG_I64 a, format + 2)
  else if existsb (Z.eqb c0) (chars "diouxX") then mret (true, a, format)
  else mret (false, a, format).

Definition SecDecodeSize (ch : Z) (a : SecFormatAttr) (format : Z) : M (bool * SecFormatAttr * Z) :=
  if ch =? chr "l" then
    b ← at_char format "l";
    if (b : bool) then mret (true, add_flag SECUREC_FLAG_LONGLONG a, format + 1)
    else mret (true, add_flag SECUREC_FLAG_LONG a, format)
  else if (ch =? chr "z") || (ch =? chr "Z") then mret (true, add_flag SECUREC_FLAG_SIZE a, format)
  else if ch =? chr "j" then mret (true, add_flag SECUREC_FLAG_INTMAX a, format)
  else if ch =? chr "t" then mret (true, add_flag SECUREC_FLAG_PTRDIFF a, format)
  else if (ch =? chr "q") || (ch =? chr "L") then
    mret (true, add_flag (Z.lor SECUREC_FLAG_LONGLONG SECUREC_FLAG_LONG_DOUBLE) a, format)
  else if ch =? chr "I" then SecDecodeSizeI a format
  else if ch =? chr "h" then
    b ← at_char format "h";
    if (b : bool) then mret (true, add_flag SECUREC_FLAG_CHAR a, format + 1)
    else mret (true, add_flag SECUREC_FLAG_SHORT a, format)
  else if ch =? chr "w" then mret (true, add_flag SECUREC_FLAG_WIDECHAR a, format)
  else mret (true, a, format).

Definition SecDecodeTypeC (a : SecFormatAttr) (c : Z) : SecFormatAttr :=
  let a := clear_flag SECUREC_FLAG_LEADZERO (set_textLen 1 a) in
  if has SECUREC_FLAG_LONG a || has SECUREC_FLAG_WIDECHAR a then set_wide 1 (set_text (WBuf c) a)
  else set_wide 0 (set_text (Buf [u8 c]) a).

Fixpoint strlen_loop (n : nat) (p len : Z) : M Z :=
  match n with
  | O => fail NoFuel
  | Datatypes.S n' => c ← ld8 (p + len); if c =? 0 then mret len else strlen_loop n' p (len + 1)
  end.
Definition strlen (p : Z) : M Z := strlen_loop fuel p 0.
Fixpoint wcsnlen_loop (n : nat) (p maxLen len : Z) : M Z :=
  if maxLen <=? len then mret len
  else match n with
  | O => fail NoFuel
  | Datatypes.S n' => c ← ld32 (p + 4 * len); if c =? 0 then mret len else wcsnlen_loop n' p maxLen (len + 1)
  end.
(** The same of a literal. *)
Fixpoint literal_len (l : list Z) : Z :=
  match l with [] => 0 | c :: l' => if c =? 0 then 0 else 1 + literal_len l' end.
Definition null_string : list Z := chars "(null)" ++ [0; 0].
(** [SECUREC_CALC_STR_LEN] in at most [precision] characters, [fuel] of them. *)
Fixpoint strnlen_loop (n : nat) (p maxLen len : Z) : M Z :=
  if maxLen <=? len then mret len
  else match n with
  | O => fail NoFuel
  | Datatypes.S n' => c ← ld8 (p + len); if c =? 0 then mret len else strnlen_loop n' p maxLen (len + 1)
  end.

Definition SecDecodeTypeSchar (a : SecFormatAttr) : M SecFormatAttr :=
  let a := match text a with Ptr p => if p =? NULL then set_text (Static null_string) a else a | _ => a end in
  textLen ← match text a with
    | Ptr p =>
        if precision a =? -1 then
          n ← strlen p; mret (if SECUREC_STRING_MAX_LEN <? n then 0 else n)
        else strnlen_loop fuel p (u32 (precision a)) 0
    | _ => let n := literal_len null_string in mret (if precision a =? -1 then n else Z.min n (u32 (precision a)))
    end;
  mret (set_textLen (s32 textLen) a).

Definition SecDecodeTypeSwchar (a : SecFormatAttr) : M SecFormatAttr :=
  let a := set_wide 1 a in
  let a := match text a with Ptr p => set_text (if p =? NULL then WStatic null_string else WPtr p) a | _ => a end in
  textLen ← match text a with
    | WPtr p => wcsnlen_loop fuel p (u32 (precision a)) 0
    | _ => mret (Z.min (literal_len null_string) (u32 (precision a)))
    end;
  mret (set_textLen (if SECUREC_WCHAR_STRING_MAX_LEN <? textLen then 0 else textLen) a).

Definition SecDecodeTypeS (a : SecFormatAttr) (argPtr : Z) : M SecFormatAttr :=
  let a := set_text (Ptr argPtr) (clear_flag SECUREC_FLAG_LEADZERO a) in
  if negb (has SECUREC_FLAG_LONG a || has SECUREC_FLAG_WIDECHAR a) then SecDecodeTypeSchar a else SecDecodeTypeSwchar a.

Definition SECUREC_MUL_TEN_ADD_BEYOND_MAX (x : Z) : bool := SECUREC_MAX_WIDTH_LEN_DIV_TEN <? x.
Definition SECUREC_MUL_TEN (x : Z) : Z := u32 (Z.shiftl (Z.shiftl x 2 + x) 1).

(** Nothing when the number is too large. *)
Definition SecDecodePrecision (ch : Z) (a : SecFormatAttr) : option SecFormatAttr :=
  if dynPrecision a =? 0 then
    if SECUREC_MUL_TEN_ADD_BEYOND_MAX (precision a) then None
    else Some (set_precision (s32 (SECUREC_MUL_TEN (u32 (precision a))) + u8 (ch - chr "0")) a)
  else
    let a := if precision a <? 0 then set_precision (-1) a else a in
    if SECUREC_MAX_WIDTH_LEN <? precision a then None else Some a.

Definition SecDecodeWidth (ch : Z) (a : SecFormatAttr) (lastState : SecFmtState) : option SecFormatAttr :=
  if dynWidth a =? 0 then
    let a := if decide (lastState = STAT_WIDTH) then a else set_fldWidth 0 a in
    if SECUREC_MUL_TEN_ADD_BEYOND_MAX (fldWidth a) then None
    else Some (set_fldWidth (s32 (SECUREC_MUL_TEN (u32 (fldWidth a))) + u8 (ch - chr "0")) a)
  else
    let a := if fldWidth a <? 0 then set_fldWidth (s32 (- fldWidth a)) (add_flag SECUREC_FLAG_LEFT a) else a in
    if SECUREC_MAX_WIDTH_LEN <? fldWidth a then None else Some a.

Definition SecUpdateWcharFlags (a : SecFormatAttr) : SecFormatAttr :=
  if Z.land (flags a) (Z.lor SECUREC_FLAG_SHORT (Z.lor SECUREC_FLAG_LONG SECUREC_FLAG_WIDECHAR)) =? 0 then
    add_flag SECUREC_FLAG_WIDECHAR a
  else a.
Definition SecUpdateWstringFlags := SecUpdateWcharFlags.

Definition SecUpdatePointFlags (a : SecFormatAttr) : SecFormatAttr :=
  let a := set_precision 0 (add_flag SECUREC_FLAG_POINTER a) in
  let a := set_digits g_itoaLowerDigits (add_flag SECUREC_FLAG_ALTERNATE a) in
  let a := add_flag SECUREC_FLAG_I64 a in
  if has SECUREC_FLAG_ALTERNATE a then set_prefix [chr "0"; chr "x"] SECUREC_PREFIX_LEN a else a.

Definition SecUpdateXpxFlags (a : SecFormatAttr) (ch : Z) : SecFormatAttr :=
  let a := set_radix SECUREC_RADIX_HEX (set_digits g_itoaLowerDigits a) in
  if ch =? chr "p" then SecUpdatePointFlags a
  else
    let a := if ch =? chr "X" then set_digits g_itoaUpperDigits a else a in
    if has SECUREC_FLAG_ALTERNATE a then
      set_prefix [chr "0"; nth (Z.to_nat SECUREC_NUMBER_OF_X) (digits a) 0] SECUREC_PREFIX_LEN a
    else a.

Definition SecUpdateOudiFlags (a : SecFormatAttr) (ch : Z) : SecFormatAttr :=
  if (ch =? chr "i") || (ch =? chr "d") then
    set_digits g_itoaLowerDigits (set_radix SECUREC_RADIX_DECIMAL (add_flag SECUREC_FLAG_SIGNED a))
  else if ch =? chr "u" then set_digits g_itoaLowerDigits (set_radix SECUREC_RADIX_DECIMAL a)
  else if ch =? chr "o" then
    let a := set_digits g_itoaLowerDigits (set_radix SECUREC_RADIX_OCTAL a) in
    if has SECUREC_FLAG_ALTERNATE a then add_flag SECUREC_FLAG_FORCE_OCTAL a else a
  else a.

(** [char] is unsigned on this machine. *)
Definition SecUpdateNegativeChar (a : SecFormatAttr) (ch : Z) : SecFormatAttr * Z :=
  if 128 <=? ch then (add_flag SECUREC_FLAG_NEGATIVE a, bnot 8 ch + 1) else (a, ch).

(** The argument of an integer conversion, by its size and sign. *)
Definition get_number (a : SecFormatAttr) (v : Z) : SecFormatAttr * Z :=
  let is_signed := has SECUREC_FLAG_SIGNED a in
  if has SECUREC_FLAG_I64 a || has SECUREC_FLAG_LONGLONG a then (a, signed 64 v)
  else if has SECUREC_FLAG_LONG a then (a, signed 64 v)
  else if has SECUREC_FLAG_CHAR a then (if is_signed then SecUpdateNegativeChar a (u8 v) else (a, u8 v))
  else if has SECUREC_FLAG_SHORT a then (a, if is_signed then signed 16 v else wrap 16 v)
  else if has SECUREC_FLAG_PTRDIFF a then (a, signed 64 v)
  else if has SECUREC_FLAG_SIZE a then (a, signed 64 v)
  else if has SECUREC_FLAG_INTMAX a then (a, signed 64 v)
  else (a, if is_signed then s32 v else u32 v).

(** ** Floating point numbers, through the C library *)
Record SecFloatAdapt := FloatAdapt { fmtStr : list Z; allocatedFmtStr : Z; floatBuffer : Z; bufferSize : Z }.

Definition malloc (n : Z) : M Z := sys (Call "malloc" "" [n]).
Definition free (p : Z) : M unit := sys_ (Call "free" "" [p]).

(** [while ( *fmt != '%') --fmt;] *)
Fixpoint SecSeekToFrontPercent (n : nat) (fmt : Z) : M Z :=
  match n with
  | O => fail NoFuel
  | Datatypes.S n' => c ← ld8 fmt; if c =? chr "%" then mret fmt else SecSeekToFrontPercent n' (fmt - 1)
  end.
Definition load_chars (a n : Z) : M (list Z) := fun w =>
  match rd (hget (glob w)) a (Z.to_nat n) with Some bs => Done bs w | None => Fault Unmapped end.

(** The format from its percent sign on; nothing without memory for it. *)
Definition SecInitFloatFmt (format : Z) : M (option (list Z * Z)) :=
  fmt ← SecSeekToFrontPercent fuel (format - 2);
  let fmtStrLen := s32 (format - fmt + 1) in
  p ← (if SECUREC_FMT_STR_LEN <? fmtStrLen then malloc fmtStrLen else mret 1);
  if p =? NULL then mret None
  else
    str ← load_chars fmt (fmtStrLen - 1);
    mret (Some (str, if SECUREC_FMT_STR_LEN <? fmtStrLen then p else NULL)).

Definition SecInitFloatBuffer (format : Z) (a : SecFormatAttr) : M (option SecFloatAdapt * SecFormatAttr) :=
  let a := if precision a <? 0 then set_precision SECUREC_FLOAT_DEFAULT_PRECISION a else a in
  let size := if has SECUREC_FLAG_LONG_DOUBLE a then SECUREC_FLOAT_BUFSIZE_LB else SECUREC_FLOAT_BUFSIZE in
  if SECUREC_MAX_WIDTH_LEN - size <? precision a then mret (None, a)
  else
    let bufferSize := size + precision a + SECUREC_FLOAT_BUF_EXT in
    let bufferSize := if bufferSize <? fldWidth a then fldWidth a + SECUREC_FLOAT_BUF_EXT else bufferSize in
    p ← (if SECUREC_BUFFER_SIZE <? bufferSize then malloc (u32 bufferSize) else mret 1);
    if p =? NULL then mret (None, a)
    else
      let p := if SECUREC_BUFFER_SIZE <? bufferSize then p else NULL in
      r ← SecInitFloatFmt format;
      match r with
      | None => when (negb (p =? NULL)) (free p) ;; mret (None, a)
      | Some (str, alloc) => mret (Some (FloatAdapt str alloc p bufferSize), a)
      end.

(** The widths go with the number when they came from the arguments; a text
    too long for its buffer would be written past its end. *)
Definition SecFormatReal (a : SecFormatAttr) (f : SecFloatAdapt) (x : real) (long : bool) : M SecFormatAttr :=
  let fldWidth := if has SECUREC_FLAG_LEFT a then - fldWidth a else fldWidth a in
  let ints := (if dynWidth a =? 0 then [] else [fldWidth]) ++ (if dynPrecision a =? 0 then [] else [precision a]) in
  let out := vsprintf_real (fmtStr f) ints x long in
  let room := if floatBuffer f =? NULL then SECUREC_BUFFER_SIZE + 1 else bufferSize f in
  if room <=? Z.of_nat (length out) then fail OutOfBounds
  else
    let n := Z.of_nat (length out) in
    mret (set_textLen (if bufferSize f <=? n then 0 else n) (set_text (Static out) a)).

Definition SecFreeFloatBuffer (f : SecFloatAdapt) : M unit :=
  when (negb (floatBuffer f =? NULL)) (free (floatBuffer f)) ;;
  when (negb (allocatedFmtStr f =? NULL)) (free (allocatedFmtStr f)).

(** ** The core *)
Definition initial_attr : SecFormatAttr :=
  FormatAttr g_itoaUpperDigits (Ptr NULL) 0 0 SECUREC_RADIX_DECIMAL 0 0 0 0 0 0 0 [0; 0].
(** [case STAT_PERCENT]. *)
Definition reset_attr (a : SecFormatAttr) : SecFormatAttr :=
  FormatAttr (digits a) (text a) 0 0 (radix a) 0 0 (-1) 0 0 (padding a) 0 (prefix a).

(** The digits of an integer, its precision and its sign. *)
Definition finish_number (a : SecFormatAttr) (num64 : Z) : M SecFormatAttr :=
  a ← SecNumberToBuffer a num64;
  a ← SecNumberSatisfyPrecision a;
  a ← SecNumberForceOctal a;
  let a := SecUpdateSignedNumberPrefix a in
  mret (if num64 =? 0 then SecNumberCompatZero a else a).
(** An integer conversion. *)
Definition convert_number (ch : Z) (a : SecFormatAttr) (args : va_list) : M (SecFormatAttr * va_list) :=
  let a := if (ch =? chr "X") || (ch =? chr "p") || (ch =? chr "x") then SecUpdateXpxFlags a ch else a in
  let a := SecUpdateOudiFlags a ch in
  v ← va_word args;
  let '(a, num64) := get_number a v.1 in
  a ← finish_number a num64;
  mret (a, v.2).

(** A floating point conversion, with its output. *)
Definition convert_real (format : Z) (a : SecFormatAttr) (args : va_list) (s : SecPrintfStream) (charsOut : Z) :
    M (SecFormatAttr * va_list * SecPrintfStream * Z) :=
  r ← SecInitFloatBuffer format a;
  let a := r.2 in
  match r.1 with
  | None => mret (a, args, s, charsOut)
  | Some f =>
      x ← va_real args;
      a ← SecFormatReal a f x.1 (has SECUREC_FLAG_LONG_DOUBLE a);
      o ← SecWriteFloatText s a charsOut;
      SecFreeFloatBuffer f ;;
      mret (a, x.2, o.1, o.2)
  end.

(** Padding, prefix and text in their order. *)
Definition put_out (s : SecPrintfStream) (a : SecFormatAttr) (charsOut : Z) : M (SecPrintfStream * Z) :=
  o ← SecWriteLeftPadding s a charsOut;
  o ← SecWritePrefix o.1 a o.2;
  o ← SecWriteLeadingZero o.1 a o.2;
  o ← SecWriteText o.1 a o.2;
  SecWriteRightPadding o.1 a o.2.

(** The state of the loop. *)
Record output := Output {
  format : Z; stream : SecPrintfStream; charsOut : Z; state : SecFmtState;
  formatAttr : SecFormatAttr; argList : va_list; noOutput : Z;
}.

(** [case STAT_TYPE]. *)
Definition output_type (ch : Z) (o : output) : M output :=
  let a := formatAttr o in
  r ← (if (ch =? chr "C") || (ch =? chr "c") then
         let a := if ch =? chr "C" then SecUpdateWcharFlags a else a in
         v ← va_word (argList o);
         mret (Output (format o) (stream o) (charsOut o) (state o) (SecDecodeTypeC a (u32 v.1)) v.2 (noOutput o))
       else if (ch =? chr "S") || (ch =? chr "s") then
         let a := if ch =? chr "S" then SecUpdateWstringFlags a else a in
         v ← va_word (argList o);
         a ← SecDecodeTypeS a v.1;
         mret (Output (format o) (stream o) (charsOut o) (state o) a v.2 (noOutput o))
       else if existsb (Z.eqb ch) (chars "GgEFef") then
         x ← convert_real (format o) a (argList o) (stream o) (charsOut o);
         let '(a, args, s, n) := x in
         mret (Output (format o) s n (state o) a args 1)
       else if existsb (Z.eqb ch) (chars "Xpxiduo") then
         x ← convert_number ch a (argList o);
         mret (Output (format o) (stream o) (charsOut o) (state o) x.1 x.2 (noOutput o))
       else mret o);
  if noOutput r =? 0 then
    let a := formatAttr r in
    let a := set_padding (fldWidth a - textLen a - prefixLen a) a in
    x ← put_out (stream r) a (charsOut r);
    mret (Output (format r) x.1 x.2 (state r) a (argList r) (noOutput r))
  else mret r.

(** One round: the state after it, or the result. *)
Definition output_round (ch : Z) (o : output) : M (output + Z * SecPrintfStream) :=
  let lastState := state o in
  let format' := format o + 1 in
  let st := SecDecodeState ch lastState in
  let go a := Output format' (stream o) (charsOut o) st a (argList o) (noOutput o) in
  match st with
  | STAT_NORMAL =>
      x ← SecWriteChar (stream o) ch (charsOut o);
      mret (inl (Output format' x.1 x.2 st (formatAttr o) (argList o) (noOutput o)))
  | STAT_PERCENT => mret (inl (Output format' (stream o) (charsOut o) st (reset_attr (formatAttr o)) (argList o) 0))
  | STAT_FLAG => mret (inl (go (SecDecodeFlags ch (formatAttr o))))
  | STAT_WIDTH =>
      x ← (if ch =? chr "*" then
             v ← va_word (argList o); mret (set_dynWidth 1 (set_fldWidth (s32 v.1) (formatAttr o)), v.2)
           else mret (formatAttr o, argList o));
      match SecDecodeWidth ch x.1 lastState with
      | None => mret (inr (-1, stream o))
      | Some a => mret (inl (Output format' (stream o) (charsOut o) st a x.2 (noOutput o)))
      end
  | STAT_DOT => mret (inl (go (set_precision 0 (formatAttr o))))
  | STAT_PRECIS =>
      x ← (if ch =? chr "*" then
             v ← va_word (argList o); mret (set_dynPrecision 1 (set_precision (s32 v.1) (formatAttr o)), v.2)
           else mret (formatAttr o, argList o));
      match SecDecodePrecision ch x.1 with
      | None => mret (inr (-1, stream o))
      | Some a => mret (inl (Output format' (stream o) (charsOut o) st a x.2 (noOutput o)))
      end
  | STAT_SIZE =>
      r ← SecDecodeSize ch (formatAttr o) format';
      let '(ok, a, format'') := r in
      if (ok : bool) then mret (inl (Output format'' (stream o) (charsOut o) st a (argList o) (noOutput o)))
      else
        x ← SecWriteChar (stream o) ch (charsOut o);
        mret (inl (Output format'' x.1 x.2 STAT_NORMAL a (argList o) (noOutput o)))
  | STAT_TYPE => o' ← output_type ch (go (formatAttr o)); mret (inl o')
  | STAT_INVALID => mret (inr (-1, stream o))
  end.

(** The loop: [while ( *format != 0 && charsOut >= 0)]. *)
Definition SecOutput (s : SecPrintfStream) (cFormat : Z) (args : va_list) : M (Z * SecPrintfStream) :=
  loop fuel (fun o : output =>
    ch ← ld8 (format o);
    if negb (ch =? 0) && (0 <=? charsOut o) then output_round ch o
    else mret (inr (if decide (state o = STAT_NORMAL) then charsOut o
                    else if decide (state o = STAT_TYPE) then charsOut o else -1, stream o)))
    (Output cFormat s 0 STAT_NORMAL initial_attr args 0).

(** Whether there was room, and the stream. *)
Definition SecPutZeroChar (s : SecPrintfStream) : M (bool * SecPrintfStream) :=
  let n := count s - 1 in
  if 0 <=? n then st8 (cur s) 0 ;; mret (true, Stream n (cur s + 1)) else mret (false, Stream n (cur s)).

Definition SecVsnprintfImpl (string' count' format' : Z) (args : va_list) : M Z :=
  r ← SecOutput (Stream (s32 count') string') format' args;
  z ← (if 0 <=? r.1 then SecPutZeroChar r.2 else mret (false, r.2));
  if (z.1 : bool) then mret r.1
  else if count z.2 <? 0 then st8 (string' + count' - 1) 0 ;; mret SECUREC_PRINTF_TRUNCATE
  else st8 string' 0 ;; mret (-1).

(** ** The functions of the library *)
Definition SECUREC_VSPRINTF_PARAM_ERROR (format' strDest destMax maxLimit : Z) : bool :=
  (format' =? NULL) || (strDest =? NULL) || (destMax =? 0) || (maxLimit <? destMax).
Definition SECUREC_VSPRINTF_CLEAR_DEST (strDest destMax maxLimit : Z) : M unit :=
  when (negb (strDest =? NULL) && (0 <? destMax) && (destMax <=? maxLimit)) (st8 strDest 0).
Definition SECUREC_VSNPRINTF_PARAM_ERROR (format' strDest destMax count' maxLimit : Z) : bool :=
  SECUREC_VSPRINTF_PARAM_ERROR format' strDest destMax maxLimit || (SECUREC_STRING_MAX_LEN - 1 <? count').

Definition vsnprintf_s (strDest destMax count' format' : Z) (args : va_list) : M Z :=
  if SECUREC_VSNPRINTF_PARAM_ERROR format' strDest destMax count' SECUREC_STRING_MAX_LEN then
    SECUREC_VSPRINTF_CLEAR_DEST strDest destMax SECUREC_STRING_MAX_LEN ;; mret (-1)
  else
    retVal ← SecVsnprintfImpl strDest (if count' <? destMax then count' + 1 else destMax) format' args;
    if (count' <? destMax) && (retVal =? SECUREC_PRINTF_TRUNCATE) then mret (-1)
    else if retVal <? 0 then st8 strDest 0 ;; mret (-1)
    else mret retVal.

Definition vsnprintf_truncated_s (strDest destMax format' : Z) (args : va_list) : M Z :=
  if SECUREC_VSPRINTF_PARAM_ERROR format' strDest destMax SECUREC_STRING_MAX_LEN then
    SECUREC_VSPRINTF_CLEAR_DEST strDest destMax SECUREC_STRING_MAX_LEN ;; mret (-1)
  else
    retVal ← SecVsnprintfImpl strDest destMax format' args;
    if retVal <? 0 then
      if retVal =? SECUREC_PRINTF_TRUNCATE then mret (destMax - 1)
      else st8 strDest 0 ;; mret (-1)
    else mret retVal.

Definition vsprintf_s (strDest destMax format' : Z) (args : va_list) : M Z :=
  if SECUREC_VSPRINTF_PARAM_ERROR format' strDest destMax SECUREC_STRING_MAX_LEN then
    SECUREC_VSPRINTF_CLEAR_DEST strDest destMax SECUREC_STRING_MAX_LEN ;; mret (-1)
  else
    retVal ← SecVsnprintfImpl strDest destMax format' args;
    if retVal <? 0 then st8 strDest 0 ;; mret (-1) else mret retVal.

Definition snprintf_s := vsnprintf_s.
Definition snprintf_truncated_s := vsnprintf_truncated_s.
Definition sprintf_s := vsprintf_s.
End FormattedOutput.
