(* ===== verification/PrintfSpec.v ===== *)
(** * PrintfSpec: what formatted output means

    A well-formed format is a list of [item]s; [print] is its text.  [render]
    gives the characters that it stands for, from the arguments, without
    regard to the room there is. *)
From stdpp Require Import prelude gmap list strings.
From Stdlib Require Import ZArith Lia.
From S2P Require Import Prelude Hw Mem Securec Printf.
Local Open Scope Z_scope.

(** ** Formats *)
Inductive fmt_flag := Minus | Plus | Space | Hash | Zero.
#[export] Instance fmt_flag_eq_dec : EqDecision fmt_flag.
Proof. solve_decision. Defined.
(** A width or precision: digits, or the next argument. *)
Inductive amount := Digits (ds : list Z) | FromArg.
Inductive int_size := HH | H | Plain | L | LL | J | ZZ | T.
#[export] Instance int_size_eq_dec : EqDecision int_size.
Proof. solve_decision. Defined.
Inductive conv := Cd | Ci | Cu | Co | Cx | CX | Cp | Cc | Cs.
#[export] Instance conv_eq_dec : EqDecision conv.
Proof. solve_decision. Defined.
Record directive := Directive {
  d_flags : list fmt_flag; d_width : option amount; d_precision : option amount; d_size : int_size; d_conv : conv;
}.
Inductive item := Lit (c : Z) | Percent | Dir (d : directive).

Definition flag_char (f : fmt_flag) : Z :=
  match f with Minus => chr "-" | Plus => chr "+" | Space => chr " " | Hash => chr "#" | Zero => chr "0" end.
Definition print_amount (x : amount) : list Z := match x with Digits ds => ds | FromArg => [chr "*"] end.
Definition print_size (s : int_size) : list Z :=
  match s with
  | HH => chars "hh" | H => chars "h" | Plain => [] | L => chars "l" | LL => chars "ll" | J => chars "j"
  | ZZ => chars "z" | T => chars "t"
  end.
Definition conv_char (c : conv) : Z :=
  match c with
  | Cd => chr "d" | Ci => chr "i" | Cu => chr "u" | Co => chr "o" | Cx => chr "x" | CX => chr "X" | Cp => chr "p"
  | Cc => chr "c" | Cs => chr "s"
  end.
Definition print_directive (d : directive) : list Z :=
  [chr "%"] ++ (flag_char <$> d_flags d) ++ from_option print_amount [] (d_width d) ++
  from_option (fun p => chr "." :: print_amount p) [] (d_precision d) ++ print_size (d_size d) ++ [conv_char (d_conv d)].
Definition print_item (i : item) : list Z :=
  match i with Lit c => [c] | Percent => chars "%%" | Dir d => print_directive d end.
Definition print (its : list item) : list Z := its ≫= print_item.

Definition is_digit (c : Z) : Prop := chr "0" <= c <= chr "9".
Definition number_of (ds : list Z) : Z := foldl (fun n c => 10 * n + (c - chr "0")) 0 ds.

(** Widths do not start with a zero, which is a flag; the numbers are not too
    large; characters and strings have no size. *)
Definition amount_ok (x : amount) : Prop :=
  match x with Digits ds => Forall is_digit ds /\ number_of ds <= SECUREC_MAX_WIDTH_LEN | FromArg => True end.
Definition width_ok (x : amount) : Prop :=
  amount_ok x /\ match x with Digits ds => exists c ds', ds = c :: ds' /\ c <> chr "0" | FromArg => True end.
Definition directive_ok (d : directive) : Prop :=
  from_option width_ok True (d_width d) /\ from_option amount_ok True (d_precision d) /\
  (d_conv d = Cc \/ d_conv d = Cs -> d_size d = Plain).
Definition item_ok (i : item) : Prop :=
  match i with Lit c => fits 8 c /\ c <> 0 /\ c <> chr "%" | Percent => True | Dir d => directive_ok d end.

(** ** Numbers *)
(** The digits of [n > 0], most significant first; none for 0. *)
Fixpoint numeral_aux (fuel : nat) (base n : Z) : list Z :=
  match fuel with
  | O => []
  | S f => if n =? 0 then [] else numeral_aux f base (n / base) ++ [n mod base]
  end.
Definition numeral (base n : Z) : list Z := numeral_aux 64 base n.
Definition digit_char (upper : bool) (d : Z) : Z := nth (Z.to_nat d) (if upper then g_itoaUpperDigits else g_itoaLowerDigits) 0.

(** A numeral with at least [prec] digits. *)
Definition body (base : Z) (upper : bool) (prec n : Z) : list Z :=
  let ds := digit_char upper <$> numeral base n in
  replicate (Z.to_nat (prec - Z.of_nat (length ds))) (chr "0") ++ ds.

Definition bits (s : int_size) : Z := match s with HH => 8 | H => 16 | Plain => 32 | _ => 64 end.

(** [text] in a field. *)
Definition field (width : Z) (left zero : bool) (prefix text : list Z) : list Z :=
  let fill c := replicate (Z.to_nat (width - Z.of_nat (length (prefix ++ text)))) c in
  if left then prefix ++ text ++ fill (chr " ")
  else if zero then prefix ++ fill (chr "0") ++ text
  else fill (chr " ") ++ prefix ++ text.

Section Render.
Context {F : Type} (m : mem) (strings : Z -> list Z -> Prop).

(** The value of an amount; the library refuses large ones. *)
Definition take_amount (x : option amount) (args : list (arg F)) : option (option Z * list (arg F)) :=
  match x with
  | None => Some (None, args)
  | Some (Digits ds) => Some (Some (number_of ds), args)
  | Some FromArg =>
      match args with
      | Word v :: args' =>
          if decide (- SECUREC_MAX_WIDTH_LEN <= s32 v <= SECUREC_MAX_WIDTH_LEN) then Some (Some (s32 v), args') else None
      | _ => None
      end
  end.

Definition has_flag (d : directive) (f : fmt_flag) : bool := bool_decide (f ∈ d_flags d).
Definition sign (d : directive) (v : Z) : list Z :=
  if v <? 0 then [chr "-"] else if has_flag d Plus then [chr "+"] else if has_flag d Space then [chr " "] else [].

(** An integer, [prec] the precision that was given.  At most
    [SECUREC_MAX_PRECISION] digits are padded. *)
Definition render_number (d : directive) (width : Z) (left : bool) (prec : option Z) (v : Z) : list Z :=
  let n := Z.min SECUREC_MAX_PRECISION (default 1 prec) in
  let zero := has_flag d Zero && bool_decide (prec = None) in
  let sgn := signed (bits (d_size d)) v in
  let uns := wrap (bits (d_size d)) v in
  let octal := body 8 false n uns in
  match d_conv d with
  | Cd | Ci => field width left zero (sign d sgn) (body 10 false n (Z.abs sgn))
  | Cu => field width left zero [] (body 10 false n uns)
  | Co => field width left zero [] (if has_flag d Hash && negb (bool_decide (head octal = Some (chr "0"))) then chr "0" :: octal else octal)
  | Cx => field width left zero (if has_flag d Hash && negb (uns =? 0) then chars "0x" else []) (body 16 false n uns)
  | CX => field width left zero (if has_flag d Hash && negb (uns =? 0) then chars "0X" else []) (body 16 true n uns)
  | _ =>
      if u64 v =? 0 then field width left false [] (chars "(nil)")
      else field width left (has_flag d Zero) (chars "0x") (body 16 false 0 (u64 v))
  end.

(** The string at [p], and none of it beyond the precision. *)
Definition string_arg (p : Z) (prec : option Z) (s : list Z) : Prop :=
  if p =? NULL then s = take (Z.to_nat (default 6 prec)) (chars "(null)")
  else Forall (fun c => c <> 0) s /\ rd m p (length s) = Some s /\ strings p s /\
    match prec with
    | None => m !! (p + Z.of_nat (length s)) = Some 0 /\ Z.of_nat (length s) <= SECUREC_STRING_MAX_LEN /\ strings (p + Z.of_nat (length s)) [0]
    | Some n => Z.of_nat (length s) <= n /\
        (Z.of_nat (length s) < n -> m !! (p + Z.of_nat (length s)) = Some 0 /\ strings (p + Z.of_nat (length s)) [0])
    end.

(** [render d args out args']: the directive stands for [out] and leaves [args']. *)
Inductive render_directive (d : directive) : list (arg F) -> list Z -> list (arg F) -> Prop :=
| render_with args width args1 prec args2 v args3 out :
    take_amount (d_width d) args = Some (width, args1) ->
    take_amount (d_precision d) args1 = Some (prec, args2) ->
    args2 = Word v :: args3 ->
    let w := default 0 width in
    let left := has_flag d Minus || (w <? 0) in
    let prec := match prec with Some p => if p <? 0 then None else Some p | None => None end in
    (match d_conv d with
     | Cc => out = field (Z.abs w) left false [] [u8 v]
     | Cs => exists s, string_arg v prec s /\ out = field (Z.abs w) left false [] s
     | _ => out = render_number d (Z.abs w) left prec v
     end) ->
    render_directive d args out args3.

Inductive render : list item -> list (arg F) -> list Z -> Prop :=
| render_end args : render [] args []
| render_lit c its args out : render its args out -> render (Lit c :: its) args (c :: out)
| render_percent its args out : render its args out -> render (Percent :: its) args (chr "%" :: out)
| render_dir d its args out1 args' out : render_directive d args out1 args' -> render its args' out ->
    render (Dir d :: its) args (out1 ++ out).
End Render.
