(* ===== verification/PrintfProps.v ===== *)
(** * PrintfProps: formatted output writes what the format means *)
From stdpp Require Import prelude gmap list strings.
From Stdlib Require Import ZArith Lia.
From S2P Require Import Prelude Hw Mem Securec Printf PrintfSpec.
Local Open Scope Z_scope.

(** *** Flags *)
Lemma land_pow2 x k : 0 <= k -> negb (Z.land x (2 ^ k) =? 0) = Z.testbit x k.
Proof.
  intros Hk. destruct (Z.testbit x k) eqn:E.
  - destruct (Z.eqb_spec (Z.land x (2 ^ k)) 0) as [H |]; [| done].
    apply (f_equal (fun y => Z.testbit y k)) in H. rewrite Z.land_spec, E, Z.pow2_bits_true, Z.testbit_0_l in H by done. done.
  - destruct (Z.eqb_spec (Z.land x (2 ^ k)) 0) as [| H]; [done |]. destruct H. apply Z.bits_inj'. intros i Hi.
    rewrite Z.land_spec, Z.pow2_bits_eqb, Z.testbit_0_l by done. destruct (Z.eqb_spec k i) as [<- |]; [by rewrite E | by rewrite andb_false_r].
Qed.

Lemma has_bit k a : 0 <= k -> has (2 ^ k) a = Z.testbit (flags a) k.
Proof. apply land_pow2. Qed.

Lemma no_flags_2 x j k : 0 <= j -> 0 <= k ->
  (Z.land x (Z.lor (2 ^ j) (2 ^ k)) =? 0) = negb (Z.testbit x j) && negb (Z.testbit x k).
Proof.
  intros Hj Hk. rewrite <- !land_pow2, !negb_involutive by done. rewrite Z.land_lor_distr_r.
  destruct (Z.eqb_spec (Z.land x (2 ^ j)) 0) as [-> | H1]; cbn [andb]; [by rewrite Z.lor_0_l |].
  apply Z.eqb_neq. intros H. by apply Z.lor_eq_0_iff in H as [H _].
Qed.

Section Stream.
Context {G D : Type} `{MD : Machine D} `{HM : !Has G mem} `{LC : Libc}.
Implicit Types (w : world G D).

(** *** The stream

    After [out] was written to the [n] bytes at [dest] of the memory of [w0]:
    as much of it as there is room for. *)
Context (w0 : world G D) (dest : Z) (n : nat).
Record written (out : list Z) (s : SecPrintfStream) (c : Z) (w : world G D) : Prop := {
  wr_chars : Forall (fits 8) out;
  wr_world : w = setm (wr (memof w0) dest (take n out)) w0;
  wr_fits : (length out <= n)%nat -> count s = Z.of_nat n - Z.of_nat (length out) /\ cur s = dest + Z.of_nat (length out) /\ c = Z.of_nat (length out);
  wr_full : (n < length out)%nat -> count s < 0 /\ c = -1;
}.
Context (Hmap : mapped (memof w0) dest (Z.of_nat n)) (Hbytes : bytes (memof w0)).

Lemma written_mapped out s c w a k : written out s c w -> mapped (memof w0) a k -> mapped (memof w) a k.
Proof. intros [_ -> _ _] Hm. rewrite memof_setm. by apply mapped_wr. Qed.

(** One more character, when there is room. *)
Lemma written_snoc out s c w ch : written out s c w -> fits 8 ch -> (length out < n)%nat ->
  forall c', c' = Z.of_nat (length out) + 1 ->
  written (out ++ [ch]) (Stream (count s - 1) (cur s + 1)) c' (setm (wr (memof w) (cur s) [ch]) w) /\
  mapped (memof w) (cur s) 1.
Proof.
  intros Hw Hf Hlt c' ->. pose proof (wr_fits _ _ _ _ Hw ltac:(lia)) as (Hc & Hcur & Hch). split.
  - split.
    + apply Forall_app. split; [apply (wr_chars _ _ _ _ Hw) | by constructor].
    + rewrite (wr_world _ _ _ _ Hw), memof_setm, setm_setm, !take_ge by (rewrite ?length_app; cbn; lia).
      by rewrite Hcur, wr_app.
    + intros _. rewrite length_app. cbn. lia.
    + rewrite length_app. cbn. lia.
  - eapply written_mapped; [done |]. eapply mapped_sub; [exact Hmap | lia | lia].
Qed.

(** What comes after the end. *)
Lemma written_over out s c w xs : written out s c w -> Forall (fits 8) xs -> (n <= length out)%nat -> xs <> [] ->
  forall s', count s' < 0 -> written (out ++ xs) s' (-1) w.
Proof.
  intros Hw Hf Hle Hne s' Hs'. split.
  - apply Forall_app. split; [apply (wr_chars _ _ _ _ Hw) | done].
  - rewrite (wr_world _ _ _ _ Hw), take_app_le by lia. done.
  - intros H. rewrite length_app in H. destruct xs; [done | cbn in H; lia].
  - done.
Qed.

Lemma written_app_full out s c w xs : written out s c w -> Forall (fits 8) xs -> (n < length out)%nat -> written (out ++ xs) s c w.
Proof.
  intros Hw Hf Hlt. split.
  - apply Forall_app. split; [apply (wr_chars _ _ _ _ Hw) | done].
  - rewrite (wr_world _ _ _ _ Hw), take_app_le by lia. done.
  - rewrite length_app. lia.
  - intros _. by apply (wr_full _ _ _ _ Hw).
Qed.

Lemma setm_st8 a v w : u8 v = v -> setm (wr (memof w) a (le_bytes 1 v)) w = setm (wr (memof w) a [v]) w.
Proof. intros Hv. cbn [le_bytes]. by rewrite Hv. Qed.

(** A sequence of characters that are produced one by one. *)
Fixpoint put_loop (chs : nat -> M G D Z) (k i : nat) (s : SecPrintfStream) : M G D (SecPrintfStream * bool) :=
  match k with
  | O => mret (s, true)
  | Datatypes.S k' =>
      if count s - 1 <? 0 then mret (Stream (count s - 1) (cur s), false)
      else ch ← chs i; st8 (cur s) ch ;; put_loop chs k' (Datatypes.S i) (Stream (count s - 1) (cur s + 1))
  end.

Lemma wp_put_loop chs xs i out s c w (Q : SecPrintfStream * bool -> world G D -> Prop) :
  written out s c w -> Forall (fits 8) xs ->
  (forall w' j x, (exists out' s' c', written out' s' c' w') -> xs !! j = Some x ->
     wp (chs (i + j)%nat) (fun a w1 => a = x /\ w1 = w') w') ->
  (forall s' (b : bool) w', written (out ++ xs) s' (if b then c + Z.of_nat (length xs) else -1) w' -> Q (s', b) w') ->
  wp (put_loop chs (length xs) i s) Q w.
Proof.
  revert i out s c w. induction xs as [| x xs IH]; intros i out s c w Hw Hf Hch HQ.
  { apply wp_ret, HQ. cbn. by rewrite app_nil_r, Z.add_0_r. }
  cbn [length put_loop]. destruct (decide (length out < n)%nat) as [Hlt | Hge].
  - pose proof (wr_fits _ _ _ _ Hw ltac:(lia)) as (Hc & Hcur & Hcc).
    replace (count s - 1 <? 0) with false by lia.
    pose proof (Hch w O x ltac:(by exists out, s, c) eq_refl) as H1. rewrite Nat.add_0_r in H1.
    apply wp_bind. eapply wp_mono; [exact H1 |]. cbv beta.
    intros a w1 [-> ->]. apply Forall_cons_1 in Hf as [Hx Hf]. apply wp_bind. unfold st8.
    destruct (written_snoc out s c w x Hw Hx Hlt _ eq_refl) as [Hw' Hm].
    apply wp_stn; [exact Hm |]. rewrite setm_st8 by (by apply wrap_id).
    eapply (IH (Datatypes.S i)); [exact Hw' | exact Hf | |].
    + intros w' j y Hex Hj. replace (Datatypes.S i + j)%nat with (i + Datatypes.S j)%nat by lia. by apply Hch.
    + intros s' b w' Hw2. rewrite <- app_assoc in Hw2. apply HQ.
      replace (c + Z.of_nat (length (x :: xs))) with (Z.of_nat (length out) + 1 + Z.of_nat (length xs)) by (cbn; lia). exact Hw2.
  - assert (count s - 1 < 0) as Hcs.
    { destruct (decide (length out = n)); [pose proof (wr_fits _ _ _ _ Hw ltac:(lia)); lia |].
      pose proof (wr_full _ _ _ _ Hw ltac:(lia)). lia. }
    replace (count s - 1 <? 0) with true by lia. apply wp_ret, HQ.
    eapply written_over; [done | done | lia | done | done].
Qed.
(** *** The source of a text *)
Definition apart (p k : Z) : Prop := p + k <= dest \/ dest + Z.of_nat n <= p.
Definition text_is (t : SecFormatBuf) (xs : list Z) : Prop :=
  match t with
  | Buf l | Static l => take (length xs) l = xs
  | Ptr p => rd (memof w0) p (length xs) = Some xs /\ apart p (Z.of_nat (length xs))
  | _ => False
  end.

Lemma written_rd out s c w p k : written out s c w -> apart p (Z.of_nat k) -> rd (memof w) p k = rd (memof w0) p k.
Proof.
  intros [_ -> _ _] Ha. rewrite memof_setm. apply rd_wr_ne. unfold apart in Ha. rewrite length_take. lia.
Qed.

Lemma char_at_ok t xs out s c w j x : text_is t xs -> written out s c w -> xs !! j = Some x ->
  wp (char_at t (Z.of_nat j)) (fun a w1 => a = x /\ w1 = w) w.
Proof.
  intros Ht Hw Hj. pose proof (lookup_lt_Some _ _ _ Hj) as Hlt. unfold char_at.
  assert (forall l, take (length xs) l = xs -> wp (some_or OutOfBounds (l !! Z.to_nat (Z.of_nat j))) (fun a w1 => a = x /\ w1 = w) w) as Hl.
  { intros l El. apply wp_some_or. exists x. rewrite Nat2Z.id. split; [| done]. rewrite <- El in Hj. by apply lookup_take_Some in Hj as [Hj _]. }
  destruct t as [l | p | l | | |]; try done; [by apply Hl | | by apply Hl].
  destruct Ht as [Hr Ha]. unfold ld8. apply wp_ldn. exists [x]. rewrite le_word_1. split; [| done].
  rewrite <- (written_rd _ _ _ _ _ _ Hw Ha) in Hr.
  pose proof (rd_sub _ _ _ _ j 1 Hr ltac:(lia)) as H. rewrite H. f_equal. by rewrite (drop_S _ _ _ Hj).
Qed.

(** *** The loops are [put_loop] *)
Lemma multi_loop_put k s ch i w : multi_loop k s ch w = put_loop (fun _ => mret ch) k i s w.
Proof.
  revert s i w. induction k as [| k IH]; intros s i w; [done |]. cbn [multi_loop put_loop].
  destruct (count s - 1 <? 0); [done |]. rewrite bind_ret. unfold mbind, M_bind. destruct (st8 (cur s) ch w); [apply IH | done].
Qed.

Lemma string_loop_put k s t i w : string_loop k s t (Z.of_nat i) w = put_loop (fun j => char_at t (Z.of_nat j)) k i s w.
Proof.
  revert s i w. induction k as [| k IH]; intros s i w; [done |]. cbn [string_loop put_loop].
  destruct (count s - 1 <? 0); [done |]. unfold mbind, M_bind. destruct (char_at t (Z.of_nat i) w) as [ch w1 |]; [| done].
  destruct (st8 (cur s) ch w1) as [u w2 |]; [| done]. rewrite <- IH. by rewrite Nat2Z.inj_succ.
Qed.

Lemma by_loop_string k s t i w : Z.of_nat k <= count s ->
  string_loop k s t i w = (by_loop k (cur s) t i ;; mret (Stream (count s - Z.of_nat k) (cur s + Z.of_nat k), true)) w.
Proof.
  revert s i w. induction k as [| k IH]; intros s i w Hk.
  { cbn. destruct s. cbn. by rewrite Z.sub_0_r, Z.add_0_r. }
  cbn [string_loop by_loop]. replace (count s - 1 <? 0) with false by lia. unfold mbind, M_bind.
  destruct (char_at t i w) as [ch w1 |]; [| done]. destruct (st8 (cur s) ch w1) as [u w2 |]; [| done].
  rewrite IH by (cbn; lia). unfold mbind, M_bind. cbn [cur count]. destruct (by_loop k (cur s + 1) t (i + 1) w2); [| done].
  f_equal. f_equal. f_equal; lia.
Qed.

(** *** The writing functions *)
Abbreviation writes_out xs m out :=
  (forall s c w, written out s c w -> wp (m s c) (fun r w' => written (out ++ xs) r.1 r.2 w') w).

Lemma write_multi ch num out : fits 8 ch -> 0 <= num ->
  writes_out (replicate (Z.to_nat num) ch) (fun s c => SecWriteMultiChar s ch num c) out.
Proof.
  intros Hch Hn s c w Hw. apply wp_bind. unfold wp at 1. rewrite (multi_loop_put _ _ _ 0).
  pose proof (length_replicate (Z.to_nat num) ch) as Hl.
  assert (wp (put_loop (fun _ => mret ch) (Z.to_nat num) 0 s) (fun r w' =>
    written (out ++ replicate (Z.to_nat num) ch) r.1 (if r.2 then c + num else -1) w') w) as H.
  { rewrite <- Hl at 1. eapply wp_put_loop; [done | by apply Forall_replicate | |].
    - intros w' j x _ [-> _]%lookup_replicate. by apply wp_ret.
    - intros s' b w' H. rewrite Hl, Z2Nat.id in H by done. exact H. }
  unfold wp in H. destruct (put_loop _ _ _ _ w) as [r w' |]; [| done]. by apply wp_ret.
Qed.

Lemma write_string t xs out : text_is t xs -> Forall (fits 8) xs ->
  writes_out xs (fun s c => SecWriteString s t (Z.of_nat (length xs)) c) out.
Proof.
  intros Ht Hf s c w Hw. apply wp_bind. unfold wp at 1. rewrite Nat2Z.id, (string_loop_put _ _ _ 0).
  assert (wp (put_loop (fun j => char_at t (Z.of_nat j)) (length xs) 0 s) (fun r w' =>
    written (out ++ xs) r.1 (if r.2 then c + Z.of_nat (length xs) else -1) w') w) as H.
  { eapply wp_put_loop; [done | done | | by intros].
    intros w' j x (o' & s' & c' & Hw') Hj. by eapply char_at_ok. }
  unfold wp in H. destruct (put_loop _ _ _ _ w) as [r w' |]; [| done]. by apply wp_ret.
Qed.

Lemma write_text_opt t xs out : text_is t xs -> Forall (fits 8) xs -> Z.of_nat (length xs) <= SECUREC_STRING_MAX_LEN ->
  writes_out xs (fun s c => SecWriteTextOpt s t (Z.of_nat (length xs)) c) out.
Proof.
  intros Ht Hf Hmax s c w Hw. unfold SecWriteTextOpt, SecIsStreamBufEnough.
  destruct (Z.leb_spec (Z.of_nat (length xs)) (count s)) as [Hle |]; [| by apply write_string].
  unfold SecWriteStringOpt. destruct (Z.ltb_spec (Z.of_nat (length xs)) 12).
  - pose proof (write_string t xs out Ht Hf s c w Hw) as H1. unfold SecWriteString in H1. apply wp_bind_inv in H1.
    unfold wp at 1 in H1. rewrite Nat2Z.id, by_loop_string in H1 by done.
    apply wp_bind, wp_bind. rewrite Nat2Z.id. unfold mbind, M_bind, wp in H1 |- *.
    destruct (by_loop (length xs) (cur s) t 0 w) as [u w' |]; [| done]. cbn in H1 |- *.
    by rewrite Z.max_r by lia.
  - assert (n >= length out + length xs)%nat as Hroom.
    { destruct (decide (n < length out)%nat) as [H2 | H2]; [pose proof (wr_full _ _ _ _ Hw H2); lia |].
      pose proof (wr_fits _ _ _ _ Hw ltac:(lia)). lia. }
    pose proof (wr_fits _ _ _ _ Hw ltac:(lia)) as (Hc & Hcur & Hcc).
    assert (mapped (memof w) (cur s) (Z.of_nat (length xs))) as Hm.
    { eapply written_mapped; [done |]. eapply mapped_sub; [exact Hmap | lia | lia]. }
    assert (forall w', w' = setm (wr (memof w) (cur s) xs) w ->
      written (out ++ xs) (Stream (count s - Z.of_nat (length xs)) (cur s + Z.of_nat (length xs))) (c + Z.of_nat (length xs)) w') as Hgoal.
    { intros w' ->. split.
      - apply Forall_app. split; [apply (wr_chars _ _ _ _ Hw) | done].
      - rewrite (wr_world _ _ _ _ Hw), memof_setm, setm_setm, !take_ge by (rewrite ?length_app; lia). by rewrite Hcur, wr_app.
      - intros _. rewrite length_app. cbn. lia.
      - rewrite length_app. lia. }
    apply wp_bind, wp_bind. rewrite (wrap_id 32) by (split; [lia |]; unfold SECUREC_STRING_MAX_LEN in *; lia).
    assert (forall l, take (length xs) l = xs -> wp (memcpy_text (cur s) (Static l) (Z.of_nat (length xs)))
      (fun _ w' => w' = setm (wr (memof w) (cur s) xs) w) w) as Hlit.
    { intros l El. unfold memcpy_text. replace (Z.of_nat (length l) <? Z.of_nat (length xs)) with false.
      2: { symmetry. apply Z.ltb_ge. rewrite <- El at 1. rewrite length_take. lia. }
      rewrite Nat2Z.id, El. by apply wp_st_bytes. }
    eapply wp_mono with (P := fun _ w' => w' = setm (wr (memof w) (cur s) xs) w); [| intros u w' ->; apply wp_ret, wp_ret, Hgoal; done].
    destruct t as [l | p | l | | |]; try done; [by apply Hlit | | by apply Hlit].
    destruct Ht as [Hr Ha]. unfold memcpy_text. apply memcpy_stores; [lia | | by rewrite Nat2Z.id, (written_rd _ _ _ _ _ _ Hw Ha) | done |].
    + rewrite (wr_world _ _ _ _ Hw), memof_setm. apply bytes_wr; [done |]. by apply Forall_take, (wr_chars _ _ _ _ Hw).
    + unfold buffers_meet. unfold apart in Ha. lia.
Qed.

(** *** A field *)
Lemma written_pad ch num out (b : bool) s c w (Q : SecPrintfStream * Z -> world G D -> Prop) : fits 8 ch ->
  written out s c w ->
  (forall s' c' w', written (out ++ if b then replicate (Z.to_nat num) ch else []) s' c' w' -> Q (s', c') w') ->
  wp (if b && (0 <? num) then SecWriteMultiChar s ch num c else mret (s, c)) Q w.
Proof.
  intros Hch Hw HQ. destruct b; cbn [andb]; [destruct (Z.ltb_spec 0 num) |].
  - eapply wp_mono; [apply write_multi; [done | lia | exact Hw] |]. cbv beta. intros [s' c'] w' H'. by apply HQ.
  - apply wp_ret, HQ. replace (Z.to_nat num) with O by lia. cbn. by rewrite app_nil_r.
  - apply wp_ret, HQ. by rewrite app_nil_r.
Qed.

Lemma write_field a pre xs out :
  text_is (text a) xs -> Forall (fits 8) xs -> Z.of_nat (length xs) <= SECUREC_STRING_MAX_LEN ->
  textLen a = Z.of_nat (length xs) -> textIsWide a = 0 ->
  prefixLen a = Z.of_nat (length pre) -> take (length pre) (prefix a) = pre -> Forall (fits 8) pre ->
  padding a = fldWidth a - textLen a - prefixLen a ->
  writes_out (field (fldWidth a) (Z.testbit (flags a) 2) (Z.testbit (flags a) 3) pre xs) (fun s c => put_out s a c) out.
Proof.
  intros Ht Hf Hmax Hlen Hwide Hpl Hpre Hpf Hpad s c w Hw.
  assert (padding a = fldWidth a - Z.of_nat (length (pre ++ xs))) as Hp by (rewrite length_app; lia).
  unfold put_out, SecWriteLeftPadding, SecWriteLeadingZero, SecWriteRightPadding.
  change SECUREC_FLAG_LEFT with (2 ^ 2). change SECUREC_FLAG_LEADZERO with (2 ^ 3).
  rewrite !has_bit, no_flags_2 by done. set (left := Z.testbit (flags a) 2). set (zero := Z.testbit (flags a) 3). rewrite Hp.
  set (num := fldWidth a - Z.of_nat (length (pre ++ xs))).
  apply wp_bind, (written_pad (chr " ") num out (negb left && negb zero) s c w); [by split | done |]. intros s1 c1 w1 H1. cbn [fst snd].
  apply wp_bind. unfold SecWritePrefix.
  eapply wp_mono with (P := fun r w' => written ((out ++ if negb left && negb zero then replicate (Z.to_nat num) (chr " ") else []) ++ pre) r.1 r.2 w').
  { rewrite Hpl. destruct (Z.ltb_spec 0 (Z.of_nat (length pre))).
    - by apply write_string.
    - destruct pre; [| cbn in *; lia]. apply wp_ret. by rewrite app_nil_r. }
  cbv beta. intros [s2 c2] w2 H2. cbn [fst snd] in H2 |- *.
  apply wp_bind. eapply (written_pad (chr "0") num _ (zero && negb left)); [by split | exact H2 |].
  intros s3 c3 w3 H3. cbn [fst snd]. apply wp_bind. unfold SecWriteText. rewrite Hwide, Hlen. cbn [Z.eqb negb].
  eapply wp_mono; [by apply write_text_opt |]. cbv beta. intros [s4 c4] w4 H4. cbn [fst snd] in H4 |- *.
  unfold field. fold num left zero.
  destruct (Z.leb_spec 0 c4) as [Hc4 |]; cbn [andb].
  - eapply written_pad; [by split | exact H4 |]. intros s5 c5 w5 H5. cbn [fst snd].
    replace (out ++ _) with ((((((out ++ (if negb left && negb zero then replicate (Z.to_nat num) (chr " ") else [])) ++ pre) ++
      (if zero && negb left then replicate (Z.to_nat num) (chr "0") else [])) ++ xs) ++ (if left then replicate (Z.to_nat num) (chr " ") else []))); [exact H5 |].
    rewrite <- !app_assoc. f_equal. destruct left, zero; cbn [negb andb app]; by rewrite ?app_nil_r.
  - assert (n < length ((((out ++ (if negb left && negb zero then replicate (Z.to_nat num) (chr " ") else [])) ++ pre) ++
      (if zero && negb left then replicate (Z.to_nat num) (chr "0") else [])) ++ xs))%nat as Hfull.
    { apply not_le. intros Hle. pose proof (wr_fits _ _ _ _ H4 Hle). lia. }
    apply wp_ret. cbn [fst snd]. apply (written_app_full _ _ _ _ (if left then replicate (Z.to_nat num) (chr " ") else [])) in H4.
    2: { destruct left; [| done]. by apply Forall_replicate. }
    2: done.
    rewrite <- !app_assoc in H4. destruct left, zero; cbn [negb andb app] in H4 |- *; rewrite ?app_nil_r in H4; exact H4.
Qed.
End Stream.

(** ** Numbers *)
Lemma numeral_aux_length k base n j : 1 < base -> 0 <= n < base ^ Z.of_nat j -> (length (numeral_aux k base n) <= j)%nat.
Proof.
  intros Hb. revert n j. induction k as [| k IH]; intros n j Hn; cbn [numeral_aux]; [cbn; lia |].
  destruct (Z.eqb_spec n 0); [cbn; lia |]. rewrite length_app. cbn [length].
  destruct j as [| j]; [cbn in Hn; lia |]. rewrite Nat2Z.inj_succ, Z.pow_succ_r in Hn by lia.
  enough (length (numeral_aux k base (n / base)) <= j)%nat by lia. apply IH.
  split; [apply Z.div_pos; lia |]. apply Z.div_lt_upper_bound; lia.
Qed.

Lemma numeral_length base n : 8 <= base -> fits 64 n -> (length (numeral base n) <= 22)%nat.
Proof.
  intros Hb [H0 Hn]. apply numeral_aux_length; [lia |]. split; [done |].
  eapply Z.lt_le_trans; [exact Hn |]. transitivity (8 ^ Z.of_nat 22); [by apply Z.leb_le |].
  apply Z.pow_le_mono_l. lia.
Qed.

Lemma digit_char_fits up d : fits 8 (digit_char up d).
Proof.
  unfold digit_char. destruct (nth_in_or_default (Z.to_nat d) (if up then g_itoaUpperDigits else g_itoaLowerDigits) 0) as [H | ->]; [| by split].
  assert (Forall (fits 8) (if up then g_itoaUpperDigits else g_itoaLowerDigits)) as Hf.
  { destruct up; apply Forall_forall; intros x Hx; apply list_elem_of_In in Hx; cbn in Hx;
      repeat destruct Hx as [<- | Hx]; try (by split); done. }
  rewrite Forall_forall in Hf. apply Hf. by apply list_elem_of_In.
Qed.

Lemma body_fits base up prec v : Forall (fits 8) (body base up prec v).
Proof.
  unfold body. apply Forall_app. split; [by apply Forall_replicate |]. apply Forall_fmap, Forall_true. intros x. apply digit_char_fits.
Qed.

Lemma body_length base up prec v : 8 <= base -> fits 64 v -> prec <= 512 -> Z.of_nat (length (body base up prec v)) <= 512.
Proof.
  intros Hb Hv Hp. unfold body. rewrite length_app, length_replicate, length_fmap.
  pose proof (numeral_length base v Hb Hv). lia.
Qed.

(** *** Flags, bit by bit *)
Abbreviation tb a k := (Z.testbit (flags a) k).
Lemma add_flag_bit k j a : 0 <= k -> 0 <= j -> tb (add_flag (2 ^ k) a) j = tb a j || (k =? j).
Proof. intros Hk Hj. cbn [flags add_flag set_flags]. by rewrite Z.lor_spec, Z.pow2_bits_eqb. Qed.
Lemma clear_flag_bit k j a : 0 <= k < 32 -> 0 <= j < 32 -> tb (clear_flag (2 ^ k) a) j = tb a j && negb (k =? j).
Proof.
  intros Hk Hj. cbn [flags clear_flag set_flags]. unfold bnot. rewrite Z.land_spec, wrap_spec, Z.lnot_spec, Z.pow2_bits_eqb by lia.
  replace (j <? 32) with true by lia. done.
Qed.
(** Rewrite every test of a flag into its bit. *)
Ltac to_bits := repeat match goal with
  | |- context [has ?f ?a] => let k := eval vm_compute in (Z.log2 f) in
      replace (has f a) with (Z.testbit (flags a) k) by (symmetry; exact (has_bit k a ltac:(done)))
  end.

Section Numbers.
Context {G D : Type} `{MD : Machine D} `{HM : !Has G mem} `{LC : Libc}.
Implicit Types (w : world G D).

Lemma wp_push_text c a l (Q : SecFormatAttr -> world G D -> Prop) w : text a = Buf l -> Z.of_nat (length l) < 512 ->
  Q (set_text (Buf (c :: l)) a) w -> wp (push_text c a) Q w.
Proof.
  intros Ht Hl HQ. unfold push_text. rewrite Ht. apply wp_bind. unfold push, SECUREC_BUFFER_SIZE.
  replace (Z.of_nat (length l) <? 512) with true by lia. by apply wp_ret, wp_ret.
Qed.

Lemma wp_number_loop k (up : bool) ds base v a l (Q : SecFormatAttr -> world G D -> Prop) w :
  ds = (if up then g_itoaUpperDigits else g_itoaLowerDigits) -> 1 < base <= 16 -> 0 < v < base ^ Z.of_nat k ->
  text a = Buf l -> Z.of_nat (length l) + Z.of_nat k <= 512 ->
  Q (set_text (Buf ((digit_char up <$> numeral_aux k base v) ++ l)) a) w ->
  wp (number_loop k ds base v a) Q w.
Proof.
  intros Hds Hb. revert v a l. induction k as [| k IH]; intros v a l Hv Ht Hl HQ; [cbn in Hv; lia |].
  cbn [number_loop]. pose proof (Z.mod_pos_bound v base ltac:(lia)) as Hm.
  assert (ds !! Z.to_nat (v mod base) = Some (digit_char up (v mod base))) as Hd.
  { unfold digit_char. rewrite <- Hds.
    destruct (lookup_lt_is_Some_2 ds (Z.to_nat (v mod base))) as [x Hx].
    { assert (length ds = 17%nat) as -> by (by subst ds; destruct up). lia. }
    by rewrite (nth_lookup_Some _ _ _ _ Hx). }
  apply wp_bind, wp_some_or. exists (digit_char up (v mod base)). split; [done |].
  apply wp_bind, (wp_push_text _ _ l); [done | lia |]. cbn [numeral_aux] in HQ.
  replace (v =? 0) with false in HQ by lia. destruct (Z.eqb_spec (v / base) 0) as [E | E].
  - apply wp_ret. rewrite E in HQ. assert (numeral_aux k base 0 = []) as Hn by (by destruct k). rewrite Hn in HQ. exact HQ.
  - pose proof (Z.div_pos v base ltac:(lia) ltac:(lia)). rewrite Nat2Z.inj_succ, Z.pow_succ_r in Hv by lia.
    apply (IH _ _ (digit_char up (v mod base) :: l)); [| done | cbn [length]; lia |].
    + split; [lia |]. apply Z.div_lt_upper_bound; lia.
    + rewrite fmap_app, <- app_assoc in HQ. exact HQ.
Qed.

Lemma wp_zeros_loop k prec a l (Q : SecFormatAttr -> world G D -> Prop) w :
  text a = Buf l -> textLen a = Z.of_nat (length l) -> prec - Z.of_nat (length l) <= Z.of_nat k -> prec <= 512 ->
  (let l' := replicate (Z.to_nat (prec - Z.of_nat (length l))) (chr "0") ++ l in
   Q (set_textLen (Z.of_nat (length l')) (set_text (Buf l') a)) w) ->
  wp (zeros_loop k prec a) Q w.
Proof.
  revert a l. induction k as [| k IH]; intros a l Ht Hlen Hk Hp HQ; cbn [zeros_loop].
  all: assert (prec <= textLen a -> wp (mret a) Q w) as Hend by (intros; apply wp_ret;
    replace (Z.to_nat (prec - Z.of_nat (length l))) with O in HQ by lia; cbn in HQ; rewrite <- Hlen, <- Ht in HQ; by destruct a).
  - replace (prec <=? textLen a) with true by lia. apply Hend. lia.
  - destruct (Z.leb_spec prec (textLen a)); [by apply Hend |].
    apply wp_bind, (wp_push_text _ _ l); [done | lia |].
    apply (IH _ (chr "0" :: l)); [done | cbn [length textLen set_textLen set_text]; lia | cbn [length]; lia | done |].
    cbv zeta in HQ |- *. replace (Z.to_nat (prec - Z.of_nat (length l))) with (S (Z.to_nat (prec - Z.of_nat (length (chr "0" :: l))))) in HQ by (cbn [length]; lia).
    rewrite replicate_S_end, <- app_assoc in HQ. exact HQ.
Qed.

Lemma wp_to_buffer a num64 base (up : bool) (Q : SecFormatAttr -> world G D -> Prop) w :
  let neg := has SECUREC_FLAG_SIGNED a && (num64 <? 0) in
  let a' := if neg then add_flag SECUREC_FLAG_NEGATIVE a else a in
  let n := let number := u64 (if neg then 0 - num64 else num64) in if SecIsNumberNeedTo32Bit a' then wrap 32 number else number in
  let ds := digit_char up <$> numeral base n in
  base = 10 /\ up = false \/ base = 8 /\ up = false \/ base = 16 /\ digits a = (if up then g_itoaUpperDigits else g_itoaLowerDigits) ->
  radix a = base ->
  Q (set_textLen (Z.of_nat (length ds)) (set_text (Buf ds) (if n =? 0 then set_prefix [] 0 a' else a'))) w ->
  wp (SecNumberToBuffer a num64) Q w.
Proof.
  intros neg a' n ds Hbase Hr HQ. unfold SecNumberToBuffer. fold neg a'.
  assert (forall x, Z.land x 0xffffffff = wrap 32 x) as Hland by (intros x; change 0xffffffff with (Z.ones 32); by rewrite Z.land_ones).
  rewrite Hland. fold n. assert (fits 64 n) as Hn.
  { unfold n. cbv zeta. destruct (SecIsNumberNeedTo32Bit a'); [| by apply wrap_fits].
    eapply fits_mono; [| by apply wrap_fits]; done. }
  destruct (Z.eqb_spec n 0) as [E | E].
  { apply wp_ret. unfold ds in HQ. rewrite E in HQ. exact HQ. }
  assert (radix a' = base /\ digits a' = digits a) as [Hr' Hd'] by (unfold a'; by destruct neg).
  apply wp_bind. unfold SecNumberToString, SecNumber64ToString. cbn [radix set_text]. rewrite Hr'.
  assert (0 < n < base ^ Z.of_nat 64) as Hn'.
  { destruct Hn. split; [lia |]. eapply Z.lt_le_trans; [done |]. change (Z.of_nat 64) with 64. apply Z.pow_le_mono_l. lia. }
  assert (forall d : list Z, d = (if up then g_itoaUpperDigits else g_itoaLowerDigits) ->
    wp (number_loop 64 d base n (set_text (Buf []) a')) (fun a1 w1 => wp (mret (set_textLen (buf_length (text a1)) a1)) Q w1) w) as Hloop.
  { intros d Hd. apply (wp_number_loop 64 up d base n _ []); [done | lia | done | done | cbn; lia |]. apply wp_ret.
    rewrite app_nil_r. exact HQ. }
  destruct Hbase as [[-> ->] | [[-> ->] | [-> Hd]]]; [by apply Hloop | by apply Hloop |].
  apply Hloop. cbn [digits set_text]. congruence.
Qed.

Lemma wp_satisfy a l (Q : SecFormatAttr -> world G D -> Prop) w :
  text a = Buf l -> textLen a = Z.of_nat (length l) -> (length l <= 22)%nat ->
  let prec := if precision a <? 0 then 1 else Z.min 512 (precision a) in
  let l' := replicate (Z.to_nat (prec - Z.of_nat (length l))) (chr "0") ++ l in
  (forall a', text a' = Buf l' -> textLen a' = Z.of_nat (length l') ->
     fldWidth a' = fldWidth a -> textIsWide a' = textIsWide a -> prefixLen a' = prefixLen a -> prefix a' = prefix a ->
     (flags a' = if (precision a <? 0) || has SECUREC_FLAG_POINTER a then flags a else flags (clear_flag SECUREC_FLAG_LEADZERO a)) ->
     Q a' w) ->
  wp (SecNumberSatisfyPrecision a) Q w.
Proof.
  intros Ht Hl Hlen prec l' HQ. unfold SecNumberSatisfyPrecision. destruct (Z.ltb_spec (precision a) 0).
  - apply (wp_zeros_loop 1 1 a l); [done | done | lia | lia |]. by apply HQ.
  - cbn [orb] in HQ. set (a1 := if has _ a then a else _).
    set (a2 := if _ <? precision a1 then _ else a1).
    assert (precision a1 = precision a /\ text a1 = text a /\ textLen a1 = textLen a) as (Hp1 & Ht1 & Hl1) by (unfold a1; by destruct (has _ a)).
    assert (precision a2 = prec /\ text a2 = text a /\ textLen a2 = textLen a) as (Hp2 & Ht2 & Hl2).
    { unfold a2, prec, SECUREC_MAX_PRECISION, SECUREC_BUFFER_SIZE. rewrite Hp1.
      destruct (Z.ltb_spec 512 (precision a)); cbn; split_and!; try done; lia. }
    unfold prec in *. rewrite Hp2. apply (wp_zeros_loop _ _ a2 l); [congruence | congruence | lia | lia |].
    apply HQ; try done; unfold a2, a1; destruct (has SECUREC_FLAG_POINTER a), (SECUREC_MAX_PRECISION <? _); done.
Qed.

Lemma wp_force_octal a l (Q : SecFormatAttr -> world G D -> Prop) w :
  text a = Buf l -> textLen a = Z.of_nat (length l) -> (Z.of_nat (length l) < 512 \/ head l = Some (chr "0")) ->
  let l' := if has SECUREC_FLAG_FORCE_OCTAL a && negb (bool_decide (head l = Some (chr "0"))) then chr "0" :: l else l in
  Q (set_textLen (Z.of_nat (length l')) (set_text (Buf l') a)) w ->
  wp (SecNumberForceOctal a) Q w.
Proof.
  intros Ht Hl Hroom l' HQ. unfold SecNumberForceOctal. unfold l' in HQ.
  assert (Q a w -> wp (mret a) Q w) as Hret by apply wp_ret.
  assert (set_textLen (Z.of_nat (length l)) (set_text (Buf l) a) = a) as Hid by (rewrite <- Hl, <- Ht; by destruct a).
  destruct (has SECUREC_FLAG_FORCE_OCTAL a); cbn [andb] in HQ; [| apply Hret; by rewrite <- Hid].
  assert (forall b : bool, b = negb (bool_decide (head l = Some (chr "0"))) ->
    wp (if b then a0 ← push_text (chr "0") a; mret (set_textLen (textLen a0 + 1) a0) else mret a) Q w) as Hgo.
  { intros b ->. destruct (bool_decide_reflect (head l = Some (chr "0"))) as [E | E]; cbn [negb] in HQ |- *.
    - apply wp_ret. by rewrite Hid in HQ.
    - apply wp_bind, (wp_push_text _ _ l); [done | by destruct Hroom |]. apply wp_ret.
      cbn [textLen set_text]. rewrite Hl. cbn [length] in HQ.
      replace (Z.of_nat (length l) + 1) with (Z.of_nat (S (length l))) by lia. exact HQ. }
  rewrite Ht, Hl. destruct l as [| c l]; cbn [length first_char head].
  - apply wp_bind, wp_ret. cbn [Z.of_nat Z.eqb orb]. by apply Hgo.
  - change (Z.of_nat (S (length l)) =? 0) with false. apply wp_bind, wp_some_or. exists c. split; [done |]. cbn [orb].
    apply Hgo. cbn [head]. destruct (Z.eqb_spec c (chr "0")) as [-> | Hne]; [done |]. by rewrite bool_decide_false by (by intros [= E]).
Qed.

Record finished (a a' : SecFormatAttr) (zero : bool) (pre xs : list Z) : Prop := {
  fi_text : text a' = Buf xs \/ text a' = Static xs;
  fi_len : textLen a' = Z.of_nat (length xs);
  fi_wide : textIsWide a' = textIsWide a;
  fi_width : fldWidth a' = fldWidth a;
  fi_left : tb a' 2 = tb a 2;
  fi_zero : tb a' 3 = zero;
  fi_prefixLen : prefixLen a' = Z.of_nat (length pre);
  fi_prefix : take (length pre) (prefix a') = pre;
}.

Lemma need32_add a : SecIsNumberNeedTo32Bit (add_flag SECUREC_FLAG_NEGATIVE a) = SecIsNumberNeedTo32Bit a.
Proof.
  unfold SecIsNumberNeedTo32Bit. to_bits. change SECUREC_FLAG_NEGATIVE with (2 ^ 8).
  rewrite !add_flag_bit by done. cbn [Z.eqb Pos.eqb]. by rewrite !orb_false_r.
Qed.

Lemma head_zeros k l : (0 < k)%nat -> head (replicate k (chr "0") ++ l) = Some (chr "0").
Proof. by destruct k; [lia |]. Qed.

Lemma wp_number a base (up : bool) num64 (Q : SecFormatAttr -> world G D -> Prop) w :
  base = 10 /\ up = false \/ base = 8 /\ up = false \/ base = 16 /\ digits a = (if up then g_itoaUpperDigits else g_itoaLowerDigits) ->
  radix a = base -> 0 <= prefixLen a <= Z.of_nat (length (prefix a)) ->
  let neg := tb a 6 && (num64 <? 0) in
  let number := u64 (if neg then 0 - num64 else num64) in
  let n := if SecIsNumberNeedTo32Bit a then wrap 32 number else number in
  let xs0 := body base up (if precision a <? 0 then 1 else Z.min 512 (precision a)) n in
  let xs1 := if tb a 9 && negb (bool_decide (head xs0 = Some (chr "0"))) then chr "0" :: xs0 else xs0 in
  let nil := (num64 =? 0) && tb a 14 in
  let old := if n =? 0 then [] else take (Z.to_nat (prefixLen a)) (prefix a) in
  let pre := if tb a 6 then (if neg || tb a 8 then [chr "-"] else if tb a 0 then [chr "+"] else if tb a 1 then [chr " "] else old) else old in
  (forall a', finished a a' (tb a 3 && ((precision a <? 0) || tb a 14) && negb nil) (if nil then old else pre) (if nil then chars "(nil)" else xs1) -> Q a' w) ->
  (nil = true -> tb a 6 = false) ->
  wp (finish_number a num64) Q w.
Proof.
  intros Hbase Hr Hp neg number n xs0 xs1 nil old pre HQ Hnil.
  assert (has SECUREC_FLAG_SIGNED a && (num64 <? 0) = neg) as Hneg by (to_bits; done).
  set (a1 := if neg then add_flag SECUREC_FLAG_NEGATIVE a else a).
  assert (SecIsNumberNeedTo32Bit a1 = SecIsNumberNeedTo32Bit a) as H32 by (unfold a1; destruct neg; [apply need32_add | done]).
  assert (fits 64 n) as Hn.
  { unfold n, number. destruct (SecIsNumberNeedTo32Bit a); [eapply fits_mono; [| by apply wrap_fits]; done | by apply wrap_fits]. }
  assert (8 <= base) as Hb8 by lia.
  set (ds := digit_char up <$> numeral base n).
  assert (length ds <= 22)%nat as Hds by (unfold ds; rewrite length_fmap; by apply numeral_length).
  assert (forall k, 0 <= k -> tb a1 k = tb a k || (neg && (8 =? k))) as Hbits.
  { intros k Hk. unfold a1. destruct neg; cbn [andb]; [by apply (add_flag_bit 8) | by rewrite orb_false_r]. }
  apply wp_bind, (wp_to_buffer a num64 base up); [done | done |]. cbv zeta. rewrite Hneg. fold a1. rewrite H32. fold number n ds.
  set (a2 := set_textLen _ _).
  assert (precision a2 = precision a /\ fldWidth a2 = fldWidth a /\ textIsWide a2 = textIsWide a /\ prefix a2 = prefix a /\
    prefixLen a2 = Z.of_nat (length old) /\ flags a2 = flags a1) as (Hp2 & Hw2 & Hwide2 & Hpre2 & Hpl2 & Hf2).
  { unfold a2, old, a1. destruct (n =? 0), neg; cbn; split_and!; try done; rewrite length_take; lia. }
  apply wp_bind. eapply (wp_satisfy a2 ds); [done | done | done |]. rewrite Hp2. cbv zeta.
  change (replicate _ (chr "0") ++ ds) with xs0.
  intros a3 Ht3 Hl3 Hw3 Hwide3 Hpl3 Hpre3 Hf3.
  assert (forall k, 0 <= k < 32 -> tb a3 k = tb a1 k && negb ((3 =? k) && negb ((precision a <? 0) || tb a 14))) as Hbits3.
  { intros k Hk. rewrite Hf3. to_bits. rewrite Hf2, (Hbits 14) by done. cbn [Z.eqb Pos.eqb]. rewrite andb_false_r, orb_false_r.
    destruct ((precision a <? 0) || tb a 14); cbn [negb andb]; [by rewrite andb_false_r, andb_true_r |].
    change SECUREC_FLAG_LEADZERO with (2 ^ 3). rewrite (clear_flag_bit 3) by lia. by rewrite Hf2, andb_true_r. }
  assert (forall k, 0 <= k < 32 -> k <> 3 -> tb a3 k = tb a k || (neg && (8 =? k))) as Hb3.
  { intros k Hk Hne. rewrite Hbits3, Hbits by lia. replace (3 =? k) with false by lia. by rewrite andb_true_r. }
  apply wp_bind, (wp_force_octal a3 xs0); [done | done | |].
  { unfold xs0, body. fold ds. destruct (decide (Z.of_nat (length ds) < (if precision a <? 0 then 1 else Z.min 512 (precision a)))) as [Hlt | Hge].
    - right. apply head_zeros. lia.
    - left. rewrite length_app, length_replicate. lia. }
  to_bits. rewrite (Hb3 9) by lia. cbn [Z.eqb Pos.eqb]. rewrite andb_false_r, orb_false_r. cbv zeta. fold xs1.
  set (a4 := set_textLen _ _). apply wp_ret.
  assert (forall k, tb a4 k = tb a3 k) as Hb4 by done.
  assert (old = take (length old) (prefix a4)) as Hold.
  { change (prefix a4) with (prefix a3). rewrite Hpre3, Hpre2. unfold old. destruct (n =? 0); [done |].
    rewrite length_take. by rewrite Nat.min_l by lia. }
  set (a5 := SecUpdateSignedNumberPrefix a4).
  assert (text a5 = Buf xs1 /\ textLen a5 = Z.of_nat (length xs1) /\ textIsWide a5 = textIsWide a /\ fldWidth a5 = fldWidth a /\
    flags a5 = flags a4 /\ prefixLen a5 = Z.of_nat (length pre) /\ take (length pre) (prefix a5) = pre) as (Ht5 & Hl5 & Hwd5 & Hfw5 & Hf5 & Hpl5 & Hpr5).
  { unfold a5, SecUpdateSignedNumberPrefix. to_bits. rewrite !Hb4, !Hb3 by lia. cbn [Z.eqb Pos.eqb]. rewrite ?andb_false_r, ?andb_true_r, ?orb_false_r.
    unfold pre. rewrite (orb_comm neg). destruct (tb a 6); cbn [negb].
    - destruct (tb a 8 || neg); [by cbn; split_and!; first [congruence | done] |].
      destruct (tb a 0); [by cbn; split_and!; first [congruence | done] |].
      destruct (tb a 1); [by cbn; split_and!; first [congruence | done] |]. cbn. split_and!; first [congruence | done].
    - cbn. split_and!; first [congruence | done]. }
  assert (forall k, 0 <= k < 32 -> tb a5 k = (tb a k || (neg && (8 =? k))) && negb ((3 =? k) && negb ((precision a <? 0) || tb a 14))) as Hb5.
  { intros k Hk. by rewrite Hf5, Hb4, Hbits3, Hbits by lia. }
  apply HQ. unfold nil. destruct (Z.eqb_spec num64 0) as [E | E]; cbn [andb].
  2: { split; try done; [by left | by rewrite Hb5, andb_false_r, orb_false_r, andb_true_r by lia |].
    rewrite Hb5 by lia. cbn [Z.eqb Pos.eqb andb]. by rewrite andb_false_r, orb_false_r, negb_involutive, andb_true_r. }
  unfold SecNumberCompatZero. to_bits. rewrite (Hb5 14) by lia. cbn [Z.eqb Pos.eqb andb negb]. rewrite andb_false_r, orb_false_r, andb_true_r.
  destruct (tb a 14) eqn:E14; [| split; try done].
  2: by left.
  2, 3: rewrite Hb5 by lia; cbn [Z.eqb Pos.eqb andb negb]; by rewrite andb_false_r, orb_false_r, ?negb_involutive, ?andb_true_r.
  assert (tb a 6 = false) as E6 by (by apply Hnil).
  assert (pre = old) as Hpo by (unfold pre; by rewrite E6). rewrite Hpo in Hpl5, Hpr5.
  change SECUREC_FLAG_LEADZERO with (2 ^ 3). split; try done; [by right | |];
    rewrite (clear_flag_bit 3) by lia; cbn [Z.eqb Pos.eqb negb]; rewrite ?andb_false_r; [| done].
  change (tb a5 2 && true = tb a 2). rewrite Hb5 by lia. cbn [Z.eqb Pos.eqb andb negb]. by rewrite andb_false_r, orb_false_r, !andb_true_r.
Qed.
End Numbers.
