(* ===== verification/PrintfConv.v ===== *)
(** * PrintfConv: each conversion of formatted output makes its text *)
From stdpp Require Import prelude gmap list strings.
From Stdlib Require Import ZArith Lia.
From S2P Require Import Prelude Hw Mem Securec Printf PrintfSpec PrintfProps.
Local Open Scope Z_scope.

(** ** Values at their width *)
Lemma wrap_period w x : 0 <= w -> wrap w (x + 2 ^ w) = wrap w x.
Proof. intros Hw. unfold wrap. rewrite <- (Z.mul_1_l (2 ^ w)) at 1. by rewrite Z.mod_add by (apply Z.pow_nonzero; lia). Qed.

Lemma wrap_signed w x : 0 <= w -> wrap w (signed w x) = wrap w x.
Proof.
  intros Hw. unfold signed. destruct (wrap w x <? 2 ^ (w - 1)); [by apply wrap_idem |].
  rewrite <- (wrap_period w (wrap w x - 2 ^ w)) by done. rewrite Z.sub_add. by apply wrap_idem.
Qed.

Lemma signed_range w x : 1 <= w -> - 2 ^ (w - 1) <= signed w x < 2 ^ (w - 1).
Proof.
  intros Hw. pose proof (wrap_fits w x ltac:(lia)) as [H0 H1]. unfold signed.
  assert (2 ^ w = 2 * 2 ^ (w - 1)) as E by (rewrite <- Z.pow_succ_r by lia; f_equal; lia).
  destruct (Z.ltb_spec (wrap w x) (2 ^ (w - 1))); lia.
Qed.

Lemma signed_8 x : signed 8 x = if 128 <=? u8 x then u8 x - 256 else u8 x.
Proof. unfold signed. cbn [Z.pow Z.pow_pos]. change (2 ^ (8 - 1)) with 128. change (2 ^ 8) with 256. destruct (Z.leb_spec 128 (u8 x)), (Z.ltb_spec (u8 x) 128); lia. Qed.

Lemma bnot_8 x : fits 8 x -> bnot 8 x = 255 - x.
Proof.
  intros [H0 H1]. unfold bnot. rewrite <- (wrap_period 8) by done. replace (Z.lnot x + 2 ^ 8) with (255 - x) by (unfold Z.lnot; lia).
  apply wrap_id. split; [lia |]. change (2 ^ 8) with 256 in *. lia.
Qed.

(** ** The attributes behind the flags, the width, the precision and the size *)
Definition size_bit (s : int_size) : Z :=
  match s with HH => 13 | H => 5 | Plain => -1 | L => 4 | LL => 12 | J => 18 | ZZ => 17 | T => 16 end.

Record parsed (d : directive) (left : bool) (width : Z) (prec : option Z) (a : SecFormatAttr) : Prop := {
  pa_plus : tb a 0 = has_flag d Plus;
  pa_space : tb a 1 = has_flag d Space;
  pa_left : tb a 2 = left;
  pa_zero : tb a 3 = has_flag d Zero;
  pa_hash : tb a 7 = has_flag d Hash;
  pa_size : forall k, 4 <= k < 32 -> k <> 7 -> tb a k = (size_bit (d_size d) =? k);
  pa_width : fldWidth a = width;
  pa_precision : precision a = default (-1) prec;
  pa_positive : from_option (fun p => 0 <= p <= SECUREC_MAX_WIDTH_LEN) True prec;
  pa_prefixLen : prefixLen a = 0;
  pa_textLen : textLen a = 0;
  pa_wide : textIsWide a = 0;
}.

(** ** The value of an integer argument *)
(** Whether a signed character has its sign in a flag. *)
Definition negative_char (s : int_size) (v : Z) : bool := match s with HH => 128 <=? u8 v | _ => false end.
Section Value.
Context (a : SecFormatAttr) (s : int_size) (v : Z).
Context (Hbits : forall k, 4 <= k < 32 -> k <> 6 -> k <> 7 -> k <> 8 -> k <> 9 -> tb a k = (size_bit s =? k)).

Lemma get_number_signed : tb a 6 = true ->
  get_number a v = (if negative_char s v then add_flag SECUREC_FLAG_NEGATIVE a else a, if negative_char s v then 256 - u8 v else signed (bits s) v).
Proof.
  intros H6. unfold get_number, negative_char. to_bits. rewrite H6, !Hbits by lia.
  destruct s; cbn; try reflexivity. unfold SecUpdateNegativeChar. rewrite signed_8.
  destruct (Z.leb_spec 128 (u8 v)); [| done].
  rewrite bnot_8 by (by apply wrap_fits). f_equal. lia.
Qed.
Lemma get_number_unsigned : tb a 6 = false -> (get_number a v).1 = a /\ u64 (get_number a v).2 = wrap (bits s) v.
Proof.
  intros H6. unfold get_number. to_bits. rewrite H6, !Hbits by lia.
  destruct s; cbn; (split; [done |]); rewrite ?wrap_signed by done; try done; apply wrap_id; (eapply fits_mono; [| by apply wrap_fits]); done.
Qed.
Lemma need32 : SecIsNumberNeedTo32Bit a = (bits s <=? 32).
Proof. unfold SecIsNumberNeedTo32Bit. to_bits. rewrite !Hbits by lia. by destruct s. Qed.
End Value.

Section Conversions.
Context {G D : Type} `{MD : Machine D} `{HM : !Has G mem} `{LC : Libc}.
Implicit Types (w : world G D).
Context (w0 : world G D) (dest : Z) (n : nat).

(** What [put_out] needs to write [out]. *)
Definition ready (width : Z) (left : bool) (out : list Z) (a : SecFormatAttr) : Prop := exists zero pre xs,
  text_is w0 dest n (text a) xs /\ Forall (fits 8) xs /\ Z.of_nat (length xs) <= SECUREC_STRING_MAX_LEN /\
  textLen a = Z.of_nat (length xs) /\ textIsWide a = 0 /\
  prefixLen a = Z.of_nat (length pre) /\ take (length pre) (prefix a) = pre /\ Forall (fits 8) pre /\
  fldWidth a = width /\ tb a 2 = left /\ tb a 3 = zero /\ out = field width left zero pre xs.

Lemma finished_ready a a' zero pre xs : finished a a' zero pre xs -> textIsWide a = 0 ->
  Forall (fits 8) xs -> Z.of_nat (length xs) <= SECUREC_STRING_MAX_LEN -> Forall (fits 8) pre ->
  ready (fldWidth a) (tb a 2) (field (fldWidth a) (tb a 2) zero pre xs) a'.
Proof.
  intros [] Hw Hf Hl Hp. exists zero, pre, xs. split_and!; try congruence.
  - destruct fi_text as [-> | ->]; cbn; by rewrite take_ge.
Qed.

Lemma octal_ok base up p v (b : bool) : 8 <= base -> fits 64 v -> p <= 512 ->
  let l := body base up p v in
  Forall (fits 8) (if b then chr "0" :: l else l) /\ Z.of_nat (length (if b then chr "0" :: l else l)) <= SECUREC_STRING_MAX_LEN.
Proof.
  intros Hb Hv Hp l. pose proof (body_fits base up p v) as Hf. pose proof (body_length base up p v Hb Hv Hp) as Hl. fold l in Hf, Hl.
  split; [destruct b; [by constructor |]; done |]. destruct b; cbn [length]; unfold SECUREC_STRING_MAX_LEN; lia.
Qed.

(** A number whose value is [N] and whose prefix is [P]. *)
Lemma wp_number_is a prec base (up : bool) num64 N P (Q : SecFormatAttr -> world G D -> Prop) w :
  base = 10 /\ up = false \/ base = 8 /\ up = false \/ base = 16 /\ digits a = (if up then g_itoaUpperDigits else g_itoaLowerDigits) ->
  radix a = base -> 0 <= prefixLen a <= Z.of_nat (length (prefix a)) -> textIsWide a = 0 ->
  precision a = default (-1) prec -> from_option (fun p => 0 <= p) True prec -> tb a 14 = false ->
  let neg := tb a 6 && (num64 <? 0) in
  (let number := u64 (if neg then 0 - num64 else num64) in if SecIsNumberNeedTo32Bit a then wrap 32 number else number) = N ->
  fits 64 N ->
  (let old := if N =? 0 then [] else take (Z.to_nat (prefixLen a)) (prefix a) in
   if tb a 6 then (if neg || tb a 8 then [chr "-"] else if tb a 0 then [chr "+"] else if tb a 1 then [chr " "] else old) else old) = P ->
  Forall (fits 8) P ->
  let xs := body base up (Z.min SECUREC_MAX_PRECISION (default 1 prec)) N in
  (forall a', ready (fldWidth a) (tb a 2) (field (fldWidth a) (tb a 2) (tb a 3 && bool_decide (prec = None)) P
      (if tb a 9 && negb (bool_decide (head xs = Some (chr "0"))) then chr "0" :: xs else xs)) a' -> Q a' w) ->
  wp (finish_number a num64) Q w.
Proof.
  intros Hbase Hr Hpl Hwide Hprec Hpos H14 neg HN HN64 HP HPf xs HQ. cbv zeta in HN.
  assert ((if precision a <? 0 then 1 else Z.min 512 (precision a)) = Z.min SECUREC_MAX_PRECISION (default 1 prec)) as Hpp.
  { rewrite Hprec. destruct prec as [p |]; cbn in Hpos |- *; [| done]. by replace (p <? 0) with false by lia. }
  assert ((precision a <? 0) = bool_decide (prec = None)) as Hz.
  { rewrite Hprec. destruct prec as [p |]; cbn in Hpos |- *; [| done]. lia. }
  apply (wp_number a base up); [done | done | done | | by rewrite H14, andb_false_r].
  cbv zeta. fold neg. rewrite H14, Hpp, Hz, andb_false_r, HN. cbn [negb orb]. rewrite orb_false_r, andb_true_r.
  cbv zeta in HP. rewrite HP. fold xs. intros a' Hfin.
  pose proof (octal_ok base up (Z.min SECUREC_MAX_PRECISION (default 1 prec)) N
    (tb a 9 && negb (bool_decide (head xs = Some (chr "0")))) ltac:(lia) HN64 ltac:(unfold SECUREC_MAX_PRECISION, SECUREC_BUFFER_SIZE; lia)) as [Hf Hl].
  fold xs in Hf, Hl. apply HQ. by apply finished_ready.
Qed.

Lemma abs_signed_fits s v : fits (bits s) (Z.abs (signed (bits s) v)).
Proof.
  pose proof (signed_range (bits s) v ltac:(destruct s; cbn; lia)) as Hr. unfold fits.
  destruct s; cbn in *; change (2 ^ 64) with (2 * 2 ^ 63) in *; change (2 ^ 16) with (2 * 2 ^ 15) in *;
    change (2 ^ 32) with (2 * 2 ^ 31) in *; change (2 ^ 8) with (2 * 2 ^ 7) in *; lia.
Qed.

Lemma sign_fits d v : Forall (fits 8) (sign d v).
Proof. unfold sign. destruct (v <? 0), (has_flag d Plus), (has_flag d Space); repeat constructor; done. Qed.

Lemma wp_signed d left width prec a v (Q : SecFormatAttr -> world G D -> Prop) w : parsed d left width prec a ->
  let a1 := set_digits g_itoaLowerDigits (set_radix SECUREC_RADIX_DECIMAL (add_flag SECUREC_FLAG_SIGNED a)) in
  let sv := signed (bits (d_size d)) v in
  (forall a', ready width left (field width left (has_flag d Zero && bool_decide (prec = None)) (sign d sv)
      (body 10 false (Z.min SECUREC_MAX_PRECISION (default 1 prec)) (Z.abs sv))) a' -> Q a' w) ->
  wp (let '(a, num64) := get_number a1 v in finish_number a num64) Q w.
Proof.
  intros Hp a1 sv HQ.
  assert (forall k, 0 <= k < 32 -> tb a1 k = tb a k || (6 =? k)) as Hb1 by (intros k Hk; apply (add_flag_bit 6); lia).
  rewrite (get_number_signed _ (d_size d)).
  2: { intros k Hk H6 H7 H8 H9. rewrite Hb1, (pa_size _ _ _ _ _ Hp) by lia. by replace (6 =? k) with false by lia; rewrite orb_false_r. }
  2: { rewrite Hb1 by lia. apply orb_true_r. }
  set (nc := negative_char _ v).
  set (a2 := if nc then _ else a1). set (num64 := if nc then _ else _). fold sv in num64.
  assert (forall k, 0 <= k < 32 -> tb a2 k = tb a k || (6 =? k) || (nc && (8 =? k))) as Hb2.
  { intros k Hk. rewrite <- Hb1 by done. unfold a2. destruct nc; [apply (add_flag_bit 8); lia | by rewrite orb_false_r]. }
  assert (nc = true -> d_size d = HH /\ 128 <= u8 v /\ sv = u8 v - 256) as Hnc.
  { unfold nc, sv, negative_char. destruct (d_size d); try done. intros Hle%Z.leb_le. split_and!; try done. cbn [bits]. rewrite signed_8. by replace (128 <=? u8 v) with true by lia. }
  pose proof (wrap_fits 8 v ltac:(done)) as [Hu0 Hu1].
  assert (Z.abs num64 = Z.abs sv) as Habs by (unfold num64; destruct nc; [destruct Hnc as (_ & _ & ->); [done |]; lia | done]).
  pose proof (abs_signed_fits (d_size d) v) as Hfit. fold sv in Hfit.
  assert (fits 64 (Z.abs sv)) as Hfit64 by (eapply fits_mono; [| exact Hfit]; by destruct (d_size d)).
  assert (forall k, 4 <= k < 32 -> k <> 6 -> k <> 7 -> k <> 8 -> tb a2 k = (size_bit (d_size d) =? k)) as Hs2.
  { intros k Hk H6 H7 H8. rewrite Hb2, (pa_size _ _ _ _ _ Hp) by lia. replace (6 =? k) with false by lia. replace (8 =? k) with false by lia.
    by rewrite andb_false_r, !orb_false_r. }
  assert (fldWidth a2 = width /\ textIsWide a2 = 0 /\ prefixLen a2 = 0 /\ radix a2 = 10 /\ precision a2 = default (-1) prec)
    as (Hfw & Hwide & Hpl & Hrad & Hprec) by (destruct Hp; unfold a2, a1; destruct nc; done).
  assert (tb a2 2 = left /\ tb a2 3 = has_flag d Zero /\ tb a2 6 = true /\ tb a2 8 = nc /\ tb a2 0 = has_flag d Plus /\ tb a2 1 = has_flag d Space)
    as (H2 & H3 & H6 & H8 & H0 & H1).
  { rewrite !Hb2 by lia. rewrite (pa_size _ _ _ _ _ Hp 6), (pa_size _ _ _ _ _ Hp 8) by lia. cbn [Z.eqb Pos.eqb]. rewrite !andb_false_r, !orb_false_r, andb_true_r.
    replace (size_bit (d_size d) =? 8) with false by (by destruct (d_size d)). rewrite !orb_true_r. by destruct Hp. }
  apply (wp_number_is a2 prec 10 false num64 (Z.abs sv) (sign d sv)); try done; [by left | lia | | | | | |].
  all: rewrite ?H6, ?H8, ?H0, ?H1; cbn [andb].
  - pose proof (pa_positive _ _ _ _ _ Hp). destruct prec; cbn in *; [lia | done].
  - rewrite Hs2 by lia. by destruct (d_size d).
  - replace (if num64 <? 0 then 0 - num64 else num64) with (Z.abs sv) by (rewrite <- Habs; destruct (Z.ltb_spec num64 0); lia).
    rewrite (need32 a2 (d_size d)) by (intros; by apply Hs2). rewrite (wrap_id 64) by done.
    destruct (Z.leb_spec (bits (d_size d)) 32); [| done]. apply wrap_id. eapply fits_mono; [| exact Hfit]. done.
  - unfold sign. replace ((num64 <? 0) || nc) with (sv <? 0).
    + destruct (sv <? 0), (has_flag d Plus), (has_flag d Space); try done. rewrite Hpl. by destruct (Z.abs sv =? 0).
    + unfold num64. destruct nc; [| by rewrite orb_false_r]. destruct Hnc as (_ & _ & ->); [done |]. rewrite orb_true_r. change (2 ^ 8) with 256 in *. lia.
  - apply sign_fits.
  - rewrite (Hs2 9) by lia. replace (size_bit (d_size d) =? 9) with false by (by destruct (d_size d)). cbn [andb].
    by rewrite Hfw, H2, H3.
Qed.

(** Unsigned: the attributes differ from the parsed ones in the digits, the
    radix, the prefix and the flag for an octal zero. *)
Lemma wp_unsigned d left width prec a a1 base (up alt : bool) pl v (Q : SecFormatAttr -> world G D -> Prop) w : parsed d left width prec a ->
  base = 10 /\ up = false \/ base = 8 /\ up = false \/ base = 16 /\ digits a1 = (if up then g_itoaUpperDigits else g_itoaLowerDigits) ->
  radix a1 = base -> prefixLen a1 = Z.of_nat (length pl) -> take (length pl) (prefix a1) = pl -> Forall (fits 8) pl ->
  textIsWide a1 = 0 -> precision a1 = precision a -> fldWidth a1 = fldWidth a ->
  (forall k, 0 <= k < 32 -> tb a1 k = tb a k || (alt && (9 =? k))) ->
  let uv := wrap (bits (d_size d)) v in
  let xs := body base up (Z.min SECUREC_MAX_PRECISION (default 1 prec)) uv in
  (forall a', ready width left (field width left (has_flag d Zero && bool_decide (prec = None)) (if uv =? 0 then [] else pl)
      (if alt && negb (bool_decide (head xs = Some (chr "0"))) then chr "0" :: xs else xs)) a' -> Q a' w) ->
  wp (let '(a, num64) := get_number a1 v in finish_number a num64) Q w.
Proof.
  intros Hp Hbase Hrad Hpl Hplt Hplf Hwide Hprec Hfw Hb1 uv xs HQ.
  assert (forall k, 4 <= k < 32 -> k <> 7 -> k <> 9 -> tb a1 k = (size_bit (d_size d) =? k)) as Hs.
  { intros k Hk H7 H9. rewrite Hb1, (pa_size _ _ _ _ _ Hp) by lia. replace (9 =? k) with false by lia. by rewrite andb_false_r, orb_false_r. }
  assert (forall k, k = 6 \/ k = 8 \/ k = 14 -> tb a1 k = false) as Hs0.
  { intros k Hk. rewrite Hs by lia. destruct Hk as [-> | [-> | ->]]; by destruct (d_size d). }
  assert (length pl <= length (prefix a1))%nat as Hpl2 by (rewrite <- Hplt, length_take; lia).
  assert (fits (bits (d_size d)) uv) as Hfit by (apply wrap_fits; by destruct (d_size d)).
  assert (fits 64 uv) as Hfit64 by (eapply fits_mono; [| exact Hfit]; by destruct (d_size d)).
  destruct (get_number_unsigned a1 (d_size d) v) as [E1 E2]; [intros; apply Hs; lia | apply Hs0; by left |].
  destruct (get_number a1 v) as [a2 num64]. cbn [fst snd] in E1, E2. subst a2.
  apply (wp_number_is a1 prec base up num64 uv (if uv =? 0 then [] else pl)); try done; [lia | | | by apply Hs0; tauto | | | |].
  - rewrite Hprec. apply Hp.
  - pose proof (pa_positive _ _ _ _ _ Hp). destruct prec; cbn in *; [lia | done].
  - rewrite (Hs0 6) by tauto. cbn [andb]. rewrite (need32 a1 (d_size d)) by (intros; apply Hs; lia). rewrite E2. fold uv.
    destruct (Z.leb_spec (bits (d_size d)) 32); [| done]. apply wrap_id. eapply fits_mono; [| exact Hfit]. done.
  - rewrite (Hs0 6) by tauto. cbv zeta. by rewrite Hpl, Nat2Z.id, Hplt.
  - by destruct (uv =? 0).
  - rewrite Hfw, (pa_width _ _ _ _ _ Hp). rewrite (Hb1 2), (Hb1 3), (Hb1 9), (pa_size _ _ _ _ _ Hp 9) by lia. cbn [Z.eqb Pos.eqb].
    replace (size_bit (d_size d) =? 9) with false by (by destruct (d_size d)).
    rewrite !andb_false_r, !orb_false_r, andb_true_r, orb_false_l, (pa_left _ _ _ _ _ Hp), (pa_zero _ _ _ _ _ Hp). exact HQ.
Qed.

Lemma wp_pointer d left width prec a v (Q : SecFormatAttr -> world G D -> Prop) w : parsed d left width prec a ->
  let a1 := SecUpdatePointFlags (set_radix SECUREC_RADIX_HEX (set_digits g_itoaLowerDigits a)) in
  (forall a', ready width left (if u64 v =? 0 then field width left false [] (chars "(nil)")
      else field width left (has_flag d Zero) (chars "0x") (body 16 false 0 (u64 v))) a' -> Q a' w) ->
  wp (let '(a, num64) := get_number a1 v in finish_number a num64) Q w.
Proof.
  intros Hp a1 HQ.
  assert (forall k, 0 <= k < 32 -> tb a1 k = tb a k || (14 =? k) || (7 =? k) || (15 =? k)) as Hb.
  { intros k Hk. rewrite <- (add_flag_bit 14 k a), <- (add_flag_bit 7 k), <- (add_flag_bit 15 k) by lia.
    unfold a1, SecUpdatePointFlags. by destruct (has SECUREC_FLAG_ALTERNATE _). }
  assert (take 2 (prefix a1) = chars "0x" /\ prefixLen a1 = 2 /\ digits a1 = g_itoaLowerDigits /\ radix a1 = 16 /\ precision a1 = 0 /\
    fldWidth a1 = width /\ textIsWide a1 = 0) as (Hpre & Hpl & Hdig & Hrad & Hprec & Hfw & Hwide).
  { assert (has SECUREC_FLAG_ALTERNATE (add_flag SECUREC_FLAG_I64 (set_digits g_itoaLowerDigits (add_flag SECUREC_FLAG_ALTERNATE
      (set_precision 0 (add_flag SECUREC_FLAG_POINTER (set_radix SECUREC_RADIX_HEX (set_digits g_itoaLowerDigits a))))))) = true) as Hh.
    { to_bits. change (tb (add_flag (2 ^ 15) (add_flag (2 ^ 7) (add_flag (2 ^ 14) a))) 7 = true).
      rewrite !add_flag_bit by lia. cbn [Z.eqb Pos.eqb]. by rewrite orb_true_r. }
    unfold a1, SecUpdatePointFlags. rewrite Hh. destruct Hp. cbn. split_and!; try done.
    }
  assert (get_number a1 v = (a1, signed 64 v)) as -> by (unfold get_number; to_bits; by rewrite (Hb 15), orb_true_r by lia).
  assert (SecIsNumberNeedTo32Bit a1 = false) as H32 by (unfold SecIsNumberNeedTo32Bit; to_bits; by rewrite (Hb 15), !orb_true_r by lia).
  assert (tb a1 6 = false /\ tb a1 9 = false /\ tb a1 14 = true /\ tb a1 2 = left /\ tb a1 3 = has_flag d Zero) as (H6 & H9 & H14 & H2 & H3).
  { rewrite !Hb, (pa_size _ _ _ _ _ Hp 6), (pa_size _ _ _ _ _ Hp 9) by lia. cbn [Z.eqb Pos.eqb]. rewrite !orb_false_r, !orb_true_r.
    split_and!; try (by destruct (d_size d)); by destruct Hp. }
  assert ((signed 64 v =? 0) = (u64 v =? 0)) as Hzero.
  { pose proof (wrap_fits 64 v ltac:(done)) as [Hv0 Hv1]. unfold signed. destruct (Z.ltb_spec (u64 v) (2 ^ (64 - 1))); lia. }
  apply (wp_number a1 16 false); [by right; right | done | | | by rewrite H6].
  { rewrite Hpl. apply (f_equal length) in Hpre. rewrite length_take in Hpre. change (length (chars "0x")) with 2%nat in Hpre. lia. }
  cbv zeta. rewrite H6, H9, H14, H3, H32, Hzero, Hprec, Hpl. change (Z.to_nat 2) with 2%nat. rewrite Hpre. change (512 `min` 0) with 0. change (0 <? 0) with false.
  cbn [andb orb negb]. rewrite wrap_signed, andb_true_r by done.
  pose proof (body_fits 16 false 0 (u64 v)) as Hf.
  pose proof (body_length 16 false 0 (u64 v) ltac:(done) ltac:(by apply wrap_fits) ltac:(done)) as Hl.
  intros a' Hfin. apply HQ. destruct (u64 v =? 0); cbn [negb] in Hfin; rewrite ?andb_false_r, ?andb_true_r in Hfin;
    rewrite <- Hfw, <- H2; apply finished_ready; try done; try (by repeat constructor); unfold SECUREC_STRING_MAX_LEN; lia.
Qed.

Definition numeric (c : conv) : Prop := c <> Cc /\ c <> Cs.

Lemma wp_convert_tail a v (args : list (arg real)) (Q : SecFormatAttr * list (arg real) -> world G D -> Prop) w :
  wp (let '(a, num64) := get_number a v in finish_number a num64) (fun a' w' => Q (a', args) w') w ->
  wp (let '(a, num64) := get_number a v in a ← finish_number a num64; mret (a, args)) Q w.
Proof. destruct (get_number a v). intros H. apply wp_bind. eapply wp_mono; [exact H |]. cbv beta. intros a' w' H'. by apply wp_ret. Qed.

(** What the letter of an integer conversion does to the attributes. *)
Definition letter_attr (c : conv) (a : SecFormatAttr) : SecFormatAttr :=
  let hash := has SECUREC_FLAG_ALTERNATE a in
  match c with
  | Cd | Ci => set_digits g_itoaLowerDigits (set_radix SECUREC_RADIX_DECIMAL (add_flag SECUREC_FLAG_SIGNED a))
  | Cu => set_digits g_itoaLowerDigits (set_radix SECUREC_RADIX_DECIMAL a)
  | Co => let a := set_digits g_itoaLowerDigits (set_radix SECUREC_RADIX_OCTAL a) in
          if hash then add_flag SECUREC_FLAG_FORCE_OCTAL a else a
  | Cx => let a := set_radix SECUREC_RADIX_HEX (set_digits g_itoaLowerDigits a) in
          if hash then set_prefix (chars "0x") 2 a else a
  | CX => let a := set_digits g_itoaUpperDigits (set_radix SECUREC_RADIX_HEX (set_digits g_itoaLowerDigits a)) in
          if hash then set_prefix (chars "0X") 2 a else a
  | Cp => SecUpdatePointFlags (set_radix SECUREC_RADIX_HEX (set_digits g_itoaLowerDigits a))
  | _ => a
  end.

Lemma convert_letter c a (args : list (arg real)) v : numeric c ->
  convert_number (conv_char c) a (Word v :: args) =
  (v ← va_word (Word v :: args);
   let '(a, num64) := get_number (letter_attr c a) v.1 in a ← finish_number (G := G) (D := D) a num64; mret (a, v.2)).
Proof. intros [Hc Hs]. by destruct c. Qed.

Lemma wp_convert_number d left width prec a v args (Q : SecFormatAttr * list (arg real) -> world G D -> Prop) w :
  parsed d left width prec a -> numeric (d_conv d) ->
  (forall a', ready width left (render_number d width left prec v) a' -> Q (a', args) w) ->
  wp (convert_number (conv_char (d_conv d)) a (Word v :: args)) Q w.
Proof.
  intros Hp Hn HQ. rewrite convert_letter by done. apply wp_bind, wp_ret, wp_convert_tail. cbn [fst snd].
  assert (has SECUREC_FLAG_ALTERNATE a = has_flag d Hash) as Hhash by (to_bits; apply Hp).
  pose proof (pa_wide _ _ _ _ _ Hp) as Hwide. pose proof (pa_prefixLen _ _ _ _ _ Hp) as Hpl.
  unfold render_number in HQ. destruct Hn as [Hc Hs]. destruct (d_conv d); try done; unfold letter_attr; rewrite ?Hhash.
  - by apply (wp_signed d left width prec).
  - by apply (wp_signed d left width prec).
  - apply (wp_unsigned d left width prec a _ 10 false false []); try done; [by left | by intros; rewrite orb_false_r |].
    intros a' Ha. apply HQ. by destruct (wrap _ _ =? 0).
  - apply (wp_unsigned d left width prec a _ 8 false (has_flag d Hash) []); try (by destruct (has_flag d Hash)); [by right; left | |].
    + intros k Hk. destruct (has_flag d Hash); [| by rewrite orb_false_r].
      by apply (add_flag_bit 9 k (set_digits g_itoaLowerDigits (set_radix SECUREC_RADIX_OCTAL a))); lia.
    + intros a' Ha. apply HQ. by destruct (wrap _ _ =? 0).
  - apply (wp_unsigned d left width prec a _ 16 false false (if has_flag d Hash then chars "0x" else []));
      try (destruct (has_flag d Hash); cbn; by repeat constructor);
      [done | |].
    + intros k Hk. rewrite orb_false_r. by destruct (has_flag d Hash).
    + intros a' Ha. apply HQ. destruct (wrap _ _ =? 0), (has_flag d Hash); exact Ha.
  - apply (wp_unsigned d left width prec a _ 16 true false (if has_flag d Hash then chars "0X" else []));
      try (destruct (has_flag d Hash); cbn; by repeat constructor);
      [done | |].
    + intros k Hk. rewrite orb_false_r. by destruct (has_flag d Hash).
    + intros a' Ha. apply HQ. destruct (wrap _ _ =? 0), (has_flag d Hash); exact Ha.
  - apply (wp_pointer d left width prec); [done |]. intros a' Ha. apply HQ. by destruct (u64 v =? 0).
Qed.

(** *** Characters and strings *)
Lemma ready_char d left width prec a v : parsed d left width prec a -> d_size d = Plain ->
  ready width left (field width left false [] [u8 v]) (SecDecodeTypeC a (u32 v)).
Proof.
  intros Hp Hs. unfold SecDecodeTypeC. change SECUREC_FLAG_LEADZERO with (2 ^ 3). to_bits.
  rewrite !(clear_flag_bit 3) by lia. cbn [Z.eqb Pos.eqb negb flags set_textLen].
  rewrite (pa_size _ _ _ _ _ Hp 4), (pa_size _ _ _ _ _ Hp 11), Hs by lia. cbn [size_bit Z.eqb andb orb].
  exists false, [], [u8 v]. split_and!; try done.
  - cbn. f_equal. unfold wrap. apply Z.mod_mod_divide. by exists (2 ^ 24).
  - constructor; [by apply wrap_fits | done].
  - apply Hp.
  - apply Hp.
  - rewrite <- (pa_left _ _ _ _ _ Hp). cbn [set_wide set_text flags]. rewrite (clear_flag_bit 3) by lia. apply andb_true_r.
  - cbn [set_wide set_text flags]. rewrite (clear_flag_bit 3) by lia. apply andb_false_r.
Qed.

Lemma ld8_text p s out st c w j x : rd (memof w0) p (length s) = Some s -> apart dest n p (Z.of_nat (length s)) ->
  written w0 dest n out st c w -> s !! j = Some x -> wp (ld8 (p + Z.of_nat j)) (fun a w1 => a = x /\ w1 = w) w.
Proof. intros Hr Ha. by apply (char_at_ok w0 dest n (Ptr p) s). Qed.

Definition terminated (p : Z) : Prop := (memof w0) !! p = Some 0 /\ apart dest n p 1.
Lemma ld8_zero p out st c w : terminated p -> written w0 dest n out st c w -> wp (ld8 p) (fun a w1 => a = 0 /\ w1 = w) w.
Proof.
  intros [Hz Ha] Hw. rewrite <- (Z.add_0_r p). apply (ld8_text p [0] out st c w 0 0); try done.
  cbn [length rd]. by rewrite Hz.
Qed.

Lemma wp_strlen_loop k p s i out st c w (Q : Z -> world G D -> Prop) :
  rd (memof w0) p (length s) = Some s -> apart dest n p (Z.of_nat (length s)) -> Forall (fun c => c <> 0) s ->
  terminated (p + Z.of_nat (length s)) -> written w0 dest n out st c w ->
  (i <= length s)%nat -> (length s < k + i)%nat ->
  Q (Z.of_nat (length s)) w -> wp (strlen_loop k p (Z.of_nat i)) Q w.
Proof.
  intros Hr Ha Hnz Hz Hw. revert i. induction k as [| k IH]; intros i Hi Hk HQ; [lia |]. cbn [strlen_loop]. apply wp_bind.
  destruct (decide (i = length s)) as [-> | Hne].
  - eapply wp_mono; [by eapply ld8_zero |]. intros x w' [-> ->]. by apply wp_ret.
  - destruct (lookup_lt_is_Some_2 s i ltac:(lia)) as [x Hx].
    eapply wp_mono; [by eapply ld8_text |]. intros y w' [-> ->].
    rewrite Forall_lookup in Hnz. replace (x =? 0) with false by (symmetry; apply Z.eqb_neq; by eapply Hnz).
    replace (Z.of_nat i + 1) with (Z.of_nat (Datatypes.S i)) by lia. apply IH; [lia | lia | done].
Qed.

Lemma wp_strnlen_loop k p s i maxLen out st c w (Q : Z -> world G D -> Prop) :
  rd (memof w0) p (length s) = Some s -> apart dest n p (Z.of_nat (length s)) -> Forall (fun c => c <> 0) s ->
  Z.of_nat (length s) <= maxLen -> (Z.of_nat (length s) < maxLen -> terminated (p + Z.of_nat (length s))) ->
  written w0 dest n out st c w -> (i <= length s)%nat -> (length s < k + i)%nat ->
  Q (Z.of_nat (length s)) w -> wp (strnlen_loop k p maxLen (Z.of_nat i)) Q w.
Proof.
  intros Hr Ha Hnz Hm Hz Hw. revert i. induction k as [| k IH]; intros i Hi Hk HQ; [lia |]. cbn [strnlen_loop].
  destruct (Z.leb_spec maxLen (Z.of_nat i)) as [Hle |]; [apply wp_ret; by replace i with (length s) by lia |]. apply wp_bind.
  destruct (decide (i = length s)) as [-> | Hne].
  - eapply wp_mono; [eapply ld8_zero; [by apply Hz | done] |]. intros x w' [-> ->]. by apply wp_ret.
  - destruct (lookup_lt_is_Some_2 s i ltac:(lia)) as [x Hx].
    eapply wp_mono; [by eapply ld8_text |]. intros y w' [-> ->].
    rewrite Forall_lookup in Hnz. replace (x =? 0) with false by (symmetry; apply Z.eqb_neq; by eapply Hnz).
    replace (Z.of_nat i + 1) with (Z.of_nat (Datatypes.S i)) by lia. apply IH; [lia | lia | done].
Qed.

(** Strings that do not meet the destination, of less than [fuel] characters. *)
Definition outside (fuel : nat) (p : Z) (s : list Z) : Prop := apart dest n p (Z.of_nat (length s)) /\ (length s < fuel)%nat.

Lemma s32_small x : 0 <= x < 2 ^ 31 -> s32 x = x.
Proof. intros Hx. unfold s32. rewrite wrap_id by (split; lia). by replace (x <? 2 ^ 31) with true by lia. Qed.

Lemma rd_bytes (m : mem) p k s : bytes m -> rd m p k = Some s -> Forall (fits 8) s.
Proof.
  intros Hb Hr. apply Forall_lookup. intros i x Hi. pose proof (rd_length _ _ _ _ Hr). pose proof (lookup_lt_Some _ _ _ Hi).
  pose proof (rd_lookup m p k s (p + Z.of_nat i) Hr ltac:(lia)) as Hl. replace (Z.to_nat (p + Z.of_nat i - p)) with i in Hl by lia.
  rewrite Hi in Hl. eapply Hb; exact Hl.
Qed.

Lemma wp_string fuel d left width prec a p s out st c w (Q : SecFormatAttr -> world G D -> Prop) :
  parsed d left width prec a -> d_size d = Plain -> written w0 dest n out st c w -> bytes (memof w0) ->
  string_arg (memof w0) (outside fuel) p prec s ->
  (forall a', ready width left (field width left false [] s) a' -> Q a' w) ->
  wp (SecDecodeTypeS fuel a p) Q w.
Proof.
  intros Hp Hs Hw Hbytes Harg HQ. unfold SecDecodeTypeS, SecDecodeTypeSchar. change SECUREC_FLAG_LEADZERO with (2 ^ 3). to_bits.
  cbn [flags set_text text]. rewrite !(clear_flag_bit 3) by lia. cbn [Z.eqb Pos.eqb negb].
  rewrite (pa_size _ _ _ _ _ Hp 4), (pa_size _ _ _ _ _ Hp 11), Hs by lia. cbn [size_bit Z.eqb andb orb negb].
  assert (forall t, text_is w0 dest n t s -> Forall (fits 8) s -> Z.of_nat (length s) <= SECUREC_STRING_MAX_LEN ->
    Q (set_textLen (s32 (Z.of_nat (length s))) (set_text t (clear_flag (2 ^ 3) a))) w) as Hdone.
  { intros t Ht Hf Hl. unfold SECUREC_STRING_MAX_LEN in Hl. rewrite s32_small by lia. apply HQ. exists false, [], s. split_and!; try done; try apply Hp.
    - rewrite <- (pa_left _ _ _ _ _ Hp). cbn [set_textLen set_text flags]. rewrite (clear_flag_bit 3) by lia. apply andb_true_r.
    - cbn [set_textLen set_text flags]. rewrite (clear_flag_bit 3) by lia. apply andb_false_r. }
  pose proof (pa_precision _ _ _ _ _ Hp) as Hprec. pose proof (pa_positive _ _ _ _ _ Hp) as Hpos.
  unfold string_arg in Harg. destruct (p =? NULL).
  - cbn [text set_text]. change (precision (set_text _ (set_text _ (clear_flag _ a)))) with (precision a).
    change (literal_len null_string) with 6. apply wp_bind, wp_ret.
    assert (Z.of_nat (length s) = (if precision a =? -1 then 6 else Z.min 6 (u32 (precision a)))) as <-.
    { subst s. rewrite Hprec, length_take. change (length (chars "(null)")) with 6%nat. destruct prec as [k |]; cbn in Hpos |- *; [| done].
      unfold SECUREC_MAX_WIDTH_LEN, SECUREC_MAX_WIDTH_LEN_DIV_TEN in Hpos. rewrite wrap_id by (split; lia). destruct (Z.eqb_spec k (-1)); lia. }
    apply wp_ret, Hdone.
    + cbn. rewrite Harg at 1. subst s. rewrite length_take. change (chars "(null)") with (take 6 null_string). rewrite take_take. f_equal.
    + subst s. apply Forall_take. by repeat constructor.
    + subst s. rewrite length_take. unfold SECUREC_STRING_MAX_LEN. cbn. lia.
  - destruct Harg as (Hnz & Hr & [Ha Hfuel] & Hend). cbn [text set_text].
    change (precision (set_text _ (clear_flag _ a))) with (precision a). rewrite Hprec.
    assert (text_is w0 dest n (Ptr p) s) as Ht by done. pose proof (rd_bytes _ _ _ _ Hbytes Hr) as Hf.
    destruct prec as [k |]; cbn in Hpos |- *.
    + unfold SECUREC_MAX_WIDTH_LEN, SECUREC_MAX_WIDTH_LEN_DIV_TEN in Hpos. replace (k =? -1) with false by lia. rewrite wrap_id by (split; lia).
      destruct Hend as [Hle Hend]. apply wp_bind, (wp_strnlen_loop fuel p s 0 k out st c); try done; [| lia | lia |].
      { intros Hlt. destruct (Hend Hlt) as [Hz [Hz' _]]. by split. }
      apply wp_ret, Hdone; [done | done |]. unfold SECUREC_STRING_MAX_LEN. lia.
    + destruct Hend as (Hz & Hlen & [Hz' _]). apply wp_bind, wp_bind, (wp_strlen_loop fuel p s 0 out st c); try done; [lia | lia |].
      replace (SECUREC_STRING_MAX_LEN <? Z.of_nat (length s)) with false by lia. by apply wp_ret, wp_ret, Hdone.
Qed.
End Conversions.
