(* ===== verification/PrintfLoop.v ===== *)
(** * PrintfLoop: formatted output reads its format *)
From stdpp Require Import prelude gmap list strings.
From Stdlib Require Import ZArith Lia.
From S2P Require Import Prelude Hw Mem Securec Printf PrintfSpec PrintfProps PrintfConv.
Local Open Scope Z_scope.

(** ** The table of states *)
Lemma digit_cases c : is_digit c -> exists k : nat, c = Z.of_nat k + 48 /\ (k < 10)%nat.
Proof. unfold is_digit. change (chr "0") with 48. change (chr "9") with 57. intros H. exists (Z.to_nat (c - 48)). lia. Qed.

Lemma digit_state c st : is_digit c -> c <> chr "0" \/ (st <> STAT_PERCENT /\ st <> STAT_FLAG) -> SecDecodeState c st = SecDecodeState (chr "1") st.
Proof.
  intros (k & -> & Hk)%digit_cases Hst. change (chr "0") with 48 in Hst.
  do 10 (destruct k as [| k]; [destruct st; try reflexivity; destruct Hst as [Hst | [Hst1 Hst2]]; done |]). lia.
Qed.

Lemma literal_state c st : fits 8 c -> c <> chr "%" -> st = STAT_NORMAL \/ st = STAT_TYPE -> SecDecodeState c st = STAT_NORMAL.
Proof.
  intros [H0 H1] Hne Hst. change (2 ^ 8) with 256 in H1.
  assert (forallb (fun k => (Z.of_nat k =? chr "%") || bool_decide (SecDecodeState (Z.of_nat k) st = STAT_NORMAL)) (seq 0 256) = true) as Hall
    by (destruct Hst as [-> | ->]; by vm_compute).
  rewrite forallb_forall in Hall. specialize (Hall (Z.to_nat c)). rewrite in_seq, Z2Nat.id in Hall by lia.
  specialize (Hall ltac:(lia)). replace (c =? chr "%") with false in Hall by lia. by apply bool_decide_eq_true in Hall.
Qed.

Definition flag_bit (f : fmt_flag) : Z := match f with Minus => 2 | Plus => 0 | Space => 1 | Hash => 7 | Zero => 3 end.
Lemma decode_flag f a k : 0 <= k -> tb (SecDecodeFlags (flag_char f) a) k = tb a k || (flag_bit f =? k).
Proof.
  intros Hk. destruct f;
    [apply (add_flag_bit 2) | apply (add_flag_bit 0) | apply (add_flag_bit 1) | apply (add_flag_bit 7) | apply (add_flag_bit 3)]; lia.
Qed.

(** ** The attributes while a directive is read *)
Record attrs (bit : Z -> bool) (width prec dw dp : Z) (a : SecFormatAttr) : Prop := {
  at_bits : forall k, 0 <= k < 32 -> tb a k = bit k;
  at_width : fldWidth a = width;
  at_prec : precision a = prec;
  at_dw : dynWidth a = dw;
  at_dp : dynPrecision a = dp;
  at_prefixLen : prefixLen a = 0;
  at_len : textLen a = 0;
  at_wide : textIsWide a = 0;
}.

Definition flag_bits (fs : list fmt_flag) (k : Z) : bool := existsb (fun f => flag_bit f =? k) fs.
Lemma flag_bits_has fs f : flag_bits fs (flag_bit f) = bool_decide (f ∈ fs).
Proof.
  unfold flag_bits. apply eq_bool_prop_intro. rewrite bool_decide_spec. split.
  - intros (g & Hg & E)%Is_true_true_1%existsb_exists. apply list_elem_of_In. destruct f, g; try done.
  - intros H. apply Is_true_true_2, existsb_exists. exists f. split; [by apply list_elem_of_In | apply Z.eqb_refl].
Qed.
Lemma flag_bits_none fs k : 4 <= k -> k <> 7 -> flag_bits fs k = false.
Proof.
  intros Hk H7. apply not_true_iff_false. intros (g & Hg & E)%existsb_exists. destruct g; cbn [flag_bit] in E; lia.
Qed.

Lemma attrs_parsed d left neg width prec dw dp a :
  attrs (fun k => flag_bits (d_flags d) k || (neg && (2 =? k)) || (size_bit (d_size d) =? k)) width (default (-1) prec) dw dp a ->
  left = has_flag d Minus || neg -> from_option (fun p => 0 <= p <= SECUREC_MAX_WIDTH_LEN) True prec ->
  parsed d left width prec a.
Proof.
  intros [] -> Hpos.
  assert (forall k, 0 <= k < 4 \/ k = 7 -> (size_bit (d_size d) =? k) = false) as Hs by (intros; destruct (d_size d); cbn [size_bit]; lia).
  assert (forall f, tb a (flag_bit f) = has_flag d f || (neg && (2 =? flag_bit f))) as Hf.
  { intros f. rewrite at_bits0, flag_bits_has, Hs by (destruct f; cbn [flag_bit]; lia). apply orb_false_r. }
  split; try done.
  - etransitivity; [apply (Hf Plus) |]. cbn [flag_bit Z.eqb Pos.eqb]. by rewrite ?andb_false_r, ?andb_true_r, ?orb_false_r.
  - etransitivity; [apply (Hf Space) |]. cbn [flag_bit Z.eqb Pos.eqb]. by rewrite ?andb_false_r, ?andb_true_r, ?orb_false_r.
  - etransitivity; [apply (Hf Minus) |]. cbn [flag_bit Z.eqb Pos.eqb]. by rewrite ?andb_false_r, ?andb_true_r, ?orb_false_r.
  - etransitivity; [apply (Hf Zero) |]. cbn [flag_bit Z.eqb Pos.eqb]. by rewrite ?andb_false_r, ?andb_true_r, ?orb_false_r.
  - etransitivity; [apply (Hf Hash) |]. cbn [flag_bit Z.eqb Pos.eqb]. by rewrite ?andb_false_r, ?andb_true_r, ?orb_false_r.
  - intros k Hk H7. rewrite at_bits0, flag_bits_none by lia. replace (2 =? k) with false by lia. by rewrite andb_false_r.
Qed.

(** ** The numbers of a format *)
Definition number_from (v : Z) (ds : list Z) : Z := foldl (fun n c => 10 * n + (c - chr "0")) v ds.
Lemma number_from_ge v ds : 0 <= v -> Forall is_digit ds -> v <= number_from v ds.
Proof.
  intros Hv Hds. revert v Hv. induction Hds as [| c ds Hc _ IH]; intros v Hv; [done |]. change (number_from v (c :: ds)) with (number_from (10 * v + (c - chr "0")) ds).
  destruct Hc as [H1 _]. specialize (IH (10 * v + (c - chr "0")) ltac:(lia)). lia.
Qed.
Lemma number_from_small v c ds : 0 <= v -> is_digit c -> Forall is_digit ds -> number_from v (c :: ds) <= SECUREC_MAX_WIDTH_LEN ->
  0 <= v <= SECUREC_MAX_WIDTH_LEN_DIV_TEN.
Proof.
  intros Hv [H1 _] Hds Hm. pose proof (number_from_ge (10 * v + (c - chr "0")) ds ltac:(lia) Hds) as H2.
  change (number_from v (c :: ds)) with (number_from (10 * v + (c - chr "0")) ds) in Hm. unfold SECUREC_MAX_WIDTH_LEN in Hm. lia.
Qed.

Lemma mul_ten v : 0 <= v <= SECUREC_MAX_WIDTH_LEN_DIV_TEN -> s32 (SECUREC_MUL_TEN (u32 v)) = 10 * v.
Proof.
  unfold SECUREC_MAX_WIDTH_LEN_DIV_TEN. intros Hv. unfold SECUREC_MUL_TEN. rewrite !Z.shiftl_mul_pow2 by lia.
  rewrite (wrap_id 32 v) by (split; lia). rewrite wrap_id by (split; lia). rewrite s32_small by lia. lia.
Qed.
Lemma digit_value c : is_digit c -> u8 (c - chr "0") = c - chr "0".
Proof. unfold is_digit. change (chr "0") with 48. change (chr "9") with 57. intros H. apply wrap_id. split; lia. Qed.

Lemma decode_width_digit c a st v : dynWidth a = 0 -> is_digit c -> v = (if decide (st = STAT_WIDTH) then fldWidth a else 0) ->
  0 <= v <= SECUREC_MAX_WIDTH_LEN_DIV_TEN -> SecDecodeWidth c a st = Some (set_fldWidth (10 * v + (c - chr "0")) a).
Proof.
  intros Hd Hc Hv Hle. unfold SecDecodeWidth, SECUREC_MUL_TEN_ADD_BEYOND_MAX. rewrite Hd. cbn [Z.eqb].
  destruct (decide (st = STAT_WIDTH)); cbn [fldWidth set_fldWidth]; rewrite <- ?Hv.
  - replace (_ <? v) with false by lia. by rewrite mul_ten, digit_value.
  - subst v. by rewrite (mul_ten 0), digit_value by done.
Qed.
Lemma decode_precision_digit c a v : dynPrecision a = 0 -> is_digit c -> precision a = v ->
  0 <= v <= SECUREC_MAX_WIDTH_LEN_DIV_TEN -> SecDecodePrecision c a = Some (set_precision (10 * v + (c - chr "0")) a).
Proof.
  intros Hd Hc Hv Hle. unfold SecDecodePrecision, SECUREC_MUL_TEN_ADD_BEYOND_MAX. rewrite Hd, Hv. cbn [Z.eqb].
  replace (_ <? v) with false by lia. by rewrite mul_ten, digit_value.
Qed.
Lemma digit_char_neq c : is_digit c -> c <> 0 /\ (c =? chr "*") = false.
Proof. unfold is_digit. change (chr "0") with 48. change (chr "9") with 57. change (chr "*") with 42. lia. Qed.

(** ** Reading *)
Section Reading.
Context {G D : Type} `{MD : Machine D} `{HM : !Has G mem} `{LC : Libc}.
Implicit Types (w : world G D).
Context (w0 : world G D) (dest : Z) (n fuel : nat).

(** The body of the loop of [SecOutput]. *)
Definition round (o : output) : M G D (output + Z * SecPrintfStream) :=
  ch ← ld8 (format o);
  if negb (ch =? 0) && (0 <=? charsOut o) then output_round fuel ch o
  else mret (inr (if decide (state o = STAT_NORMAL) then charsOut o
                  else if decide (state o = STAT_TYPE) then charsOut o else -1, stream o)).

Definition reads (p : Z) (l : list Z) : Prop := rd (memof w0) p (length l) = Some l /\ apart dest n p (Z.of_nat (length l)).

Lemma reads_cons p ch l : reads p (ch :: l) -> reads (p + 1) l.
Proof.
  intros [Hr Ha]. split; [| unfold apart in *; cbn [length] in Ha; lia].
  pose proof (rd_sub _ _ _ _ 1 (length l) Hr ltac:(cbn; lia)) as H. change (p + 1) with (p + Z.of_nat 1). rewrite H. cbn [drop]. by rewrite take_ge.
Qed.

Lemma wp_format p ch l out s c w (Q : Z -> world G D -> Prop) :
  reads p (ch :: l) -> written w0 dest n out s c w -> Q ch w -> wp (ld8 p) Q w.
Proof.
  intros [Hr Ha] Hw HQ. rewrite <- (Z.add_0_r p). eapply wp_mono; [by eapply (ld8_text w0 dest n p (ch :: l) out s c w 0) |].
  by intros a w1 [-> ->].
Qed.

(** One round. *)
Lemma wp_round k o ch l out w (Q : Z * SecPrintfStream -> world G D -> Prop) :
  written w0 dest n out (stream o) (charsOut o) w -> reads (format o) (ch :: l) -> ch <> 0 -> 0 <= charsOut o ->
  wp (output_round fuel ch o) (fun r w' => match r with inl o' => wp (loop k round o') Q w' | inr x => Q x w' end) w ->
  wp (loop (S k) round o) Q w.
Proof.
  intros Hw Hr Hch Hc H. rewrite loop_S. apply wp_bind, wp_bind. eapply wp_format; [done | done |].
  replace (ch =? 0) with false by lia. replace (0 <=? charsOut o) with true by lia. cbn [negb andb].
  eapply wp_mono; [exact H |]. cbv beta. intros [o' | x] w'; [done |]. intros Hx. by apply wp_ret.
Qed.

(** *** Between the percent sign and the letter nothing is written *)
Section Directive.
Context (out : list Z) (s : SecPrintfStream) (c : Z) (w : world G D) (Q : Z * SecPrintfStream -> world G D -> Prop).
Context (Hw : written w0 dest n out s c w) (Hc : 0 <= c).
Definition go (k : nat) (p : Z) (st : SecFmtState) (a : SecFormatAttr) (args : list (arg real)) : Prop :=
  wp (loop k round (Output p s c st a args 0)) Q w.

Lemma go_step k p st a args ch l st' a' args' : reads p (ch :: l) -> ch <> 0 ->
  output_round fuel ch (Output p s c st a args 0) w = Done (inl (Output (p + 1) s c st' a' args' 0)) w ->
  (S (length l) <= k)%nat ->
  (forall k', (length l <= k')%nat -> go k' (p + 1) st' a' args') -> go k p st a args.
Proof.
  intros Hr Hch Heq Hk H. destruct k as [| k]; [lia |]. unfold go. eapply wp_round; [exact Hw | exact Hr | done | done |].
  unfold wp at 1. rewrite Heq. apply H. lia.
Qed.

Definition before_width (st : SecFmtState) : Prop := st = STAT_PERCENT \/ st = STAT_FLAG.
Definition before_precision (st : SecFmtState) : Prop := before_width st \/ st = STAT_WIDTH.
Definition before_size (st : SecFmtState) : Prop := before_precision st \/ st = STAT_DOT \/ st = STAT_PRECIS.
Definition before_letter (st : SecFmtState) : Prop := before_size st \/ st = STAT_SIZE.

Lemma go_flags fs : forall k p st a args l bit, before_width st -> reads p ((flag_char <$> fs) ++ l) -> attrs bit 0 (-1) 0 0 a ->
  (length (fs) + length l <= k)%nat ->
  (forall k' st' a', (length l <= k')%nat -> before_width st' -> attrs (fun j => bit j || flag_bits fs j) 0 (-1) 0 0 a' ->
     reads (p + Z.of_nat (length fs)) l -> go k' (p + Z.of_nat (length fs)) st' a' args) ->
  go k p st a args.
Proof.
  induction fs as [| f fs IH]; intros k p st a args l bit Hst Hr Ha Hk H.
  - specialize (H k st a Hk Hst). cbn [length] in H. rewrite Z.add_0_r in H. apply H; [| done].
    destruct Ha. split; try done. intros j Hj. by rewrite orb_false_r, at_bits0.
  - cbn [fmap list_fmap app] in Hr. pose proof (reads_cons _ _ _ Hr) as Hr'.
    eapply (go_step k p st a args (flag_char f) _ STAT_FLAG (SecDecodeFlags (flag_char f) a) args Hr); [by destruct f | | |].
    + unfold output_round. cbn [state format stream charsOut formatAttr argList noOutput].
      assert (SecDecodeState (flag_char f) st = STAT_FLAG) as -> by (destruct Hst as [-> | ->], f; by vm_compute). done.
    + rewrite length_app, length_fmap. cbn [length] in Hk. lia.
    + intros k' Hk'. rewrite length_app, length_fmap in Hk'. eapply (IH k' (p + 1) _ _ args l (fun j => bit j || (flag_bit f =? j))); [by right | done | | done |].
      * destruct Ha. split; try (by destruct f). intros j Hj. by rewrite decode_flag, at_bits0 by lia.
      * intros k2 st' a' Hk2 Hst' Ha' Hr2. cbn [length] in H. replace (p + 1 + Z.of_nat (length fs)) with (p + Z.of_nat (S (length fs))) in * by lia.
        apply H; try done. destruct Ha'. split; try done. intros j Hj. rewrite at_bits0 by done. cbn. by rewrite orb_assoc.
Qed.

Lemma digit_width ch st : is_digit ch -> before_precision st -> (st = STAT_WIDTH \/ ch <> chr "0") -> SecDecodeState ch st = STAT_WIDTH.
Proof.
  intros Hd Hst Hz. rewrite digit_state; [| done |].
  - by destruct Hst as [[-> | ->] | ->]; vm_compute.
  - destruct Hz as [-> |]; [by right | by left].
Qed.
Lemma digit_precision ch st : is_digit ch -> st = STAT_DOT \/ st = STAT_PRECIS -> SecDecodeState ch st = STAT_PRECIS.
Proof.
  intros Hd Hst. rewrite digit_state; [| done | right; by destruct Hst as [-> | ->]]. by destruct Hst as [-> | ->]; vm_compute.
Qed.

Lemma go_width_digits ds : forall k p st a args l bit v, before_precision st ->
  match ds with [] => st = STAT_WIDTH | ch :: _ => st = STAT_WIDTH \/ ch <> chr "0" end ->
  Forall is_digit ds -> reads p (ds ++ l) -> attrs bit v (-1) 0 0 a -> (st <> STAT_WIDTH -> v = 0) -> 0 <= v ->
  number_from v ds <= SECUREC_MAX_WIDTH_LEN -> (length ds + length l <= k)%nat ->
  (forall k' a', (length l <= k')%nat -> attrs bit (number_from v ds) (-1) 0 0 a' ->
     reads (p + Z.of_nat (length ds)) l -> go k' (p + Z.of_nat (length ds)) STAT_WIDTH a' args) ->
  go k p st a args.
Proof.
  induction ds as [| ch ds IH]; intros k p st a args l bit v Hst Hfirst Hds Hr Ha Hv0 Hv Hm Hk H.
  - subst st. specialize (H k a Hk Ha). cbn [length] in H. rewrite Z.add_0_r in H. by apply H.
  - apply Forall_cons_1 in Hds as [Hch Hds]. pose proof (reads_cons _ _ _ Hr) as Hr'. destruct (digit_char_neq ch Hch) as [Hne Hstar].
    pose proof (number_from_small v ch ds Hv Hch Hds Hm) as Hsmall.
    eapply (go_step k p st a args ch _ STAT_WIDTH (set_fldWidth (10 * v + (ch - chr "0")) a) args Hr Hne).
    + unfold output_round. cbn [state format stream charsOut formatAttr argList noOutput]. rewrite digit_width by done. rewrite Hstar. cbn [mbind M_bind].
      rewrite bind_ret. cbn [fst snd].
      rewrite (decode_width_digit ch a st v); [done | apply Ha | done | | done].
      case_decide; [by rewrite (at_width _ _ _ _ _ _ Ha) | by apply Hv0].
    + rewrite length_app. cbn [length] in Hk. lia.
    + intros k' Hk'. rewrite length_app in Hk'. eapply (IH k' (p + 1) STAT_WIDTH _ args l bit (10 * v + (ch - chr "0"))); try done.
      * by right.
      * destruct ds; [done | by left].
      * destruct Ha. by split.
      * destruct Hch. lia.
      * intros k2 a' Hk2 Ha' Hr2. cbn [length] in H. replace (p + 1 + Z.of_nat (length ds)) with (p + Z.of_nat (S (length ds))) in * by lia. by apply H.
Qed.

Lemma go_precision_digits ds : forall k p st a args l bit width dw v, st = STAT_DOT \/ st = STAT_PRECIS ->
  Forall is_digit ds -> reads p (ds ++ l) -> attrs bit width v dw 0 a -> 0 <= v ->
  number_from v ds <= SECUREC_MAX_WIDTH_LEN -> (length ds + length l <= k)%nat ->
  (forall k' st' a', (length l <= k')%nat -> before_size st' -> attrs bit width (number_from v ds) dw 0 a' ->
     reads (p + Z.of_nat (length ds)) l -> go k' (p + Z.of_nat (length ds)) st' a' args) ->
  go k p st a args.
Proof.
  induction ds as [| ch ds IH]; intros k p st a args l bit width dw v Hst Hds Hr Ha Hv Hm Hk H.
  - specialize (H k st a Hk). cbn [length] in H. rewrite Z.add_0_r in H. by apply H; [right | |].
  - apply Forall_cons_1 in Hds as [Hch Hds]. pose proof (reads_cons _ _ _ Hr) as Hr'. destruct (digit_char_neq ch Hch) as [Hne Hstar].
    pose proof (number_from_small v ch ds Hv Hch Hds Hm) as Hsmall.
    eapply (go_step k p st a args ch _ STAT_PRECIS (set_precision (10 * v + (ch - chr "0")) a) args Hr Hne).
    + unfold output_round. cbn [state format stream charsOut formatAttr argList noOutput]. rewrite digit_precision by done. rewrite Hstar.
      rewrite bind_ret. cbn [fst snd]. rewrite (decode_precision_digit ch a v); [done | apply Ha | done | apply Ha | done].
    + rewrite length_app. cbn [length] in Hk. lia.
    + intros k' Hk'. rewrite length_app in Hk'. eapply (IH k' (p + 1) STAT_PRECIS _ args l bit width dw (10 * v + (ch - chr "0"))); try done.
      * by right.
      * destruct Ha. by split.
      * destruct Hch. lia.
      * intros k2 st' a' Hk2 Hst' Ha' Hr2. cbn [length] in H. replace (p + 1 + Z.of_nat (length ds)) with (p + Z.of_nat (S (length ds))) in * by lia. by apply H.
Qed.

Lemma go_width x width k p st a args args1 l bit : before_width st -> from_option width_ok True x ->
  take_amount x args = Some (width, args1) -> reads p (from_option print_amount [] x ++ l) -> attrs bit 0 (-1) 0 0 a ->
  (length (from_option print_amount [] x) + length l <= k)%nat ->
  (forall k' st' a' dw, (length l <= k')%nat -> before_precision st' ->
     attrs (fun j => bit j || ((default 0 width <? 0) && (2 =? j))) (Z.abs (default 0 width)) (-1) dw 0 a' ->
     reads (p + Z.of_nat (length (from_option print_amount [] x))) l ->
     go k' (p + Z.of_nat (length (from_option print_amount [] x))) st' a' args1) ->
  go k p st a args.
Proof.
  intros Hst Hok Hta Hr Ha Hk H. destruct x as [[ds |] |]; cbn [from_option id print_amount] in *.
  - injection Hta as [= <- <-]. destruct Hok as [[Hds Hm] (ch & ds' & -> & Hne)].
    assert (0 <= number_of (ch :: ds')) as Hpos by (by apply (number_from_ge 0)).
    eapply (go_width_digits (ch :: ds') k p st a args l bit 0); try done; [by left | by right |].
    intros k' a' Hk' Ha' Hr'. apply (H k' STAT_WIDTH a' 0); [done | by right | | done]. cbn [from_option id].
    replace (number_of (ch :: ds') <? 0) with false by lia. rewrite Z.abs_eq by done. destruct Ha'. split; try done.
    intros j Hj. cbn [andb from_option id]. by rewrite orb_false_r, at_bits0.
  - destruct args as [| [v |] args']; try done. cbn in Hta. case_decide as Hv; [| done]. injection Hta as [= <- <-]. cbn [from_option id] in H.
    set (b := set_dynWidth 1 (set_fldWidth (s32 v) a)).
    assert (exists a', SecDecodeWidth (chr "*") b st = Some a' /\ attrs (fun j => bit j || ((s32 v <? 0) && (2 =? j))) (Z.abs (s32 v)) (-1) 1 0 a') as (a' & Ha1 & Ha2).
    { unfold SecDecodeWidth, b. cbn [dynWidth set_dynWidth Z.eqb fldWidth set_fldWidth].
      unfold SECUREC_MAX_WIDTH_LEN, SECUREC_MAX_WIDTH_LEN_DIV_TEN in *. destruct (Z.ltb_spec (s32 v) 0); cbn [fldWidth set_fldWidth].
      - rewrite s32_small by lia. replace (_ <? - s32 v) with false by lia. eexists. split; [done |]. destruct Ha.
        split; try done; [| cbn; lia]. intros j Hj. etransitivity; [apply (add_flag_bit 2 j a); lia |]. by rewrite at_bits0.
      - cbn [fldWidth set_dynWidth set_fldWidth]. replace (_ <? s32 v) with false by lia. eexists. split; [done |]. destruct Ha.
        split; try done; [| cbn; lia]. intros j Hj. cbn [andb]. rewrite orb_false_r. by rewrite <- at_bits0. }
    eapply (go_step k p st a (Word v :: args') (chr "*") l STAT_WIDTH a' args' Hr); [done | | done |].
    + unfold output_round. cbn [state format stream charsOut formatAttr argList noOutput].
      assert (SecDecodeState (chr "*") st = STAT_WIDTH) as -> by (destruct Hst as [-> | ->]; by vm_compute).
      change (chr "*" =? chr "*") with true. cbn [va_word]. rewrite !bind_ret. cbn [fst snd]. fold b. by rewrite Ha1.
    + intros k' Hk'. apply (H k' STAT_WIDTH a' 1); [done | by right | done | by apply (reads_cons _ _ _ Hr)].
  - injection Hta as [= <- <-]. cbn [length from_option id] in *. specialize (H k st a 0). rewrite Z.add_0_r in H.
    apply H; try done; [by left |]. destruct Ha. split; try done. intros j Hj. cbn [andb from_option id]. by rewrite orb_false_r, at_bits0.
Qed.

Lemma go_precision x prec k p st a args args1 l bit width dw : before_precision st -> from_option amount_ok True x ->
  take_amount x args = Some (prec, args1) ->
  let printed := from_option (fun y => chr "." :: print_amount y) [] x in
  reads p (printed ++ l) -> attrs bit width (-1) dw 0 a -> (length printed + length l <= k)%nat ->
  let prec' := match prec with Some q => if q <? 0 then None else Some q | None => None end in
  (forall k' st' a' dp, (length l <= k')%nat -> before_size st' ->
     attrs bit width (default (-1) prec') dw dp a' ->
     from_option (fun q => 0 <= q <= SECUREC_MAX_WIDTH_LEN) True prec' ->
     reads (p + Z.of_nat (length printed)) l -> go k' (p + Z.of_nat (length printed)) st' a' args1) ->
  go k p st a args.
Proof.
  intros Hst Hok Hta printed Hr Ha Hk prec' H. unfold printed in *. clear printed. destruct x as [y |]; cbn [from_option id] in *.
  - eapply (go_step k p st a args (chr ".") _ STAT_DOT (set_precision 0 a) args Hr); [done | | |].
    { unfold output_round. cbn [state format stream charsOut formatAttr argList noOutput].
      assert (SecDecodeState (chr ".") st = STAT_DOT) as -> by (destruct Hst as [[-> | ->] | ->]; by vm_compute). done. }
    { rewrite length_app. cbn [length] in Hk. lia. }
    assert (attrs bit width 0 dw 0 (set_precision 0 a)) as Ha' by (destruct Ha; by split).
    pose proof (reads_cons _ _ _ Hr) as Hr'. cbn [length] in H.
    replace (p + Z.of_nat (S (length (print_amount y)))) with (p + 1 + Z.of_nat (length (print_amount y))) in H by lia.
    intros k' Hk'. rewrite length_app in Hk'. destruct y as [ds |]; cbn [print_amount length] in *.
    + injection Hta as [= <- <-]. destruct Hok as [Hds Hm]. assert (0 <= number_of ds) as Hpos by (by apply (number_from_ge 0)).
      eapply (go_precision_digits ds k' (p + 1) STAT_DOT _ args l bit width dw 0); try done; [by left |].
      intros k2 st' a' Hk2 Hst' Ha2 Hr2. unfold prec' in H. replace (number_of ds <? 0) with false in H by lia.
      apply (H k2 st' a' 0); try done.
    + destruct args as [| [v |] args']; try done. cbn in Hta. case_decide as Hv; [| done]. injection Hta as [= <- <-].
      set (b := set_dynPrecision 1 (set_precision (s32 v) (set_precision 0 a))).
      assert (exists a', SecDecodePrecision (chr "*") b = Some a' /\ attrs bit width (default (-1) prec') dw 1 a') as (a' & Ha1 & Ha2).
      { unfold SecDecodePrecision, b, prec'. cbn [dynPrecision set_dynPrecision Z.eqb precision set_precision].
        unfold SECUREC_MAX_WIDTH_LEN, SECUREC_MAX_WIDTH_LEN_DIV_TEN in *. destruct (Z.ltb_spec (s32 v) 0).
        - cbn [precision set_precision]. eexists. split; [done |]. destruct Ha. by split.
        - cbn [precision set_dynPrecision set_precision from_option id]. replace (_ <? s32 v) with false by lia. eexists. split; [done |]. destruct Ha. by split. }
      eapply (go_step k' (p + 1) STAT_DOT _ (Word v :: args') (chr "*") l STAT_PRECIS a' args' Hr'); [done | | done |].
      * unfold output_round. cbn [state format stream charsOut formatAttr argList noOutput].
        assert (SecDecodeState (chr "*") STAT_DOT = STAT_PRECIS) as -> by (by vm_compute).
        change (chr "*" =? chr "*") with true. cbn [va_word]. rewrite !bind_ret. cbn [fst snd]. fold b. by rewrite Ha1.
      * intros k2 Hk2. apply (H k2 STAT_PRECIS a' 1); [done | by right; right | done | | by apply (reads_cons _ _ _ Hr')].
        unfold prec'. destruct (Z.ltb_spec (s32 v) 0); cbn; [done | lia].
  - injection Hta as [= <- <-]. cbn [length] in *. specialize (H k st a 0). rewrite Z.add_0_r in H. apply H; try done. by left.
Qed.

Lemma attrs_size bit width prec dw dp a sz : attrs bit width prec dw dp a ->
  attrs (fun j => bit j || (size_bit sz =? j)) width prec dw dp (if sz is Plain then a else add_flag (2 ^ size_bit sz) a).
Proof.
  intros []. destruct sz; (split; [| done..]); intros j Hj; rewrite <- at_bits0 by done; try (apply add_flag_bit; cbn; lia).
  cbn [size_bit]. replace (-1 =? j) with false by lia. by rewrite orb_false_r.
Qed.

Lemma decode_h a q : SecDecodeSize (G := G) (D := D) (chr "h") a q =
  (b ← at_char q "h"; if (b : bool) then mret (true, add_flag (2 ^ 13) a, q + 1) else mret (true, add_flag (2 ^ 5) a, q)).
Proof. done. Qed.
Lemma decode_l a q : SecDecodeSize (G := G) (D := D) (chr "l") a q =
  (b ← at_char q "l"; if (b : bool) then mret (true, add_flag (2 ^ 12) a, q + 1) else mret (true, add_flag (2 ^ 4) a, q)).
Proof. done. Qed.
Lemma wp_at_char q c1 c2 l (Q1 : bool -> world G D -> Prop) : reads q (c1 :: l) -> Q1 (c1 =? chr c2) w -> wp (at_char q c2) Q1 w.
Proof. intros Hr HQ. apply wp_bind. eapply wp_format; [exact Hr | exact Hw |]. by apply wp_ret. Qed.

Lemma go_size_step k p st a args ch l a1 q : before_size st -> In ch (chars "hljzt") -> reads p (ch :: l) -> (S (length l) <= k)%nat ->
  wp (SecDecodeSize ch a (p + 1)) (fun r w' => r = (true, a1, q) /\ w' = w) w ->
  (forall k', (length l <= k')%nat -> go k' q STAT_SIZE a1 args) -> go k p st a args.
Proof.
  intros Hst Hch Hr Hk Hwp Hgo. destruct k as [| k1]; [lia |]. unfold go. eapply wp_round; [exact Hw | exact Hr | | done |].
  { intros ->. cbn in Hch. intuition discriminate. }
  assert (SecDecodeState ch st = STAT_SIZE) as Hs.
  { destruct Hst as [[[-> | ->] | ->] | [-> | ->]]; cbn in Hch; repeat destruct Hch as [<- | Hch]; done. }
  unfold output_round. cbn [state format stream charsOut formatAttr argList noOutput]. rewrite Hs. apply wp_bind.
  eapply wp_mono; [exact Hwp |]. cbv beta. intros r w' [-> ->]. apply wp_ret. apply Hgo. lia.
Qed.

(** A size of one letter or two. *)
Lemma go_size sz cv k p st a args l bit width prec dw dp : before_size st ->
  reads p (print_size sz ++ conv_char cv :: l) -> attrs bit width prec dw dp a ->
  (length (print_size sz) + S (length l) <= k)%nat ->
  (forall k' st' a', (S (length l) <= k')%nat -> before_letter st' -> attrs (fun j => bit j || (size_bit sz =? j)) width prec dw dp a' ->
     reads (p + Z.of_nat (length (print_size sz))) (conv_char cv :: l) -> go k' (p + Z.of_nat (length (print_size sz))) st' a' args) ->
  go k p st a args.
Proof.
  intros Hst Hr Ha Hk H. pose proof (attrs_size _ _ _ _ _ _ sz Ha) as Ha'.
  assert (forall ch k', print_size sz = [ch] -> (S (length l) <= k')%nat -> reads p (ch :: conv_char cv :: l) -> sz <> Plain ->
    go k' (p + 1) STAT_SIZE (add_flag (2 ^ size_bit sz) a) args) as H1.
  { intros ch k' E Hk' Hr1 Hne. rewrite E in H. apply H; [done | by right | by destruct sz | by apply (reads_cons _ _ _ Hr1)]. }
  assert (forall ch1 ch2 k', print_size sz = [ch1; ch2] -> (S (length l) <= k')%nat -> reads p (ch1 :: ch2 :: conv_char cv :: l) -> sz <> Plain ->
    go k' (p + 1 + 1) STAT_SIZE (add_flag (2 ^ size_bit sz) a) args) as H2.
  { intros ch1 ch2 k' E Hk' Hr1 Hne. rewrite E in H. rewrite <- Z.add_assoc. apply H; [done | by right | by destruct sz |].
    change (p + Z.of_nat (length [ch1; ch2])) with (p + (1 + 1)). rewrite Z.add_assoc. apply (reads_cons _ ch2). by apply (reads_cons _ ch1). }
  destruct sz; cbn [size_bit] in *.
  - pose proof (reads_cons p (chr "h") (chr "h" :: conv_char cv :: l) Hr) as Hr2.
    apply (go_size_step k p st a args (chr "h") (chr "h" :: conv_char cv :: l) (add_flag (2 ^ 13) a) (p + 1 + 1)); try done; [by left | |].
    + rewrite decode_h. apply wp_bind. eapply wp_at_char; [exact Hr2 |]. by apply wp_ret.
    + intros k' Hk'. cbn in Hk'. apply (H2 (chr "h") (chr "h")); [done | lia | done | done].
  - pose proof (reads_cons p (chr "h") (conv_char cv :: l) Hr) as Hr2.
    apply (go_size_step k p st a args (chr "h") (conv_char cv :: l) (add_flag (2 ^ 5) a) (p + 1)); try done; [by left | |].
    + rewrite decode_h. apply wp_bind. eapply wp_at_char; [exact Hr2 |]. destruct cv; by apply wp_ret.
    + intros k' Hk'. by apply (H1 (chr "h")).
  - specialize (H k st a). cbn [print_size chars length] in H. rewrite Z.add_0_r in H. apply H; [done | by left | done | done].
  - pose proof (reads_cons p (chr "l") (conv_char cv :: l) Hr) as Hr2.
    apply (go_size_step k p st a args (chr "l") (conv_char cv :: l) (add_flag (2 ^ 4) a) (p + 1)); try done; [by right; left | |].
    + rewrite decode_l. apply wp_bind. eapply wp_at_char; [exact Hr2 |]. destruct cv; by apply wp_ret.
    + intros k' Hk'. by apply (H1 (chr "l")).
  - pose proof (reads_cons p (chr "l") (chr "l" :: conv_char cv :: l) Hr) as Hr2.
    apply (go_size_step k p st a args (chr "l") (chr "l" :: conv_char cv :: l) (add_flag (2 ^ 12) a) (p + 1 + 1)); try done; [by right; left | |].
    + rewrite decode_l. apply wp_bind. eapply wp_at_char; [exact Hr2 |]. by apply wp_ret.
    + intros k' Hk'. cbn in Hk'. apply (H2 (chr "l") (chr "l")); [done | lia | done | done].
  - apply (go_size_step k p st a args (chr "j") (conv_char cv :: l) (add_flag (2 ^ 18) a) (p + 1)); try done; [by do 2 right; left |].
    intros k' Hk'. by apply (H1 (chr "j")).
  - apply (go_size_step k p st a args (chr "z") (conv_char cv :: l) (add_flag (2 ^ 17) a) (p + 1)); try done; [by do 3 right; left |].
    intros k' Hk'. by apply (H1 (chr "z")).
  - apply (go_size_step k p st a args (chr "t") (conv_char cv :: l) (add_flag (2 ^ 16) a) (p + 1)); try done; [by do 4 right; left |].
    intros k' Hk'. by apply (H1 (chr "t")).
Qed.
End Directive.
End Reading.
