(* ===== verification/PrintfOutProps.v ===== *)
(** * PrintfOutProps: formatted output writes what the format means, as far as there is room *)
From stdpp Require Import prelude gmap list strings.
From Stdlib Require Import ZArith Lia.
From S2P Require Import Prelude Hw Mem Securec Printf PrintfSpec PrintfProps PrintfConv PrintfLoop.
Local Open Scope Z_scope.

Section Output.
Context {G D : Type} `{MD : Machine D} `{HM : !Has G mem} `{LC : Libc}.
Implicit Types (w : world G D).
Context (w0 : world G D) (dest : Z) (n fuel : nat).
Context (Hmap : mapped (memof w0) dest (Z.of_nat n)) (Hbytes : bytes (memof w0)).

(** ** The letter of a directive *)
Lemma field_fits width left zero pre xs : Forall (fits 8) pre -> Forall (fits 8) xs -> Forall (fits 8) (field width left zero pre xs).
Proof. intros Hp Hx. unfold field. destruct left, zero; rewrite ?Forall_app; split_and!; try done; by apply Forall_replicate. Qed.

Lemma ready_fits width left o a : ready w0 dest n width left o a -> Forall (fits 8) o.
Proof. intros (zero & pre & xs & _ & Hx & _ & _ & _ & _ & _ & Hp & _ & _ & _ & ->). by apply field_fits. Qed.

Lemma wp_put_ready width left o a out s c w : ready w0 dest n width left o a -> written w0 dest n out s c w ->
  wp (put_out s (set_padding (fldWidth a - textLen a - prefixLen a) a) c) (fun r w' => written w0 dest n (out ++ o) r.1 r.2 w') w.
Proof.
  intros (zero & pre & xs & Ht & Hx & Hl & Hlen & Hwide & Hpl & Hpre & Hpf & <- & <- & <- & ->) Hw.
  by apply (write_field w0 dest n Hmap Hbytes (set_padding _ a)).
Qed.

(** The integer conversions, and the two others. *)
Lemma output_type_numeric cv p s c a args : numeric cv ->
  output_type fuel (conv_char cv) (Output p s c STAT_TYPE a args 0) =
  (r ← (x ← convert_number (G := G) (D := D) (conv_char cv) a args; mret (Output p s c STAT_TYPE x.1 x.2 0));
   if noOutput r =? 0 then
     let a := formatAttr r in
     let a := set_padding (fldWidth a - textLen a - prefixLen a) a in
     x ← put_out (stream r) a (charsOut r);
     mret (Output (format r) x.1 x.2 (state r) a (argList r) (noOutput r))
   else mret r).
Proof. intros [Hc Hs]. by destruct cv. Qed.

Definition arg_text (d : directive) (width : Z) (left : bool) (prec : option Z) (v : Z) (o : list Z) : Prop :=
  match d_conv d with
  | Cc => o = field width left false [] [u8 v]
  | Cs => exists s, string_arg (memof w0) (outside dest n fuel) v prec s /\ o = field width left false [] s
  | _ => o = render_number d width left prec v
  end.

Definition after_letter p args out o' w : Prop :=
  exists s c a, o' = Output p s c STAT_TYPE a args 0 /\ written w0 dest n out s c w.

Lemma wp_letter d left width prec a v args o p s c out w : parsed d left width prec a ->
  (d_conv d = Cc \/ d_conv d = Cs -> d_size d = Plain) -> arg_text d width left prec v o -> written w0 dest n out s c w ->
  wp (output_type fuel (conv_char (d_conv d)) (Output p s c STAT_TYPE a (Word v :: args) 0)) (fun o' w' => after_letter p args (out ++ o) o' w' /\ Forall (fits 8) o) w.
Proof.
  intros Hp Hsz Ho Hw.
  assert (forall a', ready w0 dest n width left o a' ->
    wp (x ← put_out s (set_padding (fldWidth a' - textLen a' - prefixLen a') a') c;
        mret (Output p x.1 x.2 STAT_TYPE (set_padding (fldWidth a' - textLen a' - prefixLen a') a') args 0))
      (fun o' w' => after_letter p args (out ++ o) o' w' /\ Forall (fits 8) o) w) as Hput.
  { intros a' Ha'. apply wp_bind. eapply wp_mono; [by eapply wp_put_ready |]. cbv beta. intros r w' Hr. apply wp_ret.
    split; [by exists r.1, r.2, (set_padding (fldWidth a' - textLen a' - prefixLen a') a') | by eapply ready_fits]. }
  destruct (decide (d_conv d = Cc)) as [Hc | Hc]; [| destruct (decide (d_conv d = Cs)) as [Hs | Hs]].
  - unfold arg_text in Ho. rewrite Hc in Ho |- *. subst o. apply wp_bind, wp_bind, wp_ret. cbn [fst snd].
    apply wp_ret, Hput. eapply ready_char; [done | by apply Hsz; left].
  - unfold arg_text in Ho. rewrite Hs in Ho |- *. destruct Ho as (t & Ht & ->). apply wp_bind, wp_bind, wp_ret. cbn [fst snd].
    apply wp_bind. eapply (wp_string w0 dest n fuel d left width prec a v t); [done | by apply Hsz; right | done | done | done |].
    intros a' Ha'. by apply wp_ret, Hput.
  - rewrite output_type_numeric by done. apply wp_bind, wp_bind.
    eapply (wp_convert_number w0 dest n d left width prec); [done | done |]. intros a' Ha'. apply wp_ret. cbn [noOutput fst snd].
    apply Hput. unfold arg_text in Ho. destruct (d_conv d); try done; by subst o.
Qed.

(** ** Items *)
Abbreviation run k o Q := (wp (loop k (round fuel) o) Q).

Lemma letter_state cv st : before_letter st -> SecDecodeState (conv_char cv) st = STAT_TYPE.
Proof. intros [[[[-> | ->] | ->] | [-> | ->]] | ->]; by destruct cv. Qed.

Lemma wp_directive d args o args' l p s c out w st a no k (Q : Z * SecPrintfStream -> world G D -> Prop) :
  directive_ok d -> render_directive (memof w0) (outside dest n fuel) d args o args' -> st = STAT_NORMAL \/ st = STAT_TYPE ->
  reads w0 dest n p (print_directive d ++ l) -> written w0 dest n out s c w -> 0 <= c -> (length (print_directive d ++ l) <= k)%nat ->
  (forall k' s' c' a' w', Forall (fits 8) o -> (length l <= k')%nat -> written w0 dest n (out ++ o) s' c' w' ->
     reads w0 dest n (p + Z.of_nat (length (print_directive d))) l ->
     run k' (Output (p + Z.of_nat (length (print_directive d))) s' c' STAT_TYPE a' args' 0) Q w') ->
  run k (Output p s c st a args no) Q w.
Proof.
  intros (Hokw & Hokp & Hsz) [args0 width args1 prec args2 v args3 o' Hta1 Hta2 -> w' left prec' Ho'] Hst Hr Hw Hc Hk H.
  set (pw := from_option print_amount [] (d_width d)) in *.
  set (pp := from_option (fun y => chr "." :: print_amount y) [] (d_precision d)) in *.
  assert (Hlen : length (print_directive d) = (1 + length (d_flags d) + length pw + length pp + length (print_size (d_size d)) + 1)%nat).
  { unfold print_directive. rewrite !length_app, length_fmap. cbn [length]. unfold pw, pp. lia. }
  rewrite length_app in Hk. unfold print_directive in Hr. rewrite <- !app_assoc in Hr. fold pw pp in Hr. cbn [app] in Hr.
  destruct k as [| k]; [lia |]. eapply wp_round; [exact Hw | exact Hr | done | done |].
  unfold output_round. cbn [state format stream charsOut formatAttr argList noOutput].
  assert (SecDecodeState (chr "%") st = STAT_PERCENT) as -> by (destruct Hst as [-> | ->]; by vm_compute). apply wp_ret.
  pose proof (reads_cons _ _ _ _ _ _ Hr) as Hr1.
  eapply (go_flags w0 dest n fuel out s c w Q Hw Hc (d_flags d) k (p + 1) STAT_PERCENT _ args0 _ (fun _ => false)); [by left | exact Hr1 | | |].
  { split; try done. intros j _. apply Z.testbit_0_l. }
  { rewrite !length_app. cbn [length]. lia. }
  intros k1 st1 a1 Hk1 Hst1 Ha1 Hr2. rewrite !length_app in Hk1. cbn [length] in Hk1.
  eapply (go_width w0 dest n fuel out s c w Q Hw Hc (d_width d) width k1 _ st1 a1 args0 args1); [done | done | done | exact Hr2 | exact Ha1 | |].
  { fold pw. rewrite !length_app. cbn [length]. lia. }
  intros k2 st2 a2 dw Hk2 Hst2 Ha2 Hr3. rewrite !length_app in Hk2. cbn [length] in Hk2. fold pw in Hr3 |- *.
  eapply (go_precision w0 dest n fuel out s c w Q Hw Hc (d_precision d) prec k2 _ st2 a2 args1 (Word v :: args3)); [done | done | done | exact Hr3 | exact Ha2 | |].
  { fold pp. rewrite !length_app. cbn [length]. lia. }
  cbv zeta. fold prec'. intros k3 st3 a3 dp Hk3 Hst3 Ha3 Hpos Hr4. rewrite length_app in Hk3. cbn [length] in Hk3. fold pp in Hr4 |- *.
  eapply (go_size w0 dest n fuel out s c w Q Hw Hc (d_size d) (d_conv d) k3 _ st3 a3); [done | exact Hr4 | exact Ha3 | lia |].
  intros k4 st4 a4 Hk4 Hst4 Ha4 Hr5. destruct k4 as [| k4]; [lia |]. unfold go.
  eapply wp_round; [exact Hw | exact Hr5 | by destruct (d_conv d) | done |].
  unfold output_round. cbn [state format stream charsOut formatAttr argList noOutput]. rewrite letter_state by done.
  pose proof (reads_cons _ _ _ _ _ _ Hr5) as Hr6. apply wp_bind.
  eapply wp_mono; [eapply (wp_letter d left (Z.abs w') prec' a4 v args3 o'); [| done | | exact Hw] |].
  { eapply (attrs_parsed d left (w' <? 0)); [exact Ha4 | done | done]. }
  { unfold arg_text. by destruct (d_conv d). }
  cbv beta. intros o2 w2 [(s2 & c2 & a5 & -> & Hw2) Hf]. apply wp_ret.
  replace (p + 1 + Z.of_nat (length (d_flags d)) + Z.of_nat (length pw) + Z.of_nat (length pp) + Z.of_nat (length (print_size (d_size d))) + 1)
    with (p + Z.of_nat (length (print_directive d))) in * by lia.
  apply H; [done | lia | done | done].
Qed.

Lemma write_char s ch c out w : fits 8 ch -> written w0 dest n out s c w ->
  wp (SecWriteChar s ch c) (fun r w' => written w0 dest n (out ++ [ch]) r.1 r.2 w') w.
Proof.
  intros Hf Hw. unfold SecWriteChar. destruct (decide (length out < n)%nat) as [Hlt | Hge].
  - pose proof (wr_fits _ _ _ _ _ _ _ Hw ltac:(lia)) as (Hcnt & _ & Hcc). replace (0 <=? count s - 1) with true by lia.
    destruct (written_snoc w0 dest n Hmap out s c w ch Hw Hf Hlt (c + 1) ltac:(lia)) as [Hw' Hm].
    apply wp_bind. unfold st8. apply wp_stn; [exact Hm |]. rewrite setm_st8 by (by apply wrap_id). by apply wp_ret.
  - assert (count s - 1 < 0) as Hneg.
    { destruct (decide (length out = n)); [pose proof (wr_fits _ _ _ _ _ _ _ Hw ltac:(lia)); lia |].
      pose proof (wr_full _ _ _ _ _ _ _ Hw ltac:(lia)). lia. }
    replace (0 <=? count s - 1) with false by lia. apply wp_ret. eapply written_over; [done | by constructor | lia | done | done].
Qed.

Lemma render_number_fits d width left prec v : Forall (fits 8) (render_number d width left prec v).
Proof.
  unfold render_number.
  assert (forall b : bool, Forall (fits 8) (if b then chars "0x" else []) /\ Forall (fits 8) (if b then chars "0X" else [])) as Hpre
    by (intros []; repeat constructor; done).
  assert (forall (b : bool) l, Forall (fits 8) l -> Forall (fits 8) (if b then chr "0" :: l else l)) as Hoct
    by (intros [] l Hl; [by constructor | done]).
  destruct (d_conv d); try (apply field_fits; [first [apply sign_fits | apply Hpre | done] | first [apply body_fits | apply Hoct, body_fits]]);
    destruct (u64 v =? 0); apply field_fits; first [by repeat constructor | apply body_fits].
Qed.

Lemma string_arg_fits p prec t : string_arg (memof w0) (outside dest n fuel) p prec t -> Forall (fits 8) t.
Proof.
  unfold string_arg. destruct (p =? NULL); [intros ->; apply Forall_take; by repeat constructor |].
  intros (_ & Hr & _). by eapply rd_bytes.
Qed.

Lemma render_fits its (args : list (arg real)) o : Forall item_ok its -> render (memof w0) (outside dest n fuel) its args o -> Forall (fits 8) o.
Proof.
  intros Hok Hr. induction Hr as [| ch its args o Hr IH | its args o Hr IH | d its args o1 args1 o Hd Hr IH];
    [done | | |]; apply Forall_cons_1 in Hok as [Hi Hok]; specialize (IH Hok).
  - constructor; [apply Hi | done].
  - by constructor.
  - apply Forall_app. split; [| done]. destruct Hd as [args0 width args1' prec args2 v args3 o' _ _ _ w' left prec' Ho'].
    destruct (d_conv d); try (subst o'; apply render_number_fits).
    + subst o'. apply field_fits; [done |]. constructor; [by apply wrap_fits | done].
    + destruct Ho' as (t & Ht & ->). apply field_fits; [done |]. by eapply string_arg_fits.
Qed.

(** After the end of the room nothing more is written, nor read. *)
Lemma wp_stopped ch l p s c out o w st a args no k (Q : Z * SecPrintfStream -> world G D -> Prop) :
  reads w0 dest n p (ch :: l) -> st = STAT_NORMAL \/ st = STAT_TYPE -> written w0 dest n out s c w -> Forall (fits 8) o ->
  c < 0 \/ ch = 0 /\ o = [] -> (1 <= k)%nat -> (written w0 dest n (out ++ o) s c w -> Q (c, s) w) ->
  run k (Output p s c st a args no) Q w.
Proof.
  intros Hr Hst Hw Hf Hend Hk HQ. destruct k as [| k]; [lia |]. rewrite loop_S. apply wp_bind, wp_bind. cbn [format].
  eapply wp_format; [exact Hr | exact Hw |]. cbn [charsOut state stream].
  assert (negb (ch =? 0) && (0 <=? c) = false) as -> by (destruct Hend as [Hc | [-> _]]; [rewrite (proj2 (Z.leb_gt 0 c)) by lia; apply andb_false_r | done]).
  apply wp_ret, wp_ret. assert (written w0 dest n (out ++ o) s c w) as Hw'.
  { destruct Hend as [Hc | [_ ->]]; [| by rewrite app_nil_r]. apply written_app_full; [done | done |]. apply not_le. intros Hle.
    pose proof (wr_fits _ _ _ _ _ _ _ Hw Hle). lia. }
  specialize (HQ Hw'). destruct Hst as [-> | ->]; [by rewrite decide_True | by rewrite decide_False, decide_True].
Qed.

Lemma wp_items its (args : list (arg real)) o : render (memof w0) (outside dest n fuel) its args o ->
  forall k p s c out w st a no, Forall item_ok its -> st = STAT_NORMAL \/ st = STAT_TYPE ->
  reads w0 dest n p (print its ++ [0]) -> written w0 dest n out s c w -> (S (length (print its)) <= k)%nat ->
  run k (Output p s c st a args no) (fun r w' => written w0 dest n (out ++ o) r.2 r.1 w') w.
Proof.
  intros Hren. induction Hren as [args0 | ch its args o Hren IH | its args o Hren IH | d its args o1 args1 o Hd Hren IH];
    intros k p s c out w st a no Hok Hst Hr Hw Hk.
  { eapply (wp_stopped 0 []); [exact Hr | done | exact Hw | done | by right | lia |]. done. }
  all: destruct (decide (0 <= c)) as [Hc | Hc].
  2, 4, 6: match type of Hr with reads _ _ _ _ ?x => destruct x as [| ch0 l0] eqn:E end; [by apply app_nil in E as [_ ?] |];
    eapply (wp_stopped ch0 l0); [exact Hr | done | exact Hw | | left; lia | lia | done];
    eapply render_fits; [exact Hok | by econstructor].
  all: apply Forall_cons_1 in Hok as [Hi Hok].
  - destruct Hi as (Hf & Hnz & Hnp). change (print (Lit ch :: its)) with (ch :: print its) in *. destruct k as [| k]; [cbn in Hk; lia |].
    eapply wp_round; [exact Hw | exact Hr | done | done |].
    unfold output_round. cbn [state format stream charsOut formatAttr argList noOutput]. rewrite literal_state by done.
    apply wp_bind. eapply wp_mono; [by apply write_char |]. cbv beta. intros r w' Hw'. apply wp_ret.
    replace (out ++ ch :: o) with ((out ++ [ch]) ++ o) by (by rewrite <- app_assoc).
    apply IH; [done | by left | by apply (reads_cons _ _ _ _ ch) | done |]. cbn [length] in Hk. lia.
  - change (print (Percent :: its)) with (chr "%" :: chr "%" :: print its) in *. destruct k as [| [| k]]; [cbn in Hk; lia | cbn in Hk; lia |].
    pose proof (reads_cons _ _ _ _ (chr "%") _ Hr) as Hr1.
    eapply wp_round; [exact Hw | exact Hr | done | done |].
    unfold output_round. cbn [state format stream charsOut formatAttr argList noOutput].
    assert (SecDecodeState (chr "%") st = STAT_PERCENT) as -> by (destruct Hst as [-> | ->]; by vm_compute). apply wp_ret.
    eapply wp_round; [exact Hw | exact Hr1 | done | done |].
    unfold output_round. cbn [state format stream charsOut formatAttr argList noOutput].
    assert (SecDecodeState (chr "%") STAT_PERCENT = STAT_NORMAL) as -> by (by vm_compute).
    apply wp_bind. eapply wp_mono; [by apply write_char |]. cbv beta. intros r w' Hw'. apply wp_ret.
    replace (out ++ chr "%" :: o) with ((out ++ [chr "%"]) ++ o) by (by rewrite <- app_assoc).
    apply IH; [done | by left | by apply (reads_cons _ _ _ _ (chr "%")) | done |]. cbn [length] in Hk. lia.
  - change (print (Dir d :: its)) with (print_directive d ++ print its) in *. rewrite <- app_assoc in Hr.
    eapply wp_directive; [done | done | done | exact Hr | exact Hw | done | rewrite !length_app in *; cbn [length]; lia |].
    intros k' s' c' a' w' Hf Hk' Hw' Hr'. rewrite app_assoc. apply IH; [done | by right | done | done |]. rewrite length_app in Hk'. cbn in Hk'. lia.
Qed.

Lemma written_nil w c : w = w0 -> c = 0 -> written w0 dest n [] (Stream (Z.of_nat n) dest) c w.
Proof.
  intros -> ->. split; [done | | intros _; cbn; lia | cbn; lia]. rewrite take_nil. cbn [wr]. by rewrite setm_memof.
Qed.

(** What a caller gives: a well-formed format, its arguments, their text. *)
Record call_ok (fmt : Z) (args : list (arg real)) (its : list item) (o : list Z) : Prop := {
  co_items : Forall item_ok its;
  co_render : render (memof w0) (outside dest n fuel) its args o;
  co_reads : reads w0 dest n fmt (print its ++ [0]);
  co_fuel : (length (print its) < fuel)%nat;
}.

Lemma wp_output fmt args its o : call_ok fmt args its o ->
  wp (SecOutput fuel (Stream (Z.of_nat n) dest) fmt args) (fun r w' => written w0 dest n o r.2 r.1 w') w0.
Proof.
  intros []. change o with ([] ++ o).
  eapply (wp_items its args o co_render0 fuel fmt); [done | by left | done | by apply written_nil | lia].
Qed.

(** ** The destination: as much as there is room for, and a zero *)
Definition bounded (room : nat) (o : list Z) : list Z := take (room - 1) o ++ [0].

Lemma wr_last (m : mem) a l x y : wr (wr m a (l ++ [x])) (a + Z.of_nat (length l)) [y] = wr m a (l ++ [y]).
Proof. rewrite !wr_app. cbn [wr]. by rewrite insert_insert_eq. Qed.

Lemma written_bounded o s c w : (0 < n)%nat -> (n <= length o)%nat -> written w0 dest n o s c w ->
  setm (wr (memof w) (dest + Z.of_nat n - 1) [0]) w = setm (wr (memof w0) dest (bounded n o)) w0.
Proof.
  intros Hn Hle Hw. rewrite (wr_world _ _ _ _ _ _ _ Hw), memof_setm, setm_setm. f_equal. unfold bounded.
  destruct (lookup_lt_is_Some_2 o (n - 1) ltac:(lia)) as [x Hx].
  replace (take n o) with (take (n - 1) o ++ [x]) by (rewrite <- (take_S_r _ _ _ Hx); f_equal; lia).
  replace (dest + Z.of_nat n - 1) with (dest + Z.of_nat (length (take (n - 1) o))) by (rewrite length_take; lia).
  apply wr_last.
Qed.

Lemma wp_vsnprintf_impl fmt args its o (Q : Z -> world G D -> Prop) : call_ok fmt args its o ->
  (0 < n)%nat -> Z.of_nat n <= SECUREC_STRING_MAX_LEN ->
  Q (if (length o <? n)%nat then Z.of_nat (length o) else SECUREC_PRINTF_TRUNCATE) (setm (wr (memof w0) dest (bounded n o)) w0) ->
  wp (SecVsnprintfImpl fuel dest (Z.of_nat n) fmt args) Q w0.
Proof.
  intros Hok Hn Hmax HQ. unfold SecVsnprintfImpl. unfold SECUREC_STRING_MAX_LEN in Hmax. rewrite s32_small by lia.
  apply wp_bind. eapply wp_mono; [by eapply wp_output |]. cbv beta. intros [c s] w Hw. cbn [fst snd] in Hw |- *.
  destruct (Nat.ltb_spec (length o) n) as [Hlt | Hge].
  - pose proof (wr_fits _ _ _ _ _ _ _ Hw ltac:(lia)) as (Hcnt & Hcur & ->). replace (0 <=? Z.of_nat (length o)) with true by lia.
    destruct (written_snoc w0 dest n Hmap o s (Z.of_nat (length o)) w 0 Hw ltac:(by split) Hlt _ eq_refl) as [Hw' Hm].
    apply wp_bind. unfold SecPutZeroChar. replace (0 <=? count s - 1) with true by lia. apply wp_bind. unfold st8.
    apply wp_stn; [exact Hm |]. rewrite setm_st8 by done. apply wp_ret. cbn [fst snd]. apply wp_ret.
    rewrite (wr_world _ _ _ _ _ _ _ Hw'), take_ge by (rewrite ?length_app; cbn [length]; lia).
    replace (bounded n o) with (o ++ [0]) in HQ; [done |]. unfold bounded. by rewrite take_ge by lia.
  - assert (wp (st8 (dest + Z.of_nat n - 1) 0 ;; mret SECUREC_PRINTF_TRUNCATE) Q w) as Hend.
    { apply wp_bind. unfold st8. apply wp_stn.
      - eapply written_mapped; [exact Hw |]. eapply mapped_sub; [exact Hmap | lia | lia].
      - rewrite setm_st8 by done. apply wp_ret. rewrite (written_bounded o s c w Hn Hge Hw). exact HQ. }
    apply wp_bind. destruct (decide (length o = n)) as [E | Hne].
    + pose proof (wr_fits _ _ _ _ _ _ _ Hw ltac:(lia)) as (Hcnt & Hcur & ->). replace (0 <=? Z.of_nat (length o)) with true by lia.
      unfold SecPutZeroChar. replace (0 <=? count s - 1) with false by lia. apply wp_ret. cbn [fst snd count].
      replace (count s - 1 <? 0) with true by lia. exact Hend.
    + pose proof (wr_full _ _ _ _ _ _ _ Hw ltac:(lia)) as [Hcnt ->]. cbn [Z.leb Z.compare]. apply wp_ret. cbn [fst snd].
      replace (count s <? 0) with true by lia. exact Hend.
Qed.
End Output.

(** ** The functions of the library *)
Section Api.
Context {G D : Type} `{MD : Machine D} `{HM : !Has G mem} `{LC : Libc}.
Implicit Types (w : world G D).
Context (fuel : nat) (w0 : world G D) (dest destMax : Z).
Context (Hbytes : bytes (memof w0)) (Hdest : dest <> NULL) (Hmax : 0 < destMax <= SECUREC_STRING_MAX_LEN).

Lemma param_ok fmt : fmt <> NULL -> SECUREC_VSPRINTF_PARAM_ERROR fmt dest destMax SECUREC_STRING_MAX_LEN = false.
Proof. intros Hf. unfold SECUREC_VSPRINTF_PARAM_ERROR. repeat (apply orb_false_intro); lia. Qed.

(** Make the destination empty after [o] was written to it. *)
Lemma wp_empty n o r (Q : Z -> world G D -> Prop) : (0 < n)%nat -> mapped (memof w0) dest (Z.of_nat n) ->
  Q r (setm (wr (wr (memof w0) dest (bounded n o)) dest [0]) w0) ->
  wp (st8 dest 0 ;; mret r) Q (setm (wr (memof w0) dest (bounded n o)) w0).
Proof.
  intros Hn Hm HQ. apply wp_bind. unfold st8. apply wp_stn.
  - rewrite memof_setm. apply mapped_wr. eapply mapped_sub; [exact Hm | lia | lia].
  - rewrite setm_st8 by done. apply wp_ret. by rewrite memof_setm, setm_setm.
Qed.

Lemma vsnprintf_s_ok count' fmt args its o :
  let room := Z.to_nat (if count' <? destMax then count' + 1 else destMax) in
  0 <= count' < SECUREC_STRING_MAX_LEN -> fmt <> NULL -> mapped (memof w0) dest (Z.of_nat room) ->
  call_ok w0 dest room fuel fmt args its o ->
  wp (vsnprintf_s fuel dest destMax count' fmt args) (fun r w =>
    if (length o <? room)%nat then r = Z.of_nat (length o) /\ w = setm (wr (memof w0) dest (o ++ [0])) w0
    else r = -1 /\
      w = setm (if count' <? destMax then wr (memof w0) dest (take (Z.to_nat count') o ++ [0])
                else wr (wr (memof w0) dest (bounded room o)) dest [0]) w0) w0.
Proof.
  intros room Hc Hf Hm Hok. unfold vsnprintf_s, SECUREC_VSNPRINTF_PARAM_ERROR. rewrite param_ok by done.
  replace (_ <? count') with false by lia. cbn [orb].
  assert (0 < room)%nat as Hroom by (unfold room; destruct (count' <? destMax); lia).
  assert ((if count' <? destMax then count' + 1 else destMax) = Z.of_nat room) as -> by (unfold room; destruct (count' <? destMax); lia).
  assert (Z.of_nat room <= SECUREC_STRING_MAX_LEN) as Hrm by (unfold room; destruct (Z.ltb_spec count' destMax); lia).
  assert (count' < destMax -> (room - 1)%nat = Z.to_nat count') as Hrc by (unfold room; destruct (Z.ltb_spec count' destMax); lia).
  apply wp_bind. eapply (wp_vsnprintf_impl w0 dest room fuel Hm Hbytes); [exact Hok | done | done |].
  destruct (Nat.ltb_spec (length o) room) as [Hlt | Hge].
  - replace (Z.of_nat (length o) =? SECUREC_PRINTF_TRUNCATE) with false by (unfold SECUREC_PRINTF_TRUNCATE; lia). rewrite andb_false_r.
    replace (Z.of_nat (length o) <? 0) with false by lia. apply wp_ret. unfold bounded. by rewrite take_ge by lia.
  - destruct (Z.ltb_spec count' destMax).
    + change (SECUREC_PRINTF_TRUNCATE =? SECUREC_PRINTF_TRUNCATE) with true. apply wp_ret. unfold bounded. by rewrite Hrc.
    + cbn [andb]. change (SECUREC_PRINTF_TRUNCATE <? 0) with true. by apply wp_empty.
Qed.

Lemma vsnprintf_truncated_s_ok fmt args its o :
  let room := Z.to_nat destMax in
  fmt <> NULL -> mapped (memof w0) dest destMax -> call_ok w0 dest room fuel fmt args its o ->
  wp (vsnprintf_truncated_s fuel dest destMax fmt args) (fun r w =>
    r = Z.min (Z.of_nat (length o)) (destMax - 1) /\ w = setm (wr (memof w0) dest (bounded room o)) w0) w0.
Proof.
  intros room Hf Hm Hok. unfold vsnprintf_truncated_s. rewrite param_ok by done.
  assert (destMax = Z.of_nat room) as E by (unfold room; lia). rewrite E in Hm |- *.
  apply wp_bind. eapply (wp_vsnprintf_impl w0 dest room fuel Hm Hbytes); [exact Hok | lia | lia |].
  destruct (Nat.ltb_spec (length o) room) as [Hlt | Hge].
  - replace (Z.of_nat (length o) <? 0) with false by lia. apply wp_ret. split; [lia | done].
  - change (SECUREC_PRINTF_TRUNCATE <? 0) with true. change (SECUREC_PRINTF_TRUNCATE =? SECUREC_PRINTF_TRUNCATE) with true.
    apply wp_ret. split; [lia | done].
Qed.

Lemma vsprintf_s_ok fmt args its o :
  let room := Z.to_nat destMax in
  fmt <> NULL -> mapped (memof w0) dest destMax -> call_ok w0 dest room fuel fmt args its o ->
  wp (vsprintf_s fuel dest destMax fmt args) (fun r w =>
    if (length o <? room)%nat then r = Z.of_nat (length o) /\ w = setm (wr (memof w0) dest (o ++ [0])) w0
    else r = -1 /\ w = setm (wr (wr (memof w0) dest (bounded room o)) dest [0]) w0) w0.
Proof.
  intros room Hf Hm Hok. unfold vsprintf_s. rewrite param_ok by done.
  assert (destMax = Z.of_nat room) as E by (unfold room; lia). rewrite E in Hm |- *.
  apply wp_bind. eapply (wp_vsnprintf_impl w0 dest room fuel Hm Hbytes); [exact Hok | lia | lia |].
  destruct (Nat.ltb_spec (length o) room) as [Hlt | Hge].
  - replace (Z.of_nat (length o) <? 0) with false by lia. apply wp_ret. unfold bounded. by rewrite take_ge by lia.
  - change (SECUREC_PRINTF_TRUNCATE <? 0) with true. apply wp_empty; [lia | done | done].
Qed.
End Api.
