(* ===== verification/PrintfContract.v ===== *)
(** * PrintfContract: what the functions of formatted output promise, with examples *)
From stdpp Require Import prelude gmap list strings.
From Stdlib Require Import ZArith Lia.
From S2P Require Import Prelude Hw Mem Securec Printf PrintfSpec PrintfProps PrintfConv PrintfLoop PrintfOutProps.
Local Open Scope Z_scope.

(** ** Decimal numerals *)
Lemma number_from_app v l1 l2 : number_from v (l1 ++ l2) = number_from (number_from v l1) l2.
Proof. apply foldl_app. Qed.

Lemma decimal_digit d : 0 <= d < 10 -> digit_char false d = chr "0" + d.
Proof.
  intros Hd. assert (exists k, d = Z.of_nat k /\ (k < 10)%nat) as (k & -> & Hk) by (exists (Z.to_nat d); lia).
  do 10 (destruct k as [| k]; [done |]). lia.
Qed.

Lemma decimal_numeral k v : 0 <= v < 10 ^ Z.of_nat k ->
  let ds := digit_char false <$> numeral_aux k 10 v in
  Forall is_digit ds /\ number_of ds = v /\ head ds <> Some (chr "0").
Proof.
  revert v. induction k as [| k IH]; intros v Hv; cbn [numeral_aux]; [cbn in *; split_and!; [done | lia | done] |].
  destruct (Z.eqb_spec v 0) as [-> | Hne]; [done |]. rewrite Nat2Z.inj_succ, Z.pow_succ_r in Hv by lia.
  destruct (IH (v / 10)) as (Hd & Hn & Hh); [split; [apply Z.div_pos; lia | apply Z.div_lt_upper_bound; lia] |].
  pose proof (Z.mod_pos_bound v 10 ltac:(lia)) as Hm. pose proof (Z.div_mod v 10 ltac:(lia)) as Hdm.
  rewrite fmap_app. cbn [fmap list_fmap]. rewrite decimal_digit by done. split_and!.
  - apply Forall_app. split; [done |]. constructor; [| done]. unfold is_digit. change (chr "9") with (chr "0" + 9). lia.
  - unfold number_of in *. rewrite foldl_app, Hn. cbn [foldl]. lia.
  - destruct (digit_char false <$> numeral_aux k 10 (v / 10)) as [| c ds] eqn:E; [| exact Hh].
    cbn in Hn. cbn [app head]. intros [= E2]. assert (v mod 10 = 0) by lia. lia.
Qed.

Section Contract.
Context {G D : Type} `{MD : Machine D} `{HM : !Has G mem} `{LC : Libc}.
Implicit Types (w : world G D).

(** A number that [SecNumber64ToDecString] puts into the empty buffer can
    be read back: the digits have the number's value, without leading zero. *)
Theorem decimal_reads_back number a w : 0 < number < 2 ^ 64 -> text a = Buf [] ->
  wp (SecNumber64ToDecString number a) (fun a' w' => w' = w /\
    exists ds, text a' = Buf ds /\ Forall is_digit ds /\ number_of ds = number /\ head ds <> Some (chr "0")) w.
Proof.
  intros Hn Ht. assert (number < 10 ^ Z.of_nat 64) as H10 by (eapply Z.lt_trans; [apply Hn | done]).
  apply (wp_number_loop 64 false _ 10 number a []); [done | lia | lia | done | cbn; lia |].
  split; [done |]. rewrite app_nil_r. eexists. split; [done |]. apply decimal_numeral. lia.
Qed.

Context (fuel : nat) (w0 : world G D) (dest destMax : Z).
Context (Hbytes : bytes (memof w0)) (Hdest : dest <> NULL) (Hmax : 0 < destMax <= SECUREC_STRING_MAX_LEN).

(** C6: Formatted output of at most [count'] characters: when the text that
    the format stands for fits, with its terminator, [vsnprintf_s] writes
    exactly it and returns its length; nothing else in memory changes.
    Otherwise it fails: with the first [count'] characters in the
    destination, or, when the destination is what was too small, with an empty
    string.  The format is any with integers, characters, strings, flags,
    widths, precisions and sizes, from the format or the arguments. *)
Theorem vsnprintf_s_renders count' fmt args its o :
  let room := Z.to_nat (if count' <? destMax then count' + 1 else destMax) in
  0 <= count' < SECUREC_STRING_MAX_LEN -> fmt <> NULL -> mapped (memof w0) dest (Z.of_nat room) ->
  call_ok w0 dest room fuel fmt args its o ->
  wp (vsnprintf_s fuel dest destMax count' fmt args) (fun r w =>
    if (length o <? room)%nat then r = Z.of_nat (length o) /\ w = setm (wr (memof w0) dest (o ++ [0])) w0
    else r = -1 /\
      w = setm (if count' <? destMax then wr (memof w0) dest (take (Z.to_nat count') o ++ [0])
                else wr (wr (memof w0) dest (bounded room o)) dest [0]) w0) w0.
Proof. by apply vsnprintf_s_ok. Qed.

(** [vsnprintf_truncated_s] writes as much of the text as fits in front
    of its terminator, and returns how many characters that is; nothing else
    in memory changes. *)
Theorem vsnprintf_truncated_s_truncates fmt args its o :
  let room := Z.to_nat destMax in
  fmt <> NULL -> mapped (memof w0) dest destMax -> call_ok w0 dest room fuel fmt args its o ->
  wp (vsnprintf_truncated_s fuel dest destMax fmt args) (fun r w =>
    r = Z.min (Z.of_nat (length o)) (destMax - 1) /\ w = setm (wr (memof w0) dest (bounded room o)) w0) w0.
Proof. by apply vsnprintf_truncated_s_ok. Qed.
End Contract.

(** ** Examples *)
(** A C library without floating point numbers. *)
#[export] Instance no_floats : Libc := {| real := Empty_set; vsprintf_real _ _ x _ := match x with end; wctomb _ := None |}.

Definition ex_items : list item :=
  [Dir (Directive [] None None Plain Cs); Lit (chr "=");
   Dir (Directive [Minus] (Some (Digits (chars "4"))) None Plain Cd); Lit (chr "|");
   Dir (Directive [Hash; Zero] (Some FromArg) None HH Cx); Percent].
Definition ex_args : list (arg real) := [Word 64; Word (2 ^ 32 - 7); Word 6; Word 511].
Definition ex_text : list Z := chars "ab=-7  |0x00ff%".
Definition ex_mem : mem :=
  wr (wr (wr ∅ 16 (chars "%s=%-4d|%#0*hhx%%" ++ [0])) 64 (chars "ab" ++ [0])) 100 (replicate 32 170).
Definition ex_world : world mem ram := World ex_mem ram0 [].

Example ex_print : print ex_items = chars "%s=%-4d|%#0*hhx%%".
Proof. reflexivity. Qed.

Lemma ex_call room : (room <= 32)%nat -> call_ok ex_world 100 room 40 16 ex_args ex_items ex_text.
Proof.
  intros Hr. split.
  - repeat constructor; try done; cbn; try lia; try (by intros []). exists (chr "4"), []. done.
  - apply (render_dir _ _ _ _ _ (chars "ab") [Word (2 ^ 32 - 7); Word 6; Word 511] (chars "=-7  |0x00ff%")).
    { econstructor; [reflexivity .. |]. exists (chars "ab"). split; [| reflexivity]. split_and!; try (by repeat constructor); cbn; try (split; [unfold apart | ]); cbn; lia. }
    apply render_lit, (render_dir _ _ _ _ _ (chars "-7  ") [Word 6; Word 511] (chars "|0x00ff%")); [by econstructor |].
    apply render_lit, (render_dir _ _ _ _ _ (chars "0x00ff") [] (chars "%")); [by econstructor |]. apply render_percent, render_end.
  - rewrite ex_print. split; [by vm_compute |]. unfold apart. cbn. lia.
  - rewrite ex_print. cbn. lia.
Qed.

Lemma ex_bytes : bytes (memof ex_world).
Proof.
  unfold ex_world, ex_mem. cbn [memof glob hget Has_self].
  repeat apply bytes_wr; try (intros i b Hb; by rewrite lookup_empty in Hb); repeat constructor; done.
Qed.

Lemma vsnprintf_s_renders_witness :
  wp (vsnprintf_s (D := ram) 40 100 32 31 16 ex_args) (fun r w => r = 15 /\ rd (memof w) 100 16 = Some (ex_text ++ [0])) ex_world /\
  wp (vsnprintf_s (D := ram) 40 100 8 100 16 ex_args) (fun r w => r = -1 /\ rd (memof w) 100 1 = Some [0]) ex_world.
Proof.
  split.
  - eapply wp_mono; [apply (vsnprintf_s_renders 40 ex_world 100 32 ex_bytes ltac:(done) ltac:(done) 31 16 ex_args ex_items ex_text);
      [done | done | | apply ex_call; cbn; lia] |].
    + intros i Hi. cbn in Hi. unfold ex_world, ex_mem. cbn [memof glob hget Has_self]. rewrite lookup_wr. rewrite decide_True by (cbn; lia).
      apply lookup_lt_is_Some_2. cbn. lia.
    + intros r w [-> ->]. split; vm_compute; reflexivity.
  - eapply wp_mono; [apply (vsnprintf_s_renders 40 ex_world 100 8 ex_bytes ltac:(done) ltac:(done) 100 16 ex_args ex_items ex_text);
      [done | done | | apply ex_call; cbn; lia] |].
    + intros i Hi. cbn in Hi. unfold ex_world, ex_mem. cbn [memof glob hget Has_self]. rewrite lookup_wr. rewrite decide_True by (cbn; lia).
      apply lookup_lt_is_Some_2. cbn. lia.
    + intros r w [-> ->]. split; vm_compute; reflexivity.
Defined.

Lemma vsnprintf_truncated_s_truncates_witness :
  wp (vsnprintf_truncated_s (D := ram) 40 100 8 16 ex_args) (fun r w => r = 7 /\ rd (memof w) 100 8 = Some (chars "ab=-7  " ++ [0])) ex_world.
Proof.
  eapply wp_mono; [apply (vsnprintf_truncated_s_truncates 40 ex_world 100 8 ex_bytes ltac:(done) ltac:(done) 16 ex_args ex_items ex_text);
    [done | | apply ex_call; cbn; lia] |].
  - intros i Hi. unfold ex_world, ex_mem. cbn [memof glob hget Has_self]. rewrite lookup_wr. rewrite decide_True by (cbn; lia).
    apply lookup_lt_is_Some_2. cbn. lia.
  - intros r w [-> ->]. split; vm_compute; reflexivity.
Defined.

Lemma decimal_reads_back_witness :
  wp (SecNumber64ToDecString (D := ram) 1207 (set_text (Buf []) initial_attr)) (fun a' w' => text a' = Buf (chars "1207")) ex_world.
Proof.
  eapply wp_mono with (P := fun a' w' => text a' = Buf (chars "1207") /\ _); [| by intros a' w' [H _]].
  apply wp_and; [vm_compute; reflexivity |]. apply (decimal_reads_back 1207 (set_text (Buf []) initial_attr) ex_world); done.
Defined.
