(* ===== verification/PrintfSafe.v ===== *)
(** * PrintfSafe: formatted output stays inside its destination

    Whatever the format and the arguments are, also ill-formed ones, ones
    with floating point numbers and wide characters, and whatever is in
    memory. *)
From stdpp Require Import prelude gmap list strings.
From Stdlib Require Import ZArith Lia.
From S2P Require Import Prelude Hw Mem Securec Printf PrintfSpec PrintfConv PrintfContract.
Local Open Scope Z_scope.

Section Safe.
Context {G D : Type} `{MD : Machine D} `{HM : !Has G mem} `{LC : Libc}.
Implicit Types (w : world G D).
Context (dest : Z) (n : nat).

(** Memory outside the [n] bytes at [dest] is the same. *)
Definition same w w' : Prop := forall i, i < dest \/ dest + Z.of_nat n <= i -> memof w' !! i = memof w !! i.
(** When [m] ends, it has changed nothing outside, and its result has [Q]. *)
Definition safe {A} (m : M G D A) (Q : A -> Prop) : Prop :=
  forall w, match m w with Done a w' => same w w' /\ Q a | Fault _ => True end.

Lemma safe_ret {A} (a : A) (Q : A -> Prop) : Q a -> safe (mret a) Q.
Proof. intros HQ w. by split. Qed.
Lemma safe_fail {A} f (Q : A -> Prop) : safe (fail f) Q.
Proof. by intros w. Qed.
Lemma safe_bind {A B} (m : M G D A) (f : A -> M G D B) P Q : safe m P -> (forall a, P a -> safe (f a) Q) -> safe (m ≫= f) Q.
Proof.
  intros Hm Hf w. specialize (Hm w). unfold mbind, M_bind. destruct (m w) as [a w1 |]; [| done]. destruct Hm as [Hs HP].
  specialize (Hf a HP w1). destruct (f a w1) as [b w2 |]; [| done]. destruct Hf as [Hs' HQ]. split; [| done].
  intros i Hi. rewrite Hs' by done. by apply Hs.
Qed.
Lemma safe_mono {A} (m : M G D A) (P Q : A -> Prop) : safe m P -> (forall a, P a -> Q a) -> safe m Q.
Proof. intros Hm H w. specialize (Hm w). destruct (m w) as [a w' |]; [| done]. destruct Hm. by auto. Qed.
Lemma safe_some_or {A} f (o : option A) (Q : A -> Prop) : (forall a, o = Some a -> Q a) -> safe (some_or f o) Q.
Proof. intros H. destruct o; [by apply safe_ret, H | apply safe_fail]. Qed.

Lemma safe_ldn k a : safe (ldn k a) (fun _ => True).
Proof. intros w. unfold ldn, mbind, M_bind, gets, some_or. destruct (rd _ _ _); done. Qed.
Lemma safe_sys op : safe (sys op) (fun _ => True).
Proof. intros w. unfold sys. by destruct (m_sys op (dev w)). Qed.
Lemma safe_free p : safe (free p) (fun _ => True).
Proof. eapply safe_bind; [apply safe_sys |]. intros. by apply safe_ret. Qed.
Lemma safe_load_chars a k : safe (load_chars a k) (fun _ => True).
Proof. intros w. unfold load_chars. by destruct (rd _ _ _). Qed.

Lemma safe_st_bytes a bs : dest <= a -> a + Z.of_nat (length bs) <= dest + Z.of_nat n -> safe (st_bytes a bs) (fun _ => True).
Proof.
  intros Ha Hb w. unfold st_bytes, mbind, M_bind, gets, some_or, puts. destruct (rd _ _ _); [| done]. split; [| done].
  intros i Hi. cbn. rewrite hget_hput, lookup_wr. by rewrite decide_False by lia.
Qed.
Lemma safe_st8 a v : dest <= a < dest + Z.of_nat n -> safe (st8 a v) (fun _ => True).
Proof. intros Ha. apply safe_st_bytes; cbn; lia. Qed.

(** ** The stream *)
Definition inside (s : SecPrintfStream) : Prop := dest <= cur s /\ cur s + count s <= dest + Z.of_nat n.
Abbreviation writes m := (safe m (fun r => inside r.1)).

Lemma safe_write_char s ch c : inside s -> writes (SecWriteChar s ch c).
Proof.
  intros [H1 H2]. unfold SecWriteChar. destruct (Z.leb_spec 0 (count s - 1)).
  - eapply safe_bind; [apply safe_st8; lia |]. intros _ _. apply safe_ret. unfold inside. cbn. lia.
  - apply safe_ret. unfold inside. cbn. lia.
Qed.

Lemma safe_multi_loop k s ch : inside s -> writes (multi_loop k s ch).
Proof.
  revert s. induction k as [| k IH]; intros s Hs; [by apply safe_ret |]. destruct Hs as [H1 H2]. cbn [multi_loop].
  destruct (Z.ltb_spec (count s - 1) 0); [apply safe_ret; unfold inside; cbn; lia |].
  eapply safe_bind; [apply safe_st8; lia |]. intros _ _. apply IH. unfold inside. cbn. lia.
Qed.
Lemma safe_multi s ch num c : inside s -> writes (SecWriteMultiChar s ch num c).
Proof. intros Hs. eapply safe_bind; [by apply safe_multi_loop |]. intros r Hr. by apply safe_ret. Qed.

Lemma safe_char_at t i : safe (char_at (G := G) (D := D) t i) (fun _ => True).
Proof. destruct t; try apply safe_fail; [by apply safe_some_or | apply safe_ldn | by apply safe_some_or]. Qed.
Lemma safe_string_loop k s t i : inside s -> writes (string_loop k s t i).
Proof.
  revert s i. induction k as [| k IH]; intros s i Hs; [by apply safe_ret |]. destruct Hs as [H1 H2]. cbn [string_loop].
  destruct (Z.ltb_spec (count s - 1) 0); [apply safe_ret; unfold inside; cbn; lia |].
  eapply safe_bind; [apply safe_char_at |]. intros ch _. eapply safe_bind; [apply safe_st8; lia |]. intros _ _. apply IH. unfold inside. cbn. lia.
Qed.
Lemma safe_string s t len c : inside s -> writes (SecWriteString s t len c).
Proof. intros Hs. eapply safe_bind; [by apply safe_string_loop |]. intros r Hr. by apply safe_ret. Qed.

Lemma safe_by_loop k a t i : dest <= a -> a + Z.of_nat k <= dest + Z.of_nat n -> safe (by_loop k a t i) (fun _ => True).
Proof.
  revert a i. induction k as [| k IH]; intros a i H1 H2; [by apply safe_ret |]. cbn [by_loop].
  eapply safe_bind; [apply safe_char_at |]. intros ch _. eapply safe_bind; [apply safe_st8; lia |]. intros _ _. apply IH; lia.
Qed.
Lemma safe_copy_up k a p : dest <= a -> a + Z.of_nat k <= dest + Z.of_nat n -> safe (copy_up k a p) (fun _ => True).
Proof.
  revert a p. induction k as [| k IH]; intros a p H1 H2; [by apply safe_ret |]. cbn [copy_up].
  eapply safe_bind; [eapply safe_bind; [apply safe_ldn |]; intros b _; apply safe_st8; lia |]. intros _ _. apply IH; lia.
Qed.
Lemma safe_memcpy_text a t k : dest <= a -> 0 <= k -> a + k <= dest + Z.of_nat n -> safe (memcpy_text a t k) (fun _ => True).
Proof.
  intros H1 H2 H3. assert (forall l, safe (if Z.of_nat (length l) <? k then fail OutOfBounds else st_bytes a (take (Z.to_nat k) l)) (fun _ => True)) as Hl.
  { intros l. destruct (_ <? _); [apply safe_fail |]. apply safe_st_bytes; [done | rewrite length_take; lia]. }
  destruct t; try apply safe_fail; [apply Hl | | apply Hl]. apply safe_copy_up; lia.
Qed.

Lemma safe_text_opt s t len c : inside s -> 0 <= len -> writes (SecWriteTextOpt s t len c).
Proof.
  intros [H1 H2] Hl. unfold SecWriteTextOpt, SecIsStreamBufEnough. destruct (Z.leb_spec len (count s)); [| by apply safe_string].
  eapply safe_bind with (P := inside); [| intros s' Hs'; by apply safe_ret]. unfold SecWriteStringOpt. destruct (Z.ltb_spec len 12).
  - eapply safe_bind; [apply safe_by_loop; lia |]. intros _ _. apply safe_ret. unfold inside. cbn. lia.
  - eapply safe_bind; [apply safe_memcpy_text; [done | apply Z.mod_pos_bound; lia |] |].
    + pose proof (Z.mod_le len (2 ^ 32) Hl ltac:(lia)). unfold wrap. lia.
    + intros _ _. apply safe_ret. unfold inside. cbn. lia.
Qed.

Lemma safe_wide_at t i : safe (wide_at (G := G) (D := D) t i) (fun _ => True).
Proof. destruct t; try apply safe_fail; [cbn; destruct (i =? 0); [by apply safe_ret | apply safe_fail] | apply safe_ldn | by apply safe_some_or]. Qed.
Lemma safe_wctomb_loop k s t i c : inside s -> writes (wctomb_loop k s t i c).
Proof.
  revert s i c. induction k as [| k IH]; intros s i c Hs; [by apply safe_ret |]. cbn [wctomb_loop].
  eapply safe_bind; [apply safe_wide_at |]. intros wc _. destruct (wctomb wc) as [[| b bs] |]; [by apply safe_ret | | by apply safe_ret].
  eapply safe_bind; [by apply safe_string |]. intros r Hr. destruct (r.2 =? -1); [by apply safe_ret | by apply IH].
Qed.

Lemma safe_put_out s a c : inside s -> 0 <= textLen a -> writes (put_out s a c).
Proof.
  intros Hs Ha. unfold put_out, SecWriteLeftPadding, SecWritePrefix, SecWriteLeadingZero, SecWriteText, SecWriteRightPadding, SecWriteTextAfterWctomb.
  eapply safe_bind with (P := fun r => inside r.1); [destruct (_ && _); [by apply safe_multi | by apply safe_ret] |]. intros o1 H1.
  eapply safe_bind with (P := fun r => inside r.1); [destruct (_ <? _); [by apply safe_string | by apply safe_ret] |]. intros o2 H2.
  eapply safe_bind with (P := fun r => inside r.1); [destruct (_ && _); [by apply safe_multi | by apply safe_ret] |]. intros o3 H3.
  eapply safe_bind with (P := fun r => inside r.1); [destruct (negb _); [by apply safe_wctomb_loop | by apply safe_text_opt] |]. intros o4 H4.
  destruct (_ && _); [by apply safe_multi | by apply safe_ret].
Qed.

(** ** The attributes *)
Definition attr_ok (a : SecFormatAttr) : Prop := 0 <= textLen a /\ -1 <= precision a < 2 ^ 31.
Abbreviation keeps m := (safe m attr_ok).

Lemma push_text_ok c a : attr_ok a -> keeps (push_text (G := G) (D := D) c a).
Proof.
  intros Ha. unfold push_text, push. destruct (text a); try apply safe_fail. destruct (_ <? _); [by apply safe_ret | apply safe_fail].
Qed.
Lemma number_loop_ok k ds r v a : attr_ok a -> keeps (number_loop (G := G) (D := D) k ds r v a).
Proof.
  revert v a. induction k as [| k IH]; intros v a Ha; [apply safe_fail |]. cbn [number_loop].
  eapply safe_bind; [by apply (safe_some_or _ _ (fun _ => True)) |]. intros d _.
  eapply safe_bind; [by apply push_text_ok |]. intros a' Ha'. destruct (_ =? 0); [by apply safe_ret | by apply IH].
Qed.
Lemma zeros_loop_ok k p a : attr_ok a -> keeps (zeros_loop (G := G) (D := D) k p a).
Proof.
  revert a. induction k as [| k IH]; intros a Ha; cbn [zeros_loop]; destruct (_ <=? _); try (by apply safe_ret); [apply safe_fail |].
  eapply safe_bind; [by apply push_text_ok |]. intros a' [H1 H2]. apply IH. split; cbn; [lia | done].
Qed.

Lemma finish_number_ok a v : attr_ok a -> keeps (finish_number (G := G) (D := D) a v).
Proof.
  intros Ha. unfold finish_number.
  eapply safe_bind with (P := attr_ok).
  { unfold SecNumberToBuffer. set (b := if _ && _ then add_flag _ a else a). assert (attr_ok b) as Hb by (unfold b; by destruct (_ && _)).
    destruct (_ =? 0); [apply safe_ret; split; [done | apply Hb] |]. eapply safe_bind with (P := attr_ok).
    - unfold SecNumberToString, SecNumber64ToString. destruct (_ =? _); [by apply number_loop_ok |].
      destruct (_ =? _); [by apply number_loop_ok |]. destruct (_ =? _); [by apply number_loop_ok |]. by apply safe_ret.
    - intros c Hc. apply safe_ret. split; [cbn; destruct (text c); cbn; lia | apply Hc]. }
  intros b Hb. eapply safe_bind with (P := attr_ok).
  { unfold SecNumberSatisfyPrecision. destruct (_ <? 0); [by apply zeros_loop_ok |]. apply zeros_loop_ok.
    destruct (has _ b), (_ <? _); try apply Hb; split; cbn; (apply Hb || done || (unfold SECUREC_MAX_PRECISION, SECUREC_BUFFER_SIZE; lia)). }
  intros c Hc. eapply safe_bind with (P := attr_ok).
  { unfold SecNumberForceOctal. destruct (has _ c); [| by apply safe_ret].
    eapply safe_bind with (P := fun _ => True); [destruct (_ =? 0); [by apply safe_ret | by apply safe_some_or] |]. intros x _.
    destruct (_ || _); [| by apply safe_ret]. eapply safe_bind; [by apply push_text_ok |]. intros e [H1 H2]. apply safe_ret. split; cbn; [lia | done]. }
  intros e He. apply safe_ret. set (f := SecUpdateSignedNumberPrefix e). assert (attr_ok f) as Hf.
  { unfold f, SecUpdateSignedNumberPrefix. destruct (negb _); [done |]. by repeat destruct (has _ e). }
  unfold SecNumberCompatZero. destruct (v =? 0); [| done]. destruct (has _ f); [| done]. split; cbn; [done | apply Hf].
Qed.

Lemma safe_va_word args : safe (va_word (G := G) (D := D) args) (fun _ => True).
Proof. destruct args as [| [v | x] args]; try apply safe_fail. by apply safe_ret. Qed.

Lemma convert_number_ok ch a args : attr_ok a -> safe (convert_number (G := G) (D := D) ch a args) (fun r => attr_ok r.1).
Proof.
  intros Ha. unfold convert_number. set (b := if _ || _ then SecUpdateXpxFlags a ch else a).
  assert (attr_ok b) as Hb.
  { unfold b. destruct (_ || _); [| done]. unfold SecUpdateXpxFlags, SecUpdatePointFlags. destruct (_ =? _).
    - destruct (has _ _); split; cbn; (apply Ha || done).
    - destruct (_ =? _), (has _ _); done. }
  clearbody b. set (c := SecUpdateOudiFlags b ch). assert (attr_ok c) as Hc.
  { unfold c, SecUpdateOudiFlags. destruct (_ || _); [done |]. destruct (_ =? _); [done |]. destruct (_ =? _); [| done]. by destruct (has _ _). }
  clearbody c. eapply safe_bind; [apply safe_va_word |]. intros v _.
  assert (attr_ok (get_number c v.1).1) as Hg.
  { unfold get_number. repeat (destruct (has _ c) || destruct (_ || _)); try done; unfold SecUpdateNegativeChar; by destruct (_ <=? _). }
  destruct (get_number c v.1) as [e x]. eapply safe_bind; [by apply finish_number_ok |]. intros f Hf. by apply safe_ret.
Qed.

Lemma strlen_loop_ok k p len : 0 <= len -> safe (strlen_loop (G := G) (D := D) k p len) (fun r => 0 <= r).
Proof.
  revert len. induction k as [| k IH]; intros len Hl; [apply safe_fail |]. cbn [strlen_loop].
  eapply safe_bind; [apply safe_ldn |]. intros c _. destruct (c =? 0); [by apply safe_ret | apply IH; lia].
Qed.
Lemma strnlen_loop_ok k p m len : 0 <= len <= Z.max 0 m -> safe (strnlen_loop (G := G) (D := D) k p m len) (fun r => 0 <= r <= Z.max 0 m).
Proof.
  revert len. induction k as [| k IH]; intros len Hl; cbn [strnlen_loop]; destruct (Z.leb_spec m len); try (by apply safe_ret); [apply safe_fail |].
  eapply safe_bind; [apply safe_ldn |]. intros c _. destruct (c =? 0); [by apply safe_ret | apply IH; lia].
Qed.
Lemma wcsnlen_loop_ok k p m len : 0 <= len -> safe (wcsnlen_loop (G := G) (D := D) k p m len) (fun r => 0 <= r).
Proof.
  revert len. induction k as [| k IH]; intros len Hl; cbn [wcsnlen_loop]; destruct (m <=? len); try (by apply safe_ret); [apply safe_fail |].
  eapply safe_bind; [apply safe_ldn |]. intros c _. destruct (c =? 0); [by apply safe_ret | apply IH; lia].
Qed.

Lemma u32_range x : 0 <= u32 x < 2 ^ 32.
Proof. by apply wrap_fits. Qed.

Lemma decode_type_s_ok fuel a p : attr_ok a -> keeps (SecDecodeTypeS (G := G) (D := D) fuel a p).
Proof.
  intros Ha. unfold SecDecodeTypeS. set (b := set_text _ _). assert (attr_ok b) as Hb by done.
  destruct (negb _).
  - unfold SecDecodeTypeSchar. set (c := match text b with Ptr _ => _ | _ => _ end). assert (attr_ok c /\ precision c = precision a) as [Hc Hp].
    { unfold c, b. cbn [text set_text]. by destruct (p =? NULL). }
    eapply safe_bind with (P := fun r => 0 <= r < 2 ^ 31).
    + assert (forall x, precision c = -1 \/ 0 <= precision c -> precision c = x -> (x =? -1) = false -> 0 <= u32 x < 2 ^ 31) as Hu.
      { intros x Hx <- Hne. destruct Hc. rewrite wrap_id by (split; lia). lia. }
      assert (precision c = -1 \/ 0 <= precision c) as Hpc by (destruct Hc; lia).
      assert (safe (mret (if precision c =? -1 then literal_len null_string else Z.min (literal_len null_string) (u32 (precision c)))) (fun r => 0 <= r < 2 ^ 31)) as Hlit.
      { apply safe_ret. change (literal_len null_string) with 6. pose proof (u32_range (precision c)). destruct (_ =? _); lia. }
      destruct (text c); try exact Hlit. destruct (precision c =? -1) eqn:E.
      * eapply safe_bind; [by apply strlen_loop_ok |]. intros x Hx. cbv beta in Hx. apply safe_ret. unfold SECUREC_STRING_MAX_LEN. destruct (Z.ltb_spec 2147483647 x); lia.
      * eapply safe_mono; [apply strnlen_loop_ok; lia |]. intros x Hx. cbv beta in Hx. pose proof (Hu _ Hpc eq_refl E). lia.
    + intros x Hx. apply safe_ret. split; [cbn; rewrite s32_small by done; lia | apply Hc].
  - unfold SecDecodeTypeSwchar. set (c := match text (set_wide 1 b) with Ptr _ => _ | _ => _ end). assert (attr_ok c) as Hc by done.
    eapply safe_bind with (P := fun r => 0 <= r).
    + pose proof (u32_range (precision c)). destruct (text c); try (apply safe_ret; change (literal_len null_string) with 6; lia). by apply wcsnlen_loop_ok.
    + intros x Hx. apply safe_ret. split; [cbn; by destruct (_ <? _) | apply Hc].
Qed.

(** ** A round *)
Lemma precision_state ch st : SecDecodeState ch st = STAT_PRECIS -> st = STAT_DOT \/ st = STAT_PRECIS.
Proof.
  intros H. assert (forallb (fun k => forallb (fun t => negb (state_num (SecDecodeState (Z.of_nat k) t) =? 5))
    [STAT_NORMAL; STAT_PERCENT; STAT_FLAG; STAT_WIDTH; STAT_SIZE; STAT_TYPE; STAT_INVALID]) (seq 0 256) = true) as Hall by (by vm_compute).
  rewrite forallb_forall in Hall. pose proof (wrap_fits 8 ch ltac:(done)) as [H0 H1]. change (2 ^ 8) with 256 in H1.
  specialize (Hall (Z.to_nat (u8 ch))). rewrite in_seq, Z2Nat.id in Hall by lia. specialize (Hall ltac:(lia)).
  assert (SecDecodeState (u8 ch) st = STAT_PRECIS) as H' by (rewrite <- H; unfold SecDecodeState; by rewrite wrap_idem).
  rewrite forallb_forall in Hall. specialize (Hall st).
  rewrite H' in Hall. destruct st; try (by left); try (by right); (discriminate Hall; cbn; tauto).
Qed.

Definition attr_at (st : SecFmtState) (a : SecFormatAttr) : Prop :=
  attr_ok a /\ (st = STAT_DOT \/ st = STAT_PRECIS -> 0 <= precision a \/ dynPrecision a <> 0).
Definition output_ok (o : output) : Prop := inside (stream o) /\ attr_at (state o) (formatAttr o).
Definition round_ok (r : output + Z * SecPrintfStream) : Prop := match r with inl o => output_ok o | inr x => inside x.2 end.

Lemma s32_range x : - 2 ^ 31 <= s32 x < 2 ^ 31.
Proof. unfold s32. pose proof (u32_range x). destruct (Z.ltb_spec (u32 x) (2 ^ 31)); lia. Qed.

Lemma decode_precision_ok ch a b : attr_ok a \/ (0 <= textLen a /\ dynPrecision a <> 0 /\ - 2 ^ 31 <= precision a < 2 ^ 31) ->
  0 <= precision a \/ dynPrecision a <> 0 -> SecDecodePrecision ch a = Some b -> attr_at STAT_PRECIS b.
Proof.
  intros Ha Hp. unfold SecDecodePrecision, SECUREC_MUL_TEN_ADD_BEYOND_MAX, SECUREC_MAX_WIDTH_LEN, SECUREC_MAX_WIDTH_LEN_DIV_TEN.
  assert (0 <= textLen a /\ - 2 ^ 31 <= precision a < 2 ^ 31) as [Ht Hr] by (destruct Ha as [[H1 H2] | H1]; lia).
  destruct (Z.eqb_spec (dynPrecision a) 0) as [E | E].
  - destruct (Z.ltb_spec 21474836 (precision a)); [done |]. pose proof (wrap_fits 8 (ch - chr "0") ltac:(done)) as [H1 H2].
    change (2 ^ 8) with 256 in H2. revert H1 H2. generalize (u8 (ch - chr "0")). intros dg H1 H2 [= <-]. assert (s32 (SECUREC_MUL_TEN (u32 (precision a))) = 10 * precision a) as Hm.
    { unfold SECUREC_MUL_TEN. rewrite !Z.shiftl_mul_pow2 by lia. rewrite (wrap_id 32 (precision a)) by (split; lia). rewrite wrap_id by (split; lia). rewrite s32_small by lia. lia. }
    rewrite Hm. split; [split; cbn [textLen precision set_precision]; [done | lia] |]. intros _. left. cbn [precision set_precision]. lia.
  - set (c := if precision a <? 0 then set_precision (-1) a else a).
    assert (textLen c = textLen a /\ dynPrecision c = dynPrecision a /\ -1 <= precision c < 2 ^ 31) as (H1 & H2 & H3).
    { unfold c. destruct (Z.ltb_spec (precision a) 0); cbn; lia. }
    destruct (_ <? precision c); [done |]. intros [= <-]. split; [split; lia |]. intros _. right. congruence.
Qed.

Lemma decode_size_ok ch a p : attr_ok a -> safe (SecDecodeSize (G := G) (D := D) ch a p) (fun r => attr_ok r.1.2).
Proof.
  intros Ha. unfold SecDecodeSize, SecDecodeSizeI, at_char.
  repeat first [ apply safe_ret; exact Ha | apply safe_ldn | match goal with
    | |- safe (mret _) (fun _ => True) => by apply safe_ret
    | |- safe (if _ then _ else _) _ => destruct (_ : bool)
    | |- safe (_ ≫= _) _ => eapply safe_bind with (P := fun _ => True); [| intros ? _]
    end ].
Qed.

Lemma convert_real_ok fuel p a args s c : attr_ok a -> inside s ->
  safe (convert_real fuel p a args s c) (fun r => attr_ok r.1.1.1 /\ inside r.1.2).
Proof.
  intros Ha Hs. unfold convert_real.
  eapply safe_bind with (P := fun r => attr_ok r.2).
  { unfold SecInitFloatBuffer. set (b := if precision a <? 0 then _ else a).
    assert (attr_ok b) as Hb by (unfold b; destruct (_ <? _); [split; cbn; [apply Ha | done] | done]). clearbody b.
    destruct (_ <? precision b); [by apply safe_ret |]. set (size := if _ <? fldWidth b then _ else _). clearbody size.
    eapply safe_bind with (P := fun _ => True); [destruct (_ <? size); [apply safe_sys | by apply safe_ret] |]. intros q _.
    destruct (q =? NULL); [by apply safe_ret |].
    eapply safe_bind with (P := fun _ => True).
    { unfold SecInitFloatFmt. eapply safe_bind with (P := fun _ => True).
      { generalize (p - 2). induction fuel as [| k IH]; intros x; [apply safe_fail |]. cbn [SecSeekToFrontPercent].
        eapply safe_bind; [apply safe_ldn |]. intros ch _. destruct (_ =? _); [by apply safe_ret | apply IH]. }
      intros fmt _. eapply safe_bind with (P := fun _ => True); [destruct (_ <? _); [apply safe_sys | by apply safe_ret] |]. intros x _.
      destruct (x =? NULL); [by apply safe_ret |]. eapply safe_bind; [apply safe_load_chars |]. intros l _. by apply safe_ret. }
    intros [[str al] |] _; [by apply safe_ret |].
    eapply safe_bind with (P := fun _ => True); [unfold when; destruct (negb _); [apply safe_free | by apply safe_ret] |]. intros _ _. by apply safe_ret. }
  intros [[f |] b] Hb; cbn [fst snd] in *; [| by apply safe_ret].
  eapply safe_bind with (P := fun _ => True); [destruct args as [| [v | x] args]; try apply safe_fail; by apply safe_ret |]. intros x _.
  eapply safe_bind with (P := attr_ok).
  { unfold SecFormatReal. destruct (_ <=? _); [apply safe_fail |]. apply safe_ret. split; [cbn; destruct (_ <=? _); lia | apply Hb]. }
  intros e He. eapply safe_bind; [by apply safe_string |]. intros o Ho.
  eapply safe_bind with (P := fun _ => True); [| intros _ _; by apply safe_ret].
  unfold SecFreeFloatBuffer, when. eapply safe_bind with (P := fun _ => True); [destruct (negb _); [apply safe_free | by apply safe_ret] |].
  intros _ _. destruct (negb _); [apply safe_free | by apply safe_ret].
Qed.

Lemma output_type_ok fuel ch o : inside (stream o) -> attr_ok (formatAttr o) -> state o = STAT_TYPE ->
  safe (output_type fuel ch o) output_ok.
Proof.
  intros Hs Ha Hst. unfold output_type. eapply safe_bind with (P := fun r => inside (stream r) /\ attr_ok (formatAttr r) /\ state r = STAT_TYPE).
  - destruct (_ || _).
    { eapply safe_bind; [apply safe_va_word |]. intros v _. apply safe_ret. split_and!; [done | | done].
      assert (attr_ok (if ch =? chr "C" then SecUpdateWcharFlags (formatAttr o) else formatAttr o)) as Hb.
      { destruct (_ =? _); [| done]. unfold SecUpdateWcharFlags. by destruct (_ =? _). }
      cbn [formatAttr]. unfold SecDecodeTypeC. destruct (_ || _); (split; [done | apply Hb]). }
    destruct (_ || _).
    { eapply safe_bind; [apply safe_va_word |]. intros v _. eapply safe_bind; [apply decode_type_s_ok | intros a' Ha'; by apply safe_ret].
      destruct (_ =? _); [| done]. unfold SecUpdateWstringFlags, SecUpdateWcharFlags. by destruct (_ =? _). }
    destruct (existsb _ _).
    { eapply safe_bind; [by apply convert_real_ok |]. intros [[[a args] s] c] [Ha' Hs']. by apply safe_ret. }
    destruct (existsb _ _); [| by apply safe_ret].
    eapply safe_bind; [by apply convert_number_ok |]. intros x Hx. by apply safe_ret.
  - intros r (Hs' & Ha' & Hst'). assert (forall st, st = STAT_TYPE -> st = STAT_DOT \/ st = STAT_PRECIS -> False) as Hno by (by intros st -> []).
    destruct (_ =? 0).
    + eapply safe_bind; [apply safe_put_out; [done | apply Ha'] |]. intros x Hx. apply safe_ret. split; [done |]. split; [apply Ha' |].
      intros H. by destruct (Hno _ Hst').
    + apply safe_ret. split; [done |]. split; [done |]. intros H. by destruct (Hno _ Hst').
Qed.

Lemma output_round_ok fuel ch o : output_ok o -> safe (output_round fuel ch o) round_ok.
Proof.
  intros [Hs [Ha Hp]]. unfold output_round. destruct (SecDecodeState ch (state o)) eqn:E.
  - eapply safe_bind; [by apply safe_write_char |]. intros x Hx. apply safe_ret. split; [done |]. split; [done | by intros []].
  - apply safe_ret. split; [done |]. split; [done | by intros []].
  - apply safe_ret. split; [done |]. split; [| by intros []]. cbn. unfold SecDecodeFlags. by repeat destruct (_ =? _).
  - eapply safe_bind with (P := fun x => attr_ok x.1).
    { destruct (_ =? _); [| by apply safe_ret]. eapply safe_bind; [apply safe_va_word |]. intros v _. by apply safe_ret. }
    intros x Hx. destruct (SecDecodeWidth ch x.1 (state o)) as [b |] eqn:Eb; [| by apply safe_ret]. apply safe_ret.
    split; [done |]. split; [| by intros []]. unfold SecDecodeWidth in Eb. cbn.
    repeat case_match; simplify_eq; done.
  - apply safe_ret. split; [done |]. split; [split; cbn; [apply Ha | done] |]. intros _. by left.
  - pose proof (precision_state _ _ E) as Hst. specialize (Hp Hst).
    eapply safe_bind with (P := fun x => forall b, SecDecodePrecision ch x.1 = Some b -> attr_at STAT_PRECIS b).
    { destruct (_ =? _).
      - eapply safe_bind; [apply safe_va_word |]. intros v _. apply safe_ret. intros b. apply decode_precision_ok; [right | by right].
        split; [apply Ha |]. split; [done |]. apply s32_range.
      - apply safe_ret. intros b. apply decode_precision_ok; [by left | done]. }
    intros x Hx. destruct (SecDecodePrecision ch x.1) as [b |] eqn:Eb; apply safe_ret; [| done]. split; [done |]. by apply Hx.
  - eapply safe_bind; [by apply decode_size_ok |]. intros [[ok a] p] Ha'. cbn in Ha'. destruct ok.
    + apply safe_ret. split; [done |]. split; [done | by intros []].
    + eapply safe_bind; [by apply safe_write_char |]. intros x Hx. apply safe_ret. split; [done |]. split; [done | by intros []].
  - eapply safe_bind; [by apply output_type_ok |]. intros o' Ho'. by apply safe_ret.
  - by apply safe_ret.
Qed.

Lemma safe_output fuel s fmt args : inside s -> safe (SecOutput fuel s fmt args) (fun r => inside r.2).
Proof.
  intros Hs. unfold SecOutput. set (o0 := Output _ _ _ _ _ _ _).
  assert (output_ok o0) as Ho by (split; [done |]; split; [done | by intros []]). clearbody o0.
  generalize fuel at 1. intros k. revert o0 Ho. induction k as [| k IH]; intros o Ho; [apply safe_fail |]. rewrite loop_S.
  eapply safe_bind with (P := round_ok).
  - eapply safe_bind; [apply safe_ldn |]. intros ch _. destruct (_ && _); [by apply output_round_ok | apply safe_ret, Ho].
  - intros [o' | x] Hr; [by apply IH | by apply safe_ret].
Qed.

Lemma safe_impl fuel count' fmt args : 0 < count' <= Z.of_nat n -> count' <= SECUREC_STRING_MAX_LEN ->
  safe (SecVsnprintfImpl fuel dest count' fmt args) (fun _ => True).
Proof.
  unfold SECUREC_STRING_MAX_LEN. intros Hc Hm. unfold SecVsnprintfImpl. rewrite s32_small by lia.
  eapply safe_bind; [apply safe_output; unfold inside; cbn; lia |]. intros r Hr.
  eapply safe_bind with (P := fun _ => True).
  - destruct (0 <=? r.1); [| by apply safe_ret]. unfold SecPutZeroChar. destruct Hr as [H1 H2].
    destruct (Z.leb_spec 0 (count r.2 - 1)); [| by apply safe_ret]. eapply safe_bind; [apply safe_st8; lia |]. intros _ _. by apply safe_ret.
  - intros [b s] _. cbn [fst snd]. destruct b; [by apply safe_ret |].
    destruct (_ <? 0); (eapply safe_bind; [apply safe_st8; lia |]; intros _ _; by apply safe_ret).
Qed.
End Safe.

Section Api.
Context {G D : Type} `{MD : Machine D} `{HM : !Has G mem} `{LC : Libc}.
Implicit Types (w : world G D).

Lemma param_error_inside fmt dest destMax : SECUREC_VSPRINTF_PARAM_ERROR fmt dest destMax SECUREC_STRING_MAX_LEN = false ->
  0 <= destMax -> 0 < destMax <= SECUREC_STRING_MAX_LEN.
Proof.
  unfold SECUREC_VSPRINTF_PARAM_ERROR. intros [[_ H1]%orb_false_iff H2]%orb_false_iff H0. lia.
Qed.

Lemma clear_dest_inside dest destMax max : safe dest (Z.to_nat destMax) (SECUREC_VSPRINTF_CLEAR_DEST (G := G) (D := D) dest destMax max ;; mret (-1)) (fun _ => True).
Proof.
  eapply safe_bind with (P := fun _ => True); [| intros _ _; by apply safe_ret]. unfold SECUREC_VSPRINTF_CLEAR_DEST, when.
  destruct (_ && _) eqn:E; [| by apply safe_ret]. apply andb_true_iff in E as [[_ E]%andb_true_iff _]. apply safe_st8. lia.
Qed.

End Api.

