(* ===== verification/Fscmem.v ===== *)
(** * Fscmem: the memory allocator (baremetal/memory/bm_fscmem.c, bm_mem.c)

    A segregated-fit allocator over one region: 31 circular doubly linked
    free lists, list [idx] holding the blocks whose size has its top bit at
    [idx], and a bit map of the lists that may be non-empty (bit [31 - idx]).
    Headers, list heads and magic numbers live in the byte memory of [Mem], at
    the offsets of [struct tag_memory_ctrl_fsc]; the bit map and the table of
    function pointers are the component's globals. *)
From S2P Require Import Prelude Hw Common Mem Securec.
From stdpp Require Import prelude gmap list strings.
From Stdlib Require Import ZArith Lia.
Local Open Scope Z_scope.

Definition ERRNO_BUILD_ERROR (mid errno : Z) : Z :=
  Z.lor (Z.lor (Z.lor (Z.shiftl 2 24) 0) (Z.shiftl mid 8)) errno.
Definition ERRNO_MEM_OVERWRITE := ERRNO_BUILD_ERROR 1 1.
Definition ERRNO_MEM_FREE_ADDR_INVALID := ERRNO_BUILD_ERROR 1 2.
Definition ERRNO_MEM_INITADDR_ISINVALID := ERRNO_BUILD_ERROR 1 3.
Definition ERRNO_MEM_INITSIZE_INVALID := ERRNO_BUILD_ERROR 1 5.
Definition ERRNO_MEM_INITADDR_INVALID := ERRNO_BUILD_ERROR 1 6.
Definition ERRNO_MEM_PTCREATE_SIZE_ISTOHWMALL := ERRNO_BUILD_ERROR 1 7.
Definition ERRNO_MEM_PTCREATE_SIZE_ISTOOBIG := ERRNO_BUILD_ERROR 1 8.
Definition ERRNO_MEM_FREE_SH_DAMAGED := ERRNO_BUILD_ERROR 1 11.
Definition HW_FAIL : Z := 1.

Definition FSC_MEM_LAST_IDX : Z := 31.
Definition FSC_MEM_SIZE_ALIGN : Z := 8.
Definition FSC_MEM_USED_HEAD_SIZE : Z := 32.
Definition FSC_MEM_TAIL_SIZE : Z := 4.
Definition FSC_MEM_SLICE_HEAD_SIZE : Z := 32.
Definition FSC_MEM_MIN_SIZE : Z := FSC_MEM_SLICE_HEAD_SIZE + FSC_MEM_SIZE_ALIGN.
Definition FSC_MEM_MAXVAL : Z := Z.shiftl 1 FSC_MEM_LAST_IDX - FSC_MEM_SIZE_ALIGN.
Definition FSC_MEM_MAGIC_USED : Z := 0x5a5aa5a5.
Definition FSC_MEM_TAIL_MAGIC : Z := 0xABCDDCBA.
Definition MEM_FSC_PT_SIZE : Z := 0x3000.
Definition MEM_ADDR_ALIGN_004 : Z := 2.
Definition MEM_ADDR_BUTT : Z := 15.

(** [bm_get_bits]: scan from bit 31 down; 31 for 0 as for 1. *)
Fixpoint get_bits_from (n : nat) (value : Z) : Z :=
  if negb (Z.land (Z.shiftl 1 (Z.of_nat n)) value =? 0) then Z.of_nat n
  else match n with O => 0 | S n' => get_bits_from n' value end.
Definition bm_get_bits (value : Z) : Z := 31 - get_bits_from 31 (u32 value).

Definition FSC_MEM_SZ2IDX (size : Z) : Z := 31 - bm_get_bits (u32 size).
Definition FSC_MEM_IDX2BIT (idx : Z) : Z := Z.shiftr 0x80000000 idx.
Definition MEM_GETBIT (addr : Z) : Z := Z.land addr 3.
(** [ALIGN(addr, boundary)] in 64-bit arithmetic. *)
Definition ALIGN (addr boundary : Z) : Z :=
  Z.land (u64 (addr + boundary - 1)) (bnot 64 (boundary - 1)).

(** The function pointers of [struct tag_memory_funcs]. *)
Inductive alloc_fn := bm_memory_alloc_os_ptr.
Inductive alloc_align_fn := bm_memory_alloc_os_align_ptr.
Inductive free_fn := bm_memory_free_fsc_ptr.
Record tag_memory_funcs := TagMemoryFuncs {
  alloc : option alloc_fn;
  alloc_align : option alloc_align_fn;
  free : option free_fn;
}.

Record fsc := Fsc {
  g_memory_bit_amp : Z;
  g_memory_arith_api : tag_memory_funcs;
}.
Definition fsc_init : fsc := Fsc 1 (TagMemoryFuncs None None None).
Definition set_bit_amp (v : Z) (s : fsc) : fsc := Fsc v (g_memory_arith_api s).
Definition set_api (a : tag_memory_funcs) (s : fsc) : fsc := Fsc (g_memory_bit_amp s) a.

(** Where the linker put the two arrays. *)
Class FscLayout := { g_memory_node_list : Z; g_memory_region : Z }.

(** The fields of [struct tag_memory_ctrl_fsc] and of the list heads. *)
Definition f_next (b : Z) : Z := b.
Definition f_size (b : Z) : Z := b + 8.
Definition f_prev_size (b : Z) : Z := b + 16.
Definition f_prev (b : Z) : Z := b + 24.

Section Fsc.
Context {G D : Type} `{MD : Machine D} `{HM : !Has G mem} `{HS : !Has G fsc}.
Context `{LY : FscLayout}.
Abbreviation M := (M G D).

Definition node (idx : Z) : Z := g_memory_node_list + 32 * idx.

Definition bm_memory_delete_fsc (current_block : Z) : M unit :=
  next ← ld64 (f_next current_block);
  prev ← ld64 (f_prev current_block);
  st64 (f_prev next) prev ;;
  prev ← ld64 (f_prev current_block);
  next ← ld64 (f_next current_block);
  st64 (f_next prev) next.

Definition bm_memory_insert_fsc (current_block : Z) : M unit :=
  size ← ld64 (f_size current_block);
  let idx := FSC_MEM_SZ2IDX size in
  let head_block := node idx in
  modg (fun s => set_bit_amp (u32 (Z.lor (g_memory_bit_amp s) (FSC_MEM_IDX2BIT idx))) s) ;;
  st64 (f_prev current_block) head_block ;;
  next ← ld64 (f_next head_block);
  st64 (f_next current_block) next ;;
  next ← ld64 (f_next head_block);
  st64 (f_prev next) current_block ;;
  st64 (f_next head_block) current_block.

Definition bm_memory_set_head_addr (use_addrr ctrl_addr : Z) : M unit :=
  st16 (use_addrr - 2) (u16 (use_addrr - ctrl_addr)).

Definition bm_memory_get_head_addr (use_addrr : Z) : M Z :=
  head_offset ← ld16 (use_addrr - 2);
  mret (use_addrr - head_offset - FSC_MEM_SLICE_HEAD_SIZE).

(** First fit in the request's own list; NULL when none is large enough. *)
Definition search_useable_fsc (fuel : nat) (size idx : Z) : M Z :=
  let head_block := node idx in
  current_block ← ld64 (f_next head_block);
  loop fuel (fun current_block =>
    if current_block =? head_block then mret (inr NULL)
    else
      bsize ← ld64 (f_size current_block);
      if size <=? bsize then mret (inr current_block)
      else next ← ld64 (f_next current_block); mret (inl next)) current_block.

(** The block found (NULL if none) and [*idx].  Every round of the outer
    loop but the last clears one bit of the map, hence 33 rounds. *)
Definition bm_memory_search_fsc (fuel : nat) (size : Z) : M (Z * Z) :=
  let state_idx := FSC_MEM_SZ2IDX size in
  loop 33 (fun idx =>
    s ← gets;
    let idx := bm_get_bits (Z.shiftr (u32 (Z.shiftl (g_memory_bit_amp s) idx)) idx) in
    if FSC_MEM_LAST_IDX <=? idx then
      current_block ← search_useable_fsc fuel size state_idx;
      mret (inr (current_block, state_idx))
    else
      let head_block := node idx in
      next ← ld64 (f_next head_block);
      if next =? head_block then
        modg (fun s => set_bit_amp
          (Z.land (g_memory_bit_amp s) (bnot 64 (FSC_MEM_IDX2BIT idx))) s) ;;
        mret (inl idx)
      else mret (inr (next, idx))) (state_idx + 1).

Definition fsc_alloc_size (size align : Z) : Z :=
  u32 (ALIGN size FSC_MEM_SIZE_ALIGN + (align - FSC_MEM_SIZE_ALIGN)
       + FSC_MEM_USED_HEAD_SIZE + FSC_MEM_TAIL_SIZE).

(** Cut [alloc_size] bytes off the end of the block, or take all of it. *)
Definition fsc_split (current_block idx alloc_size : Z) : M Z :=
  bsize ← ld64 (f_size current_block);
  if alloc_size + FSC_MEM_MIN_SIZE <=? bsize then
    st64 (f_size current_block) (bsize - alloc_size) ;;
    bsize ← ld64 (f_size current_block);
    when (negb (idx =? FSC_MEM_SZ2IDX bsize))
      (bm_memory_delete_fsc current_block ;; bm_memory_insert_fsc current_block) ;;
    bsize ← ld64 (f_size current_block);
    let plot_block := current_block + bsize in
    bsize ← ld64 (f_size current_block);
    st64 (f_prev_size plot_block) bsize ;;
    st64 (f_size plot_block) alloc_size ;;
    mret plot_block
  else bm_memory_delete_fsc current_block ;; mret current_block.

(** Mark the block used and write the magic numbers. *)
Definition fsc_mark_used (current_block align : Z) : M Z :=
  bsize ← ld64 (f_size current_block);
  let next_block := current_block + bsize in
  st64 (f_prev_size next_block) 0 ;;
  st64 (f_next current_block) FSC_MEM_MAGIC_USED ;;
  bsize ← ld64 (f_size current_block);
  let block_size_fsc := bsize - FSC_MEM_TAIL_SIZE in
  st32 (current_block + block_size_fsc) FSC_MEM_TAIL_MAGIC ;;
  st64 (f_prev current_block) 0 ;;
  let use_addrr := Z.land (current_block + FSC_MEM_SLICE_HEAD_SIZE + align - 1)
                          (bnot 64 (align - 1)) in
  bm_memory_set_head_addr use_addrr (current_block + FSC_MEM_SLICE_HEAD_SIZE) ;;
  mret use_addrr.

Definition bm_memory_alloc_inner_fs (fuel : nat) (size align : Z) : M Z :=
  if size =? 0 then mret NULL
  else
    let alloc_size := fsc_alloc_size size align in
    if (alloc_size <? size)
       || (FSC_MEM_MAXVAL - FSC_MEM_USED_HEAD_SIZE - FSC_MEM_TAIL_SIZE <=? alloc_size)
    then mret NULL
    else
      '(current_block, idx) ← bm_memory_search_fsc fuel alloc_size;
      if current_block =? NULL then mret NULL
      else
        current_block ← fsc_split current_block idx alloc_size;
        fsc_mark_used current_block align.

Definition HEADER_SIZE : Z := 32.

(** Swallow the block behind, if it is free: the new size of the block. *)
Definition fsc_merge_next (current_block block_size : Z) : M bool :=
  let next_block := current_block + block_size in
  next ← ld64 (f_next next_block);
  if negb (next =? FSC_MEM_MAGIC_USED) then
    bm_memory_delete_fsc next_block ;;
    bsize ← ld64 (f_size current_block);
    nsize ← ld64 (f_size next_block);
    st64 (f_size current_block) (bsize + nsize) ;;
    ret ← memset_s next_block HEADER_SIZE 0 HEADER_SIZE;
    mret (ret =? EOK)
  else mret true.

(** Be swallowed by the block in front, if it is free: the merged block, or
    None when [memset_s] failed. *)
Definition fsc_merge_prev (current_block : Z) : M (option Z) :=
  prev_size ← ld64 (f_prev_size current_block);
  if negb (prev_size =? 0) then
    prev_size ← ld64 (f_prev_size current_block);
    let prev_block := current_block - prev_size in
    psize ← ld64 (f_size prev_block);
    bsize ← ld64 (f_size current_block);
    st64 (f_size prev_block) (psize + bsize) ;;
    bm_memory_delete_fsc prev_block ;;
    ret ← memset_s current_block HEADER_SIZE 0 HEADER_SIZE;
    mret (if ret =? EOK then Some prev_block else None)
  else mret (Some current_block).

Definition fsc_release (current_block block_size : Z) : M Z :=
  ok ← fsc_merge_next current_block block_size;
  if negb ok then mret HW_FAIL
  else
    merged ← fsc_merge_prev current_block;
    match merged with
    | None => mret HW_FAIL
    | Some current_block =>
        bm_memory_insert_fsc current_block ;;
        bsize ← ld64 (f_size current_block);
        let next_block := current_block + bsize in
        bsize ← ld64 (f_size current_block);
        st64 (f_prev_size next_block) bsize ;;
        mret EOK
    end.

Definition bm_memory_free_fsc (addr : Z) : M Z :=
  if addr =? NULL then mret ERRNO_MEM_FREE_ADDR_INVALID
  else
    current_block ← bm_memory_get_head_addr addr;
    block_size ← ld64 (f_size current_block);
    next ← ld64 (f_next current_block);
    if negb (next =? FSC_MEM_MAGIC_USED) || (block_size =? 0) then
      mret ERRNO_MEM_FREE_SH_DAMAGED
    else
      tail ← ld32 (current_block + block_size - FSC_MEM_TAIL_SIZE);
      if negb (tail =? FSC_MEM_TAIL_MAGIC) then mret ERRNO_MEM_OVERWRITE
      else fsc_release current_block block_size.

Definition bm_memory_alloc_os (fuel : nat) (size : Z) : M Z :=
  bm_memory_alloc_inner_fs fuel size FSC_MEM_SIZE_ALIGN.

Definition bm_memory_alloc_os_align (fuel : nat) (size align_pow : Z) : M Z :=
  if (MEM_ADDR_BUTT <=? align_pow) || (align_pow <? MEM_ADDR_ALIGN_004) then mret NULL
  else bm_memory_alloc_inner_fs fuel size (Z.shiftl 1 align_pow).

(** [bm_memory_init_fsc] from the list heads on. *)
Definition fsc_init_lists (addr size : Z) : M unit :=
  for_up 31 0 (fun idx => st64 (f_prev (node idx)) (node idx) ;;
                          st64 (f_next (node idx)) (node idx)) ;;
  let size := u32 (size - FSC_MEM_USED_HEAD_SIZE) in
  modg (fun s => set_bit_amp (Z.lor (g_memory_bit_amp s) (Z.shiftl 1 (31 - FSC_MEM_LAST_IDX))) s) ;;
  let idx := FSC_MEM_SZ2IDX size in
  modg (fun s => set_bit_amp (u32 (Z.lor (g_memory_bit_amp s) (FSC_MEM_IDX2BIT idx))) s) ;;
  let head_block := node idx in
  st64 (f_next addr) head_block ;;
  st64 (f_prev_size addr) 0 ;;
  st64 (f_size addr) size ;;
  st64 (f_prev addr) head_block ;;
  st64 (f_next head_block) addr ;;
  st64 (f_prev head_block) addr ;;
  bsize ← ld64 (f_size addr);
  let next_block := addr + bsize in
  st64 (f_next next_block) FSC_MEM_MAGIC_USED ;;
  st64 (f_size next_block) 0.

Definition bm_memory_init_fsc (addr size : Z) : M Z :=
  if addr =? NULL then mret ERRNO_MEM_INITADDR_ISINVALID
  else if negb (MEM_GETBIT addr =? 0) then mret ERRNO_MEM_INITADDR_INVALID
  else if negb (MEM_GETBIT size =? 0) then mret ERRNO_MEM_INITSIZE_INVALID
  else if size <? FSC_MEM_USED_HEAD_SIZE then mret ERRNO_MEM_PTCREATE_SIZE_ISTOHWMALL
  else if FSC_MEM_MAXVAL <? size then mret ERRNO_MEM_PTCREATE_SIZE_ISTOOBIG
  else
    ret ← memset_s addr size 0 size;
    if negb (ret =? EOK) then mret HW_FAIL
    else
      fsc_init_lists addr size ;;
      modg (set_api (TagMemoryFuncs (Some bm_memory_alloc_os_ptr)
        (Some bm_memory_alloc_os_align_ptr) (Some bm_memory_free_fsc_ptr))) ;;
      mret EOK.

Definition bm_init_hwi : M Z := bm_memory_init_fsc g_memory_region MEM_FSC_PT_SIZE.

(** ** bm_mem.c: the same with interrupts masked *)
Definition bm_close_interrupt : M Z :=
  state ← sys (Mrs DAIF); sys_ (DaifSet DAIF_IRQ_BIT) ;; mret (Z.land state INT_MASK).

Definition bm_restore_interrupt (int_save : Z) : M unit :=
  if Z.land int_save INT_MASK =? 0 then sys_ (DaifClr DAIF_IRQ_BIT)
  else sys_ (DaifSet DAIF_IRQ_BIT).

(** A call through the table: NULL until [bm_memory_init_fsc] has run. *)
Definition bm_memory_alloc (fuel : nat) (size : Z) : M Z :=
  int_save ← bm_close_interrupt;
  s ← gets;
  '_ ← some_or NullDeref (alloc (g_memory_arith_api s));
  addr ← bm_memory_alloc_os fuel size;
  bm_restore_interrupt int_save ;; mret addr.

Definition bm_memory_alloc_align (fuel : nat) (size align_pow : Z) : M Z :=
  int_save ← bm_close_interrupt;
  s ← gets;
  '_ ← some_or NullDeref (alloc_align (g_memory_arith_api s));
  addr ← bm_memory_alloc_os_align fuel size align_pow;
  bm_restore_interrupt int_save ;; mret addr.

Definition bm_memory_free (addr : Z) : M Z :=
  int_save ← bm_close_interrupt;
  s ← gets;
  '_ ← some_or NullDeref (free (g_memory_arith_api s));
  ret ← bm_memory_free_fsc addr;
  bm_restore_interrupt int_save ;; mret ret.
End Fsc.
