(* ===== verification/FscmemProps.v ===== *)
(** * FscmemProps: what the memory allocator guarantees

    The bit scan, initialisation, the error branches of [free], the layout of
    an allocated block, and the round trip: an allocation from a region that
    is one free block, followed by the release, gives that region back. *)
From S2P Require Import Prelude Hw Mem Securec Fscmem.
From stdpp Require Import prelude gmap list strings.
From Stdlib Require Import ZArith Lia.
Local Open Scope Z_scope.

(** ** The bit scan *)
Lemma land_shiftl_1 n v : 0 <= n ->
  (Z.land (Z.shiftl 1 n) v =? 0) = negb (Z.testbit v n).
Proof.
  intros Hn. destruct (Z.testbit v n) eqn:E; cbn [negb].
  - apply Z.eqb_neq. intros H0. assert (Z.testbit (Z.land (Z.shiftl 1 n) v) n = true) as Ht.
    { rewrite Z.land_spec, shiftl_spec', E by lia. rewrite Z.sub_diag. simpl. lia. }
    by rewrite H0, Z.testbit_0_l in Ht.
  - apply Z.eqb_eq, Z.bits_inj'. intros i Hi. rewrite Z.land_spec, shiftl_spec', Z.testbit_0_l by lia.
    destruct (decide (i = n)) as [-> | Hne]; [by rewrite E, andb_false_r |].
    destruct (Z.leb_spec n i); [| done].
    assert (Z.testbit 1 (i - n) = false) as ->; [| done].
    change 1 with (2 ^ 0). apply Z.pow2_bits_false. lia.
Qed.

Lemma get_bits_from_spec n v :
  let r := get_bits_from n v in
  0 <= r <= Z.of_nat n /\
  (forall i, r < i <= Z.of_nat n -> Z.testbit v i = false) /\
  (0 < r -> Z.testbit v r = true).
Proof.
  induction n as [| n IH]; cbn zeta; cbn [get_bits_from]; rewrite land_shiftl_1, negb_involutive by lia.
  - destruct (Z.testbit v (Z.of_nat 0)); repeat split; intros; lia.
  - destruct (Z.testbit v (Z.of_nat (S n))) eqn:E.
    + repeat split; intros; lia || done.
    + destruct IH as (H1 & H2 & H3). repeat split; [lia | lia | | done].
      intros i Hi. destruct (decide (i = Z.of_nat (S n))) as [-> | ?]; [done | apply H2; lia].
Qed.

Lemma bm_get_bits_spec v : fits 32 v ->
  let r := bm_get_bits v in
  0 <= r <= 31 /\
  (forall i, 0 <= i < r -> Z.testbit v (31 - i) = false) /\
  (r < 31 -> Z.testbit v (31 - r) = true).
Proof.
  intros Hv. cbv zeta. unfold bm_get_bits. rewrite wrap_id by done.
  pose proof (get_bits_from_spec 31 v) as (H1 & H2 & H3).
  set (r := get_bits_from 31 v) in *. repeat split; [lia | lia | |].
  - intros i Hi. apply H2. lia.
  - intros Hr. replace (31 - (31 - r)) with r by lia. apply H3. lia.
Qed.

Lemma bm_get_bits_clz v : fits 32 v -> bm_get_bits v = 31 - Z.log2 v.
Proof.
  intros Hv. pose proof (bm_get_bits_spec v Hv) as (H1 & H2 & H3). set (r := bm_get_bits v) in *.
  destruct (decide (v = 0)) as [-> | H0]; [by vm_compute |].
  assert (0 < v) by (unfold fits in Hv; lia).
  assert (Z.log2 v <= 31) by (apply Z.lt_succ_r, Z.log2_lt_pow2; unfold fits in Hv; lia).
  pose proof (Z.log2_nonneg v). pose proof (Z.bit_log2 v ltac:(lia)) as Hb.
  destruct (Z.lt_trichotomy r (31 - Z.log2 v)) as [Hlt | [? | Hgt]]; [| done |].
  - rewrite Z.bits_above_log2 in H3 by lia. specialize (H3 ltac:(lia)). done.
  - specialize (H2 (31 - Z.log2 v) ltac:(lia)).
    replace (31 - (31 - Z.log2 v)) with (Z.log2 v) in H2 by lia. congruence.
Qed.

Lemma SZ2IDX_log2 v : fits 32 v -> FSC_MEM_SZ2IDX v = Z.log2 v.
Proof.
  intros Hv. unfold FSC_MEM_SZ2IDX. rewrite wrap_id by done. rewrite bm_get_bits_clz by done. lia.
Qed.

(** [bm_get_bits] counts the leading zeros of a 32-bit word (31 for
    zero), so that [FSC_MEM_SZ2IDX] is the binary logarithm of the size and a
    block of [size] bytes goes to the list of sizes [2^idx, 2^(idx+1)). *)
Theorem bm_get_bits_is_clz v : fits 32 v ->
  bm_get_bits v = 31 - Z.log2 v /\
  (0 < v -> 2 ^ FSC_MEM_SZ2IDX v <= v < 2 ^ (FSC_MEM_SZ2IDX v + 1)).
Proof.
  intros Hv. split; [by apply bm_get_bits_clz |]. intros Hp.
  rewrite SZ2IDX_log2 by done. by apply Z.log2_spec.
Qed.

Lemma bm_get_bits_is_clz_witness : bm_get_bits 0x3000 = 18 /\ FSC_MEM_SZ2IDX 0x3000 = 13.
Proof.
  split; [apply (bm_get_bits_is_clz 0x3000); vm_compute; split; [discriminate | reflexivity] |].
  vm_compute. reflexivity.
Defined.

(** ** Fields of memory *)
Definition m64 (m : mem) (a : Z) : option Z := le_word <$> rd m a 8.

Lemma m64_wr_eq m a v : fits 64 v -> m64 (wr m a (le_bytes 8 v)) a = Some v.
Proof.
  intros Hv. unfold m64. pose proof (rd_wr_eq m a (le_bytes 8 v)) as E.
  rewrite length_le_bytes in E. apply fmap_Some. eexists. split; [exact E |].
  rewrite le_word_bytes. by rewrite wrap_id.
Qed.

Lemma m64_wr_ne m a bs b : a + Z.of_nat (length bs) <= b \/ b + 8 <= a ->
  m64 (wr m a bs) b = m64 m b.
Proof. intros H. unfold m64. by rewrite rd_wr_ne by lia. Qed.

Section Fields.
Context {G D : Type} `{MD : Machine D} `{HM : !Has G mem}.
Implicit Types (w : world G D).

Lemma wp_ld64 a v (Q : Z -> world G D -> Prop) w :
  m64 (memof w) a = Some v -> Q v w -> wp (ld64 a) Q w.
Proof.
  intros Hm HQ. apply wp_ldn. apply fmap_Some in Hm as (bs & Hr & ->). by exists bs.
Qed.

Lemma wp_st64 a v (Q : unit -> world G D -> Prop) w :
  mapped (memof w) a 8 -> Q tt (setm (wr (memof w) a (le_bytes 8 v)) w) -> wp (st64 a v) Q w.
Proof. intros Hm HQ. by apply wp_stn. Qed.
End Fields.

(** ** Where the payload lies

    A block of [alloc_size] bytes at [b] has its tail magic number in its last
    four bytes; the payload starts at [use_addr b align]. *)
Definition use_addr (b align : Z) : Z :=
  Z.land (b + FSC_MEM_SLICE_HEAD_SIZE + align - 1) (bnot 64 (align - 1)).
Definition tail_addr (b size align : Z) : Z := b + fsc_alloc_size size align - FSC_MEM_TAIL_SIZE.

Lemma land_bnot_ones x p : fits 64 x -> 0 <= p <= 64 ->
  Z.land x (bnot 64 (2 ^ p - 1)) = x - x mod 2 ^ p.
Proof.
  intros Hx Hp. replace (2 ^ p - 1) with (Z.ones p) by (rewrite Z.ones_equiv; lia).
  transitivity (Z.ldiff x (Z.ones p)).
  - unfold bnot. apply Z.bits_inj'. intros i Hi.
    rewrite Z.land_spec, Z.ldiff_spec, wrap_spec, Z.lnot_spec by lia.
    destruct (Z.ltb_spec i 64); [done |]. rewrite (fits_testbit 64 x) by (done || lia). done.
  - rewrite Z.ldiff_ones_r by lia. rewrite Z.shiftl_mul_pow2, Z.shiftr_div_pow2 by lia.
    pose proof (Z.div_mod x (2 ^ p) ltac:(lia)). lia.
Qed.

Lemma ALIGN_8 size : 0 <= size < 2 ^ 63 ->
  exists k, ALIGN size 8 = 8 * k /\ size <= ALIGN size 8 < size + 8.
Proof.
  intros Hs. unfold ALIGN. rewrite wrap_id by (unfold fits; lia).
  change (8 - 1) with (2 ^ 3 - 1). rewrite land_bnot_ones by (unfold fits; lia).
  exists ((size + 8 - 1) / 2 ^ 3). pose proof (Z.div_mod (size + 8 - 1) (2 ^ 3) ltac:(lia)).
  pose proof (Z.mod_pos_bound (size + 8 - 1) (2 ^ 3) ltac:(lia)). lia.
Qed.

Lemma use_addr_spec b p : 0 <= b -> 0 <= p <= 14 -> b + 2 ^ 15 < 2 ^ 64 ->
  use_addr b (2 ^ p) mod 2 ^ p = 0 /\ b + 32 <= use_addr b (2 ^ p) < b + 32 + 2 ^ p.
Proof.
  intros Hb Hp Hw. unfold use_addr, FSC_MEM_SLICE_HEAD_SIZE.
  assert (2 ^ p <= 2 ^ 14) by (apply Z.pow_le_mono_r; lia).
  assert (0 < 2 ^ p) by lia.
  rewrite land_bnot_ones by (unfold fits; lia).
  set (x := b + 32 + 2 ^ p - 1). pose proof (Z.mod_pos_bound x (2 ^ p) ltac:(lia)).
  split; [| lia]. pose proof (Z.div_mod x (2 ^ p) ltac:(lia)) as E.
  replace (x - x mod 2 ^ p) with (x / 2 ^ p * 2 ^ p) by lia. apply Z.mod_mul. lia.
Qed.

Lemma alloc_size_value size p : 0 < size -> 3 <= p <= 14 -> size + 2 ^ 15 < 2 ^ 32 ->
  fsc_alloc_size size (2 ^ p) = ALIGN size 8 + 2 ^ p + 28.
Proof.
  intros Hs Hp Hw. destruct (ALIGN_8 size) as (k & Hk & Hb); [lia |].
  assert (2 ^ 3 <= 2 ^ p <= 2 ^ 14) by (split; apply Z.pow_le_mono_r; lia).
  unfold fsc_alloc_size, FSC_MEM_SIZE_ALIGN, FSC_MEM_USED_HEAD_SIZE, FSC_MEM_TAIL_SIZE.
  rewrite wrap_id by (unfold fits; lia). lia.
Qed.

(** A block at a multiple of 8, as the comment in [bm_memory_alloc_inner_fs]
    assumes. *)
Lemma layout_at_8 b size p :
  0 <= b -> b mod 8 = 0 -> b + 2 ^ 15 < 2 ^ 64 ->
  0 < size -> size + 2 ^ 15 < 2 ^ 32 -> 3 <= p <= 14 ->
  use_addr b (2 ^ p) mod 2 ^ p = 0 /\
  b + FSC_MEM_SLICE_HEAD_SIZE <= use_addr b (2 ^ p) /\
  use_addr b (2 ^ p) + size <= tail_addr b size (2 ^ p).
Proof.
  intros Hb Hb8 Hw Hs Hsw Hp.
  destruct (use_addr_spec b p) as [H1 H2]; [done | lia | done |].
  split; [done |]. split; [unfold FSC_MEM_SLICE_HEAD_SIZE; lia |].
  unfold tail_addr, FSC_MEM_TAIL_SIZE. rewrite alloc_size_value by done.
  destruct (ALIGN_8 size) as (k & Hk & Hb'); [lia |].
  set (u := use_addr b (2 ^ p)) in *.
  assert (2 ^ p = 8 * 2 ^ (p - 3)) as Hp3 by (replace 8 with (2 ^ 3) by done;
    rewrite <- Z.pow_add_r by lia; f_equal; lia).
  assert (u mod 8 = 0) as Hu.
  { apply Z.mod_divide in H1; [| lia]. apply Z.mod_divide; [lia |].
    destruct H1 as [q Hq]. exists (q * 2 ^ (p - 3)). lia. }
  apply Z.mod_divide in Hu as [q Hq]; [| lia]. apply Z.mod_divide in Hb8 as [r Hr]; [| lia]. lia.
Qed.

(** A block at 4 modulo 8, where the code puts it. *)
Lemma layout_at_4 b size :
  0 <= b -> b mod 8 = 4 -> b + 2 ^ 15 < 2 ^ 64 ->
  0 < size -> size mod 8 = 0 -> size + 2 ^ 15 < 2 ^ 32 ->
  fsc_alloc_size size 8 mod 8 = 4 /\
  use_addr b 8 + size = tail_addr b size 8 + FSC_MEM_TAIL_SIZE.
Proof.
  intros Hb Hb8 Hw Hs Hs8 Hsw. change 8 with (2 ^ 3) at 1 3 4.
  unfold tail_addr, FSC_MEM_TAIL_SIZE. rewrite alloc_size_value by lia.
  destruct (ALIGN_8 size) as (k & Hk & Hb'); [lia |].
  destruct (use_addr_spec b 3) as [H1 H2]; [done | lia | done |].
  set (u := use_addr b (2 ^ 3)) in *. change (2 ^ 3) with 8 in *.
  apply Z.mod_divide in H1 as [q Hq]; [| lia]. apply Z.mod_divide in Hs8 as [r Hr]; [| lia].
  pose proof (Z.div_mod b 8 ltac:(lia)). split; [| lia].
  rewrite Hk. replace (8 * k + 8 + 28) with (4 + (k + 4) * 8) by lia. by rewrite Z.mod_add.
Qed.

(** the layout of an allocated block.  When it starts at a multiple of 8,
    as the comment in [bm_memory_alloc_inner_fs] assumes, the address handed
    out is aligned as asked (8 bytes to 16 KB) and behind the header, and the
    payload ends before the tail magic number.  But the tail makes every
    [alloc_size] 4 modulo 8, so the block cut from the end of an 8-aligned
    free block starts at 4 modulo 8; there, for a size that is a multiple of
    8, the last four bytes of the payload are the tail magic number itself. *)
Theorem alloc_layout b size p :
  0 <= b -> b + 2 ^ 15 < 2 ^ 64 -> 0 < size -> size + 2 ^ 15 < 2 ^ 32 -> 3 <= p <= 14 ->
  (b mod 8 = 0 ->
     use_addr b (2 ^ p) mod 2 ^ p = 0 /\
     b + FSC_MEM_SLICE_HEAD_SIZE <= use_addr b (2 ^ p) /\
     use_addr b (2 ^ p) + size <= tail_addr b size (2 ^ p)) /\
  (b mod 8 = 4 -> size mod 8 = 0 ->
     fsc_alloc_size size 8 mod 8 = 4 /\
     use_addr b 8 + size = tail_addr b size 8 + FSC_MEM_TAIL_SIZE).
Proof. intros. split; intros; [by apply layout_at_8 | by apply layout_at_4]. Qed.

Lemma alloc_layout_witness :
  use_addr 0x1000 8 + 16 <= tail_addr 0x1000 16 8 /\
  use_addr 0x3fa4 8 + 16 = tail_addr 0x3fa4 16 8 + FSC_MEM_TAIL_SIZE.
Proof.
  split; [apply (alloc_layout 0x1000 16 3) | apply (alloc_layout 0x3fa4 16 3)]; reflexivity || lia.
Defined.

(** ** The allocator's state *)
Section Heap.
Context {G D : Type} `{MD : Machine D} `{HM : !Has G mem} `{HS : !Has G fsc}.
Context `{IN : !Indep G mem fsc}.
Context `{LY : FscLayout}.
Implicit Types (w : world G D).

Definition setf (f : fsc) w : world G D := World (hput f (glob w)) (dev w) (tr w).
Abbreviation fscof w := (hget (S := fsc) (glob w)).
Abbreviation ampof w := (g_memory_bit_amp (fscof w)).

Lemma memof_setf f w : memof (setf f w) = memof w.
Proof. apply indep_r. Qed.
Lemma fscof_setm m w : fscof (setm m w) = fscof w.
Proof. apply indep_l. Qed.
Lemma fscof_setf f w : fscof (setf f w) = f.
Proof. apply hget_hput. Qed.

Lemma wp_modf (f : fsc -> fsc) (Q : unit -> world G D -> Prop) w :
  Q tt (setf (f (fscof w)) w) -> wp (modg f) Q w.
Proof. done. Qed.

Lemma wp_getf (Q : fsc -> world G D -> Prop) w : Q (fscof w) w -> wp gets Q w.
Proof. done. Qed.

Lemma wp_memset_s dest n c (Q : Z -> world G D -> Prop) w :
  0 <= n <= SECUREC_MEM_MAX_LEN -> dest <> NULL -> mapped (memof w) dest n ->
  Q EOK (setm (wr (memof w) dest (replicate (Z.to_nat n) (u8 c))) w) ->
  wp (memset_s dest n c n) Q w.
Proof.
  intros Hn Hd Hm HQ. unfold memset_s, SECUREC_MEMSET_PARAM_OK.
  replace (_ && _) with true by lia. wp_step. wp_apply memset_stores; [lia | done |].
  intros [] w' ->. by apply wp_ret.
Qed.

(** The list heads: every list is empty, but for the list [k] when it holds
    the one block [b]. *)
Definition heads (m : mem) (one : option (Z * Z)) : Prop :=
  forall i, 0 <= i < 31 ->
    let b := match one with
             | Some (k, b) => if decide (i = k) then b else node i
             | None => node i
             end in
    m64 m (f_next (node i)) = Some b /\ m64 m (f_prev (node i)) = Some b.

(** The addresses in use. *)
Record region (m : mem) (addr S : Z) : Prop := {
  rg_low : 0 < addr /\ 0 < g_memory_node_list;
  rg_size : 32 <= S <= 2 ^ 31 - 40;
  rg_high : addr + S + 2 ^ 15 < 2 ^ 64 /\ g_memory_node_list + 992 < 2 ^ 64;
  rg_align : addr mod 4 = 0 /\ S mod 4 = 0;
  rg_disj : g_memory_node_list + 992 <= addr \/ addr + S + 32 <= g_memory_node_list;
  rg_map : mapped m addr (S + 32);
  rg_nodes : mapped m g_memory_node_list 992;
}.

(** The block [addr, addr + P) is free and in its list. *)
Record free_block (m : mem) (addr P : Z) : Prop := {
  fb_next : m64 m (f_next addr) = Some (node (FSC_MEM_SZ2IDX P));
  fb_prev : m64 m (f_prev addr) = Some (node (FSC_MEM_SZ2IDX P));
  fb_size : m64 m (f_size addr) = Some P;
  fb_psize : m64 m (f_prev_size addr) = Some 0;
}.

Record sentinel (m : mem) (a : Z) : Prop := {
  se_next : m64 m (f_next a) = Some FSC_MEM_MAGIC_USED;
  se_size : m64 m (f_size a) = Some 0;
}.

(** The bit of list [k] is set, and the one behind all lists. *)
Definition amp_ok (amp : Z) (one : option Z) : Prop :=
  fits 32 amp /\ Z.testbit amp 0 = true /\
  match one with Some k => Z.testbit amp (31 - k) = true | None => True end.

(** The whole region is one free block. *)
Record fresh (m : mem) (amp addr S : Z) : Prop := {
  fr_region : region m addr S;
  fr_heads : heads m (Some (FSC_MEM_SZ2IDX S, addr));
  fr_block : free_block m addr S;
  fr_sent : sentinel m (addr + S);
  fr_amp : amp_ok amp (Some (FSC_MEM_SZ2IDX S));
}.
End Heap.

Ltac addr := unfold f_next, f_size, f_prev_size, f_prev, node in *;
  rewrite ?length_le_bytes, ?length_replicate; simpl length; lia.

(** Read a field through the stores made so far. *)
Ltac norm := repeat first
  [ rewrite memof_setm | rewrite memof_setf | rewrite fscof_setm | rewrite fscof_setf
  | rewrite setm_setm ].
Ltac fld :=
  norm;
  repeat first
    [ rewrite m64_wr_eq by (unfold fits, FSC_MEM_MAGIC_USED in *; addr)
    | rewrite m64_wr_ne by addr ];
  try done.

Lemma IDX2BIT_testbit k i : 0 <= k <= 31 -> 0 <= i ->
  Z.testbit (FSC_MEM_IDX2BIT k) i = (i =? 31 - k).
Proof.
  intros Hk Hi. unfold FSC_MEM_IDX2BIT. change 0x80000000 with (2 ^ 31).
  rewrite Z.shiftr_spec, Z.pow2_bits_eqb by lia. zcases.
Qed.

Lemma SZ2IDX_range v : 0 <= FSC_MEM_SZ2IDX v <= 31.
Proof.
  unfold FSC_MEM_SZ2IDX. destruct (bm_get_bits_spec (u32 v)) as (H & _); [by apply wrap_fits | lia].
Qed.

Lemma SZ2IDX_small v : 0 <= v < 2 ^ 31 -> 0 <= FSC_MEM_SZ2IDX v < 31.
Proof.
  intros Hv. pose proof (SZ2IDX_range v). rewrite SZ2IDX_log2 in * by (unfold fits; lia).
  split; [lia |]. destruct (decide (v = 0)) as [-> | ?]; [done |].
  apply Z.log2_lt_pow2; lia.
Qed.

(** Setting the bit of a list. *)
Lemma amp_set amp k : fits 32 amp -> Z.testbit amp 0 = true -> 0 <= k <= 31 ->
  amp_ok (u32 (Z.lor amp (FSC_MEM_IDX2BIT k))) (Some k).
Proof.
  intros Hf H0 Hk. split; [by apply wrap_fits |].
  rewrite !wrap_spec, !Z.lor_spec, !IDX2BIT_testbit, H0 by lia. split; [done |].
  rewrite Z.eqb_refl, orb_true_r. zcases.
Qed.

Section Init.
Context {G D : Type} `{MD : Machine D} `{HM : !Has G mem} `{HS : !Has G fsc}.
Context `{IN : !Indep G mem fsc}.
Context `{LY : FscLayout}.
Implicit Types (w : world G D).
Abbreviation fscof w := (hget (S := fsc) (glob w)).
Abbreviation ampof w := (g_memory_bit_amp (fscof w)).

(** The status of [bm_memory_init_fsc]. *)
Definition init_status (addr size : Z) : Z :=
  if decide (addr = NULL) then ERRNO_MEM_INITADDR_ISINVALID
  else if decide (addr mod 4 <> 0) then ERRNO_MEM_INITADDR_INVALID
  else if decide (size mod 4 <> 0) then ERRNO_MEM_INITSIZE_INVALID
  else if decide (size < 32) then ERRNO_MEM_PTCREATE_SIZE_ISTOHWMALL
  else if decide (2 ^ 31 - 8 < size) then ERRNO_MEM_PTCREATE_SIZE_ISTOOBIG
  else EOK.

Lemma GETBIT_mod a : (MEM_GETBIT a =? 0) = bool_decide (a mod 4 = 0).
Proof.
  unfold MEM_GETBIT. change 3 with (Z.ones 2). rewrite Z.land_ones by lia.
  change (2 ^ 2) with 4. case_bool_decide; lia.
Qed.

(** The loop over the list heads. *)
Lemma wp_init_heads m0 w : mapped (memof w) g_memory_node_list 992 -> m0 = memof w ->
  0 < g_memory_node_list /\ g_memory_node_list + 992 < 2 ^ 64 ->
  wp (for_up 31 0 (fun idx => st64 (f_prev (node idx)) (node idx) ;;
                              st64 (f_next (node idx)) (node idx)))
     (fun _ w' => exists m, w' = setm m w /\ heads m None /\
        (forall b n, mapped m0 b n -> mapped m b n)) w.
Proof.
  intros Hm -> Hh. eapply wp_mono; [apply (wp_for_up (fun k w' => exists m, w' = setm m w /\
    (forall i, 0 <= i < k -> m64 m (f_next (node i)) = Some (node i) /\
                             m64 m (f_prev (node i)) = Some (node i)) /\
    (forall b n, mapped (memof w) b n -> mapped m b n))) |].
  - exists (memof w). rewrite setm_memof. split; [done |]. split; [intros; lia | done].
  - intros k w' Hk (m & -> & Hn & Hmm).
    assert (mapped m (node k) 32) as Hmk.
    { apply (mapped_sub m g_memory_node_list 992); [by apply Hmm | unfold node; lia..]. }
    wp_step. apply wp_st64; norm; [apply (mapped_sub _ _ _ _ _ Hmk); addr |].
    apply wp_st64; norm; [apply mapped_wr, (mapped_sub _ _ _ _ _ Hmk); addr |].
    eexists. split; [done |]. split.
    + intros i Hi. destruct (decide (i = k)) as [-> | Hne].
      * split; fld.
      * destruct (Hn i ltac:(lia)). split; fld.
    + intros b n Hb. by apply mapped_wr, mapped_wr, Hmm.
  - intros _ w' (m & -> & Hn & Hmm). exists m. split; [done |]. split; [| done].
    intros i Hi. apply Hn. lia.
Qed.

(** One store into the region's or the heads' addresses. *)
Lemma wp_store64 a v (Q : unit -> world G D -> Prop) m b n w :
  memof w = m -> mapped m b n -> b <= a -> a + 8 <= b + n ->
  Q tt (setm (wr m a (le_bytes 8 v)) w) -> wp (st64 a v) Q w.
Proof. intros <- Hm H1 H2 HQ. apply wp_st64; [by eapply mapped_sub | done]. Qed.

Lemma heads_set m k b : heads m None -> 0 <= k < 31 ->
  heads (wr (wr m (f_next (node k)) (le_bytes 8 b)) (f_prev (node k)) (le_bytes 8 b))
        (Some (k, b)) \/ ~ fits 64 b.
Proof.
  intros Hh Hk. destruct (decide (fits 64 b)); [left | by right].
  intros i Hi. destruct (Hh i Hi) as [H1 H2]. cbv zeta. case_decide; [subst i |].
  - split; fld.
  - split; fld.
Qed.

Lemma heads_ext m m' o : heads m o ->
  (forall i, 0 <= i < 31 -> m64 m' (f_next (node i)) = m64 m (f_next (node i)) /\
                            m64 m' (f_prev (node i)) = m64 m (f_prev (node i))) ->
  heads m' o.
Proof. intros Hh He i Hi. destruct (He i Hi) as [-> ->]. by apply Hh. Qed.

Lemma init_lists_fresh addr size w :
  let S := size - 32 in
  region (memof w) addr S -> fits 32 (ampof w) ->
  wp (fsc_init_lists addr size)
     (fun _ w' => fresh (memof w') (ampof w') addr S) w.
Proof.
  intros S [Hlow Hsz Hhigh Hal Hdis Hmap Hnodes] Hamp. unfold fsc_init_lists.
  wp_step. wp_apply wp_init_heads; [done | done | lia |]. intros _ w' (m & -> & Hh & Hmm).
  apply Hmm in Hmap, Hnodes. clear Hmm.
  assert (u32 (size - FSC_MEM_USED_HEAD_SIZE) = S) as HS'.
  { unfold FSC_MEM_USED_HEAD_SIZE. apply wrap_id. unfold fits. lia. }
  rewrite HS'. pose proof (SZ2IDX_small S ltac:(lia)) as Hidx. set (k := FSC_MEM_SZ2IDX S) in *.
  cbv zeta. do 2 (wp_step; apply wp_modf).
  assert (forall a, addr <= a -> a + 8 <= addr + S + 32 -> mapped m a 8) as Hm1
    by (intros; apply (mapped_sub _ _ _ _ _ Hmap); lia).
  assert (forall a, g_memory_node_list <= a -> a + 8 <= g_memory_node_list + 992 -> mapped m a 8)
    as Hm2 by (intros; apply (mapped_sub _ _ _ _ _ Hnodes); lia).
  assert (fits 64 addr) as Hfa by (unfold fits; lia).
  assert (fits 64 S) as HfS by (unfold fits; lia).
  assert (fits 64 (node k)) as Hfn by (unfold fits, node; lia).
  do 6 (wp_step; apply wp_st64; norm; [repeat apply mapped_wr; first [apply Hm1; addr | apply Hm2; addr] |]).
  wp_step. eapply (wp_ld64 _ S); [fld |].
  wp_step. apply wp_st64; norm; [repeat apply mapped_wr; apply Hm1; addr |].
  apply wp_st64; norm; [repeat apply mapped_wr; apply Hm1; addr |]. norm.
  split.
  - split; try done; repeat apply mapped_wr; done.
  - eapply heads_ext; [destruct (heads_set m k addr Hh Hidx) as [H | H]; [exact H | done] |].
    intros i Hi. destruct (decide (i = k)) as [-> | Hne]; split; fld; symmetry; fld.
  - fold k. split; fld.
  - split; fld.
  - fold k. apply amp_set; [| | lia].
    + simpl. apply lor_fits; [lia | done | unfold fits; rewrite Z.shiftl_mul_pow2 by done; unfold FSC_MEM_LAST_IDX; lia].
    + unfold set_bit_amp. cbn [g_memory_bit_amp]. rewrite Z.lor_spec. apply orb_true_r.
Qed.

Lemma init_fsc_spec addr size w :
  fits 64 addr -> fits 32 size -> fits 32 (ampof w) ->
  (init_status addr size = EOK -> region (memof w) addr (size - 32)) ->
  wp (bm_memory_init_fsc addr size)
     (fun r w' => r = init_status addr size /\
        (r <> EOK -> w' = w) /\
        (r = EOK -> fresh (memof w') (ampof w') addr (size - 32) /\
           g_memory_arith_api (fscof w') = TagMemoryFuncs (Some bm_memory_alloc_os_ptr)
             (Some bm_memory_alloc_os_align_ptr) (Some bm_memory_free_fsc_ptr))) w.
Proof.
  intros Ha Hs Hamp Hreg. unfold bm_memory_init_fsc, init_status in *.
  rewrite !GETBIT_mod. unfold NULL, FSC_MEM_USED_HEAD_SIZE, FSC_MEM_MAXVAL,
    FSC_MEM_LAST_IDX, FSC_MEM_SIZE_ALIGN in *.
  change (Z.shiftl 1 31 - 8) with (2 ^ 31 - 8).
  assert (forall e, e <> EOK -> wp (mret e : M G D Z) (fun r w' => r = e /\ (r <> EOK -> w' = w) /\
    (r = EOK -> fresh (memof w') (ampof w') addr (size - 32) /\
       g_memory_arith_api (fscof w') = TagMemoryFuncs (Some bm_memory_alloc_os_ptr)
             (Some bm_memory_alloc_os_align_ptr) (Some bm_memory_free_fsc_ptr))) w) as Herr.
  { intros e He. apply wp_ret. repeat split; intros; done. }
  destruct (decide (addr = 0)) as [-> | H0]; [by apply Herr |].
  rewrite (proj2 (Z.eqb_neq addr 0) H0).
  case_bool_decide as H1; cbn [negb];
    [rewrite decide_False by tauto | rewrite decide_True by done; by apply Herr].
  case_bool_decide as H2; cbn [negb];
    [rewrite decide_False in * by tauto | rewrite decide_True by done; by apply Herr].
  destruct (Z.ltb_spec size 32); [rewrite decide_True by done; by apply Herr |].
  rewrite decide_False in * by lia.
  destruct (Z.ltb_spec (2 ^ 31 - 8) size); [rewrite decide_True by done; by apply Herr |].
  rewrite !decide_False in * by (lia || tauto). specialize (Hreg eq_refl).
  pose proof Hreg as [Hlow Hsz Hhigh Hal Hdis Hmap Hnodes].
  wp_step. apply wp_memset_s; [unfold SECUREC_MEM_MAX_LEN; lia | done | |].
  { replace size with (size - 32 + 32) by lia. done. }
  rewrite Z.eqb_refl. cbn [negb]. wp_step. wp_apply init_lists_fresh.
  - norm. split; try done; by apply mapped_wr.
  - by norm.
  - intros [] w' Hf. wp_step. apply wp_modf. apply wp_ret. norm.
    split; [done |]. split; [done |]. intros _. split; [exact Hf | done].
Qed.

(** [bm_memory_init_fsc] reports each bad argument with its own code and
    then changes nothing; otherwise it leaves the region as one free block in
    the right list, all other lists empty, the end marked as used, and the
    function table filled. *)
Theorem bm_memory_init_fsc_correct addr size w :
  fits 64 addr -> fits 32 size -> fits 32 (ampof w) ->
  (init_status addr size = EOK -> region (memof w) addr (size - 32)) ->
  wp (bm_memory_init_fsc addr size)
     (fun r w' => r = init_status addr size /\
        (r <> EOK -> w' = w) /\
        (r = EOK -> fresh (memof w') (ampof w') addr (size - 32) /\
           g_memory_arith_api (fscof w') = TagMemoryFuncs (Some bm_memory_alloc_os_ptr)
             (Some bm_memory_alloc_os_align_ptr) (Some bm_memory_free_fsc_ptr))) w.
Proof. apply init_fsc_spec. Qed.
End Init.

Lemma amp_window amp idx : fits 32 amp -> 0 <= idx <= 32 ->
  Z.shiftr (u32 (Z.shiftl amp idx)) idx = wrap (32 - idx) amp.
Proof.
  intros Hf Hi. apply Z.bits_inj'. intros i Hn.
  rewrite Z.shiftr_spec, wrap_spec, shiftl_spec', wrap_spec by lia.
  replace (i + idx - idx) with i by lia.
  destruct (Z.ltb_spec (i + idx) 32), (Z.leb_spec idx (i + idx)), (Z.ltb_spec i (32 - idx));
    lia || done.
Qed.

Lemma amp_clear amp i b : fits 32 amp -> 0 <= i <= 31 -> 0 <= b ->
  Z.testbit (Z.land amp (bnot 64 (FSC_MEM_IDX2BIT i))) b = Z.testbit amp b && negb (b =? 31 - i).
Proof.
  intros Hf Hi Hb. unfold bnot. rewrite Z.land_spec, wrap_spec, Z.lnot_spec, IDX2BIT_testbit by lia.
  destruct (Z.ltb_spec b 64); [done |]. rewrite (fits_testbit 32 amp) by (done || lia). done.
Qed.

(** The next list, from [idx] on, whose bit is set. *)
Lemma next_list amp idx : fits 32 amp -> 0 <= idx <= 31 ->
  let i := bm_get_bits (Z.shiftr (u32 (Z.shiftl amp idx)) idx) in
  0 <= i <= 31 /\
  (i < 31 -> idx <= i /\ Z.testbit amp (31 - i) = true) /\
  (forall k, idx <= k <= 31 -> Z.testbit amp (31 - k) = true -> i <= k).
Proof.
  intros Hf Hi. cbv zeta. rewrite amp_window by (done || lia).
  assert (fits 32 (wrap (32 - idx) amp)) as Hw.
  { apply (fits_mono (32 - idx)); [lia | apply wrap_fits; lia]. }
  destruct (bm_get_bits_spec _ Hw) as (H1 & H2 & H3).
  set (i := bm_get_bits _) in *. split; [done |]. split.
  - intros Hlt. specialize (H3 Hlt). rewrite wrap_spec in H3 by lia.
    apply andb_true_iff in H3 as [Ha Hb]. split; [lia | done].
  - intros k Hk Hkb. destruct (Z.le_gt_cases i k); [done |].
    specialize (H2 k ltac:(lia)). rewrite wrap_spec, Hkb in H2 by lia. lia.
Qed.

Section Search.
Context {G D : Type} `{MD : Machine D} `{HM : !Has G mem} `{HS : !Has G fsc}.
Context `{IN : !Indep G mem fsc}.
Context `{LY : FscLayout}.
Implicit Types (w : world G D).
Abbreviation fscof w := (hget (S := fsc) (glob w)).
Abbreviation ampof w := (g_memory_bit_amp (fscof w)).

Lemma search_useable_fresh fuel size addr S w :
  fresh (memof w) (ampof w) addr S -> size <= S -> (0 < fuel)%nat ->
  wp (search_useable_fsc fuel size (FSC_MEM_SZ2IDX S)) (fun r w' => r = addr /\ w' = w) w.
Proof.
  intros [Hr Hh Hb Hse Ha] Hle Hf. pose proof Hr as [Hlow Hsz Hhigh Hal Hdis Hmap Hnodes].
  pose proof (SZ2IDX_small S ltac:(lia)) as Hk. set (k := FSC_MEM_SZ2IDX S) in *.
  destruct (Hh k Hk) as [Hn _]. cbv zeta in Hn. rewrite decide_True in Hn by done.
  unfold search_useable_fsc. wp_step. eapply wp_ld64; [exact Hn |].
  destruct fuel as [| fuel]; [lia |]. cbn [loop]. wp_step.
  replace (addr =? node k) with false by (unfold node; lia).
  wp_step. eapply wp_ld64; [apply Hb |]. rewrite (proj2 (Z.leb_le _ _) Hle). by wp_steps.
Qed.

Lemma search_fresh fuel size addr S w :
  fresh (memof w) (ampof w) addr S -> 0 < size <= S -> (0 < fuel)%nat ->
  wp (bm_memory_search_fsc fuel size)
     (fun r w' => r = (addr, FSC_MEM_SZ2IDX S) /\
        exists f, w' = setf f w /\ fresh (memof w) (g_memory_bit_amp f) addr S) w.
Proof.
  intros Hfr Hsz Hfuel. pose proof Hfr as [Hr Hh Hb Hse Ha].
  pose proof Hr as [Hlow HS' Hhigh Hal Hdis Hmap Hnodes].
  unfold bm_memory_search_fsc.
  pose proof (SZ2IDX_small S ltac:(lia)) as Hk. pose proof (SZ2IDX_small size ltac:(lia)) as Hj.
  assert (FSC_MEM_SZ2IDX size <= FSC_MEM_SZ2IDX S) as Hjk.
  { rewrite !SZ2IDX_log2 by (unfold fits; lia). apply Z.log2_le_mono. lia. }
  set (k := FSC_MEM_SZ2IDX S) in *. set (j := FSC_MEM_SZ2IDX size) in *.
  apply (wp_loop
    (fun idx w' => j < idx <= 31 /\ (j < k -> idx <= k) /\
       exists f, w' = setf f w /\ fresh (memof w) (g_memory_bit_amp f) addr S)
    (fun idx w' => Z.to_nat (if Z.testbit (ampof w') (31 - idx) then 32 - idx else 31 - idx))).
  - clear Hfr Ha. intros idx w' (Hi & Hik & f & -> & Hfr). pose proof (fr_amp _ _ _ _ Hfr) as (Hf & H0 & Hkb).
    wp_step. apply wp_getf. norm.
    destruct (next_list (g_memory_bit_amp f) idx Hf ltac:(lia)) as (N1 & N2 & N3).
    set (i := bm_get_bits _) in *. unfold FSC_MEM_LAST_IDX.
    assert (j < k -> i <= k) as Hilek by (intros; apply N3; [lia | done]).
    destruct (Z.leb_spec 31 i).
    + assert (j = k) as Ejk by lia. unfold j in Ejk. fold j in Ejk. rewrite Ejk.
      wp_step. wp_apply search_useable_fresh; [by norm | lia | done |].
      intros r w' [-> ->]. wp_steps. split; [done |]. by exists f.
    + destruct (N2 ltac:(done)) as [Hge Hib]. destruct (Hh i ltac:(lia)) as [Hn _]. cbv zeta in Hn.
      wp_step. eapply wp_ld64; [norm; exact Hn |].
      case_decide as Hik'; [| rewrite Z.eqb_refl].
      * subst i. replace (addr =? node _) with false by (unfold node; lia).
        wp_steps. split; [by rewrite Hik' |]. by exists f.
      * wp_step. apply wp_modf. wp_steps. norm. unfold set_bit_amp. cbn [g_memory_bit_amp].
        rewrite !amp_clear by (done || lia). rewrite Z.eqb_refl, andb_false_r.
        split; [| destruct (decide (idx = i)) as [E | ?]; [rewrite E, Hib; lia | case_match; lia]].
        split; [lia |]. split; [done |]. eexists. split; [unfold setf; simpl; by rewrite hput_hput |].
        destruct Hfr as [F1 F2 F3 F4 _]. split; try done. simpl. split.
        { by apply land_fits_l. }
        fold k in Hkb. rewrite !amp_clear by (done || lia). fold k. rewrite H0, Hkb.
        split; lia.
  - split; [lia |]. split; [lia |]. exists (fscof w). split; [| done].
    unfold setf. rewrite hput_hget. by destruct w.
  - case_match; lia.
Qed.
End Search.

(** ** One block carved out of the region *)
Section Carve.
Context {G D : Type} `{MD : Machine D} `{HM : !Has G mem} `{HS : !Has G fsc}.
Context `{IN : !Indep G mem fsc}.
Context `{LY : FscLayout}.
Implicit Types (w : world G D).
Abbreviation fscof w := (hget (S := fsc) (glob w)).
Abbreviation ampof w := (g_memory_bit_amp (fscof w)).

Definition lead_list (addr P : Z) : option (Z * Z) :=
  if decide (P = 0) then None else Some (FSC_MEM_SZ2IDX P, addr).
Definition lead_bit (P : Z) : option Z :=
  if decide (P = 0) then None else Some (FSC_MEM_SZ2IDX P).

(** The last [S - P] bytes are a block in use, whose payload is at [use];
    what is in front of it, if anything, is free. *)
Record carved (m : mem) (amp addr S P use : Z) : Prop := {
  cv_region : region m addr S;
  cv_P : P = 0 \/ 40 <= P;
  cv_P_align : P mod 4 = 0;
  cv_heads : heads m (lead_list addr P);
  cv_front : P <> 0 -> free_block m addr P;
  cv_next : m64 m (f_next (addr + P)) = Some FSC_MEM_MAGIC_USED;
  cv_size : m64 m (f_size (addr + P)) = Some (S - P);
  cv_psize : m64 m (f_prev_size (addr + P)) = Some P;
  cv_tail : rd m (addr + S - 4) 4 = Some (le_bytes 4 FSC_MEM_TAIL_MAGIC);
  cv_off : rd m (use - 2) 2 = Some (le_bytes 2 (use - (addr + P + 32)));
  cv_use : addr + P + 32 <= use < addr + P + 2 ^ 15 /\ use <= addr + S - 4;
  cv_sent : sentinel m (addr + S);
  cv_amp : amp_ok amp (lead_bit P);
}.

Definition unlinked (m : mem) (k : Z) : mem :=
  wr (wr m (f_prev (node k)) (le_bytes 8 (node k))) (f_next (node k)) (le_bytes 8 (node k)).

(** Deleting the only block of a list. *)
Lemma wp_delete_only b k w :
  mapped (memof w) (node k) 32 -> fits 64 (node k) ->
  m64 (memof w) (f_next b) = Some (node k) -> m64 (memof w) (f_prev b) = Some (node k) ->
  b + 32 <= node k \/ node k + 32 <= b ->
  wp (bm_memory_delete_fsc b) (fun _ w' => w' = setm (unlinked (memof w) k) w) w.
Proof.
  intros Hm Hf Hn Hp Hd. unfold bm_memory_delete_fsc.
  wp_step. eapply wp_ld64; [exact Hn |]. wp_step. eapply wp_ld64; [exact Hp |].
  wp_step. apply wp_st64; [apply (mapped_sub _ _ _ _ _ Hm); unfold f_prev; lia |].
  wp_step. eapply wp_ld64; [fld; exact Hp |]. wp_step. eapply wp_ld64; [fld; exact Hn |].
  apply wp_st64; norm; [apply mapped_wr, (mapped_sub _ _ _ _ _ Hm); unfold f_next; lia | done].
Qed.

Definition linked (m : mem) (b k : Z) : mem :=
  wr (wr (wr (wr m (f_prev b) (le_bytes 8 (node k))) (f_next b) (le_bytes 8 (node k)))
    (f_prev (node k)) (le_bytes 8 b)) (f_next (node k)) (le_bytes 8 b).

(** Inserting into an empty list. *)
Lemma wp_insert_empty b size w :
  let k := FSC_MEM_SZ2IDX size in
  mapped (memof w) (node k) 32 -> mapped (memof w) b 32 -> fits 64 (node k) ->
  m64 (memof w) (f_size b) = Some size -> m64 (memof w) (f_next (node k)) = Some (node k) ->
  b + 32 <= node k \/ node k + 32 <= b ->
  wp (bm_memory_insert_fsc b)
     (fun _ w' => w' = setm (linked (memof w) b k)
        (setf (set_bit_amp (u32 (Z.lor (ampof w) (FSC_MEM_IDX2BIT k))) (fscof w)) w)) w.
Proof.
  intros k Hm Hb Hf Hs Hn Hd. unfold bm_memory_insert_fsc.
  wp_step. eapply wp_ld64; [exact Hs |]. cbv zeta. fold k.
  wp_step. apply wp_modf.
  wp_step. apply wp_st64; norm; [apply (mapped_sub _ _ _ _ _ Hb); addr |].
  wp_step. eapply wp_ld64; [fld; exact Hn |].
  wp_step. apply wp_st64; norm; [apply mapped_wr, (mapped_sub _ _ _ _ _ Hb); addr |].
  wp_step. eapply wp_ld64; [fld; exact Hn |].
  wp_step. apply wp_st64; norm; [apply mapped_wr, mapped_wr, (mapped_sub _ _ _ _ _ Hm); addr |].
  apply wp_st64; norm; [do 3 apply mapped_wr; apply (mapped_sub _ _ _ _ _ Hm); addr | done].
Qed.

Lemma region_ext m m' addr S : region m addr S ->
  (forall b n, mapped m b n -> mapped m' b n) -> region m' addr S.
Proof. intros [] Hm. split; try done; by apply Hm. Qed.

Lemma mapped_linked m b k a n : mapped m a n -> mapped (linked m b k) a n.
Proof. intros. by repeat apply mapped_wr. Qed.
Lemma mapped_unlinked m k a n : mapped m a n -> mapped (unlinked m k) a n.
Proof. intros. by repeat apply mapped_wr. Qed.

(** The heads after taking the only block out, and after putting one in. *)
Lemma heads_unlinked m addr k : heads m (Some (k, addr)) -> 0 <= k < 31 -> fits 64 (node k) ->
  heads (unlinked m k) None.
Proof.
  intros Hh Hk Hf i Hi. destruct (Hh i Hi) as [H1 H2]. cbv zeta in *. unfold unlinked.
  case_decide; [subst i |]; split; fld.
Qed.

Lemma heads_linked m addr k : heads m None -> 0 <= k < 31 -> fits 64 addr ->
  (addr + 32 <= g_memory_node_list \/ g_memory_node_list + 992 <= addr) ->
  heads (linked m addr k) (Some (k, addr)).
Proof.
  intros Hh Hk Hf Hd i Hi. destruct (Hh i Hi) as [H1 H2]. cbv zeta in *. unfold linked.
  case_decide; [subst i |]; split; fld.
Qed.
End Carve.

Ltac rdt := norm; repeat first
  [ rewrite rd_wr_ne by addr
  | rewrite rd_wr_eq ].

Section Free.
Context {G D : Type} `{MD : Machine D} `{HM : !Has G mem} `{HS : !Has G fsc}.
Context `{IN : !Indep G mem fsc}.
Context `{LY : FscLayout}.
Implicit Types (w : world G D).
Abbreviation fscof w := (hget (S := fsc) (glob w)).
Abbreviation ampof w := (g_memory_bit_amp (fscof w)).

Lemma region_node m addr S k : region m addr S -> 0 <= k < 31 ->
  mapped m (node k) 32 /\ fits 64 (node k) /\ (addr + S + 32 <= node k \/ node k + 32 <= addr).
Proof.
  intros [? ? ? ? ? _ Hn] Hk. split; [apply (mapped_sub _ _ _ _ _ Hn); unfold node; lia |].
  unfold fits, node. lia.
Qed.

Lemma region_part m addr S a n : region m addr S -> addr <= a -> a + n <= addr + S + 32 ->
  mapped m a n.
Proof. intros Hr H1 H2. apply (mapped_sub _ _ _ _ _ (rg_map _ _ _ Hr)); lia. Qed.

(** Releasing the whole-region block. *)
Lemma wp_finish addr S w :
  region (memof w) addr S -> heads (memof w) None ->
  m64 (memof w) (f_size addr) = Some S -> m64 (memof w) (f_prev_size addr) = Some 0 ->
  sentinel (memof w) (addr + S) -> fits 32 (ampof w) -> Z.testbit (ampof w) 0 = true ->
  wp (bm_memory_insert_fsc addr ;;
      bsize ← ld64 (f_size addr); bsize' ← ld64 (f_size addr);
      st64 (f_prev_size (addr + bsize)) bsize' ;; mret EOK)
     (fun r w' => r = EOK /\ fresh (memof w') (ampof w') addr S) w.
Proof.
  intros Hr Hh Hs Hp [Hse1 Hse2] Ha H0. pose proof Hr as [Hlow Hsz Hhigh Hal Hdis _ _].
  pose proof (SZ2IDX_small S ltac:(lia)) as Hk. set (k := FSC_MEM_SZ2IDX S) in *.
  destruct (region_node _ _ _ k Hr Hk) as (Hn1 & Hn2 & Hn3).
  destruct (Hh k Hk) as [Hhn _]. assert (fits 64 S) by (unfold fits; lia).
  wp_step. wp_apply (wp_insert_empty addr S).
  { exact Hn1. } { apply (region_part _ addr S _ _ Hr); lia. } { exact Hn2. }
  { exact Hs. } { exact Hhn. } { fold k. lia. }
  intros [] w' ->. fold k.
  assert (m64 (linked (memof w) addr k) (f_size addr) = Some S) as Hs' by (unfold linked; fld).
  wp_step. eapply wp_ld64; [norm; exact Hs' |]. wp_step. eapply wp_ld64; [norm; exact Hs' |].
  wp_step. apply wp_st64; norm.
  { apply mapped_linked, (region_part _ addr S _ _ Hr); addr. }
  apply wp_ret. split; [done |]. norm. split.
  - eapply region_ext; [exact Hr |]. intros. by apply mapped_wr, mapped_linked.
  - eapply heads_ext; [apply (heads_linked _ addr k Hh Hk); unfold fits; lia |].
    intros i Hi. split; apply m64_wr_ne; addr.
  - fold k. unfold linked. split; fld.
  - unfold linked. split; fld.
  - simpl. fold k. apply amp_set; done || lia.
Qed.

Lemma wp_merge_prev addr S P use w :
  carved (memof w) (ampof w) addr S P use ->
  wp (fsc_merge_prev (addr + P))
     (fun r w' => r = Some addr /\ fscof w' = fscof w /\
        region (memof w') addr S /\ heads (memof w') None /\
        m64 (memof w') (f_size addr) = Some S /\ m64 (memof w') (f_prev_size addr) = Some 0 /\
        sentinel (memof w') (addr + S)) w.
Proof.
  intros [Hr HP HPa Hh Hfr Hn Hs Hp Ht Ho Hu [Hse1 Hse2] Ha].
  pose proof Hr as [Hlow Hsz Hhigh Hal Hdis _ _]. unfold lead_list in Hh.
  unfold fsc_merge_prev. wp_step. eapply wp_ld64; [exact Hp |].
  destruct (Z.eqb_spec P 0) as [-> | HP0]; cbn [negb].
  - apply wp_ret. rewrite Z.add_0_r in *. rewrite Z.sub_0_r in Hs.
    split_and!; done.
  - specialize (Hfr HP0) as [F1 F2 F3 F4]. rewrite decide_False in Hh by done.
    pose proof (SZ2IDX_small P ltac:(lia)) as Hk. set (k := FSC_MEM_SZ2IDX P) in *.
    destruct (region_node _ _ _ k Hr Hk) as (Hn1 & Hn2 & Hn3).
    assert (fits 64 S) by (unfold fits; lia).
    wp_step. eapply wp_ld64; [exact Hp |]. cbv zeta. replace (addr + P - P) with addr by lia.
    wp_step. eapply wp_ld64; [exact F3 |]. wp_step. eapply wp_ld64; [exact Hs |].
    replace (P + (S - P)) with S by lia.
    wp_step. apply wp_st64; [apply (region_part _ addr S _ _ Hr); addr |].
    wp_step. wp_apply (wp_delete_only addr k); norm.
    { by apply mapped_wr. } { done. } { fld. } { fld. } { lia. }
    intros [] w' ->. norm. wp_step. apply wp_memset_s.
    { unfold HEADER_SIZE, SECUREC_MEM_MAX_LEN. lia. } { unfold NULL. lia. }
    { norm. apply mapped_unlinked, mapped_wr, (region_part _ addr S _ _ Hr); unfold HEADER_SIZE; lia. }
    apply wp_ret. rewrite Z.eqb_refl. norm. unfold HEADER_SIZE.
    split; [done |]. split; [done |]. split; [| split; [| split; [| split]]].
    + eapply region_ext; [exact Hr |]. intros. by apply mapped_wr, mapped_unlinked, mapped_wr.
    + eapply heads_ext; [apply (heads_unlinked (memof w) addr k); done |].
      intros i Hi. unfold unlinked. destruct (decide (i = k)) as [-> | ?];
        split; fld; symmetry; fld.
    + unfold unlinked. fld.
    + unfold unlinked. fld.
    + unfold unlinked. split; fld.
Qed.

(** Freeing the carved block gives the region back. *)
Lemma free_carved addr S P use w :
  carved (memof w) (ampof w) addr S P use ->
  wp (bm_memory_free_fsc use)
     (fun r w' => r = EOK /\ fresh (memof w') (ampof w') addr S) w.
Proof.
  intros Hc. pose proof Hc as [Hr HP HPa Hh Hfr Hn Hs Hp Ht Ho Hu [Hse1 Hse2] Ha].
  pose proof Hr as [Hlow Hsz Hhigh Hal Hdis _ _].
  unfold bm_memory_free_fsc. replace (use =? NULL) with false by (unfold NULL; lia).
  wp_step. unfold bm_memory_get_head_addr. wp_step. apply wp_ldn. eexists. split; [exact Ho |].
  rewrite le_word_bytes, wrap_id by (unfold fits; lia). apply wp_ret.
  unfold FSC_MEM_SLICE_HEAD_SIZE, FSC_MEM_TAIL_SIZE.
  replace (use - (use - (addr + P + 32)) - 32) with (addr + P) by lia.
  wp_step. eapply wp_ld64; [exact Hs |]. wp_step. eapply wp_ld64; [exact Hn |].
  rewrite Z.eqb_refl. replace (S - P =? 0) with false by lia. cbn [negb orb].
  replace (addr + P + (S - P) - 4) with (addr + S - 4) by lia.
  wp_step. apply wp_ldn. eexists. split; [exact Ht |].
  rewrite le_word_bytes, wrap_id by (vm_compute; split; [discriminate | reflexivity]).
  rewrite Z.eqb_refl. cbn [negb].
  unfold fsc_release, fsc_merge_next. cbv zeta. replace (addr + P + (S - P)) with (addr + S) by lia.
  wp_step. wp_step. eapply wp_ld64; [exact Hse1 |]. rewrite Z.eqb_refl. cbn [negb]. apply wp_ret.
  cbn [negb]. wp_step. wp_apply (wp_merge_prev addr S P use); [exact Hc |].
  intros r w' (-> & Hf & R1 & R2 & R3 & R4 & R5). destruct Ha as (Ha1 & Ha2 & _).
  apply wp_finish; rewrite ?Hf; done.
Qed.
End Free.

Section Alloc.
Context {G D : Type} `{MD : Machine D} `{HM : !Has G mem} `{HS : !Has G fsc}.
Context `{IN : !Indep G mem fsc}.
Context `{LY : FscLayout}.
Implicit Types (w : world G D).
Abbreviation fscof w := (hget (S := fsc) (glob w)).
Abbreviation ampof w := (g_memory_bit_amp (fscof w)).

(** The state between the cut and the marking of the block: as [carved],
    with the used block's own header still to be written. *)
Record cut (m : mem) (amp addr S P : Z) : Prop := {
  ct_region : region m addr S;
  ct_P : P = 0 \/ 40 <= P;
  ct_P_align : P mod 4 = 0;
  ct_room : 36 <= S - P;
  ct_heads : heads m (lead_list addr P);
  ct_front : P <> 0 -> free_block m addr P;
  ct_size : m64 m (f_size (addr + P)) = Some (S - P);
  ct_psize : m64 m (f_prev_size (addr + P)) = Some P;
  ct_sent : sentinel m (addr + S);
  ct_amp : amp_ok amp (lead_bit P);
}.

Lemma fits_addr m addr S : region m addr S -> fits 64 addr /\ fits 64 S.
Proof. intros []. unfold fits. lia. Qed.

(** The free block shrinks to [P] bytes and moves to its new list. *)
Lemma wp_relist addr S P w :
  fresh (memof w) (ampof w) addr S -> 40 <= P <= S - 36 ->
  let m := wr (memof w) (f_size addr) (le_bytes 8 P) in
  wp (when (negb (FSC_MEM_SZ2IDX S =? FSC_MEM_SZ2IDX P))
        (bm_memory_delete_fsc addr ;; bm_memory_insert_fsc addr))
     (fun _ w' => region (memof w') addr S /\ heads (memof w') (lead_list addr P) /\
        free_block (memof w') addr P /\ sentinel (memof w') (addr + S) /\
        amp_ok (ampof w') (lead_bit P)) (setm m w).
Proof.
  intros [Hr Hh [F1 F2 F3 F4] [Hse1 Hse2] (Ha1 & Ha2 & Ha3)] HP m.
  pose proof Hr as [Hlow Hsz Hhigh Hal Hdis _ _]. destruct (fits_addr _ _ _ Hr) as [Hfa HfS].
  pose proof (SZ2IDX_small S ltac:(lia)) as Hk. pose proof (SZ2IDX_small P ltac:(lia)) as Hj.
  unfold lead_list, lead_bit. rewrite !decide_False by lia.
  set (k := FSC_MEM_SZ2IDX S) in *. set (j := FSC_MEM_SZ2IDX P) in *.
  destruct (region_node _ _ _ k Hr Hk) as (K1 & K2 & K3).
  destruct (region_node _ _ _ j Hr Hj) as (J1 & J2 & J3).
  assert (fits 64 P) by (unfold fits; lia).
  assert (region m addr S) as Hrm by (eapply region_ext; [exact Hr | intros; by apply mapped_wr]).
  assert (heads m (Some (k, addr))) as Hhm.
  { eapply heads_ext; [exact Hh |]. intros i Hi. split; apply m64_wr_ne; addr. }
  destruct (Z.eqb_spec k j) as [Ekj | Hne]; cbn [negb]; unfold when.
  - apply wp_ret. norm. rewrite <- Ekj. split_and!; try done.
    + unfold m. split; fold j; rewrite <- ?Ekj; fld.
    + unfold m. split; fld.
  - wp_step. wp_apply (wp_delete_only addr k); norm.
    { by apply mapped_wr. } { done. } { unfold m. fld. } { unfold m. fld. } { lia. }
    intros [] w' ->. norm. wp_apply (wp_insert_empty addr P); norm.
    { by apply mapped_unlinked, mapped_wr. }
    { apply mapped_unlinked, mapped_wr, (region_part _ addr S _ _ Hr); lia. }
    { done. } { unfold m, unlinked. fld. }
    { fold j. apply (heads_unlinked m addr k Hhm Hk K2 j Hj). } { fold j. lia. }
    intros [] w' ->. fold j. norm. split_and!.
    + eapply region_ext; [exact Hrm |]. intros. by apply mapped_linked, mapped_unlinked.
    + apply heads_linked; [by apply (heads_unlinked m addr k) | done | done | lia].
    + unfold m, linked, unlinked. split; fold j; fld.
    + unfold m, linked, unlinked. split; fld.
    + simpl. apply amp_set; done || lia.
Qed.

Lemma wp_split addr S A w :
  fresh (memof w) (ampof w) addr S -> 36 <= A <= S -> A mod 4 = 0 ->
  let P := if decide (A + 40 <= S) then S - A else 0 in
  wp (fsc_split addr (FSC_MEM_SZ2IDX S) A)
     (fun r w' => r = addr + P /\ cut (memof w') (ampof w') addr S P) w.
Proof.
  intros Hfr HA HA4. cbv zeta. pose proof Hfr as [Hr Hh [F1 F2 F3 F4] Hse Ha].
  pose proof Hr as [Hlow Hsz Hhigh Hal Hdis _ _]. destruct (fits_addr _ _ _ Hr) as [Hfa HfS].
  unfold fsc_split, FSC_MEM_MIN_SIZE, FSC_MEM_SLICE_HEAD_SIZE, FSC_MEM_SIZE_ALIGN.
  change (32 + 8) with 40. wp_step. eapply wp_ld64; [exact F3 |].
  destruct (decide (A + 40 <= S)) as [Hle | Hgt].
  - rewrite (proj2 (Z.leb_le _ _) Hle). set (P := S - A).
    assert (fits 64 P) as HfP by (unfold fits; lia).
    wp_step. apply wp_st64; [apply (region_part _ addr S _ _ Hr); addr |].
    wp_step. eapply (wp_ld64 _ P); [fld |].
    wp_step. wp_apply (wp_relist addr S P); [done | lia |].
    intros [] w' (R & H1 & [B1 B2 B3 B4] & [S1 S2] & Hamp).
    wp_step. eapply wp_ld64; [exact B3 |]. cbv zeta. wp_step. eapply wp_ld64; [exact B3 |].
    wp_step. apply wp_st64; [apply (region_part _ addr S _ _ R); addr |].
    wp_step. apply wp_st64; norm; [apply mapped_wr, (region_part _ addr S _ _ R); addr |].
    apply wp_ret. split; [done |]. norm. assert (fits 64 A) by (unfold fits; lia).
    split; [| by right; lia | | lia | | intros _ | | | | done].
    + eapply region_ext; [exact R |]. intros. by apply mapped_wr, mapped_wr.
    + unfold P. rewrite Zminus_mod, HA4. by replace (S mod 4) with 0 by lia.
    + eapply heads_ext; [exact H1 |]. intros i Hi. split; fld.
    + split; fld.
    + fld. f_equal. lia.
    + fld.
    + split; fld.
  - replace (A + 40 <=? S) with false by lia.
    pose proof (SZ2IDX_small S ltac:(lia)) as Hk. set (k := FSC_MEM_SZ2IDX S) in *.
    destruct (region_node _ _ _ k Hr Hk) as (K1 & K2 & K3).
    wp_step. wp_apply (wp_delete_only addr k); [done.. | lia |].
    intros [] w' ->. apply wp_ret. rewrite Z.add_0_r. split; [done |]. norm.
    unfold lead_list, lead_bit. destruct Ha as (A1 & A2 & A3), Hse as [S1 S2].
    split; rewrite ?Z.add_0_r, ?Z.sub_0_r; try done; try lia.
    + eapply region_ext; [exact Hr |]. intros. by apply mapped_unlinked.
    + apply (heads_unlinked _ addr k); done.
    + unfold unlinked. fld.
    + unfold unlinked. fld.
    + unfold unlinked. split; fld.
Qed.

(** Marking the block turns the cut state into [carved]. *)
Lemma wp_mark_used addr S P p w :
  cut (memof w) (ampof w) addr S P -> 3 <= p <= 14 ->
  use_addr (addr + P) (2 ^ p) <= addr + S - 4 ->
  wp (fsc_mark_used (addr + P) (2 ^ p))
     (fun r w' => r = use_addr (addr + P) (2 ^ p) /\
        carved (memof w') (ampof w') addr S P r) w.
Proof.
  intros [Hr HP HP4 Hroom Hh Hfr Hs Hp [S1 S2] Ha] Hpp Huse.
  pose proof Hr as [Hlow Hsz Hhigh Hal Hdis _ _]. destruct (fits_addr _ _ _ Hr) as [Hfa HfS].
  assert (2 ^ p <= 2 ^ 14) by (apply Z.pow_le_mono_r; lia).
  destruct (use_addr_spec (addr + P) p) as [U1 U2]; [lia | lia | lia |].
  unfold fsc_mark_used. fold (use_addr (addr + P) (2 ^ p)). set (u := use_addr (addr + P) (2 ^ p)) in *.
  assert (forall a, addr <= a -> a + 8 <= addr + S + 32 -> mapped (memof w) a 8) as Hm
    by (intros; apply (region_part _ addr S _ _ Hr); lia).
  wp_step. eapply wp_ld64; [exact Hs |]. cbv zeta. replace (addr + P + (S - P)) with (addr + S) by lia.
  wp_step. apply wp_st64; [apply Hm; addr |].
  wp_step. apply wp_st64; norm; [apply mapped_wr, Hm; addr |].
  wp_step. eapply (wp_ld64 _ (S - P)); [fld |].
  unfold FSC_MEM_TAIL_SIZE, FSC_MEM_SLICE_HEAD_SIZE.
  replace (addr + P + (S - P - 4)) with (addr + S - 4) by lia.
  wp_step. apply wp_stn; norm.
  { do 2 apply mapped_wr. apply (region_part _ addr S _ _ Hr); simpl; lia. }
  wp_step. apply wp_st64; norm; [do 3 apply mapped_wr; apply Hm; addr |].
  wp_step. unfold bm_memory_set_head_addr. apply wp_stn; norm.
  { do 4 apply mapped_wr. apply (region_part _ addr S _ _ Hr); simpl; lia. }
  apply wp_ret. split; [done |]. norm. rewrite (wrap_id 16) by (unfold fits; lia).
  split; try done.
  - eapply region_ext; [exact Hr |]. intros. by do 5 apply mapped_wr.
  - eapply heads_ext; [exact Hh |]. intros i Hi. split; fld; symmetry; fld.
  - intros HP0. destruct (Hfr HP0) as [B1 B2 B3 B4]. split; fld.
  - fld.
  - fld.
  - fld.
  - rdt. done.
  - apply (rd_wr_eq _ _ (le_bytes 2 (u - (addr + P + 32)))).
  - lia.
  - split; fld.
Qed.
End Alloc.

Section RoundTrip.
Context {G D : Type} `{MD : Machine D} `{HM : !Has G mem} `{HS : !Has G fsc}.
Context `{IN : !Indep G mem fsc}.
Context `{LY : FscLayout}.
Implicit Types (w : world G D).
Abbreviation fscof w := (hget (S := fsc) (glob w)).
Abbreviation ampof w := (g_memory_bit_amp (fscof w)).

(** The client may write its payload up to the tail. *)
Lemma carved_write m amp addr S P use bs :
  carved m amp addr S P use -> use + Z.of_nat (length bs) <= addr + S - 4 ->
  carved (wr m use bs) amp addr S P use.
Proof.
  intros [Hr HP HP4 Hh Hfr Hn Hs Hp Ht Ho Hu [S1 S2] Ha] Hb.
  pose proof Hr as [Hlow Hsz Hhigh Hal Hdis _ _]. split; try done.
  - eapply region_ext; [exact Hr |]. intros. by apply mapped_wr.
  - eapply heads_ext; [exact Hh |]. intros i Hi. split; fld.
  - intros HP0. destruct (Hfr HP0) as [B1 B2 B3 B4]. split; fld.
  - fld.
  - fld.
  - fld.
  - rewrite rd_wr_ne by lia. done.
  - rewrite rd_wr_ne by lia. done.
  - split; fld.
Qed.

Lemma payload_room b size p : 0 <= b -> b mod 4 = 0 -> b + 2 ^ 15 < 2 ^ 64 ->
  0 < size -> size + 2 ^ 15 < 2 ^ 32 -> 3 <= p <= 14 ->
  b + 32 <= use_addr b (2 ^ p) /\ use_addr b (2 ^ p) + size <= b + fsc_alloc_size size (2 ^ p) /\
  use_addr b (2 ^ p) <= b + fsc_alloc_size size (2 ^ p) - 4 /\
  use_addr b (2 ^ p) mod 2 ^ p = 0 /\
  36 <= fsc_alloc_size size (2 ^ p) /\ fsc_alloc_size size (2 ^ p) mod 4 = 0.
Proof.
  intros Hb Hb4 Hw Hs Hsw Hp. rewrite alloc_size_value by done.
  destruct (use_addr_spec b p) as [U1 U2]; [done | lia | done |].
  destruct (ALIGN_8 size) as (k & Hk & Hk'); [lia |]. set (u := use_addr b (2 ^ p)) in *.
  assert (2 ^ p = 8 * 2 ^ (p - 3)) as Hp3 by (replace 8 with (2 ^ 3) by done;
    rewrite <- Z.pow_add_r by lia; f_equal; lia).
  assert (1 <= 2 ^ (p - 3)) by (pose proof (Z.pow_pos_nonneg 2 (p - 3)); lia).
  pose proof U1 as U3. apply Z.mod_divide in U3 as [q Hq]; [| lia].
  apply Z.mod_divide in Hb4 as [r Hr]; [| lia]. rewrite Hp3 in *. set (e := 2 ^ (p - 3)) in *.
  replace (q * (8 * e)) with (4 * (q * (2 * e))) in Hq by ring.
  split_and!; try lia.
  rewrite Hk. replace (8 * k + 8 * e + 28) with ((2 * k + 2 * e + 7) * 4) by lia. by apply Z.mod_mul.
Qed.

(** C8: on a region that is one free block, every request that fits is
    served: the address is aligned as asked, the block lies inside the
    region behind its header, a client that leaves the last four bytes of
    its payload alone can write the rest freely, and releasing the address
    succeeds and gives the same single free block back, the lists, the bit
    map and the end marker included. *)
Theorem alloc_free_roundtrip fuel addr S size p bs w :
  fresh (memof w) (ampof w) addr S ->
  0 < size -> size + 2 ^ 15 < 2 ^ 32 -> 3 <= p <= 14 ->
  fsc_alloc_size size (2 ^ p) <= S -> fsc_alloc_size size (2 ^ p) < 2 ^ 31 - 44 ->
  (0 < fuel)%nat -> Z.of_nat (length bs) + 4 <= size ->
  wp (use ← bm_memory_alloc_os_align fuel size p;
      st_bytes use bs ;;
      r ← bm_memory_free_fsc use; mret (use, r))
     (fun '(use, r) w' => r = EOK /\ use mod 2 ^ p = 0 /\
        addr + 32 <= use /\ use + size <= addr + S /\
        fresh (memof w') (ampof w') addr S) w.
Proof.
  intros Hfr Hs Hsw Hp HA HA' Hfuel Hbs.
  pose proof (fr_region _ _ _ _ Hfr) as Hr. pose proof Hr as [Hlow Hsz Hhigh Hal Hdis _ _].
  set (A := fsc_alloc_size size (2 ^ p)) in *. set (P := if decide (A + 40 <= S) then S - A else 0).
  assert (size <= A) as HsA.
  { unfold A. rewrite alloc_size_value by done. destruct (ALIGN_8 size); lia. }
  destruct (payload_room addr size p) as (_ & _ & _ & _ & A1 & A2); [lia.. |]. fold A in A1, A2.
  assert (P mod 4 = 0 /\ A <= S - P /\ 0 <= P) as (HP4 & HAP & HP0).
  { unfold P. case_decide; [| by rewrite Z.mod_0_l; lia].
    rewrite Zminus_mod, A2, (proj2 Hal). split; [done | lia]. }
  destruct (payload_room (addr + P) size p) as (R1 & R2 & R3 & R4 & _); [lia | | lia.. |].
  { rewrite Z.add_mod, HP4, (proj1 Hal) by lia. done. }
  fold A in R2, R3.
  unfold bm_memory_alloc_os_align, MEM_ADDR_BUTT, MEM_ADDR_ALIGN_004.
  replace (_ || _) with false by lia. rewrite Z.shiftl_mul_pow2, Z.mul_1_l by lia.
  unfold bm_memory_alloc_inner_fs. replace (size =? 0) with false by lia. fold A. cbv zeta.
  unfold FSC_MEM_MAXVAL, FSC_MEM_LAST_IDX, FSC_MEM_SIZE_ALIGN, FSC_MEM_USED_HEAD_SIZE, FSC_MEM_TAIL_SIZE.
  replace (_ || _) with false by (rewrite Z.shiftl_mul_pow2 by done; lia).
  wp_step. wp_step. wp_apply (search_fresh fuel A addr S); [done | lia | done |].
  intros r w1 (-> & f & -> & Hf). replace (addr =? NULL) with false by (unfold NULL; lia).
  wp_step. wp_apply (wp_split addr S A); [by norm | lia | done |]. fold P.
  intros r w2 (-> & Hc). wp_apply (wp_mark_used addr S P p); [done | done | lia |].
  intros r w3 (-> & Hcv). set (use := use_addr (addr + P) (2 ^ p)) in *.
  wp_step. apply wp_st_bytes.
  { apply (region_part _ addr S _ _ (cv_region _ _ _ _ _ _ Hcv)); lia. }
  wp_step. wp_apply (free_carved addr S P use).
  { norm. apply carved_write; [done | lia]. }
  intros r w4 (-> & Hfr4). apply wp_ret. split_and!; try done; lia.
Qed.

(** C9: releasing a bad address is detected and changes nothing: NULL; a
    header that is not marked as used, such as that of a block already
    released; a tail magic number that was overwritten. *)
Theorem bm_memory_free_fsc_errors addr w :
  (addr = NULL -> wp (bm_memory_free_fsc addr) (fun r w' => r = ERRNO_MEM_FREE_ADDR_INVALID /\ w' = w) w) /\
  (forall off size next, addr <> NULL ->
     rd (memof w) (addr - 2) 2 = Some (le_bytes 2 off) -> fits 16 off ->
     let b := addr - off - FSC_MEM_SLICE_HEAD_SIZE in
     m64 (memof w) (f_size b) = Some size -> m64 (memof w) (f_next b) = Some next ->
     (next <> FSC_MEM_MAGIC_USED \/ size = 0 ->
      wp (bm_memory_free_fsc addr) (fun r w' => r = ERRNO_MEM_FREE_SH_DAMAGED /\ w' = w) w) /\
     (forall tail, next = FSC_MEM_MAGIC_USED -> size <> 0 ->
      rd (memof w) (b + size - 4) 4 = Some tail -> le_word tail <> FSC_MEM_TAIL_MAGIC ->
      wp (bm_memory_free_fsc addr) (fun r w' => r = ERRNO_MEM_OVERWRITE /\ w' = w) w)).
Proof.
  split; [by intros ->; apply wp_ret |].
  intros off size next Ha Ho Hf b Hs Hn. unfold bm_memory_free_fsc. rewrite (proj2 (Z.eqb_neq addr NULL) Ha).
  assert (forall Q : Z -> world G D -> Prop, Q b w -> wp (bm_memory_get_head_addr addr) Q w) as Hh.
  { intros Q HQ. unfold bm_memory_get_head_addr. wp_step. apply wp_ldn. eexists. split; [exact Ho |].
    rewrite le_word_bytes, wrap_id by done. by apply wp_ret. }
  split.
  - intros Hbad. wp_step. apply Hh. wp_step. eapply wp_ld64; [exact Hs |].
    wp_step. eapply wp_ld64; [exact Hn |]. replace (_ || _) with true by lia. by apply wp_ret.
  - intros tail -> Hs0 Ht Hbad. wp_step. apply Hh. wp_step. eapply wp_ld64; [exact Hs |].
    wp_step. eapply wp_ld64; [exact Hn |]. replace (_ || _) with false by lia.
    wp_step. apply wp_ldn. eexists. split; [exact Ht |].
    rewrite (proj2 (Z.eqb_neq _ _) Hbad). by apply wp_ret.
Qed.
End RoundTrip.

(** ** Witnesses: a region of 256 bytes at 0x2000, list heads at 0x1000 *)
#[export] Instance wit_layout : FscLayout :=
  {| g_memory_node_list := 0x1000; g_memory_region := 0x2000 |}.
Definition wit_heap : mem := wr (wr ∅ 0x1000 (replicate 992 0)) 0x2000 (replicate 256 7).
Definition heap_world : world (mem * fsc) ram := World (wit_heap, fsc_init) ram0 [].

Lemma wit_region : region wit_heap 0x2000 224.
Proof.
  split; unfold g_memory_node_list, wit_layout; try lia.
  - split; reflexivity.
  - apply mapped_block; [lia | rewrite length_replicate; lia].
  - apply mapped_wr, mapped_block; [lia | rewrite length_replicate; lia].
Qed.

Lemma bm_memory_init_fsc_correct_witness :
  wp (bm_memory_init_fsc (G := mem * fsc) (D := ram) 0x2000 256)
     (fun r w' => r = EOK /\ fresh (fst (glob w')) (g_memory_bit_amp (snd (glob w'))) 0x2000 224)
     heap_world.
Proof.
  eapply wp_mono; [apply (bm_memory_init_fsc_correct 0x2000 256 heap_world) |].
  - vm_compute; split; [discriminate | reflexivity].
  - vm_compute; split; [discriminate | reflexivity].
  - vm_compute; split; [discriminate | reflexivity].
  - intros _. exact wit_region.
  - intros r w' (-> & _ & Hok). split; [reflexivity |]. apply Hok. reflexivity.
Defined.

Lemma alloc_free_roundtrip_witness :
  wp (_ ← bm_memory_init_fsc (G := mem * fsc) (D := ram) 0x2000 256;
      use ← bm_memory_alloc_os_align 1 24 4;
      st_bytes use [1; 2; 3; 4; 5; 6; 7; 8; 9; 10; 11; 12; 13; 14; 15; 16; 17; 18; 19; 20] ;;
      r ← bm_memory_free_fsc use; mret (use, r))
     (fun '(use, r) _ => r = EOK /\ use mod 16 = 0) heap_world.
Proof.
  apply wp_bind. eapply wp_mono; [apply (init_fsc_spec 0x2000 256 heap_world) |].
  - vm_compute; split; [discriminate | reflexivity].
  - vm_compute; split; [discriminate | reflexivity].
  - vm_compute; split; [discriminate | reflexivity].
  - intros _. exact wit_region.
  - intros r w' (-> & _ & Hok). destruct (Hok eq_refl) as [Hf _].
    eapply wp_mono; [apply (alloc_free_roundtrip 1 0x2000 224 24 4
      [1; 2; 3; 4; 5; 6; 7; 8; 9; 10; 11; 12; 13; 14; 15; 16; 17; 18; 19; 20] w') |].
    + exact Hf.
    + lia.
    + lia.
    + lia.
    + vm_compute; discriminate.
    + vm_compute; reflexivity.
    + lia.
    + simpl; lia.
    + intros [use r] w'' (H1 & H2 & _). split; [exact H1 | exact H2].
Defined.

Definition freed_mem : mem := wr ∅ 0x2000 (replicate 30 7 ++ [0; 0]).
Definition freed_world : world (mem * fsc) ram := World (freed_mem, fsc_init) ram0 [].

Lemma bm_memory_free_fsc_errors_witness :
  wp (bm_memory_free_fsc (G := mem * fsc) (D := ram) 0x2020)
     (fun r w' => r = ERRNO_MEM_FREE_SH_DAMAGED /\ w' = freed_world) freed_world.
Proof.
  pose proof (proj2 (bm_memory_free_fsc_errors 0x2020 freed_world)) as H.
  specialize (H 0 0x0707070707070707 0x0707070707070707).
  assert (m64 (hget (glob freed_world)) (f_size 0x2000) = Some 0x0707070707070707) as Hs
    by (vm_compute; reflexivity).
  assert (m64 (hget (glob freed_world)) (f_next 0x2000) = Some 0x0707070707070707) as Hn
    by (vm_compute; reflexivity).
  assert (rd (hget (glob freed_world)) (0x2020 - 2) 2 = Some (le_bytes 2 0)) as Ho
    by (vm_compute; reflexivity).
  assert (0x2020 <> NULL) as Hnull by discriminate.
  assert (fits 16 0) as Hf by (split; [apply Z.le_refl | reflexivity]).
  destruct (H Hnull Ho Hf Hs Hn) as [Hd _]. clear H.
  apply Hd. left. discriminate.
Defined.

(** ** The overlap in a run: a client that fills exactly what it asked for *)
Definition overlap_client : M (mem * fsc) ram Z :=
  _ ← bm_init_hwi;
  p ← bm_memory_alloc 4 16;
  memset p 0 16 ;;
  bm_memory_free p.

Definition region_world : world (mem * fsc) ram :=
  World (wr (wr ∅ 0x1000 (replicate 992 0)) 0x2000 (replicate 0x3000 0), fsc_init) ram0 [].

(** the first allocation of 16 bytes from the module's own 12 KB region
    returns a payload whose last bytes are the magic number: filling the 16
    bytes makes the release fail with [ERRNO_MEM_OVERWRITE]. *)
Theorem first_allocation_overwritten :
  result (overlap_client region_world) = Some ERRNO_MEM_OVERWRITE.
Proof. vm_compute. reflexivity. Qed.
