(* ===== verification/Gic.v ===== *)
(** * Gic: the interrupt controller (baremetal/hwi/hwi_init.c, hwi_proc.c)

    The GICv3 driver of the baremetal runtime: enabling and disabling,
    priority, group and routing of an interrupt, software generated
    interrupts, the initialisation of the controller, and the table of
    handlers with the dispatcher.  A handler is called through [invoke], the
    behaviour of the function pointer that was registered.  The hooks of
    [BM_INT_PERF] are compiled out ([bm_hwi.h] defines it as 0); log messages
    are left out.  Loops that wait for a register bit take fuel. *)
From S2P Require Import Prelude Hw Common.
From stdpp Require Import prelude gmap list strings.
From Stdlib Require Import ZArith Lia.
Local Open Scope Z_scope.

Definition MAX_INT_NUM : Z := 288.
Definition MAX_INT_PRIORITY : Z := 13.
Definition MIN_GIC_SPI_NUM : Z := 32.
Definition MIN_SPI_ID : Z := 32.
Definition MAX_NNSPI_ID : Z := 31.
Definition MIN_PPI_ID : Z := 16.
Definition BM_CORE_MAP : Z := 0xf.
Definition GIC_IPRIORITY_INT_NUM : Z := 4.
Definition GIC_IENABLE_INT_NUM : Z := 32.
Definition SICD_IGROUP_INT_NUM : Z := 32.
Definition SYS_NUM_IRQS : nat := 1024.

Definition GIC_REG_BASE_ADDR : Z := 0x24000000.
Definition GICR_BASE0 : Z := GIC_REG_BASE_ADDR + 0x40000.
Definition GICR_BASE1 : Z := GIC_REG_BASE_ADDR + 0x50000.
Definition GICR_CTRL_ADDR : Z := GICR_BASE0.
Definition GICR_WAKER_ADDR : Z := GICR_BASE0 + 0x14.
Definition GICR_IGROUPR0_ADDR : Z := GICR_BASE1 + 0x80.
Definition GICR_ISENABLER0_ADDR : Z := GICR_BASE1 + 0x100.
Definition GICR_ICENABLER0_ADDR : Z := GICR_BASE1 + 0x180.
Definition GICR_IGRPMODR0_ADDR : Z := GICR_BASE1 + 0xD00.
Definition GICR_IPRIORITY_SGI_S_ADDR : Z := GICR_BASE1 + 0x400.
Definition GICR_ADDR_OFFSET_PER_CORE : Z := 0x20000.
Definition GICD_CTLR_S_ADDR : Z := GIC_REG_BASE_ADDR.
Definition GICD_IGROUPN_ADDR : Z := GIC_REG_BASE_ADDR + 0x80.
Definition GICD_IGRPMODRN_ADDR : Z := GIC_REG_BASE_ADDR + 0xD00.
Definition GICD_ISENABLER0_ADDR : Z := GIC_REG_BASE_ADDR + 0x100.
Definition GICD_ICENABLER0_ADDR : Z := GIC_REG_BASE_ADDR + 0x180.
Definition GICD_IPRIORITYRN_ADDR : Z := GIC_REG_BASE_ADDR + 0x400.
Definition GICD_SPI_IROUTERN_L_ADDR : Z := GIC_REG_BASE_ADDR + 0x6000.

Definition GIC_DISABLE : Z := 0.
Definition GIC_ENABLE : Z := 1.
Inductive sic_group_type := SIC_GROUP_G0S | SIC_GROUP_G1NS | SIC_GROUP_G1S.
#[export] Instance sic_group_type_eq_dec : EqDecision sic_group_type.
Proof. solve_decision. Defined.

(** The write-pending bits of [union gicd_ctrl] and [union gicr_ctrl]. *)
Definition gicd_rwp (v : Z) : bool := bf_get 31 1 v =? 1.
Definition gicr_rwp (v : Z) : bool := bf_get 3 1 v =? 1.
Definition waker_is_sleep (v : Z) : bool := bf_get 2 1 v =? 1.

(** A register block of one core. *)
Definition gicr (base core_id : Z) : Z := u32 (base + core_id * GICR_ADDR_OFFSET_PER_CORE).

(** The word and the bit of an interrupt in an array of [num] per word. *)
Definition gic_reg_addr (base num int_id : Z) : Z := base + int_id / num * 4.
Definition gic_width (num : Z) : Z := 32 / num.
Definition gic_mask (num : Z) : Z := Z.shiftl 1 (gic_width num) - 1.
Definition gic_offset (num int_id : Z) : Z := int_id mod num * gic_width num.

(** One entry of [g_irq_handlers]; the handler is None for NULL. *)
Record irq_action (H A : Type) := IrqAction {
  handler : option H;
  arg : option A;
  count : Z;
}.
Arguments IrqAction {_ _} _ _ _.
Arguments handler {_ _} _.
Arguments arg {_ _} _.
Arguments count {_ _} _.

Record gic (H A : Type) := Gic {
  g_gic_core_map : Z;
  g_irq_handlers : list (irq_action H A);
}.
Arguments Gic {_ _} _ _.
Arguments g_gic_core_map {_ _} _.
Arguments g_irq_handlers {_ _} _.

Definition gic_init {H A} : gic H A := Gic 0 (replicate SYS_NUM_IRQS (IrqAction None None 0)).
Definition set_handler {H A} (n : nat) (a : irq_action H A) (g : gic H A) : gic H A :=
  Gic (g_gic_core_map g) (<[n := a]> (g_irq_handlers g)).

Section Registers.
Context {G D : Type} `{MD : Machine D}.
Abbreviation M := (M G D).

Definition bm_gicd_wait_cfg_work (fuel : nat) : M unit :=
  _ ← poll fuel GICD_CTLR_S_ADDR gicd_rwp; mret tt.

Definition bm_gicr_wait_cfg_work (fuel : nat) (core_id : Z) : M unit :=
  _ ← poll fuel (gicr GICR_CTRL_ADDR core_id) gicr_rwp; mret tt.

Definition bm_gic_get_reg (base id : Z) : M Z :=
  let offset := gic_offset GIC_IENABLE_INT_NUM id in
  reg_val ← readl (gic_reg_addr base GIC_IENABLE_INT_NUM id);
  mret (Z.shiftr (Z.land reg_val (u32 (Z.shiftl (gic_mask GIC_IENABLE_INT_NUM) offset))) offset).

Definition bm_gic_set_reg (base int_id val : Z) : M unit :=
  let offset := gic_offset GIC_IENABLE_INT_NUM int_id in
  writel (Z.shiftl (Z.land val (gic_mask GIC_IENABLE_INT_NUM)) offset)
         (gic_reg_addr base GIC_IENABLE_INT_NUM int_id).

Definition bm_gicr_get_int_state (core_id int_id : Z) : M Z :=
  bm_gic_get_reg (gicr GICR_ISENABLER0_ADDR core_id) int_id.
Definition bm_gicd_get_int_state (int_id : Z) : M Z :=
  bm_gic_get_reg GICD_ISENABLER0_ADDR int_id.

Definition bm_gicr_disable_int (fuel : nat) (core_id int_id : Z) : M unit :=
  bm_gic_set_reg (gicr GICR_ICENABLER0_ADDR core_id) int_id 1 ;;
  bm_gicr_wait_cfg_work fuel core_id.
Definition bm_gicr_enable_int (fuel : nat) (core_id int_id : Z) : M unit :=
  bm_gic_set_reg (gicr GICR_ISENABLER0_ADDR core_id) int_id 1 ;;
  bm_gicr_wait_cfg_work fuel core_id.
Definition bm_gicd_disable_int (fuel : nat) (int_id : Z) : M unit :=
  bm_gic_set_reg GICD_ICENABLER0_ADDR int_id 1 ;; bm_gicd_wait_cfg_work fuel.
Definition bm_gicd_enable_int (fuel : nat) (int_id : Z) : M unit :=
  bm_gic_set_reg GICD_ISENABLER0_ADDR int_id 1 ;; bm_gicd_wait_cfg_work fuel.

Definition bm_gic_rmw_reg (base int_num int_id val : Z) : M unit :=
  let addr := gic_reg_addr base int_num int_id in
  let offset := gic_offset int_num int_id in
  let bit_mask := gic_mask int_num in
  reg_val ← readl addr;
  let reg_val := Z.land reg_val (bnot 32 (Z.shiftl bit_mask offset)) in
  let reg_val := Z.lor reg_val (u32 (Z.shiftl (Z.land val bit_mask) offset)) in
  writel reg_val addr.

Definition bm_gicr_set_priority (core_id int_id priority : Z) : M unit :=
  bm_gic_rmw_reg (gicr GICR_IPRIORITY_SGI_S_ADDR core_id) GIC_IPRIORITY_INT_NUM int_id
    (u32 (Z.shiftl priority 4)).
Definition bm_gicd_set_priority (int_id priority : Z) : M unit :=
  bm_gic_rmw_reg GICD_IPRIORITYRN_ADDR GIC_IPRIORITY_INT_NUM int_id (u32 (Z.shiftl priority 4)).

(** ** Groups *)
Definition set_group_bits (set : bool) (bit v : Z) : Z :=
  if set then Z.lor v (u32 (Z.shiftl 1 bit)) else Z.land v (bnot 32 (Z.shiftl 1 bit)).

(** The two registers of a group choice, at [group0] and [mod]. *)
Definition sicr_write_group (addr bit : Z) (set : bool) : M unit :=
  v ← readl addr; writel (set_group_bits set bit v) addr.

Definition bm_sicr_set_int_group (core_id int_id : Z) (group_id : sic_group_type) : M unit :=
  core ← bm_get_coreid;
  sicr_write_group (gicr GICR_IGROUPR0_ADDR core) int_id (bool_decide (group_id = SIC_GROUP_G1NS)) ;;
  core ← bm_get_coreid;
  sicr_write_group (gicr GICR_IGRPMODR0_ADDR core) int_id (bool_decide (group_id = SIC_GROUP_G1S)).

Definition bm_sicd_set_int_group (int_id : Z) (group_id : sic_group_type) : M unit :=
  let sicd_m := (int_id - MIN_GIC_SPI_NUM) / SICD_IGROUP_INT_NUM in
  let bit_offset := (int_id - MIN_GIC_SPI_NUM) mod SICD_IGROUP_INT_NUM in
  sicr_write_group (GICD_IGROUPN_ADDR + 4 * sicd_m) bit_offset
    (bool_decide (group_id = SIC_GROUP_G1NS)) ;;
  sicr_write_group (GICD_IGRPMODRN_ADDR + 4 * sicd_m) bit_offset
    (bool_decide (group_id = SIC_GROUP_G1S)).

Definition bm_sic_set_group (fuel : nat) (int_id : Z) (group_id : sic_group_type) : M unit :=
  core_id ← bm_get_coreid;
  if int_id <? MIN_GIC_SPI_NUM then
    state ← bm_gicr_get_int_state core_id int_id;
    bm_gicr_disable_int fuel core_id int_id ;;
    bm_sicr_set_int_group core_id int_id group_id ;;
    when (state =? GIC_ENABLE) (bm_gicr_enable_int fuel core_id int_id)
  else
    state ← bm_gicd_get_int_state int_id;
    bm_gicd_disable_int fuel int_id ;;
    bm_sicd_set_int_group int_id group_id ;;
    when (state =? GIC_ENABLE) (bm_gicd_enable_int fuel int_id).

(** ** The interface of bm_hwi.h *)
Definition bm_enable_irq (fuel : nat) (int_id : Z) : M Z :=
  if MAX_INT_NUM <? int_id then mret BM_FAIL
  else if int_id <? MIN_GIC_SPI_NUM then
    core_id ← bm_get_coreid; bm_gicr_enable_int fuel core_id int_id ;; mret BM_OK
  else bm_gicd_enable_int fuel int_id ;; mret BM_OK.

Definition bm_disable_irq (fuel : nat) (int_id : Z) : M Z :=
  if MAX_INT_NUM <? int_id then mret BM_FAIL
  else if int_id <? MIN_GIC_SPI_NUM then
    core_id ← bm_get_coreid; bm_gicr_disable_int fuel core_id int_id ;; mret BM_OK
  else bm_gicd_disable_int fuel int_id ;; mret BM_OK.

Definition irq_set_priority_core (fuel : nat) (int_id priority core_id : Z) : M unit :=
  state ← bm_gicr_get_int_state core_id int_id;
  bm_gicr_disable_int fuel core_id int_id ;;
  bm_gicr_set_priority core_id int_id priority ;;
  when (state =? GIC_ENABLE) (bm_gicr_enable_int fuel core_id int_id).

Definition irq_set_priority_spi (fuel : nat) (int_id priority : Z) : M unit :=
  state ← bm_gicd_get_int_state int_id;
  bm_gicd_disable_int fuel int_id ;;
  bm_gicd_set_priority int_id priority ;;
  when (state =? GIC_ENABLE) (bm_gicd_enable_int fuel int_id).

Definition bm_irq_set_priority (fuel : nat) (int_id priority : Z) : M Z :=
  if (MAX_INT_NUM <? int_id) || (MAX_INT_PRIORITY <? priority) then mret BM_FAIL
  else if int_id <=? MAX_NNSPI_ID then
    for_up 4 0 (irq_set_priority_core fuel int_id priority) ;; mret BM_OK
  else irq_set_priority_spi fuel int_id priority ;; mret BM_OK.

Definition bm_gic_get_router_addr (int_id : Z) : Z := GICD_SPI_IROUTERN_L_ADDR + 8 * int_id.

Definition bm_irq_set_affinity (int_id core_id : Z) : M Z :=
  if (int_id <? MIN_SPI_ID) || (MAX_INT_NUM <? int_id) then mret BM_FAIL
  else if BM_MAX_CORE_NUM <=? core_id then mret BM_FAIL
  else
    let addr := bm_gic_get_router_addr int_id in
    router ← readl addr;
    let router := bf_set 31 1 0 router in
    let router := bf_set 8 2 (Z.land core_id 3) router in
    let router := bf_set 0 2 0 router in
    writel router addr ;; mret BM_OK.

(** ** Initialisation *)
Definition bm_sicr_init (fuel : nat) : M unit :=
  core ← bm_get_coreid;
  let reg_addr := gicr GICR_WAKER_ADDR core in
  waker ← readl reg_addr;
  writel (bf_set 1 1 0 waker) reg_addr ;;
  _ ← poll fuel reg_addr waker_is_sleep; mret tt.

Definition bm_sicc_enable_sre : M Z :=
  icc_sre ← sys (Mrs ICC_SRE_EL1);
  let icc_sre := bf_set 0 1 1 icc_sre in
  let icc_sre := bf_set 1 1 1 icc_sre in
  let icc_sre := bf_set 2 1 1 icc_sre in
  sys_ (Msr ICC_SRE_EL1 icc_sre) ;; sys_ Dsb ;; sys_ Isb ;;
  icc_sre ← sys (Mrs ICC_SRE_EL1);
  mret (if bf_get 0 1 icc_sre =? 1 then BM_OK else BM_FAIL).

(** A masked update of a 64-bit system register. *)
Definition sys_rmw (r : sysreg) (f : Z -> Z) : M unit :=
  tmp ← sys (Mrs r); sys_ (Msr r (f tmp)).

Definition bm_sicc_cfg_int_preempt : M unit :=
  sys_rmw ICC_BPR1_EL1 (fun tmp => Z.lor (Z.land tmp (bnot 64 7)) 0).
Definition bm_sicc_enable_group1 : M unit :=
  sys_rmw ICC_IGRPEN1_EL1 (fun tmp => Z.lor tmp 1).
Definition bm_sicc_cfg_priority_mask : M unit :=
  sys_rmw ICC_PMR_EL1 (fun tmp => Z.lor tmp 0xF0).

Definition bm_sicc_init : M Z :=
  ret ← bm_sicc_enable_sre;
  if negb (ret =? BM_OK) then mret ret
  else
    bm_sicc_cfg_int_preempt ;; bm_sicc_enable_group1 ;; bm_sicc_cfg_priority_mask ;;
    mret BM_OK.

(** Group and default priority of the interrupts [lo, lo + n). *)
Definition sic_init_range (fuel : nat) (n : nat) (lo : Z) : M unit :=
  for_up n lo (fun int_id =>
    bm_sic_set_group fuel int_id SIC_GROUP_G1NS ;;
    _ ← bm_irq_set_priority fuel int_id 0; mret tt).

Definition bm_sic_init_local (fuel : nat) : M Z :=
  bm_sicr_init fuel ;;
  ret ← bm_sicc_init;
  if negb (ret =? BM_OK) then mret ret
  else sic_init_range fuel 32 0 ;; mret BM_OK.

Definition bm_sicd_init (fuel : nat) : M unit :=
  ctrl ← readl GICD_CTLR_S_ADDR;
  if (bf_get 0 1 ctrl =? 1) || (bf_get 1 1 ctrl =? 1) || (bf_get 2 1 ctrl =? 1) then mret tt
  else
    let ctrl := bf_set 6 1 0 ctrl in
    let ctrl := bf_set 5 1 1 ctrl in
    let ctrl := bf_set 4 1 1 ctrl in
    let ctrl := bf_set 1 1 1 ctrl in
    writel ctrl GICD_CTLR_S_ADDR ;;
    bm_gicd_wait_cfg_work fuel.

Definition bm_sic_init_global (fuel : nat) : M unit :=
  bm_sicd_init fuel ;; sic_init_range fuel 256 MIN_GIC_SPI_NUM.

(** [HOST_HWI_INIT_CORE] is 0 or 2 by a build option; [vector_entry] is the
    address of the vectors of hwi_isr.S. *)
Definition bm_hwi_init (fuel : nat) (host_core vector_entry : Z) : M Z :=
  sys_ (Msr VBAR_EL1 vector_entry) ;;
  ret ← bm_sic_init_local fuel;
  if negb (ret =? BM_OK) then mret ret
  else
    core ← bm_get_coreid;
    when (core =? host_core) (bm_sic_init_global fuel) ;; mret BM_OK.

Definition bm_local_irq_unmask : M unit := sys_ (DaifClr 2).
Definition bm_local_irq_mask : M unit := sys_ (DaifSet 2).
End Registers.

(** ** The handler table and the dispatcher *)
Section Dispatch.
Context {G D : Type} `{MD : Machine D} {H A : Type} `{HG : !Has G (gic H A)}.
(** Calling the function pointer. *)
Context (invoke : H -> option A -> M G D unit).
Abbreviation M := (M G D).

Definition sgi_value (map int_id core : Z) : Z :=
  let v := bf_set 24 4 int_id 0 in
  let v := bf_set 0 16 1 v in
  let v := bf_set 16 8 core v in
  let v := bf_set 32 8 (bf_get 16 8 map) v in
  bf_set 48 8 (bf_get 32 8 map) v.

Definition bm_hwi_trigger (int_id core_map : Z) : M Z :=
  if MIN_PPI_ID <=? int_id then mret BM_FAIL
  else if (BM_CORE_MAP <? core_map) || (core_map <? 0) then mret BM_FAIL
  else
    core_id ← bm_get_coreid;
    state ← (if int_id <? MIN_GIC_SPI_NUM then bm_gicr_get_int_state core_id int_id
             else bm_gicd_get_int_state int_id);
    if negb (state =? GIC_ENABLE) then mret BM_FAIL
    else
      sys_ Dsb ;;
      for_up 4 0 (fun core =>
        when (negb (core_map =? 0) && negb (Z.land core_map (Z.shiftl 1 core) =? 0)) (
          g ← gets;
          sys_ (Msr ICC_SGI1R_EL1 (sgi_value (g_gic_core_map (g : gic H A)) int_id core)))) ;;
      sys_ Isb ;; mret BM_OK.

Definition irq_install_handler (irq : Z) (h : option H) (a : option A) : M Z :=
  if MAX_INT_NUM <? irq then mret BM_FAIL
  else modg (set_handler (Z.to_nat irq) (IrqAction h a 0)) ;; mret BM_OK.

Definition irq_free_handler (irq : Z) : M Z :=
  if MAX_INT_NUM <? irq then mret BM_FAIL
  else modg (set_handler (H := H) (A := A) (Z.to_nat irq) (IrqAction None None 0)) ;; mret BM_OK.

Definition bm_request_irq := irq_install_handler.
Definition bm_free_irq := irq_free_handler.

Definition do_irq : M unit :=
  irq ← sys (Mrs ICC_IAR1_EL1);
  let irq := Z.land (u32 irq) 0x3ff in
  g ← gets;
  act ← some_or OutOfBounds (g_irq_handlers (g : gic H A) !! Z.to_nat irq);
  match handler act with
  | None => mret tt
  | Some h =>
      invoke h (arg act) ;;
      g ← gets;
      act ← some_or OutOfBounds (g_irq_handlers (g : gic H A) !! Z.to_nat irq);
      modg (set_handler (Z.to_nat irq) (IrqAction (handler act) (arg act) (u32 (count act + 1))))
  end ;;
  sys_ (Msr ICC_EOIR1_EL1 irq) ;;
  sys_ (Msr ICC_DIR_EL1 irq).
End Dispatch.
