(* ===== verification/GicProps.v ===== *)
(** * GicProps: what the interrupt controller driver does to the hardware

    For any device whose write-pending bits eventually clear: which registers
    each operation writes, in which order, with which values, and that no
    other interrupt's bits change; the dispatcher's use of the handler table. *)
From S2P Require Import Prelude Hw Common Gic.
From stdpp Require Import prelude gmap list strings.
From Stdlib Require Import ZArith Lia Btauto.
Local Open Scope Z_scope.

(** The bits that the waiting loops watch clear within [fuel] reads. *)
Class GicQuiesces (D : Type) `{MD : Machine D} (fuel : nat) := {
  gicd_settles : settles_in fuel GICD_CTLR_S_ADDR gicd_rwp;
  gicr_settles core : settles_in fuel (gicr GICR_CTRL_ADDR core) gicr_rwp;
}.

Lemma writes_polled addr more v t : polled addr more v t -> writes t = [].
Proof.
  intros (_ & vs & -> & _). rewrite writes_app. simpl. rewrite app_nil_r.
  induction vs as [| x vs IH]; [done | exact IH].
Qed.

Lemma gic_mask_ones num : 0 <= gic_width num -> gic_mask num = Z.ones (gic_width num).
Proof. intros H. unfold gic_mask. by rewrite Z.ones_equiv, Z.shiftl_1_l, Z.sub_1_r. Qed.

(** The masked update of a field of a register array is a field update. *)
Lemma rmw_is_bf_set off len val x : fits 32 x -> 0 <= off -> 0 <= len -> off + len <= 32 ->
  Z.lor (Z.land x (bnot 32 (Z.shiftl (Z.ones len) off))) (u32 (Z.shiftl (Z.land val (Z.ones len)) off))
  = bf_set off len val x.
Proof.
  intros Hx Ho Hl Hle. unfold bf_set, bnot. apply Z.bits_inj'. intros i Hi.
  repeat (progress autorewrite with bits; bit_cases; try lia); try btauto.
  all: rewrite (fits_testbit 32 x i) by (done || lia); btauto.
Qed.

Section GicTraces.
Context {G D : Type} `{MD : Machine D} (fuel : nat) `{GQ : !GicQuiesces D fuel}.
Implicit Types (w : world G D).

Lemma emits_gicd_wait w :
  emits (bm_gicd_wait_cfg_work fuel) w (fun _ t => exists v, polled GICD_CTLR_S_ADDR gicd_rwp v t).
Proof.
  apply emits_bind. emits_apply (emits_poll (G := G)); [exact gicd_settles |].
  intros v t [_ Hp] w' _. apply emits_ret. rewrite app_nil_r. by exists v.
Qed.

Lemma emits_gicr_wait core w :
  emits (bm_gicr_wait_cfg_work fuel core) w
    (fun _ t => exists v, polled (gicr GICR_CTRL_ADDR core) gicr_rwp v t).
Proof.
  apply emits_bind. emits_apply (emits_poll (G := G)); [exact (gicr_settles core) |].
  intros v t [_ Hp] w' _. apply emits_ret. rewrite app_nil_r. by exists v.
Qed.

(** The bit of an interrupt in a word of 32. *)
Definition irq_bit (int_id : Z) : Z := 2 ^ (int_id mod 32).
Definition irq_word (base int_id : Z) : Z := base + int_id / 32 * 4.

Lemma emits_get_reg base id w (P : Z -> list event -> Prop) :
  (forall v, fits 32 v -> P (Z.b2z (Z.testbit v (id mod 32))) [Rd (irq_word base id) v]) ->
  emits (bm_gic_get_reg base id) w P.
Proof.
  intros HP. unfold bm_gic_get_reg. emits_steps.
  assert (0 <= id mod 32 < 32) by (apply Z.mod_pos_bound; lia).
  change (gic_mask GIC_IENABLE_INT_NUM) with 1.
  replace (gic_offset GIC_IENABLE_INT_NUM id) with (id mod 32)
    by (unfold gic_offset, GIC_IENABLE_INT_NUM; change (gic_width 32) with 1; lia).
  rewrite Z.shiftl_1_l, wrap_id by (split; [lia | apply Z.pow_lt_mono_r; lia]).
  replace (Z.shiftr _ _) with (Z.b2z (Z.testbit v (id mod 32))); [by apply HP |].
  apply Z.bits_inj'. intros i Hi. rewrite Z.shiftr_spec, Z.land_spec, Z.pow2_bits_eqb by lia.
  destruct (decide (i = 0)) as [-> | Hne].
  - rewrite Z.b2z_bit0, Z.add_0_l, Z.eqb_refl, andb_true_r. done.
  - replace (id mod 32 =? i + id mod 32) with false by lia. rewrite andb_false_r.
    destruct (Z.testbit v (id mod 32)); [| apply Z.testbit_0_l].
    change (Z.b2z true) with (2 ^ 0). apply Z.pow2_bits_false. lia.
Qed.

Lemma emits_set_reg base id w (P : unit -> list event -> Prop) :
  P tt [Wr (irq_word base id) (irq_bit id)] -> emits (bm_gic_set_reg base id 1) w P.
Proof.
  intros HP. unfold bm_gic_set_reg. apply emits_writel.
  assert (0 <= id mod 32 < 32) by (apply Z.mod_pos_bound; lia).
  change (gic_mask GIC_IENABLE_INT_NUM) with 1. change (Z.land 1 1) with 1.
  replace (gic_offset GIC_IENABLE_INT_NUM id) with (id mod 32)
    by (unfold gic_offset, GIC_IENABLE_INT_NUM; change (gic_width 32) with 1; lia).
  rewrite Z.shiftl_1_l, wrap_id; [exact HP |]. split; [lia | apply Z.pow_lt_mono_r; lia].
Qed.

(** Setting or clearing the enable bit of one interrupt, at one place. *)
Definition switch_trace (base id : Z) (wait : Z) (more : Z -> bool) (t : list event) : Prop :=
  exists v p, polled wait more v p /\ t = Wr (irq_word base id) (irq_bit id) :: p.

Lemma writes_switch base id wait more t :
  switch_trace base id wait more t -> writes t = [(irq_word base id, irq_bit id)].
Proof. intros (v & p & Hp & ->). simpl. by rewrite (writes_polled _ _ _ _ Hp). Qed.

Lemma emits_gicd_switch base id w :
  emits (bm_gic_set_reg base id 1 ;; bm_gicd_wait_cfg_work fuel) w
    (fun _ t => switch_trace base id GICD_CTLR_S_ADDR gicd_rwp t).
Proof.
  apply emits_bind, emits_set_reg. intros w' _.
  emits_apply emits_gicd_wait. intros [] t [v Hp]. by exists v, t.
Qed.

Lemma emits_gicr_switch base id core w :
  emits (bm_gic_set_reg base id 1 ;; bm_gicr_wait_cfg_work fuel core) w
    (fun _ t => switch_trace base id (gicr GICR_CTRL_ADDR core) gicr_rwp t).
Proof.
  apply emits_bind, emits_set_reg. intros w' _.
  emits_apply emits_gicr_wait. intros [] t [v Hp]. by exists v, t.
Qed.

(** [bm_enable_irq] and [bm_disable_irq] reject an interrupt above 288
    without touching the hardware; otherwise they write exactly one register,
    the set-enable or clear-enable word of that interrupt (the calling core's
    redistributor below 32, the distributor from 32 on) with that interrupt's
    bit alone, so that no other interrupt is affected, and return after the
    write is no longer pending. *)
Theorem irq_switch_writes (on : bool) int_id w :
  0 <= int_id ->
  emits (if on then bm_enable_irq fuel int_id else bm_disable_irq fuel int_id) w
    (fun r t =>
       if decide (int_id <= 288) then
         r = BM_OK /\
         if decide (int_id < 32) then
           exists mpid t', t = Sy (Mrs MPIDR_EL1) mpid :: t' /\
             writes t = [(irq_word (gicr (if on then GICR_ISENABLER0_ADDR else GICR_ICENABLER0_ADDR)
                            (bm_core_mpid_cpuid mpid)) int_id, irq_bit int_id)]
         else
           writes t = [(irq_word (if on then GICD_ISENABLER0_ADDR else GICD_ICENABLER0_ADDR) int_id,
                        irq_bit int_id)]
       else r = BM_FAIL /\ t = []).
Proof.
  intros Hid. unfold bm_enable_irq, bm_disable_irq, MAX_INT_NUM, MIN_GIC_SPI_NUM.
  destruct (decide (int_id <= 288)) as [Hle | Hgt].
  2: { replace (288 <? int_id) with true by lia. destruct on; by apply emits_ret. }
  replace (288 <? int_id) with false by lia.
  destruct (decide (int_id < 32)).
  - replace (int_id <? 32) with true by lia.
    destruct on; (apply emits_bind; unfold bm_get_coreid; do 3 emits_step; apply emits_bind;
      unfold bm_gicr_enable_int, bm_gicr_disable_int; emits_apply emits_gicr_switch; intros [] t Ht w' _; apply emits_ret;
      split; [done |]; eexists _, _; split; [reflexivity |];
      simpl; rewrite app_nil_r; by apply writes_switch in Ht).
  - replace (int_id <? 32) with false by lia.
    destruct on; (apply emits_bind; unfold bm_gicd_enable_int, bm_gicd_disable_int;
      emits_apply emits_gicd_switch; intros [] t Ht w' _;
      apply emits_ret; split; [done |]; rewrite app_nil_r; by apply writes_switch in Ht).
Qed.

(** Priority: an interrupt that was enabled is off while its byte changes. *)
Definition prio_trace (isen icen pri wait : Z) (more : Z -> bool) (id priority : Z)
    (t : list event) : Prop :=
  exists st x t1 t2, fits 32 st /\ fits 32 x /\
    switch_trace icen id wait more t1 /\
    (if Z.testbit st (id mod 32) then switch_trace isen id wait more t2 else t2 = []) /\
    let addr := pri + id / 4 * 4 in
    t = Rd (irq_word isen id) st :: t1 ++
        Rd addr x :: Wr addr (bf_set (id mod 4 * 8) 8 (16 * priority) x) :: t2.

Lemma emits_set_priority base id priority w (P : unit -> list event -> Prop) :
  0 <= id -> 0 <= priority <= 13 ->
  (forall x, fits 32 x -> P tt [Rd (base + id / 4 * 4) x;
     Wr (base + id / 4 * 4) (bf_set (id mod 4 * 8) 8 (16 * priority) x)]) ->
  emits (bm_gic_rmw_reg base GIC_IPRIORITY_INT_NUM id (u32 (Z.shiftl priority 4))) w P.
Proof.
  intros Hid Hp HP. unfold bm_gic_rmw_reg. emits_steps.
  assert (0 <= id mod 4 < 4) by (apply Z.mod_pos_bound; lia).
  unfold gic_offset, gic_reg_addr, GIC_IPRIORITY_INT_NUM. change (gic_width 4) with 8.
  rewrite gic_mask_ones by (change (gic_width 4) with 8; lia). change (gic_width 4) with 8.
  rewrite rmw_is_bf_set by (done || lia).
  replace (u32 (Z.shiftl priority 4)) with (16 * priority)
    by (rewrite Z.shiftl_mul_pow2, wrap_id; unfold fits; lia).
  rewrite wrap_id; [by apply HP |]. apply bf_set_fits; done || lia.
Qed.

Lemma b2z_enable b : (Z.b2z b =? GIC_ENABLE) = b.
Proof. by destruct b. Qed.

Lemma emits_when (b : bool) (m : M G D unit) w (P : unit -> list event -> Prop) :
  (if b then emits m w P else P tt []) -> emits (when b m) w P.
Proof. destruct b; [done |]. apply emits_ret. Qed.

(** The common shape: switch off, change the byte, switch on again. *)
Lemma emits_priority_change isen icen pri wait more id priority (dis en : M G D unit) w :
  0 <= id -> 0 <= priority <= 13 ->
  (forall w, emits dis w (fun _ t => switch_trace icen id wait more t)) ->
  (forall w, emits en w (fun _ t => switch_trace isen id wait more t)) ->
  emits (state ← bm_gic_get_reg isen id; dis ;;
         bm_gic_rmw_reg pri GIC_IPRIORITY_INT_NUM id (u32 (Z.shiftl priority 4)) ;;
         when (state =? GIC_ENABLE) en) w
    (fun _ t => prio_trace isen icen pri wait more id priority t).
Proof.
  intros Hid Hp Hdis Hen. apply emits_bind, emits_get_reg. intros st Hst w1 _.
  apply emits_bind. emits_apply Hdis. intros [] t1 Ht1 w2 _.
  apply emits_bind, emits_set_priority; [done | done |]. intros x Hx w3 _.
  apply emits_when. rewrite b2z_enable.
  destruct (Z.testbit st (id mod 32)) eqn:E; [emits_apply Hen; intros [] t2 Ht2; exists st, x, t1, t2
    | exists st, x, t1, (@nil event)]; rewrite E; split_and!; done.
Qed.

(** The trace of a private interrupt's priority change on one core. *)
Definition core_prio (id priority core : Z) : list event -> Prop :=
  prio_trace (gicr GICR_ISENABLER0_ADDR core) (gicr GICR_ICENABLER0_ADDR core)
    (gicr GICR_IPRIORITY_SGI_S_ADDR core) (gicr GICR_CTRL_ADDR core) gicr_rwp id priority.

(** [bm_irq_set_priority] rejects bad arguments without touching the
    hardware; otherwise, at the distributor (or in turn at the redistributors
    of the four cores for a private interrupt), it disables the interrupt,
    writes [priority << 4] into that interrupt's byte and keeps the other
    three bytes of the word, and enables it again exactly if it was enabled. *)
Theorem irq_set_priority_writes int_id priority w :
  0 <= int_id -> 0 <= priority ->
  emits (bm_irq_set_priority fuel int_id priority) w
    (fun r t =>
       if decide (int_id <= 288 /\ priority <= 13) then
         r = BM_OK /\
         if decide (int_id <= 31) then
           exists t0 t1 t2 t3, t = t0 ++ t1 ++ t2 ++ t3 /\
             core_prio int_id priority 0 t0 /\ core_prio int_id priority 1 t1 /\
             core_prio int_id priority 2 t2 /\ core_prio int_id priority 3 t3
         else prio_trace GICD_ISENABLER0_ADDR GICD_ICENABLER0_ADDR GICD_IPRIORITYRN_ADDR
                GICD_CTLR_S_ADDR gicd_rwp int_id priority t
       else r = BM_FAIL /\ t = []).
Proof.
  intros Hid Hp. unfold bm_irq_set_priority, MAX_INT_NUM, MAX_INT_PRIORITY, MAX_NNSPI_ID.
  assert (0 <= priority <= 13 -> forall core w, emits (irq_set_priority_core fuel int_id priority core) w
    (fun _ t => core_prio int_id priority core t)) as Hcore.
  { intros Hp' core w'. apply emits_priority_change; [done | done | |]; intros w'';
      apply emits_gicr_switch. }
  destruct (decide (int_id <= 288 /\ priority <= 13)) as [Hok | Hbad].
  2: { replace (_ || _) with true by lia. by apply emits_ret. }
  replace (_ || _) with false by lia.
  destruct (decide (int_id <= 31)).
  - replace (int_id <=? 31) with true by lia. apply emits_bind. cbn [for_up].
    apply emits_bind. emits_apply Hcore; [lia |]. intros [] t0 H0 w0 _.
    apply emits_bind. emits_apply Hcore; [lia |]. intros [] t1 H1 w1 _.
    apply emits_bind. emits_apply Hcore; [lia |]. intros [] t2 H2 w2 _.
    apply emits_bind. emits_apply Hcore; [lia |]. intros [] t3 H3 w3 _.
    apply emits_ret. intros w4 _. apply emits_ret. split; [done |].
    exists t0, t1, t2, t3. rewrite !app_nil_r. done.
  - replace (int_id <=? 31) with false by lia.
    apply emits_bind. emits_apply emits_priority_change; [done | lia | | |].
    { intros w''. apply emits_gicd_switch. } { intros w''. apply emits_gicd_switch. }
    intros [] t Ht w' _. apply emits_ret. rewrite app_nil_r. done.
Qed.

(** [bm_irq_set_affinity] accepts shared interrupts 32..288 and cores
    0..3 only; it then updates the interrupt's router register so that it
    targets exactly that core (affinity mode, the core in level 1, zero in
    level 0) and leaves every other bit as it was. *)
Theorem irq_set_affinity_routes int_id core_id w :
  0 <= int_id -> 0 <= core_id ->
  emits (bm_irq_set_affinity int_id core_id) w
    (fun r t =>
       if decide (32 <= int_id <= 288 /\ core_id <= 3) then
         r = BM_OK /\ exists v v', fits 32 v /\
           t = [Rd (0x24006000 + 8 * int_id) v; Wr (0x24006000 + 8 * int_id) v'] /\
           bf_get 31 1 v' = 0 /\ bf_get 8 2 v' = core_id /\ bf_get 0 2 v' = 0 /\
           (forall i, 0 <= i -> ~ (i < 2) -> ~ (8 <= i < 10) -> i <> 31 ->
              Z.testbit v' i = Z.testbit v i)
       else r = BM_FAIL /\ t = []).
Proof.
  intros Hid Hc. unfold bm_irq_set_affinity, MIN_SPI_ID, MAX_INT_NUM, BM_MAX_CORE_NUM.
  destruct (decide (32 <= int_id <= 288 /\ core_id <= 3)) as [Hok | Hbad].
  2: { destruct (_ || _) eqn:E; [by apply emits_ret |].
       replace (4 <=? core_id) with true by lia. by apply emits_ret. }
  replace (_ || _) with false by lia. replace (4 <=? core_id) with false by lia. cbv zeta.
  emits_steps. split; [done |]. eexists v, _. split; [done |]. split; [reflexivity |].
  rewrite wrap_id by (repeat apply bf_set_fits; done || lia).
  rewrite (bf_get_set_ne 0 2 31 1), (bf_get_set_ne 8 2 31 1), !bf_get_set_eq by lia.
  replace (wrap 1 0) with 0 by done. replace (wrap 2 0) with 0 by done.
  assert (Z.land core_id 3 = core_id) as ->.
  { change 3 with (Z.ones 2). rewrite Z.land_ones by lia. apply Z.mod_small. lia. }
  rewrite (bf_get_set_ne 0 2 8 2), (bf_get_set_eq 8 2) by lia.
  rewrite (wrap_id 2 core_id) by (unfold fits; lia). split_and!; try done.
  intros i Hi H2 H8 H31. by rewrite !bf_set_testbit_out by lia.
Qed.
End GicTraces.

(** ** Software interrupts and the dispatcher *)
Section GicGlobals.
Context {G D : Type} `{MD : Machine D} {H A : Type} `{HG : !Has G (gic H A)}.
Context (invoke : H -> option A -> M G D unit).
Implicit Types (w : world G D).
Abbreviation gicof w := (hget (S := gic H A) (glob w)).

(** The software interrupts sent in a trace. *)
Definition ev_sgi (e : event) : option Z :=
  match e with Sy (Msr ICC_SGI1R_EL1 v) _ => Some v | _ => None end.
Definition sgis (t : list event) : list Z := omap ev_sgi t.

(** The cores of a bit map. *)
Definition cores_of (core_map : Z) : list Z := filter (fun c => Z.testbit core_map c) [0; 1; 2; 3].

Lemma core_bit core_map core : 0 <= core ->
  negb (core_map =? 0) && negb (Z.land core_map (Z.shiftl 1 core) =? 0) = Z.testbit core_map core.
Proof.
  intros Hc. destruct (Z.eqb_spec core_map 0) as [-> | Hne]; cbn [negb andb].
  - by rewrite Z.testbit_0_l.
  - destruct (Z.testbit core_map core) eqn:E.
    + apply negb_true_iff, Z.eqb_neq. intros H0.
      assert (Z.testbit (Z.land core_map (Z.shiftl 1 core)) core = true) as Ht.
      { rewrite Z.land_spec, shiftl_spec', E, Z.sub_diag by lia. simpl. lia. }
      by rewrite H0, Z.testbit_0_l in Ht.
    + apply negb_false_iff, Z.eqb_eq, Z.bits_inj'. intros i Hi.
      rewrite Z.land_spec, shiftl_spec', Z.testbit_0_l by lia.
      destruct (decide (i = core)) as [-> | Hic]; [by rewrite E |].
      destruct (Z.leb_spec core i); [| btauto]. change 1 with (2 ^ 0).
      rewrite Z.pow2_bits_false by lia. btauto.
Qed.

Lemma emits_sgi int_id core_map core w (P : unit -> list event -> Prop) : 0 <= core ->
  (forall t, sgis t = (if Z.testbit core_map core
                       then [sgi_value (g_gic_core_map (gicof w)) int_id core] else []) ->
     writes t = [] -> P tt t) ->
  emits (when (negb (core_map =? 0) && negb (Z.land core_map (Z.shiftl 1 core) =? 0)) (
    g ← gets;
    sys_ (Msr ICC_SGI1R_EL1 (sgi_value (g_gic_core_map (g : gic H A)) int_id core)))) w P.
Proof.
  intros Hc HP. rewrite core_bit by done. unfold when.
  destruct (Z.testbit core_map core); [| by apply emits_ret, HP].
  apply emits_bind, emits_gets. intros w' _. apply emits_sys_. intros v _. by apply HP.
Qed.

Lemma sgis_app t1 t2 : sgis (t1 ++ t2) = sgis t1 ++ sgis t2.
Proof. apply omap_app. Qed.

Lemma emits_sgi_loop int_id core_map w :
  emits (for_up 4 0 (fun core =>
      when (negb (core_map =? 0) && negb (Z.land core_map (Z.shiftl 1 core) =? 0)) (
        g ← gets;
        sys_ (Msr ICC_SGI1R_EL1 (sgi_value (g_gic_core_map (g : gic H A)) int_id core))))) w
    (fun _ t => sgis t = sgi_value (g_gic_core_map (gicof w)) int_id <$> cores_of core_map /\
                writes t = []).
Proof.
  cbn [for_up].
  apply emits_bind, emits_sgi; [lia |]. intros t0 S0 W0 w0 H0.
  apply emits_bind, emits_sgi; [lia |]. intros t1 S1 W1 w1 H1.
  apply emits_bind, emits_sgi; [lia |]. intros t2 S2 W2 w2 H2.
  apply emits_bind, emits_sgi; [lia |]. intros t3 S3 W3 w3 H3.
  apply emits_ret. rewrite app_nil_r, !sgis_app, !writes_app, W0, W1, W2, W3. split; [| done].
  rewrite S0, S1, S2, S3, H2, H1, H0. unfold cores_of. cbn [filter list_filter].
  change (0 + 1) with 1. change (1 + 1) with 2. change (2 + 1) with 3.
  destruct (Z.testbit core_map 0), (Z.testbit core_map 1), (Z.testbit core_map 2),
    (Z.testbit core_map 3); reflexivity.
Qed.

(** What is in each field of a software interrupt request. *)
Lemma sgi_fields map int_id core : 0 <= int_id < 16 -> 0 <= core < 4 ->
  bf_get 24 4 (sgi_value map int_id core) = int_id /\
  bf_get 0 16 (sgi_value map int_id core) = 1 /\
  bf_get 16 8 (sgi_value map int_id core) = core.
Proof.
  intros Hi Hc. unfold sgi_value.
  rewrite !(bf_get_set_ne 48 8), !(bf_get_set_ne 32 8) by lia.
  rewrite (bf_get_set_ne 16 8 24 4), (bf_get_set_ne 0 16 24 4), (bf_get_set_ne 16 8 0 16) by lia.
  rewrite !bf_get_set_eq, !wrap_id by (unfold fits; lia). done.
Qed.

(** The effects of [bm_hwi_trigger], for every number and map. *)
Lemma emits_hwi_trigger int_id core_map w :
  0 <= int_id ->
  emits (bm_hwi_trigger int_id core_map) w
    (fun r t =>
       if decide (int_id < 16 /\ 0 <= core_map <= 15) then
         exists mpid v, fits 32 v /\
           let on := Z.testbit v int_id in
           r = (if on then BM_OK else BM_FAIL) /\
           sgis t = (if on then sgi_value (g_gic_core_map (gicof w)) int_id <$> cores_of core_map
                     else []) /\
           writes t = [] /\
           Sy (Mrs MPIDR_EL1) mpid ∈ t /\
           Rd (gicr GICR_ISENABLER0_ADDR (bm_core_mpid_cpuid mpid)) v ∈ t
       else r = BM_FAIL /\ t = []).
Proof.
  intros Hid. unfold bm_hwi_trigger, MIN_PPI_ID, BM_CORE_MAP, MIN_GIC_SPI_NUM.
  destruct (decide (int_id < 16 /\ 0 <= core_map <= 15)) as [[H16 Hmap] | Hbad].
  2: { destruct (16 <=? int_id) eqn:E; [by apply emits_ret |].
       replace (_ || _) with true by lia. by apply emits_ret. }
  replace (16 <=? int_id) with false by lia. replace (_ || _) with false by lia.
  replace (int_id <? 32) with true by lia.
  apply emits_bind. unfold bm_get_coreid. do 3 emits_step. rename v into mpid.
  apply emits_bind, emits_get_reg. intros v Hv' w2 Hw2. rewrite b2z_enable.
  rewrite Z.mod_small by lia. unfold irq_word. rewrite Z.div_small, Z.mul_0_l, Z.add_0_r by lia.
  destruct (Z.testbit v int_id) eqn:E; cbn [negb].
  - emits_step. emits_step. apply emits_bind. emits_apply emits_sgi_loop.
    intros [] t [Hs Hwr] w4 _. emits_steps.
    exists mpid, v. rewrite E. split; [done |]. cbv zeta. split; [done |]. simpl.
    rewrite sgis_app, writes_app, Hs, Hwr. simpl. rewrite app_nil_r.
    split; [congruence |]. split; [done |]. split; [by left | by right; left].
  - emits_step. exists mpid, v. rewrite E. split; [done |]. cbv zeta. split_and!; try done.
    + by left.
    + right. by left.
Qed.

(** [bm_hwi_trigger] sends a software interrupt to exactly the cores of
    the map, each once and in order, with the interrupt number, the target
    core and the cluster fields in their places, and only if the interrupt is
    enabled; a bad number or map has no effect at all. *)
Theorem hwi_trigger_targets int_id core_map w :
  0 <= int_id ->
  emits (bm_hwi_trigger int_id core_map) w
    (fun r t =>
       if decide (int_id < 16 /\ 0 <= core_map <= 15) then
         exists mpid v, fits 32 v /\
           let on := Z.testbit v int_id in
           r = (if on then BM_OK else BM_FAIL) /\
           sgis t = (if on then sgi_value (g_gic_core_map (gicof w)) int_id <$> cores_of core_map
                     else []) /\
           writes t = [] /\
           Sy (Mrs MPIDR_EL1) mpid ∈ t /\
           Rd (gicr GICR_ISENABLER0_ADDR (bm_core_mpid_cpuid mpid)) v ∈ t
       else r = BM_FAIL /\ t = []) /\
  (int_id < 16 -> forall map core, 0 <= core < 4 ->
     bf_get 24 4 (sgi_value map int_id core) = int_id /\
     bf_get 0 16 (sgi_value map int_id core) = 1 /\
     bf_get 16 8 (sgi_value map int_id core) = core).
Proof.
  intros Hid. split; [by apply emits_hwi_trigger |]. intros H16 map core Hcore. by apply sgi_fields.
Qed.

(** C10: the dispatcher.  On a table of 1024 entries, whatever number the
    controller acknowledges, [do_irq] stays inside the table, runs the handler
    registered for that number with its argument (and nothing if there is
    none), counts the run in that entry alone, and then signals the end of
    that same interrupt and deactivates it, in this order. *)
Theorem do_irq_dispatches (P : H -> option A -> list event -> Prop) w :
  length (g_irq_handlers (gicof w)) = SYS_NUM_IRQS ->
  (forall h a w, emits (invoke h a) w (fun _ t => P h a t)) ->
  wp (do_irq invoke)
     (fun _ w' => exists v t e1 e2 act,
        let irq := Z.land (u32 v) 0x3ff in
        tr w' = tr w ++ Sy (Mrs ICC_IAR1_EL1) v :: t ++
                [Sy (Msr ICC_EOIR1_EL1 irq) e1; Sy (Msr ICC_DIR_EL1 irq) e2] /\
        g_irq_handlers (gicof w) !! Z.to_nat irq = Some act /\
        match handler act with
        | Some h => P h (arg act) t /\
            glob w' = hput (set_handler (Z.to_nat irq)
              (IrqAction (Some h) (arg act) (u32 (count act + 1))) (gicof w)) (glob w)
        | None => t = [] /\ glob w' = glob w
        end) w.
Proof.
  intros Hlen Hinv. unfold do_irq. wp_step. apply wp_sys. intros v d Hv. cbv zeta.
  set (irq := Z.land (u32 v) 0x3ff).
  assert (0 <= irq < 1024) as Hirq.
  { unfold irq. change 0x3ff with (Z.ones 10). rewrite Z.land_ones by lia. apply Z.mod_pos_bound. lia. }
  destruct (lookup_lt_is_Some_2 (g_irq_handlers (gicof w)) (Z.to_nat irq)) as [act Hact].
  { rewrite Hlen. unfold SYS_NUM_IRQS. lia. }
  wp_step. apply wp_gets. wp_step. apply wp_some_or. exists act. split; [done |].
  destruct (handler act) as [h |] eqn:Eh.
  - wp_step. wp_step. eapply wp_mono; [apply Hinv |]. cbv beta. cbn [glob dev tr].
    intros [] w1 (Hg & t & Ht & HP). wp_step. apply wp_gets. wp_step. apply wp_some_or.
    exists act. rewrite Hg. split; [done |]. wp_step. wp_steps.
    exists v, t, v0, v1, act. fold irq. rewrite Hg, Ht, Eh, <- !app_assoc. simpl.
    split; [reflexivity |]. by split_and!.
  - wp_steps. exists v, (@nil event), v0, v1, act. fold irq. rewrite Eh, <- !app_assoc. done.
Qed.
End GicGlobals.

(** ** Witnesses: a controller whose registers never show a pending write *)
Definition still (a : Z) : Z := if a =? GICR_ISENABLER0_ADDR then 0xfff7 else 0.
Abbreviation gicdev := (fixed still (fun _ => 0)).

Lemma still_settles a more : more (u32 (still a)) = false ->
  settles_in (D := gicdev) 1 a more.
Proof. intros H d. exists O. split; [lia | exact H]. Qed.

#[export] Instance still_quiesces : GicQuiesces gicdev 1.
Proof.
  split.
  - apply still_settles. reflexivity.
  - intros core. apply still_settles. unfold still. by destruct (_ =? _).
Qed.

Definition gic_world : world (gic Z Z) gicdev := World gic_init Fixed [].

Lemma irq_switch_writes_witness :
  emits (bm_enable_irq 1 40) gic_world
    (fun r t => r = BM_OK /\ writes t = [(0x24000104, 256)]).
Proof.
  eapply emits_mono; [apply (irq_switch_writes 1 true 40 gic_world); lia |].
  intros r t [Hr Ht]. split; [exact Hr | exact Ht].
Defined.

Lemma irq_set_priority_writes_witness :
  emits (bm_irq_set_priority 1 40 14) gic_world (fun r t => r = BM_FAIL /\ t = []).
Proof.
  eapply emits_mono; [apply (irq_set_priority_writes 1 40 14 gic_world); lia |].
  intros r t [Hr Ht]. split; [exact Hr | exact Ht].
Defined.

Lemma irq_set_affinity_routes_witness :
  emits (bm_irq_set_affinity 40 3) gic_world (fun r t => r = BM_OK).
Proof.
  eapply emits_mono; [apply (irq_set_affinity_routes 40 3 gic_world); lia |].
  intros r t [Hr _]. exact Hr.
Defined.

Lemma hwi_trigger_targets_witness :
  cores_of 5 = [0; 2] /\
  emits (bm_hwi_trigger (H := Z) (A := Z) 12 5) gic_world
    (fun r t => r = BM_OK -> sgis t = [sgi_value 0 12 0; sgi_value 0 12 2]).
Proof.
  split; [reflexivity |].
  eapply emits_mono; [apply (hwi_trigger_targets 12 5 gic_world); lia |].
  intros r t (mpid & v & _ & Hr & Hs & _) Hok. rewrite Hs.
  destruct (Z.testbit v 12); [reflexivity | rewrite Hr in Hok; discriminate Hok].
Defined.

(** A handler that writes its argument to a device register. *)
Definition poke (h : Z) (a : option Z) : M (gic Z Z) gicdev unit := writel (default 0 a) h.

Lemma do_irq_dispatches_witness :
  wp (_ ← irq_install_handler 0 (Some 0x100) (Some 7); do_irq poke)
     (fun _ w' => exists v e1 e2, tr w' = [Sy (Mrs ICC_IAR1_EL1) v; Wr 0x100 7;
        Sy (Msr ICC_EOIR1_EL1 0) e1; Sy (Msr ICC_DIR_EL1 0) e2] \/ Z.land (u32 v) 0x3ff <> 0) gic_world.
Proof.
  apply wp_bind. unfold irq_install_handler, MAX_INT_NUM. cbn [Z.ltb Z.compare].
  apply wp_bind, wp_modg, wp_ret.
  eapply wp_mono.
  - apply (do_irq_dispatches poke (fun h a t => t = [Wr h (u32 (default 0 a))])).
    + reflexivity.
    + intros h a w. apply emits_writel. reflexivity.
  - intros _ w' (v & t & e1 & e2 & act & Ht & Hact & Hm). exists v, e1, e2.
    destruct (decide (Z.land (u32 v) 0x3ff = 0)) as [E | E]; [left | right; exact E].
    rewrite E in *. injection Hact as <-. destruct Hm as [-> _]. exact Ht.
Defined.
