(* ===== verification/Osal.v ===== *)
(** * Osal: the operating system layer without an operating system

    platform/osal/nonos (interrupt masking, atomics, and the spin locks,
    mutexes and semaphores that reduce to masking or to nothing) and its
    interrupt adapter (baremetal/osal_adapter/osal_interrupt.c), which keeps
    one record per interrupt and registers one callback with the interrupt
    controller for all of them. *)
From S2P Require Import Prelude Hw Common Mem Gic.
From stdpp Require Import prelude gmap list strings.
From Stdlib Require Import ZArith Lia.
Local Open Scope Z_scope.

Definition OSAL_SUCCESS : Z := 0.
Definition OSAL_FAILURE : Z := -1.
Definition OSAL_NONEOS_DEFAULT_RET : Z := -200.

Section Masking.
Context {G D : Type} `{MD : Machine D}.
Abbreviation M := (M G D).

Definition osal_irq_lock : M Z :=
  state ← sys (Mrs DAIF); sys_ (DaifSet DAIF_IRQ_BIT) ;; mret (Z.land state INT_MASK).

Definition osal_irq_unlock : M Z :=
  state ← sys (Mrs DAIF); sys_ (DaifClr DAIF_IRQ_BIT) ;; mret (Z.land state INT_MASK).

Definition osal_irq_restore (irq : Z) : M unit :=
  if Z.land irq INT_MASK =? 0 then sys_ (DaifClr DAIF_IRQ_BIT)
  else sys_ (DaifSet DAIF_IRQ_BIT).

Definition osal_in_interrupt : M Z := mret OSAL_NONEOS_DEFAULT_RET.

(** The lock and the flags are unused by the source. *)
Definition osal_spin_lock_init : M Z := mret 0.
Definition osal_spin_lock_irqsave : M unit := _ ← osal_irq_lock; mret tt.
Definition osal_spin_unlock_irqrestore : M unit := _ ← osal_irq_unlock; mret tt.
Definition osal_spin_lock_destroy : M unit := mret tt.

Definition osal_mutex_init : M Z := mret OSAL_NONEOS_DEFAULT_RET.
Definition osal_mutex_lock : M Z := mret OSAL_NONEOS_DEFAULT_RET.
Definition osal_mutex_unlock : M unit := mret tt.
Definition osal_mutex_destroy : M unit := mret tt.

Definition osal_sem_init : M Z := mret 0.
Definition osal_sem_destroy : M unit := mret tt.
Definition osal_sem_down : M Z := mret 0.
Definition osal_sem_down_timeout (timeout : Z) : M Z := mret 0.
Definition osal_sem_trydown : M Z := mret 0.
Definition osal_sem_up : M unit := mret tt.
End Masking.

(** Atomics: a 32-bit counter in memory; [int] values wrap. *)
Section Atomics.
Context {G D : Type} `{MD : Machine D} `{HM : !Has G mem}.
Abbreviation M := (M G D).

Definition osal_atomic_set (atomic i : Z) : M unit :=
  if atomic =? 0 then mret tt
  else irq ← osal_irq_lock; st32 atomic i ;; osal_irq_restore irq.

Definition osal_atomic_inc_return (atomic : Z) : M Z :=
  if atomic =? 0 then mret OSAL_FAILURE
  else
    irq ← osal_irq_lock;
    c ← ld32 atomic; st32 atomic (c + 1) ;;
    osal_irq_restore irq ;;
    c ← ld32 atomic; mret (s32 c).

Definition osal_atomic_read (atomic : Z) : M Z :=
  if atomic =? 0 then mret OSAL_FAILURE
  else irq ← osal_irq_lock; value ← ld32 atomic; osal_irq_restore irq ;; mret (s32 value).

Definition osal_atomic_inc (atomic : Z) : M unit :=
  if atomic =? 0 then mret tt
  else irq ← osal_irq_lock; c ← ld32 atomic; st32 atomic (c + 1) ;; osal_irq_restore irq.

Definition osal_atomic_dec (atomic : Z) : M unit :=
  if atomic =? 0 then mret tt
  else irq ← osal_irq_lock; c ← ld32 atomic; st32 atomic (c - 1) ;; osal_irq_restore irq.
End Atomics.

(** ** The interrupt adapter *)

(** What the controller's table can hold: the adapter's callback with the
    address of one of its records, or any other function and argument. *)
Inductive irq_fn := OsalCallback | OtherFn (p : Z).
Inductive irq_arg := OsalIrq (irq : Z) | OtherArg (p : Z).

Record osal_irq_info := OsalIrqInfo {
  oi_handler : option Z;  (* function pointer, None for NULL *)
  oi_dev : Z;
  oi_irq : Z;
}.
Record osal_irqs := OsalIrqs { g_osal_irq_array : list osal_irq_info }.
Definition osal_init : osal_irqs :=
  OsalIrqs (replicate (Z.to_nat (MAX_INT_NUM + 1)) (OsalIrqInfo None 0 0)).
Definition set_info (irq : Z) (i : osal_irq_info) (s : osal_irqs) : osal_irqs :=
  OsalIrqs (<[Z.to_nat irq := i]> (g_osal_irq_array s)).

Section Adapter.
Context {G D : Type} `{MD : Machine D}.
Context `{HG : !Has G (gic irq_fn irq_arg)} `{HO : !Has G osal_irqs}.
(** The handlers of the clients: [handler(irq, dev)] and others. *)
Context (call_osal : Z -> Z -> Z -> M G D unit) (call_other : Z -> option irq_arg -> M G D unit).
Abbreviation M := (M G D).

Definition osal_callback (args : option irq_arg) : M unit :=
  match args with
  | None => mret tt
  | Some (OtherArg _) => fail Unmapped
  | Some (OsalIrq irq) =>
      s ← gets;
      handle ← some_or OutOfBounds (g_osal_irq_array s !! Z.to_nat irq);
      match oi_handler handle with
      | Some h => call_osal h (oi_irq handle) (oi_dev handle)
      | None => mret tt
      end
  end.

(** Calling through the controller's table. *)
Definition osal_invoke (f : irq_fn) (a : option irq_arg) : M unit :=
  match f with
  | OsalCallback => osal_callback a
  | OtherFn p => call_other p a
  end.

Definition osal_irq_request (irq : Z) (handler : option Z) (dev : Z) : M Z :=
  match handler with
  | None => mret OSAL_FAILURE
  | Some _ =>
      if MAX_INT_NUM <? irq then mret OSAL_FAILURE
      else
        modg (set_info irq (OsalIrqInfo handler dev irq)) ;;
        ret ← bm_request_irq irq (Some OsalCallback) (Some (OsalIrq irq));
        mret (if ret =? BM_FAIL then OSAL_FAILURE else OSAL_SUCCESS)
  end.

Definition osal_irq_free (irq : Z) : M unit :=
  if MAX_INT_NUM <? irq then mret tt
  else
    modg (set_info irq (OsalIrqInfo None 0 0)) ;;
    _ ← bm_free_irq (H := irq_fn) (A := irq_arg) irq; mret tt.

Definition osal_irq_enable (fuel : nat) (irq : Z) : M unit := _ ← bm_enable_irq fuel irq; mret tt.
Definition osal_irq_disable (fuel : nat) (irq : Z) : M unit := _ ← bm_disable_irq fuel irq; mret tt.

Definition osal_irq_set_priority (fuel : nat) (irq priority : Z) : M Z :=
  ret ← bm_irq_set_priority fuel irq priority;
  mret (if ret =? BM_FAIL then OSAL_FAILURE else OSAL_SUCCESS).

(** The loop over the cores keeps the last result in [ret]. *)
Definition osal_affinity_step (irq cpu_mask i ret : Z) : M Z :=
  if Z.shiftl 1 i =? cpu_mask then bm_irq_set_affinity irq i else mret ret.
Definition osal_irq_set_affinity (irq cpu_mask : Z) : M Z :=
  ret ← osal_affinity_step irq cpu_mask 0 BM_FAIL;
  ret ← osal_affinity_step irq cpu_mask 1 ret;
  ret ← osal_affinity_step irq cpu_mask 2 ret;
  ret ← osal_affinity_step irq cpu_mask 3 ret;
  mret (if ret =? BM_FAIL then OSAL_FAILURE else OSAL_SUCCESS).

(** The interrupt entry of the system with the adapter in place. *)
Definition do_irq_osal : M unit := do_irq osal_invoke.
End Adapter.

(** ** The interrupt mask of the processor, as the architecture defines it *)
Class IrqMask (D : Type) `{Machine D} := {
  irqs_masked : D -> bool;
  mask_read d : Z.testbit (fst (m_sys (Mrs DAIF) d)) 7 = irqs_masked d;
  mask_set d : irqs_masked (snd (m_sys (DaifSet 2) d)) = true;
  mask_clr d : irqs_masked (snd (m_sys (DaifClr 2) d)) = false;
  mask_mrs d r : irqs_masked (snd (m_sys (Mrs r) d)) = irqs_masked d;
}.

Section MaskRules.
Context {G D : Type} `{MD : Machine D} `{IM : !IrqMask D}.
Implicit Types (w : world G D).

Definition lock_token (b : bool) : Z := if b then INT_MASK else 0.

Lemma land_int_mask x : Z.land (u64 x) INT_MASK = lock_token (Z.testbit x 7).
Proof.
  change INT_MASK with (2 ^ 7). apply Z.bits_inj'. intros i Hi.
  rewrite Z.land_spec, Z.pow2_bits_eqb, wrap_spec by lia. unfold lock_token.
  destruct (Z.eqb_spec 7 i) as [<- |].
  - destruct (Z.testbit x 7); [| done]. change INT_MASK with (2 ^ 7). by rewrite Z.pow2_bits_true by lia.
  - rewrite andb_false_r. destruct (Z.testbit x 7); [| by rewrite Z.testbit_0_l].
    change INT_MASK with (2 ^ 7). by rewrite Z.pow2_bits_false by lia.
Qed.

(** Masking returns the previous state as a token; nothing else changes. *)
Lemma wp_osal_irq_lock (Q : Z -> world G D -> Prop) w :
  (forall w', glob w' = glob w -> irqs_masked (dev w') = true ->
     Q (lock_token (irqs_masked (dev w))) w') ->
  wp osal_irq_lock Q w.
Proof.
  intros HQ. unfold osal_irq_lock. wp_step. unfold wp, sys.
  pose proof (mask_read (dev w)) as Hr. destruct (m_sys (Mrs DAIF) (dev w)) as [v d]. cbn [fst snd dev glob] in *.
  unfold sys_, sys, mbind, M_bind. cbn [dev glob tr]. pose proof (mask_set d) as Hs. unfold DAIF_IRQ_BIT.
  destruct (m_sys (DaifSet 2) d) as [v' d']. cbn [fst snd dev glob] in *.
  rewrite land_int_mask, Hr. by apply HQ.
Qed.

(** Restoring a token puts the mask back as it was. *)
Lemma wp_osal_irq_restore b (Q : unit -> world G D -> Prop) w :
  (forall w', glob w' = glob w -> irqs_masked (dev w') = b -> Q tt w') ->
  wp (osal_irq_restore (lock_token b)) Q w.
Proof.
  intros HQ. unfold osal_irq_restore, DAIF_IRQ_BIT. destruct b.
  - change (Z.land (lock_token true) INT_MASK =? 0) with false. unfold wp, sys_, sys, mbind, M_bind.
    pose proof (mask_set (dev w)) as Hs.
    destruct (m_sys (DaifSet 2) (dev w)) as [v' d']. cbn [fst snd dev glob] in *. by apply HQ.
  - change (Z.land (lock_token false) INT_MASK =? 0) with true. unfold wp, sys_, sys, mbind, M_bind.
    pose proof (mask_clr (dev w)) as Hs.
    destruct (m_sys (DaifClr 2) (dev w)) as [v' d']. cbn [fst snd dev glob] in *. by apply HQ.
Qed.

Lemma wp_osal_irq_unlock (Q : Z -> world G D -> Prop) w :
  (forall w', glob w' = glob w -> irqs_masked (dev w') = false ->
     Q (lock_token (irqs_masked (dev w))) w') ->
  wp osal_irq_unlock Q w.
Proof.
  intros HQ. unfold osal_irq_unlock. wp_step. unfold wp, sys.
  pose proof (mask_read (dev w)) as Hr. destruct (m_sys (Mrs DAIF) (dev w)) as [v d]. cbn [fst snd dev glob] in *.
  unfold sys_, sys, mbind, M_bind. cbn [dev glob tr]. pose proof (mask_clr d) as Hs. unfold DAIF_IRQ_BIT.
  destruct (m_sys (DaifClr 2) d) as [v' d']. cbn [fst snd dev glob] in *.
  rewrite land_int_mask, Hr. by apply HQ.
Qed.
End MaskRules.
