(* ===== verification/OsalProps.v ===== *)
(** * OsalProps: what the operating system layer guarantees

    Masking nests through its token, the spin locks do not; a handler
    requested through the adapter is the one that runs when the interrupt
    arrives, with its own number and device, until it is freed. *)
From S2P Require Import Prelude Hw Common Mem Gic Osal.
From stdpp Require Import prelude gmap list strings.
From Stdlib Require Import ZArith Lia.
Local Open Scope Z_scope.

Section Masks.
Context {G D : Type} `{MD : Machine D} `{IM : !IrqMask D}.
Implicit Types (w : world G D).

Lemma lock_body_restore (body : M G D unit) w :
  (forall w1, glob w1 = glob w -> irqs_masked (dev w1) = true -> wp body (fun _ _ => True) w1) ->
  wp (irq ← osal_irq_lock; body ;; osal_irq_restore irq)
     (fun _ w' => irqs_masked (dev w') = irqs_masked (dev w)) w.
Proof.
  intros Hb. wp_step. apply wp_osal_irq_lock. intros w1 Hg Hm.
  wp_step. eapply wp_mono; [by apply Hb |]. intros [] w2 _.
  by apply wp_osal_irq_restore.
Qed.

(** C11: a critical section between [osal_irq_lock] and [osal_irq_restore]
    runs with interrupts masked and leaves the mask as it found it, so
    critical sections nest, whatever the body does in between.  The spin
    locks built on them do not nest: the flags are ignored, so the release of
    an inner lock unmasks interrupts while the outer lock is still held. *)
Theorem critical_sections_nest (body : M G D unit) w :
  (forall w1, glob w1 = glob w -> irqs_masked (dev w1) = true -> wp body (fun _ _ => True) w1) ->
  wp (irq ← osal_irq_lock; body ;; osal_irq_restore irq)
     (fun _ w' => irqs_masked (dev w') = irqs_masked (dev w)) w /\
  wp (osal_spin_lock_irqsave ;; osal_spin_lock_irqsave ;; osal_spin_unlock_irqrestore)
     (fun _ w' => irqs_masked (dev w') = false) w.
Proof.
  intros Hb. split; [by apply lock_body_restore |].
  unfold osal_spin_lock_irqsave, osal_spin_unlock_irqrestore.
  wp_step. wp_step. apply wp_osal_irq_lock. intros w1 _ _. wp_step.
  wp_step. wp_step. apply wp_osal_irq_lock. intros w2 _ _. wp_step.
  wp_step. apply wp_osal_irq_unlock. intros w3 _ Hm. by wp_step.
Qed.
End Masks.

Section Delivery.
Context {G D : Type} `{MD : Machine D}.
Context `{HG : !Has G (gic irq_fn irq_arg)} `{HO : !Has G osal_irqs}.
Context `{IN : !Indep G (gic irq_fn irq_arg) osal_irqs}.
Context (call_osal : Z -> Z -> Z -> M G D unit) (call_other : Z -> option irq_arg -> M G D unit).
Implicit Types (w : world G D).
Abbreviation gicof w := (hget (S := gic irq_fn irq_arg) (glob w)).
Abbreviation osalof w := (hget (S := osal_irqs) (glob w)).

Record tables_ok (g : G) : Prop := {
  to_gic : length (g_irq_handlers (hget (S := gic irq_fn irq_arg) g)) = SYS_NUM_IRQS;
  to_osal : length (g_osal_irq_array (hget (S := osal_irqs) g)) = Z.to_nat (MAX_INT_NUM + 1);
}.

(** The controller acknowledges interrupt [irq] next. *)
Definition acknowledges (irq : Z) : Prop :=
  forall d : D, Z.land (u32 (u64 (fst (m_sys (Mrs ICC_IAR1_EL1) d)))) 0x3ff = irq.

(** Both tables hold the request for [irq]. *)
Record requested (g : G) (irq h dev cnt : Z) : Prop := {
  rq_gic : g_irq_handlers (hget (S := gic irq_fn irq_arg) g) !! Z.to_nat irq
           = Some (IrqAction (Some OsalCallback) (Some (OsalIrq irq)) cnt);
  rq_osal : g_osal_irq_array (hget (S := osal_irqs) g) !! Z.to_nat irq
            = Some (OsalIrqInfo (Some h) dev irq);
}.

Lemma request_requested irq h dev w : 0 <= irq <= 288 -> tables_ok (glob w) ->
  wp (osal_irq_request irq (Some h) dev)
     (fun r w' => r = OSAL_SUCCESS /\ tr w' = tr w /\ tables_ok (glob w') /\
        requested (glob w') irq h dev 0) w.
Proof.
  intros Hi [Hg Ho]. unfold osal_irq_request, bm_request_irq, irq_install_handler, MAX_INT_NUM in *.
  replace (288 <? irq) with false by lia.
  wp_step. wp_step. wp_step. wp_step. wp_step. wp_step. wp_step. cbn [glob tr].
  split; [done |]. split; [done |]. split.
  - split; rewrite ?indep_l, ?indep_r, ?hget_hput; cbn [g_osal_irq_array g_irq_handlers set_info set_handler];
      rewrite ?length_insert; rewrite ?indep_l, ?indep_r, ?hget_hput; done.
  - split; rewrite ?indep_l, ?indep_r, ?hget_hput; cbn [g_osal_irq_array g_irq_handlers set_info set_handler].
    + rewrite indep_r. apply list_lookup_insert_eq. rewrite Hg. unfold SYS_NUM_IRQS. lia.
    + apply list_lookup_insert_eq. rewrite Ho. unfold MAX_INT_NUM. lia.
Qed.

(** An interrupt with a request runs that request. *)
Lemma wp_do_irq_requested irq h dev cnt P w :
  requested (glob w) irq h dev cnt -> acknowledges irq ->
  (forall w1, glob w1 = glob w -> emits (call_osal h irq dev) w1 (fun _ t => P t)) ->
  wp (do_irq_osal call_osal call_other)
     (fun _ w' => exists v t e1 e2,
        tr w' = tr w ++ Sy (Mrs ICC_IAR1_EL1) v :: t ++
                [Sy (Msr ICC_EOIR1_EL1 irq) e1; Sy (Msr ICC_DIR_EL1 irq) e2] /\ P t) w.
Proof.
  intros [Rg Ro] Hack Hcall. unfold do_irq_osal, do_irq. wp_step. unfold wp at 1, sys.
  specialize (Hack (Hw.dev w)). destruct (m_sys (Mrs ICC_IAR1_EL1) (Hw.dev w)) as [v d].
  cbn [fst] in Hack. rewrite Hack. wp_step. apply wp_gets. cbn [glob].
  wp_step. apply wp_some_or. eexists. split; [exact Rg |]. cbn [handler arg].
  wp_step. wp_step. unfold osal_invoke, osal_callback. wp_step. apply wp_gets. cbn [glob].
  wp_step. apply wp_some_or. eexists. split; [exact Ro |]. cbn [oi_handler oi_irq oi_dev].
  eapply wp_mono; [by apply Hcall |]. cbv beta. cbn [glob tr].
  intros [] w1 (Hg & t & Ht & HP). wp_step. apply wp_gets. wp_step. apply wp_some_or.
  eexists. rewrite Hg. split; [exact Rg |]. wp_step. wp_steps.
  exists (u64 v), t, v0, v1. rewrite Ht, <- !app_assoc. done.
Qed.

(** C12: [osal_irq_request] refines the controller's table: it rejects a NULL
    handler and a number above 288 without any effect; otherwise, when the
    controller next acknowledges that interrupt, the dispatcher calls exactly
    the requested handler with its own interrupt number and device, and then
    ends that interrupt. *)
Theorem osal_request_delivers irq handler dev P w :
  0 <= irq -> tables_ok (glob w) -> acknowledges irq ->
  (forall h w1, handler = Some h -> emits (call_osal h irq dev) w1 (fun _ t => P h t)) ->
  match handler with
  | Some h =>
      if decide (irq <= 288) then
        wp (r ← osal_irq_request irq (Some h) dev;
            do_irq_osal call_osal call_other ;; mret r)
           (fun r w' => r = OSAL_SUCCESS /\ exists v t e1 e2,
              tr w' = tr w ++ Sy (Mrs ICC_IAR1_EL1) v :: t ++
                [Sy (Msr ICC_EOIR1_EL1 irq) e1; Sy (Msr ICC_DIR_EL1 irq) e2] /\ P h t) w
      else wp (osal_irq_request irq (Some h) dev) (fun r w' => r = OSAL_FAILURE /\ w' = w) w
  | None => wp (osal_irq_request irq None dev) (fun r w' => r = OSAL_FAILURE /\ w' = w) w
  end.
Proof.
  intros Hi Hok Hack Hcall. destruct handler as [h |]; [| by apply wp_ret].
  destruct (decide (irq <= 288)).
  - wp_step. wp_apply (request_requested irq h dev); [lia | done |].
    intros r w1 (-> & Ht & _ & Hr). wp_step.
    wp_apply (wp_do_irq_requested irq h dev 0 (P h)); [done | done | intros; by apply Hcall |].
    intros [] w2 (v & t & e1 & e2 & Ht2 & HP). wp_step. split; [done |].
    exists v, t, e1, e2. by rewrite Ht2, Ht.
  - unfold osal_irq_request, MAX_INT_NUM. replace (288 <? irq) with true by lia. by apply wp_ret.
Qed.
End Delivery.

(** ** Witnesses: a processor with an interrupt mask and nothing else *)
Inductive cpu := Cpu (masked : bool).
#[export] Instance cpu_machine : Machine cpu := {|
  m_load a d := (0, d);
  m_store a v d := d;
  m_sys op '(Cpu b) := match op with
    | Mrs DAIF => (if b then 128 else 0, Cpu b)
    | Mrs ICC_IAR1_EL1 => (40, Cpu b)
    | DaifSet _ => (0, Cpu true)
    | DaifClr _ => (0, Cpu false)
    | _ => (0, Cpu b)
    end;
|}.
#[export, refine] Instance cpu_mask : IrqMask cpu := {| irqs_masked '(Cpu b) := b |}.
Proof.
  - by intros [[]].
  - by intros [].
  - by intros [].
  - by intros [b] [].
Defined.

Lemma critical_sections_nest_witness :
  wp (irq ← osal_irq_lock (G := unit) (D := cpu);
      (irq' ← osal_irq_lock; mret tt ;; osal_irq_restore irq') ;; osal_irq_restore irq)
     (fun _ w' => dev w' = Cpu true) (World tt (Cpu true) []) /\
  wp (osal_spin_lock_irqsave (G := unit) (D := cpu) ;; osal_spin_lock_irqsave ;;
      osal_spin_unlock_irqrestore)
     (fun _ w' => dev w' = Cpu false) (World tt (Cpu true) []).
Proof.
  destruct (critical_sections_nest (irq' ← osal_irq_lock; mret tt ;; osal_irq_restore irq')
             (World tt (Cpu true) [])) as [H1 H2].
  - intros [g [b] t] _ Hm. simpl in Hm. subst b. vm_compute. exact I.
  - split; (eapply wp_mono; [eassumption |]);
      intros [] [g [b] t] Hm; simpl in Hm; subst b; reflexivity.
Defined.

Definition osal_world : world (gic irq_fn irq_arg * osal_irqs) cpu :=
  World (gic_init, osal_init) (Cpu true) [].

(** The client's handler stores its number and device. *)
Definition store_irq (h i d : Z) : M (gic irq_fn irq_arg * osal_irqs) cpu unit :=
  writel i h ;; writel d (h + 4).

Lemma osal_request_delivers_witness :
  wp (r ← osal_irq_request 40 (Some 0x500) 9;
      do_irq_osal store_irq (fun _ _ => mret tt) ;; mret r)
     (fun r w' => r = OSAL_SUCCESS /\ exists v t e1 e2,
        tr w' = Sy (Mrs ICC_IAR1_EL1) v :: t ++
          [Sy (Msr ICC_EOIR1_EL1 40) e1; Sy (Msr ICC_DIR_EL1 40) e2] /\
        t = [Wr 0x500 40; Wr 0x504 9]) osal_world.
Proof.
  apply (osal_request_delivers store_irq (fun _ _ => mret tt) 40 (Some 0x500) 9
    (fun h t => t = [Wr h 40; Wr (h + 4) 9]) osal_world).
  - lia.
  - split; reflexivity.
  - intros [b]. reflexivity.
  - intros h w1 _. unfold store_irq. emits_steps. reflexivity.
Defined.
