(* ===== verification/Message.v ===== *)
(** * Message: message boxes between cores (baremetal/message/message.c)

    Five boxes in memory shared by the cores, each a head word (status and
    magic number) and a body of 256 bytes; a core takes a box by compare and
    exchange on the head, copies, and releases it.  The first words of the
    shared area tell each core which box an inter-processor interrupt is
    about.  The shared memory is the byte memory of [Mem]; the exclusive-load
    loop of [bm_cmp_xchg32bits] is one atomic compare and exchange.  The
    performance counters are compiled out ([MSG_PERF_STAT_ENABLE] is 0), as is
    the magic check ([CHECK_MAGIC_WORD_ENABLE] is 0). *)
From S2P Require Import Prelude Hw Common Mem Securec Gic.
From stdpp Require Import prelude gmap list strings.
From Stdlib Require Import ZArith Lia.
Local Open Scope Z_scope.

Definition MSG_STATUS_FREE : Z := 0.
Definition MSG_STATUS_USING : Z := 1.
Definition MSG_STATUS_BOTTOM : Z := 2.
Definition MSG_ID_BOTTOM : Z := 5.
Definition MSG_HEAD_LEN : Z := 4.
Definition MSG_BODY_LEN : Z := 0x100.
Definition IPI_INT_NO : Z := 12.
Definition MAGIC_NUM : Z := 0x5a5a5a.
Definition msg_head_flag (status : Z) : Z := Z.lor status (Z.shiftl MAGIC_NUM 8).

(** The shared area; its base depends on the memory map that is built in. *)
Class MsgLayout := { SHARE_MSG_BASE_ADDR : Z }.

Section Message.
Context {G D : Type} `{MD : Machine D} `{HM : !Has G mem} `{LY : MsgLayout} `{XF : Xfer}.
Abbreviation M := (M G D).

Definition MSG_MEM_BEGIN : Z := SHARE_MSG_BASE_ADDR + 16.

(** [g_ipi_trigger] and [g_msg_inst] *)
Definition g_ipi_trigger : list Z :=
  [SHARE_MSG_BASE_ADDR; SHARE_MSG_BASE_ADDR + 4; SHARE_MSG_BASE_ADDR + 8; SHARE_MSG_BASE_ADDR + 12].

Definition msg_base (msg_id : Z) : Z := MSG_MEM_BEGIN + msg_id * (MSG_BODY_LEN + MSG_HEAD_LEN).
Definition msg_len (msg_id : Z) : Z := MSG_BODY_LEN.

Definition ipi_trigger (cpu : Z) : M Z :=
  some_or OutOfBounds (g_ipi_trigger !! Z.to_nat (Z.land cpu 3)).

Definition get_flag_status (addr : Z) : M Z := v ← ld32 addr; mret (Z.land v 0xff).
Definition set_flag_status (addr value : Z) : M unit := st32 addr (msg_head_flag value).
Definition set_trigger (recv_cpu msg_id : Z) : M unit :=
  a ← ipi_trigger recv_cpu; st32 a msg_id.

(** [bm_cmp_xchg32bits], 0 when the exchange took place. *)
Definition bm_cmp_xchg32bits (addr val old_val : Z) : M Z :=
  prev_val ← ld32 addr;
  if prev_val =? old_val then st32 addr val ;; mret 0 else mret 1.
Definition bm_atomic_set (addr set_val : Z) : M unit := st32 addr set_val.

Definition bm_msg_init : M unit :=
  for_up 5 0 (fun i => set_flag_status (msg_base i) MSG_STATUS_FREE) ;;
  for_up 4 0 (fun i => set_trigger i 0).

Definition bm_cmp_xchg_status (msg_id val old : Z) : M Z :=
  if (MSG_ID_BOTTOM <=? msg_id) || (MSG_STATUS_BOTTOM <=? val) then mret BM_FAIL
  else bm_cmp_xchg32bits (msg_base msg_id) (msg_head_flag val) (msg_head_flag old).

(** The status is stored through the pointer when it is not NULL. *)
Definition bm_get_msg_status (msg_id : Z) (status : bool) : M (option Z) :=
  if (MSG_ID_BOTTOM <=? msg_id) || negb status then mret None
  else v ← get_flag_status (msg_base msg_id); mret (Some v).

Definition bm_set_msg_status (msg_id status : Z) : M unit :=
  if (MSG_ID_BOTTOM <=? msg_id) || (MSG_STATUS_BOTTOM <=? status) then mret tt
  else set_flag_status (msg_base msg_id) status.

Definition bm_get_ipi_msg : M Z :=
  cpu ← bm_get_coreid;
  a ← ipi_trigger cpu;
  msg_id ← ld32 a;
  if MSG_ID_BOTTOM <=? msg_id then mret NULL
  else mret (msg_base msg_id + MSG_HEAD_LEN).

Definition bm_get_msg (msg_id : Z) : Z :=
  if MSG_ID_BOTTOM <=? msg_id then NULL else msg_base msg_id + MSG_HEAD_LEN.

(** The checks of the arguments, the same in both directions. *)
Definition msg_bad_args (msg_id buf buf_len : Z) : bool :=
  (MSG_ID_BOTTOM <=? msg_id) || (buf =? NULL) || ctrue (is_invalid_addr_len (u32 buf) buf_len).

Definition msg_release (addr : Z) : M unit :=
  bm_atomic_set addr (msg_head_flag MSG_STATUS_FREE) ;; sys_ Dsb.

Definition bm_send_msg (msg_id buf buf_len : Z) : M Z :=
  if msg_bad_args msg_id buf buf_len then mret BM_FAIL
  else
    let addr := msg_base msg_id in
    ret ← bm_cmp_xchg32bits addr (msg_head_flag MSG_STATUS_USING) (msg_head_flag MSG_STATUS_FREE);
    if ctrue ret then mret BM_FAIL
    else
      let msg_buf := msg_base msg_id + MSG_HEAD_LEN in
      let dest_max := msg_len msg_id in
      if dest_max <? buf_len then msg_release addr ;; mret BM_FAIL
      else
        ret ← memcpy_s msg_buf dest_max buf buf_len;
        if ctrue ret then msg_release addr ;; mret BM_FAIL
        else msg_release addr ;; mret BM_OK.

Definition bm_recv_msg (msg_id buf buf_len : Z) : M Z :=
  if msg_bad_args msg_id buf buf_len then mret BM_FAIL
  else
    let addr := msg_base msg_id in
    ret ← bm_cmp_xchg32bits addr (msg_head_flag MSG_STATUS_USING) (msg_head_flag MSG_STATUS_FREE);
    if ctrue ret then mret BM_FAIL
    else
      let msg_buf := msg_base msg_id + MSG_HEAD_LEN in
      let dest_max := msg_len msg_id in
      let real_len := if dest_max <? buf_len then dest_max else buf_len in
      ret ← memcpy_s buf dest_max msg_buf real_len;
      if ctrue ret then msg_release addr ;; mret BM_FAIL
      else msg_release addr ;; mret BM_OK.

Section Ipi.
Context {H A : Type} `{HG : !Has G (gic H A)}.

Definition bm_send_msg_with_ipi (recv_cpu msg_id buf buf_len : Z) : M Z :=
  ret ← bm_send_msg msg_id buf buf_len;
  if negb (ret =? BM_OK) then mret BM_FAIL
  else if BM_MAX_CORE_NUM <=? recv_cpu then mret BM_FAIL
  else
    set_trigger recv_cpu msg_id ;;
    _ ← bm_hwi_trigger (H := H) (A := A) IPI_INT_NO (Z.lor 0 (Z.shiftl 1 recv_cpu));
    mret BM_OK.

(** [*msg_id] is part of the result. *)
Definition bm_recv_msg_with_ipi (msg_id : bool) (buf buf_len : Z) : M (Z * option Z) :=
  if negb msg_id || (buf =? NULL) then mret (BM_FAIL, None)
  else
    cpu ← bm_get_coreid;
    a ← ipi_trigger cpu;
    id ← ld32 a;
    ret ← bm_recv_msg id buf buf_len;
    mret (if negb (ret =? BM_OK) then BM_FAIL else BM_OK, Some id).
End Ipi.
End Message.

(** ** The cores together

    One box and any number of cores, each in the middle of a [bm_send_msg] or
    a [bm_recv_msg] on it (with arguments that are not refused before the box
    is touched), interleaved one access at a time.  A core's private
    buffer is a list of its own; the accesses to the box are the compare and
    exchange that takes it, the copy of one byte, and the store that releases
    it, in the order of the code. *)
Module Cores.

(** Where a core is in the call. *)
Inductive pc :=
| AtCas                      (* before bm_cmp_xchg32bits *)
| AtCopy (done : nat)        (* inside memcpy_s: [done] bytes copied *)
| AtRelease                  (* copied, before bm_atomic_set *)
| Failed                     (* returned BM_FAIL *)
| Returned.                  (* returned BM_OK *)

Inductive call :=
| Sending (data : list Z)           (* at most 256 bytes, checked before the copy *)
| TooLong                           (* a send of more: takes the box only to give it back *)
| Receiving (len : nat) (buf : list Z).  (* [real_len] and what was copied so far *)

Record core := Core { c_call : call; c_pc : pc }.

Record box := Box {
  head : Z;              (* the head word *)
  body : list Z;         (* the body *)
  cores : list core;
  history : list (list Z); (* every content the body had when no send was going on *)
}.

Definition copy_len (c : call) : nat :=
  match c with Sending data => length data | TooLong => O | Receiving len _ => len end.

(** What the copy of byte [i] does to the body and to the call. *)
Definition copy_byte (c : call) (i : nat) (b : list Z) : call * list Z :=
  match c with
  | Sending data => (c, <[i := default 0 (data !! i)]> b)
  | TooLong => (c, b)
  | Receiving len buf => (Receiving len (buf ++ [default 0 (b !! i)]), b)
  end.

Definition set_core (i : nat) (c : core) (s : box) : box :=
  Box (head s) (body s) (<[i := c]> (cores s)) (history s).

(** One access of core [i]. *)
Inductive step : box -> box -> Prop :=
| step_take s i c :
    cores s !! i = Some (Core c AtCas) ->
    head s = msg_head_flag MSG_STATUS_FREE ->
    step s (Box (msg_head_flag MSG_STATUS_USING) (body s)
                (<[i := Core c (AtCopy 0)]> (cores s)) (history s))
| step_busy s i c :
    cores s !! i = Some (Core c AtCas) ->
    head s <> msg_head_flag MSG_STATUS_FREE ->
    step s (set_core i (Core c Failed) s)
| step_copy s i c n :
    cores s !! i = Some (Core c (AtCopy n)) -> (n < copy_len c)%nat ->
    step s (Box (head s) (snd (copy_byte c n (body s)))
                (<[i := Core (fst (copy_byte c n (body s))) (AtCopy (S n))]> (cores s)) (history s))
| step_copied s i c n :
    cores s !! i = Some (Core c (AtCopy n)) -> (n = copy_len c)%nat ->
    step s (set_core i (Core c AtRelease) s)
| step_release s i c :
    cores s !! i = Some (Core c AtRelease) ->
    step s (Box (msg_head_flag MSG_STATUS_FREE) (body s)
                (<[i := Core c (match c with TooLong => Failed | _ => Returned end)]> (cores s))
                (match c with Sending _ => body s :: history s | _ => history s end)).

(** At the start the box is free and every core is about to take it. *)
Definition initial (s : box) : Prop :=
  head s = msg_head_flag MSG_STATUS_FREE /\ length (body s) = 256%nat /\
  history s = [body s] /\
  Forall (fun c => c_pc c = AtCas /\ (copy_len (c_call c) <= 256)%nat /\
                   match c_call c with Receiving _ buf => buf = [] | _ => True end) (cores s).

Inductive reachable : box -> Prop :=
| reach_init s : initial s -> reachable s
| reach_step s s' : reachable s -> step s s' -> reachable s'.
End Cores.
