(* ===== verification/MessageProps.v ===== *)
(** * MessageProps: what the message boxes guarantee

    Sending and receiving on one core (the box is taken, filled or read, and
    given back; a busy box is left alone), and the protocol between cores:
    mutual exclusion on a box and no torn message, for every interleaving. *)
From S2P Require Import Prelude Hw Common Mem Securec Gic GicProps Message.
From stdpp Require Import prelude gmap list strings.
From Stdlib Require Import ZArith Lia.
Local Open Scope Z_scope.

(** ** The protocol between cores *)
Section Protocol.
Import Cores.

Definition FREE : Z := msg_head_flag MSG_STATUS_FREE.
Definition USING : Z := msg_head_flag MSG_STATUS_USING.

(** The core is between taking and releasing the box. *)
Definition holds (c : core) : bool :=
  match c_pc c with AtCopy _ | AtRelease => true | _ => false end.

(** After [n] bytes of the call, relative to the last complete content. *)
Definition progress (n : nat) (c : call) (b last : list Z) : Prop :=
  match c with
  | Sending data => b = take n data ++ drop n last
  | TooLong => b = last
  | Receiving _ buf => buf = take n last /\ b = last
  end.

(** What a call that returned BM_OK achieved. *)
Definition completed (c : call) (h : list (list Z)) : Prop :=
  match c with
  | Sending data => exists m, m ∈ h /\ take (length data) m = data
  | TooLong => False
  | Receiving len buf => exists m, m ∈ h /\ buf = take len m
  end.

Definition core_ok (b last : list Z) (h : list (list Z)) (c : core) : Prop :=
  (copy_len (c_call c) <= 256)%nat /\
  match c_pc c with
  | AtCas => match c_call c with Receiving _ buf => buf = [] | _ => True end
  | AtCopy n => (n <= copy_len (c_call c))%nat /\ progress n (c_call c) b last
  | AtRelease => progress (copy_len (c_call c)) (c_call c) b last
  | Failed => True
  | Returned => completed (c_call c) h
  end.

(** Each complete content is the previous one with one whole message on it. *)
Definition whole_messages (h : list (list Z)) : Prop :=
  forall k m m', h !! k = Some m -> h !! S k = Some m' ->
    exists data, m = data ++ drop (length data) m'.

Record invariant (s : box) (last : list Z) : Prop := {
  iv_history : exists rest, history s = last :: rest;
  iv_last : length last = 256%nat;
  iv_body : length (body s) = 256%nat;
  iv_cores : forall i c, cores s !! i = Some c -> core_ok (body s) last (history s) c;
  iv_lock : (head s = FREE /\ body s = last /\
             forall i c, cores s !! i = Some c -> holds c = false) \/
            (head s = USING /\ exists i c, cores s !! i = Some c /\ holds c = true /\
             forall j c', cores s !! j = Some c' -> holds c' = true -> j = i);
  iv_whole : whole_messages (history s);
}.

Lemma FREE_USING : FREE <> USING.
Proof. discriminate. Qed.

(** A core that does not hold the box does not see the body change. *)
Lemma core_ok_idle b b' last last' h h' c :
  holds c = false -> (forall m, m ∈ h -> m ∈ h') -> core_ok b last h c -> core_ok b' last' h' c.
Proof.
  intros Hh Hsub [Hl Hc]. split; [done |]. unfold holds in Hh.
  destruct (c_pc c); try done. destruct (c_call c); [| done |]; destruct Hc as (m & Hm & E);
    exists m; eauto.
Qed.

(** The holder is unique. *)
Lemma holder_unique s last i c : invariant s last -> cores s !! i = Some c -> holds c = true ->
  head s = USING /\ forall j c', j <> i -> cores s !! j = Some c' -> holds c' = false.
Proof.
  intros Hinv Hi Hc. destruct (iv_lock _ _ Hinv) as [(_ & _ & Hno) | (Hu & k & ck & _ & _ & Hk)].
  - by rewrite (Hno _ _ Hi) in Hc.
  - split; [done |]. intros j c' Hj Hj'. destruct (holds c') eqn:E; [| done].
    pose proof (Hk _ _ Hi Hc). pose proof (Hk _ _ Hj' E). congruence.
Qed.

Lemma lookup_cores i j (c x : core) (l : list core) :
  <[i := c]> l !! j = Some x -> (j = i /\ x = c) \/ (j <> i /\ l !! j = Some x).
Proof.
  destruct (decide (i = j)) as [-> | Hne]; intros H.
  - left. pose proof (lookup_lt_Some _ _ _ H) as Hl. rewrite length_insert in Hl.
    rewrite list_lookup_insert_eq in H by done. naive_solver.
  - rewrite list_lookup_insert_ne in H by done. auto.
Qed.

Lemma insert_some i (c x : core) (l : list core) : l !! i = Some x -> <[i := c]> l !! i = Some c.
Proof. intros H. apply list_lookup_insert_eq. by eapply lookup_lt_Some. Qed.

(** Copying one more byte. *)
Lemma progress_copy c n b last :
  (n < copy_len c)%nat -> (copy_len c <= 256)%nat -> length last = 256%nat -> length b = 256%nat ->
  progress n c b last ->
  progress (S n) (fst (copy_byte c n b)) (snd (copy_byte c n b)) last /\
  copy_len (fst (copy_byte c n b)) = copy_len c.
Proof.
  intros Hn Hc Hl Hb. destruct c as [data | | len buf]; simpl in *; [| lia |].
  - intros ->. split; [| done].
    destruct (lookup_lt_is_Some_2 data n Hn) as [x Hx]. rewrite Hx. simpl.
    rewrite (take_S_r _ _ _ Hx). rewrite insert_app_r_alt by (rewrite length_take; lia).
    rewrite length_take_le by lia. rewrite Nat.sub_diag.
    destruct (lookup_lt_is_Some_2 last n ltac:(lia)) as [y Hy].
    rewrite (drop_S _ _ _ Hy). simpl. by rewrite <- app_assoc.
  - intros [-> ->]. split; [| done]. split; [| done].
    destruct (lookup_lt_is_Some_2 last n ltac:(lia)) as [y Hy]. rewrite Hy. simpl.
    by rewrite (take_S_r _ _ _ Hy).
Qed.

(** The invariant holds at the start and is kept by every access. *)
Lemma invariant_initial s : initial s -> invariant s (body s).
Proof.
  intros (Hh & Hb & Hhi & Hc). rewrite Forall_lookup in Hc. split; try done.
  - by exists [].
  - intros i c Hi. destruct (Hc i c Hi) as (Hp & Hl & Hbuf). split; [done |]. by rewrite Hp.
  - left. split_and!; [done | done |]. intros i c Hi. destruct (Hc i c Hi) as (Hp & _).
    unfold holds. by rewrite Hp.
  - rewrite Hhi. intros [| k] m m'; simpl; intros H1 H2; done.
Qed.

Lemma step_take_inv s last i c : invariant s last -> cores s !! i = Some (Core c AtCas) ->
  head s = FREE ->
  invariant (Box USING (body s) (<[i := Core c (AtCopy 0)]> (cores s)) (history s)) last.
Proof.
  intros [Hh Hl Hb Hc Hk Hw] Hi Hf.
  destruct Hk as [(_ & Hbl & Hno) | (Hu & _)]; [| by rewrite Hf in Hu].
  split; cbn [head body cores history]; try done.
  - intros j x Hj. apply lookup_cores in Hj as [[-> ->] | [_ Hj]]; [| by eapply Hc].
    destruct (Hc _ _ Hi) as [Hlen Hst]. split; [done |]. cbn in *. split; [lia |].
    destruct c; cbn in *; [done | done |]. by subst.
  - right. split; [done |]. exists i, (Core c (AtCopy 0)).
    split; [by eapply insert_some |]. split; [done |].
    intros j x Hj Hx. apply lookup_cores in Hj as [[-> _] | [_ Hj]]; [done |].
    by rewrite (Hno _ _ Hj) in Hx.
Qed.

Lemma step_busy_inv s last i c : invariant s last -> cores s !! i = Some (Core c AtCas) ->
  invariant (set_core i (Core c Failed) s) last.
Proof.
  intros [Hh Hl Hb Hc Hk Hw] Hi. split; cbn [head body cores history set_core]; try done.
  - intros j x Hj. apply lookup_cores in Hj as [[-> ->] | [_ Hj]]; [| by eapply Hc].
    split; [| done]. apply (Hc _ _ Hi).
  - destruct Hk as [(Hf & Hbl & Hno) | (Hu & k & ck & Hk & Hck & Huniq)]; [left | right].
    + split_and!; [done | done |]. intros j x Hj.
      apply lookup_cores in Hj as [[-> ->] | [_ Hj]]; [done | by eapply Hno].
    + split; [done |]. exists k, ck. split; [| split; [done |]].
      * rewrite list_lookup_insert_ne; [done |]. intros ->. by rewrite Hi in Hk; simplify_eq.
      * intros j x Hj Hx. apply lookup_cores in Hj as [[-> ->] | [_ Hj]]; [done | by eapply Huniq].
Qed.

(** An access of the holder that keeps the lock. *)
Lemma step_holder_inv s last i c c' b' :
  invariant s last -> cores s !! i = Some c -> holds c = true -> holds c' = true ->
  length b' = 256%nat -> core_ok b' last (history s) c' ->
  invariant (Box (head s) b' (<[i := c']> (cores s)) (history s)) last.
Proof.
  intros Hinv Hi Hc Hc' Hlen Hok. destruct (holder_unique _ _ _ _ Hinv Hi Hc) as [Hu Hothers].
  destruct Hinv as [Hh Hl Hb Hcs Hk Hw]. split; cbn [head body cores history]; try done.
  - intros j x Hj. apply lookup_cores in Hj as [[-> ->] | [Hne Hj]]; [done |].
    eapply core_ok_idle; [by eapply Hothers | | by eapply Hcs]. done.
  - right. split; [done |]. exists i, c'. split; [by eapply insert_some |]. split; [done |].
    intros j x Hj Hx. apply lookup_cores in Hj as [[-> _] | [Hne Hj]]; [done |].
    by rewrite (Hothers _ _ Hne Hj) in Hx.
Qed.

Lemma step_copy_inv s last i c n : invariant s last -> cores s !! i = Some (Core c (AtCopy n)) ->
  (n < copy_len c)%nat ->
  invariant (Box (head s) (snd (copy_byte c n (body s)))
    (<[i := Core (fst (copy_byte c n (body s))) (AtCopy (S n))]> (cores s)) (history s)) last.
Proof.
  intros Hinv Hi Hn. destruct (iv_cores _ _ Hinv _ _ Hi) as [Hlen [_ Hp]]. cbn in Hlen, Hp.
  destruct (progress_copy c n (body s) last) as [Hp' Hl']; try done;
    [by apply (iv_last _ _ Hinv) | by apply (iv_body _ _ Hinv) |].
  eapply step_holder_inv; [done | done | done | done | |].
  - destruct c; simpl; [rewrite length_insert | |]; apply (iv_body _ _ Hinv).
  - split; cbn; [lia |]. split; [lia | done].
Qed.

Lemma step_copied_inv s last i c : invariant s last ->
  cores s !! i = Some (Core c (AtCopy (copy_len c))) ->
  invariant (set_core i (Core c AtRelease) s) last.
Proof.
  intros Hinv Hi. destruct (iv_cores _ _ Hinv _ _ Hi) as [Hlen [_ Hp]].
  eapply (step_holder_inv s last i); [done | done | done | done | apply Hinv | by split].
Qed.

Lemma whole_cons m m' h : (exists data, m = data ++ drop (length data) m') ->
  whole_messages (m' :: h) -> whole_messages (m :: m' :: h).
Proof.
  intros Hd Hw [| k] x y; simpl; intros H1 H2; [by simplify_eq | by eapply (Hw k)].
Qed.

(** Releasing the box after a send makes its content the last complete one. *)
Lemma step_release_send_inv s last i data : invariant s last ->
  cores s !! i = Some (Core (Sending data) AtRelease) ->
  invariant (Box FREE (body s) (<[i := Core (Sending data) Returned]> (cores s))
    (body s :: history s)) (body s).
Proof.
  intros Hinv Hi. destruct (holder_unique _ _ _ _ Hinv Hi eq_refl) as [Hu Hothers].
  destruct Hinv as [[rest Hh] Hl Hb Hcs Hk Hw]. destruct (Hcs _ _ Hi) as [Hlen Hp]. cbn in Hlen, Hp.
  rewrite take_ge in Hp by done.
  split; cbn [head body cores history]; try done.
  - by eexists.
  - intros j x Hj. apply lookup_cores in Hj as [[-> ->] | [Hne Hj]].
    + split; [done |]. cbn. exists (body s). split; [by left |]. by rewrite Hp, take_app_length.
    + eapply core_ok_idle; [by eapply Hothers | | by eapply Hcs]. intros m Hm. by right.
  - left. split_and!; try done. intros j x Hj.
    apply lookup_cores in Hj as [[-> ->] | [Hne Hj]]; [done | by eapply Hothers].
  - rewrite Hh in *. apply whole_cons; [by exists data | done].
Qed.

Lemma step_release_recv_inv s last i len buf : invariant s last ->
  cores s !! i = Some (Core (Receiving len buf) AtRelease) ->
  invariant (Box FREE (body s) (<[i := Core (Receiving len buf) Returned]> (cores s))
    (history s)) last.
Proof.
  intros Hinv Hi. destruct (holder_unique _ _ _ _ Hinv Hi eq_refl) as [Hu Hothers].
  destruct Hinv as [[rest Hh] Hl Hb Hcs Hk Hw]. destruct (Hcs _ _ Hi) as [Hlen [Hbuf Hbody]].
  split; cbn [head body cores history]; try done.
  - by eexists.
  - intros j x Hj. apply lookup_cores in Hj as [[-> ->] | [Hne Hj]].
    + split; [done |]. cbn. exists last. split; [rewrite Hh; by left | done].
    + eapply core_ok_idle; [by eapply Hothers | | by eapply Hcs]. done.
  - left. split_and!; try done. intros j x Hj.
    apply lookup_cores in Hj as [[-> ->] | [Hne Hj]]; [done | by eapply Hothers].
Qed.

Lemma step_release_refused_inv s last i : invariant s last ->
  cores s !! i = Some (Core TooLong AtRelease) ->
  invariant (Box FREE (body s) (<[i := Core TooLong Failed]> (cores s)) (history s)) last.
Proof.
  intros Hinv Hi. destruct (holder_unique _ _ _ _ Hinv Hi eq_refl) as [Hu Hothers].
  destruct Hinv as [Hh Hl Hb Hcs Hk Hw]. destruct (Hcs _ _ Hi) as [Hlen Hbody].
  split; cbn [head body cores history]; try done.
  - intros j x Hj. apply lookup_cores in Hj as [[-> ->] | [Hne Hj]]; [done |].
    eapply core_ok_idle; [by eapply Hothers | | by eapply Hcs]. done.
  - left. split_and!; try done. intros j x Hj.
    apply lookup_cores in Hj as [[-> ->] | [Hne Hj]]; [done | by eapply Hothers].
Qed.

Lemma reachable_invariant s : reachable s -> exists last, invariant s last.
Proof.
  induction 1 as [s Hs | s s' _ [last IH] Hstep]; [eexists; by apply invariant_initial |].
  destruct Hstep as [s i c Hi Hf | s i c Hi _ | s i c n Hi Hn | s i c n Hi -> | s i c Hi].
  - exists last. by apply step_take_inv.
  - exists last. by apply step_busy_inv.
  - exists last. by apply step_copy_inv.
  - exists last. by apply step_copied_inv.
  - destruct c as [data | | len buf].
    + exists (body s). by apply (step_release_send_inv s last).
    + exists last. by apply step_release_refused_inv.
    + exists last. by eapply step_release_recv_inv.
Qed.

(** C13: for any number of cores and any interleaving of their accesses, at
    most one core is between taking and releasing a box, and the head word
    says USING exactly then. *)
Theorem msg_box_mutual_exclusion s i j ci cj :
  reachable s -> cores s !! i = Some ci -> cores s !! j = Some cj ->
  holds ci = true -> holds cj = true ->
  i = j /\ head s = USING.
Proof.
  intros Hr Hi Hj Hci Hcj. destruct (reachable_invariant s Hr) as [last Hinv].
  destruct (holder_unique _ _ _ _ Hinv Hi Hci) as [Hu Hothers]. split; [| done].
  destruct (decide (i = j)) as [| Hne]; [done |]. by rewrite (Hothers j cj) in Hcj by done.
Qed.

(** no message is torn.  Every content the box ever had between calls is
    the previous one overwritten by one whole message; a receive that returned
    BM_OK got the beginning of such a content, and a send that returned BM_OK
    left its whole message in one. *)
Theorem msg_box_untorn s i c :
  reachable s -> cores s !! i = Some (Core c Returned) ->
  whole_messages (history s) /\
  match c with
  | Sending data => exists m, m ∈ history s /\ take (length data) m = data
  | TooLong => False
  | Receiving len buf => exists m, m ∈ history s /\ buf = take len m
  end.
Proof.
  intros Hr Hi. destruct (reachable_invariant s Hr) as [last Hinv].
  split; [apply (iv_whole _ _ Hinv) |]. apply (iv_cores _ _ Hinv _ _ Hi).
Qed.
End Protocol.

(** ** One call at a time *)
Section Calls.
Context {G D : Type} `{MD : Machine D} `{HM : !Has G mem} `{LY : MsgLayout} `{XF : Xfer}.
Implicit Types (w : world G D).

(** The box is mapped memory. *)
Record box_ok (m : mem) (id : Z) : Prop := {
  bx_bytes : bytes m;
  bx_id : 0 <= id < 5;
  bx_base : 0 < SHARE_MSG_BASE_ADDR;
  bx_map : mapped m (msg_base id) 260;
}.

(** The client's buffer: in the transfer segment and apart from the box. *)
Record buf_ok (m : mem) (id buf len : Z) : Prop := {
  bf_seg : is_invalid_addr_len (u32 buf) len = 0;
  bf_null : buf <> NULL;
  bf_len : 0 <= len;
  bf_map : mapped m buf len;
  bf_apart : buf + len <= msg_base id \/ msg_base id + 260 <= buf;
}.

Definition m32 (m : mem) (a : Z) : option Z := le_word <$> rd m a 4.

Lemma wp_ld32 a v (Q : Z -> world G D -> Prop) w :
  m32 (memof w) a = Some v -> Q v w -> wp (ld32 a) Q w.
Proof. intros Hm HQ. apply wp_ldn. apply fmap_Some in Hm as (bs & Hr & ->). by exists bs. Qed.

Lemma m32_bytes m a v : bytes m -> m32 m a = Some v -> rd m a 4 = Some (le_bytes 4 v).
Proof.
  intros Hb Hm. apply fmap_Some in Hm as (bs & Hr & ->). pose proof (bytes_rd _ _ _ _ Hb Hr) as Hf.
  pose proof (le_bytes_word bs Hf) as E. rewrite (rd_length _ _ _ _ Hr) in E. by rewrite E.
Qed.

Lemma bytes_le_bytes n v : Forall (fits 8) (le_bytes n v).
Proof. revert v. induction n as [| n IH]; intros v; constructor; [by apply wrap_fits | apply IH]. Qed.

(** Taking and releasing a free box leaves the head as it was. *)
Lemma head_restored m a v body bs : rd m a 4 = Some (le_bytes 4 FREE) ->
  a + 4 <= body \/ body + Z.of_nat (length bs) <= a ->
  wr (wr (wr m a (le_bytes 4 v)) body bs) a (le_bytes 4 FREE) = wr m body bs.
Proof.
  intros Hr Hd. apply map_eq. intros i. rewrite !lookup_wr, !length_le_bytes.
  repeat case_decide; try lia; try done. symmetry. eapply rd_lookup; [exact Hr | lia].
Qed.

Lemma msg_args_ok m id buf len : 0 <= id < 5 -> buf_ok m id buf len -> msg_bad_args id buf len = false.
Proof.
  intros Hid [Hs Hn _ _ _]. unfold msg_bad_args, MSG_ID_BOTTOM. rewrite Hs.
  unfold ctrue, NULL in *. lia.
Qed.

(** Taking the box, doing [c], giving it back. *)
Lemma wp_cas_free id (Q : Z -> world G D -> Prop) w : box_ok (memof w) id ->
  m32 (memof w) (msg_base id) = Some FREE ->
  Q 0 (setm (wr (memof w) (msg_base id) (le_bytes 4 USING)) w) ->
  wp (bm_cmp_xchg32bits (msg_base id) USING FREE) Q w.
Proof.
  intros [Hb Hid Hba Hm] Hh HQ. unfold bm_cmp_xchg32bits. wp_step. eapply wp_ld32; [exact Hh |].
  rewrite Z.eqb_refl. wp_step. apply wp_stn; [apply (mapped_sub _ _ _ _ _ Hm); simpl; lia |].
  by apply wp_ret.
Qed.

Lemma wp_cas_busy id h (Q : Z -> world G D -> Prop) w :
  m32 (memof w) (msg_base id) = Some h -> h <> FREE ->
  Q 1 w -> wp (bm_cmp_xchg32bits (msg_base id) USING FREE) Q w.
Proof.
  intros Hh Hne HQ. unfold bm_cmp_xchg32bits. wp_step. eapply wp_ld32; [exact Hh |].
  rewrite (proj2 (Z.eqb_neq _ _) Hne). by apply wp_ret.
Qed.

Lemma wp_release id (Q : unit -> world G D -> Prop) w : mapped (memof w) (msg_base id) 260 ->
  (forall w', memof w' = wr (memof w) (msg_base id) (le_bytes 4 FREE) -> Q tt w') ->
  wp (msg_release (msg_base id)) Q w.
Proof.
  intros Hm HQ. unfold msg_release, bm_atomic_set. wp_step.
  apply wp_stn; [apply (mapped_sub _ _ _ _ _ Hm); simpl; lia |].
  apply wp_sys_. intros v d _. apply HQ. apply hget_hput.
Qed.

(** *** Initialisation *)
Definition msg_area_len : Z := 16 + 5 * 260.

(** Boxes of [p] hold the word [v] each, from [k] on. *)
Lemma store_words (addr : Z -> Z) v n w lo hi :
  mapped (memof w) lo (hi - lo) ->
  (forall i, 0 <= i < Z.of_nat n -> lo <= addr i /\ addr i + 4 <= hi) ->
  (forall i j, 0 <= i < j -> j < Z.of_nat n -> addr i + 4 <= addr j) ->
  wp (for_up n 0 (fun i => st32 (addr i) v)) (fun _ w' => exists m, w' = setm m w /\
    (forall i, 0 <= i < Z.of_nat n -> m32 m (addr i) = Some (u32 v)) /\
    (forall a, a < addr 0 \/ addr (Z.of_nat n - 1) + 4 <= a -> m !! a = memof w !! a) /\ mapped m lo (hi - lo)) w.
Proof.
  intros Hm Hin Hsep. eapply wp_mono; [apply (wp_for_up (fun k w' => exists m, w' = setm m w /\
    (forall i, 0 <= i < k -> m32 m (addr i) = Some (u32 v)) /\
    (forall a, a < addr 0 \/ addr (Z.of_nat n - 1) + 4 <= a -> m !! a = memof w !! a) /\ mapped m lo (hi - lo)))
    | intros [] w'; by rewrite Z.add_0_l].
  - exists (memof w). split; [by rewrite setm_memof |]. split; [lia | done].
  - intros i w' Hi (m & -> & Hw & Ho & Hmm). destruct (Hin i) as [H1 H2]; [lia |].
    apply wp_stn; [rewrite memof_setm; apply (mapped_sub _ _ _ _ _ Hmm); simpl; lia |].
    rewrite memof_setm, setm_setm. eexists. split; [done |]. split; [| split].
    + intros j Hj. destruct (decide (j = i)) as [-> | Hne].
      * unfold m32. rewrite <- (length_le_bytes 4 v) at 2. rewrite rd_wr_eq. cbn [fmap option_fmap option_map].
        by rewrite le_word_bytes.
      * unfold m32. pose proof (Hsep j i ltac:(lia) ltac:(lia)). rewrite rd_wr_ne by (rewrite length_le_bytes; lia). apply Hw. lia.
    + intros a Ha. rewrite lookup_wr, length_le_bytes, decide_False; [by apply Ho |].
      assert (addr 0 <= addr i) by (destruct (decide (i = 0)) as [-> |]; [lia | pose proof (Hsep 0 i ltac:(lia) ltac:(lia)); lia]).
      assert (addr i <= addr (Z.of_nat n - 1)).
      { destruct (decide (i = Z.of_nat n - 1)) as [-> |]; [lia | pose proof (Hsep i (Z.of_nat n - 1) ltac:(lia) ltac:(lia)); lia]. }
      lia.
    + by apply mapped_wr.
Qed.

(** The trigger words, in the order of the cores. *)
Definition trigger_word (c : Z) : Z := default 0 (g_ipi_trigger !! Z.to_nat c).
Lemma trigger_word_eq c : 0 <= c < 4 -> trigger_word c = SHARE_MSG_BASE_ADDR + 4 * c.
Proof.
  intros Hc. assert (c = 0 \/ c = 1 \/ c = 2 \/ c = 3) as [-> | [-> | [-> | ->]]] by lia; unfold trigger_word; simpl; lia.
Qed.

(** Every box is free, every core's trigger word 0, nothing else changed. *)
Lemma wp_msg_init w : mapped (memof w) SHARE_MSG_BASE_ADDR msg_area_len ->
  wp bm_msg_init (fun _ w' => exists m, w' = setm m w /\
    (forall id, 0 <= id < 5 -> m32 m (msg_base id) = Some FREE) /\
    (forall c, 0 <= c < 4 -> m32 m (SHARE_MSG_BASE_ADDR + 4 * c) = Some 0) /\
    (forall a, a < SHARE_MSG_BASE_ADDR \/ SHARE_MSG_BASE_ADDR + msg_area_len <= a -> m !! a = memof w !! a)) w.
Proof.
  unfold msg_area_len. intros Hm.
  assert (forall id, msg_base id = SHARE_MSG_BASE_ADDR + 16 + id * 260) as Hbase by (intros; unfold msg_base, MSG_MEM_BEGIN, MSG_BODY_LEN, MSG_HEAD_LEN; lia).
  unfold bm_msg_init. wp_step.
  eapply wp_mono; [apply (store_words msg_base FREE 5 w SHARE_MSG_BASE_ADDR (SHARE_MSG_BASE_ADDR + (16 + 5 * 260))) |].
  { by replace (SHARE_MSG_BASE_ADDR + (16 + 5 * 260) - SHARE_MSG_BASE_ADDR) with (16 + 5 * 260) by lia. }
  { intros i Hi. rewrite Hbase. lia. } { intros i j Hi Hj. rewrite !Hbase. lia. }
  cbv beta. intros [] w1 (m1 & -> & Hheads & Ho1 & Hm1).
  change (for_up 4 0 (fun i => set_trigger i 0)) with (for_up (G := G) (D := D) 4 0 (fun i => st32 (trigger_word i) 0)).
  eapply wp_mono; [apply (store_words trigger_word 0 4 (setm m1 w) SHARE_MSG_BASE_ADDR (SHARE_MSG_BASE_ADDR + (16 + 5 * 260))) |].
  { by rewrite memof_setm. }
  { intros i Hi. rewrite trigger_word_eq by lia. lia. }
  { intros i j Hi Hj. rewrite !trigger_word_eq by lia. lia. }
  cbv beta. intros [] w2 (m2 & -> & Htr & Ho2 & _). exists m2. rewrite setm_setm, memof_setm in *.
  change (Z.of_nat 4 - 1) with 3 in Ho2. rewrite !trigger_word_eq in Ho2 by lia.
  change (Z.of_nat 5 - 1) with 4 in Ho1. rewrite !Hbase in Ho1.
  split; [done |]. split; [| split].
  - intros id Hid. unfold m32. rewrite (rd_ext m2 m1); [by apply Hheads |]. intros a Ha. apply Ho2. rewrite Hbase in Ha. lia.
  - intros c Hc. rewrite <- trigger_word_eq by lia. by apply Htr.
  - intros a Ha. rewrite Ho2 by lia. apply Ho1. lia.
Qed.

Lemma send_spec id buf len data h w :
  box_ok (memof w) id -> buf_ok (memof w) id buf len ->
  rd (memof w) buf (Z.to_nat len) = Some data ->
  m32 (memof w) (msg_base id) = Some h ->
  wp (bm_send_msg id buf len)
     (fun r w' =>
        if decide (h = FREE /\ len <= 256)
        then r = BM_OK /\ memof w' = wr (memof w) (msg_base id + 4) data
        else r = BM_FAIL /\ memof w' = memof w) w.
Proof.
  intros Hbox Hbuf Hd Hh. pose proof Hbox as [Hb Hid Hba Hm]. pose proof Hbuf as [_ Hn Hl Hbm Hap].
  unfold bm_send_msg. rewrite (msg_args_ok _ _ _ _ Hid Hbuf). cbv zeta. fold USING FREE.
  destruct (decide (h = FREE)) as [-> | Hne].
  2: { wp_step. eapply wp_cas_busy; [exact Hh | done |]. apply wp_ret.
       by rewrite decide_False by tauto. }
  wp_step. apply wp_cas_free; [done | done |]. cbn [ctrue Z.eqb negb].
  unfold msg_len, MSG_BODY_LEN, MSG_HEAD_LEN.
  pose proof (m32_bytes _ _ _ Hb Hh) as Hrd.
  destruct (Z.ltb_spec 256 len).
  - wp_step. apply wp_release; [rewrite memof_setm; by apply mapped_wr |].
    intros w' Hw'. apply wp_ret. rewrite decide_False by lia.
    split; [done |]. rewrite Hw', memof_setm.
    apply (head_restored (memof w) (msg_base id) USING (msg_base id + 4) []); [done | left; lia].
  - wp_step. apply (wp_memcpy_s_ok _ _ _ _ data).
    + rewrite memof_setm. apply bytes_wr; [done | apply bytes_le_bytes].
    + rewrite memof_setm, rd_wr_ne; [done |]. rewrite length_le_bytes. lia.
    + rewrite memof_setm. apply mapped_wr, (mapped_sub _ _ _ _ _ Hm); lia.
    + unfold NULL, msg_base, MSG_MEM_BEGIN, MSG_BODY_LEN, MSG_HEAD_LEN. lia.
    + done.
    + lia.
    + unfold SECUREC_MEM_MAX_LEN. lia.
    + lia.
    + rewrite memof_setm, setm_setm. cbn [ctrue EOK Z.eqb negb].
      wp_step. apply wp_release; [rewrite memof_setm; by do 2 apply mapped_wr |].
      intros w' Hw'. apply wp_ret. rewrite decide_True by (split; [done | lia]).
      split; [done |]. rewrite Hw', memof_setm.
      apply head_restored; [done | left; lia].
Qed.

Lemma recv_spec id buf len data h w :
  box_ok (memof w) id -> buf_ok (memof w) id buf len ->
  rd (memof w) (msg_base id + 4) (Z.to_nat (Z.min len 256)) = Some data ->
  m32 (memof w) (msg_base id) = Some h ->
  wp (bm_recv_msg id buf len)
     (fun r w' =>
        if decide (h = FREE)
        then r = BM_OK /\ memof w' = wr (memof w) buf data
        else r = BM_FAIL /\ memof w' = memof w) w.
Proof.
  intros Hbox Hbuf Hd Hh. pose proof Hbox as [Hb Hid Hba Hm]. pose proof Hbuf as [_ Hn Hl Hbm Hap].
  unfold bm_recv_msg. rewrite (msg_args_ok _ _ _ _ Hid Hbuf). cbv zeta. fold USING FREE.
  destruct (decide (h = FREE)) as [-> | Hne].
  2: { wp_step. eapply wp_cas_busy; [exact Hh | done |]. by apply wp_ret. }
  wp_step. apply wp_cas_free; [done | done |]. cbn [ctrue Z.eqb negb].
  unfold msg_len, MSG_BODY_LEN, MSG_HEAD_LEN.
  pose proof (m32_bytes _ _ _ Hb Hh) as Hrd. pose proof (rd_length _ _ _ _ Hd) as Hlen.
  replace (if 256 <? len then 256 else len) with (Z.min len 256)
    by (destruct (Z.ltb_spec 256 len); lia).
  wp_step. apply (wp_memcpy_s_ok _ _ _ _ data).
  - rewrite memof_setm. apply bytes_wr; [done | apply bytes_le_bytes].
  - rewrite memof_setm, rd_wr_ne; [done |]. rewrite length_le_bytes. lia.
  - rewrite memof_setm. apply mapped_wr, (mapped_sub _ _ _ _ _ Hbm); lia.
  - done.
  - unfold NULL, msg_base, MSG_MEM_BEGIN, MSG_BODY_LEN, MSG_HEAD_LEN. lia.
  - lia.
  - unfold SECUREC_MEM_MAX_LEN. lia.
  - lia.
  - rewrite memof_setm, setm_setm. cbn [ctrue EOK Z.eqb negb].
    wp_step. apply wp_release; [rewrite memof_setm; by do 2 apply mapped_wr |].
    intros w' Hw'. apply wp_ret. split; [done |]. rewrite Hw', memof_setm.
    apply head_restored; [done | lia].
Qed.

Lemma m32_wr_ne m a bs b : a + Z.of_nat (length bs) <= b \/ b + 4 <= a ->
  m32 (wr m a bs) b = m32 m b.
Proof. intros H. unfold m32. by rewrite rd_wr_ne. Qed.

(** What was written can be read back, or any prefix of it. *)
Lemma rd_wr_prefix m a bs k : (k <= length bs)%nat -> rd (wr m a bs) a k = Some (take k bs).
Proof.
  intros Hk. rewrite <- (take_drop k bs) at 1. rewrite wr_app.
  rewrite rd_wr_ne by (rewrite length_take; lia).
  pose proof (rd_wr_eq m a (take k bs)) as H. by rewrite length_take_le in H.
Qed.

(** Writing the client's data leaves the buffers and boxes well-formed. *)
Lemma box_ok_wr m id a bs : box_ok m id -> Forall (fits 8) bs -> box_ok (wr m a bs) id.
Proof. intros [Hb Hid Hba Hm] Hf. split; [by apply bytes_wr | done | done | by apply mapped_wr]. Qed.

Lemma buf_ok_wr m id buf len a bs : buf_ok m id buf len -> buf_ok (wr m a bs) id buf len.
Proof. intros [Hs Hn Hl Hm Hap]. split; try done. by apply mapped_wr. Qed.

(** [bm_send_msg] on every branch: bad arguments and a box in use change
    nothing and give BM_FAIL; so does a message longer than the box, which is
    given back free; otherwise the message is in the body, nothing else in
    memory has changed and the box is free again. *)
Theorem bm_send_msg_contract id buf len w :
  (msg_bad_args id buf len = true ->
     wp (bm_send_msg id buf len) (fun r w' => r = BM_FAIL /\ w' = w) w) /\
  (forall data h,
     box_ok (memof w) id -> buf_ok (memof w) id buf len ->
     rd (memof w) buf (Z.to_nat len) = Some data -> m32 (memof w) (msg_base id) = Some h ->
     wp (bm_send_msg id buf len)
       (fun r w' =>
          if decide (h = FREE /\ len <= 256)
          then r = BM_OK /\ memof w' = wr (memof w) (msg_base id + 4) data /\
               m32 (memof w') (msg_base id) = Some FREE
          else r = BM_FAIL /\ memof w' = memof w) w).
Proof.
  split.
  - intros Hbad. unfold bm_send_msg. rewrite Hbad. by apply wp_ret.
  - intros data h Hbox Hbuf Hd Hh. wp_apply (send_spec id buf len data h); [done .. |].
    intros r w'. case_decide as Hc; [| done]. intros [-> ->]. split_and!; [done | done |].
    destruct Hc as [<- _]. rewrite m32_wr_ne; [done | lia].
Qed.

(** C14: what one core sends, the next receiver of that box gets: a receive
    of at most that many bytes delivers exactly the beginning of the message,
    and the box is free again for the next sender. *)
Theorem msg_roundtrip id src len dst len' data w :
  box_ok (memof w) id -> buf_ok (memof w) id src len -> buf_ok (memof w) id dst len' ->
  rd (memof w) src (Z.to_nat len) = Some data -> m32 (memof w) (msg_base id) = Some FREE ->
  len' <= len <= 256 ->
  wp (r ← bm_send_msg id src len; r' ← bm_recv_msg id dst len'; mret (r, r'))
     (fun p w' => p = (BM_OK, BM_OK) /\
        rd (memof w') dst (Z.to_nat len') = Some (take (Z.to_nat len') data) /\
        m32 (memof w') (msg_base id) = Some FREE) w.
Proof.
  intros Hbox Hsrc Hdst Hd Hh Hlen.
  pose proof (rd_length _ _ _ _ Hd) as Hld. pose proof (bf_len _ _ _ _ Hdst).
  pose proof (bytes_rd _ _ _ _ (bx_bytes _ _ Hbox) Hd) as Hf.
  wp_step. wp_apply (send_spec id src len data FREE); [done .. |].
  intros r w1. rewrite decide_True by (split; [done | lia]). intros [-> Hw1].
  wp_step. wp_apply (recv_spec id dst len' (take (Z.to_nat len') data) FREE).
  - rewrite Hw1. by apply box_ok_wr.
  - rewrite Hw1. by apply buf_ok_wr.
  - rewrite Hw1, Z.min_l by lia. apply rd_wr_prefix. lia.
  - rewrite Hw1, m32_wr_ne; [done | lia].
  - intros r' w2. rewrite decide_True by done. intros [-> Hw2]. apply wp_ret.
    split; [done |]. rewrite Hw2. pose proof (bf_apart _ _ _ _ Hdst) as Hap.
    assert (Z.to_nat len' = length (take (Z.to_nat len') data)) as El
      by (rewrite length_take; lia).
    split.
    + pose proof (rd_wr_eq (memof w1) dst (take (Z.to_nat len') data)) as E. by rewrite <- El in E.
    + rewrite m32_wr_ne by lia. rewrite Hw1, m32_wr_ne; [done | lia].
Qed.
End Calls.

(** ** With an inter-processor interrupt *)
Section Ipi.
Context {G D H A : Type} `{MD : Machine D} `{HM : !Has G mem} `{HG : !Has G (gic H A)}.
Context `{LY : MsgLayout} `{XF : Xfer}.
Implicit Types (w : world G D).
Abbreviation send_ipi := (bm_send_msg_with_ipi (H := H) (A := A)).

Lemma ipi_trigger_eq cpu : 0 <= cpu < 4 ->
  g_ipi_trigger !! Z.to_nat (Z.land cpu 3) = Some (SHARE_MSG_BASE_ADDR + 4 * cpu).
Proof.
  intros Hc. assert (cpu = 0 \/ cpu = 1 \/ cpu = 2 \/ cpu = 3) as [-> | [-> | [-> | ->]]] by lia;
    simpl; f_equal; lia.
Qed.

Lemma wp_ipi_trigger cpu (Q : Z -> world G D -> Prop) w : 0 <= cpu < 4 ->
  Q (SHARE_MSG_BASE_ADDR + 4 * cpu) w -> wp (ipi_trigger cpu) Q w.
Proof. intros Hc HQ. apply wp_some_or. eexists. split; [by apply ipi_trigger_eq | done]. Qed.

(** What sending with an interrupt leaves in memory. *)
Lemma send_ipi_spec cpu id buf len data w :
  box_ok (memof w) id -> buf_ok (memof w) id buf len ->
  rd (memof w) buf (Z.to_nat len) = Some data -> m32 (memof w) (msg_base id) = Some FREE ->
  mapped (memof w) SHARE_MSG_BASE_ADDR 16 -> len <= 256 -> 0 <= cpu ->
  wp (send_ipi cpu id buf len)
    (fun r w' =>
       let m := wr (memof w) (msg_base id + 4) data in
       if decide (cpu < 4)
       then r = BM_OK /\ memof w' = wr m (SHARE_MSG_BASE_ADDR + 4 * cpu) (le_bytes 4 id)
       else r = BM_FAIL /\ memof w' = m) w.
Proof.
  intros Hbox Hbuf Hd Hh Hm Hlen Hc. unfold bm_send_msg_with_ipi.
  wp_step. wp_apply (send_spec id buf len data FREE); [done .. |].
  intros r w1. rewrite decide_True by done. intros [-> Hw1]. cbn [BM_OK Z.eqb negb].
  unfold BM_MAX_CORE_NUM. destruct (Z.leb_spec 4 cpu).
  - apply wp_ret. rewrite decide_False by lia. done.
  - wp_step. unfold set_trigger. wp_step. apply wp_ipi_trigger; [lia |].
    apply wp_stn.
    { rewrite Hw1. apply mapped_wr, (mapped_sub _ _ _ _ _ Hm); simpl; lia. }
    wp_step. wp_apply emits_hwi_trigger; [done |]. intros r w2 [Hg _]. apply wp_ret.
    rewrite decide_True by lia. split; [done |]. by rewrite Hg, memof_setm, Hw1.
Qed.

Lemma recv_ipi_spec id dst len data w :
  box_ok (memof w) id -> buf_ok (memof w) id dst len -> m32 (memof w) (msg_base id) = Some FREE ->
  rd (memof w) (msg_base id + 4) (Z.to_nat (Z.min len 256)) = Some data ->
  (forall d v d', m_sys (Mrs MPIDR_EL1) d = (v, d') ->
     0 <= bm_core_mpid_cpuid (u64 v) < 4 /\
     m32 (memof w) (SHARE_MSG_BASE_ADDR + 4 * bm_core_mpid_cpuid (u64 v)) = Some id) ->
  wp (bm_recv_msg_with_ipi true dst len)
    (fun r w' => r = (BM_OK, Some id) /\ memof w' = wr (memof w) dst data) w.
Proof.
  intros Hbox Hbuf Hh Hd Hcpu. unfold bm_recv_msg_with_ipi. pose proof (bf_null _ _ _ _ Hbuf).
  unfold NULL in *. replace (dst =? 0) with false by lia. cbn [negb orb].
  unfold bm_get_coreid. wp_step. wp_step. unfold wp at 1, sys.
  destruct (m_sys (Mrs MPIDR_EL1) (dev w)) as [v d] eqn:E. destruct (Hcpu _ _ _ E) as [Hc Ht].
  wp_step. wp_step. apply wp_ipi_trigger; [done |].
  wp_step. eapply wp_ld32; [exact Ht |].
  wp_step. wp_apply (recv_spec id dst len data FREE); [done .. |].
  intros r w2. rewrite decide_True by done. intros [-> Hw2]. by apply wp_ret.
Qed.

(** a message sent with an interrupt reaches the core it is for.  After
    [bm_send_msg_with_ipi cpu] returned BM_OK, in whatever state the memory is
    found unchanged by the core [cpu] (the one whose MPIDR is that number),
    [bm_recv_msg_with_ipi] there takes the box the sender named, with the
    sender's bytes.  For a core number above 3 the call returns BM_FAIL, but
    only after it has put the message into the box. *)
Theorem ipi_message_delivered cpu id src len dst len' data w :
  box_ok (memof w) id -> buf_ok (memof w) id src len -> buf_ok (memof w) id dst len' ->
  rd (memof w) src (Z.to_nat len) = Some data -> m32 (memof w) (msg_base id) = Some FREE ->
  mapped (memof w) SHARE_MSG_BASE_ADDR 16 -> len' <= len <= 256 -> 0 <= cpu ->
  wp (send_ipi cpu id src len)
    (fun r w' =>
       if decide (cpu < 4)
       then r = BM_OK /\ forall w1, memof w1 = memof w' ->
         (forall d v d', m_sys (Mrs MPIDR_EL1) d = (v, d') -> bm_core_mpid_cpuid (u64 v) = cpu) ->
         wp (bm_recv_msg_with_ipi true dst len')
           (fun r' w2 => r' = (BM_OK, Some id) /\
              rd (memof w2) dst (Z.to_nat len') = Some (take (Z.to_nat len') data)) w1
       else r = BM_FAIL /\ rd (memof w') (msg_base id + 4) (Z.to_nat len) = Some data) w.
Proof.
  intros Hbox Hsrc Hdst Hd Hh Hm Hlen Hc.
  pose proof (rd_length _ _ _ _ Hd) as Hld. pose proof (bf_len _ _ _ _ Hdst).
  pose proof (bytes_rd _ _ _ _ (bx_bytes _ _ Hbox) Hd) as Hf.
  pose proof (bx_id _ _ Hbox) as Hid.
  wp_apply (send_ipi_spec cpu id src len data); [done .. | lia | done |]. cbv zeta.
  intros r w'. case_decide as Hcpu.
  2: { intros [-> ->]. split; [done |]. rewrite <- Hld. apply rd_wr_eq. }
  intros [-> Hw']. split; [done |]. intros w1 Hw1 Hcore. rewrite Hw' in Hw1.
  assert (msg_base id >= SHARE_MSG_BASE_ADDR + 16) as Hbase
    by (unfold msg_base, MSG_MEM_BEGIN, MSG_BODY_LEN, MSG_HEAD_LEN; lia).
  wp_apply (recv_ipi_spec id dst len' (take (Z.to_nat len') data)).
  - rewrite Hw1. apply box_ok_wr; [by apply box_ok_wr | apply bytes_le_bytes].
  - rewrite Hw1. by do 2 apply buf_ok_wr.
  - rewrite Hw1, !m32_wr_ne; [done | lia | rewrite length_le_bytes; lia].
  - rewrite Hw1, rd_wr_ne, Z.min_l by (rewrite ?length_le_bytes; lia). apply rd_wr_prefix. lia.
  - intros d v d' E. rewrite (Hcore d v d' E). split; [lia |]. rewrite Hw1. unfold m32.
    pose proof (rd_wr_eq (wr (memof w) (msg_base id + 4) data)
      (SHARE_MSG_BASE_ADDR + 4 * cpu) (le_bytes 4 id)) as Er.
    rewrite length_le_bytes in Er. rewrite Er. change (Some (le_word (le_bytes 4 id)) = Some id).
    rewrite le_word_bytes, wrap_id; [done | unfold fits; lia].
  - intros r' w2 [-> Hw2]. split; [done |]. rewrite Hw2.
    pose proof (rd_wr_eq (memof w1) dst (take (Z.to_nat len') data)) as E.
    rewrite length_take in E. by rewrite Nat.min_l in E by lia.
Qed.
End Ipi.

(** ** Witnesses

    The shared area at 0x1000 with box 0 free, and behind it the transfer
    segment with a message of five bytes and room for five more. *)
Definition block : list Z :=
  replicate 16 0 ++ le_bytes 4 FREE ++ replicate 256 0 ++ [1; 2; 3; 4; 5] ++ replicate 5 0.

#[local] Instance box_layout : MsgLayout := {| SHARE_MSG_BASE_ADDR := 0x1000 |}.
#[local] Instance box_segment : Xfer :=
  {| xfer_segment_start := 0x1114; xfer_segment_end := 0x111e |}.
Definition core2 : fixed (fun _ => 0) (fun _ => 0x80000200) := Fixed.
Definition msg_world : world (mem * gic Z Z) _ := World (wr ∅ 0x1000 block, gic_init) core2 [].

Lemma block_fits : Forall (fits 8) block.
Proof. apply (bool_decide_eq_true_1 _). vm_compute. reflexivity. Qed.

Lemma block_box : box_ok (memof msg_world) 0.
Proof.
  split; [apply bytes_block, block_fits | lia | done |].
  apply mapped_block; [done |]. vm_compute. discriminate.
Qed.

Lemma block_buf a len : 0 <= len -> is_invalid_addr_len (u32 a) len = 0 ->
  0x1114 <= a -> a + len <= 0x111e -> buf_ok (memof msg_world) 0 a len.
Proof.
  intros Hl Hv H1 H2. split; [done | unfold NULL; lia | done | | right; exact H1].
  apply mapped_block; [lia |]. change (Z.of_nat (length block)) with 286. lia.
Qed.

Lemma bm_send_msg_contract_witness :
  msg_bad_args 7 0x1114 5 = true /\
  wp (bm_send_msg 7 0x1114 5) (fun r w' => r = BM_FAIL /\ w' = msg_world) msg_world /\
  wp (bm_send_msg 0 0x1114 5) (fun r w' => r = BM_OK) msg_world.
Proof.
  destruct (bm_send_msg_contract 7 0x1114 5 msg_world) as [Hbad _].
  destruct (bm_send_msg_contract 0 0x1114 5 msg_world) as [_ Hgood].
  split; [reflexivity |]. split; [apply Hbad; reflexivity |].
  eapply wp_mono; [apply (Hgood [1; 2; 3; 4; 5] FREE) |].
  - apply block_box.
  - apply block_buf; [lia | reflexivity | lia | lia].
  - vm_compute. reflexivity.
  - vm_compute. reflexivity.
  - cbv beta. intros r w' Hr. rewrite decide_True in Hr by (split; [reflexivity | lia]).
    apply Hr.
Defined.

Lemma msg_roundtrip_witness :
  wp (r ← bm_send_msg 0 0x1114 5; r' ← bm_recv_msg 0 0x1119 4; mret (r, r'))
     (fun p w' => p = (BM_OK, BM_OK) /\ rd (memof w') 0x1119 4 = Some [1; 2; 3; 4] /\
        m32 (memof w') (msg_base 0) = Some FREE) msg_world.
Proof.
  apply (msg_roundtrip 0 0x1114 5 0x1119 4 [1; 2; 3; 4; 5] msg_world).
  - apply block_box.
  - apply block_buf; [lia | reflexivity | lia | lia].
  - apply block_buf; [lia | reflexivity | lia | lia].
  - vm_compute. reflexivity.
  - vm_compute. reflexivity.
  - lia.
Defined.

Lemma ipi_message_delivered_witness :
  wp (bm_send_msg_with_ipi (H := Z) (A := Z) 2 0 0x1114 5)
    (fun r w' => r = BM_OK /\
       wp (bm_recv_msg_with_ipi true 0x1119 4)
         (fun r' w2 => r' = (BM_OK, Some 0) /\ rd (memof w2) 0x1119 4 = Some [1; 2; 3; 4]) w')
    msg_world.
Proof.
  eapply wp_mono.
  - apply (ipi_message_delivered (H := Z) (A := Z) 2 0 0x1114 5 0x1119 4 [1; 2; 3; 4; 5] msg_world).
    + apply block_box.
    + apply block_buf; [lia | reflexivity | lia | lia].
    + apply block_buf; [lia | reflexivity | lia | lia].
    + vm_compute. reflexivity.
    + vm_compute. reflexivity.
    + apply mapped_block; [done |]. vm_compute. discriminate.
    + lia.
    + lia.
  - cbv beta. intros r w' Hr. rewrite decide_True in Hr by lia. destruct Hr as [-> Hr].
    split; [reflexivity |]. apply Hr; [reflexivity |]. intros d v d' E.
    assert (v = 0x80000200) as -> by (simpl in E; congruence). reflexivity.
Defined.

(** Two cores on one box: core 0 sends one byte, then core 1 receives it. *)
Section TwoCores.
Import Cores.

Definition b0 : list Z := replicate 256 0.
Definition b1 : list Z := <[0%nat := 9]> b0.
Definition sender (p : pc) : core := Core (Sending [9]) p.
Definition receiver (buf : list Z) (p : pc) : core := Core (Receiving 1 buf) p.

Lemma box_0 : reachable (Box FREE b0 [sender AtCas; receiver [] AtCas] [b0]).
Proof.
  apply reach_init. split_and!; try done.
  repeat constructor; simpl; lia.
Qed.

Lemma reach_to s t t' : reachable s -> step s t -> t = t' -> reachable t'.
Proof. intros Hs Ht <-. by eapply reach_step. Qed.

Lemma box_1 : reachable (Box USING b0 [sender (AtCopy 0); receiver [] AtCas] [b0]).
Proof. eapply reach_to; [apply box_0 | by eapply (step_take _ 0) | reflexivity]. Qed.

Lemma box_2 : reachable (Box FREE b1 [sender Returned; receiver [] AtCas] [b1; b0]).
Proof.
  eapply (reach_to (Box USING b1 [sender AtRelease; receiver [] AtCas] [b0]));
    [| by eapply (step_release _ 0) | reflexivity].
  eapply (reach_to (Box USING b1 [sender (AtCopy 1); receiver [] AtCas] [b0]));
    [| by eapply (step_copied _ 0) | reflexivity].
  eapply reach_to; [apply box_1 | eapply (step_copy _ 0); [reflexivity | simpl; lia] | reflexivity].
Qed.

Lemma box_3 : reachable (Box FREE b1 [sender Returned; receiver [9] Returned] [b1; b0]).
Proof.
  eapply (reach_to (Box USING b1 [sender Returned; receiver [9] AtRelease] [b1; b0]));
    [| by eapply (step_release _ 1) | reflexivity].
  eapply (reach_to (Box USING b1 [sender Returned; receiver [9] (AtCopy 1)] [b1; b0]));
    [| by eapply (step_copied _ 1) | reflexivity].
  eapply (reach_to (Box USING b1 [sender Returned; receiver [] (AtCopy 0)] [b1; b0]));
    [| eapply (step_copy _ 1); [reflexivity | simpl; lia] | reflexivity].
  eapply reach_to; [apply box_2 | by eapply (step_take _ 1) | reflexivity].
Qed.

Lemma msg_box_mutual_exclusion_witness :
  holds (sender (AtCopy 0)) = true /\
  ((0 = 0)%nat /\ head (Box USING b0 [sender (AtCopy 0); receiver [] AtCas] [b0]) = USING).
Proof.
  split; [reflexivity |].
  apply (msg_box_mutual_exclusion _ 0 0 (sender (AtCopy 0)) (sender (AtCopy 0)) box_1);
    reflexivity.
Defined.

Lemma msg_box_untorn_witness :
  whole_messages [b1; b0] /\ exists m, m ∈ [b1; b0] /\ [9] = take 1 m.
Proof.
  apply (msg_box_untorn _ 1 (Receiving 1 [9]) box_3). reflexivity.
Defined.
End TwoCores.
