(* ===== verification/Mmu.v ===== *)
(** * Mmu: page tables and cache switches (drivers/mmu/mmu.c)

    The translation tables are built in byte memory; the words through which
    the first core hands them to the others of [bm_memmap.h] are read and
    written with volatile accesses and belong to the device.  The memory map
    header that is built in is the class [MmuMap]. *)
From S2P Require Import Prelude Hw Common Mem.
From stdpp Require Import prelude gmap list strings.
From Stdlib Require Import ZArith Lia.
Local Open Scope Z_scope.

Definition CR_M : Z := 1.
Definition CR_C : Z := 4.
Definition CR_I : Z := 0x1000.
Definition MEMORY_ATTRIBUTES : Z := 0xff440c0400.

Definition PTE_TYPE_MASK : Z := 3.
Definition PTE_TYPE_FAULT : Z := 0.
Definition PTE_TYPE_TABLE : Z := 3.
Definition PTE_TYPE_PAGE : Z := 3.
Definition PTE_TYPE_BLOCK : Z := 1.
Definition PTE_TABLE_ADDR_MARK_4K : Z := 0x0000fffffffff000.
Definition PTE_TABLE_ADDR_MARK_64K : Z := 0x0000ffffffff0000.
Definition MMU_GRANULE_4K : Z := 0.
Definition MMU_GRANULE_64K : Z := 1.

(** Attributes of a block. *)
Definition PTE_BLOCK_MEMTYPE (x : Z) : Z := Z.shiftl x 2.
Definition PTE_BLOCK_AF : Z := 2 ^ 10.
Definition PTE_BLOCK_UXN : Z := 2 ^ 54.
Definition PTE_BLOCK_PXN : Z := 2 ^ 53.
Definition MMU_ATTR_DEVICE_NGNRNE : Z := PTE_BLOCK_MEMTYPE 0.
Definition MMU_ATTR_UNCACHE_UNSHARE : Z := PTE_BLOCK_MEMTYPE 3.
Definition MMU_ATTR_CACHE_SHARE : Z := Z.lor (PTE_BLOCK_MEMTYPE 4) (Z.shiftl 3 8).
Definition MMU_ACCESS_RWX : Z := PTE_BLOCK_AF.
Definition MMU_ACCESS_RW : Z := Z.lor (Z.lor PTE_BLOCK_AF PTE_BLOCK_UXN) PTE_BLOCK_PXN.

Definition TCR_EL1_RSVD : Z := 2 ^ 31.
Definition TCR_IPS (x : Z) : Z := Z.shiftl x 32.
Definition TCR_T0SZ (x : Z) : Z := 64 - x.
Definition TCR_TG0_64K : Z := Z.shiftl 1 14.
Definition TCR_SHARED_INNER : Z := Z.shiftl 3 12.
Definition TCR_ORGN_WBWA : Z := Z.shiftl 1 10.
Definition TCR_IRGN_WBWA : Z := Z.shiftl 1 8.

Record mmu_map_region_s := Region { virt : Z; phys : Z; size : Z; max_level : Z; attrs : Z }.

(** The memory map header. *)
Class MmuMap := {
  MMU_DRIVER_ADDR : Z; MMU_GIC_ADDR : Z; MMU_LOCALBUS_MEM_ADDR : Z; MMU_LOCALBUS_MEM_SIZE : Z;
  MMU_DDR_ADDR : Z; MMU_DDR_SIZE : Z; MMU_OPENAMP_ADDR : Z; MMU_OPENAMP_ADDR_SIZE : Z;
  MMU_PAGE_BEGIN : Z; MMU_PAGE_END : Z;
  CPU_RELEASE_MMU_PAGE : Z; CPU_RELEASE_MMU_TCR : Z; CPU_RELEASE_BOOT_SYNC : Z;
  BOOT_SYNC_READY : Z;
}.

Definition g_mem_map_info `{MmuMap} : list mmu_map_region_s :=
  let device := Z.lor MMU_ATTR_DEVICE_NGNRNE MMU_ACCESS_RWX in
  [Region MMU_GIC_ADDR MMU_GIC_ADDR 0x1000000 2 device;
   Region MMU_DRIVER_ADDR MMU_DRIVER_ADDR 0x17ffff 2 device;
   Region 0x0c000000 0x0c000000 0x00ffffff 2 device;
   Region MMU_LOCALBUS_MEM_ADDR MMU_LOCALBUS_MEM_ADDR MMU_LOCALBUS_MEM_SIZE 2 device;
   Region MMU_DDR_ADDR MMU_DDR_ADDR MMU_DDR_SIZE 2 (Z.lor MMU_ATTR_CACHE_SHARE MMU_ACCESS_RWX);
   Region MMU_OPENAMP_ADDR MMU_OPENAMP_ADDR MMU_OPENAMP_ADDR_SIZE 2
     (Z.lor MMU_ATTR_UNCACHE_UNSHARE MMU_ACCESS_RW)].

Record mmu_ctrl_s := MmuCtrl {
  tlb_addr : Z; tlb_size : Z; tlb_fillptr : Z; granule : Z; start_level : Z; va_bits : Z;
}.
(** [g_mmu_ctrl] and [g_tcr]. *)
Record mmu := Mmu { g_mmu_ctrl : mmu_ctrl_s; g_tcr : Z }.
Definition mmu_init_state : mmu := Mmu (MmuCtrl 0 0 0 0 0 0) 0.

Definition set_ctrl (c : mmu_ctrl_s) (s : mmu) : mmu := Mmu c (g_tcr s).
Definition set_fillptr (p : Z) (s : mmu) : mmu :=
  let c := g_mmu_ctrl s in
  set_ctrl (MmuCtrl (tlb_addr c) (tlb_size c) p (granule c) (start_level c) (va_bits c)) s.
Definition set_start_level (l : Z) (s : mmu) : mmu :=
  let c := g_mmu_ctrl s in
  set_ctrl (MmuCtrl (tlb_addr c) (tlb_size c) (tlb_fillptr c) (granule c) l (va_bits c)) s.
Definition set_tcr (tcr bits : Z) (s : mmu) : mmu :=
  let c := g_mmu_ctrl s in
  Mmu (MmuCtrl (tlb_addr c) (tlb_size c) (tlb_fillptr c) (granule c) (start_level c) bits) tcr.

(** ** The translation control register *)

(** The largest address of the map; a region that wraps is ignored. *)
Definition mmu_max_addr (regions : list mmu_map_region_s) : Z :=
  fold_left (fun max_addr r =>
    if virt r <=? (2 ^ 64 - 1) - size r then Z.max max_addr (virt r + size r) else max_addr) regions 0.

(** The physical size code and the number of virtual bits for it. *)
Definition mmu_addr_size (max_addr : Z) : Z * Z :=
  if 2 ^ 44 <? max_addr then (5, 48)
  else if 2 ^ 42 <? max_addr then (4, 44)
  else if 2 ^ 40 <? max_addr then (3, 42)
  else if 2 ^ 36 <? max_addr then (2, 40)
  else if 2 ^ 32 <? max_addr then (1, 36)
  else (0, 32).

(** [bm_mmu_get_tcr]: the register value and [*pva_bits]. *)
Definition bm_mmu_get_tcr `{MmuMap} (gran : Z) : Z * Z :=
  let '(ips, bits) := mmu_addr_size (mmu_max_addr g_mem_map_info) in
  let tcr := Z.lor TCR_EL1_RSVD (TCR_IPS ips) in
  let walk := Z.lor TCR_SHARED_INNER (Z.lor TCR_ORGN_WBWA TCR_IRGN_WBWA) in
  let tcr := if gran =? MMU_GRANULE_4K then Z.lor tcr walk
             else Z.lor tcr (Z.lor TCR_TG0_64K walk) in
  (Z.lor tcr (TCR_T0SZ bits), bits).

Section Mmu.
Context {G D : Type} `{MD : Machine D} `{HM : !Has G mem} `{HS : !Has G mmu} `{MM : MmuMap}.
Abbreviation M := (M G D).

Definition get_ctrl : M mmu_ctrl_s := s ← gets; mret (g_mmu_ctrl (s : mmu)).

(** ** Tables *)
Definition bm_mmu_get_pte_type (pte : Z) : M Z := v ← ld64 pte; mret (u32 (Z.land v PTE_TYPE_MASK)).

Definition level2shift (gran level : Z) : Z :=
  if gran =? MMU_GRANULE_4K then u32 (12 + 9 * (3 - level)) else u32 (16 + 13 * (3 - level)).
Definition bm_mmu_level2shift (level : Z) : M Z :=
  c ← get_ctrl; mret (level2shift (granule c) level).

(** The loop of [bm_mmu_find_pte] from level [i] on, [n] levels left. *)
Fixpoint find_pte_from (n : nat) (i pte addr level : Z) : M Z :=
  match n with
  | O => mret NULL
  | S n' =>
      c ← get_ctrl;
      shift ← bm_mmu_level2shift i;
      let idx := Z.land (Z.shiftr addr shift)
                   (if granule c =? MMU_GRANULE_4K then 0x1ff else 0x1fff) in
      let pte := pte + 8 * idx in
      if i =? level then mret pte
      else
        type ← bm_mmu_get_pte_type pte;
        if negb (type =? PTE_TYPE_TABLE) then mret NULL
        else
          v ← ld64 pte;
          find_pte_from n' (i + 1)
            (Z.land v (if granule c =? MMU_GRANULE_4K then PTE_TABLE_ADDR_MARK_4K
                       else PTE_TABLE_ADDR_MARK_64K)) addr level
  end.

Definition bm_mmu_find_pte (addr level : Z) : M Z :=
  c ← get_ctrl;
  if level <? start_level c then mret NULL
  else find_pte_from (Z.to_nat (4 - start_level c)) (start_level c) (tlb_addr c) addr level.

Definition bm_mmu_create_table : M Z :=
  c ← get_ctrl;
  let new_table := tlb_fillptr c in
  let pt_len := if granule c =? MMU_GRANULE_4K then 512 * 8 else 8192 * 8 in
  modg (set_fillptr (u64 (tlb_fillptr c + pt_len))) ;;
  c ← get_ctrl;
  if tlb_size c <? u64 (tlb_fillptr c - tlb_addr c) then mret NULL
  else fill (Z.to_nat pt_len) new_table 0 ;; mret new_table.

Definition bm_mmu_set_pte_table (pte table : Z) : M unit := st64 pte (Z.lor PTE_TYPE_TABLE table).

Definition bm_mmu_add_map_pte_process (map : mmu_map_region_s) (pte phys level : Z) : M Z :=
  if level <? max_level map then
    type ← bm_mmu_get_pte_type pte;
    if type =? PTE_TYPE_FAULT then
      new_table ← bm_mmu_create_table;
      if new_table =? NULL then mret BM_FAIL
      else bm_mmu_set_pte_table pte new_table ;; mret BM_OK
    else mret BM_OK
  else if level =? 3 then st64 pte (Z.lor (Z.lor phys (attrs map)) PTE_TYPE_PAGE) ;; mret BM_OK
  else st64 pte (Z.lor (Z.lor phys (attrs map)) PTE_TYPE_BLOCK) ;; mret BM_OK.

(** The levels of one address: the result and the block size. *)
Fixpoint add_map_levels (n : nat) (map : mmu_map_region_s) (level v p blocksize : Z) : M (Z * Z) :=
  match n with
  | O => mret (BM_OK, blocksize)
  | S n' =>
      pte ← bm_mmu_find_pte v level;
      if pte =? NULL then mret (BM_FAIL, blocksize)
      else
        ret ← bm_mmu_add_map_pte_process map pte p level;
        if ctrue ret then mret (ret, blocksize)
        else
          c ← get_ctrl;
          shift ← bm_mmu_level2shift level;
          add_map_levels n' map (level + 1) v p
            (if level =? start_level c then blocksize else u64 (Z.shiftl 1 shift))
  end.

(** One round of the loop over the region; the loop state is the address
    pair, the size done and the block size. *)
Definition add_map_round (map : mmu_map_region_s) (start : Z) (s : Z * Z * Z * Z)
  : M ((Z * Z * Z * Z) + Z) :=
  let '(v, p, map_size, blocksize) := s in
  if map_size <? size map then
    r ← add_map_levels (Z.to_nat (max_level map - start + 1)) map start v p blocksize;
    let '(ret, blocksize) := r in
    if ctrue ret then mret (inr ret)
    else mret (inl (u64 (v + blocksize), u64 (p + blocksize), u64 (map_size + blocksize), blocksize))
  else mret (inr BM_OK).

Definition bm_mmu_add_map (fuel : nat) (map : mmu_map_region_s) : M Z :=
  c ← get_ctrl;
  if max_level map <=? start_level c then mret BM_FAIL
  else loop fuel (add_map_round map (start_level c)) (virt map, phys map, 0, 0).

Fixpoint mmu_add_maps (fuel : nat) (mem_map : list mmu_map_region_s) : M Z :=
  match mem_map with
  | [] => mret BM_OK
  | r :: rest =>
      ret ← bm_mmu_add_map fuel r;
      if ctrue ret then mret ret else mmu_add_maps fuel rest
  end.

Definition bm_mmu_setup_pgtables (fuel : nat) (mem_map : list mmu_map_region_s)
    (tlb_addr tlb_len gran : Z) : M Z :=
  modg (set_ctrl (MmuCtrl tlb_addr tlb_len tlb_addr gran 0 0)) ;;
  (let '(tcr, bits) := bm_mmu_get_tcr gran in
   modg (set_tcr tcr bits) ;;
   writel tcr CPU_RELEASE_MMU_TCR) ;;
  c ← get_ctrl;
  ok ← (if granule c =? MMU_GRANULE_4K then
          modg (set_start_level (if va_bits c <? 39 then 1 else 0)) ;; mret true
        else if va_bits c <=? 36 then modg (set_start_level 2) ;; mret true
        else modg (set_start_level 1) ;; mret false);
  if negb ok then mret BM_FAIL
  else
    new_table ← bm_mmu_create_table;
    if new_table =? NULL then mret BM_FAIL
    else mmu_add_maps fuel mem_map.

Definition bm_mmu_setup (fuel : nat) : M Z :=
  let page_addr := MMU_PAGE_BEGIN in
  let page_len := MMU_PAGE_END - MMU_PAGE_BEGIN in
  writel page_addr CPU_RELEASE_MMU_PAGE ;;
  bm_mmu_setup_pgtables fuel g_mem_map_info page_addr page_len MMU_GRANULE_4K.

Definition bm_mmu_init (fuel : nat) : M Z := bm_mmu_setup fuel.

(** ** Switching the MMU and the caches *)
Definition bm_get_sctlr : M Z := sys (Mrs SCTLR_EL1).
Definition bm_set_sctlr (val : Z) : M unit :=
  sys_ Dsb ;; sys_ (Msr SCTLR_EL1 val) ;; sys_ Dsb ;; sys_ Isb.

Definition bm_mmu_set_ttbr_tcr_mair (table tcr attr : Z) : M unit :=
  sys_ Dsb ;;
  sys_ (Msr TTBR0_EL1 table) ;; sys_ (Msr TTBR1_EL1 table) ;;
  sys_ (Msr TCR_EL1 tcr) ;; sys_ (Msr MAIR_EL1 attr) ;;
  sys_ Isb.

(** [&&] reads the boot word only when the MMU is off. *)
Definition bm_enable_caches (fuel : nat) : M Z :=
  sctlr ← bm_get_sctlr;
  first ← (if Z.land sctlr CR_M =? 0
           then sync ← readl CPU_RELEASE_BOOT_SYNC; mret (negb (sync =? BOOT_SYNC_READY))
           else mret false);
  ret ← (if first : bool then bm_mmu_init fuel else mret BM_OK);
  if ctrue ret then mret ret
  else
    table ← readl CPU_RELEASE_MMU_PAGE;
    tcr ← readl CPU_RELEASE_MMU_TCR;
    bm_mmu_set_ttbr_tcr_mair table tcr MEMORY_ATTRIBUTES ;;
    sys_ DcacheInvAll ;; sys_ IcacheInvAll ;; sys_ TlbInvAll ;;
    sctlr ← bm_get_sctlr;
    bm_set_sctlr (Z.lor sctlr (Z.lor CR_C (Z.lor CR_M CR_I))) ;;
    mret BM_OK.

Definition mmu_switch_off (bits : Z) : M Z :=
  sctlr ← bm_get_sctlr;
  if Z.land sctlr CR_M =? 0 then mret BM_FAIL
  else
    bm_set_sctlr (Z.land sctlr (bnot 64 bits)) ;;
    sys_ DcacheFlushAll ;; sys_ IcacheInvAll ;; sys_ TlbInvAll ;;
    mret BM_OK.

Definition bm_disable_caches : M Z := mmu_switch_off (Z.lor CR_C CR_I).
Definition bm_disable_mmu : M Z := mmu_switch_off (Z.lor CR_C (Z.lor CR_I CR_M)).
End Mmu.
