(* ===== verification/MmuProps.v ===== *)
(** * MmuProps: the tables that mmu.c builds are the map it was given

    [translate] is the two-level walk that the processor makes over the
    tables with a 4 KiB granule, started at level 1; [map_translate] is what
    the list of regions says.  A table area is described by the list [T] of
    the level 1 indices whose level 2 table has been made, in that order, and
    by the content [A] of the level 2 entries. *)
From stdpp Require Import prelude gmap list strings.
From Stdlib Require Import ZArith Lia Btauto.
From S2P Require Import Prelude Hw Common Mem Mmu.
Local Open Scope Z_scope.

(** ** The architecture's walk *)
Definition word (m : mem) (a : Z) : option Z := le_word <$> rd m a 8.

Definition leaf (m : mem) (base va : Z) : option Z :=
  d ← word m (base + 8 * bf_get 30 9 va);
  if Z.land d 3 =? 3 then word m (Z.land d 0xfffffffff000 + 8 * bf_get 21 9 va)
  else if Z.land d 3 =? 0 then Some 0 else None.

(** The physical address and the attributes of a mapped address. *)
Definition translate (m : mem) (base va : Z) : option (Z * Z) :=
  d ← leaf m base va;
  if Z.land d 3 =? 1
  then Some (Z.land d 0xffffffe00000 + va mod 2 ^ 21, Z.ldiff d 0xffffffe00000)
  else None.

(** ** What the regions say *)
Definition blocks (r : mmu_map_region_s) : Z := (size r + (2 ^ 21 - 1)) / 2 ^ 21.
Definition covers (r : mmu_map_region_s) (va : Z) : bool :=
  (virt r <=? va) && (va <? virt r + 2 ^ 21 * blocks r).

Definition map_translate (regions : list mmu_map_region_s) (va : Z) : option (Z * Z) :=
  fold_left (fun acc r =>
    if covers r va then Some (phys r + (va - virt r), Z.lor (attrs r) 1) else acc) regions None.

(** A region this configuration can map with blocks, below [n] GiB. *)
Record block_region (n : Z) (r : mmu_map_region_s) : Prop := {
  br_virt : virt r mod 2 ^ 21 = 0;
  br_phys : phys r mod 2 ^ 21 = 0;
  br_low : 0 <= virt r /\ 0 <= phys r /\ 0 <= size r;
  br_end : virt r + 2 ^ 21 * blocks r <= 2 ^ 30 * n;
  br_pend : phys r + 2 ^ 21 * blocks r <= 2 ^ 48;
  br_level : max_level r = 2;
  br_attrs : fits 64 (attrs r) /\ Z.land (attrs r) (Z.lor 0xffffffe00000 3) = 0;
}.

(** The descriptor of block [b] of the address space in region [r]. *)
Definition block_desc (r : mmu_map_region_s) (b : Z) : Z :=
  Z.lor (Z.lor (phys r + (2 ^ 21 * b - virt r)) (attrs r)) PTE_TYPE_BLOCK.

(** The level 2 entries after the first [k] blocks of [r]. *)
Definition with_blocks (r : mmu_map_region_s) (k : Z) (A : Z -> Z) (b : Z) : Z :=
  if (virt r / 2 ^ 21 <=? b) && (b <? virt r / 2 ^ 21 + k) then block_desc r b else A b.

Definition entries (regions : list mmu_map_region_s) : Z -> Z :=
  fold_left (fun A r => with_blocks r (blocks r) A) regions (fun _ => 0).

(** ** Words *)
Lemma word_wr_eq m a v : word (wr m a (le_bytes 8 v)) a = Some (u64 v).
Proof.
  unfold word. change 8%nat with (length (le_bytes 8 v)) at 2. rewrite rd_wr_eq.
  change (Some (le_word (le_bytes 8 v)) = Some (u64 v)). by rewrite le_word_bytes.
Qed.

Lemma word_wr_ne m a bs a' : a + Z.of_nat (length bs) <= a' \/ a' + 8 <= a ->
  word (wr m a bs) a' = word m a'.
Proof. intros H. unfold word. by rewrite rd_wr_ne by (simpl; lia). Qed.

Lemma word_zero m a n a' : a <= a' -> a' + 8 <= a + Z.of_nat n ->
  word (wr m a (replicate n 0)) a' = Some 0.
Proof.
  intros H1 H2. unfold word.
  enough (rd (wr m a (replicate n 0)) a' 8 = Some (replicate 8 0)) as -> by done.
  assert (forall k b, a <= b -> b + Z.of_nat k <= a + Z.of_nat n ->
    rd (wr m a (replicate n 0)) b k = Some (replicate k 0)) as Hr; [| by apply Hr].
  induction k as [| k IH]; intros b Hb1 Hb2; [done |]. cbn [rd replicate].
  rewrite lookup_wr, length_replicate, decide_True by lia.
  rewrite lookup_replicate_2 by lia. simpl. by rewrite IH by lia.
Qed.

(** ** Descriptors *)
Ltac bits_loop :=
  repeat (progress (autorewrite with bits; cbn [andb orb negb]); bit_cases; try lia).

Lemma table_desc t : t mod 2 ^ 12 = 0 -> 0 <= t < 2 ^ 48 ->
  Z.land (Z.lor PTE_TYPE_TABLE t) 3 = 3 /\
  Z.land (Z.lor PTE_TYPE_TABLE t) PTE_TABLE_ADDR_MARK_4K = t.
Proof.
  intros Hal Ht. assert (forall i, i < 12 -> Z.testbit t i = false) as Hlow.
  { intros i Hi. destruct (Z.ltb_spec i 0); [by apply Z.testbit_neg_r |].
    rewrite <- (Z.mod_pow2_bits_low t 12) by lia. by rewrite Hal, Z.testbit_0_l. }
  unfold PTE_TYPE_TABLE, PTE_TABLE_ADDR_MARK_4K.
  change 3 with (Z.ones 2). change 0x0000fffffffff000 with (Z.shiftl (Z.ones 36) 12).
  assert (forall i, 48 <= i -> Z.testbit t i = false) as Hhigh
    by (intros i Hi; by apply (fits_testbit 48); [| lia |]).
  split; apply Z.bits_inj'; intros i Hi;
    bits_loop;
    rewrite ?(Hlow i), ?(Hhigh i) by lia; btauto.
Qed.

Lemma block_desc_parts n r b : block_region n r -> virt r <= 2 ^ 21 * b ->
  2 ^ 21 * b < virt r + 2 ^ 21 * blocks r ->
  fits 64 (block_desc r b) /\ Z.land (block_desc r b) 3 = 1 /\
  Z.land (block_desc r b) 0xffffffe00000 = phys r + (2 ^ 21 * b - virt r) /\
  Z.ldiff (block_desc r b) 0xffffffe00000 = Z.lor (attrs r) 1.
Proof.
  intros [Hv Hp Hl He Hpe _ [Ha Hd]] Hb1 Hb2. unfold block_desc, PTE_TYPE_BLOCK.
  set (p := phys r + (2 ^ 21 * b - virt r)).
  assert (p mod 2 ^ 21 = 0) as Hal.
  { subst p. rewrite Zplus_mod, Hp, Zminus_mod, Hv.
    by rewrite Z.mul_comm, Z_mod_mult. }
  assert (fits 48 p) as Hpf by (unfold fits; subst p; lia).
  assert (forall i, i < 21 -> Z.testbit p i = false) as Hlow.
  { intros i Hi. destruct (Z.ltb_spec i 0); [by apply Z.testbit_neg_r |].
    rewrite <- (Z.mod_pow2_bits_low p 21) by lia. by rewrite Hal, Z.testbit_0_l. }
  assert (forall i, 0 <= i -> i < 2 \/ (21 <= i < 48) -> Z.testbit (attrs r) i = false) as Hat.
  { intros i Hi Hor. assert (Z.testbit (Z.land (attrs r) (Z.lor 0xffffffe00000 3)) i = false) as Hb
      by (by rewrite Hd, Z.testbit_0_l).
    revert Hb. change 0xffffffe00000 with (Z.shiftl (Z.ones 27) 21). change 3 with (Z.ones 2).
    bits_loop;
      destruct (Z.testbit (attrs r) i); done. }
  change 0xffffffe00000 with (Z.shiftl (Z.ones 27) 21).
  assert (forall i, 48 <= i -> Z.testbit p i = false) as Hhigh
    by (intros i Hi; by apply (fits_testbit 48); [| lia |]).
  split; [repeat apply lor_fits; try done; by apply (fits_mono 48); [lia |] |].
  change 1 with (Z.ones 1). change 3 with (Z.ones 2).
  split_and!; apply Z.bits_inj'; intros i Hi;
    bits_loop;
    rewrite ?(Hlow i), ?(Hat i), ?(Hhigh i) by lia; btauto.
Qed.

(** ** The state of the table area *)
Section Tables.
Context {G D : Type} `{MD : Machine D} `{HM : !Has G mem} `{HS : !Has G mmu}
  `{IN : !Indep G mmu mem} `{MM : MmuMap}.
Context (base len n : Z) (m0 : mem) (bits : Z).
Context (Hbase : 0 < base) (Hpage : base mod 2 ^ 12 = 0) (Hend : base + len <= 2 ^ 48)
  (Hn : 0 <= n <= 512) (Hroom : 2 ^ 12 * (1 + n) <= len).
Implicit Types (w : world G D) (T : list Z) (A : Z -> Z) (k : nat).

Abbreviation mmuof w := (hget (S := mmu) (glob w)).

Definition table k : Z := base + 2 ^ 12 * (1 + Z.of_nat k).

Record repr T A (m : mem) : Prop := {
  re_top k i : T !! k = Some i -> word m (base + 8 * i) = Some (Z.lor PTE_TYPE_TABLE (table k));
  re_free i : 0 <= i < 512 -> i ∉ T -> word m (base + 8 * i) = Some 0;
  re_leaf k i j : T !! k = Some i -> 0 <= j < 512 -> word m (table k + 8 * j) = Some (A (512 * i + j));
  re_none i j : 0 <= i < 512 -> i ∉ T -> 0 <= j < 512 -> A (512 * i + j) = 0;
  re_nodup : NoDup T;
  re_index k i : T !! k = Some i -> 0 <= i < n;
  re_mapped : mapped m base len;
  re_out a : a < base \/ base + len <= a -> m !! a = m0 !! a;
}.

Record state T A w : Prop := {
  st_ctrl : g_mmu_ctrl (mmuof w) = MmuCtrl base len (table (length T)) MMU_GRANULE_4K 1 bits;
  st_repr : repr T A (memof w);
}.

(** At most [n] tables are ever made. *)
Lemma repr_length T A m : repr T A m -> Z.of_nat (length T) <= n.
Proof.
  intros R. enough (length T <= length (seqZ 0 n))%nat by (rewrite length_seqZ in *; lia).
  apply submseteq_length, NoDup_submseteq; [apply R |].
  intros i (k & Hk)%list_elem_of_lookup. apply elem_of_seqZ. apply (re_index _ _ _ R) in Hk. lia.
Qed.

Lemma repr_room T A m i : repr T A m -> 0 <= i < n -> i ∉ T -> Z.of_nat (length T) < n.
Proof.
  intros R Hi Hni. enough (length (i :: T) <= length (seqZ 0 n))%nat
    by (rewrite length_seqZ in *; simpl in *; lia).
  apply submseteq_length, NoDup_submseteq; [by apply NoDup_cons; split; [| apply R] |].
  intros j [-> | (k & Hk)%list_elem_of_lookup]%elem_of_cons; apply elem_of_seqZ; [lia |].
  apply (re_index _ _ _ R) in Hk. lia.
Qed.

Lemma repr_lookup_lt T A m k i : repr T A m -> T !! k = Some i -> Z.of_nat k < n.
Proof. intros R Hk. apply lookup_lt_Some in Hk. pose proof (repr_length _ _ _ R). lia. Qed.

(** The lookup of an index is unique. *)
Lemma repr_inj T A m k k' i : repr T A m -> T !! k = Some i -> T !! k' = Some i -> k = k'.
Proof. intros R. apply NoDup_lookup, R. Qed.

(** The word that links a table reads back as the table's address. *)
Lemma table_link k : Z.of_nat k < n ->
  Z.land (Z.lor PTE_TYPE_TABLE (table k)) 3 = 3 /\
  Z.land (Z.lor PTE_TYPE_TABLE (table k)) PTE_TABLE_ADDR_MARK_4K = table k /\
  fits 64 (Z.lor PTE_TYPE_TABLE (table k)).
Proof.
  intros Hk. assert (0 <= table k < 2 ^ 48) as Hr by (unfold table; lia).
  destruct (table_desc (table k)) as [H1 H2]; [| done |].
  - unfold table. rewrite Zplus_mod, Hpage, Z.mul_comm, Z_mod_mult. done.
  - split_and!; [done | done |]. apply lor_fits; [lia | done |].
    apply (fits_mono 48); [lia | done].
Qed.

(** Making a table for a new index. *)
Lemma repr_new T A m i : repr T A m -> 0 <= i < n -> i ∉ T ->
  repr (T ++ [i]) A
    (wr (wr m (table (length T)) (replicate (Z.to_nat 4096) 0)) (base + 8 * i)
        (le_bytes 8 (Z.lor PTE_TYPE_TABLE (table (length T))))).
Proof.
  intros R Hi Hni. pose proof (repr_room _ _ _ _ R Hi Hni) as Hlt.
  assert (forall k j, (T ++ [i]) !! k = Some j ->
    (k < length T)%nat /\ T !! k = Some j /\ j <> i \/ k = length T /\ j = i) as Hsplit.
  { intros k j Hk. destruct (decide (k < length T)%nat).
    - left. rewrite lookup_app_l in Hk by lia. split_and!; [lia | done |].
      intros ->. apply Hni. by eapply list_elem_of_lookup_2.
    - right. rewrite lookup_app_r in Hk by lia.
      destruct (k - length T)%nat eqn:E; simplify_eq/=. split; [lia | done]. }
  assert (length (replicate (Z.to_nat 4096) 0) = Z.to_nat 4096) as Hrl by apply length_replicate.
  split.
  - intros k j [(Hk & Hkj & Hne) | [-> ->]]%Hsplit.
    + pose proof (re_index _ _ _ R _ _ Hkj).
      rewrite word_wr_ne by (rewrite length_le_bytes; lia).
      rewrite word_wr_ne by (rewrite Hrl; unfold table; lia). by apply R.
    + rewrite word_wr_eq. f_equal. apply wrap_id. by apply table_link.
  - intros j Hj [Hnj Hne]%not_elem_of_app. rewrite list_elem_of_singleton in Hne.
    rewrite word_wr_ne by (rewrite length_le_bytes; lia).
    rewrite word_wr_ne by (rewrite Hrl; unfold table; lia). by apply R.
  - intros k j l [(Hk & Hkj & Hne) | [-> ->]]%Hsplit Hl.
    + rewrite word_wr_ne by (rewrite length_le_bytes; unfold table; lia).
      rewrite word_wr_ne by (rewrite Hrl; unfold table; lia). by apply R.
    + rewrite word_wr_ne by (rewrite length_le_bytes; unfold table; lia).
      rewrite word_zero by lia. f_equal. symmetry. apply R; [lia | done | done].
  - intros j l Hj [Hnj Hne]%not_elem_of_app Hl. by apply R.
  - apply NoDup_app. split_and!; [apply R | by intros j Hj ->%list_elem_of_singleton | apply NoDup_singleton].
  - intros k j [(Hk & Hkj & Hne) | [-> ->]]%Hsplit; [by eapply R | done].
  - apply mapped_wr, mapped_wr, R.
  - intros a Ha. rewrite !lookup_wr, length_le_bytes, Hrl.
    rewrite !decide_False by (unfold table; lia). by apply R.
Qed.

(** Storing one level 2 entry. *)
Lemma repr_set T A m k i j v : repr T A m -> T !! k = Some i -> 0 <= j < 512 -> fits 64 v ->
  repr T (fun b => if b =? 512 * i + j then v else A b)
    (wr m (table k + 8 * j) (le_bytes 8 v)).
Proof.
  intros R Hk Hj Hv. pose proof (re_index _ _ _ R _ _ Hk).
  pose proof (repr_lookup_lt _ _ _ _ _ R Hk).
  split.
  - intros k' i' Hk'. pose proof (re_index _ _ _ R _ _ Hk').
    rewrite word_wr_ne by (rewrite length_le_bytes; unfold table; lia). by apply R.
  - intros i' Hi' Hni. rewrite word_wr_ne by (rewrite length_le_bytes; unfold table; lia).
    by apply R.
  - intros k' i' j' Hk' Hj'. destruct (Z.eqb_spec (512 * i' + j') (512 * i + j)) as [E | E].
    + assert (i' = i) as -> by lia. assert (j' = j) as -> by lia.
      rewrite (repr_inj _ _ _ _ _ _ R Hk' Hk), word_wr_eq. f_equal. by apply wrap_id.
    + rewrite word_wr_ne; [by apply R |]. rewrite length_le_bytes.
      destruct (decide (k' = k)) as [-> |]; [| unfold table; lia].
      simplify_eq. assert (j' <> j) by congruence. lia.
  - intros i' j' Hi' Hni Hj'. destruct (Z.eqb_spec (512 * i' + j') (512 * i + j)) as [E | E].
    + assert (i' = i) as -> by lia. destruct Hni. by eapply list_elem_of_lookup_2.
    + by apply R.
  - apply R.
  - apply R.
  - apply mapped_wr, R.
  - intros a Ha. rewrite lookup_wr, length_le_bytes, decide_False by (unfold table; lia).
    by apply R.
Qed.
(** *** The monadic layer *)
Lemma mmuof_setm (m : mem) w : mmuof (setm m w) = mmuof w.
Proof. unfold setm. cbn [glob]. apply indep_r. Qed.

Lemma wp_word a v (Q : Z -> world G D -> Prop) w :
  word (memof w) a = Some v -> Q v w -> wp (ld64 a) Q w.
Proof.
  unfold word. intros Hw HQ. destruct (rd (memof w) a 8) as [bs |] eqn:E; simplify_eq/=.
  apply wp_ldn. eauto.
Qed.

Lemma wp_get_ctrl (Q : mmu_ctrl_s -> world G D -> Prop) w :
  Q (g_mmu_ctrl (mmuof w)) w -> wp get_ctrl Q w.
Proof. intros HQ. unfold get_ctrl. by wp_steps. Qed.

(** The index arithmetic of the walk, in terms of block numbers. *)
Lemma walk_index va : 0 <= va < 2 ^ 39 ->
  Z.land (Z.shiftr va 30) 0x1ff = va / 2 ^ 30 /\
  Z.land (Z.shiftr va 21) 0x1ff = va / 2 ^ 21 - 512 * (va / 2 ^ 30) /\
  0 <= va / 2 ^ 30 < 512 /\ 0 <= va / 2 ^ 21 - 512 * (va / 2 ^ 30) < 512.
Proof.
  intros Hva. rewrite !Z.shiftr_div_pow2 by lia.
  change 0x1ff with (Z.ones 9). rewrite !Z.land_ones by lia.
  assert ((va / 2 ^ 21) / 512 = va / 2 ^ 30) as <- by (by rewrite Z.div_div).
  Z.to_euclidean_division_equations. lia.
Qed.

Lemma find_pte_1 T A w va (Q : Z -> world G D -> Prop) :
  state T A w -> 0 <= va < 2 ^ 39 ->
  Q (base + 8 * (va / 2 ^ 30)) w -> wp (bm_mmu_find_pte va 1) Q w.
Proof.
  intros [Hc R] Hva HQ. destruct (walk_index va Hva) as (H1 & _).
  unfold bm_mmu_find_pte. wp_step. apply wp_get_ctrl. rewrite Hc.
  cbn [start_level tlb_addr]. change (1 <? 1) with false. cbv iota.
  change (Z.to_nat (4 - 1)) with 3%nat. cbn [find_pte_from].
  wp_step. apply wp_get_ctrl. rewrite Hc. unfold bm_mmu_level2shift.
  wp_step. wp_step. apply wp_get_ctrl. rewrite Hc. wp_step. cbn [granule].
  change (level2shift MMU_GRANULE_4K 1) with 30.
  change (MMU_GRANULE_4K =? MMU_GRANULE_4K) with true. cbv iota zeta. rewrite H1.
  change (1 =? 1) with true. cbv iota. by wp_step.
Qed.

Lemma find_pte_2 T A w va k (Q : Z -> world G D -> Prop) :
  state T A w -> 0 <= va < 2 ^ 39 -> T !! k = Some (va / 2 ^ 30) ->
  Q (table k + 8 * (va / 2 ^ 21 - 512 * (va / 2 ^ 30))) w -> wp (bm_mmu_find_pte va 2) Q w.
Proof.
  intros [Hc R] Hva Hk HQ. destruct (walk_index va Hva) as (H1 & H2 & _).
  destruct (table_link k (repr_lookup_lt _ _ _ _ _ R Hk)) as (L1 & L2 & _).
  unfold bm_mmu_find_pte. wp_step. apply wp_get_ctrl. rewrite Hc.
  cbn [start_level tlb_addr]. change (2 <? 1) with false. cbv iota.
  change (Z.to_nat (4 - 1)) with 3%nat. cbn [find_pte_from].
  wp_step. apply wp_get_ctrl. rewrite Hc. unfold bm_mmu_level2shift.
  wp_step. wp_step. apply wp_get_ctrl. rewrite Hc. wp_step. cbn [granule].
  change (level2shift MMU_GRANULE_4K 1) with 30.
  change (MMU_GRANULE_4K =? MMU_GRANULE_4K) with true. cbv iota zeta. rewrite H1.
  change (1 =? 2) with false. cbv iota. unfold bm_mmu_get_pte_type.
  wp_step. wp_step. eapply wp_word; [by apply R |]. wp_step.
  unfold PTE_TYPE_MASK at 1. rewrite L1. change (negb (u32 3 =? PTE_TYPE_TABLE)) with false. cbv iota.
  wp_step. eapply wp_word; [by apply R |]. rewrite L2. change (1 + 1) with 2.
  wp_step. apply wp_get_ctrl. rewrite Hc. wp_step. wp_step. apply wp_get_ctrl. rewrite Hc.
  wp_step. cbn [granule]. change (level2shift MMU_GRANULE_4K 2) with 21.
  change (MMU_GRANULE_4K =? MMU_GRANULE_4K) with true. cbv iota zeta. rewrite H2.
  change (2 =? 2) with true. cbv iota. by wp_step.
Qed.

(** The level 1 pass: afterwards there is a table for the index. *)
Lemma level_1 T A w map pte p i (Q : Z -> world G D -> Prop) :
  state T A w -> max_level map = 2 -> 0 <= i < n -> pte = base + 8 * i ->
  (forall T' k w', state T' A w' -> T' !! k = Some i -> dev w' = dev w -> tr w' = tr w ->
     Q BM_OK w') ->
  wp (bm_mmu_add_map_pte_process map pte p 1) Q w.
Proof.
  intros [Hc R] Hml Hi -> HQ. unfold bm_mmu_add_map_pte_process. rewrite Hml.
  change (1 <? 2) with true. cbv iota. unfold bm_mmu_get_pte_type. wp_step. wp_step.
  destruct (decide (i ∈ T)) as [[k Hk]%list_elem_of_lookup | Hni].
  - destruct (table_link k (repr_lookup_lt _ _ _ _ _ R Hk)) as (L1 & _).
    eapply wp_word; [by apply R |]. wp_step. unfold PTE_TYPE_MASK. rewrite L1.
    change (u32 3 =? PTE_TYPE_FAULT) with false. cbv iota. wp_step. by eapply HQ.
  - pose proof (repr_room _ _ _ _ R Hi Hni) as Hlt.
    assert (table (length T) + 4096 = table (S (length T))) as Hnext by (unfold table; lia).
    eapply wp_word; [apply (re_free _ _ _ R); [lia | done] |]. wp_step.
    change (u32 (Z.land 0 PTE_TYPE_MASK) =? PTE_TYPE_FAULT) with true. cbv iota.
    wp_step. unfold bm_mmu_create_table. wp_step. apply wp_get_ctrl. rewrite Hc.
    cbn [granule tlb_fillptr]. change (MMU_GRANULE_4K =? MMU_GRANULE_4K) with true.
    cbv iota zeta. change (512 * 8) with 4096.
    rewrite Hnext, (wrap_id 64 (table _)) by (unfold fits, table; lia).
    set (w1 := World (hput (set_fillptr (table (S (length T))) (mmuof w)) (glob w)) (dev w) (tr w)).
    assert (g_mmu_ctrl (mmuof w1) =
      MmuCtrl base len (table (S (length T))) MMU_GRANULE_4K 1 bits) as Hc1.
    { subst w1. cbn [glob]. rewrite hget_hput. unfold set_fillptr. by rewrite Hc. }
    assert (memof w1 = memof w) as Hmem by (cbn [glob w1]; apply indep_l).
    wp_step. wp_step. fold w1. wp_step. apply wp_get_ctrl. rewrite Hc1.
    cbn [tlb_size tlb_fillptr tlb_addr]. rewrite wrap_id by (unfold fits, table; lia).
    destruct (Z.ltb_spec len (table (S (length T)) - base)); [unfold table in *; lia |].
    wp_step. wp_apply wp_fill.
    + rewrite Hmem. apply (mapped_sub _ _ _ _ _ (re_mapped _ _ _ R)); unfold table; lia.
    + intros _ w2 ->. wp_step. destruct (Z.eqb_spec (table (length T)) NULL) as [E | _];
        [unfold table, NULL in E; lia |]. wp_step. unfold bm_mmu_set_pte_table.
      apply wp_stn.
      * rewrite memof_setm. apply mapped_wr. rewrite Hmem.
        apply (mapped_sub _ _ _ _ _ (re_mapped _ _ _ R)); lia.
      * wp_step. rewrite setm_setm, memof_setm, Hmem. change (u8 0) with 0.
        apply (HQ (T ++ [i]) (length T)); [| | done | done].
        -- split; [| rewrite memof_setm; by apply repr_new].
           by rewrite mmuof_setm, Hc1, length_app, Nat.add_1_r.
        -- by rewrite lookup_app_r, Nat.sub_diag by lia.
Qed.

Lemma state_ext T A A' w : (forall b, A b = A' b) -> state T A w -> state T A' w.
Proof.
  intros E [Hc R]. split; [done |]. split; try apply R.
  - intros k i j Hk Hj. rewrite <- E. by apply R.
  - intros i j Hi Hni Hj. rewrite <- E. by apply R.
Qed.

(** The level 2 pass stores the block descriptor. *)
Lemma level_2 T A w map b (Q : Z -> world G D -> Prop) k i :
  state T A w -> block_region n map ->
  virt map <= 2 ^ 21 * b < virt map + 2 ^ 21 * blocks map ->
  T !! k = Some i -> 0 <= b - 512 * i < 512 ->
  (forall w', state T (fun b' => if b' =? b then block_desc map b' else A b') w' ->
     dev w' = dev w -> tr w' = tr w -> Q BM_OK w') ->
  wp (bm_mmu_add_map_pte_process map (table k + 8 * (b - 512 * i))
        (phys map + (2 ^ 21 * b - virt map)) 2) Q w.
Proof.
  intros [Hc R] Hr Hb Hk Hj HQ. unfold bm_mmu_add_map_pte_process. rewrite (br_level _ _ Hr).
  change (2 <? 2) with false. change (2 =? 3) with false. cbv iota. wp_step.
  fold (block_desc map b). pose proof (repr_lookup_lt _ _ _ _ _ R Hk).
  destruct (block_desc_parts n map b Hr) as (Hf & _); [lia | lia |].
  apply wp_stn.
  - apply (mapped_sub _ _ _ _ _ (re_mapped _ _ _ R)); unfold table; lia.
  - wp_step. apply HQ; [| done | done]. pose proof (repr_set _ _ _ _ _ _ _ R Hk Hj Hf) as R'.
    replace (512 * i + (b - 512 * i)) with b in R' by lia.
    eapply state_ext; [| split; [by rewrite mmuof_setm | rewrite memof_setm; exact R']].
    intros b'. cbv beta. by destruct (Z.eqb_spec b' b) as [-> |].
Qed.

(** One round maps one block. *)
Lemma add_map_block T A w map (k bs : Z) :
  state T A w -> block_region n map -> 0 <= k < blocks map ->
  wp (add_map_round map 1 (virt map + 2 ^ 21 * k, phys map + 2 ^ 21 * k, 2 ^ 21 * k, bs))
    (fun res w' =>
       res = inl (virt map + 2 ^ 21 * (k + 1), phys map + 2 ^ 21 * (k + 1), 2 ^ 21 * (k + 1), 2 ^ 21) /\
       (exists T', state T' (fun b => if b =? virt map / 2 ^ 21 + k then block_desc map b else A b) w') /\
       dev w' = dev w /\ tr w' = tr w) w.
Proof.
  intros HT Hr Hk. destruct (Hr) as [Hv Hp Hl He Hpe Hml _]. unfold add_map_round.
  assert (2 ^ 21 * k < size map) as Hlt
    by (unfold blocks in Hk; Z.to_euclidean_division_equations; lia).
  destruct (Z.ltb_spec (2 ^ 21 * k) (size map)); [| lia]. rewrite Hml.
  change (Z.to_nat (2 - 1 + 1)) with 2%nat. cbn [add_map_levels].
  set (va := virt map + 2 ^ 21 * k). set (b := virt map / 2 ^ 21 + k).
  assert (va = 2 ^ 21 * b) as Hvb by (subst va b; Z.to_euclidean_division_equations; lia).
  assert (va / 2 ^ 21 = b) as Hb by (rewrite Hvb, Z.mul_comm, Z_div_mult; lia).
  assert (0 <= va < 2 ^ 39 /\ va < 2 ^ 30 * n) as [Hva Hvn] by (subst va; lia).
  destruct (walk_index va Hva) as (_ & _ & Hi & Hj). rewrite Hb in Hj.
  assert (0 <= va / 2 ^ 30 < n) as Hin by (split; [lia | apply Z.div_lt_upper_bound; lia]).
  wp_step. wp_step. eapply find_pte_1; [exact HT | done |].
  destruct (Z.eqb_spec (base + 8 * (va / 2 ^ 30)) NULL) as [E | _]; [unfold NULL in E; lia |].
  wp_step. eapply level_1; [exact HT | done | exact Hin | done |].
  intros T1 k1 w1 HT1 Hk1 Hd1 Ht1. change (ctrue BM_OK) with false. cbv iota.
  wp_step. apply wp_get_ctrl. rewrite (st_ctrl _ _ _ HT1). wp_step. unfold bm_mmu_level2shift.
  wp_step. apply wp_get_ctrl. rewrite (st_ctrl _ _ _ HT1). wp_step. cbn [granule start_level].
  change (1 =? 1) with true. cbv iota. change (1 + 1) with 2.
  wp_step. eapply find_pte_2; [exact HT1 | done | exact Hk1 |]. rewrite Hb.
  pose proof (repr_lookup_lt _ _ _ _ _ (st_repr _ _ _ HT1) Hk1).
  destruct (Z.eqb_spec (table k1 + 8 * (b - 512 * (va / 2 ^ 30))) NULL) as [E | _];
    [unfold NULL, table in E; lia |].
  replace (phys map + 2 ^ 21 * k) with (phys map + (2 ^ 21 * b - virt map)) by lia.
  wp_step. eapply level_2; [exact HT1 | done | lia | exact Hk1 | done |].
  intros w2 HT2 Hd2 Ht2. change (ctrue BM_OK) with false. cbv iota.
  wp_step. apply wp_get_ctrl. rewrite (st_ctrl _ _ _ HT2). wp_step.
  wp_step. apply wp_get_ctrl. rewrite (st_ctrl _ _ _ HT2). wp_step. cbn [granule start_level].
  wp_step. change (2 =? 1) with false. cbv iota.
  change (u64 (Z.shiftl 1 (level2shift MMU_GRANULE_4K 2))) with (2 ^ 21).
  change (ctrue BM_OK) with false. cbv iota. wp_step.
  rewrite !wrap_id by (unfold fits; lia).
  assert (va + 2 ^ 21 = virt map + 2 ^ 21 * (k + 1)) as -> by (subst va; lia).
  assert (phys map + (2 ^ 21 * b - virt map) + 2 ^ 21 = phys map + 2 ^ 21 * (k + 1)) as -> by lia.
  assert (2 ^ 21 * k + 2 ^ 21 = 2 ^ 21 * (k + 1)) as -> by lia.
  split; [done |]. split; [by exists T1 | by rewrite Hd2, Ht2].
Qed.

(** A whole region, and a list of them. *)
Lemma add_map_region fuel T A w map :
  state T A w -> block_region n map -> (Z.to_nat (blocks map) < fuel)%nat ->
  wp (bm_mmu_add_map fuel map) (fun ret w' => ret = BM_OK /\
    (exists T', state T' (with_blocks map (blocks map) A) w') /\
    dev w' = dev w /\ tr w' = tr w) w.
Proof.
  intros HT Hr Hfuel. unfold bm_mmu_add_map. wp_step. apply wp_get_ctrl.
  rewrite (st_ctrl _ _ _ HT), (br_level _ _ Hr). cbn [start_level].
  change (2 <=? 1) with false. cbv iota.
  assert (0 <= blocks map) as Hb0 by (apply Z.div_pos; [destruct (br_low _ _ Hr) |]; lia).
  apply wp_loop with
    (I := fun s w' => exists T' (k bs : Z), 0 <= k <= blocks map /\
       s = (virt map + 2 ^ 21 * k, phys map + 2 ^ 21 * k, 2 ^ 21 * k, bs) /\
       state T' (with_blocks map k A) w' /\ dev w' = dev w /\ tr w' = tr w)
    (m := fun s _ => Z.to_nat (blocks map - s.1.2 / 2 ^ 21)).
  - intros s w1 (T1 & k & bs & Hk & -> & HT1 & Hd1 & Ht1).
    destruct (decide (k = blocks map)) as [-> | Hne].
    + unfold add_map_round.
      destruct (Z.ltb_spec (2 ^ 21 * blocks map) (size map)) as [Hlt | _];
        [unfold blocks in Hlt; Z.to_euclidean_division_equations; lia |].
      wp_step. split; [done |]. split; [by exists T1 | done].
    + eapply wp_mono; [apply (add_map_block _ _ _ _ _ _ HT1 Hr); lia |]. cbv beta.
      intros res w2 (-> & (T2 & HT2) & Hd2 & Ht2). split.
      * exists T2, (k + 1), (2 ^ 21). split_and!; [lia | lia | done | | congruence | congruence].
        eapply state_ext; [| exact HT2]. intros b. unfold with_blocks.
        destruct (Z.eqb_spec b (virt map / 2 ^ 21 + k)); zcases; done.
      * cbn [fst snd]. rewrite !(Z.mul_comm (2 ^ 21)), !Z_div_mult by lia. lia.
  - exists T, 0, 0. split_and!; [lia | lia | by rewrite Z.mul_0_r, !Z.add_0_r | | done | done].
    eapply state_ext; [| exact HT]. intros b. unfold with_blocks. zcases; done.
  - cbn [fst snd]. change (0 / 2 ^ 21) with 0. rewrite Z.sub_0_r. done.
Qed.

Lemma add_maps_regions fuel T A w regions :
  state T A w -> Forall (block_region n) regions ->
  Forall (fun r => (Z.to_nat (blocks r) < fuel)%nat) regions ->
  wp (mmu_add_maps fuel regions) (fun ret w' => ret = BM_OK /\
    (exists T', state T' (fold_left (fun A r => with_blocks r (blocks r) A) regions A) w') /\
    dev w' = dev w /\ tr w' = tr w) w.
Proof.
  intros HT Hr Hf. revert T A w HT. induction Hr as [| r regions Hr _ IH]; intros T A w HT;
    cbn [mmu_add_maps fold_left].
  - wp_step. split; [done |]. split; [by exists T | done].
  - apply Forall_cons in Hf as [Hf1 Hf]. wp_step.
    eapply wp_mono; [by eapply add_map_region |]. cbv beta.
    intros ret w1 (-> & (T1 & HT1) & Hd1 & Ht1). change (ctrue BM_OK) with false. cbv iota.
    eapply wp_mono; [by eapply IH |]. cbv beta.
    intros ret w2 (-> & HT2 & Hd2 & Ht2). split_and!; [done | done | congruence | congruence].
Qed.

(** *** Reading the tables back *)
Lemma repr_walk T A (m : mem) va : repr T A m -> 0 <= va < 2 ^ 39 ->
  leaf m base va = Some (A (va / 2 ^ 21)).
Proof.
  intros R Hva. destruct (walk_index va Hva) as (H1 & H2 & Hi & Hj).
  unfold leaf, bf_get. change (Z.ones 9) with 0x1ff. rewrite H1, H2.
  destruct (decide (va / 2 ^ 30 ∈ T)) as [[k Hk]%list_elem_of_lookup | Hni].
  - destruct (table_link k (repr_lookup_lt _ _ _ _ _ R Hk)) as (L1 & L2 & _).
    rewrite (re_top _ _ _ R _ _ Hk). cbn [mbind option_bind]. rewrite L1.
    change (3 =? 3) with true. cbv iota. unfold PTE_TABLE_ADDR_MARK_4K in L2.
    change 0x0000fffffffff000 with 0xfffffffff000 in L2. rewrite L2.
    rewrite (re_leaf _ _ _ R _ _ _ Hk Hj). do 2 f_equal. lia.
  - rewrite (re_free _ _ _ R) by done. cbn [mbind option_bind].
    change (Z.land 0 3 =? 3) with false. change (Z.land 0 3 =? 0) with true. cbv iota.
    f_equal. symmetry. rewrite <- (re_none _ _ _ R (va / 2 ^ 30) (va / 2 ^ 21 - 512 * (va / 2 ^ 30)))
      by done. f_equal. lia.
Qed.

(** The empty top-level table. *)
Lemma repr_init (m : mem) : m = m0 -> mapped m base len ->
  repr [] (fun _ => 0) (wr m base (replicate (Z.to_nat 4096) 0)).
Proof.
  intros -> Hm. split; try done.
  - intros i Hi _. apply word_zero; lia.
  - by apply NoDup_nil.
  - by apply mapped_wr.
  - intros a Ha. rewrite lookup_wr, length_replicate, decide_False by lia. done.
Qed.
End Tables.

Definition decode (d va : Z) : option (Z * Z) :=
  if Z.land d 3 =? 1
  then Some (Z.land d 0xffffffe00000 + va mod 2 ^ 21, Z.ldiff d 0xffffffe00000)
  else None.

Lemma entries_translate n regions va : Forall (block_region n) regions -> 0 <= va ->
  decode (entries regions (va / 2 ^ 21)) va = map_translate regions va.
Proof.
  intros Hr Hva. unfold entries, map_translate.
  assert (decode ((fun _ => 0) (va / 2 ^ 21)) va = None) as H0 by done.
  revert H0. generalize (fun _ : Z => 0) as A. generalize (@None (Z * Z)) as acc.
  induction Hr as [| r regions Hr _ IH]; intros acc A HA; cbn [fold_left]; [done |].
  apply IH. unfold with_blocks, covers.
  pose proof (br_virt _ _ Hr) as Hv. destruct (br_low _ _ Hr) as (Hv0 & _).
  assert (virt r = 2 ^ 21 * (virt r / 2 ^ 21)) as Hvd by (Z.to_euclidean_division_equations; lia).
  pose proof (Z.div_mod va (2 ^ 21)). pose proof (Z.mod_pos_bound va (2 ^ 21)).
  destruct (Z.leb_spec (virt r / 2 ^ 21) (va / 2 ^ 21)),
    (Z.ltb_spec (va / 2 ^ 21) (virt r / 2 ^ 21 + blocks r)),
    (Z.leb_spec (virt r) va), (Z.ltb_spec va (virt r + 2 ^ 21 * blocks r)); cbn [andb];
    try done; try lia.
  destruct (block_desc_parts n r (va / 2 ^ 21) Hr) as (_ & D1 & D2 & D3); [lia | lia |].
  unfold decode. rewrite D1, D2, D3. change (1 =? 1) with true. cbv iota. do 2 f_equal. lia.
Qed.

Lemma addr_size_small a : a <= 2 ^ 36 -> (mmu_addr_size a).2 < 39.
Proof. intros Ha. unfold mmu_addr_size. repeat zcase1; cbn [snd]; lia. Qed.

Section Setup.
Context {G D : Type} `{MD : Machine D} `{HM : !Has G mem} `{HS : !Has G mmu}
  `{IN : !Indep G mmu mem} `{MM : MmuMap}.
Implicit Types (w : world G D).

(** What setting up the tables does. *)
Lemma setup_pgtables_spec fuel regions base len n w :
  0 < base -> base mod 2 ^ 12 = 0 -> base + len <= 2 ^ 48 ->
  0 <= n <= 512 -> 2 ^ 12 * (1 + n) <= len -> mapped (memof w) base len ->
  mmu_max_addr g_mem_map_info <= 2 ^ 36 ->
  Forall (block_region n) regions ->
  Forall (fun r => (Z.to_nat (blocks r) < fuel)%nat) regions ->
  wp (bm_mmu_setup_pgtables fuel regions base len MMU_GRANULE_4K) (fun ret w' =>
    ret = BM_OK /\
    (forall va, 0 <= va < 2 ^ 39 -> translate (memof w') base va = map_translate regions va) /\
    (forall a, a < base \/ base + len <= a -> memof w' !! a = memof w !! a) /\
    tr w' = tr w ++ [Wr CPU_RELEASE_MMU_TCR (u32 (bm_mmu_get_tcr MMU_GRANULE_4K).1)]) w.
Proof.
  intros Hb Hp He Hn Hl Hm Hmax Hr Hf. unfold bm_mmu_setup_pgtables.
  assert ((bm_mmu_get_tcr MMU_GRANULE_4K).2 < 39) as Hbits.
  { unfold bm_mmu_get_tcr. pose proof (addr_size_small _ Hmax) as Hs.
    by destruct (mmu_addr_size _). }
  destruct (bm_mmu_get_tcr MMU_GRANULE_4K) as [tcr bits]. cbn [fst snd] in *.
  wp_steps. apply wp_get_ctrl. cbn [glob dev tr]. rewrite !hget_hput, hput_hput.
  unfold set_ctrl, set_tcr. cbn [g_mmu_ctrl g_tcr tlb_addr tlb_size tlb_fillptr granule
    start_level va_bits].
  change (MMU_GRANULE_4K =? MMU_GRANULE_4K) with true. cbv iota.
  destruct (Z.ltb_spec bits 39); [| lia]. wp_steps. cbn [negb]. cbv iota. cbn [glob dev tr].
  rewrite hget_hput, hput_hput. unfold set_start_level, set_ctrl.
  cbn [g_mmu_ctrl g_tcr tlb_addr tlb_size tlb_fillptr granule start_level va_bits].
  unfold bm_mmu_create_table. wp_step. wp_step. apply wp_get_ctrl. cbn [glob]. rewrite hget_hput.
  cbn [g_mmu_ctrl granule tlb_fillptr tlb_addr].
  change (MMU_GRANULE_4K =? MMU_GRANULE_4K) with true. cbv iota zeta. change (512 * 8) with 4096.
  rewrite (wrap_id 64 (base + 4096)) by (unfold fits; lia).
  wp_steps. cbn [glob dev tr]. rewrite hget_hput, hput_hput. unfold set_fillptr, set_ctrl.
  cbn [g_mmu_ctrl g_tcr tlb_addr tlb_size tlb_fillptr granule start_level va_bits].
  apply wp_get_ctrl. cbn [glob]. rewrite hget_hput.
  cbn [g_mmu_ctrl granule tlb_fillptr tlb_addr tlb_size].
  rewrite wrap_id by (unfold fits; lia).
  destruct (Z.ltb_spec len (base + 4096 - base)); [lia |]. wp_step.
  eapply wp_mono; [apply wp_fill; cbn [glob]; rewrite indep_l;
    apply (mapped_sub _ _ _ _ _ Hm); lia |]. cbv beta.
  intros _ w1 ->. wp_step. destruct (Z.eqb_spec base NULL); [unfold NULL in *; lia |].
  eapply wp_mono; [eapply (add_maps_regions base len n (memof w) bits Hb Hp He Hn Hl fuel []
    (fun _ => 0)); [| done | done] |].
  - split.
    + unfold setm. cbn [glob]. rewrite indep_r, hget_hput. cbn [g_mmu_ctrl].
      by f_equal.
    + rewrite memof_setm. cbn [glob]. rewrite indep_l. by apply repr_init.
  - cbv beta. intros ret w2 (-> & (T & HT) & Hd & Ht). split; [done |].
    pose proof (st_repr _ _ _ _ _ _ _ _ HT) as R. split; [| split].
    + intros va Hva. rewrite <- (entries_translate n regions va Hr) by lia.
      unfold translate. by rewrite (repr_walk _ _ _ _ Hb Hp He Hn Hl _ _ _ _ R Hva).
    + apply R.
    + by rewrite Ht.
Qed.
(** C17: for regions aligned to 2 MiB blocks below [n] GiB and a page-aligned
    table area with room for [1 + n] tables, [bm_mmu_setup_pgtables] succeeds,
    and the processor's walk of the tables it leaves takes every virtual
    address where the regions say, the last region that covers it winning,
    and faults on the addresses that none covers.  Sizes are rounded up to
    whole blocks.  Memory outside the area is untouched and the only device
    access is the control register left for the other cores. *)
Theorem mmu_tables_translate fuel regions base len n w :
  0 < base -> base mod 2 ^ 12 = 0 -> base + len <= 2 ^ 48 ->
  0 <= n <= 512 -> 2 ^ 12 * (1 + n) <= len -> mapped (memof w) base len ->
  mmu_max_addr g_mem_map_info <= 2 ^ 36 ->
  Forall (block_region n) regions ->
  Forall (fun r => (Z.to_nat (blocks r) < fuel)%nat) regions ->
  wp (bm_mmu_setup_pgtables fuel regions base len MMU_GRANULE_4K) (fun ret w' =>
    ret = BM_OK /\
    (forall va, 0 <= va < 2 ^ 39 -> translate (memof w') base va = map_translate regions va) /\
    (forall a, a < base \/ base + len <= a -> memof w' !! a = memof w !! a) /\
    tr w' = tr w ++ [Wr CPU_RELEASE_MMU_TCR (u32 (bm_mmu_get_tcr MMU_GRANULE_4K).1)]) w.
Proof. apply setup_pgtables_spec. Qed.
End Setup.

(** ** At the baremetal memory map *)
#[local] Instance baremetal_map : MmuMap := {|
  MMU_DRIVER_ADDR := 0x08600000; MMU_GIC_ADDR := 0x24000000;
  MMU_LOCALBUS_MEM_ADDR := 0x30000000; MMU_LOCALBUS_MEM_SIZE := 0x2fffffff;
  MMU_DDR_ADDR := 0x80000000; MMU_DDR_SIZE := 0x7fffffff;
  MMU_OPENAMP_ADDR := 0; MMU_OPENAMP_ADDR_SIZE := 0;
  MMU_PAGE_BEGIN := 0x8a000000; MMU_PAGE_END := 0x8a008000;
  CPU_RELEASE_MMU_PAGE := 0x8727ffb8; CPU_RELEASE_MMU_TCR := 0x8727ffc0;
  CPU_RELEASE_BOOT_SYNC := 0x8727ffc8; BOOT_SYNC_READY := 0xabababab |}.

Definition mmu_w0 : world (mem * mmu) ram :=
  World (wr ∅ 0x8a000000 (replicate (Z.to_nat 0x8000) 0), mmu_init_state) ram0 [].

Lemma baremetal_regions : Forall (block_region 4) g_mem_map_info.
Proof.
  repeat (constructor; [split; vm_compute; intuition congruence |]). constructor.
Qed.

Lemma mmu_tables_translate_witness :
  wp (bm_mmu_setup_pgtables 1025 g_mem_map_info 0x8a000000 0x8000 MMU_GRANULE_4K)
    (fun ret w' => ret = BM_OK /\
       translate (memof w') 0x8a000000 0x24000010 = Some (0x24000010, 0x401) /\
       translate (memof w') 0x8a000000 0x90001234 = Some (0x90001234, 0x711) /\
       translate (memof w') 0x8a000000 0x60000000 = None) mmu_w0.
Proof.
  eapply wp_mono; [apply (mmu_tables_translate 1025 g_mem_map_info 0x8a000000 0x8000 4) |].
  - lia.
  - reflexivity.
  - lia.
  - lia.
  - lia.
  - apply mapped_block; [lia | rewrite length_replicate; lia].
  - vm_compute. discriminate.
  - exact baremetal_regions.
  - repeat (constructor; [apply Nat.ltb_lt; vm_compute; reflexivity |]). constructor.
  - cbv beta. intros ret w' (-> & H & _). split; [done |].
    rewrite !H by lia. vm_compute. split_and!; reflexivity.
Defined.
