(* ===== verification/Cache.v ===== *)
(** * Cache: data cache maintenance (drivers/cache/cache.c)

    The range operations check the range against the DDR window and then hand
    it to the assembly of cache_asm.S, which is a system operation here. *)
From S2P Require Import Prelude Hw.
From stdpp Require Import prelude gmap list strings.
From Stdlib Require Import ZArith Lia.
Local Open Scope Z_scope.

(** The DDR window; it depends on the memory map that is built in. *)
Class DdrMap := { MMU_DDR_ADDR : Z; MMU_DDR_SIZE : Z }.

Section Cache.
Context {G D : Type} `{MD : Machine D} `{DM : DdrMap}.
Abbreviation M := (M G D).

(** The check of [start] and of the end, which wraps at 64 bits. *)
Definition ddr_range (start size : Z) : option Z :=
  if (u64 (MMU_DDR_ADDR + MMU_DDR_SIZE) <? start) || (start <? MMU_DDR_ADDR) then None
  else
    let end_ := u64 (start + size) in
    if (u64 (MMU_DDR_ADDR + MMU_DDR_SIZE) <? end_) || (end_ <? MMU_DDR_ADDR) || (end_ <=? start)
    then None
    else Some end_.

Definition bm_invalidate_dcache_all : M unit := sys_ DcacheInvAll.
Definition bm_flush_dcache_all : M unit := sys_ DcacheFlushAll.

Definition bm_invalidate_dcache_range (start size : Z) : M unit :=
  match ddr_range start size with
  | None => mret tt
  | Some end_ => sys_ (DcacheInvRange start end_)
  end.

Definition bm_flush_dcache_range (start size : Z) : M unit :=
  match ddr_range start size with
  | None => mret tt
  | Some end_ => sys_ (DcacheFlushRange start end_)
  end.

(** The ranges accepted are the non-empty ones inside the window. *)
Lemma ddr_range_iff start size end_ :
  0 <= MMU_DDR_ADDR -> MMU_DDR_ADDR + MMU_DDR_SIZE < 2 ^ 64 - 2 ^ 32 -> 0 <= MMU_DDR_SIZE ->
  fits 64 start -> fits 32 size ->
  ddr_range start size = Some end_ <->
  MMU_DDR_ADDR <= start /\ start < end_ /\ end_ = start + size /\
  end_ <= MMU_DDR_ADDR + MMU_DDR_SIZE.
Proof.
  intros Ha Hs Hn Hst Hsz. unfold ddr_range. unfold fits in *.
  rewrite (wrap_id 64 (MMU_DDR_ADDR + _)) by (unfold fits; lia).
  destruct (_ || _) eqn:E.
  - split; [done |]. rewrite orb_true_iff in E. lia.
  - rewrite orb_false_iff in E. rewrite wrap_id by (unfold fits; lia). cbv zeta.
    destruct (_ || _) eqn:E2.
    + split; [done |]. rewrite !orb_true_iff in E2. lia.
    + rewrite !orb_false_iff in E2. split; [intros [= <-]; lia | intros H; f_equal; lia].
Qed.
End Cache.
