(* ===== verification/Os.v ===== *)
(** * Os: what the drivers ask of the operating system layer

    The drivers are built against the osal_* interface, which the repository
    implements several times (without an OS, on UniProton, on libck).  The
    class [Os] is that interface; [OsLaws] is what a driver relies on: every
    call ends, leaves the driver's own state alone, and makes no access
    outside [P].  [osal_nonos] is the implementation of [Osal] and of the
    interrupt adapter; [osal_nonos_laws] shows it keeps the laws. *)
From S2P Require Import Prelude Hw Common Mem Gic GicProps Osal.
From stdpp Require Import prelude gmap list strings.
From Stdlib Require Import ZArith Lia.
Local Open Scope Z_scope.

(** A handler is named by its address. *)
Class Os (G D : Type) := {
  os_irq_request : Z -> Z -> Z -> M G D Z;       (* irq, handler, dev *)
  os_irq_free : Z -> M G D unit;
  os_irq_enable : Z -> M G D unit;
  os_irq_disable : Z -> M G D unit;
  os_irq_set_priority : Z -> Z -> M G D Z;
  os_irq_set_affinity : Z -> Z -> M G D Z;
  os_sem_init : Z -> Z -> M G D Z;               (* semaphore, value *)
  os_sem_destroy : Z -> M G D unit;
  os_sem_down_timeout : Z -> Z -> M G D Z;
  os_sem_up : Z -> M G D unit;
}.

(** The interrupts of the peripherals. *)
Definition shared (irq : Z) : Prop := MIN_SPI_ID <= irq <= MAX_INT_NUM.

(** The driver's state is [S]; interrupt numbers and cores are in range. *)
Class OsLaws (G D S : Type) `{!Has G S} `{!Os G D} (P : event -> Prop) := {
  ol_irq_request irq h dev : shared irq -> quiet S P (os_irq_request irq h dev);
  ol_irq_free irq : shared irq -> quiet S P (os_irq_free irq);
  ol_irq_enable irq : shared irq -> quiet S P (os_irq_enable irq);
  ol_irq_disable irq : shared irq -> quiet S P (os_irq_disable irq);
  ol_irq_set_priority irq pri : shared irq -> quiet S P (os_irq_set_priority irq pri);
  ol_irq_set_affinity irq mask : shared irq -> quiet S P (os_irq_set_affinity irq mask);
  ol_sem_init s v : quiet S P (os_sem_init s v);
  ol_sem_destroy s : quiet S P (os_sem_destroy s);
  ol_sem_down_timeout s t : quiet S P (os_sem_down_timeout s t);
  ol_sem_up s : quiet S P (os_sem_up s);
}.

(** ** Without an operating system *)
Section NonOs.
Context {G D : Type} `{MD : Machine D} (fuel : nat).
Context `{HG : !Has G (gic irq_fn irq_arg)} `{HO : !Has G osal_irqs}.

#[local] Instance osal_nonos : Os G D := {|
  os_irq_request irq h dev := osal_irq_request irq (Some h) dev;
  os_irq_free := osal_irq_free;
  os_irq_enable := osal_irq_enable fuel;
  os_irq_disable := osal_irq_disable fuel;
  os_irq_set_priority := osal_irq_set_priority fuel;
  os_irq_set_affinity := osal_irq_set_affinity;
  os_sem_init _ _ := osal_sem_init;
  os_sem_destroy _ := osal_sem_destroy;
  os_sem_down_timeout _ t := osal_sem_down_timeout t;
  os_sem_up _ := osal_sem_up;
|}.

(** The accesses made for a shared interrupt: the distributor's registers. *)
Definition gicd_access (e : event) : Prop :=
  match e with
  | Rd a _ | Wr a _ => GIC_REG_BASE_ADDR <= a < GIC_REG_BASE_ADDR + 0x10000
  | Sy _ _ | Seen _ => False
  end.

Context `{GQ : !GicQuiesces D fuel}.
Context {S : Type} `{HS : !Has G S}.
Context `{I1 : !Indep G (gic irq_fn irq_arg) S} `{I2 : !Indep G osal_irqs S}.

Lemma quiet_gicd_wait : quiet (G := G) S gicd_access (bm_gicd_wait_cfg_work fuel).
Proof.
  apply quiet_emits. intros w. emits_apply (emits_gicd_wait fuel (GQ := GQ)).
  intros [] t [v (_ & vs & -> & _)]. apply Forall_app. split; [| by repeat constructor].
  apply Forall_fmap, Forall_true. intros x. unfold gicd_access, GICD_CTLR_S_ADDR. simpl. lia.
Qed.

(** A word of a register array that starts below 0x8000 in the block. *)
Lemma quiet_word base num id : 4 <= num -> shared id ->
  GIC_REG_BASE_ADDR <= base < GIC_REG_BASE_ADDR + 0x8000 ->
  GIC_REG_BASE_ADDR <= gic_reg_addr base num id < GIC_REG_BASE_ADDR + 0x10000.
Proof.
  unfold shared, MIN_SPI_ID, MAX_INT_NUM, gic_reg_addr. intros Hn Hid Hb.
  assert (0 <= id / num <= id / 4).
  { split; [apply Z.div_pos; lia | apply Z.div_le_compat_l; lia]. }
  assert (id / 4 <= 72) by (apply Z.lt_succ_r, Z.div_lt_upper_bound; lia). lia.
Qed.

Ltac quiet_gicd :=
  quiet_steps;
  first
  [ apply quiet_gicd_wait
  | apply quiet_word; unfold GIC_IENABLE_INT_NUM, GIC_IPRIORITY_INT_NUM, GICD_ISENABLER0_ADDR,
      GICD_ICENABLER0_ADDR, GICD_IPRIORITYRN_ADDR, GIC_REG_BASE_ADDR; (done || lia)
  | idtac ].

Lemma quiet_gicd_enable irq : shared irq -> quiet (G := G) S gicd_access (bm_gicd_enable_int fuel irq).
Proof. intros Hs. unfold bm_gicd_enable_int, bm_gic_set_reg. quiet_gicd. Qed.

Lemma quiet_gicd_disable irq : shared irq -> quiet (G := G) S gicd_access (bm_gicd_disable_int fuel irq).
Proof. intros Hs. unfold bm_gicd_disable_int, bm_gic_set_reg. quiet_gicd. Qed.

Lemma quiet_set_priority irq pri : shared irq ->
  quiet (G := G) S gicd_access (bm_irq_set_priority fuel irq pri).
Proof.
  intros Hs. pose proof Hs as Hs'. unfold shared, MIN_SPI_ID, MAX_INT_NUM in Hs'.
  unfold bm_irq_set_priority, MAX_NNSPI_ID. replace (irq <=? 31) with false by lia.
  quiet_step; [quiet_steps |]. unfold irq_set_priority_spi, bm_gicd_get_int_state,
    bm_gic_get_reg, bm_gicd_set_priority, bm_gic_rmw_reg.
  quiet_steps; try (by apply quiet_gicd_disable); try (by apply quiet_gicd_enable); quiet_gicd.
Qed.

Lemma quiet_set_affinity irq core : shared irq ->
  quiet (G := G) S gicd_access (bm_irq_set_affinity irq core).
Proof.
  intros Hs. pose proof Hs as Hs'. unfold shared, MIN_SPI_ID, MAX_INT_NUM in Hs'.
  assert (forall P, (GIC_REG_BASE_ADDR <= bm_gic_get_router_addr irq < GIC_REG_BASE_ADDR + 0x10000 -> P) -> P)
    as Haddr.
  { intros P HP. apply HP.
    unfold bm_gic_get_router_addr, GICD_SPI_IROUTERN_L_ADDR, GIC_REG_BASE_ADDR. lia. }
  unfold bm_irq_set_affinity. quiet_steps; by apply Haddr.
Qed.

#[local] Instance osal_nonos_laws : OsLaws G D S gicd_access.
Proof.
  split; intros; cbn [os_irq_request os_irq_free os_irq_enable os_irq_disable os_irq_set_priority
    os_irq_set_affinity os_sem_init os_sem_destroy os_sem_down_timeout os_sem_up osal_nonos].
  - unfold osal_irq_request, bm_request_irq, irq_install_handler. quiet_steps.
  - unfold osal_irq_free, bm_free_irq, irq_free_handler. quiet_steps.
  - unfold osal_irq_enable, bm_enable_irq. pose proof H as Hs. unfold shared, MIN_SPI_ID in Hs.
    unfold MIN_GIC_SPI_NUM. replace (irq <? 32) with false by lia. quiet_steps.
    by apply quiet_gicd_enable.
  - unfold osal_irq_disable, bm_disable_irq. pose proof H as Hs. unfold shared, MIN_SPI_ID in Hs.
    unfold MIN_GIC_SPI_NUM. replace (irq <? 32) with false by lia. quiet_steps.
    by apply quiet_gicd_disable.
  - unfold osal_irq_set_priority. quiet_steps. by apply quiet_set_priority.
  - unfold osal_irq_set_affinity, osal_affinity_step. quiet_steps; by apply quiet_set_affinity.
  - apply quiet_ret.
  - apply quiet_ret.
  - apply quiet_ret.
  - apply quiet_ret.
Qed.
End NonOs.

(** The drivers' registers are elsewhere. *)
Lemma os_laws_weaken {G D S} `{!Has G S} `{!Os G D} (P Q : event -> Prop) :
  (forall e, P e -> Q e) -> OsLaws G D S P -> OsLaws G D S Q.
Proof. intros HPQ [????? ?????]. split; intros; (eapply quiet_weaken; [eauto | exact HPQ]). Qed.

(** ** An OS whose calls do nothing, for the witnesses of the drivers *)
Definition no_os {G D} : Os G D := {|
  os_irq_request _ _ _ := mret 0; os_irq_free _ := mret tt; os_irq_enable _ := mret tt;
  os_irq_disable _ := mret tt; os_irq_set_priority _ _ := mret 0;
  os_irq_set_affinity _ _ := mret 0; os_sem_init _ _ := mret 0; os_sem_destroy _ := mret tt;
  os_sem_down_timeout _ _ := mret 0; os_sem_up _ := mret tt;
|}.

Lemma no_os_laws {G D S P} `{!Has G S} : @OsLaws G D S _ no_os P.
Proof. split; intros; apply quiet_ret. Qed.
