(* ===== verification/Dmac.v ===== *)
(** * Dmac: the DMA controller (drivers/dma/dmac.c)

    Sixteen channels between memory and peripherals.  A transfer checks its
    configuration, picks an idle channel under a semaphore, programs the
    channel, registers a callback and starts it; the interrupt handler calls
    the callback with the outcome.  A synchronous transfer waits for its own
    callback.  Bit fields follow dma/dmac_union.h, offsets dma/dmac_regs.h.

    Interrupts that arrive while a synchronous transfer waits are the
    parameter [preempt], run once in each round of the waiting loop; calling
    the client's function pointer is the parameter [call_user]. *)
From S2P Require Import Prelude Hw Common Osal Cache Os.
From stdpp Require Import prelude gmap list strings.
From Stdlib Require Import ZArith Lia.
Local Open Scope Z_scope.

(** The request lines, in the order of the enumeration. *)
Inductive bm_dmac_req :=
| DMAC_REQ_SEL_SPI0_TX | DMAC_REQ_SEL_SPI0_RX | DMAC_REQ_SEL_I2C0_TX | DMAC_REQ_SEL_I2C0_RX
| DMAC_REQ_SEL_I2C1_TX | DMAC_REQ_SEL_I2C1_RX | DMAC_REQ_SEL_UART2_TX | DMAC_REQ_SEL_UART2_RX
| DMAC_REQ_SEL_UART3_TX | DMAC_REQ_SEL_UART3_RX | DMAC_REQ_SEL_UART4_TX | DMAC_REQ_SEL_UART4_RX
| DMAC_REQ_SEL_I2C2_TX | DMAC_REQ_SEL_I2C2_RX | DMAC_REQ_SEL_I2C3_TX | DMAC_REQ_SEL_I2C3_RX
| DMAC_REQ_SEL_I2C4_TX | DMAC_REQ_SEL_I2C4_RX | DMAC_REQ_SEL_I2C5_TX | DMAC_REQ_SEL_I2C5_RX
| DMAC_REQ_SEL_I2C6_TX | DMAC_REQ_SEL_I2C6_RX | DMAC_REQ_SEL_I2C7_TX | DMAC_REQ_SEL_I2C7_RX
| DMAC_REQ_SEL_I2C8_TX | DMAC_REQ_SEL_I2C8_RX | DMAC_REQ_SEL_I2C9_TX | DMAC_REQ_SEL_I2C9_RX
| DMAC_REQ_SEL_I2C10_TX | DMAC_REQ_SEL_I2C10_RX | DMAC_REQ_SEL_I2C11_TX | DMAC_REQ_SEL_I2C11_RX
| DMAC_REQ_SEL_I2C12_TX | DMAC_REQ_SEL_I2C12_RX | DMAC_REQ_SEL_I2C13_TX | DMAC_REQ_SEL_I2C13_RX
| DMAC_REQ_SEL_I2C14_TX | DMAC_REQ_SEL_I2C14_RX | DMAC_REQ_SEL_I2C15_TX | DMAC_REQ_SEL_I2C15_RX
| DMAC_REQ_SEL_UART0_TX | DMAC_REQ_SEL_UART0_RX | DMAC_REQ_SEL_UART1_TX | DMAC_REQ_SEL_UART1_RX
| DMAC_REQ_SEL_UART5_TX | DMAC_REQ_SEL_UART5_RX | DMAC_REQ_SEL_UART6_TX | DMAC_REQ_SEL_UART6_RX
| DMAC_REQ_SEL_UART7_TX | DMAC_REQ_SEL_UART7_RX | DMAC_REQ_SEL_SPI1_TX | DMAC_REQ_SEL_SPI1_RX
| DMAC_REQ_SEL_BUTT.

#[export] Instance bm_dmac_req_eq_dec : EqDecision bm_dmac_req.
Proof. solve_decision. Defined.

Definition dmac_reqs : list bm_dmac_req :=
  [DMAC_REQ_SEL_SPI0_TX; DMAC_REQ_SEL_SPI0_RX; DMAC_REQ_SEL_I2C0_TX; DMAC_REQ_SEL_I2C0_RX;
   DMAC_REQ_SEL_I2C1_TX; DMAC_REQ_SEL_I2C1_RX; DMAC_REQ_SEL_UART2_TX; DMAC_REQ_SEL_UART2_RX;
   DMAC_REQ_SEL_UART3_TX; DMAC_REQ_SEL_UART3_RX; DMAC_REQ_SEL_UART4_TX; DMAC_REQ_SEL_UART4_RX;
   DMAC_REQ_SEL_I2C2_TX; DMAC_REQ_SEL_I2C2_RX; DMAC_REQ_SEL_I2C3_TX; DMAC_REQ_SEL_I2C3_RX;
   DMAC_REQ_SEL_I2C4_TX; DMAC_REQ_SEL_I2C4_RX; DMAC_REQ_SEL_I2C5_TX; DMAC_REQ_SEL_I2C5_RX;
   DMAC_REQ_SEL_I2C6_TX; DMAC_REQ_SEL_I2C6_RX; DMAC_REQ_SEL_I2C7_TX; DMAC_REQ_SEL_I2C7_RX;
   DMAC_REQ_SEL_I2C8_TX; DMAC_REQ_SEL_I2C8_RX; DMAC_REQ_SEL_I2C9_TX; DMAC_REQ_SEL_I2C9_RX;
   DMAC_REQ_SEL_I2C10_TX; DMAC_REQ_SEL_I2C10_RX; DMAC_REQ_SEL_I2C11_TX; DMAC_REQ_SEL_I2C11_RX;
   DMAC_REQ_SEL_I2C12_TX; DMAC_REQ_SEL_I2C12_RX; DMAC_REQ_SEL_I2C13_TX; DMAC_REQ_SEL_I2C13_RX;
   DMAC_REQ_SEL_I2C14_TX; DMAC_REQ_SEL_I2C14_RX; DMAC_REQ_SEL_I2C15_TX; DMAC_REQ_SEL_I2C15_RX;
   DMAC_REQ_SEL_UART0_TX; DMAC_REQ_SEL_UART0_RX; DMAC_REQ_SEL_UART1_TX; DMAC_REQ_SEL_UART1_RX;
   DMAC_REQ_SEL_UART5_TX; DMAC_REQ_SEL_UART5_RX; DMAC_REQ_SEL_UART6_TX; DMAC_REQ_SEL_UART6_RX;
   DMAC_REQ_SEL_UART7_TX; DMAC_REQ_SEL_UART7_RX; DMAC_REQ_SEL_SPI1_TX; DMAC_REQ_SEL_SPI1_RX].

(** The number of a request line. *)
Definition req_num (r : bm_dmac_req) : Z :=
  match list_find (eq r) dmac_reqs with
  | Some (i, _) => Z.of_nat i
  | None => Z.of_nat (length dmac_reqs)
  end.

(** The data register of each request line. *)
Definition g_dma_req_addr_list : list (bm_dmac_req * Z) :=
  [(DMAC_REQ_SEL_SPI0_TX, 0x8713060); (DMAC_REQ_SEL_SPI0_RX, 0x8713060);
   (DMAC_REQ_SEL_I2C0_TX, 0x8707010); (DMAC_REQ_SEL_I2C0_RX, 0x8707010);
   (DMAC_REQ_SEL_I2C1_TX, 0x8708010); (DMAC_REQ_SEL_I2C1_RX, 0x8708010);
   (DMAC_REQ_SEL_UART2_TX, 0x08710000); (DMAC_REQ_SEL_UART2_RX, 0x08710000);
   (DMAC_REQ_SEL_UART3_TX, 0x08711000); (DMAC_REQ_SEL_UART3_RX, 0x08711000);
   (DMAC_REQ_SEL_UART4_TX, 0x08743000); (DMAC_REQ_SEL_UART4_RX, 0x08743000);
   (DMAC_REQ_SEL_I2C2_TX, 0x8709010); (DMAC_REQ_SEL_I2C2_RX, 0x8709010);
   (DMAC_REQ_SEL_I2C3_TX, 0x870a010); (DMAC_REQ_SEL_I2C3_RX, 0x870a010);
   (DMAC_REQ_SEL_I2C4_TX, 0x870b010); (DMAC_REQ_SEL_I2C4_RX, 0x870b010);
   (DMAC_REQ_SEL_I2C5_TX, 0x870c010); (DMAC_REQ_SEL_I2C5_RX, 0x870c010);
   (DMAC_REQ_SEL_I2C6_TX, 0x870d010); (DMAC_REQ_SEL_I2C6_RX, 0x870d010);
   (DMAC_REQ_SEL_I2C7_TX, 0x870e010); (DMAC_REQ_SEL_I2C7_RX, 0x870e010);
   (DMAC_REQ_SEL_I2C8_TX, 0x8750010); (DMAC_REQ_SEL_I2C8_RX, 0x8750010);
   (DMAC_REQ_SEL_I2C9_TX, 0x8751010); (DMAC_REQ_SEL_I2C9_RX, 0x8751010);
   (DMAC_REQ_SEL_I2C10_TX, 0x8752010); (DMAC_REQ_SEL_I2C10_RX, 0x8752010);
   (DMAC_REQ_SEL_I2C11_TX, 0x8753010); (DMAC_REQ_SEL_I2C11_RX, 0x8753010);
   (DMAC_REQ_SEL_I2C12_TX, 0x8754010); (DMAC_REQ_SEL_I2C12_RX, 0x8754010);
   (DMAC_REQ_SEL_I2C13_TX, 0x8755010); (DMAC_REQ_SEL_I2C13_RX, 0x8755010);
   (DMAC_REQ_SEL_I2C14_TX, 0x8756010); (DMAC_REQ_SEL_I2C14_RX, 0x8756010);
   (DMAC_REQ_SEL_I2C15_TX, 0x8757010); (DMAC_REQ_SEL_I2C15_RX, 0x8757010);
   (DMAC_REQ_SEL_UART0_TX, 0x0872a000); (DMAC_REQ_SEL_UART0_RX, 0x0872a000);
   (DMAC_REQ_SEL_UART1_TX, 0x0872b000); (DMAC_REQ_SEL_UART1_RX, 0x0872b000);
   (DMAC_REQ_SEL_UART5_TX, 0x08744000); (DMAC_REQ_SEL_UART5_RX, 0x08744000);
   (DMAC_REQ_SEL_UART6_TX, 0x0875d000); (DMAC_REQ_SEL_UART6_RX, 0x0875d000);
   (DMAC_REQ_SEL_UART7_TX, 0x0875e000); (DMAC_REQ_SEL_UART7_RX, 0x0875e000);
   (DMAC_REQ_SEL_SPI1_TX, 0x8715060); (DMAC_REQ_SEL_SPI1_RX, 0x8715060)].

Definition DMAC_CHANNEL_CNT : Z := 16.
Definition DMAC_INTID : Z := 148.
Definition DMAC_CLOCK_OPEN : Z := 0.
Definition DMAC_CLOCK_CLOSE : Z := 1.
Definition DMAC_TRANSMIT_OK : Z := 0.
Definition DMAC_TRANSMIT_FAIL : Z := 1.
Definition TRASFER_TYPE_M2M : Z := 0.
Definition TRASFER_TYPE_M2P : Z := 1.
Definition TRASFER_TYPE_P2M : Z := 2.
Definition DMAC_REQ_MAX : Z := 51.  (* DMAC_REQ_SEL_SPI1_RX *)

Definition DMAC_BASE_ADDR : Z := 0x8714000.
Definition DMAC_INT_1 : Z := DMAC_BASE_ADDR + 0x0.
Definition DMAC_ITC_MASK_INT_1 : Z := DMAC_BASE_ADDR + 0x4.
Definition DMAC_IE_MASK_INT_1 : Z := DMAC_BASE_ADDR + 0x8.
Definition DMAC_INT_TC_1 : Z := DMAC_BASE_ADDR + 0xc.
Definition DMAC_INT_ERR_1 : Z := DMAC_BASE_ADDR + 0x10.
Definition DMAC_INT_TC_CLR : Z := DMAC_BASE_ADDR + 0x3c.
Definition DMAC_INT_ERR_CLR : Z := DMAC_BASE_ADDR + 0x40.
Definition DMAC_EN_CH_STATUS : Z := DMAC_BASE_ADDR + 0x4c.
Definition DMAC_G_EN : Z := DMAC_BASE_ADDR + 0x78.
Definition DMAC_SRC_ADDR_L (ch : Z) : Z := DMAC_BASE_ADDR + (0x100 + ch * 0x10).
Definition DMAC_DEST_ADDR_L (ch : Z) : Z := DMAC_BASE_ADDR + (0x104 + ch * 0x10).
Definition DMAC_LLI_ADDR (ch : Z) : Z := DMAC_BASE_ADDR + (0x108 + ch * 0x10).
Definition DMAC_CONTROL_ADDR (ch : Z) : Z := DMAC_BASE_ADDR + (0x10c + ch * 0x10).
Definition DMAC_CONFIG_ADDR (ch : Z) : Z := DMAC_BASE_ADDR + (0x300 + ch * 0x4).

(** Offsets in the subsystem control block. *)
Definition LPSC_ADDR_SEL : Z := 0x0.
Definition LPSC_CLKEN_CTRL1 : Z := 0x14.
Definition LPSC_CLKDIS_CTRL1 : Z := 0x1c0.
Definition LPSC_CLKSTA_CTRL1 : Z := 0x1c4.
Definition LPSC_ADDR_EXTEND1 : Z := 0x25c.
Definition DMAC_REQ_SEL0_ADDR (id : Z) : Z := 0x6c + id * 4.

Definition DMAC_CLOCK_MASK : Z := 2 ^ 16.
Definition DMAC_CLEAN_TRANSMISSION_INT : Z := 0xffff.
Definition DMAC_PERIPHERAL_ID (id : Z) : Z := if 31 <? id then id mod 32 else id.

(** The channels present in the build, the address of the interrupt handler,
    and that of the semaphore. *)
Class DmacConfig := {
  g_dma_exist_array : list bool;
  dmac_isr : Z;
  g_sem : Z;
  dma_exist_length : length g_dma_exist_array = 16%nat;
}.

(** What [dmac_callback_info.callback] can point to. *)
Inductive dmac_callback := SyncCallback | UserCallback (f : Z).
Record dmac_callback_info := CallbackInfo { cb_req : Z; cb_fn : option dmac_callback }.

(** The file's static variables. *)
Record dmac := Dmac {
  g_callback_info : list dmac_callback_info;
  g_dmac_start_flag : list Z;
  g_dmac_sync_complete_flag : list Z;
  g_dmac_sync_status : list Z;
  g_sem_init : Z;
}.
Definition dmac_init_state : dmac :=
  Dmac (replicate 16 (CallbackInfo 0 None)) (replicate 16 0) (replicate 16 0) (replicate 16 0) 0.

Definition set_callback (ch : Z) (c : dmac_callback_info) (s : dmac) : dmac :=
  Dmac (<[Z.to_nat ch := c]> (g_callback_info s)) (g_dmac_start_flag s)
       (g_dmac_sync_complete_flag s) (g_dmac_sync_status s) (g_sem_init s).
Definition set_start (ch v : Z) (s : dmac) : dmac :=
  Dmac (g_callback_info s) (<[Z.to_nat ch := v]> (g_dmac_start_flag s))
       (g_dmac_sync_complete_flag s) (g_dmac_sync_status s) (g_sem_init s).
Definition set_complete (ch v : Z) (s : dmac) : dmac :=
  Dmac (g_callback_info s) (g_dmac_start_flag s)
       (<[Z.to_nat ch := v]> (g_dmac_sync_complete_flag s)) (g_dmac_sync_status s) (g_sem_init s).
Definition set_status (ch v : Z) (s : dmac) : dmac :=
  Dmac (g_callback_info s) (g_dmac_start_flag s)
       (g_dmac_sync_complete_flag s) (<[Z.to_nat ch := v]> (g_dmac_sync_status s)) (g_sem_init s).
Definition set_sem_init (v : Z) (s : dmac) : dmac :=
  Dmac (g_callback_info s) (g_dmac_start_flag s)
       (g_dmac_sync_complete_flag s) (g_dmac_sync_status s) v.
Definition clear_callback (ch : Z) (s : dmac) : dmac :=
  match g_callback_info s !! Z.to_nat ch with
  | Some c => set_callback ch (CallbackInfo (cb_req c) None) s
  | None => s
  end.
(** [bm_dmac_init] clears the callbacks of the channels present,
    [bm_dmac_deinit] the flags of all. *)
Definition clear_callbacks (present : list bool) (s : dmac) : dmac :=
  Dmac (zip_with (fun (e : bool) c => if e then CallbackInfo (cb_req c) None else c)
          present (g_callback_info s))
       (g_dmac_start_flag s) (g_dmac_sync_complete_flag s) (g_dmac_sync_status s) (g_sem_init s).
Definition clear_flags (s : dmac) : dmac :=
  Dmac (g_callback_info s) (replicate 16 0) (replicate 16 0) (replicate 16 0) (g_sem_init s).

Record bm_dmac_channel_cfg := ChannelCfg {
  req : Z; src_addr : Z; dest_addr : Z; data_len : Z; trans_type : Z;
}.

(** [dmac_reg_info_s]: the register values and the local configuration. *)
Record dmac_reg_info_s := RegInfo {
  dmac_cmlli : Z; dmac_cmcontrol : Z; dmac_cmconfig : Z;
  l_src_req : Z; l_dest_req : Z; l_src_addr : Z; l_dest_addr : Z;
}.

(** ** The register values of a transfer *)
Definition bm_dmac_common_template (cfg : bm_dmac_channel_cfg) : Z * Z * Z :=
  let lli := bf_set 2 30 0 (bf_set 1 1 0 0) in
  let control := bf_set 0 19 (data_len cfg) 0 in
  let control := bf_set 23 4 0 (bf_set 19 4 0 control) in
  let control := bf_set 31 1 0 (bf_set 30 1 0 (bf_set 29 1 0 control)) in
  let config := bf_set 0 1 0 (bf_set 26 1 0 (bf_set 25 1 0 (bf_set 31 1 0 0))) in
  (lli, control, config).

(** Fields of [u_dmac_cmconfig]: peripherals, flow control, widths. *)
Definition cmconfig_fields (srcp destp flow config : Z) : Z :=
  bf_set 19 2 0 (bf_set 16 2 0 (bf_set 13 3 flow (bf_set 7 6 destp (bf_set 1 6 srcp config)))).
Definition cmcontrol_incr (si di control : Z) : Z := bf_set 28 1 di (bf_set 27 1 si control).

Definition bm_dmac_transmit_config (cfg : bm_dmac_channel_cfg) : dmac_reg_info_s :=
  let '(lli, control, config) := bm_dmac_common_template cfg in
  if trans_type cfg =? TRASFER_TYPE_M2M then
    RegInfo lli (cmcontrol_incr 1 1 control) (cmconfig_fields 0 0 0 config)
            0 0 (src_addr cfg) (dest_addr cfg)
  else if trans_type cfg =? TRASFER_TYPE_M2P then
    RegInfo lli (cmcontrol_incr 1 0 control)
            (cmconfig_fields 0 (DMAC_PERIPHERAL_ID (req cfg)) 1 config)
            0 (req cfg) (src_addr cfg) (dest_addr cfg)
  else
    RegInfo lli (cmcontrol_incr 0 1 control)
            (cmconfig_fields (DMAC_PERIPHERAL_ID (req cfg)) 0 2 config)
            (req cfg) 0 (src_addr cfg) (dest_addr cfg).

Section Dmac.
Context {G D : Type} `{MD : Machine D} `{HS : !Has G dmac} `{OS : !Os G D}.
Context `{XF : Xfer} `{DM : DdrMap} `{DC : DmacConfig}.
Context (fuel : nat) (preempt : M G D unit) (call_user : Z -> Z -> Z -> M G D unit).
Abbreviation M := (M G D).

(** ** Clock and initialisation *)
Definition dmac_clock_status : M Z :=
  reg_val ← bm_lp_subsys_reg_read LPSC_CLKSTA_CTRL1 true;
  mret (Z.shiftr (Z.land DMAC_CLOCK_MASK (default 0 (snd reg_val))) 16).

Definition bm_dmac_config_io_clock (clock : Z) : M Z :=
  clock_status ← dmac_clock_status;
  if clock =? DMAC_CLOCK_OPEN then
    when (negb (ctrue clock_status)) (_ ← bm_lp_subsys_reg_read_write LPSC_CLKEN_CTRL1
      DMAC_CLOCK_MASK DMAC_CLOCK_MASK; mret tt) ;; mret BM_OK
  else if clock =? DMAC_CLOCK_CLOSE then
    when (ctrue clock_status) (_ ← bm_lp_subsys_reg_read_write LPSC_CLKDIS_CTRL1
      DMAC_CLOCK_MASK DMAC_CLOCK_MASK; mret tt) ;; mret BM_OK
  else mret BM_FAIL.

Definition bm_dmac_init_check : M Z :=
  clock_status ← dmac_clock_status;
  if negb (ctrue clock_status) then mret BM_FAIL
  else
    g_en ← readl DMAC_G_EN;
    if negb (bf_get 0 1 g_en =? 1) then mret BM_FAIL else mret BM_OK.

Definition bm_dmac_init : M Z :=
  _ ← bm_dmac_config_io_clock DMAC_CLOCK_OPEN;
  g_en ← readl DMAC_G_EN;
  writel (bf_set 1 1 0 (bf_set 0 1 1 g_en)) DMAC_G_EN ;;
  writel 0 DMAC_ITC_MASK_INT_1 ;;
  writel 0 DMAC_IE_MASK_INT_1 ;;
  writel DMAC_CLEAN_TRANSMISSION_INT DMAC_INT_TC_CLR ;;
  writel DMAC_CLEAN_TRANSMISSION_INT DMAC_INT_ERR_CLR ;;
  modg (clear_callbacks g_dma_exist_array) ;;
  _ ← os_irq_set_priority DMAC_INTID 6;
  _ ← os_irq_request DMAC_INTID dmac_isr NULL;
  s ← gets;
  if ctrue (g_sem_init s) then mret BM_OK
  else
    ret ← os_sem_init g_sem 1;
    when (ret =? OSAL_SUCCESS) (modg (set_sem_init 1)) ;; mret BM_OK.

Definition bm_dmac_deinit : M Z :=
  ret ← bm_dmac_init_check;
  if ctrue ret then mret BM_FAIL
  else
    g_en ← readl DMAC_G_EN;
    writel (bf_set 0 1 0 g_en) DMAC_G_EN ;;
    os_irq_free DMAC_INTID ;;
    os_irq_disable DMAC_INTID ;;
    modg clear_flags ;;
    s ← gets;
    when (ctrue (g_sem_init s)) (os_sem_destroy g_sem ;; modg (set_sem_init 0)) ;;
    mret BM_OK.

(** ** The interrupt handler *)
Definition dmac_transmit_sync_callback (ch type : Z) : M unit :=
  modg (set_complete ch 1) ;; modg (set_status ch type).

(** Calling [callback_info.callback(callback_info.req, int_status)]. *)
Definition dmac_call (c : dmac_callback) (r status : Z) : M unit :=
  match c with
  | SyncCallback => dmac_transmit_sync_callback r status
  | UserCallback f => call_user f r status
  end.

Definition dmac_int_status (complete err i : Z) : Z :=
  let c := Z.land (Z.shiftr complete i) 1 in
  let e := Z.land (Z.shiftr err i) 1 in
  if ctrue (Z.lxor c e)
  then if ctrue c then DMAC_TRANSMIT_OK else DMAC_TRANSMIT_FAIL
  else DMAC_TRANSMIT_FAIL.

(** One channel whose interrupt is pending. *)
Definition dmac_channel_interrupt (complete err i : Z) : M unit :=
  let int_status := dmac_int_status complete err i in
  writel (Z.land (Z.shiftl 1 i) DMAC_CLEAN_TRANSMISSION_INT) DMAC_INT_TC_CLR ;;
  writel (Z.land (Z.shiftl 1 i) DMAC_CLEAN_TRANSMISSION_INT) DMAC_INT_ERR_CLR ;;
  s ← gets;
  callback_info ← some_or OutOfBounds (g_callback_info s !! Z.to_nat i);
  match cb_fn callback_info with
  | Some c =>
      bm_flush_dcache_all ;;
      dmac_call c (cb_req callback_info) int_status ;;
      modg (clear_callback i)
  | None => mret tt
  end.

Definition bm_dmac_interrupt_handle : M Z :=
  channel_status ← readl DMAC_INT_1;
  dmac_intr_err ← readl DMAC_INT_ERR_1;
  dmac_intr_complete ← readl DMAC_INT_TC_1;
  for_up 16 0 (fun i =>
    when (ctrue (Z.land (Z.shiftr channel_status i) 1))
      (dmac_channel_interrupt dmac_intr_complete dmac_intr_err i)) ;;
  mret BM_OK.

Definition bm_dmac_flush_cache (cfg : bm_dmac_channel_cfg) : M unit :=
  if trans_type cfg =? TRASFER_TYPE_M2M then
    bm_flush_dcache_range (src_addr cfg) (data_len cfg) ;;
    bm_flush_dcache_range (dest_addr cfg) (data_len cfg)
  else if trans_type cfg =? TRASFER_TYPE_M2P then
    bm_flush_dcache_range (src_addr cfg) (data_len cfg)
  else if trans_type cfg =? TRASFER_TYPE_P2M then
    bm_flush_dcache_range (dest_addr cfg) (data_len cfg)
  else mret tt.

(** ** Channel set-up *)

(** The DMA's own view of a DDR address; [type] is 0 for reading. *)
Definition ddr_relative_addr (extend1 sel phy_addr type : Z) : Z :=
  let dmac_addr :=
    if bf_get 8 2 extend1 =? 1 then
      u32 (Z.shiftl (if ctrue type then bf_get 0 4 extend1 else bf_get 4 4 extend1) 28)
    else if bf_get 8 2 extend1 =? 2 then
      u32 (Z.shiftl (if ctrue type then bf_get 26 2 sel else bf_get 28 2 sel) 32)
    else 0 in
  if phy_addr <? dmac_addr then phy_addr else phy_addr - dmac_addr.

Definition bm_dmac_get_ddr_relative_addr (phy_addr type : Z) : M Z :=
  extend1 ← bm_lp_subsys_reg_read LPSC_ADDR_EXTEND1 true;
  sel ← bm_lp_subsys_reg_read LPSC_ADDR_SEL true;
  mret (ddr_relative_addr (default 0 (snd extend1)) (default 0 (snd sel)) phy_addr type).

(** The first channel that is present, not started and idle. *)
Fixpoint first_idle (present : list bool) (started : list Z) (status index : Z) : option Z :=
  match present, started with
  | e :: present', f :: started' =>
      if negb e || ctrue f then first_idle present' started' status (index + 1)
      else if negb (ctrue (Z.land (Z.shiftr status index) 1)) then Some index
      else first_idle present' started' status (index + 1)
  | _, _ => None
  end.

Definition find_idle_channel : M Z :=
  ret ← os_sem_down_timeout g_sem 50;
  if negb (ret =? OSAL_SUCCESS) then mret BM_FAIL
  else
    ch_status ← readl DMAC_EN_CH_STATUS;
    s ← gets;
    match first_idle g_dma_exist_array (g_dmac_start_flag s) (bf_get 0 16 ch_status) 0 with
    | Some index => modg (set_start index 1) ;; os_sem_up g_sem ;; mret index
    | None => os_sem_up g_sem ;; mret BM_FAIL
    end.

Definition bm_dmac_transmission_int_clean (ch : Z) : M unit :=
  rmw_field DMAC_INT_TC_CLR 0 16 (Z.shiftl 1 ch) ;;
  rmw_field DMAC_INT_ERR_CLR 0 16 (Z.shiftl 1 ch).

Definition bm_dmac_cmaddr_config (ch : Z) (info : dmac_reg_info_s) : M unit :=
  _ ← bm_lp_subsys_reg_write (DMAC_REQ_SEL0_ADDR (DMAC_PERIPHERAL_ID (l_src_req info))) (l_src_req info);
  _ ← bm_lp_subsys_reg_write (DMAC_REQ_SEL0_ADDR (DMAC_PERIPHERAL_ID (l_dest_req info))) (l_dest_req info);
  let flowctrl := bf_get 13 3 (dmac_cmconfig info) in
  src ← (if (flowctrl =? 0) || (flowctrl =? 1)
         then bm_dmac_get_ddr_relative_addr (l_src_addr info) 0 else mret (l_src_addr info));
  dest ← (if (flowctrl =? 0) || (flowctrl =? 2)
          then bm_dmac_get_ddr_relative_addr (l_dest_addr info) 1 else mret (l_dest_addr info));
  writel src (DMAC_SRC_ADDR_L ch) ;;
  writel dest (DMAC_DEST_ADDR_L ch).

Definition bm_dmac_channel_int_switch (ch : Z) (enable : bool) : M unit :=
  itc ← readl DMAC_ITC_MASK_INT_1;
  ie ← readl DMAC_IE_MASK_INT_1;
  let set v := if enable then Z.lor v (Z.shiftl 1 ch) else Z.land v (bnot 32 (Z.shiftl 1 ch)) in
  writel (set itc) DMAC_ITC_MASK_INT_1 ;;
  writel (set ie) DMAC_IE_MASK_INT_1.

Definition bm_dmac_channel_config (info : dmac_reg_info_s) : M Z :=
  ch ← find_idle_channel;
  if ch =? BM_FAIL then mret BM_FAIL
  else
    bm_dmac_transmission_int_clean ch ;;
    bm_dmac_cmaddr_config ch info ;;
    bm_dmac_channel_int_switch ch true ;;
    writel (dmac_cmlli info) (DMAC_LLI_ADDR ch) ;;
    writel (dmac_cmcontrol info) (DMAC_CONTROL_ADDR ch) ;;
    writel (dmac_cmconfig info) (DMAC_CONFIG_ADDR ch) ;;
    mret ch.

(** ** Transfers *)
Definition bm_dmac_channel_cfg_check (cfg : option bm_dmac_channel_cfg) : M Z :=
  match cfg with
  | None => mret BM_FAIL
  | Some cfg =>
      if DMAC_REQ_MAX <? req cfg then mret BM_FAIL
      else if data_len cfg =? 0 then mret BM_FAIL
      else
        let src := src_addr cfg in
        let dest := dest_addr cfg in
        let len := data_len cfg in
        if trans_type cfg =? TRASFER_TYPE_M2P then
          e ← some_or OutOfBounds (g_dma_req_addr_list !! Z.to_nat (req cfg));
          if negb (snd e =? dest) || ctrue (is_invalid_addr_len src len) then mret BM_FAIL
          else mret BM_OK
        else if trans_type cfg =? TRASFER_TYPE_P2M then
          e ← some_or OutOfBounds (g_dma_req_addr_list !! Z.to_nat (req cfg));
          if negb (snd e =? src) || ctrue (is_invalid_addr_len dest len) then mret BM_FAIL
          else mret BM_OK
        else if trans_type cfg =? TRASFER_TYPE_M2M then
          if ctrue (is_invalid_addr_len src len) || ctrue (is_invalid_addr_len dest len)
          then mret BM_FAIL else mret BM_OK
        else mret BM_FAIL
  end.

Definition bm_dmac_transmit_start (ch : Z) : M unit := rmw_field (DMAC_CONFIG_ADDR ch) 0 1 1.

(** [udelay_conut]: microseconds to wait, at 32 bits. *)
Definition wait_count (time_wait : Z) : Z :=
  if time_wait =? s32 BM_WAIT_FOREVER then u32 (-1) else u32 (time_wait * 1000).

Definition wait_round (ch count : Z) : M (Z + bool) :=
  s ← gets;
  flag ← some_or OutOfBounds (g_dmac_sync_complete_flag s !! Z.to_nat ch);
  if flag =? 1 then modg (set_complete ch 0) ;; mret (inr true)
  else
    udelay fuel 1 ;; preempt ;;
    if count =? 0 then mret (inr false)
    else sys_ Dsb ;; mret (inl (count - 1)).

Definition bm_dmac_wait_complete (ch time_wait : Z) : M Z :=
  if (DMAC_CHANNEL_CNT <=? ch) || (ch <? 0) then mret BM_FAIL
  else
    let count := wait_count time_wait in
    completed ← loop (S (Z.to_nat count)) (wait_round ch) count;
    if negb completed then mret BM_TIMEOUT
    else
      s ← gets;
      status ← some_or OutOfBounds (g_dmac_sync_status s !! Z.to_nat ch);
      if status =? DMAC_TRANSMIT_OK then mret BM_OK else mret BM_FAIL.

(** Registering the callback, routing the interrupt to this core, starting. *)
Definition dmac_launch (ch r : Z) (cb : dmac_callback) (cfg : bm_dmac_channel_cfg) : M unit :=
  modg (set_callback ch (CallbackInfo r (Some cb))) ;;
  core ← bm_get_coreid;
  _ ← os_irq_set_affinity DMAC_INTID (Z.shiftl 1 core);
  os_irq_enable DMAC_INTID ;;
  bm_dmac_flush_cache cfg ;;
  bm_dmac_transmit_start ch.

Definition bm_dmac_transmit_sync (cfg : option bm_dmac_channel_cfg) (time_wait : Z) : M Z :=
  bad ← bm_dmac_channel_cfg_check cfg;
  if ctrue bad then mret BM_FAIL
  else
    bad ← bm_dmac_init_check;
    if ctrue bad then mret BM_FAIL
    else if (time_wait <? 0) && negb (time_wait =? s32 BM_WAIT_FOREVER) then mret BM_FAIL
    else
      cfg ← some_or NullDeref cfg;
      ch ← bm_dmac_channel_config (bm_dmac_transmit_config cfg);
      if ch =? BM_FAIL then mret BM_FAIL
      else
        dmac_launch ch ch SyncCallback cfg ;;
        ret ← bm_dmac_wait_complete ch time_wait;
        bm_flush_dcache_all ;;
        modg (set_start ch 0) ;;
        mret ret.

Definition bm_dmac_transmit_async (cfg : option bm_dmac_channel_cfg) (callback : Z) : M Z :=
  bad ← bm_dmac_channel_cfg_check cfg;
  if ctrue bad || (callback =? NULL) then mret BM_FAIL
  else
    bad ← bm_dmac_init_check;
    if ctrue bad then mret BM_FAIL
    else
      cfg ← some_or NullDeref cfg;
      ch ← bm_dmac_channel_config (bm_dmac_transmit_config cfg);
      if (ch =? BM_FAIL) || (DMAC_CHANNEL_CNT <=? ch) then mret BM_FAIL
      else
        s ← gets;
        info ← some_or OutOfBounds (g_callback_info s !! Z.to_nat ch);
        match cb_fn info with
        | Some _ => mret BM_FAIL
        | None =>
            dmac_launch ch (req cfg) (UserCallback callback) cfg ;;
            modg (set_start ch 0) ;;
            mret BM_OK
        end.
End Dmac.

(** ** The interface of the drivers that use DMA

    A callback is named by its address. *)
Definition callback_of (c : Z) : option Z := if c =? NULL then None else Some c.

Class Dma (G D : Type) := {
  dma_transmit_async : option bm_dmac_channel_cfg -> Z -> M G D Z;
}.

Section AsDma.
Context {G D : Type} `{MD : Machine D} `{HS : !Has G dmac} `{OS : !Os G D}.
Context `{XF : Xfer} `{DM : DdrMap} `{DC : DmacConfig}.

#[local] Instance dmac_dma : Dma G D := {| dma_transmit_async := bm_dmac_transmit_async |}.
End AsDma.
