(* ===== verification/DmacProps.v ===== *)
(** * DmacProps: what the DMA driver does

    Which transfers are accepted and how they are encoded, what the interrupt
    handler delivers, the two kinds of transfer on every branch (which channel
    is taken, in which order its registers are written, what is registered),
    the waiting loop, and two ways in which the bookkeeping goes wrong. *)
From S2P Require Import Prelude Hw Common Gic GicProps Osal Cache Os Dmac.
From stdpp Require Import prelude gmap list strings.
From Stdlib Require Import ZArith Lia.
Local Open Scope Z_scope.

(** ** Accepting and encoding a transfer *)

(** The data register of a request line. *)
Definition data_register (r : bm_dmac_req) : option Z :=
  snd <$> head (filter (fun e => e.1 = r) g_dma_req_addr_list).

Lemma dma_table_lookup i : 0 <= i <= 51 ->
  exists r a, dmac_reqs !! Z.to_nat i = Some r /\ data_register r = Some a /\
    g_dma_req_addr_list !! Z.to_nat i = Some (r, a).
Proof.
  intros Hi. assert (forall k, (k < 52)%nat ->
    match dmac_reqs !! k, g_dma_req_addr_list !! k with
    | Some r, Some (r', a) => r = r' /\ data_register r = Some a
    | _, _ => False
    end) as Hall.
  { intros k Hk. do 52 (destruct k as [| k]; [vm_compute; done |]). lia. }
  specialize (Hall (Z.to_nat i) ltac:(lia)).
  destruct (dmac_reqs !! _) as [r |]; [| done].
  destruct (g_dma_req_addr_list !! _) as [[r' a] |]; [| done].
  destruct Hall as [-> Ha]. by exists r', a.
Qed.

Definition in_segment `{Xfer} (a len : Z) : Prop := is_invalid_addr_len a len = 0.

(** What a client may ask for. *)
Definition valid_transfer `{Xfer} (cfg : bm_dmac_channel_cfg) : Prop :=
  req cfg <= 51 /\ data_len cfg <> 0 /\
  ((trans_type cfg = TRASFER_TYPE_M2M /\ in_segment (src_addr cfg) (data_len cfg) /\
    in_segment (dest_addr cfg) (data_len cfg)) \/
   (trans_type cfg = TRASFER_TYPE_M2P /\ in_segment (src_addr cfg) (data_len cfg) /\
    (r ← dmac_reqs !! Z.to_nat (req cfg); data_register r) = Some (dest_addr cfg)) \/
   (trans_type cfg = TRASFER_TYPE_P2M /\ in_segment (dest_addr cfg) (data_len cfg) /\
    (r ← dmac_reqs !! Z.to_nat (req cfg); data_register r) = Some (src_addr cfg))).

Section Check.
Context {G D : Type} `{MD : Machine D} `{XF : Xfer}.
Implicit Types (w : world G D).

Lemma segment_cases a len : in_segment a len /\ ctrue (is_invalid_addr_len a len) = false \/
  ~ in_segment a len /\ ctrue (is_invalid_addr_len a len) = true.
Proof.
  unfold in_segment, is_invalid_addr_len. cbv zeta. destruct (_ && _); [left | right]; done.
Qed.

(** One direction with a peripheral: its data register against the table. *)
Lemma wp_check_peripheral i a bad (Q : Z -> world G D -> Prop) w : 0 <= i <= 51 ->
  Q (if decide ((r ← dmac_reqs !! Z.to_nat i; data_register r) = Some a /\ bad = false)
     then BM_OK else BM_FAIL) w ->
  wp (e ← some_or OutOfBounds (g_dma_req_addr_list !! Z.to_nat i);
      if negb (snd e =? a) || bad then mret BM_FAIL else mret BM_OK) Q w.
Proof.
  intros Hi HQ. destruct (dma_table_lookup i Hi) as (r & b & Hr & Hb & Ht). rewrite Ht, Hr in *.
  wp_step. apply wp_some_or. eexists. split; [done |]. cbn [snd mbind option_bind] in *.
  rewrite Hb in HQ. destruct (Z.eqb_spec b a) as [-> | Hne]; cbn [negb orb].
  - destruct bad; apply wp_ret; case_decide; intuition congruence.
  - apply wp_ret. rewrite decide_False in HQ by intuition congruence. done.
Qed.

Lemma wp_cfg_check cfg w : 0 <= req cfg ->
  wp (bm_dmac_channel_cfg_check (Some cfg))
     (fun r w' => w' = w /\ (r = BM_OK /\ valid_transfer cfg \/
                             r = BM_FAIL /\ ~ valid_transfer cfg)) w.
Proof.
  intros Hreq. unfold bm_dmac_channel_cfg_check, valid_transfer, DMAC_REQ_MAX.
  destruct (Z.ltb_spec 51 (req cfg)); [apply wp_ret; split; [done | right; intuition (congruence || lia)] |].
  destruct (Z.eqb_spec (data_len cfg) 0); [apply wp_ret; split; [done | right; intuition congruence] |].
  cbv zeta. unfold TRASFER_TYPE_M2P, TRASFER_TYPE_P2M, TRASFER_TYPE_M2M in *.
  destruct (Z.eqb_spec (trans_type cfg) 1) as [Et | Et];
    [| destruct (Z.eqb_spec (trans_type cfg) 2) as [Et2 | Et2]].
  - destruct (segment_cases (src_addr cfg) (data_len cfg)) as [[Hs ->] | [Hs ->]];
      (apply wp_check_peripheral; [lia |]; split; [done |]; case_decide as Hd; [left | right];
       (split; [done |]); intuition (congruence || lia)).
  - destruct (segment_cases (dest_addr cfg) (data_len cfg)) as [[Hs ->] | [Hs ->]];
      (apply wp_check_peripheral; [lia |]; split; [done |]; case_decide as Hd; [left | right];
       (split; [done |]); intuition (congruence || lia)).
  - destruct (Z.eqb_spec (trans_type cfg) 0) as [Et0 | Et0];
      [| apply wp_ret; split; [done | right; intuition (congruence || lia)]].
    destruct (segment_cases (src_addr cfg) (data_len cfg)) as [[Hs ->] | [Hs ->]],
      (segment_cases (dest_addr cfg) (data_len cfg)) as [[Hd ->] | [Hd ->]];
      (apply wp_ret; split; [done |]); [left | right ..]; (split; [done |]); intuition (congruence || lia).
Qed.

(** [bm_dmac_channel_cfg_check] accepts a configuration exactly when its
    request line exists, its length is not 0, its memory side lies in the
    transfer segment and its peripheral side is the data register of that
    request line; the table is in the order of the enumeration, so no line is
    checked against another's register, and no request indexes outside it. *)
Theorem dmac_cfg_check_exact cfg w :
  match cfg with
  | None => wp (bm_dmac_channel_cfg_check None) (fun r w' => r = BM_FAIL /\ w' = w) w
  | Some c => 0 <= req c ->
      wp (bm_dmac_channel_cfg_check cfg)
         (fun r w' => w' = w /\ (r = BM_OK /\ valid_transfer c \/
                                 r = BM_FAIL /\ ~ valid_transfer c)) w
  end.
Proof. destruct cfg as [c |]; [apply wp_cfg_check | by apply wp_ret]. Qed.
End Check.

(** Read a field out of a word that was put together field by field. *)
Ltac fields :=
  repeat first [rewrite bf_get_set_eq by lia | rewrite bf_get_set_ne by lia].

(** the registers of a transfer say what was asked: addresses, direction
    (flow control), which side advances, the request line modulo 32 on the
    peripheral side, byte width, no linked list, the channel not yet enabled.
    The length field holds the length modulo 2^19, so a longer transfer is
    cut short without an error. *)
Theorem transmit_config_encodes cfg info :
  0 <= req cfg -> 0 <= trans_type cfg <= 2 -> info = bm_dmac_transmit_config cfg ->
  let line := req cfg mod 32 in
  let ctl off len := bf_get off len (dmac_cmcontrol info) in
  let conf off len := bf_get off len (dmac_cmconfig info) in
  l_src_addr info = src_addr cfg /\ l_dest_addr info = dest_addr cfg /\ dmac_cmlli info = 0 /\
  ctl 0 19 = data_len cfg mod 2 ^ 19 /\
  conf 13 3 = trans_type cfg /\
  ctl 27 1 = (if trans_type cfg =? TRASFER_TYPE_P2M then 0 else 1) /\
  ctl 28 1 = (if trans_type cfg =? TRASFER_TYPE_M2P then 0 else 1) /\
  conf 1 6 = (if trans_type cfg =? TRASFER_TYPE_P2M then line else 0) /\
  conf 7 6 = (if trans_type cfg =? TRASFER_TYPE_M2P then line else 0) /\
  l_src_req info = (if trans_type cfg =? TRASFER_TYPE_P2M then req cfg else 0) /\
  l_dest_req info = (if trans_type cfg =? TRASFER_TYPE_M2P then req cfg else 0) /\
  conf 16 2 = 0 /\ conf 19 2 = 0 /\ conf 0 1 = 0.
Proof.
  intros Hr Ht -> line ctl conf.
  assert (DMAC_PERIPHERAL_ID (req cfg) = line) as Eline.
  { unfold DMAC_PERIPHERAL_ID, line. destruct (Z.ltb_spec 31 (req cfg)); [done |].
    by rewrite Z.mod_small by lia. }
  assert (fits 6 line) as Hline by (unfold fits, line; pose proof (Z.mod_pos_bound (req cfg) 32); lia).
  unfold ctl, conf, bm_dmac_transmit_config, bm_dmac_common_template, cmconfig_fields,
    cmcontrol_incr, TRASFER_TYPE_M2M, TRASFER_TYPE_M2P, TRASFER_TYPE_P2M.
  rewrite Eline. clear ctl conf Eline.
  assert (trans_type cfg = 0 \/ trans_type cfg = 1 \/ trans_type cfg = 2) as [-> | [-> | ->]] by lia;
    cbn [Z.eqb Pos.eqb l_src_addr l_dest_addr dmac_cmlli dmac_cmcontrol dmac_cmconfig l_src_req l_dest_req];
    split_and!; fields; try done; by apply wrap_id.
Qed.

(** ** The interrupt handler *)
Abbreviation dmacof w := (hget (S := dmac) (glob w)).

(** The driver's state between calls: one entry per channel, and a waiting
    transfer is registered under its own channel number. *)
Record dmac_wf (s : dmac) : Prop := {
  wf_callbacks : length (g_callback_info s) = 16%nat;
  wf_start : length (g_dmac_start_flag s) = 16%nat;
  wf_complete : length (g_dmac_sync_complete_flag s) = 16%nat;
  wf_status : length (g_dmac_sync_status s) = 16%nat;
  wf_sync ch r : g_callback_info s !! ch = Some (CallbackInfo r (Some SyncCallback)) -> r = Z.of_nat ch;
}.

Definition waiting (s : dmac) (ch : Z) : bool :=
  match g_callback_info s !! Z.to_nat ch with
  | Some (CallbackInfo _ (Some SyncCallback)) => true
  | _ => false
  end.

(** The state after the pending channels of [st] below [k] were served. *)
Record served (st tc err k : Z) (s s' : dmac) : Prop := {
  sv_callback ch : 0 <= ch -> g_callback_info s' !! Z.to_nat ch =
    (if (ch <? k) && Z.testbit st ch then fun c => CallbackInfo (cb_req c) None else id)
      <$> g_callback_info s !! Z.to_nat ch;
  sv_complete ch : 0 <= ch < 16 -> g_dmac_sync_complete_flag s' !! Z.to_nat ch =
    if (ch <? k) && Z.testbit st ch && waiting s ch then Some 1
    else g_dmac_sync_complete_flag s !! Z.to_nat ch;
  sv_status ch : 0 <= ch < 16 -> g_dmac_sync_status s' !! Z.to_nat ch =
    if (ch <? k) && Z.testbit st ch && waiting s ch then Some (dmac_int_status tc err ch)
    else g_dmac_sync_status s !! Z.to_nat ch;
  sv_start : g_dmac_start_flag s' = g_dmac_start_flag s;
  sv_lengths : length (g_dmac_sync_complete_flag s') = 16%nat /\ length (g_dmac_sync_status s') = 16%nat;
}.

Section Interrupt.
Context {G D : Type} `{MD : Machine D} `{HS : !Has G dmac}.
Context (call_user : Z -> Z -> Z -> M G D unit) (called : Z -> Z -> Z -> list event -> Prop).
(** The client's callbacks end, and leave the driver's state alone. *)
Context (Hcall : forall f r st w, wp (call_user f r st)
  (fun _ w' => dmacof w' = dmacof w /\ exists t, tr w' = tr w ++ t /\ called f r st t) w).
Implicit Types (w : world G D).

(** What serving one channel does: both of its interrupt bits are cleared,
    then its callback is called, once, with its request and the outcome. *)
Definition channel_trace (tc err : Z) (s : dmac) (i : Z) (t : list event) : Prop :=
  exists rest, t = Wr DMAC_INT_TC_CLR (2 ^ i) :: Wr DMAC_INT_ERR_CLR (2 ^ i) :: rest /\
    match g_callback_info s !! Z.to_nat i with
    | Some (CallbackInfo r (Some (UserCallback f))) =>
        exists v c, rest = Sy DcacheFlushAll v :: c /\ called f r (dmac_int_status tc err i) c
    | Some (CallbackInfo _ (Some SyncCallback)) => exists v, rest = [Sy DcacheFlushAll v]
    | _ => rest = []
    end.

Lemma int_clear_value i : 0 <= i < 16 ->
  u32 (Z.land (Z.shiftl 1 i) DMAC_CLEAN_TRANSMISSION_INT) = 2 ^ i.
Proof.
  intros Hi. assert (forall k, (k < 16)%nat ->
    u32 (Z.land (Z.shiftl 1 (Z.of_nat k)) DMAC_CLEAN_TRANSMISSION_INT) = 2 ^ Z.of_nat k) as H.
  { intros k Hk. do 16 (destruct k as [| k]; [vm_compute; done |]). lia. }
  specialize (H (Z.to_nat i) ltac:(lia)). by rewrite Z2Nat.id in H by lia.
Qed.

Lemma pending_bit st i : 0 <= i -> ctrue (Z.land (Z.shiftr st i) 1) = Z.testbit st i.
Proof.
  intros Hi. unfold ctrue. replace (Z.land (Z.shiftr st i) 1) with (Z.b2z (Z.testbit st i)).
  - by destruct (Z.testbit st i).
  - change 1 with (Z.ones 1). rewrite Z.land_ones by lia. change (2 ^ 1) with 2.
    by rewrite <- Z.bit0_mod, Z.shiftr_spec, Z.add_0_l by lia.
Qed.

(** The state after one more channel. *)
Definition serve (tc err i : Z) (s : dmac) : dmac :=
  match g_callback_info s !! Z.to_nat i with
  | Some (CallbackInfo r (Some SyncCallback)) =>
      clear_callback i (set_status r (dmac_int_status tc err i) (set_complete r 1 s))
  | Some (CallbackInfo _ (Some (UserCallback _))) => clear_callback i s
  | _ => s
  end.

Lemma ltb_succ ch i : ch <> i -> (ch <? i + 1) = (ch <? i).
Proof. intros H. destruct (Z.ltb_spec ch i), (Z.ltb_spec ch (i + 1)); lia. Qed.

Lemma served_skip st tc err i s s' : Z.testbit st i = false ->
  served st tc err i s s' -> served st tc err (i + 1) s s'.
Proof.
  intros Hb [Hc Hf Hs Ha Hl]. split; try done; intros ch Hch.
  all: destruct (decide (ch = i)) as [-> | Hne];
    [rewrite ?Hc, ?Hf, ?Hs, Hb, !andb_false_r by done; done | rewrite ltb_succ by done; eauto].
Qed.

Lemma callback_inserted i ch c (l : list dmac_callback_info) : 0 <= i -> 0 <= ch ->
  <[Z.to_nat i := c]> l !! Z.to_nat ch =
    if decide (ch = i) then (fun _ => c) <$> l !! Z.to_nat i else l !! Z.to_nat ch.
Proof.
  intros Hi Hch. case_decide as H; [subst ch | by rewrite list_lookup_insert_ne by lia].
  destruct (l !! Z.to_nat i) eqn:E; simpl.
  - apply list_lookup_insert_eq. by eapply lookup_lt_Some.
  - apply lookup_ge_None in E. apply lookup_ge_None. by rewrite length_insert.
Qed.

Lemma flag_inserted i ch (v : Z) (l : list Z) : 0 <= i < 16 -> 0 <= ch -> length l = 16%nat ->
  <[Z.to_nat i := v]> l !! Z.to_nat ch = if decide (ch = i) then Some v else l !! Z.to_nat ch.
Proof.
  intros Hi Hch Hl. case_decide as H; [subst ch | by rewrite list_lookup_insert_ne by lia].
  apply list_lookup_insert_eq. lia.
Qed.

Lemma served_serve st tc err i s s' : 0 <= i < 16 -> dmac_wf s -> Z.testbit st i = true ->
  served st tc err i s s' -> served st tc err (i + 1) s (serve tc err i s').
Proof.
  intros Hi Hwf Hb Hsv. pose proof Hsv as [Hc Hf Hs Ha Hl].
  assert (g_callback_info s' !! Z.to_nat i = g_callback_info s !! Z.to_nat i) as Ei.
  { rewrite Hc by lia. rewrite Z.ltb_irrefl. simpl. by destruct (_ !! _). }
  unfold serve. destruct (g_callback_info s' !! Z.to_nat i) as [[r fn] |] eqn:E; [| exfalso].
  2: { symmetry in Ei. apply lookup_ge_None in Ei. rewrite wf_callbacks in Ei by done. lia. }
  symmetry in Ei.
  assert ((i <? i + 1) = true) as Elt by lia.
  destruct fn as [[| f] |].
  - pose proof (wf_sync _ Hwf _ _ Ei) as Er. rewrite Z2Nat.id in Er by lia. subst r.
    unfold clear_callback. cbn [g_callback_info set_status set_complete]. rewrite E.
    split; cbn [g_callback_info g_dmac_start_flag g_dmac_sync_complete_flag g_dmac_sync_status
      set_callback set_status set_complete cb_req].
    + intros ch Hch. rewrite callback_inserted, E by lia. case_decide as Hd.
      * subst ch. rewrite Elt, Hb, Ei. done.
      * rewrite Hc, ltb_succ by done. done.
    + intros ch Hch. rewrite flag_inserted by (lia || apply Hl). case_decide as Hd.
      * subst ch. rewrite Elt, Hb. unfold waiting. by rewrite Ei.
      * rewrite Hf, ltb_succ by done. done.
    + intros ch Hch. rewrite flag_inserted by (lia || apply Hl). case_decide as Hd.
      * subst ch. rewrite Elt, Hb. unfold waiting. by rewrite Ei.
      * rewrite Hs, ltb_succ by done. done.
    + done.
    + by rewrite !length_insert.
  - unfold clear_callback. rewrite E.
    split; cbn [g_callback_info g_dmac_start_flag g_dmac_sync_complete_flag g_dmac_sync_status
      set_callback cb_req]; [| | | done | done].
    + intros ch Hch. rewrite callback_inserted, E by lia. case_decide as Hd.
      * subst ch. rewrite Elt, Hb, Ei. done.
      * rewrite Hc, ltb_succ by done. done.
    + intros ch Hch. rewrite Hf by done. destruct (decide (ch = i)) as [-> |];
        [unfold waiting; by rewrite Ei, !andb_false_r | by rewrite ltb_succ].
    + intros ch Hch. rewrite Hs by done. destruct (decide (ch = i)) as [-> |];
        [unfold waiting; by rewrite Ei, !andb_false_r | by rewrite ltb_succ].
  - split; [| | | done | done]; intros ch Hch.
    + rewrite Hc by done. destruct (decide (ch = i)) as [-> |]; [| by rewrite ltb_succ].
      by rewrite Ei, Elt, Z.ltb_irrefl, Hb.
    + rewrite Hf by done. destruct (decide (ch = i)) as [-> |];
        [unfold waiting; by rewrite Ei, !andb_false_r | by rewrite ltb_succ].
    + rewrite Hs by done. destruct (decide (ch = i)) as [-> |];
        [unfold waiting; by rewrite Ei, !andb_false_r | by rewrite ltb_succ].
Qed.

Lemma channel_interrupt_spec tc err i st s w : 0 <= i < 16 -> dmac_wf s -> Z.testbit st i = true ->
  served st tc err i s (dmacof w) ->
  wp (dmac_channel_interrupt call_user tc err i)
    (fun _ w' => served st tc err (i + 1) s (dmacof w') /\
       exists t, tr w' = tr w ++ t /\ channel_trace tc err s i t) w.
Proof.
  intros Hi Hwf Hb Hsv. pose proof (served_serve _ _ _ _ _ _ Hi Hwf Hb Hsv) as Hsv'.
  pose proof (sv_callback _ _ _ _ _ _ Hsv i ltac:(lia)) as Ei.
  rewrite Z.ltb_irrefl, andb_false_l, option_fmap_id in Ei. unfold serve in Hsv'.
  unfold dmac_channel_interrupt, channel_trace. cbv zeta. wp_step. wp_step. wp_step. wp_step. wp_step.
  wp_step. rewrite !int_clear_value by done.
  destruct (g_callback_info (dmacof w) !! Z.to_nat i) as [[r fn] |] eqn:E; [| exfalso].
  2: { symmetry in Ei. apply lookup_ge_None in Ei. rewrite wf_callbacks in Ei by done. lia. }
  wp_step. apply wp_some_or. eexists. split; [done |]. cbn [cb_fn cb_req].
  rewrite <- Ei. destruct fn as [[| f] |].
  - unfold bm_flush_dcache_all, dmac_call, dmac_transmit_sync_callback. wp_steps.
    rewrite !hget_hput in *. split; [exact Hsv' |]. trace_simpl.
    eexists. split; [done |]. eexists. split; [done |]. by eexists.
  - unfold bm_flush_dcache_all, dmac_call. wp_step. wp_step. wp_step. wp_apply Hcall.
    intros [] w1 (Hd & t & Ht & HC). wp_steps. cbn [glob tr] in Hd, Ht. rewrite hget_hput, Hd.
    split; [exact Hsv' |]. rewrite Ht. trace_simpl.
    eexists. split; [done |]. eexists. split; [done |]. by eexists _, _.
  - wp_steps. split; [exact Hsv' |]. trace_simpl. eexists. split; [done |]. by eexists.
Qed.

(** The loop over the channels. *)
Definition pending_below (st : Z) (k : Z) : list Z := filter (fun i => Z.testbit st i = true) (seqZ 0 k).

Lemma pending_below_succ st k : 0 <= k ->
  pending_below st (k + 1) = pending_below st k ++ if Z.testbit st k then [k] else [].
Proof.
  intros Hk. unfold pending_below. rewrite seqZ_app, filter_app by lia. f_equal.
  rewrite Z.add_0_l, (seqZ_cons k 1) by lia. change (seqZ (Z.succ k) (Z.pred 1)) with (@nil Z).
  rewrite filter_cons. by destruct (Z.testbit st k).
Qed.

Lemma served_0 st tc err s : dmac_wf s -> served st tc err 0 s s.
Proof.
  intros Hwf. split; [| | | done | by split; apply Hwf]; intros ch Hch.
  - replace (ch <? 0) with false by lia. by rewrite andb_false_l, option_fmap_id.
  - by replace (ch <? 0) with false by lia.
  - by replace (ch <? 0) with false by lia.
Qed.

(** the interrupt handler serves exactly the channels whose interrupt is
    pending, in order.  For each it clears the two interrupt bits of that
    channel alone and calls the registered callback once, with its request
    and the outcome (success when only the completion bit is set, failure
    otherwise), and unregisters it; a waiting synchronous transfer finds its
    own flag and status.  No other channel's entry changes. *)
Theorem dmac_interrupt_serves w : dmac_wf (dmacof w) ->
  wp (bm_dmac_interrupt_handle call_user)
    (fun r w' => r = BM_OK /\ exists st err tc ts,
       served st tc err 16 (dmacof w) (dmacof w') /\
       tr w' = tr w ++ [Rd DMAC_INT_1 st; Rd DMAC_INT_ERR_1 err; Rd DMAC_INT_TC_1 tc] ++ concat ts /\
       Forall2 (channel_trace tc err (dmacof w)) (pending_below st 16) ts) w.
Proof.
  intros Hwf. unfold bm_dmac_interrupt_handle. wp_step. wp_step. rename v into st.
  wp_step. wp_step. rename v into err. wp_step. wp_step. rename v into tc. wp_step.
  eapply wp_mono. 1: apply (wp_for_up (fun k w' => exists ts, 0 <= k /\
      served st tc err k (dmacof w) (dmacof w') /\
      tr w' = tr w ++ [Rd DMAC_INT_1 st; Rd DMAC_INT_ERR_1 err; Rd DMAC_INT_TC_1 tc] ++ concat ts /\
      Forall2 (channel_trace tc err (dmacof w)) (pending_below st k) ts)).
  - exists []. cbn [glob tr]. split; [done |]. split; [by apply served_0 |]. trace_simpl. done.
  - intros i w1 Hi (ts & H0 & Hsv & Ht & HF). rewrite pending_bit by lia.
    destruct (Z.testbit st i) eqn:Eb.
    + cbn [when]. wp_apply (channel_interrupt_spec tc err i st (dmacof w)); [lia | done | done | done |].
      intros [] w2 (Hsv2 & t & Ht2 & HC). exists (ts ++ [t]). split; [lia |]. split; [done |].
      rewrite pending_below_succ, Eb by lia. split.
      * rewrite Ht2, Ht, concat_app, <- !app_assoc. simpl. by rewrite app_nil_r.
      * by apply Forall2_app; [| constructor].
    + cbn [when]. apply wp_ret. exists ts. split; [lia |]. split; [by apply served_skip |].
      rewrite pending_below_succ, Eb, app_nil_r by lia. done.
  - cbv beta. intros [] w1 (ts & _ & Hsv & Ht & HF). apply wp_ret. split; [done |].
    by exists st, err, tc, ts.
Qed.
End Interrupt.

(** ** Transfers *)
Definition dmac_lo : Z := DMAC_BASE_ADDR.
Definition dmac_hi : Z := DMAC_BASE_ADDR + 0x1000.

(** From [w] to [w'] the DMA's registers got exactly the writes [ws]. *)
Definition dmac_writes {G D} (ws : list (Z * Z)) (w w' : world G D) : Prop :=
  exists t, tr w' = tr w ++ t /\ writes_in dmac_lo dmac_hi t = ws.

Lemma dmac_writes_trans {G D} ws ws' (w w1 w2 : world G D) :
  dmac_writes ws w w1 -> dmac_writes ws' w1 w2 -> dmac_writes (ws ++ ws') w w2.
Proof.
  intros (t & Ht & <-) (t' & Ht' & <-). exists (t ++ t'). rewrite Ht', Ht, app_assoc.
  split; [done | apply writes_in_app].
Qed.

Ltac dmac_unfold :=
  unfold dmac_lo, dmac_hi, DMAC_INT_TC_CLR, DMAC_INT_ERR_CLR, DMAC_ITC_MASK_INT_1, DMAC_IE_MASK_INT_1,
    DMAC_SRC_ADDR_L, DMAC_DEST_ADDR_L, DMAC_LLI_ADDR, DMAC_CONTROL_ADDR, DMAC_CONFIG_ADDR,
    DMAC_G_EN, DMAC_EN_CH_STATUS, DMAC_BASE_ADDR in *.

(** Channels a transfer may use. *)
Definition usable (present : list bool) (started : list Z) (st : Z) (k : nat) : Prop :=
  present !! k = Some true /\ started !! k = Some 0 /\ Z.testbit st (Z.of_nat k) = false.

Lemma first_idle_spec present started st i ch : 0 <= i ->
  first_idle present started st i = Some ch ->
  exists k, ch = i + Z.of_nat k /\ present !! k = Some true /\ started !! k = Some 0 /\
    Z.testbit st (i + Z.of_nat k) = false.
Proof.
  revert started i. induction present as [| e present IH]; intros [| f started] i Hi H; try done.
  simpl in H. rewrite pending_bit in H by done.
  assert (first_idle present started st (i + 1) = Some ch -> exists k, ch = i + Z.of_nat k /\
    (e :: present) !! k = Some true /\ (f :: started) !! k = Some 0 /\
    Z.testbit st (i + Z.of_nat k) = false) as Hrec.
  { intros H'. apply IH in H' as (k & -> & Hp & Hf & Hb); [| lia]. exists (S k).
    replace (i + Z.of_nat (S k)) with (i + 1 + Z.of_nat k) by lia. done. }
  destruct e; simpl in H; [| auto]. unfold ctrue in H. destruct (Z.eqb_spec f 0) as [-> |];
    simpl in H; [| auto]. destruct (Z.testbit st i) eqn:Eb; simpl in H; [auto |].
  injection H as <-. exists 0%nat. rewrite Z.add_0_r. done.
Qed.

Lemma first_idle_least present started st i k : 0 <= i -> usable present started st k -> i = 0 ->
  exists ch, first_idle present started st i = Some ch /\ ch <= Z.of_nat k.
Proof.
  intros Hi Hu ->. clear Hi.
  assert (forall present started i k, 0 <= i -> present !! k = Some true -> started !! k = Some 0 ->
    Z.testbit st (i + Z.of_nat k) = false ->
    exists ch, first_idle present started st i = Some ch /\ ch <= i + Z.of_nat k) as Hall.
  { clear. intros present. induction present as [| e present IH]; intros [| f started] i k Hi Hp Hf Hb;
      try done. simpl. rewrite pending_bit by done. destruct k as [| k].
    - simpl in Hp, Hf. simplify_eq. rewrite Z.add_0_r in Hb. rewrite Hb. simpl. exists i.
      split; [done | lia].
    - destruct (IH started (i + 1) k) as (ch & Hch & Hle); [lia | done | done | |].
      { by replace (i + 1 + Z.of_nat k) with (i + Z.of_nat (S k)) by lia. }
      destruct (negb e || ctrue f); [exists ch; split; [done | lia] |].
      destruct (negb (Z.testbit st i)); [exists i; split; [done | lia] |].
      exists ch. split; [done | lia]. }
  destruct Hu as (Hp & Hf & Hb). by apply (Hall present started 0 k).
Qed.

Section Transfers.
Context {G D : Type} `{MD : Machine D} `{HS : !Has G dmac} `{OS : !Os G D}.
Context `{OL : !OsLaws G D dmac (outside dmac_lo dmac_hi)}.
Context `{XF : Xfer} `{DM : DdrMap} `{DC : DmacConfig}.
Implicit Types (w : world G D).

(** Nothing of the driver's happened. *)
Definition silent (w w' : world G D) : Prop := dmacof w' = dmacof w /\ dmac_writes [] w w'.

Lemma quiet_silent {A} (m : M G D A) (Q : A -> world G D -> Prop) w :
  quiet dmac (outside dmac_lo dmac_hi) m -> (forall a w', silent w w' -> Q a w') -> wp m Q w.
Proof.
  intros Hm HQ. eapply wp_mono; [apply Hm |]. cbv beta. intros a w' (Hd & t & Ht & HP).
  apply HQ. split; [done |]. exists t. split; [done |]. by apply writes_in_outside.
Qed.

Lemma silent_refl w : silent w w.
Proof. split; [done |]. exists []. by rewrite app_nil_r. Qed.

Lemma silent_trans w1 w2 w3 : silent w1 w2 -> silent w2 w3 -> silent w1 w3.
Proof.
  intros [H1 W1] [H2 W2]. split; [congruence |]. apply (dmac_writes_trans [] [] _ _ _ W1 W2).
Qed.

Lemma silent_writes ws w1 w2 w3 : silent w1 w2 -> dmac_writes ws w2 w3 -> dmac_writes ws w1 w3.
Proof. intros [_ W1] W2. apply (dmac_writes_trans [] ws _ _ _ W1 W2). Qed.

Lemma dmac_intid_shared : shared DMAC_INTID.
Proof. unfold shared, DMAC_INTID, MIN_SPI_ID, MAX_INT_NUM. lia. Qed.

(** Reads outside the DMA's block. *)
Lemma lp_addr off : 0 <= off < 0x1000 -> u32 (LP_SUBSYS_CSR_BASE_ADDR + off) = 0x871d000 + off.
Proof. intros H. apply wrap_id. unfold fits, LP_SUBSYS_CSR_BASE_ADDR. lia. Qed.

Lemma lp_outside off v : 0 <= off < 0x1000 ->
  outside dmac_lo dmac_hi (Rd (u32 (LP_SUBSYS_CSR_BASE_ADDR + off)) v).
Proof. intros H. rewrite lp_addr by done. right. dmac_unfold. lia. Qed.

Lemma relative_addr_spec a type w :
  wp (bm_dmac_get_ddr_relative_addr a type)
    (fun r w' => silent w w' /\ exists e s, r = ddr_relative_addr e s a type) w.
Proof.
  unfold bm_dmac_get_ddr_relative_addr, bm_lp_subsys_reg_read, csr_reg_read. cbn [negb].
  wp_steps. split; [| by eexists _, _]. split; [done |]. eexists. trace_simpl. split; [done |].
  apply writes_in_outside. apply Forall_cons_2; [| apply Forall_cons_2; [| constructor]];
    apply lp_outside; unfold LPSC_ADDR_SEL, LPSC_ADDR_EXTEND1; lia.
Qed.

Lemma req_sel_spec id v w : 0 <= id < 32 ->
  wp (bm_lp_subsys_reg_write (DMAC_REQ_SEL0_ADDR id) v) (fun _ w' => silent w w') w.
Proof.
  intros Hid. unfold bm_lp_subsys_reg_write, csr_reg_write, DMAC_REQ_SEL0_ADDR.
  rewrite lp_addr by lia. wp_steps. split; [done |]. eexists. split; [done |].
  apply writes_in_outside. constructor; [| done]. dmac_unfold. simpl. lia.
Qed.

Lemma peripheral_id_range r : 0 <= r -> 0 <= DMAC_PERIPHERAL_ID r < 32.
Proof.
  intros H. unfold DMAC_PERIPHERAL_ID. destruct (Z.ltb_spec 31 r); [| lia].
  apply Z.mod_pos_bound. lia.
Qed.

(** The address a channel is given for one side. *)
Definition programmed (relative : bool) (a type r : Z) : Prop :=
  if relative then exists e s, r = ddr_relative_addr e s a type else r = a.

(** The writes that set a channel up, in order. *)
Definition setup_writes (ch : Z) (info : dmac_reg_info_s) (ws : list (Z * Z)) : Prop :=
  exists x y src dest itc ie,
    programmed ((bf_get 13 3 (dmac_cmconfig info) =? 0) || (bf_get 13 3 (dmac_cmconfig info) =? 1))
      (l_src_addr info) 0 src /\
    programmed ((bf_get 13 3 (dmac_cmconfig info) =? 0) || (bf_get 13 3 (dmac_cmconfig info) =? 2))
      (l_dest_addr info) 1 dest /\
    ws = [(DMAC_INT_TC_CLR, u32 (bf_set 0 16 (Z.shiftl 1 ch) x));
          (DMAC_INT_ERR_CLR, u32 (bf_set 0 16 (Z.shiftl 1 ch) y));
          (DMAC_SRC_ADDR_L ch, u32 src); (DMAC_DEST_ADDR_L ch, u32 dest);
          (DMAC_ITC_MASK_INT_1, u32 (Z.lor itc (Z.shiftl 1 ch)));
          (DMAC_IE_MASK_INT_1, u32 (Z.lor ie (Z.shiftl 1 ch)));
          (DMAC_LLI_ADDR ch, u32 (dmac_cmlli info));
          (DMAC_CONTROL_ADDR ch, u32 (dmac_cmcontrol info));
          (DMAC_CONFIG_ADDR ch, u32 (dmac_cmconfig info))].

Lemma find_idle_spec w :
  wp find_idle_channel (fun ch w' => dmac_writes [] w w' /\
    (ch = BM_FAIL /\ dmacof w' = dmacof w \/
     exists st k, ch = Z.of_nat k /\ usable g_dma_exist_array (g_dmac_start_flag (dmacof w)) (bf_get 0 16 st) k /\
       dmacof w' = set_start ch 1 (dmacof w))) w.
Proof.
  unfold find_idle_channel. wp_step. apply quiet_silent; [apply ol_sem_down_timeout |].
  intros ret w1 S1. destruct (negb (ret =? OSAL_SUCCESS)).
  { apply wp_ret. split; [apply S1 | left; split; [done | apply S1]]. }
  wp_step. wp_step. wp_step. wp_step. rename v into st.
  assert (dmac_writes [] w (World (glob w1) d (tr w1 ++ [Rd DMAC_EN_CH_STATUS st]))) as W.
  { apply (silent_writes [] w w1); [done |]. by exists [Rd DMAC_EN_CH_STATUS st]. }
  destruct S1 as [Hd _]. rewrite Hd.
  destruct (first_idle _ _ _ 0) as [ch |] eqn:E.
  - apply first_idle_spec in E as (k & Hk & Hp & Hf & Hb); [| lia]. rewrite Z.add_0_l in Hk, Hb. subst ch.
    wp_step. wp_step. wp_step. apply quiet_silent; [apply ol_sem_up |]. intros [] w2 [Hd2 W2].
    apply wp_ret. cbn [glob] in Hd2. rewrite hget_hput, Hd in Hd2. split.
    + refine (dmac_writes_trans [] [] _ _ _ _ W2). exact W.
    + right. exists st, k. done.
  - wp_step. apply quiet_silent; [apply ol_sem_up |]. intros [] w2 [Hd2 W2]. apply wp_ret.
    split; [exact (dmac_writes_trans [] [] _ _ _ W W2) | left; split; [done | by rewrite Hd2]].
Qed.

(** Register accesses of the driver itself: the globals stay. *)
Definition programs (ws : list (Z * Z)) (w w' : world G D) : Prop :=
  glob w' = glob w /\ dmac_writes ws w w'.

Lemma int_clean_spec ch w :
  wp (bm_dmac_transmission_int_clean ch) (fun _ w' => exists x y,
    programs [(DMAC_INT_TC_CLR, u32 (bf_set 0 16 (Z.shiftl 1 ch) x));
              (DMAC_INT_ERR_CLR, u32 (bf_set 0 16 (Z.shiftl 1 ch) y))] w w') w.
Proof.
  unfold bm_dmac_transmission_int_clean. wp_steps. exists x, x0. split; [done |].
  eexists. trace_simpl. split; [done |]. dmac_unfold. by writes_in.
Qed.

Lemma programmed_spec (relative : bool) a type w :
  wp (if relative then bm_dmac_get_ddr_relative_addr a type else mret a)
    (fun r w' => silent w w' /\ programmed relative a type r) w.
Proof. destruct relative; [apply relative_addr_spec | by apply wp_ret; split; [apply silent_refl |]]. Qed.

Lemma cmaddr_spec ch info w : 0 <= ch < 16 -> 0 <= l_src_req info -> 0 <= l_dest_req info ->
  wp (bm_dmac_cmaddr_config ch info) (fun _ w' => dmacof w' = dmacof w /\ exists src dest,
    programmed ((bf_get 13 3 (dmac_cmconfig info) =? 0) || (bf_get 13 3 (dmac_cmconfig info) =? 1))
      (l_src_addr info) 0 src /\
    programmed ((bf_get 13 3 (dmac_cmconfig info) =? 0) || (bf_get 13 3 (dmac_cmconfig info) =? 2))
      (l_dest_addr info) 1 dest /\
    dmac_writes [(DMAC_SRC_ADDR_L ch, u32 src); (DMAC_DEST_ADDR_L ch, u32 dest)] w w') w.
Proof.
  intros Hch Hs Hd. unfold bm_dmac_cmaddr_config.
  wp_step. wp_apply req_sel_spec; [by apply peripheral_id_range |]. intros _ w1 S1.
  wp_step. wp_apply req_sel_spec; [by apply peripheral_id_range |]. intros _ w2 S2. cbv zeta.
  wp_step. wp_apply programmed_spec. intros src w3 [S3 Hsrc].
  wp_step. wp_apply programmed_spec. intros dest w4 [S4 Hdest].
  pose proof (silent_trans _ _ _ (silent_trans _ _ _ S1 S2) (silent_trans _ _ _ S3 S4)) as S.
  wp_steps. split; [apply S |]. exists src, dest. split; [done |]. split; [done |].
  apply (silent_writes _ _ _ _ S). eexists. cbn [tr]. trace_simpl. split; [done |].
  dmac_unfold. by writes_in.
Qed.

Lemma int_switch_spec ch w :
  wp (bm_dmac_channel_int_switch ch true) (fun _ w' => exists itc ie,
    programs [(DMAC_ITC_MASK_INT_1, u32 (Z.lor itc (Z.shiftl 1 ch)));
              (DMAC_IE_MASK_INT_1, u32 (Z.lor ie (Z.shiftl 1 ch)))] w w') w.
Proof.
  unfold bm_dmac_channel_int_switch. wp_steps. exists v, v0. split; [done |].
  eexists. trace_simpl. split; [done |]. dmac_unfold. by writes_in.
Qed.

Lemma usable_range flags st k : usable g_dma_exist_array flags st k -> (k < 16)%nat.
Proof. intros (Hp & _). apply lookup_lt_Some in Hp. by rewrite dma_exist_length in Hp. Qed.

Lemma channel_config_spec info w : 0 <= l_src_req info -> 0 <= l_dest_req info ->
  wp (bm_dmac_channel_config info) (fun ch w' =>
    (ch = BM_FAIL /\ dmac_writes [] w w' /\ dmacof w' = dmacof w) \/
    exists st k ws, ch = Z.of_nat k /\ (k < 16)%nat /\
      usable g_dma_exist_array (g_dmac_start_flag (dmacof w)) (bf_get 0 16 st) k /\
      dmacof w' = set_start ch 1 (dmacof w) /\ setup_writes ch info ws /\ dmac_writes ws w w') w.
Proof.
  intros Hs Hd. unfold bm_dmac_channel_config. wp_step. wp_apply find_idle_spec.
  intros ch w1 [W1 [[-> D1] | (st & k & -> & Hu & D1)]].
  { apply wp_ret. left. done. }
  pose proof (usable_range _ _ _ Hu) as Hk. unfold BM_FAIL. replace (Z.of_nat k =? -1) with false by lia.
  wp_step. wp_apply int_clean_spec. intros [] w2 (x & y & G2 & W2).
  wp_step. wp_apply cmaddr_spec; [lia | done | done |]. intros [] w3 (D3 & src & dest & Hsrc & Hdest & W3).
  wp_step. wp_apply int_switch_spec. intros [] w4 (itc & ie & G4 & W4). wp_steps.
  right. exists st, k. eexists. split; [done |]. split; [done |]. split; [done |].
  split; [by rewrite G4, D3, G2, D1 |]. split.
  { exists x, y, src, dest, itc, ie. split; [done |]. split; [done |]. reflexivity. }
  pose proof (dmac_writes_trans _ _ _ _ _ W1 (dmac_writes_trans _ _ _ _ _ W2
    (dmac_writes_trans _ _ _ _ _ W3 W4))) as (t & Ht & HW).
  eexists. cbn [tr]. rewrite Ht. trace_simpl. split; [done |]. rewrite writes_in_app, HW.
  dmac_unfold. by writes_in.
Qed.

Lemma flush_cache_quiet cfg : quiet (G := G) dmac (outside dmac_lo dmac_hi) (bm_dmac_flush_cache cfg).
Proof.
  unfold bm_dmac_flush_cache, bm_flush_dcache_range.
  quiet_steps; repeat (case_match; quiet_steps); done.
Qed.

Lemma launch_spec ch r cb cfg w : 0 <= ch < 16 ->
  wp (dmac_launch ch r cb cfg) (fun _ w' =>
    dmacof w' = set_callback ch (CallbackInfo r (Some cb)) (dmacof w) /\
    exists x, dmac_writes [(DMAC_CONFIG_ADDR ch, u32 (bf_set 0 1 1 x))] w w') w.
Proof.
  intros Hch. unfold dmac_launch, bm_get_coreid, bm_dmac_transmit_start. wp_steps.
  apply quiet_silent; [apply ol_irq_set_affinity, dmac_intid_shared |]. intros _ w1 S1. wp_step.
  apply quiet_silent; [apply ol_irq_enable, dmac_intid_shared |]. intros [] w2 S2. wp_step.
  apply quiet_silent; [apply flush_cache_quiet |]. intros [] w3 S3. wp_steps.
  destruct (silent_trans _ _ _ S1 (silent_trans _ _ _ S2 S3)) as [Hd (t & Ht & HW)].
  cbn [glob tr] in Hd, Ht. rewrite Hd, hget_hput. split; [done |]. exists x. eexists. cbn [tr].
  rewrite Ht. trace_simpl. split; [done |]. dmac_unfold. writes_in. rewrite HW. by writes_in.
Qed.

Lemma init_check_spec w :
  wp bm_dmac_init_check (fun r w' => glob w' = glob w /\ dmac_writes [] w w' /\
    (r = BM_OK \/ r = BM_FAIL)) w.
Proof.
  unfold bm_dmac_init_check, dmac_clock_status, bm_lp_subsys_reg_read, csr_reg_read. cbn [negb].
  wp_steps. cbn [snd default]. destruct (negb _); wp_steps.
  - split; [done |]. split; [| by right]. eexists. trace_simpl. split; [done |]. by writes_in.
  - destruct (negb _); apply wp_ret; (split; [done |]; split; [| auto]); eexists; cbn [tr];
      trace_simpl; (split; [done |]); by writes_in.
Qed.

(** The flag that was raised to take a channel is what it was. *)
Lemma start_restored k s : g_dmac_start_flag s !! k = Some 0 ->
  g_dmac_start_flag (set_start (Z.of_nat k) 0 (set_start (Z.of_nat k) 1 s)) = g_dmac_start_flag s.
Proof.
  intros H. cbn [g_dmac_start_flag set_start]. rewrite Nat2Z.id, list_insert_insert_eq.
  by apply list_insert_id.
Qed.

Lemma bad_config_src cfg : 0 <= req cfg -> 0 <= l_src_req (bm_dmac_transmit_config cfg) /\
  0 <= l_dest_req (bm_dmac_transmit_config cfg).
Proof.
  intros H. unfold bm_dmac_transmit_config. destruct (bm_dmac_common_template cfg) as [[??]?].
  repeat case_match; simpl; lia.
Qed.

(** [bm_dmac_transmit_async] on every branch.  A bad configuration or a
    NULL callback has no effect; a controller that is off or without an idle
    channel changes nothing of the driver's state.  Otherwise a channel that
    is present, not started and idle is programmed in the fixed order and,
    if none is registered on it, the callback is registered and the channel
    is enabled, last of all.  If a callback is still registered (a transfer
    has finished there and its interrupt has not been served, as when a
    client's callback starts the next transfer) the call fails and leaves the
    channel marked as started, so that no later transfer can take it. *)
Theorem dmac_async_outcomes cfg cb w : 0 <= req cfg -> dmac_wf (dmacof w) ->
  wp (bm_dmac_transmit_async (Some cfg) cb) (fun r w' =>
    let s := dmacof w in let s' := dmacof w' in
    (r = BM_FAIL /\ s' = s /\ dmac_writes [] w w' /\ (~ (valid_transfer cfg /\ cb <> NULL) -> w' = w)) \/
    (valid_transfer cfg /\ cb <> NULL /\ exists st k ws info,
       usable g_dma_exist_array (g_dmac_start_flag s) st k /\
       setup_writes (Z.of_nat k) (bm_dmac_transmit_config cfg) ws /\
       g_callback_info s !! k = Some info /\
       match cb_fn info with
       | None => r = BM_OK /\ exists x,
           dmac_writes (ws ++ [(DMAC_CONFIG_ADDR (Z.of_nat k), u32 (bf_set 0 1 1 x))]) w w' /\
           g_callback_info s' = <[k := CallbackInfo (req cfg) (Some (UserCallback cb))]> (g_callback_info s) /\
           g_dmac_start_flag s' = g_dmac_start_flag s
       | Some _ => r = BM_FAIL /\ dmac_writes ws w w' /\ s' = set_start (Z.of_nat k) 1 s /\
           forall st', ~ usable g_dma_exist_array (g_dmac_start_flag s') st' k
       end)) w.
Proof.
  intros Hreq Hwf. cbv zeta. unfold bm_dmac_transmit_async. wp_step. wp_apply wp_cfg_check; [done |].
  intros bad w0 [-> Hbad]. assert (forall v, v = BM_FAIL -> ctrue v = true) as Hf by (by intros v ->).
  assert (dmac_writes [] w w) as Wid by (exists []; by rewrite app_nil_r).
  destruct Hbad as [[-> Hv] | [-> Hv]].
  2: { apply wp_ret. left. done. }
  change (ctrue BM_OK) with false. cbn [orb]. destruct (Z.eqb_spec cb NULL) as [-> | Hcb].
  { apply wp_ret. left. done. }
  wp_step. wp_apply init_check_spec. intros ret w1 (G1 & W1 & Hret).
  destruct Hret as [-> | ->].
  2: { apply wp_ret. left. rewrite G1. split_and!; try done. tauto. }
  change (ctrue BM_OK) with false. cbn iota. wp_step. apply wp_some_or. eexists. split; [done |].
  destruct (bad_config_src cfg Hreq) as [Hs Hd].
  wp_step. wp_apply channel_config_spec; [done | done |]. rewrite G1.
  intros ch w2 [(-> & W2 & D2) | (st & k & ws & -> & Hk & Hu & D2 & Hws & W2)].
  { apply wp_ret. left. split; [done |]. split; [done |].
    split; [exact (dmac_writes_trans [] [] _ _ _ W1 W2) | tauto]. }
  unfold BM_FAIL, DMAC_CHANNEL_CNT. replace (_ || _) with false by lia. wp_steps. rewrite D2, Nat2Z.id.
  pose proof (dmac_writes_trans [] ws _ _ _ W1 W2) as W.
  destruct (lookup_lt_is_Some_2 (g_callback_info (dmacof w)) k) as [info Hinfo];
    [rewrite wf_callbacks by done; lia |].
  apply wp_some_or. exists info. split; [done |]. cbv beta.
  destruct (cb_fn info) as [c |] eqn:Efn.
  - apply wp_ret. right. split; [done |]. split; [done |]. exists (bf_get 0 16 st), k, ws, info.
    rewrite Efn. split_and!; try done. intros st' (_ & Hz & _). rewrite D2 in Hz.
    cbn [g_dmac_start_flag set_start] in Hz. rewrite Nat2Z.id in Hz.
    rewrite list_lookup_insert_eq in Hz by (rewrite wf_start by done; lia). done.
  - wp_step. wp_apply launch_spec; [lia |]. intros [] w3 (D3 & x & W3). wp_steps. rewrite hget_hput, D3, D2.
    right. split; [done |]. split; [done |]. exists (bf_get 0 16 st), k, ws, info. rewrite Efn.
    split_and!; try done. exists x. split; [exact (dmac_writes_trans _ _ _ _ _ W W3) |].
    split; [cbn [g_callback_info set_callback set_start]; by rewrite Nat2Z.id |].
    apply (start_restored k). apply Hu.
Qed.

(** What the recorded status of a channel is reported as. *)
Definition verdict (status : Z) : Z := if status =? DMAC_TRANSMIT_OK then BM_OK else BM_FAIL.

(** A completion that is already recorded is taken without waiting: no
    interrupt, no counter and no fuel are needed. *)
Lemma wait_stale fuel preempt k tw status w : (k < 16)%nat ->
  g_dmac_sync_complete_flag (dmacof w) !! k = Some 1 ->
  g_dmac_sync_status (dmacof w) !! k = Some status ->
  wp (bm_dmac_wait_complete fuel preempt (Z.of_nat k) tw) (fun r w' =>
    r = verdict status /\ dmacof w' = set_complete (Z.of_nat k) 0 (dmacof w) /\ tr w' = tr w) w.
Proof.
  intros Hk Hc Hs. unfold bm_dmac_wait_complete, DMAC_CHANNEL_CNT.
  replace (_ || _) with false by lia. cbv zeta. wp_step. cbn [loop]. unfold wait_round. wp_steps.
  apply wp_some_or. exists 1. rewrite Nat2Z.id. split; [done |]. cbn [Z.eqb Pos.eqb]. wp_steps.
  cbn [negb]. wp_steps. rewrite hget_hput. cbn [g_dmac_sync_status set_complete].
  apply wp_some_or. exists status. split; [done |].
  unfold verdict. destruct (status =? _); apply wp_ret; cbn [glob tr]; by rewrite hget_hput.
Qed.

(** a synchronous transfer that timed out leaves its completion behind.
    When the transfer completes after all, the interrupt raises the channel's
    completion flag, and nothing clears it: if the free channels have such
    flags, [bm_dmac_transmit_sync] starts the new transfer and returns the
    old one's outcome at once, without waiting for anything (whatever
    [preempt] and the counter do, no round of the waiting loop is run). *)
Theorem dmac_sync_stale_completion fuel preempt cfg tw w :
  0 <= req cfg -> dmac_wf (dmacof w) -> 0 <= tw ->
  (forall k, g_dmac_start_flag (dmacof w) !! k = Some 0 ->
     g_dmac_sync_complete_flag (dmacof w) !! k = Some 1) ->
  wp (bm_dmac_transmit_sync fuel preempt (Some cfg) tw) (fun r w' =>
    let s := dmacof w in
    (r = BM_FAIL /\ dmac_writes [] w w') \/
    (valid_transfer cfg /\ exists st k ws x status,
       usable g_dma_exist_array (g_dmac_start_flag s) st k /\
       setup_writes (Z.of_nat k) (bm_dmac_transmit_config cfg) ws /\
       dmac_writes (ws ++ [(DMAC_CONFIG_ADDR (Z.of_nat k), u32 (bf_set 0 1 1 x))]) w w' /\
       g_dmac_sync_status s !! k = Some status /\ r = verdict status /\
       g_dmac_start_flag (dmacof w') = g_dmac_start_flag s)) w.
Proof.
  intros Hreq Hwf Htw Hstale. cbv zeta. unfold bm_dmac_transmit_sync. wp_step. wp_apply wp_cfg_check; [done |].
  intros bad w0 [-> Hbad]. assert (dmac_writes [] w w) as Wid by (exists []; by rewrite app_nil_r).
  destruct Hbad as [[-> Hv] | [-> Hv]]; [| by apply wp_ret; left].
  change (ctrue BM_OK) with false. cbn iota. wp_step. wp_apply init_check_spec.
  intros ret w1 (G1 & W1 & [-> | ->]); [| by apply wp_ret; left].
  change (ctrue BM_OK) with false. cbn iota. replace (tw <? 0) with false by lia. cbn [andb].
  wp_step. apply wp_some_or. eexists. split; [done |].
  destruct (bad_config_src cfg Hreq) as [Hs Hd].
  wp_step. wp_apply channel_config_spec; [done | done |]. rewrite G1.
  intros ch w2 [(-> & W2 & D2) | (st & k & ws & -> & Hk & Hu & D2 & Hws & W2)].
  { apply wp_ret. left. split; [done |]. exact (dmac_writes_trans [] [] _ _ _ W1 W2). }
  unfold BM_FAIL. replace (Z.of_nat k =? -1) with false by lia. wp_step.
  wp_apply launch_spec; [lia |]. intros [] w3 (D3 & x & W3).
  destruct (lookup_lt_is_Some_2 (g_dmac_sync_status (dmacof w)) k) as [status Hstatus];
    [rewrite wf_status by done; lia |].
  wp_step. wp_apply (wait_stale fuel preempt k tw status); [done | | |].
  { rewrite D3, D2. apply Hstale, Hu. }
  { rewrite D3, D2. done. }
  intros r w4 (-> & D4 & T4). unfold bm_flush_dcache_all. wp_steps.
  right. split; [done |]. exists (bf_get 0 16 st), k, ws, x, status. split; [done |]. split; [done |].
  split; [| split; [done |]; split; [done |]].
  - pose proof (dmac_writes_trans _ _ _ _ _ W1 (dmac_writes_trans _ _ _ _ _ W2 W3)) as (t & Ht & HW).
    eexists. cbn [tr]. rewrite T4, Ht. trace_simpl. split; [done |]. rewrite writes_in_app, HW.
    writes_in. by rewrite app_nil_r.
  - rewrite hget_hput, D4, D3, D2. apply (start_restored k). apply Hu.
Qed.

(** *** The waiting loop *)
Section Waiting.
Context (fuel : nat) (preempt : M G D unit) (k : nat) (Hk : (k < 16)%nat).
(** A delay of one microsecond ends. *)
Context (Hdelay : forall w, wp (udelay fuel 1) (fun _ w' => glob w' = glob w) w).
(** Interrupts keep the driver's state well-formed. *)
Context (step : dmac -> dmac -> Prop) (Hstep : forall s s', dmac_wf s -> step s s' -> dmac_wf s').
Context (Hpre : forall w, dmac_wf (dmacof w) -> wp preempt (fun _ w' => step (dmacof w) (dmacof w')) w).

Definition flag_of (s : dmac) : option Z := g_dmac_sync_complete_flag s !! k.

(** Some rounds of interrupts that left the flag down each time it was read. *)
Inductive waited : nat -> dmac -> dmac -> Prop :=
| waited_0 s : waited 0 s s
| waited_S n s s1 s' : flag_of s <> Some 1 -> step s s1 -> waited n s1 s' -> waited (S n) s s'.

Lemma waited_wf n s s' : dmac_wf s -> waited n s s' -> dmac_wf s'.
Proof. intros Hwf H. induction H; eauto. Qed.

Lemma wait_loop_spec n w : dmac_wf (dmacof w) ->
  wp (loop (S n) (wait_round fuel preempt (Z.of_nat k)) (Z.of_nat n)) (fun b w' =>
    if b : bool then exists m s1, (m <= n)%nat /\ waited m (dmacof w) s1 /\ flag_of s1 = Some 1 /\
                         dmacof w' = set_complete (Z.of_nat k) 0 s1
    else waited (S n) (dmacof w) (dmacof w')) w.
Proof.
  revert w. induction n as [| n IH]; intros w Hwf; rewrite loop_S.
  all: wp_step; unfold wait_round at 1; wp_step; wp_step; wp_step; apply wp_some_or; rewrite Nat2Z.id.
  all: destruct (lookup_lt_is_Some_2 (g_dmac_sync_complete_flag (dmacof w)) k) as [f Hf];
    [rewrite wf_complete by done; lia |]; exists f; (split; [done |]).
  all: destruct (Z.eqb_spec f 1) as [-> | Hne].
  1, 3: wp_steps; cbn iota; wp_steps; rewrite hget_hput; exists 0%nat, (dmacof w);
    (split; [lia |]); (split; [constructor |]); done.
  all: wp_step; wp_apply Hdelay; intros [] w1 G1; wp_step; wp_apply Hpre;
    [by rewrite G1 |]; rewrite G1; intros [] w2 S2.
  - cbn [Z.of_nat Z.eqb]. wp_steps. cbn iota. wp_steps.
    apply (waited_S _ _ (dmacof w2)); [unfold flag_of; congruence | done | constructor].
  - destruct (Z.eqb_spec (Z.of_nat (S n)) 0) as [E0 | _]; [lia |]. wp_steps.
    replace (Z.of_nat (S n) - 1) with (Z.of_nat n) by lia.
    eapply wp_mono; [apply (IH (World (glob w2) d (tr w2 ++ [Sy Dsb v]))) |].
    { cbn [glob]. by eapply Hstep. }
    cbn [glob]. intros [|] w3.
    + intros (m & s1 & Hm & HW & Hfl & Hd). exists (S m), s1. split; [lia |]. split; [| done].
      apply (waited_S _ _ (dmacof w2)); [unfold flag_of; congruence | done | done].
    + intros HW. apply (waited_S _ _ (dmacof w2)); [unfold flag_of; congruence | done | done].
Qed.
End Waiting.

(** [bm_dmac_wait_complete] always returns.  It returns the outcome that
    the interrupt recorded, at the first time its flag is seen up, and takes
    the flag down; it returns BM_TIMEOUT after exactly [time_wait] times 1000
    delays of a microsecond and one more in which the flag was never seen up.
    (The product is taken at 32 bits.) *)
Theorem dmac_wait_outcomes fuel preempt (step : dmac -> dmac -> Prop) k tw w :
  (k < 16)%nat -> dmac_wf (dmacof w) ->
  (forall w, wp (udelay fuel 1) (fun _ w' => glob w' = glob w) w) ->
  (forall s s', dmac_wf s -> step s s' -> dmac_wf s') ->
  (forall w, dmac_wf (dmacof w) -> wp preempt (fun _ w' => step (dmacof w) (dmacof w')) w) ->
  wp (bm_dmac_wait_complete fuel preempt (Z.of_nat k) tw) (fun r w' =>
    let rounds := Z.to_nat (wait_count tw) in
    (r = BM_TIMEOUT /\ waited k step (S rounds) (dmacof w) (dmacof w')) \/
    exists m s1 status, (m <= rounds)%nat /\ waited k step m (dmacof w) s1 /\
      flag_of k s1 = Some 1 /\ g_dmac_sync_status s1 !! k = Some status /\
      r = verdict status /\ dmacof w' = set_complete (Z.of_nat k) 0 s1) w.
Proof.
  intros Hk Hwf Hdelay Hstep Hpre. unfold bm_dmac_wait_complete, DMAC_CHANNEL_CNT.
  replace (_ || _) with false by lia. cbv zeta. wp_step.
  assert (wait_count tw = Z.of_nat (Z.to_nat (wait_count tw))) as E.
  { rewrite Z2Nat.id; [done |]. unfold wait_count. destruct (_ =? _); apply wrap_fits; lia. }
  rewrite E at 2. wp_apply (wait_loop_spec fuel preempt k Hk Hdelay step Hstep Hpre); [done |].
  intros [|] w1; cbn [negb].
  - intros (m & s1 & Hm & HW & Hfl & Hd). wp_steps. rewrite Hd, Nat2Z.id.
    pose proof (waited_wf _ _ Hstep _ _ _ Hwf HW) as Hwf1.
    destruct (lookup_lt_is_Some_2 (g_dmac_sync_status s1) k) as [status Hs];
      [rewrite wf_status by done; lia |].
    apply wp_some_or. exists status. split; [done |].
    destruct (status =? DMAC_TRANSMIT_OK) eqn:Ev; apply wp_ret; right; exists m, s1, status;
      unfold verdict; rewrite Ev; done.
  - intros HW. apply wp_ret. by left.
Qed.
End Transfers.

(** ** Witnesses

    The driver on the layer without an OS, and a controller that is on, with
    every channel idle, channel 0 completed and channel 1 failed. *)
#[local] Instance wit_segment : Xfer :=
  {| xfer_segment_start := 0x90000000; xfer_segment_end := 0x91000000 |}.
#[local] Instance wit_ddr : DdrMap := {| MMU_DDR_ADDR := 0x80000000; MMU_DDR_SIZE := 0x7fffffff |}.
#[local, refine] Instance wit_channels : DmacConfig :=
  {| g_dma_exist_array := replicate 16 true; dmac_isr := 0x1000; g_sem := 0x2000 |}.
Proof. reflexivity. Defined.

Definition dma_regs (a : Z) : Z :=
  if a =? DMAC_INT_1 then 3 else if a =? DMAC_INT_TC_1 then 1 else if a =? DMAC_INT_ERR_1 then 2
  else if a =? DMAC_G_EN then 1 else if a =? 0x871d1c4 then 2 ^ 16 else 0.
Abbreviation dma_dev := (fixed dma_regs (fun _ => 0)).
Abbreviation dma_globals := (dmac * (gic irq_fn irq_arg * osal_irqs))%type.

#[local] Instance wit_os : Os dma_globals dma_dev := osal_nonos 1.
Lemma dma_gic_settles a more : dma_regs a = 0 -> more 0 = false ->
  settles_in (D := dma_dev) 1 a more.
Proof. intros Ha Hm d. exists 0%nat. split; [lia |]. simpl. by rewrite Ha. Qed.

#[local] Instance wit_gic : GicQuiesces dma_dev 1.
Proof.
  split; [by apply dma_gic_settles |]. intros core. intros d. exists 0%nat. split; [lia |].
  cbn [after_reads m_load fixed_machine fst]. unfold dma_regs.
  repeat (case_match; [reflexivity |]). reflexivity.
Qed.

#[local] Instance wit_laws : OsLaws dma_globals dma_dev dmac (outside dmac_lo dmac_hi).
Proof.
  apply (os_laws_weaken gicd_access); [| exact (osal_nonos_laws 1)].
  intros [a v | a v | op v | m]; simpl; try done; intros H; right;
    unfold dmac_hi, DMAC_BASE_ADDR, GIC_REG_BASE_ADDR in *; lia.
Qed.

Definition dma_world (s : dmac) : world dma_globals dma_dev :=
  World (s, (gic_init, osal_init)) Fixed [].

(** One page from memory to UART2. *)
Definition page_out : bm_dmac_channel_cfg := ChannelCfg 6 0x90000000 0x8710000 4096 1.

Lemma dmac_init_wf : dmac_wf dmac_init_state.
Proof.
  split; try reflexivity. intros ch r H. apply lookup_replicate in H as [H _]. discriminate H.
Qed.

Lemma dmac_cfg_check_exact_witness :
  valid_transfer page_out /\
  wp (bm_dmac_channel_cfg_check (Some page_out)) (fun r w' => r = BM_OK) (dma_world dmac_init_state).
Proof.
  assert (valid_transfer page_out) as Hv.
  { split; [simpl; lia |]. split; [simpl; lia |]. right. left. vm_compute. auto. }
  split; [exact Hv |].
  eapply wp_mono; [apply (dmac_cfg_check_exact (Some page_out) (dma_world dmac_init_state)); simpl; lia |].
  intros r w' [_ [[-> _] | [_ Hn]]]; [reflexivity | destruct (Hn Hv)].
Defined.

Lemma transmit_config_encodes_witness :
  bf_get 0 19 (dmac_cmcontrol (bm_dmac_transmit_config (ChannelCfg 33 0x90000000 0x8752010 (2 ^ 19) 1))) = 0 /\
  bf_get 7 6 (dmac_cmconfig (bm_dmac_transmit_config (ChannelCfg 33 0x90000000 0x8752010 (2 ^ 19) 1))) = 1.
Proof.
  destruct (transmit_config_encodes (ChannelCfg 33 0x90000000 0x8752010 (2 ^ 19) 1) _
    ltac:(simpl; lia) ltac:(simpl; lia) eq_refl) as (_ & _ & _ & Hlen & _ & _ & _ & _ & Hline & _).
  split; [exact Hlen | exact Hline].
Defined.

(** Channel 0 has a client's callback at address 0x500, channel 1 a waiting transfer. *)
Definition two_pending : dmac :=
  set_callback 1 (CallbackInfo 1 (Some SyncCallback))
    (set_callback 0 (CallbackInfo 6 (Some (UserCallback 0x500))) dmac_init_state).

Lemma two_pending_wf : dmac_wf two_pending.
Proof.
  split; try reflexivity. intros ch r H. destruct ch as [| [| ch]]; simpl in H; [discriminate H | |].
  - injection H as <-. reflexivity.
  - do 14 (destruct ch as [| ch]; [discriminate H |]). discriminate H.
Qed.

Lemma dmac_interrupt_serves_witness :
  wp (bm_dmac_interrupt_handle (fun f r st => writel st f)) (fun r w' => r = BM_OK)
    (dma_world two_pending).
Proof.
  eapply wp_mono.
  - apply (dmac_interrupt_serves (fun f r st => writel st f) (fun f r st t => t = [Wr f (u32 st)])).
    + intros f r st w. apply wp_writel. intros d. split; [reflexivity |].
      exists [Wr f (u32 st)]. split; reflexivity.
    + exact two_pending_wf.
  - intros r w' [Hr _]. exact Hr.
Defined.

Lemma dmac_async_outcomes_witness :
  wp (bm_dmac_transmit_async (Some page_out) 0x500)
    (fun r w' => r = BM_OK \/ r = BM_FAIL) (dma_world dmac_init_state).
Proof.
  eapply wp_mono.
  - apply (dmac_async_outcomes page_out 0x500 (dma_world dmac_init_state));
      [simpl; lia | exact dmac_init_wf].
  - intros r w' [[Hr _] | (_ & _ & st & k & ws & info & _ & _ & _ & H)]; [right; exact Hr |].
    destruct (cb_fn info); [right | left]; apply H.
Defined.

(** Every channel completed after its transfer had timed out. *)
Definition stale : dmac :=
  Dmac (replicate 16 (CallbackInfo 0 None)) (replicate 16 0) (replicate 16 1) (replicate 16 0) 1.

Lemma dmac_sync_stale_completion_witness :
  wp (bm_dmac_transmit_sync 0 (fail NoFuel) (Some page_out) 1000)
    (fun r w' => r = BM_OK \/ r = BM_FAIL) (dma_world stale).
Proof.
  eapply wp_mono.
  - apply (dmac_sync_stale_completion 0 (fail NoFuel) page_out 1000 (dma_world stale)).
    + simpl. lia.
    + split; try reflexivity. intros ch r H. apply lookup_replicate in H as [H _]. discriminate H.
    + lia.
    + intros k H. apply lookup_replicate in H as [_ H]. apply lookup_replicate_2. exact H.
  - intros r w' [[Hr _] | (_ & st & k & ws & x & status & _ & _ & _ & _ & Hr & _)]; [right; exact Hr |].
    rewrite Hr. unfold verdict. destruct (status =? DMAC_TRANSMIT_OK); [left | right]; reflexivity.
Defined.

Lemma waited_same k m s s' : waited k eq m s s' -> s' = s.
Proof. induction 1; congruence. Qed.

Lemma dmac_wait_outcomes_witness :
  wp (bm_dmac_wait_complete 1 (mret tt) 3 1) (fun r w' => r = BM_TIMEOUT) (dma_world dmac_init_state).
Proof.
  eapply wp_mono.
  - apply (dmac_wait_outcomes (HS := _) 1 (mret tt) eq 3 1 (dma_world dmac_init_state)).
    + lia.
    + exact dmac_init_wf.
    + intros [g [] t]. vm_compute. reflexivity.
    + intros s s' Hs <-. exact Hs.
    + intros w _. apply wp_ret. reflexivity.
  - intros r w' [[Hr _] | (m & s1 & status & _ & HW & Hf & _)]; [exact Hr |].
    apply waited_same in HW. rewrite HW in Hf. discriminate Hf.
Defined.
