(* ===== verification/Serial.v ===== *)
(** * Serial: drivers whose data passes through registers of one block

    An I2C or SPI controller is a block of registers at [base]; one of them,
    at offset [dr], is the end of its receive FIFO.  [out_of off v] says what a
    write of [v] at [off] means to the outside, if anything: a value pushed
    into the transmit FIFO, a chip selected.  [sent] and [received] are the
    two streams in a trace.  [does m s mu Q]: started in the driver state [s]
    and the memory [mu], [m] ends without a fault whatever the controller
    answers, and [Q] holds of its result, the final state and memory, and what
    was sent and received; only registers of [regs] were looked at. *)
From stdpp Require Import prelude gmap list strings.
From Stdlib Require Import ZArith Lia.
From S2P Require Import Prelude Hw Common Mem.
Local Open Scope Z_scope.

(** ** Views of a trace *)
Definition sent {X} (out_of : Z -> Z -> option X) (base : Z) (t : list event) : list X :=
  omap (fun e => match e with Wr a v => out_of (a - base) v | _ => None end) t.
Definition received (dr base : Z) (t : list event) : list Z :=
  omap (fun e => match e with Rd a v => if a =? base + dr then Some v else None | _ => None end) t.

(** The registers read, as offsets into the controller's block. *)
Definition looked (base : Z) (t : list event) : list Z :=
  omap (fun e => match e with
    | Rd a _ => if (base <=? a) && (a <? base + 0x1000) then Some (a - base) else None
    | _ => None end) t.

Definition exchanged {G D X} (out_of : Z -> Z -> option X) (dr : Z) (regs : list Z) (base : Z)
    (w w' : world G D) (out : list X) (inn : list Z) : Prop :=
  exists t, tr w' = tr w ++ t /\ sent out_of base t = out /\ received dr base t = inn /\
    Forall (fun o => o ∈ regs) (looked base t).

(** The offsets of a block, and the registers that matter are in it. *)
Class InBlock (off : Z) : Prop := in_block : 0 <= off < 0x1000.
Class OutInBlock {X} (out_of : Z -> Z -> option X) : Prop :=
  out_in_block off v : off < 0 \/ 0x1000 <= off -> out_of off v = None.

Section Exchanged.
Context {X : Type} {out_of : Z -> Z -> option X} {dr : Z} {regs : list Z}.
Abbreviation exchanged := (exchanged out_of dr regs).

Lemma exchanged_refl {G D} base (w w' : world G D) : tr w' = tr w -> exchanged base w w' [] [].
Proof. intros E. exists []. by rewrite E, app_nil_r. Qed.

Lemma exchanged_trans {G D} base (w1 w2 w3 : world G D) o1 i1 o2 i2 :
  exchanged base w1 w2 o1 i1 -> exchanged base w2 w3 o2 i2 ->
  exchanged base w1 w3 (o1 ++ o2) (i1 ++ i2).
Proof.
  intros (t1 & E1 & <- & <- & L1) (t2 & E2 & <- & <- & L2). exists (t1 ++ t2).
  unfold sent, received, looked in *. rewrite E2, E1, !omap_app, app_assoc. split_and!; try done.
  by apply Forall_app.
Qed.

Lemma exchanged_outside {G D} base (w w' : world G D) t : InBlock dr -> OutInBlock out_of ->
  tr w' = tr w ++ t -> Forall (outside base (base + 0x1000)) t -> exchanged base w w' [] [].
Proof.
  unfold InBlock. intros Hdr Hout E Ho. exists t. split; [done |]. clear E.
  induction Ho as [| e t He _ (IH1 & IH2 & IH3)]; [done |].
  unfold sent, received, looked in *. cbn [omap list_omap].
  destruct e as [a v | a v | op v | m]; cbn [outside] in He; cbn [omap list_omap];
    rewrite ?(Hout (a - base)) by lia; rewrite ?IH1, ?IH2; zcases; done.
Qed.
End Exchanged.

(** ** How long a register takes to settle *)
Section Settle.
Context {D : Type} `{MD : Machine D}.

(** The looks at [addr] until it is ready, at most [n]. *)
Fixpoint reads_until (n : nat) (addr : Z) (more : Z -> bool) (d : D) : nat :=
  match n with
  | O => O
  | S n' => if more (u32 (fst (m_load addr d)))
            then S (reads_until n' addr more (snd (m_load addr d))) else O
  end.

Lemma reads_until_at n addr more d k :
  (k < n)%nat -> more (u32 (fst (m_load addr (after_reads addr k d)))) = false ->
  (reads_until n addr more d <= k)%nat /\
  forall n', (k < n')%nat -> reads_until n' addr more d = reads_until n addr more d.
Proof.
  revert d n. induction k as [| k IH]; intros d n Hk Hm; (destruct n as [| n]; [lia |]); simpl.
  - simpl in Hm. rewrite Hm. split; [lia |]. intros [| n'] Hn; [lia |]. simpl. by rewrite Hm.
  - destruct (more (u32 (fst (m_load addr d)))) eqn:E.
    + destruct (IH (snd (m_load addr d)) n) as [H1 H2]; [lia | done |]. split; [lia |].
      intros [| n'] Hn; [lia |]. simpl. rewrite E. f_equal. apply H2. lia.
    + split; [lia |]. intros [| n'] Hn; [lia |]. simpl. by rewrite E.
Qed.

Lemma reads_until_lt n addr more (d : D) : settles_in n addr more -> (reads_until n addr more d < n)%nat.
Proof. intros Hs. destruct (Hs d) as (k & Hk & Hm). destruct (reads_until_at n addr more d k Hk Hm). lia. Qed.

(** A look that is not ready brings the register closer. *)
Lemma reads_until_step n addr more (d : D) : settles_in n addr more ->
  more (u32 (fst (m_load addr d))) = true ->
  (reads_until n addr more (snd (m_load addr d)) < reads_until n addr more d)%nat.
Proof.
  intros Hs Hm. destruct (Hs d) as (k & Hk & Hk'). destruct k as [| k]; [simpl in Hk'; congruence |].
  destruct (reads_until_at n addr more (snd (m_load addr d)) k) as [_ H]; [lia | done |].
  destruct n as [| n]; [lia |]. cbn [reads_until]. rewrite Hm, (H n); [| lia].
  cbn [reads_until]. lia.
Qed.
End Settle.

Section Does.
Context {G D : Type} `{MD : Machine D} `{HM : !Has G mem} {S : Type} `{HS : !Has G S}
  `{IN : !Indep G S mem}.
Context {X : Type} {out_of : Z -> Z -> option X} {dr : Z} {regs : list Z}.
Context `{Hdr : !InBlock dr} `{Hout : !OutInBlock out_of} (base : Z).
Implicit Types (w : world G D) (s : S) (mu : mem).
Abbreviation M := (M G D).
Abbreviation stof w := (hget (S := S) (glob w)).

Definition does {A} (m : M A) s mu (Q : A -> S -> mem -> list X -> list Z -> Prop) : Prop :=
  forall w, stof w = s -> memof w = mu ->
    wp m (fun a w' => exists o i, exchanged out_of dr regs base w w' o i /\ Q a (stof w') (memof w') o i) w.

Lemma does_mono {A} (m : M A) s mu (Q R : A -> S -> mem -> list X -> list Z -> Prop) :
  does m s mu Q -> (forall a s' mu' o i, Q a s' mu' o i -> R a s' mu' o i) -> does m s mu R.
Proof.
  intros Hm HQ w Hs Hmu. eapply wp_mono; [by apply Hm |]. cbv beta.
  intros a w' (o & i & He & Ha). eauto.
Qed.

Lemma does_ret {A} (a : A) s mu (Q : A -> S -> mem -> list X -> list Z -> Prop) :
  Q a s mu [] [] -> does (mret a) s mu Q.
Proof.
  intros HQ w <- <-. apply wp_ret. exists [], []. split; [by apply exchanged_refl | done].
Qed.

Lemma does_bind {A B} (m : M A) (f : A -> M B) s mu (Q : B -> S -> mem -> list X -> list Z -> Prop) :
  does m s mu (fun a s1 mu1 o1 i1 => does (f a) s1 mu1 (fun b s2 mu2 o2 i2 =>
    Q b s2 mu2 (o1 ++ o2) (i1 ++ i2))) ->
  does (m ≫= f) s mu Q.
Proof.
  intros Hm w Hs Hmu. apply wp_bind. eapply wp_mono; [by apply Hm |]. cbv beta.
  intros a w1 (o1 & i1 & E1 & Ha). eapply wp_mono; [by apply Ha |]. cbv beta.
  intros b w2 (o2 & i2 & E2 & Hb). exists (o1 ++ o2), (i1 ++ i2).
  split; [by eapply exchanged_trans | done].
Qed.

(** An operation that changes nothing and stays out of the block. *)
Lemma does_emits {A} (m : M A) s mu (Q : A -> S -> mem -> list X -> list Z -> Prop) :
  (forall w, emits m w (fun _ t => Forall (outside base (base + 0x1000)) t)) ->
  (forall a, Q a s mu [] []) -> does m s mu Q.
Proof.
  intros Hm HQ w <- <-. eapply wp_mono; [apply Hm |]. cbv beta.
  intros a w' (Hg & t & Ht & Ho). exists [], [].
  split; [by eapply exchanged_outside; [exact Hdr | exact Hout | ..] | by rewrite Hg].
Qed.

Lemma does_quiet {A} (m : M A) s mu (Q : A -> S -> mem -> list X -> list Z -> Prop) :
  quiet S (outside base (base + 0x1000)) m -> quiet mem (outside base (base + 0x1000)) m ->
  (forall a, Q a s mu [] []) -> does m s mu Q.
Proof.
  intros H1 H2 HQ w <- <-. eapply wp_mono; [apply (wp_and _ _ _ _ (H1 w) (H2 w)) |]. cbv beta.
  intros a w' [[Hg1 (t & Ht & Ho)] [Hg2 _]]. exists [], [].
  split; [by eapply exchanged_outside; [exact Hdr | exact Hout | ..] | by rewrite Hg1, Hg2].
Qed.

(** An operation inside the block that says nothing to the outside and does
    not look at [dr]. *)
Definition silent (e : event) : Prop :=
  match e with
  | Rd a _ => a <> base + dr /\ (base <= a < base + 0x1000 -> a - base ∈ regs)
  | Wr a v => out_of (a - base) v = None
  | Sy _ _ | Seen _ => True
  end.

Lemma exchanged_silent (w w' : world G D) t :
  tr w' = tr w ++ t -> Forall silent t -> exchanged out_of dr regs base w w' [] [].
Proof.
  intros E Ho. exists t. split; [done |]. clear E.
  induction Ho as [| e t He _ (IH1 & IH2 & IH3)]; [done |].
  unfold sent, received, looked in *. cbn [omap list_omap].
  destruct e as [a v | a v | op v | m]; cbn [silent] in He; rewrite ?IH1, ?IH2; [| by rewrite He | done | done].
  replace (a =? base + dr) with false by lia. split_and!; [done | done |].
  destruct (_ && _) eqn:Eb; [| done]. constructor; [| done]. apply He. lia.
Qed.

Lemma does_silent {A} (m : M A) s mu (Q : A -> S -> mem -> list X -> list Z -> Prop) :
  quiet S silent m -> quiet mem silent m -> (forall a, Q a s mu [] []) -> does m s mu Q.
Proof.
  intros H1 H2 HQ w <- <-. eapply wp_mono; [apply (wp_and _ _ _ _ (H1 w) (H2 w)) |]. cbv beta.
  intros a w' [[Hg1 (t & Ht & Ho)] [Hg2 _]]. exists [], [].
  split; [by eapply exchanged_silent | by rewrite Hg1, Hg2].
Qed.

(** An operation on memory only. *)
Lemma does_mem {A} (m : M A) r mu' s mu (Q : A -> S -> mem -> list X -> list Z -> Prop) :
  (forall w : world G D, memof w = mu -> wp m (fun a w' => a = r /\ w' = setm mu' w) w) ->
  Q r s mu' [] [] -> does m s mu Q.
Proof.
  intros Hm HQ w <- Hmu. eapply wp_mono; [by apply Hm |]. cbv beta. intros a w' [-> ->].
  exists [], []. split; [by apply exchanged_refl |]. rewrite memof_setm. unfold setm. cbn [glob].
  pose proof (indep_r (S := S) mu' (glob w)) as E. by rewrite E.
Qed.

Lemma does_sys_ op s mu (Q : unit -> S -> mem -> list X -> list Z -> Prop) :
  Q tt s mu [] [] -> does (sys_ op) s mu Q.
Proof.
  intros HQ. apply does_emits; [| by intros []].
  intros w. apply emits_sys_. intros v _. by repeat constructor.
Qed.

Lemma does_gets s mu (Q : S -> S -> mem -> list X -> list Z -> Prop) :
  Q s s mu [] [] -> does gets s mu Q.
Proof.
  intros HQ w <- <-. apply wp_gets. exists [], []. split; [by apply exchanged_refl | done].
Qed.

Lemma does_modg (f : S -> S) s mu (Q : unit -> S -> mem -> list X -> list Z -> Prop) :
  Q tt (f s) mu [] [] -> does (modg f) s mu Q.
Proof.
  intros HQ w <- <-. apply wp_modg. exists [], []. split; [by apply exchanged_refl |].
  cbn [glob]. rewrite hget_hput. pose proof (indep_l (f (stof w)) (glob w)) as E.
  by rewrite E.
Qed.

Lemma does_some_or {A} f (o : option A) x s mu (Q : A -> S -> mem -> list X -> list Z -> Prop) :
  o = Some x -> Q x s mu [] [] -> does (some_or f o) s mu Q.
Proof. intros -> HQ. by apply does_ret. Qed.

Lemma does_ld8 a b s mu (Q : Z -> S -> mem -> list X -> list Z -> Prop) :
  mu !! a = Some b -> Q b s mu [] [] -> does (ld8 a) s mu Q.
Proof.
  intros Hb HQ w <- <-. apply wp_ldn. exists [b]. cbn [rd]. rewrite Hb. split; [done |].
  rewrite le_word_1. exists [], []. split; [by apply exchanged_refl | done].
Qed.

Lemma does_ldn n a bs s mu (Q : Z -> S -> mem -> list X -> list Z -> Prop) :
  rd mu a n = Some bs -> Q (le_word bs) s mu [] [] -> does (ldn n a) s mu Q.
Proof.
  intros Hb HQ w <- <-. apply wp_ldn. exists bs. split; [done |].
  exists [], []. split; [by apply exchanged_refl | done].
Qed.

Lemma does_st8 a v s mu (Q : unit -> S -> mem -> list X -> list Z -> Prop) :
  is_Some (mu !! a) -> Q tt s (<[a := u8 v]> mu) [] [] -> does (st8 a v) s mu Q.
Proof.
  intros Ha HQ w <- <-. apply wp_stn; [intros j Hj; by replace j with a by lia |].
  exists [], []. split; [by apply exchanged_refl |]. rewrite memof_setm. unfold setm. cbn [glob].
  pose proof (indep_r (S := S) (wr (memof w) a (le_bytes 1 v)) (glob w)) as E. by rewrite E.
Qed.

(** Registers of the block. *)
Lemma does_readl_dev off s mu (Q : Z -> S -> mem -> list X -> list Z -> Prop) :
  InBlock off -> off ∈ regs ->
  (forall d, let v := u32 (fst (m_load (base + off) d)) in
     Q v s mu [] (if off =? dr then [v] else [])) ->
  does (readl (base + off)) s mu Q.
Proof.
  unfold InBlock. intros Hr Hoff HQ w <- <-. specialize (HQ (dev w)). unfold wp, readl.
  destruct (m_load (base + off) (dev w)) as [v0 d]. cbn [fst] in HQ. set (v := u32 v0) in *.
  exists [], (if off =? dr then [v] else []). split; [| by apply HQ].
  exists [Rd (base + off) v]. split; [done |]. unfold sent, received, looked. cbn [omap list_omap].
  replace (base + off =? base + dr) with (off =? dr) by lia.
  replace ((base <=? base + off) && (base + off <? base + 0x1000)) with true by lia.
  replace (base + off - base) with off by lia. split_and!; [done | by destruct (_ =? _) |].
  by apply Forall_singleton.
Qed.

Lemma does_readl off s mu (Q : Z -> S -> mem -> list X -> list Z -> Prop) :
  InBlock off -> off ∈ regs ->
  (forall v, fits 32 v -> Q v s mu [] (if off =? dr then [v] else [])) ->
  does (readl (base + off)) s mu Q.
Proof. intros Hr Hoff HQ. apply does_readl_dev; [done.. |]. intros d. by apply HQ, wrap_fits. Qed.

Lemma does_writel v off s mu (Q : unit -> S -> mem -> list X -> list Z -> Prop) :
  Q tt s mu (option_list (out_of off (u32 v))) [] -> does (writel v (base + off)) s mu Q.
Proof.
  intros HQ w <- <-. apply wp_writel. intros d. exists (option_list (out_of off (u32 v))), [].
  split; [| done]. exists [Wr (base + off) (u32 v)]. split; [done |].
  unfold sent, received, looked. cbn [omap list_omap].
  replace (base + off - base) with off by lia. by destruct (out_of off (u32 v)).
Qed.

Lemma does_loop {T A} (I : T -> S -> mem -> list X -> list Z -> Prop) (m : T -> S -> nat)
    fuel (body : T -> M (T + A)) x s mu (Q : A -> S -> mem -> list X -> list Z -> Prop) :
  (forall x s mu o i, I x s mu o i ->
     does (body x) s mu (fun r s' mu' o' i' =>
       match r with
       | inl x' => I x' s' mu' (o ++ o') (i ++ i') /\ (m x' s' < m x s)%nat
       | inr a => Q a s' mu' (o ++ o') (i ++ i')
       end)) ->
  I x s mu [] [] -> (m x s < fuel)%nat -> does (loop fuel body x) s mu Q.
Proof.
  intros Hb HI Hm.
  enough (forall o i, I x s mu o i -> does (loop fuel body x) s mu
    (fun a s' mu' o' i' => Q a s' mu' (o ++ o') (i ++ i'))) as H by (by apply (H [] [])).
  clear HI. revert x s mu Hm. induction fuel as [| n IH]; intros x s mu Hm o i HI; [lia |].
  rewrite loop_S. apply does_bind. eapply does_mono; [by apply Hb |]. cbv beta.
  intros [x' | a] s1 mu1 o1 i1.
  - intros [HI' Hlt]. eapply does_mono; [apply IH; [lia | exact HI'] |]. cbv beta.
    intros a s2 mu2 o2 i2 HQ. by rewrite !app_assoc.
  - intros HQ. apply does_ret. by rewrite !app_nil_r.
Qed.
(** *** Loops that wait for a register without a bound

    A round of the loop either looks at the register [base + off] and goes
    round again while it is not ready ([more]), or does some of the work that
    [m] measures.  If the register is ready within [n] looks from any state of
    the device, [n] rounds per unit of work and [n] more are enough. *)
Lemma does_poll_loop {T A} (I : T -> S -> mem -> list X -> list Z -> Prop) (m : T -> nat)
    (off : Z) (more : Z -> bool) n fuel (body act : T -> M (T + A)) x s mu
    (Q : A -> S -> mem -> list X -> list Z -> Prop) :
  InBlock off -> off ∈ regs -> off <> dr -> settles_in n (base + off) more ->
  (forall x s mu o i, I x s mu o i ->
     let post r s' mu' o' i' :=
       match r with
       | inl x' => I x' s' mu' (o ++ o') (i ++ i') /\ (m x' < m x)%nat
       | inr a => Q a s' mu' (o ++ o') (i ++ i')
       end in
     does (body x) s mu post \/
     (forall w, stof w = s -> body x w =
        (v ← readl (base + off); if more v then mret (inl x) else act x) w) /\
     does (act x) s mu post) ->
  I x s mu [] [] -> (m x * n + n <= fuel)%nat -> does (loop fuel body x) s mu Q.
Proof.
  intros Hoff Hreg Hne Hset Hb HI Hfuel.
  assert (forall fuel x s mu o i (w : world G D), I x s mu o i -> stof w = s -> memof w = mu ->
    (m x * n + reads_until n (base + off) more (dev w) < fuel)%nat ->
    wp (loop fuel body x) (fun a w' => exists o' i', exchanged out_of dr regs base w w' o' i' /\
      Q a (stof w') (memof w') (o ++ o') (i ++ i')) w) as H.
  { clear HI Hfuel x s mu fuel.
    induction fuel as [| fuel IH]; intros x s mu o i w HI Hs Hmu Hlt; [lia |].
    assert (forall (mm : M (T + A)), does mm s mu (fun r s' mu' o' i' =>
       match r with
       | inl x' => I x' s' mu' (o ++ o') (i ++ i') /\ (m x' < m x)%nat
       | inr a => Q a s' mu' (o ++ o') (i ++ i')
       end) -> forall w1 : world G D, stof w1 = s -> memof w1 = mu ->
       exchanged out_of dr regs base w w1 [] [] -> (m x * n <= fuel)%nat ->
       wp (r ← mm; match r with inl x' => loop fuel body x' | inr a => mret a end)
         (fun a w' => exists o' i', exchanged out_of dr regs base w w' o' i' /\
            Q a (stof w') (memof w') (o ++ o') (i ++ i')) w1) as Hwork.
    { intros mm Hm w1 Hs1 Hmu1 E1 Hle. apply wp_bind. eapply wp_mono; [by apply Hm |]. cbv beta.
      intros [x' | a] w2 (o2 & i2 & E2 & HP).
      - destruct HP as [HI2 Hmx]. pose proof (reads_until_lt n (base + off) more (dev w2) Hset) as Hr.
        eapply wp_mono; [apply (IH x' _ _ _ _ w2 HI2 eq_refl eq_refl); nia |]. cbv beta.
        intros a w3 (o3 & i3 & E3 & HQ). exists (o2 ++ o3), (i2 ++ i3). rewrite !app_assoc.
        split; [| done]. eapply (exchanged_trans base w w1 w3 [] []); [done |].
        by eapply exchanged_trans.
      - apply wp_ret. exists o2, i2. split; [| done]. by eapply (exchanged_trans base w w1 w2 [] []). }
    rewrite loop_S. destruct (Hb x s mu o i HI) as [Hdo | [Heq Hdo]].
    - apply (Hwork _ Hdo w); [done | done | by apply exchanged_refl | lia].
    - unfold wp at 1, mbind, M_bind. rewrite (Heq w Hs).
      pose proof (reads_until_step n (base + off) more (dev w) Hset) as Hstep.
      unfold mbind, M_bind, readl. destruct (m_load (base + off) (dev w)) as [v0 d0]. cbn [fst snd] in Hstep.
      set (w1 := World (glob w) d0 (tr w ++ [Rd (base + off) (u32 v0)])).
      assert (exchanged out_of dr regs base w w1 [] []) as E1.
      { exists [Rd (base + off) (u32 v0)]. split; [done |]. unfold sent, received, looked.
        unfold InBlock in Hoff. cbn [omap list_omap].
        replace (base + off =? base + dr) with false by lia.
        replace ((base <=? base + off) && (base + off <? base + 0x1000)) with true by lia.
        replace (base + off - base) with off by lia. split_and!; [done.. |]. by apply Forall_singleton. }
      destruct (more (u32 v0)).
      + eapply wp_mono; [apply (IH x s mu o i w1 HI Hs Hmu); simpl; lia |]. cbv beta.
        intros a w3 (o3 & i3 & E3 & HQ). exists o3, i3. split; [| done].
        by eapply (exchanged_trans base w w1 w3 [] []).
      + apply (Hwork _ Hdo w1 Hs Hmu E1). lia. }
  intros w Hs Hmu. eapply (H fuel x s mu [] [] w HI Hs Hmu).
  pose proof (reads_until_lt n (base + off) more (dev w) Hset). lia.
Qed.
End Does.

(** A clock that stands still at 0 ends the shortest delay at once. *)
Lemma still_delay {G f} base (w : world G (fixed f (fun _ => 0))) :
  emits (udelay 1 1) w (fun _ t => Forall (outside base (base + 0x1000)) t).
Proof.
  destruct w as [g d t]. split; [done |]. eexists. split.
  - symmetry. apply (app_assoc t [_] [_]).
  - repeat constructor.
Qed.
