(* ===== verification/I2c.v ===== *)
(** * I2c: the sixteen I2C controllers (drivers/i2c/i2c.c)

    Initialisation, blocking transfers that poll the FIFOs, transfers driven
    by the interrupt handler, and transfers by DMA.  A controller's adapter
    and message are entries of two arrays; [adap->msg] is NULL or points into
    the second, so it is an optional index.  Buffers are byte memory.  The
    client's function pointers are called through [call_user]; messages that
    are only logged are left out. *)
From S2P Require Import Prelude Hw Common Mem Osal Cache Os Dmac.
From stdpp Require Import prelude gmap list strings.
From Stdlib Require Import ZArith Lia.
Local Open Scope Z_scope.

(** ** Registers *)
Definition ICR_CONTROL : Z := 0x0.
Definition ICR_TAR : Z := 0x4.
Definition ICR_DATA_CMD : Z := 0x10.
Definition ICR_SS_SCL_HCNT : Z := 0x14.
Definition ICR_SS_SCL_LCNT : Z := 0x18.
Definition ICR_FS_SCL_HCNT : Z := 0x1c.
Definition ICR_FS_SCL_LCNT : Z := 0x20.
Definition ICR_HS_SCL_HCNT : Z := 0x24.
Definition ICR_HS_SCL_LCNT : Z := 0x28.
Definition ICR_INTR_STAT : Z := 0x2c.
Definition ICR_INTR_MASK : Z := 0x30.
Definition ICR_RAW_INTR_STAT : Z := 0x34.
Definition ICR_RX_TL : Z := 0x38.
Definition ICR_TX_TL : Z := 0x3c.
Definition ICR_CLR_INTR : Z := 0x40.
Definition ICR_CLR_RX_UNDER : Z := 0x44.
Definition ICR_CLR_RX_OVER : Z := 0x48.
Definition ICR_CLR_TX_OVER : Z := 0x4c.
Definition ICR_CLR_RD_REQ : Z := 0x50.
Definition ICR_CLR_RX_DONE : Z := 0x58.
Definition ICR_CLR_ACTIVITY : Z := 0x5c.
Definition ICR_CLR_STOP_DET : Z := 0x60.
Definition ICR_CLR_START_DET : Z := 0x64.
Definition ICR_CLR_GEN_CALL : Z := 0x68.
Definition ICR_ENABLE : Z := 0x6c.
Definition ICR_STATUS : Z := 0x70.
Definition ICR_TXFLR : Z := 0x74.
Definition ICR_RXFLR : Z := 0x78.
Definition ICR_DMA_CR : Z := 0x88.
Definition ICR_SCL_LOW_TIMEOUT : Z := 0xac.
Definition ICR_SDA_LOW_TIMEOUT : Z := 0xb0.
Definition ICR_COMP_PARAM_1 : Z := 0xf4.

Definition IC_SDA_LOW_TIMEOUT_DEFAULT : Z := 0xffffffff.
Definition IC_SCL_LOW_TIMEOUT_DEFAULT : Z := 0xffffffff.
Definition IC_CON_MASTER : Z := 2 ^ 0.
Definition IC_CON_SPEED_STD : Z := 2 ^ 1.
Definition IC_CON_SPEED_FAST : Z := 2 ^ 2.
Definition IC_CON_SPEED_HIGH : Z := Z.lor (2 ^ 1) (2 ^ 2).
Definition IC_CON_RESTART_EN : Z := 2 ^ 5.
Definition IC_CON_SLAVE_DISABLE : Z := 2 ^ 6.
Definition IC_ENA_ENABLE : Z := 2 ^ 0.
Definition IC_STATUS_ACTIVITY : Z := 2 ^ 0.
Definition IC_STATUS_TFE : Z := 2 ^ 2.
Definition IC_STATUS_RFNE : Z := 2 ^ 3.
Definition IC_INTR_RX_UNDER : Z := 2 ^ 0.
Definition IC_INTR_RX_OVER : Z := 2 ^ 1.
Definition IC_INTR_RX_FULL : Z := 2 ^ 2.
Definition IC_INTR_TX_OVER : Z := 2 ^ 3.
Definition IC_INTR_TX_EMPTY : Z := 2 ^ 4.
Definition IC_INTR_RD_REQ : Z := 2 ^ 5.
Definition IC_INTR_TX_ABRT : Z := 2 ^ 6.
Definition IC_INTR_RX_DONE : Z := 2 ^ 7.
Definition IC_INTR_ACTIVITY : Z := 2 ^ 8.
Definition IC_INTR_STOP_DET : Z := 2 ^ 9.
Definition IC_INTR_START_DET : Z := 2 ^ 10.
Definition IC_INTR_GEN_CALL : Z := 2 ^ 11.
Definition IC_INTR_SCL_STUCK_LOW : Z := 2 ^ 14.
Definition IC_INTR_DEFAULT_MASK : Z :=
  Z.lor (Z.lor (Z.lor IC_INTR_RX_FULL IC_INTR_TX_ABRT) (Z.lor IC_INTR_STOP_DET IC_INTR_RX_UNDER))
        (Z.lor IC_INTR_RX_OVER IC_INTR_TX_OVER).
Definition IC_INTR_MASTER_MASK : Z :=
  Z.lor IC_INTR_DEFAULT_MASK (Z.lor IC_INTR_TX_EMPTY IC_INTR_SCL_STUCK_LOW).
Definition IC_DMA_CR_RDMAE : Z := 2 ^ 0.
Definition IC_DMA_CR_TDMAE : Z := 2 ^ 1.
Definition IC_DATA_CMD_WRITE : Z := 2 ^ 8.
Definition IC_DATA_CMD_RECV : Z := 2 ^ 9.

Definition I2C_KMSG_WE : Z := 0.
Definition I2C_KMSG_RD : Z := 1.
Definition I2C_KMSG_TEN : Z := 0x10.
Definition I2C_DW_MASTER_CONTINUE : Z := 0.
Definition I2C_DW_MASTER_BREAK : Z := 1.
Definition I2C_DW_MASTER_NEXT : Z := 2.
Definition I2C_KDEPLOY_MASTER : Z := 2 ^ 1.
Definition I2C_KDEPLOY_SPEED_MODE_STD : Z := 2 ^ 2.
Definition I2C_KDEPLOY_SPEED_MODE_FAST : Z := 2 ^ 3.
Definition I2C_KDEPLOY_SPEED_MODE_HIGH : Z := 2 ^ 4.
Definition I2C_KDEPLOY_SPEED_MODE_MASK : Z :=
  Z.lor I2C_KDEPLOY_SPEED_MODE_STD (Z.lor I2C_KDEPLOY_SPEED_MODE_FAST I2C_KDEPLOY_SPEED_MODE_HIGH).
Definition I2C_KDEPLOY_FORCE : Z := 2 ^ 9.
Definition I2C_LPSC_CLKEN_CTRL0_OFFSET : Z := 10.
Definition I2C_INIT_TIMEOUT : Z := 10000.
Definition I2C_USEC_PER_MSEC : Z := 1000.
Definition I2C_USEC_PER_SEC : Z := 1000000.
Definition I2C_7BIT_MAX_ADDR : Z := 0x7f.
Definition I2C_10BIT_MAX_ADDR : Z := 0x3ff.
Definition I2C_IO_MUX_MASK : Z := 7.
Definition I2C_SS_SCL_HCNT_CYCLE : Z := 0x188.
Definition I2C_SS_SCL_LCNT_CYCLE : Z := 0x1d5.
Definition I2C_FS_SCL_HCNT_CYCLE : Z := 0x34.
Definition I2C_FS_SCL_LCNT_CYCLE : Z := 0x81.
Definition I2C_XFER_TIMEOUT : Z := -10.
Definition TIME_MS_50 : Z := 50.
Definition I2C_ID_BUTT : Z := 16.
Definition I2C_SPEED_100K : Z := 100.
Definition I2C_SPEED_400K : Z := 400.
Definition I2C_SPEED_3400K : Z := 3400.
Definition I2C_WRITE_OK : Z := 0.
Definition I2C_WRITE_FAIL : Z := 1.
Definition I2C_READ_OK : Z := 2.
Definition I2C_READ_FAIL : Z := 3.

Definition LPSC_SMBUS_I2C_MUX : Z := 0x100.
Definition LPSC_CLKSTA_CTRL0 : Z := 0x1bc.

(** ** State *)
Record i2c_kmsg := Kmsg {
  addr : Z; flags : Z; timeout : Z; rcnt : Z; wcnt : Z;
  wlen : Z; wbuf : Z; rlen : Z; rbuf : Z;
}.

Record i2c_adapter := Adapter {
  regbase : Z; irqn : Z; init_flag : Z;
  control : Z; hcnt : Z; lcnt : Z; tx_fifo_depth : Z; rx_fifo_depth : Z;
  msg : option Z; msg_flags : Z; cmd_len : Z;
}.

(** The arrays of i2c.c. *)
Record i2cs := I2cs {
  g_i2c_platdrv_adap_list : list i2c_adapter;
  g_i2c_msg : list i2c_kmsg;
  g_i2c_callback_array : list (option Z);
  g_i2c_dma_tx_callback_array : list (option Z);
  g_i2c_dma_rx_callback_array : list (option Z);
}.

Definition i2c_regbases : list Z :=
  [0x8707000; 0x8708000; 0x8709000; 0x870a000; 0x870b000; 0x870c000; 0x870d000; 0x870e000;
   0x8750000; 0x8751000; 0x8752000; 0x8753000; 0x8754000; 0x8755000; 0x8756000; 0x8757000].

Definition i2c_init_state : i2cs := I2cs
  (imap (fun i base => Adapter base (104 + Z.of_nat i) 0 0 0 0 0 0 None 0 0) i2c_regbases)
  (replicate 16 (Kmsg 0 0 0 0 0 0 0 0 0)) (replicate 16 None) (replicate 16 None) (replicate 16 None).

Definition set_adap (id : Z) (a : i2c_adapter) (s : i2cs) : i2cs :=
  I2cs (<[Z.to_nat id := a]> (g_i2c_platdrv_adap_list s)) (g_i2c_msg s)
       (g_i2c_callback_array s) (g_i2c_dma_tx_callback_array s) (g_i2c_dma_rx_callback_array s).
Definition set_msg (m : Z) (k : i2c_kmsg) (s : i2cs) : i2cs :=
  I2cs (g_i2c_platdrv_adap_list s) (<[Z.to_nat m := k]> (g_i2c_msg s))
       (g_i2c_callback_array s) (g_i2c_dma_tx_callback_array s) (g_i2c_dma_rx_callback_array s).
Definition set_cb (id : Z) (f : option Z) (s : i2cs) : i2cs :=
  I2cs (g_i2c_platdrv_adap_list s) (g_i2c_msg s) (<[Z.to_nat id := f]> (g_i2c_callback_array s))
       (g_i2c_dma_tx_callback_array s) (g_i2c_dma_rx_callback_array s).
Definition set_dma_tx_cb (id : Z) (f : option Z) (s : i2cs) : i2cs :=
  I2cs (g_i2c_platdrv_adap_list s) (g_i2c_msg s) (g_i2c_callback_array s)
       (<[Z.to_nat id := f]> (g_i2c_dma_tx_callback_array s)) (g_i2c_dma_rx_callback_array s).
Definition set_dma_rx_cb (id : Z) (f : option Z) (s : i2cs) : i2cs :=
  I2cs (g_i2c_platdrv_adap_list s) (g_i2c_msg s) (g_i2c_callback_array s)
       (g_i2c_dma_tx_callback_array s) (<[Z.to_nat id := f]> (g_i2c_dma_rx_callback_array s)).
Definition clear_all_cb (s : i2cs) : i2cs :=
  I2cs (g_i2c_platdrv_adap_list s) (g_i2c_msg s) ((fun _ => None) <$> g_i2c_callback_array s)
       (g_i2c_dma_tx_callback_array s) (g_i2c_dma_rx_callback_array s).

(** Assignments to one field. *)
Definition with_init (v : Z) (a : i2c_adapter) : i2c_adapter :=
  Adapter (regbase a) (irqn a) v (control a) (hcnt a) (lcnt a) (tx_fifo_depth a)
          (rx_fifo_depth a) (msg a) (msg_flags a) (cmd_len a).
Definition with_control (v : Z) (a : i2c_adapter) : i2c_adapter :=
  Adapter (regbase a) (irqn a) (init_flag a) v (hcnt a) (lcnt a) (tx_fifo_depth a)
          (rx_fifo_depth a) (msg a) (msg_flags a) (cmd_len a).
Definition with_cnts (h l : Z) (a : i2c_adapter) : i2c_adapter :=
  Adapter (regbase a) (irqn a) (init_flag a) (control a) h l (tx_fifo_depth a)
          (rx_fifo_depth a) (msg a) (msg_flags a) (cmd_len a).
Definition with_depths (t r : Z) (a : i2c_adapter) : i2c_adapter :=
  Adapter (regbase a) (irqn a) (init_flag a) (control a) (hcnt a) (lcnt a) t r
          (msg a) (msg_flags a) (cmd_len a).
Definition with_msg (m : option Z) (f : Z) (a : i2c_adapter) : i2c_adapter :=
  Adapter (regbase a) (irqn a) (init_flag a) (control a) (hcnt a) (lcnt a) (tx_fifo_depth a)
          (rx_fifo_depth a) m f (cmd_len a).
Definition with_cmd_len (v : Z) (a : i2c_adapter) : i2c_adapter :=
  Adapter (regbase a) (irqn a) (init_flag a) (control a) (hcnt a) (lcnt a) (tx_fifo_depth a)
          (rx_fifo_depth a) (msg a) (msg_flags a) v.
Definition with_counts (r w : Z) (k : i2c_kmsg) : i2c_kmsg :=
  Kmsg (addr k) (flags k) (timeout k) r w (wlen k) (wbuf k) (rlen k) (rbuf k).
Definition with_timeout (t : Z) (k : i2c_kmsg) : i2c_kmsg :=
  Kmsg (addr k) (flags k) t (rcnt k) (wcnt k) (wlen k) (wbuf k) (rlen k) (rbuf k).

Record i2c_kdepl := Kdepl {
  kd_flags : Z; scl_high : Z; scl_low : Z; scl_low_timeout : Z; sda_low_timeout : Z;
}.
Record i2c_init_info := InitInfo { ii_id : Z; ii_speed : Z }.
Record i2c_xfer_info := XferInfo {
  xi_id : Z; xi_addr : Z; xi_buffer : Z; xi_length : Z; xi_timeout : Z;
}.
Record i2c_iomux_info := Iomux { im_flag : Z; im_offset : Z; im_mask : Z; im_val : Z }.

Definition g_i2c_iomux_data_tbl : list i2c_iomux_info :=
  [Iomux IO_CONFIG_T 0x34 I2C_IO_MUX_MASK 0; Iomux IO_CONFIG_T 0x3c I2C_IO_MUX_MASK 0;
   Iomux IO_CONFIG_T 0x44 I2C_IO_MUX_MASK 0; Iomux IO_CONFIG_T 0x4c I2C_IO_MUX_MASK 0;
   Iomux IO_CONFIG_T 0x54 I2C_IO_MUX_MASK 0; Iomux IO_CONFIG_T 0x5c I2C_IO_MUX_MASK 0;
   Iomux IO_CONFIG_T 0x64 I2C_IO_MUX_MASK 0; Iomux IO_CONFIG_T 0x68 I2C_IO_MUX_MASK 0;
   Iomux IO_CONFIG_R 0x74 I2C_IO_MUX_MASK 3; Iomux IO_CONFIG_R 0x7c I2C_IO_MUX_MASK 3;
   Iomux IO_CONFIG_R 0x84 I2C_IO_MUX_MASK 3; Iomux IO_CONFIG_R 0x8c I2C_IO_MUX_MASK 3;
   Iomux IO_CONFIG_R 0x94 I2C_IO_MUX_MASK 3; Iomux IO_CONFIG_T 0xc8 I2C_IO_MUX_MASK 1;
   Iomux IO_CONFIG_T 0x90 I2C_IO_MUX_MASK 3; Iomux IO_CONFIG_R 0x58 I2C_IO_MUX_MASK 1].

Definition g_i2c_iomux_clk_tbl : list i2c_iomux_info :=
  [Iomux IO_CONFIG_T 0x38 I2C_IO_MUX_MASK 0; Iomux IO_CONFIG_T 0x40 I2C_IO_MUX_MASK 0;
   Iomux IO_CONFIG_T 0x48 I2C_IO_MUX_MASK 0; Iomux IO_CONFIG_T 0x50 I2C_IO_MUX_MASK 0;
   Iomux IO_CONFIG_T 0x58 I2C_IO_MUX_MASK 0; Iomux IO_CONFIG_T 0x60 I2C_IO_MUX_MASK 0;
   Iomux IO_CONFIG_T 0x64 I2C_IO_MUX_MASK 0; Iomux IO_CONFIG_T 0x68 I2C_IO_MUX_MASK 0;
   Iomux IO_CONFIG_R 0x70 I2C_IO_MUX_MASK 3; Iomux IO_CONFIG_R 0x78 I2C_IO_MUX_MASK 3;
   Iomux IO_CONFIG_R 0x80 I2C_IO_MUX_MASK 3; Iomux IO_CONFIG_R 0x88 I2C_IO_MUX_MASK 3;
   Iomux IO_CONFIG_R 0x90 I2C_IO_MUX_MASK 3; Iomux IO_CONFIG_T 0xc8 I2C_IO_MUX_MASK 1;
   Iomux IO_CONFIG_T 0x8c I2C_IO_MUX_MASK 3; Iomux IO_CONFIG_R 0x58 I2C_IO_MUX_MASK 1].

(** The status bits and the register whose read clears each. *)
Definition rcinfo : list (Z * Z) :=
  [(IC_INTR_RX_UNDER, ICR_CLR_RX_UNDER); (IC_INTR_RX_OVER, ICR_CLR_RX_OVER);
   (IC_INTR_TX_OVER, ICR_CLR_TX_OVER); (IC_INTR_RX_DONE, ICR_CLR_RX_DONE);
   (IC_INTR_ACTIVITY, ICR_CLR_ACTIVITY); (IC_INTR_STOP_DET, ICR_CLR_STOP_DET);
   (IC_INTR_START_DET, ICR_CLR_START_DET); (IC_INTR_GEN_CALL, ICR_CLR_GEN_CALL)].

(** The controllers present in the build; the addresses of the semaphores, of
    the interrupt handler, of the adapters and of the DMA callback. *)
Class I2cConfig := {
  i2c_exist_array : list bool;
  i2c_exist_length : length i2c_exist_array = 16%nat;
  i2c_sem : Z -> Z;
  i2c_isr : Z;
  i2c_adap_addr : Z -> Z;
  i2c_dma_finish : Z;
}.

Definition IS_ODD : Z := 2.

Definition i2c_dma_get_dmac_req (id is_read : Z) : Z :=
  if id <=? 1 then
    if is_read =? 1 then req_num DMAC_REQ_SEL_I2C0_RX + id * IS_ODD
    else req_num DMAC_REQ_SEL_I2C0_TX + id * IS_ODD
  else
    if is_read =? 1 then req_num DMAC_REQ_SEL_I2C2_RX + (id - IS_ODD) * IS_ODD
    else req_num DMAC_REQ_SEL_I2C2_TX + (id - IS_ODD) * IS_ODD.

(** C division truncates. *)
Definition i2c_dma_get_id_from_req (r : Z) : Z :=
  if r <=? req_num DMAC_REQ_SEL_I2C1_RX then Z.quot (r - req_num DMAC_REQ_SEL_I2C0_TX) IS_ODD
  else Z.quot (r - req_num DMAC_REQ_SEL_I2C2_TX) IS_ODD.

(** The C conditional [x ?: y]. *)
Definition elvis (x y : Z) : Z := if ctrue x then x else y.

Section I2c.
Context {G D : Type} `{MD : Machine D} `{HM : !Has G mem} `{HS : !Has G i2cs}.
Context `{OS : !Os G D} `{DMA : !Dma G D} `{XF : Xfer} `{IC : I2cConfig}.
Context (fuel : nat) (call_user : Z -> Z -> Z -> M G D unit).
Abbreviation M := (M G D).

(** ** Access to the state and the registers *)
Definition get_adap (id : Z) : M i2c_adapter :=
  s ← gets; some_or OutOfBounds (g_i2c_platdrv_adap_list s !! Z.to_nat id).
Definition mod_adap (id : Z) (f : i2c_adapter -> i2c_adapter) : M unit :=
  a ← get_adap id; modg (set_adap id (f a)).
Definition get_msg (m : Z) : M i2c_kmsg :=
  s ← gets; some_or OutOfBounds (g_i2c_msg s !! Z.to_nat m).
Definition mod_msg (m : Z) (f : i2c_kmsg -> i2c_kmsg) : M unit :=
  k ← get_msg m; modg (set_msg m (f k)).
Definition get_cb (id : Z) : M (option Z) :=
  s ← gets; some_or OutOfBounds (g_i2c_callback_array s !! Z.to_nat id).

Definition i2c_readl (id off : Z) : M Z := a ← get_adap id; readl (regbase a + off).
Definition i2c_writel (id val off : Z) : M unit := a ← get_adap id; writel val (regbase a + off).
Definition i2c_common_disable_int (id : Z) : M unit := i2c_writel id 0 ICR_INTR_MASK.
Definition i2c_common_disable (id : Z) : M unit := i2c_writel id 0 ICR_ENABLE.
Definition i2c_common_enable (id : Z) : M unit := i2c_writel id IC_ENA_ENABLE ICR_ENABLE.

Definition i2c_set_lpsc_smbus_i2c_mux (id : Z) : M unit :=
  _ ← bm_lp_subsys_reg_read_write LPSC_SMBUS_I2C_MUX (Z.shiftl 1 id) 0; mret tt.

(** ** The interrupt handler *)
Fixpoint clear_intrs (id irq_status : Z) (rc : list (Z * Z)) : M unit :=
  match rc with
  | [] => mret tt
  | (msk, clr) :: rc' =>
      when (ctrue (Z.land irq_status msk)) (_ ← i2c_readl id clr; mret tt) ;;
      clear_intrs id irq_status rc'
  end.

Definition i2c_rc_intrbits (id : Z) : M Z :=
  irq_status ← i2c_readl id ICR_INTR_STAT;
  clear_intrs id irq_status rcinfo ;;
  when (ctrue (Z.land irq_status IC_INTR_RD_REQ)) (_ ← i2c_readl id ICR_CLR_RD_REQ; mret tt) ;;
  mret irq_status.

(** One byte of [i2c_irq_read], [cnt] being the loop counter. *)
Definition irq_read_round (id m rxflr cnt : Z) : M (Z + unit) :=
  if cnt <? rxflr then
    val ← i2c_readl id ICR_DATA_CMD;
    k ← get_msg m;
    if rlen k <=? rcnt k then mret (inr tt)
    else
      st8 (rbuf k + rcnt k) (u8 val) ;;
      mod_msg m (with_counts (u32 (rcnt k + 1)) (wcnt k)) ;;
      sys_ Dsb ;; mret (inl (cnt + 1))
  else mret (inr tt).

Definition i2c_irq_read (id : Z) : M unit :=
  a ← get_adap id;
  rxflr ← i2c_readl id ICR_RXFLR;
  match msg a with
  | None => mret tt
  | Some m => loop (S (Z.to_nat rxflr)) (irq_read_round id m rxflr) 0
  end.

Definition i2c_irq_xfer_write_byte (id m : Z) : M Z :=
  k ← get_msg m;
  if (wlen k <=? wcnt k) || (wbuf k =? NULL) then mret (-1)
  else
    let cmd := if (u32 (wcnt k + 1) =? wlen k) && negb (ctrue (Z.land (flags k) I2C_KMSG_RD))
               then IC_DATA_CMD_RECV else 0 in
    val ← ld8 (wbuf k + wcnt k);
    mod_msg m (with_counts (rcnt k) (u32 (wcnt k + 1))) ;;
    sys_ Dsb ;;
    i2c_writel id (Z.lor cmd val) ICR_DATA_CMD ;;
    mret 0.

Definition i2c_irq_xfer_msg_byte (id m : Z) : M Z :=
  ret ← i2c_irq_xfer_write_byte id m;
  if negb (ctrue ret) then mret I2C_DW_MASTER_CONTINUE
  else
    k ← get_msg m;
    if negb (ctrue (Z.land (flags k) I2C_KMSG_RD)) then mret I2C_DW_MASTER_BREAK
    else i2c_writel id IC_DATA_CMD_WRITE ICR_DATA_CMD ;; mret I2C_DW_MASTER_NEXT.

(** Calling the client and then forgetting its function. *)
Definition i2c_complete (id status : Z) : M unit :=
  cb ← get_cb id;
  match cb with
  | Some f =>
      a ← get_adap id;
      call_user f id status ;;
      modg (set_cb id None) ;;
      os_irq_disable (irqn a)
  | None => mret tt
  end.

(** One round of the filling loop; the state is the two limits. *)
Definition irq_xfer_round (id m : Z) (s : Z * Z) : M ((Z * Z) + unit) :=
  let '(wlimit, rlimit) := s in
  if (0 <? wlimit) && (0 <? rlimit) then
    ret ← i2c_irq_xfer_msg_byte id m;
    k ← get_msg m;
    if (ret =? I2C_DW_MASTER_BREAK) && (wlen k <=? wcnt k) then
      i2c_complete id I2C_WRITE_OK ;; mret (inr tt)
    else if ret =? I2C_DW_MASTER_NEXT then
      a ← get_adap id;
      mod_adap id (with_cmd_len (u32 (cmd_len a + 1))) ;;
      if rlen k <=? u32 (cmd_len a + 1) then mret (inr tt)
      else mret (inl (wlimit - 1, rlimit - 1))
    else mret (inl (wlimit - 1, rlimit))
  else mret (inr tt).

Definition i2c_irq_xfer_msg (id : Z) : M unit :=
  a ← get_adap id;
  match msg a with
  | None => mret tt
  | Some m =>
      txflr ← i2c_readl id ICR_TXFLR;
      rxflr ← i2c_readl id ICR_RXFLR;
      let wlimit := s32 (tx_fifo_depth a - txflr) in
      let rlimit := s32 (rx_fifo_depth a - rxflr) in
      loop (S (Z.to_nat wlimit)) (irq_xfer_round id m) (wlimit, rlimit) ;;
      k ← get_msg m;
      a ← get_adap id;
      let done := if ctrue (Z.land (flags k) I2C_KMSG_RD) then rlen k <=? cmd_len a
                  else wlen k <=? wcnt k in
      i2c_writel id (if done then Z.land IC_INTR_MASTER_MASK (bnot 32 IC_INTR_TX_EMPTY)
                     else Z.lor IC_INTR_MASTER_MASK IC_INTR_TX_EMPTY) ICR_INTR_MASK
  end.

Definition i2c_handle_error (id : Z) (i2c_callback : option Z) : M unit :=
  a ← get_adap id;
  m ← some_or NullDeref (msg a);
  k ← get_msg m;
  let status := if ctrue (Z.land (flags k) I2C_KMSG_RD) then I2C_READ_FAIL else I2C_WRITE_FAIL in
  match i2c_callback with
  | Some f => call_user f id status ;; modg (set_cb id None)
  | None => mret tt
  end.

(** The reading part of the handler. *)
Definition i2c_rx_full (id : Z) (i2c_callback : option Z) : M unit :=
  i2c_irq_read id ;;
  match i2c_callback with
  | Some f =>
      a ← get_adap id;
      m ← some_or NullDeref (msg a);
      k ← get_msg m;
      if rlen k <=? rcnt k then
        call_user f id I2C_READ_OK ;;
        modg (set_cb id None) ;;
        os_irq_disable (irqn a)
      else mret tt
  | None => mret tt
  end.

(** [adap]: the argument registered with the interrupt. *)
Definition i2c_interrupt_handle (adap : option Z) : M Z :=
  match adap with
  | None => mret BM_FAIL
  | Some id =>
      i2c_callback ← get_cb id;
      enabled ← i2c_readl id ICR_ENABLE;
      if negb (ctrue enabled) then i2c_handle_error id i2c_callback ;; mret BM_FAIL
      else
        raw ← i2c_readl id ICR_RAW_INTR_STAT;
        if negb (ctrue (Z.land raw (bnot 32 IC_INTR_ACTIVITY)))
        then i2c_handle_error id i2c_callback ;; mret BM_FAIL
        else
          irq_status ← i2c_rc_intrbits id;
          when (ctrue (Z.land irq_status IC_INTR_RX_FULL)) (i2c_rx_full id i2c_callback) ;;
          when (ctrue (Z.land irq_status IC_INTR_TX_EMPTY)) (i2c_irq_xfer_msg id) ;;
          when (ctrue (Z.land irq_status IC_INTR_STOP_DET))
            (i2c_writel id (Z.lor IC_INTR_TX_ABRT IC_INTR_SCL_STUCK_LOW) ICR_INTR_MASK) ;;
          mret BM_OK
  end.

(** ** Initialisation *)
Definition i2c_master_clean (id : Z) : M unit := i2c_common_disable_int id.

(** [i2c_adapter_set_msgptr]. *)
Definition i2c_adapter_set_msgptr (id : Z) (m : option Z) : M unit :=
  f ← (match m with Some i => k ← get_msg i; mret (flags k) | None => mret 0 end);
  mod_adap id (with_msg m f).

Definition i2c_adapter_set_default (id : Z) : M unit :=
  mod_adap id (with_control 0) ;;
  mod_adap id (with_depths 0 0) ;;
  i2c_adapter_set_msgptr id None.

(** One round of the idle wait: the remaining count. *)
Definition wait_idle_round (id left : Z) : M (Z + Z) :=
  st ← i2c_readl id ICR_STATUS;
  if ctrue (Z.land st IC_STATUS_ACTIVITY) && (0 <? left) then
    udelay fuel 1 ;; sys_ Dsb ;; mret (inl (left - 1))
  else mret (inr left).

Definition i2c_wait_idle (id : Z) : M Z :=
  left ← loop (S (Z.to_nat I2C_INIT_TIMEOUT)) (wait_idle_round id) I2C_INIT_TIMEOUT;
  if left =? 0 then mret BM_FAIL
  else i2c_common_disable id ;; mret BM_OK.

Definition i2c_set_speed (id con h l hoff loff : Z) : M unit :=
  mod_adap id (fun a => with_control (Z.lor (control a) con) a) ;;
  mod_adap id (with_cnts h l) ;;
  i2c_writel id h hoff ;;
  i2c_writel id l loff.

Definition i2c_master_init_speed (id : Z) (deploy : i2c_kdepl) : M Z :=
  let mode := Z.land (kd_flags deploy) I2C_KDEPLOY_SPEED_MODE_MASK in
  if mode =? I2C_KDEPLOY_SPEED_MODE_HIGH then
    i2c_set_speed id IC_CON_SPEED_HIGH (elvis (scl_high deploy) 6) (elvis (scl_low deploy) 0x10)
      ICR_HS_SCL_HCNT ICR_HS_SCL_LCNT ;; mret BM_OK
  else if mode =? I2C_KDEPLOY_SPEED_MODE_FAST then
    i2c_set_speed id IC_CON_SPEED_FAST I2C_FS_SCL_HCNT_CYCLE I2C_FS_SCL_LCNT_CYCLE
      ICR_FS_SCL_HCNT ICR_FS_SCL_LCNT ;; mret BM_OK
  else if mode =? I2C_KDEPLOY_SPEED_MODE_STD then
    i2c_set_speed id IC_CON_SPEED_STD I2C_SS_SCL_HCNT_CYCLE I2C_SS_SCL_LCNT_CYCLE
      ICR_SS_SCL_HCNT ICR_SS_SCL_LCNT ;; mret BM_OK
  else mret BM_FAIL.

Definition i2c_master_set_fifo_depth (id : Z) : M unit :=
  val ← i2c_readl id ICR_COMP_PARAM_1;
  let tx_depth := bf_get 16 8 val + 1 in
  let rx_depth := bf_get 8 8 val + 1 in
  mod_adap id (fun a => with_depths (Z.min (elvis (tx_fifo_depth a) tx_depth) tx_depth)
                                    (Z.min (elvis (rx_fifo_depth a) rx_depth) rx_depth) a).

Definition i2c_master_configure (id : Z) (deploy : i2c_kdepl) : M unit :=
  a ← get_adap id;
  i2c_writel id (tx_fifo_depth a / 2) ICR_TX_TL ;;
  i2c_writel id 0 ICR_RX_TL ;;
  i2c_writel id (control a) ICR_CONTROL ;;
  i2c_writel id (elvis (scl_low_timeout deploy) IC_SCL_LOW_TIMEOUT_DEFAULT) ICR_SCL_LOW_TIMEOUT ;;
  i2c_writel id (elvis (sda_low_timeout deploy) IC_SDA_LOW_TIMEOUT_DEFAULT) ICR_SDA_LOW_TIMEOUT.

Definition i2c_master_initialize (id : Z) (deploy : i2c_kdepl) : M Z :=
  i2c_set_lpsc_smbus_i2c_mux id ;;
  busy ← i2c_wait_idle id;
  if ctrue busy then mret BM_FAIL
  else
    mod_adap id (with_control
      (Z.lor IC_CON_MASTER (Z.lor IC_CON_SLAVE_DISABLE IC_CON_RESTART_EN))) ;;
    ret ← i2c_master_init_speed id deploy;
    if ctrue ret then mret ret
    else
      i2c_master_set_fifo_depth id ;;
      i2c_master_configure id deploy ;;
      a ← get_adap id;
      os_irq_disable (irqn a) ;;
      _ ← os_irq_set_priority (irqn a) 6;
      _ ← os_irq_request (irqn a) i2c_isr (i2c_adap_addr id);
      modg clear_all_cb ;;
      mret ret.

Definition i2c_master_init (id : Z) (deploy : i2c_kdepl) : M Z :=
  if I2C_ID_BUTT <=? id then mret BM_FAIL
  else
    i2c_master_clean id ;;
    i2c_adapter_set_default id ;;
    ret ← i2c_master_initialize id deploy;
    when (ctrue ret) (i2c_adapter_set_default id) ;;
    mret ret.

Definition i2c_exists (id : Z) : M bool := some_or OutOfBounds (i2c_exist_array !! Z.to_nat id).

Definition clock_round (clk : Z) (_ : unit) : M (unit + unit) :=
  _ ← bm_lp_subsys_reg_read_write LPSC_CLKEN_CTRL0 clk clk;
  sta ← readl (LP_SUBSYS_CSR_BASE_ADDR + LPSC_CLKSTA_CTRL0);
  if negb (ctrue (Z.land sta clk)) then mret (inl tt) else mret (inr tt).

Definition bm_i2c_config_io_clock (id : Z) : M Z :=
  if I2C_ID_BUTT <=? id then mret BM_FAIL
  else
    e ← i2c_exists id;
    if negb e then mret BM_FAIL
    else loop fuel (clock_round (Z.shiftl 1 (id + I2C_LPSC_CLKEN_CTRL0_OFFSET))) tt ;; mret BM_OK.

Definition iomux_write (i : i2c_iomux_info) : M unit :=
  _ ← (if ctrue (im_flag i) then bm_io_config_t_read_write (im_offset i) (im_mask i) (im_val i)
       else bm_io_config_r_read_write (im_offset i) (im_mask i) (im_val i)); mret tt.

Definition bm_i2c_config_io_reuse (id : Z) : M Z :=
  if I2C_ID_BUTT <=? id then mret BM_FAIL
  else
    e ← i2c_exists id;
    if negb e then mret BM_FAIL
    else
      data ← some_or OutOfBounds (g_i2c_iomux_data_tbl !! Z.to_nat id);
      clk ← some_or OutOfBounds (g_i2c_iomux_clk_tbl !! Z.to_nat id);
      iomux_write data ;; iomux_write clk ;; mret BM_OK.

Definition bm_i2c_iomux_lp_config (id : Z) : M unit :=
  _ ← bm_i2c_config_io_reuse id; _ ← bm_i2c_config_io_clock id; mret tt.

(** The speed bits for a speed. *)
Definition i2c_speed_flags (speed : Z) : option Z :=
  let base := Z.lor I2C_KDEPLOY_FORCE I2C_KDEPLOY_MASTER in
  if speed =? I2C_SPEED_100K then Some (Z.lor base I2C_KDEPLOY_SPEED_MODE_STD)
  else if speed =? I2C_SPEED_400K then Some (Z.lor base I2C_KDEPLOY_SPEED_MODE_FAST)
  else if speed =? I2C_SPEED_3400K then Some (Z.lor base I2C_KDEPLOY_SPEED_MODE_HIGH)
  else None.

Definition bm_i2c_init (init : option i2c_init_info) : M Z :=
  match init with
  | None => mret BM_FAIL
  | Some init =>
      let id := ii_id init in
      if I2C_ID_BUTT <=? id then mret BM_FAIL
      else
        e ← i2c_exists id;
        if negb e then mret BM_FAIL
        else
          a ← get_adap id;
          if ctrue (init_flag a) then mret BM_OK
          else
            match i2c_speed_flags (ii_speed init) with
            | None => mret BM_FAIL
            | Some f =>
                bm_i2c_iomux_lp_config id ;;
                bad ← i2c_master_init id (Kdepl f 0 0 0 0);
                if ctrue bad then mret BM_FAIL
                else
                  ret ← os_sem_init (i2c_sem id) 1;
                  when (ret =? OSAL_SUCCESS) (mod_adap id (with_init 1)) ;;
                  mret ret
            end
  end.

Definition bm_i2c_deinit (id : Z) : M Z :=
  if I2C_ID_BUTT <=? id then mret BM_FAIL
  else
    a ← get_adap id;
    if negb (ctrue (init_flag a)) then mret BM_FAIL
    else
      modg (set_cb id None) ;;
      os_irq_disable (irqn a) ;;
      os_sem_destroy (i2c_sem id) ;;
      mod_adap id (with_init 0) ;;
      mret BM_OK.

(** ** Blocking transfers *)
Definition i2c_check_xfer_info (info : option i2c_xfer_info) : M Z :=
  match info with
  | None => mret BM_FAIL
  | Some info =>
      if (xi_addr info =? 0) || (xi_length info =? 0) || (xi_buffer info =? NULL)
         || (I2C_ID_BUTT <=? xi_id info)
         || ctrue (is_invalid_addr_len (u32 (xi_buffer info)) (xi_length info))
      then mret BM_FAIL
      else
        e ← i2c_exists (xi_id info);
        if negb e then mret BM_FAIL
        else if I2C_7BIT_MAX_ADDR <? xi_addr info then mret BM_FAIL
        else mret BM_OK
  end.

Definition i2c_master_xfer_init (id m : Z) : M unit :=
  mod_msg m (with_counts 0 0) ;;
  mod_adap id (with_cmd_len 0) ;;
  i2c_common_disable_int id ;;
  _ ← i2c_readl id ICR_CLR_INTR;
  a ← get_adap id;
  i2c_writel id (control a) ICR_CONTROL ;;
  k ← get_msg m;
  i2c_writel id (addr k) ICR_TAR ;;
  i2c_common_enable id.

(** One round of the final wait: the time left. *)
Definition finish_round (id flag left : Z) : M (Z + Z) :=
  st ← i2c_readl id ICR_STATUS;
  if ctrue (Z.land st flag) || (left <=? 0) then mret (inr left)
  else
    i2c_status ← i2c_readl id ICR_STATUS;
    if (flag =? IC_STATUS_TFE) && ctrue (Z.land (Z.shiftr i2c_status 2) 1) then mret (inr left)
    else if (flag =? IC_STATUS_RFNE) && negb (ctrue (Z.land (Z.shiftr i2c_status 3) 1))
    then mret (inr left)
    else udelay fuel 1 ;; mret (inl (left - 1)).

Definition bm_i2c_check_xfer_finish (id m flag : Z) : M Z :=
  k ← get_msg m;
  let time_out := u32 (timeout k) in
  left ← loop (S (Z.to_nat time_out)) (finish_round id flag) time_out;
  if left =? 0 then mret I2C_XFER_TIMEOUT else mret BM_OK.

(** The end of a polling round: out of time, or one microsecond less. *)
Definition spend_time (m : Z) : M (unit + unit) :=
  k ← get_msg m;
  if timeout k =? 0 then mret (inr tt)
  else mod_msg m (with_timeout (timeout k - 1)) ;; udelay fuel 1 ;; mret (inl tt).

Definition i2c_send_byte (id m : Z) : M unit :=
  k ← get_msg m;
  val ← ld8 (wbuf k + wcnt k);
  mod_msg m (with_counts (rcnt k) (u32 (wcnt k + 1))) ;;
  i2c_writel id val ICR_DATA_CMD ;;
  sys_ Dsb.

Definition write_round (id m : Z) (_ : unit) : M (unit + unit) :=
  k ← get_msg m;
  if wcnt k <? wlen k then
    txflr ← i2c_readl id ICR_TXFLR;
    ready ← (if txflr =? 0
             then st ← i2c_readl id ICR_STATUS; mret (Z.land (Z.shiftr st 2) 1 =? 1)
             else mret false);
    when ready (i2c_send_byte id m) ;;
    spend_time m
  else mret (inr tt).

Definition i2c_dw_master_write (id m : Z) : M Z :=
  k ← get_msg m;
  loop (2 + Z.to_nat (timeout k)) (write_round id m) tt ;;
  bm_i2c_check_xfer_finish id m IC_STATUS_TFE.

(** Filling the FIFO with read commands: [cnt] and the room left. *)
Definition read_ahead (id m : Z) (s : Z * Z) : M ((Z * Z) + Z) :=
  let '(cnt, rlimit) := s in
  k ← get_msg m;
  if (cnt <? rlen k) && (0 <? rlimit) then
    i2c_writel id IC_DATA_CMD_WRITE ICR_DATA_CMD ;; mret (inl (cnt + 1, rlimit - 1))
  else mret (inr cnt).

(** Taking one byte and asking for one more; the number asked for so far. *)
Definition i2c_take_byte (id m cnt : Z) : M Z :=
  val ← i2c_readl id ICR_DATA_CMD;
  k ← get_msg m;
  st8 (rbuf k + rcnt k) (u8 val) ;;
  mod_msg m (with_counts (u32 (rcnt k + 1)) (wcnt k)) ;;
  sys_ Dsb ;;
  if cnt <? rlen k then i2c_writel id IC_DATA_CMD_WRITE ICR_DATA_CMD ;; mret (cnt + 1)
  else mret cnt.

Definition read_round (id m cnt : Z) : M (Z + unit) :=
  k ← get_msg m;
  if rcnt k <? rlen k then
    rxflr ← i2c_readl id ICR_RXFLR;
    cnt ← (if ctrue rxflr then i2c_take_byte id m cnt else mret cnt);
    r ← spend_time m;
    mret (match r with inl _ => inl cnt | inr _ => inr tt end)
  else mret (inr tt).

Definition i2c_dw_master_read (id m : Z) : M Z :=
  a ← get_adap id;
  rxflr ← i2c_readl id ICR_RXFLR;
  let rlimit := s32 (rx_fifo_depth a - rxflr) in
  cnt ← loop (S (Z.to_nat rlimit)) (read_ahead id m) (0, rlimit);
  k ← get_msg m;
  loop (2 + Z.to_nat (timeout k)) (read_round id m) cnt ;;
  bm_i2c_check_xfer_finish id m IC_STATUS_RFNE.

Definition i2c_xfer (id m : Z) : M Z :=
  busy ← i2c_wait_idle id;
  if ctrue busy then mret BM_FAIL
  else
    i2c_master_xfer_init id m ;;
    k ← get_msg m;
    if ctrue (Z.land (flags k) I2C_KMSG_RD) then i2c_dw_master_read id m
    else i2c_dw_master_write id m.

Definition i2c_transaction (id m : Z) : M Z :=
  k ← get_msg m;
  let max_address := if ctrue (Z.land (flags k) I2C_KMSG_TEN)
                     then I2C_10BIT_MAX_ADDR else I2C_7BIT_MAX_ADDR in
  if max_address <? addr k then mret BM_FAIL
  else
    i2c_adapter_set_msgptr id (Some m) ;;
    ret ← i2c_xfer id m;
    i2c_adapter_set_msgptr id None ;;
    mret ret.

(** What every transfer does first: check, find the adapter, take its
    semaphore; then [body], and the semaphore is given back. *)
Definition i2c_guarded (info : option i2c_xfer_info) (callback : option Z)
    (body : i2c_xfer_info -> M Z) : M Z :=
  bad ← i2c_check_xfer_info info;
  if ctrue bad then mret BM_FAIL
  else
    info ← some_or NullDeref info;
    if match callback with Some c => c =? NULL | None => false end then mret BM_FAIL
    else
      a ← get_adap (xi_id info);
      if negb (init_flag a =? 1) then mret BM_FAIL
      else
        down ← os_sem_down_timeout (i2c_sem (xi_id info)) TIME_MS_50;
        if negb (down =? OSAL_SUCCESS) then mret BM_FAIL
        else
          ret ← body info;
          os_sem_up (i2c_sem (xi_id info)) ;;
          mret ret.

Definition xfer_timeout (t : Z) : Z := elvis (u32 (t * I2C_USEC_PER_MSEC)) (3 * I2C_USEC_PER_SEC).

Definition bm_i2c_write (write_info : option i2c_xfer_info) : M Z :=
  i2c_guarded write_info None (fun info =>
    mod_msg (xi_id info) (fun k => Kmsg (xi_addr info) I2C_KMSG_WE (xfer_timeout (xi_timeout info))
      (rcnt k) (wcnt k) (xi_length info) (xi_buffer info) (rlen k) NULL) ;;
    i2c_transaction (xi_id info) (xi_id info)).

Definition bm_i2c_read (read_info : option i2c_xfer_info) : M Z :=
  i2c_guarded read_info None (fun info =>
    mod_msg (xi_id info) (fun k => Kmsg (xi_addr info) I2C_KMSG_RD (xfer_timeout (xi_timeout info))
      (rcnt k) (wcnt k) (wlen k) NULL (xi_length info) (xi_buffer info)) ;;
    i2c_transaction (xi_id info) (xi_id info)).

(** ** Transfers driven by the interrupt *)
Definition bm_i2c_irq_xfer_start (id m : Z) : M Z :=
  i2c_adapter_set_msgptr id (Some m) ;;
  busy ← i2c_wait_idle id;
  if ctrue busy then mret BM_FAIL
  else
    i2c_master_xfer_init id m ;;
    i2c_writel id (Z.lor IC_INTR_RX_FULL (Z.lor IC_INTR_TX_EMPTY IC_INTR_STOP_DET)) ICR_INTR_MASK ;;
    core ← bm_get_coreid;
    a ← get_adap id;
    _ ← os_irq_set_affinity (irqn a) (Z.shiftl 1 core);
    os_irq_enable (irqn a) ;;
    mret BM_OK.

Definition bm_i2c_write_async (write_info : option i2c_xfer_info) (callback : Z) : M Z :=
  i2c_guarded write_info (Some callback) (fun info =>
    modg (set_cb (xi_id info) (Some callback)) ;;
    mod_msg (xi_id info) (fun k => Kmsg (xi_addr info) I2C_KMSG_WE (timeout k)
      (rcnt k) 0 (xi_length info) (xi_buffer info) (rlen k) NULL) ;;
    bm_i2c_irq_xfer_start (xi_id info) (xi_id info)).

Definition bm_i2c_read_async (read_info : option i2c_xfer_info) (callback : Z) : M Z :=
  i2c_guarded read_info (Some callback) (fun info =>
    modg (set_cb (xi_id info) (Some callback)) ;;
    mod_msg (xi_id info) (fun k => Kmsg (xi_addr info) I2C_KMSG_RD (timeout k)
      (rcnt k) (wcnt k) (wlen k) NULL (xi_length info) (xi_buffer info)) ;;
    bm_i2c_irq_xfer_start (xi_id info) (xi_id info)).

(** ** Transfers by DMA *)
Definition i2c_dma_finish_func (r type : Z) : M unit :=
  let id := i2c_dma_get_id_from_req r in
  i2c_writel id 0 ICR_DMA_CR ;;
  s ← gets;
  if r mod IS_ODD =? 0 then
    cb ← some_or OutOfBounds (g_i2c_dma_tx_callback_array s !! Z.to_nat id);
    match cb with
    | Some f => call_user f id (if negb (type =? DMAC_TRANSMIT_OK) then I2C_WRITE_FAIL else I2C_WRITE_OK)
    | None => mret tt
    end
  else
    cb ← some_or OutOfBounds (g_i2c_dma_rx_callback_array s !! Z.to_nat id);
    match cb with
    | Some f => call_user f id (if negb (type =? DMAC_TRANSMIT_OK) then I2C_READ_FAIL else I2C_READ_OK)
    | None => mret tt
    end.

Definition i2c_dma_cfg (id is_read : Z) (a : i2c_adapter) (k : i2c_kmsg) : bm_dmac_channel_cfg :=
  if is_read =? 1 then
    ChannelCfg (i2c_dma_get_dmac_req id 1) (regbase a + ICR_DATA_CMD) (rbuf k) (rlen k) TRASFER_TYPE_P2M
  else
    ChannelCfg (i2c_dma_get_dmac_req id 0) (wbuf k) (regbase a + ICR_DATA_CMD) (wlen k) TRASFER_TYPE_M2P.

Definition i2c_dma_write (id m : Z) : M Z :=
  a ← get_adap id;
  k ← get_msg m;
  ret ← dma_transmit_async (Some (i2c_dma_cfg id 0 a k)) i2c_dma_finish;
  if ctrue ret then mret BM_FAIL
  else
    val ← i2c_readl id ICR_DMA_CR;
    i2c_writel id (Z.lor val IC_DMA_CR_TDMAE) ICR_DMA_CR ;;
    mret ret.

Definition i2c_dma_read (id m : Z) : M Z :=
  a ← get_adap id;
  k ← get_msg m;
  ret ← dma_transmit_async (Some (i2c_dma_cfg id 1 a k)) i2c_dma_finish;
  if ctrue ret then mret BM_FAIL
  else
    i2c_writel id IC_DATA_CMD_WRITE ICR_DATA_CMD ;;
    val ← i2c_readl id ICR_DMA_CR;
    i2c_writel id (Z.lor (Z.lor val IC_DMA_CR_TDMAE) IC_DMA_CR_RDMAE) ICR_DMA_CR ;;
    mret ret.

Definition bm_i2c_write_dma (write_info : option i2c_xfer_info) (callback : Z) : M Z :=
  i2c_guarded write_info None (fun info =>
    modg (set_dma_tx_cb (xi_id info) (callback_of callback)) ;;
    mod_msg (xi_id info) (fun k => Kmsg (xi_addr info) I2C_KMSG_WE (timeout k)
      (rcnt k) 0 (xi_length info) (xi_buffer info) (rlen k) NULL) ;;
    i2c_master_xfer_init (xi_id info) (xi_id info) ;;
    i2c_dma_write (xi_id info) (xi_id info)).

Definition bm_i2c_read_dma (read_info : option i2c_xfer_info) (callback : Z) : M Z :=
  i2c_guarded read_info None (fun info =>
    modg (set_dma_rx_cb (xi_id info) (callback_of callback)) ;;
    mod_msg (xi_id info) (fun k => Kmsg (xi_addr info) I2C_KMSG_RD (timeout k)
      (rcnt k) (wcnt k) (wlen k) NULL (xi_length info) (xi_buffer info)) ;;
    i2c_master_xfer_init (xi_id info) (xi_id info) ;;
    i2c_dma_read (xi_id info) (xi_id info)).
End I2c.
