(* ===== verification/I2cProps.v ===== *)
(** * I2cProps: what the I2C driver puts on and takes off the bus

    Bytes reach the bus through the data register of a controller, so the
    values written to it and read from it, in order, are what a transfer does:
    the [exchanged] and [does] of file Serial. *)
From stdpp Require Import prelude gmap list strings.
From Stdlib Require Import ZArith Lia.
From S2P Require Import Prelude Hw Common Mem Osal Cache Os Dmac Serial I2c.
Local Open Scope Z_scope.

(** None of the registers that tell of an abort or a missing acknowledge. *)
Definition polled_regs : list Z := [ICR_STATUS; ICR_TXFLR; ICR_RXFLR; ICR_DATA_CMD; ICR_CLR_INTR].
#[local] Instance i2c_dr_in_block : InBlock ICR_DATA_CMD.
Proof. split; done. Qed.
(** What goes out is what is written to the data register. *)
Definition i2c_out (off v : Z) : option Z := if off =? ICR_DATA_CMD then Some v else None.
#[local] Instance i2c_out_in_block : OutInBlock i2c_out.
Proof. intros off v H. unfold i2c_out, ICR_DATA_CMD. zcases. done. Qed.
Abbreviation exchanged := (Serial.exchanged i2c_out ICR_DATA_CMD polled_regs).

Section Does.
Context {G D : Type} `{MD : Machine D} `{HM : !Has G mem} `{HS : !Has G i2cs}
  `{IN : !Indep G i2cs mem}.
Context (base id : Z).
Implicit Types (w : world G D) (s : i2cs) (mu : mem).
Abbreviation M := (M G D).
Abbreviation i2cof w := (hget (S := i2cs) (glob w)).
Abbreviation ix := (Z.to_nat id).

Abbreviation does := (Serial.does (G := G) (D := D) (S := i2cs) (out_of := i2c_out) (dr := ICR_DATA_CMD) (regs := polled_regs) base).

(** ** The driver's primitives, at an adapter whose block is [base] *)
Definition adap_is s (a : i2c_adapter) : Prop :=
  g_i2c_platdrv_adap_list s !! ix = Some a /\ regbase a = base.
Definition msg_is s (k : i2c_kmsg) : Prop := g_i2c_msg s !! ix = Some k.

Lemma does_get_adap a s mu (Q : i2c_adapter -> i2cs -> mem -> list Z -> list Z -> Prop) :
  adap_is s a -> Q a s mu [] [] -> does (get_adap id) s mu Q.
Proof. intros [Ha _] HQ. apply does_bind, does_gets. by apply (does_some_or _ _ _ a). Qed.

Lemma does_mod_adap f a s mu (Q : unit -> i2cs -> mem -> list Z -> list Z -> Prop) :
  adap_is s a -> Q tt (set_adap id (f a) s) mu [] [] -> does (mod_adap id f) s mu Q.
Proof. intros Ha HQ. by apply does_bind, (does_get_adap a), does_modg. Qed.

Lemma does_get_msg k s mu (Q : i2c_kmsg -> i2cs -> mem -> list Z -> list Z -> Prop) :
  msg_is s k -> Q k s mu [] [] -> does (get_msg id) s mu Q.
Proof. intros Hk HQ. apply does_bind, does_gets. by apply (does_some_or _ _ _ k). Qed.

Lemma does_mod_msg f k s mu (Q : unit -> i2cs -> mem -> list Z -> list Z -> Prop) :
  msg_is s k -> Q tt (set_msg id (f k) s) mu [] [] -> does (mod_msg id f) s mu Q.
Proof. intros Hk HQ. by apply does_bind, (does_get_msg k), does_modg. Qed.

Lemma does_i2c_readl off a s mu (Q : Z -> i2cs -> mem -> list Z -> list Z -> Prop) :
  adap_is s a -> off ∈ polled_regs ->
  (forall v, fits 32 v -> Q v s mu [] (if off =? ICR_DATA_CMD then [v] else [])) ->
  does (i2c_readl id off) s mu Q.
Proof.
  intros Ha Hoff HQ. apply does_bind, (does_get_adap a); [done |]. destruct Ha as [_ ->].
  apply does_readl; [| done | done]. by repeat (apply elem_of_cons in Hoff as [-> | Hoff];
    [done |]); apply elem_of_nil in Hoff.
Qed.

Lemma does_i2c_writel v off a s mu (Q : unit -> i2cs -> mem -> list Z -> list Z -> Prop) :
  adap_is s a -> Q tt s mu (if off =? ICR_DATA_CMD then [u32 v] else []) [] ->
  does (i2c_writel id v off) s mu Q.
Proof.
  intros Ha HQ. apply does_bind, (does_get_adap a); [done |]. destruct Ha as [_ ->].
  apply does_writel. unfold i2c_out. by destruct (_ =? _).
Qed.
End Does.

(** ** One controller

    The driver's state with the adapter and the message of controller [id]
    replaced; everything else is [s0]'s. *)
Section Controller.
Context {G D : Type} `{MD : Machine D} `{HM : !Has G mem} `{HS : !Has G i2cs}
  `{IN : !Indep G i2cs mem}.
Context (base id : Z) (s0 : i2cs).
Context (La : (Z.to_nat id < length (g_i2c_platdrv_adap_list s0))%nat)
  (Lm : (Z.to_nat id < length (g_i2c_msg s0))%nat).
Implicit Types (w : world G D) (s : i2cs) (mu : mem) (a : i2c_adapter) (k : i2c_kmsg).
Abbreviation M := (M G D).
Abbreviation ix := (Z.to_nat id).

Definition put a k : i2cs := set_adap id a (set_msg id k s0).

Lemma put_msg a k k' : set_msg id k' (put a k) = put a k'.
Proof. unfold put, set_adap, set_msg. simpl. by rewrite list_insert_insert_eq. Qed.

Lemma put_adap a a' k : set_adap id a' (put a k) = put a' k.
Proof. unfold put, set_adap, set_msg. simpl. by rewrite list_insert_insert_eq. Qed.

Lemma put_self a k : adap_is base id s0 a -> msg_is id s0 k -> put a k = s0.
Proof.
  intros [Ha _] Hk. unfold put, set_adap, set_msg. simpl. rewrite !list_insert_id by done.
  by destruct s0.
Qed.

Lemma adap_put a k : regbase a = base -> adap_is base id (put a k) a.
Proof. intros Hb. split; [| done]. unfold put, set_adap. simpl. by apply list_lookup_insert_eq. Qed.

Lemma msg_put a k : g_i2c_msg (put a k) !! ix = Some k.
Proof. unfold put, set_adap, set_msg. simpl. by apply list_lookup_insert_eq. Qed.

Abbreviation does := (Serial.does (G := G) (D := D) (S := i2cs) (out_of := i2c_out) (dr := ICR_DATA_CMD) (regs := polled_regs) base).

Lemma put_get_adap a k mu (Q : i2c_adapter -> i2cs -> mem -> list Z -> list Z -> Prop) :
  regbase a = base -> Q a (put a k) mu [] [] -> does (get_adap id) (put a k) mu Q.
Proof. intros Hb HQ. eapply does_get_adap; [by apply adap_put | done]. Qed.

Lemma put_mod_adap f a k mu (Q : unit -> i2cs -> mem -> list Z -> list Z -> Prop) :
  regbase a = base -> Q tt (put (f a) k) mu [] [] -> does (mod_adap id f) (put a k) mu Q.
Proof. intros Hb HQ. eapply does_mod_adap; [by apply adap_put | by rewrite put_adap]. Qed.

Lemma put_get_msg a k mu (Q : i2c_kmsg -> i2cs -> mem -> list Z -> list Z -> Prop) :
  Q k (put a k) mu [] [] -> does (get_msg id) (put a k) mu Q.
Proof. intros HQ. eapply does_get_msg; [apply msg_put | done]. Qed.

Lemma put_mod_msg f a k mu (Q : unit -> i2cs -> mem -> list Z -> list Z -> Prop) :
  Q tt (put a (f k)) mu [] [] -> does (mod_msg id f) (put a k) mu Q.
Proof. intros HQ. eapply does_mod_msg; [apply msg_put | by rewrite put_msg]. Qed.

Lemma put_readl off a k mu (Q : Z -> i2cs -> mem -> list Z -> list Z -> Prop) :
  regbase a = base -> off ∈ polled_regs ->
  (forall v, fits 32 v -> Q v (put a k) mu [] (if off =? ICR_DATA_CMD then [v] else [])) ->
  does (i2c_readl id off) (put a k) mu Q.
Proof. intros Hb Ho HQ. eapply does_i2c_readl; [by apply adap_put | done | done]. Qed.

Lemma put_writel v off a k mu (Q : unit -> i2cs -> mem -> list Z -> list Z -> Prop) :
  regbase a = base -> Q tt (put a k) mu (if off =? ICR_DATA_CMD then [u32 v] else []) [] ->
  does (i2c_writel id v off) (put a k) mu Q.
Proof. intros Hb HQ. eapply does_i2c_writel; [by apply adap_put | done]. Qed.
End Controller.

(** Step through the driver's code. *)
Ltac polled := repeat (first [apply list_elem_of_here | apply list_elem_of_further]).
Ltac does_step :=
  lazymatch goal with
  | |- does _ (mbind _ _) _ _ _ => apply does_bind
  | |- does _ (mret _) _ _ _ => apply does_ret
  | |- does _ (sys_ _) _ _ _ => apply does_sys_
  | |- does _ (get_adap _) _ _ _ => apply put_get_adap; [done.. |]
  | |- does _ (mod_adap _ _) _ _ _ => apply put_mod_adap; [done.. |]
  | |- does _ (get_msg _) _ _ _ => apply put_get_msg; [done.. |]
  | |- does _ (mod_msg _ _) _ _ _ => apply put_mod_msg; [done.. |]
  | |- does _ (i2c_readl _ _) _ _ _ =>
      apply put_readl; [done | done | polled | intros ?v ?Hv]
  | |- does _ (i2c_writel _ _ _) _ _ _ => apply put_writel; [done.. |]
  | |- does _ (i2c_common_disable_int _) _ _ _ => unfold i2c_common_disable_int
  | |- does _ (i2c_common_disable _) _ _ _ => unfold i2c_common_disable
  | |- does _ (i2c_common_enable _) _ _ _ => unfold i2c_common_enable
  end;
  repeat match goal with
  | |- context [?x =? ICR_DATA_CMD] =>
      let b := eval vm_compute in (x =? ICR_DATA_CMD) in change (x =? ICR_DATA_CMD) with b
  end; cbv beta iota.
Ltac does_steps := repeat does_step.

(** ** The polling loops *)
Section Transfers.
Context {G D : Type} `{MD : Machine D} `{HM : !Has G mem} `{HS : !Has G i2cs}
  `{IN : !Indep G i2cs mem} (fuel : nat).
Context (base id : Z) (s0 : i2cs).
Context (La : (Z.to_nat id < length (g_i2c_platdrv_adap_list s0))%nat)
  (Lm : (Z.to_nat id < length (g_i2c_msg s0))%nat).
Context (Hdelay : forall w : world G D,
  emits (udelay fuel 1) w (fun _ t => Forall (outside base (base + 0x1000)) t)).
Implicit Types (w : world G D) (s : i2cs) (mu : mem) (a : i2c_adapter) (k : i2c_kmsg).
Abbreviation does := (Serial.does (G := G) (D := D) (S := i2cs) (out_of := i2c_out) (dr := ICR_DATA_CMD) (regs := polled_regs) base).
Abbreviation put := (put id s0).

Lemma does_delay s mu (Q : unit -> i2cs -> mem -> list Z -> list Z -> Prop) :
  Q tt s mu [] [] -> does (udelay fuel 1) s mu Q.
Proof. intros HQ. apply does_emits; [done | by intros []]. Qed.

(** The wait for an idle controller ends after at most 10000 rounds. *)
Lemma wait_idle_does a k mu (Q : Z -> i2cs -> mem -> list Z -> list Z -> Prop) :
  regbase a = base -> (forall r, r = BM_OK \/ r = BM_FAIL -> Q r (put a k) mu [] []) ->
  does (i2c_wait_idle fuel id) (put a k) mu Q.
Proof.
  intros Hb HQ. unfold i2c_wait_idle. does_step.
  apply (does_loop _ (fun left s mu' o i => 0 <= left /\ s = put a k /\ mu' = mu /\ o = [] /\ i = [])
    (fun left _ => Z.to_nat left)); [| unfold I2C_INIT_TIMEOUT; done | lia].
  intros left s mu' o i (H0 & -> & -> & -> & ->). unfold wait_idle_round. does_steps.
  destruct (ctrue _ && (0 <? left)) eqn:E.
  - apply andb_true_iff in E as [_ E]. does_step. apply does_delay. does_steps.
    cbn [app]. split; [split_and!; done || lia | lia].
  - does_steps. destruct (left =? 0); does_steps; cbn [app]; apply HQ; auto.
Qed.

(** The final wait keeps to the time that is left. *)
Lemma finish_does a k mu flag (Q : Z -> i2cs -> mem -> list Z -> list Z -> Prop) :
  regbase a = base -> fits 32 (timeout k) ->
  (forall r, r = I2C_XFER_TIMEOUT \/ r = BM_OK /\ timeout k <> 0 -> Q r (put a k) mu [] []) ->
  does (bm_i2c_check_xfer_finish fuel id id flag) (put a k) mu Q.
Proof.
  intros Hb Ht HQ. unfold bm_i2c_check_xfer_finish. does_steps. rewrite wrap_id by done.
  apply (does_loop _ (fun left s mu' o i => 0 <= left <= timeout k /\ s = put a k /\ mu' = mu /\
    o = [] /\ i = []) (fun left _ => Z.to_nat left)); [| unfold fits in Ht; split_and!; done || lia | lia].
  intros left s mu' o i (H0 & -> & -> & -> & ->).
  assert (forall l, l = left -> does (mret (M := M G D) (inr (A := Z) l)) (put a k) mu
    (fun r s' mu' o' i' => match r with
     | inl x' => (0 <= x' <= timeout k /\ s' = put a k /\ mu' = mu /\ [] ++ o' = [] /\ [] ++ i' = []) /\
         (Z.to_nat x' < Z.to_nat left)%nat
     | inr l => does (if l =? 0 then mret I2C_XFER_TIMEOUT else mret BM_OK) s' mu'
         (fun b s2 mu2 o2 i2 => Q b s2 mu2 (([] ++ o') ++ o2) (([] ++ i') ++ i2))
     end)) as Hleave.
  { intros l ->. does_step. destruct (Z.eqb_spec left 0); does_steps; cbn [app]; apply HQ; [auto |].
    right. split; [done | lia]. }
  unfold finish_round. does_steps. destruct (ctrue _ || (left <=? 0)) eqn:E; [by apply Hleave |].
  apply orb_false_iff in E as [_ E]. does_steps.
  destruct (_ && _); [by apply Hleave |]. destruct (_ && _); [by apply Hleave |].
  does_step. apply does_delay. does_steps. cbn [app]. split; [split_and!; done || lia | lia].
Qed.

(** The message after [j] bytes went out, or came in, with [t] left. *)
Definition out_at k j t : i2c_kmsg := with_timeout t (with_counts (rcnt k) j k).
Definition in_at k j t : i2c_kmsg := with_timeout t (with_counts j (wcnt k) k).

Lemma send_byte_does a k mu b (Q : unit -> i2cs -> mem -> list Z -> list Z -> Prop) :
  regbase a = base -> mu !! (wbuf k + wcnt k) = Some b -> fits 8 b ->
  Q tt (put a (with_counts (rcnt k) (u32 (wcnt k + 1)) k)) mu [b] [] ->
  does (i2c_send_byte id id) (put a k) mu Q.
Proof.
  intros Hb Hm Hf HQ. unfold i2c_send_byte. does_steps. eapply does_ld8; [exact Hm |].
  does_steps. rewrite (wrap_id 32 b) by (apply (fits_mono 8); [lia | done]). exact HQ.
Qed.

Lemma spend_does a k mu (Q : unit + unit -> i2cs -> mem -> list Z -> list Z -> Prop) :
  (timeout k = 0 -> Q (inr tt) (put a k) mu [] []) ->
  (timeout k <> 0 -> Q (inl tt) (put a (with_timeout (timeout k - 1) k)) mu [] []) ->
  does (spend_time fuel id) (put a k) mu Q.
Proof.
  intros H0 H1. unfold spend_time. does_steps. destruct (Z.eqb_spec (timeout k) 0).
  - does_steps. by apply H0.
  - does_steps. apply does_delay. does_steps. by apply H1.
Qed.

Lemma write_round_does a k mu bs j t (R : unit + unit -> i2cs -> mem -> list Z -> list Z -> Prop) :
  regbase a = base -> fits 32 (wlen k) -> 0 <= j <= wlen k ->
  rd mu (wbuf k) (Z.to_nat (wlen k)) = Some bs -> Forall (fits 8) bs ->
  (j = wlen k -> R (inr tt) (put a (out_at k j t)) mu [] []) ->
  (forall j' o, j <= j' <= wlen k -> take (Z.to_nat j) bs ++ o = take (Z.to_nat j') bs ->
     if decide (t = 0) then R (inr tt) (put a (out_at k j' t)) mu o []
     else R (inl tt) (put a (out_at k j' (t - 1))) mu o []) ->
  does (write_round fuel id id tt) (put a (out_at k j t)) mu R.
Proof.
  intros Hb Hl Hj Hbs Hby HR1 HR2. unfold write_round. does_steps.
  cbn [out_at with_timeout with_counts wcnt wlen].
  pose proof (rd_length _ _ _ _ Hbs) as Hlen.
  assert (forall j' o, j <= j' <= wlen k -> take (Z.to_nat j) bs ++ o = take (Z.to_nat j') bs ->
    does (spend_time fuel id) (put a (out_at k j' t)) mu
      (fun r s' mu' o' i' => R r s' mu' (o ++ o') i')) as Hsp.
  { intros j' o Hj' Ho. specialize (HR2 j' o Hj' Ho).
    apply spend_does; cbn [timeout out_at with_timeout]; intros Ht; rewrite app_nil_r;
      destruct (decide (t = 0)); done. }
  destruct (Z.ltb_spec j (wlen k)) as [Hlt | Hge]; [| does_steps; apply HR1; lia].
  destruct (lookup_lt_is_Some_2 bs (Z.to_nat j)) as [b Hbj]; [lia |].
  assert (forall ready : bool, does (when ready (i2c_send_byte id id)) (put a (out_at k j t)) mu
    (fun _ s1 mu1 o1 i1 => does (spend_time fuel id) s1 mu1
      (fun r s2 mu2 o2 i2 => R r s2 mu2 (o1 ++ o2) (i1 ++ i2)))) as Hready.
  { intros [|]; unfold when.
    - eapply send_byte_does; [done | | by eapply Forall_lookup_1 |].
      + cbn [wbuf wcnt out_at with_timeout with_counts]. rewrite (rd_lookup _ _ _ _ _ Hbs) by lia.
        by replace (Z.to_nat (wbuf k + j - wbuf k)) with (Z.to_nat j) by lia.
      + cbn [rcnt wcnt out_at with_timeout with_counts]. rewrite wrap_id by (unfold fits in *; lia).
        apply (Hsp (j + 1) [b]); [lia |].
        replace (Z.to_nat (j + 1)) with (S (Z.to_nat j)) by lia. by rewrite (take_S_r _ _ _ Hbj).
    - does_steps. apply (Hsp j []); [lia | by rewrite app_nil_r]. }
  does_steps. destruct (v =? 0); does_steps; apply Hready.
Qed.

Lemma master_write_does a k mu bs (Q : Z -> i2cs -> mem -> list Z -> list Z -> Prop) :
  regbase a = base -> wcnt k = 0 -> fits 32 (wlen k) -> fits 32 (timeout k) ->
  rd mu (wbuf k) (Z.to_nat (wlen k)) = Some bs -> Forall (fits 8) bs ->
  (forall r j t, 0 <= j <= wlen k -> r = I2C_XFER_TIMEOUT \/ r = BM_OK /\ j = wlen k ->
     Q r (put a (out_at k j t)) mu (take (Z.to_nat j) bs) []) ->
  does (i2c_dw_master_write fuel id id) (put a k) mu Q.
Proof.
  intros Hb H0 Hl Ht Hbs Hby HQ. unfold i2c_dw_master_write. does_steps.
  assert (forall j t, 0 <= j <= wlen k -> 0 <= t <= timeout k -> t = 0 \/ j = wlen k ->
    does (bm_i2c_check_xfer_finish fuel id id IC_STATUS_TFE) (put a (out_at k j t)) mu
     (fun r s' mu' o i => Q r s' mu' (take (Z.to_nat j) bs ++ o) i)) as Hfin.
  { intros j t Hj Ht' Hor. apply finish_does; [done | unfold fits in *; simpl; lia |].
    cbn [timeout out_at with_timeout]. intros r Hr. rewrite app_nil_r. apply HQ; [done |].
    destruct Hr as [-> | [-> Hne]]; [auto |]. right. split; [done | lia]. }
  apply (does_loop _ (fun _ s mu' o i => exists j t, 0 <= j <= wlen k /\ 0 <= t <= timeout k /\
    s = put a (out_at k j t) /\ mu' = mu /\ o = take (Z.to_nat j) bs /\ i = [])
    (fun _ s => match g_i2c_msg s !! Z.to_nat id with Some k => Z.to_nat (timeout k) | None => O end)).
  - intros [] s mu' o i (j & t & Hj & Htt & -> & -> & -> & ->).
    apply (write_round_does _ _ _ bs); try done.
    + intros ->. rewrite !app_nil_r. apply Hfin; [done | done | by right].
    + intros j' o Hj' Ho. destruct (decide (t = 0)); rewrite Ho.
      * apply Hfin; [lia | done | by left].
      * split; [exists j', (t - 1); split_and!; done || lia |].
        rewrite !(msg_put id s0 Lm). simpl. lia.
  - exists 0, (timeout k). unfold fits in *. split_and!; try done; try lia.
    f_equal. destruct k; simpl in *. by subst.
  - rewrite (msg_put id s0 Lm). lia.
Qed.

(** *** Reading *)
Lemma read_ahead_does a k mu room (Q : Z -> i2cs -> mem -> list Z -> list Z -> Prop) :
  regbase a = base -> 0 <= rlen k ->
  (forall c, 0 <= c <= rlen k -> Q c (put a k) mu (replicate (Z.to_nat c) IC_DATA_CMD_WRITE) []) ->
  does (loop (S (Z.to_nat room)) (read_ahead id id) (0, room)) (put a k) mu Q.
Proof.
  intros Hb Hl HQ.
  apply (does_loop _ (fun x s mu' o i => 0 <= x.1 <= rlen k /\ s = put a k /\ mu' = mu /\
    o = replicate (Z.to_nat x.1) IC_DATA_CMD_WRITE /\ i = []) (fun x _ => Z.to_nat x.2));
    [| simpl; split_and!; done || lia | simpl; lia].
  intros [c r] s mu' o i (Hc & -> & -> & -> & ->). cbn [fst snd] in *. unfold read_ahead. does_steps.
  destruct (_ && _) eqn:E.
  - apply andb_true_iff in E as [E1 E2]. does_steps. cbn [fst snd app].
    split; [split_and!; try done; try lia | lia].
    replace (Z.to_nat (c + 1)) with (Z.to_nat c + 1)%nat by lia. by rewrite replicate_add.
  - does_steps. rewrite !app_nil_r. by apply HQ.
Qed.

(** The state of a read: [ins] came in, [c] bytes were asked for. *)
Definition taken k (ins : list Z) t : i2c_kmsg := in_at k (Z.of_nat (length ins)) t.

Lemma take_byte_does a k mu c (Q : Z -> i2cs -> mem -> list Z -> list Z -> Prop) :
  regbase a = base -> fits 32 (rcnt k + 1) -> is_Some (mu !! (rbuf k + rcnt k)) ->
  (forall v, fits 32 v ->
     Q (if c <? rlen k then c + 1 else c) (put a (with_counts (rcnt k + 1) (wcnt k) k))
       (<[rbuf k + rcnt k := u8 v]> mu) (if c <? rlen k then [IC_DATA_CMD_WRITE] else []) [v]) ->
  does (i2c_take_byte id id c) (put a k) mu Q.
Proof.
  intros Hb Hf Hm HQ. unfold i2c_take_byte. does_steps. apply does_st8; [done |].
  rewrite (wrap_idem 8) by lia. does_steps. rewrite (wrap_id 32) by done. specialize (HQ v Hv).
  destruct (c <? rlen k); does_steps; exact HQ.
Qed.

(** What a read has done so far, [ins] being the values taken: they are in
    the buffer, one command was sent for each byte asked for. *)
Definition reading a k mu c0 ins t s mu' o i : Prop :=
  Z.of_nat (length ins) <= rlen k /\ 0 <= t <= timeout k /\ s = put a (taken k ins t) /\
  mu' = wr mu (rbuf k) (u8 <$> ins) /\ i = ins /\
  o = replicate (Z.to_nat (Z.min (rlen k) (c0 + Z.of_nat (length ins)))) IC_DATA_CMD_WRITE.

Lemma read_round_does a k mu c0 ins t (R : Z + unit -> i2cs -> mem -> list Z -> list Z -> Prop) :
  let c := Z.min (rlen k) (c0 + Z.of_nat (length ins)) in
  regbase a = base -> fits 32 (rlen k) -> 0 <= c0 -> Z.of_nat (length ins) <= rlen k ->
  mapped mu (rbuf k) (rlen k) ->
  (Z.of_nat (length ins) = rlen k ->
     R (inr tt) (put a (taken k ins t)) (wr mu (rbuf k) (u8 <$> ins)) [] []) ->
  (forall vs, let c' := Z.min (rlen k) (c0 + Z.of_nat (length (ins ++ vs))) in
     Z.of_nat (length (ins ++ vs)) <= rlen k ->
     let P r t' := R r (put a (taken k (ins ++ vs) t')) (wr mu (rbuf k) (u8 <$> (ins ++ vs)))
                     (replicate (Z.to_nat (c' - c)) IC_DATA_CMD_WRITE) vs in
     if decide (t = 0) then P (inr tt) t else P (inl c') (t - 1)) ->
  does (read_round fuel id id c) (put a (taken k ins t)) (wr mu (rbuf k) (u8 <$> ins)) R.
Proof.
  intros c Hb Hl Hc0 Hlen Hm HR1 HR2. unfold read_round. does_steps.
  cbn [taken in_at with_timeout with_counts rcnt rlen].
  destruct (Z.ltb_spec (Z.of_nat (length ins)) (rlen k)) as [Hlt | Hge]; [| does_steps; apply HR1; lia].
  assert (forall vs, Z.of_nat (length (ins ++ vs)) <= rlen k ->
    let c' := Z.min (rlen k) (c0 + Z.of_nat (length (ins ++ vs))) in
    does (r ← spend_time fuel id; mret (match r with inl _ => inl c' | inr _ => inr tt end))
      (put a (taken k (ins ++ vs) t)) (wr mu (rbuf k) (u8 <$> (ins ++ vs)))
      (fun r s' mu' o' i' => R r s' mu' (replicate (Z.to_nat (c' - c)) IC_DATA_CMD_WRITE ++ o') (vs ++ i')))
    as Hsp.
  { intros vs Hvs c'. specialize (HR2 vs Hvs). cbv zeta in HR2. fold c' in HR2. does_step.
    apply spend_does; cbn [timeout taken in_at with_timeout]; intros Ht; does_steps;
      rewrite !app_nil_r; destruct (decide (t = 0)); done. }
  does_steps. destruct (ctrue v); [| does_step].
  - apply take_byte_does; cbn [rcnt rbuf rlen wcnt taken in_at with_timeout with_counts].
    + done.
    + unfold fits in *. lia.
    + apply mapped_wr with (b := rbuf k) (n := rlen k); [done | lia].
    + intros v1 Hv1. specialize (Hsp [v1]). rewrite length_app in Hsp. cbn [length] in Hsp.
      assert (put a (with_counts (Z.of_nat (length ins) + 1) (wcnt k) (taken k ins t))
        = put a (taken k (ins ++ [v1]) t)) as ->.
      { unfold taken, in_at. rewrite length_app. cbn [length]. rewrite Nat2Z.inj_add. done. }
      assert (<[rbuf k + Z.of_nat (length ins) := u8 v1]> (wr mu (rbuf k) (u8 <$> ins))
        = wr mu (rbuf k) (u8 <$> (ins ++ [v1]))) as ->.
      { rewrite fmap_app, wr_app, length_fmap. done. }
      assert ((if c <? rlen k then c + 1 else c) = Z.min (rlen k) (c0 + Z.of_nat (length ins + 1))) as ->
        by (subst c; zcases).
      assert ((if c <? rlen k then [IC_DATA_CMD_WRITE] else []) = replicate (Z.to_nat
        (Z.min (rlen k) (c0 + Z.of_nat (length ins + 1)) - c)) IC_DATA_CMD_WRITE) as ->.
      { destruct (Z.ltb_spec c (rlen k)).
        - by replace (Z.to_nat _) with 1%nat by (subst c; lia).
        - by replace (Z.to_nat _) with 0%nat by (subst c; lia). }
      apply Hsp. lia.
  - specialize (Hsp []). cbv zeta in Hsp. rewrite app_nil_r in Hsp. fold c in Hsp.
    rewrite Z.sub_diag in Hsp. apply Hsp. lia.
Qed.

Lemma master_read_does a k mu (Q : Z -> i2cs -> mem -> list Z -> list Z -> Prop) :
  regbase a = base -> rcnt k = 0 -> fits 32 (rlen k) -> fits 32 (timeout k) ->
  mapped mu (rbuf k) (rlen k) ->
  (forall r ins c t, Z.of_nat (length ins) <= rlen k -> 0 <= c <= rlen k ->
     r = I2C_XFER_TIMEOUT \/ r = BM_OK /\ Z.of_nat (length ins) = rlen k /\ c = rlen k ->
     Q r (put a (taken k ins t)) (wr mu (rbuf k) (u8 <$> ins))
       (replicate (Z.to_nat c) IC_DATA_CMD_WRITE) ins) ->
  does (i2c_dw_master_read fuel id id) (put a k) mu Q.
Proof.
  intros Hb H0 Hl Ht Hm HQ. unfold i2c_dw_master_read. does_steps.
  apply read_ahead_does; [done | unfold fits in Hl; lia |]. intros c0 Hc0. does_steps.
  assert (forall ins t, Z.of_nat (length ins) <= rlen k -> 0 <= t <= timeout k ->
    t = 0 \/ Z.of_nat (length ins) = rlen k ->
    let o := replicate (Z.to_nat (Z.min (rlen k) (c0 + Z.of_nat (length ins)))) IC_DATA_CMD_WRITE in
    does (bm_i2c_check_xfer_finish fuel id id IC_STATUS_RFNE) (put a (taken k ins t))
     (wr mu (rbuf k) (u8 <$> ins)) (fun r s' mu' o' i => Q r s' mu' (o ++ o') (ins ++ i))) as Hfin.
  { intros ins t Hi Ht' Hor o. apply finish_does; [done | unfold fits in *; simpl; lia |].
    cbn [timeout taken in_at with_timeout]. intros r Hr. rewrite !app_nil_r.
    apply HQ; [done | lia |].
    destruct Hr as [-> | [-> Hne]]; [auto |]. right. split_and!; [done | lia | lia]. }
  set (pre := replicate (Z.to_nat c0) IC_DATA_CMD_WRITE).
  apply (does_loop _ (fun c s mu' o i => exists ins t,
    c = Z.min (rlen k) (c0 + Z.of_nat (length ins)) /\ reading a k mu c0 ins t s mu' (pre ++ o) i)
    (fun _ s => match g_i2c_msg s !! Z.to_nat id with Some k => Z.to_nat (timeout k) | None => O end)).
  - intros c s mu' o i (ins & t & -> & Hi & Htt & -> & -> & -> & Ho).
    apply read_round_does; try done; try lia.
    + intros Hfull. specialize (Hfin ins t Hi Htt (or_intror Hfull)). cbv zeta in Hfin.
      rewrite <- Ho in Hfin. rewrite !app_nil_r. eapply does_mono; [exact Hfin |].
      cbv beta. intros r s' mu' o' i' HQ'. cbn [app]. rewrite app_assoc. exact HQ'.
    + intros vs c' Hvs P. subst P. cbv beta. subst c'.
      set (more := replicate _ IC_DATA_CMD_WRITE).
      assert (pre ++ (o ++ more) = replicate (Z.to_nat (Z.min (rlen k)
        (c0 + Z.of_nat (length (ins ++ vs))))) IC_DATA_CMD_WRITE) as Hmore.
      { subst more. rewrite app_assoc, Ho, <- replicate_add. f_equal.
        rewrite length_app. lia. }
      destruct (decide (t = 0)) as [E | E].
      * specialize (Hfin (ins ++ vs) t Hvs Htt (or_introl E)). cbv zeta in Hfin.
        rewrite <- Hmore in Hfin. eapply does_mono; [exact Hfin |].
        cbv beta. intros r s' mu' o' i' HQ'. cbn [app]. by rewrite app_assoc.
      * split.
        -- exists (ins ++ vs), (t - 1). split; [done |]. split_and!; try done; lia.
        -- rewrite !(msg_put id s0 Lm). simpl. lia.
  - exists [], (timeout k). unfold fits in *. split; [simpl; lia |].
    split_and!; simpl; try done; try lia.
    + f_equal. destruct k; simpl in *. by subst.
    + rewrite app_nil_r. subst pre. f_equal. lia.
  - rewrite (msg_put id s0 Lm). lia.
Qed.

(** *** A transaction *)
Lemma xfer_init_does a k mu (Q : unit -> i2cs -> mem -> list Z -> list Z -> Prop) :
  regbase a = base -> Q tt (put (with_cmd_len 0 a) (with_counts 0 0 k)) mu [] [] ->
  does (i2c_master_xfer_init id id) (put a k) mu Q.
Proof. intros Hb HQ. unfold i2c_master_xfer_init. does_steps. exact HQ. Qed.

Lemma set_msgptr_does a k mu m (Q : unit -> i2cs -> mem -> list Z -> list Z -> Prop) :
  regbase a = base -> (m = None \/ m = Some id) ->
  Q tt (put (with_msg m (match m with Some _ => flags k | None => 0 end) a) k) mu [] [] ->
  does (i2c_adapter_set_msgptr id m) (put a k) mu Q.
Proof.
  intros Hb [-> | ->] HQ; unfold i2c_adapter_set_msgptr; does_steps; exact HQ.
Qed.

(** A transaction on an idle controller is [dir], the read or write loop. *)
Lemma transaction_does a k mu (Q : Z -> i2cs -> mem -> list Z -> list Z -> Prop) :
  regbase a = base -> addr k <= I2C_7BIT_MAX_ADDR -> flags k = I2C_KMSG_WE \/ flags k = I2C_KMSG_RD ->
  (forall a', Q BM_FAIL (put a' k) mu [] []) ->
  (forall a', regbase a' = base ->
     does (if flags k =? I2C_KMSG_RD then i2c_dw_master_read fuel id id
           else i2c_dw_master_write fuel id id) (put a' (with_counts 0 0 k)) mu
       (fun r s' mu' o i => exists a2 k2, s' = put a2 k2 /\ regbase a2 = base /\
          forall a3, Q r (put a3 k2) mu' o i)) ->
  does (i2c_transaction fuel id id) (put a k) mu Q.
Proof.
  intros Hb Had Hfl HF HQ. unfold i2c_transaction. does_steps.
  assert (Z.land (flags k) I2C_KMSG_TEN = 0) as -> by (destruct Hfl as [-> | ->]; done).
  assert (ctrue (Z.land (flags k) I2C_KMSG_RD) = (flags k =? I2C_KMSG_RD)) as Hrd
    by (destruct Hfl as [-> | ->]; done).
  change (ctrue 0) with false. cbv iota.
  destruct (Z.ltb_spec I2C_7BIT_MAX_ADDR (addr k)); [lia |]. does_step.
  apply set_msgptr_does; [done | by right |]. does_step. unfold i2c_xfer. does_step.
  apply wait_idle_does; [done |]. intros r [-> | ->].
  - change (ctrue BM_OK) with false. cbv iota. does_step. apply xfer_init_does; [done |].
    does_steps. cbn [flags with_counts]. rewrite Hrd. eapply does_mono; [by apply HQ |]. cbv beta.
    intros r s' mu' o i (a2 & k2 & -> & Ha2 & HQ2). does_step.
    apply set_msgptr_does; [done | by left |]. does_steps. rewrite !app_nil_r. apply HQ2.
  - change (ctrue BM_FAIL) with true. cbv iota. does_steps.
    apply set_msgptr_does; [done | by left |]. does_steps. apply HF.
Qed.
End Transfers.

(** ** Whole calls *)
Section Calls.
Context {G D : Type} `{MD : Machine D} `{HM : !Has G mem} `{HS : !Has G i2cs}
  `{IN : !Indep G i2cs mem} `{OS : !Os G D} `{XF : Xfer} `{IC : I2cConfig} (fuel : nat).
Implicit Types (w : world G D) (s : i2cs) (mu : mem) (a : i2c_adapter) (k : i2c_kmsg).

(** What [i2c_check_xfer_info] accepts. *)
Definition xfer_valid (info : i2c_xfer_info) : Prop :=
  0 < xi_addr info <= I2C_7BIT_MAX_ADDR /\ xi_length info <> 0 /\ xi_buffer info <> NULL /\
  xi_id info < I2C_ID_BUTT /\ is_invalid_addr_len (u32 (xi_buffer info)) (xi_length info) = 0 /\
  i2c_exist_array !! Z.to_nat (xi_id info) = Some true.

(** The semaphores of the OS stay away from the driver and the controller. *)
Definition sems_away (base : Z) : Prop :=
  OsLaws G D i2cs (outside base (base + 0x1000)) /\ OsLaws G D mem (outside base (base + 0x1000)).

Abbreviation does := (Serial.does (G := G) (D := D) (S := i2cs) (out_of := i2c_out) (dr := ICR_DATA_CMD) (regs := polled_regs)).

Lemma check_xfer_does base info s mu (Q : Z -> i2cs -> mem -> list Z -> list Z -> Prop) :
  0 <= xi_addr info ->
  (xfer_valid info -> Q BM_OK s mu [] []) -> (~ xfer_valid info -> Q BM_FAIL s mu [] []) ->
  does base (i2c_check_xfer_info (Some info)) s mu Q.
Proof.
  intros Hpos Hok Hfail. unfold i2c_check_xfer_info, xfer_valid, ctrue, NULL in *.
  destruct (_ || _) eqn:E.
  - does_step. apply Hfail. intros (H1 & H2 & H3 & H4 & H5 & _).
    rewrite !orb_true_iff, H5 in E. simpl in E. lia.
  - rewrite !orb_false_iff, negb_false_iff in E. destruct E as ((((E1 & E2) & E3) & E4) & E5).
    destruct (lookup_lt_is_Some_2 i2c_exist_array (Z.to_nat (xi_id info))) as [e He].
    { rewrite i2c_exist_length. unfold I2C_ID_BUTT in E4. lia. }
    does_step. unfold i2c_exists. apply (does_some_or _ _ _ e); [done |].
    destruct e; cbn [negb]; [| does_step; apply Hfail; intros (_ & _ & _ & _ & _ & He'); congruence].
    destruct (Z.ltb_spec I2C_7BIT_MAX_ADDR (xi_addr info)); does_step.
    + apply Hfail. intros (H1 & _). lia.
    + apply Hok. split_and!; try done; lia.
Qed.

Lemma guarded_does base info callback body s mu a
    (Q : Z -> i2cs -> mem -> list Z -> list Z -> Prop) :
  sems_away base -> adap_is base (xi_id info) s a -> 0 <= xi_addr info ->
  (forall c, callback = Some c -> c <> NULL) ->
  (~ (xfer_valid info /\ init_flag a = 1) -> Q BM_FAIL s mu [] []) ->
  (xfer_valid info -> init_flag a = 1 -> Q BM_FAIL s mu [] [] /\ does base (body info) s mu Q) ->
  does base (i2c_guarded (Some info) callback body) s mu Q.
Proof.
  intros [L1 L2] Ha Hpos Hcb Hbad Hgood. unfold i2c_guarded. does_step.
  apply check_xfer_does; [done | intros Hv | intros Hv; change (ctrue BM_FAIL) with true; cbv iota;
    does_step; apply Hbad; tauto].
  change (ctrue BM_OK) with false. cbv iota. does_step. apply (does_some_or _ _ _ info); [done |].
  assert (match callback with Some c => c =? NULL | None => false end = false) as ->.
  { destruct callback as [c |]; [| done]. by apply Z.eqb_neq, Hcb. }
  does_step. eapply does_get_adap; [exact Ha |].
  destruct (Z.eqb_spec (init_flag a) 1) as [Hi | Hi]; cbn [negb]; [| does_step; apply Hbad; tauto].
  destruct (Hgood Hv Hi) as [HF HB]. does_step.
  apply does_quiet; [apply ol_sem_down_timeout | apply ol_sem_down_timeout |]. intros down.
  destruct (negb _); [by does_step |]. does_step. eapply does_mono; [exact HB |]. cbv beta.
  intros r s' mu' o i HQ. does_step.
  apply does_quiet; [apply ol_sem_up | apply ol_sem_up |]. intros []. does_step.
  by rewrite !app_nil_r.
Qed.

Lemma xfer_timeout_fits t : fits 32 (xfer_timeout t).
Proof.
  unfold xfer_timeout, elvis. destruct (ctrue _); [apply wrap_fits; lia |].
  unfold I2C_USEC_PER_SEC. split; lia.
Qed.

(** C18: a blocking write.  Whatever the controller answers, it ends with
    BM_OK, BM_FAIL or a timeout; it is refused exactly when the request is
    invalid or the controller not initialised, or when the semaphore or the
    bus is busy, and then nothing is sent; with BM_OK all the bytes of the
    buffer went into the data register, in order, each once; on a timeout,
    I2C_XFER_TIMEOUT, which bm_i2c.h does not mention, a prefix of them did.  Memory and the other controllers are untouched.  The
    only registers looked at are the status, the FIFO levels and the clear
    register: that the slave acknowledged is not part of BM_OK. *)
Theorem i2c_write_sends info base a k bs w :
  let s := hget (S := i2cs) (glob w) in
  adap_is base (xi_id info) s a -> msg_is (xi_id info) s k ->
  0 <= xi_addr info -> fits 32 (xi_length info) ->
  rd (memof w) (xi_buffer info) (Z.to_nat (xi_length info)) = Some bs -> Forall (fits 8) bs ->
  sems_away base ->
  (forall w : world G D, emits (udelay fuel 1) w (fun _ t => Forall (outside base (base + 0x1000)) t)) ->
  wp (bm_i2c_write fuel (Some info)) (fun ret w' => exists out a' k',
    exchanged base w w' out [] /\ memof w' = memof w /\
    hget (glob w') = put (xi_id info) s a' k' /\
    (~ (xfer_valid info /\ init_flag a = 1) -> ret = BM_FAIL) /\
    (ret = BM_FAIL /\ out = [] \/ ret = BM_OK /\ out = bs \/
     ret = I2C_XFER_TIMEOUT /\ exists n, out = take n bs)) w.
Proof.
  intros s Ha Hk Hpos Hl Hbs Hby Hs Hd.
  enough (does base (bm_i2c_write fuel (Some info)) s (memof w) (fun ret s' mu' out i =>
    i = [] /\ mu' = memof w /\ (exists a' k', s' = put (xi_id info) s a' k') /\
    (~ (xfer_valid info /\ init_flag a = 1) -> ret = BM_FAIL) /\
    (ret = BM_FAIL /\ out = [] \/ ret = BM_OK /\ out = bs \/
     ret = I2C_XFER_TIMEOUT /\ exists n, out = take n bs))) as H.
  { eapply wp_mono; [by apply H |]. cbv beta.
    intros r w' (o & i & He & -> & Hmu & (a' & k' & Hp) & Hbad & Hrest). exists o, a', k'.
    by split_and!. }
  pose proof (lookup_lt_Some _ _ _ (proj1 Ha)) as La. pose proof (lookup_lt_Some _ _ _ Hk) as Lm.
  pose proof (put_self base (xi_id info) s La Lm a k Ha Hk) as Hself.
  assert (exists a' k', s = put (xi_id info) s a' k') as Hs0 by (by exists a, k).
  unfold bm_i2c_write. eapply guarded_does; [done | exact Ha | done | done | |].
  - intros Hn. split_and!; auto.
  - intros Hv Hi. split; [by split_and!; auto |].
    pose proof Hv as (Hv1 & _). pose proof (proj2 Ha) as Hb.
    rewrite <- Hself at 1. does_step. apply put_mod_msg; [done |].
    eapply transaction_does; [done.. | | by left | |].
    + simpl. lia.
    + intros a'. split_and!; eauto 6.
    + intros a' Hb'. cbn [flags]. change (I2C_KMSG_WE =? I2C_KMSG_RD) with false. cbv iota.
      eapply master_write_does; try done; [apply xfer_timeout_fits |].
      intros r j t Hj Hr. do 2 eexists. split; [done |]. split; [done |]. intros a3.
      split_and!; [done | done | by eauto | tauto |].
      pose proof (rd_length _ _ _ _ Hbs) as Hlen. right.
      destruct Hr as [-> | [-> ->]]; [right; by eauto | left; split; [done |]].
      apply take_ge. simpl. lia.
Qed.

(** a blocking read.  Whatever the controller answers, it ends with
    BM_OK, BM_FAIL or a timeout; refused as a write is.  The buffer receives
    the low bytes of the values taken from the data register, in order and
    never more than the buffer is long, and no other memory changes; with
    BM_OK the buffer is full and exactly as many read commands were issued as
    it has bytes. *)
Theorem i2c_read_receives info base a k w :
  let s := hget (S := i2cs) (glob w) in
  adap_is base (xi_id info) s a -> msg_is (xi_id info) s k ->
  0 <= xi_addr info -> fits 32 (xi_length info) ->
  mapped (memof w) (xi_buffer info) (xi_length info) ->
  sems_away base ->
  (forall w : world G D, emits (udelay fuel 1) w (fun _ t => Forall (outside base (base + 0x1000)) t)) ->
  wp (bm_i2c_read fuel (Some info)) (fun ret w' => exists n ins a' k',
    exchanged base w w' (replicate (Z.to_nat n) IC_DATA_CMD_WRITE) ins /\
    memof w' = wr (memof w) (xi_buffer info) (u8 <$> ins) /\
    hget (glob w') = put (xi_id info) s a' k' /\
    (~ (xfer_valid info /\ init_flag a = 1) -> ret = BM_FAIL) /\
    0 <= n <= xi_length info /\ Z.of_nat (length ins) <= xi_length info /\
    (ret = BM_FAIL /\ n = 0 /\ ins = [] \/
     ret = BM_OK /\ n = xi_length info /\ Z.of_nat (length ins) = xi_length info \/
     ret = I2C_XFER_TIMEOUT)) w.
Proof.
  intros s Ha Hk Hpos Hl Hm Hs Hd.
  enough (does base (bm_i2c_read fuel (Some info)) s (memof w) (fun ret s' mu' out ins => exists n a' k',
    out = replicate (Z.to_nat n) IC_DATA_CMD_WRITE /\ mu' = wr (memof w) (xi_buffer info) (u8 <$> ins) /\
    s' = put (xi_id info) s a' k' /\ (~ (xfer_valid info /\ init_flag a = 1) -> ret = BM_FAIL) /\
    0 <= n <= xi_length info /\ Z.of_nat (length ins) <= xi_length info /\
    (ret = BM_FAIL /\ n = 0 /\ ins = [] \/
     ret = BM_OK /\ n = xi_length info /\ Z.of_nat (length ins) = xi_length info \/
     ret = I2C_XFER_TIMEOUT))) as H.
  { eapply wp_mono; [by apply H |]. cbv beta.
    intros r w' (o & i & He & n & a' & k' & -> & Hmu & Hp & Hrest). by exists n, i, a', k'. }
  pose proof (lookup_lt_Some _ _ _ (proj1 Ha)) as La. pose proof (lookup_lt_Some _ _ _ Hk) as Lm.
  pose proof (put_self base (xi_id info) s La Lm a k Ha Hk) as Hself.
  assert (0 <= xi_length info) by apply Hl.
  unfold bm_i2c_read. eapply guarded_does; [done | exact Ha | done | done | |].
  - intros Hn. exists 0, a, k. split_and!; auto; simpl; lia.
  - intros Hv Hi. split; [exists 0, a, k; split_and!; auto; simpl; lia |].
    pose proof Hv as (Hv1 & _). pose proof (proj2 Ha) as Hb.
    rewrite <- Hself at 1. does_step. apply put_mod_msg; [done |].
    eapply transaction_does; [done.. | | by right | |].
    + simpl. lia.
    + intros a'. exists 0. do 2 eexists. split_and!; eauto; simpl; lia.
    + intros a' Hb'. cbn [flags]. change (I2C_KMSG_RD =? I2C_KMSG_RD) with true. cbv iota.
      eapply master_read_does; try done; [apply xfer_timeout_fits |].
      cbn [rlen rbuf with_counts]. intros r ins c t Hi' Hc Hr. do 2 eexists. split; [done |].
      split; [done |]. intros a3. exists c. do 2 eexists. split_and!; try done; try lia; tauto.
Qed.
End Calls.

(** ** The interrupt handler's reading half *)
Section Interrupt.
Context {G D : Type} `{MD : Machine D} `{HM : !Has G mem} `{HS : !Has G i2cs}
  `{IN : !Indep G i2cs mem} `{OS : !Os G D}.
Context (base id : Z) (s0 : i2cs).
Context (La : (Z.to_nat id < length (g_i2c_platdrv_adap_list s0))%nat)
  (Lm : (Z.to_nat id < length (g_i2c_msg s0))%nat).
Implicit Types (w : world G D) (s : i2cs) (mu : mem) (a : i2c_adapter) (k : i2c_kmsg).
Abbreviation does := (Serial.does (G := G) (D := D) (S := i2cs) (out_of := i2c_out) (dr := ICR_DATA_CMD) (regs := polled_regs) base).
Abbreviation put := (put id s0).

(** After [ins] came in, of which what fits went into the buffer. *)
Definition room k : nat := Z.to_nat (rlen k - rcnt k).
Definition irq_taken k (ins : list Z) : i2c_kmsg :=
  with_counts (rcnt k + Z.of_nat (length ins)) (wcnt k) k.

Lemma irq_read_does a k mu (Q : unit -> i2cs -> mem -> list Z -> list Z -> Prop) :
  regbase a = base -> msg a = Some id -> fits 32 (rlen k) -> 0 <= rcnt k <= rlen k ->
  mapped mu (rbuf k) (rlen k) ->
  (forall ins, let got := take (room k) ins in
     (length ins <= S (room k))%nat ->
     Q tt (put a (irq_taken k got)) (wr mu (rbuf k + rcnt k) (u8 <$> got)) [] ins) ->
  does (i2c_irq_read id) (put a k) mu Q.
Proof.
  intros Hb Hmsg Hl Hr Hm HQ. assert (room k = Z.to_nat (rlen k - rcnt k)) as Hroom by done.
  unfold i2c_irq_read. does_steps. rewrite Hmsg.
  apply (does_loop _ (fun cnt s mu' o i => o = [] /\ (length i <= room k)%nat /\
    s = put a (irq_taken k i) /\ mu' = wr mu (rbuf k + rcnt k) (u8 <$> i) /\ 0 <= cnt)
    (fun cnt _ => Z.to_nat (v - cnt))).
  - intros cnt s mu' o i (-> & Hi & -> & -> & Hc). unfold irq_read_round.
    assert (take (room k) i = i) as Hti by (apply take_ge; lia).
    destruct (Z.ltb_spec cnt v); [| does_step; rewrite !app_nil_r; cbn [app];
      specialize (HQ i ltac:(lia)); rewrite Hti in HQ; exact HQ].
    does_steps. cbn [irq_taken with_counts rcnt rlen rbuf wcnt].
    destruct (Z.leb_spec (rlen k) (rcnt k + Z.of_nat (length i))).
    + does_step. specialize (HQ (i ++ [v0])). rewrite length_app in HQ. cbn [length] in HQ.
      assert (take (room k) (i ++ [v0]) = i) as E.
      { rewrite take_app_le by (lia). apply take_ge. lia. }
      rewrite E in HQ. apply HQ. lia.
    + does_steps. apply does_st8.
      { apply mapped_wr with (b := rbuf k) (n := rlen k); [done | lia]. }
      rewrite (wrap_idem 8) by lia. does_steps. cbn [app]. rewrite length_app. cbn [length].
      split; [| lia]. split_and!; try done; try lia.
      * rewrite (wrap_id 32) by (unfold fits in *; lia). f_equal. unfold irq_taken.
        rewrite length_app. cbn [length]. unfold with_counts. simpl. f_equal. lia.
      * rewrite fmap_app, wr_app, length_fmap. cbn [fmap list_fmap wr]. f_equal; lia.
  - unfold irq_taken. split_and!; simpl; try done; try lia.
    f_equal. destruct k. unfold with_counts. simpl. f_equal. lia.
  - unfold fits in Hv. lia.
Qed.
End Interrupt.

Section Completion.
Context {G D : Type} `{MD : Machine D} `{HM : !Has G mem} `{HS : !Has G i2cs}
  `{IN : !Indep G i2cs mem} `{OS : !Os G D}.
(** What the client's function does to the driver's state. *)
Context (call_user : Z -> Z -> Z -> M G D unit) (f : Z) (client : i2cs -> i2cs -> Prop).

(** the interrupt handler's reading half, for a read in progress.  The
    values taken from the FIFO go into the buffer behind those of earlier
    interrupts, never past its end; at most one value that does not fit is
    taken and dropped.  When the buffer is full the client's function is
    called, once, and the registered function is then forgotten, whichever it
    is by now: a client that starts its next transfer in its function loses
    that transfer's completion.  Until then nothing but the count changes. *)
Theorem i2c_irq_read_completes base id a k (w : world G D) :
  let s := hget (S := i2cs) (glob w) in
  adap_is base id s a -> msg_is id s k -> msg a = Some id -> shared (irqn a) ->
  fits 32 (rlen k) -> 0 <= rcnt k <= rlen k -> mapped (memof w) (rbuf k) (rlen k) ->
  sems_away (G := G) (D := D) base ->
  (forall w, wp (call_user f id I2C_READ_OK) (fun _ w' => memof w' = memof w /\
     exchanged base w w' [] [] /\ client (hget (glob w)) (hget (glob w'))) w) ->
  wp (i2c_rx_full call_user id (Some f)) (fun _ w' => exists ins,
    let got := take (room k) ins in
    let s1 := put id s a (irq_taken k got) in
    exchanged base w w' [] ins /\ (length ins <= S (room k))%nat /\
    memof w' = wr (memof w) (rbuf k + rcnt k) (u8 <$> got) /\
    if decide (length got = room k)
    then exists s2, client s1 s2 /\ hget (glob w') = set_cb id None s2
    else hget (glob w') = s1) w.
Proof.
  intros s Ha Hk Hmsg Hirq Hl Hr Hm [L1 L2] Hcl.
  enough (Serial.does (out_of := i2c_out) (dr := ICR_DATA_CMD) (regs := polled_regs) base (i2c_rx_full call_user id (Some f)) s (memof w) (fun _ s' mu' o ins =>
    let got := take (room k) ins in
    let s1 := put id s a (irq_taken k got) in
    o = [] /\ (length ins <= S (room k))%nat /\ mu' = wr (memof w) (rbuf k + rcnt k) (u8 <$> got) /\
    if decide (length got = room k) then exists s2, client s1 s2 /\ s' = set_cb id None s2
    else s' = s1)) as H.
  { eapply wp_mono; [by apply H |]. cbv beta. intros _ w' (o & i & He & -> & H1 & H2 & H3).
    exists i. by split_and!. }
  pose proof (lookup_lt_Some _ _ _ (proj1 Ha)) as La. pose proof (lookup_lt_Some _ _ _ Hk) as Lm.
  pose proof (put_self base id s La Lm a k Ha Hk) as Hself. pose proof (proj2 Ha) as Hb.
  rewrite <- Hself at 1. unfold i2c_rx_full. does_step.
  eapply irq_read_does; [done.. |]. intros ins got Hi. does_steps. rewrite Hmsg.
  apply (does_some_or _ _ _ id); [done |]. does_steps. cbn [irq_taken with_counts rlen rcnt].
  assert (length got <= room k)%nat as Hgot by (subst got; rewrite length_take; lia).
  assert (room k = Z.to_nat (rlen k - rcnt k)) as Hroom by done.
  assert ((rlen k <=? rcnt k + Z.of_nat (length got)) = bool_decide (length got = room k)) as ->.
  { destruct (Z.leb_spec (rlen k) (rcnt k + Z.of_nat (length got)));
      [rewrite bool_decide_true | rewrite bool_decide_false]; (done || lia). }
  destruct (decide (length got = room k)) as [E | E];
    [rewrite bool_decide_true by done | rewrite bool_decide_false by done].
  - does_step. intros w1 Hs1 Hm1. eapply wp_mono; [apply Hcl |]. cbv beta.
    intros _ w2 (Hm2 & He2 & Hc2). exists [], []. split; [done |]. cbn [app].
    does_step. apply does_modg. cbv beta. apply does_quiet; [by apply ol_irq_disable.. |].
    intros []. rewrite !app_nil_r. split_and!; try done; [by rewrite Hm2, Hm1 |].
    destruct (decide _) as [_ | Hne]; [| by destruct Hne].
    exists (hget (glob w2)). split; [by rewrite Hs1 in Hc2 | done].
  - does_step. rewrite !app_nil_r. split_and!; try done.
    destruct (decide _) as [E' | _]; [by destruct E | done].
Qed.

(** the request line of a transfer by DMA is the one of the controller's
    own data register, so the DMA controller accepts the address; but for the
    controllers from 2 on the completion is attributed to the controller two
    below: its DMA is switched off instead, and its callback, not the one that
    was given with the transfer, is looked up (and with none registered there,
    nobody learns of the completion). *)
Theorem i2c_dma_completion_misrouted id is_read r id' base :
  0 <= id < 16 -> is_read = 0 \/ is_read = 1 -> i2c_regbases !! Z.to_nat id = Some base ->
  r = i2c_dma_get_dmac_req id is_read -> id' = (if id <=? 1 then id else id - 2) ->
  (exists q, g_dma_req_addr_list !! Z.to_nat r = Some (q, base + ICR_DATA_CMD)) /\
  i2c_dma_get_id_from_req r = id' /\
  forall type a (w : world G D), g_i2c_platdrv_adap_list (hget (glob w)) !! Z.to_nat id' = Some a ->
    (if is_read =? 1 then g_i2c_dma_rx_callback_array (hget (S := i2cs) (glob w)) !! Z.to_nat id'
     else g_i2c_dma_tx_callback_array (hget (S := i2cs) (glob w)) !! Z.to_nat id') = Some None ->
    wp (i2c_dma_finish_func call_user r type) (fun _ w' => glob w' = glob w /\
      tr w' = tr w ++ [Wr (regbase a + ICR_DMA_CR) 0]) w.
Proof.
  intros Hid Hrx Hbase -> ->.
  assert ((exists q, g_dma_req_addr_list !! Z.to_nat (i2c_dma_get_dmac_req id is_read)
             = Some (q, base + ICR_DATA_CMD)) /\
    i2c_dma_get_id_from_req (i2c_dma_get_dmac_req id is_read) = (if id <=? 1 then id else id - 2) /\
    i2c_dma_get_dmac_req id is_read mod IS_ODD = is_read) as (H1 & H2 & H3).
  { assert (id ∈ seqZ 0 16) as Hin by (apply elem_of_seqZ; lia). clear Hid.
    change (seqZ 0 16) with [0; 1; 2; 3; 4; 5; 6; 7; 8; 9; 10; 11; 12; 13; 14; 15] in Hin.
    repeat (apply elem_of_cons in Hin as [-> | Hin];
      [destruct Hrx as [-> | ->]; injection Hbase as <-; split_and!; try reflexivity;
       eexists; reflexivity |]).
    by apply elem_of_nil in Hin. }
  split; [done |]. split; [done |]. intros type a w Ha Hcb.
  unfold i2c_dma_finish_func, i2c_writel, get_adap. rewrite H2, H3.
  wp_steps. apply wp_some_or. exists a. split; [done |]. wp_steps.
  destruct Hrx as [-> | ->]; cbn [Z.eqb] in *; wp_step; apply wp_some_or; exists None;
    (split; [done |]); by wp_steps.
Qed.
End Completion.

(** ** Witnesses

    Controller 0, initialised; a device that is never active, whose FIFO is
    always empty for writing and always holds 0x41 for reading, and a clock
    that stands still. *)
#[local] Existing Instance no_os.
#[local] Existing Instance no_os_laws.
#[local] Instance i2c_segment : Xfer :=
  {| xfer_segment_start := 0x90000000; xfer_segment_end := 0x91000000 |}.
#[local, refine] Instance i2c_all : I2cConfig :=
  {| i2c_exist_array := replicate 16 true; i2c_sem id := 0x1000 + 8 * id; i2c_isr := 0x2000;
     i2c_adap_addr id := 0x3000 + 0x60 * id; i2c_dma_finish := 0x4000 |}.
Proof. reflexivity. Defined.

Definition i2c_answers (a : Z) : Z :=
  if a =? 0x8707070 then 0xc else if a =? 0x8707078 then 1
  else if a =? 0x8707010 then 0x41 else 0.
Abbreviation i2c_dev := (fixed i2c_answers (fun _ => 0)).
Definition i2c_adap0 : i2c_adapter := Adapter 0x8707000 104 1 0x65 0 0 64 64 None 0 0.
Definition i2c_world (s : i2cs) : world (mem * i2cs) i2c_dev :=
  World (wr ∅ 0x90000000 [1; 2; 3; 4], s) Fixed [].
Definition i2c_ready : i2cs := set_adap 0 i2c_adap0 i2c_init_state.

Lemma i2c_write_sends_witness :
  wp (bm_i2c_write 1 (Some (XferInfo 0 0x50 0x90000000 3 1))) (fun ret w' => exists out,
    exchanged 0x8707000 (i2c_world i2c_ready) w' out [] /\ memof w' = memof (i2c_world i2c_ready) /\
    (ret = BM_OK -> out = [1; 2; 3])) (i2c_world i2c_ready).
Proof.
  eapply wp_mono.
  - apply (i2c_write_sends 1 (XferInfo 0 0x50 0x90000000 3 1) 0x8707000 i2c_adap0
      (Kmsg 0 0 0 0 0 0 0 0 0) [1; 2; 3] (i2c_world i2c_ready)).
    + split; reflexivity.
    + reflexivity.
    + simpl. lia.
    + split; simpl; lia.
    + reflexivity.
    + repeat constructor; lia.
    + split; apply no_os_laws.
    + apply still_delay.
  - cbv beta. intros ret w' (out & a' & k' & He & Hm & _ & _ & Hr). exists out.
    split; [exact He |]. split; [exact Hm |]. intros ->.
    destruct Hr as [[H _] | [[_ H] | [H _]]]; [discriminate H | exact H | discriminate H].
Defined.

Lemma i2c_read_receives_witness :
  wp (bm_i2c_read 1 (Some (XferInfo 0 0x50 0x90000000 3 1))) (fun ret w' => exists ins,
    memof w' = wr (memof (i2c_world i2c_ready)) 0x90000000 (u8 <$> ins) /\
    (ret = BM_OK -> length ins = 3%nat)) (i2c_world i2c_ready).
Proof.
  eapply wp_mono.
  - apply (i2c_read_receives 1 (XferInfo 0 0x50 0x90000000 3 1) 0x8707000 i2c_adap0
      (Kmsg 0 0 0 0 0 0 0 0 0) (i2c_world i2c_ready)).
    + split; reflexivity.
    + reflexivity.
    + simpl. lia.
    + split; simpl; lia.
    + apply mapped_block; simpl; lia.
    + split; apply no_os_laws.
    + apply still_delay.
  - cbv beta. intros ret w' (n & ins & a' & k' & _ & Hm & _ & _ & _ & _ & Hr). exists ins.
    split; [exact Hm |]. intros ->.
    destruct Hr as [[H _] | [(_ & _ & H) | H]]; [discriminate H | simpl in H; lia | discriminate H].
Defined.

(** These transfers do succeed. *)
Example i2c_transfers_succeed :
  result (bm_i2c_write 1 (Some (XferInfo 0 0x50 0x90000000 3 1)) (i2c_world i2c_ready)) = Some BM_OK /\
  result (bm_i2c_read 1 (Some (XferInfo 0 0x50 0x90000000 3 1)) (i2c_world i2c_ready)) = Some BM_OK.
Proof. vm_compute. split; reflexivity. Qed.

(** A read of two bytes whose first byte has come in, and a client that
    starts the next read at once. *)
Definition i2c_half : i2c_kmsg := Kmsg 0x50 I2C_KMSG_RD 0 1 0 0 NULL 2 0x90000000.
Definition i2c_busy : i2cs :=
  set_cb 0 (Some 7) (set_adap 0 (with_msg (Some 0) 1 i2c_adap0) (set_msg 0 i2c_half i2c_init_state)).
Definition reads_again (f id status : Z) : M (mem * i2cs) i2c_dev unit := modg (set_cb id (Some f)).

Lemma i2c_irq_read_completes_witness :
  wp (i2c_rx_full reads_again 0 (Some 7)) (fun _ w' =>
    g_i2c_callback_array (hget (S := i2cs) (glob w')) !! 0%nat = Some None \/
    g_i2c_callback_array (hget (S := i2cs) (glob w')) !! 0%nat = Some (Some 7)) (i2c_world i2c_busy).
Proof.
  eapply wp_mono.
  - apply (i2c_irq_read_completes reads_again 7 (fun s s' => s' = set_cb 0 (Some 7) s) 0x8707000 0
      (with_msg (Some 0) 1 i2c_adap0) i2c_half (i2c_world i2c_busy)).
    + split; reflexivity.
    + reflexivity.
    + reflexivity.
    + unfold shared. simpl. unfold Gic.MIN_SPI_ID, Gic.MAX_INT_NUM. lia.
    + split; simpl; lia.
    + simpl. lia.
    + apply mapped_block; simpl; lia.
    + split; apply no_os_laws.
    + intros w. apply wp_modg. split; [reflexivity |]. split; [by apply exchanged_refl | reflexivity].
  - cbv beta. intros _ w' (ins & _ & _ & _ & H). cbv zeta in H. destruct (decide _).
    + destruct H as (s2 & -> & ->). left. reflexivity.
    + rewrite H. right. reflexivity.
Defined.

Lemma i2c_dma_completion_misrouted_witness :
  wp (i2c_dma_finish_func (fun _ _ _ => mret tt) (i2c_dma_get_dmac_req 2 1) DMAC_TRANSMIT_OK)
    (fun _ w' => tr w' = [Wr (0x8707000 + ICR_DMA_CR) 0])
    (i2c_world (set_dma_rx_cb 2 (Some 7) i2c_init_state)).
Proof.
  eapply wp_mono.
  - apply (i2c_dma_completion_misrouted (fun _ _ _ => mret tt) 2 1 _ _ 0x8709000 ltac:(lia)
      (or_intror eq_refl) eq_refl eq_refl eq_refl); reflexivity.
  - cbv beta. intros _ w' [_ ->]. reflexivity.
Defined.
