(* ===== verification/TimerProps.v ===== *)
(** * TimerProps: programming and reading the timers

    What [bm_timer_init] leaves in the registers of its own timer and of no
    other, on every branch; what [bm_timer_get_cnt_value] returns from a
    64-bit counter that counts down while it is read. *)
From S2P Require Import Prelude Hw Common Gic GicProps Osal Os Timer.
From stdpp Require Import prelude gmap list strings.
From Stdlib Require Import ZArith Lia.
Local Open Scope Z_scope.

(** A register that reads back what was last written to it, within one
    trace; [cur] is the value written last. *)
Fixpoint coherent (a : Z) (cur : option Z) (t : list event) : Prop :=
  match t with
  | [] => True
  | Rd b v :: t' =>
      (if decide (b = a) then match cur with Some c => v = c | None => True end else True) /\
      coherent a (if decide (b = a) then Some v else cur) t'
  | Wr b v :: t' => coherent a (if decide (b = a) then Some v else cur) t'
  | Sy _ _ :: t' | Seen _ :: t' => coherent a cur t'
  end.

(** The control word after configuration, from the word before. *)
Definition control_word (cfg : bm_timer_cfg) (old : Z) : Z :=
  let v := bf_set 1 1 (tm_size cfg) (bf_set 2 2 (tm_prescaler cfg) (bf_set 5 1 (tm_interrupten cfg) old)) in
  if tm_mode cfg =? TIMER_MODE_RUN_ONTSHOT then bf_set 0 1 1 v
  else bf_set 6 1 (if tm_mode cfg =? TIMER_MODE_RUN_FREE then 0 else 1) (bf_set 0 1 0 v).

Lemma control_word_fields cfg old : fits 32 old ->
  fits 1 (tm_size cfg) -> fits 2 (tm_prescaler cfg) -> fits 1 (tm_interrupten cfg) ->
  let v := control_word cfg old in
  bf_get 1 1 v = tm_size cfg /\ bf_get 2 2 v = tm_prescaler cfg /\ bf_get 5 1 v = tm_interrupten cfg /\
  bf_get 0 1 v = (if tm_mode cfg =? TIMER_MODE_RUN_ONTSHOT then 1 else 0) /\
  (tm_mode cfg <> TIMER_MODE_RUN_ONTSHOT ->
   bf_get 6 1 v = (if tm_mode cfg =? TIMER_MODE_RUN_FREE then 0 else 1)) /\
  bf_get 7 1 v = bf_get 7 1 old.
Proof.
  intros Ho Hs Hp Hi. unfold control_word. cbv zeta.
  destruct (Z.eqb_spec (tm_mode cfg) TIMER_MODE_RUN_ONTSHOT);
    split_and!; intros;
    repeat first [rewrite bf_get_set_eq by lia | rewrite bf_get_set_ne by lia];
    try (by apply wrap_id); try done.
  by destruct (tm_mode cfg =? TIMER_MODE_RUN_FREE).
Qed.

Lemma coherent_app a cur t t' : coherent a cur (t ++ t') -> coherent a cur t.
Proof.
  revert cur. induction t as [| [b v | b v | op v | m] t IH]; intros cur; simpl; [done | | | |];
    intros H; [destruct H as [H1 H2]; split; [done |] | | |]; by apply IH.
Qed.

(** What [bm_timer_param_check] accepts. *)
Definition valid_timer `{TimerConfig} (cfg : bm_timer_cfg) : Prop :=
  0 <= tm_id cfg < 6 /\ timer_exist_array !! Z.to_nat (tm_id cfg) = Some true /\
  1 <= tm_load_l cfg /\ 0 <= tm_mode cfg <= 2 /\ 0 <= tm_size cfg <= 1 /\
  0 <= tm_prescaler cfg <= 3 /\ 0 <= tm_interrupten cfg <= 1 /\
  (tm_interrupten cfg = 1 -> tm_callback cfg <> NULL).

Lemma is_timer_id_iff `{TimerConfig} id :
  is_timer_id id = true <-> 0 <= id < 6 /\ timer_exist_array !! Z.to_nat id = Some true.
Proof.
  unfold is_timer_id, TIMER_ID_BUTT. rewrite !andb_true_iff, Z.leb_le, Z.ltb_lt.
  destruct (timer_exist_array !! Z.to_nat id) as [[] |]; simpl; intuition congruence.
Qed.

(** Look at the next parameter check. *)
Ltac next_check E := match goal with |- context [if negb ?b then _ else _] => destruct b eqn:E end;
    cbn [negb]; [| right; rewrite !orb_false_iff in E; intuition lia].

Lemma param_check_iff `{TimerConfig} cfg :
  bm_timer_param_check (Some cfg) = BM_OK /\ valid_timer cfg \/
  bm_timer_param_check (Some cfg) = BM_FAIL /\ ~ valid_timer cfg.
Proof.
  pose proof (is_timer_id_iff (tm_id cfg)) as Hid. unfold valid_timer, bm_timer_param_check,
    is_timer_period, is_timer_mode, is_timer_size, is_timer_div, is_timer_interrupt,
    PERIOD_MIN_VALUE, TIMER_MODE_RUN_FREE, TIMER_MODE_RUN_PERIODIC, TIMER_MODE_RUN_ONTSHOT,
    BASE_CFG_SET, BASE_CFG_UNSET, NULL, ctrue.
  destruct (is_timer_id (tm_id cfg)); cbn [negb]; [| right; intuition congruence].
  destruct (Z.leb_spec 1 (tm_load_l cfg)); cbn [negb]; [| right; intuition lia].
  next_check E1. next_check E2. next_check E3. next_check E4.
  rewrite !orb_true_iff in *.
  destruct Hid as [Hid _]. specialize (Hid eq_refl) as [Hid Hex].
  destruct (_ && _) eqn:E5; [right | left]; (split; [done |]).
  - intros Hv. destruct_and! Hv. rewrite andb_true_iff in E5. lia.
  - rewrite andb_false_iff in E5. split_and!; first [done | lia | intros; lia].
Qed.

Section TimerInit.
Context {G D : Type} `{MD : Machine D} `{OS : !Os G D} `{TC : TimerConfig}.
(** The OS layer leaves the timers' registers alone. *)
Context `{OL : !OsLaws G D unit (outside 0x08700000 0x08705000)}.
Implicit Types (w : world G D).

Definition any_timer : event -> Prop := outside 0x08700000 0x08705000.

(** The registers of one timer. *)
Definition own_timer (base : Z) (e : event) : Prop :=
  match e with Rd a _ | Wr a _ => base <= a < base + 0x40 | Sy _ _ | Seen _ => True end.

Lemma register_callback_quiet id cb p : 0 <= id < 6 ->
  quiet (G := G) unit any_timer (bm_timer_register_callback id cb p).
Proof.
  intros Hid. assert (shared (TIMER_BASE_IRQ + id)) as Hs
    by (unfold shared, TIMER_BASE_IRQ, MIN_SPI_ID, MAX_INT_NUM; lia).
  unfold bm_timer_register_callback, bm_get_coreid.
  quiet_steps; eauto using ol_irq_free, ol_irq_set_priority, ol_irq_request, ol_irq_set_affinity,
    ol_irq_enable; done.
Qed.

(** The control word is written in four or five steps. *)
Lemma config_control_spec base cfg w :
  wp (timer_config_control base cfg) (fun _ w' => glob w' = glob w /\ exists t ctl,
    tr w' = tr w ++ t /\ Forall (own_timer base) t /\
    writes_in base (base + 0x40) t = ctl /\
    (coherent (base + timer_control) None t ->
     exists old, fits 32 old /\ last ctl = Some (base + timer_control, u32 (control_word cfg old)))) w.
Proof.
  unfold timer_config_control, control_word, timer_control, BASE_CFG_SET, BASE_CFG_UNSET.
  assert (forall b v off len, fits 32 v -> 0 <= off -> 0 <= len -> off + len <= 32 ->
    u32 (bf_set off len b v) = bf_set off len b v) as Hw.
  { intros b v off len Hv H1 H2 H3. apply wrap_id. by apply bf_set_fits. }
  destruct (tm_mode cfg =? TIMER_MODE_RUN_ONTSHOT); wp_steps; (split; [done |]);
    eexists _, _; trace_simpl; (split; [done |]).
  all: split; [repeat constructor; simpl; lia |]; (split; [writes_in; done |]).
  all: cbn [coherent]; rewrite !decide_True by done; intros Hc; exists x; (split; [done |]); simpl;
    destruct_and!; subst; repeat rewrite Hw by (try lia; repeat apply bf_set_fits; done || lia);
    done.
Qed.

Lemma timer_base id : 0 <= id < 6 -> exists base, timer_reg_bases !! Z.to_nat id = Some base /\
  0x08700000 <= base /\ base + 0x40 <= 0x08705000.
Proof.
  intros Hid. assert (id = 0 \/ id = 1 \/ id = 2 \/ id = 3 \/ id = 4 \/ id = 5)
    as [-> | [-> | [-> | [-> | [-> | ->]]]]] by lia;
    eexists; (split; [reflexivity | lia]).
Qed.

(** The OS layer's part, seen from the timer. *)
Lemma maybe_register cfg w : 0 <= tm_id cfg < 6 ->
  wp (when (ctrue (tm_interrupten cfg))
        (bm_timer_register_callback (tm_id cfg) (tm_callback cfg) (tm_param cfg)))
     (fun _ w' => exists t, tr w' = tr w ++ t /\ Forall any_timer t) w.
Proof.
  intros Hid. destruct (ctrue _); cbn [when].
  - wp_apply register_callback_quiet; [done |]. intros [] w' [_ H]. exact H.
  - apply wp_ret. exists []. by rewrite app_nil_r.
Qed.

(** [bm_timer_init] rejects a NULL or bad configuration without any
    effect.  Otherwise it clears the timer's interrupt, writes both halves of
    the load and background load values and then the control word, all in the
    block of that timer and of no other; if the control register keeps what
    is written to it, it ends up with the mode, size, prescaler and interrupt
    enable asked for, and with the run bit as it was. *)
Theorem timer_init_programs cfg w :
  fits 32 (tm_load_l cfg) -> fits 32 (tm_load_h cfg) ->
  fits 32 (tm_bgload_l cfg) -> fits 32 (tm_bgload_h cfg) ->
  wp (bm_timer_init (Some cfg)) (fun r w' =>
    (r = BM_FAIL /\ ~ valid_timer cfg /\ w' = w) \/
    (r = BM_OK /\ valid_timer cfg /\ exists base t ctl,
       timer_reg_bases !! Z.to_nat (tm_id cfg) = Some base /\ tr w' = tr w ++ t /\
       Forall (fun e => own_timer base e \/ any_timer e) t /\
       writes_in base (base + 0x40) t =
         [(base + timer_intclr, 1); (base + timer_load_l, tm_load_l cfg);
          (base + timer_load_h, tm_load_h cfg); (base + timer_bgload_l, tm_bgload_l cfg);
          (base + timer_bgload_h, tm_bgload_h cfg)] ++ ctl /\
       (coherent (base + timer_control) None t -> exists old v, fits 32 old /\
          last ctl = Some (base + timer_control, v) /\
          bf_get 1 1 v = tm_size cfg /\ bf_get 2 2 v = tm_prescaler cfg /\
          bf_get 5 1 v = tm_interrupten cfg /\
          bf_get 0 1 v = (if tm_mode cfg =? TIMER_MODE_RUN_ONTSHOT then 1 else 0) /\
          (tm_mode cfg <> TIMER_MODE_RUN_ONTSHOT ->
           bf_get 6 1 v = (if tm_mode cfg =? TIMER_MODE_RUN_FREE then 0 else 1)) /\
          bf_get 7 1 v = bf_get 7 1 old))) w.
Proof.
  intros F1 F2 F3 F4. unfold bm_timer_init. cbv zeta.
  destruct (param_check_iff cfg) as [[-> Hv] | [-> Hv]]; [| apply wp_ret; by left].
  change (ctrue BM_OK) with false. cbn iota. wp_step. apply wp_some_or. exists cfg. split; [done |].
  pose proof Hv as (Hid & _ & _ & _ & Hsz & Hpre & Hint & _).
  destruct (timer_base _ Hid) as (base & Hbase & Hlo & Hhi).
  wp_step. unfold bm_timer_config, timer_regs. wp_step. apply wp_some_or. exists base. split; [done |].
  unfold BASE_CFG_SET. do 11 wp_step. wp_apply config_control_spec.
  intros [] w1 (_ & t1 & ctl & Ht1 & Hown & Hctl & Hcoh).
  wp_apply maybe_register; [done |]. intros [] w2 (t2 & Ht2 & Hout). apply wp_ret.
  right. split; [done |]. split; [done |]. exists base. eexists _, ctl. split; [done |].
  rewrite Ht2, Ht1. cbn [tr]. trace_simpl. split; [done |].
  rewrite !(wrap_id 32) by (done || (unfold fits; lia)).
  unfold timer_intclr, timer_load_l, timer_load_h, timer_bgload_l, timer_bgload_h in *. split; [| split].
  - repeat (apply Forall_cons_2; [left; simpl; lia |]). apply Forall_app. split.
    + eapply Forall_impl; [exact Hown | by left].
    + eapply Forall_impl; [exact Hout | by right].
  - writes_in. rewrite Hctl, (writes_in_outside _ _ t2), app_nil_r; [done |].
    eapply Forall_impl; [exact Hout |]. intros [a v | a v | op v | m]; simpl; [lia | lia | done | done].
  - intros Hc. cbn [coherent] in Hc. unfold timer_control in *. rewrite !decide_False in Hc by lia.
    apply coherent_app in Hc. destruct (Hcoh Hc) as (old & Hold & Hlast).
    exists old, (u32 (control_word cfg old)). split; [done |]. split; [done |].
    rewrite wrap_id; [by apply control_word_fields; first [done | unfold fits; lia] |].
    unfold control_word. destruct (tm_mode cfg =? _); repeat apply bf_set_fits; (done || lia).
Qed.
End TimerInit.

(** ** Reading a counter that moves

    A timer of 64 bits counting down: every access finds it one lower. *)
Record down := Down { dn_count : Z }.
#[export] Instance down_machine : Machine down := {|
  m_load a d := (if a mod 0x40 =? timer_value_l then u32 (dn_count d)
                 else if a mod 0x40 =? timer_value_h then Z.shiftr (dn_count d) 32 else 0,
                 Down (dn_count d - 1));
  m_store a v d := Down (dn_count d - 1);
  m_sys op d := (0, Down (dn_count d - 1));
|}.

(** [bm_timer_get_cnt_value] reads the low half and then the high half.
    From a counter at [n] it returns [n], unless the low half was 0: then the
    high half has moved on before it is read, and the value returned is 2^32
    too small, which the counter never had nor will have for 2^32 ticks. *)
Theorem timer_count_torn `{TimerConfig} {G} id n (g : G) t :
  is_timer_id id = true -> 0 < n < 2 ^ 64 ->
  wp (bm_timer_get_cnt_value id true true)
     (fun r _ => exists l h, r = (BM_OK, Some (l, h)) /\
        l + Z.shiftl h 32 = if decide (n mod 2 ^ 32 = 0) then n - 2 ^ 32 else n)
     (World g (Down n) t).
Proof.
  intros Hid Hn. unfold bm_timer_get_cnt_value. rewrite Hid. cbn [negb orb].
  apply is_timer_id_iff in Hid as [Hid _]. unfold timer_regs.
  assert (exists base, timer_reg_bases !! Z.to_nat id = Some base /\ base mod 0x40 = 0)
    as (base & Hb & Hmod).
  { assert (id = 0 \/ id = 1 \/ id = 2 \/ id = 3 \/ id = 4 \/ id = 5)
      as [-> | [-> | [-> | [-> | [-> | ->]]]]] by lia; eexists; split; reflexivity. }
  wp_step. apply wp_some_or. exists base. split; [done |].
  assert ((base + timer_value_l) mod 0x40 = timer_value_l) as E1
    by (rewrite Z.add_mod, Hmod by lia; reflexivity).
  assert ((base + timer_value_h) mod 0x40 = timer_value_h) as E2
    by (rewrite Z.add_mod, Hmod by lia; reflexivity).
  unfold wp, mbind, M_bind, readl. cbn [dev m_load down_machine dn_count]. rewrite E1, E2. simpl.
  exists (u32 (u32 n)), (u32 (Z.shiftr (n - 1) 32)). split; [done |].
  rewrite wrap_idem, Z.shiftl_mul_pow2, Z.shiftr_div_pow2 by lia. unfold wrap.
  assert ((n - 1) / 2 ^ 32 < 2 ^ 32) by (apply Z.div_lt_upper_bound; lia).
  assert (0 <= (n - 1) / 2 ^ 32) by (apply Z.div_pos; lia).
  rewrite (Z.mod_small ((n - 1) / 2 ^ 32)) by lia.
  pose proof (Z.div_mod n (2 ^ 32) ltac:(lia)). pose proof (Z.mod_pos_bound n (2 ^ 32) ltac:(lia)).
  case_decide as Hz.
  - assert ((n - 1) / 2 ^ 32 = n / 2 ^ 32 - 1) as ->; [| lia].
    symmetry. apply (Z.div_unique_pos _ _ _ (2 ^ 32 - 1)); lia.
  - assert ((n - 1) / 2 ^ 32 = n / 2 ^ 32) as ->; [| lia].
    symmetry. apply (Z.div_unique_pos _ _ _ (n mod 2 ^ 32 - 1)); lia.
Qed.

(** ** Witnesses: the OS layer that does nothing *)
#[local] Instance all_timers : TimerConfig.
Proof. refine {| timer_exist_array := replicate 6 true |}. reflexivity. Defined.

#[local] Instance no_os {G D} : Os G D := {|
  os_irq_request _ _ _ := mret 0; os_irq_free _ := mret tt; os_irq_enable _ := mret tt;
  os_irq_disable _ := mret tt; os_irq_set_priority _ _ := mret 0;
  os_irq_set_affinity _ _ := mret 0; os_sem_init _ _ := mret 0; os_sem_destroy _ := mret tt;
  os_sem_down_timeout _ _ := mret 0; os_sem_up _ := mret tt;
|}.
#[local] Instance no_os_laws {G D S P} `{!Has G S} : OsLaws G D S P.
Proof. split; intros; apply quiet_ret. Qed.

(** One second, periodic, with an interrupt. *)
Definition tick_cfg : bm_timer_cfg := TimerCfg 2 100000000 0 1 1 0 0 100000000 0 0x500 0.

Lemma timer_init_programs_witness :
  valid_timer tick_cfg /\
  wp (bm_timer_init (Some tick_cfg)) (fun r w' => r = BM_OK) (World tt ram0 []).
Proof.
  assert (valid_timer tick_cfg) as Hv.
  { unfold valid_timer. simpl. split_and!; first [lia | reflexivity | discriminate]. }
  split; [exact Hv |]. eapply wp_mono.
  - apply (timer_init_programs (G := unit) (D := ram) tick_cfg (World tt ram0 []));
      unfold fits; simpl; lia.
  - intros r w' [(_ & Hn & _) | [Hr _]]; [destruct (Hn Hv) | exact Hr].
Defined.

Lemma timer_count_torn_witness :
  wp (bm_timer_get_cnt_value (G := unit) 0 true true)
     (fun r _ => exists l h, r = (BM_OK, Some (l, h)) /\ l + Z.shiftl h 32 = 2 ^ 33)
     (World tt (Down (3 * 2 ^ 32)) []).
Proof. apply (timer_count_torn 0 (3 * 2 ^ 32) tt []); [reflexivity | lia]. Defined.
