(* ===== verification/Wdg.v ===== *)
(** * Wdg: the five watchdogs (drivers/watchdog/wdg.c)

    A watchdog's registers are write-protected by its lock register: every
    operation unlocks, writes, and locks again.  The interrupt handler calls
    the client's function and reloads the watchdog with 1, so that it resets
    the chip unless it is fed. *)
From S2P Require Import Prelude Hw Common Gic Osal Os.
From stdpp Require Import prelude gmap list strings.
From Stdlib Require Import ZArith Lia.
Local Open Scope Z_scope.

Definition WDG_ID_BUTT : Z := 5.
Definition WDG_BASE_IRQ : Z := 136.
Definition WDG_UNLOCK_VALUE : Z := 0x1acce551.
Definition WDG_LOCK_VALUE : Z := 0x5a5a5a5a.
Definition WDG_RESET_VALUE : Z := 1.
Definition WDG_RESET_MODE : Z := 3.
Definition WDG_CTRL_PER_BITS : Z := 4.

Definition SYSCTRL_CSR_WD_CTRL_REG_OFFSET_ADDR : Z := 0x48.

Definition g_wdg_reg_bases : list Z := [0x08763000; 0x08764000; 0x08765000; 0x08766000; 0x08767000].

(** Offsets in [wdg_reg_struct]. *)
Definition wdg_load : Z := 0x0.
Definition wdg_value : Z := 0x4.
Definition wdg_control : Z := 0x8.
Definition wdg_intclr : Z := 0xc.
Definition wdg_lock_reg : Z := 0xc00.

(** The watchdogs present in the build, the address of the handler and those
    of the adapters' numbers. *)
Class WdgConfig := {
  wdg_exist_array : list bool;
  wdg_exist_length : length wdg_exist_array = 5%nat;
  wdg_isr : Z;
  wdg_adapter_addr : Z -> Z;  (* &g_wdg_platdrv_adap_list[id].wdg_id *)
}.

Record wdg_adapter := WdgAdapter { wa_id : Z; wa_callback : option Z }.
Record wdgs := Wdgs { g_wdg_platdrv_adap_list : list wdg_adapter }.
Definition wdg_init_state : wdgs := Wdgs (replicate 5 (WdgAdapter 0 None)).
Definition set_adapter (id : Z) (a : wdg_adapter) (s : wdgs) : wdgs :=
  Wdgs (<[Z.to_nat id := a]> (g_wdg_platdrv_adap_list s)).

Record bm_wdg_cfg := WdgCfg { wc_id : Z; wc_load : Z; wc_callback : Z }.

Section Wdg.
Context {G D : Type} `{MD : Machine D} `{HS : !Has G wdgs} `{OS : !Os G D} `{WC : WdgConfig}.
(** Calling the client's function. *)
Context (call_user : Z -> Z -> M G D unit).
Abbreviation M := (M G D).

Definition watchdog_sysctl_set (wdg_id wdg_mask rst_ctrl : Z) : M unit :=
  let bits := Z.lor (Z.land wdg_mask 1) (Z.shiftl (Z.land rst_ctrl WDG_RESET_MODE) 1) in
  let bits := u32 (Z.shiftl bits (wdg_id * WDG_CTRL_PER_BITS)) in
  let mask := u32 (Z.shiftl 0xf (wdg_id * WDG_CTRL_PER_BITS)) in
  _ ← bm_sysctrl_reg_read_write SYSCTRL_CSR_WD_CTRL_REG_OFFSET_ADDR mask bits; mret tt.

Definition is_wdg_id (id : Z) : bool :=
  (0 <=? id) && (id <? WDG_ID_BUTT) && default false (wdg_exist_array !! Z.to_nat id).

Definition wdg_regs (id : Z) : M Z := some_or OutOfBounds (g_wdg_reg_bases !! Z.to_nat id).

Definition wdg_lock (id : Z) (lock_on : bool) : M unit :=
  regs ← wdg_regs id;
  if lock_on then writel WDG_LOCK_VALUE (regs + wdg_lock_reg)
  else writel WDG_UNLOCK_VALUE (regs + wdg_lock_reg).

(** The bracket around every change: unlock, write, lock again. *)
Definition wdg_unlocked (id : Z) (change : Z -> M unit) : M unit :=
  regs ← wdg_regs id;
  wdg_lock id false ;;
  change regs ;;
  wdg_lock id true.

(** [id] is what the argument points to. *)
Definition wdg_interrupt_handle (id : Z) : M Z :=
  s ← gets;
  a ← some_or OutOfBounds (g_wdg_platdrv_adap_list s !! Z.to_nat id);
  match wa_callback a with Some f => call_user f id | None => mret tt end ;;
  wdg_unlocked id (fun regs => writel WDG_RESET_VALUE (regs + wdg_load)) ;;
  mret BM_OK.

Definition wdg_set_callback (id : Z) (f : option Z) : M unit :=
  s ← gets;
  a ← some_or OutOfBounds (g_wdg_platdrv_adap_list s !! Z.to_nat id);
  puts (set_adapter id (WdgAdapter (wa_id a) f) s).
Definition wdg_set_id (id : Z) : M unit :=
  s ← gets;
  a ← some_or OutOfBounds (g_wdg_platdrv_adap_list s !! Z.to_nat id);
  puts (set_adapter id (WdgAdapter id (wa_callback a)) s).

(** Unlock, clear the interrupt, load, turn off, lock. *)
Definition wdg_reload (id load : Z) : M unit :=
  wdg_unlocked id (fun regs =>
    writel 1 (regs + wdg_intclr) ;;
    writel load (regs + wdg_load) ;;
    writel 0 (regs + wdg_control)).

Definition bm_wdg_init (cfg : option bm_wdg_cfg) : M Z :=
  match cfg with
  | None => mret BM_FAIL
  | Some cfg =>
      let id := wc_id cfg in
      if negb (is_wdg_id id) then mret BM_FAIL
      else if wc_callback cfg =? NULL then mret BM_FAIL
      else
        wdg_reload id (wc_load cfg) ;;
        watchdog_sysctl_set id 0 WDG_RESET_MODE ;;
        wdg_set_callback id (Some (wc_callback cfg)) ;;
        wdg_set_id id ;;
        core ← bm_get_coreid;
        os_irq_free (WDG_BASE_IRQ + id) ;;
        _ ← os_irq_set_priority (WDG_BASE_IRQ + id) 6;
        _ ← os_irq_request (WDG_BASE_IRQ + id) wdg_isr (wdg_adapter_addr id);
        _ ← os_irq_set_affinity (WDG_BASE_IRQ + id) (Z.shiftl 1 core);
        os_irq_enable (WDG_BASE_IRQ + id) ;;
        mret BM_OK
  end.

Definition bm_wdg_deinit (id : Z) : M Z :=
  if negb (is_wdg_id id) then mret BM_FAIL
  else
    wdg_reload id 0 ;;
    wdg_set_callback id None ;;
    os_irq_free (WDG_BASE_IRQ + id) ;; mret BM_OK.

(** Both enables of the control register, interrupt first. *)
Definition wdg_switch (id v : Z) : M unit :=
  wdg_unlocked id (fun regs =>
    rmw_field (regs + wdg_control) 0 1 v ;;
    rmw_field (regs + wdg_control) 1 1 v).

Definition bm_wdg_enable (id : Z) : M Z :=
  if negb (is_wdg_id id) then mret BM_FAIL else wdg_switch id 1 ;; mret BM_OK.
Definition bm_wdg_disable (id : Z) : M Z :=
  if negb (is_wdg_id id) then mret BM_FAIL else wdg_switch id 0 ;; mret BM_OK.

Definition bm_wdg_feed (id : Z) : M Z :=
  if negb (is_wdg_id id) then mret BM_FAIL
  else wdg_unlocked id (fun regs => writel 1 (regs + wdg_intclr)) ;; mret BM_OK.

Definition bm_wdg_get_cnt_value (id : Z) (val : bool) : M (Z * option Z) :=
  if negb (is_wdg_id id) then mret (BM_FAIL, None)
  else if negb val then mret (BM_FAIL, None)
  else regs ← wdg_regs id; v ← readl (regs + wdg_value); mret (BM_OK, Some v).
End Wdg.
