(* ===== verification/WdgProps.v ===== *)
(** * WdgProps: the watchdogs' lock, and what an initialisation sets up *)
From S2P Require Import Prelude Hw Common Gic Osal Os Wdg.
From stdpp Require Import prelude gmap list strings.
From Stdlib Require Import ZArith Lia.
Local Open Scope Z_scope.

(** The writes to one watchdog's block respect its lock: a register other
    than the lock is written only between an unlock and the next lock, and
    the watchdog is locked at the end. *)
Fixpoint guarded (base : Z) (unlocked : bool) (ws : list (Z * Z)) : bool :=
  match ws with
  | [] => negb unlocked
  | (a, v) :: ws' =>
      if a =? base + wdg_lock_reg then guarded base (v =? WDG_UNLOCK_VALUE) ws'
      else unlocked && guarded base unlocked ws'
  end.

Lemma guarded_app base u ws ws' : guarded base u ws = true -> guarded base false ws' = true ->
  guarded base u (ws ++ ws') = true.
Proof.
  revert u. induction ws as [| [a v] ws IH]; intros u; simpl.
  - by destruct u.
  - intros H H'. destruct (a =? _); [by apply IH |]. apply andb_true_iff in H as [-> H]. by apply IH.
Qed.

(** The block of one watchdog. *)
Definition wdg_writes (base : Z) (t : list event) : list (Z * Z) := writes_in base (base + 0x1000) t.

(** A trace that respects every watchdog's lock. *)
Definition locks_respected (t : list event) : Prop :=
  Forall (fun base => guarded base false (wdg_writes base t) = true) g_wdg_reg_bases.

(** A trace that touches one watchdog at most. *)
Definition only_wdg (id : Z) (t : list event) : Prop :=
  forall j base, g_wdg_reg_bases !! j = Some base -> j <> Z.to_nat id -> wdg_writes base t = [].

Lemma locks_app t t' : locks_respected t -> locks_respected t' -> locks_respected (t ++ t').
Proof.
  unfold locks_respected, wdg_writes. intros H H'. apply Forall_forall. intros base Hin.
  rewrite writes_in_app. rewrite Forall_forall in H, H'. apply guarded_app; auto.
Qed.

Lemma only_app id t t' : only_wdg id t -> only_wdg id t' -> only_wdg id (t ++ t').
Proof. intros H H' j base Hb Hj. unfold wdg_writes. rewrite writes_in_app.
  specialize (H j base Hb Hj). specialize (H' j base Hb Hj). unfold wdg_writes in *. by rewrite H, H'.
Qed.

Definition any_wdg : event -> Prop := outside 0x08763000 0x08768000.

Lemma wdg_base j base : g_wdg_reg_bases !! j = Some base ->
  base = 0x08763000 + 0x1000 * Z.of_nat j /\ (j < 5)%nat.
Proof. do 5 (destruct j as [| j]; [intros [= <-]; split; lia |]). done. Qed.

(** Accesses elsewhere respect everything. *)
Lemma elsewhere_writes t j base : Forall any_wdg t -> g_wdg_reg_bases !! j = Some base ->
  wdg_writes base t = [].
Proof.
  intros H Hb. apply wdg_base in Hb as [-> Hj]. apply writes_in_outside.
  eapply Forall_impl; [exact H |]. intros [a v | a v | op v | m]; simpl; lia.
Qed.

Lemma elsewhere_ok id t : Forall any_wdg t -> locks_respected t /\ only_wdg id t.
Proof.
  intros H. split.
  - apply Forall_lookup. intros j base Hb. by rewrite (elsewhere_writes t j base).
  - intros j base Hb _. by apply (elsewhere_writes t j).
Qed.

(** Writes to one watchdog that its lock guards. *)
Lemma own_ok id base t ws : g_wdg_reg_bases !! Z.to_nat id = Some base ->
  Forall (fun e => match e with Rd a _ | Wr a _ => base <= a < base + 0x1000 | Sy _ _ | Seen _ => True end) t ->
  wdg_writes base t = ws -> guarded base false ws = true ->
  locks_respected t /\ only_wdg id t.
Proof.
  intros Hb Hf Hw Hg. assert (only_wdg id t) as Ho.
  { intros j b Hj Hne. apply wdg_base in Hb as [-> H1]. apply wdg_base in Hj as [-> H2].
    apply writes_in_outside. eapply Forall_impl; [exact Hf |].
    intros [a v | a v | op v | m]; simpl; lia. }
  split; [| done]. apply Forall_lookup. intros j b Hj.
  destruct (decide (j = Z.to_nat id)) as [-> | Hne]; [| by rewrite (Ho j b)].
  rewrite Hb in Hj. injection Hj as <-. by rewrite Hw.
Qed.

Lemma is_wdg_id_iff `{WdgConfig} id :
  is_wdg_id id = true <-> 0 <= id < 5 /\ wdg_exist_array !! Z.to_nat id = Some true.
Proof.
  unfold is_wdg_id, WDG_ID_BUTT. rewrite !andb_true_iff, Z.leb_le, Z.ltb_lt.
  destruct (wdg_exist_array !! Z.to_nat id) as [[] |]; simpl; intuition congruence.
Qed.

Section Locks.
Context {G D : Type} `{MD : Machine D} `{HS : !Has G wdgs} `{OS : !Os G D} `{WC : WdgConfig}.
Context `{OL : !OsLaws G D wdgs any_wdg}.
Abbreviation wdgof w := (hget (S := wdgs) (glob w)).
Implicit Types (w : world G D).

(** From [w] to [w'] the locks were respected and only [id] was touched. *)
Definition respectful (id : Z) (w w' : world G D) : Prop :=
  exists t, tr w' = tr w ++ t /\ locks_respected t /\ only_wdg id t.

Lemma respectful_refl id w : respectful id w w.
Proof. exists []. rewrite app_nil_r. split; [done |]. by apply elsewhere_ok. Qed.

Lemma respectful_trans id w1 w2 w3 : respectful id w1 w2 -> respectful id w2 w3 -> respectful id w1 w3.
Proof.
  intros (t & Ht & L & O) (t' & Ht' & L' & O'). exists (t ++ t'). rewrite Ht', Ht, app_assoc.
  split; [done |]. split; [by apply locks_app | by apply only_app].
Qed.

Definition wdg_wf (s : wdgs) : Prop := length (g_wdg_platdrv_adap_list s) = 5%nat.

Lemma base_of id : 0 <= id < 5 -> exists base, g_wdg_reg_bases !! Z.to_nat id = Some base /\
  base = 0x08763000 + 0x1000 * id.
Proof.
  intros Hid. assert (id = 0 \/ id = 1 \/ id = 2 \/ id = 3 \/ id = 4)
    as [-> | [-> | [-> | [-> | ->]]]] by lia; eexists; (split; reflexivity).
Qed.

(** Writes that the lock protects. *)
Definition protected (base : Z) (e : event) : Prop :=
  match e with
  | Rd a _ => base <= a < base + 0x1000
  | Wr a _ => base <= a < base + 0x1000 /\ a <> base + wdg_lock_reg
  | Sy _ _ | Seen _ => True
  end.

Lemma guarded_protected base t ws : Forall (protected base) t ->
  guarded base true (wdg_writes base t ++ ws) = guarded base true ws.
Proof.
  unfold wdg_writes. induction 1 as [| [a v | a v | op v | m] t H _ IH]; [done | exact IH | | exact IH | exact IH].
  destruct H as [H1 H2]. rewrite writes_in_wr by done. cbn [app guarded].
  by rewrite (proj2 (Z.eqb_neq _ _) H2).
Qed.

(** Unlocking, changing, locking. *)
Lemma unlocked_spec id change w : 0 <= id < 5 ->
  (forall base w1, emits (change base) w1 (fun _ t => Forall (protected base) t)) ->
  wp (wdg_unlocked id change) (fun _ w' => glob w' = glob w /\ respectful id w w') w.
Proof.
  intros Hid Hc. destruct (base_of id Hid) as (base & Hb & Eb).
  unfold wdg_unlocked, wdg_lock, wdg_regs. rewrite Hb.
  wp_step. apply wp_some_or. exists base. split; [done |]. wp_step. wp_step.
  apply wp_some_or. exists base. split; [done |]. wp_step. wp_step.
  wp_apply Hc. intros [] w1 (Hg & t & Ht & HP). wp_step. apply wp_some_or. exists base. split; [done |].
  wp_step. split; [done |]. eexists. rewrite Ht. cbn [tr]. trace_simpl. split; [done |].
  eapply own_ok; [done | | reflexivity |].
  - constructor; [unfold wdg_lock_reg; lia |]. apply Forall_app. split.
    + eapply Forall_impl; [exact HP |]. intros [a v | a v | op v | m]; simpl; tauto.
    + repeat constructor; unfold wdg_lock_reg; lia.
  - unfold wdg_writes, wdg_lock_reg in *. rewrite writes_in_wr by lia. cbn [guarded].
    rewrite Z.eqb_refl. change (u32 WDG_UNLOCK_VALUE =? WDG_UNLOCK_VALUE) with true.
    rewrite writes_in_app. fold (wdg_writes base t). rewrite guarded_protected by done.
    rewrite writes_in_wr by lia. cbn [guarded]. rewrite Z.eqb_refl. done.
Qed.

Ltac protected :=
  emits_steps; repeat constructor; unfold wdg_lock_reg, wdg_load, wdg_intclr, wdg_control; lia.

Lemma emits_rmw_field addr off len v w (P : unit -> list event -> Prop) :
  (forall x, P tt [Rd addr x; Wr addr (u32 (bf_set off len v x))]) -> emits (rmw_field addr off len v) w P.
Proof. intros H. unfold rmw_field. emits_steps. apply H. Qed.

Lemma reload_spec id load w : 0 <= id < 5 ->
  wp (wdg_reload id load) (fun _ w' => glob w' = glob w /\ respectful id w w') w.
Proof. intros Hid. apply unlocked_spec; [done |]. intros base w1. protected. Qed.

Lemma switch_spec id v w : 0 <= id < 5 ->
  wp (wdg_switch id v) (fun _ w' => glob w' = glob w /\ respectful id w w') w.
Proof.
  intros Hid. apply unlocked_spec; [done |]. intros base w1.
  apply emits_bind, emits_rmw_field. intros x w2 _. apply emits_rmw_field. intros y.
  repeat constructor; unfold wdg_lock_reg, wdg_control; lia.
Qed.

(** The OS layer and the system controller are elsewhere. *)
Lemma quiet_respectful {A} id (m : M G D A) (Q : A -> world G D -> Prop) w :
  quiet wdgs any_wdg m ->
  (forall a w', wdgof w' = wdgof w -> respectful id w w' -> Q a w') -> wp m Q w.
Proof.
  intros Hm HQ. eapply wp_mono; [apply Hm |]. cbv beta. intros a w' (Hd & t & Ht & HP).
  apply HQ; [done |]. exists t. split; [done |]. by apply elsewhere_ok.
Qed.

Lemma sysctl_quiet id m r : quiet (G := G) wdgs any_wdg (watchdog_sysctl_set id m r).
Proof.
  unfold watchdog_sysctl_set, bm_sysctrl_reg_read_write, csr_reg_read_write.
  quiet_steps; vm_compute; auto.
Qed.

Lemma wdg_irq_shared id : 0 <= id < 5 -> shared (WDG_BASE_IRQ + id).
Proof. unfold shared, WDG_BASE_IRQ, MIN_SPI_ID, MAX_INT_NUM. lia. Qed.

Lemma set_callback_spec id f w : 0 <= id < 5 -> wdg_wf (wdgof w) ->
  wp (wdg_set_callback id f) (fun _ w' => wdg_wf (wdgof w') /\ tr w' = tr w /\
    exists a, g_wdg_platdrv_adap_list (wdgof w) !! Z.to_nat id = Some a /\
      wdgof w' = set_adapter id (WdgAdapter (wa_id a) f) (wdgof w)) w.
Proof.
  intros Hid Hwf. destruct (lookup_lt_is_Some_2 (g_wdg_platdrv_adap_list (wdgof w)) (Z.to_nat id))
    as [a Ha]; [rewrite Hwf; lia |].
  unfold wdg_set_callback. wp_steps. apply wp_some_or. exists a. split; [done |]. wp_steps.
  rewrite hget_hput. split; [unfold wdg_wf; simpl; by rewrite length_insert |]. split; [done |].
  by exists a.
Qed.

Lemma set_id_spec id w : 0 <= id < 5 -> wdg_wf (wdgof w) ->
  wp (wdg_set_id id) (fun _ w' => wdg_wf (wdgof w') /\ tr w' = tr w /\
    exists a, g_wdg_platdrv_adap_list (wdgof w) !! Z.to_nat id = Some a /\
      wdgof w' = set_adapter id (WdgAdapter id (wa_callback a)) (wdgof w)) w.
Proof.
  intros Hid Hwf. destruct (lookup_lt_is_Some_2 (g_wdg_platdrv_adap_list (wdgof w)) (Z.to_nat id))
    as [a Ha]; [rewrite Hwf; lia |].
  unfold wdg_set_id. wp_steps. apply wp_some_or. exists a. split; [done |]. wp_steps.
  rewrite hget_hput. split; [unfold wdg_wf; simpl; by rewrite length_insert |]. split; [done |].
  by exists a.
Qed.

Lemma respectful_tr id w1 w2 : tr w2 = tr w1 -> respectful id w1 w2.
Proof. intros E. exists []. rewrite app_nil_r, E. split; [done |]. by apply elsewhere_ok. Qed.

(** Registering the interrupt, through the OS layer. *)
Lemma init_irq_spec id w : 0 <= id < 5 ->
  wp (core ← bm_get_coreid;
      os_irq_free (WDG_BASE_IRQ + id) ;;
      _ ← os_irq_set_priority (WDG_BASE_IRQ + id) 6;
      _ ← os_irq_request (WDG_BASE_IRQ + id) wdg_isr (wdg_adapter_addr id);
      _ ← os_irq_set_affinity (WDG_BASE_IRQ + id) (Z.shiftl 1 core);
      os_irq_enable (WDG_BASE_IRQ + id) ;;
      mret BM_OK)
     (fun r w' => r = BM_OK /\ wdgof w' = wdgof w /\ respectful id w w') w.
Proof.
  intros Hid. pose proof (wdg_irq_shared id Hid). unfold bm_get_coreid.
  do 5 wp_step. apply (quiet_respectful id); [by apply ol_irq_free |]. intros _ w1 D1 R1.
  wp_step. apply (quiet_respectful id); [by apply ol_irq_set_priority |]. intros _ w2 D2 R2.
  wp_step. apply (quiet_respectful id); [by apply ol_irq_request |]. intros _ w3 D3 R3.
  wp_step. apply (quiet_respectful id); [by apply ol_irq_set_affinity |]. intros _ w4 D4 R4.
  wp_step. apply (quiet_respectful id); [by apply ol_irq_enable |]. intros _ w5 D5 R5.
  apply wp_ret. split; [done |]. split; [cbn [glob] in *; congruence |].
  eapply respectful_trans; [| eapply respectful_trans; [exact R1 | eapply respectful_trans; [exact R2 |
    eapply respectful_trans; [exact R3 | eapply respectful_trans; [exact R4 | exact R5]]]]].
  exists [Sy (Mrs MPIDR_EL1) v]. split; [done |]. apply elsewhere_ok. by repeat constructor.
Qed.

Lemma init_spec cfg w : wdg_wf (wdgof w) ->
  wp (bm_wdg_init (Some cfg)) (fun r w' => wdg_wf (wdgof w') /\ respectful (wc_id cfg) w w' /\
    (r = BM_FAIL /\ w' = w /\ ~ (is_wdg_id (wc_id cfg) = true /\ wc_callback cfg <> NULL) \/
     r = BM_OK /\ is_wdg_id (wc_id cfg) = true /\ wc_callback cfg <> NULL /\
     wdgof w' = set_adapter (wc_id cfg) (WdgAdapter (wc_id cfg) (Some (wc_callback cfg))) (wdgof w))) w.
Proof.
  intros Hwf. unfold bm_wdg_init. cbv zeta. destruct (is_wdg_id (wc_id cfg)) eqn:Eid; cbn [negb].
  2: { apply wp_ret. split; [done |]. split; [apply respectful_refl |]. left. intuition congruence. }
  destruct (Z.eqb_spec (wc_callback cfg) NULL).
  { apply wp_ret. split; [done |]. split; [apply respectful_refl |]. left. tauto. }
  pose proof (proj1 (is_wdg_id_iff _) Eid) as [Hid _].
  wp_step. wp_apply reload_spec; [done |]. intros [] w1 [G1 R1].
  wp_step. apply (quiet_respectful (wc_id cfg)); [apply sysctl_quiet |]. intros [] w2 D2 R2.
  assert (wdg_wf (wdgof w2)) as Hwf2 by (rewrite D2, G1; done).
  wp_step. wp_apply set_callback_spec; [done | done |]. intros [] w3 (Hwf3 & T3 & a & Ha & D3).
  wp_step. wp_apply set_id_spec; [done | done |]. intros [] w4 (Hwf4 & T4 & b & Hb & D4).
  wp_apply init_irq_spec; [done |]. intros r w5 (-> & D5 & R5).
  split; [by rewrite D5 |]. split.
  { eapply respectful_trans; [exact R1 | eapply respectful_trans; [exact R2 |
      eapply respectful_trans; [| exact R5]]]. apply respectful_tr. congruence. }
  right. split; [done |]. split; [done |]. split; [done |].
  rewrite D3 in Hb. cbn [g_wdg_platdrv_adap_list set_adapter] in Hb.
  rewrite list_lookup_insert_eq in Hb by (rewrite Hwf2; lia). injection Hb as <-.
  rewrite D5, D4, D3, D2, G1. unfold set_adapter. cbn [g_wdg_platdrv_adap_list wa_callback].
  by rewrite list_insert_insert_eq.
Qed.

(** Calling the client's function. *)
Context (call_user : Z -> Z -> M G D unit).

(** The operations of the driver. *)
Inductive wdg_op :=
| OpInit (cfg : bm_wdg_cfg) | OpDeinit (id : Z) | OpEnable (id : Z) | OpDisable (id : Z)
| OpFeed (id : Z) | OpCount (id : Z) | OpInterrupt (id : Z).

Definition op_id (op : wdg_op) : Z :=
  match op with
  | OpInit cfg => wc_id cfg
  | OpDeinit id | OpEnable id | OpDisable id | OpFeed id | OpCount id | OpInterrupt id => id
  end.

Definition run_op (op : wdg_op) : M G D Z :=
  match op with
  | OpInit cfg => bm_wdg_init (Some cfg)
  | OpDeinit id => bm_wdg_deinit id
  | OpEnable id => bm_wdg_enable id
  | OpDisable id => bm_wdg_disable id
  | OpFeed id => bm_wdg_feed id
  | OpCount id => r ← bm_wdg_get_cnt_value id true; mret (fst r)
  | OpInterrupt id => wdg_interrupt_handle call_user id
  end.

(** The client's function may use the driver, as long as it keeps to it. *)
Definition client_ok : Prop := forall f id w, wdg_wf (wdgof w) ->
  wp (call_user f id) (fun _ w' => wdg_wf (wdgof w') /\ respectful id w w') w.

(** C15: the lock protocol.  Whatever operation runs, with whatever arguments,
    each watchdog's registers other than its lock are written only while it
    is unlocked, every watchdog is locked again when the operation returns,
    and no other watchdog than the one named is touched; so long as the
    client's function, called by the interrupt handler, does the same. *)
Theorem wdg_lock_discipline op w :
  client_ok -> wdg_wf (wdgof w) -> 0 <= op_id op < 5 ->
  wp (run_op op) (fun _ w' => wdg_wf (wdgof w') /\ respectful (op_id op) w w') w.
Proof.
  intros Hcl Hwf Hid. destruct op as [cfg | id | id | id | id | id | id]; cbn [run_op op_id] in *.
  - wp_apply init_spec; [done |]. tauto.
  - unfold bm_wdg_deinit. destruct (is_wdg_id id); cbn [negb]; [| by apply wp_ret; split; [| apply respectful_refl]].
    wp_step. wp_apply reload_spec; [done |]. intros [] w1 [G1 R1].
    wp_step. wp_apply set_callback_spec; [done | by rewrite G1 |]. intros [] w2 (Hwf2 & T2 & _).
    wp_step. apply (quiet_respectful id); [by apply ol_irq_free, wdg_irq_shared |]. intros [] w3 D3 R3.
    apply wp_ret. split; [by rewrite D3 |]. eapply respectful_trans; [exact R1 |].
    eapply respectful_trans; [by apply respectful_tr | exact R3].
  - unfold bm_wdg_enable. destruct (is_wdg_id id); cbn [negb]; [| by apply wp_ret; split; [| apply respectful_refl]].
    wp_step. wp_apply switch_spec; [done |]. intros [] w1 [G1 R1]. apply wp_ret. by rewrite G1.
  - unfold bm_wdg_disable. destruct (is_wdg_id id); cbn [negb]; [| by apply wp_ret; split; [| apply respectful_refl]].
    wp_step. wp_apply switch_spec; [done |]. intros [] w1 [G1 R1]. apply wp_ret. by rewrite G1.
  - unfold bm_wdg_feed. destruct (is_wdg_id id); cbn [negb]; [| by apply wp_ret; split; [| apply respectful_refl]].
    wp_step. wp_apply (unlocked_spec id (fun regs => writel 1 (regs + wdg_intclr))); [done | |].
    { intros base w1. protected. }
    intros [] w1 [G1 R1]. apply wp_ret. by rewrite G1.
  - unfold bm_wdg_get_cnt_value. wp_step.
    destruct (is_wdg_id id); cbn [negb]; [| by wp_steps; split; [| apply respectful_refl]].
    destruct (base_of id Hid) as (base & Hb & Eb). unfold wdg_regs. rewrite Hb.
    wp_step. apply wp_some_or. exists base. split; [done |]. wp_steps. split; [done |].
    eexists. split; [done |]. eapply own_ok; [done | | reflexivity | reflexivity].
    repeat constructor; unfold wdg_value; lia.
  - unfold wdg_interrupt_handle. wp_step. wp_step. wp_step.
    destruct (lookup_lt_is_Some_2 (g_wdg_platdrv_adap_list (wdgof w)) (Z.to_nat id)) as [a Ha];
      [rewrite Hwf; lia |].
    apply wp_some_or. exists a. split; [done |]. wp_step.
    apply (wp_mono _ (fun _ w' => wdg_wf (wdgof w') /\ respectful id w w')).
    { destruct (wa_callback a) as [f |]; [by apply Hcl |]. apply wp_ret. split; [done | apply respectful_refl]. }
    intros [] w1 [Hwf1 R1]. wp_step.
    wp_apply (unlocked_spec id (fun regs => writel WDG_RESET_VALUE (regs + wdg_load))); [done | |].
    { intros base w2. protected. }
    intros [] w2 [G2 R2]. apply wp_ret. rewrite G2. split; [done |].
    by eapply respectful_trans.
Qed.

(** a watchdog that was initialised and expires: the handler calls the
    registered function with the watchdog's number, once, and then, whatever
    that function did, unlocks the watchdog, loads it with 1 and locks it, so
    that the chip is reset at the next tick.  A bad number or a NULL callback
    is refused without any effect. *)
Theorem wdg_expiry cfg (P : list event -> Prop) w :
  wdg_wf (wdgof w) ->
  (forall w1, emits (call_user (wc_callback cfg) (wc_id cfg)) w1 (fun _ t => P t)) ->
  wp (r ← bm_wdg_init (Some cfg);
      if r =? BM_OK then wdg_interrupt_handle call_user (wc_id cfg) else mret r)
     (fun r w' =>
        if decide (is_wdg_id (wc_id cfg) = true /\ wc_callback cfg <> NULL)
        then r = BM_OK /\ exists base t1 t2,
          g_wdg_reg_bases !! Z.to_nat (wc_id cfg) = Some base /\
          tr w' = tr w ++ t1 ++ t2 ++ [Wr (base + wdg_lock_reg) WDG_UNLOCK_VALUE;
            Wr (base + wdg_load) WDG_RESET_VALUE; Wr (base + wdg_lock_reg) WDG_LOCK_VALUE] /\ P t2
        else r = BM_FAIL /\ w' = w) w.
Proof.
  intros Hwf Hcall. wp_step. wp_apply init_spec; [done |].
  intros r w1 (Hwf1 & (t1 & Ht1 & _) & [(-> & -> & Hn) | (-> & Hok & Hnn & D1)]).
  { apply wp_ret. by rewrite decide_False. }
  change (BM_OK =? BM_OK) with true. cbn iota. pose proof (proj1 (is_wdg_id_iff _) Hok) as [Hid _].
  destruct (base_of _ Hid) as (base & Hb & Eb).
  unfold wdg_interrupt_handle, wdg_unlocked, wdg_lock, wdg_regs. rewrite Hb.
  wp_step. wp_step. wp_step. rewrite D1. cbn [g_wdg_platdrv_adap_list set_adapter].
  rewrite list_lookup_insert_eq by (rewrite Hwf; lia).
  apply wp_some_or. eexists. split; [done |]. cbn [wa_callback]. wp_step. wp_apply Hcall.
  intros [] w2 (_ & t2 & Ht2 & HP). do 2 wp_step. apply wp_some_or. exists base. split; [done |].
  do 2 wp_step. apply wp_some_or. exists base. split; [done |]. do 4 wp_step.
  apply wp_some_or. exists base. split; [done |]. wp_steps. rewrite decide_True by done.
  split; [done |]. exists base, t1, t2. split; [done |]. split; [| done].
  rewrite Ht2, Ht1. by trace_simpl.
Qed.
End Locks.

(** ** Witnesses *)
#[local] Instance all_wdgs : WdgConfig.
Proof.
  refine {| wdg_exist_array := replicate 5 true; wdg_isr := 0x1000; wdg_adapter_addr i := 0x2000 + 8 * i |}.
  reflexivity.
Defined.

#[local] Existing Instance no_os.
#[local] Existing Instance no_os_laws.

Definition wdg_world : world wdgs ram := World wdg_init_state ram0 [].

(** The client's function feeds its watchdog. *)
Definition feed_it (f id : Z) : M wdgs ram unit := _ ← bm_wdg_feed id; mret tt.

Lemma wdg_lock_discipline_witness :
  wp (run_op feed_it (OpInterrupt 3)) (fun _ w' => wdg_wf (hget (glob w'))) wdg_world.
Proof.
  eapply wp_mono.
  - apply (wdg_lock_discipline feed_it (OpInterrupt 3) wdg_world); [| reflexivity | simpl; lia].
    intros f id w Hwf. unfold feed_it, bm_wdg_feed. apply wp_bind.
    destruct (is_wdg_id id) eqn:E; cbn [negb].
    + apply wp_bind. apply is_wdg_id_iff in E as [Hid _].
      eapply wp_mono; [apply (unlocked_spec id (fun regs => writel 1 (regs + wdg_intclr))); [exact Hid |] |].
      * intros base w1. emits_steps. repeat constructor; unfold wdg_lock_reg, wdg_intclr; lia.
      * cbv beta. intros [] w1 [G1 R1]. apply wp_ret, wp_ret. rewrite G1. split; assumption.
    + apply wp_ret, wp_ret. split; [exact Hwf | apply respectful_refl].
  - intros r w' [H _]. exact H.
Defined.

Lemma wdg_expiry_witness :
  wp (r ← bm_wdg_init (Some (WdgCfg 3 25000000 0x500));
      if r =? BM_OK then wdg_interrupt_handle (fun f id => writel id f) 3 else mret r)
     (fun r w' => exists t1, tr w' = t1 ++ [Wr 0x500 3; Wr 0x8766c00 WDG_UNLOCK_VALUE;
        Wr 0x8766000 1; Wr 0x8766c00 WDG_LOCK_VALUE]) wdg_world.
Proof.
  eapply wp_mono.
  - apply (wdg_expiry (fun f id => writel id f) (WdgCfg 3 25000000 0x500) (fun t => t = [Wr 0x500 3])
             wdg_world); [reflexivity |].
    intros w1. emits_steps. reflexivity.
  - cbv beta. intros r w' H. rewrite decide_True in H by (split; [reflexivity | discriminate]).
    destruct H as (_ & base & t1 & t2 & Hb & Ht & ->). injection Hb as <-.
    exists t1. exact Ht.
Defined.
