(* ===== verification/Gpio.v ===== *)
(** * Gpio: the general-purpose pins (drivers/gpio/gpio.c)

    127 pins in four groups; a pin is numbered through the groups.  Levels and
    interrupts are bits of a group's registers, updated one at a time by
    reading and writing back; the pin multiplexer comes from the table of
    gpio_pinmux_tbl.c; handlers are kept in a table indexed by the number of
    the pin.  The clock, pad and interrupt accessors are those of [Common] and
    [Os].  Theorems: GpioProps. *)
From stdpp Require Import prelude gmap list strings.
From Stdlib Require Import ZArith Lia.
From S2P Require Import Prelude Hw Common Os.
Local Open Scope Z_scope.

Definition GPIO_MAX_GROUP_NUM : Z := 4.
Definition GPIO_GROUP3 : Z := 3.
Definition GPIO_GROUP_MAX_PIN_NUM : Z := 32.
Definition GPIO_GROUP3_MAX_PIN_NUM : Z := 31.
Definition GPIO_TOTAL_MAX_PIN_NUM : Z := 160.
Definition MAX_GPIO_CNT : Z := 127.
Definition MAX_FUNC_CNT : Z := 8.
Definition FUNC_GPIO : Z := 1.
Definition REG_TYPE_IOR : Z := IO_CONFIG_R.
Definition REG_TYPE_IOT : Z := IO_CONFIG_T.
Definition GRADE_BIT : Z := 4.
Definition GRADE4_MASK : Z := Z.shiftl 0x3 GRADE_BIT.
Definition GRADE8_MASK : Z := Z.shiftl 0x7 GRADE_BIT.
Definition GRADE4_MAX_VAL : Z := 0x3.
Definition GRADE8_MAX_VAL : Z := 0x7.
Definition IO_R_GPIO_NUM : Z := 64.
Definition IO_T_GPIO_NUM : Z := 63.
Definition BYTE_NUM : Z := 4.
Definition GPIO_DIR_INPUT : Z := 0.
Definition GPIO_DIR_OUTPUT : Z := 1.
Definition GPIO_DRIVE_LEVEL_BUTT : Z := 8.
Definition GPIO_INT_LEVEL_TRIGGER : Z := 0.
Definition GPIO_INT_EDGE_TRIGGER : Z := 1.
Definition GPIO_INT_ACTIVE_LOW : Z := 0.
Definition GPIO_INT_ACTIVE_HIGH : Z := 1.
Definition LPSC_GPIO0_BIT : Z := 26.
Definition IO_CONFIG_PADMG000 : Z := 0x800.
Definition CORE_SYS_GPIO0_INTID : Z := 181.

Definition GPIO_BASE_ADDR : Z := 0x0874A000.
Definition GPIO_OUTPUT_OFFSET_ADDR : Z := 0x0.
Definition GPIO_DIR_OFFSET_ADDR : Z := 0x4.
Definition GPIO_INTEN_OFFSET_ADDR : Z := 0x30.
Definition GPIO_INTMASK_OFFSET_ADDR : Z := 0x34.
Definition GPIO_INTTYPE_OFFSET_ADDR : Z := 0x38.
Definition GPIO_INTPOLARITY_OFFSET_ADDR : Z := 0x3c.
Definition GPIO_INTRAWSTATUS_OFFSET_ADDR : Z := 0x44.
Definition GPIO_INTDEBOUNCE_OFFSET_ADDR : Z := 0x48.
Definition GPIO_INTCLR_OFFSET_ADDR : Z := 0x4c.
Definition GPIO_INPUT_OFFSET_ADDR : Z := 0x50.

(** ** Tables *)
Definition g_grade : list Z :=
  [1; 1; 1; 1; 1; 1; 1; 1; 1; 1; 1; 1; 1; 1; 1; 0; 0; 0; 0; 0; 0; 0; 0; 0; 1; 1; 1; 1; 1; 1;
   1; 1; 1; 1; 1; 1; 1; 1; 1; 1; 1; 1; 1; 1; 1; 1; 1; 1; 1; 1; 1; 1; 1; 1; 1; 1; 1; 1; 1; 0;
   0; 0; 0; 0; 1; 1; 1; 1; 1; 1; 1; 1; 1; 1; 1; 1; 1; 1; 1; 1; 1; 1; 1; 1; 1; 1; 1; 1; 1; 1;
   1; 1; 1; 1; 1; 1; 1; 1; 1; 1; 1; 1; 1; 1; 1; 1; 1; 1; 1; 1; 1; 1; 1; 1; 1; 1; 1; 1; 1; 1;
   1; 1; 1; 1; 1; 1; 1].
Definition g_epad_r : list Z :=
  [0; 1; 2; 3; 4; 5; 6; 7; 8; 9; 10; 11; 12; 13; 14; 15; 17; 18; 19; 20; 21; 22; 23; 24; 26;
   27; 28; 29; 30; 31; 32; 33; 34; 35; 36; 37; 38; 40; 41; 42; 43; 44; 45; 47; 48; 49; 50; 51;
   52; 53; 54; 55; 56; 57; 58; 59; 60; 61; 62; 64; 66; 67; 68; 69].
Definition g_epad_t : list Z :=
  [0; 1; 3; 4; 5; 6; 7; 8; 10; 11; 12; 13; 14; 15; 16; 17; 18; 19; 20; 21; 22; 23; 24; 25; 26;
   27; 28; 29; 30; 31; 32; 33; 34; 35; 36; 37; 38; 39; 40; 41; 42; 43; 44; 45; 46; 47; 48; 49;
   50; 56; 57; 58; 59; 60; 61; 62; 63; 64; 69; 70; 71; 72; 73].
Definition g_gpio_int_tbl : list Z := [181; 182; 183; 184].
Definition g_gpio_pin_tbl : list Z := [32; 32; 32; 31].

(** A pin: the pins that share its multiplexer field, and for each function it
    can have, the field and its value. *)
Record gpio_func_info := FuncInfo {
  pin : Z; s_pin_start : Z; s_pin_end : Z; func_cnt : Z;
  func : list Z; reg_type : list Z; reg_off : list Z; reg_mask : list Z; reg_val : list Z;
}.

(** An array of [MAX_FUNC_CNT] whose first element alone is given. *)
Definition arr (x : Z) : list Z := x :: replicate 7 0.
Definition io_pin (p s e type off mask val : Z) : gpio_func_info :=
  FuncInfo p s e 1 (arr FUNC_GPIO) (arr type) (arr off) (arr mask) (arr val).

Definition g_gpio_func_tbl : list gpio_func_info :=
  [io_pin 0 0 0 REG_TYPE_IOR 0x0 0x3 0x2; io_pin 1 1 1 REG_TYPE_IOR 0x4 0x3 0x2;
   io_pin 2 2 2 REG_TYPE_IOR 0x8 0x3 0x2; io_pin 3 3 3 REG_TYPE_IOR 0xc 0x3 0x2;
   io_pin 4 4 4 REG_TYPE_IOR 0x10 0x3 0x2; io_pin 5 5 7 REG_TYPE_IOR 0x14 0x3 0x2;
   io_pin 6 5 7 REG_TYPE_IOR 0x14 0x3 0x2; io_pin 7 5 7 REG_TYPE_IOR 0x14 0x3 0x2;
   io_pin 8 8 14 REG_TYPE_IOR 0x18 0x3 0x2; io_pin 9 8 14 REG_TYPE_IOR 0x18 0x3 0x2;
   io_pin 10 8 14 REG_TYPE_IOR 0x18 0x3 0x2; io_pin 11 8 14 REG_TYPE_IOR 0x18 0x3 0x2;
   io_pin 12 8 14 REG_TYPE_IOR 0x18 0x3 0x2; io_pin 13 8 14 REG_TYPE_IOR 0x18 0x3 0x2;
   io_pin 14 8 14 REG_TYPE_IOR 0x18 0x3 0x2; io_pin 15 15 15 REG_TYPE_IOR 0x1c 0x7 0x2;
   io_pin 16 16 16 REG_TYPE_IOR 0x24 0x7 0x2; io_pin 17 17 17 REG_TYPE_IOR 0x28 0x7 0x2;
   io_pin 18 18 18 REG_TYPE_IOR 0x2c 0x7 0x2; io_pin 19 19 19 REG_TYPE_IOR 0x30 0x7 0x2;
   io_pin 20 20 20 REG_TYPE_IOR 0x34 0x7 0x2; io_pin 21 21 21 REG_TYPE_IOR 0x38 0x7 0x2;
   io_pin 22 22 22 REG_TYPE_IOR 0x3c 0x7 0x2; io_pin 23 23 23 REG_TYPE_IOR 0x40 0x7 0x2;
   io_pin 24 24 25 REG_TYPE_IOR 0x44 0x7 0x2; io_pin 25 24 25 REG_TYPE_IOR 0x44 0x7 0x2;
   io_pin 26 26 27 REG_TYPE_IOR 0x48 0x7 0x2; io_pin 27 26 27 REG_TYPE_IOR 0x48 0x7 0x2;
   io_pin 28 28 29 REG_TYPE_IOR 0x4c 0x7 0x2; io_pin 29 28 29 REG_TYPE_IOR 0x4c 0x7 0x2;
   io_pin 30 30 31 REG_TYPE_IOR 0x50 0x7 0x2; io_pin 31 30 31 REG_TYPE_IOR 0x50 0x7 0x2;
   io_pin 32 32 33 REG_TYPE_IOR 0x54 0x7 0x2; io_pin 33 32 33 REG_TYPE_IOR 0x54 0x7 0x2;
   io_pin 34 34 36 REG_TYPE_IOR 0x58 0x3 0x2; io_pin 35 34 36 REG_TYPE_IOR 0x58 0x3 0x2;
   io_pin 36 34 36 REG_TYPE_IOR 0x58 0x3 0x2; io_pin 37 37 37 REG_TYPE_IOR 0x60 0x7 0x2;
   io_pin 38 38 39 REG_TYPE_IOR 0x64 0x7 0x2; io_pin 39 38 39 REG_TYPE_IOR 0x64 0x7 0x2;
   io_pin 40 40 42 REG_TYPE_IOR 0x68 0x3 0x2; io_pin 41 40 42 REG_TYPE_IOR 0x68 0x3 0x2;
   io_pin 42 40 42 REG_TYPE_IOR 0x68 0x3 0x2; io_pin 43 43 45 REG_TYPE_IOR 0x6c 0x3 0x2;
   io_pin 44 43 45 REG_TYPE_IOR 0x6c 0x3 0x2; io_pin 45 43 45 REG_TYPE_IOR 0x6c 0x3 0x2;
   io_pin 46 46 46 REG_TYPE_IOR 0x70 0x7 0x2; io_pin 47 47 47 REG_TYPE_IOR 0x74 0x7 0x2;
   io_pin 48 48 48 REG_TYPE_IOR 0x78 0x7 0x2; io_pin 49 49 49 REG_TYPE_IOR 0x7c 0x7 0x2;
   io_pin 50 50 50 REG_TYPE_IOR 0x80 0x7 0x2; io_pin 51 51 51 REG_TYPE_IOR 0x84 0x7 0x2;
   io_pin 52 52 52 REG_TYPE_IOR 0x88 0x7 0x2; io_pin 53 53 53 REG_TYPE_IOR 0x8c 0x7 0x2;
   io_pin 54 54 54 REG_TYPE_IOR 0x90 0x7 0x2; io_pin 55 55 55 REG_TYPE_IOR 0x94 0x7 0x2;
   io_pin 56 56 56 REG_TYPE_IOR 0x98 0x3 0x2; io_pin 57 57 58 REG_TYPE_IOR 0x9c 0x3 0x2;
   io_pin 58 57 58 REG_TYPE_IOR 0x9c 0x3 0x2; io_pin 59 59 63 REG_TYPE_IOR 0xa0 0x3 0x2;
   io_pin 60 59 63 REG_TYPE_IOR 0xa0 0x3 0x2; io_pin 61 59 63 REG_TYPE_IOR 0xa0 0x3 0x2;
   io_pin 62 59 63 REG_TYPE_IOR 0xa0 0x3 0x2; io_pin 63 59 63 REG_TYPE_IOR 0xa0 0x3 0x2;
   io_pin 64 64 64 REG_TYPE_IOT 0x0 0x3 0x2; io_pin 65 65 65 REG_TYPE_IOT 0x4 0x3 0x2;
   io_pin 66 66 67 REG_TYPE_IOT 0x8 0x3 0x2; io_pin 67 66 67 REG_TYPE_IOT 0x8 0x3 0x2;
   io_pin 68 68 69 REG_TYPE_IOT 0xc 0x3 0x2; io_pin 69 68 69 REG_TYPE_IOT 0xc 0x3 0x2;
   io_pin 70 70 70 REG_TYPE_IOT 0x10 0x3 0x2; io_pin 71 71 71 REG_TYPE_IOT 0x14 0x3 0x2;
   io_pin 72 72 72 REG_TYPE_IOT 0x1c 0x3 0x2; io_pin 73 73 73 REG_TYPE_IOT 0x20 0x3 0x2;
   io_pin 74 74 75 REG_TYPE_IOT 0x24 0x3 0x2; io_pin 75 74 75 REG_TYPE_IOT 0x24 0x3 0x2;
   io_pin 76 76 76 REG_TYPE_IOT 0x28 0x3 0x2; io_pin 77 77 77 REG_TYPE_IOT 0x2c 0x3 0x2;
   io_pin 78 78 78 REG_TYPE_IOT 0x30 0x3 0x2; io_pin 79 79 79 REG_TYPE_IOT 0x34 0x7 0x2;
   io_pin 80 80 80 REG_TYPE_IOT 0x38 0x7 0x2; io_pin 81 81 81 REG_TYPE_IOT 0x3c 0x7 0x2;
   io_pin 82 82 82 REG_TYPE_IOT 0x40 0x7 0x2; io_pin 83 83 83 REG_TYPE_IOT 0x44 0x7 0x2;
   io_pin 84 84 84 REG_TYPE_IOT 0x48 0x7 0x2; io_pin 85 85 85 REG_TYPE_IOT 0x4c 0x7 0x2;
   io_pin 86 86 86 REG_TYPE_IOT 0x50 0x7 0x2; io_pin 87 87 87 REG_TYPE_IOT 0x54 0x7 0x2;
   io_pin 88 88 88 REG_TYPE_IOT 0x58 0x7 0x2; io_pin 89 89 89 REG_TYPE_IOT 0x5c 0x7 0x2;
   io_pin 90 90 90 REG_TYPE_IOT 0x60 0x7 0x2; io_pin 91 91 92 REG_TYPE_IOT 0x64 0x7 0x2;
   io_pin 92 91 92 REG_TYPE_IOT 0x64 0x7 0x2; io_pin 93 93 94 REG_TYPE_IOT 0x68 0x7 0x2;
   io_pin 94 93 94 REG_TYPE_IOT 0x68 0x7 0x2; io_pin 95 95 95 REG_TYPE_IOT 0x6c 0x3 0x2;
   io_pin 96 96 96 REG_TYPE_IOT 0x70 0x3 0x2; io_pin 97 97 97 REG_TYPE_IOT 0x74 0x3 0x2;
   io_pin 98 98 98 REG_TYPE_IOT 0x78 0x3 0x2; io_pin 99 99 99 REG_TYPE_IOT 0x7c 0x3 0x2;
   io_pin 100 100 100 REG_TYPE_IOT 0x80 0x3 0x2; io_pin 101 101 102 REG_TYPE_IOT 0x84 0x3 0x2;
   io_pin 102 101 102 REG_TYPE_IOT 0x84 0x3 0x2; io_pin 103 103 103 REG_TYPE_IOT 0x88 0x7 0x2;
   io_pin 104 104 104 REG_TYPE_IOT 0x8c 0x7 0x2; io_pin 105 105 105 REG_TYPE_IOT 0x90 0x7 0x2;
   io_pin 106 106 106 REG_TYPE_IOT 0x94 0x7 0x2; io_pin 107 107 107 REG_TYPE_IOT 0x98 0x7 0x2;
   io_pin 108 108 108 REG_TYPE_IOT 0x9c 0x7 0x2; io_pin 109 109 109 REG_TYPE_IOT 0xa0 0x3 0x2;
   io_pin 110 110 110 REG_TYPE_IOT 0xa4 0x7 0x2; io_pin 111 111 111 REG_TYPE_IOT 0xa8 0x7 0x2;
   io_pin 112 112 112 REG_TYPE_IOT 0xac 0x7 0x2; io_pin 113 113 114 REG_TYPE_IOT 0xb0 0x7 0x2;
   io_pin 114 113 114 REG_TYPE_IOT 0xb0 0x7 0x2; io_pin 115 115 116 REG_TYPE_IOT 0xb4 0x7 0x2;
   io_pin 116 115 116 REG_TYPE_IOT 0xb4 0x7 0x2; io_pin 117 117 118 REG_TYPE_IOT 0xb8 0x7 0x2;
   io_pin 118 117 118 REG_TYPE_IOT 0xb8 0x7 0x2; io_pin 119 119 120 REG_TYPE_IOT 0xbc 0x7 0x2;
   io_pin 120 119 120 REG_TYPE_IOT 0xbc 0x7 0x2; io_pin 121 121 121 REG_TYPE_IOT 0xc0 0x7 0x2;
   io_pin 122 122 122 REG_TYPE_IOT 0xc4 0x7 0x2; io_pin 123 123 124 REG_TYPE_IOT 0xc8 0x7 0x2;
   io_pin 124 123 124 REG_TYPE_IOT 0xc8 0x7 0x2; io_pin 125 125 126 REG_TYPE_IOT 0xcc 0x7 0x2;
   io_pin 126 125 126 REG_TYPE_IOT 0xcc 0x7 0x2].

(** ** State: the handlers and the use counts, both by pin number *)
Record gpio := Gpio {
  gpio_isr_hanler : list (option Z * Z);   (* the handler and its argument *)
  g_group_int_count : list Z;
}.

Definition gpio_init_state : gpio :=
  Gpio (replicate 160 (None, 0)) (replicate 127 0).

Definition set_isr (n : Z) (h : option Z) (data : Z) (s : gpio) : gpio :=
  Gpio (<[Z.to_nat n := (h, data)]> (gpio_isr_hanler s)) (g_group_int_count s).
Definition set_count (n v : Z) (s : gpio) : gpio :=
  Gpio (gpio_isr_hanler s) (<[Z.to_nat n := v]> (g_group_int_count s)).

(** The groups present in the build, the address of the interrupt handler, and
    of the entries of [g_gpio_int_tbl] it is given. *)
Class GpioConfig := {
  gpio_exist_array : list bool;
  gpio_exist_length : length gpio_exist_array = 4%nat;
  gpio_isr_addr : Z;
  gpio_int_addr : Z -> Z;
}.

Section Gpio.
Context {G D : Type} `{MD : Machine D} `{HG : !Has G gpio} `{OS : !Os G D} `{GC : GpioConfig}.
(** What is in a local variable that was not set; fuel for [udelay]. *)
Context (junk : Z) (fuel : nat).
Abbreviation M := (M G D).

Definition gpio_reg (group offset : Z) : Z := GPIO_BASE_ADDR + group * 0x1000 + offset.
Definition gpio_read_reg (group offset : Z) : M Z := readl (gpio_reg group offset).
Definition gpio_write_reg (group offset val : Z) : M unit := writel val (gpio_reg group offset).

Definition clear_bit (val mask : Z) : Z := Z.land val (bnot 32 mask).
Definition set_bit (val mask : Z) : Z := Z.lor val mask.
Definition gpio_clear_reg_bit (group reg pin_map : Z) : M unit :=
  val ← gpio_read_reg group reg; gpio_write_reg group reg (clear_bit val pin_map).
Definition gpio_set_reg_bit (group reg pin_map : Z) : M unit :=
  val ← gpio_read_reg group reg; gpio_write_reg group reg (set_bit val pin_map).
Definition gpio_set_reg_val (group reg pin_map bitval : Z) : M unit :=
  if bitval =? 0 then gpio_clear_reg_bit group reg pin_map
  else gpio_set_reg_bit group reg pin_map.
Definition gpio_get_reg_val (group reg pin_map : Z) : M Z :=
  v ← gpio_read_reg group reg; mret (if ctrue (Z.land v pin_map) then 1 else 0).

Definition io_cfg_reg_read_write_by_type (type off mask val : Z) : M Z :=
  if type =? REG_TYPE_IOR then bm_io_config_r_read_write off mask val
  else if type =? REG_TYPE_IOT then bm_io_config_t_read_write off mask val
  else mret BM_FAIL.

Definition gpio_exists (group : Z) : M bool :=
  some_or OutOfBounds (gpio_exist_array !! Z.to_nat group).

Definition gpio_group_pin_check (group pin : Z) : M Z :=
  if GPIO_MAX_GROUP_NUM <=? group then mret BM_FAIL
  else
    n ← some_or OutOfBounds (g_gpio_pin_tbl !! Z.to_nat group);
    if n - 1 <? pin then mret BM_FAIL
    else
      e ← gpio_exists group;
      if negb e then mret BM_FAIL else mret BM_OK.

(** The status, the pin's bit and [pin_linear]; the latter is the caller's
    variable, added to.  On failure neither is written. *)
Definition gpio_get_pin_map (group pin pin_linear : Z) : M (Z * Z * Z) :=
  bad ← gpio_group_pin_check group pin;
  if ctrue bad then mret (BM_FAIL, junk, pin_linear)
  else
    let below := foldl (fun acc n => u32 (acc + n)) pin_linear (take (Z.to_nat group) g_gpio_pin_tbl) in
    mret (0, u32 (Z.shiftl 1 pin), u32 (below + pin)).

(** [for (i = 0; i < func_cnt; i++) if (func_type == func[i]) break;] *)
Fixpoint func_scan (n : nat) (i : Z) (fs : list Z) (func_type : Z) : M Z :=
  match n with
  | O => mret i
  | S n' =>
      f ← some_or OutOfBounds (fs !! Z.to_nat i);
      if func_type =? f then mret i else func_scan n' (i + 1) fs func_type
  end.

Definition io_cfg_get_func_index (p : gpio_func_info) (func_type : Z) : M (Z * Z) :=
  i ← func_scan (Z.to_nat (func_cnt p)) 0 (func p) func_type;
  if func_cnt p =? i then mret (BM_FAIL, 0) else mret (0, i).

Definition gpio_set_reuse_by_pinfunc (pin_linear func_type : Z) : M Z :=
  p ← some_or OutOfBounds (g_gpio_func_tbl !! Z.to_nat pin_linear);
  if negb (pin p =? pin_linear) then mret BM_FAIL
  else
    r ← io_cfg_get_func_index p func_type;
    if ctrue r.1 then mret BM_FAIL
    else
      type ← some_or OutOfBounds (reg_type p !! Z.to_nat r.2);
      off ← some_or OutOfBounds (reg_off p !! Z.to_nat r.2);
      mask ← some_or OutOfBounds (reg_mask p !! Z.to_nat r.2);
      val ← some_or OutOfBounds (reg_val p !! Z.to_nat r.2);
      io_cfg_reg_read_write_by_type type off mask val.

Definition gpio_set_lp_subsys_reg (group enable : Z) : M Z :=
  if GPIO_MAX_GROUP_NUM <=? group then mret BM_FAIL
  else
    let val := Z.shiftl 1 group in
    _ ← bm_lp_subsys_reg_read_write LPSC_CLKEN_CTRL0 (u32 (Z.shiftl val LPSC_GPIO0_BIT))
          (if ctrue enable then 1 else 0);
    mret BM_OK.

Definition bm_gpio_config_io_reuse (group pin : Z) : M Z :=
  r ← gpio_get_pin_map group pin 0;
  if ctrue r.1.1 then mret BM_FAIL
  else
    bad ← gpio_set_reuse_by_pinfunc r.2 FUNC_GPIO;
    mret (if ctrue bad then BM_FAIL else BM_OK).

Definition bm_gpio_config_io_clock (group pin : Z) : M Z :=
  r ← gpio_get_pin_map group pin junk;
  if ctrue r.1.1 then mret BM_FAIL
  else
    bad ← gpio_set_lp_subsys_reg group 1;
    mret (if ctrue bad then BM_FAIL else BM_OK).

(** ** Levels *)
Definition bm_gpio_set_level (group pin value : Z) : M Z :=
  r ← gpio_get_pin_map group pin junk;
  if ctrue r.1.1 then mret BM_FAIL
  else
    let pin_map := r.1.2 in
    let output := if value =? 0 then 0 else 1 in
    gpio_set_reg_val group GPIO_INTEN_OFFSET_ADDR pin_map 0 ;;
    gpio_set_reg_val group GPIO_DIR_OFFSET_ADDR pin_map GPIO_DIR_OUTPUT ;;
    gpio_set_reg_val group GPIO_OUTPUT_OFFSET_ADDR pin_map output ;;
    mret BM_OK.

(** [value]: whether the pointer is not NULL; the level read, when one is. *)
Definition bm_gpio_get_level (group pin : Z) (value : bool) : M (Z * option Z) :=
  r ← gpio_get_pin_map group pin junk;
  if ctrue r.1.1 then mret (BM_FAIL, None)
  else if negb value then mret (BM_FAIL, None)
  else
    let pin_map := r.1.2 in
    gpio_set_reg_val group GPIO_INTEN_OFFSET_ADDR pin_map 0 ;;
    gpio_set_reg_val group GPIO_DIR_OFFSET_ADDR pin_map GPIO_DIR_INPUT ;;
    v ← gpio_get_reg_val group GPIO_INPUT_OFFSET_ADDR pin_map;
    mret (BM_OK, Some v).

(** ** Interrupts *)
Section Isr.
(** Running the client's function at an address with its argument. *)
Context (call_isr : Z -> Z -> M unit).

Definition irq_pin (group_num i : Z) : M unit :=
  let pin_mask := u32 (Z.shiftl 1 i) in
  raw_int_status ← gpio_get_reg_val group_num GPIO_INTRAWSTATUS_OFFSET_ADDR pin_mask;
  when (raw_int_status =? 1)
    (gpio_set_reg_val group_num GPIO_INTCLR_OFFSET_ADDR pin_mask 1 ;;
     let gpio_num := group_num * GPIO_GROUP_MAX_PIN_NUM + i in
     s ← gets (S := gpio);
     h ← some_or OutOfBounds (gpio_isr_hanler s !! Z.to_nat gpio_num);
     match h.1 with Some f => call_isr f h.2 | None => mret tt end).

(** [dev]: the index in [g_gpio_int_tbl] of the entry [dev_id] points to. *)
Definition gpio_irq_handler (dev : Z) : M Z :=
  irq ← some_or OutOfBounds (g_gpio_int_tbl !! Z.to_nat dev);
  let group_num := u32 (irq - CORE_SYS_GPIO0_INTID) in
  let count_i := if group_num <? GPIO_GROUP3 then GPIO_GROUP_MAX_PIN_NUM
                 else GPIO_GROUP3_MAX_PIN_NUM in
  for_up (Z.to_nat count_i) 0 (irq_pin group_num) ;;
  mret BM_OK.
End Isr.

Definition bm_gpio_isr_register (group pin : Z) (handler : option Z) (data : Z) : M Z :=
  r ← gpio_get_pin_map group pin 0;
  if ctrue r.1.1 then mret BM_FAIL
  else modg (set_isr r.2 handler data) ;; mret BM_OK.

Definition bm_gpio_isr_unregister (group pin : Z) : M Z :=
  r ← gpio_get_pin_map group pin 0;
  if ctrue r.1.1 then mret BM_FAIL
  else modg (set_isr r.2 None NULL) ;; mret BM_OK.

Definition gpio_int_config_common (group pin_map trig_level pol : Z) : M Z :=
  if negb (trig_level =? GPIO_INT_LEVEL_TRIGGER) && negb (trig_level =? GPIO_INT_EDGE_TRIGGER)
  then mret BM_FAIL
  else if negb (pol =? GPIO_INT_ACTIVE_LOW) && negb (pol =? GPIO_INT_ACTIVE_HIGH)
  then mret BM_FAIL
  else
    gpio_set_reg_val group GPIO_INTEN_OFFSET_ADDR pin_map 0 ;;
    gpio_set_reg_val group GPIO_DIR_OFFSET_ADDR pin_map 0 ;;
    gpio_set_reg_val group GPIO_INTTYPE_OFFSET_ADDR pin_map trig_level ;;
    gpio_set_reg_val group GPIO_INTPOLARITY_OFFSET_ADDR pin_map pol ;;
    gpio_set_reg_val group GPIO_INTCLR_OFFSET_ADDR pin_map 1 ;;
    gpio_set_reg_val group GPIO_INTDEBOUNCE_OFFSET_ADDR pin_map 1 ;;
    udelay fuel 10 ;;
    mret BM_OK.

Definition gpio_int_config (group pin trig_level pol : Z) : M Z :=
  r ← gpio_get_pin_map group pin 0;
  if ctrue r.1.1 then mret BM_FAIL
  else
    bad ← gpio_int_config_common group r.1.2 trig_level pol;
    mret (if ctrue bad then BM_FAIL else BM_OK).

Definition bm_gpio_enable_int (group pin trig_level pol : Z) : M Z :=
  r ← gpio_get_pin_map group pin junk;
  if ctrue r.1.1 then mret BM_FAIL
  else
    let pin_map := r.1.2 in
    bad ← gpio_int_config_common group pin_map trig_level pol;
    if ctrue bad then mret BM_FAIL
    else
      gpio_set_reg_val group GPIO_INTMASK_OFFSET_ADDR pin_map 0 ;;
      gpio_set_reg_val group GPIO_INTEN_OFFSET_ADDR pin_map 1 ;;
      mret BM_OK.

Definition bm_gpio_disable_int (group pin : Z) : M Z :=
  r ← gpio_get_pin_map group pin junk;
  if ctrue r.1.1 then mret BM_FAIL
  else
    gpio_set_reg_val group GPIO_INTMASK_OFFSET_ADDR r.1.2 1 ;;
    gpio_set_reg_val group GPIO_INTEN_OFFSET_ADDR r.1.2 0 ;;
    mret BM_OK.

(** ** Pads *)
Definition bm_gpio_set_drive_level (group pin drive_level : Z) : M Z :=
  r ← gpio_get_pin_map group pin 0;
  if ctrue r.1.1 then mret BM_FAIL
  else
    let pin_linear := r.2 in
    if (GPIO_DRIVE_LEVEL_BUTT <=? drive_level) || (drive_level <? 0) then mret BM_FAIL
    else
      grade ← some_or OutOfBounds (g_grade !! Z.to_nat pin_linear);
      if ctrue grade && (GRADE8_MAX_VAL <? drive_level) then mret BM_FAIL
      else if negb (ctrue grade) && (GRADE4_MAX_VAL <? drive_level) then mret BM_FAIL
      else
        let gpio_id := if IO_T_GPIO_NUM <? pin_linear then pin_linear - IO_R_GPIO_NUM
                       else pin_linear in
        let type := if IO_R_GPIO_NUM <=? pin_linear then 1 else 0 in
        let mask := if ctrue grade then GRADE8_MASK else GRADE4_MASK in
        let val := Z.shiftl drive_level GRADE_BIT in
        if type =? IO_CONFIG_R then
          pad ← some_or OutOfBounds (g_epad_r !! Z.to_nat gpio_id);
          bm_io_config_r_read_write (BYTE_NUM * pad + IO_CONFIG_PADMG000) mask val
        else
          pad ← some_or OutOfBounds (g_epad_t !! Z.to_nat (pin_linear - IO_R_GPIO_NUM));
          bm_io_config_t_read_write (BYTE_NUM * pad + IO_CONFIG_PADMG000) mask val.

(** ** Taking a pin into use, and giving it back *)
Definition get_count (n : Z) : M Z :=
  s ← gets (S := gpio); some_or OutOfBounds (g_group_int_count s !! Z.to_nat n).

Definition bm_gpio_init (group pin : Z) : M Z :=
  r ← gpio_get_pin_map group pin 0;
  if ctrue r.1.1 then mret BM_FAIL
  else
    _ ← gpio_set_lp_subsys_reg group 1;
    bad ← gpio_set_reuse_by_pinfunc r.2 FUNC_GPIO;
    if ctrue bad then mret BM_FAIL
    else
      _ ← os_irq_set_priority (CORE_SYS_GPIO0_INTID + group) 6;
      _ ← os_irq_request (CORE_SYS_GPIO0_INTID + group) gpio_isr_addr (gpio_int_addr group);
      c ← get_count r.2;
      modg (set_count r.2 (u32 (c + 1))) ;;
      mret BM_OK.

Definition bm_gpio_deinit (group pin : Z) : M Z :=
  r ← gpio_get_pin_map group pin 0;
  if ctrue r.1.1 then mret BM_FAIL
  else
    _ ← gpio_set_lp_subsys_reg group 0;
    _ ← bm_gpio_disable_int group pin;
    c ← get_count r.2;
    when (ctrue c) (modg (set_count r.2 (c - 1))) ;;
    c ← get_count r.2;
    when (c =? 0) (os_irq_free (CORE_SYS_GPIO0_INTID + group)) ;;
    mret BM_OK.
End Gpio.
