(* ===== verification/GpioProps.v ===== *)
(** * GpioProps: pins do not disturb each other

    [pin_ok]: the pins the driver accepts.  Every register operation of the
    driver is a sequence of [pin_update]s, each of which reads a register of
    the pin's group and writes it back with the pin's bit set as asked and all
    other bits as they were read. *)
From stdpp Require Import prelude gmap list strings.
From Stdlib Require Import ZArith Lia.
From S2P Require Import Prelude Hw Common Gic Osal Os Gpio.
Local Open Scope Z_scope.

Lemma u32_add_l x y : u32 (u32 x + y) = u32 (x + y).
Proof. unfold wrap. by rewrite Zplus_mod_idemp_l. Qed.

Definition pins_of (group : Z) : Z := if group =? 3 then 31 else 32.
Definition pin_number (group pin : Z) : Z := 32 * group + pin.

(** ** One bit of one register *)
Definition pin_update (group off pin : Z) (b : bool) (t : list event) : Prop :=
  exists v v', t = [Rd (gpio_reg group off) v; Wr (gpio_reg group off) v'] /\ fits 32 v' /\
    Z.testbit v' pin = b /\ forall i, 0 <= i -> i <> pin -> Z.testbit v' i = Z.testbit v i.

(** A sequence of updates: register and new value of the bit. *)
Fixpoint pin_updates (group pin : Z) (ups : list (Z * bool)) (t : list event) : Prop :=
  match ups with
  | [] => t = []
  | (off, b) :: ups => exists t1 t2, t = t1 ++ t2 /\
      pin_update group off pin b t1 /\ pin_updates group pin ups t2
  end.

Lemma pin_updates_cons group pin off b ups t1 t2 :
  pin_update group off pin b t1 -> pin_updates group pin ups t2 ->
  pin_updates group pin ((off, b) :: ups) (t1 ++ t2).
Proof. intros H1 H2. by exists t1, t2. Qed.

Lemma bit_map pin i : 0 <= pin -> 0 <= i -> Z.testbit (2 ^ pin) i = (i =? pin).
Proof.
  intros Hp Hi. destruct (Z.eqb_spec i pin) as [-> | Hne].
  - by rewrite Z.pow2_bits_true.
  - by rewrite Z.pow2_bits_false.
Qed.

Lemma pow_fits32 pin : 0 <= pin < 32 -> fits 32 (2 ^ pin).
Proof. intros Hp. split; [apply Z.pow_nonneg; lia | apply Z.pow_lt_mono_r; lia]. Qed.

Lemma testbit_clear_bit v pin i : fits 32 v -> 0 <= pin -> 0 <= i ->
  Z.testbit (clear_bit v (2 ^ pin)) i = negb (i =? pin) && Z.testbit v i.
Proof.
  intros Hv Hp Hi. unfold clear_bit, bnot.
  rewrite Z.land_spec, wrap_spec, Z.lnot_spec, bit_map, andb_comm by lia.
  destruct (Z.ltb_spec i 32); [done |]. by rewrite (fits_testbit 32 v), !andb_false_r by (done || lia).
Qed.

Lemma testbit_set_bit v pin i : 0 <= pin -> 0 <= i ->
  Z.testbit (set_bit v (2 ^ pin)) i = (i =? pin) || Z.testbit v i.
Proof. intros Hp Hi. unfold set_bit. by rewrite Z.lor_spec, bit_map, orb_comm by lia. Qed.

Definition is_sys (e : event) : Prop := match e with Sy _ _ => True | _ => False end.

Section Pins.
Context {G D : Type} `{MD : Machine D} `{HG : !Has G gpio} `{OS : !Os G D} `{GC : GpioConfig}.
Context (junk : Z).
Implicit Types (w : world G D).
Abbreviation gpioof w := (hget (S := gpio) (glob w)).

Definition pin_ok (group pin : Z) : Prop :=
  group < 4 /\ pin < pins_of group /\ gpio_exist_array !! Z.to_nat group = Some true.

#[global] Instance pin_ok_dec group pin : Decision (pin_ok group pin).
Proof. unfold pin_ok. apply _. Defined.

(** The numbering of the pins. *)
Lemma gpio_get_pin_map_eq group pin start : 0 <= group -> 0 <= pin ->
  gpio_get_pin_map junk group pin start =
  mret (M := M G D) (if decide (pin_ok group pin)
        then (0, 2 ^ pin, u32 (start + pin_number group pin))
        else (BM_FAIL, junk, start)).
Proof.
  intros Hg Hp. unfold gpio_get_pin_map, gpio_group_pin_check, gpio_exists, GPIO_MAX_GROUP_NUM.
  destruct (Z.leb_spec 4 group) as [Hge | Hlt].
  { rewrite decide_False; [done |]. unfold pin_ok. lia. }
  assert (exists n, g_gpio_pin_tbl !! Z.to_nat group = Some n /\ n = pins_of group /\
    foldl (fun acc n => u32 (acc + n)) start (take (Z.to_nat group) g_gpio_pin_tbl) = 
      (if group =? 0 then start else u32 (start + 32 * group))) as (n & Hn & En & Ef).
  { assert (group = 0 \/ group = 1 \/ group = 2 \/ group = 3) as Hc by lia.
    destruct Hc as [-> | [-> | [-> | ->]]]; (eexists; split; [reflexivity |]; split; [reflexivity |]);
      unfold g_gpio_pin_tbl; simpl;
      repeat rewrite u32_add_l, <- ?Z.add_assoc; try done; f_equal; lia. }
  rewrite Hn. cbn [some_or]. rewrite Ef, En, !bind_ret. clear Hn n En Ef.
  destruct (gpio_exist_array !! Z.to_nat group) as [e |] eqn:Ee.
  2: { apply lookup_ge_None in Ee. rewrite gpio_exist_length in Ee. lia. }
  cbn [some_or]. destruct (Z.ltb_spec (pins_of group - 1) pin) as [Hbig | Hsmall].
  { rewrite decide_False; [done |]. unfold pin_ok. lia. }
  rewrite !bind_ret. destruct e; cbn [negb]; rewrite !bind_ret.
  2: { rewrite decide_False; [done |]. unfold pin_ok. rewrite Ee. by intros (_ & _ & [=]). }
  rewrite decide_True by (unfold pin_ok; rewrite Ee; split_and!; done || lia).
  cbn [ctrue BM_OK Z.eqb negb]. unfold pins_of in Hsmall.
  assert (pin < 32) by (destruct (group =? 3); lia).
  rewrite Z.shiftl_1_l. replace (u32 (2 ^ pin)) with (2 ^ pin) by (symmetry; by apply wrap_id, pow_fits32).
  unfold pin_number. destruct (Z.eqb_spec group 0) as [-> |]; [done |].
  by rewrite u32_add_l, Z.add_assoc.
Qed.

Lemma pin_ok_lt group pin : pin_ok group pin -> pin < 32.
Proof. unfold pin_ok, pins_of. destruct (group =? 3); lia. Qed.

(** ** The bit operations *)
Lemma emits_set_reg_val group off pin val w (P : unit -> list event -> Prop) : 0 <= pin < 32 ->
  (forall t, pin_update group off pin (negb (val =? 0)) t -> P tt t) ->
  emits (gpio_set_reg_val group off (2 ^ pin) val) w P.
Proof.
  intros Hp HP. unfold gpio_set_reg_val, gpio_clear_reg_bit, gpio_set_reg_bit, gpio_read_reg,
    gpio_write_reg.
  pose proof (pow_fits32 pin Hp) as Hf.
  destruct (Z.eqb_spec val 0); emits_steps; apply HP; (eexists _, _; split; [reflexivity |]);
    (rewrite wrap_id; [| unfold clear_bit, set_bit; fits]); (split; [unfold clear_bit, set_bit; fits |]);
    unfold clear_bit, set_bit, bnot; cbn [negb].
  - fold (bnot 32 (2 ^ pin)). fold (clear_bit v (2 ^ pin)).
    split; [| intros i Hi Hne]; rewrite testbit_clear_bit by (done || lia).
    + by rewrite Z.eqb_refl.
    + by rewrite (proj2 (Z.eqb_neq i pin)).
  - fold (set_bit v (2 ^ pin)). split; [| intros i Hi Hne]; rewrite testbit_set_bit by lia.
    + by rewrite Z.eqb_refl.
    + by rewrite (proj2 (Z.eqb_neq i pin)).
Qed.

Lemma land_pow v pin : 0 <= pin -> Z.land v (2 ^ pin) = if Z.testbit v pin then 2 ^ pin else 0.
Proof.
  intros Hp. apply Z.bits_inj'. intros i Hi. rewrite Z.land_spec, bit_map by lia.
  destruct (Z.eqb_spec i pin) as [-> | Hne].
  - destruct (Z.testbit v pin); [by rewrite Z.pow2_bits_true | by rewrite Z.testbit_0_l].
  - rewrite andb_false_r. destruct (Z.testbit v pin); [by rewrite Z.pow2_bits_false | by rewrite Z.testbit_0_l].
Qed.

Lemma ctrue_land_pow v pin : 0 <= pin -> ctrue (Z.land v (2 ^ pin)) = Z.testbit v pin.
Proof.
  intros Hp. rewrite land_pow by done. pose proof (Z.pow_pos_nonneg 2 pin). unfold ctrue.
  destruct (Z.testbit v pin); zcases; lia.
Qed.

Lemma emits_get_reg_val group off pin w (P : Z -> list event -> Prop) : 0 <= pin ->
  (forall v, fits 32 v -> P (cbool (Z.testbit v pin)) [Rd (gpio_reg group off) v]) ->
  emits (gpio_get_reg_val group off (2 ^ pin)) w P.
Proof.
  intros Hp HP. unfold gpio_get_reg_val, gpio_read_reg. emits_steps.
  rewrite ctrue_land_pow by done. by apply HP.
Qed.

(** What a pin operation does on a pin that the driver accepts, and on others. *)
Definition on_pin {A} (group pin : Z) (ok : A -> list event -> Prop) (bad : A) (r : A) (t : list event) : Prop :=
  if decide (pin_ok group pin) then ok r t else r = bad /\ t = [].

Ltac pin_op :=
  rewrite gpio_get_pin_map_eq by done; rewrite bind_ret; unfold on_pin;
  case_decide as Hok; cbn [fst snd ctrue Z.eqb negb BM_FAIL]; [| by apply emits_ret];
  match goal with H : pin_ok _ _ |- _ => pose proof (pin_ok_lt _ _ H) end.
Ltac update_step :=
  apply emits_bind; apply emits_set_reg_val; [lia |];
  let t := fresh "t" in let H := fresh "Hu" in intros t H ? _.
Ltac collect := repeat first [apply pin_updates_cons; [assumption |]]; try reflexivity.

(** levels.  For a pin the driver accepts, driving it disables its
    interrupt, makes it an output and sets its level, in this order; reading
    it disables its interrupt, makes it an input and returns its bit of the
    input register.  Nothing but the pin's own bit changes in each register,
    and for any other pin nothing is accessed and BM_FAIL is returned. *)
Theorem gpio_levels group pin value w : 0 <= group -> 0 <= pin ->
  emits (bm_gpio_set_level junk group pin value) w
    (on_pin group pin (fun r t => r = BM_OK /\
       pin_updates group pin [(GPIO_INTEN_OFFSET_ADDR, false); (GPIO_DIR_OFFSET_ADDR, true);
                              (GPIO_OUTPUT_OFFSET_ADDR, negb (value =? 0))] t) BM_FAIL) /\
  emits (bm_gpio_get_level junk group pin true) w
    (on_pin group pin (fun r t => exists v t',
       r = (BM_OK, Some (cbool (Z.testbit v pin))) /\
       t = t' ++ [Rd (gpio_reg group GPIO_INPUT_OFFSET_ADDR) v] /\
       pin_updates group pin [(GPIO_INTEN_OFFSET_ADDR, false); (GPIO_DIR_OFFSET_ADDR, false)] t')
     (BM_FAIL, None)).
Proof.
  intros Hg Hp. split; [unfold bm_gpio_set_level | unfold bm_gpio_get_level]; pin_op.
  - do 3 update_step. apply emits_ret. split; [done |].
    replace (negb ((if value =? 0 then 0 else 1) =? 0)) with (negb (value =? 0)) in Hu1
      by (by destruct (value =? 0)).
    collect.
  - do 2 update_step. apply emits_bind, emits_get_reg_val; [done |]. intros v Hv ? _.
    apply emits_ret. exists v. eexists. split; [done |]. rewrite app_nil_r, app_assoc. split; [done |].
    rewrite <- (app_nil_r (t ++ _)), <- app_assoc. collect.
Qed.

(** ** Setting up interrupts *)
Section Delay.
Context (fuel : nat) (Hdelay : forall w, emits (udelay fuel 10) w (fun _ t => Forall is_sys t)).

Definition int_legal (trig pol : Z) : Prop := (trig = 0 \/ trig = 1) /\ (pol = 0 \/ pol = 1).
#[local] Instance int_legal_dec trig pol : Decision (int_legal trig pol).
Proof. unfold int_legal. apply _. Defined.

Definition int_updates (trig pol : Z) : list (Z * bool) :=
  [(GPIO_INTEN_OFFSET_ADDR, false); (GPIO_DIR_OFFSET_ADDR, false);
   (GPIO_INTTYPE_OFFSET_ADDR, negb (trig =? 0)); (GPIO_INTPOLARITY_OFFSET_ADDR, negb (pol =? 0));
   (GPIO_INTCLR_OFFSET_ADDR, true); (GPIO_INTDEBOUNCE_OFFSET_ADDR, true)].

Lemma emits_int_config group pin trig pol w (P : Z -> list event -> Prop) : 0 <= pin < 32 ->
  (int_legal trig pol -> forall t td, pin_updates group pin (int_updates trig pol) t ->
     Forall is_sys td -> P BM_OK (t ++ td)) ->
  (~ int_legal trig pol -> P BM_FAIL []) ->
  emits (gpio_int_config_common fuel group (2 ^ pin) trig pol) w P.
Proof.
  intros Hp HP Hbad. unfold gpio_int_config_common, GPIO_INT_LEVEL_TRIGGER, GPIO_INT_EDGE_TRIGGER,
    GPIO_INT_ACTIVE_LOW, GPIO_INT_ACTIVE_HIGH.
  destruct (negb (trig =? 0) && _) eqn:E1; [apply emits_ret, Hbad; unfold int_legal; lia |].
  destruct (negb (pol =? 0) && _) eqn:E2; [apply emits_ret, Hbad; unfold int_legal; lia |].
  do 6 update_step. apply emits_bind. emits_apply Hdelay. intros [] td Hd ? _. apply emits_ret.
  rewrite app_nil_r, !app_assoc. apply HP; [unfold int_legal; lia | | done].
  rewrite <- !app_assoc, <- (app_nil_r t4). unfold int_updates. collect.
Qed.

(** interrupts.  Enabling the interrupt of a pin with a legal trigger and
    polarity sets the pin up with the interrupt disabled (input, trigger,
    polarity, pending interrupt cleared, debouncing), waits, and only then
    unmasks and enables it; disabling masks and then disables.  Each step
    changes the pin's own bit alone; illegal arguments change nothing. *)
Theorem gpio_interrupt_setup group pin trig pol w : 0 <= group -> 0 <= pin ->
  emits (bm_gpio_enable_int junk fuel group pin trig pol) w
    (on_pin group pin (fun r t =>
       if decide (int_legal trig pol) then r = BM_OK /\ exists t1 td t2, t = t1 ++ td ++ t2 /\
         pin_updates group pin (int_updates trig pol) t1 /\ Forall is_sys td /\
         pin_updates group pin [(GPIO_INTMASK_OFFSET_ADDR, false); (GPIO_INTEN_OFFSET_ADDR, true)] t2
       else r = BM_FAIL /\ t = []) BM_FAIL) /\
  emits (bm_gpio_disable_int junk group pin) w
    (on_pin group pin (fun r t => r = BM_OK /\
       pin_updates group pin [(GPIO_INTMASK_OFFSET_ADDR, true); (GPIO_INTEN_OFFSET_ADDR, false)] t) BM_FAIL).
Proof.
  intros Hg Hp. split; [unfold bm_gpio_enable_int | unfold bm_gpio_disable_int]; pin_op.
  - apply emits_bind, emits_int_config; [lia | |].
    + intros Hl t td Ht Htd ? _. do 2 update_step. apply emits_ret. rewrite decide_True by done.
      split; [done |]. exists t, td. eexists. rewrite <- app_assoc. split_and!; try done. collect.
    + intros Hl ? _. apply emits_ret. by rewrite decide_False.
  - do 2 update_step. apply emits_ret. split; [done |]. collect.
Qed.
End Delay.

(** ** The multiplexer *)
Definition first (l : list Z) : Z := default 0 (head l).
Definition mux_addr (i : gpio_func_info) : Z :=
  default 0 (g_io_config_base !! Z.to_nat (first (reg_type i))) + first (reg_off i).
Definition mux_mask (i : gpio_func_info) : Z := first (reg_mask i).

#[local] Instance func_info_eq_dec : EqDecision gpio_func_info.
Proof. solve_decision. Defined.

(** A well-formed entry of the table at [n]: one function, one field. *)
Definition entry_ok (n : Z) (i : gpio_func_info) : bool :=
  bool_decide (i = io_pin n (s_pin_start i) (s_pin_end i) (first (reg_type i)) (first (reg_off i))
                 (mux_mask i) 2) &&
  (s_pin_start i <=? n) && (n <=? s_pin_end i) &&
  ((first (reg_type i) =? 0) || (first (reg_type i) =? 1)) &&
  (0 <=? first (reg_off i)) && (first (reg_off i) <? 0x800) &&
  ((mux_mask i =? 3) || (mux_mask i =? 7)).

Definition same_field (i j : gpio_func_info) : bool :=
  Bool.eqb (mux_addr i =? mux_addr j)
    ((s_pin_start i =? s_pin_start j) && (s_pin_end i =? s_pin_end j)).

Lemma table_entries : forallb (fun x => entry_ok (Z.of_nat x.1) x.2) (imap pair g_gpio_func_tbl) = true.
Proof. vm_compute. reflexivity. Qed.

Lemma table_fields : forallb (fun i => forallb (same_field i) g_gpio_func_tbl) g_gpio_func_tbl = true.
Proof. vm_compute. reflexivity. Qed.

Lemma table_lookup n i : g_gpio_func_tbl !! n = Some i -> entry_ok (Z.of_nat n) i = true.
Proof.
  intros H. pose proof (proj1 (forallb_forall _ _) table_entries (n, i)) as Ht. apply Ht.
  apply list_elem_of_In, list_elem_of_lookup. exists n. by rewrite list_lookup_imap, H.
Qed.

Lemma pin_number_lt group pin : 0 <= group -> 0 <= pin -> pin_ok group pin ->
  0 <= pin_number group pin < 127.
Proof. unfold pin_ok, pins_of, pin_number. destruct (Z.eqb_spec group 3); lia. Qed.

Lemma emits_mux n i w (P : Z -> list event -> Prop) : 0 <= n ->
  g_gpio_func_tbl !! Z.to_nat n = Some i ->
  (forall v, fits 32 v -> P BM_OK [Rd (mux_addr i) v; Wr (mux_addr i) (mask_merge (mux_mask i) 2 v)]) ->
  emits (gpio_set_reuse_by_pinfunc n FUNC_GPIO) w P.
Proof.
  intros Hn Hi HP. pose proof (table_lookup _ _ Hi) as He. rewrite Z2Nat.id in He by done.
  unfold entry_ok in He. rewrite !andb_true_iff, bool_decide_eq_true in He.
  destruct He as [[[[[[Ei _] _] Ht] Ho1] Ho2] Hm].
  unfold gpio_set_reuse_by_pinfunc. rewrite Hi. cbn [some_or]. rewrite bind_ret.
  unfold mux_addr, mux_mask in *.
  set (ty := first (reg_type i)) in *. set (off := first (reg_off i)) in *.
  set (mk := first (reg_mask i)) in *. set (lo := s_pin_start i) in *. set (hi := s_pin_end i) in *.
  clearbody ty off mk lo hi. subst i. cbn [pin io_pin].
  rewrite Z.eqb_refl. cbn [negb]. unfold io_cfg_get_func_index. cbn [func_cnt func io_pin].
  change (Z.to_nat 1) with 1%nat. cbn [func_scan]. change (Z.to_nat 0) with 0%nat.
  unfold arr. cbn [lookup list_lookup some_or]. rewrite !bind_ret, Z.eqb_refl, !bind_ret.
  cbn [fst snd ctrue Z.eqb negb]. cbn [reg_type reg_off reg_mask reg_val io_pin].
  change (Z.to_nat 0) with 0%nat. unfold arr. cbn [lookup list_lookup some_or]. rewrite !bind_ret.
  assert (fits 32 mk) as Hmk by (unfold fits; lia).
  unfold io_cfg_reg_read_write_by_type, bm_io_config_r_read_write, bm_io_config_t_read_write,
    bm_io_config_read_write, io_config_addr.
  unfold REG_TYPE_IOR, REG_TYPE_IOT, IO_CONFIG_R, IO_CONFIG_T.
  assert (ty = 0 \/ ty = 1) as [-> | ->] by lia; simpl; repeat (rewrite bind_ret; simpl);
    rewrite (wrap_id 64) by (unfold fits; lia); emits_steps;
    rewrite (wrap_id 32) by fits; by apply HP.
Qed.

(** C19: the multiplexer.  Making a pin a GPIO writes one register, the pin's
    field of it, and leaves the rest of the register as it was; pins that
    share a field are exactly those of one row of the pin table, so no other
    pin's function changes. *)
Theorem gpio_mux_selects group pin w : 0 <= group -> 0 <= pin ->
  emits (bm_gpio_config_io_reuse junk group pin) w
    (on_pin group pin (fun r t => r = BM_OK /\ exists i v v',
       g_gpio_func_tbl !! Z.to_nat (pin_number group pin) = Some i /\
       s_pin_start i <= pin_number group pin <= s_pin_end i /\
       t = [Rd (mux_addr i) v; Wr (mux_addr i) v'] /\
       Z.land v' (mux_mask i) = 2 /\ Z.ldiff v' (mux_mask i) = Z.ldiff v (mux_mask i)) BM_FAIL) /\
  forall n m i j, g_gpio_func_tbl !! n = Some i -> g_gpio_func_tbl !! m = Some j ->
    mux_addr i = mux_addr j <-> s_pin_start i = s_pin_start j /\ s_pin_end i = s_pin_end j.
Proof.
  intros Hg Hp. split.
  - unfold bm_gpio_config_io_reuse. pin_op. pose proof (pin_number_lt _ _ Hg Hp Hok) as Hn.
    destruct (lookup_lt_is_Some_2 g_gpio_func_tbl (Z.to_nat (pin_number group pin))) as [i Hi].
    { change (length g_gpio_func_tbl) with 127%nat. lia. }
    rewrite Z.add_0_l, (wrap_id 32) by (unfold fits; lia).
    apply emits_bind, (emits_mux _ i); [lia | done |]. intros v Hv ? _. apply emits_ret.
    split; [done |]. exists i, v. eexists. split; [done |].
    pose proof (table_lookup _ _ Hi) as He. rewrite Z2Nat.id in He by lia.
    unfold entry_ok in He. rewrite !andb_true_iff in He. destruct He as [[[[[[_ Hlo] Hhi] _] _] _] Hm].
    split; [lia |]. split; [done |]. rewrite mask_merge_inside, mask_merge_outside by done.
    assert (mux_mask i = 3 \/ mux_mask i = 7) as [-> | ->] by lia; done.
  - intros n m i j Hi Hj.
    pose proof (proj1 (forallb_forall _ _) table_fields i) as Ht.
    specialize (Ht ltac:(by eapply list_elem_of_In, list_elem_of_lookup_2)). cbv beta in Ht.
    apply (proj1 (forallb_forall _ _)) with (x := j) in Ht;
      [| by eapply list_elem_of_In, list_elem_of_lookup_2].
    unfold same_field in Ht. apply eqb_prop in Ht. lia.
Qed.

(** ** Clocks *)

(** the clock of a group cannot be switched on: the driver writes a 1 under
    the mask of the group's clock bit, 26 and above, so that enabling the
    clock, like disabling it, clears that bit and nothing else. *)
Theorem gpio_clock_always_off group pin w : 0 <= group -> 0 <= pin ->
  emits (bm_gpio_config_io_clock junk group pin) w
    (on_pin group pin (fun r t => r = BM_OK /\ exists v v',
       t = [Rd (LP_SUBSYS_CSR_BASE_ADDR + LPSC_CLKEN_CTRL0) v;
            Wr (LP_SUBSYS_CSR_BASE_ADDR + LPSC_CLKEN_CTRL0) v'] /\
       Z.testbit v' (26 + group) = false /\
       forall i, 0 <= i -> i <> 26 + group -> Z.testbit v' i = Z.testbit v i) BM_FAIL).
Proof.
  intros Hg Hp. unfold bm_gpio_config_io_clock. pin_op. destruct Hok as [Hlt _].
  unfold gpio_set_lp_subsys_reg, GPIO_MAX_GROUP_NUM. replace (4 <=? group) with false by lia.
  cbv zeta. unfold bm_lp_subsys_reg_read_write, csr_reg_read_write.
  assert (u32 (Z.shiftl (Z.shiftl 1 group) LPSC_GPIO0_BIT) = 2 ^ (26 + group)) as ->.
  { rewrite Z.shiftl_shiftl, Z.shiftl_1_l by lia. unfold LPSC_GPIO0_BIT.
    rewrite (Z.add_comm group). apply wrap_id, pow_fits32. lia. }
  emits_steps. split; [done |]. exists v. eexists. split; [reflexivity |].
  pose proof (pow_fits32 (26 + group) ltac:(lia)) as Hf.
  assert (fits 32 (mask_merge (2 ^ (26 + group)) 1 v)) as Hm by fits.
  assert (forall i, 0 <= i -> Z.testbit (u32 (mask_merge (2 ^ (26 + group)) 1 v)) i =
    negb (i =? 26 + group) && Z.testbit v i) as Hbit.
  { intros i Hi. rewrite (wrap_id 32) by done. unfold mask_merge.
    fold (clear_bit v (2 ^ (26 + group))). rewrite Z.lor_spec, testbit_clear_bit by (done || lia).
    rewrite Z.land_comm, Z.land_spec, bit_map by lia.
    replace (Z.testbit 1 i) with (i =? 0) by (change 1 with (2 ^ 0); by rewrite bit_map by lia).
    replace ((i =? 26 + group) && (i =? 0)) with false by lia. apply orb_false_r. }
  simpl. split.
  - rewrite Hbit by lia. by rewrite Z.eqb_refl.
  - intros i Hi Hne. rewrite Hbit by done. by rewrite (proj2 (Z.eqb_neq i _)).
Qed.

(** ** Handlers *)
Definition isr_of (s : gpio) (group pin : Z) : option (option Z * Z) :=
  gpio_isr_hanler s !! Z.to_nat (pin_number group pin).
Definition isr_table_ok (s : gpio) : Prop := length (gpio_isr_hanler s) = 160%nat.

(** After the call, the entry of each pin is the old one, except for [h] and
    [data] at the pin given; the use counts are untouched. *)
Definition isr_updated (group pin : Z) (h : option Z) (data : Z) (s s' : gpio) : Prop :=
  isr_table_ok s' /\ g_group_int_count s' = g_group_int_count s /\
  forall g p, 0 <= g -> 0 <= p -> pin_ok g p ->
    isr_of s' g p = if decide (g = group /\ p = pin) then Some (h, data) else isr_of s g p.

Lemma set_isr_updated group pin h data s : 0 <= group -> 0 <= pin -> pin_ok group pin ->
  isr_table_ok s -> isr_updated group pin h data s (set_isr (pin_number group pin) h data s).
Proof.
  intros Hg Hp Hok Hlen. pose proof (pin_number_lt _ _ Hg Hp Hok).
  split; [unfold isr_table_ok, set_isr; simpl; by rewrite length_insert |]. split; [done |].
  intros g p Hg' Hp' Hok'. pose proof (pin_number_lt _ _ Hg' Hp' Hok').
  pose proof (pin_ok_lt _ _ Hok). pose proof (pin_ok_lt _ _ Hok').
  unfold isr_of, set_isr. simpl. case_decide as Hc.
  - destruct Hc as [-> ->]. apply list_lookup_insert_eq. unfold isr_table_ok in Hlen. lia.
  - apply list_lookup_insert_ne. intros E. apply Hc. unfold pin_number in *. lia.
Qed.

(** C20: registering a handler for a pin and removing it change the entry of
    that pin alone, for every pin of every group; a pin the driver does not
    accept is refused and changes nothing.  No register is touched. *)
Theorem gpio_isr_registration group pin h data w : 0 <= group -> 0 <= pin ->
  isr_table_ok (gpioof w) ->
  wp (bm_gpio_isr_register junk group pin h data) (fun r w' => tr w' = tr w /\
    if decide (pin_ok group pin) then r = BM_OK /\ isr_updated group pin h data (gpioof w) (gpioof w')
    else r = BM_FAIL /\ w' = w) w /\
  wp (bm_gpio_isr_unregister junk group pin) (fun r w' => tr w' = tr w /\
    if decide (pin_ok group pin) then r = BM_OK /\ isr_updated group pin None NULL (gpioof w) (gpioof w')
    else r = BM_FAIL /\ w' = w) w.
Proof.
  intros Hg Hp Hlen.
  split; [unfold bm_gpio_isr_register | unfold bm_gpio_isr_unregister];
    rewrite gpio_get_pin_map_eq, bind_ret by done; case_decide as Hok;
    cbn [fst snd ctrue Z.eqb negb BM_FAIL]; try (by apply wp_ret);
    wp_steps; (split; [done |]); (split; [done |]); rewrite hget_hput, Z.add_0_l;
    pose proof (pin_number_lt _ _ Hg Hp Hok); rewrite (wrap_id 32) by (unfold fits; lia);
    by apply set_isr_updated.
Qed.

Section Serve.
(** What the client's functions do: [C f data] holds of their accesses, and
    they leave the table of handlers alone. *)
Context (call_isr : Z -> Z -> M G D unit) (C : Z -> Z -> list event -> Prop).
Context (Hcall : forall f data w, wp (call_isr f data)
  (fun _ w' => gpioof w' = gpioof w /\ exists t, tr w' = tr w ++ t /\ C f data t) w).

(** What serving pin [i] of [group] looks like. *)
Definition pin_served (s : gpio) (group i : Z) (t : list event) : Prop :=
  exists v, if Z.testbit v i then
    exists t1 t2, t = Rd (gpio_reg group GPIO_INTRAWSTATUS_OFFSET_ADDR) v :: t1 ++ t2 /\
      pin_update group GPIO_INTCLR_OFFSET_ADDR i true t1 /\
      match isr_of s group i with Some (Some f, data) => C f data t2 | _ => t2 = [] end
  else t = [Rd (gpio_reg group GPIO_INTRAWSTATUS_OFFSET_ADDR) v].

Lemma irq_pin_serves group i w : 0 <= group < 4 -> 0 <= i < 32 -> isr_table_ok (gpioof w) ->
  wp (irq_pin call_isr group i) (fun _ w' => gpioof w' = gpioof w /\
    exists t, tr w' = tr w ++ t /\ pin_served (gpioof w) group i t) w.
Proof.
  intros Hg Hi Hlen. unfold irq_pin. rewrite Z.shiftl_1_l. rewrite (wrap_id 32) by (by apply pow_fits32). cbv zeta. wp_step.
  eapply wp_mono; [apply emits_wp; apply (emits_get_reg_val group _ i _
    (fun r t => exists v, r = cbool (Z.testbit v i) /\ t = [Rd (gpio_reg group GPIO_INTRAWSTATUS_OFFSET_ADDR) v]));
    [lia | by eauto] |]. cbv beta.
  intros r w1 (Hg1 & t & Ht & v & -> & ->). destruct (Z.testbit v i) eqn:Eb.
  - cbn [cbool Z.eqb Pos.eqb]. wp_step. wp_step.
    eapply wp_mono; [apply emits_wp; apply (emits_set_reg_val group _ i 1 _
      (fun _ t => pin_update group GPIO_INTCLR_OFFSET_ADDR i true t)); [lia | done] |]. cbv beta.
    intros [] w2 (Hg2 & t1 & Ht1 & Hu). wp_step. wp_step. wp_step.
    replace (group * GPIO_GROUP_MAX_PIN_NUM + i) with (pin_number group i)
      by (unfold pin_number, GPIO_GROUP_MAX_PIN_NUM; lia).
    rewrite Hg2, Hg1.
    destruct (lookup_lt_is_Some_2 (gpio_isr_hanler (gpioof w)) (Z.to_nat (pin_number group i))) as [[h data] Hh].
    { unfold isr_table_ok in Hlen. rewrite Hlen. unfold pin_number. lia. }
    apply wp_some_or. exists (h, data). split; [done |]. cbn [fst snd].
    assert (isr_of (gpioof w) group i = Some (h, data)) as Eh by exact Hh.
    destruct h as [f |].
    + wp_apply Hcall. intros [] w3 (Hg3 & t2 & Ht2 & HC). rewrite Hg3, Hg2, Hg1. split; [done |].
      exists (Rd (gpio_reg group GPIO_INTRAWSTATUS_OFFSET_ADDR) v :: t1 ++ t2).
      split; [by rewrite Ht2, Ht1, Ht, <- !app_assoc |]. exists v. rewrite Eb, Eh. by exists t1, t2.
    + wp_step. rewrite Hg2, Hg1. split; [done |].
      exists (Rd (gpio_reg group GPIO_INTRAWSTATUS_OFFSET_ADDR) v :: t1 ++ []).
      split; [by rewrite Ht1, Ht, <- !app_assoc, app_nil_r |]. exists v. rewrite Eb, Eh. by exists t1, [].
  - cbn [cbool Z.eqb when]. wp_step. rewrite Hg1. split; [done |].
    exists [Rd (gpio_reg group GPIO_INTRAWSTATUS_OFFSET_ADDR) v]. split; [done |].
    exists v. by rewrite Eb.
Qed.

(** the interrupt handler of a group visits the group's pins once each,
    in order; for those whose raw status bit is set it clears that bit and
    then calls the function registered for that pin, if any, with its
    argument; for the others it does nothing. *)
Theorem gpio_irq_serves group w : 0 <= group < 4 -> isr_table_ok (gpioof w) ->
  wp (gpio_irq_handler call_isr group) (fun r w' => r = BM_OK /\ gpioof w' = gpioof w /\
    exists ts, tr w' = tr w ++ concat ts /\
      Forall2 (pin_served (gpioof w) group) (seqZ 0 (pins_of group)) ts) w.
Proof.
  intros Hg Hlen. unfold gpio_irq_handler.
  assert (exists irq, g_gpio_int_tbl !! Z.to_nat group = Some irq /\
    u32 (irq - CORE_SYS_GPIO0_INTID) = group) as (irq & -> & Hirq).
  { assert (group = 0 \/ group = 1 \/ group = 2 \/ group = 3) as Hc by lia.
    destruct Hc as [-> | [-> | [-> | ->]]]; by eexists. }
  cbn [some_or]. rewrite bind_ret, Hirq. cbv zeta.
  assert ((if group <? GPIO_GROUP3 then GPIO_GROUP_MAX_PIN_NUM else GPIO_GROUP3_MAX_PIN_NUM)
    = pins_of group) as ->.
  { unfold GPIO_GROUP3, pins_of, GPIO_GROUP_MAX_PIN_NUM, GPIO_GROUP3_MAX_PIN_NUM. zcases; done || lia. }
  assert (0 <= pins_of group <= 32) as Hpins by (unfold pins_of; destruct (group =? 3); lia).
  wp_step. eapply wp_mono. 1: apply (wp_for_up (fun k w' => gpioof w' = gpioof w /\
    exists ts, tr w' = tr w ++ concat ts /\ Forall2 (pin_served (gpioof w) group) (seqZ 0 k) ts)).
  - split; [done |]. exists []. by rewrite app_nil_r.
  - rewrite Z2Nat.id by lia. intros i w1 Hi (Hg1 & ts & Ht & HF).
    wp_apply irq_pin_serves; [done | lia | by rewrite Hg1 |].
    intros [] w2 (Hg2 & t & Ht2 & Hs). rewrite Hg2, Hg1 in *. split; [done |].
    exists (ts ++ [t]). split; [by rewrite Ht2, Ht, concat_app, <- app_assoc; simpl; rewrite app_nil_r |].
    rewrite seqZ_app, Z.add_0_l by lia. apply Forall2_app; [done |].
    rewrite (seqZ_cons i 1) by lia. by repeat constructor.
  - rewrite Z2Nat.id by lia. cbv beta. intros [] w1 (Hg1 & ts & Ht & HF). apply wp_ret.
    split; [done |]. split; [done |]. by exists ts.
Qed.
End Serve.
End Pins.

(** ** Witnesses

    Pin 5 of group 1; every register reads as 0x20, so that pin is pending in
    group 1; the clock stands still. *)
#[local, refine] Instance gpio_all : GpioConfig :=
  {| gpio_exist_array := replicate 4 true; gpio_isr_addr := 0x2000; gpio_int_addr g := 0x3000 + 4 * g |}.
Proof. reflexivity. Defined.

Definition gpio_answers (a : Z) : Z := 0x20.
Abbreviation gpio_dev := (fixed gpio_answers (fun _ => 0)).
Definition gpio_world : world gpio gpio_dev := World gpio_init_state Fixed [].

Lemma gpio_still_delay (w : world gpio gpio_dev) :
  emits (udelay 1 10) w (fun _ t => Forall is_sys t).
Proof.
  destruct w as [g d t]. split; [done |]. eexists. split.
  - symmetry. apply (app_assoc t [_] [_]).
  - repeat constructor.
Qed.

Lemma gpio_levels_witness :
  emits (bm_gpio_set_level 7 1 5 1) gpio_world (fun r _ => r = BM_OK) /\
  emits (bm_gpio_get_level 7 1 5 true) gpio_world (fun r _ => exists b, r = (BM_OK, Some (cbool b))).
Proof.
  destruct (gpio_levels 7 1 5 1 gpio_world) as [H1 H2]; [lia | lia |].
  split; [eapply emits_mono; [exact H1 |] | eapply emits_mono; [exact H2 |]]; intros r t H.
  - exact (proj1 H).
  - destruct H as (v & t' & H & _). exists (Z.testbit v 5). exact H.
Defined.

Lemma gpio_interrupt_setup_witness :
  emits (bm_gpio_enable_int 7 1 1 5 1 0) gpio_world (fun r _ => r = BM_OK) /\
  emits (bm_gpio_enable_int 7 1 3 31 1 0) gpio_world (fun r t => r = BM_FAIL /\ t = []).
Proof.
  destruct (gpio_interrupt_setup 7 1 gpio_still_delay 1 5 1 0 gpio_world) as [H1 _]; [lia | lia |].
  destruct (gpio_interrupt_setup 7 1 gpio_still_delay 3 31 1 0 gpio_world) as [H2 _]; [lia | lia |].
  split; [eapply emits_mono; [exact H1 |] | eapply emits_mono; [exact H2 |]]; intros r t H.
  - exact (proj1 H).
  - exact H.
Defined.

Lemma gpio_mux_selects_witness :
  emits (bm_gpio_config_io_reuse 7 1 5) gpio_world
    (fun r t => r = BM_OK /\ exists v v', t = [Rd 0x876e060 v; Wr 0x876e060 v']).
Proof.
  destruct (gpio_mux_selects 7 1 5 gpio_world) as [H _]; [lia | lia |].
  eapply emits_mono; [exact H |]. intros r t (Hr & i & v & v' & Hi & _ & Ht & _).
  split; [exact Hr |]. exists v, v'. injection Hi as <-. exact Ht.
Defined.

Lemma gpio_clock_always_off_witness :
  emits (bm_gpio_config_io_clock 7 1 5) gpio_world
    (fun r t => r = BM_OK /\ exists v v', t = [Rd 0x871d010 v; Wr 0x871d010 v'] /\
       Z.testbit v' 27 = false).
Proof.
  eapply emits_mono; [apply (gpio_clock_always_off 7 1 5 gpio_world); lia |].
  intros r t (Hr & v & v' & Ht & Hb & _). split; [exact Hr |]. exists v, v'. split; [exact Ht | exact Hb].
Defined.

Lemma gpio_isr_registration_witness :
  wp (bm_gpio_isr_register 7 1 5 (Some 0x5000) 9) (fun r w' => r = BM_OK /\
    isr_of (glob w') 1 5 = Some (Some 0x5000, 9) /\ isr_of (glob w') 3 30 = Some (None, 0)) gpio_world.
Proof.
  eapply wp_mono.
  - apply (gpio_isr_registration 7 1 5 (Some 0x5000) 9 gpio_world); [lia | lia | reflexivity].
  - intros r w' (_ & Hr & _ & _ & Hu). split; [exact Hr |]. split.
    + refine (Hu 1 5 _ _ _); [lia | lia | split_and!; reflexivity].
    + refine (Hu 3 30 _ _ _); [lia | lia | split_and!; reflexivity].
Defined.

(** The client's function writes its argument at its own address. *)
Definition gpio_client (f data : Z) : M gpio gpio_dev unit := writel data f.

Lemma gpio_irq_serves_witness :
  wp (gpio_irq_handler gpio_client 1) (fun r w' => r = BM_OK /\
    exists ts, tr w' = concat ts /\ length ts = 32%nat) gpio_world.
Proof.
  eapply wp_mono.
  - apply (gpio_irq_serves gpio_client (fun f data t => t = [Wr f (u32 data)])); [| lia | reflexivity].
    intros f data w. apply wp_writel. intros d. split; [reflexivity |]. eexists. split; reflexivity.
  - intros r w' (Hr & _ & ts & Ht & HF). split; [exact Hr |]. exists ts. split; [exact Ht |].
    apply Forall2_length in HF. rewrite length_seqZ in HF. symmetry. exact HF.
Defined.

(** With a handler registered for that pin, it is called once. *)
Example gpio_irq_calls :
  writes (match gpio_irq_handler gpio_client 1
            (World (set_isr 37 (Some 0x5000) 9 gpio_init_state) (Fixed : gpio_dev) []) with
          | Done _ w => tr w | Fault _ => [] end) = [(gpio_reg 1 GPIO_INTCLR_OFFSET_ADDR, 0x20); (0x5000, 9)].
Proof. vm_compute. reflexivity. Qed.
