(* ===== verification/Uart.v ===== *)
(** * Uart: the serial ports (drivers/uart/uart.c, uart_core.c)

    Ports 2 to 7.  The register layer of uart_core.c, whose accesses go
    through the divisor latch bit, then the driver: initialisation, polled
    transmission and reception with a bound on the polling, strings, and
    transfers by DMA.  The code is that of builds with the device open
    (BM_OPEN_UART_DEVICE; the other branch returns BM_OK everywhere).
    Theorems: UartProps. *)
From stdpp Require Import prelude gmap list strings.
From Stdlib Require Import ZArith Lia.
From S2P Require Import Prelude Hw Common Mem Dmac.
Local Open Scope Z_scope.

(** ** uart_regs.h, uart_core.h, bm_uart.h *)
Definition UART_MIN_NUM : Z := 2.
Definition UART_MAX_NUM : Z := 7.
Definition UART_NUM4 : Z := 4.
Definition UART_NUM5 : Z := 5.
Definition UART_NUM6 : Z := 6.
Definition UART_NUM2 : Z := 2.
Definition UART_BUSY_TIMEOUT : Z := 1000000.
Definition UART_CLK : Z := 100000000.
Definition UART_DATA_5BIT : Z := 0.
Definition UART_DATA_8BIT : Z := 3.
Definition UART_STOP_1BIT : Z := 0.
Definition UART_STOP_1P5BIT : Z := 1.
Definition UART_STOP_2BIT : Z := 2.
Definition UART_VERIFY_DISABLE : Z := 0.
Definition UART_VERIFY_ENABLE : Z := 1.
Definition UART_VERIFY_ODD : Z := 0.
Definition UART_VERIFY_EVEN : Z := 1.
Definition UART_WRITE_OK : Z := 0.
Definition UART_WRITE_FAIL : Z := 1.
Definition UART_READ_OK : Z := 2.
Definition UART_READ_FAIL : Z := 3.

Definition uart_reg_bases : list Z :=
  [0x0872A000; 0x0872B000; 0x08710000; 0x08711000; 0x08743000; 0x08744000; 0x0875D000; 0x0875E000].
Definition uart_txiomux_bases : list Z :=
  [0; 0; 0x08745070; 0x08745078; 0x08745080; 0x0876e04c; 0x0876e050; 0x0874508c].
Definition uart_rxiomux_bases : list Z :=
  [0; 0; 0x0874506c; 0x08745074; 0x0874507c; 0x0876e04c; 0x0876e050; 0x08745088].

Definition DW_UART_RBR : Z := 0x00.
Definition DW_UART_THR : Z := 0x00.
Definition DW_UART_DLL : Z := 0x00.
Definition DW_UART_DLH : Z := 0x04.
Definition DW_UART_FCR : Z := 0x08.
Definition DW_UART_LCR : Z := 0x0C.
Definition DW_UART_LSR : Z := 0x14.
Definition DW_UART_USR : Z := 0x7C.
Definition DW_UART_LSR_DDR : Z := 0x01.
Definition DW_UART_DLAB : Z := 2 ^ 7.
Definition DW_UART_EPS : Z := 2 ^ 4.
Definition DW_UART_PEN : Z := 2 ^ 3.
Definition DW_UART_STOP : Z := 2 ^ 2.
Definition ELSI : Z := 2 ^ 2.
Definition FIFOENA : Z := 1.
Definition UART_FCR_RXCLR : Z := 0x02.
Definition UART_FCR_TXCLR : Z := 0x04.
Definition DW_UART_BUSY : Z := 0x01.
Definition DW_XFIFO_NOT_FULL : Z := 0x02.

Record serial_cfg := SerialCfg {
  hw_uart_no : Z; data_bits : Z; stop : Z; pen : Z; eps : Z; uart_src_clk : Z; baud_rate : Z;
}.

(** ** State *)
Record uart := Uart {
  g_print_init_done : Z;
  g_print_uart_num : Z;
  g_uart_dma_tx_callback_array : list (option Z);
  g_uart_dma_rx_callback_array : list (option Z);
}.

Definition uart_init_state : uart := Uart 0 0 (replicate 8 None) (replicate 8 None).

Definition set_print (n : Z) (s : uart) : uart :=
  Uart 1 n (g_uart_dma_tx_callback_array s) (g_uart_dma_rx_callback_array s).
Definition set_uart_tx_cb (id : Z) (f : option Z) (s : uart) : uart :=
  Uart (g_print_init_done s) (g_print_uart_num s)
    (<[Z.to_nat id := f]> (g_uart_dma_tx_callback_array s)) (g_uart_dma_rx_callback_array s).
Definition set_uart_rx_cb (id : Z) (f : option Z) (s : uart) : uart :=
  Uart (g_print_init_done s) (g_print_uart_num s)
    (g_uart_dma_tx_callback_array s) (<[Z.to_nat id := f]> (g_uart_dma_rx_callback_array s)).

(** The ports present in the build; the address of the DMA callback. *)
Class UartConfig := {
  uart_exist_array : list bool;
  uart_exist_length : length uart_exist_array = 8%nat;
  uart_dma_finish : Z;
}.

(** ** Request lines of the DMA controller *)
Definition UART_IS_ODD : Z := 2.

Definition uart_dma_get_dmac_req (id is_read : Z) : Z :=
  if id <=? UART_NUM4 then
    if is_read =? 1 then req_num DMAC_REQ_SEL_UART2_RX + (id - UART_NUM2) * UART_IS_ODD
    else req_num DMAC_REQ_SEL_UART2_TX + (id - UART_NUM2) * UART_IS_ODD
  else
    if is_read =? 1 then req_num DMAC_REQ_SEL_UART5_RX + (id - UART_NUM5) * UART_IS_ODD
    else req_num DMAC_REQ_SEL_UART5_TX + (id - UART_NUM5) * UART_IS_ODD.

Definition uart_dma_get_id_from_req (r : Z) : Z :=
  if r <=? req_num DMAC_REQ_SEL_UART4_RX
  then Z.quot (r - req_num DMAC_REQ_SEL_UART2_TX) UART_IS_ODD + UART_NUM2
  else Z.quot (r - req_num DMAC_REQ_SEL_UART5_TX) UART_IS_ODD + UART_NUM5.

(** [DIV_ROUND_CLOSEST] at unsigned operands, where its test is always true. *)
Definition DIV_ROUND_CLOSEST (x d : Z) : Z := u32 (x + d / 2) / d.

Section UartCore.
Context {G D : Type} `{MD : Machine D}.
Abbreviation M := (M G D).

(** ** uart_core.c *)
Definition bm_uart_core_base_addr (uart_no : Z) : M (Z * Z) :=
  if (UART_MAX_NUM <? uart_no) || (uart_no <? UART_MIN_NUM) then mret (BM_FAIL, 0)
  else
    base ← some_or OutOfBounds (uart_reg_bases !! Z.to_nat uart_no);
    mret (BM_OK, base).

(** The second component is the caller's variable, [val] before the call. *)
Definition bm_uart_reg_read (uart_no offset val : Z) : M (Z * Z) :=
  r ← bm_uart_core_base_addr uart_no;
  if ctrue r.1 then mret (r.1, val)
  else v ← readl (u32 (r.2 + offset)); mret (BM_OK, v).

Definition bm_uart_reg_write (uart_no offset val : Z) : M unit :=
  r ← bm_uart_core_base_addr uart_no;
  if ctrue r.1 then mret tt else writel val (u32 (r.2 + offset)).

Definition bm_uart_set_lcr_dlab (uart_no dlab_sel : Z) : M unit :=
  r ← bm_uart_reg_read uart_no DW_UART_LCR 0;
  if ctrue r.1 then mret tt
  else
    let lcr := if ctrue dlab_sel then Z.lor r.2 DW_UART_DLAB
               else Z.land r.2 (bnot 32 DW_UART_DLAB) in
    bm_uart_reg_write uart_no DW_UART_LCR lcr.

Definition bm_uart_set_dll_dlh (uart_no dll dlh : Z) : M unit :=
  bm_uart_set_lcr_dlab uart_no 1 ;;
  bm_uart_reg_write uart_no DW_UART_DLL dll ;;
  bm_uart_reg_write uart_no DW_UART_DLH dlh ;;
  bm_uart_set_lcr_dlab uart_no 0.

Definition bm_uart_get_dll_dlh (uart_no dll dlh : Z) : M (Z * Z) :=
  bm_uart_set_lcr_dlab uart_no 1 ;;
  l ← bm_uart_reg_read uart_no DW_UART_DLL dll;
  h ← bm_uart_reg_read uart_no DW_UART_DLH dlh;
  bm_uart_set_lcr_dlab uart_no 0 ;;
  mret (l.2, h.2).

Definition bm_uart_set_fifo_ctrl (uart_no fifo_ctrl : Z) : M unit :=
  bm_uart_set_lcr_dlab uart_no 1 ;;
  bm_uart_reg_write uart_no DW_UART_FCR fifo_ctrl ;;
  bm_uart_set_lcr_dlab uart_no 0.

Definition bm_uart_set_lcr (uart_no lcr : Z) : M unit := bm_uart_reg_write uart_no DW_UART_LCR lcr.

Definition bm_uart_txfifo_full (uart_no : Z) : M Z :=
  r ← bm_uart_reg_read uart_no DW_UART_USR 0;
  if ctrue r.1 then mret BM_OK
  else mret (if ctrue (Z.land r.2 DW_XFIFO_NOT_FULL) then 0 else 1).

Definition bm_uart_rx_ready (uart_no : Z) : M Z :=
  r ← bm_uart_reg_read uart_no DW_UART_LSR 0;
  mret (if ctrue (Z.land r.2 DW_UART_LSR_DDR) then 1 else 0).

Definition bm_uart_tx_char (uart_no c : Z) : M unit := bm_uart_reg_write uart_no DW_UART_THR c.

Definition bm_uart_rx_char (uart_no : Z) : M Z :=
  r ← bm_uart_reg_read uart_no DW_UART_RBR 0; mret (Z.land r.2 0xFF).

Definition idle_round (uart_no time : Z) : M (Z + Z) :=
  if time =? 0 then mret (inr (-1))
  else
    r ← bm_uart_reg_read uart_no DW_UART_USR 0;
    if Z.land r.2 DW_UART_BUSY =? 0 then mret (inr BM_OK) else mret (inl (time - 1)).

Definition bm_uart_wait_idle (uart_no timeout : Z) : M Z :=
  loop (S (Z.to_nat timeout)) (idle_round uart_no) timeout.
End UartCore.

Section Uart.
Context {G D : Type} `{MD : Machine D} `{HM : !Has G mem} `{HU : !Has G uart} `{DA : !Dma G D}.
Context `{XF : Xfer} `{UC : UartConfig}.
Abbreviation M := (M G D).

Definition uart_exists (uart_num : Z) : M bool :=
  some_or OutOfBounds (uart_exist_array !! Z.to_nat uart_num).

Definition uart_check_valid (uart_num : Z) : M Z :=
  if (UART_MAX_NUM <? uart_num) || (uart_num <? UART_MIN_NUM) then mret BM_FAIL
  else
    e ← uart_exists uart_num;
    if negb e then mret BM_FAIL else mret BM_OK.

(** ** Initialisation *)
Definition bm_calc_uart_dll_dlh (uart_clk baud_rate : Z) : M (Z * Z) :=
  let d := u32 (16 * baud_rate) in
  if d =? 0 then fail DivZero
  else
    let divisor := DIV_ROUND_CLOSEST uart_clk d in
    mret (Z.land divisor 0xFF, Z.land (Z.shiftr divisor 8) 0xFF).

Definition bm_calc_lcr_reg_val (cfg : serial_cfg) : Z :=
  let lcr := Z.lor 0 (data_bits cfg) in
  let lcr := if negb (stop cfg =? UART_STOP_1BIT) then Z.lor lcr DW_UART_STOP else lcr in
  if ctrue (pen cfg) then
    let lcr := Z.lor lcr DW_UART_PEN in
    if ctrue (eps cfg) then Z.lor lcr DW_UART_EPS else lcr
  else lcr.

Definition bm_uart_io_mux_cfg (cfg : serial_cfg) : M unit :=
  let n := Z.to_nat (hw_uart_no cfg) in
  tx ← some_or OutOfBounds (uart_txiomux_bases !! n);
  rx ← some_or OutOfBounds (uart_rxiomux_bases !! n);
  if hw_uart_no cfg <=? UART_NUM4 then writel 0 tx ;; writel 0 rx
  else if hw_uart_no cfg <=? UART_NUM6 then writel 0x3 tx
  else writel 1 tx ;; writel 1 rx.

Definition bm_uart_set_baud_rate (cfg : serial_cfg) : M unit :=
  _ ← bm_uart_wait_idle (hw_uart_no cfg) UART_BUSY_TIMEOUT;
  dl ← bm_calc_uart_dll_dlh (uart_src_clk cfg) (baud_rate cfg);
  bm_uart_set_dll_dlh (hw_uart_no cfg) dl.1 dl.2.

Definition serial_cfg_bad (cfg : serial_cfg) : bool :=
  (UART_MAX_NUM <? hw_uart_no cfg) || (hw_uart_no cfg <? UART_MIN_NUM) ||
  (UART_DATA_8BIT <? data_bits cfg) || (data_bits cfg <? UART_DATA_5BIT) ||
  (UART_STOP_2BIT <? stop cfg) || (stop cfg <? UART_STOP_1BIT) ||
  (UART_VERIFY_ENABLE <? pen cfg) || (pen cfg <? UART_VERIFY_DISABLE) ||
  (UART_VERIFY_EVEN <? eps cfg) || (eps cfg <? UART_VERIFY_ODD).

Definition bm_uart_init (cfg : option serial_cfg) : M Z :=
  match cfg with
  | None => mret BM_FAIL
  | Some cfg =>
      if serial_cfg_bad cfg then mret BM_FAIL
      else if (stop cfg =? UART_STOP_1P5BIT) && negb (data_bits cfg =? UART_DATA_5BIT)
      then mret BM_FAIL
      else if negb (uart_src_clk cfg =? UART_CLK) then mret BM_FAIL
      else
        e ← uart_exists (hw_uart_no cfg);
        if negb e then mret BM_FAIL
        else
          bm_uart_io_mux_cfg cfg ;;
          bm_uart_set_baud_rate cfg ;;
          let fifo_ctrl := Z.lor (Z.lor FIFOENA UART_FCR_RXCLR) UART_FCR_TXCLR in
          bm_uart_set_fifo_ctrl (hw_uart_no cfg) fifo_ctrl ;;
          bm_uart_set_lcr (hw_uart_no cfg) (bm_calc_lcr_reg_val cfg) ;;
          mret BM_OK
  end.

(** The register written is at the offset [ELSI]. *)
Definition bm_uart_set_irq_enable (uart_no status : Z) : M Z :=
  bad ← uart_check_valid uart_no;
  if ctrue bad then mret BM_FAIL
  else
    bm_uart_reg_write uart_no ELSI (if negb (status =? 0) then 1 else 0) ;;
    mret BM_OK.

Definition bm_uart_deinit (uart_no : Z) : M Z :=
  bad ← uart_check_valid uart_no;
  if ctrue bad then mret BM_FAIL else bm_uart_set_irq_enable uart_no 0.

Definition bm_uart_enable_print (uart_no : Z) : M Z :=
  bad ← uart_check_valid uart_no;
  if ctrue bad then mret BM_FAIL
  else modg (set_print uart_no) ;; mret BM_OK.

(** ** Polled transfers *)
Definition tx_round (uart_no timeout : Z) : M (Z + bool) :=
  full ← bm_uart_txfifo_full uart_no;
  if ctrue full then
    if UART_BUSY_TIMEOUT <=? timeout + 1 then mret (inr false) else mret (inl (timeout + 1))
  else mret (inr true).

Definition bm_uart_tx (uart_no c : Z) : M Z :=
  bad ← uart_check_valid uart_no;
  if ctrue bad then mret BM_FAIL
  else
    ok ← loop (Z.to_nat UART_BUSY_TIMEOUT) (tx_round uart_no) 0;
    if ok : bool then bm_uart_tx_char uart_no c ;; mret BM_OK else mret BM_FAIL.

Definition rx_round (uart_no timeout : Z) : M (Z + bool) :=
  ready ← bm_uart_rx_ready uart_no;
  if negb (ctrue ready) then
    if UART_BUSY_TIMEOUT <=? timeout + 1 then mret (inr false) else mret (inl (timeout + 1))
  else mret (inr true).

(** [out]: whether the pointer is not NULL; the character received. *)
Definition bm_uart_rx (uart_no : Z) (out : bool) : M (Z * option Z) :=
  bad ← uart_check_valid uart_no;
  if ctrue bad || negb out then mret (BM_FAIL, None)
  else
    ok ← loop (Z.to_nat UART_BUSY_TIMEOUT) (rx_round uart_no) 0;
    if ok : bool then c ← bm_uart_rx_char uart_no; mret (BM_OK, Some c) else mret (BM_FAIL, None).

(** [while ( *str != 0 && length > 0)]: the character is read first. *)
Definition puts_round (uart_no : Z) (s : Z * Z) : M ((Z * Z) + Z) :=
  let '(str, length) := s in
  c ← ld8 str;
  if negb (c =? 0) && (0 <? length) then
    bad ← bm_uart_tx uart_no c;
    if ctrue bad then mret (inr BM_FAIL) else mret (inl (str + 1, length - 1))
  else mret (inr BM_OK).

Definition bm_uart_raw_puts (uart_no str len : Z) : M Z :=
  bad ← uart_check_valid uart_no;
  if ctrue bad || (str =? NULL) || ctrue (is_invalid_addr_len (u32 str) len) then mret BM_FAIL
  else loop (S (Z.to_nat len)) (puts_round uart_no) (str, len).

(** [buff], what vsnprintf_s left in the buffer up to the terminator, and
    [len], what it returned.  Failures of the port are ignored. *)
Fixpoint print_chars (n : Z) (buff : list Z) : M unit :=
  match buff with
  | [] => mret tt
  | c :: buff' =>
      _ ← bm_uart_tx n c;
      (if c =? 10 then _ ← bm_uart_tx n 13; mret tt else mret tt) ;;
      print_chars n buff'
  end.

Definition bm_uart_printf (len : Z) (buff : list Z) : M Z :=
  if len =? -1 then mret len
  else
    s ← gets (S := uart);
    print_chars (g_print_uart_num s) buff ;;
    mret BM_OK.

Definition bm_printf (len : Z) (buff : list Z) : M Z :=
  s ← gets (S := uart);
  if g_print_init_done s =? 0 then mret BM_FAIL else bm_uart_printf len buff.

(** [status]: whether the pointer is not NULL. *)
Definition bm_uart_get_status (uart_no : Z) (status : bool) : M (Z * option Z) :=
  bad ← uart_check_valid uart_no;
  if ctrue bad || negb status then mret (BM_FAIL, None)
  else
    r ← bm_uart_reg_read uart_no DW_UART_LSR 0;
    mret (r.1, Some r.2).

(** ** DMA *)
Section Finish.
(** Calling the client: its function, the port, the outcome. *)
Context (call_user : Z -> Z -> Z -> M unit).

Definition uart_dma_finish_func (r type : Z) : M unit :=
  let uart_id := uart_dma_get_id_from_req r in
  s ← gets (S := uart);
  let failed := negb (type =? DMAC_TRANSMIT_OK) in
  let '(state, cbs) :=
    if r mod UART_IS_ODD =? 0
    then (if failed then UART_WRITE_FAIL else UART_WRITE_OK, g_uart_dma_tx_callback_array s)
    else (if failed then UART_READ_FAIL else UART_READ_OK, g_uart_dma_rx_callback_array s) in
  cb ← some_or OutOfBounds (cbs !! Z.to_nat uart_id);
  match cb with Some f => call_user f uart_id state | None => mret tt end.
End Finish.

Definition uart_dma_cfg (uart_no base_addr addr len is_read : Z) : bm_dmac_channel_cfg :=
  if is_read =? 1
  then ChannelCfg (uart_dma_get_dmac_req uart_no 1) (u32 (base_addr + DW_UART_THR)) addr len TRASFER_TYPE_P2M
  else ChannelCfg (uart_dma_get_dmac_req uart_no 0) addr (u32 (base_addr + DW_UART_THR)) len TRASFER_TYPE_M2P.

Definition bm_uart_rx_dma (uart_no out len callback : Z) : M Z :=
  bad ← uart_check_valid uart_no;
  if ctrue bad || (out =? NULL) || ctrue (is_invalid_addr_len (u32 out) len) then mret BM_FAIL
  else
    r ← bm_uart_core_base_addr uart_no;
    if ctrue r.1 then mret BM_FAIL
    else
      modg (set_uart_rx_cb uart_no (callback_of callback)) ;;
      dma_transmit_async (Some (uart_dma_cfg uart_no r.2 out len 1)) uart_dma_finish.

Definition bm_uart_tx_dma (uart_no str len callback : Z) : M Z :=
  bad ← uart_check_valid uart_no;
  if ctrue bad || (str =? NULL) || ctrue (is_invalid_addr_len (u32 str) len) then mret BM_FAIL
  else
    r ← bm_uart_core_base_addr uart_no;
    if ctrue r.1 then mret BM_FAIL
    else
      modg (set_uart_tx_cb uart_no (callback_of callback)) ;;
      dma_transmit_async (Some (uart_dma_cfg uart_no r.2 str len 0)) uart_dma_finish.
End Uart.
