(* ===== verification/UartProps.v ===== *)
(** * UartProps: what goes over a serial line

    [port_ok]: the ports the driver accepts.  A string goes out character by
    character, each after a bounded number of looks at the FIFO; the divisor is
    the nearest to the baud rate and is written while the divisor latch is
    open; the completion of a transfer by DMA reaches the port it is for. *)
From stdpp Require Import prelude gmap list strings.
From Stdlib Require Import ZArith Lia.
From S2P Require Import Prelude Hw Common Mem Dmac Uart.
Local Open Scope Z_scope.

Definition uart_base (n : Z) : Z := default 0 (uart_reg_bases !! Z.to_nat n).

Lemma uart_bases n : 2 <= n <= 7 ->
  uart_reg_bases !! Z.to_nat n = Some (uart_base n) /\ 0 <= uart_base n < 2 ^ 31 /\ uart_base n mod 0x1000 = 0.
Proof.
  intros Hn. assert (n = 2 \/ n = 3 \/ n = 4 \/ n = 5 \/ n = 6 \/ n = 7) as H by lia.
  by destruct H as [-> | [-> | [-> | [-> | [-> | ->]]]]].
Qed.

(** Characters put in the transmit register of the port at [base]. *)
Definition sent (base : Z) (t : list event) : list Z :=
  omap (fun e => match e with Wr a v => if a =? base + DW_UART_THR then Some v else None | _ => None end) t.

(** What transmission does to the registers: look at the status, fill. *)
Definition tx_access (base : Z) (e : event) : Prop :=
  match e with
  | Rd a _ => a = base + DW_UART_USR
  | Wr a _ => a = base + DW_UART_THR
  | Sy _ _ | Seen _ => False
  end.

(** *** Waiting at most UART_BUSY_TIMEOUT times *)
Lemma busy_timeout_pos : 0 < UART_BUSY_TIMEOUT.
Proof. done. Qed.
Opaque UART_BUSY_TIMEOUT.

Section Ports.
Context {G D : Type} `{MD : Machine D} `{HM : !Has G mem} `{HU : !Has G uart} `{DA : !Dma G D}.
Context `{XF : Xfer} `{UC : UartConfig}.
Implicit Types (w : world G D).
Abbreviation uartof w := (hget (S := uart) (glob w)).

Definition port_ok (n : Z) : Prop := 2 <= n <= 7 /\ uart_exist_array !! Z.to_nat n = Some true.
#[global] Instance port_ok_dec n : Decision (port_ok n).
Proof. unfold port_ok. apply _. Defined.

Lemma uart_check_valid_eq n :
  uart_check_valid n = mret (M := M G D) (if decide (port_ok n) then BM_OK else BM_FAIL).
Proof.
  unfold uart_check_valid, uart_exists, UART_MAX_NUM, UART_MIN_NUM.
  destruct (_ || _) eqn:E; [rewrite decide_False; [done |]; unfold port_ok; lia |].
  destruct (uart_exist_array !! Z.to_nat n) as [e |] eqn:Ee.
  2: { apply lookup_ge_None in Ee. rewrite uart_exist_length in Ee. lia. }
  cbn [some_or]. rewrite bind_ret. destruct e; cbn [negb].
  - rewrite decide_True; [done |]. unfold port_ok. rewrite Ee. split; [lia | done].
  - rewrite decide_False; [done |]. unfold port_ok. rewrite Ee. by intros [_ [=]].
Qed.

Lemma core_base_eq n : 2 <= n <= 7 ->
  bm_uart_core_base_addr n = mret (M := M G D) (BM_OK, uart_base n).
Proof.
  intros Hn. unfold bm_uart_core_base_addr, UART_MAX_NUM, UART_MIN_NUM.
  replace (_ || _) with false by lia. destruct (uart_bases n Hn) as [-> _]. done.
Qed.

Lemma emits_reg_read n off v0 w (P : Z * Z -> list event -> Prop) : 2 <= n <= 7 -> 0 <= off < 0x1000 ->
  (forall v, fits 32 v -> P (BM_OK, v) [Rd (uart_base n + off) v]) ->
  emits (bm_uart_reg_read n off v0) w P.
Proof.
  intros Hn Ho HP. unfold bm_uart_reg_read. rewrite core_base_eq, bind_ret by done.
  destruct (uart_bases n Hn) as (_ & Hb & _). cbn [fst snd ctrue BM_OK Z.eqb negb].
  rewrite (wrap_id 32) by (unfold fits; lia). emits_steps. by apply HP.
Qed.

Lemma emits_reg_write n off v w (P : unit -> list event -> Prop) : 2 <= n <= 7 -> 0 <= off < 0x1000 ->
  P tt [Wr (uart_base n + off) (u32 v)] -> emits (bm_uart_reg_write n off v) w P.
Proof.
  intros Hn Ho HP. unfold bm_uart_reg_write. rewrite core_base_eq, bind_ret by done.
  destruct (uart_bases n Hn) as (_ & Hb & _). cbn [fst snd ctrue BM_OK Z.eqb negb].
  rewrite (wrap_id 32) by (unfold fits; lia). emits_steps. done.
Qed.

(** ** Transmission *)
Lemma sent_app base t1 t2 : sent base (t1 ++ t2) = sent base t1 ++ sent base t2.
Proof. apply omap_app. Qed.

Lemma uart_tx_emits n c w : port_ok n -> fits 8 c ->
  emits (bm_uart_tx n c) w (fun r t =>
    Forall (tx_access (uart_base n)) t /\
    (r = BM_OK /\ sent (uart_base n) t = [c] \/ r = BM_FAIL /\ sent (uart_base n) t = [])).
Proof.
  intros Hok Hc. pose proof (proj1 Hok) as Hn. unfold bm_uart_tx.
  rewrite uart_check_valid_eq, bind_ret, decide_True by done. cbn [ctrue BM_OK Z.eqb negb].
  apply emits_bind. pose proof busy_timeout_pos as Hpos.
  apply (emits_loop (fun k t => 0 <= k < UART_BUSY_TIMEOUT /\ Forall (tx_access (uart_base n)) t /\
      sent (uart_base n) t = []) (fun k => Z.to_nat (UART_BUSY_TIMEOUT - 1 - k))).
  2: { split; [lia | done]. }
  2: lia.
  intros k t w1 Hw1 (Hk & Ha & Hs). unfold tx_round, bm_uart_txfifo_full.
  do 2 apply emits_bind. apply emits_reg_read; [done | done |]. intros v Hv w2 Hw2.
  cbn [fst snd ctrue BM_OK Z.eqb negb]. apply emits_ret. cbn [app]. intros w3 Hw3.
  assert (Forall (tx_access (uart_base n)) (t ++ [Rd (uart_base n + DW_UART_USR) v]) /\
    sent (uart_base n) (t ++ [Rd (uart_base n + DW_UART_USR) v]) = []) as [Ha' Hs'].
  { split; [apply Forall_app; split; [done | by repeat constructor] | by rewrite sent_app, Hs]. }
  destruct (ctrue (Z.land v DW_XFIFO_NOT_FULL)); cbn [ctrue Z.eqb negb].
  - apply emits_ret. rewrite ?app_nil_r. intros w4 Hw4. apply emits_bind.
    unfold bm_uart_tx_char. apply emits_reg_write; [done | done |]. intros w5 Hw5. apply emits_ret.
    rewrite (wrap_id 32) by (apply (fits_mono 8); [lia | done]).
    rewrite ?app_nil_r. split; [apply Forall_app; split; [done | by repeat constructor] |]. left.
    split; [done |]. rewrite sent_app, Hs'. unfold sent, DW_UART_THR. cbn [omap list_omap app].
    by rewrite Z.eqb_refl.
  - destruct (Z.leb_spec UART_BUSY_TIMEOUT (k + 1)); apply emits_ret; rewrite ?app_nil_r.
    + intros w4 Hw4. apply emits_ret. rewrite ?app_nil_r. split; [done |]. by right.
    + split; [split; [lia | done] | lia].
Qed.

(** The text of at most [len] characters at [str], and the character behind it. *)
Definition text_at (m : mem) (str len : Z) (text : list Z) : Prop :=
  rd m str (length text) = Some text /\ Forall (fun c => fits 8 c /\ c <> 0) text /\
  Z.of_nat (length text) <= len /\
  exists c, m !! (str + Z.of_nat (length text)) = Some c /\ (Z.of_nat (length text) = len \/ c = 0).


(** ** Initialisation *)
Definition cfg_ok (cfg : serial_cfg) : Prop :=
  port_ok (hw_uart_no cfg) /\ 0 <= data_bits cfg <= 3 /\ 0 <= stop cfg <= 2 /\ 0 <= pen cfg <= 1 /\
  0 <= eps cfg <= 1 /\ (stop cfg = 1 -> data_bits cfg = 0) /\ uart_src_clk cfg = UART_CLK.
#[global] Instance cfg_ok_dec cfg : Decision (cfg_ok cfg).
Proof. unfold cfg_ok. apply _. Defined.

(** The pins of port [n], and the values that select it on them. *)
Definition mux_writes (n : Z) : list (Z * Z) :=
  let tx := default 0 (uart_txiomux_bases !! Z.to_nat n) in
  let rx := default 0 (uart_rxiomux_bases !! Z.to_nat n) in
  if n <=? 4 then [(tx, 0); (rx, 0)] else if n <=? 6 then [(tx, 3)] else [(tx, 1); (rx, 1)].

(** The line control value says what the configuration says. *)
Definition lcr_says (cfg : serial_cfg) (lcr : Z) : Prop :=
  bf_get 0 2 lcr = data_bits cfg /\ Z.testbit lcr 2 = negb (stop cfg =? 0) /\
  Z.testbit lcr 3 = ctrue (pen cfg) /\ Z.testbit lcr 4 = ctrue (pen cfg) && ctrue (eps cfg) /\
  Z.testbit lcr 7 = false.

Lemma lcr_value_says cfg : cfg_ok cfg ->
  lcr_says cfg (bm_calc_lcr_reg_val cfg) /\ fits 32 (bm_calc_lcr_reg_val cfg).
Proof.
  destruct cfg as [n da st pe ep clk baud]. unfold cfg_ok, lcr_says, bm_calc_lcr_reg_val. simpl.
  intros (_ & H1 & H2 & H3 & H4 & _).
  assert (da = 0 \/ da = 1 \/ da = 2 \/ da = 3) as [-> | [-> | [-> | ->]]] by lia;
  assert (st = 0 \/ st = 1 \/ st = 2) as [-> | [-> | ->]] by lia;
  assert (pe = 0 \/ pe = 1) as [-> | ->] by lia;
  assert (ep = 0 \/ ep = 1) as [-> | ->] by lia; vm_compute; repeat split; discriminate.
Qed.

(** The nearest divisor. *)
Lemma divisor_nearest baud : 0 < baud < 2 ^ 28 ->
  let div := DIV_ROUND_CLOSEST UART_CLK (16 * baud) in
  0 <= div /\ 2 * Z.abs (16 * baud * div - UART_CLK) <= 16 * baud.
Proof.
  intros Hb. cbv zeta. unfold DIV_ROUND_CLOSEST, UART_CLK.
  replace (16 * baud / 2) with (8 * baud) by (Z.to_euclidean_division_equations; lia).
  rewrite (wrap_id 32) by (unfold fits; lia). split; [apply Z.div_pos; lia |].
  pose proof (Z.div_mod (100000000 + 8 * baud) (16 * baud) ltac:(lia)) as E.
  pose proof (Z.mod_pos_bound (100000000 + 8 * baud) (16 * baud) ltac:(lia)). lia.
Qed.

Lemma wait_idle_emits n w (P : Z -> list event -> Prop) : 2 <= n <= 7 ->
  (forall r t, writes t = [] -> P r t) -> emits (bm_uart_wait_idle n UART_BUSY_TIMEOUT) w P.
Proof.
  intros Hn HP. unfold bm_uart_wait_idle.
  apply (emits_loop (fun k t => 0 <= k /\ writes t = []) Z.to_nat); [| by pose proof busy_timeout_pos; split; [lia |] | lia].
  intros k t w1 _ [Hk Ht]. unfold idle_round. destruct (Z.eqb_spec k 0).
  { apply emits_ret. rewrite app_nil_r. by apply HP. }
  apply emits_bind, emits_reg_read; [done | done |]. intros v Hv w2 Hw2. cbn [snd].
  assert (writes (t ++ [Rd (uart_base n + DW_UART_USR) v]) = []) as Ht' by (by rewrite writes_app, Ht).
  destruct (_ =? 0); apply emits_ret; rewrite ?app_nil_r; [by apply HP | split; [split; [lia | done] | lia]].
Qed.

Lemma set_dlab_emits n b w (P : unit -> list event -> Prop) : 2 <= n <= 7 ->
  (forall l t, writes t = [(uart_base n + DW_UART_LCR, l)] -> Z.testbit l 7 = ctrue b -> P tt t) ->
  emits (bm_uart_set_lcr_dlab n b) w P.
Proof.
  intros Hn HP. unfold bm_uart_set_lcr_dlab. apply emits_bind, emits_reg_read; [done | done |].
  intros v Hv w2 Hw2. cbn [fst snd ctrue BM_OK Z.eqb negb]. apply emits_reg_write; [done | done |].
  eapply HP; [reflexivity |].
  assert (Z.testbit DW_UART_DLAB 7 = true) as Hd by done.
  destruct (ctrue b); rewrite wrap_spec by lia.
  - by rewrite Z.lor_spec, Hd, orb_true_r.
  - unfold bnot. by rewrite Z.land_spec, wrap_spec, Z.lnot_spec, Hd, andb_false_r by lia.
Qed.

Lemma mux_emits cfg w (P : unit -> list event -> Prop) : 2 <= hw_uart_no cfg <= 7 ->
  (forall t, writes t = mux_writes (hw_uart_no cfg) -> P tt t) -> emits (bm_uart_io_mux_cfg cfg) w P.
Proof.
  intros Hn HP. unfold bm_uart_io_mux_cfg, mux_writes, UART_NUM4, UART_NUM6 in *. cbv zeta.
  destruct (lookup_lt_is_Some_2 uart_txiomux_bases (Z.to_nat (hw_uart_no cfg))) as [tx Etx];
    [simpl; lia |].
  destruct (lookup_lt_is_Some_2 uart_rxiomux_bases (Z.to_nat (hw_uart_no cfg))) as [rx Erx];
    [simpl; lia |].
  rewrite Etx, Erx in *. cbn [some_or default]. rewrite bind_ret, bind_ret. simpl in HP.
  destruct (hw_uart_no cfg <=? 4); [| destruct (hw_uart_no cfg <=? 6)]; emits_steps; by apply HP.
Qed.

(** [bm_uart_init] refuses every invalid configuration without an access
    to the hardware; for a valid one it routes the port's pins, opens the
    divisor latch, writes the divisor nearest to the clock over sixteen times
    the baud rate (its low 16 bits), closes the latch, resets the FIFOs and
    writes the line control that says what the configuration says. *)
Theorem uart_init_programs cfg w : 0 < baud_rate cfg < 2 ^ 28 ->
  emits (bm_uart_init (Some cfg)) w (fun r t =>
    if decide (cfg_ok cfg) then r = BM_OK /\ exists l1 l2 l3 l4 div lcr,
      let at_ off v := (uart_base (hw_uart_no cfg) + off, v) in
      writes t = mux_writes (hw_uart_no cfg) ++
        [at_ DW_UART_LCR l1; at_ DW_UART_DLL (div mod 256); at_ DW_UART_DLH (div / 256 mod 256);
         at_ DW_UART_LCR l2; at_ DW_UART_LCR l3; at_ DW_UART_FCR 7; at_ DW_UART_LCR l4;
         at_ DW_UART_LCR lcr] /\
      (Z.testbit l1 7 = true /\ Z.testbit l2 7 = false /\ Z.testbit l3 7 = true /\ Z.testbit l4 7 = false) /\
      (0 <= div /\ 2 * Z.abs (16 * baud_rate cfg * div - UART_CLK) <= 16 * baud_rate cfg) /\
      lcr_says cfg lcr
    else r = BM_FAIL /\ t = []).
Proof.
  intros Hb. cbn [bm_uart_init]. destruct (decide (cfg_ok cfg)) as [Hok | Hbad].
  2: { unfold serial_cfg_bad, UART_MAX_NUM, UART_MIN_NUM, UART_DATA_8BIT, UART_DATA_5BIT,
         UART_STOP_2BIT, UART_STOP_1BIT, UART_VERIFY_ENABLE, UART_VERIFY_DISABLE, UART_VERIFY_EVEN,
         UART_VERIFY_ODD, UART_STOP_1P5BIT.
       destruct (_ || _) eqn:E1; [by apply emits_ret |].
       destruct (_ && _) eqn:E2; [by apply emits_ret |].
       destruct (negb (uart_src_clk cfg =? UART_CLK)) eqn:E3; [by apply emits_ret |].
       unfold uart_exists. destruct (uart_exist_array !! Z.to_nat (hw_uart_no cfg)) as [e |] eqn:Ee.
       2: { apply lookup_ge_None in Ee. rewrite uart_exist_length in Ee. lia. }
       cbn [some_or]. rewrite bind_ret. destruct e; cbn [negb]; [| by apply emits_ret].
       exfalso. apply Hbad. unfold cfg_ok, port_ok. rewrite Ee. split_and!; done || lia. }
  destruct (lcr_value_says _ Hok) as [Hl Hlf]. pose proof (divisor_nearest _ Hb) as Hdiv.
  destruct Hok as ((Hn & Hex) & H1 & H2 & H3 & H4 & H5 & H6).
  unfold serial_cfg_bad, UART_MAX_NUM, UART_MIN_NUM, UART_DATA_8BIT, UART_DATA_5BIT, UART_STOP_2BIT,
    UART_STOP_1BIT, UART_VERIFY_ENABLE, UART_VERIFY_DISABLE, UART_VERIFY_EVEN, UART_VERIFY_ODD,
    UART_STOP_1P5BIT.
  replace (_ || _) with false by lia. replace (_ && _) with false by lia.
  rewrite H6, Z.eqb_refl. unfold uart_exists. rewrite Hex. cbn [negb some_or]. rewrite bind_ret. cbn [negb].
  set (n := hw_uart_no cfg) in *. set (div := DIV_ROUND_CLOSEST UART_CLK (16 * baud_rate cfg)) in *.
  apply emits_bind, mux_emits; [done |]. intros t0 E0 w1 _.
  unfold bm_uart_set_baud_rate. do 2 apply emits_bind. apply wait_idle_emits; [done |].
  intros r0 tw Ew w2 _. apply emits_bind. unfold bm_calc_uart_dll_dlh.
  rewrite (wrap_id 32) by (unfold fits; lia).
  replace (16 * baud_rate cfg =? 0) with false by lia. apply emits_ret. intros w3 _.
  rewrite H6. fold div. cbn [fst snd]. unfold bm_uart_set_dll_dlh. fold n.
  change 0xFF with (Z.ones 8). rewrite !Z.land_ones, Z.shiftr_div_pow2 by lia.
  change (2 ^ 8) with 256.
  apply emits_bind, set_dlab_emits; [done |]. intros l1 t1 E1 B1 w4 _.
  apply emits_bind, emits_reg_write; [done | done |]. intros w5 _.
  apply emits_bind, emits_reg_write; [done | done |]. intros w6 _.
  apply set_dlab_emits; [done |]. intros l2 t2 E2 B2 w7 _.
  unfold bm_uart_set_fifo_ctrl. cbv zeta.
  do 2 apply emits_bind. apply set_dlab_emits; [done |]. intros l3 t3 E3 B3 w8 _.
  apply emits_bind, emits_reg_write; [done | done |]. intros w9 _.
  apply set_dlab_emits; [done |]. intros l4 t4 E4 B4 w10 _.
  unfold bm_uart_set_lcr. apply emits_bind, emits_reg_write; [done | done |]. intros w11 _.
  apply emits_ret. split; [done |]. exists l1, l2, l3, l4, div. eexists. cbv zeta.
  split; [| split; [done |]; split; [done | exact Hl]].
  rewrite !writes_app, E0, Ew, E1, E2, E3, E4. cbn [writes omap list_omap ev_write app].
  assert (forall x, 0 <= x mod 256 < 256) as Hm by (intros x; apply Z.mod_pos_bound; lia).
  pose proof (Hm div). pose proof (Hm (div / 256)).
  rewrite !(wrap_id 32) by (done || (unfold fits; lia)).
  reflexivity.
Qed.

(** ** DMA *)
Section Dma.
Context `{IN : !Indep G uart mem} (call_user : Z -> Z -> Z -> M G D unit).

Definition uart_req (n is_read : Z) : Z := uart_dma_get_dmac_req n is_read.

(** The request line of a port and direction. *)
Lemma uart_req_spec n is_read : 2 <= n <= 7 -> is_read = 0 \/ is_read = 1 ->
  (exists q, g_dma_req_addr_list !! Z.to_nat (uart_req n is_read) = Some (q, uart_base n + DW_UART_THR)) /\
  uart_dma_get_id_from_req (uart_req n is_read) = n /\ uart_req n is_read mod UART_IS_ODD = is_read.
Proof.
  intros Hn Hr. assert (n = 2 \/ n = 3 \/ n = 4 \/ n = 5 \/ n = 6 \/ n = 7) as H by lia.
  destruct H as [-> | [-> | [-> | [-> | [-> | ->]]]]]; destruct Hr as [-> | ->];
    (split; [eexists; reflexivity | split; reflexivity]).
Qed.

(** transfers by DMA.  An accepted request registers the client's
    function for the port and direction and asks the DMA controller for the
    port's own request line, whose data register is the port's; and whenever
    that line completes while the function is registered, that function is
    called, once, for that port, with the outcome in its direction. *)
Theorem uart_dma_completes n addr len cb type (rx : bool) w :
  port_ok n -> addr <> NULL -> is_invalid_addr_len (u32 addr) len = 0 -> cb <> NULL ->
  length (if rx then g_uart_dma_rx_callback_array (uartof w) else g_uart_dma_tx_callback_array (uartof w)) = 8%nat ->
  let set := if rx then set_uart_rx_cb else set_uart_tx_cb in
  let s1 := set n (Some cb) (uartof w) in
  let cfg := uart_dma_cfg n (uart_base n) addr len (cbool rx) in
  (if rx then bm_uart_rx_dma else bm_uart_tx_dma) n addr len cb w =
    dma_transmit_async (Some cfg) uart_dma_finish (World (hput s1 (glob w)) (dev w) (tr w)) /\
  (exists q, g_dma_req_addr_list !! Z.to_nat (req cfg) = Some (q, if rx then src_addr cfg else dest_addr cfg)) /\
  forall w2, uartof w2 = s1 ->
    uart_dma_finish_func call_user (req cfg) type w2 =
    call_user cb n (if type =? DMAC_TRANSMIT_OK then (if rx then UART_READ_OK else UART_WRITE_OK)
                    else (if rx then UART_READ_FAIL else UART_WRITE_FAIL)) w2.
Proof.
  intros Hok Ha Hv Hcb Hlen set s1 cfg. pose proof (proj1 Hok) as Hn.
  destruct (uart_bases n Hn) as (_ & Hbase & _).
  assert (u32 (uart_base n + DW_UART_THR) = uart_base n + DW_UART_THR) as Eaddr
    by (apply wrap_id; unfold fits, DW_UART_THR; lia).
  assert (callback_of cb = Some cb) as Ecb by (unfold callback_of; by rewrite (proj2 (Z.eqb_neq _ _) Hcb)).
  destruct (uart_req_spec n (cbool rx) Hn) as (Hq & Hid & Hodd); [destruct rx; by auto |].
  assert (req cfg = uart_req n (cbool rx)) as Hreq by (by destruct rx).
  split; [| split].
  - destruct rx; [unfold bm_uart_rx_dma | unfold bm_uart_tx_dma];
      rewrite uart_check_valid_eq, bind_ret, (decide_True _ _ Hok), core_base_eq, bind_ret, Hv, Ecb,
        (proj2 (Z.eqb_neq _ _) Ha) by done; reflexivity.
  - rewrite Hreq. destruct Hq as [q ->]. exists q. unfold cfg, uart_dma_cfg.
    destruct rx; cbn [cbool Z.eqb Pos.eqb src_addr dest_addr]; by rewrite Eaddr.
  - intros w2 Hw2. rewrite Hreq. unfold uart_dma_finish_func. rewrite Hid, Hodd.
    unfold mbind at 1, M_bind at 1, gets at 1. rewrite Hw2.
    assert (Z.to_nat n < 8)%nat by lia.
    destruct rx; subst s1 set; cbn [cbool Z.eqb Pos.eqb g_uart_dma_rx_callback_array
      g_uart_dma_tx_callback_array set_uart_rx_cb set_uart_tx_cb];
      rewrite list_lookup_insert_eq by lia; cbn [some_or];
      destruct (type =? DMAC_TRANSMIT_OK); reflexivity.
Qed.
End Dma.
End Ports.

(** ** Witnesses

    All ports present; a port whose transmit FIFO always has room and which is
    never busy; a DMA controller that accepts everything. *)
#[local] Instance uart_segment : Xfer :=
  {| xfer_segment_start := 0x90000000; xfer_segment_end := 0x91000000 |}.
#[local, refine] Instance uart_all : UartConfig :=
  {| uart_exist_array := replicate 8 true; uart_dma_finish := 0x4000 |}.
Proof. reflexivity. Defined.
#[local] Instance uart_dma {G D} : Dma G D := {| dma_transmit_async _ _ := mret 0 |}.

Definition uart_answers (a : Z) : Z := DW_XFIFO_NOT_FULL.
Abbreviation uart_dev := (fixed uart_answers (fun _ => 0)).
(** "ab", a terminator, "c". *)
Definition uart_world : world (mem * uart) uart_dev :=
  World (wr ∅ 0x90000000 [97; 98; 0; 99], uart_init_state) Fixed [].


(** The text is sent; a buffer of one character with nothing behind it is read
    past its end. *)
Example uart_puts_runs :
  result (bm_uart_raw_puts 3 0x90000000 4 uart_world) = Some BM_OK /\
  bm_uart_raw_puts 3 0x90000003 1 uart_world = Fault Unmapped.
Proof. split; vm_compute; reflexivity. Qed.

Lemma uart_init_programs_witness :
  emits (bm_uart_init (Some (SerialCfg 3 3 0 0 0 UART_CLK 115200))) uart_world (fun r t =>
    r = BM_OK /\ exists l, writes t !! 3%nat = Some (0x08711000, 54) /\ last (writes t) = Some (0x0871100c, l) /\
      bf_get 0 2 l = 3).
Proof.
  eapply emits_mono.
  - apply (uart_init_programs (SerialCfg 3 3 0 0 0 UART_CLK 115200) uart_world). split; reflexivity.
  - cbv beta. intros r t H. rewrite decide_True in H by (unfold cfg_ok, port_ok; simpl; split_and!; (reflexivity || lia)).
    destruct H as (Hr & l1 & l2 & l3 & l4 & div & lcr & Hw & _ & Hd & Hl & _). cbv zeta in Hw.
    split; [exact Hr |]. exists lcr. rewrite Hw.
    assert (div = 54) as -> by (unfold UART_CLK in Hd; simpl in Hd; lia).
    split_and!; [reflexivity | reflexivity | exact Hl].
Defined.

(** The client's function writes the outcome at its own address. *)
Definition uart_client (f n status : Z) : M (mem * uart) uart_dev unit := writel status (f + n).

Lemma uart_dma_completes_witness :
  uart_dma_finish_func uart_client (uart_req 5 1) DMAC_TRANSMIT_OK
    (World (∅, set_uart_rx_cb 5 (Some 0x5000) uart_init_state) (Fixed : uart_dev) []) =
  uart_client 0x5000 5 UART_READ_OK
    (World (∅, set_uart_rx_cb 5 (Some 0x5000) uart_init_state) (Fixed : uart_dev) []).
Proof.
  destruct (uart_dma_completes uart_client 5 0x90000000 4 0x5000 DMAC_TRANSMIT_OK true uart_world)
    as (_ & _ & H); [split; [lia | reflexivity] | discriminate | reflexivity | discriminate | reflexivity |].
  apply H. reflexivity.
Defined.
