(* ===== verification/Spi.v ===== *)
(** * Spi: the two SPI masters (drivers/spi/spi.c)

    Configuration, blocking transfers (polled, with chip select around them),
    transfers by interrupt and by DMA.  The pins of controller 1 are those of
    USE_SPI1_SFC_PIN.  The structures are records without the fields no code
    uses, so the [memset_s] of a whole [spi_device] is the record of zeros.  A
    status register looked at through a bit-field structure is read anew each
    time.  The loops that wait for the FIFO have no bound in the code: they
    take fuel ([xfuel]), as does the busy wait ([fuel]).  Theorems: SpiProps. *)
From stdpp Require Import prelude gmap list strings.
From Stdlib Require Import ZArith Lia.
From S2P Require Import Prelude Hw Common Mem Osal Os Dmac.
Local Open Scope Z_scope.

(** ** spi_regs.h, spi.h, bm_spi.h *)
Definition SPI_CTRLR0_OFFSET_ADDR : Z := 0x0.
Definition SPI_CTRLR1_OFFSET_ADDR : Z := 0x4.
Definition SPI_SSIENR_OFFSET_ADDR : Z := 0x8.
Definition SPI_SER_OFFSET_ADDR : Z := 0x10.
Definition SPI_BAUDR_OFFSET_ADDR : Z := 0x14.
Definition SPI_TXFTLR_OFFSET_ADDR : Z := 0x18.
Definition SPI_RXFTLR_OFFSET_ADDR : Z := 0x1C.
Definition SPI_TXFLR_OFFSET_ADDR : Z := 0x20.
Definition SPI_RXFLR_OFFSET_ADDR : Z := 0x24.
Definition SPI_SR_OFFSET_ADDR : Z := 0x28.
Definition SPI_IMR_OFFSET_ADDR : Z := 0x2C.
Definition SPI_ISR_OFFSET_ADDR : Z := 0x30.
Definition SPI_TXOICR_OFFSET_ADDR : Z := 0x38.
Definition SPI_DMACR_OFFSET_ADDR : Z := 0x4C.
Definition SPI_DMATDLR_OFFSET_ADDR : Z := 0x50.
Definition SPI_DR0_OFFSET_ADDR : Z := 0x60.

Definition SPI_SEM_TIMEOUT_MS : Z := 50.
Definition SPI_IO_MUX_MASK : Z := 0x7.
Definition SPI_MAX_CTL : Z := 2.
Definition SPI_MAX_CS : Z := 2.
Definition SPI_CTL_PIN_NUM : Z := 3.
Definition SPI_CS_PIN_NUM : Z := 2.
Definition SPI_ID0 : Z := 0.
Definition SPI_ID1 : Z := 1.
Definition SPI_NOT_LOOP_BACK : Z := 0.
Definition SPI_DEFAULT_FRAME_FORMAT : Z := 0.
Definition SYS_AHB_CLOCK_FREQ : Z := 200000000.
Definition SPI_MIN_DIV : Z := 6.
Definition SPI_MAX_DIV : Z := 65534.
Definition SEND_LINE_VAL : Z := 0.
Definition SPI_EN : Z := 0x1.
Definition SPI_DISEN : Z := 0x0.
Definition INT_MASK_TX_EMPTY : Z := 0x01.
Definition INT_MASK_RX_FULL : Z := 0x10.
Definition INT_MASK_RX_OVER : Z := 0x08.
Definition ISR_TX_EMPTY : Z := 0x01.
Definition ISR_RX_OVERFLOW : Z := 0x08.
Definition ISR_RX_FULL : Z := 0x10.
Definition SER_REG_VALUE_NON_SLAVE : Z := 0.
Definition CTRLR0_SRL_FIELD_BIT : Z := 11.
Definition CTRLR0_FRF_FIELD_START_BIT : Z := 4.
Definition CTRLR0_FRF_FIELD_END_BIT : Z := 5.
Definition CTRLR0_DFS_FIELD_START_BIT : Z := 0.
Definition CTRLR0_DFS_FIELD_END_BIT : Z := 3.
Definition CTRLR0_SCPOL_FIELD_BIT : Z := 7.
Definition CTRLR0_SCPH_FIELD_BIT : Z := 6.
Definition WRITE_DELAY_TIME : Z := 160.
Definition SPI_TX_FIFO_SIZE : Z := 32.
Definition SPI_RX_FIFO_SIZE : Z := 32.
Definition HISPI_CS0_SELECT : Z := 1.
Definition HISPI_CS_ALL_SELECT : Z := 3.
Definition HISPI_FRAME_LENGTH_4_BIT : Z := 0.
Definition HISPI_FRAME_LENGTH_8_BIT : Z := 1.
Definition HISPI_FRAME_LENGTH_16_BIT : Z := 2.
Definition HISPI_CLOCK_EDGEERR : Z := 2.
Definition HISPI_IDLE_CLOCK_POLARITYERR : Z := 2.
Definition SPI_CS_SELECT : Z := 1.
Definition SPI_CS_DESELECT : Z := 0.
Definition SPI_TX_MODE : Z := 0.
Definition SPI_RX_MODE : Z := 1.
Definition SPI_TX_RX_MODE : Z := 2.
Definition SPI_WRITE_OK : Z := 0.
Definition SPI_WRITE_FAIL : Z := 1.
Definition SPI_READ_OK : Z := 2.
Definition SPI_READ_FAIL : Z := 3.
Definition LPSC_SPI_CTRL : Z := 0x1C.
Definition LPSC_IOMUX_CTRL : Z := 0x334.

(** [drv_32bit_mask] and [drv_32bit_set_field]: bits [n1..n2]. *)
Definition drv_32bit_mask (n1 n2 : Z) : Z := Z.shiftl 1 (n2 + 1) - Z.shiftl 1 n1.
Definition drv_32bit_set_field (v1 n1 n2 v2 : Z) : Z :=
  Z.lor (Z.land v1 (bnot 32 (drv_32bit_mask n1 n2)))
        (Z.land (u32 (Z.shiftl v2 n1)) (drv_32bit_mask n1 n2)).

Record spi_iomux_info := SpiIomux { sm_offset : Z; sm_mask : Z; sm_val : Z }.
Definition g_spi_iomux_tbl : list spi_iomux_info :=
  [SpiIomux 0x1c SPI_IO_MUX_MASK 1; SpiIomux 0x28 SPI_IO_MUX_MASK 1; SpiIomux 0x2C SPI_IO_MUX_MASK 1;
   SpiIomux 0x18 SPI_IO_MUX_MASK 1; SpiIomux 0x24 SPI_IO_MUX_MASK 1; SpiIomux 0x24 SPI_IO_MUX_MASK 1].
Definition g_spi_cs_iomux_tbl : list spi_iomux_info :=
  [SpiIomux 0x20 SPI_IO_MUX_MASK 1; SpiIomux 0x24 SPI_IO_MUX_MASK 1;
   SpiIomux 0x1c SPI_IO_MUX_MASK 1; SpiIomux 0x20 SPI_IO_MUX_MASK 1].
Definition spi_frame_len_tbl : list Z := [0x3; 0x7; 0xf].
Definition g_irq_num_array : list Z := [146; 171].

Record spi_peripheral := SpiPeripheral { per_id : Z; per_base : Z; per_irq : Z }.
Definition g_spi_peripheral_info : list spi_peripheral :=
  [SpiPeripheral 0 0x8713000 146; SpiPeripheral 1 0x8715000 171].

Record bm_spi_cfg := SpiCfg {
  sc_id : Z; sc_baud : Z; sc_cs_map : Z; sc_frame_len : Z; sc_clk_edge : Z; sc_clk_pol : Z;
  sc_rx_threshold : Z;
}.
Record bm_spi_handle := SpiHandle { sh_id : Z; sh_cs : Z }.
Record bm_spi_data := SpiData { r_buf : Z; r_len : Z; w_buf : Z; w_len : Z; sd_time_out : Z }.

(** ** State *)
Record spi_device := SpiDevice {
  sd_base : Z; sd_irq : Z; sd_id : Z; sd_cs_id : list Z; sd_init_flag : list Z;
}.
Record bm_spi_ops := SpiOps {
  tx_text_pos : Z; rx_text_pos : Z; tx_text_len : Z; rx_text_len : Z; tx_count : Z; rx_count : Z;
  int_tx_callback : option Z; int_rx_callback : option Z;
  dma_tx_callback : option Z; dma_rx_callback : option Z;
}.
Record spi := Spi {
  g_spi_devices_info : list spi_device;
  g_spi_ops_array : list bm_spi_ops;
  g_spi_lock_init : list Z;              (* g_spi_lock_array[].init_flag *)
}.

Definition zero_device : spi_device := SpiDevice 0 0 0 [0; 0] [0; 0].
Definition zero_ops : bm_spi_ops := SpiOps 0 0 0 0 0 0 None None None None.
Definition spi_init_state : spi := Spi (replicate 2 zero_device) (replicate 2 zero_ops) [0; 0].

Definition set_dev (id : Z) (d : spi_device) (s : spi) : spi :=
  Spi (<[Z.to_nat id := d]> (g_spi_devices_info s)) (g_spi_ops_array s) (g_spi_lock_init s).
Definition set_ops (id : Z) (o : bm_spi_ops) (s : spi) : spi :=
  Spi (g_spi_devices_info s) (<[Z.to_nat id := o]> (g_spi_ops_array s)) (g_spi_lock_init s).
Definition set_lock_init (id v : Z) (s : spi) : spi :=
  Spi (g_spi_devices_info s) (g_spi_ops_array s) (<[Z.to_nat id := v]> (g_spi_lock_init s)).
Definition with_init_flag (id v : Z) (d : spi_device) : spi_device :=
  SpiDevice (sd_base d) (sd_irq d) (sd_id d) (sd_cs_id d) (<[Z.to_nat id := v]> (sd_init_flag d)).
Definition with_tx (pos len count : Z) (o : bm_spi_ops) : bm_spi_ops :=
  SpiOps pos (rx_text_pos o) len (rx_text_len o) count (rx_count o)
    (int_tx_callback o) (int_rx_callback o) (dma_tx_callback o) (dma_rx_callback o).
Definition with_rx (pos len count : Z) (o : bm_spi_ops) : bm_spi_ops :=
  SpiOps (tx_text_pos o) pos (tx_text_len o) len (tx_count o) count
    (int_tx_callback o) (int_rx_callback o) (dma_tx_callback o) (dma_rx_callback o).
Definition with_int_cbs (tx rx : option Z) (o : bm_spi_ops) : bm_spi_ops :=
  SpiOps (tx_text_pos o) (rx_text_pos o) (tx_text_len o) (rx_text_len o) (tx_count o) (rx_count o)
    tx rx (dma_tx_callback o) (dma_rx_callback o).
Definition with_dma_cbs (tx rx : option Z) (o : bm_spi_ops) : bm_spi_ops :=
  SpiOps (tx_text_pos o) (rx_text_pos o) (tx_text_len o) (rx_text_len o) (tx_count o) (rx_count o)
    (int_tx_callback o) (int_rx_callback o) tx rx.

(** The controllers present in the build; the addresses of the semaphores,
    the interrupt handler, its arguments and the DMA callback. *)
Class SpiConfig := {
  spi_exist_array : list bool;
  spi_exist_length : length spi_exist_array = 2%nat;
  spi_sem : Z -> Z;
  spi_isr : Z;
  spi_id_addr : Z -> Z;
  spi_dma_finish : Z;
}.

(** [g_spi_peripheral_info], as the initial device of each controller. *)
Definition spi_fresh (p : spi_peripheral) (cs_map : Z) : spi_device :=
  SpiDevice (per_base p) (per_irq p) (per_id p)
    [Z.land (Z.shiftr cs_map 0) 1; Z.land (Z.shiftr cs_map 1) 1] [0; 0].

Section Spi.
Context {G D : Type} `{MD : Machine D} `{HM : !Has G mem} `{HS : !Has G spi}.
Context `{OS : !Os G D} `{DMA : !Dma G D} `{XF : Xfer} `{SC : SpiConfig}.
Context (fuel xfuel : nat) (call_user : Z -> Z -> Z -> M G D unit).
Abbreviation M := (M G D).

(** ** Access to the state and the registers *)
Definition get_dev (id : Z) : M spi_device :=
  s ← gets; some_or OutOfBounds (g_spi_devices_info s !! Z.to_nat id).
Definition get_ops (id : Z) : M bm_spi_ops :=
  s ← gets; some_or OutOfBounds (g_spi_ops_array s !! Z.to_nat id).
Definition mod_ops (id : Z) (f : bm_spi_ops -> bm_spi_ops) : M unit :=
  o ← get_ops id; modg (set_ops id (f o)).
Definition get_irq_num (id : Z) : M Z := some_or OutOfBounds (g_irq_num_array !! Z.to_nat id).
Definition get_lock_init (id : Z) : M Z :=
  s ← gets; some_or OutOfBounds (g_spi_lock_init s !! Z.to_nat id).
Definition spi_exists (id : Z) : M bool := some_or OutOfBounds (spi_exist_array !! Z.to_nat id).

Definition spi_readl (id off : Z) : M Z := d ← get_dev id; readl (sd_base d + off).
Definition spi_writel (id val off : Z) : M unit := d ← get_dev id; writel val (sd_base d + off).

Definition bm_spi_disable (spi_id : Z) : M unit := spi_writel spi_id SPI_DISEN SPI_SSIENR_OFFSET_ADDR.
Definition bm_spi_enable (spi_id : Z) : M unit := spi_writel spi_id SPI_EN SPI_SSIENR_OFFSET_ADDR.

Definition bm_spi_disable_intr (spi_id mask : Z) : M unit :=
  temp ← spi_readl spi_id SPI_IMR_OFFSET_ADDR;
  spi_writel spi_id (Z.land temp (bnot 32 mask)) SPI_IMR_OFFSET_ADDR.
Definition bm_spi_enable_intr (spi_id mask : Z) : M unit :=
  temp ← spi_readl spi_id SPI_IMR_OFFSET_ADDR;
  spi_writel spi_id (Z.lor temp mask) SPI_IMR_OFFSET_ADDR.

(** ** Configuration *)
(** The divisor written for a baud rate, if there is one. *)
Definition spi_divisor (baud_rate : Z) : option Z :=
  if baud_rate =? 0 then None
  else
    let freq_div := SYS_AHB_CLOCK_FREQ / baud_rate in
    if (freq_div <? SPI_MIN_DIV) || (SPI_MAX_DIV <? freq_div) then None
    else Some (if negb (Z.land freq_div 1 =? 0) then freq_div + 1 else freq_div).

Definition bm_spi_baudrate_cfg (spi_id baud_rate : Z) : M Z :=
  match spi_divisor baud_rate with
  | None => mret BM_FAIL
  | Some freq_div => spi_writel spi_id freq_div SPI_BAUDR_OFFSET_ADDR ;; mret BM_OK
  end.

(** The control word of a configuration over the old one. *)
Definition spi_ctrlr0 (old dfs clk_pol clk_edge : Z) : Z :=
  let tmp := drv_32bit_set_field old CTRLR0_SRL_FIELD_BIT CTRLR0_SRL_FIELD_BIT SPI_NOT_LOOP_BACK in
  let tmp := drv_32bit_set_field tmp CTRLR0_FRF_FIELD_START_BIT CTRLR0_FRF_FIELD_END_BIT
    SPI_DEFAULT_FRAME_FORMAT in
  let tmp := drv_32bit_set_field tmp CTRLR0_DFS_FIELD_START_BIT CTRLR0_DFS_FIELD_END_BIT dfs in
  let tmp := drv_32bit_set_field tmp CTRLR0_SCPOL_FIELD_BIT CTRLR0_SCPOL_FIELD_BIT clk_pol in
  drv_32bit_set_field tmp CTRLR0_SCPH_FIELD_BIT CTRLR0_SCPH_FIELD_BIT clk_edge.

Definition bm_spi_ctrl_reg_config (cfg : bm_spi_cfg) : M Z :=
  d ← get_dev (sc_id cfg);
  let spi_id := sd_id d in
  bm_spi_disable spi_id ;;
  tmp_value ← spi_readl (sc_id cfg) SPI_CTRLR0_OFFSET_ADDR;
  dfs ← some_or OutOfBounds (spi_frame_len_tbl !! Z.to_nat (sc_frame_len cfg));
  spi_writel (sc_id cfg) (spi_ctrlr0 tmp_value dfs (sc_clk_pol cfg) (sc_clk_edge cfg))
    SPI_CTRLR0_OFFSET_ADDR ;;
  spi_writel (sc_id cfg) 0 SPI_CTRLR1_OFFSET_ADDR ;;
  spi_writel (sc_id cfg) 0 SPI_RXFTLR_OFFSET_ADDR ;;
  spi_writel (sc_id cfg) 0 SPI_TXFTLR_OFFSET_ADDR ;;
  ret ← bm_spi_baudrate_cfg (sc_id cfg) (sc_baud cfg);
  if ctrue ret then mret ret
  else
    spi_writel (sc_id cfg) SER_REG_VALUE_NON_SLAVE SPI_SER_OFFSET_ADDR ;;
    bm_spi_disable_intr spi_id 0xffffffff ;;
    spi_writel (sc_id cfg) (sc_rx_threshold cfg) SPI_RXFTLR_OFFSET_ADDR ;;
    spi_writel (sc_id cfg) SEND_LINE_VAL SPI_TXFTLR_OFFSET_ADDR ;;
    irq ← get_irq_num spi_id;
    _ ← os_irq_set_priority irq 6;
    os_irq_free irq ;;
    ret ← os_irq_request irq spi_isr (spi_id_addr (sc_id cfg));
    if ctrue ret then mret BM_FAIL
    else
      core ← bm_get_coreid;
      ret ← os_irq_set_affinity irq (Z.shiftl 1 core);
      if ctrue ret then mret BM_FAIL
      else
        os_irq_enable irq ;;
        bm_spi_enable spi_id ;;
        mret ret.

(** One entry of a pin table, on the block of the controller's pins. *)
Definition spi_pin (spi_id : Z) (tbl : list spi_iomux_info) (i : Z) : M unit :=
  p ← some_or OutOfBounds (tbl !! Z.to_nat i);
  _ ← (if spi_id =? SPI_ID0 then bm_io_config_r_read_write (sm_offset p) (sm_mask p) (sm_val p)
       else bm_io_config_t_read_write (sm_offset p) (sm_mask p) (sm_val p));
  mret tt.

Definition spi_ctl_pins (spi_id : Z) : M unit :=
  for_up (Z.to_nat SPI_CTL_PIN_NUM) 0 (fun i =>
    spi_pin spi_id g_spi_iomux_tbl (spi_id * SPI_CTL_PIN_NUM + i)).

Definition spi_io_config (dev : spi_device) : M unit :=
  let spi_id := sd_id dev in
  spi_ctl_pins spi_id ;;
  for_up (Z.to_nat SPI_CS_PIN_NUM) 0 (fun i =>
    cs ← some_or OutOfBounds (sd_cs_id dev !! Z.to_nat i);
    when (ctrue cs) (spi_pin spi_id g_spi_cs_iomux_tbl (spi_id * SPI_CS_PIN_NUM + i))).

(** The union [lp_subsys_spi_reg] with [in_n] and [rx_only] of one controller
    set, and the value written under it. *)
Definition lp_spi_mask (spi_id : Z) : Z :=
  if spi_id =? 0 then bf_set 4 1 1 (bf_set 0 1 1 0) else bf_set 9 1 1 (bf_set 5 1 1 0).
Definition lp_spi_val (spi_id : Z) : Z := if spi_id =? 0 then 2 ^ 0 else 2 ^ 5.

Definition bm_spi_iomux_lp_config (dev : spi_device) : M Z :=
  let spi_id := sd_id dev in
  spi_io_config dev ;;
  _ ← bm_lp_subsys_reg_read_write LPSC_SPI_CTRL (lp_spi_mask spi_id) (lp_spi_val spi_id);
  _ ← bm_lp_subsys_reg_set_bits LPSC_IOMUX_CTRL 1 1;
  mret 0.

Definition bm_spi_init_param_check (cfg : option bm_spi_cfg) : M Z :=
  match cfg with
  | None => mret BM_FAIL
  | Some cfg =>
      if (HISPI_CS_ALL_SELECT <? sc_cs_map cfg) || (sc_cs_map cfg <? HISPI_CS0_SELECT) then mret BM_FAIL
      else if SPI_MAX_CTL <=? sc_id cfg then mret BM_FAIL
      else
        e ← spi_exists (sc_id cfg);
        if negb e then mret BM_FAIL
        else if (sc_frame_len cfg <? HISPI_FRAME_LENGTH_4_BIT)
             || (HISPI_FRAME_LENGTH_16_BIT <? sc_frame_len cfg) then mret BM_FAIL
        else if HISPI_CLOCK_EDGEERR <=? sc_clk_edge cfg then mret BM_FAIL
        else if HISPI_IDLE_CLOCK_POLARITYERR <=? sc_clk_pol cfg then mret BM_FAIL
        else if SPI_RX_FIFO_SIZE - 1 <? sc_rx_threshold cfg then mret BM_FAIL
        else mret BM_OK
  end.

Definition spi_init_flag (dev : spi_device) (id : Z) : M Z :=
  some_or OutOfBounds (sd_init_flag dev !! Z.to_nat id).

(** The lock of a controller is made once. *)
Definition spi_lock_make (id : Z) : M bool :=
  li ← get_lock_init id;
  if negb (ctrue li) then
    ret ← os_sem_init (spi_sem id) 1;
    if ret =? OSAL_SUCCESS then modg (set_lock_init id 1) ;; mret true else mret false
  else mret true.

Definition bm_spi_init (cfg : option bm_spi_cfg) : M Z :=
  bad ← bm_spi_init_param_check cfg;
  if negb (bad =? BM_OK) then mret BM_FAIL
  else
    cfg ← some_or NullDeref cfg;
    let id := sc_id cfg in
    dev ← get_dev id;
    flag ← spi_init_flag dev id;
    if ctrue flag then mret BM_FAIL
    else
      modg (set_dev id zero_device) ;;
      locked ← spi_lock_make id;
      if negb locked then mret BM_FAIL
      else
        p ← some_or OutOfBounds (g_spi_peripheral_info !! Z.to_nat id);
        let dev := with_init_flag id 1 (spi_fresh p (sc_cs_map cfg)) in
        modg (set_dev id dev) ;;
        _ ← bm_spi_iomux_lp_config dev;
        bm_spi_ctrl_reg_config cfg.

Definition bm_spi_deinit (spi_id : Z) : M Z :=
  if SPI_MAX_CTL <=? spi_id then mret BM_FAIL
  else
    e ← spi_exists spi_id;
    if negb e then mret BM_FAIL
    else
      dev ← get_dev spi_id;
      modg (set_dev spi_id (with_init_flag spi_id 0 dev)) ;;
      (* bm_cmp_xchg32bits(&init_flag, 0, 1) *)
      li ← get_lock_init spi_id;
      if negb (li =? 1) then mret BM_FAIL
      else
        modg (set_lock_init spi_id 0) ;;
        os_sem_destroy (spi_sem spi_id) ;;
        os_irq_free (sd_irq dev) ;;
        modg (set_dev spi_id zero_device) ;;
        mret BM_OK.

(** Take the controller's semaphore, run [body], give it back. *)
Definition spi_locked (id : Z) (body : M Z) : M Z :=
  down ← os_sem_down_timeout (spi_sem id) SPI_SEM_TIMEOUT_MS;
  if negb (down =? OSAL_SUCCESS) then mret BM_FAIL
  else ret ← body; os_sem_up (spi_sem id) ;; mret ret.

Definition bm_spi_config (cfg : option bm_spi_cfg) : M Z :=
  bad ← bm_spi_init_param_check cfg;
  if negb (bad =? BM_OK) then mret BM_FAIL
  else
    cfg ← some_or NullDeref cfg;
    dev ← get_dev (sc_id cfg);
    flag ← spi_init_flag dev (sc_id cfg);
    if flag =? 0 then mret BM_FAIL
    else spi_locked (sc_id cfg) (bm_spi_ctrl_reg_config cfg).

Definition bm_spi_handle_para_check (handle : option bm_spi_handle) : M Z :=
  match handle with
  | None => mret BM_FAIL
  | Some h =>
      if (SPI_MAX_CTL <=? sh_id h) || (SPI_MAX_CS <=? sh_cs h) then mret BM_FAIL
      else
        dev ← get_dev (sh_id h);
        flag ← spi_init_flag dev (sh_id h);
        if flag =? 0 then mret BM_FAIL
        else
          e ← spi_exists (sh_id h);
          if negb e then mret BM_FAIL else mret BM_OK
  end.

Definition bm_spi_config_io_reuse (handle : option bm_spi_handle) : M Z :=
  bad ← bm_spi_handle_para_check handle;
  if bad =? BM_FAIL then mret BM_FAIL
  else
    h ← some_or NullDeref handle;
    spi_locked (sh_id h)
      (spi_ctl_pins (sh_id h) ;;
       spi_pin (sh_id h) g_spi_cs_iomux_tbl (sh_id h * SPI_CS_PIN_NUM + sh_cs h) ;;
       mret BM_OK).

Definition bm_spi_config_io_clock (handle : option bm_spi_handle) : M Z :=
  bad ← bm_spi_handle_para_check handle;
  if bad =? BM_FAIL then mret BM_FAIL
  else
    h ← some_or NullDeref handle;
    spi_locked (sh_id h)
      (_ ← bm_lp_subsys_reg_read_write LPSC_SPI_CTRL (lp_spi_mask (sh_id h)) (lp_spi_val (sh_id h));
       mret BM_OK).

(** ** Checks before a transfer *)
(** [a || b || ...], stopping at the first that holds. *)
Fixpoint any_of (l : list (M bool)) : M bool :=
  match l with
  | [] => mret false
  | m :: l' => b ← m; match b : bool with true => mret true | false => any_of l' end
  end.

Definition spi_frame_bits (id : Z) : M Z :=
  v ← spi_readl id SPI_CTRLR0_OFFSET_ADDR; mret (Z.land v 0xf).

Definition bm_spi_frame_len_check (id len : Z) : M Z :=
  frame_len ← spi_frame_bits id;
  if (frame_len =? 0xf) && negb (len mod 2 =? 0) then mret BM_FAIL else mret BM_OK.

Definition frame_bad (id len : Z) : M bool := r ← bm_spi_frame_len_check id len; mret (ctrue r).
Definition addr_bad (buf len : Z) : M bool := mret (ctrue (is_invalid_addr_len (u32 buf) len)).
Definition none_given (buf len : Z) : M bool := mret ((buf =? NULL) || (len =? 0)).

(** [if (ret) return BM_FAIL; return BM_OK;]. *)
Definition check_result (ret : bool) : Z := if ret then BM_FAIL else BM_OK.

Definition bm_spi_transfer_para_check (handle : option bm_spi_handle) (data : option bm_spi_data)
    (mod_ : Z) : M Z :=
  bad ← bm_spi_handle_para_check handle;
  if bad =? BM_FAIL then mret BM_FAIL
  else match data with
  | None => mret BM_FAIL
  | Some d =>
      h ← some_or NullDeref handle;
      let id := sh_id h in
      if mod_ =? SPI_TX_MODE then
        ret ← any_of [none_given (w_buf d) (w_len d); frame_bad id (w_len d);
                      addr_bad (w_buf d) (w_len d)];
        mret (check_result ret)
      else if mod_ =? SPI_RX_MODE then
        ret ← any_of [none_given (r_buf d) (r_len d); frame_bad id (r_len d);
                      addr_bad (r_buf d) (r_len d)];
        mret (check_result ret)
      else if mod_ =? SPI_TX_RX_MODE then
        ret ← any_of [none_given (w_buf d) (w_len d); none_given (r_buf d) (r_len d);
                      frame_bad id (w_len d); frame_bad id (r_len d);
                      addr_bad (w_buf d) (w_len d); addr_bad (r_buf d) (r_len d)];
        mret (check_result ret)
      else mret BM_FAIL
  end.

Definition bm_spi_cs_control (h : bm_spi_handle) (select_status : Z) : M unit :=
  bad ← bm_spi_handle_para_check (Some h);
  if bad =? BM_FAIL then mret tt
  else if select_status =? SPI_CS_SELECT
  then spi_writel (sh_id h) (Z.shiftl 1 (sh_cs h)) SPI_SER_OFFSET_ADDR
  else spi_writel (sh_id h) SER_REG_VALUE_NON_SLAVE SPI_SER_OFFSET_ADDR.

(** ** Blocking transfers *)
Definition bm_spi_write_once_by_frame_len (id frame_len w_buf : Z) : M unit :=
  tx ← (if frame_len =? 0xf then ld16 w_buf else ld8 w_buf);
  spi_writel id tx SPI_DR0_OFFSET_ADDR.

Definition bm_spi_read_once_by_frame_len (id frame_len r_buf : Z) : M unit :=
  rx ← spi_readl id SPI_DR0_OFFSET_ADDR;
  st8 r_buf (Z.land rx 0xff) ;;
  if frame_len =? 0xf then st8 (r_buf + 1) (Z.land (Z.shiftr rx 8) 0xff) else mret tt.

(** One microsecond of the wait; the microseconds left. *)
Definition spi_idle_round (id left : Z) : M (Z + Z) :=
  if left =? 0 then mret (inr left)
  else
    st ← spi_readl id SPI_SR_OFFSET_ADDR;
    if ctrue (Z.land st 1) then udelay fuel 1 ;; mret (inl (left - 1)) else mret (inr left).

Definition bm_spi_wait_idle (spi_id time_out : Z) : M Z :=
  let u_timeout := u32 (time_out * 1000) in
  left ← loop (S (Z.to_nat u_timeout)) (spi_idle_round spi_id) u_timeout;
  mret (if left =? 0 then BM_FAIL else BM_OK).

(** The bytes of a frame. *)
Definition frame_step (frame_len : Z) : Z := if frame_len =? 0xf then 2 else 1.

(** One round of the loops on the FIFO: [i] bytes done, [length] to go. *)
Definition tx_fifo_round (id frame_len buf : Z) (x : Z * Z) : M ((Z * Z) + unit) :=
  let '(i, length) := x in
  if ctrue length then
    fl ← spi_readl id SPI_TXFLR_OFFSET_ADDR;
    if fl =? 0 then
      bm_spi_write_once_by_frame_len id frame_len (buf + i) ;;
      mret (inl (i + frame_step frame_len, u32 (length - frame_step frame_len)))
    else mret (inl (i, length))
  else mret (inr tt).

Definition rx_fifo_round (id frame_len buf : Z) (x : Z * Z) : M ((Z * Z) + unit) :=
  let '(i, length) := x in
  if ctrue length then
    fl ← spi_readl id SPI_RXFLR_OFFSET_ADDR;
    if ctrue fl then
      bm_spi_read_once_by_frame_len id frame_len (buf + i) ;;
      mret (inl (i + frame_step frame_len, u32 (length - frame_step frame_len)))
    else mret (inl (i, length))
  else mret (inr tt).

Definition bm_spi_write (handle : option bm_spi_handle) (w_data : option bm_spi_data) : M Z :=
  bad ← bm_spi_transfer_para_check handle w_data SPI_TX_MODE;
  if bad =? BM_FAIL then mret BM_FAIL
  else
    h ← some_or NullDeref handle;
    d ← some_or NullDeref w_data;
    frame_len ← spi_frame_bits (sh_id h);
    spi_locked (sh_id h)
      (bm_spi_cs_control h SPI_CS_SELECT ;;
       loop xfuel (tx_fifo_round (sh_id h) frame_len (w_buf d)) (0, w_len d) ;;
       ret ← bm_spi_wait_idle (sh_id h) (sd_time_out d);
       bm_spi_cs_control h SPI_CS_DESELECT ;;
       mret ret).

Definition bm_spi_read (handle : option bm_spi_handle) (r_data : option bm_spi_data) : M Z :=
  bad ← bm_spi_transfer_para_check handle r_data SPI_RX_MODE;
  if bad =? BM_FAIL then mret BM_FAIL
  else
    h ← some_or NullDeref handle;
    d ← some_or NullDeref r_data;
    frame_len ← spi_frame_bits (sh_id h);
    spi_locked (sh_id h)
      (bm_spi_cs_control h SPI_CS_SELECT ;;
       loop xfuel (rx_fifo_round (sh_id h) frame_len (r_buf d)) (0, r_len d) ;;
       ret ← bm_spi_wait_idle (sh_id h) (sd_time_out d);
       bm_spi_cs_control h SPI_CS_DESELECT ;;
       mret ret).

Definition bm_spi_write_read (handle : option bm_spi_handle) (w_r_data : option bm_spi_data) : M Z :=
  bad ← bm_spi_transfer_para_check handle w_r_data SPI_TX_RX_MODE;
  if bad =? BM_FAIL then mret BM_FAIL
  else
    h ← some_or NullDeref handle;
    d ← some_or NullDeref w_r_data;
    frame_len ← spi_frame_bits (sh_id h);
    spi_locked (sh_id h)
      (bm_spi_disable (sh_id h) ;;
       bm_spi_enable (sh_id h) ;;
       bm_spi_cs_control h SPI_CS_SELECT ;;
       loop xfuel (tx_fifo_round (sh_id h) frame_len (w_buf d)) (0, w_len d) ;;
       ret ← bm_spi_wait_idle (sh_id h) (sd_time_out d);
       if ctrue ret then mret ret
       else
         loop xfuel (rx_fifo_round (sh_id h) frame_len (r_buf d)) (0, r_len d) ;;
         ret ← bm_spi_wait_idle (sh_id h) (sd_time_out d);
         bm_spi_cs_control h SPI_CS_DESELECT ;;
         mret ret).

(** ** Transfers by DMA *)
Definition bm_spi_disable_dma (id mask : Z) : M unit :=
  temp ← spi_readl id SPI_DMACR_OFFSET_ADDR;
  spi_writel id (Z.land temp (bnot 32 mask)) SPI_DMACR_OFFSET_ADDR.
Definition bm_spi_enable_dma (id mask : Z) : M unit :=
  temp ← spi_readl id SPI_DMACR_OFFSET_ADDR;
  spi_writel id (Z.lor temp mask) SPI_DMACR_OFFSET_ADDR.

(** The controller and the direction of a request line: [true] for reading. *)
Definition spi_of_req (r : Z) : option (Z * bool) :=
  if r =? req_num DMAC_REQ_SEL_SPI1_TX then Some (SPI_ID1, false)
  else if r =? req_num DMAC_REQ_SEL_SPI1_RX then Some (SPI_ID1, true)
  else if r =? req_num DMAC_REQ_SEL_SPI0_TX then Some (SPI_ID0, false)
  else if r =? req_num DMAC_REQ_SEL_SPI0_RX then Some (SPI_ID0, true)
  else None.

Definition dma_finish_func (r type : Z) : M unit :=
  match spi_of_req r with
  | None => mret tt
  | Some (spi_id, rx) =>
      let ok := type =? DMAC_TRANSMIT_OK in
      let state := if rx then (if ok then SPI_READ_OK else SPI_READ_FAIL)
                   else (if ok then SPI_WRITE_OK else SPI_WRITE_FAIL) in
      o ← get_ops spi_id;
      bm_spi_disable_dma spi_id (if rx then 0x1 else 0x2) ;;
      match (if rx then dma_rx_callback o else dma_tx_callback o) with
      | Some f => call_user f spi_id state
      | None => mret tt
      end
  end.

Definition spi_dma_get_dmac_req (id : Z) (is_read : bool) : Z :=
  if id <=? SPI_ID0 then
    (if is_read then req_num DMAC_REQ_SEL_SPI0_RX else req_num DMAC_REQ_SEL_SPI0_TX)
  else (if is_read then req_num DMAC_REQ_SEL_SPI1_RX else req_num DMAC_REQ_SEL_SPI1_TX).

Definition spi_write_dma (id cs tx_buf tx_len : Z) : M Z :=
  d ← get_dev id;
  spi_writel id 0xf SPI_DMATDLR_OFFSET_ADDR ;;
  spi_writel id (Z.shiftl 1 cs) SPI_SER_OFFSET_ADDR ;;
  udelay fuel WRITE_DELAY_TIME ;;
  ret ← dma_transmit_async (Some (ChannelCfg (spi_dma_get_dmac_req id false) tx_buf
    (sd_base d + SPI_DR0_OFFSET_ADDR) tx_len TRASFER_TYPE_M2P)) spi_dma_finish;
  bm_spi_enable_dma id 0x2 ;;
  mret ret.

Definition spi_read_dma (id cs rx_buf rx_len : Z) : M Z :=
  d ← get_dev id;
  spi_writel id (Z.shiftl 1 cs) SPI_SER_OFFSET_ADDR ;;
  ret ← dma_transmit_async (Some (ChannelCfg (spi_dma_get_dmac_req id true)
    (sd_base d + SPI_DR0_OFFSET_ADDR) rx_buf rx_len TRASFER_TYPE_P2M)) spi_dma_finish;
  bm_spi_enable_dma id 0x1 ;;
  mret ret.

Definition bm_spi_write_dma (handle : option bm_spi_handle) (w_data : option bm_spi_data)
    (callback : Z) : M Z :=
  bad ← bm_spi_transfer_para_check handle w_data SPI_TX_MODE;
  if bad =? BM_FAIL then mret BM_FAIL
  else
    h ← some_or NullDeref handle;
    d ← some_or NullDeref w_data;
    spi_locked (sh_id h)
      (mod_ops (sh_id h) (fun o => with_dma_cbs (callback_of callback) (dma_rx_callback o) o) ;;
       spi_write_dma (u8 (sh_id h)) (u8 (sh_cs h)) (w_buf d) (w_len d)).

Definition bm_spi_read_dma (handle : option bm_spi_handle) (r_data : option bm_spi_data)
    (callback : Z) : M Z :=
  bad ← bm_spi_transfer_para_check handle r_data SPI_RX_MODE;
  if bad =? BM_FAIL then mret BM_FAIL
  else
    h ← some_or NullDeref handle;
    d ← some_or NullDeref r_data;
    spi_locked (sh_id h)
      (mod_ops (sh_id h) (fun o => with_dma_cbs (dma_tx_callback o) (callback_of callback) o) ;;
       spi_read_dma (u8 (sh_id h)) (u8 (sh_cs h)) (r_buf d) (r_len d)).

(** ** Transfers by interrupt *)
Definition frame_bytes (bit_value : Z) : Z :=
  if bit_value =? 0xf then HISPI_FRAME_LENGTH_16_BIT else HISPI_FRAME_LENGTH_8_BIT.

(** One frame of [read_data]. *)
Definition read_data_round (id frame_len : Z) (_ : unit) : M (unit + unit) :=
  o ← get_ops id;
  if (rx_count o <? rx_text_len o) && negb (rx_text_pos o =? NULL) then
    sr ← spi_readl id SPI_SR_OFFSET_ADDR;
    if bf_get 3 1 sr =? 0 then mret (inr tt)
    else
      rx ← spi_readl id SPI_DR0_OFFSET_ADDR;
      (if HISPI_FRAME_LENGTH_8_BIT <? frame_len then st16 (rx_text_pos o) (u16 rx)
       else st8 (rx_text_pos o) (Z.land rx 0xff)) ;;
      mod_ops id (fun o => with_rx (rx_text_pos o + frame_len) (rx_text_len o)
        (u32 (rx_count o + frame_len)) o) ;;
      mret (inl tt)
  else mret (inr tt).

Definition read_data (id : Z) : M Z :=
  bit_value ← spi_frame_bits id;
  let frame_len := frame_bytes bit_value in
  o ← get_ops id;
  loop (2 + Z.to_nat (rx_text_len o)) (read_data_round id frame_len) tt ;;
  o ← get_ops id;
  let ret := if rx_count o <? rx_text_len o then BM_FAIL else BM_OK in
  count ← spi_readl id SPI_RXFLR_OFFSET_ADDR;
  for_up (Z.to_nat (u8 count)) 0 (fun _ => _ ← spi_readl id SPI_DR0_OFFSET_ADDR; mret tt) ;;
  mod_ops id (fun o => with_rx (rx_text_pos o) 0 0 o) ;;
  mret ret.

(** One frame of [write_data]. *)
Definition write_data_round (id frame_len : Z) (_ : unit) : M (unit + unit) :=
  o ← get_ops id;
  if tx_count o <? tx_text_len o then
    sr ← spi_readl id SPI_SR_OFFSET_ADDR;
    if bf_get 1 1 sr =? 0 then mret (inr tt)
    else
      tx ← (if HISPI_FRAME_LENGTH_8_BIT <? frame_len then ld16 (tx_text_pos o)
            else ld8 (tx_text_pos o));
      spi_writel id tx SPI_DR0_OFFSET_ADDR ;;
      mod_ops id (fun o => with_tx (tx_text_pos o + frame_len) (tx_text_len o)
        (u32 (tx_count o + frame_len)) o) ;;
      mret (inl tt)
  else mret (inr tt).

Definition write_data (id cs : Z) : M Z :=
  value ← spi_frame_bits id;
  let frame_len := frame_bytes value in
  sr ← spi_readl id SPI_SR_OFFSET_ADDR;
  if ctrue (bf_get 0 1 sr) then mret BM_FAIL
  else
    spi_writel id SER_REG_VALUE_NON_SLAVE SPI_SER_OFFSET_ADDR ;;
    o ← get_ops id;
    loop (2 + Z.to_nat (tx_text_len o)) (write_data_round id frame_len) tt ;;
    irq ← get_irq_num id;
    os_irq_enable irq ;;
    bm_spi_enable_intr id INT_MASK_TX_EMPTY ;;
    spi_writel id (Z.shiftl 1 cs) SPI_SER_OFFSET_ADDR ;;
    mret BM_OK.

Definition call_if (f : option Z) (spi_id stat : Z) : M unit :=
  match f with Some f => call_user f spi_id stat | None => mret tt end.

(** [args] points at the [spi_id] of device [dev_ix]. *)
Definition spi_irq (dev_ix : Z) : M Z :=
  dev ← get_dev dev_ix;
  let spi_id := sd_id dev in
  irq_en_tmp ← spi_readl spi_id SPI_ISR_OFFSET_ADDR;
  if Z.land irq_en_tmp ISR_TX_EMPTY =? ISR_TX_EMPTY then
    o ← get_ops spi_id;
    call_if (int_tx_callback o) spi_id SPI_WRITE_OK ;;
    bm_spi_disable_intr spi_id INT_MASK_TX_EMPTY ;;
    mret BM_OK
  else if (Z.land irq_en_tmp ISR_RX_FULL =? ISR_RX_FULL)
       || (Z.land irq_en_tmp ISR_RX_OVERFLOW =? ISR_RX_OVERFLOW) then
    ret ← read_data spi_id;
    let stat := if ret =? BM_OK then SPI_READ_OK else SPI_READ_FAIL in
    o ← get_ops spi_id;
    call_if (int_rx_callback o) spi_id stat ;;
    bm_spi_disable_intr spi_id (Z.lor INT_MASK_RX_FULL INT_MASK_RX_OVER) ;;
    mret BM_OK
  else
    bm_spi_disable_intr spi_id irq_en_tmp ;;
    _ ← spi_readl spi_id SPI_TXOICR_OFFSET_ADDR;
    mret BM_OK.

Definition bm_spi_write_async (handle : option bm_spi_handle) (w_data : option bm_spi_data)
    (callback : Z) : M Z :=
  bad ← bm_spi_transfer_para_check handle w_data SPI_TX_MODE;
  if bad =? BM_FAIL then mret BM_FAIL
  else
    h ← some_or NullDeref handle;
    d ← some_or NullDeref w_data;
    if SPI_TX_FIFO_SIZE <? w_len d then mret BM_FAIL
    else
      spi_locked (sh_id h)
        (mod_ops (sh_id h) (with_tx (w_buf d) (w_len d) 0) ;;
         mod_ops (sh_id h) (fun o => with_int_cbs (callback_of callback) (int_rx_callback o) o) ;;
         write_data (sh_id h) (sh_cs h)).

Definition bm_spi_read_async (handle : option bm_spi_handle) (r_data : option bm_spi_data)
    (callback : Z) : M Z :=
  bad ← bm_spi_transfer_para_check handle r_data SPI_RX_MODE;
  if bad =? BM_FAIL then mret BM_FAIL
  else
    h ← some_or NullDeref handle;
    d ← some_or NullDeref r_data;
    if SPI_RX_FIFO_SIZE <? r_len d then mret BM_FAIL
    else
      spi_locked (sh_id h)
        (mod_ops (sh_id h) (with_rx (r_buf d) (r_len d) 0) ;;
         mod_ops (sh_id h) (fun o => with_int_cbs (int_tx_callback o) (callback_of callback) o) ;;
         irq ← get_irq_num (sh_id h);
         os_irq_enable irq ;;
         bm_spi_enable_intr (sh_id h) (Z.lor INT_MASK_RX_FULL INT_MASK_RX_OVER) ;;
         spi_writel (sh_id h) (Z.shiftl 1 (sh_cs h)) SPI_SER_OFFSET_ADDR ;;
         mret BM_OK).

Definition bm_spi_write_read_async (handle : option bm_spi_handle) (w_r_data : option bm_spi_data)
    (callback : Z) : M Z :=
  bad ← bm_spi_transfer_para_check handle w_r_data SPI_TX_RX_MODE;
  if bad =? BM_FAIL then mret BM_FAIL
  else
    h ← some_or NullDeref handle;
    d ← some_or NullDeref w_r_data;
    if SPI_TX_FIFO_SIZE <? w_len d then mret BM_FAIL
    else if SPI_RX_FIFO_SIZE <? r_len d then mret BM_FAIL
    else
      spi_locked (sh_id h)
        (mod_ops (sh_id h) (with_tx (w_buf d) (w_len d) 0) ;;
         mod_ops (sh_id h) (with_rx (r_buf d) (r_len d) 0) ;;
         mod_ops (sh_id h) (with_int_cbs None (callback_of callback)) ;;
         bm_spi_enable_intr (sh_id h) (Z.lor INT_MASK_RX_FULL INT_MASK_RX_OVER) ;;
         write_data (sh_id h) (sh_cs h)).
End Spi.
