(* ===== verification/SpiProps.v ===== *)
(** * SpiProps: what the SPI driver puts on and takes off the bus

    What reaches the outside is what is written to the data register and to
    the chip select register ([spi_out]); what comes in is what is read from
    the data register.  The loops on the FIFO have no bound in the code: the
    theorems assume that the FIFO level is ready within [n] looks and give the
    number of rounds that are then enough; for sending, no number is enough when
    the FIFO never shows empty. *)
From stdpp Require Import prelude gmap list strings.
From Stdlib Require Import ZArith Lia Btauto.
From S2P Require Import Prelude Hw Common Mem Osal Os Dmac Serial Spi.
Local Open Scope Z_scope.

Definition spi_out (off v : Z) : option (Z * Z) :=
  if (off =? SPI_DR0_OFFSET_ADDR) || (off =? SPI_SER_OFFSET_ADDR) then Some (off, v) else None.
Definition spi_regs : list Z :=
  [SPI_CTRLR0_OFFSET_ADDR; SPI_TXFLR_OFFSET_ADDR; SPI_RXFLR_OFFSET_ADDR; SPI_SR_OFFSET_ADDR;
   SPI_DR0_OFFSET_ADDR; SPI_IMR_OFFSET_ADDR; SPI_ISR_OFFSET_ADDR; SPI_TXOICR_OFFSET_ADDR].

#[local] Instance spi_dr_in_block : InBlock SPI_DR0_OFFSET_ADDR.
Proof. split; done. Qed.
#[local] Instance spi_out_in_block : OutInBlock spi_out.
Proof. intros off v H. unfold spi_out, SPI_DR0_OFFSET_ADDR, SPI_SER_OFFSET_ADDR. zcases; done. Qed.

(** The register is one of [spi_regs]. *)
Ltac spi_reg := repeat (first [apply list_elem_of_here | apply list_elem_of_further]).

Abbreviation exchanged := (Serial.exchanged spi_out SPI_DR0_OFFSET_ADDR spi_regs).

(** ** Frames

    A frame of 16 bits is two bytes, low byte first; a shorter one is a byte. *)
Fixpoint words16 (bs : list Z) : list Z :=
  match bs with
  | b :: b' :: bs' => le_word [b; b'] :: words16 bs'
  | _ => []
  end.

Definition frames (fl : Z) (bs : list Z) : list Z := if fl =? 0xf then words16 bs else bs.
Definition frame_le (fl v : Z) : list Z := if fl =? 0xf then le_bytes 2 v else [u8 v].
Definition unframe (fl : Z) (vs : list Z) : list Z := vs ≫= frame_le fl.

Definition data_written (vs : list Z) : list (Z * Z) := (fun v => (SPI_DR0_OFFSET_ADDR, v)) <$> vs.
Definition selected (cs : Z) : Z * Z := (SPI_SER_OFFSET_ADDR, Z.shiftl 1 cs).
Definition deselected : Z * Z := (SPI_SER_OFFSET_ADDR, 0).

Lemma words16_app k xs ys : length xs = (2 * k)%nat -> words16 (xs ++ ys) = words16 xs ++ words16 ys.
Proof.
  revert xs. induction k as [| k IH]; intros xs Hl.
  - destruct xs; [done | simpl in Hl; lia].
  - destruct xs as [| b [| b' xs]]; [simpl in Hl; lia | simpl in Hl; lia |].
    cbn [app words16]. f_equal. apply IH. simpl in Hl. lia.
Qed.

Lemma frame_step_cases fl : frame_step fl = 1 /\ fl <> 0xf \/ frame_step fl = 2 /\ fl = 0xf.
Proof. unfold frame_step. zcases; auto. Qed.

(** The frames of a prefix, one frame longer. *)
Lemma frames_snoc fl (bs : list Z) i fr : 0 <= i -> (frame_step fl | i) ->
  take (Z.to_nat (frame_step fl)) (drop (Z.to_nat i) bs) = fr ->
  length fr = Z.to_nat (frame_step fl) ->
  frames fl (take (Z.to_nat (i + frame_step fl)) bs) =
  frames fl (take (Z.to_nat i) bs) ++ [le_word fr].
Proof.
  intros Hi Hdiv Hfr Hlen.
  assert (take (Z.to_nat (i + frame_step fl)) bs = take (Z.to_nat i) bs ++ fr) as ->.
  { rewrite <- Hfr. replace (Z.to_nat (i + frame_step fl)) with (Z.to_nat i + Z.to_nat (frame_step fl))%nat
      by (destruct (frame_step_cases fl) as [[-> _] | [-> _]]; lia).
    symmetry. apply take_take_drop. }
  assert (Z.to_nat i <= length bs)%nat as Hle.
  { destruct (Nat.le_gt_cases (Z.to_nat i) (length bs)) as [| Hgt]; [done |].
    rewrite drop_ge in Hfr by lia. rewrite take_nil in Hfr. subst fr. simpl in Hlen.
    destruct (frame_step_cases fl) as [[E _] | [E _]]; rewrite E in Hlen; simpl in Hlen; lia. }
  unfold frames. destruct (frame_step_cases fl) as [[E Hne] | [E ->]]; rewrite E in Hlen, Hdiv.
  - replace (fl =? 0xf) with false by lia.
    destruct fr as [| b [| ]]; simpl in Hlen; try lia. by rewrite le_word_1.
  - cbn [Z.eqb Pos.eqb]. destruct Hdiv as [k Hk]. rewrite (words16_app (Z.to_nat k)).
    + f_equal. destruct fr as [| b [| b' [| ]]]; simpl in Hlen; try lia. done.
    + rewrite length_take. lia.
Qed.

Lemma length_unframe fl vs : Z.of_nat (length (unframe fl vs)) = frame_step fl * Z.of_nat (length vs).
Proof.
  unfold unframe, frame_le, frame_step.
  induction vs as [| v vs IH]; [cbn; lia |].
  rewrite bind_cons, length_app, Nat2Z.inj_add, IH. cbn [length]. destruct (fl =? 0xf); cbn [length le_bytes]; lia.
Qed.

Lemma unframe_snoc fl vs v : unframe fl (vs ++ [v]) = unframe fl vs ++ frame_le fl v.
Proof. unfold unframe. rewrite bind_app. cbn. by rewrite app_nil_r. Qed.

Section Blocking.
Context {G D : Type} `{MD : Machine D} `{HM : !Has G mem} `{HS : !Has G spi}
  `{IN : !Indep G spi mem} `{OS : !Os G D} `{XF : Xfer} `{SC : SpiConfig} (fuel xfuel : nat).
Implicit Types (w : world G D) (s : spi) (mu : mem).
Abbreviation does := (Serial.does (G := G) (D := D) (S := spi) (out_of := spi_out)
  (dr := SPI_DR0_OFFSET_ADDR) (regs := spi_regs)).

(** A controller: its device entry, its block of registers, how long its FIFO
    levels take, and the frame format it keeps. *)
Context (s : spi) (h : bm_spi_handle) (dev : spi_device) (flag : Z) (n : nat) (fl : Z).
Abbreviation id := (sh_id h).
Abbreviation base := (sd_base dev).
Context (Hdev : g_spi_devices_info s !! Z.to_nat id = Some dev)
  (Hflag : sd_init_flag dev !! Z.to_nat id = Some flag).
Context (Hdelay : forall w : world G D,
  emits (udelay fuel 1) w (fun _ t => Forall (outside base (base + 0x1000)) t)).
Context (Htx : settles_in n (base + SPI_TXFLR_OFFSET_ADDR) (fun v => negb (v =? 0)))
  (Hrx : settles_in n (base + SPI_RXFLR_OFFSET_ADDR) (fun v => v =? 0)).
Context (Hfl : forall d, Z.land (u32 (fst (m_load (base + SPI_CTRLR0_OFFSET_ADDR) d))) 0xf = fl).

Lemma get_dev_does mu (Q : spi_device -> spi -> mem -> list (Z * Z) -> list Z -> Prop) :
  Q dev s mu [] [] -> does base (get_dev id) s mu Q.
Proof. intros HQ. apply does_bind, does_gets. by eapply does_some_or. Qed.

Lemma readl_does off mu (Q : Z -> spi -> mem -> list (Z * Z) -> list Z -> Prop) :
  InBlock off -> off ∈ spi_regs ->
  (forall v, fits 32 v -> Q v s mu [] (if off =? SPI_DR0_OFFSET_ADDR then [v] else [])) ->
  does base (spi_readl id off) s mu Q.
Proof. intros Ho Hr HQ. apply does_bind, get_dev_does. by apply does_readl. Qed.

Lemma writel_does v off mu (Q : unit -> spi -> mem -> list (Z * Z) -> list Z -> Prop) :
  Q tt s mu (option_list (spi_out off (u32 v))) [] -> does base (spi_writel id v off) s mu Q.
Proof. intros HQ. apply does_bind, get_dev_does. by apply does_writel. Qed.

Lemma frame_bits_does mu (Q : Z -> spi -> mem -> list (Z * Z) -> list Z -> Prop) :
  Q fl s mu [] [] -> does base (spi_frame_bits id) s mu Q.
Proof.
  intros HQ. apply does_bind, does_bind, get_dev_does. apply does_readl_dev; [split; done | spi_reg |].
  intros d. cbv zeta. apply does_ret. cbn [app]. by rewrite Hfl.
Qed.

(** A refused handle, and one that is not. *)
Definition handle_ok : Prop :=
  id < SPI_MAX_CTL /\ sh_cs h < SPI_MAX_CS /\ flag <> 0 /\ spi_exist_array !! Z.to_nat id = Some true.

Lemma handle_check_does mu (Q : Z -> spi -> mem -> list (Z * Z) -> list Z -> Prop) :
  (handle_ok -> Q BM_OK s mu [] []) -> (~ handle_ok -> Q BM_FAIL s mu [] []) ->
  does base (bm_spi_handle_para_check (Some h)) s mu Q.
Proof.
  unfold handle_ok. intros Hok Hbad. unfold bm_spi_handle_para_check.
  destruct (_ || _) eqn:E; [apply does_ret, Hbad; intros (? & ? & _); lia |].
  apply orb_false_iff in E as [E1 E2]. apply does_bind, get_dev_does.
  apply does_bind. eapply does_some_or; [exact Hflag |].
  destruct (Z.eqb_spec flag 0) as [Hf | Hf]; [apply does_ret, Hbad; tauto |].
  destruct (lookup_lt_is_Some_2 spi_exist_array (Z.to_nat id)) as [e He].
  { rewrite spi_exist_length. unfold SPI_MAX_CTL in E1. lia. }
  apply does_bind. eapply does_some_or; [exact He |].
  destruct e; cbn [negb]; apply does_ret; [apply Hok; split_and!; done || lia | apply Hbad].
  intros (_ & _ & _ & He'). congruence.
Qed.

Lemma cs_control_does sel mu (Q : unit -> spi -> mem -> list (Z * Z) -> list Z -> Prop) :
  handle_ok -> sel = SPI_CS_SELECT \/ sel = SPI_CS_DESELECT -> 0 <= sh_cs h ->
  Q tt s mu [if sel =? SPI_CS_SELECT then selected (sh_cs h) else deselected] [] ->
  does base (bm_spi_cs_control h sel) s mu Q.
Proof.
  intros Hok Hsel Hcs HQ. apply does_bind, handle_check_does; [| done]. intros _.
  cbn [app]. destruct Hsel as [-> | ->]; change (BM_OK =? BM_FAIL) with false; cbv iota in *;
    cbn [Z.eqb Pos.eqb SPI_CS_SELECT SPI_CS_DESELECT] in *; apply writel_does; cbn.
  - rewrite (wrap_id 32); [done |]. destruct Hok as (_ & Hc & _). unfold SPI_MAX_CS in Hc.
    assert (sh_cs h = 0 \/ sh_cs h = 1) as [-> | ->] by lia; split; done.
  - done.
Qed.

(** The wait for an idle bus. *)
Lemma spi_wait_idle_does time_out mu (Q : Z -> spi -> mem -> list (Z * Z) -> list Z -> Prop) :
  (forall r, r = BM_FAIL \/ r = BM_OK /\ u32 (time_out * 1000) <> 0 -> Q r s mu [] []) ->
  does base (bm_spi_wait_idle fuel id time_out) s mu Q.
Proof.
  intros HQ. unfold bm_spi_wait_idle. set (t0 := u32 (time_out * 1000)) in *.
  assert (fits 32 t0) as Ht0 by (by apply wrap_fits). apply does_bind.
  apply (does_loop _ (fun left s' mu' o i => 0 <= left <= t0 /\ s' = s /\ mu' = mu /\ o = [] /\ i = [])
    (fun left _ => Z.to_nat left)); [| unfold fits in Ht0; split_and!; done || lia | lia].
  intros left s' mu' o i (Hl & -> & -> & -> & ->). unfold spi_idle_round.
  destruct (Z.eqb_spec left 0) as [-> | Hne].
  - apply does_ret. cbn [app]. apply does_ret. apply HQ. by left.
  - apply does_bind, readl_does; [split; done | spi_reg |]. intros v _. cbn [app].
    destruct (ctrue _).
    + apply does_bind, does_emits; [done |]. intros []. apply does_ret. cbn. split; [split_and!; done || lia | lia].
    + apply does_ret, does_ret. cbn. destruct (Z.eqb_spec left 0); [lia |]. apply HQ. right. split; [done | lia].
Qed.

(** *** The loops on the FIFO *)
Lemma spi_readl_eq off w : hget (glob w) = s -> spi_readl id off w = readl (base + off) w.
Proof.
  intros Hs. unfold spi_readl, get_dev, mbind, M_bind, gets. rewrite Hs, Hdev. done.
Qed.

Lemma tx_loop_does len buf bs mu (Q : unit -> spi -> mem -> list (Z * Z) -> list Z -> Prop) :
  fits 32 len -> (frame_step fl | len) -> (Z.to_nat len * n + n <= xfuel)%nat ->
  rd mu buf (Z.to_nat len) = Some bs -> Forall (fits 8) bs ->
  Q tt s mu (data_written (frames fl bs)) [] ->
  does base (loop xfuel (tx_fifo_round id fl buf) (0, len)) s mu Q.
Proof.
  intros Hlen Hdiv Hfuel Hbs Hby HQ. pose proof (rd_length _ _ _ _ Hbs) as Hl.
  set (act := fun x : Z * Z =>
    bm_spi_write_once_by_frame_len id fl (buf + x.1) ;;
    mret (M := M G D) (inl (B := unit) (x.1 + frame_step fl, u32 (x.2 - frame_step fl)))).
  apply (does_poll_loop _ (fun x s' mu' o i => 0 <= x.1 /\ 0 <= x.2 /\ x.1 + x.2 = len /\
    (frame_step fl | x.1) /\ s' = s /\ mu' = mu /\
    o = data_written (frames fl (take (Z.to_nat x.1) bs)) /\ i = [])
    (fun x => Z.to_nat x.2) SPI_TXFLR_OFFSET_ADDR (fun v => negb (v =? 0)) n xfuel _ act);
    [split; done | spi_reg | done | done | | | done].
  - intros [j l] s' mu' o i (Hj & Hl0 & Hsum & Hdj & -> & -> & -> & ->) post. cbn [fst snd] in Hj, Hl0, Hsum, Hdj |- *.
    unfold tx_fifo_round. destruct (Z.eqb_spec l 0) as [-> | Hl1].
    { left. apply does_ret. subst post. cbv beta iota. cbn [fst snd]. rewrite !app_nil_r.
      replace (Z.to_nat j) with (Z.to_nat len) by lia. by rewrite take_ge by lia. }
    right. unfold ctrue. replace (l =? 0) with false by lia. cbn [negb]. split.
    { intros w Hw. unfold mbind, M_bind. rewrite spi_readl_eq by done.
      destruct (readl (base + SPI_TXFLR_OFFSET_ADDR) w) as [v w1 | f]; [| done]. by destruct (v =? 0). }
    assert (frame_step fl <= l) as Hstep.
    { destruct (frame_step_cases fl) as [[E _] | [E _]]; rewrite E in *; [lia |].
      destruct Hdj as [a Ha], Hdiv as [b Hb]. lia. }
    assert (1 <= frame_step fl) as H1 by (destruct (frame_step_cases fl) as [[-> _] | [-> _]]; lia).
    assert (does base (bm_spi_write_once_by_frame_len id fl (buf + j)) s mu
      (fun _ s' mu' o i => s' = s /\ mu' = mu /\ i = [] /\
        data_written (frames fl (take (Z.to_nat j) bs)) ++ o
        = data_written (frames fl (take (Z.to_nat (j + frame_step fl)) bs)))) as Hw.
    { set (fr := take (Z.to_nat (frame_step fl)) (drop (Z.to_nat j) bs)).
      assert (length fr = Z.to_nat (frame_step fl)) as Hfr.
      { subst fr. rewrite length_take, length_drop. lia. }
      assert (fits 32 (le_word fr)) as Hfit.
      { assert (Forall (fits 8) fr) as Hf8 by (by apply Forall_take, Forall_drop).
        destruct (frame_step_cases fl) as [[E _] | [E _]]; rewrite E in Hfr;
          (destruct fr as [| b [| b' [| ]]]; simpl in Hfr; try lia).
        - rewrite le_word_1. apply (fits_mono 8); [lia |]. by inversion Hf8.
        - change (fits 32 (Z.lor b (Z.shiftl (le_word [b']) 8))). rewrite le_word_1.
          inversion Hf8 as [| ? ? Hb Hf8']; subst. inversion Hf8' as [| ? ? Hb' _]; subst.
          apply lor_fits; [lia | by apply (fits_mono 8); [lia |] |].
          unfold fits in *. rewrite Z.shiftl_mul_pow2 by lia. lia. }
      rewrite (frames_snoc fl bs j fr) by done. unfold data_written at 2. rewrite fmap_app.
      apply does_bind. eapply does_mono with (Q := fun v s' mu' o i =>
        v = le_word fr /\ s' = s /\ mu' = mu /\ o = [] /\ i = []).
      - pose proof (rd_sub _ _ _ _ (Z.to_nat j) (Z.to_nat (frame_step fl)) Hbs ltac:(lia)) as Hr.
        rewrite Z2Nat.id in Hr by lia. fold fr in Hr. unfold frame_step in Hr. destruct (fl =? 0xf);
          by eapply does_ldn; [exact Hr |].
      - intros v s' mu' o i (-> & -> & -> & -> & ->). apply writel_does. cbn.
        rewrite (wrap_id 32) by done. done. }
    subst act. cbv beta. cbn [fst snd]. apply does_bind. eapply does_mono; [exact Hw |]. cbv beta.
    intros [] s' mu' o i (-> & -> & -> & Ho). apply does_ret. subst post. cbv beta iota. cbn [fst snd].
    rewrite (wrap_id 32) by (unfold fits in *; lia). rewrite !app_nil_r. split; [| lia].
    split_and!; try done; try lia. by apply Z.divide_add_r.
  - cbn [fst snd]. unfold fits in Hlen. split_and!; try done; try lia.
    + apply Z.divide_0_r.
    + unfold frames, data_written. by destruct (fl =? 0xf).
Qed.

Lemma read_once_does buf mu (Q : unit -> spi -> mem -> list (Z * Z) -> list Z -> Prop) :
  mapped mu buf (frame_step fl) ->
  (forall v, fits 32 v -> Q tt s (wr mu buf (frame_le fl v)) [] [v]) ->
  does base (bm_spi_read_once_by_frame_len id fl buf) s mu Q.
Proof.
  intros Hm HQ. unfold bm_spi_read_once_by_frame_len. apply does_bind, readl_does; [split; done | spi_reg |].
  intros v Hv. specialize (HQ v Hv). cbn [Z.eqb SPI_DR0_OFFSET_ADDR Pos.eqb].
  assert (forall x, u8 (Z.land x 0xff) = u8 x) as Hu8.
  { intros x. change 0xff with (Z.ones 8). rewrite Z.land_ones by lia. unfold wrap. by rewrite Z.mod_mod. }
  unfold frame_step, frame_le in *. apply does_bind, does_st8.
  { apply Hm. destruct (fl =? 0xf); lia. }
  rewrite Hu8. destruct (fl =? 0xf).
  - apply does_st8.
    + apply mapped_insert with (b := buf) (n := 2); [done | lia].
    + rewrite Hu8. exact HQ.
  - apply does_ret. exact HQ.
Qed.

(** [ins] fills the buffer. *)
Definition filled buf len mu mu' (ins : list Z) : Prop :=
  Z.of_nat (length (unframe fl ins)) = len /\ mu' = wr mu buf (unframe fl ins).

Lemma rx_loop_does len buf mu (Q : unit -> spi -> mem -> list (Z * Z) -> list Z -> Prop) :
  fits 32 len -> (frame_step fl | len) -> (Z.to_nat len * n + n <= xfuel)%nat ->
  mapped mu buf len ->
  (forall ins mu', filled buf len mu mu' ins -> Q tt s mu' [] ins) ->
  does base (loop xfuel (rx_fifo_round id fl buf) (0, len)) s mu Q.
Proof.
  intros Hlen Hdiv Hfuel Hm HQ.
  set (act := fun x : Z * Z =>
    bm_spi_read_once_by_frame_len id fl (buf + x.1) ;;
    mret (M := M G D) (inl (B := unit) (x.1 + frame_step fl, u32 (x.2 - frame_step fl)))).
  apply (does_poll_loop _ (fun x s' mu' o i => 0 <= x.2 /\ x.1 + x.2 = len /\
    filled buf x.1 mu mu' i /\ s' = s /\ o = [])
    (fun x => Z.to_nat x.2) SPI_RXFLR_OFFSET_ADDR (fun v => v =? 0) n xfuel _ act);
    [split; done | spi_reg | done | done | | | done].
  - intros [j l] s' mu' o ins (Hl0 & Hsum & [Hj ->] & -> & ->) post. cbn [fst snd] in Hl0, Hsum, Hj |- *.
    unfold rx_fifo_round. destruct (Z.eqb_spec l 0) as [-> | Hl1].
    { left. apply does_ret. subst post. cbv beta iota. rewrite !app_nil_r. apply HQ. split; [lia | done]. }
    right. unfold ctrue. replace (l =? 0) with false by lia. cbn [negb]. split.
    { intros w Hw. unfold mbind, M_bind. rewrite spi_readl_eq by done.
      destruct (readl (base + SPI_RXFLR_OFFSET_ADDR) w) as [v w1 | f]; [| done]. by destruct (v =? 0). }
    pose proof (length_unframe fl ins) as Hlu.
    assert (frame_step fl <= l) as Hstep.
    { destruct (frame_step_cases fl) as [[E _] | [E _]]; rewrite E in *; [lia |].
      destruct Hdiv as [b Hb]. lia. }
    assert (1 <= frame_step fl) as H1 by (destruct (frame_step_cases fl) as [[-> _] | [-> _]]; lia).
    subst act. cbv beta. cbn [fst snd]. apply does_bind, read_once_does.
    { eapply mapped_sub; [apply mapped_wr, Hm | lia | lia]. }
    intros v Hv. apply does_ret. subst post. cbv beta iota. cbn [fst snd].
    rewrite (wrap_id 32) by (unfold fits in *; lia). split; [| lia].
    assert (length (frame_le fl v) = Z.to_nat (frame_step fl)) as Hfr.
    { unfold frame_le, frame_step. by destruct (fl =? 0xf). }
    split_and!; try done; try lia. unfold filled. rewrite app_nil_r, unframe_snoc, length_app, wr_app, Hj.
    split; [lia | done].
  - cbn [fst snd]. unfold fits in Hlen. split_and!; try done; lia.
Qed.

(** *** The checks of a request *)
Definition buf_ok (buf len : Z) : Prop :=
  buf <> NULL /\ len <> 0 /\ (frame_step fl | len) /\ is_invalid_addr_len (u32 buf) len = 0.

(** What a request of each mode must have. *)
Definition request_ok (mode : Z) (d : bm_spi_data) : Prop :=
  handle_ok /\ (mode = SPI_RX_MODE \/ buf_ok (w_buf d) (w_len d)) /\
  (mode = SPI_TX_MODE \/ buf_ok (r_buf d) (r_len d)).

(** A condition that looks at nothing but the frame format. *)
Definition tells (m : M G D bool) (b : bool) : Prop :=
  forall mu (Q : bool -> spi -> mem -> list (Z * Z) -> list Z -> Prop),
    Q b s mu [] [] -> does base m s mu Q.

Lemma tells_any_of l bs : Forall2 tells l bs -> tells (any_of l) (existsb Datatypes.id bs).
Proof.
  induction 1 as [| m b l bs Hm _ IH]; intros mu Q HQ; cbn [any_of existsb] in *; [by apply does_ret |].
  apply does_bind, Hm. cbn [app]. destruct b; [by apply does_ret | by apply IH].
Qed.

Lemma tells_none buf len : tells (none_given buf len) ((buf =? NULL) || (len =? 0)).
Proof. intros mu Q HQ. by apply does_ret. Qed.
Lemma tells_addr buf len : tells (addr_bad buf len) (ctrue (is_invalid_addr_len (u32 buf) len)).
Proof. intros mu Q HQ. by apply does_ret. Qed.
Lemma tells_frame len : tells (frame_bad id len) ((fl =? 0xf) && negb (len mod 2 =? 0)).
Proof.
  intros mu Q HQ. unfold frame_bad, bm_spi_frame_len_check.
  apply does_bind, does_bind, frame_bits_does. destruct (_ && _); by apply does_ret, does_ret.
Qed.

Definition buf_bad (buf len : Z) : bool :=
  ((buf =? NULL) || (len =? 0)) || ((fl =? 0xf) && negb (len mod 2 =? 0))
  || ctrue (is_invalid_addr_len (u32 buf) len).

Lemma buf_bad_iff buf len : buf_bad buf len = false <-> buf_ok buf len.
Proof.
  unfold buf_bad, buf_ok, NULL, ctrue.
  assert ((fl =? 0xf) && negb (len mod 2 =? 0) = false <-> (frame_step fl | len)) as Hd.
  { destruct (frame_step_cases fl) as [[-> Hf] | [-> ->]].
    - replace (fl =? 0xf) with false by lia. split; [intros _; apply Z.divide_1_l | done].
    - rewrite <- Z.mod_divide by lia. cbn [Z.eqb Pos.eqb andb]. rewrite negb_false_iff. lia. }
  rewrite !orb_false_iff, negb_false_iff, Hd, !Z.eqb_neq, Z.eqb_eq. tauto.
Qed.

Lemma transfer_check_does mode d mu (Q : Z -> spi -> mem -> list (Z * Z) -> list Z -> Prop) :
  mode = SPI_TX_MODE \/ mode = SPI_RX_MODE \/ mode = SPI_TX_RX_MODE ->
  (request_ok mode d -> Q BM_OK s mu [] []) -> (~ request_ok mode d -> Q BM_FAIL s mu [] []) ->
  does base (bm_spi_transfer_para_check (Some h) (Some d) mode) s mu Q.
Proof.
  intros Hmode Hok Hbad. unfold request_ok in *. unfold bm_spi_transfer_para_check. apply does_bind.
  apply handle_check_does; intros Hh; [| change (BM_FAIL =? BM_FAIL) with true; apply does_ret, Hbad; tauto].
  change (BM_OK =? BM_FAIL) with false. cbv iota. apply does_bind. eapply does_some_or; [done |].
  rewrite <- !buf_bad_iff in Hok, Hbad.
  assert (forall (m : M G D bool) b, tells m b -> (b = false -> Q BM_OK s mu [] []) ->
    (b = true -> Q BM_FAIL s mu [] []) ->
    does base (ret ← m; mret (check_result ret)) s mu (fun b s' mu' o i => Q b s' mu' ([] ++ o) ([] ++ i)))
    as Hrun.
  { intros m b Hm H0 H1. apply does_bind, Hm. apply does_ret. cbn [app].
    destruct b; [by apply H1 | by apply H0]. }
  set (wb := buf_bad (w_buf d) (w_len d)) in *. set (rb := buf_bad (r_buf d) (r_len d)) in *.
  destruct Hmode as [-> | [-> | ->]]; cbn [Z.eqb Pos.eqb SPI_TX_MODE SPI_RX_MODE SPI_TX_RX_MODE] in *;
    (eapply Hrun;
     [apply tells_any_of; repeat constructor; first [apply tells_none | apply tells_frame | apply tells_addr]
     | cbn [existsb]; unfold Datatypes.id; rewrite orb_false_r ..]).
  - rewrite orb_assoc. change (wb = false -> Q BM_OK s mu [] []). auto.
  - rewrite orb_assoc. change (wb = true -> Q BM_FAIL s mu [] []). intros E. apply Hbad.
    rewrite E. intros (_ & [H | H] & _); done.
  - rewrite orb_assoc. change (rb = false -> Q BM_OK s mu [] []). auto.
  - rewrite orb_assoc. change (rb = true -> Q BM_FAIL s mu [] []). intros E. apply Hbad.
    rewrite E. intros (_ & _ & [H | H]); done.
  - intros E. apply Hok. split_and!; [done | right | right]; subst wb rb; unfold buf_bad;
      repeat match goal with H : _ || _ = false |- _ => apply orb_false_iff in H as [? ?] end;
      rewrite !orb_false_iff; auto.
  - intros E. apply Hbad. intros (_ & [H | H] & [H' | H']); try done.
    subst wb rb; unfold buf_bad in *.
    repeat match goal with H : _ || _ = false |- _ => apply orb_false_iff in H as [? ?] end.
    repeat match goal with H : _ = false |- _ => rewrite H in E; clear H end. done.
Qed.

(** What every transfer does first; [body] runs with the semaphore held. *)
Definition sems_away : Prop :=
  OsLaws G D spi (outside base (base + 0x1000)) /\ OsLaws G D mem (outside base (base + 0x1000)).

Lemma locked_does (body : M G D Z) mu (Q : Z -> spi -> mem -> list (Z * Z) -> list Z -> Prop) :
  sems_away -> Q BM_FAIL s mu [] [] -> does base body s mu Q ->
  does base (spi_locked id body) s mu Q.
Proof.
  intros [L1 L2] HF HB. unfold spi_locked. apply does_bind.
  apply does_quiet; [apply ol_sem_down_timeout | apply ol_sem_down_timeout |]. intros down.
  destruct (negb _); [by apply does_ret |]. apply does_bind. eapply does_mono; [exact HB |]. cbv beta.
  intros r s' mu' o i HQ. apply does_bind.
  apply does_quiet; [apply ol_sem_up | apply ol_sem_up |]. intros []. apply does_ret.
  cbn [app]. by rewrite !app_nil_r.
Qed.

(** *** Whole transfers *)
Context (Hsems : sems_away) (Hcs : 0 <= sh_cs h).

(** Sending with the chip selected, then waiting; [rest] does what follows. *)
Lemma send_does d bs mu (rest : Z -> M G D Z) (Q : Z -> spi -> mem -> list (Z * Z) -> list Z -> Prop) :
  handle_ok -> fits 32 (w_len d) -> (frame_step fl | w_len d) ->
  (Z.to_nat (w_len d) * n + n <= xfuel)%nat ->
  rd mu (w_buf d) (Z.to_nat (w_len d)) = Some bs -> Forall (fits 8) bs ->
  (forall r, r = BM_FAIL \/ r = BM_OK /\ u32 (sd_time_out d * 1000) <> 0 ->
     does base (rest r) s mu (fun r' s' mu' o i =>
       Q r' s' mu' (selected (sh_cs h) :: data_written (frames fl bs) ++ o) i)) ->
  does base
    (bm_spi_cs_control h SPI_CS_SELECT ;;
     loop xfuel (tx_fifo_round id fl (w_buf d)) (0, w_len d) ;;
     ret ← bm_spi_wait_idle fuel id (sd_time_out d); rest ret) s mu Q.
Proof.
  intros Hh Hl Hdiv Hfuel Hbs Hby HQ.
  apply does_bind, cs_control_does; [done | by left | done |].
  apply does_bind. eapply tx_loop_does; [done.. |].
  apply does_bind, spi_wait_idle_does. intros r Hr. eapply does_mono; [by apply HQ |]. cbv beta.
  intros r' s' mu' o i HQ'. exact HQ'.
Qed.

(** Receiving, waiting and deselecting. *)
Lemma receive_does d mu (Q : Z -> spi -> mem -> list (Z * Z) -> list Z -> Prop) :
  handle_ok -> fits 32 (r_len d) -> (frame_step fl | r_len d) ->
  (Z.to_nat (r_len d) * n + n <= xfuel)%nat -> mapped mu (r_buf d) (r_len d) ->
  (forall r ins mu', r = BM_FAIL \/ r = BM_OK /\ u32 (sd_time_out d * 1000) <> 0 ->
     filled (r_buf d) (r_len d) mu mu' ins -> Q r s mu' [deselected] ins) ->
  does base
    (loop xfuel (rx_fifo_round id fl (r_buf d)) (0, r_len d) ;;
     ret ← bm_spi_wait_idle fuel id (sd_time_out d);
     bm_spi_cs_control h SPI_CS_DESELECT ;; mret ret) s mu Q.
Proof.
  intros Hh Hl Hdiv Hfuel Hm HQ. apply does_bind, rx_loop_does; [done.. |]. intros ins mu' Hf.
  apply does_bind, spi_wait_idle_does. intros r Hr.
  apply does_bind, cs_control_does; [done | by right | done |]. apply does_ret.
  cbn. rewrite !app_nil_r. by apply HQ.
Qed.

(** A blocking write to a controller whose transmit FIFO gets empty. *)
Lemma spi_write_does d bs (w : world G D) :
  hget (glob w) = s -> fits 32 (w_len d) -> (Z.to_nat (w_len d) * n + n <= xfuel)%nat ->
  rd (memof w) (w_buf d) (Z.to_nat (w_len d)) = Some bs -> Forall (fits 8) bs ->
  wp (bm_spi_write fuel xfuel (Some h) (Some d)) (fun ret w' => exists out,
    exchanged base w w' out [] /\ hget (glob w') = s /\ memof w' = memof w /\
    (ret = BM_FAIL \/
     ret = BM_OK /\ request_ok SPI_TX_MODE d /\ u32 (sd_time_out d * 1000) <> 0) /\
    (out = [] /\ ret = BM_FAIL \/
     out = selected (sh_cs h) :: data_written (frames fl bs) ++ [deselected] /\
     request_ok SPI_TX_MODE d)) w.
Proof.
  intros Hs Hl Hfuel Hbs Hby.
  enough (does base (bm_spi_write fuel xfuel (Some h) (Some d)) s (memof w) (fun ret s' mu' out i =>
    i = [] /\ s' = s /\ mu' = memof w /\
    (ret = BM_FAIL \/
     ret = BM_OK /\ request_ok SPI_TX_MODE d /\ u32 (sd_time_out d * 1000) <> 0) /\
    (out = [] /\ ret = BM_FAIL \/
     out = selected (sh_cs h) :: data_written (frames fl bs) ++ [deselected] /\
     request_ok SPI_TX_MODE d))) as H.
  { eapply wp_mono; [by apply H |]. cbv beta. intros r w' (o & i & He & -> & ? & ? & ? & ?). eauto 6. }
  unfold bm_spi_write. apply does_bind, transfer_check_does; [by left | |];
    [intros Hok; change (BM_OK =? BM_FAIL) with false | intros _; change (BM_FAIL =? BM_FAIL) with true];
    cbv iota; [| apply does_ret; split_and!; auto].
  pose proof Hok as (Hh & [Hm | (Hb & Hnz & Hdiv & _)] & _); [done |].
  apply does_bind. eapply does_some_or; [done |]. apply does_bind. eapply does_some_or; [done |].
  apply does_bind, frame_bits_does, locked_does; [done | cbn; split_and!; auto |].
  apply (send_does d bs _ (fun r => bm_spi_cs_control h SPI_CS_DESELECT ;; mret r)); [done.. |].
  intros r Hr. apply does_bind, cs_control_does; [done | by right | done |]. apply does_ret.
  cbn. split_and!; [done.. | |].
  - destruct Hr as [-> | [-> Ht]]; auto.
  - right. split; [done |]. done.
Qed.

(** One whose FIFO never shows empty: no fuel is enough for the loop on it. *)
Definition never_empty : Prop := forall d, u32 (fst (m_load (base + SPI_TXFLR_OFFSET_ADDR) d)) <> 0.

Lemma tx_loop_stuck k buf x w : hget (glob w) = s -> never_empty -> x.2 <> 0 ->
  loop k (tx_fifo_round id fl buf) x w = Fault NoFuel.
Proof.
  intros Hs Hne Hx. destruct x as [i len]. cbn [snd] in Hx. revert w Hs.
  induction k as [| k IH]; intros w Hs; [done |]. cbn [loop]. unfold mbind at 1, M_bind at 1.
  unfold tx_fifo_round at 1. unfold ctrue. replace (len =? 0) with false by lia. cbn [negb].
  unfold mbind at 1, M_bind at 1. rewrite spi_readl_eq by done. unfold readl.
  specialize (Hne (Hw.dev w)). destruct (m_load (base + SPI_TXFLR_OFFSET_ADDR) (Hw.dev w)) as [v d]. cbn [fst] in Hne.
  replace (u32 v =? 0) with false by lia. by apply IH.
Qed.

(** [m] runs out of fuel, unless it fails before anything reaches the bus. *)
Definition stalls (m : M G D Z) mu : Prop := forall w, hget (glob w) = s -> memof w = mu ->
  match m w with Done r w' => r = BM_FAIL /\ exchanged base w w' [] [] | Fault f => f = NoFuel end.

Lemma stalls_bind {A} (m : M G D A) (f : A -> M G D Z) mu :
  does base m s mu (fun a s' mu' o i => s' = s /\ mu' = mu /\ o = [] /\ i = [] /\ stalls (f a) mu) ->
  stalls (m ≫= f) mu.
Proof.
  intros Hm w Hs Hmu. specialize (Hm w Hs Hmu). unfold wp in Hm. unfold mbind, M_bind. destruct (m w) as [a w1 | ?]; [| done].
  destruct Hm as (o & i & He & Hs1 & Hmu1 & -> & -> & Hf). specialize (Hf w1 Hs1 Hmu1).
  destruct (f a w1) as [r w2 | ?]; [| done]. destruct Hf as [-> Hx]. split; [done |].
  by apply (exchanged_trans base w w1 w2 [] [] [] []).
Qed.

Lemma spi_write_stuck d mu : request_ok SPI_TX_MODE d -> never_empty ->
  stalls (bm_spi_write fuel xfuel (Some h) (Some d)) mu.
Proof.
  intros Hok Hne. unfold bm_spi_write. pose proof Hok as (Hh & [Hm | (_ & Hnz & _)] & _); [done |].
  apply stalls_bind, transfer_check_does; [by left | intros _ | done]. split_and!; [done.. |].
  change (BM_OK =? BM_FAIL) with false. cbv iota.
  apply stalls_bind. eapply does_some_or; [done |]. split_and!; [done.. |].
  apply stalls_bind. eapply does_some_or; [done |]. split_and!; [done.. |].
  apply stalls_bind, frame_bits_does. split_and!; [done.. |]. unfold spi_locked.
  destruct Hsems as [L1 L2]. apply stalls_bind, does_quiet; [apply ol_sem_down_timeout | apply ol_sem_down_timeout |].
  intros down. split_and!; [done.. |]. destruct (negb _).
  { intros w _ _. cbn. split; [done |]. by apply exchanged_refl. }
  intros w Hs Hmu.
  enough (forall rest : unit -> M G D Z, (bm_spi_cs_control h SPI_CS_SELECT ;;
    loop xfuel (tx_fifo_round id fl (w_buf d)) (0, w_len d) ≫= rest) w = Fault NoFuel) as E
    by (unfold mbind at 1, M_bind at 1; by rewrite E).
  intros rest. unfold mbind at 1, M_bind at 1.
  pose proof (cs_control_does SPI_CS_SELECT mu (fun _ s' _ _ _ => s' = s) Hh) as Hcs'.
  assert (wp (bm_spi_cs_control h SPI_CS_SELECT) (fun _ w' => hget (glob w') = s) w) as Hsel.
  { eapply wp_mono; [apply Hcs'; [by left | done | done | exact Hs | exact Hmu] |].
    cbv beta. intros [] w' (o & i & _ & Hx). exact Hx. }
  unfold wp in Hsel. destruct (bm_spi_cs_control h SPI_CS_SELECT w) as [[] w1 | ?]; [| done].
  unfold mbind, M_bind. by rewrite tx_loop_stuck.
Qed.

(** a blocking read: refused as a write is; otherwise exactly as many
    frames are taken from the data register as the buffer holds, they fill
    it in order, and no other memory changes. *)
Theorem spi_read_receives d (w : world G D) :
  hget (glob w) = s -> fits 32 (r_len d) -> (Z.to_nat (r_len d) * n + n <= xfuel)%nat ->
  mapped (memof w) (r_buf d) (r_len d) ->
  wp (bm_spi_read fuel xfuel (Some h) (Some d)) (fun ret w' => exists out ins,
    exchanged base w w' out ins /\ hget (glob w') = s /\
    (ret = BM_FAIL \/
     ret = BM_OK /\ request_ok SPI_RX_MODE d /\ u32 (sd_time_out d * 1000) <> 0) /\
    (out = [] /\ ins = [] /\ memof w' = memof w /\ ret = BM_FAIL \/
     out = [selected (sh_cs h); deselected] /\ request_ok SPI_RX_MODE d /\
     filled (r_buf d) (r_len d) (memof w) (memof w') ins)) w.
Proof.
  intros Hs Hl Hfuel Hmap.
  enough (does base (bm_spi_read fuel xfuel (Some h) (Some d)) s (memof w) (fun ret s' mu' out ins =>
    s' = s /\
    (ret = BM_FAIL \/
     ret = BM_OK /\ request_ok SPI_RX_MODE d /\ u32 (sd_time_out d * 1000) <> 0) /\
    (out = [] /\ ins = [] /\ mu' = memof w /\ ret = BM_FAIL \/
     out = [selected (sh_cs h); deselected] /\ request_ok SPI_RX_MODE d /\
     filled (r_buf d) (r_len d) (memof w) mu' ins))) as H.
  { eapply wp_mono; [by apply H |]. cbv beta. intros r w' (o & i & He & ?). eauto. }
  unfold bm_spi_read. apply does_bind, transfer_check_does; [by right; left | |];
    [intros Hok; change (BM_OK =? BM_FAIL) with false | intros _; change (BM_FAIL =? BM_FAIL) with true];
    cbv iota; [| apply does_ret; split_and!; auto].
  pose proof Hok as (Hh & _ & [Hm | (Hb & Hnz & Hdiv & _)]); [done |].
  apply does_bind. eapply does_some_or; [done |]. apply does_bind. eapply does_some_or; [done |].
  apply does_bind, frame_bits_does, locked_does; [done | cbn; split_and!; auto |].
  apply does_bind, cs_control_does; [done | by left | done |].
  apply receive_does; [done.. |]. intros r ins mu' Hr Hf. cbn [app]. split_and!; [done | |].
  - destruct Hr as [-> | [-> Ht]]; auto.
  - right. split; [done |]. done.
Qed.

(** a combined transfer sends its buffer and then receives.  When the
    bus is not idle in time after the sending, it fails with the chip left
    selected and nothing received; in every other case where the chip was
    selected it is deselected at the end. *)
Theorem spi_write_read_exchanges d bs (w : world G D) :
  hget (glob w) = s -> fits 32 (w_len d) -> fits 32 (r_len d) ->
  (Z.to_nat (w_len d) * n + n <= xfuel)%nat -> (Z.to_nat (r_len d) * n + n <= xfuel)%nat ->
  rd (memof w) (w_buf d) (Z.to_nat (w_len d)) = Some bs -> Forall (fits 8) bs ->
  mapped (memof w) (r_buf d) (r_len d) ->
  wp (bm_spi_write_read fuel xfuel (Some h) (Some d)) (fun ret w' => exists out ins,
    exchanged base w w' out ins /\ hget (glob w') = s /\
    (out = [] /\ ins = [] /\ memof w' = memof w /\ ret = BM_FAIL \/
     request_ok SPI_TX_RX_MODE d /\
     (out = selected (sh_cs h) :: data_written (frames fl bs) /\ ins = [] /\
      memof w' = memof w /\ ret = BM_FAIL \/
      out = selected (sh_cs h) :: data_written (frames fl bs) ++ [deselected] /\
      filled (r_buf d) (r_len d) (memof w) (memof w') ins /\
      u32 (sd_time_out d * 1000) <> 0))) w.
Proof.
  intros Hs Hlw Hlr Hfw Hfr Hbs Hby Hmap.
  enough (does base (bm_spi_write_read fuel xfuel (Some h) (Some d)) s (memof w)
    (fun ret s' mu' out ins => s' = s /\
    (out = [] /\ ins = [] /\ mu' = memof w /\ ret = BM_FAIL \/
     request_ok SPI_TX_RX_MODE d /\
     (out = selected (sh_cs h) :: data_written (frames fl bs) /\ ins = [] /\
      mu' = memof w /\ ret = BM_FAIL \/
      out = selected (sh_cs h) :: data_written (frames fl bs) ++ [deselected] /\
      filled (r_buf d) (r_len d) (memof w) mu' ins /\
      u32 (sd_time_out d * 1000) <> 0)))) as H.
  { eapply wp_mono; [by apply H |]. cbv beta. intros r w' (o & i & He & ?). eauto. }
  unfold bm_spi_write_read. apply does_bind, transfer_check_does; [by right; right | |];
    [intros Hok; change (BM_OK =? BM_FAIL) with false | intros _; change (BM_FAIL =? BM_FAIL) with true];
    cbv iota; [| apply does_ret; split_and!; auto].
  pose proof Hok as (Hh & [Hm | (_ & _ & Hdw & _)] & [Hm' | (_ & _ & Hdr & _)]); [done.. |].
  apply does_bind. eapply does_some_or; [done |]. apply does_bind. eapply does_some_or; [done |].
  apply does_bind, frame_bits_does, locked_does; [done | cbn; auto 6 |].
  apply does_bind, writel_does. apply does_bind, writel_does. cbn [app].
  match goal with |- does _ (_ ≫= fun _ => _ ≫= fun _ => _ ≫= ?k) _ _ _ =>
    apply (send_does d bs _ k) end; [done.. |].
  intros r Hr. destruct Hr as [-> | [-> Ht]].
  - change (ctrue BM_FAIL) with true. cbv iota. apply does_ret. cbn. rewrite app_nil_r.
    split; [done |]. right. split; [done |]. left. done.
  - change (ctrue BM_OK) with false. cbv iota. apply receive_does; [done.. |].
    intros r ins mu' Hr Hf. cbn [app]. split; [done |]. right. split; [done |]. right.
    split; [done |]. done.
Qed.
End Blocking.


(** ** Configuration *)
(** The field update of the driver is the update of a bit field. *)
Lemma set_field_bf v1 n1 n2 v2 : 0 <= n1 <= n2 -> n2 < 32 -> fits 32 v1 ->
  drv_32bit_set_field v1 n1 n2 v2 = bf_set n1 (n2 - n1 + 1) v2 v1.
Proof.
  intros Hn H32 Hv. unfold drv_32bit_set_field.
  assert (drv_32bit_mask n1 n2 = Z.shiftl (Z.ones (n2 - n1 + 1)) n1) as ->.
  { unfold drv_32bit_mask. rewrite !Z.shiftl_mul_pow2, Z.ones_equiv by lia.
    replace (n2 + 1) with ((n2 - n1 + 1) + n1) by lia. rewrite Z.pow_add_r by lia. lia. }
  unfold bf_set, bnot. apply Z.bits_inj'. intros i Hi. autorewrite with bits.
  destruct (Z.ltb_spec i 32), (Z.leb_spec n1 i), (Z.ltb_spec (i - n1) (n2 - n1 + 1));
    rewrite ?(fits_testbit 32 v1) by (done || lia); try lia; try btauto.
  rewrite ones_spec by lia. replace (i - n1 <? n2 - n1 + 1) with false by lia. btauto.
Qed.

Lemma set_field_fits v1 n1 n2 v2 : 0 <= n1 <= n2 -> n2 < 32 -> fits 32 v1 ->
  fits 32 (drv_32bit_set_field v1 n1 n2 v2).
Proof. intros. rewrite set_field_bf by done. apply bf_set_fits; done || lia. Qed.

(** The control word: frame length, polarity and edge as asked, Motorola
    frames, no loop back, all other bits as they were. *)
Lemma spi_ctrlr0_fields old dfs pol edge : fits 32 old -> fits 4 dfs ->
  0 <= pol <= 1 -> 0 <= edge <= 1 ->
  let v := spi_ctrlr0 old dfs pol edge in
  fits 32 v /\ bf_get 0 4 v = dfs /\ bf_get 7 1 v = pol /\ bf_get 6 1 v = edge /\
  bf_get 4 2 v = 0 /\ bf_get 11 1 v = 0 /\
  bf_get 8 3 v = bf_get 8 3 old /\ bf_get 12 20 v = bf_get 12 20 old.
Proof.
  intros Ho Hd Hp He. unfold spi_ctrlr0, CTRLR0_SRL_FIELD_BIT, CTRLR0_FRF_FIELD_START_BIT,
    CTRLR0_FRF_FIELD_END_BIT, CTRLR0_DFS_FIELD_START_BIT, CTRLR0_DFS_FIELD_END_BIT,
    CTRLR0_SCPOL_FIELD_BIT, CTRLR0_SCPH_FIELD_BIT, SPI_NOT_LOOP_BACK, SPI_DEFAULT_FRAME_FORMAT.
  rewrite !set_field_bf by
    first [lia | repeat first [apply bf_set_fits; [lia.. |] | apply set_field_fits; [lia.. |]]; done].
  cbv zeta. cbn [Z.sub Z.add Z.opp Z.pos_sub Pos.add Pos.succ Pos.pred_double].
  split; [repeat (apply bf_set_fits; [lia | lia | lia |]); done |].
  assert (wrap 1 pol = pol /\ wrap 1 edge = edge /\ wrap 4 dfs = dfs) as (E1 & E2 & E3)
    by (split_and!; apply wrap_id; unfold fits in *; simpl; lia).
  split_and!;
    repeat first [rewrite bf_get_set_eq by lia | rewrite bf_get_set_ne by lia]; done.
Qed.

(** A rate no divisor gives. *)
Definition no_divisor (baud : Z) : Prop :=
  baud = 0 \/ SYS_AHB_CLOCK_FREQ < SPI_MIN_DIV * baud \/
  (SPI_MAX_DIV + 1) * baud <= SYS_AHB_CLOCK_FREQ.
Definition divides_to (baud d : Z) : Prop :=
  d mod 2 = 0 /\ SPI_MIN_DIV <= d <= SPI_MAX_DIV /\
  baud * (d - 1) <= SYS_AHB_CLOCK_FREQ < baud * (d + 1).

(** The divisor is even, in range, and the nearest even number within one of
    the quotient; there is none exactly when the rate is zero, above a sixth
    of the bus clock, or below its 65535th part. *)
Lemma spi_divisor_spec baud : 0 <= baud ->
  match spi_divisor baud with Some d => divides_to baud d | None => no_divisor baud end.
Proof.
  intros Hb. unfold divides_to, no_divisor, spi_divisor, SPI_MIN_DIV, SPI_MAX_DIV. set (F := SYS_AHB_CLOCK_FREQ).
  destruct (Z.eqb_spec baud 0) as [| Hne]; [by left |].
  assert (baud * (F / baud) <= F < baud * (F / baud) + baud) as Hq
    by (pose proof (Z.mul_div_le F baud); pose proof (Z.mul_succ_div_gt F baud); lia).
  set (q := F / baud) in *. clearbody q. change (Z.land q 1) with (Z.land q (Z.ones 1)).
  rewrite Z.land_ones by lia. change (2 ^ 1) with 2.
  destruct (Z.ltb_spec q 6); cbn [orb]; [right; left; nia |].
  destruct (Z.ltb_spec 65534 q); [right; right; nia |].
  pose proof (Z.mod_pos_bound q 2 ltac:(lia)) as Hm. pose proof (Z.div_mod q 2 ltac:(lia)) as Hd.
  destruct (Z.eqb_spec (q mod 2) 0) as [E | E]; cbn [negb].
  - split_and!; [done | nia ..].
  - assert (q mod 2 = 1) as E1 by lia. split_and!; try nia.
    rewrite Z.add_mod, E1 by lia. done.
Qed.

(** *** Initialisation: every write into the controller's block *)
Definition spi_all (off v : Z) : option (Z * Z) :=
  if (0 <=? off) && (off <? 0x1000) then Some (off, v) else None.
#[local] Instance spi_all_in_block : OutInBlock spi_all.
Proof. intros off v H. unfold spi_all. by replace (_ && _) with false by lia. Qed.
Abbreviation programmed := (Serial.exchanged spi_all SPI_DR0_OFFSET_ADDR spi_regs).

Section Init.
Context {G D : Type} `{MD : Machine D} `{HM : !Has G mem} `{HS : !Has G spi}
  `{IN : !Indep G spi mem} `{OS : !Os G D} `{SC : SpiConfig}.
Implicit Types (w : world G D) (s : spi) (mu : mem).
Abbreviation does := (Serial.does (G := G) (D := D) (S := spi) (out_of := spi_all)
  (dr := SPI_DR0_OFFSET_ADDR) (regs := spi_regs)).
Abbreviation away base := (outside base (base + 0x1000)).

Context (id : Z) (p : spi_peripheral) (Hp : g_spi_peripheral_info !! Z.to_nat id = Some p)
  (Hid : 0 <= id < 2).
Abbreviation base := (per_base p).
Context (L1 : OsLaws G D spi (away base)) (L2 : OsLaws G D mem (away base)).

Lemma spi_base_cases : id = 0 /\ p = SpiPeripheral 0 0x8713000 146 \/
  id = 1 /\ p = SpiPeripheral 1 0x8715000 171.
Proof.
  assert (id = 0 \/ id = 1) as [-> | ->] by lia; injection Hp as <-; auto.
Qed.

(** Pins and the subsystem registers are outside the block. *)
Lemma spi_pin_quiet {S} `{!Has G S} tbl i q : tbl !! Z.to_nat i = Some q -> 0 <= sm_offset q < 0x100 ->
  quiet (G := G) (D := D) S (away base) (spi_pin id tbl i).
Proof.
  intros Hq Ho. unfold spi_pin. rewrite Hq. cbn [some_or]. rewrite bind_ret.
  assert (forall type b mask val, g_io_config_base !! Z.to_nat type = Some b -> type <= 1 ->
    b = 0x876e000 \/ b = 0x8745000 ->
    quiet (G := G) (D := D) S (away base) (bm_io_config_read_write type (sm_offset q) mask val)) as Hrw.
  { intros type b mask val Hb Ht Hb'. unfold bm_io_config_read_write, io_config_addr, IO_CONFIG_T.
    replace (1 <? type) with false by lia. rewrite Hb. cbn [some_or]. rewrite !bind_ret.
    rewrite (wrap_id 64) by (unfold fits; lia).
    destruct spi_base_cases as [[_ ->] | [_ ->]]; cbn [per_base]; quiet_steps; simpl; lia. }
  destruct spi_base_cases as [[-> _] | [-> _]]; cbn [Z.eqb SPI_ID0]; (apply quiet_bind; [| intros; apply quiet_ret]);
    (eapply Hrw; [reflexivity | done | auto]).
Qed.

Ltac spi_cases := destruct spi_base_cases as [[-> ->] | [-> ->]].

Lemma spi_lp_quiet {S} `{!Has G S} (dev : spi_device) :
  sd_id dev = id -> length (sd_cs_id dev) = 2%nat ->
  quiet (G := G) (D := D) S (away base) (bm_spi_iomux_lp_config dev).
Proof.
  intros Hdid Hl. unfold bm_spi_iomux_lp_config, spi_io_config, spi_ctl_pins. cbv zeta. rewrite !Hdid.
  assert (forall i, i = 0 \/ i = 1 \/ i = 2 ->
    quiet (G := G) (D := D) S (away base) (spi_pin id g_spi_iomux_tbl (id * SPI_CTL_PIN_NUM + i))) as H1.
  { intros i Hi. destruct spi_base_cases as [[E _] | [E _]]; rewrite E; rewrite <- E at 1;
      destruct Hi as [-> | [-> | ->]]; (eapply spi_pin_quiet; [reflexivity | simpl; lia]). }
  assert (forall i, i = 0 \/ i = 1 ->
    quiet (G := G) (D := D) S (away base) (spi_pin id g_spi_cs_iomux_tbl (id * SPI_CS_PIN_NUM + i))) as H2.
  { intros i Hi. destruct spi_base_cases as [[E _] | [E _]]; rewrite E; rewrite <- E at 1;
      destruct Hi as [-> | ->]; (eapply spi_pin_quiet; [reflexivity | simpl; lia]). }
  apply quiet_bind; [apply quiet_bind; [| intros _] | intros _].
  - apply quiet_for_up. intros i Hi. apply H1. unfold SPI_CTL_PIN_NUM in Hi. lia.
  - apply quiet_for_up. intros i Hi. unfold SPI_CS_PIN_NUM in Hi.
    destruct (lookup_lt_is_Some_2 (sd_cs_id dev) (Z.to_nat i)) as [c ->]; [lia |].
    cbn [some_or]. rewrite bind_ret. apply quiet_when, H2. lia.
  - unfold bm_lp_subsys_reg_read_write, bm_lp_subsys_reg_set_bits, csr_reg_read_write, csr_reg_set_bits.
    clear H1 H2. spi_cases; quiet_steps;
      vm_compute; first [left; reflexivity | right; discriminate].
Qed.

Lemma coreid_quiet {S} `{!Has G S} : quiet (G := G) (D := D) S (away base) bm_get_coreid.
Proof. unfold bm_get_coreid. quiet_steps. done. Qed.

(** What a configuration writes, in order. *)
Definition set_up (ctrlr0 : Z) : list (Z * Z) :=
  [(SPI_SSIENR_OFFSET_ADDR, SPI_DISEN); (SPI_CTRLR0_OFFSET_ADDR, ctrlr0); (SPI_CTRLR1_OFFSET_ADDR, 0);
   (SPI_RXFTLR_OFFSET_ADDR, 0); (SPI_TXFTLR_OFFSET_ADDR, 0)].
Definition set_clock (divisor thr : Z) : list (Z * Z) :=
  [(SPI_BAUDR_OFFSET_ADDR, divisor); (SPI_SER_OFFSET_ADDR, 0); (SPI_IMR_OFFSET_ADDR, 0);
   (SPI_RXFTLR_OFFSET_ADDR, thr); (SPI_TXFTLR_OFFSET_ADDR, 0)].
Definition set_going : list (Z * Z) := [(SPI_SSIENR_OFFSET_ADDR, SPI_EN)].

Definition cfg_ok (cfg : bm_spi_cfg) : Prop :=
  1 <= sc_cs_map cfg <= 3 /\ spi_exist_array !! Z.to_nat (sc_id cfg) = Some true /\
  0 <= sc_frame_len cfg <= 2 /\ 0 <= sc_clk_edge cfg <= 1 /\ 0 <= sc_clk_pol cfg <= 1 /\
  0 <= sc_rx_threshold cfg <= 31.

(** The control word asked for: everything but the configured fields is what
    the register held. *)
Definition asked_ctrlr0 (cfg : bm_spi_cfg) (v : Z) : Prop :=
  bf_get 0 4 v = default 0 ([0x3; 0x7; 0xf] !! Z.to_nat (sc_frame_len cfg)) /\
  bf_get 7 1 v = sc_clk_pol cfg /\ bf_get 6 1 v = sc_clk_edge cfg /\
  bf_get 4 2 v = 0 /\ bf_get 11 1 v = 0 /\
  exists old, fits 32 old /\ bf_get 8 3 v = bf_get 8 3 old /\ bf_get 12 20 v = bf_get 12 20 old.

Section Config.
Context (s : spi) (dev : spi_device) (Hdev : g_spi_devices_info s !! Z.to_nat id = Some dev)
  (Hbase : sd_base dev = base) (Hdid : sd_id dev = id).

Lemma cfg_get_dev mu (Q : spi_device -> spi -> mem -> list (Z * Z) -> list Z -> Prop) :
  Q dev s mu [] [] -> does base (get_dev id) s mu Q.
Proof. intros HQ. apply does_bind, does_gets. by eapply does_some_or. Qed.

Lemma cfg_readl off mu (Q : Z -> spi -> mem -> list (Z * Z) -> list Z -> Prop) :
  InBlock off -> off ∈ spi_regs -> off <> SPI_DR0_OFFSET_ADDR ->
  (forall v, fits 32 v -> Q v s mu [] []) -> does base (spi_readl id off) s mu Q.
Proof.
  intros Ho Hr Hne HQ. apply does_bind, cfg_get_dev. rewrite Hbase. apply does_readl; [done | done |].
  intros v Hv. replace (off =? SPI_DR0_OFFSET_ADDR) with false by lia. by apply HQ.
Qed.

Lemma cfg_writel v off mu (Q : unit -> spi -> mem -> list (Z * Z) -> list Z -> Prop) :
  InBlock off -> fits 32 v -> Q tt s mu [(off, v)] [] -> does base (spi_writel id v off) s mu Q.
Proof.
  unfold InBlock. intros Ho Hv HQ. apply does_bind, cfg_get_dev. rewrite Hbase. apply does_writel.
  unfold spi_all. rewrite (wrap_id 32) by done. by replace (_ && _) with true by lia.
Qed.

Lemma ctrl_config_does cfg mu (Q : Z -> spi -> mem -> list (Z * Z) -> list Z -> Prop) :
  sc_id cfg = id -> cfg_ok cfg -> 0 <= sc_baud cfg ->
  (forall v, asked_ctrlr0 cfg v ->
     (no_divisor (sc_baud cfg) -> Q BM_FAIL s mu (set_up v) []) /\
     (forall dv, divides_to (sc_baud cfg) dv ->
         Q BM_FAIL s mu (set_up v ++ set_clock dv (sc_rx_threshold cfg)) [] /\
         Q BM_OK s mu (set_up v ++ set_clock dv (sc_rx_threshold cfg) ++ set_going) [])) ->
  does base (bm_spi_ctrl_reg_config cfg) s mu Q.
Proof.
  intros Hcid (_ & _ & Hfr & Hed & Hpo & Hth) Hbaud HQ. unfold bm_spi_ctrl_reg_config. rewrite Hcid.
  apply does_bind, cfg_get_dev. cbv zeta. rewrite Hdid.
  apply does_bind, cfg_writel; [split; done | split; done |].
  apply does_bind, cfg_readl; [split; done | spi_reg | done |]. intros old Hold.
  destruct (lookup_lt_is_Some_2 spi_frame_len_tbl (Z.to_nat (sc_frame_len cfg))) as [dfs Hdfs].
  { simpl. lia. }
  assert (fits 4 dfs) as Hd4.
  { destruct (Z.to_nat (sc_frame_len cfg)) as [| [| [| ]]]; simpl in Hdfs; try injection Hdfs as <-;
      try (split; done). }
  specialize (HQ (spi_ctrlr0 old dfs (sc_clk_pol cfg) (sc_clk_edge cfg))).
  pose proof (spi_ctrlr0_fields old dfs (sc_clk_pol cfg) (sc_clk_edge cfg) Hold Hd4 Hpo Hed)
    as (Hfit & Hf1 & Hf2 & Hf3 & Hf4 & Hf5 & Hf6 & Hf7).
  apply does_bind. eapply does_some_or; [exact Hdfs |].
  apply does_bind, cfg_writel; [split; done | done |].
  do 3 (apply does_bind, cfg_writel; [split; done | split; done |]).
  assert (asked_ctrlr0 cfg (spi_ctrlr0 old dfs (sc_clk_pol cfg) (sc_clk_edge cfg))) as Hask.
  { unfold asked_ctrlr0. rewrite Hf1. change [0x3; 0x7; 0xf] with spi_frame_len_tbl. rewrite Hdfs.
    split_and!; eauto. }
  specialize (HQ Hask). clear Hask. unfold bm_spi_baudrate_cfg.
  pose proof (spi_divisor_spec (sc_baud cfg) Hbaud) as Hdv.
  destruct (spi_divisor (sc_baud cfg)) as [dv |].
  2: { apply does_bind, does_ret. change (ctrue BM_FAIL) with true. cbv iota. by apply does_ret, HQ. }
  apply proj2 in HQ. destruct (HQ dv Hdv) as [HF HK]. destruct Hdv as (_ & Hdr & _). unfold SPI_MIN_DIV, SPI_MAX_DIV in Hdr.
  apply does_bind, does_bind, cfg_writel; [split; done | unfold fits; lia |]. apply does_ret.
  change (ctrue BM_OK) with false. cbv iota.
  apply does_bind, cfg_writel; [split; done | split; done |].
  apply does_bind, does_bind, cfg_readl; [split; done | spi_reg | done |]. intros imr Himr.
  change (bnot 32 0xffffffff) with 0. rewrite Z.land_0_r. apply cfg_writel; [split; done | split; done |].
  apply does_bind, cfg_writel; [split; done | unfold fits; lia |].
  apply does_bind, cfg_writel; [split; done | split; done |].
  assert (exists irq, g_irq_num_array !! Z.to_nat id = Some irq /\ shared irq) as (irq & Hirq & Hsh).
  { unfold shared, Gic.MIN_SPI_ID, Gic.MAX_INT_NUM.
    destruct spi_base_cases as [[-> _] | [-> _]]; eexists; (split; [reflexivity | lia]). }
  apply does_bind. eapply does_some_or; [exact Hirq |].
  apply does_bind, does_quiet; [by apply ol_irq_set_priority.. |]. intros _.
  apply does_bind, does_quiet; [by apply ol_irq_free.. |]. intros _.
  apply does_bind, does_quiet; [by apply ol_irq_request.. |]. intros r1.
  destruct (ctrue r1); [by apply does_ret |].
  apply does_bind, does_quiet; [apply coreid_quiet.. |]. intros core.
  apply does_bind, does_quiet; [by apply ol_irq_set_affinity.. |]. intros r2.
  destruct (ctrue r2) eqn:E2; [by apply does_ret |].
  assert (r2 = BM_OK) as -> by (unfold ctrue in E2; unfold BM_OK; lia).
  apply does_bind, does_quiet; [by apply ol_irq_enable.. |]. intros _.
  apply does_bind, cfg_writel; [split; done | split; done |]. apply does_ret. exact HK.
Qed.
End Config.

Lemma init_check_does cfg s mu (Q : Z -> spi -> mem -> list (Z * Z) -> list Z -> Prop) :
  sc_id cfg = id ->
  0 <= sc_frame_len cfg -> 0 <= sc_clk_edge cfg -> 0 <= sc_clk_pol cfg -> 0 <= sc_rx_threshold cfg ->
  (cfg_ok cfg -> Q BM_OK s mu [] []) -> (~ cfg_ok cfg -> Q BM_FAIL s mu [] []) ->
  does base (bm_spi_init_param_check (Some cfg)) s mu Q.
Proof.
  intros Hcid Hfr Hed Hpo Hth Hok Hbad. unfold bm_spi_init_param_check, cfg_ok in *.
  unfold HISPI_CS_ALL_SELECT, HISPI_CS0_SELECT, SPI_MAX_CTL, HISPI_FRAME_LENGTH_4_BIT,
    HISPI_FRAME_LENGTH_16_BIT, HISPI_CLOCK_EDGEERR, HISPI_IDLE_CLOCK_POLARITYERR, SPI_RX_FIFO_SIZE.
  destruct (_ || _) eqn:E1; [apply does_ret, Hbad; intros (? & _); lia |].
  replace (2 <=? sc_id cfg) with false by lia.
  destruct (lookup_lt_is_Some_2 spi_exist_array (Z.to_nat (sc_id cfg))) as [e He].
  { rewrite spi_exist_length. lia. }
  apply does_bind. eapply does_some_or; [exact He |].
  destruct e; cbn [negb]; [| apply does_ret, Hbad; intros (_ & He' & _); congruence].
  destruct ((_ <? 0) || _) eqn:E2; [apply does_ret, Hbad; lia |].
  destruct (Z.leb_spec 2 (sc_clk_edge cfg)); [apply does_ret, Hbad; lia |].
  destruct (Z.leb_spec 2 (sc_clk_pol cfg)); [apply does_ret, Hbad; lia |].
  destruct (Z.ltb_spec (32 - 1) (sc_rx_threshold cfg)); [apply does_ret, Hbad; lia |].
  apply does_ret, Hok. split_and!; done || lia.
Qed.

(** The lock is there afterwards, or the call fails. *)
Lemma lock_make_does li s mu (Q : bool -> spi -> mem -> list (Z * Z) -> list Z -> Prop) :
  g_spi_lock_init s !! Z.to_nat id = Some li ->
  (li = 0 -> Q false s mu [] []) ->
  (forall s', g_spi_devices_info s' = g_spi_devices_info s -> Q true s' mu [] []) ->
  does base (spi_lock_make id) s mu Q.
Proof.
  intros Hli HF HT. unfold spi_lock_make, get_lock_init.
  apply does_bind, does_bind, does_gets. eapply does_some_or; [exact Hli |]. unfold ctrue.
  destruct (Z.eqb_spec li 0); cbn [negb]; [| by apply does_ret, HT].
  apply does_bind, does_quiet; [apply ol_sem_init.. |]. intros r.
  destruct (_ =? _); [| by apply does_ret, HF]. apply does_bind, does_modg. by apply does_ret, HT.
Qed.

(** initialisation.  A configuration out of range, and a controller that
    is initialised already, are refused and nothing changes.  Otherwise the
    controller is disabled while its format, thresholds and clock are set: the
    divisor is the even one nearest the rate asked for; only after the
    interrupt has been set up is it enabled.  A rate that no divisor gives, and
    an interrupt that cannot be set up, fail the call but leave the controller
    marked as initialised, with its clock unset or not enabled. *)
Theorem spi_init_programs cfg dev0 flag0 li (w : world G D) :
  let s := hget (S := spi) (glob w) in
  sc_id cfg = id -> 0 <= sc_baud cfg ->
  0 <= sc_frame_len cfg -> 0 <= sc_clk_edge cfg -> 0 <= sc_clk_pol cfg -> 0 <= sc_rx_threshold cfg ->
  g_spi_devices_info s !! Z.to_nat id = Some dev0 -> sd_init_flag dev0 !! Z.to_nat id = Some flag0 ->
  g_spi_lock_init s !! Z.to_nat id = Some li ->
  wp (bm_spi_init (Some cfg)) (fun ret w' => exists out,
    programmed base w w' out [] /\ memof w' = memof w /\
    (~ (cfg_ok cfg /\ flag0 = 0) -> ret = BM_FAIL /\ out = [] /\ hget w'.(glob) = s) /\
    (cfg_ok cfg -> flag0 = 0 ->
     ret = BM_FAIL /\ out = [] \/
     g_spi_devices_info (hget w'.(glob)) !! Z.to_nat id
       = Some (with_init_flag id 1 (spi_fresh p (sc_cs_map cfg))) /\
     exists v, asked_ctrlr0 cfg v /\
     (no_divisor (sc_baud cfg) /\ ret = BM_FAIL /\ out = set_up v \/
      exists dv, divides_to (sc_baud cfg) dv /\
      (ret = BM_FAIL /\ out = set_up v ++ set_clock dv (sc_rx_threshold cfg) \/
       ret = BM_OK /\ out = set_up v ++ set_clock dv (sc_rx_threshold cfg) ++ set_going)))) w.
Proof.
  intros s Hcid Hbaud Hfr Hed Hpo Hth Hdev Hflag Hli.
  enough (does base (bm_spi_init (Some cfg)) s (memof w) (fun ret s' mu' out i =>
    i = [] /\ mu' = memof w /\
    (~ (cfg_ok cfg /\ flag0 = 0) -> ret = BM_FAIL /\ out = [] /\ s' = s) /\
    (cfg_ok cfg -> flag0 = 0 ->
     ret = BM_FAIL /\ out = [] \/
     g_spi_devices_info s' !! Z.to_nat id
       = Some (with_init_flag id 1 (spi_fresh p (sc_cs_map cfg))) /\
     exists v, asked_ctrlr0 cfg v /\
     (no_divisor (sc_baud cfg) /\ ret = BM_FAIL /\ out = set_up v \/
      exists dv, divides_to (sc_baud cfg) dv /\
      (ret = BM_FAIL /\ out = set_up v ++ set_clock dv (sc_rx_threshold cfg) \/
       ret = BM_OK /\ out = set_up v ++ set_clock dv (sc_rx_threshold cfg) ++ set_going))))) as H.
  { eapply wp_mono; [by apply H |]. cbv beta. intros r w' (o & i & He & -> & ? & ? & ?). eauto 6. }
  unfold bm_spi_init. apply does_bind, init_check_does; [done.. | |]; intros Hok.
  2: { change (negb (BM_FAIL =? BM_OK)) with true. cbv iota. apply does_ret.
       split_and!; [done | done | auto | intros Hok'; by destruct Hok]. }
  change (negb (BM_OK =? BM_OK)) with false. cbv iota.
  apply does_bind. eapply does_some_or; [done |]. cbv zeta. rewrite Hcid.
  apply does_bind, does_bind, does_gets. eapply does_some_or; [exact Hdev |].
  apply does_bind. eapply does_some_or; [exact Hflag |].
  destruct (Z.eqb_spec flag0 0) as [-> | Hne].
  2: { unfold ctrue. replace (flag0 =? 0) with false by lia. apply does_ret.
       split_and!; [done | done | auto | intros _ Hz; done]. }
  change (ctrue 0) with false. cbv iota. apply does_bind, does_modg.
  pose proof (lookup_lt_Some _ _ _ Hdev) as Hlen.
  apply does_bind, (lock_make_does li); [done | |].
  - intros _. apply does_ret. cbn. split_and!; [done | done | intros Hn; by destruct Hn | auto].
  - intros s1 Hs1. cbn [negb]. apply does_bind. eapply does_some_or; [exact Hp |].
    apply does_bind, does_modg. set (dev := with_init_flag id 1 (spi_fresh p (sc_cs_map cfg))).
    assert (sd_base dev = base /\ sd_id dev = id /\ length (sd_cs_id dev) = 2%nat) as (E1 & E2 & E3).
    { subst dev. split_and!; [done | | done].
      by destruct spi_base_cases as [[E1 E2] | [E1 E2]]; rewrite E2, E1. }
    apply does_bind, does_quiet; [by apply spi_lp_quiet.. |]. intros _.
    assert (g_spi_devices_info (set_dev id dev s1) !! Z.to_nat id = Some dev) as Hget.
    { cbn. apply list_lookup_insert_eq. rewrite Hs1. cbn. by rewrite length_insert. }
    apply (ctrl_config_does _ dev Hget E1 E2); [done | done | done |].
    intros v Hv. split.
    + intros Hnd. cbn [app]. split_and!; [done | done | intros Hn; by destruct Hn |]. intros _ _. right.
      split; [done |]. exists v. split; [done |]. left. done.
    + intros dv Hdv. cbn [app]. split; (split_and!; [done | done | intros Hn; by destruct Hn |]);
        intros _ _; right; (split; [done |]); exists v; (split; [done |]); right; exists dv; auto.
Qed.
End Init.

(** ** Witnesses

    Controller 0 with 16-bit frames; its transmit FIFO is always empty, its
    receive FIFO always holds 0x4241, it is never busy; the clock stands still. *)
#[local] Existing Instance no_os.
#[local] Existing Instance no_os_laws.
#[local] Instance spi_segment : Xfer :=
  {| xfer_segment_start := 0x90000000; xfer_segment_end := 0x91000000 |}.
#[local, refine] Instance spi_both : SpiConfig :=
  {| spi_exist_array := [true; true]; spi_sem id := 0x1000 + 8 * id; spi_isr := 0x2000;
     spi_id_addr id := 0x3000 + 0x60 * id; spi_dma_finish := 0x4000 |}.
Proof. reflexivity. Defined.

Definition spi_answers (a : Z) : Z :=
  if a =? 0x8713000 then 0xf else if a =? 0x8713024 then 1
  else if a =? 0x8713060 then 0x4241 else 0.
Abbreviation spi_dev := (fixed spi_answers (fun _ => 0)).
Definition spi_dev0 : spi_device := with_init_flag 0 1 (spi_fresh (SpiPeripheral 0 0x8713000 146) 1).
Definition spi_ready : spi := set_dev 0 spi_dev0 spi_init_state.
Definition spi_world (s : spi) : world (mem * spi) spi_dev :=
  World (wr ∅ 0x90000000 [1; 2; 3; 4], s) Fixed [].

Lemma spi_settles a more : more (u32 (spi_answers a)) = false -> settles_in (D := spi_dev) 1 a more.
Proof. intros H d. exists O. split; [lia | exact H]. Qed.


(** A transmit FIFO that is never empty: the write hangs. *)
Definition spi_full_answers (a : Z) : Z := if a =? 0x8713020 then 1 else spi_answers a.
Example spi_write_hangs :
  bm_spi_write 1 1000 (Some (SpiHandle 0 1)) (Some (SpiData 0 0 0x90000000 4 1))
    (World (glob (spi_world spi_ready)) (Fixed : fixed spi_full_answers (fun _ => 0)) []) = Fault NoFuel.
Proof. vm_compute. reflexivity. Qed.

Lemma spi_read_receives_witness :
  wp (bm_spi_read 1 5 (Some (SpiHandle 0 1)) (Some (SpiData 0x90000000 4 0 0 1))) (fun ret w' =>
    ret = BM_OK -> exists ins, length ins = 2%nat /\
    memof w' = wr (memof (spi_world spi_ready)) 0x90000000 (unframe 0xf ins)) (spi_world spi_ready).
Proof.
  eapply wp_mono.
  - apply (spi_read_receives 1 5 spi_ready (SpiHandle 0 1) spi_dev0 1 1 0xf eq_refl eq_refl
      (still_delay _) (spi_settles _ _ eq_refl) (fun d => eq_refl)
      (conj no_os_laws no_os_laws) ltac:(simpl; lia)
      (SpiData 0x90000000 4 0 0 1) (spi_world spi_ready)).
    + reflexivity.
    + split; simpl; lia.
    + simpl. lia.
    + apply mapped_block; simpl; lia.
  - cbv beta. intros ret w' (out & ins & _ & _ & _ & Ho) ->.
    destruct Ho as [(_ & _ & _ & H) | (_ & _ & [Hl Hm])]; [discriminate H |]. exists ins.
    split; [| exact Hm]. rewrite length_unframe in Hl. change (frame_step 0xf) with 2 in Hl.
    simpl in Hl. lia.
Defined.

(** These transfers do succeed. *)
Example spi_transfers_succeed :
  result (bm_spi_write 1 5 (Some (SpiHandle 0 1)) (Some (SpiData 0 0 0x90000000 4 1)) (spi_world spi_ready))
    = Some BM_OK /\
  result (bm_spi_read 1 5 (Some (SpiHandle 0 1)) (Some (SpiData 0x90000000 4 0 0 1)) (spi_world spi_ready))
    = Some BM_OK.
Proof. vm_compute. split; reflexivity. Qed.

(** A combined transfer with no time to wait. *)
Lemma spi_write_read_exchanges_witness :
  wp (bm_spi_write_read 1 5 (Some (SpiHandle 0 0)) (Some (SpiData 0x90000000 2 0x90000002 2 0)))
    (fun ret w' => exists out ins, exchanged 0x8713000 (spi_world spi_ready) w' out ins /\
      ins = [] /\ (out = [] \/ out = [selected 0; (SPI_DR0_OFFSET_ADDR, 0x403)])) (spi_world spi_ready).
Proof.
  eapply wp_mono.
  - apply (spi_write_read_exchanges 1 5 spi_ready (SpiHandle 0 0) spi_dev0 1 1 0xf eq_refl eq_refl
      (still_delay _) (spi_settles _ _ eq_refl) (spi_settles _ _ eq_refl) (fun d => eq_refl)
      (conj no_os_laws no_os_laws) ltac:(simpl; lia)
      (SpiData 0x90000000 2 0x90000002 2 0) [3; 4] (spi_world spi_ready)).
    + reflexivity.
    + split; simpl; lia.
    + split; simpl; lia.
    + simpl. lia.
    + simpl. lia.
    + reflexivity.
    + repeat constructor; lia.
    + apply mapped_block; simpl; lia.
  - cbv beta. intros ret w' (out & ins & He & _ & Ho). exists out, ins. split; [exact He |].
    destruct Ho as [(-> & -> & _) | (_ & [(-> & -> & _) | (_ & _ & H)])]; auto. by destruct H.
Defined.

Lemma spi_init_programs_witness :
  wp (bm_spi_init (Some (SpiCfg 0 20000000 1 1 0 0 0))) (fun ret w' => ret = BM_OK ->
    exists v, bf_get 0 4 v = 7 /\
      programmed 0x8713000 (spi_world spi_init_state) w' (set_up v ++ set_clock 10 0 ++ set_going) [])
    (spi_world spi_init_state).
Proof.
  eapply wp_mono.
  - apply (spi_init_programs 0 (SpiPeripheral 0 0x8713000 146) eq_refl ltac:(lia)
      no_os_laws no_os_laws (SpiCfg 0 20000000 1 1 0 0 0) zero_device 0 0 (spi_world spi_init_state));
      (reflexivity || (simpl; lia)).
  - cbv beta. intros ret w' (out & He & _ & _ & Ho) ->.
    destruct Ho as [[H _] | (_ & v & Hv & Ho)]; [| reflexivity | discriminate H |].
    + split_and!; simpl; try lia. reflexivity.
    + exists v. split; [exact (proj1 Hv) |].
      destruct Ho as [(_ & H & _) | (dv & (Hd1 & Hd2 & Hd3) & [[H _] | [_ ->]])];
        [discriminate H | discriminate H |].
      assert (dv = 10) as ->; [| exact He]. unfold SYS_AHB_CLOCK_FREQ in Hd3. simpl in Hd3.
      assert (9 < dv < 12) by lia. assert (dv = 10 \/ dv = 11) as [-> | ->] by lia; [done | discriminate Hd1].
Defined.
