(* ===== verification/LocalBus.v ===== *)
(** * LocalBus: the local bus (drivers/local_bus/localbus.c, include/bm_localbus.h)

    Four chip selects, each with a window of the address space.  A client
    registers a table of functions for a chip select; reading, writing and
    erasing go to the table of the chip select.  The tables and the objects
    the client registers are the client's: they are found by address
    ([lb_objs], [lb_tables]), and the client's functions are parameters. *)
From stdpp Require Import prelude gmap list.
From Stdlib Require Import ZArith Lia.
From S2P Require Import Prelude Hw Common.
Local Open Scope Z_scope.

(** ** localbus.h, bm_localbus.h *)
Definition LB_BASE_ADDR : Z := 0x8712000.
Definition LB_CS1_CTRL_OFFSET_ADDR : Z := 0x24.
Definition LOCALBUS_IOMUX_PIN_NUM : Z := 20.
Definition LB_REG_CF_DATA_WID_BITS : Z := 3.
Definition LB_REG_CF_DATA_WID_POS : Z := 5.
Definition LOCALBUS_CS_NUM : Z := 4.
Definition LOCALBUS_WIDTH_8 : Z := 0.
Definition LOCALBUS_WIDTH_16 : Z := 1.

Record localbus_csi := LocalbusCsi {
  csi_cs : Z;
  csi_start : Z;
  csi_size : list Z;
  csi_width : Z;
  cs_control : Z;
  csi_control : Z;
}.
Record localbus_ops := LocalbusOps {
  op_read : Z; op_write : Z; op_erase : Z; op_probe : Z; op_destroy : Z;
}.
(** [lo_csi] is the index in the table of windows. *)
Record localbus_cs_ops := LocalbusCsOps { lo_cs : Z; lo_csi : option Z; lo_ops : Z }.

Definition localbus_windows : list localbus_csi :=
  [LocalbusCsi 0 0x30000000 [0x10000000; 0x8000000; 0; 0] 0 0x20 0xCC;
   LocalbusCsi 1 0x40000000 [0x10000000; 0x8000000; 0; 0] 0 0x24 0xCC;
   LocalbusCsi 2 0x50000000 [0x8000000; 0x4000000; 0; 0] 0 0x28 0xCC;
   LocalbusCsi 3 0x58000000 [0x8000000; 0x4000000; 0; 0] 0 0x2C 0xCC].

Definition g_localbus_iocfg : list (list Z) :=
  [[0x876e000; 0x876e004; 0x876e00c; 0x876e010; 0x876e014; 0x876e018; 0x876e044; 0x876e048; 0x876e04c; 0x876e050;
    0x876e054; 0x876e074; 0x876e078; 0x876e07c; 0x876e080; 0x876e084; 0x876e088; 0x876e08c; 0x876e090; 0x876e098];
   [0x876e000; 0x876e008; 0x876e00c; 0x876e010; 0x876e014; 0x876e018; 0x876e044; 0x876e048; 0x876e04c; 0x876e050;
    0x876e054; 0x876e074; 0x876e078; 0x876e07c; 0x876e080; 0x876e084; 0x876e088; 0x876e08c; 0x876e090; 0x876e098];
   [0x876e000; 0x876e00c; 0x876e010; 0x876e014; 0x876e018; 0x876e044; 0x876e048; 0x876e04c; 0x876e050; 0x876e054;
    0x876e074; 0x876e078; 0x876e07c; 0x876e080; 0x876e084; 0x876e088; 0x876e08c; 0x876e090; 0x876e094; 0x876e098];
   [0x876e000; 0x876e00c; 0x876e010; 0x876e014; 0x876e018; 0x876e044; 0x876e048; 0x876e04c; 0x876e050; 0x876e054;
    0x876e070; 0x876e074; 0x876e078; 0x876e07c; 0x876e080; 0x876e084; 0x876e088; 0x876e08c; 0x876e090; 0x876e098]].

(** ** The state: [g_localbus_csi], [g_localbus_cs_ops], and the client's objects *)
Record localbus := Localbus {
  g_localbus_csi : list localbus_csi;
  g_localbus_cs_ops : list Z;
  lb_objs : gmap Z localbus_cs_ops;
  lb_tables : gmap Z localbus_ops;
}.
Definition localbus_init_state : localbus := Localbus localbus_windows (replicate 4 NULL) ∅ ∅.

(** Which boards have the bus. *)
Class LocalbusConfig := { localbus_exist_array : list Z }.

Definition with_width (v : Z) (c : localbus_csi) : localbus_csi :=
  LocalbusCsi (csi_cs c) (csi_start c) (csi_size c) v (cs_control c) (csi_control c).
Definition set_width (i v : Z) (s : localbus) : localbus :=
  Localbus (alter (with_width v) (Z.to_nat i) (g_localbus_csi s)) (g_localbus_cs_ops s) (lb_objs s) (lb_tables s).
Definition set_cs_ops (cs p : Z) (s : localbus) : localbus :=
  Localbus (g_localbus_csi s) (<[Z.to_nat cs := p]> (g_localbus_cs_ops s)) (lb_objs s) (lb_tables s).
Definition set_csi (p i : Z) (s : localbus) : localbus :=
  Localbus (g_localbus_csi s) (g_localbus_cs_ops s)
    (alter (fun o => LocalbusCsOps (lo_cs o) (Some i) (lo_ops o)) p (lb_objs s)) (lb_tables s).

Section Bus.
Context {G D : Type} `{MD : Machine D} `{HS : !Has G localbus} `{XF : Xfer} `{LC : LocalbusConfig}.
Abbreviation M := (M G D).
(** The client's functions, by address: [read] and [write], [erase], [probe], [destroy]. *)
Context (call_rw : Z -> Z -> Z -> Z -> Z -> M Z) (call_erase : Z -> Z -> Z -> Z -> M Z).
Context (call_probe : Z -> Z -> M Z) (call_destroy : Z -> Z -> M unit).

(** [*p] *)
Definition lb_obj (p : Z) : M localbus_cs_ops :=
  s ← gets (S := localbus);
  if p =? NULL then fail NullDeref else some_or Unmapped (lb_objs s !! p).
Definition lb_table (t : Z) : M localbus_ops :=
  s ← gets (S := localbus);
  if t =? NULL then fail NullDeref else some_or Unmapped (lb_tables s !! t).
Definition lb_csi (i : Z) : M localbus_csi :=
  s ← gets (S := localbus); some_or OutOfBounds (g_localbus_csi s !! Z.to_nat i).
Definition lb_slot (cs : Z) : M Z :=
  s ← gets (S := localbus); some_or OutOfBounds (g_localbus_cs_ops s !! Z.to_nat cs).
Definition lb_absent : M bool :=
  e ← some_or OutOfBounds (localbus_exist_array !! 0%nat); mret (negb (ctrue e)).

Definition localbus_init_csi : M unit :=
  s ← gets (S := localbus);
  for_up (length (g_localbus_csi s)) 0 (fun cnt =>
    csi ← lb_csi cnt;
    val ← readl (LB_BASE_ADDR + cs_control csi);
    modg (S := localbus) (set_width cnt (Z.land (Z.shiftr val 5) 0x3))).

Definition locabus_set_io_cfg (cs : Z) : M unit :=
  row ← some_or OutOfBounds (g_localbus_iocfg !! Z.to_nat cs);
  for_up (Z.to_nat LOCALBUS_IOMUX_PIN_NUM) 0 (fun i =>
    pin ← some_or OutOfBounds (row !! Z.to_nat i);
    writel 0x0 pin).

Definition localbus_reg_read_write (offset mask val : Z) : M Z :=
  value ← readl (LB_BASE_ADDR + offset);
  writel (mask_merge mask val value) (LB_BASE_ADDR + offset) ;;
  mret BM_OK.

Definition localbus_init : M unit :=
  absent ← lb_absent;
  if (absent : bool) then mret tt else localbus_init_csi.

Definition localbus_deinit : M unit := _ ← lb_absent; mret tt.

Definition localbus_ops_register (ops cs_width : Z) : M Z :=
  absent ← lb_absent;
  if (absent : bool) then mret BM_FAIL
  else if ops =? NULL then mret BM_FAIL
  else
    o ← lb_obj ops;
    if LOCALBUS_CS_NUM <=? lo_cs o then mret BM_FAIL
    else if negb (cs_width =? LOCALBUS_WIDTH_8) && negb (cs_width =? LOCALBUS_WIDTH_16) then mret BM_FAIL
    else
      locabus_set_io_cfg (lo_cs o) ;;
      o ← lb_obj ops;
      if negb (lo_ops o =? NULL) then
        modg (S := localbus) (set_cs_ops (lo_cs o) ops) ;;
        modg (S := localbus) (set_csi ops (lo_cs o)) ;;
        csi ← lb_csi (lo_cs o);
        when (negb (csi_width csi =? cs_width))
          (_ ← localbus_reg_read_write LB_CS1_CTRL_OFFSET_ADDR
                 (Z.shiftl LB_REG_CF_DATA_WID_BITS LB_REG_CF_DATA_WID_POS) cs_width;
           modg (S := localbus) (set_width (lo_cs o) cs_width)) ;;
        t ← lb_table (lo_ops o);
        when (negb (op_probe t =? NULL)) (_ ← call_probe (op_probe t) ops; mret tt) ;;
        mret BM_OK
      else mret BM_FAIL.

Definition localbus_ops_unregister (ops : Z) : M Z :=
  absent ← lb_absent;
  if (absent : bool) then mret BM_FAIL
  else if ops =? NULL then mret BM_FAIL
  else
    o ← lb_obj ops;
    if LOCALBUS_CS_NUM <=? lo_cs o then mret BM_FAIL
    else if negb (lo_ops o =? NULL) then
      modg (S := localbus) (set_cs_ops (lo_cs o) NULL) ;; mret BM_OK
    else mret BM_FAIL.

(** [to] is a signed 64-bit offset, [size[0]] an unsigned 32-bit number: the
    comparisons are those of the integers. *)
Definition localbus_para_check (cs_ops cs to length : Z) : M Z :=
  csi ← lb_csi cs;
  size0 ← some_or OutOfBounds (csi_size csi !! 0%nat);
  if size0 <? to then mret BM_FAIL
  else if size0 <? length + to then mret BM_FAIL
  else if cs_ops =? NULL then mret BM_FAIL
  else
    o ← lb_obj cs_ops;
    if lo_ops o =? NULL then mret BM_FAIL else mret BM_OK.

Definition localbus_destroy : M unit :=
  absent ← lb_absent;
  if (absent : bool) then mret tt
  else
    for_up (Z.to_nat LOCALBUS_CS_NUM) 0 (fun cnt =>
      cs_ops ← lb_slot cnt;
      if cs_ops =? NULL then mret tt
      else
        o ← lb_obj cs_ops;
        if lo_ops o =? NULL then mret tt
        else
          t ← lb_table (lo_ops o);
          when (negb (op_destroy t =? NULL)) (call_destroy (op_destroy t) cs_ops)).

Definition localbus_transmit_check (cs buffer : Z) : M Z :=
  absent ← lb_absent;
  if (absent : bool) then mret BM_FAIL
  else if (LOCALBUS_CS_NUM <=? cs) || (buffer =? NULL) then mret BM_FAIL
  else mret BM_OK.

(** Reading and writing: the same steps, with another entry of the table. *)
Definition localbus_transfer (op : localbus_ops -> Z) (cs to length buffer : Z) : M Z :=
  r ← localbus_transmit_check cs buffer;
  if ctrue r then mret BM_FAIL
  else if ctrue (is_invalid_addr_len (u32 buffer) length) then mret BM_FAIL
  else
    cs_ops ← lb_slot cs;
    ret ← localbus_para_check cs_ops cs to length;
    if negb (ret =? 0) then mret ret
    else
      o ← lb_obj cs_ops;
      t ← lb_table (lo_ops o);
      if op t =? NULL then mret BM_FAIL
      else call_rw (op t) cs_ops to length buffer.

Definition localbus_read (cs from length buffer : Z) : M Z := localbus_transfer op_read cs from length buffer.
Definition localbus_write (cs to length buffer : Z) : M Z := localbus_transfer op_write cs to length buffer.

Definition localbus_erase (cs start length : Z) : M Z :=
  absent ← lb_absent;
  if (absent : bool) then mret BM_FAIL
  else if LOCALBUS_CS_NUM <=? cs then mret BM_FAIL
  else
    cs_ops ← lb_slot cs;
    ret ← localbus_para_check cs_ops cs start length;
    if negb (ret =? 0) then mret ret
    else
      o ← lb_obj cs_ops;
      t ← lb_table (lo_ops o);
      if op_erase t =? NULL then mret BM_FAIL
      else call_erase (op_erase t) cs_ops start length.
End Bus.
