(* ===== verification/LocalBusProps.v ===== *)
(** * LocalBusProps: registering on the local bus, and reaching what is registered *)
From stdpp Require Import prelude gmap list.
From Stdlib Require Import ZArith Lia.
From S2P Require Import Prelude Hw Common LocalBus.
Local Open Scope Z_scope.

(** The object registered for a chip select and its table of functions. *)
Definition lb_device (s : localbus) (cs : Z) : option (Z * localbus_ops) :=
  p ← g_localbus_cs_ops s !! Z.to_nat cs;
  o ← lb_objs s !! p;
  if (p =? NULL) || (lo_ops o =? NULL) then None
  else t ← lb_tables s !! lo_ops o; Some (p, t).

(** The length of a chip select's window. *)
Definition lb_window (cs : Z) : Z := if cs <? 2 then 0x10000000 else 0x8000000.

(** Pointers lead somewhere, and the windows are those of the code. *)
Record lb_ok (s : localbus) : Prop := {
  ok_slots : length (g_localbus_cs_ops s) = 4%nat;
  ok_windows : with_width 0 <$> g_localbus_csi s = localbus_windows;
  ok_null : lb_objs s !! NULL = None /\ lb_tables s !! NULL = None;
  ok_objs p o : lb_objs s !! p = Some o -> lo_ops o = NULL \/ is_Some (lb_tables s !! lo_ops o);
  ok_ptrs cs p : g_localbus_cs_ops s !! cs = Some p -> p = NULL \/ is_Some (lb_objs s !! p);
}.

Lemma lb_ok_init : lb_ok localbus_init_state.
Proof.
  split; [done | done | done | done |]. intros cs p Hp. left.
  apply lookup_replicate in Hp. by destruct Hp as [-> _].
Qed.

Lemma ok_csi s cs : lb_ok s -> 0 <= cs < 4 -> exists c, g_localbus_csi s !! Z.to_nat cs = Some c /\
  csi_size c !! 0%nat = Some (lb_window cs).
Proof.
  intros Hs Hcs. assert (Z.to_nat cs < 4)%nat as Hn by lia.
  destruct (lookup_lt_is_Some_2 localbus_windows (Z.to_nat cs)) as [w Hw]; [done |].
  pose proof Hw as Hw'. rewrite <- (ok_windows s Hs), list_lookup_fmap in Hw'.
  destruct (g_localbus_csi s !! Z.to_nat cs) as [c |]; [| done]. exists c. split; [done |].
  injection Hw' as Hc. assert (csi_size c = csi_size w) as -> by (by rewrite <- Hc).
  assert (cs = 0 \/ cs = 1 \/ cs = 2 \/ cs = 3) as [-> | [-> | [-> | ->]]] by lia; injection Hw as <-; done.
Qed.

(** ** The state a registration leaves *)
Definition lb_register (p cs width : Z) (s : localbus) : localbus := set_width cs width (set_csi p cs (set_cs_ops cs p s)).

Lemma set_width_windows i v s : with_width 0 <$> g_localbus_csi (set_width i v s) = with_width 0 <$> g_localbus_csi s.
Proof.
  cbn. apply list_eq. intros j. rewrite !list_lookup_fmap.
  destruct (decide (j = Z.to_nat i)) as [-> | Hne].
  - rewrite list_lookup_alter_eq. by destruct (g_localbus_csi s !! Z.to_nat i).
  - by rewrite list_lookup_alter_ne.
Qed.

Lemma set_width_ok i v s : lb_ok s -> lb_ok (set_width i v s).
Proof.
  intros [H1 H2 H3 H4 H5]. split; [done | by rewrite set_width_windows | done | done | done].
Qed.

Lemma set_cs_ops_ok cs p s : lb_ok s -> p = NULL \/ is_Some (lb_objs s !! p) -> lb_ok (set_cs_ops cs p s).
Proof.
  intros [H1 H2 H3 H4 H5] Hp. split; [by cbn; rewrite length_insert | done | done | done |].
  intros j q Hq. cbn in Hq |- *. destruct (decide (j = Z.to_nat cs)) as [-> | Hne].
  - assert (Z.to_nat cs < length (g_localbus_cs_ops s))%nat as Hl.
    { apply lookup_lt_Some in Hq. by rewrite length_insert in Hq. }
    rewrite list_lookup_insert_eq in Hq by done. by injection Hq as <-.
  - rewrite list_lookup_insert_ne in Hq by done. by eapply H5.
Qed.

Lemma set_csi_ok p i s : lb_ok s -> lb_ok (set_csi p i s).
Proof.
  intros [H1 H2 [H3 H3'] H4 H5]. split; [done | done | | |].
  - cbn. split; [| done]. destruct (decide (p = NULL)) as [-> | Hne].
    + by rewrite lookup_alter_eq, H3.
    + by rewrite lookup_alter_ne.
  - intros q o Hq. cbn in *. destruct (decide (p = q)) as [-> | Hne].
    + rewrite lookup_alter_eq in Hq. destruct (lb_objs s !! q) as [o' |] eqn:E; [| done].
      injection Hq as <-. exact (H4 q o' E).
    + rewrite lookup_alter_ne in Hq by done. by eapply H4.
  - intros cs q Hq. cbn in *. destruct (H5 cs q Hq) as [| Hs]; [by left | right].
    destruct (decide (p = q)) as [-> | Hne].
    + rewrite lookup_alter_eq. destruct Hs as [o ->]. by eexists.
    + by rewrite lookup_alter_ne.
Qed.

Lemma lb_register_ok p cs width s : lb_ok s -> is_Some (lb_objs s !! p) -> lb_ok (lb_register p cs width s).
Proof. intros Hs Hp. apply set_width_ok, set_csi_ok, set_cs_ops_ok; [done | by right]. Qed.

(** Registering makes the object the device of its chip select, and of no other. *)
Lemma lb_register_device p o t cs width s cs' : lb_ok s -> 0 <= cs < 4 -> 0 <= cs' ->
  lb_objs s !! p = Some o -> lb_tables s !! lo_ops o = Some t -> lo_ops o <> NULL -> p <> NULL ->
  lb_device (lb_register p cs width s) cs' = if cs' =? cs then Some (p, t) else lb_device s cs'.
Proof.
  intros Hs Hcs Hcs' Ho Ht Hn Hp. unfold lb_device, lb_register. cbn.
  assert (forall q, (o' ← alter (fun o => LocalbusCsOps (lo_cs o) (Some cs) (lo_ops o)) p (lb_objs s) !! q;
      if (q =? NULL) || (lo_ops o' =? NULL) then None else t ← lb_tables s !! lo_ops o'; Some (q, t)) =
    (o' ← lb_objs s !! q;
      if (q =? NULL) || (lo_ops o' =? NULL) then None else t ← lb_tables s !! lo_ops o'; Some (q, t))) as E.
  { intros q. destruct (decide (p = q)) as [-> | Hne].
    - rewrite lookup_alter_eq. by destruct (lb_objs s !! q).
    - by rewrite lookup_alter_ne. }
  destruct (Z.eqb_spec cs' cs) as [-> | Hne].
  - rewrite list_lookup_insert_eq by (rewrite (ok_slots s Hs); lia). cbn [mbind option_bind].
    rewrite E, Ho. cbn [mbind option_bind].
    replace (_ || _) with false by lia. by rewrite Ht.
  - rewrite list_lookup_insert_ne by lia. destruct (g_localbus_cs_ops s !! Z.to_nat cs') as [q |]; [| done].
    cbn [mbind option_bind]. apply E.
Qed.

Lemma set_cs_ops_null_device cs s cs' : lb_ok s -> 0 <= cs < 4 -> 0 <= cs' ->
  lb_device (set_cs_ops cs NULL s) cs' = if cs' =? cs then None else lb_device s cs'.
Proof.
  intros Hs Hcs Hcs'. unfold lb_device. cbn. destruct (Z.eqb_spec cs' cs) as [-> | Hne].
  - rewrite list_lookup_insert_eq by (rewrite (ok_slots s Hs); lia). cbn [mbind option_bind].
    by rewrite (proj1 (ok_null s Hs)).
  - by rewrite list_lookup_insert_ne by lia.
Qed.

Section Calls.
Context {G D : Type} `{MD : Machine D} `{HS : !Has G localbus} `{XF : Xfer} `{LC : LocalbusConfig}.
Abbreviation M := (M G D).
Context (call_rw : Z -> Z -> Z -> Z -> Z -> M Z) (call_erase : Z -> Z -> Z -> Z -> M Z).
Context (call_probe : Z -> Z -> M Z) (call_destroy : Z -> Z -> M unit).
Implicit Types (w : world G D).
Abbreviation bus w := (hget (S := localbus) (glob w)).
Context (e : Z) (He : localbus_exist_array !! 0%nat = Some e).

Lemma absent_eq w : lb_absent w = Done (e =? 0) w.
Proof. unfold lb_absent. rewrite He. unfold ctrue, mbind, M_bind, mret, M_ret. cbn. by rewrite negb_involutive. Qed.
Lemma bind_run {A B} (m : M A) (f : A -> M B) a w w' : m w = Done a w' -> (m ≫= f) w = f a w'.
Proof. intros E. unfold mbind, M_bind. by rewrite E. Qed.

Lemma lb_slot_run w cs p : g_localbus_cs_ops (bus w) !! Z.to_nat cs = Some p -> lb_slot cs w = Done p w.
Proof. intros E. unfold lb_slot, mbind, M_bind, gets. cbn. by rewrite E. Qed.
Lemma lb_csi_run w cs c : g_localbus_csi (bus w) !! Z.to_nat cs = Some c -> lb_csi cs w = Done c w.
Proof. intros E. unfold lb_csi, mbind, M_bind, gets. cbn. by rewrite E. Qed.
Lemma lb_obj_run w p o : p <> NULL -> lb_objs (bus w) !! p = Some o -> lb_obj p w = Done o w.
Proof.
  intros Hp E. unfold lb_obj, mbind, M_bind, gets. cbn.
  replace (p =? NULL) with false by lia. by rewrite E.
Qed.
Lemma lb_table_run w p t : p <> NULL -> lb_tables (bus w) !! p = Some t -> lb_table p w = Done t w.
Proof.
  intros Hp E. unfold lb_table, mbind, M_bind, gets. cbn.
  replace (p =? NULL) with false by lia. by rewrite E.
Qed.

(** The range check and the slot, as one question to the state. *)
Lemma para_check_run w cs p to length : lb_ok (bus w) -> 0 <= cs < 4 -> 0 <= length ->
  g_localbus_cs_ops (bus w) !! Z.to_nat cs = Some p ->
  localbus_para_check p cs to length w =
    Done (if (length + to <=? lb_window cs) && negb (p =? NULL) &&
             match lb_objs (bus w) !! p with Some o => negb (lo_ops o =? NULL) | None => false end
          then BM_OK else BM_FAIL) w.
Proof.
  intros Hs Hcs Hlen Hp. unfold localbus_para_check. destruct (ok_csi _ cs Hs Hcs) as (c & Hc & Hw).
  rewrite (bind_run _ _ _ _ _ (lb_csi_run w cs c Hc)), Hw. cbn [some_or]. rewrite bind_ret.
  destruct (Z.ltb_spec (lb_window cs) to).
  { replace (length + to <=? lb_window cs) with false by lia. done. }
  destruct (Z.ltb_spec (lb_window cs) (length + to)).
  { replace (length + to <=? lb_window cs) with false by lia. done. }
  replace (length + to <=? lb_window cs) with true by lia.
  destruct (p =? NULL) eqn:Ep; [done |]. assert (p <> NULL) as Hpn by lia.
  destruct (ok_ptrs _ Hs _ _ Hp) as [| [o Ho]]; [done |]. cbn [negb andb].
  rewrite (bind_run _ _ _ _ _ (lb_obj_run w p o Hpn Ho)), Ho. by destruct (lo_ops o =? NULL).
Qed.

(** What an access does once its arguments are accepted. *)
Definition lb_calls {A} (s : localbus) (cs : Z) (op : localbus_ops -> Z) (call : Z -> Z -> M A) (refused : A) : M A :=
  match lb_device s cs with
  | Some (p, t) => if op t =? NULL then mret refused else call (op t) p
  | None => mret refused
  end.

Lemma access_run w cs to length op (call : Z -> Z -> M Z) : lb_ok (bus w) -> 0 <= cs < 4 -> 0 <= length ->
  (cs_ops ← lb_slot cs;
   ret ← localbus_para_check cs_ops cs to length;
   if negb (ret =? 0) then mret ret
   else
     o ← lb_obj cs_ops; t ← lb_table (lo_ops o);
     if op t =? NULL then mret BM_FAIL else call (op t) cs_ops) w =
  if length + to <=? lb_window cs then lb_calls (bus w) cs op call BM_FAIL w else Done BM_FAIL w.
Proof.
  intros Hs Hcs Hlen.
  destruct (lookup_lt_is_Some_2 (g_localbus_cs_ops (bus w)) (Z.to_nat cs)) as [p Hp];
    [rewrite (ok_slots _ Hs); lia |].
  rewrite (bind_run _ _ _ _ _ (lb_slot_run w cs p Hp)).
  rewrite (bind_run _ _ _ _ _ (para_check_run w cs p to length Hs Hcs Hlen Hp)).
  unfold lb_calls, lb_device. rewrite Hp. cbn [mbind option_bind].
  destruct (length + to <=? lb_window cs); cbn [andb]; [| done].
  destruct (p =? NULL) eqn:Ep; cbn [negb andb orb].
  { apply Z.eqb_eq in Ep as ->. by rewrite (proj1 (ok_null _ Hs)). }
  destruct (lb_objs (bus w) !! p) as [o |] eqn:Ho; cbn [mbind option_bind]; [| done].
  assert (p <> NULL) as Hpn by lia. destruct (lo_ops o =? NULL) eqn:Eo; cbn [negb]; [by rewrite ?Eo |].
  change (negb (BM_OK =? 0)) with false. cbv iota.
  rewrite (bind_run _ _ _ _ _ (lb_obj_run w p o Hpn Ho)).
  assert (lo_ops o <> NULL) as Hon by lia. destruct (ok_objs _ Hs _ _ Ho) as [| [t Ht]]; [done |].
  rewrite (bind_run _ _ _ _ _ (lb_table_run w _ t Hon Ht)), Ht. done.
Qed.

(** an access reaches the device of its chip select and no other.  Reading,
    writing and erasing call the function that is registered for the chip
    select, with the client's arguments unchanged, exactly when the bus is
    there, the chip select is one of the four, the buffer lies in the transfer
    segment and the range ends inside the window; otherwise they fail without
    doing anything.  Only the end of the range is checked: an offset below
    zero is passed on. *)
Theorem localbus_access_routes cs off length buffer w : lb_ok (bus w) -> 0 <= cs -> 0 <= length ->
  let reachable := negb (e =? 0) && (cs <? 4) && (length + off <=? lb_window cs) in
  let usable := negb (buffer =? NULL) && (is_invalid_addr_len (u32 buffer) length =? 0) in
  let calls op call := lb_calls (bus w) cs op call BM_FAIL w in
  localbus_read call_rw cs off length buffer w =
    (if reachable && usable then calls op_read (fun f p => call_rw f p off length buffer) else Done BM_FAIL w) /\
  localbus_write call_rw cs off length buffer w =
    (if reachable && usable then calls op_write (fun f p => call_rw f p off length buffer) else Done BM_FAIL w) /\
  localbus_erase call_erase cs off length w =
    (if reachable then calls op_erase (fun f p => call_erase f p off length) else Done BM_FAIL w).
Proof.
  intros Hs Hcs Hlen. cbv zeta.
  assert (forall op, localbus_transfer call_rw op cs off length buffer w =
    (if negb (e =? 0) && (cs <? 4) && (length + off <=? lb_window cs) &&
        (negb (buffer =? NULL) && (is_invalid_addr_len (u32 buffer) length =? 0))
     then lb_calls (bus w) cs op (fun f p => call_rw f p off length buffer) BM_FAIL w else Done BM_FAIL w)) as H.
  { intros op. unfold localbus_transfer, localbus_transmit_check. unfold mbind at 1, M_bind at 1.
    rewrite (bind_run _ _ _ _ _ (absent_eq w)).
    destruct (e =? 0); [done |]. change (LOCALBUS_CS_NUM <=? cs) with (4 <=? cs).
    destruct (Z.leb_spec 4 cs); [by replace (cs <? 4) with false by lia |].
    replace (cs <? 4) with true by lia. cbn [negb andb orb].
    destruct (buffer =? NULL); cbn [negb andb]; [by rewrite andb_false_r |].
    cbn [mret M_ret]. change (ctrue BM_OK) with false. cbv iota. unfold ctrue at 1.
    destruct (is_invalid_addr_len (u32 buffer) length =? 0); cbn [negb]; rewrite ?andb_false_r, ?andb_true_r; [| done].
    by apply (access_run w cs off length op (fun f p => call_rw f p off length buffer)). }
  split; [apply H |]. split; [apply H |].
  unfold localbus_erase. rewrite (bind_run _ _ _ _ _ (absent_eq w)).
  destruct (e =? 0); [done |]. change (LOCALBUS_CS_NUM <=? cs) with (4 <=? cs).
  destruct (Z.leb_spec 4 cs); [by replace (cs <? 4) with false by lia |].
  replace (cs <? 4) with true by lia. cbn [negb andb].
  by apply (access_run w cs off length op_erase (fun f p => call_erase f p off length)).
Qed.

(** ** Registering *)

(** The pins of a chip select, all given to the bus, in the order of the table. *)
Definition lb_pins (cs : Z) : list event := (fun a => Wr a 0) <$> default [] (g_localbus_iocfg !! Z.to_nat cs).

Lemma emits_clear_all (row : list Z) k n w : (k + n = length row)%nat ->
  emits (G := G) (D := D) (for_up n (Z.of_nat k) (fun i => pin ← some_or OutOfBounds (row !! Z.to_nat i); writel 0 pin)) w
    (fun _ t => t = (fun a => Wr a 0) <$> drop k row).
Proof.
  revert k w. induction n as [| n IH]; intros k w Hk.
  - apply emits_ret. by rewrite drop_ge by lia.
  - destruct (lookup_lt_is_Some_2 row k) as [a Ha]; [lia |].
    rewrite (drop_S row a k Ha). cbn [for_up fmap list_fmap]. rewrite Nat2Z.id, Ha. cbn [some_or].
    rewrite bind_ret. emits_step. emits_step.
    replace (Z.of_nat k + 1) with (Z.of_nat (S k)) by lia.
    eapply emits_mono; [apply IH; lia |]. by intros _ t ->.
Qed.

Lemma emits_io_cfg cs w : 0 <= cs < 4 ->
  emits (G := G) (D := D) (locabus_set_io_cfg cs) w (fun _ t => t = lb_pins cs).
Proof.
  intros Hcs. unfold locabus_set_io_cfg, lb_pins. set (row := g_localbus_iocfg !! Z.to_nat cs).
  assert (exists r, row = Some r /\ length r = 20%nat) as (r & -> & Hr).
  { subst row. assert (cs = 0 \/ cs = 1 \/ cs = 2 \/ cs = 3) as [-> | [-> | [-> | ->]]] by lia; by eexists. }
  cbn [some_or default]. rewrite bind_ret. by apply (emits_clear_all r 0 20).
Qed.

(** The programming of the width: the field of chip select 1, cleared. *)
Definition lb_width_write (t : list event) : Prop :=
  exists v, fits 32 v /\ let a := LB_BASE_ADDR + LB_CS1_CTRL_OFFSET_ADDR in t = [Rd a v; Wr a (bf_set 5 2 0 v)].

Lemma width_cleared width v : width = 0 \/ width = 1 -> fits 32 v ->
  mask_merge (Z.shiftl LB_REG_CF_DATA_WID_BITS LB_REG_CF_DATA_WID_POS) width v = bf_set 5 2 0 v.
Proof.
  intros Hw Hv. unfold mask_merge. change (Z.shiftl _ _) with (Z.shiftl (Z.ones 2) 5).
  assert (Z.land width (Z.shiftl (Z.ones 2) 5) = 0) as -> by (destruct Hw as [-> | ->]; done).
  rewrite Z.lor_0_r. unfold bf_set. rewrite Z.land_0_l, Z.shiftl_0_l, Z.lor_0_r.
  apply Z.bits_inj'. intros i Hi. unfold bnot. rewrite Z.land_spec, Z.ldiff_spec, wrap_spec, Z.lnot_spec by lia.
  destruct (Z.ltb_spec i 32); [done |]. by rewrite (fits_testbit 32 v i) by (done || lia).
Qed.

Lemma wp_run {A B} (m : M A) (f : A -> M B) a w (Q : B -> world G D -> Prop) :
  m w = Done a w -> wp (f a) Q w -> wp (m ≫= f) Q w.
Proof. intros E HQ. unfold wp. by rewrite (bind_run _ _ _ _ _ E). Qed.

(** What [localbus_ops_register] refuses before it touches anything. *)
Definition lb_refused (p width : Z) (o : localbus_cs_ops) : bool :=
  (e =? 0) || (p =? NULL) || (4 <=? lo_cs o) || negb ((width =? LOCALBUS_WIDTH_8) || (width =? LOCALBUS_WIDTH_16)).

(** The state a successful registration reaches before it calls the probe. *)
Definition lb_installed (p : Z) (o : localbus_cs_ops) (t : localbus_ops) (width : Z) w (w1 : world G D) : Prop :=
  lb_ok (bus w1) /\
  (forall cs, 0 <= cs -> lb_device (bus w1) cs = if cs =? lo_cs o then Some (p, t) else lb_device (bus w) cs) /\
  (exists tw, tr w1 = tr w ++ lb_pins (lo_cs o) ++ tw /\ (tw = [] \/ lb_width_write tw)) /\
  exists c, g_localbus_csi (bus w1) !! Z.to_nat (lo_cs o) = Some c /\ csi_width c = width.

Lemma lb_register_width cs width s c : lb_ok s -> 0 <= cs < 4 ->
  g_localbus_csi s !! Z.to_nat cs = Some c -> csi_width c = width -> set_width cs width s = s.
Proof.
  intros Hs Hcs Hc Hw. unfold set_width. destruct s as [l ? ? ?]. cbn in *. f_equal.
  apply list_eq. intros j. destruct (decide (j = Z.to_nat cs)) as [-> | Hne].
  - rewrite list_lookup_alter_eq, Hc. cbn. f_equal. subst width. by destruct c.
  - by rewrite list_lookup_alter_ne.
Qed.

(** Recording and programming the width. *)
Lemma wp_width cs width c w : lb_ok (bus w) -> 0 <= cs < 4 -> width = 0 \/ width = 1 ->
  g_localbus_csi (bus w) !! Z.to_nat cs = Some c ->
  wp (when (negb (csi_width c =? width))
        (_ ← localbus_reg_read_write LB_CS1_CTRL_OFFSET_ADDR
               (Z.shiftl LB_REG_CF_DATA_WID_BITS LB_REG_CF_DATA_WID_POS) width;
         modg (S := localbus) (set_width cs width)))
    (fun _ w' => bus w' = set_width cs width (bus w) /\
       exists tw, tr w' = tr w ++ tw /\ (tw = [] \/ lb_width_write tw)) w.
Proof.
  intros Hs Hcs Hw Hc. destruct (Z.eqb_spec (csi_width c) width) as [Eq | Hne]; cbn [negb when].
  - apply wp_ret. split; [by rewrite (lb_register_width cs width _ c) |]. exists []. rewrite app_nil_r. auto.
  - unfold localbus_reg_read_write. wp_steps.
    rewrite hget_hput. split; [done |]. rewrite width_cleared by done.
    eexists. rewrite <- app_assoc. split; [done |]. right. exists v. split; [done |].
    rewrite (wrap_id 32) by (by apply bf_set_fits). done.
Qed.

(** registering.  A bad call changes nothing; an object without functions
    only loses its pins to the bus.  Otherwise the object becomes the device
    of its chip select and of no other, the tables stay well-formed, and its
    probe function is called once, in that state.  The width, when it differs
    from the recorded one, is recorded, but whatever it is and whichever chip
    select it is for, what is programmed is 0 in the field of chip select 1. *)
Theorem localbus_register_installs p o width w : lb_ok (bus w) ->
  (p <> NULL -> lb_objs (bus w) !! p = Some o) -> 0 <= lo_cs o ->
  (forall f w, exists r w', call_probe f p w = Done r w') ->
  wp (localbus_ops_register call_probe p width) (fun r w' =>
    if lb_refused p width o then r = BM_FAIL /\ w' = w
    else if lo_ops o =? NULL then r = BM_FAIL /\ glob w' = glob w /\ tr w' = tr w ++ lb_pins (lo_cs o)
    else r = BM_OK /\ exists t w1, lb_tables (bus w) !! lo_ops o = Some t /\ lb_installed p o t width w w1 /\
      if op_probe t =? NULL then w' = w1 else exists r, call_probe (op_probe t) p w1 = Done r w') w.
Proof.
  intros Hs Ho Hcs Hprobe. unfold localbus_ops_register, lb_refused.
  eapply wp_run; [apply absent_eq |]. destruct (e =? 0); [by apply wp_ret |].
  destruct (p =? NULL) eqn:Ep; [by apply wp_ret |]. assert (p <> NULL) as Hp by lia. specialize (Ho Hp).
  eapply wp_run; [by apply lb_obj_run |]. change LOCALBUS_CS_NUM with 4.
  destruct (4 <=? lo_cs o) eqn:E4; [by apply wp_ret |]. cbn [orb]. rewrite negb_orb.
  destruct (_ && _) eqn:Ew; [by apply wp_ret |].
  assert (width = 0 \/ width = 1) as Hw by (unfold LOCALBUS_WIDTH_8, LOCALBUS_WIDTH_16 in Ew; lia).
  assert (0 <= lo_cs o < 4) as Hc by lia. clear Ew E4 Ep.
  apply wp_bind. eapply wp_mono; [by apply emits_io_cfg |]. cbv beta. intros [] w1 (Hg & tp & Ht & ->).
  assert (bus w1 = bus w) as Hb by (by rewrite Hg).
  eapply wp_run; [apply lb_obj_run; [done | by rewrite Hb] |].
  destruct (lo_ops o =? NULL) eqn:Eo; cbn [negb]; [by apply wp_ret |]. assert (lo_ops o <> NULL) as Hn by lia.
  destruct (ok_objs _ Hs _ _ Ho) as [| [t Htb]]; [done |].
  do 4 wp_step. rewrite hget_hput, hput_hput, Hb.
  set (s1 := set_csi p (lo_cs o) (set_cs_ops (lo_cs o) p (bus w))).
  assert (lb_ok s1) as Hs1 by (apply set_csi_ok, set_cs_ops_ok; [done | right; by eexists]).
  destruct (ok_csi s1 (lo_cs o) Hs1 Hc) as (c & Hcsi & _).
  set (w2 := World (hput s1 (glob w1)) (dev w1) (tr w1)).
  assert (bus w2 = s1) as Hb2 by apply hget_hput.
  eapply wp_run; [apply lb_csi_run; by rewrite Hb2 |].
  apply wp_bind. eapply wp_mono; [apply wp_width; [by rewrite Hb2 | done | done | by rewrite Hb2] |].
  cbv beta. rewrite Hb2. intros [] w3 (Hb3 & tw & Ht3 & Htw). cbn [tr w2] in Ht3. clearbody w2.
  assert (lb_installed p o t width w w3) as Hin.
  { split; [| split; [| split]].
    - rewrite Hb3. by apply set_width_ok.
    - intros cs Hcs'. rewrite Hb3. by apply (lb_register_device p o).
    - exists tw. by rewrite Ht3, Ht, <- app_assoc.
    - rewrite Hb3. unfold set_width. cbn [g_localbus_csi]. exists (with_width width c). by rewrite list_lookup_alter_eq, Hcsi. }
  eapply wp_run; [apply lb_table_run; [done | by rewrite Hb3] |].
  destruct (op_probe t =? NULL) eqn:Epr; cbn [negb when].
  - wp_steps. split; [done |]. exists t, w3. by rewrite Epr.
  - destruct (Hprobe (op_probe t) w3) as (r & w4 & Hr). do 2 apply wp_bind.
    unfold wp at 1. rewrite Hr. wp_steps. split; [done |]. exists t, w3. rewrite Epr. eauto.
Qed.

(** unregistering empties the chip select that the object names, whoever is
    registered there, and leaves the others; the probe, the pins and the width
    stay as they are. *)
Theorem localbus_unregister_empties p o w : lb_ok (bus w) ->
  (p <> NULL -> lb_objs (bus w) !! p = Some o) -> 0 <= lo_cs o ->
  wp (localbus_ops_unregister p) (fun r w' =>
    if (e =? 0) || (p =? NULL) || (4 <=? lo_cs o) || (lo_ops o =? NULL) then r = BM_FAIL /\ w' = w
    else r = BM_OK /\ lb_ok (bus w') /\ tr w' = tr w /\
      (forall cs, 0 <= cs -> lb_device (bus w') cs = if cs =? lo_cs o then None else lb_device (bus w) cs)) w.
Proof.
  intros Hs Ho Hcs. unfold localbus_ops_unregister.
  eapply wp_run; [apply absent_eq |]. destruct (e =? 0); [by apply wp_ret |].
  destruct (p =? NULL) eqn:Ep; [by apply wp_ret |]. assert (p <> NULL) as Hp by lia. specialize (Ho Hp).
  eapply wp_run; [by apply lb_obj_run |]. change LOCALBUS_CS_NUM with 4.
  destruct (4 <=? lo_cs o) eqn:E4; [by apply wp_ret |]. cbn [orb].
  destruct (lo_ops o =? NULL); cbn [negb]; [by apply wp_ret |].
  wp_steps. rewrite hget_hput. split; [done |]. split; [by apply set_cs_ops_ok; [| left] |]. split; [done |].
  intros cs Hcs'. apply set_cs_ops_null_device; [done | lia | done].
Qed.
End Calls.

(** ** A board with one flash on chip select 2 *)
#[local] Instance one_bus : LocalbusConfig := {| localbus_exist_array := [1] |}.
#[local] Instance low_segment : Xfer := {| xfer_segment_start := 0x90000000; xfer_segment_end := 0x91000000 |}.

Definition flash : localbus_cs_ops := LocalbusCsOps 2 None 0x7000.
Definition flash_ops : localbus_ops := LocalbusOps 0x100 0x104 0 0x10c 0.
Definition flash_state : localbus :=
  Localbus localbus_windows (replicate 4 NULL) {[ 0x6000 := flash ]} {[ 0x7000 := flash_ops ]}.
Abbreviation wires := (fixed (fun _ => 0xffffffff) (fun _ => 0)).
Definition flash_world : world localbus wires := World flash_state Fixed [].

(** A read returns the offset it was given, a probe succeeds. *)
Definition flash_rw (f p off len buf : Z) : M localbus wires Z := mret off.
Definition flash_probe (f p : Z) : M localbus wires Z := mret BM_OK.

Lemma flash_ok : lb_ok flash_state.
Proof.
  split; [done | done | done | |].
  - intros p o Hp. cbn [lb_objs flash_state] in Hp. apply lookup_singleton_Some in Hp as [_ <-]. right. by eexists.
  - intros cs p Hp. apply lookup_replicate in Hp as [-> _]. by left.
Qed.

Lemma localbus_register_installs_witness :
  result (localbus_ops_register flash_probe 0x6000 1 flash_world) = Some BM_OK /\
  wp (localbus_ops_register flash_probe 0x6000 1) (fun r w' => r = BM_OK ->
    lb_device (hget (glob w')) 2 = Some (0x6000, flash_ops)) flash_world.
Proof.
  split; [reflexivity |]. eapply wp_mono.
  - apply (localbus_register_installs (HS := Has_self localbus) (LC := one_bus) flash_probe 1 eq_refl 0x6000 flash 1 flash_world flash_ok
      (fun _ => eq_refl) ltac:(cbn; lia)). intros f w. by eexists _, _.
  - cbv beta. intros r w'. change (lb_refused 1 0x6000 1 flash) with false. cbv iota.
    intros (-> & t & w1 & Ht & (_ & Hd & _) & Hr) _. injection Ht as <-. cbn in Hr. destruct Hr as [r' Hr].
    injection Hr as _ <-. by rewrite (Hd 2).
Defined.

Definition flash_registered : localbus := lb_register 0x6000 2 1 flash_state.
Lemma flash_registered_ok : lb_ok flash_registered.
Proof. apply lb_register_ok; [apply flash_ok | by eexists]. Qed.

Lemma localbus_access_routes_witness :
  let w := World flash_registered Fixed [] : world localbus wires in
  localbus_read flash_rw 2 (-16) 8 0x90000000 w = Done (-16) w /\
  localbus_read flash_rw 2 0x7fffff9 8 0x90000000 w = Done BM_FAIL w.
Proof.
  cbv zeta.
  pose proof (fun off => localbus_access_routes (HS := Has_self localbus) (LC := one_bus) flash_rw (fun f p off len => mret 0) 1 eq_refl 2 off 8 0x90000000
    (World flash_registered Fixed []) flash_registered_ok ltac:(lia) ltac:(lia)) as H.
  split; [rewrite (proj1 (H (-16))) | rewrite (proj1 (H 0x7fffff9))]; reflexivity.
Defined.

Lemma localbus_unregister_empties_witness :
  wp (localbus_ops_unregister 0x6000) (fun r w' => r = BM_OK /\ lb_device (hget (glob w')) 2 = None)
    (World flash_registered Fixed [] : world localbus wires).
Proof.
  eapply wp_mono.
  - apply (localbus_unregister_empties (HS := Has_self localbus) (LC := one_bus) 1 eq_refl 0x6000 (LocalbusCsOps 2 (Some 2) 0x7000)
      (World flash_registered Fixed [] : world localbus wires) flash_registered_ok
      (fun _ => eq_refl) ltac:(cbn; lia)).
  - cbv beta. intros r w'. change (_ || _) with false. cbv iota. intros (-> & _ & _ & Hd). split; [done |]. by rewrite (Hd 2).
Defined.
