(* ===== verification/GicQuiet.v ===== *)
(** * GicQuiet: what the interrupt controller driver leaves alone, and its groups

    Whatever the controller answers, every operation of the driver ends, stays
    within the controller's registers and the system registers, and changes no
    other component's part of the globals; this is what the callers outside
    the drivers (the loader, the OpenAMP glue) rely on.  Then the group
    registers that the initialisation writes. *)
From stdpp Require Import prelude gmap list strings.
From Stdlib Require Import ZArith Lia Btauto.
From S2P Require Import Prelude Hw Common Gic GicProps.
Local Open Scope Z_scope.

(** Views of the accesses to which the controller is invisible. *)
Class AllowsGic (P : event -> Prop) := {
  gic_rd a v : GIC_REG_BASE_ADDR <= a < GIC_REG_BASE_ADDR + 0x3000000 -> P (Rd a v);
  gic_wr a v : GIC_REG_BASE_ADDR <= a < GIC_REG_BASE_ADDR + 0x3000000 -> P (Wr a v);
  gic_sy op v : P (Sy op v);
}.

(** The wake-up of a core's redistributor, as [GicQuiesces]. *)
Class GicWakes (D : Type) `{MD : Machine D} (fuel : nat) :=
  waker_settles core : settles_in fuel (gicr GICR_WAKER_ADDR core) waker_is_sleep.

Lemma polled_forall P addr more v t : polled addr more v t -> (forall x, P (Rd addr x)) -> Forall P t.
Proof.
  intros (_ & vs & -> & _) HP. apply Forall_app. split; [| by repeat constructor].
  by apply Forall_fmap, Forall_true.
Qed.

Section Quiet.
Context {G D : Type} `{MD : Machine D} (fuel : nat) `{GQ : !GicQuiesces D fuel}.
Context {T : Type} `{HT : !Has G T} (P : event -> Prop) `{AG : !AllowsGic P}.
Abbreviation quiet := (quiet (G := G) (D := D) T P).

(** An address of an array that starts in the first 16 MiB. *)
Definition gic_low (base : Z) : Prop := GIC_REG_BASE_ADDR <= base < GIC_REG_BASE_ADDR + 0x2800000.

Lemma gicr_low base core : GIC_REG_BASE_ADDR <= base < GIC_REG_BASE_ADDR + 0x100000 -> fits 8 core ->
  gic_low (gicr base core).
Proof.
  unfold gic_low, gicr, GIC_REG_BASE_ADDR, GICR_ADDR_OFFSET_PER_CORE. intros Hb [Hc0 Hc].
  change (2 ^ 8) with 256 in Hc. rewrite wrap_id by (split; [lia |]; change (2 ^ 32) with 0x100000000; lia). lia.
Qed.

Lemma reg_addr_ok base num id : gic_low base -> 4 <= num -> 0 <= id <= 0x1000 ->
  GIC_REG_BASE_ADDR <= gic_reg_addr base num id < GIC_REG_BASE_ADDR + 0x3000000.
Proof.
  unfold gic_low, gic_reg_addr. intros Hb Hn Hid.
  assert (0 <= id / num <= id).
  { split; [apply Z.div_pos; lia |]. apply Z.div_le_upper_bound; nia. }
  lia.
Qed.

Lemma low_ok base : gic_low base -> GIC_REG_BASE_ADDR <= base < GIC_REG_BASE_ADDR + 0x3000000.
Proof. unfold gic_low. lia. Qed.

Lemma quiet_gic_read a : GIC_REG_BASE_ADDR <= a < GIC_REG_BASE_ADDR + 0x3000000 -> quiet (readl a).
Proof. intros Ha. apply quiet_readl. intros v. by apply gic_rd. Qed.
Lemma quiet_gic_write v a : GIC_REG_BASE_ADDR <= a < GIC_REG_BASE_ADDR + 0x3000000 -> quiet (writel v a).
Proof. intros Ha. apply quiet_writel. by apply gic_wr. Qed.
Lemma quiet_gic_sys op : quiet (sys_ op).
Proof. apply quiet_sys_. intros v. apply gic_sy. Qed.

Lemma quiet_gic_poll a more : settles_in fuel a more ->
  GIC_REG_BASE_ADDR <= a < GIC_REG_BASE_ADDR + 0x3000000 -> quiet (_ ← poll fuel a more; mret tt).
Proof.
  intros Hs Ha. apply quiet_bind; [| intros; apply quiet_ret]. apply quiet_emits. intros w.
  emits_apply (emits_poll (G := G)); [done |]. intros v t [_ Hp].
  eapply polled_forall; [exact Hp |]. intros x. by apply gic_rd.
Qed.

(** The core's number, whatever it is, is a byte. *)
Lemma quiet_with_core {A} (f : Z -> M G D A) : (forall c, fits 8 c -> quiet (f c)) -> quiet (bm_get_coreid ≫= f).
Proof.
  intros Hf w. apply wp_bind, wp_bm_get_coreid. intros mpid d Hc.
  eapply wp_mono; [by apply Hf |]. cbv beta. cbn [glob tr]. intros a w' (Hg & t & Ht & HP).
  split; [done |]. exists (Sy (Mrs MPIDR_EL1) mpid :: t). rewrite Ht, <- app_assoc.
  split; [done |]. constructor; [apply gic_sy | done].
Qed.

Lemma quiet_distributor_wait : quiet (bm_gicd_wait_cfg_work fuel).
Proof. apply quiet_gic_poll; [apply gicd_settles | unfold GICD_CTLR_S_ADDR; lia]. Qed.
Lemma quiet_gicr_wait core : fits 8 core -> quiet (bm_gicr_wait_cfg_work fuel core).
Proof.
  intros Hc. apply quiet_gic_poll; [apply gicr_settles |]. apply low_ok, gicr_low; [| done].
  unfold GICR_CTRL_ADDR, GICR_BASE0. lia.
Qed.

Definition irq_number (id : Z) : Prop := 0 <= id <= 0x1000.

Lemma quiet_get_reg base id : gic_low base -> irq_number id -> quiet (bm_gic_get_reg base id).
Proof.
  intros Hb Hi. apply quiet_bind; [| intros; apply quiet_ret]. apply quiet_gic_read, reg_addr_ok; done || unfold GIC_IENABLE_INT_NUM; lia.
Qed.
Lemma quiet_set_reg base id v : gic_low base -> irq_number id -> quiet (bm_gic_set_reg base id v).
Proof. intros Hb Hi. apply quiet_gic_write, reg_addr_ok; done || unfold GIC_IENABLE_INT_NUM; lia. Qed.
Lemma quiet_rmw_reg base num id v : gic_low base -> 4 <= num -> irq_number id -> quiet (bm_gic_rmw_reg base num id v).
Proof.
  intros Hb Hn Hi. apply quiet_bind; [by apply quiet_gic_read, reg_addr_ok |]. intros x.
  by apply quiet_gic_write, reg_addr_ok.
Qed.
Lemma quiet_write_group addr bit b : gic_low addr -> quiet (sicr_write_group addr bit b).
Proof.
  intros Ha. apply quiet_bind; [by apply quiet_gic_read, low_ok |]. intros x. by apply quiet_gic_write, low_ok.
Qed.
End Quiet.

(** Place a base address: distributor arrays, and those of a core. *)
Ltac gic_place :=
  first [ apply gicr_low; [| assumption] | idtac ];
  unfold gic_low, GICD_ISENABLER0_ADDR, GICD_ICENABLER0_ADDR, GICD_IPRIORITYRN_ADDR, GICR_ISENABLER0_ADDR,
    GICR_ICENABLER0_ADDR, GICR_IPRIORITY_SGI_S_ADDR, GICR_IGROUPR0_ADDR, GICR_IGRPMODR0_ADDR,
    GICR_WAKER_ADDR, GICR_BASE0, GICR_BASE1, GICD_CTLR_S_ADDR, GIC_REG_BASE_ADDR; lia.

Section Operations.
Context {G D : Type} `{MD : Machine D} (fuel : nat) `{GQ : !GicQuiesces D fuel}.
Context {T : Type} `{HT : !Has G T} (P : event -> Prop) `{AG : !AllowsGic P}.
Abbreviation quiet := (quiet (G := G) (D := D) T P).

Lemma quiet_switch base id core v : gic_low base -> irq_number id -> fits 8 core ->
  quiet (bm_gic_set_reg base id v ;; bm_gicr_wait_cfg_work fuel core).
Proof. intros Hb Hi Hc. apply quiet_bind; [by apply quiet_set_reg | intros; by apply quiet_gicr_wait]. Qed.
Lemma quiet_switch_d base id v : gic_low base -> irq_number id ->
  quiet (bm_gic_set_reg base id v ;; bm_gicd_wait_cfg_work fuel).
Proof. intros Hb Hi. apply quiet_bind; [by apply quiet_set_reg | intros; by apply quiet_distributor_wait]. Qed.

Lemma quiet_gicr_on core id : fits 8 core -> irq_number id -> quiet (bm_gicr_enable_int fuel core id).
Proof. intros. apply quiet_switch; [gic_place | done | done]. Qed.
Lemma quiet_gicr_off core id : fits 8 core -> irq_number id -> quiet (bm_gicr_disable_int fuel core id).
Proof. intros. apply quiet_switch; [gic_place | done | done]. Qed.
Lemma quiet_gicd_on id : irq_number id -> quiet (bm_gicd_enable_int fuel id).
Proof. intros. apply quiet_switch_d; [gic_place | done]. Qed.
Lemma quiet_gicd_off id : irq_number id -> quiet (bm_gicd_disable_int fuel id).
Proof. intros. apply quiet_switch_d; [gic_place | done]. Qed.
Lemma quiet_gicr_state core id : fits 8 core -> irq_number id -> quiet (bm_gicr_get_int_state core id).
Proof. intros. apply quiet_get_reg; [done | gic_place | done]. Qed.
Lemma quiet_gicd_state id : irq_number id -> quiet (bm_gicd_get_int_state id).
Proof. intros. apply quiet_get_reg; [done | gic_place | done]. Qed.

(** Switched off, changed, switched on again if it was on. *)
Lemma quiet_while_off (st : M G D Z) (off change on : M G D unit) :
  quiet st -> quiet off -> quiet change -> quiet on ->
  quiet (state ← st; off ;; change ;; when (state =? GIC_ENABLE) on).
Proof.
  intros Hs Hoff Hc Hon. apply quiet_bind; [done |]. intros s. apply quiet_bind; [done |]. intros [].
  apply quiet_bind; [done |]. intros []. by apply quiet_when.
Qed.

Lemma quiet_irq_switch (on : bool) id : 0 <= id ->
  quiet (if on then bm_enable_irq fuel id else bm_disable_irq fuel id).
Proof.
  intros Hi. assert ((MAX_INT_NUM <? id) = false -> irq_number id) as Hn.
  { unfold irq_number, MAX_INT_NUM. lia. }
  destruct on; unfold bm_enable_irq, bm_disable_irq; destruct (MAX_INT_NUM <? id); try apply quiet_ret;
    specialize (Hn eq_refl); (destruct (id <? MIN_GIC_SPI_NUM); [apply quiet_with_core; [done |]; intros c Hc |];
    (apply quiet_bind; [| intros; apply quiet_ret])).
  - by apply quiet_gicr_on.
  - by apply quiet_gicd_on.
  - by apply quiet_gicr_off.
  - by apply quiet_gicd_off.
Qed.

Lemma quiet_irq_priority id p : 0 <= id -> quiet (bm_irq_set_priority fuel id p).
Proof.
  intros Hi. unfold bm_irq_set_priority. destruct (_ || _) eqn:E; [apply quiet_ret |].
  assert (irq_number id) as Hn by (unfold irq_number, MAX_INT_NUM in *; lia). clear E.
  destruct (id <=? MAX_NNSPI_ID); (apply quiet_bind; [| intros; apply quiet_ret]).
  - apply quiet_for_up. intros core Hc. assert (fits 8 core) by (unfold fits; change (2 ^ 8) with 256; lia).
    apply quiet_while_off; [by apply quiet_gicr_state | by apply quiet_gicr_off | | by apply quiet_gicr_on].
    apply quiet_rmw_reg; [done | gic_place | unfold GIC_IPRIORITY_INT_NUM; lia | done].
  - apply quiet_while_off; [by apply quiet_gicd_state | by apply quiet_gicd_off | | by apply quiet_gicd_on].
    apply quiet_rmw_reg; [done | gic_place | unfold GIC_IPRIORITY_INT_NUM; lia | done].
Qed.

Lemma quiet_sic_set_group id g : irq_number id -> quiet (bm_sic_set_group fuel id g).
Proof.
  intros Hi. unfold bm_sic_set_group. apply quiet_with_core; [done |]. intros core Hc.
  destruct (id <? MIN_GIC_SPI_NUM) eqn:E.
  - apply quiet_while_off; [by apply quiet_gicr_state | by apply quiet_gicr_off | | by apply quiet_gicr_on].
    apply quiet_with_core; [done |]; intros c1 Hc1. apply quiet_bind; [| intros []; apply quiet_with_core; [done |]; intros c2 Hc2];
      apply quiet_write_group; try done; gic_place.
  - apply quiet_while_off; [by apply quiet_gicd_state | by apply quiet_gicd_off | | by apply quiet_gicd_on].
    assert (0 <= (id - MIN_GIC_SPI_NUM) / SICD_IGROUP_INT_NUM <= 0x1000).
    { unfold irq_number, MIN_GIC_SPI_NUM, SICD_IGROUP_INT_NUM in *.
      split; [apply Z.div_pos; lia | apply Z.div_le_upper_bound; lia]. }
    unfold bm_sicd_set_int_group. cbv zeta. apply quiet_bind; [| intros []]; apply quiet_write_group; try done;
      unfold GICD_IGROUPN_ADDR, GICD_IGRPMODRN_ADDR; gic_place.
Qed.

Lemma quiet_init_range n lo : 0 <= lo -> lo + Z.of_nat n <= 0x1000 -> quiet (sic_init_range fuel n lo).
Proof.
  intros Hlo Hn. apply quiet_for_up. intros id Hid.
  apply quiet_bind; [apply quiet_sic_set_group; unfold irq_number; lia |]. intros [].
  apply quiet_bind; [apply quiet_irq_priority; lia | intros; apply quiet_ret].
Qed.

Context `{GW : !GicWakes D fuel}.

Lemma quiet_sicc_init : quiet bm_sicc_init.
Proof.
  assert (forall r f, quiet (sys_rmw r f)) as Hrmw.
  { intros r f. apply quiet_bind; [apply quiet_sys; intros; apply gic_sy | intros; by apply quiet_gic_sys]. }
  unfold bm_sicc_init, bm_sicc_enable_sre, bm_sicc_cfg_int_preempt, bm_sicc_enable_group1, bm_sicc_cfg_priority_mask.
  quiet_steps; try apply gic_sy; apply Hrmw.
Qed.

(** Initialisation, on any core. *)
Lemma quiet_hwi_init host entry : quiet (bm_hwi_init fuel host entry).
Proof.
  unfold bm_hwi_init, bm_sic_init_local, bm_sicr_init. apply quiet_bind; [by apply quiet_gic_sys | intros []].
  apply quiet_bind.
  - apply quiet_bind.
    + apply quiet_with_core; [done |]. intros c Hc.
      apply quiet_bind; [apply quiet_gic_read; [done |]; apply low_ok; gic_place |]. intros v. cbv zeta.
      apply quiet_bind; [apply quiet_gic_write; [done |]; apply low_ok; gic_place |]. intros [].
      apply quiet_gic_poll; [done | apply waker_settles | apply low_ok; gic_place].
    + intros []. apply quiet_bind; [apply quiet_sicc_init |]. intros r.
      destruct (negb _); [apply quiet_ret |]. apply quiet_bind; [apply quiet_init_range; lia | intros; apply quiet_ret].
  - intros r. destruct (negb _); [apply quiet_ret |]. apply quiet_with_core; [done |]. intros c Hc.
    apply quiet_bind; [| intros; apply quiet_ret]. apply quiet_when. unfold bm_sic_init_global, bm_sicd_init.
    apply quiet_bind; [| intros []; apply quiet_init_range; unfold MIN_GIC_SPI_NUM; lia].
    apply quiet_bind; [apply quiet_gic_read; [done |]; apply low_ok; gic_place |]. intros v.
    destruct (_ || _); [apply quiet_ret |]. cbv zeta.
    apply quiet_bind; [apply quiet_gic_write; [done |]; apply low_ok; gic_place | intros; by apply quiet_distributor_wait].
Qed.

Lemma quiet_trigger {H A} `{HG : !Has G (gic H A)} id map : irq_number id ->
  quiet (bm_hwi_trigger (H := H) (A := A) id map).
Proof.
  intros Hi. unfold bm_hwi_trigger. destruct (MIN_PPI_ID <=? id); [apply quiet_ret |].
  destruct (_ || _); [apply quiet_ret |]. apply quiet_with_core; [done |]. intros c Hc.
  apply quiet_bind; [destruct (id <? MIN_GIC_SPI_NUM); [by apply quiet_gicr_state | by apply quiet_gicd_state] |].
  intros st. destruct (negb _); [apply quiet_ret |]. quiet_steps; apply gic_sy.
Qed.
End Operations.

(** ** Groups *)
Lemma set_group_bits_testbit b bit v i : fits 32 v -> 0 <= bit < 32 -> 0 <= i ->
  Z.testbit (set_group_bits b bit v) i = if i =? bit then b else Z.testbit v i.
Proof.
  intros Hv Hb Hi. unfold set_group_bits. rewrite Z.shiftl_1_l. rewrite wrap_id by (split; [lia | apply Z.pow_lt_mono_r; lia]).
  destruct b.
  - rewrite Z.lor_spec, Z.pow2_bits_eqb by lia. destruct (Z.eqb_spec i bit) as [-> |].
    + by rewrite Z.eqb_refl, orb_true_r.
    + replace (bit =? i) with false by lia. apply orb_false_r.
  - unfold bnot. rewrite Z.land_spec, wrap_spec, Z.lnot_spec, Z.pow2_bits_eqb by lia.
    destruct (Z.eqb_spec i bit) as [-> |].
    + rewrite Z.eqb_refl. by rewrite !andb_false_r.
    + replace (bit =? i) with false by lia. destruct (Z.ltb_spec i 32); cbn [negb andb]; [apply andb_true_r |].
      by rewrite (fits_testbit 32 v i) by (done || lia).
Qed.

Lemma set_group_bits_fits b bit v : fits 32 v -> 0 <= bit < 32 -> fits 32 (set_group_bits b bit v).
Proof.
  intros Hv Hb. unfold set_group_bits. destruct b.
  - apply lor_fits; [lia | done | by apply wrap_fits].
  - by apply land_fits_l.
Qed.

(** [v'] is [v] with bit [bit] set to [b]. *)
Definition one_bit (bit : Z) (b : bool) (v v' : Z) : Prop :=
  fits 32 v' /\ forall i, 0 <= i -> Z.testbit v' i = if i =? bit then b else Z.testbit v i.

(** the group of a shared interrupt.  Exactly two bits are written, one in
    each of the two group arrays of the distributor, at the place that belongs
    to the interrupt 32 numbers below the one asked for: the arrays have a
    place for the 32 private interrupts too, which the driver leaves out. *)
Theorem spi_group_misplaced {G D : Type} `{MD : Machine D} id g (w : world G D) :
  32 <= id <= 288 ->
  emits (bm_sicd_set_int_group id g) w (fun _ t => exists x x' y y',
    fits 32 x /\ fits 32 y /\
    t = [Rd (irq_word GICD_IGROUPN_ADDR (id - 32)) x; Wr (irq_word GICD_IGROUPN_ADDR (id - 32)) x';
         Rd (irq_word GICD_IGRPMODRN_ADDR (id - 32)) y; Wr (irq_word GICD_IGRPMODRN_ADDR (id - 32)) y'] /\
    one_bit ((id - 32) mod 32) (bool_decide (g = SIC_GROUP_G1NS)) x x' /\
    one_bit ((id - 32) mod 32) (bool_decide (g = SIC_GROUP_G1S)) y y').
Proof.
  intros Hid. unfold bm_sicd_set_int_group, sicr_write_group, MIN_GIC_SPI_NUM, SICD_IGROUP_INT_NUM. cbv zeta.
  unfold irq_word. rewrite !(Z.mul_comm 4). set (bit := (id - 32) mod 32).
  assert (0 <= bit < 32) as Hb by (apply Z.mod_pos_bound; lia).
  emits_steps. rename v into x, v0 into y.
  assert (forall b v, fits 32 v -> one_bit bit b v (u32 (set_group_bits b bit v))) as Hone.
  { intros b v Hv'. assert (fits 32 (set_group_bits b bit v)) as Hf by (by apply set_group_bits_fits).
    split; [by rewrite wrap_id |]. intros i Hi. rewrite wrap_id by done. by apply set_group_bits_testbit. }
  eexists x, _, y, _. split_and!; [done | done | reflexivity | by apply Hone | by apply Hone].
Qed.

Lemma spi_group_misplaced_witness :
  emits (G := unit) (D := ram) (bm_sicd_set_int_group 40 SIC_GROUP_G1NS) (World tt ram0 []) (fun _ t =>
    exists x', (0x24000080, x') ∈ writes t /\ Z.testbit x' 8 = true).
Proof.
  eapply emits_mono; [apply (spi_group_misplaced 40 SIC_GROUP_G1NS (World tt ram0 [] : world unit ram)); lia |].
  cbv beta. intros _ t (x & x' & y & y' & _ & _ & -> & [_ Hx] & _). exists x'. split; [left | by rewrite Hx by lia].
Defined.

(** The initialisation on registers that are plain memory, run by the core
    that sets up the distributor: after it the group words of interrupts 0 to
    255 are all ones and that of 256 to 287 is still 0. *)
Definition sre_on : ram := Ram ∅ (fun op => if decide (op = Mrs ICC_SRE_EL1) then 7 else 0).

Example hwi_init_groups :
  match bm_hwi_init 4 0 0 (World tt sre_on []) with
  | Done r w => r = BM_OK /\ (fun i => default 0 (ram_cells (dev w) !! (0x24000080 + 4 * i))) <$> [0; 1; 2; 3; 4; 5; 6; 7; 8]
                = replicate 8 0xffffffff ++ [0]
  | Fault _ => False
  end.
Proof. vm_compute. done. Qed.
