(* ===== verification/Mcs.v ===== *)
(** * Mcs: messages to the cores that run Linux (baremetal/mcs/mcs.c, mcs.h)

    Endpoints of OpenAMP over shared memory.  libmetal and open-amp are
    vendored: their functions are the class [OpenAmp], which the operations
    here call on the channel (the index in [g_mcs_data]) whose endpoint the C
    code passes.  Of a [struct rpmsg_endpoint] the code reads the name and the
    address.  Names and their pointers are [option string] (NULL is [None]).
    The allocator that [mcs_init] sets up is that of [Fscmem]. *)
From stdpp Require Import prelude gmap list strings.
From Stdlib Require Import ZArith Lia.
From S2P Require Import Prelude Hw Common Mem Gic Fscmem.
Local Open Scope Z_scope.

(** ** bm_config.h, mcs.h *)
Definition EPT_NUM : Z := 5.
Definition MCS_CORE_ID : Z := 2.
Definition ENDPOINT_SHUTDOWN : string := "shutdown".
Definition VDEV_STATUS_SIZE : Z := 0x4000.
Definition VRING_COUNT : Z := 2.
Definition VRING_ALIGNMENT : Z := 4.
Definition VRING_SIZE : Z := 16.
Definition VIRTQUEUE_ID : Z := 1.
Definition OS_OPENAMP_NOTIFY_HWI_NUM : Z := 7.
Definition OS_OPENAMP_NOTIFY_HWI_PRIO : Z := 0.
Definition CHANNEL_FREE : Z := 0.
Definition CHANNEL_USED : Z := 1.

(** The memory map ([MMU_OPENAMP_ADDR] and its size), a build option, and the
    constants of open-amp. *)
Class McsConfig := {
  VDEV_START_ADDR : Z; VDEV_SIZE : Z;
  BM_ADDR_PROTECT : bool;
  RPMSG_BUFFER_SIZE : Z; RPMSG_REMOTE : Z; RPMSG_ADDR_ANY : Z;
}.

Definition VDEV_STATUS_ADDR `{McsConfig} : Z := VDEV_START_ADDR.
Definition SHARE_MEM_START_ADDR `{McsConfig} : Z := VDEV_START_ADDR + VDEV_STATUS_SIZE.
Definition SHARE_MEM_SIZE `{McsConfig} : Z := VDEV_SIZE - VDEV_STATUS_SIZE.
Definition VRING_RX_ADDRESS `{McsConfig} : Z := VDEV_START_ADDR + SHARE_MEM_SIZE - VDEV_STATUS_SIZE.
Definition VRING_TX_ADDRESS `{McsConfig} : Z := VDEV_START_ADDR + SHARE_MEM_SIZE.
Definition RPMSG_ROLE `{McsConfig} : Z := RPMSG_REMOTE.

(** ** The state *)
Record rpmsg_endpoint := Ept { ept_name : string; ept_addr : Z }.
Record mcs_info := McsInfo { ept : rpmsg_endpoint; callback : Z; g_channel : Z }.
(** After [memset_s] of the whole structure, and before any use. *)
Definition mcs_info_zero : mcs_info := McsInfo (Ept "" 0) 0 CHANNEL_FREE.

Record virtio_vring_info := VringInfo {
  vr_io : Z; vr_vq : Z; vr_vaddr : Z; vr_align : Z; vr_num_descs : Z;
}.
(** [vdev_func] tells whether [vir_dispatch] was installed. *)
Record virtio_device := Vdev { vdev_role : Z; vrings_num : Z; vdev_func : bool; vrings_info : nat }.

Record mcs := Mcs {
  g_mcs_data : list mcs_info;
  g_io : Z;
  g_rdev : Z;
  vq : list Z;
  rvrings : list virtio_vring_info;
  g_vdev : virtio_device;
}.
Definition mcs_init_state : mcs :=
  Mcs (replicate 6 mcs_info_zero) NULL NULL [NULL; NULL]
    (replicate 2 (VringInfo NULL NULL NULL VRING_ALIGNMENT 0)) (Vdev 0 0 false 0).

Definition set_mcs_info (i : Z) (e : mcs_info) (s : mcs) : mcs :=
  Mcs (<[Z.to_nat i := e]> (g_mcs_data s)) (g_io s) (g_rdev s) (vq s) (rvrings s) (g_vdev s).
Definition set_io (p : Z) (s : mcs) : mcs := Mcs (g_mcs_data s) p (g_rdev s) (vq s) (rvrings s) (g_vdev s).
Definition set_rdev (p : Z) (s : mcs) : mcs := Mcs (g_mcs_data s) (g_io s) p (vq s) (rvrings s) (g_vdev s).
Definition set_vq (i : nat) (p : Z) (s : mcs) : mcs :=
  Mcs (g_mcs_data s) (g_io s) (g_rdev s) (<[i := p]> (vq s)) (rvrings s) (g_vdev s).
Definition set_vring (i : nat) (r : virtio_vring_info) (s : mcs) : mcs :=
  Mcs (g_mcs_data s) (g_io s) (g_rdev s) (vq s) (<[i := r]> (rvrings s)) (g_vdev s).
Definition set_vdev (v : virtio_device) (s : mcs) : mcs :=
  Mcs (g_mcs_data s) (g_io s) (g_rdev s) (vq s) (rvrings s) v.

Definition use_channel (e : mcs_info) : mcs_info := McsInfo (ept e) (callback e) CHANNEL_USED.

(** ** libmetal and open-amp *)
Class OpenAmp (G D : Type) := {
  metal_init : M G D Z;
  metal_register_generic_device : M G D Z;
  metal_device_open : M G D Z;
  metal_device_io_region : M G D Z;
  virtqueue_allocate : Z -> M G D Z;
  virtqueue_free : Z -> M G D unit;
  virtqueue_notification : Z -> M G D unit;
  rpmsg_init_vdev : Z -> M G D Z;
  rpmsg_deinit_vdev : M G D unit;
  rpmsg_virtio_get_rpmsg_device : M G D Z;
  (** endpoint, device, name, address, remote address, callback *)
  rpmsg_create_ept : Z -> Z -> string -> Z -> Z -> Z -> M G D Z;
  rpmsg_destroy_ept : Z -> M G D unit;
  rpmsg_send_offchannel_nocopy_hwi : Z -> Z -> Z -> M G D Z;
  (** the buffer and what is stored through the length pointer, if anything *)
  rpmsg_get_tx_payload_buffer : Z -> Z -> M G D (Z * option Z);
  (** the C library's [free] *)
  libc_free : Z -> M G D unit;
}.

Section Mcs.
Context {G D : Type} `{MD : Machine D} `{HS : !Has G mcs} `{MC : McsConfig} `{OA : OpenAmp G D}.
Abbreviation M := (M G D).

(** *** Byte accesses to the status of the virtual device *)
Definition ldrb (addr : Z) : M Z := fun w =>
  let '(v, d) := m_load addr (dev w) in
  Done (wrap 8 v) (World (glob w) d (tr w ++ [Rd addr (wrap 8 v)])).
Definition strb (data addr : Z) : M unit := fun w =>
  Done tt (World (glob w) (m_store addr (wrap 8 data) (dev w)) (tr w ++ [Wr addr (wrap 8 data)])).
Definition sys_read8 (addr : Z) : M Z := val ← ldrb addr; sys_ Dmb ;; mret val.
Definition sys_write8 (data addr : Z) : M unit := sys_ Dmb ;; strb data addr.

Definition virtio_get_status : M Z := sys_read8 VDEV_STATUS_ADDR.
Definition virtio_set_status (status : Z) : M unit := sys_write8 status VDEV_STATUS_ADDR.
(** [VIRTIO_RPMSG_F_NS] is 0. *)
Definition virtio_get_features : Z := Z.shiftl 1 0.
Definition virtio_set_features (features : Z) : M unit := mret tt.

Section Notify.
Context {H A : Type} `{HG : !Has G (gic H A)} (fuel : nat).
(** The address of [rpmsg_hwi_handler]. *)
Context (handler_ptr : H).

Definition virtio_notify : M unit :=
  _ ← bm_hwi_trigger (H := H) (A := A) OS_OPENAMP_NOTIFY_HWI_NUM 1; mret tt.

Definition rpmsg_hwi_handler : M unit :=
  s ← gets (S := mcs);
  q ← some_or OutOfBounds (vq s !! Z.to_nat VIRTQUEUE_ID);
  virtqueue_notification q.

Definition rpmsg_hwi_init : M Z :=
  ret ← bm_irq_set_priority fuel OS_OPENAMP_NOTIFY_HWI_NUM OS_OPENAMP_NOTIFY_HWI_PRIO;
  if ctrue ret then mret BM_FAIL
  else
    ret ← bm_enable_irq fuel OS_OPENAMP_NOTIFY_HWI_NUM;
    if ctrue ret then mret BM_FAIL
    else
      ret ← bm_request_irq (H := H) (A := A) OS_OPENAMP_NOTIFY_HWI_NUM (Some handler_ptr) None;
      if ctrue ret then mret BM_FAIL else mret BM_OK.

(** The rings and the device, once both queues are there. *)
Definition describe_rings (io q0 q1 : Z) : M unit :=
  modg (S := mcs) (set_vring 0 (VringInfo io q0 VRING_TX_ADDRESS VRING_ALIGNMENT VRING_SIZE)) ;;
  modg (S := mcs) (set_vring 1 (VringInfo io q1 VRING_RX_ADDRESS VRING_ALIGNMENT VRING_SIZE)) ;;
  modg (S := mcs) (set_vdev (Vdev RPMSG_ROLE VRING_COUNT true 0)).

Definition setup_queues (io : Z) : M Z :=
  q0 ← virtqueue_allocate VRING_SIZE;
  modg (S := mcs) (set_vq 0 q0) ;;
  if q0 =? NULL then mret BM_FAIL
  else
    q1 ← virtqueue_allocate VRING_SIZE;
    modg (S := mcs) (set_vq 1 q1) ;;
    if q1 =? NULL then
      virtqueue_free q0 ;; modg (S := mcs) (set_vq 0 NULL) ;; mret BM_FAIL
    else describe_rings io q0 q1 ;; mret 0.

Definition rpmsg_backend_init : M Z :=
  r ← rpmsg_hwi_init;
  if ctrue r then mret BM_FAIL
  else
    r ← metal_init;
    if ctrue r then mret BM_FAIL
    else
      r ← metal_register_generic_device;
      if ctrue r then mret BM_FAIL
      else
        r ← metal_device_open;
        if ctrue r then mret BM_FAIL
        else
          io ← metal_device_io_region;
          modg (S := mcs) (set_io io) ;;
          if io =? NULL then mret BM_FAIL else setup_queues io.

Definition mcs_deinit : M Z :=
  rpmsg_deinit_vdev ;;
  s ← gets (S := mcs);
  when (negb (g_io s =? NULL)) (libc_free (g_io s) ;; modg (S := mcs) (set_io NULL)) ;;
  mret BM_OK.

Definition mcs_init `{HM : !Has G mem} `{HF : !Has G fsc} `{LY : FscLayout} : M Z :=
  core ← bm_get_coreid;
  if negb (core =? MCS_CORE_ID) then mret BM_FAIL
  else
    r ← bm_init_hwi;
    if ctrue r then mret BM_FAIL
    else
      r ← rpmsg_backend_init;
      if ctrue r then mret BM_FAIL
      else
        s ← gets (S := mcs);
        r ← rpmsg_init_vdev (g_io s);
        if ctrue r then mret BM_FAIL
        else
          rdev ← rpmsg_virtio_get_rpmsg_device;
          modg (S := mcs) (set_rdev rdev) ;;
          mret BM_OK.
End Notify.

(** *** Endpoints *)
Definition mcs_entry (i : Z) : M mcs_info :=
  s ← gets (S := mcs); some_or OutOfBounds (g_mcs_data s !! Z.to_nat i).

(** [for (i = 1; i < EPT_NUM + 1; ++i)], here from [i] for [n] rounds; the
    result is the index of the entry. *)
Fixpoint get_rpmsg_endpoint_from (n : nat) (i : Z) (name : string) : M (option Z) :=
  match n with
  | O => mret None
  | Datatypes.S n' =>
      e ← mcs_entry i;
      if String.eqb name (ept_name (ept e)) then mret (Some i)
      else get_rpmsg_endpoint_from n' (i + 1) name
  end.
Definition get_rpmsg_endpoint (name : string) : M (option Z) :=
  get_rpmsg_endpoint_from (Z.to_nat EPT_NUM) 1 name.

(** [*channel] is part of the result. *)
Fixpoint find_free_from (n : nat) (i : Z) : M (Z * Z) :=
  match n with
  | O => mret (BM_FAIL, 0)
  | Datatypes.S n' =>
      e ← mcs_entry i;
      if g_channel e =? CHANNEL_FREE then
        modg (S := mcs) (set_mcs_info i (use_channel e)) ;; mret (BM_OK, i)
      else find_free_from n' (i + 1)
  end.
Definition mcs_find_free_channel (channel : bool) : M (Z * Z) :=
  if negb channel then mret (BM_FAIL, 0) else find_free_from (Z.to_nat EPT_NUM) 1.

Definition bm_mcs_create_ept (ep_name : option string) (cb : Z) : M Z :=
  match ep_name with
  | None => mret BM_FAIL
  | Some name =>
      if cb =? NULL then mret BM_FAIL
      else
        r ← mcs_find_free_channel true;
        let '(err, channel) := r in
        if ctrue err then mret BM_FAIL
        else
          s ← gets (S := mcs);
          err ← rpmsg_create_ept channel (g_rdev s) name channel RPMSG_ADDR_ANY cb;
          if ctrue err then mret BM_FAIL else mret BM_OK
  end.

(** [ept->addr > EPT_NUM && ept->addr <= 0] *)
Definition addr_rejected (addr : Z) : bool := (EPT_NUM <? addr) && (addr <=? 0).

(** Clearing an entry: the sizes given to [memset_s] are equal, so it returns [EOK]. *)
Definition clear_info (addr : Z) : M unit :=
  _ ← mcs_entry addr; modg (S := mcs) (set_mcs_info addr mcs_info_zero).

Definition bm_mcs_destroy_ept (ep_name : option string) : M Z :=
  match ep_name with
  | None => mret BM_FAIL
  | Some name =>
      e ← get_rpmsg_endpoint name;
      match e with
      | None => mret BM_FAIL
      | Some i =>
          info ← mcs_entry i;
          if addr_rejected (ept_addr (ept info)) then mret BM_FAIL
          else
            rpmsg_destroy_ept i ;;
            info ← mcs_entry i;
            clear_info (ept_addr (ept info)) ;;
            mret BM_OK
      end
  end.

(** The pointer has 64 bits, the comparisons of its lower half 32. *)
Definition outside_share_mem (data len : Z) : bool :=
  let tmp := u64 (u64 data + u64 len) in
  (u32 data <? SHARE_MEM_START_ADDR) || (SHARE_MEM_START_ADDR + SHARE_MEM_SIZE <? u32 data) ||
  (tmp <? SHARE_MEM_START_ADDR) || (SHARE_MEM_START_ADDR + SHARE_MEM_SIZE <? tmp).

Definition bm_mcs_send (ep_name : option string) (data len : Z) : M Z :=
  match ep_name with
  | None => mret BM_FAIL
  | Some name =>
      if (data =? NULL) || (len <=? 0) then mret BM_FAIL
      else if BM_ADDR_PROTECT && outside_share_mem data len then mret BM_FAIL
      else
        e ← get_rpmsg_endpoint name;
        match e with
        | None => mret BM_FAIL
        | Some i =>
            if RPMSG_BUFFER_SIZE - 16 <? len then mret BM_FAIL
            else rpmsg_send_offchannel_nocopy_hwi i data len
        end
  end.

(** [buffer_len] tells whether the pointer is not NULL. *)
Definition bm_mcs_get_zero_cpy_data_addr (ep_name : option string) (buffer_len : bool) : M (Z * option Z) :=
  match ep_name with
  | None => mret (NULL, None)
  | Some name =>
      if negb buffer_len then mret (NULL, None)
      else
        e ← get_rpmsg_endpoint name;
        match e with
        | None => mret (NULL, None)
        | Some i => rpmsg_get_tx_payload_buffer i 1
        end
  end.

(** The firmware turns the board off. *)
Definition bm_mcs_shutdown : M unit := sys_ (Smc 0x84000002).
End Mcs.
