(* ===== verification/McsProps.v ===== *)
(** * McsProps: what the endpoint table guarantees

    Creating and destroying endpoints as a round trip, what a failed creation
    leaves behind, sending, and setting up the rings, for any libmetal and
    open-amp with the behaviour [OpenAmpLaws] states. *)
From stdpp Require Import prelude gmap list strings.
From Stdlib Require Import ZArith Lia.
From S2P Require Import Prelude Hw Common Mem Gic GicProps GicQuiet Mcs.
Local Open Scope Z_scope.

(** ** The table *)

(** The endpoint of channel [i] replaced; the channel marked used. *)
Definition with_ept (i : Z) (p : rpmsg_endpoint) (s : mcs) : mcs :=
  Mcs (alter (fun e => McsInfo p (callback e) (g_channel e)) (Z.to_nat i) (g_mcs_data s))
    (g_io s) (g_rdev s) (vq s) (rvrings s) (g_vdev s).

Record mcs_wf (s : mcs) : Prop := {
  wf_length : length (g_mcs_data s) = 6%nat;
  wf_free i e : g_mcs_data s !! i = Some e -> g_channel e = CHANNEL_FREE -> e = mcs_info_zero;
  wf_named i e : g_mcs_data s !! i = Some e -> ept_name (ept e) <> "" -> ept_addr (ept e) = Z.of_nat i;
}.

(** The first channel, from 1, that satisfies [f]. *)
Fixpoint first_from (n : nat) (i : Z) (f : mcs_info -> bool) (s : mcs) : option Z :=
  match n with
  | O => None
  | Datatypes.S n' =>
      if from_option f false (g_mcs_data s !! Z.to_nat i) then Some i else first_from n' (i + 1) f s
  end.
Definition first_channel (f : mcs_info -> bool) (s : mcs) : option Z := first_from 5 1 f s.

Definition is_free (e : mcs_info) : bool := g_channel e =? CHANNEL_FREE.
Definition is_named (name : string) (e : mcs_info) : bool := String.eqb name (ept_name (ept e)).
Definition lookup_name (name : string) (s : mcs) : option Z := first_channel (is_named name) s.
Definition free_channels (s : mcs) : nat := length (filter (fun e => is_free e = true) (drop 1 (g_mcs_data s))).

Lemma first_from_spec n i f s :
  match first_from n i f s with
  | Some k => i <= k < i + Z.of_nat n /\ (exists e, g_mcs_data s !! Z.to_nat k = Some e /\ f e = true) /\
      forall j e, i <= j < k -> g_mcs_data s !! Z.to_nat j = Some e -> f e = false
  | None => forall j e, i <= j < i + Z.of_nat n -> g_mcs_data s !! Z.to_nat j = Some e -> f e = false
  end.
Proof.
  revert i. induction n as [| n IH]; intros i; cbn [first_from]; [intros ? ? H; exfalso; lia |].
  destruct (from_option f false (g_mcs_data s !! Z.to_nat i)) eqn:Ef.
  - destruct (g_mcs_data s !! Z.to_nat i) as [e |] eqn:E; [| done].
    split; [lia |]. split; [by exists e | intros ? ? H; exfalso; lia].
  - assert (forall e, g_mcs_data s !! Z.to_nat i = Some e -> f e = false) as Hi by (intros e E; by rewrite E in Ef).
    specialize (IH (i + 1)). destruct (first_from n (i + 1) f s) as [k |].
    + destruct IH as (Hk & He & Hb). split; [lia |]. split; [done |]. intros j e Hj.
      destruct (decide (j = i)) as [-> |]; [apply Hi | apply Hb; lia].
    + intros j e Hj. destruct (decide (j = i)) as [-> |]; [apply Hi | apply IH; lia].
Qed.

Lemma first_channel_some f s k : first_channel f s = Some k ->
  1 <= k < 6 /\ (exists e, g_mcs_data s !! Z.to_nat k = Some e /\ f e = true) /\
  forall j e, 1 <= j < k -> g_mcs_data s !! Z.to_nat j = Some e -> f e = false.
Proof. intros E. pose proof (first_from_spec 5 1 f s) as H. unfold first_channel in E. by rewrite E in H. Qed.

(** The first one is the first one. *)
Lemma first_channel_is f s k e : 1 <= k < 6 -> g_mcs_data s !! Z.to_nat k = Some e -> f e = true ->
  (forall j e, 1 <= j < k -> g_mcs_data s !! Z.to_nat j = Some e -> f e = false) ->
  first_channel f s = Some k.
Proof.
  intros Hk He Hf Hb. pose proof (first_from_spec 5 1 f s) as H. unfold first_channel.
  destruct (first_from 5 1 f s) as [k' |].
  - destruct H as (Hk' & (e' & He' & Hf') & Hb'). f_equal.
    destruct (Z.lt_trichotomy k k') as [Hlt | [-> | Hlt]]; [| done |].
    + pose proof (Hb' k e ltac:(lia) He). congruence.
    + pose proof (Hb k' e' ltac:(lia) He'). congruence.
  - pose proof (H k e ltac:(lia) He). congruence.
Qed.

Section Table.
Context {G D : Type} `{MD : Machine D} `{HS : !Has G mcs}.
Implicit Types (w : world G D).
Abbreviation table w := (hget (S := mcs) (glob w)).

Lemma entry_run i e w : g_mcs_data (table w) !! Z.to_nat i = Some e -> mcs_entry i w = Done e w.
Proof. intros E. unfold mcs_entry, mbind, M_bind, gets. by rewrite E. Qed.

Lemma entry_ex i w : length (g_mcs_data (table w)) = 6%nat -> 0 <= i < 6 ->
  exists e, g_mcs_data (table w) !! Z.to_nat i = Some e /\ mcs_entry i w = Done e w.
Proof.
  intros Hl Hi. destruct (lookup_lt_is_Some_2 (g_mcs_data (table w)) (Z.to_nat i)) as [e He]; [lia |].
  exists e. split; [done | by apply entry_run].
Qed.

Lemma lookup_run name w : length (g_mcs_data (table w)) = 6%nat ->
  get_rpmsg_endpoint name w = Done (lookup_name name (table w)) w.
Proof.
  intros Hl. unfold get_rpmsg_endpoint, lookup_name, first_channel. change (Z.to_nat EPT_NUM) with 5%nat.
  enough (forall n i, 0 <= i -> i + Z.of_nat n <= 6 -> get_rpmsg_endpoint_from n i name w =
    Done (first_from n i (is_named name) (table w)) w) as H by (apply H; lia).
  induction n as [| n IH]; intros i Hi Hn; cbn [get_rpmsg_endpoint_from first_from]; [done |].
  destruct (entry_ex i w Hl) as (e & He & Hr); [lia |].
  unfold mbind at 1, M_bind at 1. rewrite Hr, He. cbn [from_option]. unfold is_named at 1.
  destruct (String.eqb name (ept_name (ept e))); [done | apply IH; lia].
Qed.

Lemma wp_find_free w (Q : Z * Z -> world G D -> Prop) : length (g_mcs_data (table w)) = 6%nat ->
  match first_channel is_free (table w) with
  | None => Q (BM_FAIL, 0) w
  | Some i => forall e, g_mcs_data (table w) !! Z.to_nat i = Some e ->
      Q (BM_OK, i) (World (hput (set_mcs_info i (use_channel e) (table w)) (glob w)) (dev w) (tr w))
  end -> wp (mcs_find_free_channel true) Q w.
Proof.
  intros Hl. unfold mcs_find_free_channel, first_channel. cbn [negb]. change (Z.to_nat EPT_NUM) with 5%nat.
  enough (forall n i, 0 <= i -> i + Z.of_nat n <= 6 ->
    match first_from n i is_free (table w) with
    | None => Q (BM_FAIL, 0) w
    | Some i => forall e, g_mcs_data (table w) !! Z.to_nat i = Some e ->
      Q (BM_OK, i) (World (hput (set_mcs_info i (use_channel e) (table w)) (glob w)) (dev w) (tr w))
    end -> wp (find_free_from n i) Q w) as H by (apply H; lia).
  induction n as [| n IH]; intros i Hi Hn HQ; cbn [find_free_from first_from] in *; [by apply wp_ret |].
  destruct (entry_ex i w Hl) as (e & He & Hr); [lia |].
  apply wp_bind. unfold wp at 1. rewrite Hr. rewrite He in HQ. cbn [from_option] in HQ. unfold is_free at 1 in HQ.
  destruct (g_channel e =? CHANNEL_FREE); [| apply IH; [lia | lia | done]].
  wp_steps. by apply HQ.
Qed.
End Table.

(** ** What the code relies on *)

(** open-amp fills in an endpoint that it registers and leaves one that it
    refuses; one whose announcement fails is filled in and taken off the list
    of the device again.  Destroying takes it off the list and does not touch
    the name or the address. *)
Class OpenAmpLaws (G D : Type) `{MD : Machine D} `{HS : !Has G mcs} `{MC : McsConfig} `{OA : !OpenAmp G D} := {
  create_ept_law ch rdev name cb (w : world G D) e :
    g_mcs_data (hget (S := mcs) (glob w)) !! Z.to_nat ch = Some e -> (String.length name < 32)%nat ->
    wp (rpmsg_create_ept ch rdev name ch RPMSG_ADDR_ANY cb) (fun r w' => exists p,
      hget (S := mcs) (glob w') = with_ept ch p (hget (glob w)) /\ (p = Ept name ch \/ r <> 0 /\ p = ept e)) w;
  destroy_ept_law ch (w : world G D) :
    wp (rpmsg_destroy_ept ch) (fun _ w' => hget (S := mcs) (glob w') = hget (glob w)) w;
}.

Definition occupied (i : Z) (p : rpmsg_endpoint) (s : mcs) : mcs := set_mcs_info i (McsInfo p 0 CHANNEL_USED) s.

Lemma occupy_free i e p s : mcs_wf s -> g_mcs_data s !! Z.to_nat i = Some e -> is_free e = true ->
  with_ept i p (set_mcs_info i (use_channel e) s) = occupied i p s.
Proof.
  intros Hs He Hf. assert (e = mcs_info_zero) as -> by (eapply (wf_free s Hs); [exact He | unfold is_free in Hf; lia]).
  unfold with_ept, occupied, set_mcs_info. cbn. f_equal.
  apply list_eq. intros j. assert (Z.to_nat i < length (g_mcs_data s))%nat by (by eapply lookup_lt_Some).
  destruct (decide (j = Z.to_nat i)) as [-> | Hne].
  - by rewrite list_lookup_alter_eq, !list_lookup_insert_eq.
  - by rewrite list_lookup_alter_ne, !list_lookup_insert_ne.
Qed.

Lemma set_info_lookup i x s j e : length (g_mcs_data s) = 6%nat -> 0 <= i < 6 ->
  g_mcs_data (set_mcs_info i x s) !! j = Some e <->
  (j = Z.to_nat i /\ e = x) \/ (j <> Z.to_nat i /\ g_mcs_data s !! j = Some e).
Proof.
  intros Hl Hi. cbn. destruct (decide (j = Z.to_nat i)) as [-> | Hne].
  - rewrite list_lookup_insert_eq by lia. split; [intros [= <-]; by left | by intros [[_ ->] | [? _]]].
  - rewrite list_lookup_insert_ne by done. split; [by right | by intros [[? _] | [_ ?]]].
Qed.

Lemma set_mcs_info_wf i x s : mcs_wf s -> 0 <= i < 6 ->
  (g_channel x = CHANNEL_FREE -> x = mcs_info_zero) -> (ept_name (ept x) <> "" -> ept_addr (ept x) = i) ->
  mcs_wf (set_mcs_info i x s).
Proof.
  intros Hs Hi Hf Hn. pose proof (wf_length s Hs) as Hl. split.
  - cbn. by rewrite length_insert.
  - intros j e He. apply set_info_lookup in He as [[-> ->] | [_ He]]; [done | by apply (wf_free s Hs j) | done | done].
  - intros j e He. apply set_info_lookup in He as [[-> ->] | [_ He]]; [| by apply (wf_named s Hs) | done | done].
    intros Hne. rewrite Z2Nat.id by lia. by apply Hn.
Qed.

(** One channel less. *)
Lemma free_channels_set i x e s : 1 <= i < 6 -> g_mcs_data s !! Z.to_nat i = Some e -> is_free e = true ->
  is_free x = false -> S (free_channels (set_mcs_info i x s)) = free_channels s.
Proof.
  intros Hi He Hf Hx. unfold free_channels. cbn. rewrite drop_insert_ge by lia.
  assert (drop 1 (g_mcs_data s) !! (Z.to_nat i - 1)%nat = Some e) as Hd.
  { rewrite lookup_drop. by replace (1 + (Z.to_nat i - 1))%nat with (Z.to_nat i) by lia. }
  revert Hd. generalize (drop 1 (g_mcs_data s)) as l, (Z.to_nat i - 1)%nat as k. induction l as [| y l IH]; intros k; [done |].
  destruct k as [| k]; intros Hk; cbn [lookup list_lookup insert list_insert] in *.
  - injection Hk as ->. rewrite filter_cons_False, filter_cons_True by congruence. done.
  - destruct (decide (is_free y = true)); [rewrite !filter_cons_True by done | rewrite !filter_cons_False by done];
      cbn [length]; rewrite <- (IH k); done.
Qed.

(** ** Creating, destroying, sending *)
Section Endpoints.
Context {G D : Type} `{MD : Machine D} `{HS : !Has G mcs} `{MC : McsConfig} `{OA : !OpenAmp G D} `{OL : !OpenAmpLaws G D}.
Implicit Types (w : world G D).
Abbreviation table w := (hget (S := mcs) (glob w)).

Lemma create_spec name cb w : mcs_wf (table w) -> (String.length name < 32)%nat -> cb <> NULL ->
  wp (bm_mcs_create_ept (Some name) cb) (fun r w' =>
    match first_channel is_free (table w) with
    | None => r = BM_FAIL /\ w' = w
    | Some i => exists p, table w' = occupied i p (table w) /\
        (r = BM_OK /\ p = Ept name i \/ r = BM_FAIL /\ (p = Ept name i \/ p = Ept "" 0))
    end) w.
Proof.
  intros Hs Hn Hcb. unfold bm_mcs_create_ept. replace (cb =? NULL) with false by lia.
  apply wp_bind, wp_find_free; [apply Hs |].
  destruct (first_channel is_free (table w)) as [i |] eqn:Ei; [| by apply wp_ret].
  apply first_channel_some in Ei as (Hi & (e & He & Hf) & _). intros e' He'. assert (e' = e) as -> by congruence.
  change (ctrue BM_OK) with false. cbv iota. wp_step. wp_step. wp_step.
  assert (e = mcs_info_zero) as He0 by (apply (wf_free _ Hs _ _ He); unfold is_free in Hf; lia).
  eapply wp_mono; [apply (create_ept_law i _ name cb _ (use_channel e)) |].
  - cbn [glob]. rewrite hget_hput. apply set_info_lookup; [apply Hs | lia | by left].
  - done.
  - cbv beta. cbn [glob]. rewrite hget_hput. intros r w' (p & Hp & Hcase).
    rewrite (occupy_free i e p) in Hp by done.
    assert (ept (use_channel e) = Ept "" 0) as Hz by (by rewrite He0). rewrite Hz in Hcase.
    destruct (ctrue r) eqn:Er; apply wp_ret; exists p; (split; [done |]).
    + right. split; [done |]. by destruct Hcase as [-> | [_ ->]]; [left | right].
    + left. split; [done |]. destruct Hcase as [-> | [Hr _]]; [done |]. unfold ctrue in Er. lia.
Qed.

Lemma occupied_wf i p s : mcs_wf s -> 1 <= i < 6 -> (ept_name p <> "" -> ept_addr p = i) -> mcs_wf (occupied i p s).
Proof. intros Hs Hi Hp. apply set_mcs_info_wf; [done | lia | done | done]. Qed.

(** C30: creating an endpoint.  Without a name or a callback nothing happens,
    and without a free channel neither.  Otherwise the lowest free channel is
    taken: on success its endpoint has the name and the channel's number for
    address.  When open-amp fails the call fails, but the channel stays taken:
    whatever the outcome there is one free channel less, so that five failures
    leave none. *)
Theorem mcs_create_contract name cb w : mcs_wf (table w) ->
  (forall n, name = Some n -> (String.length n < 32)%nat) ->
  wp (bm_mcs_create_ept name cb) (fun r w' =>
    match name, first_channel is_free (table w) with
    | Some n, Some i =>
        if cb =? NULL then r = BM_FAIL /\ w' = w
        else exists p, table w' = occupied i p (table w) /\ mcs_wf (table w') /\
          S (free_channels (table w')) = free_channels (table w) /\
          (r = BM_OK /\ p = Ept n i \/ r = BM_FAIL /\ (p = Ept n i \/ p = Ept "" 0))
    | _, _ => r = BM_FAIL /\ w' = w
    end) w.
Proof.
  intros Hs Hn. destruct name as [n |]; [| by apply wp_ret]. specialize (Hn n eq_refl).
  destruct (Z.eqb_spec cb NULL) as [-> | Hcb].
  { destruct (first_channel is_free (table w)); by apply wp_ret. }
  eapply wp_mono; [by apply create_spec |]. cbv beta. intros r w'.
  destruct (first_channel is_free (table w)) as [i |] eqn:Ei; [| done].
  apply first_channel_some in Ei as (Hi & (e & He & Hf) & _). intros (p & Hp & Hcase).
  exists p. rewrite Hp. split; [done |]. split; [| split; [by eapply free_channels_set | done]].
  apply occupied_wf; [done | done |]. by destruct Hcase as [[_ ->] | [_ [-> | ->]]].
Qed.

Lemma destroy_spec name i e w : length (g_mcs_data (table w)) = 6%nat -> lookup_name name (table w) = Some i ->
  g_mcs_data (table w) !! Z.to_nat i = Some e -> 0 <= ept_addr (ept e) < 6 ->
  wp (bm_mcs_destroy_ept (Some name)) (fun r w' => r = BM_OK /\
    table w' = set_mcs_info (ept_addr (ept e)) mcs_info_zero (table w)) w.
Proof.
  intros Hl Hi He Ha. unfold bm_mcs_destroy_ept. apply wp_bind. unfold wp at 1. rewrite lookup_run, Hi by done.
  apply wp_bind. unfold wp at 1. rewrite (entry_run i e) by done.
  replace (addr_rejected (ept_addr (ept e))) with false by (unfold addr_rejected, EPT_NUM; lia).
  wp_step. eapply wp_mono; [apply destroy_ept_law |]. cbv beta. intros _ w1 Hw1. rewrite <- Hw1 in He, Hl.
  wp_step. unfold wp at 1. rewrite (entry_run i e) by done.
  unfold clear_info. do 2 wp_step. destruct (entry_ex (ept_addr (ept e)) w1 Hl) as (x & _ & Hx); [lia |].
  unfold wp at 1. rewrite Hx. wp_steps. rewrite hget_hput, Hw1. done.
Qed.

(** creating and destroying.  A name that is not in use, once created, is
    found at the channel that was free; destroying it gives back exactly the
    table from before, so that the channel can be used again. *)
Theorem mcs_create_destroy name cb i w : mcs_wf (table w) -> name <> "" -> (String.length name < 32)%nat ->
  cb <> NULL -> lookup_name name (table w) = None -> first_channel is_free (table w) = Some i ->
  wp (bm_mcs_create_ept (Some name) cb) (fun r w1 => r = BM_OK ->
    lookup_name name (table w1) = Some i /\
    wp (bm_mcs_destroy_ept (Some name)) (fun r' w2 => r' = BM_OK /\ table w2 = table w) w1) w.
Proof.
  intros Hs Hne Hn Hcb Hno Hi. eapply wp_mono; [by apply create_spec |]. cbv beta. rewrite Hi.
  intros r w1 (p & Hp & Hcase) ->. destruct Hcase as [[_ ->] | [? _]]; [| done].
  apply first_channel_some in Hi as (Hr & (e & He & Hf) & _).
  assert (length (g_mcs_data (table w1)) = 6%nat) as Hl by (rewrite Hp; cbn; rewrite length_insert; apply Hs).
  assert (g_mcs_data (table w1) !! Z.to_nat i = Some (McsInfo (Ept name i) 0 CHANNEL_USED)) as He1.
  { rewrite Hp. apply set_info_lookup; [apply Hs | lia | by left]. }
  assert (lookup_name name (table w1) = Some i) as Hlook.
  { eapply first_channel_is; [done | exact He1 | apply String.eqb_refl |].
    intros j x Hj Hx. rewrite Hp in Hx. apply set_info_lookup in Hx as [[Hji _] | [_ Hx]]; [lia | | apply Hs | lia].
    pose proof (first_from_spec 5 1 (is_named name) (table w)) as H. unfold lookup_name, first_channel in Hno.
    rewrite Hno in H. apply (H j); [lia | done]. }
  split; [done |]. eapply wp_mono; [eapply destroy_spec; [done | done | exact He1 | cbn; lia] |]. cbv beta.
  intros r' w2 [-> ->]. split; [done |]. rewrite Hp. cbn [ept ept_addr].
  assert (e = mcs_info_zero) as He0 by (apply (wf_free _ Hs _ _ He); unfold is_free in Hf; lia).
  unfold occupied, set_mcs_info. cbn. rewrite list_insert_insert_eq.
  rewrite list_insert_id by (by rewrite He, He0). by destruct (table w).
Qed.

(** The data lies in the shared area. *)
Lemma outside_share_mem_spec data len : fits 32 data -> 0 < len < 2 ^ 31 ->
  fits 32 (SHARE_MEM_START_ADDR + SHARE_MEM_SIZE) -> 
  outside_share_mem data len =
    negb ((SHARE_MEM_START_ADDR <=? data) && (data + len <=? SHARE_MEM_START_ADDR + SHARE_MEM_SIZE)).
Proof.
  intros Hd Hl He. unfold outside_share_mem. unfold fits in *.
  rewrite (wrap_id 32 data), (wrap_id 64 data), (wrap_id 64 len), (wrap_id 64 (data + len)); unfold fits; lia.
Qed.

(** C31: sending.  The message is handed to open-amp, once and unchanged, and
    only if it has at least one byte and at most what a buffer holds behind
    its header, lies in the shared area when the check is compiled in, and
    the name is found; otherwise nothing happens. *)
Theorem mcs_send_contract name data len w : length (g_mcs_data (table w)) = 6%nat ->
  fits 32 data -> len < 2 ^ 31 -> fits 32 (SHARE_MEM_START_ADDR + SHARE_MEM_SIZE) ->
  bm_mcs_send name data len w =
    match n ← name; lookup_name n (table w) with
    | Some i =>
        if (negb (data =? NULL) && (0 <? len) && (len <=? RPMSG_BUFFER_SIZE - 16) &&
            (negb BM_ADDR_PROTECT ||
             (SHARE_MEM_START_ADDR <=? data) && (data + len <=? SHARE_MEM_START_ADDR + SHARE_MEM_SIZE)))
        then rpmsg_send_offchannel_nocopy_hwi i data len w
        else Done BM_FAIL w
    | None => Done BM_FAIL w
    end.
Proof.
  intros Hl Hd Hlen He. destruct name as [n |]; [| done]. cbn [mbind option_bind]. unfold bm_mcs_send.
  assert (forall (o : option Z) (x : outcome (world G D) Z), x = Done BM_FAIL w ->
    x = match o with Some _ => Done BM_FAIL w | None => Done BM_FAIL w end) as Hnone by (by intros [] x ->).
  destruct (data =? NULL); cbn [orb negb andb]; [by apply Hnone |].
  destruct (Z.leb_spec len 0) as [Hle | Hgt].
  { replace (0 <? len) with false by lia. by apply Hnone. }
  replace (0 <? len) with true by lia. cbn [andb].
  rewrite (outside_share_mem_spec data len) by (done || lia).
  set (inside := (SHARE_MEM_START_ADDR <=? data) && _).
  destruct BM_ADDR_PROTECT, inside; cbn [andb orb negb]; rewrite ?andb_false_r; try (by apply Hnone).
  all: unfold mbind, M_bind; rewrite (lookup_run n w) by done; destruct (lookup_name n (table w)) as [i |]; [| done];
    rewrite andb_true_r; destruct (Z.leb_spec len (RPMSG_BUFFER_SIZE - 16));
    [replace (RPMSG_BUFFER_SIZE - 16 <? len) with false by lia | replace (RPMSG_BUFFER_SIZE - 16 <? len) with true by lia]; done.
Qed.
End Endpoints.

(** ** Setting up *)
Abbreviation anything := (fun _ : event => True).

#[export] Instance anything_gic : AllowsGic anything.
Proof. by split. Qed.

(** The set-up calls of libmetal and open-amp keep their hands off this
    component and the interrupt controller's table. *)
Definition aside (H A : Type) {G D X} `{HS : !Has G mcs} `{HG : !Has G (gic H A)} (m : M G D X) : Prop :=
  quiet mcs anything m /\ quiet (gic H A) anything m.

Class SetupLaws (H A G D : Type) `{MD : Machine D} `{HS : !Has G mcs} `{HG : !Has G (gic H A)} `{OA : !OpenAmp G D} := {
  metal_init_law : aside H A metal_init;
  metal_register_law : aside H A metal_register_generic_device;
  metal_open_law : aside H A metal_device_open;
  metal_region_law : aside H A metal_device_io_region;
  vq_allocate_law n : aside H A (virtqueue_allocate n);
  vq_free_law q : aside H A (virtqueue_free q);
}.

Lemma insert_pair {X} (l : list X) a b : length l = 2%nat -> <[1%nat := b]> (<[0%nat := a]> l) = [a; b].
Proof. by destruct l as [| ? [| ? []]]. Qed.
Lemma head_insert {X} (l : list X) a : (0 < length l)%nat -> head (<[0%nat := a]> l) = Some a.
Proof. destruct l; [cbn; lia | done]. Qed.

Section Setup.
Context {G D : Type} `{MD : Machine D} `{HS : !Has G mcs} `{MC : McsConfig} `{OA : !OpenAmp G D}.
Context {H A : Type} `{HG : !Has G (gic H A)} `{IN : !Indep G mcs (gic H A)} `{SL : !SetupLaws H A G D}.
Context (fuel : nat) `{GQ : !GicQuiesces D fuel} (handler_ptr : H).
Implicit Types (w : world G D).
Abbreviation table w := (hget (S := mcs) (glob w)).
Abbreviation gicof w := (hget (S := gic H A) (glob w)).

Lemma wp_aside {X} (m : M G D X) (Q : X -> world G D -> Prop) w : aside H A m ->
  (forall a w', table w' = table w -> gicof w' = gicof w -> Q a w') -> wp m Q w.
Proof.
  intros [H1 H2] HQ. eapply wp_mono; [apply wp_and; [apply H1 | apply H2] |]. cbv beta.
  intros a w' [[E1 _] [E2 _]]. by apply HQ.
Qed.

Definition notified (g : gic H A) : Prop := g_irq_handlers g !! 7%nat = Some (IrqAction (Some handler_ptr) None 0).

Lemma hwi_init_spec w : (7 < length (g_irq_handlers (gicof w)))%nat ->
  wp (rpmsg_hwi_init (A := A) fuel handler_ptr) (fun r w' => table w' = table w /\
    (r = BM_OK /\ notified (gicof w') \/ r = BM_FAIL)) w.
Proof.
  intros Hl. unfold rpmsg_hwi_init. apply wp_bind, wp_aside.
  { split; apply quiet_irq_priority; (done || apply _). }
  intros r1 w1 Ht1 Hg1. destruct (ctrue r1); [apply wp_ret; auto |]. apply wp_bind, wp_aside.
  { split; [apply (quiet_irq_switch fuel _ true) | apply (quiet_irq_switch fuel _ true)]; done. }
  intros r2 w2 Ht2 Hg2. destruct (ctrue r2); [apply wp_ret; split; [congruence | auto] |].
  unfold bm_request_irq, irq_install_handler. change (MAX_INT_NUM <? OS_OPENAMP_NOTIFY_HWI_NUM) with false. cbv iota.
  wp_steps. change (ctrue BM_OK) with false. cbv iota. apply wp_ret. cbn [glob].
  rewrite indep_r, hget_hput. split; [congruence |]. left. split; [done |].
  unfold notified. cbn. apply list_lookup_insert_eq. by rewrite Hg2, Hg1.
Qed.

(** The ready component: both queues, described to open-amp. *)
Definition rings_ready (s s' : mcs) : Prop := exists io q0 q1, io <> NULL /\ q0 <> NULL /\ q1 <> NULL /\
  s' = Mcs (g_mcs_data s) io (g_rdev s) [q0; q1]
         [VringInfo io q0 VRING_TX_ADDRESS VRING_ALIGNMENT VRING_SIZE;
          VringInfo io q1 VRING_RX_ADDRESS VRING_ALIGNMENT VRING_SIZE]
         (Vdev RPMSG_ROLE VRING_COUNT true 0).
(** Nothing is described, and no queue is kept that the code could find. *)
Definition rings_refused (s s' : mcs) : Prop := g_mcs_data s' = g_mcs_data s /\ g_rdev s' = g_rdev s /\
  rvrings s' = rvrings s /\ g_vdev s' = g_vdev s /\ (vq s' = vq s \/ head (vq s') = Some NULL).

Lemma queues_spec io w : io <> NULL -> length (vq (table w)) = 2%nat -> length (rvrings (table w)) = 2%nat ->
  wp (setup_queues io) (fun r w' => gicof w' = gicof w /\
    (r = BM_OK /\ rings_ready (set_io io (table w)) (set_io io (table w')) /\ g_io (table w') = g_io (table w) \/
     r = BM_FAIL /\ rings_refused (table w) (table w') /\ g_io (table w') = g_io (table w))) w.
Proof.
  intros Hio Hq Hr. unfold setup_queues. apply wp_bind, wp_aside; [apply vq_allocate_law |]. intros q0 w1 Ht1 Hg1.
  wp_steps. rewrite Ht1. destruct (Z.eqb_spec q0 NULL) as [-> | Hn0].
  { apply wp_ret. cbn [glob]. rewrite indep_l, hget_hput. split; [done |]. right. split; [done |].
    split; [| done]. split_and!; try done. right. apply head_insert. lia. }
  wp_step. apply wp_aside; [apply vq_allocate_law |]. cbn [glob]. intros q1 w2 Ht2 Hg2.
  rewrite hget_hput in Ht2. rewrite indep_l in Hg2.
  wp_steps. rewrite Ht2. destruct (Z.eqb_spec q1 NULL) as [-> | Hn1].
  - wp_step. apply wp_aside; [apply vq_free_law |]. cbn [glob]. intros [] w3 Ht3 Hg3.
    rewrite hget_hput in Ht3. rewrite indep_l in Hg3.
    wp_steps. rewrite indep_l, hget_hput, Ht3. split; [congruence |]. right. split; [done |].
    split; [| done]. split_and!; try done. right. apply head_insert. cbn. rewrite !length_insert. lia.
  - unfold describe_rings. wp_steps. rewrite !indep_l, !hget_hput. split; [congruence |]. left. split; [done |].
    split; [| done]. exists io, q0, q1. split_and!; try done. unfold set_vdev, set_vring, set_vq, set_io. cbn.
    by rewrite !insert_pair.
Qed.

(** setting up the rings.  When it reports success both queues exist and
    are described with the addresses of the shared area, the device has its
    dispatch table, and the handler of the notification interrupt is in the
    interrupt controller's table; when it fails nothing is described and the
    first queue is not kept without the second.  Endpoints are untouched. *)
Theorem mcs_rings_set_up w : length (vq (table w)) = 2%nat -> length (rvrings (table w)) = 2%nat ->
  (7 < length (g_irq_handlers (gicof w)))%nat ->
  wp (rpmsg_backend_init (A := A) fuel handler_ptr) (fun r w' =>
    r = BM_OK /\ rings_ready (table w) (table w') /\ notified (gicof w') \/
    r = BM_FAIL /\ rings_refused (table w) (table w')) w.
Proof.
  intros Hq Hr Hl. assert (forall s, rings_refused s s) as Hrefl by (intros s; split_and!; auto).
  unfold rpmsg_backend_init. apply wp_bind. eapply wp_mono; [by apply hwi_init_spec |]. cbv beta.
  intros r w1 [Ht1 Hc]. rewrite <- Ht1 in *. destruct Hc as [[-> Hn] | ->]; [| by apply wp_ret; right].
  change (ctrue BM_OK) with false. cbv iota.
  assert (forall (m : M G D Z) f w2, aside H A m -> table w2 = table w1 -> notified (gicof w2) ->
    (forall w3, table w3 = table w1 -> notified (gicof w3) -> wp f (fun r w' =>
      r = BM_OK /\ rings_ready (table w1) (table w') /\ notified (gicof w') \/
      r = BM_FAIL /\ rings_refused (table w1) (table w')) w3) ->
    wp (r ← m; if ctrue r then mret BM_FAIL else f) (fun r w' =>
      r = BM_OK /\ rings_ready (table w1) (table w') /\ notified (gicof w') \/
      r = BM_FAIL /\ rings_refused (table w1) (table w')) w2) as Hcall.
  { intros m f w2 Hm Ht2 Hn2 Hf. apply wp_bind, wp_aside; [done |]. intros r w3 Ht3 Hg3.
    destruct (ctrue r); [apply wp_ret; right; split; [done |]; by rewrite Ht3, Ht2 | apply Hf; [congruence | by rewrite Hg3]]. }
  apply Hcall; [apply metal_init_law | done | done |]. intros w2 Ht2 Hn2.
  apply Hcall; [apply metal_register_law | done | done |]. intros w3 Ht3 Hn3.
  apply Hcall; [apply metal_open_law | done | done |]. intros w4 Ht4 Hn4.
  wp_step. apply wp_aside; [apply metal_region_law |]. intros io w5 Ht5 Hg5. wp_steps.
  assert (table w5 = table w1) as Ht by congruence. rewrite Ht.
  destruct (Z.eqb_spec io NULL) as [-> | Hio].
  { apply wp_ret. cbn [glob]. rewrite hget_hput. right. split; [done |]. split_and!; auto. }
  eapply wp_mono; [apply queues_spec; cbn [glob]; rewrite ?hget_hput; try done |]. cbv beta. cbn [glob].
  rewrite indep_l, hget_hput. intros r w' [Hg [(-> & Hrd & Hi) | (-> & Hrf & _)]]; [left | by right].
  split; [done |]. rewrite Hg, Hg5. split; [| done].
  destruct Hrd as (io' & q0 & q1 & H0 & H1 & H2 & E). cbn in Hi. exists io', q0, q1. split_and!; try done.
  unfold set_io in E. cbn in E.
  destruct (table w') as [a b c d f g]. cbn in *. congruence.
Qed.
End Setup.

(** ** An open-amp whose announcements fail on channel 1 *)
#[local] Instance demo_map : McsConfig := {|
  VDEV_START_ADDR := 0x90000000; VDEV_SIZE := 0x30000; BM_ADDR_PROTECT := true;
  RPMSG_BUFFER_SIZE := 512; RPMSG_REMOTE := 1; RPMSG_ADDR_ANY := 0xffffffff |}.

Abbreviation demo_globals := (mcs * gic Z Z)%type.
#[local] Instance demo_amp : OpenAmp demo_globals gicdev := {|
  metal_init := mret 0; metal_register_generic_device := mret 0; metal_device_open := mret 0;
  metal_device_io_region := mret 0x7000;
  virtqueue_allocate n := mret 0x8000; virtqueue_free q := mret tt; virtqueue_notification q := mret tt;
  rpmsg_init_vdev io := mret 0; rpmsg_deinit_vdev := mret tt; rpmsg_virtio_get_rpmsg_device := mret 0x9000;
  rpmsg_create_ept ch rdev name src dest cb :=
    modg (with_ept ch (Ept name src)) ;; mret (if ch =? 1 then -1 else 0);
  rpmsg_destroy_ept ch := mret tt;
  rpmsg_send_offchannel_nocopy_hwi ch data len := mret len;
  rpmsg_get_tx_payload_buffer ch wait := mret (0, None);
  libc_free p := mret tt |}.

#[local] Instance demo_laws : OpenAmpLaws demo_globals gicdev.
Proof.
  split.
  - intros ch rdev name cb w e _ _. cbn [rpmsg_create_ept demo_amp]. wp_steps. exists (Ept name ch).
    rewrite hget_hput. auto.
  - intros ch w. by apply wp_ret.
Qed.

Lemma aside_ret {H A G D X} `{HS : !Has G mcs} `{HG : !Has G (gic H A)} (a : X) : aside H A (mret a : M G D X).
Proof. split; apply quiet_ret. Qed.
#[local] Instance demo_setup : SetupLaws Z Z demo_globals gicdev.
Proof. split; intros; apply aside_ret. Qed.

Definition demo_world (s : mcs) : world demo_globals gicdev := World (s, gic_init) Fixed [].

Lemma init_state_wf : mcs_wf mcs_init_state.
Proof.
  split; [done | |]; intros i e He; apply lookup_replicate in He as [-> _]; done.
Qed.

(** Channel 1 is lost to a failed attempt; the next one gets channel 2. *)
Definition after_failure : mcs := occupied 1 (Ept "console" 1) mcs_init_state.
Lemma after_failure_wf : mcs_wf after_failure.
Proof. apply set_mcs_info_wf; [apply init_state_wf | lia | done | done]. Qed.

Lemma mcs_create_contract_witness :
  wp (bm_mcs_create_ept (Some "console") 0x100) (fun r w' => r = BM_FAIL ->
    S (free_channels (hget (glob w'))) = 5%nat) (demo_world mcs_init_state).
Proof.
  eapply wp_mono.
  - apply (mcs_create_contract (OL := demo_laws) (Some "console") 0x100 (demo_world mcs_init_state) init_state_wf).
    intros n [= <-]. cbn. lia.
  - cbv beta. intros r w' (p & _ & _ & Hf & _) _. exact Hf.
Defined.

Lemma mcs_create_destroy_witness :
  wp (bm_mcs_create_ept (Some "data") 0x100) (fun r w' => r = BM_OK ->
    lookup_name "data" (hget (glob w')) = Some 2) (demo_world after_failure).
Proof.
  eapply wp_mono.
  - apply (mcs_create_destroy (OL := demo_laws) "data" 0x100 2 (demo_world after_failure) after_failure_wf);
      [done | cbn; lia | done | reflexivity | reflexivity].
  - cbv beta. intros r w' H Hr. apply (H Hr).
Defined.

(** A client that tries again succeeds, but its name leads to the channel of
    the failed attempt. *)
Example mcs_retry_shadowed :
  let w := demo_world mcs_init_state in
  match (r1 ← bm_mcs_create_ept (Some "console") 0x100; r2 ← bm_mcs_create_ept (Some "console") 0x100;
         e ← get_rpmsg_endpoint "console"; mret (r1, r2, e)) w with
  | Done x _ => x = (BM_FAIL, BM_OK, Some 1)
  | Fault _ => False
  end.
Proof. reflexivity. Qed.

Lemma mcs_send_contract_witness :
  bm_mcs_send (Some "console") 0x90005000 496 (demo_world after_failure) = Done 496 (demo_world after_failure) /\
  bm_mcs_send (Some "console") 0x90005000 497 (demo_world after_failure) = Done BM_FAIL (demo_world after_failure).
Proof.
  pose proof (fun len => mcs_send_contract (OA := demo_amp) (Some "console") 0x90005000 len (demo_world after_failure) eq_refl
    ltac:(unfold fits; lia)) as H.
  split; (rewrite H; [reflexivity | lia | split; [discriminate | reflexivity]]).
Defined.

Lemma mcs_rings_set_up_witness :
  wp (rpmsg_backend_init (H := Z) (A := Z) 1 0x200) (fun r w' => r = BM_OK ->
    vq (hget (glob w')) = [0x8000; 0x8000] \/ length (vq (hget (S := mcs) (glob w'))) = 2%nat) (demo_world mcs_init_state).
Proof.
  eapply wp_mono.
  - apply (mcs_rings_set_up (H := Z) (A := Z) (SL := demo_setup) 1 0x200 (demo_world mcs_init_state)); [reflexivity | reflexivity | by apply Nat.ltb_lt; vm_compute].
  - cbv beta. intros r w' [(_ & (io & q0 & q1 & _ & _ & _ & E) & _) | [-> _]] Hr; [right; by rewrite E | done].
Defined.
