(* ===== verification/GmacRegs.v ===== *)
(** * GmacRegs: the registers of the Ethernet MACs (drivers/net/gmac.h, gmac_regs.h)

    The unions through which the driver looks at registers, with the fields in
    the order of the structures, the offsets of the registers the driver uses,
    and the accessors of a port's block. *)
From stdpp Require Import prelude gmap list strings.
From Stdlib Require Import ZArith Lia.
From S2P Require Import Prelude Fields Hw Common.
Local Open Scope Z_scope.

(** ** gmac.h: the unions *)
Definition u_transmit_control : layout :=
  [("reserved1", 5); ("an_enable", 1); ("crc_add", 1); ("pad_enable", 1); ("reserved0", 24)].
Definition u_rx_ctrl : layout :=
  [("cf_rxbuf_1st_skip_size2", 4); ("cf_cache_line", 3); ("cf_rx_cfg_req_en", 1);
   ("cf_cache_line_h", 2); ("cf_addr_mode", 2); ("cf_rx_get_addr_mode", 1); ("cf_port_num", 4);
   ("cf_rx_align_num", 2); ("cf_pool_num", 4); ("cf_time_inf_en", 1);
   ("cf_rxbuf_no_1st_skip_size", 4); ("cf_rxbuf_1st_skip_size", 4)].
Definition u_mac_skip_len : layout :=
  [("mac_skip_len", 6); ("mac_skip_crc", 1); ("reserved0", 25)].
Definition u_max_frm_size : layout :=
  [("max_frm_size", 16); ("reserved0", 16)].
Definition u_short_runts_thr : layout :=
  [("short_runts_thr", 5); ("reserved0", 27)].
Definition u_recv_control : layout :=
  [("reserved1", 3); ("strip_pad_en", 1); ("runt_pkt_en", 1); ("reserved0", 27)].
Definition u_port_mode : layout :=
  [("port_mode", 4); ("rgmii_1000m_delay", 1); ("reserved_0", 1); ("fifo_err_auto_rst", 1);
   ("dbg_clk_los_msk", 1); ("rmii_clk_edge", 1); ("rmii_rst", 1); ("reserved_1", 22)].
Definition u_bus_ctrl : layout :=
  [("cf_rx_alloc", 1); ("cf_endian", 2); ("cf_buf", 1); ("noncoh_en", 1); ("huser", 1);
   ("cf_pd_buf", 1); ("reserved0", 25)].
Definition u_mode_change_en : layout :=
  [("mode_change_en", 1); ("reserved0", 31)].
Definition u_rec_filt_control : layout :=
  [("uc_match_en", 1); ("mc_match_en", 1); ("bc_drop_en", 1); ("reserved_0", 1);
   ("pause_frm_pass", 1); ("crc_err_pass", 1); ("reserved0", 26)].
Definition u_rx_max_frame_len : layout :=
  [("max_frame_len", 16); ("reserved0", 16)].
Definition u_cf_intrpt_stat : layout :=
  [("reserved1", 20); ("stat_sram_parity_err", 1); ("stat_tx_ahb_err", 1); ("stat_buf_avl", 1);
   ("stat_rel_err", 1); ("stat_txcfg_avl", 1); ("stat_tx_drop", 1); ("stat_rx_drop", 1);
   ("stat_rx_frm", 1); ("stat_ahb_err", 1); ("stat_mac_fifo_err", 1); ("stat_rbreq_err", 1);
   ("stat_we_err", 1)].
Definition u_cf_intrpt_msk : layout :=
  [("cf_intrpt_time", 6); ("cf_intrpt_pkt", 6); ("reserved1", 8);
   ("cf_sram_parity_err_int_msk", 1); ("cf_tx_ahb_err_int_msk", 1); ("cf_buf_avl_msk", 1);
   ("cf_rel_buf_msk", 1); ("cf_txcfg_avl_msk", 1); ("cf_tx_drop_int_msk", 1);
   ("cf_rx_drop_int_msk", 1); ("cf_pkg_intrpt_msk", 1); ("cf_ahb_err_int_msk", 1);
   ("cf_mac_ff_err_int_msk", 1); ("cf_rbreq_err_int_msk", 1); ("cf_we_err_int_msk", 1)].
Definition u_duplex_type : layout :=
  [("duplex_sel", 1); ("reserved0", 31)].
Definition u_port_en : layout :=
  [("reserved1", 1); ("rx_en", 1); ("tx_en", 1); ("reserved0", 29)].
Definition tx_pcu_word0 : layout :=
  [("l4_cs", 1); ("wb", 1); ("l3_cs", 1); ("reserved2", 16); ("ds", 6); ("sd", 1); ("ipoff", 5);
   ("reserved1", 1)].
Definition tx_pcu_word1 : layout :=
  [("pool", 4); ("len", 16); ("back", 6); ("fm", 1); ("l2cache", 1); ("reserve", 4)].
Definition u_rx_pkt_mode : layout :=
  [("cf_gen_id", 8); ("reserved1", 4); ("cf_match_offset", 9); ("cf_parse_mode", 2);
   ("cf_skip_len", 7); ("reserved0", 1); ("cf_instr_head_mode", 1)].
Definition u_we_addr : layout :=
  [("reserved0", 1); ("cf_we_enable", 1); ("cf_we_addr", 30)].
Definition u_cf_cfg_fifo_thrsld : layout :=
  [("cfg_rx_p_empty_th", 8); ("cfg_rx_p_full_th", 8); ("cfg_tx_p_empty_th", 8);
   ("cfg_tx_p_full_th", 8)].
Definition u_cf_intrpt_clr : layout :=
  [("reserved1", 20); ("cf_sram_parity_err_clr", 1); ("cf_tx_ahb_err_clr", 1);
   ("cf_buf_avl_clr", 1); ("cf_rel_buf_clr", 1); ("cf_txcfg_avl_clr", 1); ("cf_tx_drop_clr", 1);
   ("cf_rx_drop_clr", 1); ("cf_rx_frm_clr", 1); ("cf_rx_ahb_err_clr", 1);
   ("cf_mac_fifo_err_clr", 1); ("cf_rbreq_err_clr", 1); ("cf_we_err_clr", 1)].
Definition u_cf_tx_fifo_thrsld : layout :=
  [("cf_tx_p_empty_th", 10); ("reserved1", 6); ("cf_tx_p_full_th", 10); ("reserved0", 6)].
Definition u_hp_mac_haddr_extend : layout :=
  [("m0_haddr_offset", 4); ("m0_addr_remap_mode", 2); ("m0_haddr_hi", 2); ("m1_haddr_offset", 4);
   ("m1_addr_remap_mode", 2); ("m1_haddr_hi", 2); ("reserved_0", 16)].
Definition u_gmac_phy_los_cfg : layout :=
  [("los_level_0", 5); ("los_bias_0", 3); ("rx0_los_filt_cnt_0", 7); ("tx_vboost_lvl_0", 3);
   ("rx_los_valid_rst_msk_0", 2); ("reserved_0", 12)].
Definition u_gmac_phy_cfg : layout :=
  [("tx0_invert_0", 1); ("lane_10bit_sel_0", 1); ("ref_ssp_en_0", 1); ("tx0_vboost_en_0", 1);
   ("tx0_reset_0", 1); ("tx0_en_0", 1); ("tx0_cm_en_0", 1); ("rx0_term_en_0", 1);
   ("rx0_reset_0", 1); ("rx0_pll_en_0", 1); ("rx0_los_en_0", 1); ("rx0_invert_0", 1);
   ("rx0_data_en_0", 1); ("rx0_align_en_0", 1); ("mpll_en_0", 1); ("lane0_loopbk_en_0", 1);
   ("test_bypass_0", 1); ("test_burnin_0", 1); ("ssc_ref_clk_sel_0", 1); ("mpll_multiplier_0", 7);
   ("vreg_bypass_0", 1); ("test_powerdown_0", 1); ("ref_use_pad_0", 1); ("ref_clkdiv2_0", 1);
   ("phy_reset_0", 1); ("phy_rtune_req_0", 1)].
Definition u_gmac_phy_cfg2 : layout :=
  [("phy_rx0_eq_0", 3); ("phy_tx0_term_offset_0", 5); ("tx0_amplitude_0", 7);
   ("tx0_detect_rx_req_0", 1); ("tx0_preemph_0", 7); ("tx0_data_en_0", 1);
   ("phy_data_reverse_en0", 1); ("reserved_0", 7)].
Definition u_gmac_phy_sts : layout :=
  [("tx0_state_0", 1); ("tx0_detect_rx_result_0", 1); ("tx0_detect_rx_ack_0", 1);
   ("tx0_cm_state_0", 1); ("rx0_pll_state_0", 1); ("mpll_state_0", 1); ("rx_valid_0", 1);
   ("rx_los_0", 1); ("reserved_0", 24)].

(** ** gmac_regs.h: offsets in a port's block *)
Definition MAC_CORE_DUPLEX_TYPE : Z := 0x8.
Definition MAC_CORE_MAX_FRM_SIZE_REG : Z := 0x3C.
Definition MAC_CORE_PORT_MODE_REG : Z := 0x40.
Definition MAC_CORE_PORT_EN_REG : Z := 0x44.
Definition MAC_CORE_SHORT_RUNTS_THR_REG : Z := 0x50.
Definition MAC_CORE_AN_NEG_STATE : Z := 0x58.
Definition MAC_CORE_TX_LOCAL_PAGE : Z := 0x5C.
Definition MAC_CORE_TRANSMIT_CONTROL_REG : Z := 0x60.
Definition MAC_CORE_REC_FILT_CONTROL_REG : Z := 0x64.
Definition MAC_CORE_MODE_CHANGE_EN_REG : Z := 0x1B4.
Definition MAC_CORE_SIXTEEN_BIT_CNTR : Z := 0x1CC.
Definition MAC_CORE_LD_LINK_COUNTER : Z := 0x1D0.
Definition MAC_CORE_RECV_CONTROL_REG : Z := 0x1E0.
Definition MAC_CORE_STATION_ADDR_LOW_2_REG : Z := 0x210.
Definition MAC_CORE_STATION_ADDR_HIGH_2_REG : Z := 0x214.
Definition MAC_CORE_STATION_ADDR_LOW_MSK_0_REG : Z := 0x230.
Definition MAC_CORE_STATION_ADDR_HIGH_MSK_0_REG : Z := 0x234.
Definition MAC_CORE_STATION_ADDR_LOW_MSK_1_REG : Z := 0x238.
Definition MAC_CORE_STATION_ADDR_HIGH_MSK_1_REG : Z := 0x23C.
Definition MAC_CORE_MAC_SKIP_LEN_REG : Z := 0x240.
Definition PCU_CF_TX_FIFO_THRSLD_REG : Z := 0x420.
Definition PCU_CF_CFG_FIFO_THRSLD_REG : Z := 0x428.
Definition PCU_CF_INTRPT_MSK_REG : Z := 0x42C.
Definition PCU_CF_INTRPT_STAT_REG : Z := 0x434.
Definition PCU_CF_INTRPT_CLR_REG : Z := 0x438.
Definition PCU_MAX_FRAME_LEN_REG : Z := 0x444.
Definition PCU_TX_CFF_ADDR_0_REG : Z := 0x488.
Definition PCU_TX_CFF_ADDR_1_REG : Z := 0x48C.
Definition PCU_TX_CFF_ADDR_2_REG : Z := 0x490.
Definition PCU_TX_CFF_ADDR_3_REG : Z := 0x494.
Definition PCU_RX_CFF_ADDR_REG : Z := 0x4A0.
Definition PCU_WE_ADDR_REG : Z := 0x4E0.
Definition PCU_RX_BUF_SIZE_REG : Z := 0x4E4.
Definition PCU_BUS_CTRL_REG : Z := 0x4E8.
Definition PCU_RX_CTRL_REG : Z := 0x4F0.
Definition PCU_RX_PKT_MODE_REG : Z := 0x4F4.

(** ** gmac.h: constants *)
Definition GMAC_SEM_TIMEOUT : Z := 50.
Definition CHIP_RX_FIFO_NUM : Z := 2.
Definition CHIP_TX_FIFO_NUM : Z := 2.
Definition GMAC_DESC_PKT_LEN_HIGH : Z := 8.
Definition GMAC_DESC_PKT_LEN_LOW : Z := 9.
Definition GMAC_SRST_BIT : Z := 0x7.
Definition GMAC_MAC_CORE_SRST_BIT : Z := 0x2.
Definition GMAC_REG_CFG_SRST_BIT : Z := 0x3.
Definition GMAC_BUS_SYS_SRST_BIT : Z := 0x4.
Definition GMAC_RX_SERDES_SRST_BIT : Z := 0x5.
Definition GMAC_TX_SERDES_SRST_BIT : Z := 0x6.
Definition MPLL_LOCK_TIMES : Z := 25.
Definition TX_CM_TIMES : Z := 230.
Definition TX_RX_ENABLE_TIMES : Z := 4.
Definition FE_RX_FIFO_FULL_THRSHLD : Z := 100.
Definition FE_RX_FIFO_EMPTY_THRSHLD : Z := 80.
Definition ENABLE : Z := 0x1.
Definition DISABLE : Z := 0x0.
Definition CPU_CACHE_LINE_SIZE : Z := 64.
Definition FE_RX_SKIP1 : Z := 0x00.
Definition FE_RX_SKIP2 : Z := 0x01.
Definition CACHE_LINE_SIZE : Z := 32.
Definition RX_BUFFER_DEFAULT_SIZE : Z := 0x640.
Definition FE_MAX_PKT_LEN : Z := 1536.
Definition MAC_ADDR_LEN : Z := 6.
Definition GMAC_MAX_DEV : Z := 4.
Definition GMAC_TX : Z := 1.
Definition GMAC_RX : Z := 0.
Definition MAC_BASE_ADDR : Z := 0xcd00000.
Definition MAC_REG_ADDR_LEN : Z := 0x1000.

Definition mac_reg_addr (port offset : Z) : Z :=
  u32 (MAC_BASE_ADDR + port * MAC_REG_ADDR_LEN + offset).

(** ** hp_subsys.h: the MACs in the subsystem's control block *)
Definition HP_SUB_CSR_HP_SRST_REQ1_ADDR : Z := HP_SUB_CSR_BASE_ADDR + 0x8.
Definition HP_SUB_CSR_HP_SRST_DIS1_ADDR : Z := HP_SUB_CSR_BASE_ADDR + 0x10.
Definition HP_SUB_CSR_HP_MAC_HADDR_EXTEND_0_ADDR : Z := HP_SUB_CSR_BASE_ADDR + 0x90.
Definition HP_SUB_CSR_GMAC_PHY0_LOS_CFG_ADDR : Z := HP_SUB_CSR_BASE_ADDR + 0x158.
Definition HP_SUB_CSR_GMAC_PHY1_LOS_CFG_ADDR : Z := HP_SUB_CSR_BASE_ADDR + 0x15C.
Definition HP_SUB_CSR_GMAC_PHY0_CFG_ADDR : Z := HP_SUB_CSR_BASE_ADDR + 0x160.
Definition HP_SUB_CSR_GMAC_PHY1_CFG_ADDR : Z := HP_SUB_CSR_BASE_ADDR + 0x164.
Definition HP_SUB_CSR_GMAC_PHY0_CFG2_ADDR : Z := HP_SUB_CSR_BASE_ADDR + 0x168.
Definition HP_SUB_CSR_GMAC_PHY1_CFG2_ADDR : Z := HP_SUB_CSR_BASE_ADDR + 0x16C.
Definition HP_SUB_CSR_GMAC_PHY0_STS_ADDR : Z := HP_SUB_CSR_BASE_ADDR + 0x170.
Definition HP_SUB_CSR_GMAC_PHY1_STS_ADDR : Z := HP_SUB_CSR_BASE_ADDR + 0x174.

Section Access.
Context {G D : Type} `{MD : Machine D}.

Definition mac_reg_write (port offset data : Z) : M G D unit := writel data (mac_reg_addr port offset).
Definition mac_reg_read (port offset : Z) : M G D Z := readl (mac_reg_addr port offset).

End Access.
