(* ===== verification/Mdio.v ===== *)
(** * Mdio: the management bus of the Ethernet PHYs (drivers/net/mdio.c)

    One MDIO controller, shared by the cores: a transaction is made while
    holding the word [GMAC_MDIO_SYNC].  The words of [hi309x_memmap.h] that
    the cores share are words of the device here, since other cores change
    them; the exclusive-load loop of [bm_cmp_xchg32bits] is one look and, when
    it finds the expected value, one store.  [fuel] bounds the busy waits,
    [lfuel] the wait for the lock word, which has no bound in the code.  The
    pointer [mdio_read] stores through is a [bool] (not NULL), and what it
    stores is part of the result. *)
From stdpp Require Import prelude gmap list strings.
From Stdlib Require Import ZArith Lia.
From S2P Require Import Prelude Fields Hw Common Cache GmacRegs.
Local Open Scope Z_scope.

Definition MDIO_MAX_DRV_NUM : Z := 1.
Definition MDIO_WAIT_READY_CNT : Z := 1000.
Definition mdio_cmd_data : layout :=
  [("reg_addr", 5); ("phy_addr", 5); ("op_code", 2); ("mdio_st", 2); ("mdio_go", 1);
   ("mdio_clk_sel", 1); ("mdio_auto_scan", 1); ("mdio_clk_sel_exp", 1); ("reserved0", 14)].
Definition mdio_rd_wr_data : layout :=
  [("mdio_wr_data", 16); ("reserved", 16)].
Definition MDIO_CMD_REG : Z := 0x0.
Definition MDIO_WDATA_REG : Z := 0x8.
Definition MDIO_RDATA_REG : Z := 0xC.
Definition MDIO_BASE_ADDR : Z := 0x08747000.
Definition MDIO_REG_ADDR_LEN : Z := 0x10000.
Definition MDIO_MAX_PHY_ADDR : Z := 0x1F.
Definition MDIO_MAX_PHY_REG_ADDR : Z := 0x30.
Definition IO_CONFIG_T_IOMG033_ADDR : Z := 0x8745000 + 0x84.

(** The lock words, at addresses that differ from build to build. *)
Class GmacSync := { GMAC_MDIO_SYNC : Z; GMAC_LOCK_SYNC : Z }.

Definition mdio_reg_addr (port offset : Z) : Z :=
  u32 (MDIO_BASE_ADDR + port * MDIO_REG_ADDR_LEN + offset).

Section Mdio.
Context {G D : Type} `{MD : Machine D} `{GS : GmacSync} (fuel lfuel : nat).
Abbreviation M := (M G D).

Definition mdio_reg_write (port offset data : Z) : M unit := writel data (mdio_reg_addr port offset).
Definition mdio_reg_read (port offset : Z) : M Z := readl (mdio_reg_addr port offset).

(** [bm_cmp_xchg32bits] on a shared word, 0 when the exchange took place. *)
Definition bm_cmp_xchg32bits (addr val old_val : Z) : M Z :=
  prev_val ← readl addr;
  if prev_val =? old_val then writel val addr ;; mret 0 else mret 1.

(** [while (bm_cmp_xchg32bits(addr, 0xf, 0) != 0) { relax }] *)
Definition spin_lock (addr : Z) (relax : M unit) : M unit :=
  loop lfuel (fun _ : unit =>
    r ← bm_cmp_xchg32bits addr 0xf 0;
    if ctrue r then relax ;; mret (inl tt) else mret (inr tt)) tt.

Definition mdio_ready_get (mdio_id : Z) : M Z :=
  if MDIO_MAX_DRV_NUM <=? mdio_id then mret (u32 (-1))
  else
    mdio_cmd ← mac_reg_read mdio_id MDIO_CMD_REG;
    mret (get_bits mdio_cmd_data "mdio_go" mdio_cmd).

(** [while (--timeout_us && mdio_ready_get(mdio_id)) udelay(10);] *)
Definition mdio_ready_wait (mdio_id : Z) : M Z :=
  loop (Z.to_nat MDIO_WAIT_READY_CNT) (fun timeout_us =>
    let timeout_us := u32 (timeout_us - 1) in
    if timeout_us =? 0 then mret (inr timeout_us)
    else
      go ← mdio_ready_get mdio_id;
      if ctrue go then udelay fuel 10 ;; mret (inl timeout_us) else mret (inr timeout_us))
    MDIO_WAIT_READY_CNT.

(** The command word of an operation on a PHY register. *)
Definition mdio_command (op phy_addr reg_addr mdio_cmd : Z) : Z :=
  set_fields mdio_cmd_data
    [("mdio_st", 1); ("mdio_go", 1); ("op_code", op); ("phy_addr", phy_addr); ("reg_addr", reg_addr)]
    mdio_cmd.

Definition mdio_start_phy_read (mdio_id phy_addr reg_addr : Z) : M unit :=
  mdio_cmd ← mdio_reg_read mdio_id MDIO_CMD_REG;
  mdio_reg_write mdio_id MDIO_CMD_REG (mdio_command 0x2 phy_addr reg_addr mdio_cmd).

Definition mdio_get_phy_read_val (mdio_id : Z) : M Z :=
  un_read_data ← mdio_reg_read mdio_id MDIO_RDATA_REG;
  udelay fuel 5000 ;;
  mret (get_bits mdio_rd_wr_data "mdio_wr_data" un_read_data).

Definition mdio_phy_write (mdio_id phy_addr reg_addr value : Z) : M unit :=
  mdio_reg_write mdio_id MDIO_WDATA_REG (set_bits mdio_rd_wr_data "mdio_wr_data" value 0) ;;
  mdio_cmd ← mdio_reg_read mdio_id MDIO_CMD_REG;
  mdio_reg_write mdio_id MDIO_CMD_REG (mdio_command 1 phy_addr reg_addr mdio_cmd).

Definition mdio_init (mdio_id : Z) : M Z :=
  if MDIO_MAX_DRV_NUM <=? mdio_id then mret BM_FAIL
  else
    writel 0x0 IO_CONFIG_T_IOMG033_ADDR ;;
    mdio_reg_write mdio_id MDIO_CMD_REG (set_bits mdio_cmd_data "mdio_clk_sel" 1 0) ;;
    mret BM_OK.

(** What the lock's waiter does between two tries. *)
Definition mdio_relax : M unit := bm_flush_dcache_all ;; sys_ Dsb ;; sys_ Isb.

Definition mdio_read (mdio_id phy_addr reg_addr : Z) (value : bool) : M (Z * option Z) :=
  if MDIO_MAX_DRV_NUM <=? mdio_id then mret (BM_FAIL, None)
  else if MDIO_MAX_PHY_ADDR <? phy_addr then mret (BM_FAIL, None)
  else if MDIO_MAX_PHY_REG_ADDR <? reg_addr then mret (BM_FAIL, None)
  else if negb value then mret (BM_FAIL, None)
  else
    ready ← mdio_ready_wait mdio_id;
    if negb (ctrue ready) then mret (BM_FAIL, None)
    else
      spin_lock GMAC_MDIO_SYNC mdio_relax ;;
      mdio_start_phy_read mdio_id phy_addr reg_addr ;;
      ready ← mdio_ready_wait mdio_id;
      ret ← (if ctrue ready then
               udelay fuel 1000 ;;
               v ← mdio_get_phy_read_val mdio_id; mret (BM_OK, Some v)
             else mret (BM_FAIL, None) : M (Z * option Z));
      writel 0 GMAC_MDIO_SYNC ;;
      mret ret.

Definition mdio_write (mdio_id phy_addr reg_addr value : Z) : M Z :=
  if MDIO_MAX_DRV_NUM <=? mdio_id then mret BM_FAIL
  else if MDIO_MAX_PHY_ADDR <? phy_addr then mret BM_FAIL
  else if MDIO_MAX_PHY_REG_ADDR <? reg_addr then mret BM_FAIL
  else
    ready ← mdio_ready_wait mdio_id;
    if negb (ctrue ready) then mret BM_FAIL
    else
      spin_lock GMAC_MDIO_SYNC mdio_relax ;;
      mdio_phy_write mdio_id phy_addr reg_addr value ;;
      udelay fuel 5000 ;;
      writel 0 GMAC_MDIO_SYNC ;;
      mret BM_OK.
End Mdio.
