(* ===== verification/MdioProps.v ===== *)
(** * MdioProps: one MDIO transaction

    What [mdio_read] and [mdio_write] do on the bus, whatever the device
    answers: when they refuse, when they time out, which command they issue,
    and that the shared lock word is taken and given back.  [Delays] says that
    the busy waits end; [lock_comes] that the other cores release the word,
    within so many tries. *)
From stdpp Require Import prelude gmap list strings.
From Stdlib Require Import ZArith Lia.
From S2P Require Import Prelude Fields Hw Common Cache GmacRegs Mdio.
Local Open Scope Z_scope.

Definition sys_only (e : event) : Prop := match e with Sy _ _ => True | _ => False end.

(** The busy waits of the driver, of at most a tenth of a second, end. *)
Class Delays (G : Type) {D : Type} `{Machine D} (fuel : nat) : Prop :=
  delays us (w : world G D) : 0 <= us <= 100000 -> emits (udelay fuel us) w (fun _ t => Forall sys_only t).

(** ** The lock word *)
Section Lock.
Context {G D : Type} `{MD : Machine D}.
Implicit Types (w : world G D).

Definition after_ops (ops : list sysop) (d : D) : D := foldl (fun d op => snd (m_sys op d)) d ops.
Fixpoint after_tries (addr : Z) (ops : list sysop) (k : nat) (d : D) : D :=
  match k with
  | O => d
  | S k' => after_tries addr ops k' (after_ops ops (snd (m_load addr d)))
  end.

(** From any state of the device, the word is free within [n] tries. *)
Definition lock_comes (n : nat) (addr : Z) (ops : list sysop) : Prop :=
  forall d, exists k, (k < n)%nat /\ u32 (fst (m_load addr (after_tries addr ops k d))) = 0.

(** The accesses of taking the lock: looks at a taken word, then the exchange. *)
Definition acquired (addr : Z) (t : list event) : Prop :=
  exists t0, t = t0 ++ [Rd addr 0; Wr addr 0xf] /\
    Forall (fun e => match e with Rd a v => a = addr /\ v <> 0 | Wr _ _ | Seen _ => False | Sy _ _ => True end) t0.

Definition relaxes (relax : M G D unit) (ops : list sysop) : Prop :=
  forall w, exists t, relax w = Done tt (World (glob w) (after_ops ops (dev w)) (tr w ++ t)) /\
    Forall sys_only t.

Lemma sys_runs op w : sys_ op w =
  Done tt (World (glob w) (snd (m_sys op (dev w))) (tr w ++ [Sy op (u64 (fst (m_sys op (dev w))))])).
Proof. unfold sys_, sys, mbind, M_bind. by destruct (m_sys op (dev w)). Qed.

Lemma relaxes_1 a : relaxes (sys_ a) [a].
Proof.
  intros w. rewrite sys_runs. eexists. split; [reflexivity |]. by repeat constructor.
Qed.

Lemma relaxes_bind m k ops1 ops2 :
  relaxes m ops1 -> relaxes k ops2 -> relaxes (m ;; k) (ops1 ++ ops2).
Proof.
  intros Hm Hk w. destruct (Hm w) as (t1 & E1 & H1). unfold mbind, M_bind. rewrite E1.
  destruct (Hk (World (glob w) (after_ops ops1 (dev w)) (tr w ++ t1))) as (t2 & E2 & H2). rewrite E2.
  cbn [glob dev tr].
  exists (t1 ++ t2). unfold after_ops. rewrite foldl_app, app_assoc. split; [done |]. by apply Forall_app.
Qed.

Lemma emits_spin_lock lfuel addr relax ops w :
  relaxes relax ops -> lock_comes lfuel addr ops ->
  emits (spin_lock lfuel addr relax) w (fun _ t => acquired addr t).
Proof.
  intros Hr Hl. destruct (Hl (dev w)) as (k & Hk & Hz). clear Hl. unfold spin_lock, emits.
  revert k w Hk Hz. induction lfuel as [| n IH]; intros k w Hk Hz; [lia |].
  rewrite loop_S. apply wp_bind, wp_bind. unfold bm_cmp_xchg32bits. apply wp_bind.
  unfold wp at 1, readl. destruct (m_load addr (dev w)) as [v0 d0] eqn:E.
  destruct (u32 v0 =? 0) eqn:Ez.
  - apply Z.eqb_eq in Ez. rewrite Ez. wp_steps. split; [done |].
    exists [Rd addr 0; Wr addr 0xf]. rewrite <- app_assoc. split; [done |]. by exists [].
  - apply Z.eqb_neq in Ez. wp_steps. cbn [ctrue Z.eqb negb].
    destruct k as [| k]; [cbn in Hz; rewrite E in Hz; done |].
    change (ctrue 1) with true. cbv iota. wp_step.
    destruct (Hr (World (glob w) d0 (tr w ++ [Rd addr (u32 v0)]))) as (t1 & Ht1 & Hs).
    unfold wp at 1. rewrite Ht1. wp_step. cbn [glob dev tr].
    eapply wp_mono; [apply (IH k); [lia |] |].
    + cbn in Hz. rewrite E in Hz. exact Hz.
    + cbv beta. cbn [glob tr]. intros [] w' (Hg & t & Ht & (t0 & -> & Hf)). split; [done |].
      exists (Rd addr (u32 v0) :: t1 ++ t0 ++ [Rd addr 0; Wr addr 0xf]). split.
      * rewrite Ht. by rewrite <- !app_assoc.
      * exists (Rd addr (u32 v0) :: t1 ++ t0). split; [cbn [app]; by rewrite <- app_assoc |].
        constructor; [done |]. apply Forall_app. split; [| done].
        eapply Forall_impl; [exact Hs |]. by intros [].
Qed.
End Lock.

(** ** Waiting for the bus *)
Definition MDIO_GO_BUSY (v : Z) : bool := ctrue (get_bits mdio_cmd_data "mdio_go" v).

(** The values seen at an address. *)
Definition seen (addr : Z) (t : list event) : list Z :=
  omap (fun e => match e with Rd a v => if a =? addr then Some v else None | _ => None end) t.

Lemma seen_app addr t1 t2 : seen addr (t1 ++ t2) = seen addr t1 ++ seen addr t2.
Proof. apply omap_app. Qed.

Lemma seen_sys addr t : Forall sys_only t -> seen addr t = [].
Proof. induction 1 as [| [] t He _ IH]; [done | done | done | exact IH | done]. Qed.

(** The register the driver looks at to see whether a transaction is over:
    that of MAC 0, not the MDIO controller's. *)
Definition wait_reg : Z := mac_reg_addr 0 MDIO_CMD_REG.
Definition wait_event (e : event) : Prop :=
  match e with Rd a _ => a = wait_reg | Wr _ _ | Seen _ => False | Sy _ _ => True end.

(** [waited r t]: 999 looks that found the register busy, or some of those and
    one that found it free. *)
Definition waited (r : Z) (t : list event) : Prop :=
  Forall wait_event t /\
  exists busy, Forall (fun v => MDIO_GO_BUSY v = true) busy /\
    (r = 0 /\ seen wait_reg t = busy /\ length busy = 999%nat \/
     r <> 0 /\ exists v, MDIO_GO_BUSY v = false /\ seen wait_reg t = busy ++ [v]).

Section Protocol.
Context {G D : Type} `{MD : Machine D} `{GS : GmacSync} (fuel lfuel : nat).
Context `{DL : !Delays G fuel}.
Implicit Types (w : world G D).

Definition mdio_relax_ops : list sysop := [DcacheFlushAll; Dsb; Isb].

Lemma mdio_relax_relaxes : relaxes (G := G) mdio_relax mdio_relax_ops.
Proof.
  apply (relaxes_bind _ _ [DcacheFlushAll] [Dsb; Isb]); [apply relaxes_1 |].
  apply (relaxes_bind _ _ [Dsb] [Isb]); apply relaxes_1.
Qed.

Lemma emits_delay us w : 0 <= us <= 100000 -> emits (udelay fuel us) w (fun _ t => Forall sys_only t).
Proof. apply delays. Qed.

Lemma emits_ready_wait w : emits (mdio_ready_wait fuel 0) w (fun r t => fits 32 r /\ waited r t).
Proof.
  unfold mdio_ready_wait.
  apply (emits_loop (fun x t => 1 <= x <= 1000 /\ Forall wait_event t /\
      Forall (fun v => MDIO_GO_BUSY v = true) (seen wait_reg t) /\
      length (seen wait_reg t) = Z.to_nat (1000 - x)) (fun x => Z.to_nat (x - 1)));
    [| unfold MDIO_WAIT_READY_CNT; repeat split; auto using Forall_nil_2; lia
     | unfold MDIO_WAIT_READY_CNT; lia].
  intros x t w' _ (Hx & He & Hb & Hl). cbv zeta.
  rewrite (wrap_id 32) by (unfold fits; lia). destruct (Z.eqb_spec (x - 1) 0) as [Hz | Hz].
  - apply emits_ret. rewrite app_nil_r. split; [unfold fits; lia |]. split; [done |].
    exists (seen wait_reg t). split; [done |]. left. split; [done |]. split; [done |].
    rewrite Hl. by replace x with 1 by lia.
  - unfold mdio_ready_get, mac_reg_read. change (MDIO_MAX_DRV_NUM <=? 0) with false. cbv iota.
    fold wait_reg. emits_steps. change (ctrue (get_bits mdio_cmd_data "mdio_go" v)) with (MDIO_GO_BUSY v).
    destruct (MDIO_GO_BUSY v) eqn:Ev.
    + emits_step. emits_apply emits_delay; [lia |]. intros [] td Htd w2 _. emits_step.
      rewrite app_nil_r. change ([Rd wait_reg v] ++ td) with (Rd wait_reg v :: td).
      assert (seen wait_reg (t ++ Rd wait_reg v :: td) = seen wait_reg t ++ [v]) as E.
      { rewrite seen_app. cbn. rewrite Z.eqb_refl. f_equal. f_equal. by apply seen_sys. }
      split; [| lia]. rewrite E, length_app, Hl. split; [lia |]. split_and!.
      * apply Forall_app. split; [done |]. constructor; [done |].
        eapply Forall_impl; [exact Htd |]. by intros [].
      * apply Forall_app. split; [done |]. by constructor.
      * simpl. lia.
    + emits_step. split; [unfold fits; lia |]. split.
      * apply Forall_app. split; [done |]. by repeat constructor.
      * exists (seen wait_reg t). split; [done |]. right. split; [lia |]. exists v. split; [done |].
        rewrite seen_app. cbn. by rewrite Z.eqb_refl.
Qed.

(** ** The command *)
Definition command_says (op phy reg old c : Z) : Prop :=
  let get f := get_bits mdio_cmd_data f in
  get "op_code" c = op /\ get "phy_addr" c = phy /\ get "reg_addr" c = reg mod 32 /\
  get "mdio_st" c = 1 /\ get "mdio_go" c = 1 /\
  forall f, f ∉ ["mdio_st"; "mdio_go"; "op_code"; "phy_addr"; "reg_addr"] -> get f c = get f old.

Lemma mdio_command_says op phy reg old : fits 2 op -> fits 5 phy ->
  command_says op phy reg old (mdio_command op phy reg old).
Proof.
  intros Hop Hphy. unfold command_says, mdio_command. cbv zeta.
  split_and!; [..| intros f Hf; by apply get_set_fields_ne].
  - field_at 2%nat. by apply wrap_id.
  - field_at 3%nat. by apply wrap_id.
  - by field_at 4%nat.
  - by field_at 0%nat.
  - by field_at 1%nat.
Qed.

Lemma mdio_command_fits op phy reg old : fits 32 old -> fits 32 (mdio_command op phy reg old).
Proof. by apply set_fields_fits. Qed.

Lemma mdio_wdata value : u32 (set_bits mdio_rd_wr_data "mdio_wr_data" value 0) = value mod 2 ^ 16.
Proof.
  change (set_bits mdio_rd_wr_data "mdio_wr_data" value 0) with (bf_set 0 16 value 0).
  unfold bf_set. rewrite Z.ldiff_0_l, Z.lor_0_l, Z.shiftl_0_r, Z.land_ones by lia.
  pose proof (Z.mod_pos_bound value (2 ^ 16) ltac:(lia)). apply wrap_id. unfold fits. lia.
Qed.

Lemma mdio_rdata v : get_bits mdio_rd_wr_data "mdio_wr_data" v = v mod 2 ^ 16.
Proof.
  change (get_bits mdio_rd_wr_data "mdio_wr_data" v) with (bf_get 0 16 v).
  unfold bf_get. by rewrite Z.shiftr_0_r, Z.land_ones by lia.
Qed.

Definition accepted (mdio_id phy reg : Z) : bool :=
  (mdio_id <? MDIO_MAX_DRV_NUM) && (phy <=? MDIO_MAX_PHY_ADDR) && (reg <=? MDIO_MAX_PHY_REG_ADDR).

(** The registers of the MDIO controller. *)
Definition cmd_reg : Z := mdio_reg_addr 0 MDIO_CMD_REG.
Definition wdata_reg : Z := mdio_reg_addr 0 MDIO_WDATA_REG.
Definition rdata_reg : Z := mdio_reg_addr 0 MDIO_RDATA_REG.

Context (mdio_id phy reg : Z) (Hid : 0 <= mdio_id) (Hphy : 0 <= phy).
Context (Hlock : lock_comes lfuel GMAC_MDIO_SYNC mdio_relax_ops).

Lemma accepted_facts : accepted mdio_id phy reg = true ->
  mdio_id = 0 /\ fits 5 phy /\ (MDIO_MAX_DRV_NUM <=? mdio_id) = false /\
  (MDIO_MAX_PHY_ADDR <? phy) = false /\ (MDIO_MAX_PHY_REG_ADDR <? reg) = false.
Proof.
  unfold accepted, MDIO_MAX_DRV_NUM, MDIO_MAX_PHY_ADDR, MDIO_MAX_PHY_REG_ADDR, fits.
  rewrite !andb_true_iff. lia.
Qed.

Lemma emits_refused {A} (a : A) (m : M G D A) w :
  accepted mdio_id phy reg = false ->
  emits (if MDIO_MAX_DRV_NUM <=? mdio_id then mret a
         else if MDIO_MAX_PHY_ADDR <? phy then mret a
         else if MDIO_MAX_PHY_REG_ADDR <? reg then mret a else m) w (fun r t => r = a /\ t = []).
Proof.
  unfold accepted, MDIO_MAX_DRV_NUM, MDIO_MAX_PHY_ADDR, MDIO_MAX_PHY_REG_ADDR.
  rewrite !andb_false_iff. intros Ha. zcases; try lia; by apply emits_ret.
Qed.

(** a write to a PHY register.  Bad arguments are refused without touching
    anything; when the bus does not come free the driver gives up without
    touching it, otherwise it takes the lock word, puts the value in the data
    register, issues one write command with the PHY's address, waits, gives
    the lock word back and succeeds.  The command carries the register number
    modulo 32, so numbers 0x20 to 0x30 reach registers 0 to 0x10. *)
Theorem mdio_write_protocol value w :
  emits (mdio_write fuel lfuel mdio_id phy reg value) w (fun r t =>
    if accepted mdio_id phy reg then
      exists ready t0, waited ready t0 /\
        if ready =? 0 then r = BM_FAIL /\ t = t0
        else exists tl old c td, r = BM_OK /\
          t = t0 ++ tl ++ [Wr wdata_reg (value mod 2 ^ 16); Rd cmd_reg old; Wr cmd_reg c] ++ td ++
              [Wr GMAC_MDIO_SYNC 0] /\
          acquired GMAC_MDIO_SYNC tl /\ command_says 1 phy reg old c /\ Forall sys_only td
    else r = BM_FAIL /\ t = []).
Proof.
  destruct (accepted mdio_id phy reg) eqn:Ea; [| by apply emits_refused].
  destruct (accepted_facts Ea) as (-> & Hp5 & E1 & E2 & E3).
  unfold mdio_write. rewrite E1, E2, E3. clear E1 E2 E3.
  emits_step. emits_apply emits_ready_wait. intros ready t0 [_ Hw] w1 _.
  unfold ctrue. rewrite negb_involutive. destruct (ready =? 0) eqn:Er.
  { emits_step. exists ready, t0. rewrite Er, app_nil_r. done. }
  emits_step. emits_apply (emits_spin_lock lfuel _ _ mdio_relax_ops); [apply mdio_relax_relaxes | done |].
  intros [] tl Hl w2 _. unfold mdio_phy_write, mdio_reg_write, mdio_reg_read. fold wdata_reg cmd_reg.
  emits_steps. emits_apply emits_delay; [lia |]. intros [] td Htd w9 _. emits_steps.
  exists ready, t0. rewrite Er. split; [done |].
  exists tl, v, (mdio_command 1 phy reg v), td. split; [done |].
  rewrite (wrap_id 32 (mdio_command _ _ _ _)) by (by apply mdio_command_fits).
  split; [| by split_and!; [| apply mdio_command_says |]].
  rewrite mdio_wdata, <- ?app_assoc. done.
Qed.

(** C26: a read of a PHY register, in the same way; a NULL pointer is refused
    too.  After the command the driver waits again: when that wait fails the
    read fails, otherwise it returns the low half of the data register.  The
    lock word is given back in both cases. *)
Theorem mdio_read_protocol value w :
  emits (mdio_read fuel lfuel mdio_id phy reg value) w (fun r t =>
    if accepted mdio_id phy reg && value then
      exists ready t0, waited ready t0 /\
        if ready =? 0 then r = (BM_FAIL, None) /\ t = t0
        else exists tl old c ready' t1 tr,
          t = t0 ++ tl ++ [Rd cmd_reg old; Wr cmd_reg c] ++ t1 ++ tr ++ [Wr GMAC_MDIO_SYNC 0] /\
          acquired GMAC_MDIO_SYNC tl /\ command_says 2 phy reg old c /\ waited ready' t1 /\
          if ready' =? 0 then r = (BM_FAIL, None) /\ tr = []
          else exists v td td', r = (BM_OK, Some (v mod 2 ^ 16)) /\
            tr = td ++ [Rd rdata_reg v] ++ td' /\ Forall sys_only (td ++ td')
    else r = (BM_FAIL, None) /\ t = []).
Proof.
  unfold mdio_read. destruct (accepted mdio_id phy reg) eqn:Ea; [| by apply emits_refused].
  destruct (accepted_facts Ea) as (-> & Hp5 & -> & -> & ->). destruct value; [| by apply emits_ret].
  cbn [andb negb]. emits_step. emits_apply emits_ready_wait. intros ready t0 [_ Hw] w1 _.
  unfold ctrue at 1. rewrite negb_involutive. destruct (ready =? 0) eqn:Er.
  { emits_step. exists ready, t0. rewrite Er, app_nil_r. done. }
  emits_step. emits_apply (emits_spin_lock lfuel _ _ mdio_relax_ops); [apply mdio_relax_relaxes | done |].
  intros [] tl Hl w2 _. unfold mdio_start_phy_read, mdio_reg_write, mdio_reg_read. fold cmd_reg.
  emits_steps. emits_apply emits_ready_wait. intros ready' t1 [_ Hw'] w5 _.
  emits_step. apply (emits_mono _ _ (fun r t => if ready' =? 0 then r = (BM_FAIL, None) /\ t = []
          else exists v td td', r = (BM_OK, Some (v mod 2 ^ 16)) /\
            t = td ++ [Rd rdata_reg v] ++ td' /\ Forall sys_only (td ++ td'))).
  - unfold ctrue. destruct (ready' =? 0); cbn [negb]; [by apply emits_ret |].
    emits_step. emits_apply emits_delay; [lia |]. intros [] td Htd w6 _.
    unfold mdio_get_phy_read_val, mdio_reg_read. fold rdata_reg. emits_steps.
    emits_apply emits_delay; [lia |]. intros [] td' Htd' w7 _. emits_steps.
    eexists _, td, td'. rewrite mdio_rdata, !app_nil_r. split_and!; [done | done |]. by apply Forall_app.
  - intros r tr Hr w6 _. emits_steps. exists ready, t0. rewrite Er. split; [done |].
    exists tl, v, (mdio_command 2 phy reg v), ready', t1, tr.
    rewrite (wrap_id 32 (mdio_command _ _ _ _)) by (by apply mdio_command_fits).
    rewrite <- ?app_assoc. cbn [app]. split; [by rewrite <- ?app_assoc |].
    by split_and!; [| apply mdio_command_says | |].
Qed.
End Protocol.

(** ** A device whose registers all read zero and whose clock stands still *)
#[export] Instance still_delays G f n : Delays G (D := fixed f (fun _ => 0)) (S n).
Proof.
  intros us [g d t] _. assert (u64 (us * u64 0) / 1000000 = 0) as E by (change (u64 0) with 0; by rewrite Z.mul_0_r).
  unfold emits, wp, udelay, bm_get_tick, sys, mbind, M_bind. cbn [m_sys fixed_machine]. rewrite E.
  split; [done |]. eexists. split; [symmetry; apply (app_assoc t [_] [_]) |]. by repeat constructor.
Qed.

Lemma free_lock f g addr ops n : f addr = 0 -> lock_comes (D := fixed f g) (S n) addr ops.
Proof.
  intros Hf d. exists O. split; [lia |]. cbn. by rewrite Hf.
Qed.

#[local] Instance sync_words : GmacSync := {| GMAC_MDIO_SYNC := 0x8727ffcc; GMAC_LOCK_SYNC := 0x8727ffd0 |}.

Definition idle_bus : world unit (fixed (fun _ => 0) (fun _ => 0)) := World tt Fixed [].

Lemma mdio_write_protocol_witness :
  result (mdio_write 1 1 0 3 0x21 0x12345 idle_bus) = Some BM_OK /\
  emits (mdio_write 1 1 0 3 0x21 0x12345) idle_bus (fun r t => r = BM_OK ->
    exists t0 old c td, t = t0 ++ [Wr wdata_reg 0x2345; Rd cmd_reg old; Wr cmd_reg c] ++ td ++
      [Wr GMAC_MDIO_SYNC 0] /\ get_bits mdio_cmd_data "reg_addr" c = 1).
Proof.
  split; [vm_compute; reflexivity |]. eapply emits_mono.
  - apply (mdio_write_protocol 1 1 0 3 0x21 ltac:(lia) ltac:(lia) (free_lock _ _ _ _ _ eq_refl)).
  - cbv beta. change (accepted 0 3 0x21) with true. cbv iota.
    intros r t (ready & t0 & _ & H). destruct (ready =? 0); [by destruct H as [-> _] |].
    destruct H as (tl & old & c & td & -> & -> & _ & Hc & _). intros _.
    exists (t0 ++ tl), old, c, td. split; [by rewrite <- app_assoc |]. apply Hc.
Defined.

Lemma mdio_read_protocol_witness :
  result (mdio_read 1 1 0 3 2 true idle_bus) = Some (BM_OK, Some 0) /\
  emits (mdio_read 1 1 0 3 2 true) idle_bus (fun r t => r.1 = BM_OK ->
    exists t0, t = t0 ++ [Wr GMAC_MDIO_SYNC 0]).
Proof.
  split; [vm_compute; reflexivity |]. eapply emits_mono.
  - apply (mdio_read_protocol 1 1 0 3 2 ltac:(lia) ltac:(lia) (free_lock _ _ _ _ _ eq_refl)).
  - cbv beta. change (accepted 0 3 2 && true) with true. cbv iota.
    intros r t (ready & t0 & _ & H). destruct (ready =? 0); [by destruct H as [-> _] |].
    destruct H as (tl & old & c & ready' & t1 & tr & -> & _) . intros _.
    eexists. by rewrite !app_assoc.
Defined.
