(* ===== verification/Phy.v ===== *)
(** * Phy: the YT8521 and YT8512 PHYs (drivers/net/motor_phy.c)

    Register access over MDIO, directly and through the extended-register
    window (address in register 0x1E, data in 0x1F), initialisation, link
    status with its recovery from low-power idle, and speed and duplex.  A
    function that stores through a pointer returns what it stores, [None] when
    it leaves the variable alone; the caller's initial value is then kept. *)
From stdpp Require Import prelude gmap list strings.
From Stdlib Require Import ZArith Lia.
From S2P Require Import Prelude Fields Hw Common GmacRegs Mdio.
Local Open Scope Z_scope.

Definition BIT (n : Z) : Z := Z.shiftl 1 n.

(** ** motor_phy.h, motor_phy.c, bm_net.h *)
Definition PHY_LINK_DOWN : Z := 0.
Definition PHY_LINK_UP : Z := 1.
Definition REG_PHY_CTRL : Z := 0.
Definition MAC_10M_RMII : Z := 0.
Definition MAC_100M_RMII : Z := 1.
Definition MAC_1000M_GMII : Z := 2.
Definition MAC_10M_SGMII : Z := 6.
Definition MAC_100M_SGMII : Z := 7.
Definition MAC_1000M_SGMII : Z := 8.
Definition GMAC_DUPLEX_HALF : Z := 0x00.
Definition GMAC_DUPLEX_FULL : Z := 0x01.
Definition IDENTIFIER_YT8521 : Z := 0x0000011a.
Definition IDENTIFIER_YT8512 : Z := 0x00000128.
Definition IDENTIFIER_LOW_MASK : Z := 0xFFFF.
Definition PHY_RESET : Z := BIT 15.
Definition MASK_PHY_CTRL_RESTART_AUTONEG : Z := BIT 9.
Definition MII_PHY_ID0_REG : Z := 0x02.
Definition MII_PHY_ID1_REG : Z := 0x03.
Definition PHY_SPEED_1000M_MODE : Z := 0x8000.
Definition PHY_SPEED_100M_MODE : Z := 0x4000.
Definition PHY_SPEED_10M_MODE : Z := 0x0.
Definition EXT_ADDR_OFFSET_REG : Z := 0x1E.
Definition EXT_DATA_REG : Z := 0x1F.
Definition PHY_SPEC_STATUS : Z := 0x11.
Definition MASK_YT85XX_SPEED : Z := 0xc000.
Definition SMI_SDS_PHY_ADDR : Z := 0xa000.
Definition BROAD_CFG_ADDR : Z := 0xa005.
Definition LED0_CFG_ADDR : Z := 0xa00c.
Definition LED2_CFG_ADDR : Z := 0xa00e.
Definition SDS_LINK_TIMER_ADDR : Z := 0xa5.
Definition SDS_RESET_ADDR : Z := 0x0.
Definition SDS_STATUS_ADDR : Z := 0x11.
Definition SDS_RESET_BIT : Z := BIT 15.
Definition SDS_RX_LPI_ACTIVE_BIT : Z := BIT 9.
Definition SDS_ACCESS_MODE : Z := 0x2.
Definition PHY_ACCESS_MODE : Z := 0x0.
Definition GMAC_PHY_MAX_ADDR : Z := 0x1F.

Section Phy.
Context {G D : Type} `{MD : Machine D} `{GS : GmacSync} (fuel lfuel : nat).
Abbreviation M := (M G D).
Abbreviation mdio_read := (mdio_read fuel lfuel).
Abbreviation mdio_write := (mdio_write fuel lfuel).

(** A returned error code ends the caller ([if (ret) return ret;]). *)
Definition and_then (m : M Z) (k : M Z) : M Z :=
  ret ← m; if ctrue ret then mret ret else k.

Definition phy_yt85xx_write (phy_addr reg_num page value : Z) : M Z :=
  if GMAC_PHY_MAX_ADDR <? phy_addr then mret BM_FAIL
  else mdio_write 0 phy_addr reg_num value.

Definition phy_yt85xx_read (phy_addr reg_num page : Z) (pvalue : bool) : M (Z * option Z) :=
  if GMAC_PHY_MAX_ADDR <? phy_addr then mret (BM_FAIL, None)
  else mdio_read 0 phy_addr reg_num pvalue.

Definition phy_yt85xx_read_ext_reg (phy_addr reg_num : Z) (pvalue : bool) : M (Z * option Z) :=
  ret ← mdio_write 0 phy_addr EXT_ADDR_OFFSET_REG reg_num;
  '(ret', v) ← mdio_read 0 phy_addr EXT_DATA_REG pvalue;
  mret (ret + ret', v).

Definition phy_yt85xx_write_ext_reg (phy_addr reg_num value : Z) : M Z :=
  ret ← mdio_write 0 phy_addr EXT_ADDR_OFFSET_REG reg_num;
  ret' ← mdio_write 0 phy_addr EXT_DATA_REG value;
  mret (ret + ret').

(** [value] is read before it is set only when the read failed, and then the
    function has returned. *)
Definition phy_yt8521_fix_old_version (phy_addr : Z) : M Z :=
  '(ret, value) ← phy_yt85xx_read_ext_reg phy_addr 0xf true;
  if ctrue ret then mret ret
  else
    value ← some_or NullDeref value;
    if (value =? 0x10) || (value =? 0x12) || (value =? 0x14) then
      and_then (phy_yt85xx_write_ext_reg phy_addr SMI_SDS_PHY_ADDR SDS_ACCESS_MODE)
        (and_then (phy_yt85xx_write_ext_reg phy_addr 0x3 0x400) (mret BM_OK))
    else mret BM_OK.

Definition phy_yt8521_recover_ext_reg0_val (phy_addr : Z) : M Z :=
  '(ret, value) ← phy_yt85xx_read_ext_reg phy_addr 0 true;
  if ctrue ret then mret ret
  else
    value ← some_or NullDeref value;
    if value =? 0x1c8d then mret BM_OK
    else
      and_then (phy_yt85xx_write_ext_reg phy_addr 0 0x1c8d)
        ('(ret, value) ← phy_yt85xx_read phy_addr 0 0 true;
         if ctrue ret then mret ret
         else
           value ← some_or NullDeref value;
           phy_yt85xx_write phy_addr 0 0 (Z.lor value PHY_RESET)).

Definition phy_yt8521_init (phy_addr : Z) : M Z :=
  and_then (phy_yt8521_fix_old_version phy_addr)
  (and_then
     (ret ← phy_yt85xx_write_ext_reg phy_addr SMI_SDS_PHY_ADDR SDS_ACCESS_MODE;
      ret' ← phy_yt85xx_write_ext_reg phy_addr SDS_LINK_TIMER_ADDR 0x1f;
      mret (ret + ret'))
  (and_then (phy_yt85xx_write_ext_reg phy_addr SMI_SDS_PHY_ADDR PHY_ACCESS_MODE)
  (and_then
     ('(ret, v) ← phy_yt85xx_read_ext_reg phy_addr BROAD_CFG_ADDR true;
      let value := Z.land (default 0 v) (bnot 32 (BIT 6)) in
      ret' ← phy_yt85xx_write_ext_reg phy_addr BROAD_CFG_ADDR value;
      mret (ret + ret'))
  (and_then (phy_yt85xx_write_ext_reg phy_addr LED0_CFG_ADDR 0x1870)
  (and_then (phy_yt85xx_write_ext_reg phy_addr LED2_CFG_ADDR 0x2600)
  (phy_yt8521_recover_ext_reg0_val phy_addr)))))).

Definition phy_yt85xx_get_id (phy_addr : Z) : M (Z * option Z) :=
  '(ret, v) ← phy_yt85xx_read phy_addr MII_PHY_ID0_REG 0 true;
  let identifier_h32 := default 0 v in
  if ctrue ret then mret (ret, None)
  else
    '(ret, v) ← phy_yt85xx_read phy_addr MII_PHY_ID1_REG 0 true;
    let identifier_l32 := default 0 v in
    if ctrue ret then mret (ret, None)
    else mret (ret, Some (Z.lor (u32 (Z.shiftl identifier_h32 16))
                                (Z.land identifier_l32 IDENTIFIER_LOW_MASK))).

Definition check_yt8521_phy_id (phy_addr : Z) : M Z :=
  '(ret, id) ← phy_yt85xx_get_id phy_addr;
  if ctrue ret then mret BM_FAIL
  else
    id ← some_or NullDeref id;
    if id =? IDENTIFIER_YT8521 then mret BM_OK else mret BM_FAIL.

(** [exit:] leaves the SerDes registers in every case but the first. *)
Definition phy_yt8521_fix_chip_buf (phy_addr : Z) : M unit :=
  ret ← phy_yt85xx_write_ext_reg phy_addr SMI_SDS_PHY_ADDR SDS_ACCESS_MODE;
  if ctrue ret then mret tt
  else
    ('(ret, value) ← phy_yt85xx_read phy_addr SDS_STATUS_ADDR 0 true;
     if ctrue ret then mret tt
     else
       value ← some_or NullDeref value;
       if Z.land value SDS_RX_LPI_ACTIVE_BIT =? 0 then mret tt
       else
         '(ret, value) ← phy_yt85xx_read phy_addr SDS_RESET_ADDR 0 true;
         if ctrue ret then mret tt
         else
           value ← some_or NullDeref value;
           _ ← phy_yt85xx_write phy_addr SDS_RESET_ADDR 0 (Z.lor value SDS_RESET_BIT);
           udelay fuel 100000) ;;
    _ ← phy_yt85xx_write_ext_reg phy_addr SMI_SDS_PHY_ADDR PHY_ACCESS_MODE;
    mret tt.

Definition phy_yt85xx_get_link_status (phy_addr : Z) (status : bool) : M (Z * option Z) :=
  if negb status then mret (BM_FAIL, None)
  else
    '(ret, v) ← phy_yt85xx_read phy_addr PHY_SPEC_STATUS 0x0 true;
    let reg_value := default 0 v in
    if ctrue ret then mret (ret, None)
    else if Z.land reg_value 0xffff =? 0xffff then mret (BM_FAIL, None)
    else
      let st := if ctrue (Z.land reg_value (BIT 10)) then PHY_LINK_UP else PHY_LINK_DOWN in
      (if st =? PHY_LINK_UP then
         ok ← check_yt8521_phy_id phy_addr;
         when (ok =? BM_OK) (phy_yt8521_fix_chip_buf phy_addr)
       else mret tt) ;;
      mret (BM_OK, Some st).

(** The speed field of the status register, as the two PHYs read it. *)
Definition phy_speed (v s1000 s100 s10 other : Z) : Z :=
  let f := Z.land v MASK_YT85XX_SPEED in
  if f =? PHY_SPEED_1000M_MODE then s1000
  else if f =? PHY_SPEED_100M_MODE then s100
  else if f =? PHY_SPEED_10M_MODE then s10
  else other.
Definition phy_duplex (v : Z) : Z :=
  if ctrue (Z.land v (BIT 13)) then GMAC_DUPLEX_FULL else GMAC_DUPLEX_HALF.

Definition phy_yt8521_get_speed_duplex (phy_addr : Z) : M (Z * option (Z * Z)) :=
  '(ret, v) ← phy_yt85xx_read phy_addr PHY_SPEC_STATUS 0x0 true;
  let value := default 0 v in
  if ctrue ret then mret (ret, None)
  else if Z.land value 0xffff =? 0xffff then mret (BM_FAIL, None)
  else
    mret (BM_OK, Some (phy_speed value MAC_1000M_SGMII MAC_100M_SGMII MAC_10M_SGMII MAC_1000M_SGMII,
                       phy_duplex value)).

Definition phy_yt8512_get_speed_duplex (phy_addr : Z) : M (Z * option (Z * Z)) :=
  '(ret, v) ← phy_yt85xx_read phy_addr PHY_SPEC_STATUS 0x0 true;
  let value := default 0 v in
  if ctrue ret then mret (ret, None)
  else
    mret (BM_OK, Some (phy_speed value MAC_1000M_GMII MAC_100M_RMII MAC_10M_RMII MAC_100M_RMII,
                       phy_duplex value)).

Definition phy_yt85xx_restart_autoneg (phy_addr : Z) : M Z :=
  '(ret, v) ← phy_yt85xx_read phy_addr REG_PHY_CTRL 0 true;
  let value := default 0 v in
  if ctrue ret then mret BM_FAIL
  else
    ret ← phy_yt85xx_write phy_addr REG_PHY_CTRL 0 (Z.lor value MASK_PHY_CTRL_RESTART_AUTONEG);
    if ctrue ret then mret BM_FAIL
    else udelay fuel 10000 ;; mret BM_OK.

Definition phy_yt8512_init (phy_addr : Z) : M Z :=
  and_then (phy_yt85xx_restart_autoneg phy_addr)
    ('(ret, v) ← phy_yt85xx_read_ext_reg phy_addr 0 true;
     if ctrue ret then mret ret
     else
       let val := Z.land (default 0 v) (bnot 32 (BIT 6)) in
       and_then (phy_yt85xx_write_ext_reg phy_addr 0x40c3 0xc03)
       (and_then (phy_yt85xx_write_ext_reg phy_addr 0x40c0 0x1300)
       (phy_yt85xx_write_ext_reg phy_addr 0 val))).
End Phy.
