(* ===== verification/PhyProps.v ===== *)
(** * PhyProps: what MDIO and PHY operations leave alone

    Every operation on a PHY ends without a fault and writes only to the MDIO
    controller and to the shared lock word; the part of the globals looked at
    is unchanged.  [P] is any predicate on accesses that allows these. *)
From stdpp Require Import prelude gmap list strings.
From Stdlib Require Import ZArith Lia.
From S2P Require Import Prelude Fields Hw Common Cache GmacRegs Mdio MdioProps Phy.
Local Open Scope Z_scope.

(** The accesses of MDIO transactions are among those of [P]. *)
Class AllowsMdio `{GmacSync} (P : event -> Prop) : Prop := {
  allows_sys op v : P (Sy op v);
  allows_wait v : P (Rd wait_reg v);
  allows_look v : P (Rd cmd_reg v);
  allows_rdata v : P (Rd rdata_reg v);
  allows_try v : P (Rd GMAC_MDIO_SYNC v);
  allows_cmd v : P (Wr cmd_reg v);
  allows_wdata v : P (Wr wdata_reg v);
  allows_lock v : P (Wr GMAC_MDIO_SYNC v);
}.

Create HintDb quiet_phy.

Section Quiet.
Context {G D : Type} `{MD : Machine D} `{GS : GmacSync} (fuel lfuel : nat).
Context `{DL : !Delays G fuel} (Hlock : lock_comes lfuel GMAC_MDIO_SYNC mdio_relax_ops).
Context {T : Type} `{HT : !Has G T} (P : event -> Prop) `{AP : !AllowsMdio P}.
Abbreviation quiet := (quiet (G := G) (D := D) T P).

Lemma quiet_delay us : 0 <= us <= 100000 -> quiet (udelay fuel us).
Proof.
  intros Hus. apply quiet_emits. intros w. emits_apply delays; [done |]. intros _ t Ht.
  eapply Forall_impl; [exact Ht |]. intros []; [done | done | | done]. intros _. apply allows_sys.
Qed.

Lemma quiet_spin_lock addr relax ops : (forall v, P (Wr addr v)) -> (forall v, P (Rd addr v)) ->
  relaxes relax ops -> lock_comes lfuel addr ops -> quiet (spin_lock lfuel addr relax).
Proof.
  intros Ha Hb Hr Hl. apply quiet_emits. intros w. emits_apply (emits_spin_lock lfuel addr relax ops); [exact Hr | exact Hl |].
  intros [] t (t0 & -> & Hf). apply Forall_app. split.
  - eapply Forall_impl; [exact Hf |]. intros []; [intros [-> _]; apply Hb | done | intros; apply allows_sys | done].
  - constructor; [apply Hb |]. by constructor.
Qed.

Lemma quiet_ready_wait : quiet (mdio_ready_wait fuel 0).
Proof.
  apply quiet_emits. intros w. emits_apply (emits_ready_wait fuel). intros r t (_ & Hw & _).
  eapply Forall_impl; [exact Hw |].
  intros []; [intros ->; apply allows_wait | done | intros; apply allows_sys | done].
Qed.

(** [quiet], with a condition on the result. *)
Definition yields {A} (m : M G D A) (Q : A -> Prop) : Prop :=
  forall w, wp m (fun a w' => Q a /\ hget (S := T) (glob w') = hget (glob w) /\
    exists t, tr w' = tr w ++ t /\ Forall P t) w.

Lemma yields_quiet {A} (m : M G D A) Q : yields m Q -> quiet m.
Proof. intros Hm w. eapply wp_mono; [apply Hm |]. by intros a w' [_ H]. Qed.

Lemma yields_ret {A} (a : A) (Q : A -> Prop) : Q a -> yields (mret a) Q.
Proof. intros HQ w. apply wp_ret. split_and!; [done | done |]. exists []. by rewrite app_nil_r. Qed.

Lemma yields_bind {A B} (m : M G D A) (k : A -> M G D B) Q R :
  yields m Q -> (forall a, Q a -> yields (k a) R) -> yields (m ≫= k) R.
Proof.
  intros Hm Hk w. apply wp_bind. eapply wp_mono; [apply Hm |]. cbv beta.
  intros a w1 (HQ & Hg & t & Ht & HP). eapply wp_mono; [by apply Hk |]. cbv beta.
  intros b w2 (HR & Hg' & t' & Ht' & HP'). split; [done |]. split; [congruence |].
  exists (t ++ t'). rewrite Ht', Ht, app_assoc. split; [done |]. by apply Forall_app.
Qed.

Lemma yields_any {A} (m : M G D A) : quiet m -> yields m (fun _ => True).
Proof. intros Hm w. eapply wp_mono; [apply Hm |]. by intros a w' H. Qed.

Lemma quiet_bind_yields {A B} (m : M G D A) (k : A -> M G D B) Q :
  yields m Q -> (forall a, Q a -> quiet (k a)) -> quiet (m ≫= k).
Proof.
  intros Hm Hk. eapply yields_quiet. apply (yields_bind _ _ Q (fun _ => True)); [done |].
  intros a HQ. by apply yields_any, Hk.
Qed.

(** A value stored through a pointer whenever the function succeeds. *)
Definition stored {A} (r : Z * option A) : Prop := r.1 <= 0 /\ (r.1 = BM_OK -> is_Some r.2).
Definition code (r : Z) : Prop := r <= 0.
End Quiet.

(** One step of [quiet], for the operations of the network driver. *)
Ltac quiet_net :=
  first
  [ quiet_step
  | lazymatch goal with
    | |- Hw.quiet _ _ (udelay _ _) => apply quiet_delay; first [lia | typeclasses eauto]
    | |- Hw.quiet _ _ (mdio_ready_wait _ 0) => apply quiet_ready_wait; typeclasses eauto
    | |- Hw.quiet _ _ (spin_lock _ GMAC_MDIO_SYNC _) =>
        eapply quiet_spin_lock;
        first [apply allows_lock | apply allows_try | apply mdio_relax_relaxes | eassumption | typeclasses eauto]
    | |- Hw.quiet _ _ (match ?p with (_, _) => _ end) => destruct p
    | |- Hw.quiet _ _ (match ?o with Some _ => _ | None => _ end) => destruct o
    end
  | match goal with
    | |- _ (Rd cmd_reg _) => apply allows_look
    | |- _ (Rd rdata_reg _) => apply allows_rdata
    | |- _ (Sy _ _) => apply allows_sys
    | |- _ (Wr cmd_reg _) => apply allows_cmd
    | |- _ (Wr wdata_reg _) => apply allows_wdata
    | |- _ (Wr GMAC_MDIO_SYNC _) => apply allows_lock
    end ].
Ltac quiet_nets := repeat quiet_net.

Section QuietPhy.
Context {G D : Type} `{MD : Machine D} `{GS : GmacSync} (fuel lfuel : nat).
Context `{DL : !Delays G fuel} (Hlock : lock_comes lfuel GMAC_MDIO_SYNC mdio_relax_ops).
Context {T : Type} `{HT : !Has G T} (P : event -> Prop) `{AP : !AllowsMdio P}.
Abbreviation quiet := (quiet (G := G) (D := D) T P).

Abbreviation yields := (yields (T := T) (G := G) (D := D) P).

Lemma yields_mdio_write phy reg v : yields (mdio_write fuel lfuel 0 phy reg v) code.
Proof.
  assert (yields (mret BM_FAIL) code) as Hfail by (by apply yields_ret).
  unfold mdio_write, mdio_phy_write, mdio_reg_write, mdio_reg_read. fold wdata_reg cmd_reg.
  change (MDIO_MAX_DRV_NUM <=? 0) with false. cbv iota.
  destruct (_ <? phy); [done |]. destruct (_ <? reg); [done |].
  eapply yields_bind; [apply yields_any; quiet_nets |]. intros ready _. destruct (negb _); [done |].
  do 4 (eapply yields_bind; [apply yields_any; quiet_nets | intros _ _]). by apply yields_ret.
Qed.

Lemma quiet_mdio_write phy reg v : quiet (mdio_write fuel lfuel 0 phy reg v).
Proof. eapply yields_quiet, yields_mdio_write. Qed.

Lemma yields_mdio_read phy reg b : yields (mdio_read fuel lfuel 0 phy reg b) stored.
Proof.
  assert (yields (mret (BM_FAIL, None : option Z)) stored) as Hfail by (by apply yields_ret; split).
  unfold mdio_read, mdio_start_phy_read, mdio_get_phy_read_val, mdio_reg_write, mdio_reg_read.
  fold rdata_reg cmd_reg. change (MDIO_MAX_DRV_NUM <=? 0) with false. cbv iota.
  destruct (_ <? phy); [done |]. destruct (_ <? reg); [done |]. destruct b; [| done]. cbn [negb].
  eapply yields_bind; [apply yields_any; quiet_nets |]. intros ready _.
  destruct (negb _); [done |].
  eapply yields_bind; [apply yields_any; quiet_nets |]. intros _ _.
  eapply yields_bind; [apply yields_any; quiet_nets |]. intros _ _.
  eapply yields_bind; [apply yields_any; quiet_nets |]. intros ready' _.
  apply (yields_bind _ _ _ stored).
  - destruct (ctrue ready'); [| done].
    eapply yields_bind; [apply yields_any; quiet_nets |]. intros _ _.
    eapply yields_bind; [apply yields_any; quiet_nets |]. intros v _. apply yields_ret. split; [done | by eexists].
  - intros r Hr. eapply yields_bind; [apply yields_any; quiet_nets |]. intros _ _. by apply yields_ret.
Qed.

Lemma quiet_and_then m k : quiet m -> quiet k -> quiet (and_then m k).
Proof. intros Hm Hk. unfold and_then. apply quiet_bind; [done |]. intros r. by destruct (ctrue r); [apply quiet_ret |]. Qed.

Lemma quiet_write phy reg page v : quiet (phy_yt85xx_write fuel lfuel phy reg page v).
Proof. unfold phy_yt85xx_write. destruct (_ <? _); [apply quiet_ret | apply quiet_mdio_write]. Qed.

Lemma quiet_write_ext phy reg v : quiet (phy_yt85xx_write_ext_reg fuel lfuel phy reg v).
Proof.
  unfold phy_yt85xx_write_ext_reg. apply quiet_bind; [apply quiet_mdio_write |]. intros r.
  apply quiet_bind; [apply quiet_mdio_write |]. intros r'. apply quiet_ret.
Qed.

Lemma yields_read phy reg page b : yields (phy_yt85xx_read fuel lfuel phy reg page b) stored.
Proof.
  unfold phy_yt85xx_read. destruct (_ <? _); [by apply yields_ret | apply yields_mdio_read].
Qed.

Lemma yields_read_ext phy reg b : yields (phy_yt85xx_read_ext_reg fuel lfuel phy reg b) stored.
Proof.
  unfold phy_yt85xx_read_ext_reg. eapply yields_bind; [apply yields_mdio_write |]. intros r Hr.
  eapply yields_bind; [apply yields_mdio_read |]. intros [r' v] [Hr' Hv]. apply yields_ret.
  unfold code in Hr. cbn [fst snd] in *. split; cbn [fst snd]; [lia |]. unfold BM_OK in *.
  intros H. apply Hv. lia.
Qed.

Lemma yields_get_id phy : yields (phy_yt85xx_get_id fuel lfuel phy) stored.
Proof.
  unfold phy_yt85xx_get_id. eapply yields_bind; [apply yields_read |]. intros [r v] [Hr Hv]. cbv zeta.
  cbn [fst snd] in *. destruct (ctrue r) eqn:Er; [apply yields_ret; split; [done |]; cbn [fst snd] |].
  - unfold ctrue, BM_OK in *. intros ->. done.
  - eapply yields_bind; [apply yields_read |]. intros [r' v'] [Hr' Hv']. cbn [fst snd] in *.
    destruct (ctrue r') eqn:Er'; apply yields_ret; (split; [done |]); cbn [fst snd]; [| by eexists].
    unfold ctrue, BM_OK in *. intros ->. done.
Qed.

(** After a successful read the variable is set. *)
Lemma quiet_value {A} (r : Z * option Z) (k : Z -> M G D A) :
  stored r -> ctrue r.1 = false -> (forall v, quiet (k v)) -> quiet (v ← some_or NullDeref r.2; k v).
Proof.
  intros [_ Hs] Hr Hk. unfold ctrue, BM_OK in *. destruct Hs as [v Hv]; [destruct (Z.eqb_spec r.1 0); done |].
  rewrite Hv. apply Hk.
Qed.

(** A read, then either the error or what is done with the value. *)
Lemma quiet_read_then {A} (m : M G D (Z * option Z)) (e : Z -> M G D A) (k : Z -> M G D A) :
  yields m stored -> (forall r, quiet (e r)) -> (forall v, quiet (k v)) ->
  quiet ('(ret, value) ← m; if ctrue ret then e ret else value ← some_or NullDeref value; k value).
Proof.
  intros Hm He Hk. eapply quiet_bind_yields; [exact Hm |]. intros [r v] Hs.
  destruct (ctrue r) eqn:Er; [apply He |]. by apply (quiet_value (r, v)).
Qed.
#[local] Hint Resolve quiet_write quiet_write_ext yields_read yields_read_ext yields_get_id quiet_mdio_write
  yields_mdio_read quiet_and_then : quiet_phy.

Lemma quiet_fix_old_version phy : quiet (phy_yt8521_fix_old_version fuel lfuel phy).
Proof.
  unfold phy_yt8521_fix_old_version. apply quiet_read_then; [auto with quiet_phy | intros; apply quiet_ret |].
  intros v. destruct (_ || _); [| apply quiet_ret]. auto using quiet_ret with quiet_phy.
Qed.

Lemma quiet_recover phy : quiet (phy_yt8521_recover_ext_reg0_val fuel lfuel phy).
Proof.
  unfold phy_yt8521_recover_ext_reg0_val.
  apply quiet_read_then; [auto with quiet_phy | intros; apply quiet_ret |].
  intros v. destruct (_ =? _); [apply quiet_ret |]. apply quiet_and_then; [auto with quiet_phy |].
  apply quiet_read_then; [auto with quiet_phy | intros; apply quiet_ret |]. auto with quiet_phy.
Qed.

Lemma quiet_yt8521_init phy : quiet (phy_yt8521_init fuel lfuel phy).
Proof.
  unfold phy_yt8521_init.
  repeat (apply quiet_and_then; [first [apply quiet_fix_old_version | auto with quiet_phy | idtac] |]);
    [.. | apply quiet_recover].
  - repeat (apply quiet_bind; [auto with quiet_phy | intros ?]). apply quiet_ret.
  - apply quiet_bind; [eapply yields_quiet; auto with quiet_phy |]. intros [r v]. cbv zeta.
    apply quiet_bind; [auto with quiet_phy |]. intros r'. apply quiet_ret.
Qed.

Lemma quiet_check_id phy : quiet (check_yt8521_phy_id fuel lfuel phy).
Proof.
  unfold check_yt8521_phy_id. apply quiet_read_then; [auto with quiet_phy | intros; apply quiet_ret |].
  intros v. destruct (_ =? _); apply quiet_ret.
Qed.

Lemma quiet_fix_chip_buf phy : quiet (phy_yt8521_fix_chip_buf fuel lfuel phy).
Proof.
  unfold phy_yt8521_fix_chip_buf. apply quiet_bind; [auto with quiet_phy |]. intros r.
  destruct (ctrue r); [apply quiet_ret |]. apply quiet_bind.
  - apply quiet_read_then; [auto with quiet_phy | intros; apply quiet_ret |].
    intros v. destruct (_ =? _); [apply quiet_ret |].
    apply quiet_read_then; [auto with quiet_phy | intros; apply quiet_ret |].
    intros v'. apply quiet_bind; [auto with quiet_phy |]. intros _. quiet_nets.
  - intros _. apply quiet_bind; [auto with quiet_phy |]. intros _. apply quiet_ret.
Qed.

Lemma quiet_get_link_status phy b : quiet (phy_yt85xx_get_link_status fuel lfuel phy b).
Proof.
  unfold phy_yt85xx_get_link_status. destruct (negb b); [apply quiet_ret |].
  apply quiet_bind; [eapply yields_quiet; auto with quiet_phy |]. intros [r v]. cbv zeta.
  destruct (ctrue r); [apply quiet_ret |]. destruct (_ =? _); [apply quiet_ret |].
  apply quiet_bind; [| intros; apply quiet_ret]. destruct (_ =? _); [| apply quiet_ret].
  apply quiet_bind; [apply quiet_check_id |]. intros ok. apply quiet_when, quiet_fix_chip_buf.
Qed.

Lemma quiet_speed8521 phy : quiet (phy_yt8521_get_speed_duplex fuel lfuel phy).
Proof.
  unfold phy_yt8521_get_speed_duplex. apply quiet_bind; [eapply yields_quiet; auto with quiet_phy |].
  intros [r v]. cbv zeta. destruct (ctrue r); [| destruct (_ =? _)]; apply quiet_ret.
Qed.

Lemma quiet_speed8512 phy : quiet (phy_yt8512_get_speed_duplex fuel lfuel phy).
Proof.
  unfold phy_yt8512_get_speed_duplex. apply quiet_bind; [eapply yields_quiet; auto with quiet_phy |].
  intros [r v]. cbv zeta. destruct (ctrue r); apply quiet_ret.
Qed.

Lemma quiet_restart phy : quiet (phy_yt85xx_restart_autoneg fuel lfuel phy).
Proof.
  unfold phy_yt85xx_restart_autoneg. apply quiet_bind; [eapply yields_quiet; auto with quiet_phy |].
  intros [r v]. cbv zeta. destruct (ctrue r); [apply quiet_ret |].
  apply quiet_bind; [auto with quiet_phy |]. intros r'. quiet_nets.
Qed.

Lemma quiet_yt8512_init phy : quiet (phy_yt8512_init fuel lfuel phy).
Proof.
  unfold phy_yt8512_init. apply quiet_and_then; [apply quiet_restart |].
  apply quiet_bind; [eapply yields_quiet; auto with quiet_phy |].
  intros [r v]. cbv zeta. destruct (ctrue r); [apply quiet_ret |]. auto with quiet_phy.
Qed.
End QuietPhy.
