(* ===== verification/Gmac.v ===== *)
(** * Gmac: the four Ethernet ports (drivers/net/gmac.c)

    Initialisation of a port (SerDes, reset, MAC registers, descriptor ring,
    PHY), following the link's speed, sending and receiving one packet.  A
    [struct gmac_device *] is an index into [gmac_device_tbl], the pointer to
    a PHY's functions an index into [hi_gmac_phy_info_table].  The packet
    buffers are memory at link-time addresses.  [fuel] bounds the busy waits,
    [lfuel] the waits for lock words; the other loops are bounded in the code.
    [uninit] is what an uninitialised local variable happens to hold. *)
From stdpp Require Import prelude gmap list strings.
From Stdlib Require Import ZArith Lia.
From S2P Require Import Prelude Fields Hw Common Mem Securec Cache Osal Os GmacRegs Mdio Phy.
Local Open Scope Z_scope.

Definition ETH0 : Z := 0.
Definition ETH1 : Z := 1.
Definition ETH2 : Z := 2.
Definition ETH3 : Z := 3.
Definition ETH_BUTT : Z := 4.

(** io_config.h *)
Definition IO_CONFIG_R_IOMG022_ADDR : Z := 0x876e000 + 0x58.
Definition IO_CONFIG_R_IOMG023_ADDR : Z := 0x876e000 + 0x5C.
Definition IO_CONFIG_R_IOMG024_ADDR : Z := 0x876e000 + 0x60.
Definition IO_CONFIG_R_IOMG025_ADDR : Z := 0x876e000 + 0x64.
Definition IO_CONFIG_R_IOMG026_ADDR : Z := 0x876e000 + 0x68.
Definition IO_CONFIG_R_IOMG027_ADDR : Z := 0x876e000 + 0x6C.

Record gmac_device := GmacDevice {
  mac_num : Z;
  phy_addr : Z;
  rx_data_ring : list Z;
  tx_data_ring : list Z;
  rx_data_num : Z;
  tx_data_num : Z;
  init_done : Z;
  link_status : Z;
  link_speed : Z;
  link_mode : Z;
  gmac_phy_info : option nat;
}.

(** The statics of gmac.c; [old_speed] and [old_mode] are those of
    [gmac_update_speed_duplex]. *)
Record gmac := Gmac {
  gmac_device_tbl : list gmac_device;
  old_speed : Z;
  old_mode : Z;
}.
Definition zero_gmac_device : gmac_device := GmacDevice 0 0 [0; 0] [0; 0] 0 0 0 0 0 0 None.
Definition gmac_init_state : gmac := Gmac (replicate 4 zero_gmac_device) 0 0.

(** What the build and the linker give: the ports the device tree has, and
    the addresses of the static buffers and semaphores. *)
Class GmacConfig := {
  gmac_exist_array : list Z;
  gmac_sem : Z -> Z;
  g_gmac_tx_buffer : Z;
  g_gmac_rx_buffer : Z;
  g_packet_buf : Z;
  g_default_mac_addr : Z;
}.

Definition with_port (num addr : Z) (d : gmac_device) : gmac_device :=
  GmacDevice num addr (rx_data_ring d) (tx_data_ring d) (rx_data_num d) (tx_data_num d)
    (init_done d) (link_status d) (link_speed d) (link_mode d) (gmac_phy_info d).
Definition with_rx_ring (r : list Z) (d : gmac_device) : gmac_device :=
  GmacDevice (mac_num d) (phy_addr d) r (tx_data_ring d) (rx_data_num d) (tx_data_num d)
    (init_done d) (link_status d) (link_speed d) (link_mode d) (gmac_phy_info d).
Definition with_tx_ring (r : list Z) (d : gmac_device) : gmac_device :=
  GmacDevice (mac_num d) (phy_addr d) (rx_data_ring d) r (rx_data_num d) (tx_data_num d)
    (init_done d) (link_status d) (link_speed d) (link_mode d) (gmac_phy_info d).
Definition with_rx_num (n : Z) (d : gmac_device) : gmac_device :=
  GmacDevice (mac_num d) (phy_addr d) (rx_data_ring d) (tx_data_ring d) n (tx_data_num d)
    (init_done d) (link_status d) (link_speed d) (link_mode d) (gmac_phy_info d).
Definition with_tx_num (n : Z) (d : gmac_device) : gmac_device :=
  GmacDevice (mac_num d) (phy_addr d) (rx_data_ring d) (tx_data_ring d) (rx_data_num d) n
    (init_done d) (link_status d) (link_speed d) (link_mode d) (gmac_phy_info d).
Definition with_init_done (v : Z) (d : gmac_device) : gmac_device :=
  GmacDevice (mac_num d) (phy_addr d) (rx_data_ring d) (tx_data_ring d) (rx_data_num d) (tx_data_num d)
    v (link_status d) (link_speed d) (link_mode d) (gmac_phy_info d).
Definition with_link_status (v : Z) (d : gmac_device) : gmac_device :=
  GmacDevice (mac_num d) (phy_addr d) (rx_data_ring d) (tx_data_ring d) (rx_data_num d) (tx_data_num d)
    (init_done d) v (link_speed d) (link_mode d) (gmac_phy_info d).
Definition with_link (speed mode : Z) (d : gmac_device) : gmac_device :=
  GmacDevice (mac_num d) (phy_addr d) (rx_data_ring d) (tx_data_ring d) (rx_data_num d) (tx_data_num d)
    (init_done d) (link_status d) speed mode (gmac_phy_info d).
Definition with_phy_info (i : option nat) (d : gmac_device) : gmac_device :=
  GmacDevice (mac_num d) (phy_addr d) (rx_data_ring d) (tx_data_ring d) (rx_data_num d) (tx_data_num d)
    (init_done d) (link_status d) (link_speed d) (link_mode d) i.
Definition set_priv (e : Z) (d : gmac_device) (s : gmac) : gmac :=
  Gmac (<[Z.to_nat e := d]> (gmac_device_tbl s)) (old_speed s) (old_mode s).

(** The functions of one kind of PHY; no entry of the table has a NULL one. *)
Record gmac_phy_info_s (M : Type -> Type) := GmacPhyInfo {
  name : string;
  phy_id : Z;
  init : Z -> M Z;
  get_speed_duplex : Z -> M (Z * option (Z * Z))%type;
  get_link_status : Z -> bool -> M (Z * option Z)%type;
}.
Arguments GmacPhyInfo {_}.
Arguments name {_}.
Arguments phy_id {_}.
Arguments init {_}.
Arguments get_speed_duplex {_}.
Arguments get_link_status {_}.

Record femac_pkt_store_ctrl_cfg := PktStoreCtrlCfg {
  cf_buf_1st_skip1 : Z; cf_buf_n1st_skip : Z; cf_rx_align_num : Z; cf_cache_line : Z;
  cf_rxbuf_1st_skip_size2 : Z;
}.
Record femac_rx_pkt_mode_cfg := RxPktModeCfg {
  cf_instr_head_mode : Z; cf_skip_len : Z; cf_parse_mode : Z; mac_skip_len : Z;
}.
Record femac_port_mode_cfg := PortModeCfg {
  port_mode : Z; port_num : Z; max_frm_size : Z; short_runts_thr : Z; pad_enable : Z;
  crc_add : Z; an_enable : Z; runt_pkt_en : Z; strip_pad_en : Z;
}.
Record femac_mac_filter_cfg := MacFilterCfg {
  crc_err_pass : Z; pause_frm_pass : Z; bc_drop_en : Z; mc_match_en : Z; uc_match_en : Z;
}.

Section Port.
Context {G D : Type} `{MD : Machine D} `{HM : !Has G mem}.
Context `{GC : GmacConfig} (fuel : nat).
Abbreviation M := (M G D).

Definition gmac_mdelay (msec : Z) : M unit := udelay fuel (u64 (msec * 1000)).

(** Change a register's fields and look whether the change took. *)
Definition mac_update (port offset : Z) (f : Z -> Z) : M Z :=
  x ← mac_reg_read port offset;
  mac_reg_write port offset (f x) ;;
  cmp_val ← mac_reg_read port offset;
  mret (if cmp_val =? f x then BM_OK else BM_FAIL).

(** Change them without looking. *)
Definition mac_change (port offset : Z) (f : Z -> Z) : M unit :=
  x ← mac_reg_read port offset; mac_reg_write port offset (f x).

(** ** Addresses the MAC uses for buffers *)
Definition ddr_relative_addr (dir ext phy_addr : Z) : Z :=
  let f n := get_bits u_hp_mac_haddr_extend n ext in
  let '(mode, offset, hi) :=
    if dir =? GMAC_TX then (f "m1_addr_remap_mode", f "m1_haddr_offset", f "m1_haddr_hi")
    else (f "m0_addr_remap_mode", f "m0_haddr_offset", f "m0_haddr_hi") in
  let mac_haddr :=
    if mode =? 0x1 then u64 (Z.shiftl offset 28)
    else if mode =? 0x2 then u64 (Z.shiftl hi 32)
    else 0 in
  if phy_addr <? mac_haddr then u32 phy_addr
  else
    let relative_addr := phy_addr - mac_haddr in
    if negb (Z.shiftr relative_addr 32 =? 0) then u32 phy_addr else u32 relative_addr.

Definition gmac_get_ddr_relative_addr (dir gmac_id phy_addr : Z) : M Z :=
  ext ← readl (u32 (HP_SUB_CSR_HP_MAC_HADDR_EXTEND_0_ADDR + gmac_id * 0x4));
  mret (ddr_relative_addr dir ext phy_addr).

Definition gmac_init_extend_addr (gmac_id : Z) : M unit :=
  writel
    (set_fields u_hp_mac_haddr_extend
       [("m0_haddr_offset", 0x8); ("m0_addr_remap_mode", 0x1);
        ("m1_haddr_offset", 0x8); ("m1_addr_remap_mode", 0x1)] 0)
    (u32 (HP_SUB_CSR_HP_MAC_HADDR_EXTEND_0_ADDR + gmac_id * 0x4)).

(** ** The station address *)
Definition mac_addr_words (p : Z) : M (Z * Z) :=
  b0 ← ld8 p; b1 ← ld8 (p + 1);
  b2 ← ld8 (p + 2); b3 ← ld8 (p + 3); b4 ← ld8 (p + 4); b5 ← ld8 (p + 5);
  mret (Z.lor (u32 (Z.shiftl b0 8)) b1,
        Z.lor (Z.lor (Z.lor (u32 (Z.shiftl b2 24)) (u32 (Z.shiftl b3 16))) (u32 (Z.shiftl b4 8))) b5).

Definition gmac_set_hw_mac_addr (mac_num : Z) : M Z :=
  if GMAC_MAX_DEV <=? mac_num then mret BM_FAIL
  else
    '(mac_addr_hi, mac_addr_low) ← mac_addr_words (g_default_mac_addr + mac_num * MAC_ADDR_LEN);
    mac_reg_write mac_num MAC_CORE_STATION_ADDR_HIGH_2_REG mac_addr_hi ;;
    mac_reg_write mac_num MAC_CORE_STATION_ADDR_LOW_2_REG mac_addr_low ;;
    mac_reg_write mac_num MAC_CORE_STATION_ADDR_LOW_MSK_0_REG 0xFFFFFFFF ;;
    mac_reg_write mac_num MAC_CORE_STATION_ADDR_HIGH_MSK_0_REG 0xFFFFFFFF ;;
    mac_reg_write mac_num MAC_CORE_STATION_ADDR_LOW_MSK_1_REG 0xFFFFFFFF ;;
    mac_reg_write mac_num MAC_CORE_STATION_ADDR_HIGH_MSK_1_REG 0xFFFFFFFF ;;
    mret BM_OK.

(** ** Port registers *)
Definition gmac_hw_set_tx_pad_add (port is_enable : Z) : M Z :=
  if GMAC_MAX_DEV <=? port then mret BM_FAIL
  else if 1 <? is_enable then mret BM_FAIL
  else mac_update port MAC_CORE_TRANSMIT_CONTROL_REG (set_bits u_transmit_control "pad_enable" is_enable).

Definition gmac_hw_set_pkt_store_format (port : Z) (cfg : option femac_pkt_store_ctrl_cfg) : M Z :=
  match cfg with
  | None => mret BM_FAIL
  | Some c =>
      mac_update port PCU_RX_CTRL_REG (set_fields u_rx_ctrl
        [("cf_rxbuf_1st_skip_size", cf_buf_1st_skip1 c);
         ("cf_rxbuf_no_1st_skip_size", cf_buf_n1st_skip c);
         ("cf_time_inf_en", 0);
         ("cf_rx_align_num", cf_rx_align_num c);
         ("cf_addr_mode", 0);
         ("cf_cache_line_h", 0);
         ("cf_cache_line", cf_cache_line c);
         ("cf_rxbuf_1st_skip_size2", cf_rxbuf_1st_skip_size2 c)])
  end.

Definition gmac_hw_set_pkt_input_parse_mode (port : Z) (cfg : option femac_rx_pkt_mode_cfg) : M Z :=
  match cfg with
  | None => mret BM_FAIL
  | Some c =>
      and_then
        (mac_update port PCU_RX_PKT_MODE_REG (set_fields u_rx_pkt_mode
          [("cf_instr_head_mode", cf_instr_head_mode c);
           ("cf_skip_len", cf_skip_len c);
           ("cf_parse_mode", cf_parse_mode c);
           ("cf_gen_id", 0)]))
        (mac_change port MAC_CORE_MAC_SKIP_LEN_REG (set_fields u_mac_skip_len
           [("mac_skip_len", mac_skip_len c); ("mac_skip_crc", 1)]) ;;
         mret BM_OK)
  end.

Definition gmac_hw_set_max_frame_len (port frame_size : Z) : M Z :=
  if 0x3FFF <=? frame_size then mret BM_FAIL
  else
    mac_change port MAC_CORE_MAX_FRM_SIZE_REG (set_bits u_max_frm_size "max_frm_size" frame_size) ;;
    mret BM_OK.

Definition gmac_hw_set_short_frame_len (port frame_size : Z) : M Z :=
  if 0x1f <? frame_size then mret BM_FAIL
  else
    mac_change port MAC_CORE_SHORT_RUNTS_THR_REG (set_bits u_short_runts_thr "short_runts_thr" frame_size) ;;
    mret BM_OK.

Definition gmac_hw_set_sgmii_an_enable (mac_num : Z) : M Z :=
  mac_reg_write mac_num MAC_CORE_TX_LOCAL_PAGE 0x1 ;;
  mac_reg_write mac_num MAC_CORE_SIXTEEN_BIT_CNTR 0x3F ;;
  mac_reg_write mac_num MAC_CORE_LD_LINK_COUNTER 0x1 ;;
  mac_change mac_num MAC_CORE_TRANSMIT_CONTROL_REG (set_bits u_transmit_control "an_enable" 1) ;;
  gmac_mdelay 20 ;;
  tmp ← mac_reg_read mac_num MAC_CORE_AN_NEG_STATE;
  mret (if Z.land tmp (Z.shiftl 1 21) =? 0 then BM_FAIL else BM_OK).

(** A failed read-back is only logged. *)
Definition gmac_hw_rx_enable (port is_enable : Z) : M unit :=
  _ ← mac_update port MAC_CORE_PORT_EN_REG (set_bits u_port_en "rx_en" is_enable); mret tt.
Definition gmac_hw_tx_enable (port is_enable : Z) : M unit :=
  _ ← mac_update port MAC_CORE_PORT_EN_REG (set_bits u_port_en "tx_en" is_enable); mret tt.

Definition gmac_hw_set_port_mode (port mode duplex : Z) : M Z :=
  gmac_hw_tx_enable port DISABLE ;;
  gmac_hw_rx_enable port DISABLE ;;
  and_then (mac_update port MAC_CORE_DUPLEX_TYPE (set_bits u_duplex_type "duplex_sel" duplex))
  (and_then (mac_update port MAC_CORE_PORT_MODE_REG (set_bits u_port_mode "port_mode" mode))
  (mac_update port MAC_CORE_MODE_CHANGE_EN_REG (set_bits u_mode_change_en "mode_change_en" 1))).

Definition gmac_config_mode (port : Z) : M unit :=
  if (port =? ETH0) || (port =? ETH1) then
    _ ← gmac_hw_set_port_mode port MAC_100M_RMII GMAC_DUPLEX_FULL; mret tt
  else
    _ ← gmac_hw_set_port_mode port MAC_1000M_SGMII GMAC_DUPLEX_FULL;
    _ ← gmac_hw_set_sgmii_an_enable port;
    loop 202 (fun times =>
      val ← mac_reg_read port MAC_CORE_AN_NEG_STATE;
      if 200 <=? times then mret (inr tt)
      else
        gmac_mdelay 5 ;;
        mret (if Z.land val (Z.shiftl 1 21) =? 0 then inl (times + 1) else inr tt)) 0.

Definition gmac_hw_set_pcu_ctrl (port : Z) : M unit :=
  mac_change port PCU_BUS_CTRL_REG (set_fields u_bus_ctrl
    [("cf_pd_buf", 0); ("huser", 1); ("noncoh_en", 0); ("cf_buf", 1); ("cf_endian", 0x3);
     ("cf_rx_alloc", 1)]).

Definition gmac_hw_set_port_mode_all (port : Z) (c : femac_port_mode_cfg) : M Z :=
  gmac_config_mode port ;;
  and_then (mac_update port PCU_RX_CTRL_REG (set_bits u_rx_ctrl "cf_port_num" (port_num c)))
  (mac_change port MAC_CORE_MODE_CHANGE_EN_REG (set_bits u_mode_change_en "mode_change_en" 1) ;;
   gmac_hw_set_pcu_ctrl port ;;
   let max_frm_size_reg := set_bits u_max_frm_size "max_frm_size" (max_frm_size c) 0 in
   let short_frm_thr_reg := set_bits u_short_runts_thr "short_runts_thr" (short_runts_thr c) 0 in
   ret ← gmac_hw_set_max_frame_len port max_frm_size_reg;
   if ctrue ret then mret BM_FAIL
   else
     ret ← gmac_hw_set_short_frame_len port short_frm_thr_reg;
     if ctrue ret then mret BM_FAIL
     else
       mac_change port MAC_CORE_TRANSMIT_CONTROL_REG (set_fields u_transmit_control
         [("pad_enable", pad_enable c); ("crc_add", crc_add c); ("an_enable", an_enable c)]) ;;
       mac_change port MAC_CORE_RECV_CONTROL_REG (set_fields u_recv_control
         [("runt_pkt_en", runt_pkt_en c); ("strip_pad_en", strip_pad_en c)]) ;;
       mret BM_OK).

Definition gmac_hw_set_mac_addr_filter (port : Z) (cfg : option femac_mac_filter_cfg) : M Z :=
  match cfg with
  | None => mret BM_FAIL
  | Some c =>
      _ ← mac_update port MAC_CORE_REC_FILT_CONTROL_REG (set_fields u_rec_filt_control
        [("crc_err_pass", crc_err_pass c); ("pause_frm_pass", pause_frm_pass c);
         ("bc_drop_en", bc_drop_en c); ("mc_match_en", mc_match_en c); ("uc_match_en", uc_match_en c)]);
      mret BM_OK
  end.

Definition gmac_hw_set_rx_max_frame_len (port frame_len : Z) : M Z :=
  if 0xFFFF <=? frame_len then mret BM_FAIL
  else mac_update port PCU_MAX_FRAME_LEN_REG (set_bits u_rx_max_frame_len "max_frame_len" frame_len).

Definition gmac_hw_set_bmu_close (port : Z) : M Z :=
  mac_update port PCU_RX_CTRL_REG (set_bits u_rx_ctrl "cf_rx_get_addr_mode" 1).

Definition gmac_hw_set_poe_close (port : Z) : M Z :=
  mac_update port PCU_WE_ADDR_REG (set_bits u_we_addr "cf_we_enable" 0).

Definition gmac_set_rx_fifo_threshold (port : Z) : M Z :=
  mac_update port PCU_CF_CFG_FIFO_THRSLD_REG (set_fields u_cf_cfg_fifo_thrsld
    [("cfg_rx_p_full_th", FE_RX_FIFO_FULL_THRSHLD); ("cfg_rx_p_empty_th", FE_RX_FIFO_EMPTY_THRSHLD)]).

Definition gmac_set_tx_fifo_threshold (port : Z) : M Z :=
  mac_update port PCU_CF_TX_FIFO_THRSLD_REG (set_fields u_cf_tx_fifo_thrsld
    [("cf_tx_p_full_th", 0x300); ("cf_tx_p_empty_th", 0x80)]).

Definition gmac_hw_int_int (port : Z) : M Z :=
  let int_mask_reg := set_fields u_cf_intrpt_msk
    [("cf_sram_parity_err_int_msk", DISABLE); ("cf_we_err_int_msk", DISABLE);
     ("cf_rbreq_err_int_msk", DISABLE); ("cf_mac_ff_err_int_msk", DISABLE);
     ("cf_ahb_err_int_msk", DISABLE); ("cf_pkg_intrpt_msk", DISABLE);
     ("cf_rx_drop_int_msk", DISABLE); ("cf_tx_drop_int_msk", DISABLE);
     ("cf_txcfg_avl_msk", DISABLE); ("cf_rel_buf_msk", DISABLE); ("cf_buf_avl_msk", DISABLE);
     ("cf_sram_parity_err_int_msk", DISABLE); ("cf_intrpt_pkt", 0x1); ("cf_intrpt_time", 0xF)] 0 in
  mac_reg_write port PCU_CF_INTRPT_MSK_REG int_mask_reg ;;
  _ ← mac_reg_read port PCU_CF_INTRPT_MSK_REG;
  mac_reg_write port PCU_CF_INTRPT_CLR_REG (set_bits u_cf_intrpt_clr "cf_rx_frm_clr" 1 0) ;;
  mret BM_OK.

(** ** Resets *)
Definition gmac_hw_ptp_reset : M unit :=
  writel (Z.shiftl 1 29) HP_SUB_CSR_HP_SRST_REQ1_ADDR ;;
  gmac_mdelay 20 ;;
  writel (Z.shiftl 1 29) HP_SUB_CSR_HP_SRST_DIS1_ADDR.

(** One bit of a port in a reset register; the registers act on ones. *)
Definition srst (reg bit mac_num : Z) : M unit :=
  writel (u32 (Z.shiftl 1 (bit + mac_num * GMAC_SRST_BIT))) reg.

Definition gmac_hw_core_reset (mac_num : Z) : M unit :=
  srst HP_SUB_CSR_HP_SRST_REQ1_ADDR GMAC_MAC_CORE_SRST_BIT mac_num ;;
  srst HP_SUB_CSR_HP_SRST_REQ1_ADDR 1 mac_num ;;
  srst HP_SUB_CSR_HP_SRST_REQ1_ADDR GMAC_BUS_SYS_SRST_BIT mac_num ;;
  srst HP_SUB_CSR_HP_SRST_REQ1_ADDR 0 mac_num ;;
  srst HP_SUB_CSR_HP_SRST_REQ1_ADDR GMAC_REG_CFG_SRST_BIT mac_num ;;
  when ((mac_num =? ETH2) || (mac_num =? ETH3))
    (srst HP_SUB_CSR_HP_SRST_REQ1_ADDR GMAC_TX_SERDES_SRST_BIT mac_num) ;;
  srst HP_SUB_CSR_HP_SRST_REQ1_ADDR GMAC_RX_SERDES_SRST_BIT mac_num ;;
  gmac_mdelay 20 ;;
  srst HP_SUB_CSR_HP_SRST_DIS1_ADDR GMAC_MAC_CORE_SRST_BIT mac_num ;;
  srst HP_SUB_CSR_HP_SRST_DIS1_ADDR GMAC_BUS_SYS_SRST_BIT mac_num ;;
  srst HP_SUB_CSR_HP_SRST_DIS1_ADDR 0 mac_num ;;
  srst HP_SUB_CSR_HP_SRST_DIS1_ADDR 1 mac_num ;;
  srst HP_SUB_CSR_HP_SRST_DIS1_ADDR GMAC_REG_CFG_SRST_BIT mac_num ;;
  when ((mac_num =? ETH2) || (mac_num =? ETH3))
    (srst HP_SUB_CSR_HP_SRST_DIS1_ADDR GMAC_TX_SERDES_SRST_BIT mac_num) ;;
  srst HP_SUB_CSR_HP_SRST_DIS1_ADDR GMAC_RX_SERDES_SRST_BIT mac_num.

Definition gmac_reset_chip (mac_num : Z) : M Z :=
  gmac_hw_rx_enable mac_num 0 ;;
  gmac_hw_tx_enable mac_num 0 ;;
  gmac_hw_ptp_reset ;;
  gmac_hw_core_reset mac_num ;;
  gmac_hw_set_bmu_close mac_num.

(** ** The SerDes of ports 2 and 3 *)
Definition gmac_hw_sds_phy_reset (cfg1 : Z) : M unit :=
  phy_cfg ← readl cfg1;
  when (negb (get_bits u_gmac_phy_cfg "phy_reset_0" phy_cfg =? ENABLE))
    (writel (set_bits u_gmac_phy_cfg "phy_reset_0" ENABLE phy_cfg) cfg1) ;;
  udelay fuel 10.

Definition gmac_hw_sds_phy_los_reg_init (los_cfg : Z) : M unit :=
  phy_los_cfg ← readl los_cfg;
  writel (set_fields u_gmac_phy_los_cfg
    [("rx_los_valid_rst_msk_0", 0x3); ("tx_vboost_lvl_0", 0x4); ("rx0_los_filt_cnt_0", 0x5);
     ("los_bias_0", 0x2); ("los_level_0", 0x9)] phy_los_cfg) los_cfg.

Definition gmac_hw_sds_phy_cfg2_reg_init (cfg2 : Z) : M unit :=
  phy_cfg2 ← readl cfg2;
  writel (set_fields u_gmac_phy_cfg2
    [("phy_data_reverse_en0", 0x0); ("tx0_preemph_0", 0x13); ("tx0_detect_rx_req_0", 0x0);
     ("tx0_amplitude_0", 0x7f); ("phy_tx0_term_offset_0", 0x0); ("phy_rx0_eq_0", 0x0)] phy_cfg2) cfg2.

Definition gmac_hw_sds_phy_cfg1_reg_init (cfg1 : Z) : M unit :=
  phy_cfg ← readl cfg1;
  writel (set_fields u_gmac_phy_cfg
    [("phy_rtune_req_0", 0x0); ("ref_clkdiv2_0", 0x0); ("ref_use_pad_0", 0x1); ("vreg_bypass_0", 0x1);
     ("mpll_multiplier_0", 0x19); ("ssc_ref_clk_sel_0", 0x0); ("lane0_loopbk_en_0", DISABLE);
     ("rx0_align_en_0", ENABLE); ("rx0_data_en_0", DISABLE); ("rx0_invert_0", 0x0);
     ("rx0_los_en_0", ENABLE); ("rx0_pll_en_0", DISABLE); ("rx0_reset_0", 0x0);
     ("rx0_term_en_0", ENABLE); ("tx0_cm_en_0", DISABLE); ("tx0_en_0", DISABLE);
     ("tx0_reset_0", 0x0); ("tx0_vboost_en_0", DISABLE); ("ref_ssp_en_0", 0x0);
     ("tx0_invert_0", 0x0); ("test_powerdown_0", 0x0)] phy_cfg) cfg1 ;;
  udelay fuel 10.

(** [do { if (count++ > times) return BM_FAIL; udelay(1); read } while (!ready)] *)
Definition sds_wait (times state : Z) (ready : Z -> bool) : M Z :=
  loop (Z.to_nat times + 2) (fun count =>
    if times <? count then mret (inr BM_FAIL)
    else
      udelay fuel 1 ;;
      phy_state ← readl state;
      mret (if ready phy_state then inr BM_OK else inl (count + 1))) 0.

Definition sds_is (f : string) (phy_state : Z) : bool := ctrue (get_bits u_gmac_phy_sts f phy_state).

(** The local [phy_cfg] keeps what was written last. *)
Definition gmac_hw_sds_phy_init (cfg1 cfg2 state : Z) : M Z :=
  phy_cfg ← readl cfg1;
  let phy_cfg := set_bits u_gmac_phy_cfg "ref_ssp_en_0" ENABLE phy_cfg in
  writel phy_cfg cfg1 ;;
  let phy_cfg := set_bits u_gmac_phy_cfg "phy_reset_0" DISABLE phy_cfg in
  writel phy_cfg cfg1 ;;
  let phy_cfg := set_bits u_gmac_phy_cfg "mpll_en_0" ENABLE phy_cfg in
  writel phy_cfg cfg1 ;;
  ret ← sds_wait MPLL_LOCK_TIMES state (sds_is "mpll_state_0");
  if ctrue ret then mret BM_FAIL
  else
    let phy_cfg := set_bits u_gmac_phy_cfg "tx0_cm_en_0" ENABLE phy_cfg in
    writel phy_cfg cfg1 ;;
    ret ← sds_wait TX_CM_TIMES state (sds_is "tx0_cm_state_0");
    if ctrue ret then mret BM_FAIL
    else
      let phy_cfg := set_fields u_gmac_phy_cfg [("rx0_pll_en_0", ENABLE); ("tx0_en_0", ENABLE)] phy_cfg in
      writel phy_cfg cfg1 ;;
      ret ← sds_wait TX_RX_ENABLE_TIMES state
              (fun s => sds_is "tx0_state_0" s && sds_is "rx0_pll_state_0" s);
      if ctrue ret then mret BM_FAIL
      else
        phy_cfg2 ← readl cfg2;
        writel (set_bits u_gmac_phy_cfg2 "tx0_data_en_0" ENABLE phy_cfg2) cfg2 ;;
        writel (set_bits u_gmac_phy_cfg "rx0_data_en_0" ENABLE phy_cfg) cfg1 ;;
        mret BM_OK.

Definition gmac_serdes_bring_up (los_cfg cfg1 cfg2 state : Z) : M Z :=
  gmac_hw_sds_phy_reset cfg1 ;;
  gmac_hw_sds_phy_los_reg_init los_cfg ;;
  gmac_hw_sds_phy_cfg2_reg_init cfg2 ;;
  gmac_hw_sds_phy_cfg1_reg_init cfg1 ;;
  gmac_hw_sds_phy_init cfg1 cfg2 state.

Definition gmac_serdes_init (mac_num : Z) : M Z :=
  if mac_num =? ETH2 then
    gmac_serdes_bring_up HP_SUB_CSR_GMAC_PHY0_LOS_CFG_ADDR HP_SUB_CSR_GMAC_PHY0_CFG_ADDR
      HP_SUB_CSR_GMAC_PHY0_CFG2_ADDR HP_SUB_CSR_GMAC_PHY0_STS_ADDR
  else if mac_num =? ETH3 then
    gmac_serdes_bring_up HP_SUB_CSR_GMAC_PHY1_LOS_CFG_ADDR HP_SUB_CSR_GMAC_PHY1_CFG_ADDR
      HP_SUB_CSR_GMAC_PHY1_CFG2_ADDR HP_SUB_CSR_GMAC_PHY1_STS_ADDR
  else mret BM_OK.

Definition gmac_set_io_cfg (port : Z) : M unit :=
  if port =? ETH0 then
    writel 0x0 IO_CONFIG_R_IOMG022_ADDR ;;
    writel 0x0 IO_CONFIG_R_IOMG023_ADDR ;;
    writel 0x0 IO_CONFIG_R_IOMG024_ADDR ;;
    writel 0x0 IO_CONFIG_R_IOMG025_ADDR
  else when (port =? ETH1)
    (writel 0x0 IO_CONFIG_R_IOMG026_ADDR ;;
     writel 0x0 IO_CONFIG_R_IOMG027_ADDR).
End Port.

Section Net.
Context {G D : Type} `{MD : Machine D} `{HM : !Has G mem} `{HS : !Has G gmac}.
Context `{OS : !Os G D} `{XF : Xfer} `{GS : GmacSync} `{GC : GmacConfig}.
Context (fuel lfuel : nat) (uninit : Z).
Abbreviation M := (M G D).

Definition hi_gmac_phy_info_table : list (gmac_phy_info_s M) :=
  [GmacPhyInfo "YT8521" IDENTIFIER_YT8521 (phy_yt8521_init fuel lfuel)
     (phy_yt8521_get_speed_duplex fuel lfuel) (phy_yt85xx_get_link_status fuel lfuel);
   GmacPhyInfo "YT8512" IDENTIFIER_YT8512 (phy_yt8512_init fuel lfuel)
     (phy_yt8512_get_speed_duplex fuel lfuel) (phy_yt85xx_get_link_status fuel lfuel)].

(** [&gmac_device_tbl[e]] *)
Definition get_priv (e : Z) : M gmac_device :=
  s ← gets (S := gmac); some_or OutOfBounds (gmac_device_tbl s !! Z.to_nat e).
Definition mod_priv (e : Z) (f : gmac_device -> gmac_device) : M unit :=
  d ← get_priv e; modg (S := gmac) (set_priv e (f d)).
Definition gmac_exists (e : Z) : M Z := some_or OutOfBounds (gmac_exist_array !! Z.to_nat e).

(** ** The descriptor rings *)
Definition cache_align (a : Z) : Z :=
  Z.land (u64 (a + (CPU_CACHE_LINE_SIZE - 1))) (bnot 64 (CPU_CACHE_LINE_SIZE - 1)).

(** [EXIT:] gives up the entries filled so far. *)
Fixpoint ring_clear (i : nat) (tmp_buf : list bool) (ring : list Z) : list Z :=
  match tmp_buf with
  | [] => ring
  | b :: tl => ring_clear (S i) tl (if b then <[i := NULL]> ring else ring)
  end.

(** One round of the loop that fills a ring; [tmp_buf] tells which entries
    this call has filled. *)
Definition ring_round (ring : gmac_device -> list Z) (set : list Z -> gmac_device -> gmac_device)
    (buffer num : Z) (priv : Z) (it : Z * list bool) : M (Z * list bool + Z) :=
  let '(i, tmp_buf) := it in
  if num <=? i then mret (inr BM_OK)
  else
    d ← get_priv priv;
    e ← some_or OutOfBounds (ring d !! Z.to_nat i);
    if e =? NULL then
      let buf := buffer + (mac_num d * num + i) * RX_BUFFER_DEFAULT_SIZE in
      if buf =? NULL then
        mod_priv priv (fun d => set (ring_clear 0 tmp_buf (ring d)) d) ;; mret (inr BM_FAIL)
      else
        ret ← memset_s buf RX_BUFFER_DEFAULT_SIZE 0x0 RX_BUFFER_DEFAULT_SIZE;
        if negb (ret =? BM_OK) then mret (inr BM_FAIL)
        else
          mod_priv priv (fun d => set (<[Z.to_nat i := cache_align buf]> (ring d)) d) ;;
          mret (inl (i + 1, tmp_buf ++ [true]))
    else mret (inl (i + 1, tmp_buf ++ [false])).

Definition init_ring (ring : gmac_device -> list Z) (set : list Z -> gmac_device -> gmac_device)
    (buffer num : Z) (priv : Z) : M Z :=
  loop (Z.to_nat num + 1) (ring_round ring set buffer num priv) (0, []).

Definition gmac_rx_init_ring (priv : Z) : M Z :=
  init_ring rx_data_ring with_rx_ring g_gmac_rx_buffer CHIP_RX_FIFO_NUM priv.
Definition gmac_tx_init_ring (priv : Z) : M Z :=
  init_ring tx_data_ring with_tx_ring g_gmac_tx_buffer CHIP_TX_FIFO_NUM priv.

Definition gmac_rx_fill_all_buff (port priv : Z) : M unit :=
  mac_reg_write port PCU_RX_BUF_SIZE_REG RX_BUFFER_DEFAULT_SIZE ;;
  for_up (Z.to_nat CHIP_RX_FIFO_NUM) 0 (fun i =>
    d ← get_priv priv;
    e ← some_or OutOfBounds (rx_data_ring d !! Z.to_nat i);
    relative_addr ← gmac_get_ddr_relative_addr GMAC_RX port e;
    mac_reg_write port PCU_RX_CFF_ADDR_REG relative_addr).

(** ** The PHY of a port *)
Definition gmac_get_phy_id (phy_addr : Z) : M (Z * option Z) :=
  '(ret, v) ← mdio_read fuel lfuel 0 phy_addr MII_PHY_ID0_REG true;
  let identifier_h32 := default 0 v in
  if ctrue ret then mret (ret, None)
  else
    '(ret, v) ← mdio_read fuel lfuel 0 phy_addr MII_PHY_ID1_REG true;
    let identifier_l32 := default 0 v in
    if ctrue ret then mret (ret, None)
    else mret (ret, Some (Z.lor (u32 (Z.shiftl identifier_h32 16)) (Z.land identifier_l32 0xFFFF))).

(** The first entry of the table with this identifier. *)
Fixpoint find_phy (i : nat) (identifier : Z) (tbl : list (gmac_phy_info_s M)) :
    option (nat * gmac_phy_info_s M) :=
  match tbl with
  | [] => None
  | p :: tl => if phy_id p =? identifier then Some (i, p) else find_phy (S i) identifier tl
  end.

Definition gmac_phy_init (priv : Z) : M Z :=
  d ← get_priv priv;
  '(ret, v) ← gmac_get_phy_id (phy_addr d);
  if ctrue ret then mret ret
  else
    let identifier := default 0 v in
    match find_phy 0 identifier hi_gmac_phy_info_table with
    | Some (i, p) =>
        _ ← init p (phy_addr d);
        mod_priv priv (with_phy_info (Some i)) ;;
        mret BM_OK
    | None => mod_priv priv (with_phy_info None) ;; mret BM_FAIL
    end.

Definition phy_info_of (d : gmac_device) : option (gmac_phy_info_s M) :=
  i ← gmac_phy_info d; hi_gmac_phy_info_table !! i.

(** The speed, and the duplex mode if the PHY gave it. *)
Definition get_phy_speed_duplex (d : gmac_device) : M (Z * option Z) :=
  r ← match phy_info_of d with
      | Some p =>
          '(ret, v) ← get_speed_duplex p (phy_addr d);
          mret (if ret =? 0 then v else None)
      | None => mret None
      end;
  mret match r with
       | Some (speed, duplex) => (speed, Some duplex)
       | None =>
           (if (mac_num d =? ETH0) || (mac_num d =? ETH1) then MAC_100M_RMII else MAC_1000M_SGMII, None)
       end.

(** ** Bringing a port up *)
Definition gmac_chip_init (priv : Z) : M Z :=
  let st_rx_ctrl_reg := PktStoreCtrlCfg 0 1 0 0 1 in
  let st_rx_pkt_mode_reg := RxPktModeCfg 0 0 1 0 in
  let st_mac_filter_reg := MacFilterCfg 1 1 0 1 0 in
  d ← get_priv priv;
  let mac_num := mac_num d in
  let st_port_mode_reg := PortModeCfg 0 mac_num FE_MAX_PKT_LEN 0x1f 1 1 1 1 1 in
  ret ← gmac_hw_set_pkt_store_format mac_num (Some st_rx_ctrl_reg);
  if ctrue ret then mret BM_FAIL
  else
    ret ← gmac_hw_set_pkt_input_parse_mode mac_num (Some st_rx_pkt_mode_reg);
    if ctrue ret then mret BM_FAIL
    else
      _ ← gmac_hw_set_port_mode_all fuel mac_num st_port_mode_reg;
      _ ← gmac_hw_set_mac_addr_filter mac_num (Some st_mac_filter_reg);
      ret ← gmac_hw_set_rx_max_frame_len mac_num FE_MAX_PKT_LEN;
      if ctrue ret then mret BM_FAIL
      else
        gmac_init_extend_addr mac_num ;;
        r1 ← gmac_hw_set_tx_pad_add mac_num 1;
        r2 ← gmac_hw_set_poe_close mac_num;
        r3 ← gmac_set_rx_fifo_threshold mac_num;
        r4 ← gmac_set_tx_fifo_threshold mac_num;
        r5 ← gmac_set_hw_mac_addr mac_num;
        r6 ← gmac_hw_int_int mac_num;
        mret (r1 + r2 + r3 + r4 + r5 + r6).

Definition gmac_eth_init (priv : Z) : M Z :=
  d ← get_priv priv;
  when ((mac_num d =? ETH0) || (mac_num d =? ETH1)) (gmac_set_io_cfg (mac_num d)) ;;
  ret ← gmac_reset_chip fuel (mac_num d);
  if ctrue ret then mret BM_FAIL
  else
    ret ← gmac_chip_init priv;
    if ctrue ret then mret BM_FAIL
    else
      gmac_mdelay fuel 1 ;;
      gmac_rx_fill_all_buff (mac_num d) priv ;;
      mret BM_OK.

Definition gmac_eth_start (priv : Z) : M Z :=
  ret ← gmac_phy_init priv;
  if ctrue ret then mret BM_FAIL
  else
    d ← get_priv priv;
    if ctrue (init_done d) then
      '(speed, duplex) ← get_phy_speed_duplex d;
      _ ← gmac_hw_set_port_mode (mac_num d) speed (default uninit duplex);
      gmac_hw_rx_enable (mac_num d) ENABLE ;;
      gmac_hw_tx_enable (mac_num d) ENABLE ;;
      mret BM_OK
    else
      ret ← gmac_serdes_init fuel (mac_num d);
      if ctrue ret then mret BM_FAIL
      else
        ret ← gmac_eth_init priv;
        if ctrue ret then mret BM_FAIL
        else
          gmac_hw_rx_enable (mac_num d) ENABLE ;;
          gmac_hw_tx_enable (mac_num d) ENABLE ;;
          gmac_mdelay fuel 100 ;;
          mret BM_OK.

Definition bad_eth (eth : Z) : bool := (ETH_BUTT <=? eth) || (eth <? ETH0).

(** What [bm_net_init] does while it holds the lock word. *)
Definition net_init_locked (eth : Z) : M Z :=
  ret ← mdio_init 0;
  if ctrue ret then mret BM_FAIL
  else
    ret ← gmac_rx_init_ring eth;
    if ctrue ret then mret BM_FAIL
    else
      ret ← gmac_tx_init_ring eth;
      if ctrue ret then mret BM_FAIL
      else
        ret ← gmac_eth_start eth;
        if ctrue ret then mret BM_FAIL
        else
          bm_flush_dcache_all ;;
          sys_ Dsb ;;
          d ← get_priv eth;
          ret ← (if negb (init_done d =? 1) then os_sem_init (gmac_sem eth) 1 else mret OSAL_SUCCESS);
          if negb (ret =? OSAL_SUCCESS) then mret BM_FAIL
          else mod_priv eth (with_init_done 1) ;; mret BM_OK.

Definition bm_net_init (eth phy_addr : Z) : M Z :=
  if bad_eth eth || (GMAC_PHY_MAX_ADDR <=? phy_addr) then mret BM_FAIL
  else
    ex ← gmac_exists eth;
    if negb (ctrue ex) then mret BM_FAIL
    else
      mod_priv eth (with_port eth phy_addr) ;;
      spin_lock lfuel GMAC_LOCK_SYNC (sys_ Dsb ;; sys_ Isb ;; bm_flush_dcache_all) ;;
      ret ← net_init_locked eth;
      writel 0 GMAC_LOCK_SYNC ;;
      mret ret.

(** ** Following the link *)
Definition gmac_update_speed_duplex (eth : Z) : M Z :=
  if bad_eth eth then mret BM_FAIL
  else
    d ← get_priv eth;
    if negb (mac_num d =? eth) || (init_done d =? 0) then mret BM_FAIL
    else
      '(ret, st) ← match phy_info_of d with
                   | Some p => get_link_status p (phy_addr d) true
                   | None => mret (1, None)
                   end;
      if ctrue ret then mret BM_FAIL
      else
        mod_priv eth (fun d => with_link_status (default (link_status d) st) d) ;;
        d ← get_priv eth;
        '(speed, duplex) ← get_phy_speed_duplex d;
        mod_priv eth (fun d => with_link speed (default (link_mode d) duplex) d) ;;
        d ← get_priv eth;
        s ← gets (S := gmac);
        if (link_speed d =? old_speed s) && (link_mode d =? old_mode s)
           && (link_status d =? PHY_LINK_UP) then mret BM_OK
        else
          modg (fun s => Gmac (gmac_device_tbl s) (link_speed d) (link_mode d)) ;;
          _ ← gmac_hw_set_port_mode eth (link_speed d) (link_mode d);
          gmac_hw_rx_enable (mac_num d) ENABLE ;;
          gmac_hw_tx_enable (mac_num d) ENABLE ;;
          mret (if link_status d =? PHY_LINK_UP then BM_OK else BM_FAIL).

(** ** Sending *)
Definition tx_word0 : Z :=
  set_fields tx_pcu_word0 [("ipoff", 0); ("sd", 0); ("l3_cs", 0); ("wb", 1); ("l4_cs", 0)] 0.
Definition tx_word1 (length : Z) : Z :=
  set_fields tx_pcu_word1 [("l2cache", 1); ("fm", 0); ("back", 0); ("len", length); ("pool", 0)] 0.

Definition gmac_net_send_data (eth packet length : Z) : M Z :=
  d ← get_priv eth;
  buffer ← some_or OutOfBounds (tx_data_ring d !! Z.to_nat (tx_data_num d));
  ret ← memcpy_s buffer RX_BUFFER_DEFAULT_SIZE packet length;
  if negb (ret =? BM_OK) then mret BM_FAIL
  else
    bm_flush_dcache_all ;;
    sys_ Dsb ;;
    relative_addr ← gmac_get_ddr_relative_addr GMAC_TX (mac_num d) buffer;
    mac_reg_write (mac_num d) PCU_TX_CFF_ADDR_0_REG tx_word0 ;;
    mac_reg_write (mac_num d) PCU_TX_CFF_ADDR_1_REG (tx_word1 length) ;;
    mac_reg_write (mac_num d) PCU_TX_CFF_ADDR_2_REG relative_addr ;;
    mac_reg_write (mac_num d) PCU_TX_CFF_ADDR_3_REG relative_addr ;;
    mod_priv eth (fun d => with_tx_num (u8 (tx_data_num d + 1) mod CHIP_TX_FIFO_NUM) d) ;;
    mret BM_OK.

(** Take the port's semaphore, run [body], give it back. *)
Definition gmac_locked {A} (eth : Z) (refused : A) (body : M A) : M A :=
  down ← os_sem_down_timeout (gmac_sem eth) GMAC_SEM_TIMEOUT;
  if negb (down =? OSAL_SUCCESS) then mret refused
  else ret ← body; os_sem_up (gmac_sem eth) ;; mret ret.

Definition bm_net_send (eth packet length : Z) : M Z :=
  if bad_eth eth || (packet =? NULL) || (RX_BUFFER_DEFAULT_SIZE <=? length) || (length <=? 0)
     || ctrue (is_invalid_addr_len (u32 packet) length) then mret BM_FAIL
  else
    d ← get_priv eth;
    ex ← gmac_exists eth;
    if negb (mac_num d =? eth) || (init_done d =? 0) || negb (ctrue ex) then mret BM_FAIL
    else
      ret ← gmac_update_speed_duplex eth;
      if negb (ret =? BM_OK) then mret BM_FAIL
      else gmac_locked eth BM_FAIL (gmac_net_send_data eth packet length).

(** ** Receiving: the result, and what is stored through [rx_len] and [packetp] *)
Definition rx_data_offset : Z := (FE_RX_SKIP1 + FE_RX_SKIP2) * CACHE_LINE_SIZE + CACHE_LINE_SIZE.

(** [EXIT_RECV:] hands the buffer back to the MAC. *)
Definition gmac_rearm (eth mac_desc : Z) (ret : Z * option Z * option Z) : M (Z * option Z * option Z) :=
  r ← memset_s mac_desc CPU_CACHE_LINE_SIZE 0x0 CPU_CACHE_LINE_SIZE;
  if negb (r =? BM_OK) then mret (BM_FAIL, snd (fst ret), snd ret)
  else
    relative_addr ← gmac_get_ddr_relative_addr GMAC_RX eth mac_desc;
    mac_reg_write eth PCU_RX_CFF_ADDR_REG relative_addr ;;
    bm_flush_dcache_all ;;
    sys_ Dsb ;;
    mod_priv eth (fun d => with_rx_num (u8 (rx_data_num d + 1) mod CHIP_RX_FIFO_NUM) d) ;;
    mret ret.

Definition gmac_net_receive_data (eth : Z) : M (Z * option Z * option Z) :=
  d ← get_priv eth;
  mac_desc ← some_or OutOfBounds (rx_data_ring d !! Z.to_nat (rx_data_num d));
  let packet := g_packet_buf + eth * RX_BUFFER_DEFAULT_SIZE in
  int_raw_reg ← mac_reg_read eth PCU_CF_INTRPT_STAT_REG;
  if negb (ctrue (get_bits u_cf_intrpt_stat "stat_rx_frm" int_raw_reg)) then mret (BM_FAIL, None, None)
  else
    mac_reg_write eth PCU_CF_INTRPT_CLR_REG (set_bits u_cf_intrpt_clr "cf_rx_frm_clr" 1 0) ;;
    let r_data := mac_desc + rx_data_offset in
    high ← ld8 (mac_desc + GMAC_DESC_PKT_LEN_HIGH);
    low ← ld8 (mac_desc + GMAC_DESC_PKT_LEN_LOW);
    let rx_len := u32 (Z.shiftl high 8 + low) in
    if rx_len =? 0 then mret (BM_FAIL, Some rx_len, None)
    else if RX_BUFFER_DEFAULT_SIZE - rx_data_offset <=? rx_len then
      gmac_rearm eth mac_desc (BM_FAIL, Some rx_len, None)
    else
      ret ← memcpy_s packet RX_BUFFER_DEFAULT_SIZE r_data rx_len;
      if negb (ret =? BM_OK) then gmac_rearm eth mac_desc (BM_FAIL, Some rx_len, None)
      else gmac_rearm eth mac_desc (BM_OK, Some rx_len, Some packet).

Definition bm_net_receive (eth : Z) (rx_len packetp : bool) : M (Z * option Z * option Z) :=
  if bad_eth eth || negb rx_len || negb packetp then mret (BM_FAIL, None, None)
  else
    d ← get_priv eth;
    ex ← gmac_exists eth;
    if (init_done d =? 0) || negb (mac_num d =? eth) || negb (ctrue ex) then mret (BM_FAIL, None, None)
    else
      ret ← gmac_update_speed_duplex eth;
      if negb (ret =? BM_OK) then mret (BM_FAIL, None, None)
      else gmac_locked eth (BM_FAIL, None, None) (gmac_net_receive_data eth).

(** ** The station address of a running port *)
Definition bm_net_set_mac_addr (eth mac_addr : Z) : M Z :=
  if bad_eth eth || (mac_addr =? NULL) || ctrue (is_invalid_addr_len (u32 mac_addr) 6) then mret BM_FAIL
  else
    d ← get_priv eth;
    ex ← gmac_exists eth;
    if (init_done d =? 0) || negb (mac_num d =? eth) || negb (ctrue ex) then mret BM_FAIL
    else
      '(addr_hi, addr_low) ← mac_addr_words mac_addr;
      mac_reg_write eth MAC_CORE_STATION_ADDR_HIGH_2_REG addr_hi ;;
      mac_reg_write eth MAC_CORE_STATION_ADDR_LOW_2_REG addr_low ;;
      mret BM_OK.

Definition bm_net_deinit (eth : Z) : M Z :=
  if bad_eth eth then mret BM_FAIL
  else
    ex ← gmac_exists eth;
    if negb (ctrue ex) then mret BM_FAIL
    else bm_net_set_mac_addr eth (g_default_mac_addr + eth * MAC_ADDR_LEN).
End Net.
