(* ===== verification/GmacBoard.v ===== *)
(** * GmacBoard: a board for the witnesses of the Ethernet driver

    Four ports; the shared words free; a clock that stands still; a PHY whose
    registers all read 0xA400, which as a status says: link up, 1000M, full
    duplex; no other register reads anything but zero, except that port 0 has
    received a frame.  Port 0 is initialised. *)
From stdpp Require Import prelude gmap list strings.
From Stdlib Require Import ZArith Lia.
From S2P Require Import Prelude Fields Hw Common Mem Os GmacRegs Mdio MdioProps Phy Gmac.
Local Open Scope Z_scope.

#[export] Existing Instance no_os.
#[export] Existing Instance no_os_laws.
#[export] Instance board_segment : Xfer :=
  {| xfer_segment_start := 0x90000000; xfer_segment_end := 0x91000000 |}.
#[export] Instance board_sync : GmacSync :=
  {| GMAC_MDIO_SYNC := 0x8727ffcc; GMAC_LOCK_SYNC := 0x8727ffd0 |}.
#[export] Instance board_ports : GmacConfig :=
  {| gmac_exist_array := [1; 1; 1; 1]; gmac_sem e := 0x1000 + 8 * e;
     g_gmac_tx_buffer := 0x94000000; g_gmac_rx_buffer := 0x94010000;
     g_packet_buf := 0x94020000; g_default_mac_addr := 0x90001000 |}.

Definition board_answers (a : Z) : Z :=
  if a =? rdata_reg then 0xA400 else if a =? MAC_BASE_ADDR + PCU_CF_INTRPT_STAT_REG then 2 ^ 27 else 0.
Abbreviation board := (fixed board_answers (fun _ => 0)).

Definition board_port0 : gmac_device :=
  GmacDevice 0 3 [0x94010000; 0x94010640] [0x94000000; 0x94000640] 0 1 1 0 0 0 (Some 0%nat).
Definition board_state : gmac := set_priv 0 board_port0 gmac_init_state.

(** A packet of three bytes, the default station addresses, and the buffers of
    port 0; its current receive buffer holds a frame of two bytes. *)
Definition room (n : Z) : list Z := replicate (Z.to_nat n) 0.
Definition board_memory : mem :=
  wr (wr (wr (wr (wr (wr (wr ∅ 0x94000000 (room 3200)) 0x94010000 (room 3200)) 0x94020000 (room 1600))
       0x90001000 (room 24)) 0x90000000 [1; 2; 3]) 0x94010008 [0; 2]) 0x94010040 [7; 9].
Definition board_world : world (mem * gmac) board := World (board_memory, board_state) Fixed [].

Lemma room_bytes n : Forall (fits 8) (room n).
Proof. apply Forall_replicate. by split. Qed.
Lemma length_room n : 0 <= n -> Z.of_nat (length (room n)) = n.
Proof. intros Hn. unfold room. rewrite length_replicate. lia. Qed.
Lemma mapped_room m a n b k : 0 <= n -> a <= b -> b + k <= a + n -> mapped (wr m a (room n)) b k.
Proof. intros Hn Ha Hb. apply mapped_block; [done |]. rewrite length_room; lia. Qed.

Lemma board_bytes : bytes board_memory.
Proof.
  unfold board_memory. do 3 (apply bytes_wr; [| by repeat constructor]).
  do 4 (apply bytes_wr; [| apply room_bytes]). done.
Qed.

Lemma board_mapped a n :
  0x94000000 <= a /\ a + n <= 0x94000c80 \/ 0x94010000 <= a /\ a + n <= 0x94010c80 \/
  0x94020000 <= a /\ a + n <= 0x94020640 \/ 0x90001000 <= a /\ a + n <= 0x90001018 ->
  mapped board_memory a n.
Proof.
  intros H. unfold board_memory. do 3 apply mapped_wr. destruct H as [H | [H | [H | H]]].
  - do 3 apply mapped_wr. apply mapped_room; lia.
  - do 2 apply mapped_wr. apply mapped_room; lia.
  - apply mapped_wr, mapped_room; lia.
  - apply mapped_room; lia.
Qed.

Lemma board_packet : rd board_memory 0x90000000 3 = Some [1; 2; 3].
Proof.
  unfold board_memory. rewrite !rd_wr_ne by (cbn; lia). apply rd_wr_eq.
Qed.

#[global] Opaque board_memory.

Lemma board_world_memory : memof board_world = board_memory.
Proof. reflexivity. Qed.
Lemma board_world_state : hget (S := gmac) (glob board_world) = board_state.
Proof. reflexivity. Qed.

(** ** The board before any call *)
Inductive fresh := Fresh (regs : gmap Z Z).

Definition fresh_answer (regs : gmap Z Z) (a : Z) : Z :=
  if (a =? GMAC_MDIO_SYNC) || (a =? GMAC_LOCK_SYNC) then 0
  else if a =? rdata_reg then
    let r := get_bits mdio_cmd_data "reg_addr" (default 0 (regs !! cmd_reg)) in
    if r =? MII_PHY_ID0_REG then 0 else if r =? MII_PHY_ID1_REG then IDENTIFIER_YT8521 else 0xA400
  else if a =? HP_SUB_CSR_GMAC_PHY0_STS_ADDR then 2 ^ 32 - 1
  else default 0 (regs !! a).

#[export] Instance fresh_machine : Machine fresh := {|
  m_load a '(Fresh regs) := (fresh_answer regs a, Fresh regs);
  m_store a v '(Fresh regs) := Fresh (<[a := v]> regs);
  m_sys _ d := (0, d) |}.

#[export] Instance fresh_delays G n : Delays G (D := fresh) (S n).
Proof.
  intros us [g d t] _. assert (u64 (us * u64 0) / 1000000 = 0) as E by (change (u64 0) with 0; by rewrite Z.mul_0_r).
  unfold emits, wp, udelay, bm_get_tick, sys, mbind, M_bind. cbn [m_sys fresh_machine]. rewrite E.
  split; [done |]. eexists. split; [symmetry; apply (app_assoc t [_] [_]) |]. by repeat constructor.
Qed.

Lemma fresh_lock addr ops : addr = GMAC_MDIO_SYNC \/ addr = GMAC_LOCK_SYNC -> lock_comes (D := fresh) 1 addr ops.
Proof.
  intros Ha [regs]. exists O. split; [lia |]. cbn [after_tries m_load fresh_machine fst]. unfold fresh_answer.
  by replace (_ || _) with true by lia.
Qed.

Definition fresh_world : world (mem * gmac) fresh := World (board_memory, gmac_init_state) (Fresh ∅) [].

Lemma fresh_world_memory : memof fresh_world = board_memory.
Proof. reflexivity. Qed.
Lemma fresh_world_state : hget (S := gmac) (glob fresh_world) = gmac_init_state.
Proof. reflexivity. Qed.
