(* ===== verification/GmacLib.v ===== *)
(** * GmacLib: lemmas about a port, shared by the proofs of the Ethernet driver

    [AllowsPort] is what a view of the accesses must allow for the code that
    follows a link and sets a port's mode to be invisible to it: the MAC
    registers below the interrupt status.  Then the port's entry of the
    device table. *)
From stdpp Require Import prelude gmap list strings.
From Stdlib Require Import ZArith Lia.
From S2P Require Import Prelude Fields Hw Common Mem Osal Os Serial GmacRegs Mdio MdioProps Phy PhyProps Gmac.
Local Open Scope Z_scope.

Class AllowsPort (eth : Z) (P : event -> Prop) := {
  port_rd off v : 0 <= off < PCU_CF_INTRPT_STAT_REG -> P (Rd (mac_reg_addr eth off) v);
  port_wr off v : 0 <= off < PCU_CF_INTRPT_STAT_REG -> P (Wr (mac_reg_addr eth off) v);
}.

Section Quiet.
Context {G D : Type} `{MD : Machine D} `{GS : GmacSync} (fuel lfuel : nat) `{DL : !Delays G fuel}.
Context (Hlock : lock_comes lfuel GMAC_MDIO_SYNC mdio_relax_ops).
Context {T : Type} `{HT : !Has G T} (P : event -> Prop).
Abbreviation quiet := (quiet (G := G) (D := D) T P).

Section Port.
Context (eth : Z) `{AP : !AllowsPort eth P}.

Lemma quiet_mac_read off : 0 <= off < PCU_CF_INTRPT_STAT_REG -> quiet (mac_reg_read eth off).
Proof. intros Ho. apply quiet_readl. intros v. by apply port_rd. Qed.
Lemma quiet_mac_write off v : 0 <= off < PCU_CF_INTRPT_STAT_REG -> quiet (mac_reg_write eth off v).
Proof. intros Ho. apply quiet_writel. by apply port_wr. Qed.
Lemma quiet_mac_update off f : 0 <= off < PCU_CF_INTRPT_STAT_REG -> quiet (mac_update eth off f).
Proof.
  intros Ho. unfold mac_update. apply quiet_bind; [by apply quiet_mac_read |]. intros x.
  apply quiet_bind; [by apply quiet_mac_write |]. intros [].
  apply quiet_bind; [by apply quiet_mac_read |]. intros c. apply quiet_ret.
Qed.

Lemma quiet_rx_enable v : quiet (gmac_hw_rx_enable eth v).
Proof. apply quiet_bind; [by apply quiet_mac_update | intros; apply quiet_ret]. Qed.
Lemma quiet_tx_enable v : quiet (gmac_hw_tx_enable eth v).
Proof. apply quiet_bind; [by apply quiet_mac_update | intros; apply quiet_ret]. Qed.

Lemma quiet_set_port_mode m d : quiet (gmac_hw_set_port_mode eth m d).
Proof.
  unfold gmac_hw_set_port_mode. apply quiet_bind; [apply quiet_tx_enable | intros []].
  apply quiet_bind; [apply quiet_rx_enable | intros []].
  repeat (apply quiet_and_then; [by apply quiet_mac_update |]). by apply quiet_mac_update.
Qed.
End Port.

Context `{AM : !AllowsMdio P}.

Lemma quiet_phy_of (d : gmac_device) :
  match phy_info_of fuel lfuel d with
  | Some p => (forall a, quiet (get_speed_duplex p a)) /\ (forall a b, quiet (get_link_status p a b))
  | None => True
  end.
Proof.
  unfold phy_info_of. destruct (gmac_phy_info d) as [[| [| i]] |]; cbn [mbind option_bind]; [| | done | done].
  - split; intros; [by apply quiet_speed8521; try typeclasses eauto | by apply quiet_get_link_status; try typeclasses eauto].
  - split; intros; [by apply quiet_speed8512; try typeclasses eauto | by apply quiet_get_link_status; try typeclasses eauto].
Qed.

Lemma quiet_phy_speed d : quiet (get_phy_speed_duplex fuel lfuel d).
Proof.
  unfold get_phy_speed_duplex. apply quiet_bind; [| intros; apply quiet_ret].
  pose proof (quiet_phy_of d) as H. destruct (phy_info_of fuel lfuel d); [| apply quiet_ret].
  apply quiet_bind; [apply H |]. intros [r v]. apply quiet_ret.
Qed.
End Quiet.

(** ** The port's entry of the table *)
Definition port_is (eth : Z) (s : gmac) (d : gmac_device) : Prop := gmac_device_tbl s !! Z.to_nat eth = Some d.

Section Entry.
Context {G D : Type} `{MD : Machine D} `{HM : !Has G mem} `{HS : !Has G gmac} `{IN : !Indep G gmac mem}.
Context {X : Type} {out_of : Z -> Z -> option X} {dr : Z} {regs : list Z} `{Hdr : !InBlock dr} `{Hout : !OutInBlock out_of}.
Context {base eth : Z}.
Implicit Types (s : gmac) (mu : mem) (d : gmac_device).
Abbreviation does := (Serial.does (G := G) (D := D) (S := gmac) (out_of := out_of) (dr := dr) (regs := regs) base).
Abbreviation port_is := (port_is eth).

Lemma port_set s d d' : port_is s d -> port_is (set_priv eth d' s) d'.
Proof. intros Hd. unfold port_is. cbn. apply list_lookup_insert_eq. by eapply lookup_lt_Some. Qed.

Lemma does_get_priv d s mu (Q : gmac_device -> gmac -> mem -> list X -> list Z -> Prop) :
  port_is s d -> Q d s mu [] [] -> does (get_priv eth) s mu Q.
Proof. intros Hd HQ. by apply does_bind, does_gets, (does_some_or _ _ _ d). Qed.

Lemma does_mod_priv f d s mu (Q : unit -> gmac -> mem -> list X -> list Z -> Prop) :
  port_is s d -> Q tt (set_priv eth (f d) s) mu [] [] -> does (mod_priv eth f) s mu Q.
Proof. intros Hd HQ. by apply does_bind, (does_get_priv d), does_modg. Qed.
End Entry.
