(* ===== verification/GmacProps.v ===== *)
(** * GmacProps: what the Ethernet driver hands to and takes from a MAC

    The traffic of a port passes through a few registers of its block: the
    four words of a transmit descriptor, the address of a receive buffer and
    the acknowledgement of a received frame ([data_path]).  The [exchanged] of
    file Serial, with those registers as the outside, is what a call hands
    over, and the interrupt status words it looked at. *)
From stdpp Require Import prelude gmap list strings.
From Stdlib Require Import ZArith Lia.
From S2P Require Import Prelude Fields Hw Common Mem Securec FscmemProps Cache Osal Os Serial GmacRegs Mdio.
From S2P Require Import MdioProps Phy PhyProps Gmac GmacBoard GmacLib.
Local Open Scope Z_scope.

Definition data_path (off v : Z) : option (Z * Z) :=
  if (PCU_CF_INTRPT_CLR_REG =? off) || ((PCU_TX_CFF_ADDR_0_REG <=? off) && (off <=? PCU_RX_CFF_ADDR_REG))
  then Some (off, v) else None.
Definition port_regs : list Z := seqZ 0 0x1000.
Definition port_base (eth : Z) : Z := MAC_BASE_ADDR + eth * MAC_REG_ADDR_LEN.

#[local] Instance stat_in_block : InBlock PCU_CF_INTRPT_STAT_REG.
Proof. split; done. Qed.
#[local] Instance data_path_in_block : OutInBlock data_path.
Proof.
  intros off v H. unfold data_path, PCU_CF_INTRPT_CLR_REG, PCU_TX_CFF_ADDR_0_REG, PCU_RX_CFF_ADDR_REG.
  replace (_ || _) with false by lia. done.
Qed.

Abbreviation exchanged := (Serial.exchanged data_path PCU_CF_INTRPT_STAT_REG port_regs).

Lemma mac_addr_eq eth off : 0 <= eth < 4 -> 0 <= off < 0x1000 -> mac_reg_addr eth off = port_base eth + off.
Proof.
  intros He Ho. unfold mac_reg_addr, port_base, MAC_BASE_ADDR, MAC_REG_ADDR_LEN.
  apply wrap_id. unfold fits. lia.
Qed.

Section Port.
Context {G D : Type} `{MD : Machine D} `{HM : !Has G mem} `{HS : !Has G gmac} `{IN : !Indep G gmac mem}.
Context `{OS : !Os G D} `{XF : Xfer} `{GS : GmacSync} `{GC : GmacConfig}.
Context (fuel lfuel : nat) `{DL : !Delays G fuel}.
Context (Hlock : lock_comes lfuel GMAC_MDIO_SYNC mdio_relax_ops).
Context (Hsync : GMAC_MDIO_SYNC < MAC_BASE_ADDR \/ MAC_BASE_ADDR + 0x4000 <= GMAC_MDIO_SYNC).
Context (eth : Z) (Heth : 0 <= eth < 4).
Implicit Types (w : world G D) (s : gmac) (mu : mem).
Abbreviation M := (M G D).
Abbreviation does := (Serial.does (G := G) (D := D) (S := gmac) (out_of := data_path)
  (dr := PCU_CF_INTRPT_STAT_REG) (regs := port_regs) (port_base eth)).
Abbreviation silent := (Serial.silent (out_of := data_path) (dr := PCU_CF_INTRPT_STAT_REG)
  (regs := port_regs) (port_base eth)).

Lemma port_block : MAC_BASE_ADDR <= port_base eth /\ port_base eth + 0x1000 <= MAC_BASE_ADDR + 0x4000.
Proof. unfold port_base, MAC_REG_ADDR_LEN. lia. Qed.

Lemma port_silent_rd a v : a <> port_base eth + PCU_CF_INTRPT_STAT_REG -> silent (Rd a v).
Proof. intros Ha. split; [done |]. intros Hr. apply elem_of_seqZ. lia. Qed.

Lemma port_silent_wr a v : (a < port_base eth + 0x438 \/ port_base eth + 0x4A4 <= a) -> silent (Wr a v).
Proof.
  intros Ha. cbn. unfold data_path, PCU_CF_INTRPT_CLR_REG, PCU_TX_CFF_ADDR_0_REG, PCU_RX_CFF_ADDR_REG.
  replace (_ || _) with false by lia. done.
Qed.

#[local] Instance silent_mdio : AllowsMdio silent.
Proof.
  pose proof port_block as Hb. unfold port_base, MAC_BASE_ADDR, MAC_REG_ADDR_LEN in *.
  split; intros; [done | ..]; (apply port_silent_rd || apply port_silent_wr);
    unfold port_base, MAC_BASE_ADDR, MAC_REG_ADDR_LEN, PCU_CF_INTRPT_STAT_REG;
    try (change wait_reg with 0xcd00000); try (change cmd_reg with 0x8747000);
    try (change wdata_reg with 0x8747008); try (change rdata_reg with 0x874700c); lia.
Qed.

#[local] Instance port_silent : AllowsPort eth silent.
Proof.
  split; intros off v Ho; unfold PCU_CF_INTRPT_STAT_REG in Ho; rewrite mac_addr_eq by lia.
  - apply port_silent_rd. unfold PCU_CF_INTRPT_STAT_REG. lia.
  - apply port_silent_wr. lia.
Qed.

Abbreviation port_is := (port_is eth).

(** Following the link changes nothing else of the port. *)
Definition relinked (d d' : gmac_device) : Prop :=
  exists st speed mode, d' = with_link speed mode (with_link_status st d).

Lemma relinked_refl d : relinked d d.
Proof. exists (link_status d), (link_speed d), (link_mode d). by destruct d. Qed.

Lemma update_does s d mu (Q : Z -> gmac -> mem -> list (Z * Z) -> list Z -> Prop) : port_is s d ->
  (forall r s' d', port_is s' d' -> relinked d d' ->
     (r = BM_OK -> mac_num d = eth /\ init_done d <> 0 /\ link_status d' = PHY_LINK_UP) -> Q r s' mu [] []) ->
  does (gmac_update_speed_duplex fuel lfuel eth) s mu Q.
Proof.
  intros Hd HQ. unfold gmac_update_speed_duplex. replace (bad_eth eth) with false by (unfold bad_eth, ETH_BUTT, ETH0; lia).
  apply does_bind, (does_get_priv d); [done |].
  destruct (negb (mac_num d =? eth) || (init_done d =? 0)) eqn:Ebad.
  { apply does_ret, (HQ _ _ d); [done | apply relinked_refl | done]. }
  pose proof (quiet_phy_of (G := G) fuel lfuel Hlock (T := gmac) silent d) as H1.
  pose proof (quiet_phy_of (G := G) fuel lfuel Hlock (T := mem) silent d) as H2.
  apply does_bind. apply does_silent.
  { destruct (phy_info_of fuel lfuel d); [apply H1 | apply quiet_ret]. }
  { destruct (phy_info_of fuel lfuel d); [apply H2 | apply quiet_ret]. }
  intros [ret st]. destruct (ctrue ret); [apply does_ret, (HQ _ _ d); [done | apply relinked_refl | done] |].
  apply does_bind, (does_mod_priv _ d); [done |]. set (d1 := with_link_status _ d).
  pose proof (port_set s d d1 Hd) as Hd1. set (s1 := set_priv eth d1 s) in *.
  apply does_bind, (does_get_priv d1); [done |]. apply does_bind.
  apply does_silent; [by apply (quiet_phy_speed fuel lfuel Hlock silent).. |].
  intros [speed duplex]. apply does_bind, (does_mod_priv _ d1); [done |]. set (d2 := with_link _ _ d1).
  pose proof (port_set s1 d1 d2 Hd1) as Hd2. set (s2 := set_priv eth d2 s1) in *.
  apply does_bind, (does_get_priv d2); [done |]. apply does_bind, does_gets.
  assert (relinked d d2) as Hrel by (by do 3 eexists).
  assert (mac_num d = eth /\ init_done d <> 0) as Hok by lia. clear Ebad.
  destruct ((link_speed d2 =? _) && _ && _) eqn:Esame.
  { apply does_ret, (HQ _ _ d2); [done | done |]. intros _. lia. }
  apply does_bind, does_modg. set (s3 := Gmac _ _ _).
  assert (port_is s3 d2) as Hd3 by done. replace (mac_num d2) with eth by (symmetry; apply Hok).
  apply does_bind, does_silent; [apply (quiet_set_port_mode silent eth).. |]. intros _.
  apply does_bind, does_silent; [apply (quiet_rx_enable silent eth).. |]. intros _.
  apply does_bind, does_silent; [apply (quiet_tx_enable silent eth).. |]. intros _.
  apply does_ret, (HQ _ _ d2); [done | done |]. intros Hr. destruct Hok. split_and!; [done | done |].
  destruct (Z.eqb_spec (link_status d2) PHY_LINK_UP); [done |]. by cbn in Hr.
Qed.

Lemma does_yields {A} (m : M A) (R : A -> Prop) s mu (Q : A -> gmac -> mem -> list (Z * Z) -> list Z -> Prop) :
  yields (T := gmac) silent m R -> quiet mem silent m -> (forall a, R a -> Q a s mu [] []) -> does m s mu Q.
Proof.
  intros H1 H2 HQ w <- <-. eapply wp_mono; [apply (wp_and _ _ _ _ (H1 w) (H2 w)) |]. cbv beta.
  intros a w' [(HR & Hg1 & t & Ht & Ho) [Hg2 _]]. exists [], [].
  split; [by eapply exchanged_silent | rewrite Hg1, Hg2; by apply HQ].
Qed.

(** The address the MAC is given for a buffer, read through its window. *)
Definition mac_address (dir a rel : Z) : Prop := exists ext, fits 32 ext /\ rel = ddr_relative_addr dir ext a.

Lemma relative_does dir a s mu (Q : Z -> gmac -> mem -> list (Z * Z) -> list Z -> Prop) :
  (forall rel, mac_address dir a rel -> Q rel s mu [] []) ->
  does (gmac_get_ddr_relative_addr dir eth a) s mu Q.
Proof.
  assert (forall e v, 0 <= e < 4 -> silent (Rd (u32 (HP_SUB_CSR_HP_MAC_HADDR_EXTEND_0_ADDR + e * 4)) v)) as Hrd.
  { intros e v He. apply port_silent_rd. pose proof port_block. unfold PCU_CF_INTRPT_STAT_REG, MAC_BASE_ADDR in *.
    rewrite wrap_id; unfold fits, HP_SUB_CSR_HP_MAC_HADDR_EXTEND_0_ADDR, HP_SUB_CSR_BASE_ADDR; lia. }
  intros HQ. apply (does_yields _ (mac_address dir a)); [| | exact HQ].
  - unfold gmac_get_ddr_relative_addr. apply (yields_bind _ _ _ (fits 32)).
    + intros w. apply wp_readl. intros v d Hv. split_and!; [done | done |]. eexists. split; [done |].
      apply Forall_singleton. by apply Hrd.
    + intros ext He. apply yields_ret. by exists ext.
  - unfold gmac_get_ddr_relative_addr. apply quiet_bind; [| intros; apply quiet_ret].
    apply quiet_readl. intros v. by apply Hrd.
Qed.

Lemma mac_write_does off v s mu (Q : unit -> gmac -> mem -> list (Z * Z) -> list Z -> Prop) :
  0 <= off < 0x1000 -> Q tt s mu (option_list (data_path off (u32 v))) [] ->
  does (mac_reg_write eth off v) s mu Q.
Proof. intros Ho HQ. unfold mac_reg_write. rewrite mac_addr_eq by done. by apply does_writel. Qed.

Lemma flush_does s mu (Q : unit -> gmac -> mem -> list (Z * Z) -> list Z -> Prop) :
  Q tt s mu [] [] -> does (bm_flush_dcache_all) s mu Q.
Proof. apply does_sys_. Qed.

(** What a successful [bm_net_send] writes to the descriptor FIFO. *)
Definition tx_descriptor (length rel : Z) (out : list (Z * Z)) : Prop :=
  exists word0 word1,
    out = [(PCU_TX_CFF_ADDR_0_REG, word0); (PCU_TX_CFF_ADDR_1_REG, word1);
           (PCU_TX_CFF_ADDR_2_REG, rel); (PCU_TX_CFF_ADDR_3_REG, rel)] /\
    get_bits tx_pcu_word0 "sd" word0 = 0 /\ get_bits tx_pcu_word0 "wb" word0 = 1 /\
    get_bits tx_pcu_word0 "l3_cs" word0 = 0 /\ get_bits tx_pcu_word0 "l4_cs" word0 = 0 /\
    get_bits tx_pcu_word1 "len" word1 = length /\ get_bits tx_pcu_word1 "fm" word1 = 0.

Lemma ddr_relative_fits dir ext a : fits 32 (ddr_relative_addr dir ext a).
Proof.
  unfold ddr_relative_addr. destruct (if dir =? GMAC_TX then _ else _) as [[mode offset] hi].
  repeat case_match; by apply wrap_fits.
Qed.

Lemma tx_word1_says length : fits 16 length ->
  get_bits tx_pcu_word1 "len" (tx_word1 length) = length /\ get_bits tx_pcu_word1 "fm" (tx_word1 length) = 0.
Proof.
  intros Hl. unfold tx_word1. split.
  - field_at 3%nat. by apply wrap_id.
  - by field_at 1%nat.
Qed.

Lemma memcpy_does dest src n bs s mu (Q : Z -> gmac -> mem -> list (Z * Z) -> list Z -> Prop) :
  bytes mu -> rd mu src (Z.to_nat n) = Some bs -> mapped mu dest n -> dest <> NULL -> src <> NULL ->
  0 <= n <= RX_BUFFER_DEFAULT_SIZE -> dest + n <= src \/ src + n <= dest ->
  Q EOK s (wr mu dest bs) [] [] -> does (memcpy_s dest RX_BUFFER_DEFAULT_SIZE src n) s mu Q.
Proof.
  intros Hb Hr Hm Hd Hs Hn Hdis HQ. apply (does_mem _ _ EOK (wr mu dest bs)); [| done].
  intros w <-. apply (wp_memcpy_s_ok _ _ _ _ bs); [done.. | | done | done].
  unfold RX_BUFFER_DEFAULT_SIZE, SECUREC_MEM_MAX_LEN. lia.
Qed.

Context (s : gmac) (d : gmac_device) (Hd : port_is s d).
Context (ex : Z) (Hex : gmac_exist_array !! Z.to_nat eth = Some ex).
Context (L1 : OsLaws G D gmac silent) (L2 : OsLaws G D mem silent).

Lemma gmac_locked_does {A} (refused : A) (body : M A) s' mu (Q : A -> gmac -> mem -> list (Z * Z) -> list Z -> Prop) :
  Q refused s' mu [] [] -> does body s' mu Q -> does (gmac_locked eth refused body) s' mu Q.
Proof.
  intros HF HB. unfold gmac_locked. apply does_bind, does_silent; [apply ol_sem_down_timeout.. |].
  intros down. destruct (negb _); [by apply does_ret |]. apply does_bind. eapply does_mono; [exact HB |]. cbv beta.
  intros r s1 mu1 o i HQ. apply does_bind, does_silent; [apply ol_sem_up.. |]. intros []. apply does_ret.
  by rewrite !app_nil_r.
Qed.

Definition send_refused (packet length : Z) : bool :=
  (packet =? NULL) || (RX_BUFFER_DEFAULT_SIZE <=? length) || (length <=? 0)
  || ctrue (is_invalid_addr_len (u32 packet) length).

(** C23: sending.  [bm_net_send] fails and hands nothing over, leaving memory
    and the ring alone, unless the arguments, the port and its link are good;
    then it copies the packet into the ring's current buffer and hands over
    one descriptor with the packet's length and the buffer's address, in order,
    and moves to the next buffer.  It looks at no status on the way: whether
    the MAC is done with that buffer is not checked. *)
Theorem net_send_hands_over packet length buffer bs mu :
  fits 8 (tx_data_num d) -> bytes mu ->
  (send_refused packet length = false -> rd mu packet (Z.to_nat length) = Some bs) ->
  (init_done d <> 0 -> tx_data_ring d !! Z.to_nat (tx_data_num d) = Some buffer /\ buffer <> NULL /\
     mapped mu buffer RX_BUFFER_DEFAULT_SIZE) ->
  buffer + RX_BUFFER_DEFAULT_SIZE <= packet \/ packet + length <= buffer ->
  does (bm_net_send fuel lfuel eth packet length) s mu (fun r s' mu' out inn =>
    inn = [] /\ exists d', relinked d d' /\
    (r = BM_FAIL /\ out = [] /\ mu' = mu /\ port_is s' d' \/
     r = BM_OK /\ send_refused packet length = false /\ link_status d' = PHY_LINK_UP /\
     (exists rel, mac_address GMAC_TX buffer rel /\ tx_descriptor length rel out) /\
     mu' = wr mu buffer bs /\
     port_is s' (with_tx_num (u8 (tx_data_num d + 1) mod CHIP_TX_FIFO_NUM) d'))).
Proof.
  intros Hnum Hb Hpkt Hring Hdis. unfold bm_net_send.
  assert (does (mret BM_FAIL) s mu (fun r s' mu' out inn => inn = [] /\ exists d', relinked d d' /\
    (r = BM_FAIL /\ out = [] /\ mu' = mu /\ port_is s' d' \/
     r = BM_OK /\ send_refused packet length = false /\ link_status d' = PHY_LINK_UP /\
     (exists rel, mac_address GMAC_TX buffer rel /\ tx_descriptor length rel out) /\ mu' = wr mu buffer bs /\
     port_is s' (with_tx_num (u8 (tx_data_num d + 1) mod CHIP_TX_FIFO_NUM) d')))) as Hfail.
  { apply does_ret. split; [done |]. exists d. split; [apply relinked_refl | by left]. }
  replace (bad_eth eth) with false by (unfold bad_eth, ETH_BUTT, ETH0; lia). cbn [orb].
  fold (send_refused packet length). destruct (send_refused packet length) eqn:Eref; [done |].
  apply does_bind, (does_get_priv d); [done |].
  apply does_bind, (does_some_or _ _ _ ex); [done |]. destruct (_ || _ || _) eqn:Ebad; [done |].
  apply does_bind, (update_does _ d); [done |]. intros r s1 d1 Hd1 Hrel Hok.
  destruct (Z.eqb_spec r BM_OK) as [-> | Hne]; cbn [negb];
    [| apply does_ret; split; [done |]; exists d1; split; [done | by left]].
  destruct (Hok eq_refl) as (Hnm & Hinit & Hup). clear Hok. destruct (Hring Hinit) as (Hbuf & Hnz & Hmap).
  apply gmac_locked_does; [split; [done |]; exists d1; split; [done | by left] |].
  assert (0 < length < RX_BUFFER_DEFAULT_SIZE /\ packet <> NULL) as [Hlen Hpk].
  { unfold send_refused in Eref. rewrite !orb_false_iff in Eref. lia. }
  assert (tx_data_ring d1 = tx_data_ring d /\ tx_data_num d1 = tx_data_num d /\ mac_num d1 = eth) as (E1 & E2 & E3).
  { destruct Hrel as (? & ? & ? & ->). done. }
  unfold gmac_net_send_data. apply does_bind, (does_get_priv d1); [done |].
  apply does_bind, (does_some_or _ _ _ buffer); [by rewrite E1, E2 |].
  apply does_bind, (memcpy_does _ _ _ bs); [done | by apply Hpkt | | done | done | lia | lia |].
  { eapply mapped_sub; [exact Hmap | lia | lia]. }
  change (negb (EOK =? BM_OK)) with false. cbv iota.
  apply does_bind, flush_does. apply does_bind, does_sys_.
  rewrite E3. apply does_bind, relative_does. intros rel Hrel'.
  do 4 (apply does_bind, mac_write_does; [done |]).
  apply does_bind, (does_mod_priv _ d1); [done |]. apply does_ret.
  split; [done |]. exists d1. split; [done |]. right. split_and!; [done | done | done | | done |].
  - exists rel. split; [done |]. destruct Hrel' as (ext & _ & ->).
    pose proof (ddr_relative_fits GMAC_TX ext buffer) as Hf.
    assert (fits 16 length) as H16 by (unfold fits, RX_BUFFER_DEFAULT_SIZE in *; lia).
    exists (u32 tx_word0), (u32 (tx_word1 length)). rewrite !(wrap_id 32 (ddr_relative_addr _ _ _)) by done.
    rewrite (wrap_id 32 (tx_word1 _)) by (by apply set_fields_fits).
    split; [done |]. repeat (split; [done |]). by apply tx_word1_says.
  - rewrite E2. by apply (port_set s1 d1).
Qed.

Definition next_rx (d' : gmac_device) : gmac_device :=
  with_rx_num (u8 (rx_data_num d' + 1) mod CHIP_RX_FIFO_NUM) d'.
Definition frame_ack : Z * Z := (PCU_CF_INTRPT_CLR_REG, 2 ^ 27).
Definition packet_buf : Z := g_packet_buf + eth * RX_BUFFER_DEFAULT_SIZE.
Definition cleared_desc : list Z := replicate 64 0.

Lemma memset_does dest s1 mu (Q : Z -> gmac -> mem -> list (Z * Z) -> list Z -> Prop) :
  mapped mu dest 64 -> dest <> NULL -> Q EOK s1 (wr mu dest cleared_desc) [] [] ->
  does (memset_s dest CPU_CACHE_LINE_SIZE 0x0 CPU_CACHE_LINE_SIZE) s1 mu Q.
Proof.
  intros Hm Hn HQ. apply (does_mem _ _ EOK (wr mu dest cleared_desc)); [| done].
  intros w <-. by apply wp_memset_s.
Qed.

Lemma rearm_does desc ret s1 d1 mu
    (Q : Z * option Z * option Z -> gmac -> mem -> list (Z * Z) -> list Z -> Prop) :
  port_is s1 d1 -> mapped mu desc 64 -> desc <> NULL ->
  (forall rel s2, mac_address GMAC_RX desc rel -> port_is s2 (next_rx d1) ->
     Q ret s2 (wr mu desc cleared_desc) [(PCU_RX_CFF_ADDR_REG, rel)] []) ->
  does (gmac_rearm eth desc ret) s1 mu Q.
Proof.
  intros Hd1 Hm Hn HQ. unfold gmac_rearm. apply does_bind, memset_does; [done | done |].
  change (negb (EOK =? BM_OK)) with false. cbv iota.
  apply does_bind, relative_does. intros rel Hrel. apply does_bind, mac_write_does; [done |].
  apply does_bind, flush_does. apply does_bind, does_sys_.
  apply does_bind, (does_mod_priv _ d1); [done |]. apply does_ret.
  assert (fits 32 rel) as Hf by (destruct Hrel as (ext & _ & ->); apply ddr_relative_fits).
  rewrite (wrap_id 32) by done. apply HQ; [done |]. by apply (port_set s1 d1).
Qed.

Lemma len_word (high low : Z) : fits 8 high -> fits 8 low -> u32 (Z.shiftl high 8 + low) = 256 * high + low.
Proof.
  unfold fits. intros Hh Hl. rewrite Z.shiftl_mul_pow2 by lia. rewrite wrap_id; [lia | unfold fits; lia].
Qed.

(** A call that finds nothing, and one that finds the frame the MAC described. *)
Definition no_frame (r : Z * option Z * option Z) (d' : gmac_device) s' (mu mu' : mem) (out : list (Z * Z)) : Prop :=
  r = (BM_FAIL, None, None) /\ out = [] /\ mu' = mu /\ port_is s' d'.

Definition frame_received (desc : Z) (r : Z * option Z * option Z) (d' : gmac_device) s' (mu mu' : mem)
    (out : list (Z * Z)) : Prop :=
  exists high low, mu !! (desc + 8) = Some high /\ mu !! (desc + 9) = Some low /\
  let n := 256 * high + low in
  if n =? 0 then r = (BM_FAIL, Some 0, None) /\ out = [frame_ack] /\ mu' = mu /\ port_is s' d'
  else
    (exists rel, mac_address GMAC_RX desc rel /\ out = [frame_ack; (PCU_RX_CFF_ADDR_REG, rel)]) /\
    port_is s' (next_rx d') /\
    if n <? RX_BUFFER_DEFAULT_SIZE - 64 then
      exists bs, rd mu (desc + 64) (Z.to_nat n) = Some bs /\ r = (BM_OK, Some n, Some packet_buf) /\
        mu' = wr (wr mu packet_buf bs) desc cleared_desc
    else r = (BM_FAIL, Some n, None) /\ mu' = wr mu desc cleared_desc.

(** C24: receiving.  Without a frame nothing changes.  A frame that fits is
    copied to the port's packet buffer, its descriptor cleared, the buffer's
    address handed back and the ring advanced; one that does not fit is
    handed back the same way and the call fails.  A frame whose descriptor
    says length 0 is acknowledged, but its buffer is not handed back and the
    ring stays where it is. *)
Theorem net_receive_takes (rx_len packetp : bool) desc mu :
  bytes mu ->
  (init_done d <> 0 -> rx_data_ring d !! Z.to_nat (rx_data_num d) = Some desc /\ desc <> NULL /\
     mapped mu desc RX_BUFFER_DEFAULT_SIZE) ->
  packet_buf <> NULL -> mapped mu packet_buf RX_BUFFER_DEFAULT_SIZE -> 0 < desc ->
  packet_buf + RX_BUFFER_DEFAULT_SIZE <= desc \/ desc + RX_BUFFER_DEFAULT_SIZE <= packet_buf ->
  does (bm_net_receive fuel lfuel eth rx_len packetp) s mu (fun r s' mu' out inn =>
    exists d', relinked d d' /\
    (inn = [] /\ no_frame r d' s' mu mu' out \/
     exists st, inn = [st] /\ link_status d' = PHY_LINK_UP /\
       if get_bits u_cf_intrpt_stat "stat_rx_frm" st =? 0 then no_frame r d' s' mu mu' out
       else frame_received desc r d' s' mu mu' out)).
Proof.
  intros Hb Hring Hpn Hpm Hpos Hdis. unfold bm_net_receive.
  set (Q := fun (r : Z * option Z * option Z) s' mu' out (inn : list Z) => exists d', relinked d d' /\ _).
  assert (does (mret (BM_FAIL, None, None)) s mu Q) as Hfail.
  { apply does_ret. exists d. split; [apply relinked_refl | by left]. }
  replace (bad_eth eth) with false by (unfold bad_eth, ETH_BUTT, ETH0; lia).
  destruct rx_len; [| done]. destruct packetp; [| done]. cbn [orb negb].
  apply does_bind, (does_get_priv d); [done |].
  apply does_bind, (does_some_or _ _ _ ex); [done |]. destruct (_ || _ || _) eqn:Ebad; [done |].
  apply does_bind, (update_does _ d); [done |]. intros r s1 d1 Hd1 Hrel Hok.
  destruct (Z.eqb_spec r BM_OK) as [-> | Hne]; cbn [negb];
    [| apply does_ret; exists d1; split; [done | by left]].
  destruct (Hok eq_refl) as (Hnm & Hinit & Hup). clear Hok. destruct (Hring Hinit) as (Hbuf & Hnz & Hmap).
  apply gmac_locked_does; [exists d1; split; [done | by left] |].
  assert (rx_data_ring d1 = rx_data_ring d /\ rx_data_num d1 = rx_data_num d) as (E1 & E2).
  { destruct Hrel as (? & ? & ? & ->). done. }
  assert (mapped mu desc 64) as Hm64 by (eapply mapped_sub; [exact Hmap | lia | unfold RX_BUFFER_DEFAULT_SIZE; lia]).
  unfold gmac_net_receive_data. apply does_bind, (does_get_priv d1); [done |].
  apply does_bind, (does_some_or _ _ _ desc); [by rewrite E1, E2 |].
  apply does_bind. unfold mac_reg_read. rewrite mac_addr_eq by done.
  apply does_readl; [split; done | by apply elem_of_seqZ |]. intros st Hst. clear Ebad.
  change (PCU_CF_INTRPT_STAT_REG =? PCU_CF_INTRPT_STAT_REG) with true. cbv zeta iota.
  unfold ctrue at 1. rewrite negb_involutive. destruct (get_bits u_cf_intrpt_stat _ st =? 0) eqn:Est; [apply does_ret; exists d1; split; [done |]; right; exists st; by rewrite Est |].
  apply does_bind, mac_write_does; [done |].
  destruct (Hm64 (desc + 8)) as [high Hh]; [lia |]. destruct (Hm64 (desc + 9)) as [low Hl]; [lia |].
  apply does_bind, (does_ld8 _ _ high); [done |]. apply does_bind, (does_ld8 _ _ low); [done |]. cbv zeta.
  rewrite len_word by (by eapply Hb). set (n := 256 * high + low).
  change (RX_BUFFER_DEFAULT_SIZE - rx_data_offset) with (RX_BUFFER_DEFAULT_SIZE - 64).
  change (desc + rx_data_offset) with (desc + 64). fold packet_buf.
  assert (0 <= n) as Hn0 by (pose proof (Hb _ _ Hh); pose proof (Hb _ _ Hl); unfold fits in *; lia).
  assert (forall r' s' mu' out, frame_received desc r' d1 s' mu mu' out -> Q r' s' mu' out [st]) as HQ.
  { intros r' s' mu' out HF. exists d1. split; [done |]. right. exists st. by rewrite Est. }
  destruct (n =? 0) eqn:En.
  { apply does_ret, HQ. exists high, low. cbv zeta. fold n. rewrite En. replace n with 0 by lia. done. }
  destruct (_ <=? n) eqn:Ebig.
  { apply (rearm_does _ _ _ d1); [done.. |]. intros rel s2 Hr2 Hs2. apply HQ. exists high, low.
    cbv zeta. fold n. rewrite En. replace (n <? _) with false by lia.
    split_and!; [done | done | by exists rel | done | done | done]. }
  destruct (rd_mapped mu (desc + 64) (Z.to_nat n)) as [bs Hbs].
  { eapply mapped_sub; [exact Hmap | lia | lia]. }
  apply does_bind, (memcpy_does _ _ _ bs); [done | done | | done | unfold NULL; lia | lia | lia |].
  { eapply mapped_sub; [exact Hpm | lia | lia]. }
  change (negb (EOK =? BM_OK)) with false. cbv iota.
  apply (rearm_does _ _ _ d1); [done | by apply mapped_wr | done |]. intros rel s2 Hr2 Hs2.
  apply HQ. exists high, low. cbv zeta. fold n. rewrite En. replace (n <? _) with true by lia.
  split_and!; [done | done | by exists rel | done |]. by exists bs.
Qed.
End Port.

(** ** Concrete calls *)
Lemma board_lock : lock_comes (D := board) 1 GMAC_MDIO_SYNC mdio_relax_ops.
Proof. by apply free_lock. Qed.

Lemma board_room a : 0x94000000 <= a <= 0x94000640 \/ 0x94010000 <= a <= 0x94010640 \/ a = 0x94020000 ->
  mapped board_memory a RX_BUFFER_DEFAULT_SIZE.
Proof. intros Ha. apply board_mapped. unfold RX_BUFFER_DEFAULT_SIZE. lia. Qed.

Lemma net_send_hands_over_witness :
  result (bm_net_send 1 1 0 0x90000000 3 board_world) = Some BM_OK /\
  wp (bm_net_send (G := mem * gmac) (D := board) 1 1 0 0x90000000 3) (fun r w' => r = BM_OK ->
    memof w' = wr board_memory 0x94000640 [1; 2; 3] /\
    exists o i, exchanged (port_base 0) board_world w' o i /\ length o = 4%nat) board_world.
Proof.
  split; [vm_compute; reflexivity |].
  assert (tx_data_ring board_port0 !! Z.to_nat (tx_data_num board_port0) = Some 0x94000640 /\ 0x94000640 <> NULL /\
    mapped board_memory 0x94000640 RX_BUFFER_DEFAULT_SIZE) as Htx by (split_and!; [vm_compute; reflexivity | unfold NULL; lia | apply board_room; lia]).
  pose proof (net_send_hands_over (G := mem * gmac) 1 1 board_lock ltac:(right; done) 0 ltac:(lia) board_state board_port0 eq_refl
    1 eq_refl _ _ 0x90000000 3 0x94000640 [1; 2; 3] board_memory ltac:(by split) board_bytes
    (fun _ => board_packet) (fun _ => Htx)
    ltac:(by right) board_world board_world_state board_world_memory) as H.
  eapply wp_mono; [exact H |]. cbv beta. clear H.
  intros r w' (o & i & He & -> & d' & _ & [(-> & _) | (_ & _ & _ & (rel & _ & w0 & w1 & -> & _) & Hm & _)]);
    [intros [=] |].
  intros _. split; [exact Hm |]. eexists _, _. by split; [exact He |].
Defined.

Lemma net_receive_takes_witness :
  result (bm_net_receive 1 1 0 true true board_world) = Some (BM_OK, Some 2, Some 0x94020000) /\
  wp (bm_net_receive (G := mem * gmac) (D := board) 1 1 0 true true) (fun r w' => r = (BM_OK, Some 2, Some 0x94020000) ->
    memof w' = wr (wr board_memory 0x94020000 [7; 9]) 0x94010000 cleared_desc) board_world.
Proof.
  split; [vm_compute; reflexivity |].
  assert (rx_data_ring board_port0 !! Z.to_nat (rx_data_num board_port0) = Some 0x94010000 /\ 0x94010000 <> NULL /\
    mapped board_memory 0x94010000 RX_BUFFER_DEFAULT_SIZE) as Hrx by (split_and!; [vm_compute; reflexivity | unfold NULL; lia | apply board_room; lia]).
  pose proof (net_receive_takes (G := mem * gmac) 1 1 board_lock ltac:(right; done) 0 ltac:(lia) board_state board_port0 eq_refl
    1 eq_refl _ _ true true 0x94010000 board_memory board_bytes
    (fun _ => Hrx)
    ltac:(done) (board_room 0x94020000 ltac:(lia)) ltac:(done) ltac:(by right) board_world board_world_state board_world_memory) as H.
  eapply wp_mono; [exact H |]. cbv beta. clear H.
  intros r w' (o & i & He & d' & _ & [(_ & -> & _) | (st & _ & _ & Hf)]); [intros [=] |].
  destruct (_ =? 0); [destruct Hf as [-> _]; intros [=] |].
  destruct Hf as (high & low & Hh & Hl & Hf). vm_compute in Hh, Hl. injection Hh as <-. injection Hl as <-.
  cbn in Hf. destruct Hf as (_ & _ & bs & Hbs & _ & Hm). intros _.
  vm_compute in Hbs. injection Hbs as <-. change (packet_buf 0) with 0x94020000 in Hm. exact Hm.
Defined.
