(* ===== verification/GmacInitProps.v ===== *)
(** * GmacInitProps: initialising a port, and changing its mode

    [bm_net_init] of all ports and cores is serialised by the shared word
    [GMAC_LOCK_SYNC].  Seen from that word ([exchanged] of file Serial with
    the word as the outside), a call takes it once and gives it back once, on
    every path. *)
From stdpp Require Import prelude gmap list strings.
From Stdlib Require Import ZArith Lia.
From S2P Require Import Prelude Fields Hw Common Mem Securec FscmemProps Cache Osal Os Serial GmacRegs Mdio.
From S2P Require Import MdioProps Phy PhyProps Gmac GmacBoard GmacLib.
Local Open Scope Z_scope.

Definition lock_out (off v : Z) : option Z := if off =? 0 then Some v else None.
Definition lock_regs : list Z := seqZ 0 0x1000.
#[local] Instance lock_in_block : InBlock 0.
Proof. split; done. Qed.
#[local] Instance lock_out_in_block : OutInBlock lock_out.
Proof. intros off v H. unfold lock_out. replace (off =? 0) with false by lia. done. Qed.

(** The registers of the chip are below this address, the shared words above. *)
Definition REGISTERS_END : Z := 0x80000000.

Section Init.
Context {G D : Type} `{MD : Machine D} `{HM : !Has G mem} `{HS : !Has G gmac} `{IN : !Indep G gmac mem}.
Context `{OS : !Os G D} `{XF : Xfer} `{GS : GmacSync} `{GC : GmacConfig}.
Context (fuel lfuel : nat) (uninit : Z) `{DL : !Delays G fuel}.
Definition init_relax_ops : list sysop := [Dsb; Isb; DcacheFlushAll].
Context (Hlock : lock_comes lfuel GMAC_MDIO_SYNC mdio_relax_ops).
Context (Hinit : lock_comes lfuel GMAC_LOCK_SYNC init_relax_ops).
Context (Hwords : REGISTERS_END <= GMAC_LOCK_SYNC) (Hne : GMAC_MDIO_SYNC <> GMAC_LOCK_SYNC).
Context (eth : Z) (Heth : 0 <= eth < 4).
Implicit Types (w : world G D) (s : gmac) (mu : mem).
Abbreviation M := (M G D).
Abbreviation does := (Serial.does (G := G) (D := D) (S := gmac) (out_of := lock_out)
  (dr := 0) (regs := lock_regs) GMAC_LOCK_SYNC).
Abbreviation silent := (Serial.silent (out_of := lock_out) (dr := 0) (regs := lock_regs) GMAC_LOCK_SYNC).

Lemma lock_silent_rd a v : a <> GMAC_LOCK_SYNC -> silent (Rd a v).
Proof. intros Ha. split; [lia |]. intros Hr. apply elem_of_seqZ. lia. Qed.
Lemma lock_silent_wr a v : a <> GMAC_LOCK_SYNC -> silent (Wr a v).
Proof. intros Ha. cbn. unfold lock_out. replace (_ =? 0) with false by lia. done. Qed.

Lemma mac_addr_low port off : 0 <= port < 4 -> 0 <= off < 0x1000 -> mac_reg_addr port off <> GMAC_LOCK_SYNC.
Proof.
  intros Hp Ho. unfold mac_reg_addr, MAC_BASE_ADDR, MAC_REG_ADDR_LEN, REGISTERS_END in *.
  rewrite wrap_id; unfold fits; lia.
Qed.

#[local] Instance lock_silent_mdio : AllowsMdio silent.
Proof.
  unfold REGISTERS_END in *.
  split; intros; [done | ..]; (apply lock_silent_rd || apply lock_silent_wr);
    try (change wait_reg with 0xcd00000); try (change cmd_reg with 0x8747000);
    try (change wdata_reg with 0x8747008); try (change rdata_reg with 0x874700c); lia.
Qed.

#[local] Instance lock_port_silent : AllowsPort eth silent.
Proof.
  split; intros off v Ho; unfold PCU_CF_INTRPT_STAT_REG in Ho; (apply lock_silent_rd || apply lock_silent_wr);
    apply mac_addr_low; lia.
Qed.

Section Any.
Context {T : Type} `{HT : !Has G T}.
Abbreviation quiet := (quiet (G := G) (D := D) T silent).

Lemma quiet_low_rd a : 0 <= a < REGISTERS_END -> quiet (readl a).
Proof. intros Ha. apply quiet_readl. intros v. apply lock_silent_rd. lia. Qed.
Lemma quiet_low_wr v a : 0 <= a < REGISTERS_END -> quiet (writel v a).
Proof. intros Ha. apply quiet_writel. apply lock_silent_wr. lia. Qed.

Lemma quiet_reg_read off : 0 <= off < 0x1000 -> quiet (mac_reg_read eth off).
Proof. intros Ho. apply quiet_readl. intros v. by apply lock_silent_rd, mac_addr_low. Qed.
Lemma quiet_reg_write off v : 0 <= off < 0x1000 -> quiet (mac_reg_write eth off v).
Proof. intros Ho. apply quiet_writel. by apply lock_silent_wr, mac_addr_low. Qed.

Lemma quiet_reg_update off f : 0 <= off < 0x1000 -> quiet (mac_update eth off f).
Proof.
  intros Ho. unfold mac_update. apply quiet_bind; [by apply quiet_reg_read |]. intros x.
  apply quiet_bind; [by apply quiet_reg_write |]. intros [].
  apply quiet_bind; [by apply quiet_reg_read |]. intros c. apply quiet_ret.
Qed.
Lemma quiet_reg_change off f : 0 <= off < 0x1000 -> quiet (mac_change eth off f).
Proof. intros Ho. apply quiet_bind; [by apply quiet_reg_read |]. intros x. by apply quiet_reg_write. Qed.

Lemma quiet_mdelay ms : 0 <= ms <= 100 -> quiet (gmac_mdelay fuel ms).
Proof.
  intros Hm. unfold gmac_mdelay. rewrite wrap_id by (unfold fits; lia).
  apply quiet_delay; [typeclasses eauto.. | lia].
Qed.

(** The loops of the port's code are counted. *)
Lemma quiet_loop {A B} (m : A -> nat) n (body : A -> M (A + B)) x :
  (forall x, yields (T := T) silent (body x) (fun r => match r with inl x' => (m x' < m x)%nat | inr _ => True end)) ->
  (m x < n)%nat -> quiet (loop n body x).
Proof.
  intros Hb. revert x. induction n as [| n IH]; intros x Hm; [lia |]. rewrite loop_S.
  eapply quiet_bind_yields; [apply Hb |]. intros [x' | b] Hr; [apply IH; lia | apply quiet_ret].
Qed.

End Any.

Ltac low := unfold REGISTERS_END, HP_SUB_CSR_GMAC_PHY0_LOS_CFG_ADDR, HP_SUB_CSR_GMAC_PHY0_CFG_ADDR,
  HP_SUB_CSR_GMAC_PHY0_CFG2_ADDR, HP_SUB_CSR_GMAC_PHY0_STS_ADDR, HP_SUB_CSR_GMAC_PHY1_LOS_CFG_ADDR,
  HP_SUB_CSR_GMAC_PHY1_CFG_ADDR, HP_SUB_CSR_GMAC_PHY1_CFG2_ADDR, HP_SUB_CSR_GMAC_PHY1_STS_ADDR,
  HP_SUB_CSR_HP_SRST_REQ1_ADDR, HP_SUB_CSR_HP_SRST_DIS1_ADDR, HP_SUB_CSR_HP_MAC_HADDR_EXTEND_0_ADDR,
  HP_SUB_CSR_BASE_ADDR in *; lia.
Ltac quiet_port :=
  first
  [ lazymatch goal with
    | |- Hw.quiet _ _ (mac_update _ _ _) => apply quiet_reg_update; done
    | |- Hw.quiet _ _ (mac_change _ _ _) => apply quiet_reg_change; done
    | |- Hw.quiet _ _ (mac_reg_read _ _) => apply quiet_reg_read; done
    | |- Hw.quiet _ _ (mac_reg_write _ _ _) => apply quiet_reg_write; done
    | |- Hw.quiet _ _ (gmac_mdelay _ _) => apply quiet_mdelay; lia
    | |- Hw.quiet _ _ (udelay _ _) => apply quiet_delay; first [lia | typeclasses eauto]
    | |- Hw.quiet _ _ (and_then _ _) => apply quiet_and_then
    | |- Hw.quiet _ _ (readl _) => apply quiet_low_rd; low
    | |- Hw.quiet _ _ (writel _ _) => apply quiet_low_wr; low
    | |- Hw.quiet _ _ (match ?o with Some _ => _ | None => _ end) => destruct o
    | |- Hw.quiet _ _ (match ?p with (_, _) => _ end) => destruct p
    end
  | quiet_step ].
Ltac quiet_ports := repeat quiet_port.

Section AnyPort.
Context {T : Type} `{HT : !Has G T}.
Abbreviation quiet := (quiet (G := G) (D := D) T silent).

Lemma quiet_config_mode : quiet (gmac_config_mode fuel eth).
Proof.
  unfold gmac_config_mode. destruct (_ || _); apply quiet_bind; try apply (quiet_set_port_mode silent eth); intros _.
  - apply quiet_ret.
  - unfold gmac_hw_set_sgmii_an_enable. apply quiet_bind; [quiet_ports |]. intros _.
    apply (quiet_loop (fun times => Z.to_nat (200 - times))); [| lia]. intros times.
    eapply yields_bind; [apply yields_any; quiet_ports |]. intros val _.
    destruct (200 <=? times) eqn:E; [by apply yields_ret |].
    eapply yields_bind; [apply yields_any; quiet_ports |]. intros _ _. apply yields_ret.
    destruct (_ =? 0); [lia | done].
Qed.

Lemma quiet_set_port_mode_all c : quiet (gmac_hw_set_port_mode_all fuel eth c).
Proof.
  unfold gmac_hw_set_port_mode_all. apply quiet_bind; [apply quiet_config_mode |]. intros [].
  unfold gmac_hw_set_pcu_ctrl, gmac_hw_set_max_frame_len, gmac_hw_set_short_frame_len. quiet_ports.
Qed.

Lemma quiet_srst reg bit v : 0 <= reg < REGISTERS_END -> quiet (srst reg bit v).
Proof. intros Hr. by apply quiet_low_wr. Qed.

Lemma quiet_reset_chip : quiet (gmac_reset_chip fuel eth).
Proof.
  unfold gmac_reset_chip, gmac_hw_ptp_reset, gmac_hw_core_reset, gmac_hw_set_bmu_close, gmac_hw_rx_enable,
    gmac_hw_tx_enable. repeat first [quiet_port | apply quiet_srst; low].
Qed.

Lemma quiet_sds_wait times state ready : 0 <= times -> 0 <= state < REGISTERS_END ->
  quiet (sds_wait fuel times state ready).
Proof.
  intros Ht Hs. unfold sds_wait. apply (quiet_loop (fun c => Z.to_nat (times + 1 - c))); [| lia]. intros c.
  destruct (times <? c) eqn:E; [by apply yields_ret |].
  eapply yields_bind; [apply yields_any; quiet_ports |]. intros _ _.
  eapply yields_bind; [apply yields_any; by apply quiet_low_rd |]. intros st _. apply yields_ret.
  destruct (ready st); [done | lia].
Qed.

Lemma quiet_bring_up a b c d : 0 <= a < REGISTERS_END -> 0 <= b < REGISTERS_END ->
  0 <= c < REGISTERS_END -> 0 <= d < REGISTERS_END -> quiet (gmac_serdes_bring_up fuel a b c d).
Proof.
  intros Ha Hb Hc Hd. unfold gmac_serdes_bring_up, gmac_hw_sds_phy_reset, gmac_hw_sds_phy_los_reg_init,
    gmac_hw_sds_phy_cfg2_reg_init, gmac_hw_sds_phy_cfg1_reg_init, gmac_hw_sds_phy_init.
  repeat first [apply quiet_sds_wait; [done | done] | quiet_port].
Qed.

Lemma quiet_serdes_init : quiet (gmac_serdes_init fuel eth).
Proof.
  unfold gmac_serdes_init. repeat case_match; [apply quiet_bring_up; low.. | apply quiet_ret].
Qed.

Lemma quiet_io_cfg : quiet (gmac_set_io_cfg eth).
Proof.
  unfold gmac_set_io_cfg, IO_CONFIG_R_IOMG022_ADDR, IO_CONFIG_R_IOMG023_ADDR, IO_CONFIG_R_IOMG024_ADDR,
    IO_CONFIG_R_IOMG025_ADDR, IO_CONFIG_R_IOMG026_ADDR, IO_CONFIG_R_IOMG027_ADDR. quiet_ports.
Qed.

Lemma quiet_mdio_init : quiet (mdio_init 0).
Proof.
  unfold mdio_init, mdio_reg_write, IO_CONFIG_T_IOMG033_ADDR. change (mdio_reg_addr 0 MDIO_CMD_REG) with 0x8747000.
  quiet_ports.
Qed.

Lemma quiet_ext_addr : quiet (gmac_init_extend_addr eth).
Proof.
  unfold gmac_init_extend_addr. apply quiet_low_wr. rewrite wrap_id; [| unfold fits]; low.
Qed.

Lemma quiet_relative dir a : quiet (gmac_get_ddr_relative_addr dir eth a).
Proof.
  unfold gmac_get_ddr_relative_addr. apply quiet_bind; [| intros; apply quiet_ret].
  apply quiet_low_rd. rewrite wrap_id; [| unfold fits]; low.
Qed.
End AnyPort.

Abbreviation port_is := (port_is eth).

Lemma does_mod_port f d s mu (Q : unit -> gmac -> mem -> list Z -> list Z -> Prop) :
  port_is s d -> (forall s', port_is s' (f d) -> Q tt s' mu [] []) -> does (mod_priv eth f) s mu Q.
Proof. intros Hd HQ. apply (does_mod_priv _ d); [done |]. by eapply HQ, port_set. Qed.

(** Memory that keeps its extent, and its contents outside [lo, hi). *)
Definition keeps (lo hi : Z) (mu mu' : mem) : Prop :=
  (forall a, a < lo \/ hi <= a -> mu' !! a = mu !! a) /\ (forall a, is_Some (mu !! a) -> is_Some (mu' !! a)).

Lemma keeps_refl lo hi mu : keeps lo hi mu mu.
Proof. done. Qed.
Lemma keeps_trans lo hi mu1 mu2 mu3 : keeps lo hi mu1 mu2 -> keeps lo hi mu2 mu3 -> keeps lo hi mu1 mu3.
Proof. intros [H1 H2] [H3 H4]. split; [intros a Ha; by rewrite H3, H1 | auto]. Qed.
Lemma keeps_wr lo hi mu a bs : lo <= a -> a + Z.of_nat (length bs) <= hi -> keeps lo hi mu (wr mu a bs).
Proof.
  intros Hl Hh. split.
  - intros b Hb. rewrite lookup_wr. case_decide; [lia | done].
  - intros b Hb. rewrite lookup_wr. case_decide; [| done]. apply lookup_lt_is_Some_2. lia.
Qed.
Lemma keeps_mapped lo hi mu mu' a n : keeps lo hi mu mu' -> mapped mu a n -> mapped mu' a n.
Proof. intros [_ H] Hm i Hi. by apply H, Hm. Qed.

Section Ring.
Context (ring : gmac_device -> list Z) (set : list Z -> gmac_device -> gmac_device).
Context (Hget : forall r d, ring (set r d) = r) (Hsame : forall d, set (ring d) d = d).
Context (Hset : forall r r' d, set r (set r' d) = set r d) (Hnum : forall r d, mac_num (set r d) = mac_num d).
Context (buffer : Z) (Hbuf : 0 < buffer).

Definition ring_buf (i : Z) : Z := buffer + (eth * 2 + i) * RX_BUFFER_DEFAULT_SIZE.
Definition ring_fill (i : Z) (r : list Z) : list Z :=
  if nth (Z.to_nat i) r 0 =? NULL then <[Z.to_nat i := cache_align (ring_buf i)]> r else r.
Definition buffers_keep : mem -> mem -> Prop := keeps (ring_buf 0) (ring_buf 2).

Lemma ring_round_does i tmp d s mu (Q : Z * list bool + Z -> gmac -> mem -> list Z -> list Z -> Prop) :
  0 <= i < 2 -> port_is s d -> mac_num d = eth -> length (ring d) = 2%nat ->
  mapped mu (ring_buf 0) (2 * RX_BUFFER_DEFAULT_SIZE) ->
  (forall tmp' s' mu', port_is s' (set (ring_fill i (ring d)) d) -> buffers_keep mu mu' ->
     Q (inl (i + 1, tmp')) s' mu' [] []) ->
  does (ring_round ring set buffer 2 eth (i, tmp)) s mu Q.
Proof.
  intros Hi Hd Hn Hlen Hm HQ. unfold ring_round. replace (2 <=? i) with false by lia.
  apply does_bind, (does_get_priv d); [done |].
  destruct (lookup_lt_is_Some_2 (ring d) (Z.to_nat i)) as [e He]; [lia |].
  apply does_bind, (does_some_or _ _ _ e); [done |]. rewrite Hn. fold (ring_buf i).
  assert (ring_fill i (ring d) = if e =? NULL then <[Z.to_nat i := cache_align (ring_buf i)]> (ring d) else ring d) as Ef.
  { unfold ring_fill. by rewrite (nth_lookup_Some _ _ _ _ He). }
  destruct (e =? NULL).
  2:{ apply does_ret, HQ; [by rewrite Ef, Hsame | apply keeps_refl]. }
  replace (ring_buf i =? NULL) with false by (unfold ring_buf, NULL, RX_BUFFER_DEFAULT_SIZE; lia).
  apply does_bind, (does_mem _ _ EOK (wr mu (ring_buf i) (replicate (Z.to_nat RX_BUFFER_DEFAULT_SIZE) (u8 0)))).
  { intros w <-. apply wp_memset_s; [done | unfold ring_buf, NULL, RX_BUFFER_DEFAULT_SIZE; lia | | done].
    eapply mapped_sub; [exact Hm | unfold ring_buf, RX_BUFFER_DEFAULT_SIZE; lia..]. }
  change (negb (EOK =? BM_OK)) with false. cbv iota.
  apply does_bind, (does_mod_port _ d); [done |]. intros s' Hs'. apply does_ret, HQ.
  - by rewrite Ef.
  - apply keeps_wr; [| rewrite length_replicate]; unfold ring_buf, RX_BUFFER_DEFAULT_SIZE; lia.
Qed.

Lemma init_ring_does d s mu (Q : Z -> gmac -> mem -> list Z -> list Z -> Prop) :
  port_is s d -> mac_num d = eth -> length (ring d) = 2%nat ->
  mapped mu (ring_buf 0) (2 * RX_BUFFER_DEFAULT_SIZE) ->
  (forall s' mu', port_is s' (set (ring_fill 1 (ring_fill 0 (ring d))) d) -> buffers_keep mu mu' ->
     Q BM_OK s' mu' [] []) ->
  does (init_ring ring set buffer 2 eth) s mu Q.
Proof.
  intros Hd Hn Hlen Hm HQ. unfold init_ring. change (Z.to_nat 2 + 1)%nat with 3%nat.
  assert (forall i r, length (ring_fill i r) = length r) as Hlf.
  { intros i r. unfold ring_fill. destruct (_ =? _); [apply length_insert | done]. }
  rewrite loop_S. apply does_bind, (ring_round_does _ _ d); [lia | done.. |]. intros tmp1 s1 mu1 Hd1 K1.
  change (0 + 1) with 1. rewrite loop_S.
  apply does_bind, (ring_round_does _ _ (set (ring_fill 0 (ring d)) d)); [lia | done | by rewrite Hnum | by rewrite Hget, Hlf | by eapply keeps_mapped |]. intros tmp2 s2 mu2 Hd2 K2.
  rewrite Hget, Hset in Hd2. rewrite loop_S. apply does_bind, does_ret. apply does_ret.
  apply HQ; [done |]. by eapply keeps_trans.
Qed.
End Ring.

(** ** The PHY *)
Lemma quiet_get_phy_id {T} `{!Has G T} phy : quiet T silent (gmac_get_phy_id (G := G) fuel lfuel phy).
Proof.
  unfold gmac_get_phy_id.
  apply quiet_bind; [eapply yields_quiet, yields_mdio_read; [typeclasses eauto | done | typeclasses eauto] |].
  intros [r v]. cbv zeta. destruct (ctrue r); [apply quiet_ret |].
  apply quiet_bind; [eapply yields_quiet, yields_mdio_read; [typeclasses eauto | done | typeclasses eauto] |].
  intros [r' v']. cbv zeta. destruct (ctrue r'); apply quiet_ret.
Qed.

Lemma quiet_phy_init {T} `{!Has G T} ident i p phy :
  find_phy 0 ident (hi_gmac_phy_info_table (G := G) fuel lfuel) = Some (i, p) ->
  quiet T silent (init (M := M) p phy).
Proof.
  unfold hi_gmac_phy_info_table. cbn [find_phy phy_id].
  repeat case_match; intros ?; simplify_eq; cbn [init].
  - by apply quiet_yt8521_init; try typeclasses eauto.
  - by apply quiet_yt8512_init; try typeclasses eauto.
Qed.

Lemma phy_init_does d s mu (Q : Z -> gmac -> mem -> list Z -> list Z -> Prop) : port_is s d ->
  (forall r s' pi, port_is s' (with_phy_info pi d) -> (ctrue r = false -> is_Some pi) -> Q r s' mu [] []) ->
  does (gmac_phy_init fuel lfuel eth) s mu Q.
Proof.
  intros Hd HQ. unfold gmac_phy_init. apply does_bind, (does_get_priv d); [done |].
  apply does_bind, does_silent; [apply quiet_get_phy_id.. |]. intros [r v].
  destruct (ctrue r) eqn:Er.
  { apply does_ret, (HQ _ _ (gmac_phy_info d)); [by destruct d | congruence]. }
  cbv zeta. destruct (find_phy _ _ _) as [[i p] |] eqn:Ef.
  - apply does_bind, does_silent; [by eapply quiet_phy_init.. |]. intros r'.
    apply does_bind, (does_mod_port _ d); [done |]. intros s' Hs'. apply does_ret. by eapply HQ.
  - apply does_bind, (does_mod_port _ d); [done |]. intros s' Hs'. apply does_ret. by eapply HQ.
Qed.

Lemma speed_duplex_does d s mu (Q : Z * option Z -> gmac -> mem -> list Z -> list Z -> Prop) :
  (forall r, Q r s mu [] []) -> does (get_phy_speed_duplex fuel lfuel d) s mu Q.
Proof.
  intros HQ. by apply does_silent; [by apply (quiet_phy_speed fuel lfuel Hlock silent).. |].
Qed.

(** ** The MAC *)
Lemma mac_words_does p s mu (Q : Z * Z -> gmac -> mem -> list Z -> list Z -> Prop) :
  mapped mu p 6 -> (forall r, Q r s mu [] []) -> does (mac_addr_words p) s mu Q.
Proof.
  intros Hm HQ. unfold mac_addr_words.
  assert (forall k, 0 <= k < 6 -> exists b, mu !! (p + k) = Some b) as Hb by (intros k Hk; apply Hm; lia).
  destruct (Hb 0) as [b0 H0]; [lia |]. rewrite Z.add_0_r in H0.
  destruct (Hb 1) as [b1 H1]; [lia |]. destruct (Hb 2) as [b2 H2]; [lia |].
  destruct (Hb 3) as [b3 H3]; [lia |]. destruct (Hb 4) as [b4 H4]; [lia |].
  destruct (Hb 5) as [b5 H5]; [lia |].
  apply does_bind, (does_ld8 _ _ b0); [done |]. apply does_bind, (does_ld8 _ _ b1); [done |].
  apply does_bind, (does_ld8 _ _ b2); [done |]. apply does_bind, (does_ld8 _ _ b3); [done |].
  apply does_bind, (does_ld8 _ _ b4); [done |]. apply does_bind, (does_ld8 _ _ b5); [done |].
  by apply does_ret.
Qed.

Definition default_mac : Z := g_default_mac_addr + eth * MAC_ADDR_LEN.

Lemma set_hw_mac_does s mu (Q : Z -> gmac -> mem -> list Z -> list Z -> Prop) :
  mapped mu default_mac 6 -> (forall r, Q r s mu [] []) -> does (gmac_set_hw_mac_addr eth) s mu Q.
Proof.
  intros Hm HQ. unfold gmac_set_hw_mac_addr. replace (GMAC_MAX_DEV <=? eth) with false by (unfold GMAC_MAX_DEV; lia).
  apply does_bind, mac_words_does; [done |]. intros [hi low].
  do 6 (apply does_bind, does_silent; [by apply quiet_reg_write.. | intros []]). by apply does_ret.
Qed.

Lemma chip_init_does d s mu (Q : Z -> gmac -> mem -> list Z -> list Z -> Prop) :
  port_is s d -> mac_num d = eth -> mapped mu default_mac 6 -> (forall r, Q r s mu [] []) ->
  does (gmac_chip_init fuel eth) s mu Q.
Proof.
  intros Hd Hn Hm HQ. unfold gmac_chip_init. cbv zeta. apply does_bind, (does_get_priv d); [done |]. rewrite Hn.
  apply does_bind, does_silent; [unfold gmac_hw_set_pkt_store_format; quiet_ports.. |]. intros r1.
  destruct (ctrue r1); [by apply does_ret |].
  apply does_bind, does_silent; [unfold gmac_hw_set_pkt_input_parse_mode; quiet_ports.. |]. intros r2.
  destruct (ctrue r2); [by apply does_ret |].
  apply does_bind, does_silent; [apply quiet_set_port_mode_all.. |]. intros _.
  apply does_bind, does_silent; [unfold gmac_hw_set_mac_addr_filter; quiet_ports.. |]. intros _.
  apply does_bind, does_silent; [unfold gmac_hw_set_rx_max_frame_len; quiet_ports.. |]. intros r3.
  destruct (ctrue r3); [by apply does_ret |].
  apply does_bind, does_silent; [apply quiet_ext_addr.. |]. intros [].
  apply does_bind, does_silent; [unfold gmac_hw_set_tx_pad_add; quiet_ports.. |]. intros r4.
  apply does_bind, does_silent; [unfold gmac_hw_set_poe_close; quiet_ports.. |]. intros r5.
  apply does_bind, does_silent; [unfold gmac_set_rx_fifo_threshold; quiet_ports.. |]. intros r6.
  apply does_bind, does_silent; [unfold gmac_set_tx_fifo_threshold; quiet_ports.. |]. intros r7.
  apply does_bind, set_hw_mac_does; [done |]. intros r8.
  apply does_bind, does_silent; [unfold gmac_hw_int_int; cbv zeta; quiet_ports.. |]. intros r9. by apply does_ret.
Qed.

Lemma rx_fill_does d s mu (Q : unit -> gmac -> mem -> list Z -> list Z -> Prop) :
  port_is s d -> length (rx_data_ring d) = 2%nat -> Q tt s mu [] [] ->
  does (gmac_rx_fill_all_buff eth eth) s mu Q.
Proof.
  intros Hd Hl HQ. unfold gmac_rx_fill_all_buff.
  destruct (rx_data_ring d) as [| a [| b [| ]]] eqn:E; try done.
  apply does_bind, does_silent; [by apply quiet_reg_write.. |]. intros [].
  change (Z.to_nat CHIP_RX_FIFO_NUM) with 2%nat. cbn [for_up].
  do 2 (apply does_bind, does_bind, (does_get_priv d); [done |];
        rewrite E; apply does_bind, (does_some_or _ _ _ _ _ _ _ eq_refl);
        apply does_bind, does_silent; [apply quiet_relative.. |]; intros ?;
        apply does_silent; [by apply quiet_reg_write.. |]; intros []).
  by apply does_ret.
Qed.

Lemma eth_init_does d s mu (Q : Z -> gmac -> mem -> list Z -> list Z -> Prop) :
  port_is s d -> mac_num d = eth -> length (rx_data_ring d) = 2%nat -> mapped mu default_mac 6 ->
  (forall r, Q r s mu [] []) -> does (gmac_eth_init fuel eth) s mu Q.
Proof.
  intros Hd Hn Hl Hm HQ. unfold gmac_eth_init. apply does_bind, (does_get_priv d); [done |]. rewrite Hn.
  apply does_bind, does_silent; [apply quiet_when, quiet_io_cfg.. |]. intros [].
  apply does_bind, does_silent; [apply quiet_reset_chip.. |]. intros r1. destruct (ctrue r1); [by apply does_ret |].
  apply does_bind, (chip_init_does d); [done.. |]. intros r2. destruct (ctrue r2); [by apply does_ret |].
  apply does_bind, does_silent; [by apply quiet_mdelay.. |]. intros [].
  apply does_bind, (rx_fill_does d); [done.. |]. by apply does_ret.
Qed.

Lemma eth_start_does d s mu (Q : Z -> gmac -> mem -> list Z -> list Z -> Prop) :
  port_is s d -> mac_num d = eth -> length (rx_data_ring d) = 2%nat -> mapped mu default_mac 6 ->
  (forall r s' pi, port_is s' (with_phy_info pi d) -> (ctrue r = false -> is_Some pi) -> Q r s' mu [] []) ->
  does (gmac_eth_start fuel lfuel uninit eth) s mu Q.
Proof.
  intros Hd Hn Hl Hm HQ. unfold gmac_eth_start. apply does_bind, (phy_init_does d); [done |].
  intros r s' pi Hs' Hpi. destruct (ctrue r) eqn:Er; [apply does_ret; by eapply HQ |].
  specialize (Hpi eq_refl). set (d' := with_phy_info pi d) in *.
  assert (forall r', Q r' s' mu [] []) as HQ' by (intros r'; by eapply HQ).
  apply does_bind, (does_get_priv d'); [done |]. change (mac_num d') with (mac_num d). rewrite Hn.
  destruct (ctrue (init_done d')).
  - apply does_bind, speed_duplex_does. intros [speed duplex].
    apply does_bind, does_silent; [apply (quiet_set_port_mode silent eth).. |]. intros _.
    apply does_bind, does_silent; [apply (quiet_rx_enable silent eth).. |]. intros [].
    apply does_bind, does_silent; [apply (quiet_tx_enable silent eth).. |]. intros []. by apply does_ret.
  - apply does_bind, does_silent; [apply quiet_serdes_init.. |]. intros r1. destruct (ctrue r1); [by apply does_ret |].
    apply does_bind, (eth_init_does d'); [done.. |]. intros r2. destruct (ctrue r2); [by apply does_ret |].
    apply does_bind, does_silent; [apply (quiet_rx_enable silent eth).. |]. intros [].
    apply does_bind, does_silent; [apply (quiet_tx_enable silent eth).. |]. intros [].
    apply does_bind, does_silent; [by apply quiet_mdelay.. |]. intros []. by apply does_ret.
Qed.

(** ** The lock word *)
Lemma take_does s mu (Q : unit -> gmac -> mem -> list Z -> list Z -> Prop) :
  (forall tries, Forall (fun v => v <> 0) tries -> Q tt s mu [0xf] (tries ++ [0])) ->
  does (spin_lock lfuel GMAC_LOCK_SYNC (sys_ Dsb ;; sys_ Isb ;; bm_flush_dcache_all)) s mu Q.
Proof.
  assert (relaxes (G := G) (sys_ Dsb ;; sys_ Isb ;; bm_flush_dcache_all) init_relax_ops) as Hr.
  { apply (relaxes_bind _ _ [Dsb] [Isb; DcacheFlushAll]); [apply relaxes_1 |].
    apply (relaxes_bind _ _ [Isb] [DcacheFlushAll]); apply relaxes_1. }
  intros HQ w <- <-. eapply wp_mono; [by apply (emits_spin_lock lfuel _ _ init_relax_ops) |]. cbv beta.
  intros [] w' (Hg & t & Ht & (t0 & -> & Hf)).
  assert (exists tries, Forall (fun v => v <> 0) tries /\ exchanged lock_out 0 lock_regs GMAC_LOCK_SYNC
    w (World (glob w) (dev w) (tr w ++ t0)) [] tries) as (tries & Hne' & E1).
  { clear Ht. unfold Serial.exchanged. cbn [tr].
    assert (exists tries, Forall (fun v => v <> 0) tries /\ sent lock_out GMAC_LOCK_SYNC t0 = [] /\
      received 0 GMAC_LOCK_SYNC t0 = tries /\ Forall (fun o => o ∈ lock_regs) (looked GMAC_LOCK_SYNC t0))
      as (tries & H0 & H1 & H2 & H3).
    { induction Hf as [| [a v | a v | op v | m] t0 He _ (tries & H0 & H1 & H2 & H3)]; [by exists [] | | done | by exists tries | done].
      destruct He as [-> Hv]. exists (v :: tries). unfold sent, received, looked in *. cbn [omap list_omap].
      rewrite H1, H2. replace (GMAC_LOCK_SYNC =? GMAC_LOCK_SYNC + 0) with true by lia.
      replace (_ && _) with true by lia. split_and!; [by constructor | done | done |].
      constructor; [| done]. apply elem_of_seqZ. lia. }
    exists tries. split; [done |]. by exists t0. }
  exists [0xf], (tries ++ [0]). rewrite Hg. split; [| by apply HQ].
  apply (exchanged_trans _ _ _ _ [] tries [0xf] [0] E1).
  exists [Rd GMAC_LOCK_SYNC 0; Wr GMAC_LOCK_SYNC 0xf]. cbn [tr]. rewrite Ht, <- app_assoc. split; [done |].
  unfold sent, received, looked. cbn [omap list_omap]. unfold lock_out.
  replace (GMAC_LOCK_SYNC - GMAC_LOCK_SYNC =? 0) with true by lia.
  replace (GMAC_LOCK_SYNC =? GMAC_LOCK_SYNC + 0) with true by lia.
  replace (_ && _) with true by lia. split_and!; [done | done |]. apply Forall_singleton, elem_of_seqZ. lia.
Qed.

Lemma give_does s mu (Q : unit -> gmac -> mem -> list Z -> list Z -> Prop) :
  Q tt s mu [0] [] -> does (writel 0 GMAC_LOCK_SYNC) s mu Q.
Proof.
  intros HQ. assert (writel (G := G) (D := D) 0 GMAC_LOCK_SYNC = writel 0 (GMAC_LOCK_SYNC + 0)) as ->.
  { by rewrite Z.add_0_r. }
  by apply does_writel.
Qed.

Definition rx_filled (d : gmac_device) : list Z :=
  ring_fill g_gmac_rx_buffer 1 (ring_fill g_gmac_rx_buffer 0 (rx_data_ring d)).
Definition tx_filled (d : gmac_device) : list Z :=
  ring_fill g_gmac_tx_buffer 1 (ring_fill g_gmac_tx_buffer 0 (tx_data_ring d)).
Definition started (phy : Z) (pi : option nat) (d : gmac_device) : gmac_device :=
  with_phy_info pi (with_tx_ring (tx_filled d) (with_rx_ring (rx_filled d) (with_port eth phy d))).
Definition ring_room (mu : mem) : Prop :=
  mapped mu (ring_buf g_gmac_rx_buffer 0) (2 * RX_BUFFER_DEFAULT_SIZE) /\
  mapped mu (ring_buf g_gmac_tx_buffer 0) (2 * RX_BUFFER_DEFAULT_SIZE) /\ mapped mu default_mac 6.
Definition outside_rings (a : Z) : Prop :=
  (a < ring_buf g_gmac_rx_buffer 0 \/ ring_buf g_gmac_rx_buffer 2 <= a) /\
  (a < ring_buf g_gmac_tx_buffer 0 \/ ring_buf g_gmac_tx_buffer 2 <= a).

Context (L1 : OsLaws G D gmac silent) (L2 : OsLaws G D mem silent).
Context (Hrx : 0 < g_gmac_rx_buffer) (Htx : 0 < g_gmac_tx_buffer).

(** The part of the initialisation done while holding the word. *)
Lemma init_locked_does phy d s mu (Q : Z -> gmac -> mem -> list Z -> list Z -> Prop) :
  port_is s (with_port eth phy d) -> length (rx_data_ring d) = 2%nat -> length (tx_data_ring d) = 2%nat ->
  ring_room mu ->
  (forall r s' mu' d', port_is s' d' -> (forall a, outside_rings a -> mu' !! a = mu !! a) ->
     (r = BM_FAIL /\ mac_num d' = eth /\ phy_addr d' = phy /\ init_done d' = init_done d \/
      r = BM_OK /\ exists i, d' = with_init_done 1 (started phy (Some i) d)) -> Q r s' mu' [] []) ->
  does (net_init_locked fuel lfuel uninit eth) s mu Q.
Proof.
  intros Hd Hlr Hlt (Hmr & Hmt & Hmd) HQ. unfold net_init_locked.
  apply does_bind, does_silent; [apply quiet_mdio_init.. |]. intros r0.
  destruct (ctrue r0); [apply does_ret; eapply HQ; [exact Hd | done | by left] |].
  apply does_bind, (init_ring_does rx_data_ring with_rx_ring ltac:(done) ltac:(by intros []) ltac:(done)
    ltac:(done) g_gmac_rx_buffer Hrx (with_port eth phy d)); [done.. |].
  intros s1 mu1 Hd1 K1. change (ctrue BM_OK) with false. cbv iota. fold (rx_filled d) in Hd1.
  change (rx_data_ring (with_port eth phy d)) with (rx_data_ring d) in Hd1. fold (rx_filled d) in Hd1.
  apply does_bind, (init_ring_does tx_data_ring with_tx_ring ltac:(done) ltac:(by intros []) ltac:(done)
    ltac:(done) g_gmac_tx_buffer Htx (with_rx_ring (rx_filled d) (with_port eth phy d)));
    [done | done | done | by eapply keeps_mapped |].
  intros s2 mu2 Hd2 K2. change (ctrue BM_OK) with false. cbv iota.
  change (tx_data_ring (with_rx_ring _ _)) with (tx_data_ring d) in Hd2. fold (tx_filled d) in Hd2.
  assert (forall a, outside_rings a -> mu2 !! a = mu !! a) as Hout.
  { intros a [Ha1 Ha2]. rewrite (proj1 K2) by done. by apply K1. }
  assert (length (rx_filled d) = 2%nat) as Hl2.
  { unfold rx_filled, ring_fill. repeat case_match; rewrite ?length_insert; done. }
  apply does_bind, (eth_start_does _ _ _ _ Hd2); [done | done | by eapply keeps_mapped, keeps_mapped |].
  intros r3 s3 pi Hd3 Hpi. fold (started phy pi d) in Hd3.
  assert (forall mu', (forall a, outside_rings a -> mu' !! a = mu !! a) -> Q BM_FAIL s3 mu' [] []) as HF.
  { intros mu' Hmu'. eapply HQ; [exact Hd3 | done | by left]. }
  destruct (ctrue r3) eqn:Er3; [apply does_ret; by apply HF |]. destruct (Hpi eq_refl) as [i ->].
  apply does_bind, does_sys_. apply does_bind, does_sys_. apply does_bind, (does_get_priv (started phy (Some i) d)); [done |].
  apply does_bind, does_silent; [destruct (negb _); [apply ol_sem_init | apply quiet_ret].. |]. intros r4.
  destruct (negb _); [apply does_ret; by apply HF |].
  apply does_bind, (does_mod_port _ (started phy (Some i) d)); [done |]. intros s4 Hs4. apply does_ret.
  eapply HQ; [exact Hs4 | done |]. right. split; [done |]. by exists i.
Qed.

(** C25: initialisation.  A bad PHY address and a port the board does not have
    are refused at once.  Otherwise the call takes the word [GMAC_LOCK_SYNC]
    once and gives it back once, on every path, writes no memory but the
    port's own ring buffers, and marks the port initialised exactly when it
    succeeds, with its rings filled and one of the known PHYs attached. *)
Theorem net_init_locks_once phy d ex s mu :
  port_is s d -> gmac_exist_array !! Z.to_nat eth = Some ex ->
  length (rx_data_ring d) = 2%nat -> length (tx_data_ring d) = 2%nat -> ring_room mu ->
  does (bm_net_init fuel lfuel uninit eth phy) s mu (fun r s' mu' out inn =>
    if (GMAC_PHY_MAX_ADDR <=? phy) || (ex =? 0) then r = BM_FAIL /\ s' = s /\ mu' = mu /\ out = [] /\ inn = []
    else
      out = [0xf; 0] /\ (exists tries, inn = tries ++ [0] /\ Forall (fun v => v <> 0) tries) /\
      (forall a, outside_rings a -> mu' !! a = mu !! a) /\
      exists d', port_is s' d' /\
        (r = BM_FAIL /\ mac_num d' = eth /\ phy_addr d' = phy /\ init_done d' = init_done d \/
         r = BM_OK /\ exists i, d' = with_init_done 1 (started phy (Some i) d))).
Proof.
  intros Hd Hex Hlr Hlt Hroom. unfold bm_net_init.
  replace (bad_eth eth) with false by (unfold bad_eth, ETH_BUTT, ETH0; lia). cbn [orb].
  destruct (GMAC_PHY_MAX_ADDR <=? phy) eqn:Ephy; cbn [orb]; [by apply does_ret |].
  apply does_bind, (does_some_or _ _ _ ex); [done |].
  unfold ctrue at 1. rewrite negb_involutive. destruct (ex =? 0); [by apply does_ret |].
  apply does_bind, (does_mod_port _ d); [done |]. intros s1 Hs1.
  apply does_bind, take_does. intros tries Htries.
  apply does_bind, (init_locked_does phy d); [done.. |]. intros r s2 mu2 d' Hd' Hout Hr.
  apply does_bind, give_does. apply does_ret.
  rewrite !app_nil_r. split; [done |]. split; [by exists tries |]. split; [done |]. by exists d'.
Qed.
End Init.

(** ** Changing the mode of a port *)
Section Mode.
Context {G D : Type} `{MD : Machine D}.
Context (eth : Z).
Abbreviation reg off := (mac_reg_addr eth off).

Lemma emits_mac_update off f w :
  emits (G := G) (D := D) (mac_update eth off f) w (fun r t => exists x c, fits 32 x /\
    t = [Rd (reg off) x; Wr (reg off) (u32 (f x)); Rd (reg off) c] /\
    r = if c =? f x then BM_OK else BM_FAIL).
Proof. unfold mac_update, mac_reg_read, mac_reg_write. emits_steps. eauto. Qed.

Lemma emits_and_then (m k : M G D Z) w (P Q : Z -> list event -> Prop) :
  emits m w P -> (forall r t, P r t -> if ctrue r then Q r t else
    forall w', glob w' = glob w -> emits k w' (fun r' t' => Q r' (t ++ t'))) ->
  emits (and_then m k) w Q.
Proof.
  intros Hm Hk. unfold and_then. apply emits_bind. eapply emits_mono; [exact Hm |]. cbv beta.
  intros r t HP w' Hw'. specialize (Hk r t HP). destruct (ctrue r); [| by apply Hk].
  apply emits_ret. by rewrite app_nil_r.
Qed.

(** The last write of [field] in register [off]. *)
Definition sets (l : layout) (f : string) (off v : Z) (x : Z * Z) : Prop :=
  x.1 = reg off /\ get_bits l f x.2 = v.

(** the mode of a port changes only while it is stopped: whatever the
    registers answer, the transmit and the receive channel are told to stop
    first, then duplex mode, speed and the command to apply them are written,
    in this order, up to the first that does not read back; the call succeeds
    exactly when all three do. *)
Theorem port_mode_while_stopped mode duplex w :
  emits (G := G) (D := D) (gmac_hw_set_port_mode eth mode duplex) w (fun r t =>
    exists stop_tx stop_rx x y z n,
      writes t = [stop_tx; stop_rx] ++ take n [x; y; z] /\ (1 <= n <= 3)%nat /\
      sets u_port_en "tx_en" MAC_CORE_PORT_EN_REG 0 stop_tx /\
      sets u_port_en "rx_en" MAC_CORE_PORT_EN_REG 0 stop_rx /\
      sets u_duplex_type "duplex_sel" MAC_CORE_DUPLEX_TYPE (duplex mod 2) x /\
      sets u_port_mode "port_mode" MAC_CORE_PORT_MODE_REG (mode mod 16) y /\
      sets u_mode_change_en "mode_change_en" MAC_CORE_MODE_CHANGE_EN_REG 1 z /\
      (r = BM_OK -> n = 3%nat) /\ (r = BM_OK \/ r = BM_FAIL)).
Proof.
  assert (forall l f v off x, layout_ok l = true -> is_Some (place l f) -> fits 32 x ->
    sets l f off (wrap (default 0 (snd <$> place l f)) v) (reg off, u32 (set_bits l f v x))) as Hset.
  { intros l f v off x Hl Hp Hx. split; [done |]. cbn [snd].
    rewrite (wrap_id 32) by (by apply set_bits_fits). by apply get_set_bits. }
  assert (forall l f off, layout_ok l = true -> is_Some (place l f) -> forall v, exists p,
    sets l f off (wrap (default 0 (snd <$> place l f)) v) p) as Hany.
  { intros l f off Hl Hp v. exists (reg off, u32 (set_bits l f v 0)). by apply Hset. }
  destruct (Hany u_port_mode "port_mode" MAC_CORE_PORT_MODE_REG eq_refl ltac:(by eexists) mode) as [y0 Hy0].
  destruct (Hany u_mode_change_en "mode_change_en" MAC_CORE_MODE_CHANGE_EN_REG eq_refl ltac:(by eexists) 1) as [z0 Hz0].
  unfold gmac_hw_set_port_mode, gmac_hw_tx_enable, gmac_hw_rx_enable.
  emits_step. emits_step. emits_apply emits_mac_update. intros _ ? (x1 & c1 & F1 & -> & _) w1 _. emits_step.
  emits_step. emits_step. emits_apply emits_mac_update. intros _ ? (x2 & c2 & F2 & -> & _) w2 _. emits_step.
  pose proof (Hset u_port_en "tx_en" DISABLE MAC_CORE_PORT_EN_REG x1 eq_refl ltac:(by eexists) F1) as S1.
  pose proof (Hset u_port_en "rx_en" DISABLE MAC_CORE_PORT_EN_REG x2 eq_refl ltac:(by eexists) F2) as S2.
  eapply emits_and_then; [apply emits_mac_update |]. cbv beta. intros ? ? (x3 & c3 & F3 & -> & ->).
  pose proof (Hset u_duplex_type "duplex_sel" duplex MAC_CORE_DUPLEX_TYPE x3 eq_refl ltac:(by eexists) F3) as S3.
  destruct (c3 =? _); cbn [ctrue].
  2:{ change (ctrue BM_FAIL) with true. cbv iota. do 3 eexists. exists y0, z0, 1%nat.
      split_and!; [done | lia | lia | done.. | right; done]. }
  change (ctrue BM_OK) with false. cbv iota. intros w31 _.
  eapply emits_and_then; [apply emits_mac_update |]. cbv beta. intros ? ? (x4 & c4 & F4 & -> & ->).
  pose proof (Hset u_port_mode "port_mode" mode MAC_CORE_PORT_MODE_REG x4 eq_refl ltac:(by eexists) F4) as S4.
  destruct (c4 =? _).
  2:{ change (ctrue BM_FAIL) with true. cbv iota. do 4 eexists. exists z0, 2%nat.
      split_and!; [done | lia | lia | done.. | right; done]. }
  change (ctrue BM_OK) with false. cbv iota. intros w41 _.
  emits_apply emits_mac_update. intros ? ? (x5 & c5 & F5 & -> & ->).
  pose proof (Hset u_mode_change_en "mode_change_en" 1 MAC_CORE_MODE_CHANGE_EN_REG x5 eq_refl ltac:(by eexists) F5) as S5.
  do 5 eexists. exists 3%nat. split_and!; [done | lia | lia | done.. | destruct (c5 =? _); auto].
Qed.
End Mode.

(** ** A concrete call *)
Definition port0_unset : gmac_device := nth 0 (gmac_device_tbl gmac_init_state) board_port0.

Lemma board_ring_room : ring_room 0 board_memory.
Proof.
  split_and!; apply board_mapped; unfold ring_buf, default_mac, RX_BUFFER_DEFAULT_SIZE, MAC_ADDR_LEN; cbn; lia.
Qed.

Lemma net_init_locks_once_witness :
  result (bm_net_init 1 1 0 0 3 fresh_world) = Some BM_OK /\
  wp (bm_net_init (G := mem * gmac) (D := fresh) 1 1 0 0 3) (fun r w' => r = BM_OK ->
    exists i, gmac_device_tbl (hget (S := gmac) (glob w')) !! 0%nat =
      Some (GmacDevice 0 3 [0x94010000; 0x94010640] [0x94000000; 0x94000640] 0 0 1 0 0 0 (Some i))) fresh_world.
Proof.
  split; [vm_compute; reflexivity |].
  pose proof (net_init_locks_once (G := mem * gmac) (D := fresh) 1 1 0 (fresh_lock _ _ ltac:(by left))
    (fresh_lock _ _ ltac:(by right)) ltac:(done) ltac:(done) 0 ltac:(lia) _ _ ltac:(done) ltac:(done) 3 port0_unset 1
    gmac_init_state board_memory eq_refl eq_refl eq_refl eq_refl board_ring_room fresh_world fresh_world_state
    fresh_world_memory) as H.
  eapply wp_mono; [exact H |]. cbv beta. clear H.
  intros r w' (o & i & _ & (_ & _ & _ & d' & Hd & [[-> _] | [-> [k ->]]])); [intros [=] |].
  intros _. exists k. exact Hd.
Defined.
