(* ===== verification/Loader.v ===== *)
(** * Loader: how the cores start (baremetal/loader/loader.c)

    Every core enters [app_startup]; the first one to take the boot word sets
    up the page tables and the message boxes, the others wait for it.  The
    client's [main] and its hook [mcs_peripherals_shutdown] are parameters;
    [main] is not expected to return ([app_startup] ends in an endless loop,
    which the model leaves out).  [gfuel], [mfuel] and [bfuel] bound the polls of the
    interrupt controller, the page table loops and the wait for the boot word.

    [Module Boot] is the protocol of several cores on the boot word. *)
From stdpp Require Import prelude gmap list strings.
From Stdlib Require Import ZArith Lia.
From S2P Require Import Prelude Hw Common Mem Gic Mmu Message Mdio Mcs Fscmem.
Local Open Scope Z_scope.

Definition BOOT_SYNC_USING : Z := 0x5a5a5a5a.
Definition CPU_RELEASE_ADDR_LEN : Z := 0x60.
(** [BM_SHUTDOWN_CMD], as bytes. *)
Definition BM_SHUTDOWN_CMD : list Z := [115; 116; 111; 112].

(** The build: the memory map, the linker's symbols, [HOST_HWI_INIT_CORE], the
    vectors, and whether [MCS_2WIHT2_HI309X] and [CONFIG_SHUTDOWN] are set. *)
Class LoaderConfig := {
  CPU_RELEASE_ADDR : Z; bss_start : Z; bss_end : Z;
  host_hwi_init_core : Z; vector_entry : Z; HI309X_TRIGGER_MAP : Z;
  mcs_2with2 : bool; config_shutdown : bool;
  (** the address of [mcs_shutdown_cb] *)
  mcs_shutdown_ptr : Z;
}.

Record loader := Loader { g_shutdown_flag : Z }.

Section Loader.
Context {G D : Type} `{MD : Machine D}.
Abbreviation M := (M G D).

(** *** Shutting down *)
Section Shutdown.
Context `{HM : !Has G mem} `{HL : !Has G loader} (gfuel : nat).
Context (mcs_peripherals_shutdown : M unit).

Definition get_shutdown_flag : M Z := s ← gets (S := loader); mret (g_shutdown_flag s).

(** [strncmp] of a constant string with [n] characters in memory: 0 or not. *)
Fixpoint strncmp (s : list Z) (addr : Z) (n : nat) : M Z :=
  match n with
  | O => mret 0
  | Datatypes.S n' =>
      b ← ld8 addr;
      match s with
      | [] => mret (0 - b)
      | c :: s' => if negb (c =? b) then mret (c - b) else strncmp s' (addr + 1) n'
      end
  end.

(** [&&] compares the characters only when the length is right. *)
Definition mcs_shutdown_cb (data len : Z) : M Z :=
  same ← (if len =? Z.of_nat (length BM_SHUTDOWN_CMD)
          then r ← strncmp BM_SHUTDOWN_CMD data (Z.to_nat len); mret (r =? 0)
          else mret false);
  (if same : bool then
     modg (S := loader) (fun _ => Loader 1) ;;
     _ ← bm_disable_irq gfuel IPI_INT_NO;
     mcs_peripherals_shutdown
   else mret tt) ;;
  mret BM_OK.
End Shutdown.

(** *** Starting *)
Section Start.
Context `{HM : !Has G mem} `{HU : !Has G mmu} `{HS : !Has G mcs} `{HF : !Has G fsc}.
Context {H A : Type} `{HG : !Has G (gic H A)}.
Context `{MM : MmuMap} `{LY : MsgLayout} `{FL : FscLayout} `{MC : McsConfig} `{OA : !OpenAmp G D} `{LC : LoaderConfig}.
Context (gfuel mfuel bfuel dfuel : nat) (rpmsg_handler_ptr : H) (main : M unit).

Definition boot_wait : M unit :=
  loop bfuel (fun _ : unit =>
    v ← readl CPU_RELEASE_BOOT_SYNC;
    if negb (v =? BOOT_SYNC_READY) then sys_ Dsb ;; sys_ Isb ;; mret (inl tt) else mret (inr tt)) tt.

(** The core that took the boot word, up to the announcement. *)
Definition boot_first : M unit :=
  _ ← bm_disable_mmu;
  _ ← bm_hwi_trigger (H := H) (A := A) IPI_INT_NO HI309X_TRIGGER_MAP;
  _ ← bm_enable_caches mfuel;
  bm_msg_init ;;
  writel_shared BOOT_SYNC_READY CPU_RELEASE_BOOT_SYNC ;;
  sys_ DcacheFlushAll ;;
  sys_ Dsb ;;
  sys_ Isb.

Definition boot_other : M unit := boot_wait ;; _ ← bm_enable_caches mfuel; mret tt.

Definition jump_main : M unit :=
  when mcs_2with2 (
    _ ← mcs_init (H := H) (A := A) gfuel rpmsg_handler_ptr;
    when config_shutdown (_ ← bm_mcs_create_ept (Some ENDPOINT_SHUTDOWN) mcs_shutdown_ptr; mret tt)) ;;
  bm_local_irq_unmask ;;
  main.

Definition bm_loader : M unit :=
  _ ← bm_hwi_init gfuel host_hwi_init_core vector_entry;
  _ ← bm_enable_irq gfuel IPI_INT_NO;
  r ← Mdio.bm_cmp_xchg32bits CPU_RELEASE_BOOT_SYNC BOOT_SYNC_USING 0;
  (if r =? 0 then boot_first else boot_other) ;;
  jump_main.

(** [for (i = 0; i < CPU_RELEASE_ADDR_LEN; i++)]: that many words. *)
Definition clear_release : M unit :=
  for_up (Z.to_nat CPU_RELEASE_ADDR_LEN) 0 (fun i => writel 0 (CPU_RELEASE_ADDR + i * 4)).

Definition app_startup : M unit :=
  fill (Z.to_nat (bss_end - bss_start)) bss_start 0 ;;
  when mcs_2with2 (clear_release ;; udelay dfuel 10000) ;;
  bm_loader.
End Start.
End Loader.

(** ** The cores together

    Each core is somewhere in [app_startup]; a step is one access to the boot
    word, or one of the set-up actions whose order with those accesses
    matters: building the page tables ([bm_enable_caches] builds them unless
    the word says READY or the MMU is on) and clearing the message boxes. *)
Module Boot.
Inductive boot_pc :=
| AtClear      (* before the words are cleared (2-with-2 builds only) *)
| AtTake       (* before bm_cmp_xchg32bits *)
| AtTables     (* took the word; before bm_enable_caches, with the MMU off *)
| AtBoxes      (* before bm_msg_init *)
| AtReady      (* before the word is set to READY *)
| AtWait       (* did not get the word; polling *)
| AtCaches     (* saw READY; before bm_enable_caches *)
| AtMain.      (* past it *)

#[export] Instance pc_eq_dec : EqDecision boot_pc.
Proof. solve_decision. Defined.

Inductive boot_word := Zero | Using | Ready.
#[export] Instance boot_word_eq_dec : EqDecision boot_word.
Proof. solve_decision. Defined.

(** How often the tables were built and the boxes cleared. *)
Record boot := State { word : boot_word; tables : nat; boxes : nat; cores : list boot_pc }.

Definition move (i : nat) (p : boot_pc) (s : boot) : boot := State (word s) (tables s) (boxes s) (<[i := p]> (cores s)).
Definition write (v : boot_word) (s : boot) : boot := State v (tables s) (boxes s) (cores s).
Definition build (s : boot) : boot := State (word s) (S (tables s)) (boxes s) (cores s).
Definition clear_boxes (s : boot) : boot := State (word s) (tables s) (S (boxes s)) (cores s).
(** [bm_enable_caches] with the MMU off. *)
Definition enable_caches (s : boot) : boot := if decide (word s = Ready) then s else build s.

Inductive boot_step : boot -> boot -> Prop :=
| step_clear s i : cores s !! i = Some AtClear -> boot_step s (move i AtTake (write Zero s))
| step_take s i : cores s !! i = Some AtTake -> word s = Zero -> boot_step s (move i AtTables (write Using s))
| step_lose s i : cores s !! i = Some AtTake -> word s <> Zero -> boot_step s (move i AtWait s)
| step_tables s i : cores s !! i = Some AtTables -> boot_step s (move i AtBoxes (enable_caches s))
| step_boxes s i : cores s !! i = Some AtBoxes -> boot_step s (move i AtReady (clear_boxes s))
| step_ready s i : cores s !! i = Some AtReady -> boot_step s (move i AtMain (write Ready s))
| step_spin s i : cores s !! i = Some AtWait -> word s <> Ready -> boot_step s s
| step_seen s i : cores s !! i = Some AtWait -> word s = Ready -> boot_step s (move i AtCaches s)
| step_caches_on s i : cores s !! i = Some AtCaches -> boot_step s (move i AtMain s)
| step_caches_off s i : cores s !! i = Some AtCaches -> boot_step s (move i AtMain (enable_caches s)).

(** Every core has been through the clearing, and none has taken the word. *)
Definition boot_initial (s : boot) : Prop :=
  word s = Zero /\ tables s = O /\ boxes s = O /\ Forall (fun p => p = AtTake) (cores s).

Inductive boot_reachable : boot -> Prop :=
| reach_init s : boot_initial s -> boot_reachable s
| reach_step s s' : boot_reachable s -> boot_step s s' -> boot_reachable s'.
End Boot.
