(* ===== verification/LoaderProps.v ===== *)
(** * LoaderProps: the start of the cores

    The protocol on the boot word for every interleaving of the cores, and
    what one core does in the code: its accesses to the boot word are those of
    the protocol, and it reaches [main] only after the word said READY. *)
From stdpp Require Import prelude gmap list strings relations.
From Stdlib Require Import ZArith Lia.
From S2P Require Import Prelude Hw Common Mem Gic GicProps GicQuiet Mmu MmuProps Message MessageProps Mdio MdioProps Mcs Fscmem Loader.
Local Open Scope Z_scope.

(** ** The protocol *)
Section Protocol.
Import Boot.

(** Between taking the word and announcing. *)
Definition setting_up (p : boot_pc) : Prop := p = AtTables \/ p = AtBoxes \/ p = AtReady.
(** Past the wait. *)
Definition released (p : boot_pc) : Prop := p = AtCaches \/ p = AtMain.

Definition built (p : boot_pc) : nat * nat :=
  match p with AtTables => (0, 0) | AtBoxes => (1, 0) | _ => (1, 1) end%nat.

Definition invariant (s : boot) : Prop :=
  match word s with
  | Zero => tables s = O /\ boxes s = O /\ forall j q, cores s !! j = Some q -> q = AtTake
  | Using => exists i p, cores s !! i = Some p /\ setting_up p /\ (tables s, boxes s) = built p /\
      forall j q, j <> i -> cores s !! j = Some q -> q = AtTake \/ q = AtWait
  | Ready => tables s = 1%nat /\ boxes s = 1%nat /\
      forall j q, cores s !! j = Some q -> q = AtTake \/ q = AtWait \/ released q
  end.

Lemma lookup_move i j (p q : boot_pc) (l : list boot_pc) : <[i := p]> l !! j = Some q ->
  (j = i /\ q = p) \/ (j <> i /\ l !! j = Some q).
Proof.
  destruct (decide (j = i)) as [-> | Hne]; intros H.
  - pose proof (lookup_lt_Some _ _ _ H) as Hl. rewrite length_insert in Hl.
    rewrite list_lookup_insert_eq in H by done. left. by injection H as <-.
  - rewrite list_lookup_insert_ne in H by done. by right.
Qed.

Lemma moved_at i (p q : boot_pc) (l : list boot_pc) : l !! i = Some p -> <[i := q]> l !! i = Some q.
Proof. intros H. apply list_lookup_insert_eq. by eapply lookup_lt_Some. Qed.

(** The core that is setting up is the one the invariant names. *)
Lemma holder_is s i p : invariant s -> cores s !! i = Some p -> setting_up p ->
  word s = Using /\ (tables s, boxes s) = built p /\
  forall j q, j <> i -> cores s !! j = Some q -> q = AtTake \/ q = AtWait.
Proof.
  unfold invariant. intros Hs Hi Hp. destruct (word s).
  - destruct Hs as (_ & _ & H). rewrite (H i p Hi) in Hp. destruct Hp as [? | [? | ?]]; done.
  - destruct Hs as (k & q & Hk & Hq & Hb & H). destruct (decide (i = k)) as [-> | Hne].
    + rewrite Hi in Hk. injection Hk as <-. done.
    + destruct (H i p Hne Hi) as [-> | ->]; destruct Hp as [? | [? | ?]]; done.
  - destruct Hs as (_ & _ & H). destruct (H i p Hi) as [-> | [-> | [-> | ->]]]; destruct Hp as [? | [? | ?]]; done.
Qed.

(** A core that has been released. *)
Lemma released_is s i p : invariant s -> cores s !! i = Some p -> released p ->
  word s = Ready /\ tables s = 1%nat /\ boxes s = 1%nat.
Proof.
  unfold invariant. intros Hs Hi Hp. destruct (word s).
  - destruct Hs as (_ & _ & H). rewrite (H i p Hi) in Hp. by destruct Hp.
  - destruct Hs as (k & q & Hk & Hq & _ & H). destruct (decide (i = k)) as [-> | Hne].
    + rewrite Hi in Hk. injection Hk as <-. destruct Hp as [-> | ->], Hq as [? | [? | ?]]; done.
    + destruct (H i p Hne Hi) as [-> | ->]; by destruct Hp.
  - by destruct Hs as (Ht & Hb & _).
Qed.

(** The core keeps setting up, with what is built. *)
Lemma holder_moves s i p q t b : invariant s -> cores s !! i = Some p -> setting_up p -> setting_up q ->
  (t, b) = built q -> invariant (State (word s) t b (<[i := q]> (cores s))).
Proof.
  intros Hs Hi Hp Hq Hb. destruct (holder_is s i p Hs Hi Hp) as (Hw & _ & Ho).
  unfold invariant. cbn [word tables boxes cores]. rewrite Hw. exists i, q.
  split; [by eapply moved_at |]. split; [done |]. split; [done |].
  intros j r Hj Hl. apply lookup_move in Hl as [[-> _] | [_ Hl]]; [done | by eapply Ho].
Qed.

(** A core leaves the waiting for another place that the state allows. *)
Lemma bystander_moves s i p q : invariant s -> cores s !! i = Some p -> ~ setting_up p -> word s <> Zero ->
  (q = AtWait \/ word s = Ready /\ released q) -> invariant (move i q s).
Proof.
  unfold invariant, move. cbn [word tables boxes cores]. intros Hs Hi Hp Hz Hq. destruct (word s); [done | |].
  - destruct Hq as [-> | [? _]]; [| done]. destruct Hs as (k & r & Hk & Hr & Hb & Ho).
    exists k, r. assert (k <> i) as Hne by (intros ->; congruence).
    split; [by rewrite list_lookup_insert_ne |]. split; [done |]. split; [done |].
    intros j x Hj Hl. apply lookup_move in Hl as [[-> ->] | [_ Hl]]; [by right | by eapply Ho].
  - destruct Hs as (Ht & Hb & Ho). split; [done |]. split; [done |]. intros j x Hl.
    apply lookup_move in Hl as [[_ ->] | [_ Hl]]; [| by eapply Ho]. destruct Hq as [-> | [_ Hq]]; auto.
Qed.

Lemma step_invariant s s' : invariant s -> boot_step s s' -> invariant s'.
Proof.
  intros Hs Hstep. destruct Hstep as [s i Hi | s i Hi Hw | s i Hi Hw | s i Hi | s i Hi | s i Hi | s i Hi Hw
    | s i Hi Hw | s i Hi | s i Hi].
  - exfalso. unfold invariant in Hs. destruct (word s).
    + destruct Hs as (_ & _ & H). by pose proof (H i _ Hi).
    + destruct Hs as (k & q & Hk & Hq & _ & H). destruct (decide (i = k)) as [-> | Hne].
      * rewrite Hi in Hk. injection Hk as <-. destruct Hq as [? | [? | ?]]; done.
      * by destruct (H i _ Hne Hi).
    + destruct Hs as (_ & _ & H). destruct (H i _ Hi) as [? | [? | [? | ?]]]; done.
  - unfold invariant in *. rewrite Hw in Hs. destruct Hs as (Ht & Hb & H).
    cbn [word tables boxes cores move write]. exists i, AtTables. split; [by eapply moved_at |].
    split; [by left |]. split; [by rewrite Ht, Hb |]. intros j q Hj Hl.
    apply lookup_move in Hl as [[-> _] | [_ Hl]]; [done |]. left. by eapply H.
  - eapply bystander_moves; [done | done | by intros [? | [? | ?]] | done | by left].
  - destruct (holder_is s i _ Hs Hi) as (Hw & Hb & _); [by left |]. unfold enable_caches. rewrite decide_False by (by rewrite Hw).
    apply (holder_moves s i AtTables); [done | done | by left | by right; left |].
    cbn [built] in *. cbn [build tables boxes]. injection Hb as Ht Hb. by rewrite Ht, Hb.
  - destruct (holder_is s i _ Hs Hi) as (_ & Hb & _); [by right; left |].
    apply (holder_moves s i AtBoxes); [done | done | by right; left | by right; right |].
    cbn [built] in *. cbn [clear_boxes tables boxes]. injection Hb as Ht Hb. by rewrite Ht, Hb.
  - destruct (holder_is s i _ Hs Hi) as (_ & Hb & Ho); [by right; right |]. cbn [built] in Hb. injection Hb as Ht Hb.
    unfold invariant. cbn [word tables boxes cores move write]. split; [done |]. split; [done |].
    intros j q Hl. apply lookup_move in Hl as [[_ ->] | [Hj Hl]]; [by right; right; right |].
    destruct (Ho j q Hj Hl); auto.
  - done.
  - eapply bystander_moves; [done | done | by intros [? | [? | ?]] | by rewrite Hw | right]. split; [done | by left].
  - destruct (released_is s i _ Hs Hi) as (Hw & _); [by left |].
    eapply bystander_moves; [done | done | by intros [? | [? | ?]] | by rewrite Hw | right]. split; [done | by right].
  - destruct (released_is s i _ Hs Hi) as (Hw & _); [by left |]. unfold enable_caches. rewrite decide_True by done.
    eapply bystander_moves; [done | done | by intros [? | [? | ?]] | by rewrite Hw | right]. split; [done | by right].
Qed.

Lemma boot_reachable_invariant s : boot_reachable s -> invariant s.
Proof.
  induction 1 as [s (Hw & Ht & Hb & Hc) | s s' _ IH Hstep]; [| by eapply step_invariant].
  unfold invariant. rewrite Hw. rewrite Forall_lookup in Hc. eauto.
Qed.

(** C27: for any number of cores and any interleaving, at most one core is
    setting up at a time and the set-up happens once: the page tables and the
    message boxes are built at most once, and both are built, and the word
    says READY, before any core gets past the wait, and so before any core
    but the first switches on its caches or any core enters [main]. *)
Theorem boot_sets_up_once s : boot_reachable s ->
  (tables s <= 1 /\ boxes s <= 1)%nat /\
  (forall i j p q, cores s !! i = Some p -> cores s !! j = Some q -> setting_up p -> setting_up q -> i = j) /\
  (forall i p, cores s !! i = Some p -> released p -> word s = Ready /\ tables s = 1%nat /\ boxes s = 1%nat).
Proof.
  intros Hr. pose proof (boot_reachable_invariant s Hr) as Hs. split; [| split].
  - unfold invariant in Hs. destruct (word s); [lia | | lia]. destruct Hs as (i & p & _ & Hp & Hb & _).
    destruct Hp as [-> | [-> | ->]]; injection Hb as -> ->; lia.
  - intros i j p q Hi Hj Hp Hq. destruct (holder_is s i p Hs Hi Hp) as (_ & _ & Ho).
    destruct (decide (j = i)) as [| Hne]; [done |].
    destruct (Ho j q Hne Hj) as [-> | ->]; destruct Hq as [? | [? | ?]]; done.
  - intros i p Hi Hp. by eapply released_is.
Qed.

(** *** Every start completes *)
Definition steps_left (p : boot_pc) : nat :=
  match p with
  | AtClear => 5 | AtTake => 4 | AtTables => 3 | AtBoxes => 2 | AtReady => 1
  | AtWait => 2 | AtCaches => 1 | AtMain => 0
  end.
Definition rank (s : boot) : nat := sum_list_with steps_left (cores s).

Lemma rank_move i (p q : boot_pc) (l : list boot_pc) : l !! i = Some p -> (steps_left q < steps_left p)%nat ->
  (sum_list_with steps_left (<[i := q]> l) < sum_list_with steps_left l)%nat.
Proof.
  revert i. induction l as [| x l IH]; intros i Hi Hq; [done |]. destruct i as [| i].
  - injection Hi as ->. simpl. lia.
  - specialize (IH i Hi Hq). simpl. lia.
Qed.

(** A step either polls the word in vain or brings some core nearer to [main]. *)
Lemma step_rank s s' : boot_step s s' -> s' = s \/ (rank s' < rank s)%nat.
Proof.
  assert (forall t i p q, cores t = cores s -> cores s !! i = Some p -> (steps_left q < steps_left p)%nat ->
    (rank (move i q t) < rank s)%nat) as Hm.
  { intros t i p q Ht Hi Hq. unfold rank, move. cbn [cores]. rewrite Ht. by eapply rank_move. }
  assert (cores (enable_caches s) = cores s) as He by (unfold enable_caches; by case_decide).
  destruct 1; [right.. | by left | right | right | right]; (eapply Hm; [| eassumption |]; [done || exact He | cbn; lia]).
Qed.

Lemma rank_zero s : rank s = O -> forall i p, cores s !! i = Some p -> p = AtMain.
Proof.
  unfold rank. generalize (cores s) as l. induction l as [| x l IH]; cbn; [done |]. intros Hr [| i] p Hi.
  - injection Hi as <-. destruct x; cbn in Hr; (lia || done).
  - apply (IH ltac:(lia) i p Hi).
Qed.

(** Somebody can always move: the word is never USING without a core that will
    set it to READY. *)
Lemma step_exists s i p : invariant s -> cores s !! i = Some p -> p <> AtMain ->
  exists s', boot_step s s' /\ (rank s' < rank s)%nat.
Proof.
  intros Hs Hi Hp.
  assert (forall s', boot_step s s' -> s' <> s -> exists s', boot_step s s' /\ (rank s' < rank s)%nat) as Hgo.
  { intros s' Hst Hne. destruct (step_rank s s' Hst) as [? | ?]; [done | by exists s']. }
  assert (forall t j x y, cores t = cores s -> cores s !! j = Some x -> y <> x -> move j y t <> s) as Hmoved.
  { intros t j x y Ht Hj Hne E. assert (cores (move j y t) !! j = Some y) as Hl by (cbn; rewrite Ht; by eapply moved_at).
    rewrite E, Hj in Hl. by injection Hl as ->. }
  assert (forall j x, cores s !! j = Some x -> setting_up x -> exists s', boot_step s s' /\ (rank s' < rank s)%nat) as Hup.
  { intros j x Hj [-> | [-> | ->]].
    - eapply Hgo; [by eapply step_tables | eapply Hmoved; [| exact Hj | done]].
      unfold enable_caches. by case_decide.
    - eapply Hgo; [by eapply step_boxes | by eapply Hmoved].
    - eapply Hgo; [by eapply step_ready | by eapply Hmoved]. }
  destruct p; try done.
  - eapply Hgo; [by eapply step_clear | by eapply Hmoved].
  - destruct (decide (word s = Zero)); eapply Hgo; [by eapply step_take | by eapply Hmoved | by eapply step_lose | by eapply Hmoved].
  - eapply Hup; [exact Hi | by left].
  - eapply Hup; [exact Hi | by right; left].
  - eapply Hup; [exact Hi | by right; right].
  - pose proof Hs as Hs'. unfold invariant in Hs'. destruct (word s) eqn:Hw.
    + destruct Hs' as (_ & _ & H). by pose proof (H i _ Hi).
    + destruct Hs' as (k & q & Hk & Hq & _). by eapply Hup.
    + eapply Hgo; [by eapply step_seen | by eapply Hmoved].
  - eapply Hgo; [by eapply step_caches_on | by eapply Hmoved].
Qed.

(** C28: no start gets stuck.  Every step is a poll that found the word not yet
    READY or brings a core nearer to [main], and from every reachable state
    all the cores can get there; if there is a core, the set-up has then been
    done exactly once. *)
Theorem boot_completes s : boot_reachable s ->
  (forall s', boot_step s s' -> s' = s \/ (rank s' < rank s)%nat) /\
  exists s', rtc boot_step s s' /\ (forall i p, cores s' !! i = Some p -> p = AtMain) /\
    (cores s' <> [] -> word s' = Ready /\ tables s' = 1%nat /\ boxes s' = 1%nat).
Proof.
  intros Hr. split; [intros s'; apply step_rank |].
  apply boot_reachable_invariant in Hr. remember (rank s) as n eqn:Hn. revert s Hr Hn.
  induction (lt_wf n) as [n _ IH]. intros s Hs ->.
  destruct (decide (Forall (fun p => p = AtMain) (cores s))) as [Hall | Hsome].
  - exists s. split; [done |]. rewrite Forall_lookup in Hall. split; [done |]. intros Hne.
    destruct (cores s) as [| p l] eqn:E; [done |].
    eapply (released_is s 0 p Hs); [by rewrite E | right; by apply (Hall 0%nat)].
  - apply not_Forall_Exists in Hsome; [| apply _]. apply Exists_exists in Hsome as (p & Hp & Hne).
    apply list_elem_of_lookup in Hp as [i Hi]. destruct (step_exists s i p Hs Hi Hne) as (s1 & Hst & Hlt).
    destruct (IH (rank s1) Hlt s1) as (s' & Hrtc & H); [by eapply step_invariant | done |].
    exists s'. split; [by eapply rtc_l | done].
Qed.

(** a core that arrives late starts the machine again.  In the 2-with-2
    build every core clears the boot word on its way in; one that does so
    after another is already in [main] then takes the word, builds the page
    tables under the running core and clears the message boxes, with no core
    ever in violation of the steps. *)
Theorem boot_late_core :
  exists s, rtc boot_step (State Zero 0 0 [AtClear; AtClear]) s /\
    cores s = [AtMain; AtMain] /\ tables s = 2%nat /\ boxes s = 2%nat.
Proof.
  eexists. split; [| split; [| split]].
  - eapply rtc_l; [by apply (step_clear _ 0) |]. eapply rtc_l; [by apply (step_take _ 0) |].
    eapply rtc_l; [by apply (step_tables _ 0) |]. eapply rtc_l; [by apply (step_boxes _ 0) |].
    eapply rtc_l; [by apply (step_ready _ 0) |]. eapply rtc_l; [by apply (step_clear _ 1) |].
    eapply rtc_l; [by apply (step_take _ 1) |]. eapply rtc_l; [by apply (step_tables _ 1) |].
    eapply rtc_l; [by apply (step_boxes _ 1) |]. eapply rtc_l; [by apply (step_ready _ 1) |].
    apply rtc_refl.
  - reflexivity.
  - reflexivity.
  - reflexivity.
Qed.

(** Two cores, the first of which has announced. *)
Lemma two_started : boot_reachable (State Ready 1 1 [AtMain; AtTake]).
Proof.
  assert (boot_reachable (State Zero 0 0 [AtTake; AtTake])) as H by (apply reach_init; split_and!; by repeat constructor).
  eapply reach_step in H; [| by apply (step_take _ 0)]. eapply reach_step in H; [| by apply (step_tables _ 0)].
  eapply reach_step in H; [| by apply (step_boxes _ 0)]. exact (reach_step _ _ H (step_ready (State Using 1 1 [AtReady; AtTake]) 0 eq_refl)).
Qed.

Lemma boot_sets_up_once_witness : word (State Ready 1 1 [AtMain; AtTake]) = Ready.
Proof. apply (boot_sets_up_once _ two_started) with (i := 0%nat) (p := AtMain); [done | by right]. Defined.

Lemma boot_completes_witness : exists s', rtc boot_step (State Ready 1 1 [AtMain; AtTake]) s' /\
  forall i p, cores s' !! i = Some p -> p = AtMain.
Proof. destruct (boot_completes _ two_started) as [_ (s' & Hs & H & _)]. by exists s'. Defined.
End Protocol.

(** ** One core, in the code *)

(** The accesses to one address, and what byte memory holds at the stores that
    are for other cores. *)
Definition at_addr (a : Z) (e : event) : Prop :=
  match e with Rd b _ | Wr b _ => b = a | Sy _ _ => False | Seen _ => True end.
#[export] Instance at_addr_dec a e : Decision (at_addr a e).
Proof. destruct e; cbn; apply _. Defined.
Definition accesses (a : Z) (t : list event) : list event := filter (at_addr a) t.
Definition away (a : Z) (e : event) : Prop := ~ at_addr a e.

Lemma accesses_away a t : Forall (away a) t -> accesses a t = [].
Proof.
  induction 1 as [| e t He _ IH]; [done |]. unfold accesses in *. by rewrite filter_cons_False.
Qed.

Lemma away_allows_gic a : a < GIC_REG_BASE_ADDR \/ GIC_REG_BASE_ADDR + 0x3000000 <= a -> AllowsGic (away a).
Proof. intros Ha. split; intros; unfold away, at_addr; lia || tauto. Qed.

Section Hears.
Context {G D : Type} `{MD : Machine D} `{HM : !Has G mem}.
Context (a : Z).
Implicit Types (w : world G D).

(** [hears m w P]: [m] ends without a fault, and [P] holds of its result, the
    final state, and the accesses made to [a]. *)
Definition hears {A} (m : M G D A) w (P : A -> world G D -> list event -> Prop) : Prop :=
  wp m (fun r w' => exists t, tr w' = tr w ++ t /\ P r w' (accesses a t)) w.

Lemma hears_ret {A} (r : A) w (P : A -> world G D -> list event -> Prop) : P r w [] -> hears (mret r) w P.
Proof. intros HP. apply wp_ret. exists []. by rewrite app_nil_r. Qed.

Lemma hears_mono {A} (m : M G D A) w (P Q : A -> world G D -> list event -> Prop) :
  hears m w P -> (forall r w' o, P r w' o -> Q r w' o) -> hears m w Q.
Proof. intros Hm HPQ. eapply wp_mono; [exact Hm |]. cbv beta. intros r w' (t & Ht & HP). eauto. Qed.

Lemma hears_bind {A B} (m : M G D A) (f : A -> M G D B) w (P : B -> world G D -> list event -> Prop) :
  hears m w (fun r w1 o1 => hears (f r) w1 (fun s w2 o2 => P s w2 (o1 ++ o2))) -> hears (m ≫= f) w P.
Proof.
  intros Hm. apply wp_bind. eapply wp_mono; [exact Hm |]. cbv beta. intros r w1 (t1 & Ht1 & H1).
  eapply wp_mono; [exact H1 |]. cbv beta. intros s w2 (t2 & Ht2 & H2). exists (t1 ++ t2).
  unfold accesses in *. rewrite filter_app. split; [by rewrite Ht2, Ht1, app_assoc | done].
Qed.

Lemma hears_quiet {A} (m : M G D A) w (P : A -> world G D -> list event -> Prop) :
  quiet mem (away a) m -> (forall r w', memof w' = memof w -> P r w' []) -> hears m w P.
Proof.
  intros Hm HP. eapply wp_mono; [apply Hm |]. cbv beta. intros r w' (Hg & t & Ht & Ha).
  exists t. split; [done |]. rewrite accesses_away by done. by apply HP.
Qed.

Lemma hears_readl w (P : Z -> world G D -> list event -> Prop) :
  (forall v d, fits 32 v -> P v (World (glob w) d (tr w ++ [Rd a v])) [Rd a v]) -> hears (readl a) w P.
Proof.
  intros HP. apply wp_readl. intros v d Hv. exists [Rd a v]. split; [done |]. unfold accesses.
  rewrite filter_cons_True by done. by apply HP.
Qed.

Lemma hears_writel v w (P : unit -> world G D -> list event -> Prop) :
  (forall d, P tt (World (glob w) d (tr w ++ [Wr a (u32 v)])) [Wr a (u32 v)]) -> hears (writel v a) w P.
Proof.
  intros HP. apply wp_writel. intros d. exists [Wr a (u32 v)]. split; [done |]. unfold accesses.
  rewrite filter_cons_True by done. by apply HP.
Qed.

Lemma hears_writel_shared v w (P : unit -> world G D -> list event -> Prop) :
  (forall w', memof w' = memof w -> P tt w' [Seen (memof w); Wr a (u32 v)]) -> hears (writel_shared v a) w P.
Proof.
  intros HP. apply wp_writel_shared. intros d. exists [Seen (memof w); Wr a (u32 v)]. split; [done |].
  unfold accesses. rewrite !filter_cons_True by done. by apply HP.
Qed.

(** An operation on memory alone. *)
Lemma hears_mem {A} (m : M G D A) w (P : A -> world G D -> list event -> Prop) :
  wp m (fun r w' => tr w' = tr w /\ P r w' []) w -> hears m w P.
Proof.
  intros Hm. eapply wp_mono; [exact Hm |]. cbv beta. intros r w' [Ht HP]. exists [].
  by rewrite Ht, app_nil_r.
Qed.

(** What was heard since an earlier state. *)
Definition heard w0 w o : Prop := exists t, tr w = tr w0 ++ t /\ accesses a t = o.

Lemma heard_nothing w : heard w w [].
Proof. exists []. by rewrite app_nil_r. Qed.

Lemma heard_bind {A B} w0 o (m : M G D A) (f : A -> M G D B) w P Q : heard w0 w o -> hears m w P ->
  (forall r w' o', P r w' o' -> heard w0 w' (o ++ o') -> wp (f r) Q w') -> wp (m ≫= f) Q w.
Proof.
  intros (t0 & Ht0 & <-) Hm Hf. apply wp_bind. eapply wp_mono; [exact Hm |]. cbv beta. intros r w' (t & Ht & HP).
  apply (Hf r w' (accesses a t) HP). exists (t0 ++ t). unfold accesses. rewrite filter_app. split; [by rewrite Ht, Ht0, app_assoc | done].
Qed.

Lemma heard_quiet {A B} w0 o (m : M G D A) (f : A -> M G D B) w Q : heard w0 w o -> quiet mem (away a) m ->
  (forall r w', memof w' = memof w -> heard w0 w' o -> wp (f r) Q w') -> wp (m ≫= f) Q w.
Proof.
  intros Ho Hm Hf. eapply heard_bind; [exact Ho | |].
  - apply hears_quiet; [exact Hm |]. intros r w' Hw. exact (conj Hw eq_refl : (fun r w' o => memof w' = memof w /\ o = []) r w' []).
  - cbv beta. intros r w' ? [Hw ->]. rewrite app_nil_r. by apply Hf.
Qed.
End Hears.

Section Code.
Context {G D : Type} `{MD : Machine D} `{HM : !Has G mem} `{HU : !Has G mmu} `{HS : !Has G mcs} `{HF : !Has G fsc}.
Context {H A : Type} `{HG : !Has G (gic H A)} `{IN : !Indep G mmu mem}.
Context `{MM : MmuMap} `{LY : MsgLayout} `{FL : FscLayout} `{MC : McsConfig} `{OA : !OpenAmp G D} `{LC : LoaderConfig}.
Context (gfuel mfuel bfuel : nat) (handler : H) (main : M G D unit).
Context `{GQ : !GicQuiesces D gfuel} `{GW : !GicWakes D gfuel}.
Implicit Types (w : world G D) (m : mem).
Abbreviation B := CPU_RELEASE_BOOT_SYNC.
Abbreviation page_len := (MMU_PAGE_END - MMU_PAGE_BEGIN).
Abbreviation area_end := (SHARE_MSG_BASE_ADDR + msg_area_len).

(** The memory map: the boot word is no register of the interrupt controller
    nor one of the other release words, the page area has room for the tables
    of [n] GiB, and the messages lie outside it. *)
Record boot_layout (n : Z) : Prop := {
  bl_gic : B < GIC_REG_BASE_ADDR \/ GIC_REG_BASE_ADDR + 0x3000000 <= B;
  bl_words : CPU_RELEASE_MMU_PAGE <> B /\ CPU_RELEASE_MMU_TCR <> B;
  bl_ready : fits 32 BOOT_SYNC_READY;
  bl_page : 0 < MMU_PAGE_BEGIN /\ MMU_PAGE_BEGIN mod 2 ^ 12 = 0 /\ MMU_PAGE_END <= 2 ^ 48;
  bl_room : 0 <= n <= 512 /\ 2 ^ 12 * (1 + n) <= page_len;
  bl_max : mmu_max_addr g_mem_map_info <= 2 ^ 36;
  bl_regions : Forall (block_region n) g_mem_map_info;
  bl_fuel : Forall (fun r => (Z.to_nat (blocks r) < mfuel)%nat) g_mem_map_info;
  bl_apart : MMU_PAGE_END <= SHARE_MSG_BASE_ADDR \/ area_end <= MMU_PAGE_BEGIN;
}.
Definition boot_memory m : Prop :=
  mapped m MMU_PAGE_BEGIN page_len /\ mapped m SHARE_MSG_BASE_ADDR msg_area_len.

(** Once some core has taken the word, it says READY within [bfuel] polls. *)
Definition announced : Prop := forall d, u32 (fst (m_load B d)) <> 0 ->
  exists k, (k < bfuel)%nat /\ u32 (fst (m_load B (after_tries B [Dsb; Isb] k (snd (m_load B d))))) = BOOT_SYNC_READY.

Definition tables_built m : Prop :=
  forall va, 0 <= va < 2 ^ 39 -> translate m MMU_PAGE_BEGIN va = map_translate g_mem_map_info va.
Definition boxes_free m : Prop :=
  (forall id, 0 <= id < 5 -> m32 m (msg_base id) = Some FREE) /\
  (forall c, 0 <= c < 4 -> m32 m (SHARE_MSG_BASE_ADDR + 4 * c) = Some 0).

(** Switching on the caches looks at the word at most once, and builds the
    tables when it does not say READY. *)
Definition caches_on m m' (o : list event) : Prop :=
  o = [] /\ m' = m \/
  o = [Rd B BOOT_SYNC_READY] /\ m' = m \/
  exists v, v <> BOOT_SYNC_READY /\ o = [Rd B v] /\ tables_built m' /\
    forall a, a < MMU_PAGE_BEGIN \/ MMU_PAGE_END <= a -> m' !! a = m !! a.

Context (n : Z) (HL : boot_layout n).

#[local] Instance boot_allows_gic : AllowsGic (away B).
Proof. apply away_allows_gic, (bl_gic n HL). Qed.

Lemma away_sys op v : away B (Sy op v).
Proof. by intros []. Qed.

Lemma quiet_boot_sys op : quiet (G := G) (D := D) mem (away B) (sys_ op).
Proof. apply quiet_sys_. intros v. apply away_sys. Qed.

(** A step that does not touch the word. *)
Ltac hears_past :=
  apply hears_bind, hears_quiet; [solve [quiet_steps; try apply away_sys; try (apply (bl_words n HL))] | intros ?r ?w ?Hw; cbn [app]].

(** The part of [bm_enable_caches] behind the tables. *)
Abbreviation switch_on :=
  (table ← readl CPU_RELEASE_MMU_PAGE; tcr ← readl CPU_RELEASE_MMU_TCR;
   bm_mmu_set_ttbr_tcr_mair table tcr MEMORY_ATTRIBUTES ;;
   sys_ DcacheInvAll ;; sys_ IcacheInvAll ;; sys_ TlbInvAll ;;
   sctlr ← bm_get_sctlr; bm_set_sctlr (Z.lor sctlr (Z.lor CR_C (Z.lor CR_M CR_I))) ;; mret BM_OK).

Lemma switch_on_hears w (P : Z -> world G D -> list event -> Prop) :
  (forall w', memof w' = memof w -> P BM_OK w' []) -> hears B switch_on w P.
Proof.
  intros HP. unfold bm_mmu_set_ttbr_tcr_mair, bm_get_sctlr, bm_set_sctlr.
  do 8 hears_past. apply hears_ret, HP. congruence.
Qed.

Lemma setup_hears w : mapped (memof w) MMU_PAGE_BEGIN page_len ->
  hears B (bm_mmu_init mfuel) w (fun r w' o => r = BM_OK /\ o = [] /\ tables_built (memof w') /\
    forall a, a < MMU_PAGE_BEGIN \/ MMU_PAGE_END <= a -> memof w' !! a = memof w !! a).
Proof.
  intros Hm. destruct (bl_words n HL) as [H1 H2], (bl_page n HL) as (P1 & P2 & P3), (bl_room n HL) as (R1 & R2).
  unfold bm_mmu_init, bm_mmu_setup. cbv zeta. apply hears_bind.
  apply hears_quiet; [by apply quiet_writel |]. intros [] w1 Hw1. unfold hears. cbn [app].
  eapply wp_mono; [apply (setup_pgtables_spec mfuel g_mem_map_info MMU_PAGE_BEGIN page_len n) |];
    [done | done | lia | done | done | by rewrite Hw1 | apply HL | apply HL | apply HL |].
  cbv beta. intros r w2 (-> & Ht & Ho & Htr). eexists. split; [exact Htr |].
  rewrite accesses_away by (by repeat constructor). split; [done |]. split; [done |]. split; [done |].
  intros a Ha. rewrite Ho, Hw1; [done | lia].
Qed.

Lemma enable_caches_hears w : mapped (memof w) MMU_PAGE_BEGIN page_len ->
  hears B (bm_enable_caches mfuel) w (fun r w' o => r = BM_OK /\ caches_on (memof w) (memof w') o).
Proof.
  intros Hm. unfold bm_enable_caches, bm_get_sctlr. hears_past.
  destruct (Z.land r CR_M =? 0).
  - apply hears_bind, hears_bind, hears_readl. intros v d Hv. apply hears_ret. cbn [app].
    destruct (Z.eqb_spec v BOOT_SYNC_READY) as [-> | Hne]; cbn [negb].
    + apply hears_bind, hears_ret. change (ctrue BM_OK) with false. cbv iota. apply switch_on_hears.
      intros w2 Hw2. split; [done |]. right. left. split; [done |]. by rewrite Hw2.
    + apply hears_bind. eapply hears_mono; [apply setup_hears; cbn [glob]; by rewrite Hw |]. cbv beta. cbn [glob].
      intros r2 w2 o (-> & -> & Ht & Ho). change (ctrue BM_OK) with false. cbv iota. apply switch_on_hears.
      intros w3 Hw3. split; [done |]. right. right. exists v. rewrite Hw3. rewrite Hw in Ho. done.
  - apply hears_bind, hears_ret. apply hears_bind, hears_ret. change (ctrue BM_OK) with false. cbv iota.
    apply switch_on_hears. intros w2 Hw2. split; [done |]. left. split; [done | congruence].
Qed.

(** Waiting: looks at the word until one says READY. *)
Lemma wait_hears fuel w : (exists k : nat, (k < fuel)%nat /\
    u32 (fst (m_load B (after_tries B [Dsb; Isb] k (dev w)))) = BOOT_SYNC_READY) ->
  hears B (boot_wait fuel) w (fun _ w' o => memof w' = memof w /\ exists looks,
    o = ((fun v => Rd B v) <$> looks) ++ [Rd B BOOT_SYNC_READY] /\ Forall (fun v => v <> BOOT_SYNC_READY) looks).
Proof.
  intros (k & Hk & Hr). unfold boot_wait. revert k w Hk Hr. induction fuel as [| fuel IH]; intros k w Hk Hr; [lia |].
  rewrite loop_S. apply hears_bind, hears_bind.
  unfold hears at 1, wp at 1, readl. destruct (m_load B (dev w)) as [v0 d0] eqn:E.
  exists [Rd B (u32 v0)]. split; [done |]. unfold accesses at 1. rewrite filter_cons_True by done. cbn [filter list_filter].
  destruct (Z.eqb_spec (u32 v0) BOOT_SYNC_READY) as [Ev | Hne]; cbn [negb].
  - rewrite Ev. apply hears_ret, hears_ret. split; [done |]. by exists [].
  - destruct k as [| k]; [cbn in Hr; rewrite E in Hr; done |].
    cbn in Hr. rewrite E in Hr. cbn in Hr.
    apply hears_bind. unfold hears at 1, wp at 1. rewrite sys_runs. eexists. split; [done |].
    rewrite accesses_away by (repeat constructor; apply away_sys).
    apply hears_bind. unfold hears at 1, wp at 1. rewrite sys_runs. eexists. split; [done |].
    rewrite accesses_away by (repeat constructor; apply away_sys).
    apply hears_ret. cbn [app]. eapply hears_mono; [apply (IH k); [lia | exact Hr] |]. cbv beta. cbn [glob].
    intros _ w' o (Hm & looks & -> & Hl). split; [done |]. exists (u32 v0 :: looks). split; [done |]. by constructor.
Qed.

(** What a core does to the boot word before [main], and with which effect on
    the memory: the one that finds it 0 takes it, switches the caches on,
    clears the boxes and, with all that in memory, says READY; another one
    looks until it says READY. *)
Inductive follows m : mem -> list event -> Prop :=
| follows_first peek mt m' : caches_on m mt peek -> boxes_free m' ->
    (forall a, a < SHARE_MSG_BASE_ADDR \/ area_end <= a -> m' !! a = mt !! a) ->
    follows m m' (Rd B 0 :: Wr B BOOT_SYNC_USING :: peek ++ [Seen m'; Wr B BOOT_SYNC_READY])
| follows_other x looks peek m' : x <> 0 -> Forall (fun v => v <> BOOT_SYNC_READY) looks -> caches_on m m' peek ->
    follows m m' (Rd B x :: ((fun v => Rd B v) <$> looks) ++ Rd B BOOT_SYNC_READY :: peek).

Lemma caches_on_mapped m m' o : boot_memory m -> caches_on m m' o -> mapped m' SHARE_MSG_BASE_ADDR msg_area_len.
Proof.
  intros [_ Hm] [(_ & ->) | [(_ & ->) | (v & _ & _ & _ & Ho)]]; [done | done |].
  intros a Ha. rewrite Ho; [by apply Hm |]. pose proof (bl_apart n HL). lia.
Qed.

Lemma boot_first_hears w : boot_memory (memof w) ->
  hears B (boot_first (H := H) (A := A) mfuel) w (fun _ w' o => exists peek mt,
    o = peek ++ [Seen (memof w'); Wr B BOOT_SYNC_READY] /\
    caches_on (memof w) mt peek /\ boxes_free (memof w') /\
    forall a, a < SHARE_MSG_BASE_ADDR \/ area_end <= a -> memof w' !! a = mt !! a).
Proof.
  intros Hm. pose proof Hm as [Hp _]. unfold boot_first, bm_disable_mmu, mmu_switch_off, bm_get_sctlr, bm_set_sctlr.
  hears_past. apply hears_bind, hears_quiet; [apply (quiet_trigger (away B)); split; discriminate | intros ? w2 Hw2; cbn [app]].
  apply hears_bind. eapply hears_mono; [apply enable_caches_hears; by rewrite Hw2, Hw |]. cbv beta. intros ? w3 peek (_ & Hc).
  rewrite Hw2, Hw in Hc.
  apply hears_bind, hears_mem. eapply wp_mono; [apply wp_msg_init; by eapply caches_on_mapped |]. cbv beta.
  intros [] w4 (m4 & -> & Hb & Ht & Ho). split; [done |].
  apply hears_bind, hears_writel_shared. intros w5 Hw5. rewrite memof_setm in *. do 2 hears_past.
  eapply hears_quiet; [apply quiet_boot_sys |]. intros [] w7 Hw7. exists peek, (memof w3).
  rewrite Hw7, Hw1, Hw0, Hw5. cbn [app]. split_and!; try done.
  by rewrite (wrap_id 32) by apply (bl_ready n HL).
Qed.

Lemma boot_other_hears w : boot_memory (memof w) -> (exists k : nat, (k < bfuel)%nat /\
    u32 (fst (m_load B (after_tries B [Dsb; Isb] k (dev w)))) = BOOT_SYNC_READY) ->
  hears B (boot_other mfuel bfuel) w (fun _ w' o => exists looks peek,
    o = ((fun v => Rd B v) <$> looks) ++ Rd B BOOT_SYNC_READY :: peek /\
    Forall (fun v => v <> BOOT_SYNC_READY) looks /\ caches_on (memof w) (memof w') peek).
Proof.
  intros [Hp _] Hk. unfold boot_other. apply hears_bind. eapply hears_mono; [by apply wait_hears |]. cbv beta.
  intros [] w1 ? (Hw1 & looks & -> & Hl). apply hears_bind. eapply hears_mono; [apply enable_caches_hears; by rewrite Hw1 |].
  cbv beta. intros r w2 peek (_ & Hc). rewrite Hw1 in Hc. apply hears_ret. exists looks, peek.
  by rewrite app_nil_r, <- app_assoc.
Qed.

(** The exclusive exchange of the boot word. *)
Lemma take_hears w : hears B (Mdio.bm_cmp_xchg32bits B BOOT_SYNC_USING 0) w (fun r w' o => memof w' = memof w /\
  (r = 0 /\ o = [Rd B 0; Wr B BOOT_SYNC_USING] \/
   r = 1 /\ exists d, dev w' = snd (m_load B d) /\ u32 (fst (m_load B d)) <> 0 /\ o = [Rd B (u32 (fst (m_load B d)))])).
Proof.
  unfold Mdio.bm_cmp_xchg32bits, hears. apply wp_bind. unfold wp at 1, readl.
  destruct (m_load B (dev w)) as [v0 d0] eqn:E. destruct (Z.eqb_spec (u32 v0) 0) as [-> | Hne].
  - apply wp_bind, wp_writel. intros d. apply wp_ret. cbn [glob tr]. exists [Rd B 0; Wr B (u32 BOOT_SYNC_USING)].
    rewrite <- app_assoc. split; [done |]. split; [done |]. left. unfold accesses. by rewrite !filter_cons_True by done.
  - apply wp_ret. exists [Rd B (u32 v0)]. split; [done |]. split; [done |]. right. split; [done |]. exists (dev w).
    rewrite E. unfold accesses. by rewrite !filter_cons_True by done.
Qed.

(** C29: a core follows the protocol on the boot word.  With the memory map as
    required, memory behind the page and message areas, and a boot word that
    turns READY within [bfuel] looks once it is not 0, [bm_loader] reaches
    [jump_main] (the switching on of the IPI and the results of the steps do
    not matter to it), and up to there its accesses to the word are: one look
    and, if that finds 0, the store of USING, then the page tables (built
    unless the word already says READY or the MMU is still on), then the
    message boxes free and no trigger pending, then the store of READY, and
    nothing after it; otherwise looks until READY, before it switches its own
    caches on.  At the moment of the store of READY memory holds what it holds
    in the end: the boxes free, and outside the messages what the switching on
    of the caches left, the tables it built included.  (In program order; what
    another core sees of it before its caches are on is up to the hardware.) *)
Theorem loader_follows_protocol (Q : unit -> world G D -> Prop) w : boot_memory (memof w) -> announced ->
  (forall w1 t, tr w1 = tr w ++ t -> follows (memof w) (memof w1) (accesses B t) ->
    wp (jump_main (H := H) (A := A) gfuel handler main) Q w1) ->
  wp (bm_loader (H := H) (A := A) gfuel mfuel bfuel handler main) Q w.
Proof.
  intros Hm Hann HQ.
  assert (forall w1 o, heard B w w1 o -> follows (memof w) (memof w1) o ->
    wp (jump_main (H := H) (A := A) gfuel handler main) Q w1) as Hmain.
  { intros w1 o (t & Ht & <-). by apply HQ. }
  unfold bm_loader. pose proof Hm as [Hp _].
  eapply (heard_quiet B w); [apply heard_nothing | apply (quiet_hwi_init gfuel (away B)) | intros _ w1 Hw1 Hh1].
  eapply (heard_quiet B w); [exact Hh1 | apply (quiet_irq_switch gfuel (away B) true); discriminate | intros _ w2 Hw2 Hh2].
  assert (memof w = memof w2) as E by congruence. rewrite E in *. clear E Hw1 Hw2 Hh1.
  eapply (heard_bind B w); [exact Hh2 | apply take_hears |]. cbv beta. intros r w3 o [Hw3 [[-> ->] | [-> (d & Hd & Hx & ->)]]] Hh3;
    cbn [app] in Hh3; rewrite <- Hw3 in *.
  - change (0 =? 0) with true. cbv iota.
    eapply (heard_bind B w); [exact Hh3 | by apply boot_first_hears |]. cbv beta.
    intros [] w4 o (peek & mt & -> & Hc & Hb & Ho) Hh4. eapply Hmain; [exact Hh4 |]. by eapply follows_first.
  - change (1 =? 0) with false. cbv iota. destruct (Hann d Hx) as (k & Hk & Hr). rewrite <- Hd in Hr.
    eapply (heard_bind B w); [exact Hh3 | apply boot_other_hears; eauto |]. cbv beta.
    intros [] w4 o (looks & peek & -> & Hl & Hc) Hh4. eapply Hmain; [exact Hh4 |]. by apply follows_other.
Qed.
End Code.

(** ** A core that finds the word READY *)
Definition booted (a : Z) : Z := if a mod 2 ^ 17 =? 0x1ffc8 then 0xabababab else 0.
Abbreviation bootdev := (fixed booted (fun _ => 0)).
Abbreviation boot_globals := (mem * (mmu * (mcs * (fsc * gic Z Z))))%type.

#[local] Instance boot_map : MmuMap := baremetal_map.
#[local] Instance boot_boxes : MsgLayout := {| SHARE_MSG_BASE_ADDR := 0x8727f000 |}.
#[local] Instance boot_heap : FscLayout := {| g_memory_node_list := 0; g_memory_region := 0 |}.
#[local] Instance boot_mcs : McsConfig := {|
  VDEV_START_ADDR := 0x90000000; VDEV_SIZE := 0x30000; BM_ADDR_PROTECT := true;
  RPMSG_BUFFER_SIZE := 512; RPMSG_REMOTE := 1; RPMSG_ADDR_ANY := 0xffffffff |}.
#[local] Instance boot_build : LoaderConfig := {|
  CPU_RELEASE_ADDR := 0x8727ff80; bss_start := 0; bss_end := 0; host_hwi_init_core := 3; vector_entry := 0x8a010000;
  HI309X_TRIGGER_MAP := 0xe; mcs_2with2 := false; config_shutdown := false; mcs_shutdown_ptr := 0 |}.
#[local] Instance boot_amp : OpenAmp boot_globals bootdev := {|
  metal_init := mret 0; metal_register_generic_device := mret 0; metal_device_open := mret 0;
  metal_device_io_region := mret 0x7000;
  virtqueue_allocate n := mret 0x8000; virtqueue_free q := mret tt; virtqueue_notification q := mret tt;
  rpmsg_init_vdev io := mret 0; rpmsg_deinit_vdev := mret tt; rpmsg_virtio_get_rpmsg_device := mret 0x9000;
  rpmsg_create_ept ch rdev name src dest cb := mret 0; rpmsg_destroy_ept ch := mret tt;
  rpmsg_send_offchannel_nocopy_hwi ch data len := mret len;
  rpmsg_get_tx_payload_buffer ch wait := mret (0, None); libc_free p := mret tt |}.

Lemma booted_gicr base core : base mod 2 ^ 17 = 0 \/ base mod 2 ^ 17 = 0x14 -> booted (gicr base core) = 0.
Proof.
  intros Hb. unfold booted, gicr, wrap, GICR_ADDR_OFFSET_PER_CORE.
  rewrite Z.mod_mod_divide by (by exists (2 ^ 15)).
  change (0x20000) with (2 ^ 17). rewrite Z_mod_plus_full. by destruct Hb as [-> | ->].
Qed.

#[local] Instance booted_quiesces : GicQuiesces bootdev 1.
Proof.
  split; intros; exists O; (split; [lia |]); cbn [m_load fixed_machine fst]; [done |]. by rewrite booted_gicr by (by left).
Qed.
#[local] Instance booted_wakes : GicWakes bootdev 1.
Proof. intros core d. exists O. split; [lia |]. cbn [m_load fixed_machine fst]. by rewrite booted_gicr by (by right). Qed.

Definition boot_world : world boot_globals bootdev :=
  World (wr (wr ∅ 0x8a000000 (replicate (Z.to_nat 0x8000) 0)) 0x8727f000 (replicate (Z.to_nat 1316) 0),
    (mmu_init_state, (mcs_init_state, (fsc_init, gic_init)))) Fixed [].

Lemma boot_layout_demo : boot_layout 1025 4.
Proof.
  split; try (cbn; lia).
  - right. discriminate.
  - split; [discriminate | reflexivity].
  - by vm_compute.
  - vm_compute. discriminate.
  - exact baremetal_regions.
  - repeat (constructor; [apply Nat.ltb_lt; vm_compute; reflexivity |]). constructor.
  - right. discriminate.
Qed.

Lemma boot_memory_demo : boot_memory (memof boot_world).
Proof.
  split.
  - apply (mapped_wr (wr ∅ 0x8a000000 _)), mapped_block; [cbn; lia | rewrite length_replicate; cbn; lia].
  - apply mapped_block; [cbn; lia | rewrite length_replicate; unfold msg_area_len; cbn; lia].
Qed.

Lemma loader_follows_protocol_witness :
  wp (bm_loader (H := Z) (A := Z) 1 1025 1 0x100 (mret tt))
    (fun _ w' => exists x o, accesses 0x8727ffc8 (tr w') = Rd 0x8727ffc8 x :: o) boot_world.
Proof.
  apply (loader_follows_protocol 1 1025 1 0x100 (mret tt) 4 boot_layout_demo).
  - exact boot_memory_demo.
  - intros d _. exists O. split; [lia | reflexivity].
  - intros w1 t Ht Hf. unfold jump_main, bm_local_irq_unmask. cbn [mcs_2with2 boot_build when].
    cbn [boot_world tr app] in Ht. subst t. apply wp_bind, wp_ret. apply wp_bind, wp_sys_. intros d v Hv. apply wp_ret.
    cbn [tr]. unfold accesses in *. rewrite filter_app. inversion Hf; subst; eexists _, _; reflexivity.
Defined.
