(* ===== verification/Linux.v ===== *)
(** * Linux: the kernel, as the Linux drivers see it

    The kernel is not part of the program.  A call of it is a system operation
    of the device, named by the function, the object it is applied to and the
    numbers it is given; what it answers, and in which state of the kernel, is
    the environment's choice.  A trace then shows in which order the locks,
    the registers and the kernel's services were used.  A call that stores
    through a pointer is followed by one [stored] operation per value. *)
From stdpp Require Import prelude gmap list strings.
From Stdlib Require Import ZArith Lia.
From S2P Require Import Prelude Hw.
Local Open Scope Z_scope.

(** *** Error numbers *)
Definition EIO : Z := 5.
Definition ENOMEM : Z := 12.
Definition EFAULT : Z := 14.
Definition EBUSY : Z := 16.
Definition ENODEV : Z := 19.
Definition EINVAL : Z := 22.
Definition ENOTTY : Z := 25.
Definition ENOLCK : Z := 37.
(** Error pointers are the last [MAX_ERRNO] addresses. *)
Definition MAX_ERRNO : Z := 4095.
Definition IS_ERR (p : Z) : bool := u64 (- MAX_ERRNO) <=? p.
Definition PTR_ERR (p : Z) : Z := p - 2 ^ 64.

Section Linux.
Context {G D : Type} `{MD : Machine D}.
Abbreviation M := (M G D).

Definition kcall (f obj : string) (args : list Z) : M Z := sys (Call f obj args).
Definition kcall_ (f obj : string) (args : list Z) : M unit := sys_ (Call f obj args).
(** A call that returns an [int]. *)
Definition kcall_s32 (f obj : string) (args : list Z) : M Z := v ← kcall f obj args; mret (s32 v).
(** What the call in front of it stored in [field]. *)
Definition stored (field : string) : M Z := kcall "stored" field [].

Definition spin_lock_init (l : string) (i : Z) : M unit := kcall_ "spin_lock_init" l [i].
Definition spin_lock_irqsave (l : string) (i : Z) : M Z := kcall "spin_lock_irqsave" l [i].
Definition spin_unlock_irqrestore (l : string) (i flags : Z) : M unit := kcall_ "spin_unlock_irqrestore" l [i; flags].
Definition init_mutex (l : string) (i : Z) : M unit := kcall_ "sema_init" l [i; 1].
Definition down_interruptible (l : string) (i : Z) : M Z := kcall_s32 "down_interruptible" l [i].
Definition up (l : string) (i : Z) : M unit := kcall_ "up" l [i].

Definition ioremap (addr size : Z) : M Z := kcall "ioremap" "" [addr; size].
Definition iounmap (p : Z) : M unit := kcall_ "iounmap" "" [p].
Definition kzalloc (what : string) : M Z := kcall "kzalloc" what [].
Definition kfree (what : string) : M unit := kcall_ "kfree" what [].

(** [spin_lock_irqsave(l, flags); ... spin_unlock_irqrestore(l, flags);] *)
Definition locked {A} (l : string) (i : Z) (m : M A) : M A :=
  flags ← spin_lock_irqsave l i; r ← m; spin_unlock_irqrestore l i flags ;; mret r.

(** ** Traces *)
Lemma emits_kcall f obj args w (P : Z -> list event -> Prop) :
  (forall v, fits 64 v -> P v [Sy (Call f obj args) v]) -> emits (kcall f obj args) w P.
Proof. apply emits_sys. Qed.

Lemma emits_kcall_ f obj args w (P : unit -> list event -> Prop) :
  (forall v, fits 64 v -> P tt [Sy (Call f obj args) v]) -> emits (kcall_ f obj args) w P.
Proof. apply emits_sys_. Qed.

Lemma emits_kcall_s32 f obj args w (P : Z -> list event -> Prop) :
  (forall v, fits 64 v -> P (s32 v) [Sy (Call f obj args) v]) -> emits (kcall_s32 f obj args) w P.
Proof.
  intros H. apply emits_bind, emits_kcall. intros v Hv w' _. apply emits_ret. by apply H.
Qed.

(** The section of a spin lock. *)
Definition under (l : string) (i : Z) (t t' : list event) : Prop :=
  exists flags v, t' = Sy (Call "spin_lock_irqsave" l [i]) flags :: t ++ [Sy (Call "spin_unlock_irqrestore" l [i; flags]) v].

Lemma emits_locked {A} l i (m : M A) w (P : A -> list event -> Prop) :
  (forall w', glob w' = glob w -> emits m w' (fun a t => forall t', under l i t t' -> P a t')) ->
  emits (locked l i m) w P.
Proof.
  intros H. apply emits_bind, emits_kcall. intros flags _ w1 Hw1. apply emits_bind.
  eapply emits_mono; [by apply H |]. cbv beta. intros a t HP w2 _.
  apply emits_bind, emits_kcall_. intros v _ w3 _. apply emits_ret. apply HP. exists flags, v.
  by rewrite app_nil_r.
Qed.
End Linux.
