(* ===== verification/LinuxRegs.v ===== *)
(** * LinuxRegs: shared registers, resets and character devices of the Linux
    drivers (non_real_time/drivers/comm)

    sysctrl.c, lp_subsys.c, hp_subsys.c, host_subsys.c and a5x_subsys.c are one
    manager of a mapped register block each, with the same code; a block is an
    argument here.  m_reset.c is built on them.  Of comm.c: the character
    device helpers.  A register is accessed under the spin lock of its block. *)
From stdpp Require Import prelude gmap list strings.
From Stdlib Require Import ZArith Lia.
From S2P Require Import Prelude Hw Linux.
Local Open Scope Z_scope.

Definition SYSCTRL_CSR_BASE_ADDR : Z := 0x8740000.
Definition LP_SUBSYS_CSR_BASE_ADDR : Z := 0x871d000.
Definition HP_SUB_CSR_BASE_ADDR : Z := 0xcd0c000.
Definition HOST_SUBSYS_REG_BASE_ADDR : Z := 0x8b20000.
Definition A5X_CSR_BASE_ADDR : Z := 0x14000000.

Definition RESET_REG_NUM : Z := 3.
Definition RESET_REG_MIN_OFFSET : Z := 0x4.
Definition RESET_REG_MAX_OFFSET : Z := 0xc.
Definition RST_ZONE_PCIE1 : Z := 5.
Definition LP_SUBSYS_CSR_LPSC_SRST_REQ0_OFFSET_ADDR : Z := 0x4.
Definition LP_SUBSYS_CSR_LPSC_RESET_DREQ0_OFFSET_ADDR : Z := 0x1FC.
Definition HP_SUB_CSR_HP_SRST_REQ1_OFFSET_ADDR : Z := 0x8.
Definition HP_SUB_CSR_HP_SRST_DIS1_OFFSET_ADDR : Z := 0x10.
Definition SYSCTRL_CSR_SYS_RST_REQ_OFFSET_ADDR : Z := 0x148.
Definition SYSCTRL_CSR_SYS_RST_DREQ_OFFSET_ADDR : Z := 0x14C.

(** ** The managers *)
Inductive subsys := Lp | Hp | Sysctrl | Host | A5x.
#[export] Instance subsys_eq_dec : EqDecision subsys.
Proof. solve_decision. Defined.

Record reg_mgr := RegMgr { init_flag : Z; virt_base : Z }.
(** [g_sysctrl_mgr], [g_lpsubsys_mgr], ... *)
Record mgrs := Mgrs { mgr : subsys -> reg_mgr }.
Definition mgrs_init : mgrs := Mgrs (fun _ => RegMgr 0 0).
Definition set_mgr (b : subsys) (r : reg_mgr) (s : mgrs) : mgrs :=
  Mgrs (fun b' => if decide (b' = b) then r else mgr s b').

Definition mgr_lock (b : subsys) : string :=
  match b with
  | Lp => "g_lpsubsys_mgr.lock" | Hp => "g_hpsubsys_mgr.lock" | Sysctrl => "g_sysctrl_mgr.lock"
  | Host => "g_hostsubsys_mgr.lock" | A5x => "g_a5x_mgr.lock"
  end.
Definition reg_base_addr (b : subsys) : Z :=
  match b with
  | Lp => LP_SUBSYS_CSR_BASE_ADDR | Hp => HP_SUB_CSR_BASE_ADDR | Sysctrl => SYSCTRL_CSR_BASE_ADDR
  | Host => HOST_SUBSYS_REG_BASE_ADDR | A5x => A5X_CSR_BASE_ADDR
  end.
Definition REG_SIZE : Z := 0x1000.

Definition mgr_usable (r : reg_mgr) : bool := negb ((init_flag r =? 0) || (virt_base r =? 0)).
Definition reg_at (r : reg_mgr) (reg_offset : Z) : Z := u64 (virt_base r + reg_offset).

Section Managers.
Context {G D : Type} `{MD : Machine D} `{HR : !Has G mgrs}.
Abbreviation M := (M G D).

Definition mgr_init (b : subsys) : M Z :=
  s ← gets (S := mgrs);
  if negb (init_flag (mgr s b) =? 0) then mret 0
  else
    p ← ioremap (reg_base_addr b) REG_SIZE;
    modg (fun s : mgrs => set_mgr b (RegMgr (init_flag (mgr s b)) p) s) ;;
    if p =? 0 then mret (- ENOMEM)
    else
      spin_lock_init (mgr_lock b) 0 ;;
      modg (fun s : mgrs => set_mgr b (RegMgr 1 (virt_base (mgr s b))) s) ;;
      mret 0.

Definition mgr_exit (b : subsys) : M Z :=
  s ← gets (S := mgrs);
  when (negb (init_flag (mgr s b) =? 0)) (
    modg (fun s : mgrs => set_mgr b (RegMgr 0 (virt_base (mgr s b))) s) ;;
    iounmap (virt_base (mgr s b))) ;;
  mret 0.

(** The checks and the lock that every access is wrapped in. *)
Definition mgr_access {A} (b : subsys) (none : A) (m : reg_mgr -> M A) : M (Z * A) :=
  s ← gets (S := mgrs);
  if negb (mgr_usable (mgr s b)) then mret (- ENODEV, none)
  else r ← locked (mgr_lock b) 0 (m (mgr s b)); mret (0, r).

(** What is stored through [reg_val]; [reg_val] tells whether it is not NULL. *)
Definition mgr_reg_read (b : subsys) (reg_offset : Z) (reg_val : bool) : M (Z * option Z) :=
  if negb reg_val then mret (- EINVAL, None)
  else mgr_access b None (fun r => v ← readl (reg_at r reg_offset); mret (Some v)).

Definition mgr_reg_write (b : subsys) (reg_offset reg_val : Z) : M Z :=
  r ← mgr_access b tt (fun r => writel reg_val (reg_at r reg_offset)); mret r.1.

Definition mgr_reg_read_write (b : subsys) (reg_offset reg_mask val : Z) : M Z :=
  r ← mgr_access b tt (fun r =>
    reg_val ← readl (reg_at r reg_offset);
    writel (Z.lor (Z.land reg_val (bnot 32 reg_mask)) (Z.land val reg_mask)) (reg_at r reg_offset));
  mret r.1.

Definition mgr_reg_set_bits (b : subsys) (reg_offset reg_mask set_bit : Z) : M Z :=
  r ← mgr_access b tt (fun r =>
    reg_val ← readl (reg_at r reg_offset);
    let reg_val := Z.land reg_val (bnot 32 reg_mask) in
    let reg_val := if ctrue set_bit then Z.lor reg_val reg_mask else reg_val in
    writel reg_val (reg_at r reg_offset));
  mret r.1.

Definition mgr_ready (b : subsys) : M Z :=
  s ← gets (S := mgrs); mret (if negb (init_flag (mgr s b) =? 0) then 1 else 0).

Definition sysctrl_init : M Z := mgr_init Sysctrl.
Definition sysctrl_exit : M Z := mgr_exit Sysctrl.
Definition sysctrl_reg_read := mgr_reg_read Sysctrl.
Definition sysctrl_reg_write := mgr_reg_write Sysctrl.
Definition sysctrl_reg_read_write := mgr_reg_read_write Sysctrl.
Definition sysctrl_reg_set_bits := mgr_reg_set_bits Sysctrl.
Definition sysctrl_ready : M Z := mgr_ready Sysctrl.
Definition lp_subsys_init : M Z := mgr_init Lp.
Definition lp_subsys_exit : M Z := mgr_exit Lp.
Definition lp_subsys_reg_read := mgr_reg_read Lp.
Definition lp_subsys_reg_write := mgr_reg_write Lp.
Definition lp_subsys_reg_read_write := mgr_reg_read_write Lp.
Definition lp_subsys_reg_set_bits := mgr_reg_set_bits Lp.
Definition lp_subsys_ready : M Z := mgr_ready Lp.
Definition hp_subsys_init : M Z := mgr_init Hp.
Definition hp_subsys_exit : M Z := mgr_exit Hp.
Definition hp_subsys_reg_read := mgr_reg_read Hp.
Definition hp_subsys_reg_write := mgr_reg_write Hp.
Definition host_subsys_init : M Z := mgr_init Host.
Definition host_subsys_exit : M Z := mgr_exit Host.
Definition host_subsys_reg_read := mgr_reg_read Host.
Definition host_subsys_reg_write := mgr_reg_write Host.
Definition a5x_init : M Z := mgr_init A5x.
Definition a5x_exit : M Z := mgr_exit A5x.
Definition a5x_reg_read := mgr_reg_read A5x.
Definition a5x_reg_write := mgr_reg_write A5x.

(** ** Resets *)
Definition srst_out_of_range (reg_offset : Z) : bool :=
  (reg_offset <? RESET_REG_MIN_OFFSET) || (RESET_REG_MAX_OFFSET <? reg_offset) || negb (reg_offset mod 4 =? 0).

(** Without a usable manager the range is not looked at. *)
Definition lp_subsys_srst (reg_offset mask : Z) : M Z :=
  s ← gets (S := mgrs);
  if negb (mgr_usable (mgr s Lp)) then mret (- ENODEV)
  else if srst_out_of_range reg_offset then mret (- EINVAL)
  else
    let rst_dreq_off := u32 (reg_offset - LP_SUBSYS_CSR_LPSC_SRST_REQ0_OFFSET_ADDR) in
    locked (mgr_lock Lp) 0 (
      writel mask (reg_at (mgr s Lp) reg_offset) ;;
      sys_ (Udelay 20) ;;
      let reg_offset := u32 (LP_SUBSYS_CSR_LPSC_RESET_DREQ0_OFFSET_ADDR + rst_dreq_off) in
      writel mask (reg_at (mgr s Lp) reg_offset)) ;;
    mret 0.

Definition reset_sem : string := "g_reset_access_sem".
Definition hp_reset_sem : string := "g_hp_reset_access_sem".

Definition m_reset_init : M Z :=
  for_up (Z.to_nat RESET_REG_NUM) 0 (init_mutex reset_sem) ;;
  init_mutex hp_reset_sem 0 ;;
  mret 0.

Definition m_emmc_reset (reg_offset mask : Z) : M Z :=
  if negb (reg_offset =? 0xf8) then mret (- EINVAL)
  else
    r ← lp_subsys_reg_read reg_offset true;
    match r with
    | (ret, None) => mret ret
    | (_, Some reg_value) =>
        let reg_value := Z.lor reg_value mask in
        ret ← lp_subsys_reg_write reg_offset reg_value;
        if ctrue ret then mret ret
        else
          sys_ (Udelay 20) ;;
          lp_subsys_reg_write reg_offset (Z.land reg_value (bnot 32 mask))
    end.

(** The address [reg_addr] of the register that ends the reset is computed and
    not used. *)
Definition m_hp_reset (reg_offset mask : Z) : M Z :=
  ret ← down_interruptible hp_reset_sem 0;
  if ctrue ret then mret ret
  else
    ret ← hp_subsys_reg_write reg_offset mask;
    ret ← (if ctrue ret then mret ret
           else
             sys_ (Udelay 20) ;;
             let reg_addr := u32 (HP_SUB_CSR_HP_SRST_DIS1_OFFSET_ADDR + (reg_offset - HP_SUB_CSR_HP_SRST_REQ1_OFFSET_ADDR)) in
             hp_subsys_reg_write reg_offset mask);
    up hp_reset_sem 0 ;;
    mret ret.

Definition m_reset_handle_atomic (reg_offset mask : Z) : M Z := lp_subsys_srst reg_offset mask.

Definition m_reset_handle (reg_offset mask : Z) : M Z :=
  if srst_out_of_range reg_offset then mret (- EINVAL)
  else
    let reg_index := (reg_offset - RESET_REG_MIN_OFFSET) / 4 in
    ret ← down_interruptible reset_sem reg_index;
    if ctrue ret then mret ret
    else
      ret ← lp_subsys_srst reg_offset mask;
      up reset_sem reg_index ;;
      mret ret.

Definition subsys_sft_reset (rst_zone : Z) : M Z :=
  if RST_ZONE_PCIE1 <? rst_zone then mret (- EINVAL)
  else
    _ ← sysctrl_reg_write SYSCTRL_CSR_SYS_RST_REQ_OFFSET_ADDR (Z.shiftl 1 rst_zone);
    sys_ (Udelay 20) ;;
    _ ← sysctrl_reg_write SYSCTRL_CSR_SYS_RST_DREQ_OFFSET_ADDR (Z.shiftl 1 rst_zone);
    mret 0.
End Managers.

(** ** Character devices *)
Record cdev_st := CdevSt { dev_major : Z; dev_minor : Z; dev_class : Z }.
Definition MKDEV (ma mi : Z) : Z := Z.lor (u32 (Z.shiftl ma 20)) mi.
Definition MAJOR (dev : Z) : Z := Z.shiftr dev 20.

Definition comm_ioc_parm_check (cmd ioc_magic ioc_max_nr : Z) : Z :=
  if negb (Z.land (Z.shiftr cmd 8) 0xff =? ioc_magic) then - ENOTTY
  else if ioc_max_nr <? Z.land cmd 0xff then - ENOTTY
  else 0.

Section CharDev.
Context {G D : Type} `{MD : Machine D}.
Abbreviation M := (M G D).

Definition comm_cleanup_dev (p_dev : cdev_st) : M unit :=
  let devno := MKDEV (dev_major p_dev) (dev_minor p_dev) in
  kcall_ "device_destroy" "" [dev_class p_dev; devno] ;;
  kcall_ "class_destroy" "" [dev_class p_dev] ;;
  kcall_ "cdev_del" "" [] ;;
  kcall_ "unregister_chrdev_region" "" [devno; 1].

(** The return value and [*p_dev] afterwards.  [alloc_chrdev_region] stores
    the number only when it succeeds. *)
Definition comm_init_dev (p_dev : cdev_st) (pdevname : string) : M (Z * cdev_st) :=
  x ← (if negb (dev_major p_dev =? 0) then
         let dev_num := MKDEV (dev_major p_dev) (dev_minor p_dev) in
         ret ← kcall_s32 "register_chrdev_region" pdevname [dev_num; 1];
         mret (ret, dev_num, p_dev)
       else
         ret ← kcall_s32 "alloc_chrdev_region" pdevname [dev_minor p_dev; 1];
         dev_num ← (if ret <? 0 then mret 0 else v ← stored "dev_num"; mret (u32 v));
         mret (ret, dev_num, CdevSt (MAJOR dev_num) (dev_minor p_dev) (dev_class p_dev)));
  let '(ret, dev_num, p_dev) := x in
  if ret <? 0 then mret (ret, p_dev)
  else
    let devno := MKDEV (dev_major p_dev) (dev_minor p_dev) in
    let unregister := kcall_ "unregister_chrdev_region" "" [devno; 1] in
    kcall_ "cdev_init" pdevname [] ;;
    ret ← kcall_s32 "cdev_add" "" [dev_num; 1];
    if ctrue ret then unregister ;; mret (ret, p_dev)
    else
      class ← kcall "class_create" pdevname [];
      let p_dev := CdevSt (dev_major p_dev) (dev_minor p_dev) class in
      if IS_ERR class then
        kcall_ "cdev_del" "" [] ;; unregister ;; mret (s32 (PTR_ERR class), p_dev)
      else
        pdev_tmp ← kcall "device_create" pdevname [class; devno];
        if IS_ERR pdev_tmp then
          kcall_ "class_destroy" "" [class] ;; kcall_ "cdev_del" "" [] ;; unregister ;;
          mret (s32 (PTR_ERR pdev_tmp), p_dev)
        else mret (0, p_dev).
End CharDev.
