(* ===== verification/LinuxRegsProps.v ===== *)
(** * LinuxRegsProps: register access under the lock, resets, character devices *)
From stdpp Require Import prelude gmap list strings.
From Stdlib Require Import ZArith Lia.
From S2P Require Import Prelude Hw Linux LinuxRegs.
Local Open Scope Z_scope.

Section Managers.
Context {G D : Type} `{MD : Machine D} `{HR : !Has G mgrs}.
Implicit Types (w : world G D).
Abbreviation mgr_of w b := (mgr (hget (S := mgrs) (glob w)) b).

Lemma emits_access {A} b (none : A) (m : reg_mgr -> M G D A) w (P : Z * A -> list event -> Prop) :
  (mgr_usable (mgr_of w b) = false -> P (- ENODEV, none) []) ->
  (mgr_usable (mgr_of w b) = true -> forall w', glob w' = glob w ->
     emits (m (mgr_of w b)) w' (fun a t => forall t', under (mgr_lock b) 0 t t' -> P (0, a) t')) ->
  emits (mgr_access b none m) w P.
Proof.
  intros Hno Hyes. apply emits_bind, emits_gets. intros w1 Hw1. cbn [app].
  destruct (mgr_usable (mgr_of w b)) eqn:E; cbn [negb]; [| by apply emits_ret, Hno].
  apply emits_bind, emits_locked. intros w2 Hw2. eapply emits_mono; [apply Hyes; [done | congruence] |].
  cbv beta. intros a t HP t' Hu w3 _. apply emits_ret. rewrite app_nil_r. by apply HP.
Qed.

Lemma merge_fits mask old x : fits 32 mask -> fits 32 old -> fits 32 x ->
  fits 32 (Z.lor (Z.land old (bnot 32 mask)) (Z.land x mask)).
Proof. intros. apply lor_fits; [lia | |]; by apply land_fits_l. Qed.

Lemma merge_testbit mask old x i : 0 <= i < 32 ->
  Z.testbit (Z.lor (Z.land old (bnot 32 mask)) (Z.land x mask)) i =
  if Z.testbit mask i then Z.testbit x i else Z.testbit old i.
Proof.
  intros Hi. rewrite Z.lor_spec, !Z.land_spec. unfold bnot. rewrite wrap_spec, Z.lnot_spec by lia.
  replace (i <? 32) with true by lia. by destruct (Z.testbit mask i), (Z.testbit x i), (Z.testbit old i).
Qed.

(** C35: registers are accessed under the lock of their block.  Without a
    usable manager nothing is touched and the result is -ENODEV; otherwise the
    access succeeds and is, between taking and giving back the lock: one load,
    whose value is returned; one store; or one load and one store of the same
    register, in which exactly the bits of the mask are replaced by those of
    the value, or are all set or all cleared. *)
Theorem reg_access_contract b reg_offset mask val w : fits 32 mask -> fits 32 val ->
  let r := mgr_of w b in
  let a := reg_at r reg_offset in
  let section t' t := mgr_usable r = true /\ under (mgr_lock b) 0 t' t in
  let refused x t := mgr_usable r = false /\ x = - ENODEV /\ t = [] in
  emits (mgr_reg_read b reg_offset true) w (fun x t =>
    refused x.1 t /\ x.2 = None \/ exists v, x = (0, Some v) /\ section [Rd a v] t) /\
  emits (mgr_reg_write b reg_offset val) w (fun x t =>
    refused x t \/ x = 0 /\ section [Wr a val] t) /\
  emits (mgr_reg_read_write b reg_offset mask val) w (fun x t =>
    refused x t \/ x = 0 /\ exists old new, section [Rd a old; Wr a new] t /\
      forall i, 0 <= i < 32 -> Z.testbit new i = if Z.testbit mask i then Z.testbit val i else Z.testbit old i) /\
  forall set_bit, emits (mgr_reg_set_bits b reg_offset mask set_bit) w (fun x t =>
    refused x t \/ x = 0 /\ exists old new, section [Rd a old; Wr a new] t /\
      forall i, 0 <= i < 32 -> Z.testbit new i = if Z.testbit mask i then ctrue set_bit else Z.testbit old i).
Proof.
  intros Hm Hv r a section refused. split_and!.
  - apply emits_access; [left; split_and!; done |]. intros Hu w1 Hw1. apply emits_bind, emits_readl.
    intros v Hf w2 Hw2. apply emits_ret. intros t' Ht. right. by exists v.
  - apply emits_bind, emits_access; [intros; apply emits_ret; left; split_and!; done |].
    intros Hu w1 Hw1. apply emits_writel. intros t' Ht w2 Hw2. apply emits_ret. right. rewrite app_nil_r.
    rewrite wrap_id in Ht by done. split_and!; done.
  - apply emits_bind, emits_access; [intros; apply emits_ret; left; split_and!; done |].
    intros Hu w1 Hw1. apply emits_bind, emits_readl. intros old Ho w2 Hw2. apply emits_writel.
    intros t' Ht w3 Hw3. apply emits_ret. right. rewrite app_nil_r.
    rewrite wrap_id in Ht by (by apply merge_fits). split; [done |]. eexists _, _. split; [split; [done | exact Ht] |].
    intros i Hi. by apply merge_testbit.
  - intros set_bit.
    apply emits_bind, emits_access; [intros; apply emits_ret; left; split_and!; done |].
    intros Hu w1 Hw1. apply emits_bind, emits_readl. intros old Ho w2 Hw2. cbv zeta. apply emits_writel.
    intros t' Ht w3 Hw3. apply emits_ret. right. rewrite app_nil_r.
    assert (fits 32 (if ctrue set_bit then Z.lor (Z.land old (bnot 32 mask)) mask else Z.land old (bnot 32 mask))) as Hf.
    { destruct (ctrue set_bit); [apply lor_fits; [lia | | done] |]; by apply land_fits_l. }
    rewrite wrap_id in Ht by done. split; [done |]. eexists _, _. split; [split; [done | exact Ht] |].
    intros i Hi. pose proof (merge_testbit mask old (if ctrue set_bit then mask else 0) i Hi) as Hb.
    destruct (ctrue set_bit); [rewrite Z.land_diag in Hb | rewrite Z.land_0_l, Z.lor_0_r, Z.testbit_0_l in Hb by lia];
      rewrite Hb; by destruct (Z.testbit mask i).
Qed.

(** a module reset is one store to the request register, 20 microseconds,
    and one store of the same mask to the release register that belongs to it,
    0x1f8 bytes behind, with the lock held throughout; offsets that are not
    those of the three request registers are refused. *)
Theorem lp_srst_resets reg_offset mask w : fits 32 reg_offset -> fits 32 mask ->
  let r := mgr_of w Lp in
  emits (lp_subsys_srst reg_offset mask) w (fun x t =>
    mgr_usable r = false /\ x = - ENODEV /\ t = [] \/
    mgr_usable r = true /\ (reg_offset ∉ [4; 8; 12]) /\ x = - EINVAL /\ t = [] \/
    mgr_usable r = true /\ (reg_offset ∈ [4; 8; 12]) /\ x = 0 /\ exists v,
      under (mgr_lock Lp) 0 [Wr (reg_at r reg_offset) mask; Sy (Udelay 20) v; Wr (reg_at r (reg_offset + 0x1f8)) mask] t).
Proof.
  intros Ho Hm r. apply emits_bind, emits_gets. intros w1 Hw1. cbn [app]. subst r.
  destruct (mgr_usable (mgr_of w Lp)); cbn [negb]; [| by apply emits_ret; left].
  assert (srst_out_of_range reg_offset = false <-> reg_offset ∈ [4; 8; 12]) as Hr.
  { unfold srst_out_of_range, RESET_REG_MIN_OFFSET, RESET_REG_MAX_OFFSET. rewrite !elem_of_cons, elem_of_nil.
    split; [intros E | (intros [-> | [-> | [-> | []]]]; reflexivity)].
    apply orb_false_iff in E as [[H1 H2]%orb_false_iff H3]. apply negb_false_iff, Z.eqb_eq in H3.
    apply Z.div_exact in H3; [| done]. lia. }
  destruct (srst_out_of_range reg_offset).
  { apply emits_ret. right. left. split_and!; try done. by intros H%Hr. }
  apply emits_bind, emits_locked. intros w2 Hw2. cbv zeta.
  apply emits_bind, emits_writel. intros w3 _. apply emits_bind, emits_sys_. intros v _ w4 _.
  apply emits_writel. intros t' Ht w5 _. apply emits_ret.
  right. right. split_and!; [done | by apply Hr | done |]. rewrite app_nil_r. eexists.
  rewrite !(wrap_id 32 mask) in Ht by done. destruct Hr as [Hr _]. specialize (Hr eq_refl).
  rewrite !elem_of_cons, elem_of_nil in Hr. destruct Hr as [-> | [-> | [-> | []]]]; exact Ht.
Qed.

Lemma emits_hp_write off mask w : fits 32 mask ->
  emits (hp_subsys_reg_write off mask) w (fun x t =>
    x <> 0 /\ writes t = [] \/ x = 0 /\ writes t = [(reg_at (mgr_of w Hp) off, mask)]).
Proof.
  intros Hm. apply emits_bind, emits_access; [intros; apply emits_ret; left; done |].
  intros Hu w1 Hw1. apply emits_writel. intros t' (fl & v & ->) w2 Hw2. apply emits_ret. right.
  rewrite app_nil_r, wrap_id by done. done.
Qed.

(** a reset through the high-performance block is never released.  When it
    reports success the mask has been stored twice, both times in the register
    at the given offset: the release register is not written, whatever the
    offset. *)
Theorem hp_reset_never_released reg_offset mask w : fits 32 mask ->
  emits (m_hp_reset reg_offset mask) w (fun x t =>
    let a := reg_at (mgr_of w Hp) reg_offset in
    Forall (fun s => s = (a, mask)) (writes t) /\ (x = 0 -> writes t = [(a, mask); (a, mask)])).
Proof.
  intros Hm. apply emits_bind, emits_kcall_s32. intros v Hv w1 Hw1.
  destruct (ctrue (s32 v)) eqn:Ec.
  { apply emits_ret. split; [constructor |]. intros E. by rewrite E in Ec. }
  apply emits_bind. eapply emits_mono; [by apply emits_hp_write |]. rewrite Hw1. cbv beta. intros x t Ht w2 Hw2.
  apply emits_bind. destruct Ht as [[Hx Ht] | [-> Ht]].
  - replace (ctrue x) with true by (unfold ctrue; lia). apply emits_ret. intros w3 Hw3.
    apply emits_bind, emits_kcall_. intros v2 _ w4 Hw4. apply emits_ret. rewrite !app_nil_r, !writes_app, Ht. done.
  - change (ctrue 0) with false. cbv iota. apply emits_bind, emits_sys_. intros v2 _ w3 Hw3. cbv zeta.
    eapply emits_mono; [by apply emits_hp_write |]. cbv beta. intros x2 t2 Ht2 w4 Hw4.
    apply emits_bind, emits_kcall_. intros v3 _ w5 Hw5. apply emits_ret. rewrite !app_nil_r, !writes_app, Ht.
    assert (glob w3 = glob w) as E by congruence. rewrite E in Ht2.
    destruct Ht2 as [[Hx Ht2] | [-> Ht2]]; rewrite Ht2; cbn; (split; [repeat constructor | done]).
Qed.
End Managers.

(** ** Character devices *)

(** What a driver holds of the kernel after a trace: the successful
    acquisitions that were not released, the last one first.  A release of
    anything else is an error. *)
Definition acquired (f : string) (v : Z) : option string :=
  if String.eqb f "register_chrdev_region" || String.eqb f "alloc_chrdev_region" then (if s32 v <? 0 then None else Some "region")
  else if String.eqb f "cdev_add" then (if s32 v =? 0 then Some "cdev" else None)
  else if String.eqb f "class_create" then (if IS_ERR v then None else Some "class")
  else if String.eqb f "device_create" then (if IS_ERR v then None else Some "node")
  else None.
Definition released_by (f : string) : option string :=
  if String.eqb f "unregister_chrdev_region" then Some "region"
  else if String.eqb f "cdev_del" then Some "cdev"
  else if String.eqb f "class_destroy" then Some "class"
  else if String.eqb f "device_destroy" then Some "node"
  else None.
Definition holds (l : list string) (e : event) : list string :=
  match e with
  | Sy (Call f _ _) v =>
      match released_by f, l with
      | Some x, y :: l' => if String.eqb x y then l' else "error" :: l
      | Some _, [] => ["error"]
      | None, _ => match acquired f v with Some x => x :: l | None => l end
      end
  | _ => l
  end.
Definition held (l : list string) (t : list event) : list string := foldl holds l t.

Section CharDev.
Context {G D : Type} `{MD : Machine D}.
Implicit Types (w : world G D).
Definition device_made : list string := ["node"; "class"; "cdev"; "region"].

Lemma err_nonzero p : fits 64 p -> IS_ERR p = true -> s32 (PTR_ERR p) <> 0.
Proof.
  unfold IS_ERR, PTR_ERR, s32. change (u64 (- MAX_ERRNO)) with 18446744073709547521. unfold wrap.
  intros [H1 H2]. change (2 ^ 64) with 18446744073709551616 in *.
  change (2 ^ 32) with 4294967296. change (2 ^ 31) with 2147483648.
  intros H. apply Z.leb_le in H.
  replace ((p - 18446744073709551616) mod 4294967296) with (p - 18446744073709551616 + 4294967296)
    by (apply Z.mod_unique with (-1); lia).
  case_match; lia.
Qed.

#[local] Opaque s32 IS_ERR PTR_ERR.

Ltac call_steps := repeat (apply emits_bind, emits_kcall_; intros ? _ ? _); apply emits_ret.

(** making a character device is all or nothing: when [comm_init_dev]
    returns 0 the region, the device, its class and its node are held, and
    otherwise all that was acquired has been released, in the reverse order;
    [comm_cleanup_dev] releases the four. *)
Theorem comm_init_dev_unwinds p_dev name w :
  emits (comm_init_dev p_dev name) w (fun x t => held [] t = if decide (x.1 = 0) then device_made else []) /\
  forall p w', emits (comm_cleanup_dev p) w' (fun _ t => held device_made t = []).
Proof.
  split.
  - unfold comm_init_dev. apply emits_bind.
    eapply (emits_mono _ _ (fun x t => held [] t = if x.1.1 <? 0 then [] else ["region"])).
    { destruct (negb _).
      - apply emits_bind, emits_kcall_s32. intros v Hv w1 _. apply emits_ret. cbn. by destruct (s32 v <? 0).
      - apply emits_bind, emits_kcall_s32. intros v Hv w1 _. apply emits_bind. destruct (s32 v <? 0) eqn:E.
        + apply emits_ret. intros w2 _. apply emits_ret. cbn. by rewrite E.
        + apply emits_bind, emits_kcall. intros n Hn w2 _. apply emits_ret. intros w3 _. apply emits_ret.
          cbn. by rewrite E. }
    cbv beta. intros [[ret num] p] t Ht w1 _. cbn [fst] in Ht. destruct (ret <? 0) eqn:Eneg.
    { apply emits_ret. rewrite app_nil_r, Ht. cbn. by rewrite decide_False by lia. }
    assert (forall (m : M G D (Z * cdev_st)), emits m w1 (fun x t' => held ["region"] t' = if decide (x.1 = 0) then device_made else []) ->
      emits m w1 (fun x t' => held [] (t ++ t') = if decide (x.1 = 0) then device_made else [])) as Hgo.
    { intros m Hm. eapply emits_mono; [exact Hm |]. cbv beta. intros x t' H. unfold held in *. by rewrite foldl_app, Ht. }
    apply Hgo. apply emits_bind, emits_kcall_. intros v0 _ w2 _.
    apply emits_bind, emits_kcall_s32. intros v1 _ w3 _. destruct (ctrue (s32 v1)) eqn:Eadd.
    { call_steps. cbn. unfold ctrue in Eadd. apply negb_true_iff in Eadd. rewrite Eadd.
      rewrite decide_False by lia. reflexivity. }
    unfold ctrue in Eadd. apply negb_false_iff in Eadd.
    apply emits_bind, emits_kcall. intros class Hc w4 _. destruct (IS_ERR class) eqn:Ec.
    { pose proof (err_nonzero class Hc Ec). call_steps. cbn. rewrite Eadd, Ec. by rewrite decide_False. }
    apply emits_bind, emits_kcall. intros node Hn w5 _. destruct (IS_ERR node) eqn:En.
    { pose proof (err_nonzero node Hn En). call_steps. cbn. rewrite Eadd, Ec, En. by rewrite decide_False. }
    apply emits_ret. cbn. by rewrite Eadd, Ec, En.
  - intros p w'. unfold comm_cleanup_dev. do 3 (apply emits_bind, emits_kcall_; intros ? _ ? _).
    apply emits_kcall_. intros. reflexivity.
Qed.
End CharDev.

(** ** Mapped blocks whose registers are plain memory *)
Definition mapped_mgrs : mgrs := Mgrs (fun _ => RegMgr 1 0x4000).
Definition regs_world : world mgrs ram := World mapped_mgrs ram0 [].

Lemma reg_access_contract_witness :
  emits (mgr_reg_write Sysctrl 0x10 0x5a) regs_world (fun x t => x = 0 /\ writes t = [(0x4010, 0x5a)]).
Proof.
  eapply emits_mono; [apply (reg_access_contract Sysctrl 0x10 0xff 0x5a regs_world);
    (split; [discriminate | reflexivity]) |].
  cbv beta. intros x t [(E & _) | (-> & _ & f & v & ->)]; done.
Defined.

Lemma lp_srst_resets_witness :
  emits (lp_subsys_srst 8 1) regs_world (fun x t => x = 0 /\ writes t = [(0x4008, 1); (0x4200, 1)]).
Proof.
  eapply emits_mono; [apply (lp_srst_resets 8 1 regs_world); (split; [discriminate | reflexivity]) |].
  cbv beta. intros x t [(E & _) | [(_ & H & _) | (_ & _ & -> & v & f & v2 & ->)]]; [done | | done].
  destruct H. right. left.
Defined.

Lemma hp_reset_never_released_witness :
  emits (m_hp_reset 8 1) regs_world (fun x t => x = 0 -> writes t = [(0x4008, 1); (0x4008, 1)]).
Proof.
  eapply emits_mono; [apply (hp_reset_never_released 8 1 regs_world); (split; [discriminate | reflexivity]) |].
  cbv beta. intros x t [_ H]. exact H.
Defined.
