(* ===== verification/HwLock.v ===== *)
(** * HwLock: hardware locks shared with the other processor
    (non_real_time/drivers/hw_lock)

    Sixteen locks that the Cortex-A55 and the M3 take through requests in the
    system controller, and eight exclusive fields that hold the number of
    their owner.  On the A55 a lock is counted, and a semaphore per lock
    orders the tasks.  The global [g_hwlock] is [None] until the driver is
    probed.

    [Module Contend] is one lock with its tasks and the M3 as a step relation. *)
From stdpp Require Import prelude gmap list strings.
From Stdlib Require Import ZArith Lia.
From S2P Require Import Prelude Hw Linux LinuxRegs.
Local Open Scope Z_scope.

Definition A55_LOCKED : Z := 1.
Definition M3_LOCKED : Z := 2.
Definition DEV_HWLOCK_NAME : string := "hwlock".
Definition HW_LOCK_NUM : Z := 16.
Definition EX_LOCK_NUM : Z := 8.
Definition EXCLUSIVE_LOCK_MASK : Z := 0xF.
Definition EXCLUSIVE_LOCK_IDLE : Z := 0.
Definition LOCK_REQ : Z := 1.
Definition RELEASE_REQ : Z := 1.
Definition STATUS_MASK : Z := 0x3.
Definition HWLOCK_BIT_NUM : Z := 2.
Definition EXLOCK_BIT_NUM : Z := 4.
Definition RELEASE_ALL_HWLOCK : Z := 0xFFFF.
Definition SYSCTRL_CSR_A55_LOCK_REQ_OFFSET_ADDR : Z := 0x16C.
Definition SYSCTRL_CSR_A55_LOC_DREQ_OFFSET_ADDR : Z := 0x170.
Definition SYSCTRL_CSR_LOCK_CORE_ST_OFFSET_ADDR : Z := 0x178.
Definition SYSCTRL_CSR_RW_EXCLUSIVE_OFFSET_ADDR : Z := 0x21C.

Record hw_lock := HwLock { hwlock_dev : cdev_st; lock_count : list Z }.
Record hwlocks := HwLocks { g_hwlock : option hw_lock }.
Definition hwlocks_init : hwlocks := HwLocks None.

Definition hw_sem : string := "g_hwlock->hw_sem".
Definition ex_sem : string := "g_hwlock->ex_sem".

Section HwLock.
Context {G D : Type} `{MD : Machine D} `{HR : !Has G mgrs} `{HL : !Has G hwlocks}.
Abbreviation M := (M G D).

(** [g_hwlock->...] *)
Definition hwlock_deref : M hw_lock := s ← gets (S := hwlocks); some_or NullDeref (g_hwlock s).
Definition get_lock_count (lock_id : Z) : M Z :=
  h ← hwlock_deref; some_or OutOfBounds (lock_count h !! Z.to_nat lock_id).
Definition set_lock_count (lock_id v : Z) : M unit :=
  h ← hwlock_deref;
  modg (fun _ : hwlocks => HwLocks (Some (HwLock (hwlock_dev h) (<[Z.to_nat lock_id := u32 v]> (lock_count h))))).

Definition hw_query_lock_status (lock_id : Z) : M Z :=
  if HW_LOCK_NUM <=? lock_id then mret (- EINVAL)
  else
    r ← sysctrl_reg_read SYSCTRL_CSR_LOCK_CORE_ST_OFFSET_ADDR true;
    match r.2 with
    | None => mret (-1)
    | Some reg => mret (Z.land (Z.shiftr reg (HWLOCK_BIT_NUM * lock_id)) STATUS_MASK)
    end.

Definition hw_get_hard_lock (lock_id : Z) : M Z :=
  let lock_mask := u32 (Z.shiftl LOCK_REQ lock_id) in
  status ← hw_query_lock_status lock_id;
  if status =? M3_LOCKED then mret (-1)
  else if status =? A55_LOCKED then mret 0
  else
    ret ← sysctrl_reg_read_write SYSCTRL_CSR_A55_LOCK_REQ_OFFSET_ADDR lock_mask lock_mask;
    if ctrue ret then mret ret
    else
      status ← hw_query_lock_status lock_id;
      if status =? A55_LOCKED then mret 0
      else
        c ← get_lock_count lock_id;
        when (c =? 0) (
          _ ← sysctrl_reg_read_write SYSCTRL_CSR_A55_LOC_DREQ_OFFSET_ADDR lock_mask lock_mask; mret tt) ;;
        mret (-1).

Definition hw_acquire_hard_lock (lock_id : Z) : M Z :=
  if HW_LOCK_NUM <=? lock_id then mret (- EINVAL)
  else
    _ ← hwlock_deref;
    ret ← down_interruptible hw_sem lock_id;
    if ctrue ret then mret ret
    else
      ret ← hw_get_hard_lock lock_id;
      if ctrue ret then up hw_sem lock_id ;; mret (- ENOLCK)
      else
        c ← get_lock_count lock_id;
        set_lock_count lock_id (c + 1) ;;
        up hw_sem lock_id ;;
        mret 0.

Definition hw_release_hard_lock (lock_id : Z) : M unit :=
  if HW_LOCK_NUM <=? lock_id then mret tt
  else
    _ ← hwlock_deref;
    ret ← down_interruptible hw_sem lock_id;
    if ctrue ret then mret tt
    else
      c ← get_lock_count lock_id;
      (if c =? 0 then mret tt
       else
         let lock_mask := u32 (Z.shiftl RELEASE_REQ lock_id) in
         set_lock_count lock_id (c - 1) ;;
         c ← get_lock_count lock_id;
         when (c =? 0) (
           _ ← sysctrl_reg_read_write SYSCTRL_CSR_A55_LOC_DREQ_OFFSET_ADDR lock_mask lock_mask; mret tt)) ;;
      up hw_sem lock_id.

Definition hw_query_exclusive_lock_status (lock_id : Z) : M Z :=
  if EX_LOCK_NUM <=? lock_id then mret (- EINVAL)
  else
    r ← sysctrl_reg_read SYSCTRL_CSR_RW_EXCLUSIVE_OFFSET_ADDR true;
    match r.2 with
    | None => mret r.1
    | Some reg => mret (Z.land (Z.shiftr reg (lock_id * EXLOCK_BIT_NUM)) EXCLUSIVE_LOCK_MASK)
    end.

(** All ones, but [value] in the field of the lock. *)
Definition exclusive_word (lock_id value : Z) : Z :=
  let lock_offset := lock_id * EXLOCK_BIT_NUM in
  Z.lor (Z.land 0xFFFFFFFF (bnot 32 (Z.shiftl EXCLUSIVE_LOCK_MASK lock_offset)))
    (Z.shiftl (Z.land EXCLUSIVE_LOCK_MASK value) lock_offset).

Definition hw_acquire_exclusive_lock (lock_id value : Z) : M Z :=
  if EX_LOCK_NUM <=? lock_id then mret (- EINVAL)
  else if (value =? EXCLUSIVE_LOCK_IDLE) || (0xF <=? value) then mret (- EINVAL)
  else
    _ ← hwlock_deref;
    ret ← down_interruptible ex_sem lock_id;
    if ctrue ret then mret ret
    else
      ret ← hw_query_exclusive_lock_status lock_id;
      if negb (ret =? EXCLUSIVE_LOCK_IDLE) then up ex_sem lock_id ;; mret ret
      else
        _ ← sysctrl_reg_write SYSCTRL_CSR_RW_EXCLUSIVE_OFFSET_ADDR (exclusive_word lock_id value);
        ret ← hw_query_exclusive_lock_status lock_id;
        up ex_sem lock_id ;;
        if negb (u32 ret =? value) then mret ret else mret 0.

Definition hw_release_exclusive_lock (lock_id : Z) : M unit :=
  if EX_LOCK_NUM <=? lock_id then mret tt
  else _ ← sysctrl_reg_write SYSCTRL_CSR_RW_EXCLUSIVE_OFFSET_ADDR (exclusive_word lock_id 0); mret tt.

Definition hw_lock_probe : M Z :=
  p ← kzalloc "hw_lock";
  if p =? 0 then modg (fun _ : hwlocks => HwLocks None) ;; mret (- ENOMEM)
  else
    modg (fun _ : hwlocks => HwLocks (Some (HwLock (CdevSt 0 0 0) (replicate 16 0)))) ;;
    r ← comm_init_dev (CdevSt 0 0 0) DEV_HWLOCK_NAME;
    if ctrue r.1 then
      kfree "g_hwlock" ;;
      modg (fun _ : hwlocks => HwLocks None) ;;
      mret r.1
    else
      modg (fun _ : hwlocks => HwLocks (Some (HwLock r.2 (replicate 16 0)))) ;;
      for_up (Z.to_nat HW_LOCK_NUM) 0 (init_mutex hw_sem) ;;
      for_up (Z.to_nat EX_LOCK_NUM) 0 (init_mutex ex_sem) ;;
      _ ← sysctrl_reg_write SYSCTRL_CSR_A55_LOC_DREQ_OFFSET_ADDR RELEASE_ALL_HWLOCK;
      mret 0.

Definition hw_lock_remove : M Z :=
  s ← gets (S := hwlocks);
  match g_hwlock s with
  | None => mret 0
  | Some h =>
      comm_cleanup_dev (hwlock_dev h) ;;
      kfree "g_hwlock" ;;
      modg (fun _ : hwlocks => HwLocks None) ;;
      mret 0
  end.
End HwLock.

(** ** Tasks and the M3 around one lock

    [hl_status] is the status field the hardware shows: a request takes the
    lock when it is free, a release gives it back when it is the A55's.
    [hl_sem] is the task that holds the semaphore.  A task knows how many
    times it holds the lock ([hl_holds]): a release that is interrupted on the
    semaphore returns without an error, so its caller counts it as done. *)
Module Contend.
Inductive hl_status := Free | A55 | M3.
#[export] Instance hl_status_eq_dec : EqDecision hl_status.
Proof. solve_decision. Defined.

Inductive hl_pc :=
| Idle
| AqDown      (* hw_acquire_hard_lock, before the semaphore *)
| AqQuery     (* before the first look *)
| AqRequest   (* before the request *)
| AqVerify    (* before the second look *)
| AqCancel    (* before the request is cancelled, count 0 *)
| AqGot       (* before the count is raised *)
| AqFail      (* before the semaphore is given back *)
| RlDown      (* hw_release_hard_lock, before the semaphore *)
| RlCount     (* before the count is lowered *)
| RlRelease   (* before the hardware is told, count 0 *)
| RlUp.       (* before the semaphore is given back *)
#[export] Instance hl_pc_eq_dec : EqDecision hl_pc.
Proof. solve_decision. Defined.

Record hl_task := HlTask { hl_at : hl_pc; hl_holds : nat }.
Record hl_state := HlState { hl_st : hl_status; hl_count : nat; hl_sem : option nat; hl_tasks : list hl_task }.

Definition hl_request (s : hl_status) : hl_status := match s with Free => A55 | _ => s end.
Definition hl_dreq (s : hl_status) : hl_status := match s with A55 => Free | _ => s end.

(** The new status, count and semaphore, and what task [i] becomes. *)
Definition hl_go (s : hl_state) (st : hl_status) (c : nat) (sem : option nat) (i : nat) (t : hl_task) : hl_state :=
  HlState st c sem (<[i := t]> (hl_tasks s)).
(** Only the task moves. *)
Definition hl_move (s : hl_state) (i : nat) (t : hl_task) : hl_state := hl_go s (hl_st s) (hl_count s) (hl_sem s) i t.

Inductive hl_step : hl_state -> hl_state -> Prop :=
| hl_acquire s i n : hl_tasks s !! i = Some (HlTask Idle n) -> hl_step s (hl_move s i (HlTask AqDown n))
| hl_aq_interrupted s i n : hl_tasks s !! i = Some (HlTask AqDown n) -> hl_step s (hl_move s i (HlTask Idle n))
| hl_aq_down s i n : hl_tasks s !! i = Some (HlTask AqDown n) -> hl_sem s = None ->
    hl_step s (hl_go s (hl_st s) (hl_count s) (Some i) i (HlTask AqQuery n))
| hl_aq_query s i n : hl_tasks s !! i = Some (HlTask AqQuery n) ->
    hl_step s (hl_move s i (HlTask (match hl_st s with M3 => AqFail | A55 => AqGot | Free => AqRequest end) n))
| hl_aq_request s i n : hl_tasks s !! i = Some (HlTask AqRequest n) ->
    hl_step s (hl_go s (hl_request (hl_st s)) (hl_count s) (hl_sem s) i (HlTask AqVerify n))
| hl_aq_verify s i n : hl_tasks s !! i = Some (HlTask AqVerify n) ->
    hl_step s (hl_move s i (HlTask (if decide (hl_st s = A55) then AqGot
                                    else if decide (hl_count s = 0%nat) then AqCancel else AqFail) n))
| hl_aq_cancel s i n : hl_tasks s !! i = Some (HlTask AqCancel n) ->
    hl_step s (hl_go s (hl_dreq (hl_st s)) (hl_count s) (hl_sem s) i (HlTask AqFail n))
| hl_aq_got s i n : hl_tasks s !! i = Some (HlTask AqGot n) ->
    hl_step s (hl_go s (hl_st s) (S (hl_count s)) None i (HlTask Idle (S n)))
| hl_aq_fail s i n : hl_tasks s !! i = Some (HlTask AqFail n) ->
    hl_step s (hl_go s (hl_st s) (hl_count s) None i (HlTask Idle n))
| hl_release s i n : hl_tasks s !! i = Some (HlTask Idle (S n)) -> hl_step s (hl_move s i (HlTask RlDown (S n)))
| hl_rl_interrupted s i n : hl_tasks s !! i = Some (HlTask RlDown (S n)) -> hl_step s (hl_move s i (HlTask Idle n))
| hl_rl_down s i n : hl_tasks s !! i = Some (HlTask RlDown n) -> hl_sem s = None ->
    hl_step s (hl_go s (hl_st s) (hl_count s) (Some i) i (HlTask RlCount n))
| hl_rl_nobody s i n : hl_tasks s !! i = Some (HlTask RlCount n) -> hl_count s = 0%nat ->
    hl_step s (hl_move s i (HlTask RlUp n))
| hl_rl_count s i n c : hl_tasks s !! i = Some (HlTask RlCount (S n)) -> hl_count s = S c ->
    hl_step s (hl_go s (hl_st s) c (hl_sem s) i (HlTask (if decide (c = 0%nat) then RlRelease else RlUp) n))
| hl_rl_release s i n : hl_tasks s !! i = Some (HlTask RlRelease n) ->
    hl_step s (hl_go s (hl_dreq (hl_st s)) (hl_count s) (hl_sem s) i (HlTask RlUp n))
| hl_rl_up s i n : hl_tasks s !! i = Some (HlTask RlUp n) ->
    hl_step s (hl_go s (hl_st s) (hl_count s) None i (HlTask Idle n))
| hl_m3_take s : hl_st s = Free -> hl_step s (HlState M3 (hl_count s) (hl_sem s) (hl_tasks s))
| hl_m3_give s : hl_st s = M3 -> hl_step s (HlState Free (hl_count s) (hl_sem s) (hl_tasks s)).

(** After [hw_lock_probe]. *)
Definition hl_initial (s : hl_state) : Prop :=
  hl_st s <> A55 /\ hl_count s = 0%nat /\ hl_sem s = None /\ Forall (fun t => t = HlTask Idle 0) (hl_tasks s).
Inductive hl_reachable : hl_state -> Prop :=
| hl_start s : hl_initial s -> hl_reachable s
| hl_next s s' : hl_reachable s -> hl_step s s' -> hl_reachable s'.
End Contend.
