(* ===== verification/HwLockProps.v ===== *)
(** * HwLockProps: the hardware locks

    For every interleaving of the tasks with the M3: nobody else has a lock
    that a task holds.  For the code of one call: what it observes, what it
    writes and what becomes of the count. *)
From stdpp Require Import prelude gmap list strings relations.
From Stdlib Require Import ZArith Lia.
From S2P Require Import Prelude Hw Linux LinuxRegs LinuxRegsProps HwLock.
Local Open Scope Z_scope.

(** ** The protocol *)
Section Protocol.
Import Contend.

(** Between taking and giving back the semaphore. *)
Definition critical (p : hl_pc) : bool :=
  match p with Idle | AqDown | RlDown => false | _ => true end.

(** What is known of the status and the count while nobody, or a task at [p],
    has the semaphore. *)
Definition hl_known (p : hl_pc) (st : hl_status) (c : nat) : Prop :=
  match p with
  | AqRequest | AqCancel => st <> A55 /\ c = 0%nat
  | AqVerify => c = 0%nat
  | AqGot => st = A55
  | RlRelease => st = A55 /\ c = 0%nat
  | _ => st = A55 <-> c <> 0%nat
  end.

Definition hl_invariant (s : hl_state) : Prop :=
  (sum_list_with hl_holds (hl_tasks s) <= hl_count s)%nat /\
  match hl_sem s with
  | None => hl_known Idle (hl_st s) (hl_count s) /\
      forall j t, hl_tasks s !! j = Some t -> critical (hl_at t) = false
  | Some i => exists t, hl_tasks s !! i = Some t /\ critical (hl_at t) = true /\
      hl_known (hl_at t) (hl_st s) (hl_count s) /\
      forall j u, j <> i -> hl_tasks s !! j = Some u -> critical (hl_at u) = false
  end.

Lemma holds_insert i t u l : l !! i = Some t ->
  (sum_list_with hl_holds (<[i := u]> l) + hl_holds t = sum_list_with hl_holds l + hl_holds u)%nat.
Proof.
  revert i. induction l as [| x l IH]; intros i Hi; [done |]. destruct i as [| i].
  - injection Hi as ->. simpl. lia.
  - specialize (IH i Hi). simpl. lia.
Qed.

(** A task outside the section moves, and the section is what it was. *)
Lemma outside_moves s i t u : hl_invariant s -> hl_tasks s !! i = Some t ->
  critical (hl_at t) = false -> critical (hl_at u) = false -> (hl_holds u <= hl_holds t)%nat ->
  hl_invariant (hl_move s i u).
Proof.
  intros [Hh Hs] Hi Ht Hu Hle. unfold hl_invariant. cbn.
  pose proof (holds_insert i t u _ Hi). split; [lia |].
  destruct (hl_sem s) as [k |].
  - destruct Hs as (x & Hk & Hc & Hknow & Ho). exists x.
    assert (i <> k) as Hne by (intros ->; congruence). rewrite list_lookup_insert_ne by done.
    split_and!; try done. intros j y Hj Hy. destruct (decide (j = i)) as [-> | Hji].
    + apply list_lookup_insert_Some in Hy as [(_ & <- & _) | [[] _]]; done.
    + rewrite list_lookup_insert_ne in Hy by done. by eapply Ho.
  - destruct Hs as [Hknow Ho]. split; [done |]. intros j y Hy.
    apply list_lookup_insert_Some in Hy as [(_ & <- & _) | [_ Hy]]; [done | by eapply Ho].
Qed.

(** The task in the section moves, takes or leaves it. *)
Lemma inside_moves s i t u st c sem : hl_invariant s -> hl_tasks s !! i = Some t ->
  (hl_sem s = None \/ critical (hl_at t) = true) ->
  sem = (if critical (hl_at u) then Some i else None) ->
  (hl_holds u + hl_count s <= hl_holds t + c)%nat ->
  ((if critical (hl_at t) then hl_known (hl_at t) else hl_known Idle) (hl_st s) (hl_count s) ->
    (if critical (hl_at u) then hl_known (hl_at u) else hl_known Idle) st c) ->
  hl_invariant (hl_go s st c sem i u).
Proof.
  intros [Hh Hs] Hi Hin -> Hcount Hknow. unfold hl_invariant. cbn.
  pose proof (holds_insert i t u _ Hi). split; [lia |].
  assert (forall j y, j <> i -> hl_tasks s !! j = Some y -> critical (hl_at y) = false) as Ho.
  { intros j y Hj Hy. destruct (hl_sem s) as [k |]; [| by eapply (proj2 Hs)].
    destruct Hin as [? | Ht]; [done |]. destruct Hs as (x & Hk & _ & _ & Ho).
    destruct (decide (i = k)) as [-> | Hne]; [by eapply Ho |]. rewrite (Ho i t Hne Hi) in Ht. done. }
  assert ((if critical (hl_at t) then hl_known (hl_at t) else hl_known Idle) (hl_st s) (hl_count s)) as Hk.
  { destruct (hl_sem s) as [k |].
    - destruct Hin as [? | Ht]; [done |]. rewrite Ht. destruct Hs as (x & Hk & _ & Hx & Ho').
      destruct (decide (i = k)) as [-> | Hne]; [congruence |]. rewrite (Ho' i t Hne Hi) in Ht. done.
    - destruct Hs as [Hx Hall]. by rewrite (Hall i t Hi). }
  apply Hknow in Hk. destruct (critical (hl_at u)) eqn:Eu.
  - exists u. split; [apply list_lookup_insert_eq; by eapply lookup_lt_Some |]. split_and!; try done.
    intros j y Hj Hy. rewrite list_lookup_insert_ne in Hy by done. by eapply Ho.
  - split; [done |]. intros j y Hy. destruct (decide (j = i)) as [-> | Hj].
    + apply list_lookup_insert_Some in Hy as [(_ & <- & _) | [[] _]]; done.
    + rewrite list_lookup_insert_ne in Hy by done. by eapply Ho.
Qed.

(** The M3 changes a status that is not the A55's. *)
Lemma m3_moves s st : hl_invariant s -> hl_st s <> A55 -> st <> A55 ->
  hl_invariant (HlState st (hl_count s) (hl_sem s) (hl_tasks s)).
Proof.
  intros [Hh Hs] Hold Hnew. split; [done |]. cbn [hl_sem hl_tasks hl_st hl_count].
  assert (forall p, hl_known p (hl_st s) (hl_count s) -> hl_known p st (hl_count s)) as Hk by (intros []; cbn; intuition).
  destruct (hl_sem s).
  - destruct Hs as (t & Hi & Hc & Hknow & Ho). exists t. auto.
  - destruct Hs as [Hknow Ho]. split; [by apply Hk | done].
Qed.

Lemma hl_invariant_step s s' : hl_invariant s -> hl_step s s' -> hl_invariant s'.
Proof.
  intros Hs Hst.
  assert (forall i t, hl_tasks s !! i = Some t -> critical (hl_at t) = true -> hl_sem s = Some i) as Hsem.
  { intros i t Hi Ht. destruct Hs as [_ Hs]. destruct (hl_sem s) as [k |].
    - destruct Hs as (_ & _ & _ & _ & Ho). destruct (decide (i = k)) as [-> | Hne]; [done |].
      by rewrite (Ho i t Hne Hi) in Ht.
    - destruct Hs as [_ Ho]. by rewrite (Ho i t Hi) in Ht. }
  destruct Hst as [s i n Hi | s i n Hi | s i n Hi Hn | s i n Hi | s i n Hi | s i n Hi | s i n Hi | s i n Hi | s i n Hi
    | s i n Hi | s i n Hi | s i n Hi Hn | s i n Hi Hc | s i n c Hi Hc | s i n Hi | s i n Hi | s Hm | s Hm];
    try (eapply outside_moves; [exact Hs | exact Hi | done | done | cbn; lia]);
    try (unfold hl_move; eapply inside_moves;
      [exact Hs | exact Hi | (by left) || (by right) | (by rewrite ?(Hsem i _ Hi)) || (rewrite (Hsem i _ Hi) by done) | cbn; lia |]).
  all: try (repeat case_decide; destruct (hl_st s), (hl_count s); cbn in *; solve [intuition (congruence || lia)]).
  - apply m3_moves; [done | by rewrite Hm | done].
  - apply m3_moves; [done | by rewrite Hm | done].
Qed.

Lemma hl_reachable_invariant s : hl_reachable s -> hl_invariant s.
Proof.
  induction 1 as [s (Hst & Hc & Hsem & Ht) | s s' _ IH Hst]; [| by eapply hl_invariant_step].
  rewrite Forall_lookup in Ht. split.
  - rewrite Hc. clear -Ht. induction (hl_tasks s) as [| t l IH]; [done |]. cbn.
    rewrite (Ht 0%nat t eq_refl). cbn. apply IH. intros i x Hx. by apply (Ht (S i)).
  - rewrite Hsem, Hc. split; [cbn; intuition |]. intros j t Hj. by rewrite (Ht j t Hj).
Qed.

Lemma holds_le i t l : l !! i = Some t -> (hl_holds t <= sum_list_with hl_holds l)%nat.
Proof.
  revert i. induction l as [| x l IH]; intros [| i] Hi; [done | done | injection Hi as ->; cbn; lia |].
  specialize (IH i Hi). cbn. lia.
Qed.


(** One task that acquired the lock. *)
Lemma one_holds : hl_reachable (HlState A55 1 None [HlTask Idle 1]).
Proof.
  assert (hl_reachable (HlState Free 0 None [HlTask Idle 0])) as H by (apply hl_start; split_and!; by repeat constructor).
  eapply hl_next in H; [| by apply (hl_acquire _ 0)]. eapply hl_next in H; [| by apply (hl_aq_down _ 0)].
  eapply hl_next in H; [| by apply (hl_aq_query _ 0)]. eapply hl_next in H; [| by apply (hl_aq_request _ 0)].
  eapply hl_next in H; [| by apply (hl_aq_verify _ 0)].
  exact (hl_next _ _ H (hl_aq_got (HlState A55 0 (Some 0%nat) [HlTask AqGot 0]) 0 0 eq_refl)).
Qed.


(** *** A release that gets lost

    The times the tasks hold the lock fall behind its count. *)
Definition hl_surplus (s : hl_state) : Prop := (sum_list_with hl_holds (hl_tasks s) < hl_count s)%nat.

(** No task makes up for it: a task lowers the count only with its own. *)
Lemma hl_surplus_step s s' : hl_surplus s -> hl_step s s' -> hl_surplus s'.
Proof.
  unfold hl_surplus. intros Hs Hst.
  destruct Hst as [s i n Hi | s i n Hi | s i n Hi _ | s i n Hi | s i n Hi | s i n Hi | s i n Hi | s i n Hi | s i n Hi
    | s i n Hi | s i n Hi | s i n Hi _ | s i n Hi _ | s i n c Hi Hc | s i n Hi | s i n Hi | s _ | s _]; try exact Hs;
    cbn [hl_tasks hl_count hl_go hl_move];
    match goal with |- context [<[i := ?u]> _] => pose proof (holds_insert i _ u _ Hi) as Hh end; cbn in Hh; lia.
Qed.

(** A count that is not 0 belongs to the A55. *)
Lemma hl_counted s : hl_invariant s -> hl_count s <> 0%nat -> hl_st s = A55.
Proof.
  intros [_ Hs] Hc. destruct (hl_sem s) as [k |]; [| by apply Hs].
  destruct Hs as (u & _ & _ & Hk & _). destruct (hl_at u); cbn in Hk; tauto.
Qed.

(** C34: a release can get lost.  When a task is interrupted while it waits for
    the semaphore, [hw_release_hard_lock] returns without an error and without
    releasing.  From then on the lock is the A55's in every state that can
    follow, whatever the tasks and the M3 do (with the tasks releasing only
    what they acquired): its count stays above the number of times the tasks
    hold it, so no release brings it to 0, and the M3 never gets the lock. *)
Theorem hw_lock_release_lost s i n : hl_reachable s -> hl_tasks s !! i = Some (HlTask RlDown (S n)) ->
  let lost := hl_move s i (HlTask Idle n) in
  hl_step s lost /\
  forall s', rtc hl_step lost s' ->
    hl_st s' = A55 /\ (sum_list_with hl_holds (hl_tasks s') < hl_count s')%nat /\
    forall s'', hl_step s' s'' -> hl_st s'' <> M3.
Proof.
  intros Hr Hi lost. assert (hl_step s lost) as Hlost by by apply hl_rl_interrupted. split; [exact Hlost |].
  pose proof (hl_reachable_invariant s Hr) as [Hh _].
  assert (hl_surplus lost) as Hs.
  { unfold hl_surplus, lost. cbn [hl_tasks hl_count hl_go hl_move]. pose proof (holds_insert i _ (HlTask Idle n) _ Hi) as H.
    cbn [hl_holds] in H. lia. }
  assert (forall s', rtc hl_step lost s' -> hl_st s' = A55 /\ hl_surplus s') as Hall.
  { intros s' Hrtc. assert (hl_reachable lost) as Hl by (by eapply hl_next). clear Hlost.
    induction Hrtc as [x | x y z Hxy _ IH]; [| by apply IH; [eapply hl_surplus_step | eapply hl_next]].
    split; [| exact Hs]. apply hl_counted; [by apply hl_reachable_invariant |]. unfold hl_surplus in Hs. lia. }
  intros s' Hrtc. destruct (Hall s' Hrtc) as [Hst Hsur]. split_and!; [done | exact Hsur |].
  intros s'' Hstep. destruct (Hall s'') as [-> _]; [by eapply rtc_r | done].
Qed.

(** The only task, interrupted in its release: it holds the lock no longer, no
    call is under way, and the M3 never gets it. *)
Lemma hw_lock_release_lost_witness :
  hl_step (HlState A55 1 None [HlTask RlDown 1]) (HlState A55 1 None [HlTask Idle 0]) /\
  (forall s', rtc hl_step (HlState A55 1 None [HlTask Idle 0]) s' -> hl_st s' = A55).
Proof.
  assert (hl_reachable (HlState A55 1 None [HlTask RlDown 1])) as Hr
    by exact (hl_next _ _ one_holds (hl_release (HlState A55 1 None [HlTask Idle 1]) 0 0 eq_refl)).
  destruct (hw_lock_release_lost (HlState A55 1 None [HlTask RlDown 1]) 0 0 Hr eq_refl) as [Hstep H].
  split; [exact Hstep |]. intros s' Hs. apply (H s' Hs).
Defined.
End Protocol.

(** ** One call, in the code *)

(** What was read from one address. *)
Definition reads_of (a : Z) (t : list event) : list Z :=
  omap (fun e => match e with Rd b v => if decide (b = a) then Some v else None | _ => None end) t.
Lemma reads_of_app a t1 t2 : reads_of a (t1 ++ t2) = reads_of a t1 ++ reads_of a t2.
Proof. apply omap_app. Qed.

Lemma writes_under l i t t' : under l i t t' -> writes t' = writes t.
Proof. intros (f & v & ->). change (writes (t ++ [Sy (Call "spin_unlock_irqrestore" l [i; f]) v]) = writes t). by rewrite writes_app, app_nil_r. Qed.
Lemma reads_under a l i t t' : under l i t t' -> reads_of a t' = reads_of a t.
Proof.
  intros (f & v & ->). change (reads_of a (t ++ [Sy (Call "spin_unlock_irqrestore" l [i; f]) v]) = reads_of a t).
  by rewrite reads_of_app, app_nil_r.
Qed.

Section Code.
Context {G D : Type} `{MD : Machine D} `{HR : !Has G mgrs} `{HL : !Has G hwlocks} `{IN : !Indep G mgrs hwlocks}.
Implicit Types (w : world G D).
Abbreviation sysctrl_of w := (mgr (hget (S := mgrs) (glob w)) Sysctrl).
Abbreviation ST w := (reg_at (sysctrl_of w) SYSCTRL_CSR_LOCK_CORE_ST_OFFSET_ADDR).
Abbreviation REQ w := (reg_at (sysctrl_of w) SYSCTRL_CSR_A55_LOCK_REQ_OFFSET_ADDR).
Abbreviation DREQ w := (reg_at (sysctrl_of w) SYSCTRL_CSR_A55_LOC_DREQ_OFFSET_ADDR).
Abbreviation locks_of w := (hget (S := hwlocks) (glob w)).

(** The field of a lock in the status word. *)
Definition status_of (id v : Z) : Z := Z.land (Z.shiftr v (2 * id)) 3.

(** A store of a word with the bit of a lock set, whatever else was there. *)
Definition asks (id : Z) (old new : Z) : Prop :=
  forall i, 0 <= i < 32 -> Z.testbit new i = (i =? id) || Z.testbit old i.

(** What [hw_get_hard_lock] may observe and write when the count is [c]. *)
Inductive got (id c req dreq : Z) : Z -> list Z -> list (Z * Z) -> Prop :=
| got_nothing ret : ret <> 0 -> got id c req dreq ret [] []
| got_m3 v : status_of id v = M3_LOCKED -> got id c req dreq (-1) [v] []
| got_again v : status_of id v = A55_LOCKED -> got id c req dreq 0 [v] []
| got_new v v' x y : status_of id v <> M3_LOCKED -> status_of id v <> A55_LOCKED -> asks id x y ->
    status_of id v' = A55_LOCKED -> got id c req dreq 0 [v; v'] [(req, y)]
| got_refused v v' x y : status_of id v <> M3_LOCKED -> status_of id v <> A55_LOCKED -> asks id x y ->
    status_of id v' <> A55_LOCKED -> c <> 0 -> got id c req dreq (-1) [v; v'] [(req, y)]
| got_cancelled v v' x y x' y' : status_of id v <> M3_LOCKED -> status_of id v <> A55_LOCKED -> asks id x y ->
    status_of id v' <> A55_LOCKED -> c = 0 -> asks id x' y' ->
    got id c req dreq (-1) [v; v'] [(req, y); (dreq, y')].

Lemma emits_status id w (P : Z -> list event -> Prop) : 0 <= id < 16 ->
  (mgr_usable (sysctrl_of w) = false -> P (-1) []) ->
  (mgr_usable (sysctrl_of w) = true -> forall v t, reads_of (ST w) t = [v] -> writes t = [] -> P (status_of id v) t) ->
  emits (hw_query_lock_status id) w P.
Proof.
  intros Hid Hno Hyes. unfold hw_query_lock_status, HW_LOCK_NUM. replace (16 <=? id) with false by lia.
  apply emits_bind. unfold sysctrl_reg_read, mgr_reg_read. cbn [negb].
  apply emits_access; intros Hu; [intros w1 _; by apply emits_ret, Hno |].
  intros w1 Hw1. apply emits_bind, emits_readl. intros v Hv w2 Hw2. apply emits_ret. intros t Ht w3 Hw3.
  apply emits_ret. rewrite app_nil_r. apply Hyes; [done | | by rewrite (writes_under _ _ _ _ Ht)].
  rewrite (reads_under _ _ _ _ _ Ht). cbn. by rewrite decide_True.
Qed.

Lemma emits_ask off id w (P : Z -> list event -> Prop) : 0 <= id < 16 -> 
  (mgr_usable (sysctrl_of w) = false -> P (- ENODEV) []) ->
  (mgr_usable (sysctrl_of w) = true -> forall x y t, asks id x y -> writes t = [(reg_at (sysctrl_of w) off, y)] ->
     (forall a, a <> reg_at (sysctrl_of w) off -> reads_of a t = []) -> P 0 t) ->
  emits (sysctrl_reg_read_write off (u32 (Z.shiftl 1 id)) (u32 (Z.shiftl 1 id))) w P.
Proof.
  intros Hid Hno Hyes.
  assert (fits 32 (Z.shiftl 1 id)) as Hf.
  { rewrite Z.shiftl_1_l. split; [lia |]. apply Z.pow_lt_mono_r; lia. }
  rewrite wrap_id by done.
  apply emits_bind, emits_access; intros Hu; [intros w1 _; apply emits_ret; by apply Hno |].
  intros w1 Hw1. apply emits_bind, emits_readl. intros x Hx w2 Hw2. apply emits_writel.
  rewrite (wrap_id 32) by (by apply merge_fits).
  intros t Ht w3 Hw3. apply emits_ret. rewrite app_nil_r. apply (Hyes Hu x (Z.lor (Z.land x (bnot 32 (Z.shiftl 1 id))) (Z.land (Z.shiftl 1 id) (Z.shiftl 1 id)))).
  - intros i Hi. rewrite merge_testbit by done. rewrite Z.shiftl_1_l, Z.pow2_bits_eqb by lia.
    destruct (Z.eqb_spec id i) as [-> |]; [by rewrite Z.eqb_refl |]. by replace (i =? id) with false by lia.
  - by rewrite (writes_under _ _ _ _ Ht).
  - intros a Ha. rewrite (reads_under _ _ _ _ _ Ht). cbn. by rewrite decide_False.
Qed.

Lemma emits_count id h c w (P : Z -> list event -> Prop) : g_hwlock (locks_of w) = Some h ->
  lock_count h !! Z.to_nat id = Some c -> P c [] -> emits (get_lock_count id) w P.
Proof.
  intros Hh Hc HP. unfold get_lock_count, hwlock_deref. apply emits_bind, emits_bind, emits_gets. intros w1 _.
  rewrite Hh. apply emits_ret. intros w2 _. rewrite Hc. by apply emits_ret.
Qed.

Lemma reg_at_apart r a b : 0 <= a < 4096 -> 0 <= b < 4096 -> a <> b -> reg_at r a <> reg_at r b.
Proof.
  unfold reg_at, wrap. intros Ha Hb Hne E. apply Hne.
  assert ((virt_base r + a - (virt_base r + b)) mod 2 ^ 64 = 0) as H by (rewrite Zminus_mod, E, Z.sub_diag; done).
  replace (virt_base r + a - (virt_base r + b)) with (a - b) in H by lia.
  apply Z.mod_divide in H as [k Hk]; [| done]. change (2 ^ 64) with 18446744073709551616 in Hk. nia.
Qed.

Lemma emits_get_hard_lock id h c w : 0 <= id < 16 -> g_hwlock (locks_of w) = Some h ->
  lock_count h !! Z.to_nat id = Some c ->
  emits (hw_get_hard_lock id) w (fun ret t => got id c (REQ w) (DREQ w) ret (reads_of (ST w) t) (writes t)).
Proof.
  intros Hid Hh Hc. unfold hw_get_hard_lock. cbv zeta. apply emits_bind, emits_status; [done | |].
  - intros Hu w1 Hw1. apply emits_bind, emits_ask; [done | |]; rewrite Hw1, ?Hu; [| done].
    intros _ w2 Hw2. apply emits_ret. by apply got_nothing.
  - intros Hu v t Hr Hwr w1 Hw1. destruct (Z.eqb_spec (status_of id v) M3_LOCKED) as [E |];
      [apply emits_ret; rewrite app_nil_r, Hr, Hwr; by apply got_m3 |].
    destruct (Z.eqb_spec (status_of id v) A55_LOCKED) as [E |];
      [apply emits_ret; rewrite app_nil_r, Hr, Hwr; by apply got_again |].
    apply emits_bind, emits_ask; [done | rewrite Hw1; congruence |]. rewrite Hw1.
    intros _ x y t1 Hxy Hw1' Hr1 w2 Hw2.
    assert (ST w <> REQ w) as Hne1 by (by apply reg_at_apart). assert (ST w <> DREQ w) as Hne2 by (by apply reg_at_apart).
    change (ctrue 0) with false. cbv iota.
    apply emits_bind, emits_status; [done | rewrite Hw2; congruence |]. rewrite Hw2.
    intros _ v' t2 Hr2 Hwr2 w3 Hw3.
    destruct (Z.eqb_spec (status_of id v') A55_LOCKED) as [E |].
    { apply emits_ret. rewrite app_nil_r, !reads_of_app, !writes_app, Hr, Hwr, Hw1', (Hr1 _ Hne1), Hr2, Hwr2.
      cbn [app]. by eapply got_new. }
    apply emits_bind. eapply emits_count; [rewrite Hw3; exact Hh | exact Hc |]. intros w4 Hw4. cbn [app].
    assert (glob w4 = glob w) as Hg by congruence.
    apply emits_bind. destruct (Z.eqb_spec c 0) as [Ec |]; cbn [when].
    + apply emits_bind, emits_ask; [done | rewrite Hg; congruence |]. rewrite Hg.
      intros _ x' y' t3 Hxy' Hw3' Hr3 w5 _. apply emits_ret. intros w6 _. apply emits_ret.
      rewrite !app_nil_r, !reads_of_app, !writes_app, Hr, Hwr, Hw1', (Hr1 _ Hne1), Hr2, Hwr2, Hw3', (Hr3 _ Hne2).
      cbn [app]. by eapply got_cancelled.
    + apply emits_ret. intros w5 _. apply emits_ret.
      rewrite !app_nil_r, !reads_of_app, !writes_app, Hr, Hwr, Hw1', (Hr1 _ Hne1), Hr2, Hwr2.
      cbn [app]. by eapply got_refused.
Qed.

Definition counted (id v : Z) (h : hw_lock) : hwlocks :=
  HwLocks (Some (HwLock (hwlock_dev h) (<[Z.to_nat id := u32 v]> (lock_count h)))).
(** [mid] inside the section of the lock's semaphore. *)
Definition in_section (id : Z) (mid t : list event) : Prop := exists d v, s32 d = 0 /\
  t = Sy (Call "down_interruptible" hw_sem [id]) d :: mid ++ [Sy (Call "up" hw_sem [id]) v].
(** The wait for the semaphore was interrupted. *)
Definition gave_up (id ret : Z) (t : list event) : Prop := exists d, s32 d = ret /\ ret <> 0 /\
  t = [Sy (Call "down_interruptible" hw_sem [id]) d].

(** C33: acquiring a hardware lock.  Either the wait for the lock's semaphore
    was interrupted, and nothing else happened; or, in the section of the
    semaphore, the status was looked at and a request made as [got] says
    (none when the lock is the M3's or already the A55's; the request
    cancelled when it is not granted and the count is 0).  The call succeeds
    exactly when the last look showed the A55, and then, and only then, the
    lock's own count goes up by one. *)
Theorem hw_acquire_contract id h c w : 0 <= id < 16 -> g_hwlock (locks_of w) = Some h ->
  lock_count h !! Z.to_nat id = Some c ->
  wp (hw_acquire_hard_lock id) (fun ret w' => exists t, tr w' = tr w ++ t /\
    (gave_up id ret t /\ glob w' = glob w \/
     exists mid r, in_section id mid t /\ got id c (REQ w) (DREQ w) r (reads_of (ST w) mid) (writes mid) /\
       (r = 0 /\ ret = 0 /\ glob w' = hput (counted id (c + 1) h) (glob w) \/
        r <> 0 /\ ret = - ENOLCK /\ glob w' = glob w))) w.
Proof.
  intros Hid Hh Hc. unfold hw_acquire_hard_lock, HW_LOCK_NUM. replace (16 <=? id) with false by lia.
  unfold hwlock_deref. do 2 apply wp_bind. apply wp_gets. rewrite Hh. apply wp_ret.
  unfold down_interruptible, kcall_s32. apply wp_bind, wp_bind, wp_sys. intros d dv Hd. apply wp_ret.
  destruct (ctrue (s32 d)) eqn:Ed.
  { apply wp_ret. cbn [glob tr]. eexists. split; [done |]. left. split; [| done]. exists d. unfold ctrue in Ed. split_and!; [done | lia | done]. }
  unfold ctrue in Ed. apply negb_false_iff, Z.eqb_eq in Ed.
  apply wp_bind. eapply wp_mono; [eapply (emits_get_hard_lock id h c); done |]. cbv beta. cbn [glob tr].
  intros r w2 (Hg & mid & Ht & Hgot).
  destruct (ctrue r) eqn:Er; unfold ctrue in Er.
  - unfold up. apply wp_bind, wp_sys_. intros v d2 _. apply wp_ret. cbn [glob tr].
    eexists. split; [by rewrite Ht, <- !app_assoc |]. right. exists mid, r. split; [by exists d, v |].
    split; [exact Hgot |]. right. split_and!; [lia | done | done].
  - apply negb_false_iff, Z.eqb_eq in Er. subst r.
    apply wp_bind. eapply wp_mono; [eapply (emits_count id h c _ (fun x t => x = c /\ t = []));
      [by rewrite Hg | done | done] |]. cbv beta. intros x w3 (Hg3 & t3 & Ht3 & -> & ->). rewrite app_nil_r in Ht3.
    unfold set_lock_count, hwlock_deref. wp_step. wp_step. wp_step. wp_step. rewrite Hg3, Hg, Hh. apply wp_ret.
    wp_step. rewrite Hg3, Hg. unfold up. apply wp_bind, wp_sys_. intros v d2 _. apply wp_ret. cbn [glob tr].
    eexists. split; [by rewrite Ht3, Ht, <- !app_assoc |]. right. exists mid, 0. split; [by exists d, v |].
    split; [exact Hgot |]. left. split_and!; done.
Qed.

(** releasing a hardware lock.  Either the wait for the semaphore was
    interrupted, and the lock keeps its count although nothing tells the
    caller; or, in the section of the semaphore, a count of 0 is left alone,
    any other is lowered by one, and the hardware is told exactly when it
    reaches 0. *)
Theorem hw_release_contract id h c w : 0 <= id < 16 -> g_hwlock (locks_of w) = Some h ->
  lock_count h !! Z.to_nat id = Some c -> fits 32 c ->
  wp (hw_release_hard_lock id) (fun _ w' => exists t, tr w' = tr w ++ t /\
    ((exists ret, gave_up id ret t) /\ glob w' = glob w \/
     exists mid, in_section id mid t /\
       (c = 0 /\ mid = [] /\ glob w' = glob w \/
        1 < c /\ mid = [] /\ glob w' = hput (counted id (c - 1) h) (glob w) \/
        c = 1 /\ glob w' = hput (counted id 0 h) (glob w) /\
          if mgr_usable (sysctrl_of w) then exists x y, asks id x y /\ writes mid = [(DREQ w, y)] else mid = []))) w.
Proof.
  intros Hid Hh Hc Hf. unfold hw_release_hard_lock, HW_LOCK_NUM. replace (16 <=? id) with false by lia.
  unfold hwlock_deref. do 2 apply wp_bind. apply wp_gets. rewrite Hh. apply wp_ret.
  unfold down_interruptible, kcall_s32. apply wp_bind, wp_bind, wp_sys. intros d dv Hd. apply wp_ret.
  destruct (ctrue (s32 d)) eqn:Ed; unfold ctrue in Ed.
  { apply wp_ret. cbn [glob tr]. eexists. split; [done |]. left. split; [| done]. exists (s32 d), d. split_and!; [done | lia | done]. }
  apply negb_false_iff, Z.eqb_eq in Ed.
  apply wp_bind. eapply wp_mono; [eapply (emits_count id h c _ (fun x t => x = c /\ t = [])); done |].
  cbv beta. cbn [glob tr]. intros x w3 (Hg3 & t3 & Ht3 & -> & ->). rewrite app_nil_r in Ht3.
  destruct (Z.eqb_spec c 0) as [Ec |].
  { apply wp_bind, wp_ret. unfold up. apply wp_sys_. intros v d2 _. cbn [glob tr].
    eexists. split; [by rewrite Ht3, <- !app_assoc |]. right. exists []. split; [by exists d, v |]. by left. }
  cbv zeta. apply wp_bind. unfold set_lock_count, hwlock_deref. do 4 wp_step. rewrite Hg3, Hh. apply wp_ret. wp_step.
  rewrite Hg3. set (g := hput _ _).
  assert (forall w4, glob w4 = g -> wp (get_lock_count id) (fun x w5 => x = c - 1 /\ glob w5 = g /\ tr w5 = tr w4) w4) as Hget.
  { intros w4 Hg4. eapply wp_mono; [eapply (emits_count id (HwLock (hwlock_dev h) (<[Z.to_nat id := u32 (c - 1)]> (lock_count h))) (c - 1) _ (fun x t => x = c - 1 /\ t = [])) |].
    - rewrite Hg4. unfold g. by rewrite hget_hput.
    - cbn [lock_count]. rewrite list_lookup_insert_eq by (by eapply lookup_lt_Some). f_equal. apply wrap_id. destruct Hf. split; lia.
    - done.
    - cbv beta. intros y w5 (Hg5 & t5 & Ht5 & -> & ->). rewrite app_nil_r in Ht5. split_and!; congruence. }
  apply wp_bind. eapply wp_mono; [by apply Hget |]. cbv beta. cbn [tr]. intros y w5 (-> & Hg5 & Ht5).
  assert (mgr (hget (S := mgrs) g) Sysctrl = sysctrl_of w) as Hsys by (unfold g; by rewrite indep_r).
  destruct (Z.eqb_spec (c - 1) 0) as [Ec1 |]; cbn [when].
  - assert (c = 1) as -> by lia. apply wp_bind.
    eapply wp_mono; [apply (emits_ask SYSCTRL_CSR_A55_LOC_DREQ_OFFSET_ADDR id w5 (fun _ t =>
      if mgr_usable (sysctrl_of w) then exists x y, asks id x y /\ writes t = [(DREQ w, y)] else t = [])); [done | |] |].
    + rewrite Hg5, Hsys. by intros ->.
    + rewrite Hg5, Hsys. intros -> x y t Ha Hw _. by exists x, y.
    + cbv beta. intros r w6 (Hg6 & t6 & Ht6 & HP). apply wp_ret. unfold up. apply wp_sys_. intros v d2 _. cbn [glob tr].
      eexists. split; [by rewrite Ht6, Ht5, Ht3, <- !app_assoc |]. right. exists t6. split; [by exists d, v |].
      right. right. split_and!; [done | by rewrite Hg6, Hg5 | done].
  - apply wp_ret. unfold up. apply wp_sys_. intros v d2 _. cbn [glob tr].
    eexists. split; [by rewrite Ht5, Ht3, <- !app_assoc |]. right. exists []. split; [by exists d, v |].
    right. left. destruct Hf. split_and!; [lia | done | by rewrite Hg5].
Qed.
End Code.

(** ** A driver that was probed, before anything was locked *)
Abbreviation hw_globals := (mgrs * hwlocks)%type.
Definition idle_lock : hw_lock := HwLock (CdevSt 250 0 0x7000) (replicate 16 0).
Definition held_lock : hw_lock := HwLock (CdevSt 250 0 0x7000) (<[3%nat := 1]> (replicate 16 0)).
Definition hw_world (h : hw_lock) : world hw_globals ram := World (mapped_mgrs, HwLocks (Some h)) ram0 [].

(** Registers that are plain memory do not grant the lock. *)
Lemma hw_acquire_contract_witness :
  wp (hw_acquire_hard_lock 3) (fun ret w' => ret = 0 -> lock_count <$> g_hwlock (hget (glob w')) = Some (<[3%nat := 1]> (replicate 16 0)))
    (hw_world idle_lock).
Proof.
  eapply wp_mono; [apply (hw_acquire_contract 3 idle_lock 0 (hw_world idle_lock)); [lia | reflexivity | reflexivity] |].
  cbv beta. intros ret w' (t & _ & [[(d & _ & Hd & _) _] | (mid & r & _ & _ & [(_ & _ & Hg) | (_ & -> & _)])]) Hr.
  - contradiction.
  - rewrite Hg. reflexivity.
  - discriminate.
Defined.

Lemma hw_release_contract_witness :
  wp (hw_release_hard_lock 3) (fun _ w' => exists l, lock_count <$> g_hwlock (hget (glob w')) = Some l /\
    (l = replicate 16 0 \/ l = lock_count held_lock)) (hw_world held_lock).
Proof.
  eapply wp_mono; [apply (hw_release_contract 3 held_lock 1 (hw_world held_lock));
    [lia | reflexivity | reflexivity | split; [discriminate | reflexivity]] |].
  cbv beta. intros ret w' (t & _ & [[_ Hg] | (mid & _ & [(E & _) | [(E & _) | (_ & Hg & _)]])]).
  - rewrite Hg. eexists. split; [reflexivity | by right].
  - discriminate.
  - lia.
  - rewrite Hg. eexists. split; [reflexivity | by left].
Defined.
