(* ===== verification/MsgScm3.v ===== *)
(** * MsgScm3: messages between Linux and the secure M3
    (non_real_time/drivers/msg_scm3)

    Two rings of sixteen 16-byte messages in memory shared with the M3, one in
    each direction.  A process asks through [msg_scm3_ioctl]: it gets one of
    sixteen data buffers, whose number goes with the message; the answer comes
    back on the other ring, where [msg_delaywork_handle] finds it and wakes the
    process.  The indices of the rings are words of the device, since the M3
    moves them too; messages and buffers are byte memory.  While a process
    waits for its answer other code runs: [meanwhile], a parameter.  [wfuel]
    bounds the messages handled in one go.

    The file [MsgRing] has one ring with its two ends as a step relation. *)
From stdpp Require Import prelude gmap list strings.
From Stdlib Require Import ZArith Lia.
From S2P Require Import Prelude Hw Mem Securec Linux LinuxRegs.
Local Open Scope Z_scope.

Definition MSG_Q_BASE_ADDR : Z := 0x87040000.
Definition MSG_Q_HEAD_RSV_SIZE : Z := 8192.
Definition MSG_Q_DEPTH : Z := 16.
Definition MSG_CMD_LEN : Z := 16.
Definition MSG_CMD_CRC_LEN : Z := 2.
Definition MSG_DATA_MAX_SIZE : Z := 4096.
Definition MSG_DATA_TX_MIN_SIZE : Z := 6.
Definition MSG_DATA_RX_MIN_SIZE : Z := 8.
Definition MSG_Q_SIZE : Z := MSG_Q_DEPTH * MSG_CMD_LEN.
Definition MSG_A55_M3_INT_TRIGGER : Z := 1.
Definition MSG_Q_DATA_ADDR : Z := MSG_Q_BASE_ADDR + MSG_Q_HEAD_RSV_SIZE.
Definition MSG_Q_DATA_SIZE : Z := MSG_Q_DEPTH * MSG_DATA_MAX_SIZE.
Definition msg_data_address (index : Z) : Z := MSG_Q_DATA_ADDR + index * MSG_DATA_MAX_SIZE.
Definition MSG_Q_PI_SIZE : Z := 4.
Definition MSG_Q_CI_SIZE : Z := 4.
Definition MSG_Q_INIT_FLAG_SIZE : Z := 4.
Definition MSG_Q_CTL_SIZE : Z := MSG_Q_PI_SIZE + MSG_Q_CI_SIZE + MSG_Q_INIT_FLAG_SIZE.
Definition MSG_Q_INIT_MAGIC : Z := 0x171F.
Definition MSG_SEND_RETRY_TIMES : Z := 100.
Definition MSG_RESP_CMD_MASK : Z := 0x80.
Definition MSG_WAIT_TIME_OUT : Z := 60000.
Definition SEC_MODULE_DEVNAME : string := "sec_module".
(** [_IOWR('s', 0x01, int)] *)
Definition SEC_MODULE_CMD_TX_RX : Z := 0xC0047301.
Definition SYSCTRL_CSR_A55_ASSERT_SOFT_INT_OFFSET_ADDR : Z := 0x10C.
Definition SYSCTRL_CSR_SC_ASSERT_SOFT_INT_OFFSET_ADDR : Z := 0x12C.

(** [msg_queue_type_e] *)
Definition MSG_Q_TYPE_A55 : Z := 0.
Definition MSG_Q_TYPE_SECURE_M3 : Z := 1.
Definition MSG_Q_TYPE_BUTT : Z := 2.

(** [sec_msg_error_code_e] *)
Definition MSG_TX_LEN_OVERFLOW_ERROR : Z := 1.
Definition MSG_TX_LEN_UNDERFLOW_ERROR : Z := 2.
Definition MSG_RX_MSG_OVERFLOW_ERROR : Z := 3.
Definition MSG_RX_LEN_UNDERFLOW_ERROR : Z := 4.
Definition MSG_TX_TIME_OUT_ERROR : Z := 5.
Definition MSG_RX_TIME_OUT_ERROR : Z := 6.
Definition MSG_TX_BUFFER_NULL_ERROR : Z := 7.
Definition MSG_RX_BUFFER_NULL_ERROR : Z := 8.
Definition MSG_GET_DATA_BUFFER_ERROR : Z := 9.
Definition MSG_CP_FROM_USER_CMD_ERROR : Z := 10.
Definition MSG_CP_FROM_USER_DATA_ERROR : Z := 11.
Definition MSG_CP_TO_USER_CMD_ERROR : Z := 12.
Definition MSG_CP_TO_USER_DATA_ERROR : Z := 13.
Definition MSG_IO_CMD_NOT_SUPPORT : Z := 14.
Definition MSG_COMM_INTERNAL_ERROR : Z := 15.

(** The fields of [msg_comm_data_s], packed. *)
Definition data_addr (msg : Z) : Z := msg.
Definition data_len (msg : Z) : Z := msg + 8.
Definition msg_index (msg : Z) : Z := msg + 12.
Definition msg_crc (msg : Z) : Z := msg + 14.

(** ** The checksum *)
Definition g_crc_table_lo : list Z :=
  [0; 16; 32; 48; 64; 80; 96; 112; 129; 145; 161; 177; 193; 209; 225; 241;
   18; 2; 50; 34; 82; 66; 114; 98; 147; 131; 179; 163; 211; 195; 243; 227;
   36; 52; 4; 20; 100; 116; 68; 84; 165; 181; 133; 149; 229; 245; 197; 213;
   54; 38; 22; 6; 118; 102; 86; 70; 183; 167; 151; 135; 247; 231; 215; 199;
   72; 88; 104; 120; 8; 24; 40; 56; 201; 217; 233; 249; 137; 153; 169; 185;
   90; 74; 122; 106; 26; 10; 58; 42; 219; 203; 251; 235; 155; 139; 187; 171;
   108; 124; 76; 92; 44; 60; 12; 28; 237; 253; 205; 221; 173; 189; 141; 157;
   126; 110; 94; 78; 62; 46; 30; 14; 255; 239; 223; 207; 191; 175; 159; 143;
   145; 129; 177; 161; 209; 193; 241; 225; 16; 0; 48; 32; 80; 64; 112; 96;
   131; 147; 163; 179; 195; 211; 227; 243; 2; 18; 34; 50; 66; 82; 98; 114;
   181; 165; 149; 133; 245; 229; 213; 197; 52; 36; 20; 4; 116; 100; 84; 68;
   167; 183; 135; 151; 231; 247; 199; 215; 38; 54; 6; 22; 102; 118; 70; 86;
   217; 201; 249; 233; 153; 137; 185; 169; 88; 72; 120; 104; 24; 8; 56; 40;
   203; 219; 235; 251; 139; 155; 171; 187; 74; 90; 106; 122; 10; 26; 42; 58;
   253; 237; 221; 205; 189; 173; 157; 141; 124; 108; 92; 76; 60; 44; 28; 12;
   239; 255; 207; 223; 175; 191; 143; 159; 110; 126; 78; 94; 46; 62; 14; 30].
Definition g_crc_table_hi : list Z :=
  [0; 33; 66; 99; 132; 165; 198; 231; 8; 41; 74; 107; 140; 173; 206; 239;
   49; 16; 115; 82; 181; 148; 247; 214; 57; 24; 123; 90; 189; 156; 255; 222;
   98; 67; 32; 1; 230; 199; 164; 133; 106; 75; 40; 9; 238; 207; 172; 141;
   83; 114; 17; 48; 215; 246; 149; 180; 91; 122; 25; 56; 223; 254; 157; 188;
   196; 229; 134; 167; 64; 97; 2; 35; 204; 237; 142; 175; 72; 105; 10; 43;
   245; 212; 183; 150; 113; 80; 51; 18; 253; 220; 191; 158; 121; 88; 59; 26;
   166; 135; 228; 197; 34; 3; 96; 65; 174; 143; 236; 205; 42; 11; 104; 73;
   151; 182; 213; 244; 19; 50; 81; 112; 159; 190; 221; 252; 27; 58; 89; 120;
   136; 169; 202; 235; 12; 45; 78; 111; 128; 161; 194; 227; 4; 37; 70; 103;
   185; 152; 251; 218; 61; 28; 127; 94; 177; 144; 243; 210; 53; 20; 119; 86;
   234; 203; 168; 137; 110; 79; 44; 13; 226; 195; 160; 129; 102; 71; 36; 5;
   219; 250; 153; 184; 95; 126; 29; 60; 211; 242; 145; 176; 87; 118; 21; 52;
   76; 109; 14; 47; 200; 233; 138; 171; 68; 101; 6; 39; 192; 225; 130; 163;
   125; 92; 63; 30; 249; 216; 187; 154; 117; 84; 55; 22; 241; 208; 179; 146;
   46; 15; 108; 77; 170; 139; 232; 201; 38; 7; 100; 69; 162; 131; 224; 193;
   31; 62; 93; 124; 155; 186; 217; 248; 23; 54; 85; 116; 147; 178; 209; 240].

(** One round: the index, then both bytes. *)
Definition crc_round (hi_lo : Z * Z) (b : Z) : Z * Z :=
  let uc_index := wrap 8 (Z.lxor hi_lo.1 b) in
  (Z.lxor hi_lo.2 (nth (Z.to_nat uc_index) g_crc_table_lo 0), nth (Z.to_nat uc_index) g_crc_table_hi 0).

(** ** State *)
Record msg_queue_info_s := MsgQueueInfo {
  queue_base : Z; queue_depth : Z; pi_base : Z; ci_base : Z; init_flag_base : Z;
}.
Record msg_scm3 := MsgScm3 {
  msg_queue_info : list msg_queue_info_s;
  msg_buf_status : list Z;
  msg_user_addr : list Z;
  msg_intercore_virq : Z;
  msg_wq : Z;
  msg_dev : option cdev_st;
}.
Definition msg_scm3_init : msg_scm3 :=
  MsgScm3 (replicate 2 (MsgQueueInfo NULL 0 NULL NULL NULL)) (replicate 16 0) (replicate 16 NULL) 0 NULL None.

Definition set_queue_info (i : Z) (q : msg_queue_info_s) (s : msg_scm3) : msg_scm3 :=
  MsgScm3 (<[Z.to_nat i := q]> (msg_queue_info s)) (msg_buf_status s) (msg_user_addr s) (msg_intercore_virq s) (msg_wq s) (msg_dev s).
Definition set_buf_status (i v : Z) (s : msg_scm3) : msg_scm3 :=
  MsgScm3 (msg_queue_info s) (<[Z.to_nat i := v]> (msg_buf_status s)) (msg_user_addr s) (msg_intercore_virq s) (msg_wq s) (msg_dev s).
Definition set_user_addr (i p : Z) (s : msg_scm3) : msg_scm3 :=
  MsgScm3 (msg_queue_info s) (msg_buf_status s) (<[Z.to_nat i := p]> (msg_user_addr s)) (msg_intercore_virq s) (msg_wq s) (msg_dev s).
Definition set_virq (v : Z) (s : msg_scm3) : msg_scm3 :=
  MsgScm3 (msg_queue_info s) (msg_buf_status s) (msg_user_addr s) v (msg_wq s) (msg_dev s).
Definition set_msg_wq (p : Z) (s : msg_scm3) : msg_scm3 :=
  MsgScm3 (msg_queue_info s) (msg_buf_status s) (msg_user_addr s) (msg_intercore_virq s) p (msg_dev s).
Definition set_msg_dev (d : option cdev_st) (s : msg_scm3) : msg_scm3 :=
  MsgScm3 (msg_queue_info s) (msg_buf_status s) (msg_user_addr s) (msg_intercore_virq s) (msg_wq s) d.

(** [sec_module_cmd_s] *)
Record sec_module_cmd_s := SecModuleCmd { s_buff : Z; s_len : Z; r_buff : Z; r_len : Z }.

Definition send_lock : string := "g_msg_que_ctrl.send_lock".
Definition msg_get_buf_lock : string := "g_msg_que_ctrl.msg_get_buf_lock".
Definition msg_completion : string := "g_msg_que_ctrl.msg_completion".

Section MsgScm3.
Context {G D : Type} `{MD : Machine D} `{HM : !Has G mem} `{HR : !Has G mgrs} `{HS : !Has G msg_scm3}.
Abbreviation M := (M G D).
Context (wfuel : nat) (meanwhile : M unit).
(** The address of [msg] in [msg_sec_module_cmd_handle], and what an
    unassigned [cksum] holds. *)
Context (msg_local uninit : Z).

Fixpoint crc_loop (n : nat) (p_data : Z) (hi_lo : Z * Z) : M (Z * Z) :=
  match n with
  | O => mret hi_lo
  | Datatypes.S n' => b ← ld8 p_data; crc_loop n' (p_data + 1) (crc_round hi_lo b)
  end.

(** What is stored through [crc]; [crc] tells whether it is not NULL. *)
Definition dal_cal_crc16 (p_data length : Z) (crc : bool) : M (option Z) :=
  if (p_data =? NULL) || negb crc || (length =? 0) then mret None
  else
    r ← crc_loop (Z.to_nat length) p_data (0xFF, 0xFF);
    mret (Some (Z.lor r.2 (Z.shiftl r.1 8))).

Definition queue_info (i : Z) : M msg_queue_info_s :=
  s ← gets (S := msg_scm3); some_or OutOfBounds (msg_queue_info s !! Z.to_nat i).
Definition checksum (msg : Z) : M Z :=
  c ← dal_cal_crc16 msg (MSG_CMD_LEN - MSG_CMD_CRC_LEN) true; mret (default uninit c).
(** [(x + 1) % depth] *)
Definition next_index (x depth : Z) : M Z :=
  if depth =? 0 then fail DivZero else mret (u32 (x + 1) mod depth).

(** *** The other direction *)
Definition msg_interrupt_handle : M Z :=
  kcall_ "queue_delayed_work" "g_msg_wq" [0] ;;
  _ ← sysctrl_reg_write SYSCTRL_CSR_SC_ASSERT_SOFT_INT_OFFSET_ADDR 0;
  mret 1.

Definition handle_message (q : msg_queue_info_s) (ci : Z) : M bool :=
  let msg_buf := u64 (queue_base q + ci * MSG_CMD_LEN) in
  cksum ← checksum msg_buf;
  crc ← ld16 (msg_crc msg_buf);
  if negb (cksum =? crc) then mret false
  else
    index ← ld16 (msg_index msg_buf);
    s ← gets (S := msg_scm3);
    _ ← some_or OutOfBounds (msg_user_addr s !! Z.to_nat index);
    modg (set_user_addr index msg_buf) ;;
    kcall_ "complete" msg_completion [index] ;;
    mret true.

Definition msg_delaywork_handle : M unit :=
  q ← queue_info MSG_Q_TYPE_A55;
  kcall_ "rmb" "" [] ;;
  pi ← readl (pi_base q);
  ci ← readl (ci_base q);
  loop wfuel (fun x : Z * Z =>
    let '(pi, ci) := x in
    if pi =? ci then mret (inr tt)
    else
      good ← handle_message q ci;
      if negb good then mret (inr tt)
      else
        ci ← next_index ci (queue_depth q);
        writel ci (ci_base q) ;;
        kcall_ "wmb" "" [] ;;
        pi ← readl (pi_base q);
        ci ← readl (ci_base q);
        mret (inl (pi, ci))) (pi, ci).

Definition msg_delaywork_init : M unit :=
  p ← kcall "create_singlethread_workqueue" "msg_queue" [];
  modg (set_msg_wq p) ;;
  kcall_ "INIT_DELAYED_WORK" "g_msg_wq" [].

(** *** Sending *)
Definition msg_cmd_send (queue_type msg_buf : Z) : M Z :=
  if (msg_buf =? NULL) || (MSG_Q_TYPE_BUTT <=? queue_type) then mret (- EINVAL)
  else
    flag ← spin_lock_irqsave send_lock queue_type;
    q ← queue_info queue_type;
    kcall_ "rmb" "" [] ;;
    init_magic ← readl (init_flag_base q);
    if negb (init_magic =? MSG_Q_INIT_MAGIC) then
      spin_unlock_irqrestore send_lock queue_type flag ;; mret (- EFAULT)
    else
      pi ← readl (pi_base q);
      ci ← readl (ci_base q);
      pi' ← next_index pi (queue_depth q);
      if pi' =? ci then
        spin_unlock_irqrestore send_lock queue_type flag ;; mret (- EFAULT)
      else
        let msg_addr := u64 (queue_base q + pi * MSG_CMD_LEN) in
        ret ← memcpy_s msg_addr MSG_CMD_LEN msg_buf MSG_CMD_LEN;
        if negb (ret =? 0) then mret ret
        else
          cksum ← checksum msg_addr;
          st16 (msg_crc msg_addr) cksum ;;
          pi ← next_index pi (queue_depth q);
          writel_shared pi (pi_base q) ;;
          kcall_ "wmb" "" [] ;;
          _ ← sysctrl_reg_write SYSCTRL_CSR_A55_ASSERT_SOFT_INT_OFFSET_ADDR MSG_A55_M3_INT_TRIGGER;
          spin_unlock_irqrestore send_lock queue_type flag ;;
          mret 0.

(** [while (time < MSG_SEND_RETRY_TIMES)]: whether it was sent. *)
Fixpoint send_retry (times : nat) (msg : Z) : M bool :=
  match times with
  | O => mret false
  | Datatypes.S n =>
      ret ← msg_cmd_send MSG_Q_TYPE_SECURE_M3 msg;
      if ret =? 0 then mret true else kcall_ "msleep" "" [100] ;; send_retry n msg
  end.

Definition msg_comm_send_and_wait (msg : Z) : M Z :=
  if msg =? NULL then mret (- EINVAL)
  else
    index ← ld16 (msg_index msg);
    if MSG_Q_DEPTH <=? index then mret (- EINVAL)
    else
      sent ← send_retry (Z.to_nat MSG_SEND_RETRY_TIMES) msg;
      if negb sent then
        _ ← memset_s msg MSG_CMD_LEN 0 MSG_CMD_LEN;
        mret (- MSG_TX_TIME_OUT_ERROR)
      else
        meanwhile ;;
        ret ← kcall_s32 "wait_for_completion_timeout" msg_completion [index; MSG_WAIT_TIME_OUT];
        mret (if ret =? 0 then - MSG_RX_TIME_OUT_ERROR else 0).

(** *** The data buffers *)
Fixpoint take_buffer (n : nat) (index : Z) : M (option Z) :=
  match n with
  | O => mret None
  | Datatypes.S n' =>
      s ← gets (S := msg_scm3);
      st ← some_or OutOfBounds (msg_buf_status s !! Z.to_nat index);
      if st =? 0 then modg (set_buf_status index 1) ;; mret (Some index)
      else take_buffer n' (index + 1)
  end.

(** The buffer and, through [msg_index], its number. *)
Definition msg_get_data_buffer : M (option (Z * Z)) :=
  r ← locked msg_get_buf_lock 0 (take_buffer (Z.to_nat MSG_Q_DEPTH) 0);
  match r with
  | None => mret None
  | Some index =>
      q ← queue_info MSG_Q_TYPE_A55;
      mret (Some (queue_base q + MSG_Q_HEAD_RSV_SIZE + index * MSG_DATA_MAX_SIZE, index))
  end.

Definition msg_release_data_buffer (index : Z) : M unit :=
  locked msg_get_buf_lock 0 (modg (set_buf_status index 0)).

(** *** The request of a process *)
Definition msg_check_interal_error (msg : Z) : M Z :=
  cmd ← ld8 msg;
  mret (if negb (Z.land cmd MSG_RESP_CMD_MASK =? 0) then 0 else - MSG_COMM_INTERNAL_ERROR).

Definition msg_check_ioctl_user_data (user_cmd : sec_module_cmd_s) : Z :=
  if MSG_DATA_MAX_SIZE <? s_len user_cmd then - MSG_TX_LEN_OVERFLOW_ERROR
  else if s_len user_cmd <? MSG_DATA_TX_MIN_SIZE then - MSG_TX_LEN_UNDERFLOW_ERROR
  else if r_len user_cmd <? MSG_DATA_RX_MIN_SIZE then - MSG_RX_LEN_UNDERFLOW_ERROR
  else if r_buff user_cmd =? NULL then - MSG_RX_BUFFER_NULL_ERROR
  else if s_buff user_cmd =? NULL then - MSG_TX_BUFFER_NULL_ERROR
  else 0.

Definition msg_sec_module_cmd_tx_rx (msg index msg_km_addr : Z) : M Z :=
  ret ← msg_comm_send_and_wait msg;
  if negb (ret =? 0) then mret ret
  else
    s ← gets (S := msg_scm3);
    answer ← some_or OutOfBounds (msg_user_addr s !! Z.to_nat index);
    _ ← memcpy_s msg MSG_CMD_LEN answer MSG_CMD_LEN;
    msg_check_interal_error msg_km_addr.

(** The kernel's copies to and from a process.  [copy_to_user] carries the
    bytes; both return the number of bytes that were not copied. *)
Definition load_bytes (a n : Z) : M (list Z) := fun w =>
  match rd (hget (glob w)) a (Z.to_nat n) with Some bs => Done bs w | None => Fault Unmapped end.
Definition copy_to_user (to from n : Z) : M Z :=
  bs ← load_bytes from n; kcall "copy_to_user" "" (to :: bs).
Fixpoint store_user (n : nat) (to : Z) : M unit :=
  match n with
  | O => mret tt
  | Datatypes.S n' => v ← stored "byte"; st8 to (wrap 8 v) ;; store_user n' (to + 1)
  end.
Definition copy_from_user (to from n : Z) : M Z :=
  ret ← kcall "copy_from_user" "" [from; n];
  when (ret =? 0) (store_user (Z.to_nat n) to) ;; mret ret.

Definition msg_sec_module_cmd_cpy_to_user (user_buf : Z) (user_cmd : sec_module_cmd_s) (data : Z) : M Z :=
  if r_len user_cmd =? 0 then mret (- MSG_CP_TO_USER_CMD_ERROR)
  else
    ret ← copy_to_user (r_buff user_cmd) data (r_len user_cmd);
    if negb (s32 ret =? 0) then mret (- MSG_CP_TO_USER_CMD_ERROR)
    else
      ret ← kcall "copy_to_user" "user_cmd" [user_buf; s_buff user_cmd; s_len user_cmd; r_buff user_cmd; r_len user_cmd];
      if negb (s32 ret =? 0) then mret (- MSG_CP_TO_USER_DATA_ERROR) else mret 0.

(** With the buffer [index] at [msg_km_addr]. *)
Definition exchange (buf : Z) (user_cmd : sec_module_cmd_s) (msg_km_addr index : Z) : M Z :=
  failed ← copy_from_user msg_km_addr (s_buff user_cmd) (s_len user_cmd);
  if ctrue failed then msg_release_data_buffer index ;; mret (- MSG_CP_FROM_USER_DATA_ERROR)
  else
    st64 (data_addr msg_local) (msg_data_address index) ;;
    st16 (msg_index msg_local) index ;;
    st32 (data_len msg_local) (s_len user_cmd) ;;
    ret ← msg_sec_module_cmd_tx_rx msg_local index msg_km_addr;
    if negb (ret =? 0) then msg_release_data_buffer index ;; mret ret
    else
      len ← ld32 (data_len msg_local);
      if r_len user_cmd <? len then msg_release_data_buffer index ;; mret (- MSG_RX_MSG_OVERFLOW_ERROR)
      else
        let user_cmd := SecModuleCmd (s_buff user_cmd) (s_len user_cmd) (r_buff user_cmd) len in
        ret ← msg_sec_module_cmd_cpy_to_user buf user_cmd msg_km_addr;
        msg_release_data_buffer index ;;
        mret ret.

Definition msg_sec_module_cmd_handle (buf : Z) : M Z :=
  failed ← kcall "copy_from_user" "user_cmd" [buf];
  if ctrue failed then mret (- MSG_CP_FROM_USER_CMD_ERROR)
  else
    sb ← stored "s_buff"; sl ← stored "s_len"; rb ← stored "r_buff"; rl ← stored "r_len";
    let user_cmd := SecModuleCmd sb (u32 sl) rb (u32 rl) in
    let ret := msg_check_ioctl_user_data user_cmd in
    if negb (ret =? 0) then mret ret
    else
      b ← msg_get_data_buffer;
      match b with
      | None => mret (- MSG_GET_DATA_BUFFER_ERROR)
      | Some (msg_km_addr, index) => exchange buf user_cmd msg_km_addr index
      end.

Definition msg_scm3_ioctl (cmd buf : Z) : M Z :=
  if cmd =? SEC_MODULE_CMD_TX_RX then msg_sec_module_cmd_handle buf else mret (- MSG_IO_CMD_NOT_SUPPORT).

(** *** The driver *)
Definition msg_queue_ctrl_init (msg_q_io_addr : Z) : M unit :=
  let pici_io_addr := msg_q_io_addr + MSG_Q_TYPE_BUTT * MSG_Q_SIZE in
  for_up (Z.to_nat MSG_Q_TYPE_BUTT) 0 (fun index =>
    let pi := pici_io_addr + index * MSG_Q_CTL_SIZE in
    let ci := pi + MSG_Q_PI_SIZE in
    let flag := ci + MSG_Q_CI_SIZE in
    modg (set_queue_info index (MsgQueueInfo (msg_q_io_addr + index * MSG_Q_SIZE) MSG_Q_DEPTH pi ci flag)) ;;
    spin_lock_init send_lock index ;;
    when (index =? MSG_Q_TYPE_A55) (
      writel 0 pi ;; writel 0 ci ;; writel MSG_Q_INIT_MAGIC flag)).

Definition clear_queue_base (s : msg_scm3) : msg_scm3 :=
  match msg_queue_info s !! 0%nat with
  | Some q => set_queue_info 0 (MsgQueueInfo NULL (queue_depth q) (pi_base q) (ci_base q) (init_flag_base q)) s
  | None => s
  end.

(** [dev_init_err]: and further up, [msg_init_err]. *)
Definition undo_dev (ret : Z) : M Z := kfree "msg_dev" ;; modg (set_msg_dev None) ;; mret ret.
Definition undo_msg (dev : cdev_st) (ret : Z) : M Z := comm_cleanup_dev dev ;; undo_dev ret.

Definition msg_scm3_probe : M Z :=
  p ← kzalloc "msg_dev";
  if p =? NULL then modg (set_msg_dev None) ;; mret (- ENOMEM)
  else
    r ← comm_init_dev (CdevSt 0 0 0) SEC_MODULE_DEVNAME;
    modg (set_msg_dev (Some r.2)) ;;
    if negb (r.1 =? 0) then undo_dev r.1
    else
      msg_q_io_addr ← kcall "ioremap_wc" "" [MSG_Q_BASE_ADDR; MSG_Q_HEAD_RSV_SIZE + MSG_Q_DATA_SIZE];
      if msg_q_io_addr =? NULL then undo_msg r.2 r.1
      else
        msg_queue_ctrl_init msg_q_io_addr ;;
        spin_lock_init msg_get_buf_lock 0 ;;
        for_up (Z.to_nat MSG_Q_DEPTH) 0 (fun index =>
          kcall_ "init_completion" msg_completion [index] ;; modg (set_buf_status index 0)) ;;
        msg_delaywork_init ;;
        _ ← sysctrl_reg_write SYSCTRL_CSR_SC_ASSERT_SOFT_INT_OFFSET_ADDR 0;
        v ← kcall "irq_of_parse_and_map" "msg_scm3" [0];
        modg (set_virq (u32 v)) ;;
        if u32 v =? 0 then mret (- EINVAL)
        else
          ret ← kcall_s32 "request_irq" "intercore_int" [u32 v];
          if negb (ret =? 0) then
            iounmap msg_q_io_addr ;; modg clear_queue_base ;; undo_msg r.2 ret
          else mret 0.

Definition msg_scm3_remove : M Z :=
  q ← queue_info MSG_Q_TYPE_A55;
  writel 0 (init_flag_base q) ;;
  s ← gets (S := msg_scm3);
  when (negb (msg_wq s =? NULL)) (
    kcall_ "cancel_delayed_work_sync" "g_msg_wq" [] ;;
    kcall_ "destroy_workqueue" "g_msg_wq" [msg_wq s] ;;
    modg (set_msg_wq NULL)) ;;
  when (negb (queue_base q =? NULL)) (iounmap (queue_base q) ;; modg clear_queue_base) ;;
  kcall_ "free_irq" "" [msg_intercore_virq s] ;;
  match msg_dev s with
  | None => mret tt
  | Some d => comm_cleanup_dev d ;; kfree "msg_dev" ;; modg (set_msg_dev None)
  end ;;
  mret 0.
End MsgScm3.
