(* ===== verification/MsgCrc.v ===== *)
(** * MsgCrc: the checksum of the messages to the secure M3

    The table-driven routine computes the CRC-16 with polynomial
    x^16+x^12+x^5+1, most significant bit first, from all ones, of which
    [crc_ccitt] is the definition bit by bit; and no change confined to two
    neighbouring bytes goes unnoticed. *)
From stdpp Require Import prelude gmap list strings.
From Stdlib Require Import ZArith Lia.
From S2P Require Import Prelude Hw Mem MsgScm3.
Local Open Scope Z_scope.

(** ** The definition *)
Definition CRC_POLY : Z := 0x1021.
Definition crc_bit (c : Z) : Z :=
  let c' := wrap 16 (Z.shiftl c 1) in if Z.testbit c 15 then Z.lxor c' CRC_POLY else c'.
Definition crc_eight (c : Z) : Z := Nat.iter 8 crc_bit c.
Definition crc_byte (c b : Z) : Z := crc_eight (Z.lxor c (Z.shiftl b 8)).
Definition crc_from (c : Z) (bs : list Z) : Z := foldl crc_byte c bs.
Definition crc_ccitt (bs : list Z) : Z := crc_from 0xFFFF bs.

(** ** Linearity *)
Lemma lxor_fits n a b : 0 <= n -> fits n a -> fits n b -> fits n (Z.lxor a b).
Proof.
  intros Hn Ha Hb. apply fits_bits; [done | | intros i Hi; rewrite Z.lxor_spec, (fits_testbit n a), (fits_testbit n b) by done; done].
  destruct Ha, Hb. apply Z.lxor_nonneg. lia.
Qed.

Lemma wrap_lxor n a b : 0 <= n -> wrap n (Z.lxor a b) = Z.lxor (wrap n a) (wrap n b).
Proof.
  intros Hn. apply Z.bits_inj'. intros i Hi. rewrite Z.lxor_spec, !wrap_spec, Z.lxor_spec by done.
  by destruct (i <? n), (Z.testbit a i), (Z.testbit b i).
Qed.

Lemma crc_bit_lxor a b : crc_bit (Z.lxor a b) = Z.lxor (crc_bit a) (crc_bit b).
Proof.
  unfold crc_bit. rewrite Z.shiftl_lxor, wrap_lxor, Z.lxor_spec by done.
  destruct (Z.testbit a 15), (Z.testbit b 15); cbn [xorb]; try done.
  - rewrite <- (Z.lxor_0_r (Z.lxor (wrap _ _) _)), <- (Z.lxor_nilpotent CRC_POLY). rewrite !Z.lxor_assoc. f_equal.
    rewrite <- !Z.lxor_assoc. f_equal. apply Z.lxor_comm.
  - rewrite !Z.lxor_assoc. f_equal. apply Z.lxor_comm.
  - by rewrite Z.lxor_assoc.
Qed.

Lemma crc_eight_lxor a b : crc_eight (Z.lxor a b) = Z.lxor (crc_eight a) (crc_eight b).
Proof.
  unfold crc_eight. generalize 8%nat as n. induction n as [| n IH]; [done |].
  rewrite !Nat.iter_succ, IH. apply crc_bit_lxor.
Qed.

Lemma crc_bit_fits c : fits 16 (crc_bit c).
Proof.
  unfold crc_bit. destruct (Z.testbit c 15); [apply lxor_fits; [done | | done] |]; by apply wrap_fits.
Qed.

Lemma crc_eight_fits c : fits 16 (crc_eight c).
Proof. unfold crc_eight. rewrite Nat.iter_succ. apply crc_bit_fits. Qed.

Lemma crc_bit_0 c : fits 16 c -> crc_bit c = 0 -> c = 0.
Proof.
  intros Hc Hz. assert (forall i, 0 <= i < 15 -> Z.testbit (crc_bit c) (i + 1) = xorb (Z.testbit c i) (Z.testbit c 15 && Z.testbit CRC_POLY (i + 1))) as Hbit.
  { intros i Hi. unfold crc_bit. assert (Z.testbit (wrap 16 (Z.shiftl c 1)) (i + 1) = Z.testbit c i) as Hw.
    { rewrite wrap_spec, Z.shiftl_spec by lia. replace (i + 1 <? 16) with true by lia. by replace (i + 1 - 1) with i by lia. }
    destruct (Z.testbit c 15); [by rewrite Z.lxor_spec, Hw | by rewrite Hw; destruct (Z.testbit c i)]. }
  assert (Z.testbit c 15 = false) as H15.
  { assert (Z.testbit (crc_bit c) 0 = Z.testbit c 15) as H0.
    { unfold crc_bit. assert (Z.testbit (wrap 16 (Z.shiftl c 1)) 0 = false) as Hw by (rewrite wrap_spec, Z.shiftl_spec_low by lia; done).
      destruct (Z.testbit c 15); [by rewrite Z.lxor_spec, Hw | done]. }
    rewrite <- H0, Hz. by rewrite Z.testbit_0_l. }
  apply Z.bits_inj'. intros i Hi. rewrite Z.testbit_0_l. destruct (decide (i < 15)) as [Hlt |].
  - specialize (Hbit i ltac:(lia)). rewrite Hz, H15, Z.testbit_0_l in Hbit. by destruct (Z.testbit c i).
  - destruct (decide (i = 15)) as [-> |]; [done |]. apply (fits_testbit 16); [done | lia | lia].
Qed.

Lemma crc_eight_0 c : fits 16 c -> crc_eight c = 0 -> c = 0.
Proof.
  unfold crc_eight. intros Hc. generalize 8%nat as n. induction n as [| n IH]; [done |].
  rewrite Nat.iter_succ. intros H. apply IH. apply crc_bit_0; [| done].
  destruct n; [done | rewrite Nat.iter_succ; apply crc_bit_fits].
Qed.

(** ** The tables *)
Lemma all_bytes (P : Z -> bool) : forallb P (seqZ 0 256) = true -> forall x, fits 8 x -> P x = true.
Proof.
  intros H x [Hx1 Hx2]. change (2 ^ 8) with 256 in Hx2. rewrite forallb_forall in H. apply H.
  apply list_elem_of_In, elem_of_seqZ. lia.
Qed.

Definition table (i : Z) : Z :=
  Z.lor (nth (Z.to_nat i) g_crc_table_hi 0) (Z.shiftl (nth (Z.to_nat i) g_crc_table_lo 0) 8).

Lemma table_entry i : fits 8 i -> table i = crc_eight (Z.shiftl i 8) /\
  fits 8 (nth (Z.to_nat i) g_crc_table_hi 0) /\ fits 8 (nth (Z.to_nat i) g_crc_table_lo 0).
Proof.
  intros Hi. assert (forall x, bool_decide (0 <= x < 2 ^ 8) = true -> fits 8 x) as Hf by (intros x; apply bool_decide_eq_true_1).
  pose proof (all_bytes (fun i => (table i =? crc_eight (Z.shiftl i 8)) &&
    bool_decide (0 <= nth (Z.to_nat i) g_crc_table_hi 0 < 2 ^ 8) && bool_decide (0 <= nth (Z.to_nat i) g_crc_table_lo 0 < 2 ^ 8)) eq_refl i Hi) as H.
  cbv beta in H. apply andb_true_iff in H as [[H1 H2]%andb_true_iff H3]. split; [by apply Z.eqb_eq | auto].
Qed.

Lemma crc_eight_low x : fits 8 x -> crc_eight x = Z.shiftl x 8.
Proof. intros Hx. by apply Z.eqb_eq, (all_bytes (fun x => crc_eight x =? Z.shiftl x 8) eq_refl). Qed.

(** The register, from its two bytes. *)
Definition crc_word (hi_lo : Z * Z) : Z := Z.lor hi_lo.2 (Z.shiftl hi_lo.1 8).

(** Bytes do not overlap once one is shifted. *)
Lemma lor_byte_lxor a b : fits 8 a -> Z.lor a (Z.shiftl b 8) = Z.lxor a (Z.shiftl b 8).
Proof.
  intros Ha. apply Z.bits_inj'. intros i Hi. rewrite Z.lor_spec, Z.lxor_spec.
  destruct (decide (i < 8)); [rewrite Z.shiftl_spec_low by lia; by destruct (Z.testbit a i) |].
  by rewrite (fits_testbit 8 a i) by (done || lia).
Qed.

Lemma crc_round_byte hi lo b : fits 8 hi -> fits 8 lo -> fits 8 b ->
  crc_word (crc_round (hi, lo) b) = crc_byte (crc_word (hi, lo)) b /\
  fits 8 (crc_round (hi, lo) b).1 /\ fits 8 (crc_round (hi, lo) b).2.
Proof.
  intros Hh Hl Hb. unfold crc_round, crc_byte, crc_word. cbn [fst snd].
  assert (fits 8 (Z.lxor hi b)) as Hi by (by apply lxor_fits). rewrite (wrap_id 8) by done.
  set (i := Z.lxor hi b) in *. destruct (table_entry i Hi) as (Ht & Hf1 & Hf2).
  split; [| split; [by apply lxor_fits | done]].
  rewrite !lor_byte_lxor by done. rewrite Z.lxor_assoc, <- Z.shiftl_lxor. fold i.
  rewrite crc_eight_lxor, <- Ht, crc_eight_low by done. unfold table. rewrite lor_byte_lxor by done.
  rewrite (Z.shiftl_lxor lo), <- (Z.lxor_assoc (Z.shiftl lo 8)), (Z.lxor_comm (Z.shiftl lo 8) (nth _ _ _)). by rewrite Z.lxor_assoc.
Qed.

Section Code.
Context {G D : Type} `{MD : Machine D} `{HM : !Has G mem}.
Implicit Types (w : world G D).

Lemma wp_crc_loop bs p hi lo (Q : Z * Z -> world G D -> Prop) w : Forall (fits 8) bs ->
  rd (memof w) p (length bs) = Some bs -> fits 8 hi -> fits 8 lo ->
  (forall hi' lo', fits 8 hi' -> fits 8 lo' -> crc_word (hi', lo') = crc_from (crc_word (hi, lo)) bs -> Q (hi', lo') w) ->
  wp (crc_loop (length bs) p (hi, lo)) Q w.
Proof.
  intros Hbs. revert p hi lo. induction Hbs as [| b bs Hb _ IH]; intros p hi lo Hr Hh Hl HQ.
  - cbn. apply wp_ret. by apply HQ.
  - cbn [length crc_loop]. cbn [length rd] in Hr. destruct (memof w !! p) as [x |] eqn:Ex; [| done].
    destruct (rd (memof w) (p + 1) (length bs)) as [ys |] eqn:Ey; [| done]. cbn in Hr. injection Hr as -> ->.
    apply wp_bind. unfold ld8. apply wp_ldn. exists [b]. split; [cbn; by rewrite Ex |]. rewrite le_word_1.
    destruct (crc_round_byte hi lo b Hh Hl Hb) as (Hw & Hf1 & Hf2). destruct (crc_round (hi, lo) b) as [hi1 lo1].
    apply IH; [done | done | done |]. intros hi' lo' H1 H2 H3. apply HQ; [done | done |]. by rewrite H3, Hw.
Qed.

Lemma wp_crc16 bs p (Q : option Z -> world G D -> Prop) w : Forall (fits 8) bs -> bs <> [] -> p <> NULL ->
  rd (memof w) p (length bs) = Some bs -> Q (Some (crc_ccitt bs)) w ->
  wp (dal_cal_crc16 p (Z.of_nat (length bs)) true) Q w.
Proof.
  intros Hbs Hne Hp Hr HQ. unfold dal_cal_crc16.
  assert (length bs <> O) as Hlen by (by destruct bs).
  replace (p =? NULL) with false by (symmetry; by apply Z.eqb_neq).
  replace (Z.of_nat (length bs) =? 0) with false by lia. cbn [orb negb]. rewrite Nat2Z.id.
  apply wp_bind, wp_crc_loop; [done | done | done | done |]. intros hi lo _ _ E. apply wp_ret.
  replace (Some _) with (Some (crc_ccitt bs)); [done |]. f_equal. symmetry. exact E.
Qed.

(** C36: the checksum routine computes the CRC-16 of its definition: on
    [length bs] bytes in memory it stores the remainder [crc_ccitt] that the
    bit-by-bit division yields, and changes nothing; on no bytes, and on null
    pointers, it stores nothing. *)
Theorem crc16_is_ccitt bs p w : Forall (fits 8) bs -> p <> NULL -> rd (memof w) p (length bs) = Some bs ->
  wp (dal_cal_crc16 p (Z.of_nat (length bs)) true)
    (fun r w' => r = (if decide (bs = []) then None else Some (crc_ccitt bs)) /\ w' = w) w /\
  wp (dal_cal_crc16 NULL (Z.of_nat (length bs)) true) (fun r w' => r = None /\ w' = w) w.
Proof.
  intros Hbs Hp Hr. split; [| by apply wp_ret]. destruct (decide (bs = [])) as [-> | Hne].
  - unfold dal_cal_crc16. rewrite orb_true_r. by apply wp_ret.
  - by apply wp_crc16.
Qed.
End Code.

(** ** What it detects *)
Lemma lxor_0_eq a b : Z.lxor a b = 0 -> a = b.
Proof. apply Z.lxor_eq. Qed.

Lemma crc_eight_inj x y : fits 16 x -> fits 16 y -> crc_eight x = crc_eight y -> x = y.
Proof.
  intros Hx Hy E. apply lxor_0_eq, crc_eight_0; [by apply lxor_fits |].
  by rewrite crc_eight_lxor, E, Z.lxor_nilpotent.
Qed.

Lemma shift_byte_fits b : fits 8 b -> fits 16 (Z.shiftl b 8).
Proof. intros [H1 H2]. rewrite Z.shiftl_mul_pow2 by done. split; [lia |]. change (2 ^ 16) with (2 ^ 8 * 2 ^ 8). nia. Qed.

Lemma crc_from_fits c bs : fits 16 c -> fits 16 (crc_from c bs).
Proof. revert c. induction bs as [| b bs IH]; intros c Hc; [done |]. apply IH, crc_eight_fits. Qed.

Lemma crc_from_inj c c' bs : Forall (fits 8) bs -> fits 16 c -> fits 16 c' -> crc_from c bs = crc_from c' bs -> c = c'.
Proof.
  intros Hbs. revert c c'. induction Hbs as [| b bs Hb _ IH]; intros c c' Hc Hc' E; [done |].
  cbn in E. apply IH in E; [| apply crc_eight_fits | apply crc_eight_fits].
  apply crc_eight_inj in E; [| apply lxor_fits; [done | done | by apply shift_byte_fits] .. ].
  assert (Z.lxor (Z.lxor c (Z.shiftl b 8)) (Z.shiftl b 8) = Z.lxor (Z.lxor c' (Z.shiftl b 8)) (Z.shiftl b 8)) as H by (by rewrite E).
  by rewrite !Z.lxor_assoc, Z.lxor_nilpotent, !Z.lxor_0_r in H.
Qed.

(** Only the first entry of the table has a low byte of 0. *)
Lemma table_low_0 i : fits 8 i -> nth (Z.to_nat i) g_crc_table_hi 0 = 0 -> i = 0.
Proof.
  intros Hi H. pose proof (all_bytes (fun i => (i =? 0) || negb (nth (Z.to_nat i) g_crc_table_hi 0 =? 0)) eq_refl i Hi) as Hb.
  cbv beta in Hb. rewrite H in Hb. lia.
Qed.

Lemma crc_from_app c xs ys : crc_from c (xs ++ ys) = crc_from (crc_from c xs) ys.
Proof. apply foldl_app. Qed.

Lemma crc_from_2 c a b : crc_from c [a; b] = crc_eight (Z.lxor (crc_eight (Z.lxor c (Z.shiftl a 8))) (Z.shiftl b 8)).
Proof. reflexivity. Qed.

Lemma two_bytes_inj c a b a' b' : fits 16 c -> Forall (fits 8) [a; b; a'; b'] ->
  crc_from c [a; b] = crc_from c [a'; b'] -> a = a' /\ b = b'.
Proof.
  intros Hc Hf E. repeat (apply Forall_cons_1 in Hf as [? Hf]). 
  rewrite !crc_from_2 in E.
  apply crc_eight_inj in E; [| apply lxor_fits; [done | apply crc_eight_fits | by apply shift_byte_fits] ..].
  assert (Z.lxor (crc_eight (Z.lxor c (Z.shiftl a 8))) (crc_eight (Z.lxor c (Z.shiftl a' 8))) = Z.shiftl (Z.lxor b b') 8) as H3.
  { rewrite Z.shiftl_lxor. apply Z.bits_inj'. intros i Hi. apply (f_equal (fun z => Z.testbit z i)) in E.
    rewrite !Z.lxor_spec in *. by destruct (Z.testbit (crc_eight (Z.lxor c (Z.shiftl a 8))) i), (Z.testbit (crc_eight (Z.lxor c (Z.shiftl a' 8))) i),
      (Z.testbit (Z.shiftl b 8) i), (Z.testbit (Z.shiftl b' 8) i). }
  rewrite <- crc_eight_lxor in H3.
  replace (Z.lxor (Z.lxor c (Z.shiftl a 8)) (Z.lxor c (Z.shiftl a' 8))) with (Z.shiftl (Z.lxor a a') 8) in H3.
  2: { rewrite Z.shiftl_lxor, (Z.lxor_comm c (Z.shiftl a 8)), Z.lxor_assoc. f_equal.
       by rewrite <- Z.lxor_assoc, Z.lxor_nilpotent, Z.lxor_0_l. }
  assert (fits 8 (Z.lxor a a')) as Ha by (by apply lxor_fits). destruct (table_entry _ Ha) as (Ht & Hf1 & Hf2).
  rewrite <- Ht in H3. unfold table in H3.
  assert (nth (Z.to_nat (Z.lxor a a')) g_crc_table_hi 0 = 0) as Hlow.
  { apply Z.bits_inj'. intros i Hi. rewrite Z.testbit_0_l. destruct (decide (i < 8)) as [Hlt |]; [| by apply (fits_testbit 8); [| | lia]].
    assert (Z.testbit (Z.shiftl (Z.lxor b b') 8) i = false) as Hb by (by apply Z.shiftl_spec_low).
    rewrite <- H3, Z.lor_spec in Hb. by apply orb_false_iff in Hb as [Hb _]. }
  assert (a = a') as -> by (by apply lxor_0_eq, table_low_0). split; [done |].
  apply Z.bits_inj'. intros i Hi. apply (f_equal (fun z => Z.testbit z (i + 8))) in E.
  rewrite !Z.lxor_spec, !Z.shiftl_spec in E by lia. replace (i + 8 - 8) with i in E by lia.
  by destruct (Z.testbit (crc_eight (Z.lxor c (Z.shiftl a' 8))) (i + 8)), (Z.testbit b i), (Z.testbit b' i).
Qed.

(** what the checksum detects: messages that differ only in two
    neighbouring bytes, whatever the difference, have different checksums. *)
Theorem crc16_detects_burst pre post a b a' b' : Forall (fits 8) (pre ++ post) -> Forall (fits 8) [a; b; a'; b'] ->
  (a, b) <> (a', b') -> crc_ccitt (pre ++ [a; b] ++ post) <> crc_ccitt (pre ++ [a'; b'] ++ post).
Proof.
  intros [_ Hpost]%Forall_app Hab Hne E. unfold crc_ccitt in E. rewrite !crc_from_app in E.
  assert (fits 16 (crc_from 0xFFFF pre)) as Hc by (apply crc_from_fits; split; [discriminate | reflexivity]).
  apply crc_from_inj in E; [| exact Hpost | apply crc_from_fits, Hc | apply crc_from_fits, Hc].
  apply two_bytes_inj in E as [-> ->]; [by apply Hne | exact Hc | exact Hab].
Qed.

Lemma crc16_is_ccitt_witness :
  crc_ccitt [0x31; 0x32; 0x33; 0x34; 0x35; 0x36; 0x37; 0x38; 0x39] = 0x29b1 /\
  wp (dal_cal_crc16 0x100 9 true) (fun r w' => r = Some 0x29b1)
    (World (wr ∅ 0x100 [0x31; 0x32; 0x33; 0x34; 0x35; 0x36; 0x37; 0x38; 0x39]) ram0 [] : world mem ram).
Proof.
  split; [reflexivity |]. eapply wp_mono.
  - apply (crc16_is_ccitt [0x31; 0x32; 0x33; 0x34; 0x35; 0x36; 0x37; 0x38; 0x39] 0x100).
    + repeat constructor; discriminate.
    + discriminate.
    + apply (rd_wr_eq ∅ 0x100 [0x31; 0x32; 0x33; 0x34; 0x35; 0x36; 0x37; 0x38; 0x39]).
  - cbv beta. intros r w' [-> _]. reflexivity.
Defined.

Lemma crc16_detects_burst_witness : crc_ccitt [1; 2; 3; 4] <> crc_ccitt [1; 255; 254; 4].
Proof.
  apply (crc16_detects_burst [1] [4] 2 3 255 254); [repeat constructor; discriminate | repeat constructor; discriminate | discriminate].
Defined.
