(* ===== verification/MsgRing.v ===== *)
(** * MsgRing: a ring of messages and its two ends

    One ring of msg_scm3.c between a sender (one at a time, under the send
    lock) and the receiving side on another processor, as a step relation: the
    accesses to the indices and to the slots interleave freely.  The receiving
    side is a worker, which only records where an answer is and gives the slot
    back, and the processes, which copy their answer out of the slot later.
    In the repository the A55 is the sender of one ring ([msg_cmd_send]) and
    the receiver of the other ([msg_delaywork_handle] and
    [msg_sec_module_cmd_tx_rx]); the other ends are the M3's firmware, which is
    not part of it and is taken to do the same with the indices and slots.
    Storing or copying a message is one step.

    Seen by the worker the ring is a first-in first-out queue of at most
    [depth - 1] messages.  A process gets its own answer if it copies it before
    the sender has come around the ring, and may get another one if not
    ([answer_overwritten]). *)
From stdpp Require Import prelude gmap list relations.
From Stdlib Require Import Lia.
From S2P Require Import Prelude.

Section Ring.
(** What the checksum says of a message, and the number of its buffer. *)
Context {msg : Type} (depth : nat) (good : msg -> bool) (index : msg -> nat).

(** The sender in [msg_cmd_send]; the worker in [msg_delaywork_handle]. *)
Inductive ring_sender :=
| SIdle
| SLooked (pi : nat) (m : msg)   (* read the indices: not full *)
| SCopied (pi : nat) (m : msg).  (* copied the message into its slot *)
Inductive ring_receiver :=
| RIdle
| RLooked (ci : nat)             (* read the indices: not empty *)
| RTold (ci : nat).              (* recorded the slot and woke the process *)

(** The indices, the slots, both ends, [msg_user_addr] (the slot of a buffer's
    answer); what was published, what the worker announced, and what the
    processes copied, each with the number of its buffer. *)
Record ring := Ring {
  r_pi : nat; r_ci : nat; r_slots : list msg;
  r_sender : ring_sender; r_receiver : ring_receiver; r_user : gmap nat nat;
  r_sent : list msg; r_told : list msg; r_copied : list (nat * msg);
}.

Definition next (x : nat) : nat := S x mod depth.

Inductive ring_step : ring -> ring -> Prop :=
| put_look m pi ci sl rc us st tl cp : next pi <> ci ->
    ring_step (Ring pi ci sl SIdle rc us st tl cp) (Ring pi ci sl (SLooked pi m) rc us st tl cp)
| put_full pi ci sl rc us st tl cp : next pi = ci ->
    ring_step (Ring pi ci sl SIdle rc us st tl cp) (Ring pi ci sl SIdle rc us st tl cp)
| put_copy p m pi ci sl rc us st tl cp :
    ring_step (Ring pi ci sl (SLooked p m) rc us st tl cp) (Ring pi ci (<[p := m]> sl) (SCopied p m) rc us st tl cp)
| put_publish p m pi ci sl rc us st tl cp :
    ring_step (Ring pi ci sl (SCopied p m) rc us st tl cp) (Ring (next p) ci sl SIdle rc us (st ++ [m]) tl cp)
| get_look pi ci sl sd us st tl cp : pi <> ci ->
    ring_step (Ring pi ci sl sd RIdle us st tl cp) (Ring pi ci sl sd (RLooked ci) us st tl cp)
| get_bad c m pi ci sl sd us st tl cp : sl !! c = Some m -> good m = false ->
    ring_step (Ring pi ci sl sd (RLooked c) us st tl cp) (Ring pi ci sl sd RIdle us st tl cp)
| get_tell c m pi ci sl sd us st tl cp : sl !! c = Some m -> good m = true ->
    ring_step (Ring pi ci sl sd (RLooked c) us st tl cp)
      (Ring pi ci sl sd (RTold c) (<[index m := c]> us) st (tl ++ [m]) cp)
| get_publish c pi ci sl sd us st tl cp :
    ring_step (Ring pi ci sl sd (RTold c) us st tl cp) (Ring pi (next c) sl sd RIdle us st tl cp)
| proc_copy b c m pi ci sl sd rc us st tl cp : us !! b = Some c -> sl !! c = Some m ->
    ring_step (Ring pi ci sl sd rc us st tl cp) (Ring pi ci sl sd rc us st tl (cp ++ [(b, m)])).

Definition ring_initial (s : ring) : Prop :=
  r_pi s = 0 /\ r_ci s = 0 /\ length (r_slots s) = depth /\ r_sender s = SIdle /\ r_receiver s = RIdle /\
  r_user s = ∅ /\ r_sent s = [] /\ r_told s = [] /\ r_copied s = [].

(** ** The queue it implements *)
Inductive fifo_step : list msg -> list msg -> Prop :=
| fifo_put m q : S (length q) < depth -> fifo_step q (q ++ [m])
| fifo_get m q : fifo_step (m :: q) q.

Definition pending (s : ring) : list msg := drop (length (r_told s)) (r_sent s).

(** ** The invariant

    The indices are the numbers of messages published and given back, modulo
    the depth; a message is in its slot until the sender is back there. *)
Definition given_back (s : ring) : nat :=
  match r_receiver s with RTold _ => pred (length (r_told s)) | _ => length (r_told s) end.
Definition stored (s : ring) : nat :=
  match r_sender s with SCopied _ _ => S (length (r_sent s)) | _ => length (r_sent s) end.

Record ring_invariant (s : ring) : Prop := {
  ri_slots : length (r_slots s) = depth;
  ri_pi : r_pi s = length (r_sent s) mod depth;
  ri_ci : r_ci s = given_back s mod depth;
  ri_order : given_back s <= length (r_sent s) < given_back s + depth;
  ri_prefix : r_told s = take (length (r_told s)) (r_sent s);
  ri_good : Forall (fun m => good m = true) (r_told s);
  ri_held : forall k, k < length (r_sent s) -> stored s <= k + depth -> r_slots s !! (k mod depth) = r_sent s !! k;
  ri_user : forall b c, r_user s !! b = Some c -> exists k m, r_told s !! k = Some m /\ c = k mod depth /\ index m = b;
  ri_sender : match r_sender s with
    | SIdle => True
    | SLooked p _ => p = r_pi s /\ S (length (r_sent s)) < given_back s + depth
    | SCopied p m => p = r_pi s /\ S (length (r_sent s)) < given_back s + depth /\ r_slots s !! p = Some m
    end;
  ri_receiver : match r_receiver s with
    | RIdle => True
    | RLooked c => c = r_ci s /\ given_back s < length (r_sent s)
    | RTold c => c = r_ci s /\ length (r_told s) <> 0 /\ given_back s < length (r_sent s)
    end;
}.

Context (Hdepth : 0 < depth).

Lemma mod_apart a b : a < b < a + depth -> a mod depth <> b mod depth.
Proof.
  intros H E. pose proof (Nat.div_mod_eq a depth). pose proof (Nat.div_mod_eq b depth).
  assert (depth * (b / depth) = depth * (a / depth) + (b - a)) as Hd by lia.
  destruct (Nat.lt_trichotomy (b / depth) (a / depth)) as [Hc | [Hc | Hc]]; nia.
Qed.

Lemma next_mod a : next (a mod depth) = S a mod depth.
Proof. unfold next. rewrite <- (Nat.add_1_r (a mod depth)), <- (Nat.add_1_r a). apply Nat.Div0.add_mod_idemp_l. Qed.

Lemma ring_invariant_initial s : ring_initial s -> ring_invariant s.
Proof.
  intros (Hp & Hc & Hl & Hs & Hr & Hu & Hst & Htk & _).
  assert (given_back s = 0) as Hg by (unfold given_back; by rewrite Hr, Htk).
  split; rewrite ?Hg, ?Hst, ?Htk, ?Hs, ?Hr, ?Hp, ?Hc; cbn; try done.
  1-2: by rewrite Nat.Div0.mod_0_l.
  - lia.
  - intros b c Hb. by rewrite Hu, lookup_empty in Hb.
Qed.

(** Only the sender changes slots. *)
Lemma put_copy_held p m s : ring_invariant s -> r_sender s = SLooked p m ->
  forall k, k < length (r_sent s) -> S (length (r_sent s)) <= k + depth ->
  <[p := m]> (r_slots s) !! (k mod depth) = r_sent s !! k.
Proof.
  intros Hs Hsd k Hk Hd. pose proof (ri_sender _ Hs) as Hp. rewrite Hsd in Hp. destruct Hp as [-> Hroom].
  rewrite list_lookup_insert_ne.
  - apply (ri_held _ Hs); [done |]. unfold stored. rewrite Hsd. lia.
  - rewrite (ri_pi _ Hs). symmetry. apply mod_apart. lia.
Qed.

(** The message at the receiver's index. *)
Lemma head_message c m s : ring_invariant s -> r_receiver s = RLooked c -> r_slots s !! c = Some m ->
  r_sent s !! length (r_told s) = Some m.
Proof.
  intros Hs Hr Hm. pose proof (ri_receiver _ Hs) as Hc. pose proof (ri_ci _ Hs) as Hci.
  unfold given_back in *. rewrite Hr in *. destruct Hc as [-> Hlt].
  rewrite <- (ri_held _ Hs); [by rewrite <- Hci | done |].
  pose proof (ri_order _ Hs) as Ho. pose proof (ri_sender _ Hs) as Hsd. unfold given_back, stored in *. rewrite Hr in *.
  destruct (r_sender s); lia.
Qed.

Lemma ring_invariant_step s s' : ring_invariant s -> ring_step s s' -> ring_invariant s'.
Proof.
  intros Hs Hst.
  destruct Hst as [m pi ci sl rc us st tl cp Hne | | p m pi ci sl rc us st tl cp | p m pi ci sl rc us st tl cp
    | pi ci sl sd us st tl cp Hne | c m pi ci sl sd us st tl cp Hc Hg | c m pi ci sl sd us st tl cp Hc Hg
    | c pi ci sl sd us st tl cp | b c m pi ci sl sd rc us st tl cp Hb Hc];
    pose proof Hs as [Hl Hp Hci Hord Hpre Hgood Hheld Huser Hsd Hrc]; cbn in *; unfold given_back, stored in *; cbn in *.
  - split; cbn; try done. split; [done |].
    destruct (decide (S (length st) = given_back (Ring pi ci sl SIdle rc us st tl cp) + depth)) as [E |];
      unfold given_back in *; cbn in *; [| lia].
    destruct Hne. rewrite Hp, next_mod, E, Hci. rewrite <- (Nat.Div0.add_mod_idemp_r _ depth), Nat.Div0.mod_same, Nat.add_0_r. done.
  - by split.
  - pose proof (put_copy_held p m _ Hs eq_refl) as Hheld'. cbn in Hheld'.
    destruct Hsd as [-> Hroom]. assert (pi < length sl) as Hin by (rewrite Hl, Hp; apply Nat.mod_upper_bound; lia).
    split; cbn; unfold given_back, stored; cbn; try done.
    + by rewrite length_insert.
    + split_and!; [done | done | by apply list_lookup_insert_eq].
  - destruct Hsd as (-> & Hroom & Hm).
    assert (length tl <= length st) as Hle by (rewrite Hpre, length_take; lia).
    split; cbn; unfold given_back, stored; cbn; rewrite ?length_app; cbn; try done.
    + rewrite Hp, next_mod. f_equal. lia.
    + lia.
    + by rewrite take_app_le.
    + intros k Hk Hd. destruct (decide (k = length st)) as [-> | Hne].
      * by rewrite <- Hp, list_lookup_middle.
      * rewrite lookup_app_l by lia. apply Hheld; lia.
    + destruct rc; [done | intuition lia | intuition lia].
  - split; cbn; unfold given_back, stored; cbn; try done. split; [done |].
    destruct (decide (length tl = length st)) as [E |]; [| lia]. destruct Hne. by rewrite Hp, Hci, E.
  - by split.
  - pose proof (head_message c m _ Hs eq_refl Hc) as Hm. cbn in Hm. destruct Hrc as [-> Hlt].
    assert (pred (length (tl ++ [m])) = length tl) as Hgl by (rewrite length_app; cbn; lia).
    split; cbn; unfold given_back, stored; cbn; rewrite ?Hgl; try done.
    + rewrite length_app. cbn. rewrite Nat.add_1_r, (take_S_r _ _ m) by done. by rewrite <- Hpre.
    + apply Forall_app. split; [done | by apply Forall_singleton].
    + intros b c Hb. destruct (decide (b = index m)) as [-> | Hne].
      * rewrite lookup_insert_eq in Hb. injection Hb as <-. exists (length tl), m.
        split_and!; [by apply list_lookup_middle | done | done].
      * rewrite lookup_insert_ne in Hb by done. destruct (Huser b c Hb) as (k & x & Hk & Hx). exists k, x.
        split; [by apply lookup_app_l_Some | done].
    + split_and!; [done | rewrite length_app; cbn; lia | done].
  - destruct Hrc as (-> & Hne & Hlt). split; cbn; unfold given_back, stored; cbn; try done.
    + rewrite Hci, next_mod. f_equal. lia.
    + lia.
    + destruct sd; [done | intuition lia | intuition lia].
  - by split.
Qed.

Lemma ring_invariant_reachable s0 s : ring_initial s0 -> rtc ring_step s0 s -> ring_invariant s.
Proof.
  intros H0 Hr. apply ring_invariant_initial in H0. induction Hr as [| x y z Hxy _ IH]; [done |].
  apply IH. by eapply ring_invariant_step.
Qed.

Lemma given_back_le s : given_back s <= length (r_told s).
Proof. unfold given_back. destruct (r_receiver s); lia. Qed.

Lemma told_le s : ring_invariant s -> length (r_told s) <= length (r_sent s).
Proof. intros Hs. rewrite (ri_prefix _ Hs), length_take. lia. Qed.

(** What a step does to the messages that wait. *)
Lemma step_pending s s' : ring_invariant s -> ring_step s s' ->
  pending s' = pending s \/ fifo_step (pending s) (pending s').
Proof.
  intros Hs Hst. pose proof (told_le s Hs) as Ht. pose proof (given_back_le s) as Hgb.
  destruct Hst as [| | | p m pi ci sl rc us st tl cp | | | c m pi ci sl sd us st tl cp Hc Hg | |]; try by left.
  - right. unfold pending. cbn in *. rewrite drop_app_le by done. apply fifo_put. rewrite length_drop.
    pose proof (ri_sender _ Hs) as (_ & Hroom & _). cbn in Hroom. lia.
  - right. unfold pending. pose proof (head_message c m _ Hs eq_refl Hc) as Hm. cbn in *.
    rewrite length_app. cbn. rewrite Nat.add_1_r, (drop_S st m) by done. apply fifo_get.
Qed.

(** What a process copies. *)
Lemma step_copied s s' : ring_invariant s -> ring_step s s' -> r_copied s' = r_copied s \/
  exists k m b x, r_copied s' = r_copied s ++ [(b, x)] /\ r_told s !! k = Some m /\ index m = b /\
    (length (r_sent s) < k + depth -> x = m).
Proof.
  intros Hs Hst. destruct Hst as [| | | | | | | | b c x pi ci sl sd rc us st tl cp Hb Hc]; try by left.
  right. destruct (ri_user _ Hs b c Hb) as (k & m & Hk & -> & Hi). exists k, m, b, x.
  split_and!; [done | done | done |]. intros Hlt.
  assert (r_sent (Ring pi ci sl sd rc us st tl cp) !! k = Some m) as Hm.
  { rewrite (ri_prefix _ Hs) in Hk. by apply lookup_take_Some in Hk as [? _]. }
  assert (stored (Ring pi ci sl sd rc us st tl cp) <= k + depth) as Hst.
  { unfold stored. destruct (r_sender _); cbn in *; lia. }
  pose proof (ri_held _ Hs k (lookup_lt_Some _ _ _ Hm) Hst) as Hh. rewrite Hm in Hh. cbn in Hh, Hc. congruence.
Qed.


(** ** A process that is late

    One message through an empty ring. *)
Lemma round m p sl us st tl cp : length sl = depth -> p < depth -> next p <> p -> good m = true ->
  rtc ring_step (Ring p p sl SIdle RIdle us st tl cp)
    (Ring (next p) (next p) (<[p := m]> sl) SIdle RIdle (<[index m := p]> us) (st ++ [m]) (tl ++ [m]) cp).
Proof.
  intros Hl Hp Hn Hg. eapply rtc_l; [by apply (put_look m) |]. eapply rtc_l; [apply put_copy |].
  eapply rtc_l; [apply put_publish |]. eapply rtc_l; [by apply get_look |].
  eapply rtc_l; [apply get_tell; [apply list_lookup_insert_eq; lia | done] |].
  eapply rtc_l; [apply get_publish | apply rtc_refl].
Qed.

Lemma late_copy b c m s : r_user s !! b = Some c -> r_slots s !! c = Some m -> exists s',
  ring_step s s' /\ r_copied s' = r_copied s ++ [(b, m)].
Proof. destruct s as [pi ci sl sd rc us st tl cp]. intros Hb Hc. eexists. split; [by eapply proc_copy | done]. Qed.

Fixpoint rounds (ms : list msg) (s : ring) : ring :=
  match ms with
  | [] => s
  | m :: ms' => rounds ms' (Ring (next (r_pi s)) (next (r_pi s)) (<[r_pi s := m]> (r_slots s)) SIdle RIdle
      (<[index m := r_pi s]> (r_user s)) (r_sent s ++ [m]) (r_told s ++ [m]) (r_copied s))
  end.

Lemma rounds_reached ms p sl us st tl cp : 1 < depth -> length sl = depth -> p < depth ->
  Forall (fun m => good m = true) ms ->
  rtc ring_step (Ring p p sl SIdle RIdle us st tl cp) (rounds ms (Ring p p sl SIdle RIdle us st tl cp)).
Proof.
  intros Hd Hl Hp Hms. revert p sl us st tl Hl Hp. induction Hms as [| m ms Hm _ IH]; intros p sl us st tl Hl Hp; [done |].
  assert (next p < depth) as Hn by (apply Nat.mod_upper_bound; lia).
  etrans; [apply (round m); try done |].
  - unfold next. destruct (decide (S p = depth)) as [E |]; [rewrite E, Nat.Div0.mod_same; lia | rewrite Nat.mod_small; lia].
  - apply IH; [by rewrite length_insert | done].
Qed.
End Ring.

(** A ring of 16: seventeen answers later the process of buffer 0 copies the
    answer for buffer 1. *)
Lemma answer_overwritten :
  let good := fun _ : nat => true in let index := fun m : nat => m in
  let s0 := Ring 0 0 (replicate 16 99) SIdle RIdle ∅ [] [] [] in
  exists s s', ring_initial 16 s0 /\ rtc (ring_step 16 good index) s0 s /\ ring_step 16 good index s s' /\
    r_told s !! 0 = Some 0 /\ r_copied s' = [(0, 1)].
Proof.
  cbv zeta. set (s0 := Ring 0 0 (replicate 16 99) SIdle RIdle ∅ [] [] []).
  assert (ring_initial 16 s0) as H0 by done.
  set (s := rounds 16 (fun m => m) (seq 0 16 ++ [1]) s0).
  assert (rtc (ring_step 16 (fun _ => true) (fun m => m)) s0 s) as Hr.
  { apply rounds_reached; [apply Nat.ltb_lt | apply Nat.ltb_lt | reflexivity | apply Nat.ltb_lt |]; try reflexivity.
    by apply Forall_true. }
  assert (r_told s !! 0 = Some 0 /\ r_copied s = []) as [Ht Hcp] by (split; by vm_compute).
  destruct (late_copy 16 (fun _ => true) (fun m => m) 0 0 1 s) as (s' & Hst & Hs'); [by vm_compute.. |].
  exists s, s'. rewrite Hcp in Hs'. exact (conj H0 (conj Hr (conj Hst (conj Ht Hs')))).
Qed.

