(* ===== verification/MsgScm3Props.v ===== *)
(** * MsgScm3Props: sending a message, handling the answers *)
From stdpp Require Import prelude gmap list strings.
From Stdlib Require Import ZArith Lia.
From S2P Require Import Prelude Hw Mem Securec SecurecProps Linux LinuxRegs LinuxRegsProps MsgScm3 MsgCrc.
Local Open Scope Z_scope.

(** Overwriting. *)
Lemma wr_over m a xs ys zs : length ys = length zs ->
  wr (wr m a (xs ++ ys)) (a + Z.of_nat (length xs)) zs = wr m a (xs ++ zs).
Proof.
  intros H. apply map_eq. intros i. rewrite !wr_app, !lookup_wr, H. by repeat case_decide.
Qed.

Lemma rd_wr_take m a bs n : (n <= length bs)%nat -> rd (wr m a bs) a n = Some (take n bs).
Proof.
  intros H. rewrite <- (take_drop n bs) at 1. rewrite wr_app.
  assert (length (take n bs) = n) as Hl by (rewrite length_take; lia).
  rewrite rd_wr_ne by (rewrite Hl; lia). rewrite <- Hl at 2. apply rd_wr_eq.
Qed.

Section Code.
Context {G D : Type} `{MD : Machine D} `{HM : !Has G mem} `{HR : !Has G mgrs} `{HS : !Has G msg_scm3}
  `{IR : !Indep G mem mgrs}.
Context (uninit : Z).
Implicit Types (w : world G D).
Abbreviation scm3_of w := (hget (S := msg_scm3) (glob w)).
Abbreviation sysctrl_of w := (mgr (hget (S := mgrs) (glob w)) Sysctrl).

(** A load whose values the environment restricts. *)
Lemma wp_readl_of a (C : Z -> Prop) (Q : Z -> world G D -> Prop) w :
  (forall d, C (u32 (m_load a d).1)) ->
  (forall v d, fits 32 v -> C v -> Q v (World (glob w) d (tr w ++ [Rd a v]))) ->
  wp (readl a) Q w.
Proof.
  intros HC H. unfold wp, readl. specialize (HC (dev w)). destruct (m_load a (dev w)) as [v d].
  apply H; [by apply wrap_fits | done].
Qed.

(** The interrupt of the M3, or nothing when its register is not mapped. *)
Definition rings (r : reg_mgr) (off val : Z) (t : list event) : Prop :=
  if mgr_usable r then under (mgr_lock Sysctrl) 0 [Wr (reg_at r off) val] t else t = [].

Lemma emits_ring off val w : fits 32 val ->
  emits (sysctrl_reg_write off val) w (fun _ t => rings (sysctrl_of w) off val t).
Proof.
  intros Hv. unfold sysctrl_reg_write, mgr_reg_write. apply emits_bind, emits_access; intros Hu.
  - intros w1 _. apply emits_ret. unfold rings. by rewrite Hu.
  - intros w1 Hw1. apply emits_writel. rewrite wrap_id by done. intros t Ht w2 _. apply emits_ret.
    unfold rings. by rewrite Hu, app_nil_r.
Qed.

(** The trace of an attempt while the lock is held: the queue is not ready, or
    full. *)
Definition not_sent (q : msg_queue_info_s) (t : list event) : Prop :=
  exists v magic, t = [Sy (Call "rmb" "" []) v; Rd (init_flag_base q) magic] /\ magic <> MSG_Q_INIT_MAGIC \/
    exists pi ci, u32 (pi + 1) mod queue_depth q = ci /\
      t = [Sy (Call "rmb" "" []) v; Rd (init_flag_base q) MSG_Q_INIT_MAGIC; Rd (pi_base q) pi; Rd (ci_base q) ci].

(** The message and its checksum in the slot of the producer's index, where
    they are ([Seen]) at the moment the index is stored. *)
Definition with_crc (bs : list Z) : list Z := take 14 bs ++ le_bytes 2 (crc_ccitt (take 14 bs)).
Definition msg_sent (q : msg_queue_info_s) (r : reg_mgr) (bs : list Z) (m m' : mem) (t : list event) : Prop :=
  exists v v' pi ci bell, 0 <= pi < queue_depth q /\ (pi + 1) mod queue_depth q <> ci /\
    t = [Sy (Call "rmb" "" []) v; Rd (init_flag_base q) MSG_Q_INIT_MAGIC; Rd (pi_base q) pi; Rd (ci_base q) ci;
         Seen m'; Wr (pi_base q) ((pi + 1) mod queue_depth q); Sy (Call "wmb" "" []) v'] ++ bell /\
    rings r SYSCTRL_CSR_A55_ASSERT_SOFT_INT_OFFSET_ADDR MSG_A55_M3_INT_TRIGGER bell /\
    m' = wr m (queue_base q + pi * MSG_CMD_LEN) (with_crc bs).

(** The M3 keeps its index in range, and the slots are memory apart from the message. *)
Record queue_ok (q : msg_queue_info_s) (m : mem) (msg_buf : Z) : Prop := {
  qo_pi : forall d : D, u32 (m_load (pi_base q) d).1 < queue_depth q;
  qo_depth : 0 < queue_depth q < 2 ^ 31;
  qo_base : 0 < queue_base q /\ queue_base q + queue_depth q * MSG_CMD_LEN < 2 ^ 64;
  qo_slots : mapped m (queue_base q) (queue_depth q * MSG_CMD_LEN);
  qo_apart : msg_buf + MSG_CMD_LEN <= queue_base q \/ queue_base q + queue_depth q * MSG_CMD_LEN <= msg_buf;
}.

(** The slot's part: the copy, the checksum, and the checksum's place. *)
Lemma wp_fill_slot slot msg_buf bs k (Q : Z -> world G D -> Prop) w :
  bytes (memof w) -> rd (memof w) msg_buf 16 = Some bs -> mapped (memof w) slot 16 -> slot <> NULL -> msg_buf <> NULL ->
  slot + 16 <= msg_buf \/ msg_buf + 16 <= slot ->
  wp k Q (setm (wr (memof w) slot (with_crc bs)) w) ->
  wp (ret ← memcpy_s slot MSG_CMD_LEN msg_buf MSG_CMD_LEN;
      if negb (ret =? 0) then mret ret
      else cksum ← checksum uninit slot; st16 (msg_crc slot) cksum ;; k) Q w.
Proof.
  intros Hb Hr Hm Hs Hbuf Hd HQ. pose proof (rd_length _ _ _ _ Hr) as Hl. pose proof (bytes_rd _ _ _ _ Hb Hr) as Hf.
  apply wp_bind. apply (wp_memcpy_s_ok slot MSG_CMD_LEN msg_buf MSG_CMD_LEN bs); try done.
  cbn [negb Z.eqb EOK]. unfold checksum. apply wp_bind, wp_bind.
  assert (length (take 14 bs) = 14%nat) as Hl14 by (rewrite length_take; lia).
  change (MSG_CMD_LEN - MSG_CMD_CRC_LEN) with (Z.of_nat 14). rewrite <- Hl14.
  apply wp_crc16; [by apply Forall_take | by intros E; rewrite E in Hl14 | done | |].
  { rewrite memof_setm, Hl14. apply rd_wr_take. lia. }
  cbn [default]. apply wp_ret. apply wp_bind. unfold st16, msg_crc. apply wp_stn.
  { rewrite memof_setm. apply mapped_wr. eapply mapped_sub; [exact Hm | lia | lia]. }
  rewrite memof_setm, setm_setm. rewrite <- (take_drop 14 bs) at 1. change 14 with (Z.of_nat 14). rewrite <- Hl14 at 3.
  rewrite wr_over; [exact HQ |]. rewrite length_drop, length_le_bytes. lia.
Qed.

Lemma next_index_ok x n w (Q : Z -> world G D -> Prop) : 0 <= x < n -> 0 < n < 2 ^ 31 ->
  Q ((x + 1) mod n) w -> wp (next_index x n) Q w.
Proof.
  intros Hx Hn HQ. unfold next_index. replace (n =? 0) with false by lia. apply wp_ret.
  rewrite (wrap_id 32 (x + 1)); [done |]. split; lia.
Qed.

Lemma wp_msg_cmd_send queue_type msg_buf q bs w :
  0 <= queue_type -> msg_buf <> NULL -> msg_queue_info (scm3_of w) !! Z.to_nat queue_type = Some q ->
  queue_ok q (memof w) msg_buf -> bytes (memof w) -> rd (memof w) msg_buf 16 = Some bs ->
  wp (msg_cmd_send uninit queue_type msg_buf) (fun ret w' =>
    MSG_Q_TYPE_BUTT <= queue_type /\ ret = - EINVAL /\ w' = w \/
    queue_type < MSG_Q_TYPE_BUTT /\ exists t body m', tr w' = tr w ++ t /\ glob w' = hput m' (glob w) /\
      under send_lock queue_type body t /\
      (ret = - EFAULT /\ not_sent q body /\ m' = memof w \/
       ret = 0 /\ msg_sent q (sysctrl_of w) bs (memof w) m' body)) w.
Proof.
  intros Hqt Hbuf Hq [Hpi Hdep [Hb0 Hb1] Hslots Hapart] Hby Hr.
  unfold msg_cmd_send. replace (msg_buf =? NULL) with false by (symmetry; by apply Z.eqb_neq). cbn [orb].
  destruct (Z.leb_spec MSG_Q_TYPE_BUTT queue_type); [apply wp_ret; by left |].
  apply wp_bind, wp_sys. intros fl d0 _. apply wp_bind. unfold queue_info. apply wp_bind, wp_gets.
  apply wp_some_or. exists q. split; [exact Hq |]. apply wp_bind, wp_sys_. intros v d1 _.
  apply wp_bind, wp_readl. intros magic d2 _. cbn [glob tr].
  destruct (Z.eqb_spec magic MSG_Q_INIT_MAGIC) as [-> | Hne]; cbn [negb].
  2: { apply wp_bind, wp_sys_. intros v3 d3 _. apply wp_ret. right. split; [done |]. cbn [glob tr].
    eexists _, [Sy _ v; Rd _ magic], (memof w). split_and!; [by rewrite <- !app_assoc | by rewrite hput_hget | by exists fl, v3 |].
    left. split_and!; [done | | done]. exists v, magic. by left. }
  apply wp_bind, (wp_readl_of _ (fun x => x < queue_depth q) _ _ Hpi). intros pi d3 [Hp0 _] Hp1. apply wp_bind, wp_readl. intros ci d4 _. cbn [glob tr].
  apply wp_bind, next_index_ok; [lia | done |]. destruct (Z.eqb_spec ((pi + 1) mod queue_depth q) ci) as [<- | Hfull].
  { apply wp_bind, wp_sys_. intros v5 d5 _. apply wp_ret. right. split; [done |]. cbn [glob tr].
    eexists _, [Sy _ v; Rd _ _; Rd _ pi; Rd _ _], (memof w). split_and!; [by rewrite <- !app_assoc | by rewrite hput_hget | by exists fl, v5 |].
    left. split_and!; [done | | done]. exists v, MSG_Q_INIT_MAGIC. right. exists pi, ((pi + 1) mod queue_depth q).
    split; [| done]. rewrite (wrap_id 32 (pi + 1)); [done |]. split; lia. }
  unfold MSG_CMD_LEN in *. cbv zeta. rewrite (wrap_id 64) by (split; nia).
  apply (wp_fill_slot _ _ bs); cbn [glob]; [done | done | eapply mapped_sub; [exact Hslots | nia | nia] | unfold NULL; nia | done | nia |].
  unfold setm. cbn [glob dev tr]. apply wp_bind, next_index_ok; [lia | done |].
  apply wp_bind, wp_writel_shared. intros d5. apply wp_bind, wp_sys_. intros v6 d6 _. cbn [glob tr]. apply wp_bind.
  eapply wp_mono; [apply emits_ring; by split |]. cbv beta. cbn [glob tr]. intros r w7 (Hg & bell & Ht & Hbell).
  apply wp_bind, wp_sys_. intros v8 d8 _. apply wp_ret. right. split; [done |]. cbn [glob tr].
  eexists _, ([Sy _ v; Rd _ _; Rd _ pi; Rd _ ci; Seen _; Wr _ _; Sy _ v6] ++ bell), _.
  split_and!; [by rewrite Ht, <- !app_assoc | exact Hg | by exists fl, v8 |].
  right. split; [done |]. rewrite indep_l in Hbell.
  assert (fits 32 ((pi + 1) mod queue_depth q)) as Hf by (pose proof (Z.mod_pos_bound (pi + 1) (queue_depth q)); split; lia).
  rewrite (wrap_id 32 _ Hf), hget_hput. exists v, v6, pi, ci, bell. by split_and!.
Qed.

(** C38: sending a message of 16 bytes to a queue.  A null message or a queue
    that does not exist is refused and nothing happens.  Otherwise, in the
    section of the queue's send lock: an uninitialised or full queue refuses
    the message with -EFAULT and nothing is stored; or the message is stored
    in the slot of the producer's index, its last two bytes replaced by the
    checksum of the others, then the index moves on by one modulo the depth and
    then the M3 is interrupted.  The message and its checksum are complete in
    memory at the moment the index is stored, and nothing is stored after. *)
Theorem msg_send_contract queue_type msg_buf q bs w :
  0 <= queue_type -> msg_buf <> NULL -> msg_queue_info (scm3_of w) !! Z.to_nat queue_type = Some q ->
  queue_ok q (memof w) msg_buf -> bytes (memof w) -> rd (memof w) msg_buf 16 = Some bs ->
  wp (msg_cmd_send uninit queue_type NULL) (fun ret w' => ret = - EINVAL /\ w' = w) w /\
  wp (msg_cmd_send uninit queue_type msg_buf) (fun ret w' =>
    MSG_Q_TYPE_BUTT <= queue_type /\ ret = - EINVAL /\ w' = w \/
    queue_type < MSG_Q_TYPE_BUTT /\ exists t body m', tr w' = tr w ++ t /\ glob w' = hput m' (glob w) /\
      under send_lock queue_type body t /\
      (ret = - EFAULT /\ not_sent q body /\ m' = memof w \/
       ret = 0 /\ msg_sent q (sysctrl_of w) bs (memof w) m' body)) w.
Proof. intros. split; [by apply wp_ret | by apply wp_msg_cmd_send]. Qed.

(** *** Handling the answers *)
Lemma checksum_val slot bs w : slot <> NULL -> bytes (memof w) -> rd (memof w) slot 16 = Some bs ->
  checksum uninit slot w = Done (crc_ccitt (take 14 bs)) w.
Proof.
  intros Hs Hb Hr. pose proof (rd_length _ _ _ _ Hr) as Hl. pose proof (bytes_rd _ _ _ _ Hb Hr) as Hf.
  assert (length (take 14 bs) = 14%nat) as Hl14 by (rewrite length_take; lia).
  assert (wp (checksum uninit slot) (fun c w' => c = crc_ccitt (take 14 bs) /\ w' = w) w) as H.
  { unfold checksum. apply wp_bind.
    replace (MSG_CMD_LEN - MSG_CMD_CRC_LEN) with (Z.of_nat (length (take 14 bs))) by (by rewrite Hl14).
    apply wp_crc16; [by apply Forall_take | by intros E; rewrite E in Hl14 | done | | apply wp_ret; done].
    rewrite Hl14. pose proof (rd_sub _ _ _ _ 0 14 Hr ltac:(lia)) as H. by rewrite Z.add_0_r in H. }
  unfold wp in H. destruct (checksum uninit slot w) as [c w' |]; [| done]. by destruct H as [-> ->].
Qed.

Lemma ldn_val n a bs w : rd (memof w) a n = Some bs -> ldn n a w = Done (le_word bs) w.
Proof. intros Hr. unfold ldn, gets, mbind, M_bind, some_or. cbn. by rewrite Hr. Qed.

(** What the answer [bs] says: the number of the buffer, and the checksum. *)
Definition index_of (bs : list Z) : Z := le_word (take 2 (drop 12 bs)).
Definition crc_of (bs : list Z) : Z := le_word (drop 14 bs).

(** C39: the answer at the head of the ring.  With a wrong checksum it is left
    alone; otherwise the process that its buffer's number names is told where
    it is and woken.  That number is not checked: one above 15 is outside the
    arrays it indexes. *)
Theorem answer_contract q ci bs w : 
  let slot := queue_base q + ci * MSG_CMD_LEN in
  fits 64 slot -> slot <> NULL -> bytes (memof w) -> rd (memof w) slot 16 = Some bs ->
  length (msg_user_addr (scm3_of w)) = 16%nat ->
  (crc_of bs <> crc_ccitt (take 14 bs) -> handle_message uninit q ci w = Done false w) /\
  (crc_of bs = crc_ccitt (take 14 bs) -> index_of bs < 16 ->
     exists v d, handle_message uninit q ci w =
       Done true (World (hput (set_user_addr (index_of bs) slot (scm3_of w)) (glob w)) d
         (tr w ++ [Sy (Call "complete" msg_completion [index_of bs]) v]))) /\
  (crc_of bs = crc_ccitt (take 14 bs) -> 16 <= index_of bs -> handle_message uninit q ci w = Fault OutOfBounds).
Proof.
  intros slot Hf Hs Hb Hr Hl. pose proof (rd_length _ _ _ _ Hr) as Hlen.
  assert (forall m : Z -> Z -> M G D bool, (c ← checksum uninit slot; crc ← ld16 (msg_crc slot); m c crc) w =
    m (crc_ccitt (take 14 bs)) (crc_of bs) w) as Hhead.
  { intros m. unfold mbind at 1, M_bind. rewrite (checksum_val slot bs) by done. unfold mbind, M_bind.
    pose proof (rd_sub _ _ _ _ 14 2 Hr ltac:(lia)) as H. rewrite take_ge in H by (rewrite length_drop; lia).
    unfold ld16, msg_crc. by rewrite (ldn_val 2 (slot + 14) _ w H). }
  assert (ld16 (msg_index slot) w = Done (index_of bs) w) as Hindex.
  { apply ldn_val. apply (rd_sub _ _ _ _ 12 2 Hr). lia. }
  assert (0 <= index_of bs) as Hpos.
  { assert (Forall (fits 8) (take 2 (drop 12 bs))) as Hff by (by apply Forall_take, Forall_drop; eapply bytes_rd).
    unfold index_of. rewrite <- (le_bytes_word _ Hff), le_word_bytes. apply wrap_fits. lia. }
  unfold handle_message. fold slot. rewrite (wrap_id 64 slot) by done.
  split_and!; intros Hc; [| rewrite Hhead, Hc, Z.eqb_refl; cbn [negb] ..].
  - rewrite Hhead. by replace (_ =? _) with false by (symmetry; apply Z.eqb_neq; congruence).
  - intros Hi. destruct (lookup_lt_is_Some_2 (msg_user_addr (scm3_of w)) (Z.to_nat (index_of bs))) as [x Hx]; [lia |].
    exists (u64 (m_sys (Call "complete" msg_completion [index_of bs]) (dev w)).1), (m_sys (Call "complete" msg_completion [index_of bs]) (dev w)).2.
    unfold mbind, M_bind. rewrite Hindex. unfold gets, some_or. rewrite Hx. cbn. unfold kcall_, sys_, sys, mbind, M_bind. cbn.
    by destruct (m_sys (Call "complete" msg_completion [index_of bs]) (dev w)) as [v d].
  - intros Hi. unfold mbind, M_bind. rewrite Hindex. unfold gets, some_or.
    by rewrite (lookup_ge_None_2 (msg_user_addr (scm3_of w))) by lia.
Qed.
End Code.

(** ** A queue that is ready and empty

    Its indices stay 0; the kernel gives what was asked for. *)
Inductive quiet_m3 := QuietM3.
#[export] Instance quiet_m3_machine : Machine quiet_m3 := {|
  m_load a d := (if a =? 0x1208 then MSG_Q_INIT_MAGIC else if a =? 0x1214 then MSG_Q_INIT_MAGIC else 0, d);
  m_store a v d := d;
  m_sys op d := (match op with Call f _ _ => if String.eqb f "stored" then 0x90 else if String.eqb f "wait_for_completion_timeout" then 1 else 0 | _ => 0 end, d);
|}.
Definition a55_queue : msg_queue_info_s := MsgQueueInfo 0x1000 16 0x1200 0x1204 0x1208.
Definition m3_queue : msg_queue_info_s := MsgQueueInfo 0x1100 16 0x120C 0x1210 0x1214.
Definition probed : msg_scm3 :=
  MsgScm3 [a55_queue; m3_queue] (replicate 16 0) (replicate 16 NULL) 7 0x8000 None.
Abbreviation scm3_globals := (mem * mgrs * msg_scm3)%type.
Definition message : list Z := [1; 2; 3; 4; 5; 6; 7; 8; 9; 10; 11; 12; 13; 14; 0; 0].
Definition scm3_world : world scm3_globals quiet_m3 :=
  World (wr (wr ∅ 0x1000 (replicate 512 0)) 0x100000 message, mapped_mgrs, probed) QuietM3 [].

Lemma msg_send_contract_witness :
  wp (msg_cmd_send 0 MSG_Q_TYPE_SECURE_M3 0x100000) (fun ret w' => ret = 0 ->
    exists pi, 0 <= pi < 16 /\ memof w' = wr (memof scm3_world) (0x1100 + pi * 16) (with_crc message)) scm3_world.
Proof.
  assert (queue_ok (D := quiet_m3) m3_queue (memof scm3_world) 0x100000) as Hq.
  { split; cbn [queue_base queue_depth pi_base m3_queue].
    - intros []. reflexivity.
    - done.
    - done.
    - apply mapped_wr, mapped_block; rewrite ?length_replicate; unfold MSG_CMD_LEN; lia.
    - right. unfold MSG_CMD_LEN. lia. }
  assert (bytes (memof scm3_world)) as Hb.
  { apply bytes_wr; [apply bytes_block; by apply Forall_replicate |]. unfold message. repeat constructor; discriminate. }
  pose proof (rd_wr_eq (wr ∅ 0x1000 (replicate 512 0)) 0x100000 message) as Hr.
  destruct (msg_send_contract 0 MSG_Q_TYPE_SECURE_M3 0x100000 m3_queue message scm3_world ltac:(discriminate) ltac:(discriminate)
    eq_refl Hq Hb Hr) as [_ H].
  eapply wp_mono; [exact H |]. cbv beta.
  intros ret w' [(H' & _) | (_ & t & body & m' & _ & Hg & _ & [(-> & _) | (-> & v & v' & pi & ci & bell & Hpi & _ & _ & _ & ->)])] Hret.
  - contradiction.
  - discriminate.
  - exists pi. split; [exact Hpi |]. by rewrite Hg.
Defined.

(** An answer for buffer 3. *)
Definition answer : list Z := Eval vm_compute in [1; 2; 3; 4; 5; 6; 7; 8; 9; 10; 11; 12; 3; 0] ++ le_bytes 2 (crc_ccitt [1; 2; 3; 4; 5; 6; 7; 8; 9; 10; 11; 12; 3; 0]).
Definition answer_world : world scm3_globals quiet_m3 := World (wr ∅ 0x1000 answer, mapped_mgrs, probed) QuietM3 [].

Lemma answer_contract_witness :
  exists w', handle_message 0 a55_queue 0 answer_world = Done true w' /\
    msg_user_addr (hget (glob w')) !! 3%nat = Some 0x1000.
Proof.
  assert (bytes (memof answer_world)) as Hb.
  { apply bytes_block. unfold answer. repeat constructor; discriminate. }
  destruct (answer_contract 0 a55_queue 0 answer answer_world) as (_ & H & _);
    [split; [discriminate | reflexivity] | discriminate | exact Hb | exact (rd_wr_eq ∅ 0x1000 answer) | reflexivity |].
  destruct H as (v & d & H); [vm_compute; reflexivity | vm_compute; reflexivity |].
  eexists. split; [exact H |]. vm_compute. reflexivity.
Defined.
