(* ===== verification/MsgIoctlProps.v ===== *)
(** * MsgIoctlProps: what a request leaves behind

    Every path of [msg_scm3_ioctl] gives back the data buffer it took. *)
From stdpp Require Import prelude gmap list strings.
From Stdlib Require Import ZArith Lia.
From S2P Require Import Prelude Hw Mem Securec Linux LinuxRegs LinuxRegsProps MsgScm3 MsgCrc MsgScm3Props.
Local Open Scope Z_scope.

Section Code.
Context {G D : Type} `{MD : Machine D} `{HM : !Has G mem} `{HR : !Has G mgrs} `{HS : !Has G msg_scm3}
  `{IR : !Indep G mem mgrs} `{IS : !Indep G mem msg_scm3}.
Context (meanwhile : M G D unit) (msg_local uninit : Z) (q0 q1 : msg_queue_info_s).
Implicit Types (w : world G D).

(** A driver that was probed, with the buffers taken that [st] says: its
    memory is there, and the message of the caller is apart from it. *)
Record driver_ok (st : list Z) (g : G) : Prop := {
  do_queues : msg_queue_info (hget g) = [q0; q1];
  do_status : msg_buf_status (hget g) = st;
  do_answers : length (msg_user_addr (hget g)) = 16%nat /\ Forall (fun a => a = NULL \/
    mapped (hget g) a 16 /\ (msg_local + 16 <= a \/ a + 16 <= msg_local)) (msg_user_addr (hget g));
  do_bytes : bytes (hget g);
  do_local : msg_local <> NULL /\ mapped (hget g) msg_local 16;
  do_buffers : mapped (hget g) (queue_base q0 + MSG_Q_HEAD_RSV_SIZE) MSG_Q_DATA_SIZE;
  do_slots : queue_ok (D := D) q1 (hget g) msg_local;
}.

(** From [st] taken to [st'] taken, with a result that satisfies [P]. *)
Definition moves {A} (st : list Z) (m : M G D A) (P : A -> Prop) (st' : list Z) : Prop :=
  forall w, driver_ok st (glob w) -> wp m (fun a w' => P a /\ driver_ok st' (glob w')) w.

Lemma moves_ret {A} st (a : A) (P : A -> Prop) : P a -> moves st (mret a) P st.
Proof. intros HP w Hw. by apply wp_ret. Qed.

Lemma moves_bind {A B} st st1 st' (m : M G D A) (f : A -> M G D B) P Q :
  moves st m P st1 -> (forall a, P a -> moves st1 (f a) Q st') -> moves st (m ≫= f) Q st'.
Proof.
  intros Hm Hf w Hw. apply wp_bind. eapply wp_mono; [by apply Hm |]. cbv beta.
  intros a w1 [HP Hw1]. by apply Hf.
Qed.

Lemma moves_emits {A} st (m : M G D A) (P : A -> Prop) :
  (forall w, emits m w (fun a _ => P a)) -> moves st m P st.
Proof.
  intros Hm w Hw. eapply wp_mono; [apply Hm |]. cbv beta. intros a w' (Hg & t & _ & HP). split; [done |]. by rewrite Hg.
Qed.

Lemma moves_kcall st f o l (P : Z -> Prop) : (forall v, fits 64 v -> P v) -> moves st (kcall f o l) P st.
Proof. intros HP. apply moves_emits. intros w. by apply emits_kcall. Qed.
Lemma moves_kcall_ st f o l : moves st (kcall_ f o l) (fun _ => True) st.
Proof. apply moves_emits. intros w. by apply emits_kcall_. Qed.

(** Storing bytes anywhere keeps the driver in order. *)
Lemma driver_ok_wr st g a bs : driver_ok st g -> Forall (fits 8) bs -> driver_ok st (hput (wr (hget g) a bs) g).
Proof.
  intros [H1 H2 [H3 H3'] H4 [H5 H5'] H6 [H7 H8 H9 H10 H11]] Hbs. split; rewrite ?indep_l, ?hget_hput; try done.
  - split; [done |]. eapply Forall_impl; [exact H3' |]. cbv beta. intros x [-> | [Hx Hd]]; [by left |]. right.
    split; [by apply mapped_wr | done].
  - by apply bytes_wr.
  - split; [done | by apply mapped_wr].
  - by apply mapped_wr.
  - split; try done. by apply mapped_wr.
Qed.

Lemma moves_stn st n a v : (forall g, driver_ok st g -> mapped (hget g) a (Z.of_nat n)) ->
  moves st (stn n a v) (fun _ => True) st.
Proof.
  intros Ha w Hw. apply wp_stn; [by apply Ha |]. split; [done |]. unfold setm. cbn [glob]. apply driver_ok_wr; [done |].
  revert v. induction n as [| n IH]; intros v; cbn [le_bytes]; constructor; [by apply wrap_fits |]. apply IH.
  intros g Hg. eapply mapped_sub; [by apply Ha | lia | lia].
Qed.

Lemma moves_ldn st n a : (forall g, driver_ok st g -> mapped (hget g) a (Z.of_nat n)) ->
  moves st (ldn n a) (fun v => 0 <= v) st.
Proof.
  intros Ha w Hw. apply wp_ldn. destruct (rd_mapped _ _ _ (Ha _ Hw)) as [bs Hbs]. exists bs. split; [done |].
  split; [| done]. assert (Forall (fits 8) bs) as Hf by (eapply bytes_rd; [apply (do_bytes _ _ Hw) | done]).
  rewrite <- (le_bytes_word bs Hf), le_word_bytes. apply wrap_fits. lia.
Qed.

(** *** The table of buffers *)
Lemma wp_locked {A} l i (m : M G D A) (Q : A -> G -> Prop) w :
  (forall w', glob w' = glob w -> wp m (fun a w'' => Q a (glob w'')) w') ->
  wp (locked l i m) (fun a w' => Q a (glob w')) w.
Proof.
  intros Hm. apply wp_bind, wp_sys. intros fl d _. apply wp_bind. eapply wp_mono; [by apply Hm |]. cbv beta.
  intros a w' HQ. apply wp_bind, wp_sys_. intros v d' _. by apply wp_ret.
Qed.

Lemma driver_ok_status st g i v : driver_ok st g -> driver_ok (<[Z.to_nat i := v]> st) (hput (set_buf_status i v (hget g)) g).
Proof.
  intros [H1 <- [H3 H3'] H4 H5 H6 H7]. split; rewrite ?indep_r, ?hget_hput; try done.
  split; [done |]. eapply Forall_impl; [exact H3' |]. cbv beta. intros x Hx. by rewrite indep_r.
Qed.

Lemma wp_take_buffer st n index w : driver_ok st (glob w) -> length st = 16%nat -> 0 <= index -> index + Z.of_nat n <= 16 ->
  wp (take_buffer n index) (fun r w' => match r with
    | None => driver_ok st (glob w')
    | Some i => 0 <= i < 16 /\ st !! Z.to_nat i = Some 0 /\ driver_ok (<[Z.to_nat i := 1]> st) (glob w')
    end) w.
Proof.
  intros Hw Hl. revert index. induction n as [| n IH]; intros index Hi Hn; cbn [take_buffer]; [by apply wp_ret |].
  apply wp_bind, wp_gets. rewrite (do_status _ _ Hw). apply wp_bind, wp_some_or.
  destruct (lookup_lt_is_Some_2 st (Z.to_nat index)) as [x Hx]; [lia |]. exists x. split; [done |].
  destruct (Z.eqb_spec x 0) as [-> |]; [| apply IH; lia].
  apply wp_bind, wp_modg, wp_ret. split_and!; [lia | lia | done | by apply driver_ok_status].
Qed.

Lemma moves_release st i : moves st (msg_release_data_buffer i) (fun _ => True) (<[Z.to_nat i := 0]> st).
Proof.
  intros w Hw. apply (wp_locked _ _ _ (fun _ g => True /\ driver_ok _ g)). intros w' Hg. apply wp_modg. rewrite Hg.
  split; [done | by apply driver_ok_status].
Qed.

(** *** The message of the caller *)
Lemma local_mapped st off n g : driver_ok st g -> 0 <= off -> off + n <= 16 -> mapped (hget g) (msg_local + off) n.
Proof. intros Hg Ho Hn. eapply mapped_sub; [apply (do_local _ _ Hg) | lia | lia]. Qed.

Lemma moves_field st n off v : 0 <= off -> off + Z.of_nat n <= 16 ->
  moves st (stn n (msg_local + off) v) (fun _ => True) st.
Proof. intros Ho Hn. apply moves_stn. intros g Hg. by eapply local_mapped. Qed.

Lemma moves_ld_field st n off : 0 <= off -> off + Z.of_nat n <= 16 ->
  moves st (ldn n (msg_local + off)) (fun v => 0 <= v) st.
Proof. intros Ho Hn. apply moves_ldn. intros g Hg. by eapply local_mapped. Qed.

(** Sending, and the wait.  The results are 0 or negative error numbers. *)
Definition errno_or_0 (ret : Z) : Prop := - EINVAL <= ret <= 0.

Lemma moves_send st : moves st (msg_cmd_send uninit MSG_Q_TYPE_SECURE_M3 msg_local) errno_or_0 st.
Proof.
  intros w Hw. destruct (rd_mapped (memof w) msg_local 16) as [bs Hbs]; [apply (do_local _ _ Hw) |].
  eapply wp_mono; [apply (wp_msg_cmd_send uninit MSG_Q_TYPE_SECURE_M3 msg_local q1 bs); try done;
    [apply (do_local _ _ Hw) | by rewrite (do_queues _ _ Hw) | apply (do_slots _ _ Hw) | apply (do_bytes _ _ Hw)] |].
  cbv beta. intros ret w' [(H & _) | (_ & t & body & m' & _ & Hg & _ & Hm)]; [done |]. rewrite Hg.
  destruct Hm as [(-> & _ & ->) | (-> & v & v' & pi & ci & bell & _ & _ & _ & _ & ->)].
  - rewrite hput_hget. by split.
  - split; [done |]. apply driver_ok_wr; [done |]. unfold with_crc. apply Forall_app. split.
    + apply Forall_take. eapply bytes_rd; [apply (do_bytes _ _ Hw) | done].
    + repeat constructor; by apply wrap_fits.
Qed.

Lemma moves_retry st n : moves st (send_retry uninit n msg_local) (fun _ => True) st.
Proof.
  induction n as [| n IH]; cbn [send_retry]; [by apply moves_ret |].
  eapply moves_bind; [apply moves_send |]. intros ret _. destruct (ret =? 0); [by apply moves_ret |].
  eapply moves_bind; [apply moves_kcall_ | done].
Qed.

(** While a process waits, calls of others may run: they too leave the table
    as they found it. *)
Context (Hmean : forall st, moves st meanwhile (fun _ => True) st).

Lemma moves_send_and_wait st : moves st (msg_comm_send_and_wait meanwhile uninit msg_local) errno_or_0 st.
Proof.
  unfold msg_comm_send_and_wait. destruct (msg_local =? NULL); [by apply moves_ret |].
  eapply moves_bind; [by apply moves_ld_field |]. intros index _.
  destruct (MSG_Q_DEPTH <=? index); [by apply moves_ret |].
  eapply moves_bind; [apply moves_retry |]. intros ok _. destruct ok; cbn [negb].
  - eapply moves_bind; [apply Hmean |]. intros _ _. eapply moves_bind with (P := fun _ => True).
    { apply moves_emits. intros w. by apply emits_kcall_s32. }
    intros ret _. apply moves_ret. by destruct (ret =? 0).
  - eapply moves_bind with (P := fun _ => True); [| intros; by apply moves_ret].
    intros w Hw. unfold memset_s, SECUREC_MEMSET_PARAM_OK. destruct (do_local _ _ Hw) as [Hn Hm].
    replace (msg_local =? NULL) with false by (symmetry; by apply Z.eqb_neq). cbn -[wp memset].
    apply wp_bind. eapply wp_mono; [by apply (wp_fill 16 msg_local 0) |]. cbv beta. intros _ w' ->. apply wp_ret.
    split; [done |]. apply driver_ok_wr; [done |]. repeat constructor; by apply wrap_fits.
Qed.

(** The copy of the answer, from wherever it was recorded. *)
Lemma wp_copy_answer st a w : driver_ok st (glob w) -> (a = NULL \/ mapped (memof w) a 16 /\
    (msg_local + 16 <= a \/ a + 16 <= msg_local)) ->
  wp (memcpy_s msg_local MSG_CMD_LEN a MSG_CMD_LEN) (fun _ w' => True /\ driver_ok st (glob w')) w.
Proof.
  intros Hw Ha. destruct (do_local _ _ Hw) as [Hn Hm]. destruct (decide (a = NULL)) as [-> | Hne].
  - unfold memcpy_s, SECUREC_MEMCPY_PARAM_OK, SecMemcpyError.
    replace (msg_local =? NULL) with false by (symmetry; by apply Z.eqb_neq). rewrite !andb_false_r. cbn -[wp memset].
    apply wp_bind. eapply wp_mono; [by apply (wp_fill 16 msg_local 0) |]. cbv beta. intros _ w' ->. apply wp_ret.
    split; [done |]. apply driver_ok_wr; [done |]. repeat constructor; by apply wrap_fits.
  - destruct Ha as [? | [Ha Hd]]; [done |]. destruct (rd_mapped (memof w) a 16 Ha) as [bs Hbs].
    pose proof (do_bytes _ _ Hw) as Hb.
    apply (wp_memcpy_s_ok msg_local MSG_CMD_LEN a MSG_CMD_LEN bs); try done.
    split; [done |]. apply driver_ok_wr; [done |]. by eapply bytes_rd.
Qed.

Lemma moves_tx_rx st i km : (0 <= i < 16) -> (forall g, driver_ok st g -> mapped (hget g) km 1) ->
  moves st (msg_sec_module_cmd_tx_rx meanwhile uninit msg_local i km) errno_or_0 st.
Proof.
  intros Hi Hkm. eapply moves_bind; [apply moves_send_and_wait |]. intros ret Hret.
  destruct (ret =? 0); cbn [negb]; [| by apply moves_ret].
  intros w Hw. apply wp_bind, wp_gets. destruct (do_answers _ _ Hw) as [Hl Ha].
  destruct (lookup_lt_is_Some_2 (msg_user_addr (hget (glob w))) (Z.to_nat i)) as [a Hai]; [lia |].
  apply wp_bind, wp_some_or. exists a. split; [done |]. rewrite Forall_lookup in Ha.
  apply wp_bind. eapply wp_mono; [eapply wp_copy_answer; [done | by eapply Ha] |]. cbv beta. intros _ w' [_ Hw'].
  revert w' Hw'. change (moves st (msg_check_interal_error km) errno_or_0 st). unfold msg_check_interal_error.
  eapply moves_bind; [by apply moves_ldn |]. intros cmd _. apply moves_ret. by destruct (negb _).
Qed.

(** *** The copies of the kernel *)
Lemma moves_copy_to_user st to from n : 0 <= n -> (forall g, driver_ok st g -> mapped (hget g) from n) ->
  moves st (copy_to_user to from n) (fun _ => True) st.
Proof.
  intros Hn Hm. eapply moves_bind with (P := fun _ => True); [| intros; by apply moves_kcall].
  intros w Hw. unfold load_bytes, wp. destruct (rd_mapped (memof w) from (Z.to_nat n)) as [bs ->]; [| done].
  rewrite Z2Nat.id by done. by apply Hm.
Qed.

Lemma moves_store_user st n to : (forall g, driver_ok st g -> mapped (hget g) to (Z.of_nat n)) ->
  moves st (store_user n to) (fun _ => True) st.
Proof.
  revert to. induction n as [| n IH]; intros to Hm; cbn [store_user]; [by apply moves_ret |].
  eapply moves_bind with (P := fun _ => True); [by apply moves_kcall |]. intros v _.
  eapply moves_bind; [apply moves_stn |]; [| intros _ _; apply IH];
    intros g Hg; (eapply mapped_sub; [by apply Hm | lia | lia]).
Qed.

Lemma moves_copy_from_user st to from n : 0 <= n -> (forall g, driver_ok st g -> mapped (hget g) to n) ->
  moves st (copy_from_user to from n) (fun _ => True) st.
Proof.
  intros Hn Hm. eapply moves_bind with (P := fun _ => True); [by apply moves_kcall |]. intros ret _.
  eapply moves_bind with (P := fun _ => True); [| intros; by apply moves_ret].
  destruct (ret =? 0); cbn [when]; [| by apply moves_ret]. apply moves_store_user. by rewrite Z2Nat.id.
Qed.

(** *** A request with its buffer *)
Definition buffer (i : Z) : Z := queue_base q0 + MSG_Q_HEAD_RSV_SIZE + i * MSG_DATA_MAX_SIZE.

Lemma buffer_mapped st i n g : driver_ok st g -> 0 <= i < 16 -> n <= MSG_DATA_MAX_SIZE -> mapped (hget g) (buffer i) n.
Proof.
  intros Hg Hi Hn. eapply mapped_sub; [apply (do_buffers _ _ Hg) | |];
    unfold buffer, MSG_Q_DATA_SIZE, MSG_Q_DEPTH, MSG_DATA_MAX_SIZE in *; lia.
Qed.

(** Giving the buffer back, and returning [ret]. *)
Lemma moves_give_back st i ret : errno_or_0 ret ->
  moves st (msg_release_data_buffer i ;; mret ret) errno_or_0 (<[Z.to_nat i := 0]> st).
Proof. intros Hr. eapply moves_bind; [apply moves_release |]. intros _ _. by apply moves_ret. Qed.

Lemma moves_reply st buf c km : 0 <= r_len c -> (forall g, driver_ok st g -> mapped (hget g) km (r_len c)) ->
  moves st (msg_sec_module_cmd_cpy_to_user buf c km) errno_or_0 st.
Proof.
  intros Hn Hm. unfold msg_sec_module_cmd_cpy_to_user. destruct (r_len c =? 0); [by apply moves_ret |].
  eapply moves_bind; [by apply moves_copy_to_user |]. intros ret _. destruct (negb _); [by apply moves_ret |].
  eapply moves_bind with (P := fun _ => True); [by apply moves_kcall |]. intros v _. destruct (negb _); by apply moves_ret.
Qed.

Lemma moves_exchange st buf c i : 0 <= i < 16 -> 0 <= s_len c <= MSG_DATA_MAX_SIZE -> r_len c <= MSG_DATA_MAX_SIZE ->
  moves st (exchange meanwhile msg_local uninit buf c (buffer i) i) errno_or_0 (<[Z.to_nat i := 0]> st).
Proof.
  intros Hi Hs Hr. unfold exchange.
  eapply moves_bind; [apply moves_copy_from_user; [lia |]; intros g Hg; eapply buffer_mapped; [done | done | lia] |].
  intros failed _. destruct (ctrue failed); [by apply moves_give_back |].
  eapply moves_bind; [unfold data_addr; rewrite <- (Z.add_0_r msg_local); by apply moves_field |]. intros _ _.
  eapply moves_bind; [by apply moves_field |]. intros _ _. eapply moves_bind; [by apply moves_field |]. intros _ _.
  eapply moves_bind; [apply moves_tx_rx; [done |]; intros g Hg; by eapply buffer_mapped |]. intros ret Hret.
  destruct (ret =? 0); cbn [negb]; [| by apply moves_give_back].
  eapply moves_bind; [by apply moves_ld_field |]. intros len Hlen.
  destruct (Z.ltb_spec (r_len c) len); [by apply moves_give_back |]. cbv zeta.
  eapply moves_bind; [| intros ret' Hret'; by apply moves_give_back].
  apply moves_reply; cbn [r_len]; [done |]. intros g Hg. eapply buffer_mapped; [done | done | lia].
Qed.

Lemma wp_get_buffer st w : driver_ok st (glob w) -> length st = 16%nat ->
  wp msg_get_data_buffer (fun r w' => match r with
    | None => driver_ok st (glob w')
    | Some (km, i) => km = buffer i /\ 0 <= i < 16 /\ st !! Z.to_nat i = Some 0 /\
        driver_ok (<[Z.to_nat i := 1]> st) (glob w')
    end) w.
Proof.
  intros Hw Hl. apply wp_bind. eapply wp_mono.
  - apply (wp_locked _ _ _ (fun r g => match r with
      | None => driver_ok st g
      | Some i => 0 <= i < 16 /\ st !! Z.to_nat i = Some 0 /\ driver_ok (<[Z.to_nat i := 1]> st) g
      end)). intros w1 Hg. eapply wp_mono; [apply (wp_take_buffer st); [by rewrite Hg | done | done | done] |]. done.
  - cbv beta. intros [i |] w1; [| intros H; apply wp_ret, H].
    intros (Hi & Hst & Hok). apply wp_bind, wp_bind, wp_gets, wp_some_or. exists q0.
    split; [by rewrite (do_queues _ _ Hok) |]. by apply wp_ret.
Qed.

(** C40: a request gives back the data buffer it took, on every path.  From a
    driver in order, when the memory of the process gives an answer's length of
    at most a buffer and the requests served meanwhile do the same, the call
    ends, with 0 or a negative error number, the driver in order and the same
    buffers taken as before; an unknown command does nothing at all. *)
Theorem ioctl_gives_back_buffer st cmd buf w : length st = 16%nat ->
  (forall d : D, u32 (u64 (m_sys (Call "stored" "r_len" []) d).1) <= MSG_DATA_MAX_SIZE) ->
  driver_ok st (glob w) ->
  wp (msg_scm3_ioctl meanwhile msg_local uninit cmd buf) (fun ret w' =>
    - EINVAL <= ret <= 0 /\ driver_ok st (glob w') /\
    (cmd <> SEC_MODULE_CMD_TX_RX -> ret = - MSG_IO_CMD_NOT_SUPPORT /\ w' = w)) w.
Proof.
  intros Hl Hrl Hw. unfold msg_scm3_ioctl. destruct (Z.eqb_spec cmd SEC_MODULE_CMD_TX_RX) as [-> |]; [| by apply wp_ret].
  apply wp_mono with (P := fun ret w' => errno_or_0 ret /\ driver_ok st (glob w')); [| by intros ret w' [? ?]].
  revert w Hw. change (moves st (msg_sec_module_cmd_handle meanwhile msg_local uninit buf) errno_or_0 st).
  eapply moves_bind with (P := fun _ => True); [by apply moves_kcall |]. intros failed _.
  destruct (ctrue failed); [by apply moves_ret |].
  do 3 (eapply moves_bind with (P := fun _ => True); [by apply moves_kcall | intros ? _]).
  eapply moves_bind with (P := fun v => u32 v <= MSG_DATA_MAX_SIZE).
  { intros w Hw. unfold stored, kcall, sys, wp. specialize (Hrl (dev w)).
    destruct (m_sys (Call "stored" "r_len" []) (dev w)) as [v d]. by split. }
  intros rl Hrlen. cbv zeta. unfold msg_check_ioctl_user_data. cbn [s_len r_len r_buff s_buff].
  destruct (Z.ltb_spec MSG_DATA_MAX_SIZE (u32 a0)); [by apply moves_ret |].
  destruct (u32 a0 <? MSG_DATA_TX_MIN_SIZE); [by apply moves_ret |].
  destruct (u32 rl <? MSG_DATA_RX_MIN_SIZE); [by apply moves_ret |].
  destruct (a1 =? NULL); [by apply moves_ret |]. destruct (a =? NULL); [by apply moves_ret |]. cbn [Z.eqb negb].
  intros w Hw. apply wp_bind.
  eapply wp_mono; [by apply (wp_get_buffer st) |]. cbv beta. intros [[km i] |] w1; [| intros H1; by apply wp_ret].
  intros (-> & Hi & Hst & Hok).
  eapply wp_mono; [apply (moves_exchange (<[Z.to_nat i := 1]> st)); [done | | done | exact Hok] |].
  - split; [by apply wrap_fits | done].
  - cbv beta. intros ret w2 [Hret H2]. split; [done |]. by rewrite list_insert_insert_eq, (list_insert_id st) in H2.
Qed.
End Code.

(** ** A driver with its sixteen buffers free *)
Definition shared_size : nat := Z.to_nat (MSG_Q_HEAD_RSV_SIZE + MSG_Q_DATA_SIZE).
Definition driver_world : world scm3_globals quiet_m3 :=
  World (wr (wr ∅ 0x1000 (replicate shared_size 0)) 0x100000 (replicate 16 0), mapped_mgrs, probed) QuietM3 [].

Lemma driver_world_ok : driver_ok 0x100000 a55_queue m3_queue (replicate 16 0) (glob driver_world).
Proof.
  assert (Z.of_nat shared_size = 73728) as Hn by (apply Z2Nat.id; discriminate).
  unfold driver_world. generalize dependent shared_size. intros n Hn. split; cbn [hget glob Has_fst Has_snd Has_self fst snd].
  - reflexivity.
  - reflexivity.
  - split; [reflexivity |]. by apply Forall_replicate; left.
  - apply bytes_wr; [apply bytes_block |]; by apply Forall_replicate.
  - split; [discriminate |]. intros i Hi. rewrite lookup_wr, length_replicate. case_decide; [apply lookup_lt_is_Some_2; rewrite length_replicate; lia | lia].
  - apply mapped_wr, mapped_block; rewrite ?length_replicate, ?Hn;
      unfold MSG_Q_HEAD_RSV_SIZE, MSG_Q_DATA_SIZE, MSG_Q_DEPTH, MSG_DATA_MAX_SIZE; cbn [queue_base a55_queue]; lia.
  - split; cbn [queue_base queue_depth pi_base m3_queue].
    + intros []. reflexivity.
    + done.
    + done.
    + apply mapped_wr, mapped_block; rewrite ?length_replicate, ?Hn; unfold MSG_CMD_LEN; lia.
    + right. unfold MSG_CMD_LEN. lia.
Qed.

Lemma ioctl_gives_back_buffer_witness :
  wp (msg_scm3_ioctl (mret tt) 0x100000 0 SEC_MODULE_CMD_TX_RX 0x5000)
    (fun ret w' => - EINVAL <= ret <= 0 /\ msg_buf_status (hget (glob w')) = replicate 16 0) driver_world.
Proof.
  eapply wp_mono; [eapply (ioctl_gives_back_buffer (mret tt) 0x100000 0 a55_queue m3_queue) |].
  - intros st w Hw. by apply wp_ret.
  - apply length_replicate.
  - intros []. discriminate.
  - exact driver_world_ok.
  - cbv beta. intros ret w' (Hret & Hok & _). split; [exact Hret | apply (do_status _ _ _ _ _ Hok)].
Defined.
