(* ===== verification/Scanf.v ===== *)
(** * Scanf: formatted input of the bounds-checked C library
    (platform/securec/src: input.inl, secureinput_a.c, secinput.h,
    vsscanf_s.c, sscanf_s.c, gets_s.c)

    [SecInputS] reads a stream as the format says and stores what it reads
    behind the pointers of the arguments; a string comes with the length of
    its array.  The configuration is that of a 64-bit build outside the kernel:
    Linux formats, floats, wide characters.  The stream is a string: the
    branches for files and pipes are left out.

    A pointer to a C function's local variable that the function returns a
    new value for is a result here.  The C library's part - [strtod], [strtold],
    [mbtowc], [fgets] - is the class [LibcIn] and a parameter; [isspace] and
    [isdigit] are those of the C locale.  The text of a floating point number
    is a list with the length of its buffer.  [fuel] bounds the length of the
    format and of the input. *)
From stdpp Require Import prelude gmap list strings.
From Stdlib Require Import ZArith Lia.
From S2P Require Import Prelude Hw Mem Securec Printf.
Local Open Scope Z_scope.

(** *** Constants *)
Definition EOF : Z := -1.
Definition SECUREC_SCANF_EINVAL : Z := -1.
Definition SECUREC_SCANF_ERROR_PARA : Z := -2.
Definition SECUREC_MEM_STR_FLAG : Z := 1.
Definition SECUREC_NUM_WIDTH_SHORT : Z := 0.
Definition SECUREC_NUM_WIDTH_INT : Z := 1.
Definition SECUREC_NUM_WIDTH_LONG : Z := 2.
Definition SECUREC_NUM_WIDTH_LONG_LONG : Z := 3.
Definition SECUREC_MULTI_BYTE_MAX_LEN : Z := 6.
Definition SECUREC_MAX_64BITS_VALUE : Z := 18446744073709551615.
Definition SECUREC_MAX_64BITS_VALUE_DIV_TEN : Z := 1844674407370955161.
Definition SECUREC_MAX_64BITS_VALUE_CUT_LAST_DIGIT : Z := 18446744073709551610.
Definition SECUREC_MIN_64BITS_NEG_VALUE : Z := 9223372036854775808.
Definition SECUREC_MAX_64BITS_POS_VALUE : Z := 9223372036854775807.
Definition SECUREC_MAX_32BITS_VALUE : Z := 4294967295.
Definition SECUREC_MAX_32BITS_VALUE_INC : Z := 4294967296.
Definition SECUREC_LONG_BIT_NUM : Z := 64.
Definition SECUREC_MAX_LONG_POS_VALUE : Z := Z.shiftl 1 (SECUREC_LONG_BIT_NUM - 1) - 1.
Definition SECUREC_MIN_LONG_NEG_VALUE : Z := Z.shiftl 1 (SECUREC_LONG_BIT_NUM - 1).
Definition SECUREC_BRACE : Z := chr "{".
Definition SECUREC_BRACKET_TABLE_SIZE : nat := 32.
Definition SECUREC_NUMBER_STATE_DEFAULT : Z := 0.
Definition SECUREC_NUMBER_STATE_STARTED : Z := 1.

Definition SECUREC_LONG_HEX_BEYOND_MAX (number : Z) : bool := 0 <? Z.shiftr number (SECUREC_LONG_BIT_NUM - 4).
Definition SECUREC_LONG_OCTAL_BEYOND_MAX (number : Z) : bool := 0 <? Z.shiftr number (SECUREC_LONG_BIT_NUM - 3).
Definition SECUREC_QWORD_HEX_BEYOND_MAX (number : Z) : bool := 0 <? Z.shiftr number (64 - 4).
Definition SECUREC_QWORD_OCTAL_BEYOND_MAX (number : Z) : bool := 0 <? Z.shiftr number (64 - 3).
Definition SECUREC_CONVERT_IS_SIGNED (conv : Z) : bool := (conv =? chr "d") || (conv =? chr "i").
(** Of 64-bit numbers. *)
Definition SECUREC_MUL_SIXTEEN (x : Z) : Z := u64 (Z.shiftl x 4).
Definition SECUREC_MUL_EIGHT (x : Z) : Z := u64 (Z.shiftl x 3).
Definition SECUREC_MUL_TEN_64 (x : Z) : Z := u64 (Z.shiftl (u64 (u64 (Z.shiftl x 2) + x)) 1).

(** *** The stream *)
Record SecFileStream := FileStream { s_flag : Z; s_base : Z; s_cur : Z; s_count : Z }.
Definition SECUREC_FILE_STREAM_FROM_STRING (buf cnt : Z) : SecFileStream := FileStream SECUREC_MEM_STR_FLAG NULL buf cnt.
Definition SECUREC_UN_GET_CHAR (s : SecFileStream) : SecFileStream :=
  if s_base s <? s_cur s then FileStream (s_flag s) (s_base s) (s_cur s - 1) (s_count s + 1) else s.

(** *** The conversion *)
Record SecScanSpec := ScanSpec {
  ch : Z; charCount : Z; argPtr : Z; arrayWidth : Z; number64 : Z; number : Z; numberWidth : Z; numberArgType : Z; negative : Z;
  beyondMax : Z; numberState : Z; width : Z; widthSet : Z; convChr : Z; oriConvChr : Z; isWCharOrLong : Z; suppress : Z;
}.
Definition with_ch x p := ScanSpec x (charCount p) (argPtr p) (arrayWidth p) (number64 p) (number p) (numberWidth p) (numberArgType p) (negative p) (beyondMax p) (numberState p) (width p) (widthSet p) (convChr p) (oriConvChr p) (isWCharOrLong p) (suppress p).
Definition with_charCount x p := ScanSpec (ch p) x (argPtr p) (arrayWidth p) (number64 p) (number p) (numberWidth p) (numberArgType p) (negative p) (beyondMax p) (numberState p) (width p) (widthSet p) (convChr p) (oriConvChr p) (isWCharOrLong p) (suppress p).
Definition with_argPtr x p := ScanSpec (ch p) (charCount p) x (arrayWidth p) (number64 p) (number p) (numberWidth p) (numberArgType p) (negative p) (beyondMax p) (numberState p) (width p) (widthSet p) (convChr p) (oriConvChr p) (isWCharOrLong p) (suppress p).
Definition with_arrayWidth x p := ScanSpec (ch p) (charCount p) (argPtr p) x (number64 p) (number p) (numberWidth p) (numberArgType p) (negative p) (beyondMax p) (numberState p) (width p) (widthSet p) (convChr p) (oriConvChr p) (isWCharOrLong p) (suppress p).
Definition with_number64 x p := ScanSpec (ch p) (charCount p) (argPtr p) (arrayWidth p) x (number p) (numberWidth p) (numberArgType p) (negative p) (beyondMax p) (numberState p) (width p) (widthSet p) (convChr p) (oriConvChr p) (isWCharOrLong p) (suppress p).
Definition with_number x p := ScanSpec (ch p) (charCount p) (argPtr p) (arrayWidth p) (number64 p) x (numberWidth p) (numberArgType p) (negative p) (beyondMax p) (numberState p) (width p) (widthSet p) (convChr p) (oriConvChr p) (isWCharOrLong p) (suppress p).
Definition with_numberWidth x p := ScanSpec (ch p) (charCount p) (argPtr p) (arrayWidth p) (number64 p) (number p) x (numberArgType p) (negative p) (beyondMax p) (numberState p) (width p) (widthSet p) (convChr p) (oriConvChr p) (isWCharOrLong p) (suppress p).
Definition with_numberArgType x p := ScanSpec (ch p) (charCount p) (argPtr p) (arrayWidth p) (number64 p) (number p) (numberWidth p) x (negative p) (beyondMax p) (numberState p) (width p) (widthSet p) (convChr p) (oriConvChr p) (isWCharOrLong p) (suppress p).
Definition with_negative x p := ScanSpec (ch p) (charCount p) (argPtr p) (arrayWidth p) (number64 p) (number p) (numberWidth p) (numberArgType p) x (beyondMax p) (numberState p) (width p) (widthSet p) (convChr p) (oriConvChr p) (isWCharOrLong p) (suppress p).
Definition with_beyondMax x p := ScanSpec (ch p) (charCount p) (argPtr p) (arrayWidth p) (number64 p) (number p) (numberWidth p) (numberArgType p) (negative p) x (numberState p) (width p) (widthSet p) (convChr p) (oriConvChr p) (isWCharOrLong p) (suppress p).
Definition with_numberState x p := ScanSpec (ch p) (charCount p) (argPtr p) (arrayWidth p) (number64 p) (number p) (numberWidth p) (numberArgType p) (negative p) (beyondMax p) x (width p) (widthSet p) (convChr p) (oriConvChr p) (isWCharOrLong p) (suppress p).
Definition with_fieldWidth x p := ScanSpec (ch p) (charCount p) (argPtr p) (arrayWidth p) (number64 p) (number p) (numberWidth p) (numberArgType p) (negative p) (beyondMax p) (numberState p) x (widthSet p) (convChr p) (oriConvChr p) (isWCharOrLong p) (suppress p).
Definition with_widthSet x p := ScanSpec (ch p) (charCount p) (argPtr p) (arrayWidth p) (number64 p) (number p) (numberWidth p) (numberArgType p) (negative p) (beyondMax p) (numberState p) (width p) x (convChr p) (oriConvChr p) (isWCharOrLong p) (suppress p).
Definition with_convChr x p := ScanSpec (ch p) (charCount p) (argPtr p) (arrayWidth p) (number64 p) (number p) (numberWidth p) (numberArgType p) (negative p) (beyondMax p) (numberState p) (width p) (widthSet p) x (oriConvChr p) (isWCharOrLong p) (suppress p).
Definition with_oriConvChr x p := ScanSpec (ch p) (charCount p) (argPtr p) (arrayWidth p) (number64 p) (number p) (numberWidth p) (numberArgType p) (negative p) (beyondMax p) (numberState p) (width p) (widthSet p) (convChr p) x (isWCharOrLong p) (suppress p).
Definition with_isWCharOrLong x p := ScanSpec (ch p) (charCount p) (argPtr p) (arrayWidth p) (number64 p) (number p) (numberWidth p) (numberArgType p) (negative p) (beyondMax p) (numberState p) (width p) (widthSet p) (convChr p) (oriConvChr p) x (suppress p).
Definition with_suppress x p := ScanSpec (ch p) (charCount p) (argPtr p) (arrayWidth p) (number64 p) (number p) (numberWidth p) (numberArgType p) (negative p) (beyondMax p) (numberState p) (width p) (widthSet p) (convChr p) (oriConvChr p) (isWCharOrLong p) x.

(** All but the last character read and the number of characters. *)
Definition SecSetDefaultScanSpec (p : SecScanSpec) : SecScanSpec :=
  ScanSpec (ch p) (charCount p) NULL 0 0 0 SECUREC_NUM_WIDTH_INT 0 0 0 SECUREC_NUMBER_STATE_DEFAULT 0 0 0 0 0 0.

Definition SECUREC_FILED_WIDTH_ENOUGH (p : SecScanSpec) : bool := (widthSet p =? 0) || (0 <? width p).
Definition SECUREC_FILED_WIDTH_DEC (p : SecScanSpec) : SecScanSpec :=
  if negb (widthSet p =? 0) then with_fieldWidth (width p - 1) p else p.
Definition SECUREC_ARRAY_WIDTH_IS_WRONG (p : SecScanSpec) : bool :=
  (arrayWidth p =? 0) || ((isWCharOrLong p <=? 0) && (SECUREC_STRING_MAX_LEN <? arrayWidth p)) ||
  ((0 <? isWCharOrLong p) && (SECUREC_WCHAR_STRING_MAX_LEN <? arrayWidth p)).
Definition SECUREC_TO_LOWERCASE (chr' : Z) : Z := Z.lor chr' (chr "a" - chr "A").

(** *** Characters, of the C locale *)
Definition isdigit (c : Z) : bool := (chr "0" <=? c) && (c <=? chr "9").
Definition isxdigit (c : Z) : bool :=
  isdigit c || ((chr "A" <=? c) && (c <=? chr "F")) || ((chr "a" <=? c) && (c <=? chr "f")).
Definition isspace (c : Z) : bool := ((9 <=? c) && (c <=? 13)) || (c =? chr " ").
Definition SecIsDigit (ch : Z) : bool := isdigit (u8 ch).
Definition SecIsXdigit (ch : Z) : bool := isxdigit (u8 ch).
Definition SecIsSpace (ch : Z) : bool := isspace (u8 ch).
Definition SecIsLeadByte (ch : Z) : bool := negb (Z.land (u32 ch) 0x80 =? 0).

(** *** The set of a bracket *)
Record SecBracketTable := BracketTable { table : list Z; mask : Z }.
Definition SECUREC_BRACKET_INDEX (x : Z) : Z := Z.shiftr x 3.
Definition SECUREC_BRACKET_VALUE (x : Z) : Z := u8 (Z.shiftl 1 (Z.land x 7)).
Definition SecBracketSetBit (t : list Z) (ch : Z) : list Z :=
  let i := Z.to_nat (SECUREC_BRACKET_INDEX (Z.land ch 0xff)) in
  <[i := Z.lor (nth i t 0) (SECUREC_BRACKET_VALUE (Z.land ch 0xff))]> t.
(** [n] characters from [expCh] on, and [endCh]. *)
Fixpoint bracket_bits (n : nat) (t : list Z) (expCh endCh : Z) : list Z :=
  match n with
  | O => SecBracketSetBit t endCh
  | Datatypes.S n' => bracket_bits n' (SecBracketSetBit t expCh) (expCh + 1) endCh
  end.
Definition SecBracketSetBitRange (t : list Z) (startCh endCh : Z) : list Z :=
  bracket_bits (Z.to_nat (endCh - startCh)) t startCh endCh.
Definition SecCanInputForBracket (convChr ch : Z) (b : SecBracketTable) : bool :=
  (convChr =? SECUREC_BRACE) &&
  negb (Z.land (Z.lxor (nth (Z.to_nat (SECUREC_BRACKET_INDEX (Z.land (u32 ch) 0xff))) (table b) 0) (mask b))
          (SECUREC_BRACKET_VALUE (Z.land (u32 ch) 0xff)) =? 0).
Definition SecCanInputString (convChr ch : Z) : bool :=
  (convChr =? chr "s") && (negb ((9 <=? ch) && (ch <=? 13)) && negb (ch =? chr " ")).
Definition SecCanInputCharacter (convChr : Z) : bool := convChr =? chr "c".

(** ** Numbers *)
Definition SecHexValueOfChar (ch : Z) : Z :=
  if (chr "0" <=? ch) && (ch <=? chr "9") then u8 ch - chr "0"
  else Z.lor (u8 ch) (chr "a" - chr "A") - chr "a" + 10.

Definition SecDecodeNumberDecimal (p : SecScanSpec) : SecScanSpec :=
  let decimalEdge := SECUREC_MAX_64BITS_VALUE_DIV_TEN in
  let p := if decimalEdge <? number p then with_beyondMax 1 p else p in
  let p := with_number (SECUREC_MUL_TEN_64 (number p)) p in
  let p :=
    if number p =? SECUREC_MUL_TEN_64 decimalEdge then
      let number64As := u64 (SECUREC_MAX_64BITS_VALUE - number p) in
      if number64As <? u64 (u32 (ch p) - chr "0") then with_beyondMax 1 p else p
    else p in
  with_number (u64 (number p + u64 (u32 (ch p) - chr "0"))) p.
Definition SecDecodeNumberHex (p : SecScanSpec) : SecScanSpec :=
  let p := if SECUREC_LONG_HEX_BEYOND_MAX (number p) then with_beyondMax 1 p else p in
  let p := with_number (SECUREC_MUL_SIXTEEN (number p)) p in
  with_number (u64 (number p + u32 (SecHexValueOfChar (ch p)))) p.
Definition SecDecodeNumberOctal (p : SecScanSpec) : SecScanSpec :=
  let p := if SECUREC_LONG_OCTAL_BEYOND_MAX (number p) then with_beyondMax 1 p else p in
  let p := with_number (SECUREC_MUL_EIGHT (number p)) p in
  with_number (u64 (number p + u64 (u32 (ch p) - chr "0"))) p.

Definition SecDecodeNumber64Decimal (p : SecScanSpec) : SecScanSpec :=
  let p := if SECUREC_MAX_64BITS_VALUE_DIV_TEN <? number64 p then with_beyondMax 1 p else p in
  let p := with_number64 (SECUREC_MUL_TEN_64 (number64 p)) p in
  let p :=
    if number64 p =? SECUREC_MAX_64BITS_VALUE_CUT_LAST_DIGIT then
      let number64As := u64 (SECUREC_MAX_64BITS_VALUE - number64 p) in
      if number64As <? u64 (u32 (ch p) - chr "0") then with_beyondMax 1 p else p
    else p in
  with_number64 (u64 (number64 p + u64 (u32 (ch p) - chr "0"))) p.
Definition SecDecodeNumber64Hex (p : SecScanSpec) : SecScanSpec :=
  let p := if SECUREC_QWORD_HEX_BEYOND_MAX (number64 p) then with_beyondMax 1 p else p in
  let p := with_number64 (SECUREC_MUL_SIXTEEN (number64 p)) p in
  with_number64 (u64 (number64 p + u32 (SecHexValueOfChar (ch p)))) p.
Definition SecDecodeNumber64Octal (p : SecScanSpec) : SecScanSpec :=
  let p := if SECUREC_QWORD_OCTAL_BEYOND_MAX (number64 p) then with_beyondMax 1 p else p in
  let p := with_number64 (SECUREC_MUL_EIGHT (number64 p)) p in
  with_number64 (u64 (number64 p + u64 (u32 (ch p) - chr "0"))) p.

(** [tbl[spec->numberArgType]]: the 64-bit function for 1, the other for 0. *)
Definition by_arg_type (f32 f64 : SecScanSpec -> SecScanSpec) (p : SecScanSpec) : SecScanSpec :=
  if numberArgType p =? 0 then f32 p else f64 p.

(** Nothing when the character is not of the number. *)
Definition SecDecodeNumber (p : SecScanSpec) : option SecScanSpec :=
  if (convChr p =? chr "x") || (convChr p =? chr "p") then
    if SecIsXdigit (ch p) then Some (by_arg_type SecDecodeNumberHex SecDecodeNumber64Hex p) else None
  else if negb (SecIsDigit (ch p)) then None
  else if convChr p =? chr "o" then
    if ch p <? chr "8" then Some (by_arg_type SecDecodeNumberOctal SecDecodeNumber64Octal p) else None
  else Some (by_arg_type SecDecodeNumberDecimal SecDecodeNumber64Decimal p).

Definition SecFinishNumberNegativeOther (p : SecScanSpec) : SecScanSpec :=
  if SECUREC_CONVERT_IS_SIGNED (oriConvChr p) then
    let p := if SECUREC_MIN_LONG_NEG_VALUE <? number p then with_number SECUREC_MIN_LONG_NEG_VALUE p
             else with_number (u64 (0 - number p)) p in
    if negb (beyondMax p =? 0) then
      let p := if numberWidth p <? SECUREC_NUM_WIDTH_INT then with_number 0 p else p in
      if numberWidth p =? SECUREC_NUM_WIDTH_LONG then with_number SECUREC_MIN_LONG_NEG_VALUE p else p
    else p
  else
    let p := with_number (u64 (0 - number p)) p in
    if negb (beyondMax p =? 0) then with_number SECUREC_MAX_64BITS_VALUE p else p.
Definition SecFinishNumberNegativeInt (p : SecScanSpec) : SecScanSpec :=
  if SECUREC_CONVERT_IS_SIGNED (oriConvChr p) then
    let p := if SECUREC_MIN_64BITS_NEG_VALUE <? number p then with_number 0 p
             else with_number (u32 (0 - u32 (number p))) p in
    if negb (beyondMax p =? 0) then with_number 0 p else p
  else
    let p := if SECUREC_MAX_32BITS_VALUE_INC <? number p then with_number SECUREC_MAX_32BITS_VALUE p
             else with_number (u32 (0 - u32 (number p))) p in
    if negb (beyondMax p =? 0) then with_number SECUREC_MAX_64BITS_VALUE p else p.
Definition SecFinishNumberPositiveOther (p : SecScanSpec) : SecScanSpec :=
  if SECUREC_CONVERT_IS_SIGNED (oriConvChr p) then
    let p := if SECUREC_MAX_LONG_POS_VALUE <? number p then with_number SECUREC_MAX_LONG_POS_VALUE p else p in
    let p := if negb (beyondMax p =? 0) && (numberWidth p <? SECUREC_NUM_WIDTH_INT)
             then with_number SECUREC_MAX_64BITS_VALUE p else p in
    if negb (beyondMax p =? 0) && (numberWidth p =? SECUREC_NUM_WIDTH_LONG)
    then with_number SECUREC_MAX_LONG_POS_VALUE p else p
  else if negb (beyondMax p =? 0) then with_number SECUREC_MAX_64BITS_VALUE p else p.
Definition SecFinishNumberPositiveInt (p : SecScanSpec) : SecScanSpec :=
  if SECUREC_CONVERT_IS_SIGNED (oriConvChr p) then
    let p := if SECUREC_MAX_64BITS_POS_VALUE <? number p then with_number SECUREC_MAX_64BITS_VALUE p else p in
    if negb (beyondMax p =? 0) then with_number SECUREC_MAX_64BITS_VALUE p else p
  else if negb (beyondMax p =? 0) then with_number SECUREC_MAX_32BITS_VALUE p else p.
Definition SecFinishNumber (p : SecScanSpec) : SecScanSpec :=
  if negb (negative p =? 0) then
    if numberWidth p =? SECUREC_NUM_WIDTH_INT then SecFinishNumberNegativeInt p else SecFinishNumberNegativeOther p
  else
    if numberWidth p =? SECUREC_NUM_WIDTH_INT then SecFinishNumberPositiveInt p else SecFinishNumberPositiveOther p.
Definition SecFinishNumber64 (p : SecScanSpec) : SecScanSpec :=
  if negb (negative p =? 0) then
    if SECUREC_CONVERT_IS_SIGNED (oriConvChr p) then
      let p := if SECUREC_MIN_64BITS_NEG_VALUE <? number64 p then with_number64 SECUREC_MIN_64BITS_NEG_VALUE p
               else with_number64 (u64 (0 - number64 p)) p in
      if negb (beyondMax p =? 0) then with_number64 SECUREC_MIN_64BITS_NEG_VALUE p else p
    else
      let p := with_number64 (u64 (0 - number64 p)) p in
      if negb (beyondMax p =? 0) then with_number64 SECUREC_MAX_64BITS_VALUE p else p
  else
    if SECUREC_CONVERT_IS_SIGNED (oriConvChr p) then
      let p := if SECUREC_MAX_64BITS_POS_VALUE <? number64 p then with_number64 SECUREC_MAX_64BITS_POS_VALUE p else p in
      if negb (beyondMax p =? 0) then with_number64 SECUREC_MAX_64BITS_POS_VALUE p else p
    else if negb (beyondMax p =? 0) then with_number64 SECUREC_MAX_64BITS_VALUE p else p.

(** ** The C library's part *)
(** The number that a text starts with, or none, and how it is stored; the
    wide character of some bytes, or none. *)
Class LibcIn `{LC : Libc} := {
  SECUREC_SUPPORT_STRTOLD : bool;
  strtod : list Z -> option real;
  strtold : list Z -> option real;
  float_bits : real -> Z;
  double_bits : real -> Z;
  ldouble_bits : real -> Z;
  mbtowc : list Z -> option Z;
  MB_CUR_MAX : Z;
}.

(** [floatStr]: the characters used; the length of the buffer that they are
    in, and its address when it is an allocated one. *)
Record SecFloatSpec := FloatSpec { floatStr : list Z; floatStrTotalLen : Z; allocatedFloatStr : Z }.
Definition SecInitFloatSpec : SecFloatSpec := FloatSpec [] (SECUREC_FLOAT_BUFSIZE + 1) NULL.

Section FormattedInput.
Context {G D : Type} `{MD : Machine D} `{HM : !Has G mem} `{LC : Libc} `{LI : !LibcIn}.
Abbreviation M := (M G D).
Abbreviation va_list := (list (arg real)).
Abbreviation io := (SecFileStream * SecScanSpec)%type.
Context (fuel : nat).

(** ** Characters of the stream *)
Definition SECUREC_GET_CHAR (s : SecFileStream) : M (Z * SecFileStream) :=
  if 1 <=? s_count s then
    c ← ld8 (s_cur s); mret (u8 c, FileStream (s_flag s) (s_base s) (s_cur s + 1) (s_count s - 1))
  else mret (EOF, s).
Definition SecGetChar (s : SecFileStream) (counter : Z) : M (Z * SecFileStream * Z) :=
  let counter := counter + 1 in
  if negb (Z.land (s_flag s) SECUREC_MEM_STR_FLAG =? 0) then r ← SECUREC_GET_CHAR s; mret (r, counter)
  else mret (EOF, s, counter).
Definition SecUnGetCharImpl (s : SecFileStream) : SecFileStream :=
  if negb (Z.land (s_flag s) SECUREC_MEM_STR_FLAG =? 0) then SECUREC_UN_GET_CHAR s else s.
Definition SecUnGetChar (ch : Z) (s : SecFileStream) (counter : Z) : SecFileStream * Z :=
  (if negb (ch =? EOF) then SecUnGetCharImpl s else s, counter - 1).
Definition SecSkipSpaceChar (s : SecFileStream) (counter : Z) : M (Z * SecFileStream * Z) :=
  loop fuel (fun x : SecFileStream * Z =>
    r ← SecGetChar x.1 x.2;
    let '(ch, s, counter) := r in
    if ch =? EOF then mret (inr (ch, s, counter))
    else if SecIsSpace ch then mret (inl (s, counter)) else mret (inr (ch, s, counter))) (s, counter).

(** [spec->ch = SecGetChar(stream, &spec->charCount)]. *)
Definition get_ch (x : io) : M io :=
  r ← SecGetChar x.1 (charCount x.2);
  let '(c, s, n) := r in mret (s, with_ch c (with_charCount n x.2)).
Definition skip_ch (x : io) : M io :=
  r ← SecSkipSpaceChar x.1 (charCount x.2);
  let '(c, s, n) := r in mret (s, with_ch c (with_charCount n x.2)).
(** [SecUnGetChar(spec->ch, stream, &spec->charCount)]. *)
Definition unget_ch (x : io) : io :=
  let r := SecUnGetChar (ch x.2) x.1 (charCount x.2) in (r.1, with_charCount r.2 x.2).

(** ** Reading the format *)
Definition SecUpdateWcharFlagByType (ch : Z) (p : SecScanSpec) : SecScanSpec :=
  if negb (isWCharOrLong p =? 0) then p
  else
    let p := with_isWCharOrLong (-1) p in
    if (ch =? chr "C") || (ch =? chr "S") then with_isWCharOrLong 1 p else p.

Definition SecDecodeScanQualifierL (fmt : Z) (p : SecScanSpec) : M (Z * SecScanSpec) :=
  b ← at_char (fmt + 1) "l";
  if (b : bool) then mret (fmt + 1, with_numberWidth SECUREC_NUM_WIDTH_LONG_LONG (with_numberArgType 1 p))
  else mret (fmt, with_isWCharOrLong 1 (with_numberArgType 1 (with_numberWidth SECUREC_NUM_WIDTH_LONG p))).

(** A 64-bit pointer. *)
Definition SecNumberArgType (sizeOfVoidStar : Z) : Z := if negb (Z.land sizeOfVoidStar 8 =? 0) then 1 else 0.
(** The format, the conversion and whether it is the last one. *)
Definition SecDecodeScanQualifierI (fmt : Z) (p : SecScanSpec) : M (Z * SecScanSpec * bool) :=
  c1 ← ld8 (fmt + 1);
  c2 ← (if (c1 =? chr "6") || (c1 =? chr "3") then ld8 (fmt + 2) else mret 0);
  if (c1 =? chr "6") && (c2 =? chr "4") then mret (fmt + 2, with_numberArgType 1 p, false)
  else if (c1 =? chr "3") && (c2 =? chr "2") then mret (fmt + 2, p, false)
  else if existsb (Z.eqb c1) (chars "dioxX") then mret (fmt, with_numberArgType (SecNumberArgType 8) p, false)
  else mret (fmt, with_numberArgType (SecNumberArgType 8) p, true).

(** Nothing when the width is too large. *)
Definition SecDecodeScanWidth (fmt : Z) (p : SecScanSpec) : M (option (Z * SecScanSpec)) :=
  loop fuel (fun x : Z * SecScanSpec =>
    c ← ld8 x.1;
    if SecIsDigit c then
      let p := with_widthSet 1 x.2 in
      if SECUREC_MUL_TEN_ADD_BEYOND_MAX (width p) then mret (inr None)
      else mret (inl (x.1 + 1, with_fieldWidth (s32 (SECUREC_MUL_TEN (u32 (width p))) + u8 (c - chr "0")) p))
    else mret (inr (Some x))) (fmt, p).

Definition SecDecodeScanQualifier (fmt : Z) (p : SecScanSpec) : M (Z * SecScanSpec * bool) :=
  c ← ld8 fmt;
  if (c =? chr "F") || (c =? chr "N") then mret (fmt, p, false)
  else if c =? chr "h" then mret (fmt, with_isWCharOrLong (-1) (with_numberWidth (numberWidth p - 1) p), false)
  else if (c =? chr "j") || (c =? chr "t") || (c =? chr "z") || (c =? chr "L") || (c =? chr "q") then
    mret (fmt, with_numberArgType 1 (with_numberWidth SECUREC_NUM_WIDTH_LONG_LONG p), false)
  else if c =? chr "l" then r ← SecDecodeScanQualifierL fmt p; mret (r, false)
  else if c =? chr "w" then mret (fmt, with_isWCharOrLong 1 p, false)
  else if c =? chr "*" then mret (fmt, with_suppress 1 p, false)
  else if c =? chr "I" then SecDecodeScanQualifierI fmt p
  else mret (fmt, p, true).

Definition SecDecodeScanFlag (fmt : Z) (p : SecScanSpec) : M (option (Z * SecScanSpec)) :=
  loop fuel (fun x : Z * SecScanSpec =>
    r ← SecDecodeScanWidth (x.1 + 1) x.2;
    match r with
    | None => mret (inr None)
    | Some (fmt, p) =>
        q ← SecDecodeScanQualifier fmt p;
        let '(fmt, p, finishFlag) := q in
        mret (if (finishFlag : bool) then inr (Some (fmt, p)) else inl (fmt, p))
    end) (fmt, p).

(** [while ( *fmt != 0 && *fmt != c) ++fmt]. *)
Definition seek_char (c : Z) (fmt : Z) : M Z :=
  loop fuel (fun f => x ← ld8 f; mret (if negb (x =? 0) && negb (x =? c) then inl (f + 1) else inr f)) fmt.

Definition SecSkipSpaceFormat (fmt : Z) : M Z :=
  loop fuel (fun f => x ← ld8 f; mret (if SecIsSpace x then inl (f + 1) else inr f)) fmt.

(** The format at its bracket's end, and the set; nothing for a brace. *)
Definition SecSetupBracketTable (fmt : Z) (b : SecBracketTable) : M (option (Z * SecBracketTable)) :=
  c ← ld8 fmt;
  if c =? chr "{" then mret None
  else
    c ← ld8 (fmt + 1);
    let '(fmt, m) := if c =? chr "^" then (fmt + 2, 0xff) else (fmt + 1, 0) in
    c ← ld8 fmt;
    let '(fmt, prevChar, t) :=
      if c =? chr "]" then (fmt + 1, chr "]", SecBracketSetBit (table b) (chr "]")) else (fmt, 0, table b) in
    loop fuel (fun x : Z * Z * list Z =>
      let '(fmt, prevChar, t) := x in
      expCh ← ld8 fmt;
      if (expCh =? 0) || (expCh =? chr "]") then mret (inr (Some (fmt, BracketTable t m)))
      else
        c ← ld8 (fmt + 1);
        if negb (expCh =? chr "-") || (prevChar =? 0) || (c =? chr "]") then
          mret (inl (fmt + 1, expCh, SecBracketSetBit t expCh))
        else
          let t := if prevChar <=? c then SecBracketSetBitRange t prevChar c
                   else SecBracketSetBit (SecBracketSetBit t (chr "-")) c in
          mret (inl (fmt + 2, 0, t))) (fmt, prevChar, t).

(** ** Storing *)
Definition SecAddEndingZero (ptr : Z) (p : SecScanSpec) : M unit :=
  when (suppress p =? 0) (st8 ptr 0 ;; when (0 <? isWCharOrLong p) (st32 ptr 0)).

Definition SecAssignNumber (p : SecScanSpec) : M unit :=
  if negb (numberArgType p =? 0) then st64 (argPtr p) (number64 p)
  else if SECUREC_NUM_WIDTH_INT <? numberWidth p then st64 (argPtr p) (number p)
  else if numberWidth p =? SECUREC_NUM_WIDTH_INT then st32 (argPtr p) (number p)
  else if numberWidth p =? SECUREC_NUM_WIDTH_SHORT then st16 (argPtr p) (number p)
  else st8 (argPtr p) (number p).

(** ** Numbers *)
Definition SecInputNumberDigital (x : io) : M (bool * io) :=
  x ← loop fuel (fun x : io =>
    if SECUREC_FILED_WIDTH_ENOUGH x.2 then
      x ← get_ch x;
      match SecDecodeNumber x.2 with
      | None => mret (inr (unget_ch x))
      | Some p => mret (inl (x.1, with_numberState SECUREC_NUMBER_STATE_STARTED (SECUREC_FILED_WIDTH_DEC p)))
      end
    else mret (inr x)) x;
  let p := by_arg_type SecFinishNumber SecFinishNumber64 x.2 in
  mret (numberState p =? SECUREC_NUMBER_STATE_STARTED, (x.1, p)).

(** The sign, if there is one: it is eaten, and the character behind it looked at. *)
Definition input_sign (x : io) : M io :=
  if (ch x.2 =? chr "+") || (ch x.2 =? chr "-") then
    let p := if ch x.2 =? chr "-" then with_negative 1 x.2 else x.2 in
    x ← get_ch (x.1, SECUREC_FILED_WIDTH_DEC p);
    x ← get_ch x;
    mret (unget_ch x)
  else mret x.
(** The prefix that says the base, and the digits. *)
Definition input_unsigned (x : io) : M (bool * io) :=
  let x := if oriConvChr x.2 =? chr "i" then (x.1, with_convChr (chr "d") x.2) else x in
  if (ch x.2 =? chr "0") && ((oriConvChr x.2 =? chr "x") || (oriConvChr x.2 =? chr "i")) &&
     SECUREC_FILED_WIDTH_ENOUGH x.2 then
    x ← get_ch (x.1, SECUREC_FILED_WIDTH_DEC x.2);
    if negb (SECUREC_FILED_WIDTH_ENOUGH x.2) then mret (true, x)
    else
      x ← get_ch x;
      if (u8 (ch x.2) =? chr "x") || (u8 (ch x.2) =? chr "X") then
        SecInputNumberDigital (x.1, SECUREC_FILED_WIDTH_DEC (with_convChr (chr "x") x.2))
      else
        let x := if oriConvChr x.2 =? chr "i" then (x.1, with_convChr (chr "o") x.2) else x in
        let x := unget_ch x in
        SecInputNumberDigital (x.1, with_numberState SECUREC_NUMBER_STATE_STARTED x.2)
  else SecInputNumberDigital x.
Definition SecInputNumber (x : io) : M (bool * io) := x ← input_sign x; input_unsigned x.

(** ** Characters and strings *)
(** The bytes of [temp], the number of them, and what [mbtowc] last said. *)
Definition SecConvertInputCharToWchar (x : io) : M (Z * io) :=
  if SecIsLeadByte (ch x.2) then
    r ← loop fuel (fun y : io * list Z * option Z =>
      let '(x, temp, conv) := y in
      let di := Z.of_nat (length temp) in
      if bool_decide (conv = None) && (di <? MB_CUR_MAX) && (di <? SECUREC_MULTI_BYTE_MAX_LEN) then
        x ← get_ch x;
        let temp := temp ++ [u8 (ch x.2)] in
        mret (inl (x, temp, mbtowc temp))
      else mret (inr (x, conv))) (x, [u8 (ch x.2)], None);
    mret (default (chr "?") r.2, r.1)
  else mret (default (chr "?") (mbtowc [u8 (ch x.2)]), x).

Definition SecInputForChar (x : io) : M io :=
  let endPtr := argPtr x.2 in
  if 0 <? isWCharOrLong x.2 then
    r ← SecConvertInputCharToWchar x;
    st32 endPtr r.1 ;;
    let p := r.2.2 in
    mret (r.2.1, with_argPtr (endPtr + 4) (with_arrayWidth (arrayWidth p - 1) p))
  else
    let p := x.2 in
    st8 endPtr (ch p) ;;
    mret (x.1, with_argPtr (endPtr + 1) (with_arrayWidth (arrayWidth p - 1) p)).

Definition SecCanInput (p : SecScanSpec) (b : SecBracketTable) : bool :=
  negb (ch p =? EOF) &&
  (SecCanInputCharacter (convChr p) || SecCanInputString (convChr p) (ch p) || SecCanInputForBracket (convChr p) (ch p) b).

(** Whether it succeeded, and [doneCount]. *)
Definition SecInputString (x : io) (b : SecBracketTable) (doneCount : Z) : M (bool * io * Z) :=
  let startPtr := argPtr x.2 in
  r ← loop fuel (fun y : io * bool =>
    let '(x, suppressed) := y in
    if SECUREC_FILED_WIDTH_ENOUGH x.2 then
      x ← get_ch (x.1, SECUREC_FILED_WIDTH_DEC x.2);
      if SecCanInput x.2 b then
        if negb (suppress x.2 =? 0) then mret (inl (x, true))
        else if arrayWidth x.2 =? 0 then mret (inr (x, suppressed, true))
        else x ← SecInputForChar x; mret (inl (x, suppressed))
      else mret (inr (unget_ch x, suppressed, false))
    else mret (inr (x, suppressed, false))) (x, false);
  let '(x, suppressed, errNoMem) := r in
  let p := x.2 in
  if (errNoMem : bool) then SecAddEndingZero startPtr p ;; mret (false, x, doneCount)
  else if (negb (suppress p =? 0) && negb suppressed) || ((suppress p =? 0) && (startPtr =? argPtr p)) then
    mret (false, x, doneCount)
  else
    when (negb (convChr p =? chr "c")) (SecAddEndingZero (argPtr p) p) ;;
    mret (true, x, if suppress p =? 0 then doneCount + 1 else doneCount).

(** ** Floating point numbers *)
(** Twice the length, and a character more; whether it worked. *)
Definition SecExtendFloatLen (f : SecFloatSpec) : M (bool * SecFloatSpec) :=
  if floatStrTotalLen f <=? Z.of_nat (length (floatStr f)) then
    let nextSize := floatStrTotalLen f * 2 + 1 in
    if nextSize <=? SECUREC_MAX_WIDTH_LEN then
      nextBuffer ← malloc nextSize;
      if nextBuffer =? NULL then mret (false, f)
      else
        when (negb (allocatedFloatStr f =? NULL)) (free (allocatedFloatStr f)) ;;
        mret (true, FloatSpec (floatStr f) nextSize nextBuffer)
    else mret (false, f)
  else mret (true, f).
(** [floatStr[floatStrUsedLen] = c; ++floatStrUsedLen], then [SecExtendFloatLen]. *)
Definition put_float (c : Z) (f : SecFloatSpec) : M (bool * SecFloatSpec) :=
  if Z.of_nat (length (floatStr f)) <? floatStrTotalLen f then
    SecExtendFloatLen (FloatSpec (floatStr f ++ [c]) (floatStrTotalLen f) (allocatedFloatStr f))
  else fail OutOfBounds.
Definition SecIsFloatDecimal (ch : Z) : bool := ch =? chr ".".

Abbreviation fio := (bool * io * SecFloatSpec)%type.
Definition SecInputFloatSign (x : io) (f : SecFloatSpec) : M fio :=
  if negb (SECUREC_FILED_WIDTH_ENOUGH x.2) then mret (true, x, f)
  else
    x ← get_ch x;
    if (ch x.2 =? chr "+") || (ch x.2 =? chr "-") then
      let x := (x.1, SECUREC_FILED_WIDTH_DEC x.2) in
      if ch x.2 =? chr "-" then r ← put_float (chr "-") f; mret (r.1, x, r.2) else mret (true, x, f)
    else mret (true, unget_ch x, f).
Definition SecInputFloatDigit (x : io) (f : SecFloatSpec) : M fio :=
  loop fuel (fun y : io * SecFloatSpec =>
    let '(x, f) := y in
    if SECUREC_FILED_WIDTH_ENOUGH x.2 then
      x ← get_ch x;
      if negb (SecIsDigit (ch x.2)) then mret (inr (true, unget_ch x, f))
      else
        let x := (x.1, with_numberState SECUREC_NUMBER_STATE_STARTED (SECUREC_FILED_WIDTH_DEC x.2)) in
        r ← put_float (u8 (ch x.2)) f;
        mret (if (r.1 : bool) then inl (x, r.2) else inr (false, x, r.2))
    else mret (inr (true, x, f))) (x, f).
Definition SecInputFloatE (x : io) (f : SecFloatSpec) : M fio :=
  r ← SecInputFloatSign x f;
  let '(ok, x, f) := r in
  if (ok : bool) then SecInputFloatDigit x f else mret r.
(** A character that [ok] accepts, to be stored as [c], and what follows it. *)
Definition float_part (ok : Z -> bool) (c : Z -> Z) (rest : io -> SecFloatSpec -> M fio) (x : io) (f : SecFloatSpec) : M fio :=
  if SECUREC_FILED_WIDTH_ENOUGH x.2 then
    x ← get_ch x;
    if negb (ok (ch x.2)) then mret (true, unget_ch x, f)
    else
      let x := (x.1, SECUREC_FILED_WIDTH_DEC x.2) in
      r ← put_float (c (ch x.2)) f;
      if (r.1 : bool) then rest x r.2 else mret (false, x, r.2)
  else mret (true, x, f).
Definition SecInputFloatFractional := float_part (fun ch => SecIsFloatDecimal (u8 ch)) u8 SecInputFloatDigit.
Definition SecInputFloatExponent (x : io) (f : SecFloatSpec) : M fio :=
  if numberState x.2 =? SECUREC_NUMBER_STATE_STARTED then
    float_part (fun ch => (ch =? chr "e") || (ch =? chr "E")) (fun _ => chr "e") SecInputFloatE x f
  else mret (true, x, f).
Definition SecInputFloat (x : io) (f : SecFloatSpec) : M fio :=
  let f := FloatSpec [] (floatStrTotalLen f) (allocatedFloatStr f) in
  r ← SecInputFloatSign x f;
  let '(ok, x, f) := r in
  if negb ok then mret r else
  r ← SecInputFloatDigit x f;
  let '(ok, x, f) := r in
  if negb ok then mret r else
  r ← SecInputFloatFractional x f;
  let '(ok, x, f) := r in
  if negb ok then mret r else
  r ← SecInputFloatExponent x f;
  let '(ok, x, f) := r in
  if negb ok then mret r else
  if Z.of_nat (length (floatStr f)) <? floatStrTotalLen f then
    mret (numberState x.2 =? SECUREC_NUMBER_STATE_STARTED, x, f)
  else fail OutOfBounds.

(** Whether there was a number. *)
Definition SecAssignNarrowFloat (str : list Z) (p : SecScanSpec) : M bool :=
  if SECUREC_SUPPORT_STRTOLD && (numberWidth p =? SECUREC_NUM_WIDTH_LONG_LONG) then
    match strtold str with
    | None => mret false
    | Some d2 => stn 16 (argPtr p) (ldouble_bits d2) ;; mret true
    end
  else
    match strtod str with
    | None => mret false
    | Some d =>
        (if SECUREC_NUM_WIDTH_INT <? numberWidth p then st64 (argPtr p) (double_bits d)
         else st32 (argPtr p) (float_bits d)) ;;
        mret true
    end.
Definition SecAssignFloat (f : SecFloatSpec) (p : SecScanSpec) : M bool := SecAssignNarrowFloat (floatStr f) p.
Definition SecFreeFloatSpec (f : SecFloatSpec) : M unit :=
  when (negb (allocatedFloatStr f =? NULL)) (free (allocatedFloatStr f)).

(** ** The core *)
Record input := Input {
  in_format : Z; in_io : io; in_args : va_list; in_table : SecBracketTable; in_float : SecFloatSpec;
  doneCount : Z; formatError : Z; paraIsNull : Z; match_ : Z; errRet : Z;
}.
Definition at_io (x : io) (i : input) : input :=
  Input (in_format i) x (in_args i) (in_table i) (in_float i) (doneCount i) (formatError i) (paraIsNull i) (match_ i) (errRet i).
Definition at_format (f : Z) (i : input) : input :=
  Input f (in_io i) (in_args i) (in_table i) (in_float i) (doneCount i) (formatError i) (paraIsNull i) (match_ i) (errRet i).
Definition at_args (a : va_list) (i : input) : input :=
  Input (in_format i) (in_io i) a (in_table i) (in_float i) (doneCount i) (formatError i) (paraIsNull i) (match_ i) (errRet i).
Definition at_table (b : SecBracketTable) (i : input) : input :=
  Input (in_format i) (in_io i) (in_args i) b (in_float i) (doneCount i) (formatError i) (paraIsNull i) (match_ i) (errRet i).
Definition at_float (f : SecFloatSpec) (i : input) : input :=
  Input (in_format i) (in_io i) (in_args i) (in_table i) f (doneCount i) (formatError i) (paraIsNull i) (match_ i) (errRet i).
Definition at_done (n : Z) (i : input) : input :=
  Input (in_format i) (in_io i) (in_args i) (in_table i) (in_float i) n (formatError i) (paraIsNull i) (match_ i) (errRet i).
Definition at_match (n : Z) (i : input) : input :=
  Input (in_format i) (in_io i) (in_args i) (in_table i) (in_float i) (doneCount i) (formatError i) (paraIsNull i) n (errRet i).
(** [++errRet; continue], alone and with [formatError] or [paraIsNull]. *)
Definition err (i : input) : input :=
  Input (in_format i) (in_io i) (in_args i) (in_table i) (in_float i) (doneCount i) (formatError i) (paraIsNull i) (match_ i) (errRet i + 1).
Definition format_err (i : input) : input :=
  Input (in_format i) (in_io i) (in_args i) (in_table i) (in_float i) (doneCount i) 1 (paraIsNull i) (match_ i) (errRet i + 1).
Definition null_err (i : input) : input :=
  Input (in_format i) (in_io i) (in_args i) (in_table i) (in_float i) (doneCount i) (formatError i) 1 (match_ i) (errRet i + 1).
(** The end of the switch: [++match; ++format]. *)
Definition matched (i : input) : input := at_format (in_format i + 1) (at_match (match_ i + 1) i).

(** [case 'c'], [case 's'] and [case SECUREC_BRACE]. *)
Definition text_arg (i : input) : M (input + input) :=
  let x := in_io i in
  let p := x.2 in
  if suppress p =? 0 then
    v ← va_word (in_args i);
    let i := at_args v.2 i in
    let p := with_argPtr v.1 p in
    if v.1 =? NULL then mret (inr (null_err (at_io (x.1, p) i)))
    else
      n ← va_word (in_args i);
      let i := at_args n.2 i in
      let p := with_arrayWidth (Z.land n.1 0xffffffff) p in
      if SECUREC_ARRAY_WIDTH_IS_WRONG p then mret (inr (err (at_io (x.1, p) i)))
      else
        let p := if negb (convChr p =? chr "c") then with_arrayWidth (arrayWidth p - 1) p else p in
        mret (inl (at_io (x.1, p) i))
  else mret (inl (at_io (x.1, with_argPtr NULL p) i)).
Definition text_set (i : input) : M (input + input) :=
  if convChr (in_io i).2 =? SECUREC_BRACE then
    let b := BracketTable (replicate SECUREC_BRACKET_TABLE_SIZE 0) (mask (in_table i)) in
    r ← SecSetupBracketTable (in_format i) b;
    match r with
    | None => mret (inr (err (at_table b i)))
    | Some (fmt, b) =>
        let i := at_table b (at_format fmt i) in
        c ← ld8 fmt;
        if c =? 0 then SecAddEndingZero (argPtr (in_io i).2) (in_io i).2 ;; mret (inr (err i))
        else mret (inl i)
    end
  else mret (inl i).
Definition input_text (i : input) : M input :=
  let p := (in_io i).2 in
  let p := if (oriConvChr p =? chr "c") && (widthSet p =? 0) then with_fieldWidth 1 (with_widthSet 1 p) else p in
  r ← text_arg (at_io (unget_ch ((in_io i).1, p)) i);
  match r with
  | inr i => mret i
  | inl i =>
      r ← text_set i;
      match r with
      | inr i => mret i
      | inl i =>
          r ← SecInputString (in_io i) (in_table i) (doneCount i);
          let '(ok, x, n) := r in
          let i := at_done n (at_io x i) in
          mret (if (ok : bool) then matched i else err i)
      end
  end.

(** [case 'p'] and the integers. *)
Definition input_number (i : input) : M input :=
  let p := (in_io i).2 in
  let p := if oriConvChr p =? chr "p" then with_numberArgType 1 (with_numberWidth SECUREC_NUM_WIDTH_INT p) else p in
  r ← SecInputNumber (unget_ch ((in_io i).1, p));
  let i := at_io r.2 i in
  if negb r.1 then mret (err i)
  else if suppress r.2.2 =? 0 then
    v ← va_word (in_args i);
    let p := with_argPtr v.1 r.2.2 in
    let i := at_args v.2 (at_io (r.2.1, p) i) in
    if v.1 =? NULL then mret (null_err i)
    else SecAssignNumber p ;; mret (matched (at_done (doneCount i + 1) i))
  else mret (matched i).

(** [case 'n']. *)
Definition input_count (i : input) : M input :=
  let p := (in_io i).2 in
  if suppress p =? 0 then
    v ← va_word (in_args i);
    let p := with_argPtr v.1 p in
    let i := at_args v.2 (at_io ((in_io i).1, p) i) in
    if v.1 =? NULL then mret (null_err i)
    else
      let p := with_numberArgType 0 (with_number (u32 (charCount p)) p) in
      SecAssignNumber p ;; mret (matched (at_io ((in_io i).1, p) i))
  else mret (matched i).

(** [case 'e'], [case 'f'] and [case 'g']. *)
Definition input_float (i : input) : M input :=
  r ← SecInputFloat (unget_ch (in_io i)) (in_float i);
  let '(ok, x, f) := r in
  let i := at_float f (at_io x i) in
  if negb ok then mret (err i)
  else if suppress x.2 =? 0 then
    v ← va_word (in_args i);
    let p := with_argPtr v.1 x.2 in
    let i := at_args v.2 (at_io (x.1, p) i) in
    if v.1 =? NULL then mret (null_err i)
    else
      b ← SecAssignFloat f p;
      mret (if (b : bool) then matched (at_done (doneCount i + 1) i) else err i)
  else mret (matched i).

(** [default]. *)
Definition input_other (c : Z) (i : input) : M input :=
  if negb (c =? ch (in_io i).2) then mret (format_err (at_io (unget_ch (in_io i)) i))
  else mret (at_format (in_format i + 1) i).

(** A directive, the format at its percent sign. *)
Definition input_directive (i : input) : M input :=
  let p := SecSetDefaultScanSpec (in_io i).2 in
  r ← SecDecodeScanFlag (in_format i) p;
  match r with
  | None => mret (format_err (at_io ((in_io i).1, p) i))
  | Some (fmt, p) =>
      let i := at_format fmt i in
      if negb (SECUREC_FILED_WIDTH_ENOUGH p) then mret (err (at_io ((in_io i).1, p) i))
      else
        c ← ld8 fmt;
        let p := SecUpdateWcharFlagByType c p in
        let p := with_convChr (SECUREC_TO_LOWERCASE c) p in
        let p := with_oriConvChr (convChr p) p in
        let x := ((in_io i).1, p) in
        x ← (if negb (convChr p =? chr "n") then
               if negb (convChr p =? chr "c") && negb (convChr p =? SECUREC_BRACE) then skip_ch x else get_ch x
             else mret x);
        let i := at_io x i in
        if negb (convChr p =? chr "n") && (ch x.2 =? EOF) then mret (err i)
        else
          let o := oriConvChr p in
          if (o =? chr "c") || (o =? chr "s") || (o =? SECUREC_BRACE) then input_text i
          else if existsb (Z.eqb o) (chars "poudix") then input_number i
          else if o =? chr "n" then input_count i
          else if existsb (Z.eqb o) (chars "efg") then input_float i
          else input_other c i
  end.

(** One round of the loop: it goes on, or it is left. *)
Definition input_round (i : input) : M (input + input) :=
  if errRet i <? 1 then
    c ← ld8 (in_format i);
    if c =? 0 then mret (inr i)
    else if SecIsSpace c then
      x ← skip_ch (in_io i);
      fmt ← SecSkipSpaceFormat (in_format i);
      mret (inl (at_format fmt (at_io (unget_ch x) i)))
    else if negb (c =? chr "%") then
      x ← get_ch (in_io i);
      if negb (c =? ch x.2) then mret (inr (at_io (unget_ch x) i))
      else mret (inl (at_format (in_format i + 1) (at_io x i)))
    else i ← input_directive i; mret (inl i)
  else mret (inr i).

(** [spec.ch = 0; spec.charCount = 0]; the rest is set before it is read. *)
Definition initial_spec : SecScanSpec := SecSetDefaultScanSpec (ScanSpec 0 0 0 0 0 0 0 0 0 0 0 0 0 0 0 0 0).
Definition SecInputS (s : SecFileStream) (cFormat : Z) (args : va_list) : M Z :=
  i ← loop fuel input_round
        (Input cFormat (s, initial_spec) args (BracketTable (replicate SECUREC_BRACKET_TABLE_SIZE 0) 0) SecInitFloatSpec 0 0 0 0 0);
  SecFreeFloatSpec (in_float i) ;;
  mret (if ch (in_io i).2 =? EOF then
          if negb (doneCount i =? 0) || negb (match_ i =? 0) then doneCount i else SECUREC_SCANF_EINVAL
        else if negb (formatError i =? 0) || negb (paraIsNull i =? 0) then SECUREC_SCANF_ERROR_PARA
        else doneCount i).

(** ** Clearing the first string when there is no input *)
Definition SecDecodeClearFormat (fmt : Z) : M (option Z) :=
  c ← ld8 fmt;
  let ch := SECUREC_TO_LOWERCASE c in
  if negb ((ch =? chr "c") || (ch =? chr "s") || (ch =? SECUREC_BRACE)) then mret None
  else if ch =? SECUREC_BRACE then
    if c =? chr "{" then mret None
    else
      c ← ld8 (fmt + 1);
      let fmt := if c =? chr "^" then fmt + 2 else fmt + 1 in
      c ← ld8 fmt;
      fmt ← seek_char (chr "]") (if c =? chr "]" then fmt + 1 else fmt);
      c ← ld8 fmt;
      mret (if c =? 0 then None else Some ch)
  else mret (Some ch).

(** The arguments are a copy. *)
Definition SecDecodeClearArg (p : SecScanSpec) (args : va_list) : M SecScanSpec :=
  v ← va_word args;
  n ← va_word v.2;
  mret (with_arrayWidth (Z.land n.1 0xffffffff) (with_argPtr v.1 p)).

Definition SecClearDestBuf (buffer format : Z) (args : va_list) : M unit :=
  fmt ← seek_char (chr "%") format;
  c ← ld8 fmt;
  if c =? 0 then mret tt
  else
    r ← SecDecodeScanFlag fmt initial_spec;
    match r with
    | None => mret tt
    | Some (fmt, p) =>
        c ← ld8 fmt;
        let p := SecUpdateWcharFlagByType c p in
        if negb (suppress p =? 0) then mret tt
        else
          r ← SecDecodeClearFormat fmt;
          match r with
          | None => mret tt
          | Some convChr =>
              b ← ld8 buffer;
              if negb (b =? 0) && negb (convChr =? chr "s") then mret tt
              else
                p ← SecDecodeClearArg p args;
                if (arrayWidth p =? 0) || (argPtr p =? NULL) then mret tt
                else SecAddEndingZero (argPtr p) p
          end
    end.

(** ** The functions of the library *)
Definition vsscanf_s (buffer format : Z) (args : va_list) : M Z :=
  if (buffer =? NULL) || (format =? NULL) then mret SECUREC_SCANF_EINVAL
  else
    count ← strlen fuel buffer;
    if (count =? 0) || (SECUREC_STRING_MAX_LEN <? count) then
      SecClearDestBuf buffer format args ;; mret SECUREC_SCANF_EINVAL
    else
      retVal ← SecInputS (SECUREC_FILE_STREAM_FROM_STRING buffer count) format args;
      mret (if retVal <? 0 then SECUREC_SCANF_EINVAL else retVal).
Definition sscanf_s := vsscanf_s.

(** [while (len < size && (buffer[len] == '\r' || buffer[len] == '\n')) ...] *)
Definition SecTrimCRLF (buffer size : Z) : M unit :=
  n ← strlen fuel buffer;
  loop fuel (fun len =>
    if len <? size then
      c ← ld8 (buffer + len);
      if (c =? 13) || (c =? 10) then st8 (buffer + len) 0 ;; mret (inl (u64 (len - 1)))
      else mret (inr tt)
    else mret (inr tt)) (u64 (n - 1)).
(** [fgets] of the standard input: the buffer, or [NULL]. *)
Definition gets_s (fgets : Z -> Z -> M Z) (buffer destMax : Z) : M Z :=
  if (buffer =? NULL) || (destMax =? 0) || (SECUREC_STRING_MAX_LEN <? destMax) then mret NULL
  else
    r ← fgets buffer (s32 destMax);
    if negb (r =? NULL) then SecTrimCRLF buffer destMax ;; mret buffer else mret NULL.
End FormattedInput.
