(* ===== verification/ScanfSpec.v ===== *)
(** * ScanfSpec: what formatted input means

    A well-formed format is a list of [scan_item]s; [scan_print] is its text.
    [scan] gives what becomes of a text that is read with it: the bytes stored
    and where, how many conversions were stored or matched, and whether the
    reading ran into the end of the text. *)
From stdpp Require Import prelude gmap list strings.
From Stdlib Require Import ZArith Lia.
From S2P Require Import Prelude Hw Mem Securec Printf PrintfSpec Scanf.
Local Open Scope Z_scope.

(** ** Formats *)
(** The set of a bracket: characters, alone or from the first to the second. *)
Inductive set_item := Only (c : Z) | Range (a b : Z).
Inductive scan_conv := Int (c : conv) | Chars | Str | Bracket (neg : bool) (set : list set_item) | Count.
Record scan_directive := ScanDirective { sd_suppress : bool; sd_width : option (list Z); sd_size : int_size; sd_conv : scan_conv }.
Inductive scan_item := Blank (cs : list Z) | Exactly (c : Z) | PercentSign | Scan (d : scan_directive).

Definition print_set_item (i : set_item) : list Z := match i with Only c => [c] | Range a b => [a; chr "-"; b] end.
Definition scan_conv_print (c : scan_conv) : list Z :=
  match c with
  | Int c => [conv_char c] | Chars => [chr "c"] | Str => [chr "s"] | Count => [chr "n"]
  | Bracket neg set => [chr "["] ++ (if neg then [chr "^"] else []) ++ (set ≫= print_set_item) ++ [chr "]"]
  end.
Definition scan_directive_print (d : scan_directive) : list Z :=
  [chr "%"] ++ (if sd_suppress d then [chr "*"] else []) ++ default [] (sd_width d) ++ print_size (sd_size d) ++
  scan_conv_print (sd_conv d).
Definition scan_item_print (i : scan_item) : list Z :=
  match i with Blank cs => cs | Exactly c => [c] | PercentSign => chars "%%" | Scan d => scan_directive_print d end.
Definition scan_print (its : list scan_item) : list Z := its ≫= scan_item_print.

Definition set_char (c : Z) : Prop := fits 8 c /\ c <> 0 /\ c <> chr "]".
Definition set_item_ok (i : set_item) : Prop :=
  match i with
  | Only c => set_char c /\ c <> chr "-"
  | Range a b => set_char a /\ set_char b /\ a <> chr "-" /\ a <= b
  end.
Definition item_start (i : set_item) : Z := match i with Only c => c | Range a _ => a end.
Definition scan_conv_ok (c : scan_conv) (s : int_size) : Prop :=
  match c with
  | Int c => c <> Cc /\ c <> Cs
  | Chars | Str => s = Plain
  | Bracket neg set => s = Plain /\ set <> [] /\ Forall set_item_ok set /\
      (neg = false -> option_map item_start (head set) <> Some (chr "^"))
  | Count => True
  end.
Definition scan_directive_ok (d : scan_directive) : Prop :=
  scan_conv_ok (sd_conv d) (sd_size d) /\
  match sd_width d with
  | None => True
  | Some ds => Forall is_digit ds /\ 0 < number_of ds <= SECUREC_MAX_WIDTH_LEN
  end.
Definition scan_item_ok (i : scan_item) : Prop :=
  match i with
  | Blank cs => cs <> [] /\ Forall (fun c => isspace c = true) cs
  | Exactly c => fits 8 c /\ c <> 0 /\ isspace c = false /\ c <> chr "%"
  | PercentSign => True
  | Scan d => scan_directive_ok d
  end.
(** Blanks are not next to each other. *)
Fixpoint scan_items_ok (its : list scan_item) : Prop :=
  match its with
  | [] => True
  | i :: its' => scan_item_ok i /\ match i, its' with Blank _, Blank _ :: _ => False | _, _ => True end /\ scan_items_ok its'
  end.

(** ** Integers *)
Definition value_of_digit (base c : Z) : option Z :=
  let v := if isdigit c then Some (c - chr "0")
           else if (chr "a" <=? c) && (c <=? chr "f") then Some (c - chr "a" + 10)
           else if (chr "A" <=? c) && (c <=? chr "F") then Some (c - chr "A" + 10) else None in
  v ← v; guard (v < base);; Some v.
(** The value of the digits in front, and how many there are. *)
Fixpoint digits_in_front (base v : Z) (l : list Z) : Z * nat :=
  match l with
  | [] => (v, O)
  | c :: l' =>
      match value_of_digit base c with
      | Some d => let r := digits_in_front base (base * v + d) l' in (r.1, Datatypes.S r.2)
      | None => (v, O)
      end
  end.
(** The prefix of a hexadecimal number. *)
Definition hex_prefix (l : list Z) : bool :=
  match l with z :: x :: _ => (z =? chr "0") && ((x =? chr "x") || (x =? chr "X")) | _ => false end.
(** The number behind the sign, if there are digits, and the length of it. *)
Definition read_unsigned (c : conv) (l : list Z) : option Z * nat :=
  let prefixed := (bool_decide (c = Ci) || bool_decide (c = Cx) || bool_decide (c = CX)) && hex_prefix l in
  let base :=
    match c with
    | Co => 8 | Cx | CX | Cp => 16
    | Ci => if prefixed then 16 else if bool_decide (head l = Some (chr "0")) then 8 else 10
    | _ => 10
    end in
  let r := digits_in_front base 0 (if prefixed then drop 2 l else l) in
  (if bool_decide (r.2 = O) then None else Some r.1, ((if prefixed then 2 else 0) + r.2)%nat).
Definition is_sign (x : Z) : bool := (x =? chr "+") || (x =? chr "-").
Record int_text := IntText { it_neg : bool; it_mag : option Z; it_len : nat }.
Definition read_int (c : conv) (l : list Z) : int_text :=
  match l with
  | x :: l' =>
      let r := read_unsigned c (if is_sign x then l' else l) in
      IntText (x =? chr "-") r.1 ((if is_sign x then 1 else 0) + r.2)
  | [] => IntText false None 0
  end.

Definition conv_bits (c : conv) (s : int_size) : Z := match c with Cp => 64 | _ => bits s end.
(** The number that is stored: of 64 bits, the nearest there is; a smaller
    one is the lower bits of that.  But an [unsigned int] takes all numbers
    below -2^32 for the largest. *)
Definition stored_number (c : conv) (s : int_size) (neg : bool) (mag : Z) : Z :=
  let w := conv_bits c s in
  let v := if neg then - mag else mag in
  match c with
  | Cd | Ci => wrap w (Z.max (- 2 ^ 63) (Z.min (2 ^ 63 - 1) v))
  | _ =>
      if 2 ^ 64 <=? mag then 2 ^ w - 1
      else if neg && (w =? 32) && (2 ^ 32 <? mag) then 2 ^ w - 1
      else wrap w v
  end.

(** ** Texts *)
Definition in_set_item (c : Z) (i : set_item) : bool := match i with Only d => c =? d | Range a b => (a <=? c) && (c <=? b) end.
Definition accepts (c : scan_conv) (x : Z) : bool :=
  match c with
  | Chars => true
  | Str => negb (isspace x)
  | Bracket neg set => negb (Bool.eqb (existsb (in_set_item x) set) neg)
  | _ => false
  end.
Fixpoint run_of (f : Z -> bool) (l : list Z) : list Z :=
  match l with x :: l' => if f x then x :: run_of f l' else [] | [] => [] end.

(** ** Reading *)
Record scan_verdict := Verdict {
  v_writes : list (Z * list Z);   (* what is stored, and where *)
  v_done : Z;                     (* conversions stored *)
  v_match : Z;                    (* conversions matched *)
  v_end : bool;                   (* the last read was at the end *)
  v_refused : bool;               (* a null pointer, a missing percent sign *)
}.
Definition stop (at_end refused : bool) : scan_verdict := Verdict [] 0 0 at_end refused.
Definition and_write (a : Z) (bs : list Z) (v : scan_verdict) : scan_verdict :=
  Verdict ((a, bs) :: v_writes v) (v_done v) (v_match v) (v_end v) (v_refused v).
Definition and_done (n : Z) (v : scan_verdict) : scan_verdict :=
  Verdict (v_writes v) (v_done v + n) (v_match v) (v_end v) (v_refused v).
Definition and_match (v : scan_verdict) : scan_verdict :=
  Verdict (v_writes v) (v_done v) (v_match v + 1) (v_end v) (v_refused v).

Definition at_most (w : option (list Z)) (l : list Z) : list Z :=
  match w with Some ds => take (Z.to_nat (number_of ds)) l | None => l end.
(** Whether a reading of [n] characters, at most so many, saw the end. *)
Definition saw_end (w : option (list Z)) (l : list Z) (n : nat) : bool :=
  bool_decide (n = length l) && match w with Some ds => Z.of_nat n <? number_of ds | None => true end.
(** A sign is looked behind, also when there may be no more. *)
Definition int_saw_end (w : option (list Z)) (l : list Z) (n : nat) : bool :=
  match w, l with
  | Some ds, s :: _ =>
      if is_sign s && (number_of ds =? 1) then bool_decide (length l = 1%nat) else saw_end w l n
  | _, _ => saw_end w l n
  end.

Section Scan.
Context {F : Type}.

(** [rest n e args]: what follows, [n] characters on, [e] when the end was seen. *)
Definition scan_number (d : scan_directive) (c : conv) (l : list Z) (args : list (arg F))
    (rest : nat -> bool -> list (arg F) -> option scan_verdict) : option scan_verdict :=
  let t := read_int c (at_most (sd_width d) l) in
  let e := int_saw_end (sd_width d) l (it_len t) in
  match it_mag t with
  | None => Some (stop e false)
  | Some mag =>
      if sd_suppress d then and_match <$> rest (it_len t) e args
      else
        match args with
        | Word p :: args' =>
            if p =? NULL then Some (stop e true)
            else
              let bs := le_bytes (Z.to_nat (conv_bits c (sd_size d) / 8)) (stored_number c (sd_size d) (it_neg t) mag) in
              (fun v => and_write p bs (and_done 1 (and_match v))) <$> rest (it_len t) e args'
        | _ => None
        end
  end.

(** A string ends with a zero, which it needs room for; without enough room
    its beginning is overwritten with one. *)
Definition scan_text (d : scan_directive) (l : list Z) (args : list (arg F))
    (rest : nat -> bool -> list (arg F) -> option scan_verdict) : option scan_verdict :=
  let is_chars := match sd_conv d with Chars => true | _ => false end in
  let w := if is_chars then Some (default [chr "1"] (sd_width d)) else sd_width d in
  let s := run_of (accepts (sd_conv d)) (at_most w l) in
  let n := length s in
  let e := saw_end w l n in
  if sd_suppress d then if bool_decide (n = O) then Some (stop e false) else and_match <$> rest n e args
  else
    match args with
    | Word p :: args1 =>
        if p =? NULL then Some (stop false true)
        else
          match args1 with
          | Word size :: args2 =>
              let size := Z.land size 0xffffffff in
              if (size =? 0) || (SECUREC_STRING_MAX_LEN <? size) then Some (stop false false)
              else
                let room := Z.to_nat (if is_chars then size else size - 1) in
                if (room <? n)%nat then Some (and_write p (take room s) (and_write p [0] (stop false false)))
                else if bool_decide (n = O) then Some (stop e false)
                else (fun v => and_write p (s ++ if is_chars then [] else [0]) (and_done 1 (and_match v))) <$> rest n e args2
          | _ => None
          end
    | _ => None
    end.

(** The number of characters read so far, [k]. *)
Definition scan_count (d : scan_directive) (k : nat) (e : bool) (args : list (arg F))
    (rest : list (arg F) -> option scan_verdict) : option scan_verdict :=
  if sd_suppress d then and_match <$> rest args
  else
    match args with
    | Word p :: args' =>
        if p =? NULL then Some (stop e true)
        else
          let n := match sd_size d with HH => 1 | H => 2 | Plain => 4 | _ => 8 end%nat in
          (fun v => and_write p (le_bytes n (u32 (Z.of_nat k))) (and_match v)) <$> rest args'
    | _ => None
    end.

(** [l] from its [k]th character on; [e] when the last read was at its end. *)
Fixpoint scan (its : list scan_item) (inp : list Z) (k : nat) (e : bool) (args : list (arg F)) : option scan_verdict :=
  let l := drop k inp in
  let spaces := length (run_of isspace l) in
  match its with
  | [] => Some (stop e false)
  | Blank _ :: its' => scan its' inp (k + spaces) (bool_decide (spaces = length l)) args
  | Exactly c :: its' =>
      match l with
      | [] => Some (stop true false)
      | x :: _ => if x =? c then scan its' inp (k + 1) false args else Some (stop false false)
      end
  | PercentSign :: its' =>
      match drop spaces l with
      | [] => Some (stop true false)
      | x :: _ => if x =? chr "%" then scan its' inp (k + spaces + 1) false args else Some (stop false true)
      end
  | Scan d :: its' =>
      match sd_conv d with
      | Count => scan_count d k e args (scan its' inp k e)
      | Int c =>
          let l := drop spaces l in
          if bool_decide (l = []) then Some (stop true false)
          else scan_number d c l args (fun n => scan its' inp (k + spaces + n))
      | c =>
          let skip := match c with Str => spaces | _ => O end in
          let l := drop skip l in
          if bool_decide (l = []) then Some (stop true false)
          else scan_text d l args (fun n => scan its' inp (k + skip + n))
      end
  end.

(** What the functions return. *)
Definition scan_result (v : scan_verdict) : Z :=
  if v_end v then if negb (v_done v =? 0) || negb (v_match v =? 0) then v_done v else -1
  else if v_refused v then -1 else v_done v.
End Scan.

(** Memory after the writes. *)
Definition write_all (m : mem) (ws : list (Z * list Z)) : mem := foldl (fun m x => wr m x.1 x.2) m ws.
