(* ===== verification/ScanfProps.v ===== *)
(** * ScanfProps: the characters of a text, and the digits of an integer in it *)
From stdpp Require Import prelude gmap list strings.
From Stdlib Require Import ZArith Lia.
From S2P Require Import Prelude Hw Mem Securec Printf PrintfSpec Scanf ScanfSpec.
Local Open Scope Z_scope.

Lemma drop_lookup {A} (l : list A) k c : l !! k = Some c -> drop k l = c :: drop (S k) l.
Proof. intros H. by rewrite (drop_S l c k H). Qed.
Lemma drop_end {A} (l : list A) k : l !! k = None -> drop k l = [].
Proof. intros H. apply drop_ge. by apply lookup_ge_None. Qed.

Lemma run_of_length f l : (length (run_of f l) <= length l)%nat.
Proof. induction l as [| x l IH]; cbn; [done |]. destruct (f x); cbn; lia. Qed.

(** ** Characters *)
Definition is_char (c : Z) : Prop := 0 < c < 256.
Lemma u8_char c : is_char c -> u8 c = c.
Proof. intros H. apply wrap_id. unfold fits, is_char in *. lia. Qed.

Section Characters.
Context {G D : Type} `{MD : Machine D} `{HM : !Has G mem}.
Implicit Types (w : world G D).
(** The text [inp] is at [buf]. *)
Context (fuel : nat) (buf : Z) (inp : list Z).
Context (Hbuf : 0 < buf) (Hchars : Forall is_char inp).

(** The stream with [k] characters read. *)
Definition st (k : nat) : SecFileStream :=
  FileStream SECUREC_MEM_STR_FLAG NULL (buf + Z.of_nat k) (Z.of_nat (length inp) - Z.of_nat k).
(** The character that is read there, and the state after it. *)
Definition ch_at (k : nat) : Z := default EOF (inp !! k).
Definition after_ch (k : nat) (p : SecScanSpec) : SecFileStream * SecScanSpec :=
  (st (if bool_decide (k < length inp)%nat then S k else k), with_ch (ch_at k) (with_charCount (charCount p + 1) p)).
Definition seen_ch (k : nat) (p : SecScanSpec) : SecScanSpec := with_ch (ch_at k) p.

Lemma ch_at_eof k : (k <= length inp)%nat -> (ch_at k =? EOF) = bool_decide (k = length inp).
Proof.
  intros Hk. unfold ch_at. destruct (inp !! k) as [c |] eqn:E; cbn [from_option id].
  - rewrite Forall_lookup in Hchars. pose proof (Hchars _ _ E) as Hc. apply lookup_lt_Some in E.
    rewrite bool_decide_eq_false_2 by lia. unfold EOF, is_char in *. lia.
  - apply lookup_ge_None in E. by rewrite bool_decide_eq_true_2 by lia.
Qed.
Lemma ch_at_drop k c l : drop k inp = c :: l -> ch_at k = c /\ is_char c /\ drop (S k) inp = l /\ (k < length inp)%nat.
Proof.
  intros H. assert (inp !! k = Some c) as E by (by rewrite <- (Nat.add_0_r k), <- lookup_drop, H).
  unfold ch_at. rewrite E. rewrite Forall_lookup in Hchars. split_and!; [done | by eapply Hchars | | by eapply lookup_lt_Some].
  by rewrite (drop_lookup _ _ _ E) in H; injection H.
Qed.
Lemma ch_at_nil k : drop k inp = [] -> ch_at k = EOF.
Proof.
  intros H. unfold ch_at. destruct (inp !! k) eqn:E; [| done]. by rewrite (drop_lookup _ _ _ E) in H.
Qed.

Lemma unget_next k p : (k <= length inp)%nat -> unget_ch (after_ch k p) = (st k, seen_ch k p).
Proof.
  intros Hk. unfold unget_ch, after_ch, SecUnGetChar. cbn [fst snd].
  assert (with_charCount (charCount p + 1 - 1) (with_ch (ch_at k) (with_charCount (charCount p + 1) p)) = seen_ch k p) as E.
  { unfold seen_ch, with_ch, with_charCount. cbn. f_equal. lia. }
  cbn [charCount with_ch with_charCount ch] in *. fold (with_ch (ch_at k) p). f_equal; [| exact E].
  rewrite ch_at_eof by done. destruct (decide (k = length inp)) as [-> | Hne].
  - rewrite bool_decide_eq_true_2 by done. cbn [negb]. by rewrite bool_decide_eq_false_2 by lia.
  - rewrite bool_decide_eq_false_2 by done. cbn [negb]. rewrite bool_decide_eq_true_2 by lia.
    unfold SecUnGetCharImpl, SECUREC_UN_GET_CHAR, st. cbn [s_flag s_base s_cur s_count].
    change (negb (Z.land SECUREC_MEM_STR_FLAG SECUREC_MEM_STR_FLAG =? 0)) with true. cbv iota.
    assert ((NULL <? buf + Z.of_nat (S k)) = true) as -> by (apply Z.ltb_lt; unfold NULL; clear - Hbuf; lia). f_equal; lia.
Qed.

Lemma wp_get_ch k p (Q : SecFileStream * SecScanSpec -> world G D -> Prop) w :
  str_at (memof w) buf inp -> (k <= length inp)%nat -> Q (after_ch k p) w -> wp (get_ch (st k, p)) Q w.
Proof.
  intros Hs Hk HQ. unfold get_ch. apply wp_bind. cbn [fst snd]. unfold SecGetChar, st. cbn [s_flag].
  change (negb (Z.land SECUREC_MEM_STR_FLAG SECUREC_MEM_STR_FLAG =? 0)) with true. cbv iota.
  apply wp_bind. unfold SECUREC_GET_CHAR. cbn [s_flag s_base s_cur s_count]. unfold after_ch in HQ.
  destruct (decide (k < length inp)%nat) as [Hlt | Hge].
  - rewrite bool_decide_eq_true_2 in HQ by done. destruct (lookup_lt_is_Some_2 _ _ Hlt) as [c Hc].
    replace (1 <=? Z.of_nat (length inp) - Z.of_nat k) with true by lia.
    pose proof (str_at_drop _ _ _ k Hs ltac:(lia)) as Hd. rewrite (drop_lookup _ _ _ Hc) in Hd.
    apply str_at_cons in Hd as (Hm & _ & _). apply wp_bind. eapply wp_ld8; [exact Hm |]. apply wp_ret, wp_ret, wp_ret.
    unfold ch_at, st in HQ. rewrite Hc in HQ. cbn [from_option id] in HQ. rewrite Forall_lookup in Hchars. rewrite (u8_char c) by (by eapply Hchars).
    replace (buf + Z.of_nat k + 1) with (buf + Z.of_nat (S k)) by lia.
    by replace (Z.of_nat (length inp) - Z.of_nat k - 1) with (Z.of_nat (length inp) - Z.of_nat (S k)) by lia.
  - rewrite bool_decide_eq_false_2 in HQ by done. replace (1 <=? Z.of_nat (length inp) - Z.of_nat k) with false by lia.
    apply wp_ret, wp_ret, wp_ret. unfold ch_at in HQ. by rewrite lookup_ge_None_2 in HQ by lia.
Qed.

(** ** Spaces *)
Definition spaces (k : nat) : nat := length (run_of isspace (drop k inp)).
Lemma spaces_le k : (k <= length inp)%nat -> (k + spaces k <= length inp)%nat.
Proof. intros Hk. unfold spaces. pose proof (run_of_length isspace (drop k inp)) as H. rewrite length_drop in H. lia. Qed.

Lemma wp_skip_ch k p (Q : SecFileStream * SecScanSpec -> world G D -> Prop) w :
  str_at (memof w) buf inp -> (k <= length inp)%nat -> (length inp < fuel)%nat ->
  Q (after_ch (k + spaces k) (with_charCount (charCount p + Z.of_nat (spaces k)) p)) w -> wp (skip_ch fuel (st k, p)) Q w.
Proof.
  intros Hs Hk Hf HQ. unfold skip_ch, SecSkipSpaceChar. apply wp_bind. cbn [fst snd].
  assert (forall n k c (P : Z * SecFileStream * Z -> world G D -> Prop), (length inp - k < n)%nat -> (k <= length inp)%nat ->
    (let j := (k + spaces k)%nat in
     P (ch_at j, st (if bool_decide (j < length inp)%nat then S j else j), c + Z.of_nat (spaces k) + 1) w) ->
    wp (loop n (fun x : SecFileStream * Z =>
      r ← SecGetChar x.1 x.2;
      let '(ch, s, counter) := r in
      if ch =? EOF then mret (inr (ch, s, counter))
      else if SecIsSpace ch then mret (inl (s, counter)) else mret (inr (ch, s, counter))) (st k, c)) P w) as Hl.
  { clear HQ Hk k. intros n. induction n as [| n IH]; intros k c P Hn Hk HP; [lia |]. rewrite loop_S. apply wp_bind, wp_bind.
    cbn [fst snd]. unfold spaces in HP. unfold SecGetChar. unfold st at 1. cbn [s_flag].
    change (negb (Z.land SECUREC_MEM_STR_FLAG SECUREC_MEM_STR_FLAG =? 0)) with true. cbv iota.
    apply wp_bind. unfold SECUREC_GET_CHAR. unfold st at 1 2 3 4 5. cbn [s_flag s_base s_cur s_count].
    destruct (drop k inp) as [| x l] eqn:E.
    - assert (length inp = k) by (apply (f_equal length) in E; rewrite length_drop in E; cbn in E; lia).
      replace (1 <=? Z.of_nat (length inp) - Z.of_nat k) with false by lia. apply wp_ret, wp_ret.
      change (EOF =? EOF) with true. cbv iota. apply wp_ret. cbn [run_of length] in HP. cbv zeta in HP.
      rewrite !Nat.add_0_r, Z.add_0_r in HP. rewrite (ch_at_nil _ E) in HP. rewrite bool_decide_eq_false_2 in HP by lia. apply wp_ret. exact HP.
    - destruct (ch_at_drop _ _ _ E) as (Hch & Hx & Hl & Hlt). replace (1 <=? Z.of_nat (length inp) - Z.of_nat k) with true by lia.
      pose proof (str_at_drop _ _ _ k Hs ltac:(lia)) as Hd. rewrite E in Hd.
      apply str_at_cons in Hd as (Hm & _ & _). apply wp_bind. eapply wp_ld8; [exact Hm |]. apply wp_ret, wp_ret. rewrite u8_char by done.
      replace (x =? EOF) with false by (unfold EOF, is_char in *; lia).
      replace (buf + Z.of_nat k + 1) with (buf + Z.of_nat (S k)) by lia.
      replace (Z.of_nat (length inp) - Z.of_nat k - 1) with (Z.of_nat (length inp) - Z.of_nat (S k)) by lia.
      unfold SecIsSpace. rewrite u8_char by done. cbn [run_of] in HP. destruct (isspace x) eqn:Esp.
      + apply wp_ret. fold (st (S k)). apply IH; [lia | lia |]. unfold spaces. rewrite Hl. cbn [length] in HP. cbv zeta in HP |- *.
        replace (S k + length (run_of isspace l))%nat with (k + S (length (run_of isspace l)))%nat by lia.
        by replace (c + 1 + Z.of_nat (length (run_of isspace l)) + 1) with (c + Z.of_nat (S (length (run_of isspace l))) + 1) by lia.
      + apply wp_ret, wp_ret. cbn [length] in HP. cbv zeta in HP. rewrite !Nat.add_0_r, Z.add_0_r, Hch in HP. rewrite bool_decide_eq_true_2 in HP by done. exact HP. }
  apply Hl; [lia | done |]. cbv zeta. apply wp_ret. exact HQ.
Qed.
End Characters.


(** ** Digits *)
Lemma chars_all (P : Z -> bool) : forallb P (seqZ 1 255) = true -> forall c, is_char c -> P c = true.
Proof.
  intros H c Hc. rewrite forallb_forall in H. apply H, list_elem_of_In, elem_of_seqZ. unfold is_char in Hc. lia.
Qed.

Lemma hex_digit c : is_char c ->
  match value_of_digit 16 c with
  | Some d => SecIsXdigit c = true /\ u32 (SecHexValueOfChar c) = d /\ 0 <= d < 16
  | None => SecIsXdigit c = false
  end.
Proof.
  intros Hc. pose proof (chars_all (fun c => match value_of_digit 16 c with
    | Some d => SecIsXdigit c && (u32 (SecHexValueOfChar c) =? d) && (0 <=? d) && (d <? 16)
    | None => negb (SecIsXdigit c) end) ltac:(by vm_compute) c Hc) as H. cbv beta in H.
  destruct (value_of_digit 16 c); [| by apply negb_true_iff]. split_and!; try (by destruct (SecIsXdigit c)); lia.
Qed.
Lemma small_digit base c : base = 8 \/ base = 10 -> is_char c ->
  match value_of_digit base c with
  | Some d => SecIsDigit c = true /\ (c <? chr "8") = (d <? 8) /\ u64 (u32 c - chr "0") = d /\ 0 <= d < base
  | None => SecIsDigit c = false \/ (base = 8 /\ (c <? chr "8") = false)
  end.
Proof.
  intros Hb Hc. pose proof (chars_all (fun c => match value_of_digit base c with
    | Some d => SecIsDigit c && eqb (c <? chr "8") (d <? 8) && (u64 (u32 c - chr "0") =? d) && (0 <=? d) && (d <? base)
    | None => negb (SecIsDigit c) || ((base =? 8) && negb (c <? chr "8")) end)
    ltac:(by destruct Hb as [-> | ->]; vm_compute) c Hc) as H. cbv beta in H.
  destruct (value_of_digit base c).
  - rewrite !andb_true_iff, eqb_true_iff in H. destruct H as ((((H1 & H2) & H3) & H4) & H5). split_and!; [done | done | lia | lia | lia].
  - destruct (SecIsDigit c); [| by left]. right. cbn [negb orb] in H. apply andb_true_iff in H as [H1 H2].
    split; [lia |]. by apply negb_true_iff.
Qed.

(** ** The number so far *)
Definition base_of_conv (c : Z) : Z := if (c =? chr "x") || (c =? chr "p") then 16 else if c =? chr "o" then 8 else 10.
Definition num_val (p : SecScanSpec) : Z := if numberArgType p =? 0 then number p else number64 p.
Record counts (p : SecScanSpec) (v : Z) : Prop := {
  co_pos : 0 <= v;
  co_val : num_val p = wrap 64 v;
  co_beyond : beyondMax p = if 2 ^ 64 <=? v then 1 else 0;
}.
Definition with_value n m b p := with_number n (with_number64 m (with_beyondMax b p)).

Lemma u64_mul a x d : 0 <= a -> u64 (u64 (a * u64 x) + d) = u64 (a * x + d).
Proof. intros Ha. unfold wrap. by rewrite Zplus_mod_idemp_l, <- Zplus_mod_idemp_l, Zmult_mod_idemp_r, Zplus_mod_idemp_l. Qed.
Lemma mul_ten_64 x : SECUREC_MUL_TEN_64 x = u64 (10 * x).
Proof.
  unfold SECUREC_MUL_TEN_64. rewrite !Z.shiftl_mul_pow2 by lia. unfold wrap. rewrite Zplus_mod_idemp_l.
  rewrite Zmult_mod_idemp_l. f_equal. lia.
Qed.
Lemma mul_sixteen x : SECUREC_MUL_SIXTEEN x = u64 (16 * x).
Proof. unfold SECUREC_MUL_SIXTEEN. rewrite Z.shiftl_mul_pow2 by lia. f_equal. lia. Qed.
Lemma mul_eight x : SECUREC_MUL_EIGHT x = u64 (8 * x).
Proof. unfold SECUREC_MUL_EIGHT. rewrite Z.shiftl_mul_pow2 by lia. f_equal. lia. Qed.
Lemma high_bits n k : 0 <= n -> 0 <= k -> (0 <? Z.shiftr n k) = (2 ^ k <=? n).
Proof.
  intros Hn Hk. rewrite Z.shiftr_div_pow2 by done. pose proof (Z.pow_pos_nonneg 2 k ltac:(lia) Hk).
  destruct (Z.leb_spec (2 ^ k) n).
  - apply Z.ltb_lt. by apply Z.div_str_pos.
  - rewrite Z.div_small by lia. done.
Qed.

(** What the multiplication says about the result being too large. *)
Lemma beyond_step base bm v d (over : bool) : 0 <= v -> 0 <= d -> 1 <= base -> bm = (if 2 ^ 64 <=? v then 1 else 0) ->
  (v < 2 ^ 64 -> over = (2 ^ 64 <=? base * v + d)) ->
  (if over then 1 else bm) = if 2 ^ 64 <=? base * v + d then 1 else 0.
Proof.
  intros Hv Hd Hb -> Ho. destruct (Z.leb_spec (2 ^ 64) v) as [H | H].
  - replace (2 ^ 64 <=? base * v + d) with true by (symmetry; apply Z.leb_le; nia). by destruct over.
  - rewrite Ho by done. by destruct (_ <=? _).
Qed.
Lemma decimal_over v d : 0 <= v < 2 ^ 64 -> 0 <= d < 10 ->
  (SECUREC_MAX_64BITS_VALUE_DIV_TEN <? v) ||
  ((u64 (10 * v) =? SECUREC_MAX_64BITS_VALUE_CUT_LAST_DIGIT) && (u64 (SECUREC_MAX_64BITS_VALUE - u64 (10 * v)) <? d)) =
  (2 ^ 64 <=? 10 * v + d).
Proof.
  intros Hv Hd. unfold SECUREC_MAX_64BITS_VALUE_DIV_TEN, SECUREC_MAX_64BITS_VALUE_CUT_LAST_DIGIT, SECUREC_MAX_64BITS_VALUE.
  change (2 ^ 64) with 18446744073709551616 in *.
  destruct (Z.ltb_spec 1844674407370955161 v); [cbn [orb]; symmetry; apply Z.leb_le; lia |]. cbn [orb].
  rewrite (wrap_id 64 (10 * v)) by (unfold fits; change (2 ^ 64) with 18446744073709551616; lia).
  destruct (Z.eqb_spec (10 * v) 18446744073709551610) as [E | E]; cbn [andb].
  - rewrite E, wrap_id by (unfold fits; change (2 ^ 64) with 18446744073709551616; lia).
    destruct (Z.ltb_spec (18446744073709551615 - 18446744073709551610) d); symmetry; [apply Z.leb_le | apply Z.leb_gt]; lia.
  - symmetry. apply Z.leb_gt. lia.
Qed.

Lemma counts_with_value p v n m b : 0 <= v -> (if numberArgType p =? 0 then n else m) = wrap 64 v ->
  b = (if 2 ^ 64 <=? v then 1 else 0) -> counts (with_value n m b p) v.
Proof. intros Hv Hn Hb. split; [done | | done]. unfold num_val, with_value. cbn. exact Hn. Qed.
Lemma with_value_id p : with_value (number p) (number64 p) (beyondMax p) p = p.
Proof. by destruct p. Qed.

(** ** The functions for a digit *)
Definition over_ten (n d : Z) : bool :=
  (SECUREC_MAX_64BITS_VALUE_DIV_TEN <? n) ||
  ((u64 (10 * n) =? SECUREC_MAX_64BITS_VALUE_CUT_LAST_DIGIT) && (u64 (SECUREC_MAX_64BITS_VALUE - u64 (10 * n)) <? d)).

#[local] Opaque wrap.
(** The fields of a conversion that is written out. *)
Ltac fields :=
  cbn [ch charCount argPtr arrayWidth number64 number numberWidth numberArgType negative beyondMax numberState width
    widthSet convChr oriConvChr isWCharOrLong suppress andb orb].
(** Split a test without tests inside. *)
Ltac split_test b := lazymatch b with context [ if _ then _ else _ ] => fail | _ => destruct b end.
Ltac split_if :=
  match goal with
  | |- context [ orb ?b _ ] => split_test b
  | |- context [ andb ?b _ ] => split_test b
  | |- context [ if ?b then _ else _ ] => split_test b
  end.
Ltac form :=
  match goal with p : SecScanSpec |- _ => destruct p end;
  unfold with_value, over_ten, with_number, with_number64, with_beyondMax; fields;
  repeat (split_if; fields); try reflexivity.

Section Digit.
Context (p : SecScanSpec).
Abbreviation dd := (u64 (u32 (ch p) - chr "0")).
Lemma decimal_form : SecDecodeNumberDecimal p =
  with_value (u64 (u64 (10 * number p) + dd)) (number64 p) (if over_ten (number p) dd then 1 else beyondMax p) p.
Proof.
  unfold SecDecodeNumberDecimal. change (SECUREC_MUL_TEN_64 SECUREC_MAX_64BITS_VALUE_DIV_TEN) with SECUREC_MAX_64BITS_VALUE_CUT_LAST_DIGIT.
  rewrite !mul_ten_64. form.
Qed.
Lemma decimal64_form : SecDecodeNumber64Decimal p =
  with_value (number p) (u64 (u64 (10 * number64 p) + dd)) (if over_ten (number64 p) dd then 1 else beyondMax p) p.
Proof. unfold SecDecodeNumber64Decimal. rewrite !mul_ten_64. form. Qed.
Lemma hex_form : SecDecodeNumberHex p =
  with_value (u64 (u64 (16 * number p) + u32 (SecHexValueOfChar (ch p)))) (number64 p)
    (if 0 <? Z.shiftr (number p) 60 then 1 else beyondMax p) p.
Proof.
  unfold SecDecodeNumberHex, SECUREC_LONG_HEX_BEYOND_MAX. change (SECUREC_LONG_BIT_NUM - 4) with 60. rewrite !mul_sixteen. form.
Qed.
Lemma hex64_form : SecDecodeNumber64Hex p =
  with_value (number p) (u64 (u64 (16 * number64 p) + u32 (SecHexValueOfChar (ch p))))
    (if 0 <? Z.shiftr (number64 p) 60 then 1 else beyondMax p) p.
Proof. unfold SecDecodeNumber64Hex, SECUREC_QWORD_HEX_BEYOND_MAX. change (64 - 4) with 60. rewrite !mul_sixteen. form. Qed.
Lemma octal_form : SecDecodeNumberOctal p =
  with_value (u64 (u64 (8 * number p) + dd)) (number64 p) (if 0 <? Z.shiftr (number p) 61 then 1 else beyondMax p) p.
Proof.
  unfold SecDecodeNumberOctal, SECUREC_LONG_OCTAL_BEYOND_MAX. change (SECUREC_LONG_BIT_NUM - 3) with 61. rewrite !mul_eight. form.
Qed.
Lemma octal64_form : SecDecodeNumber64Octal p =
  with_value (number p) (u64 (u64 (8 * number64 p) + dd)) (if 0 <? Z.shiftr (number64 p) 61 then 1 else beyondMax p) p.
Proof. unfold SecDecodeNumber64Octal, SECUREC_QWORD_OCTAL_BEYOND_MAX. change (64 - 3) with 61. rewrite !mul_eight. form. Qed.

(** One more digit [d], whichever of the two numbers counts. *)
Lemma counts_step base v d f32 f64 (over : Z -> bool) : 1 <= base -> 0 <= d -> counts p v ->
  (v < 2 ^ 64 -> over v = (2 ^ 64 <=? base * v + d)) ->
  f32 p = with_value (u64 (u64 (base * number p) + d)) (number64 p) (if over (number p) then 1 else beyondMax p) p ->
  f64 p = with_value (number p) (u64 (u64 (base * number64 p) + d)) (if over (number64 p) then 1 else beyondMax p) p ->
  exists n m b, by_arg_type f32 f64 p = with_value n m b p /\ counts (with_value n m b p) (base * v + d).
Proof.
  intros Hbase Hd [Hv Hn Hb] Ho E32 E64. unfold by_arg_type, num_val in *.
  assert ((if over (wrap 64 v) then 1 else beyondMax p) = if 2 ^ 64 <=? base * v + d then 1 else 0) as Hbm.
  { apply (beyond_step base _ v d); try done. intros Hlt. rewrite wrap_id by done. by apply Ho. }
  destruct (numberArgType p =? 0) eqn:Et; (do 3 eexists; split; [eassumption |]);
    (apply counts_with_value; [nia | rewrite Et, Hn; by apply u64_mul; lia | by rewrite Hn]).
Qed.
End Digit.

(** A digit of the base that the conversion reads. *)
Lemma digit_decodes p v d : is_char (ch p) -> value_of_digit (base_of_conv (convChr p)) (ch p) = Some d -> counts p v ->
  exists n m b, SecDecodeNumber p = Some (with_value n m b p) /\ counts (with_value n m b p) (base_of_conv (convChr p) * v + d).
Proof.
  intros Hc Hd Hp. pose proof (co_pos _ _ Hp) as Hv. unfold SecDecodeNumber, base_of_conv in *.
  assert (forall f, (exists n m b, f p = with_value n m b p /\ counts (with_value n m b p) (base_of_conv (convChr p) * v + d)) ->
    exists n m b, Some (f p) = Some (with_value n m b p) /\ counts (with_value n m b p) (base_of_conv (convChr p) * v + d)) as Hsome
    by (intros f (n & m & b & -> & H); eauto).
  unfold base_of_conv in Hsome. destruct ((convChr p =? chr "x") || (convChr p =? chr "p")); [| destruct (convChr p =? chr "o")].
  - pose proof (hex_digit _ Hc) as Hx. rewrite Hd in Hx. destruct Hx as (-> & <- & Hd'). apply Hsome.
    apply (counts_step p 16 v _ _ _ (fun n => 0 <? Z.shiftr n 60)); [lia | lia | done | | apply hex_form | apply hex64_form].
    intros Hlt. rewrite high_bits by lia. change (2 ^ 64) with (16 * 2 ^ 60).
    destruct (Z.leb_spec (2 ^ 60) v), (Z.leb_spec (16 * 2 ^ 60) (16 * v + u32 (SecHexValueOfChar (ch p)))); lia.
  - pose proof (small_digit 8 _ (or_introl eq_refl) Hc) as Hx. rewrite Hd in Hx. destruct Hx as (-> & -> & Hx & Hd').
    replace (d <? 8) with true by lia. cbn [negb]. rewrite <- Hx in *. apply Hsome.
    apply (counts_step p 8 v _ _ _ (fun n => 0 <? Z.shiftr n 61)); [lia | lia | done | | apply octal_form | apply octal64_form].
    intros Hlt. rewrite high_bits by lia. change (2 ^ 64) with (8 * 2 ^ 61).
    destruct (Z.leb_spec (2 ^ 61) v), (Z.leb_spec (8 * 2 ^ 61) (8 * v + u64 (u32 (ch p) - chr "0"))); lia.
  - pose proof (small_digit 10 _ (or_intror eq_refl) Hc) as Hx. rewrite Hd in Hx. destruct Hx as (-> & _ & Hx & Hd').
    cbn [negb]. rewrite <- Hx in *. apply Hsome.
    apply (counts_step p 10 v _ _ _ (fun n => over_ten n (u64 (u32 (ch p) - chr "0")))); [lia | lia | done | | apply decimal_form | apply decimal64_form].
    intros Hlt. apply decimal_over; lia.
Qed.
Lemma no_digit p : is_char (ch p) -> value_of_digit (base_of_conv (convChr p)) (ch p) = None -> SecDecodeNumber p = None.
Proof.
  intros Hc Hd. unfold SecDecodeNumber, base_of_conv in *.
  destruct ((convChr p =? chr "x") || (convChr p =? chr "p")); [| destruct (convChr p =? chr "o")].
  - pose proof (hex_digit _ Hc) as Hx. rewrite Hd in Hx. by rewrite Hx.
  - pose proof (small_digit 8 _ (or_introl eq_refl) Hc) as Hx. rewrite Hd in Hx. destruct Hx as [-> | [_ ->]]; [done |]. by destruct (SecIsDigit _).
  - pose proof (small_digit 10 _ (or_intror eq_refl) Hc) as Hx. rewrite Hd in Hx. destruct Hx as [-> | [? _]]; done.
Qed.
Lemma no_digit_eof p : ch p = EOF -> SecDecodeNumber p = None.
Proof. intros H. unfold SecDecodeNumber. rewrite H. by repeat case_match. Qed.

(** ** The digits *)
(** What the reading of a number leaves alone. *)
Record same_conv (p p' : SecScanSpec) : Prop := {
  sc_type : numberArgType p' = numberArgType p;
  sc_neg : negative p' = negative p;
  sc_ori : oriConvChr p' = oriConvChr p;
  sc_wide : numberWidth p' = numberWidth p;
  sc_sup : suppress p' = suppress p;
}.
Lemma same_conv_refl p : same_conv p p.
Proof. done. Qed.
Lemma same_conv_trans p q r : same_conv p q -> same_conv q r -> same_conv p r.
Proof. intros [] []. split; congruence. Qed.

(** The part of the text that the width leaves, and whether it leaves more
    than [n] characters. *)
Definition lim (p : SecScanSpec) (l : list Z) : list Z := if widthSet p =? 0 then l else take (Z.to_nat (width p)) l.
Definition enough (p : SecScanSpec) (n : nat) : bool := (widthSet p =? 0) || (Z.of_nat n <? width p).

Section Digits.
Context {G D : Type} `{MD : Machine D} `{HM : !Has G mem}.
Context (fuel : nat) (buf : Z) (inp : list Z).
Context (Hbuf : 0 < buf) (Hchars : Forall is_char inp).
Implicit Types (w : world G D).
Abbreviation st := (st buf inp).
Abbreviation ch_at := (ch_at inp).

Lemma lim_nil p k : (k <= length inp)%nat -> enough p 0 = true -> lim p (drop k inp) = [] -> k = length inp.
Proof.
  intros Hk He Hl. unfold lim, enough in *. destruct (widthSet p =? 0); cbn [orb] in He.
  - apply (f_equal length) in Hl. rewrite length_drop in Hl. cbn in Hl. lia.
  - destruct (drop k inp) as [| c l] eqn:E.
    + apply (f_equal length) in E. rewrite length_drop in E. cbn in E. lia.
    + change (Z.of_nat 0) with 0 in He. destruct (Z.to_nat (width p)) eqn:Ew; [lia | done].
Qed.
Lemma lim_enough p c l : enough p 0 = true -> lim p (c :: l) = c :: lim (SECUREC_FILED_WIDTH_DEC p) l.
Proof.
  unfold lim, enough, SECUREC_FILED_WIDTH_DEC. destruct (widthSet p =? 0) eqn:E; cbn [negb orb]; [by rewrite E |]. change (Z.of_nat 0) with 0. intros H.
  cbn [with_fieldWidth widthSet width]. rewrite E. replace (Z.to_nat (width p)) with (S (Z.to_nat (width p - 1))) by lia. done.
Qed.
Lemma lim_none p l : enough p 0 = false -> lim p l = [].
Proof.
  unfold lim, enough. destruct (widthSet p =? 0); [done |]. cbn [orb]. intros H.
  change (Z.of_nat 0) with 0 in H. replace (Z.to_nat (width p)) with 0%nat by lia. done.
Qed.
Lemma enough_dec p n : enough (SECUREC_FILED_WIDTH_DEC p) n = enough p (S n).
Proof.
  unfold enough, SECUREC_FILED_WIDTH_DEC. destruct (widthSet p =? 0) eqn:E; cbn [negb orb]; [by rewrite E |].
  cbn [with_fieldWidth widthSet width]. rewrite E. cbn [orb]. destruct (Z.ltb_spec (Z.of_nat n) (width p - 1)), (Z.ltb_spec (Z.of_nat (S n)) (width p)); lia.
Qed.

Definition digits_body (x : SecFileStream * SecScanSpec) : M G D (SecFileStream * SecScanSpec + SecFileStream * SecScanSpec) :=
  if SECUREC_FILED_WIDTH_ENOUGH x.2 then
    x ← get_ch x;
    match SecDecodeNumber x.2 with
    | None => mret (inr (unget_ch x))
    | Some p => mret (inl (x.1, with_numberState SECUREC_NUMBER_STATE_STARTED (SECUREC_FILED_WIDTH_DEC p)))
    end
  else mret (inr x).

(** After [m] digits. *)
Record digits_read (p p' : SecScanSpec) (k m : nat) (v : Z) : Prop := {
  dr_counts : counts p' v;
  dr_same : same_conv p p';
  dr_count : charCount p' = charCount p + Z.of_nat m;
  dr_state : numberState p' = if bool_decide (m = O) then numberState p else SECUREC_NUMBER_STATE_STARTED;
  dr_end : (ch p' =? EOF) =
    if enough p m then bool_decide (k + m = length inp)%nat else if bool_decide (m = O) then ch p =? EOF else false;
}.

Lemma wp_digits n k p v (Q : SecFileStream * SecScanSpec -> world G D -> Prop) w :
  str_at (memof w) buf inp -> (k <= length inp)%nat -> (length inp - k < n)%nat -> counts p v ->
  let r := digits_in_front (base_of_conv (convChr p)) v (lim p (drop k inp)) in
  (forall p', digits_read p p' k r.2 r.1 -> Q (st (k + r.2)%nat, p') w) -> wp (loop n digits_body (st k, p)) Q w.
Proof.
  intros Hs. revert k p v Q. induction n as [| n IH]; intros k p v Q Hk Hn Hp r HQ; [lia |]. rewrite loop_S. apply wp_bind.
  unfold digits_body at 1. cbn [fst snd]. change (SECUREC_FILED_WIDTH_ENOUGH p) with (enough p 0).
  destruct (enough p 0) eqn:He.
  2: { apply wp_ret, wp_ret. unfold r in HQ. rewrite lim_none in HQ by done. cbn [digits_in_front snd fst] in HQ.
    rewrite Nat.add_0_r in HQ. apply HQ. split; try done; [lia |]. by rewrite He. }
  apply wp_bind, wp_get_ch; [done | done | done |]. set (p1 := (after_ch buf inp k p).2). cbn [fst snd].
  assert (counts p1 v) as Hp1 by (destruct Hp; by split).
  assert (ch p1 = ch_at k) as Hch by done. change (after_ch buf inp k p).2 with p1.
  destruct (digits_in_front (base_of_conv (convChr p)) v (lim p (drop k inp))) as [v' m] eqn:Er. subst r. cbn [fst snd] in HQ.
  assert (SecDecodeNumber p1 = None -> v' = v /\ m = 0%nat -> wp (mret (inr (unget_ch (after_ch buf inp k p)))
    ≫= (fun r : SecFileStream * SecScanSpec + SecFileStream * SecScanSpec =>
          match r with inl s' => loop n digits_body s' | inr a => mret a end)) Q w) as Hstop.
  { intros HN [-> ->]. apply wp_bind, wp_ret, wp_ret. rewrite unget_next by done. rewrite Nat.add_0_r in HQ. apply HQ.
    destruct Hp. split; [by split | by split | cbn; lia | done |]. rewrite He. unfold seen_ch. cbn [ch with_ch]. rewrite ch_at_eof by done. by rewrite Nat.add_0_r. }
  destruct (drop k inp) as [| c l] eqn:El.
  { assert (lim p [] = []) as E by (unfold lim; destruct (_ =? _); [done | apply take_nil]). rewrite E in Er. cbn in Er. injection Er as <- <-.
    pose proof (ch_at_nil _ _ El) as Hnil. rewrite no_digit_eof by (by rewrite Hch). apply wp_bind_inv, Hstop; [apply no_digit_eof; by rewrite Hch | done]. }
  destruct (ch_at_drop _ Hchars _ _ _ El) as (Hcc & Hc & Hl & Hlt). rewrite lim_enough in Er by done. cbn [digits_in_front] in Er.
  destruct (value_of_digit (base_of_conv (convChr p)) c) as [d |] eqn:Ed.
  2: { injection Er as <- <-. rewrite no_digit by (change (convChr p1) with (convChr p); rewrite Hch, Hcc; done).
    apply wp_bind_inv, Hstop; [apply no_digit; change (convChr p1) with (convChr p); by rewrite Hch, Hcc | done]. }
  destruct (digit_decodes p1 v d) as (n' & m' & b & -> & Hp2);
    [by rewrite Hch, Hcc | change (convChr p1) with (convChr p); by rewrite Hch, Hcc | done |].
  apply wp_ret. unfold after_ch. cbn [fst]. rewrite bool_decide_eq_true_2 by done.
  set (p2 := with_value n' m' b p1) in *. set (p3 := with_numberState _ _).
  destruct (digits_in_front _ _ (lim (SECUREC_FILED_WIDTH_DEC p) l)) as [v2 m2] eqn:E2. cbn [fst snd] in Er. injection Er as <- <-.
  assert (lim p3 l = lim (SECUREC_FILED_WIDTH_DEC p) l) as El3 by (unfold p3, p2, lim, SECUREC_FILED_WIDTH_DEC; cbn; by destruct (negb _)).
  assert (forall j, enough p3 j = enough p (S j)) as Ee3.
  { intros j. rewrite <- enough_dec. unfold p3, p2, enough, SECUREC_FILED_WIDTH_DEC. cbn. by destruct (negb _). }
  assert (convChr p3 = convChr p) as Ec3 by (unfold p3, p2, SECUREC_FILED_WIDTH_DEC; by destruct (negb _)).
  assert (counts p3 (base_of_conv (convChr p) * v + d)) as Hp3.
  { destruct Hp2 as [A1 A2 A3]. unfold p3, SECUREC_FILED_WIDTH_DEC. destruct (negb _); by split. }
  assert (same_conv p p3 /\ charCount p3 = charCount p + 1 /\ ch p3 = c) as (Hs3 & Hc3 & Hch3).
  { unfold p3, p2, SECUREC_FILED_WIDTH_DEC. destruct (negb _); (split_and!; [by split | done | exact Hcc]). }
  apply (IH (S k) p3 (base_of_conv (convChr p) * v + d)); [lia | lia | done |].
  rewrite Hl, El3, Ec3, E2. cbn [fst snd]. intros p' [B1 B2 B3 B4 B5]. replace (S k + m2)%nat with (k + S m2)%nat by lia. apply HQ.
  split; [done | by eapply same_conv_trans | lia | |].
  - rewrite bool_decide_eq_false_2 by lia. rewrite B4. by destruct (bool_decide _).
  - rewrite B5, Ee3. replace (S k + m2)%nat with (k + S m2)%nat by lia. rewrite (bool_decide_eq_false_2 (S m2 = 0%nat)) by lia.
    destruct (enough p (S m2)); [done |]. destruct (bool_decide _); [| done]. rewrite Hch3. unfold EOF, is_char in *. lia.
Qed.
End Digits.

(** ** The number in its type *)
Definition finish32 (sgn neg int over : bool) (n : Z) : Z :=
  if neg then
    if sgn then
      if over then 0 else if 2 ^ 63 <? n then (if int then 0 else 2 ^ 63) else if int then u32 (0 - u32 n) else u64 (0 - n)
    else if over then 2 ^ 64 - 1 else if int then (if 2 ^ 32 <? n then 2 ^ 32 - 1 else u32 (0 - u32 n)) else u64 (0 - n)
  else
    if sgn then
      if over then 2 ^ 64 - 1 else if 2 ^ 63 - 1 <? n then (if int then 2 ^ 64 - 1 else 2 ^ 63 - 1) else n
    else if over then (if int then 2 ^ 32 - 1 else 2 ^ 64 - 1) else n.
Definition finish64 (sgn neg over : bool) (n : Z) : Z :=
  if neg then
    if sgn then if over then 2 ^ 63 else if 2 ^ 63 <? n then 2 ^ 63 else u64 (0 - n)
    else if over then 2 ^ 64 - 1 else u64 (0 - n)
  else if sgn then if over then 2 ^ 63 - 1 else if 2 ^ 63 - 1 <? n then 2 ^ 63 - 1 else n
  else if over then 2 ^ 64 - 1 else n.

Lemma finish32_form p : numberWidth p <= 1 ->
  SecFinishNumber p = with_number (finish32 (SECUREC_CONVERT_IS_SIGNED (oriConvChr p)) (negb (negative p =? 0))
    (numberWidth p =? 1) (negb (beyondMax p =? 0)) (number p)) p.
Proof.
  intros Hw. unfold SecFinishNumber, SecFinishNumberNegativeInt, SecFinishNumberNegativeOther, SecFinishNumberPositiveInt,
    SecFinishNumberPositiveOther, finish32, SECUREC_NUM_WIDTH_INT, SECUREC_NUM_WIDTH_LONG, SECUREC_MIN_LONG_NEG_VALUE,
    SECUREC_MAX_LONG_POS_VALUE, SECUREC_MIN_64BITS_NEG_VALUE, SECUREC_MAX_64BITS_POS_VALUE, SECUREC_MAX_64BITS_VALUE,
    SECUREC_MAX_32BITS_VALUE, SECUREC_MAX_32BITS_VALUE_INC.
  change (Z.shiftl 1 (SECUREC_LONG_BIT_NUM - 1)) with (2 ^ 63). change 9223372036854775808 with (2 ^ 63).
  change 9223372036854775807 with (2 ^ 63 - 1). change 18446744073709551615 with (2 ^ 64 - 1). change 4294967295 with (2 ^ 32 - 1).
  change 4294967296 with (2 ^ 32).
  assert ((numberWidth p =? 2) = false) as E2 by lia.
  destruct (negb (negative p =? 0)), (numberWidth p =? 1) eqn:E1; destruct (SECUREC_CONVERT_IS_SIGNED (oriConvChr p)) eqn:Es;
    try assert ((numberWidth p <? 1) = true) as E3 by lia; destruct p; unfold with_number in *; revert E1 E2; try revert E3; fields; intros;
    rewrite ?E2, ?E3; repeat (split_if; fields; rewrite ?E2, ?E3); reflexivity.
Qed.
Lemma finish64_form p :
  SecFinishNumber64 p = with_number64 (finish64 (SECUREC_CONVERT_IS_SIGNED (oriConvChr p)) (negb (negative p =? 0))
    (negb (beyondMax p =? 0)) (number64 p)) p.
Proof.
  unfold SecFinishNumber64, finish64, SECUREC_MIN_64BITS_NEG_VALUE, SECUREC_MAX_64BITS_POS_VALUE, SECUREC_MAX_64BITS_VALUE.
  change 9223372036854775808 with (2 ^ 63). change 9223372036854775807 with (2 ^ 63 - 1). change 18446744073709551615 with (2 ^ 64 - 1).
  destruct (SECUREC_CONVERT_IS_SIGNED (oriConvChr p)) eqn:Es; destruct p; unfold with_number64; fields;
    repeat (split_if; fields); reflexivity.
Qed.

#[local] Transparent wrap.
Lemma wrap_wrap w w' x : 0 <= w <= w' -> wrap w (wrap w' x) = wrap w x.
Proof.
  intros Hw. unfold wrap. replace (2 ^ w') with (2 ^ w * 2 ^ (w' - w)) by (rewrite <- Z.pow_add_r by lia; f_equal; lia).
  rewrite Z.rem_mul_r by (apply Z.pow_nonzero || apply Z.pow_pos_nonneg; lia). rewrite Z.mul_comm, Z.mod_add by (apply Z.pow_nonzero; lia).
  apply Z.mod_mod. apply Z.pow_nonzero; lia.
Qed.
Lemma wrap_opp w w' x : 0 <= w <= w' -> wrap w (wrap w' (0 - wrap w' x)) = wrap w (- x).
Proof.
  intros Hw. rewrite wrap_wrap by done. rewrite <- (wrap_wrap w w') by done. unfold wrap at 2 3.
  rewrite Zminus_mod_idemp_r. rewrite Z.sub_0_l. by apply wrap_wrap.
Qed.
Lemma wrap_opp' w w' x : 0 <= w <= w' -> wrap w (wrap w' (0 - x)) = wrap w (- x).
Proof. intros Hw. rewrite wrap_wrap by done. by rewrite Z.sub_0_l. Qed.

(** How the fields say the type. *)
Record conv_fields (c : conv) (s : int_size) (p : SecScanSpec) : Prop := {
  cf_type : numberArgType p = if conv_bits c s =? 64 then 1 else 0;
  cf_wide : conv_bits c s = 64 \/ numberWidth p = (if conv_bits c s =? 32 then 1 else if conv_bits c s =? 16 then 0 else -1);
  cf_ori : oriConvChr p = SECUREC_TO_LOWERCASE (conv_char c);
}.
Definition is_signed (c : conv) : bool := match c with Cd | Ci => true | _ => false end.
Lemma conv_signed c s p : conv_fields c s p -> SECUREC_CONVERT_IS_SIGNED (oriConvChr p) = is_signed c.
Proof. intros [_ _ ->]. by destruct c. Qed.
Lemma conv_bits_cases c s : conv_bits c s = 64 \/ conv_bits c s = 32 \/ conv_bits c s = 16 \/ conv_bits c s = 8.
Proof. destruct c, s; cbn; lia. Qed.

Definition stored_value (sgn : bool) (w : Z) (neg : bool) (mag : Z) : Z :=
  let v := if neg then - mag else mag in
  if sgn then wrap w (Z.max (- 2 ^ 63) (Z.min (2 ^ 63 - 1) v))
  else if 2 ^ 64 <=? mag then 2 ^ w - 1
  else if neg && (w =? 32) && (2 ^ 32 <? mag) then 2 ^ w - 1 else wrap w v.
Lemma stored_is c s neg mag : stored_number c s neg mag = stored_value (is_signed c) (conv_bits c s) neg mag.
Proof. by destruct c. Qed.

Lemma finish32_value sgn neg w mag : w = 8 \/ w = 16 \/ w = 32 -> 0 <= mag ->
  wrap w (finish32 sgn neg (w =? 32) (2 ^ 64 <=? mag) (wrap 64 mag)) = stored_value sgn w neg mag.
Proof.
  intros Hw Hm. unfold finish32, stored_value. destruct (Z.leb_spec (2 ^ 64) mag) as [Hov | Hov].
  - destruct sgn, neg.
    + replace (Z.max _ _) with (- 2 ^ 63) by (change (2 ^ 64) with (2 * 2 ^ 63) in Hov; lia). by destruct Hw as [-> | [-> | ->]].
    + replace (Z.max _ _) with (2 ^ 63 - 1) by (change (2 ^ 64) with (2 * 2 ^ 63) in Hov; lia). by destruct Hw as [-> | [-> | ->]].
    + by destruct Hw as [-> | [-> | ->]].
    + by destruct Hw as [-> | [-> | ->]].
  - rewrite (wrap_id 64 mag) by done. destruct sgn, neg.
    + destruct (Z.ltb_spec (2 ^ 63) mag).
      * replace (Z.max _ _) with (- 2 ^ 63) by lia. by destruct Hw as [-> | [-> | ->]].
      * replace (Z.max _ _) with (- mag) by lia. destruct (w =? 32) eqn:E; [apply wrap_opp | apply wrap_opp']; lia.
    + destruct (Z.ltb_spec (2 ^ 63 - 1) mag).
      * replace (Z.max _ _) with (2 ^ 63 - 1) by lia. by destruct Hw as [-> | [-> | ->]].
      * by replace (Z.max _ _) with mag by lia.
    + destruct (Z.eqb_spec w 32) as [-> | Hne]; cbn [andb]; [destruct (2 ^ 32 <? mag); [done | apply wrap_opp; lia] | apply wrap_opp'; lia].
    + done.
Qed.
Lemma finish64_value sgn neg mag : 0 <= mag ->
  wrap 64 (finish64 sgn neg (2 ^ 64 <=? mag) (wrap 64 mag)) = stored_value sgn 64 neg mag.
Proof.
  intros Hm. unfold finish64, stored_value. destruct (Z.leb_spec (2 ^ 64) mag) as [Hov | Hov].
  - destruct sgn, neg; try done.
    + by replace (Z.max _ _) with (- 2 ^ 63) by (change (2 ^ 64) with (2 * 2 ^ 63) in Hov; lia).
    + by replace (Z.max _ _) with (2 ^ 63 - 1) by (change (2 ^ 64) with (2 * 2 ^ 63) in Hov; lia).
  - rewrite (wrap_id 64 mag) by done. destruct sgn, neg; try done.
    + destruct (Z.ltb_spec (2 ^ 63) mag); [by replace (Z.max _ _) with (- 2 ^ 63) by lia |].
      replace (Z.max _ _) with (- mag) by lia. by apply wrap_opp'.
    + destruct (Z.ltb_spec (2 ^ 63 - 1) mag); [by replace (Z.max _ _) with (2 ^ 63 - 1) by lia |].
      by replace (Z.max _ _) with mag by lia.
    + change (64 =? 32) with false. cbn [andb]. by apply wrap_opp'.
Qed.

Lemma finish_value c s neg p mag : conv_fields c s p -> counts p mag -> negative p = cbool neg ->
  let p' := by_arg_type SecFinishNumber SecFinishNumber64 p in
  wrap (conv_bits c s) (num_val p') = stored_number c s neg mag /\ same_conv p p' /\ argPtr p' = argPtr p /\
  ch p' = ch p /\ charCount p' = charCount p /\ numberState p' = numberState p.
Proof.
  intros Hf [Hm Hv Hb] Hn. rewrite stored_is. pose proof (conv_signed _ _ _ Hf) as Hsg. destruct Hf as [Ht Hw _].
  unfold by_arg_type. unfold num_val in *. cbv zeta. rewrite Ht in Hv |- *.
  assert (negb (negative p =? 0) = neg) as En by (rewrite Hn; by destruct neg).
  assert (negb (beyondMax p =? 0) = (2 ^ 64 <=? mag)) as Eb by (rewrite Hb; by destruct (2 ^ 64 <=? mag)).
  destruct (conv_bits c s =? 64) eqn:E64; cbn [Z.eqb] in Hv |- *.
  - rewrite finish64_form, Hsg, En, Eb, Hv. change (numberArgType (with_number64 _ p)) with (numberArgType p). rewrite Ht.
    change (number64 (with_number64 ?x p)) with x. replace (conv_bits c s) with 64 by lia.
    split_and!; try done. by apply finish64_value.
  - destruct Hw as [Hw | Hw]; [lia |]. pose proof (conv_bits_cases c s) as Hcs.
    assert (numberWidth p <= 1 /\ (numberWidth p =? 1) = (conv_bits c s =? 32)) as [Hle E32].
    { rewrite Hw. destruct (conv_bits c s =? 32), (conv_bits c s =? 16); split; lia. }
    rewrite finish32_form, Hsg, En, Eb, Hv, E32 by done. change (numberArgType (with_number _ p)) with (numberArgType p). rewrite Ht.
    change (number (with_number ?x p)) with x. cbn [Z.eqb]. split_and!; try done. apply finish32_value; [lia | done].
Qed.

(** ** Storing *)
Lemma le_bytes_wrap n x : le_bytes n (wrap (8 * Z.of_nat n) x) = le_bytes n x.
Proof.
  revert x. induction n as [| n IH]; intros x; [done |]. cbn [le_bytes]. rewrite wrap_wrap by lia. f_equal.
  rewrite <- (IH (Z.shiftr x 8)), <- IH. f_equal. apply Z.bits_inj'. intros i Hi.
  rewrite !wrap_spec, !Z.shiftr_spec, wrap_spec by lia. destruct (Z.ltb_spec i (8 * Z.of_nat n)); [| done].
  by rewrite (proj2 (Z.ltb_lt (i + 8) (8 * Z.of_nat (S n)))) by lia.
Qed.

Section Storing.
Context {G D : Type} `{MD : Machine D} `{HM : !Has G mem}.
Implicit Types (w : world G D).
Lemma wp_assign c s p x (Q : unit -> world G D -> Prop) w : conv_fields c s p ->
  wrap (conv_bits c s) (num_val p) = x -> mapped (memof w) (argPtr p) (conv_bits c s / 8) ->
  Q tt (setm (wr (memof w) (argPtr p) (le_bytes (Z.to_nat (conv_bits c s / 8)) x)) w) -> wp (SecAssignNumber p) Q w.
Proof.
  intros [Ht Hw _] <- Hm HQ. unfold SecAssignNumber, num_val in *. rewrite Ht in *.
  pose proof (conv_bits_cases c s) as Hcs. destruct (conv_bits c s =? 64) eqn:E64; cbn [Z.eqb negb] in HQ |- *.
  - replace (conv_bits c s) with 64 in * by lia. change (Z.to_nat (64 / 8)) with 8%nat in HQ.
    change 64 with (8 * Z.of_nat 8) in HQ. rewrite le_bytes_wrap in HQ. by apply wp_stn.
  - destruct Hw as [Hw | ->]; [lia |]. unfold SECUREC_NUM_WIDTH_INT, SECUREC_NUM_WIDTH_SHORT.
    destruct Hcs as [Hcs | [Hcs | [Hcs | Hcs]]]; [lia | | |]; rewrite Hcs in *; cbn [Z.eqb Z.ltb Z.compare Pos.compare Pos.compare_cont Pos.eqb].
    + change (Z.to_nat (32 / 8)) with 4%nat in HQ. change 32 with (8 * Z.of_nat 4) in HQ. rewrite le_bytes_wrap in HQ. by apply wp_stn.
    + change (Z.to_nat (16 / 8)) with 2%nat in HQ. change 16 with (8 * Z.of_nat 2) in HQ. rewrite le_bytes_wrap in HQ. by apply wp_stn.
    + change (Z.to_nat (8 / 8)) with 1%nat in HQ. change 8 with (8 * Z.of_nat 1) in HQ at 1. rewrite le_bytes_wrap in HQ. by apply wp_stn.
Qed.
End Storing.
