(* ===== verification/ScanfNumber.v ===== *)
(** * ScanfNumber: an integer of the text *)
From stdpp Require Import prelude gmap list strings.
From Stdlib Require Import ZArith Lia.
From S2P Require Import Prelude Hw Mem Securec Printf PrintfSpec Scanf ScanfSpec ScanfProps.
Local Open Scope Z_scope.

Section Number.
Context {G D : Type} `{MD : Machine D} `{HM : !Has G mem}.
Context (fuel : nat) (buf : Z) (inp : list Z).
Context (Hbuf : 0 < buf) (Hchars : Forall is_char inp) (Hfuel : (length inp < fuel)%nat).
Implicit Types (w : world G D).
Abbreviation st := (st buf inp).
Abbreviation ch_at := (ch_at inp).
Context (c : conv) (s : int_size).

Lemma same_conv_fields p p' : same_conv p p' -> conv_fields c s p -> conv_fields c s p'.
Proof. intros [H1 H2 H3 H4 H5] [A1 A2 A3]. split; congruence. Qed.

(** A number was read up to [j], with the value [mag]. *)
Record number_read (neg : bool) (p p' : SecScanSpec) (n : nat) (mag : Z) : Prop := {
  nr_value : wrap (conv_bits c s) (num_val p') = stored_number c s neg mag;
  nr_fields : conv_fields c s p';
  nr_sup : suppress p' = suppress p;
  nr_count : charCount p' = charCount p + Z.of_nat n;
}.

Lemma wp_digital neg k p v (Q : bool * (SecFileStream * SecScanSpec) -> world G D -> Prop) w :
  str_at (memof w) buf inp -> (k <= length inp)%nat -> conv_fields c s p -> counts p v -> negative p = cbool neg ->
  let r := digits_in_front (base_of_conv (convChr p)) v (lim p (drop k inp)) in
  (forall p', number_read neg p p' r.2 r.1 ->
     (ch p' =? EOF) = (if enough p r.2 then bool_decide (k + r.2 = length inp)%nat else if bool_decide (r.2 = O) then ch p =? EOF else false) ->
     Q (negb (bool_decide (r.2 = O)) || (numberState p =? SECUREC_NUMBER_STATE_STARTED), (st (k + r.2)%nat, p')) w) ->
  wp (SecInputNumberDigital fuel (st k, p)) Q w.
Proof.
  intros Hs Hk Hf Hc Hn r HQ. unfold SecInputNumberDigital. apply wp_bind.
  eapply (wp_digits buf inp Hbuf Hchars fuel k p v); [done | done | lia | done |]. fold r. intros p1 [D1 D2 D3 D4 D5]. apply wp_ret. cbn [snd fst].
  pose proof (finish_value c s neg p1 r.1 (same_conv_fields _ _ D2 Hf) D1 ltac:(by rewrite (sc_neg _ _ D2))) as (F1 & F2 & F3 & F4 & F5 & F6).
  set (p' := by_arg_type _ _ p1) in *. rewrite F6, D4.
  replace (_ =? SECUREC_NUMBER_STATE_STARTED) with (negb (bool_decide (r.2 = O)) || (numberState p =? SECUREC_NUMBER_STATE_STARTED))
    by (by destruct (bool_decide (r.2 = 0%nat))).
  apply HQ; [split | by rewrite F4].
  - done.
  - eapply same_conv_fields; [exact F2 |]. by eapply same_conv_fields.
  - rewrite (sc_sup _ _ F2). apply (sc_sup _ _ D2).
  - lia.
Qed.

(** What is known in front of the digits, [n] characters from the start. *)
Record at_digits (neg : bool) (p p1 : SecScanSpec) (n : nat) : Prop := {
  ad_fields : conv_fields c s p1;
  ad_counts : counts p1 0;
  ad_neg : negative p1 = cbool neg;
  ad_sup : suppress p1 = suppress p;
  ad_count : charCount p1 = charCount p + Z.of_nat n;
}.
Lemma number_read_from neg p p1 p2 m n mag : at_digits neg p p1 m -> number_read neg p1 p2 n mag -> number_read neg p p2 (m + n) mag.
Proof. intros [] []. split; [done | done | congruence | lia]. Qed.

Lemma dec_fields (p : SecScanSpec) : exists x, SECUREC_FILED_WIDTH_DEC p = with_fieldWidth x p.
Proof. unfold SECUREC_FILED_WIDTH_DEC. destruct (negb _); [by eexists | exists (width p); by destruct p]. Qed.
Lemma wp_sign k p x l (Q : SecFileStream * SecScanSpec -> world G D -> Prop) w :
  str_at (memof w) buf inp -> drop k inp = x :: l -> ch p = x -> conv_fields c s p -> counts p 0 -> negative p = 0 -> enough p 0 = true ->
  let n := if is_sign x then 1%nat else 0%nat in
  (forall p1, at_digits (x =? chr "-") p p1 n -> ch p1 = ch_at (k + n) -> convChr p1 = convChr p -> numberState p1 = numberState p ->
     lim p1 (drop (k + n) inp) = (if is_sign x then tail (lim p (x :: l)) else lim p (x :: l)) -> (forall j, enough p1 j = enough p (n + j)) ->
     Q (st (k + n)%nat, p1) w) ->
  wp (input_sign (st k, p)) Q w.
Proof.
  intros Hs El Hch Hf Hc Hn He n HQ. unfold input_sign. cbn [fst snd]. rewrite Hch. fold (is_sign x).
  destruct (ch_at_drop _ Hchars _ _ _ El) as (Hcc & Hx & Hl & Hlt). destruct (is_sign x) eqn:Esg; unfold n in *.
  - set (p0 := if x =? chr "-" then with_negative 1 p else p).
    destruct (dec_fields p0) as [wd Hwd]. rewrite Nat.add_1_r in HQ.
    apply wp_bind, wp_get_ch; [done | done | lia |]. unfold after_ch at 1. rewrite bool_decide_eq_true_2 by done.
    apply wp_bind, wp_get_ch; [done | done | lia |]. apply wp_ret. rewrite unget_next by (done || lia).
    assert (forall y, lim p0 y = lim p y) as Elim by (intros y; unfold p0; by destruct (x =? chr "-")).
    assert (forall j, enough p0 j = enough p j) as Een by (intros j; unfold p0; by destruct (x =? chr "-")).
    apply HQ.
    + rewrite Hwd. unfold p0. destruct Hf, Hc. destruct (x =? chr "-"); (split; [by split | by split | done | done | cbn; lia]).
    + done.
    + rewrite Hwd. unfold p0. by destruct (x =? chr "-").
    + rewrite Hwd. unfold p0. by destruct (x =? chr "-").
    + rewrite Hl. rewrite <- (Elim (x :: l)), lim_enough by (by rewrite Een). by rewrite Hwd.
    + intros j. rewrite <- Een. cbn [Nat.add]. rewrite <- enough_dec. by rewrite Hwd.
  - apply wp_ret. rewrite Nat.add_0_r in HQ. apply HQ; try done.
    + replace (x =? chr "-") with false by (unfold is_sign in Esg; destruct (x =? chr "-"); [by rewrite orb_true_r in Esg | done]).
      split; try done. lia.
    + by rewrite Hcc.
    + by rewrite El.
Qed.

Lemma zero_digit base : 0 < base -> value_of_digit base (chr "0") = Some 0.
Proof. intros H. unfold value_of_digit. change (isdigit (chr "0")) with true. cbv iota. change (chr "0" - chr "0") with 0. by simplify_option_eq. Qed.

Definition reads_prefix : bool := bool_decide (c = Ci) || bool_decide (c = Cx) || bool_decide (c = CX).
Lemma ori_prefix p : conv_fields c s p -> (oriConvChr p =? chr "x") || (oriConvChr p =? chr "i") = reads_prefix.
Proof. intros [_ _ ->]. unfold reads_prefix. by destruct c. Qed.

(** The state that the digits are read in. *)
Definition as_decimal (p : SecScanSpec) : SecScanSpec := if oriConvChr p =? chr "i" then with_convChr (chr "d") p else p.
Lemma base_decimal p : conv_fields c s p -> c <> Cc -> c <> Cs -> convChr p = oriConvChr p ->
  base_of_conv (convChr (as_decimal p)) = match c with Co => 8 | Cx | CX | Cp => 16 | _ => 10 end.
Proof.
  intros [_ _ Ho] H1 H2 Hc. unfold as_decimal. rewrite Ho in *.
  destruct (SECUREC_TO_LOWERCASE (conv_char c) =? chr "i") eqn:E; [change (convChr (with_convChr ?x p)) with x | rewrite Hc]; by destruct c.
Qed.

Definition unsigned_end (k : nat) (p : SecScanSpec) (m : nat) : bool :=
  if enough p m then bool_decide (k + m = length inp)%nat else if bool_decide (m = O) then ch p =? EOF else false.

(** No prefix: the digits from here on. *)
Lemma wp_no_prefix neg k p (Q : bool * (SecFileStream * SecScanSpec) -> world G D -> Prop) w :
  str_at (memof w) buf inp -> (k <= length inp)%nat -> conv_fields c s p -> counts p 0 -> negative p = cbool neg ->
  numberState p = SECUREC_NUMBER_STATE_DEFAULT ->
  let r := digits_in_front (base_of_conv (convChr p)) 0 (lim p (drop k inp)) in
  (forall p', (ch p' =? EOF) = unsigned_end k p r.2 -> (r.2 <> O -> number_read neg p p' r.2 r.1) ->
     Q (negb (bool_decide (r.2 = O)), (st (k + r.2)%nat, p')) w) ->
  wp (SecInputNumberDigital fuel (st k, p)) Q w.
Proof.
  intros Hs Hk Hf Hc Hn Hst r HQ. apply (wp_digital neg k p 0); try done. fold r. intros p' Hr He. rewrite Hst. change (_ =? _) with false.
  rewrite orb_false_r. by apply HQ.
Qed.

Lemma lim_head p k y m : lim p (drop k inp) = y :: m ->
  enough p 0 = true /\ ch_at k = y /\ is_char y /\ (k < length inp)%nat /\ m = lim (SECUREC_FILED_WIDTH_DEC p) (drop (S k) inp).
Proof.
  intros H. destruct (enough p 0) eqn:He; [| by rewrite lim_none in H by done]. destruct (drop k inp) as [| x l] eqn:E.
  { unfold lim in H. destruct (widthSet p =? 0); [done | by rewrite take_nil in H]. }
  destruct (ch_at_drop _ Hchars _ _ _ E) as (H1 & H2 & H3 & H4). rewrite lim_enough in H by done. injection H as <- <-. by rewrite H3.
Qed.

(** What follows for the number when [n] characters of prefix were read. *)
Definition unsigned_of (n : nat) (r : Z * nat) : option Z * nat := (if bool_decide (r.2 = O) then None else Some r.1, (n + r.2)%nat).
Lemma read_plain l : reads_prefix && hex_prefix l = false -> (c = Ci -> head l <> Some (chr "0")) -> c <> Cc -> c <> Cs ->
  read_unsigned c l = unsigned_of 0 (digits_in_front (match c with Co => 8 | Cx | CX | Cp => 16 | _ => 10 end) 0 l).
Proof.
  intros Hp Hh H1 H2. unfold read_unsigned. fold reads_prefix. rewrite Hp. destruct c; try done.
  by rewrite (bool_decide_eq_false_2 (head l = _)) by (by apply Hh).
Qed.
Lemma hex_prefix_head l : head l <> Some (chr "0") -> hex_prefix l = false.
Proof. destruct l as [| z [| x l]]; [done | done |]. cbn [head hex_prefix]. intros H. destruct (Z.eqb_spec z (chr "0")) as [-> |]; done. Qed.

Lemma wp_unsigned_plain neg k p (Q : bool * (SecFileStream * SecScanSpec) -> world G D -> Prop) w :
  str_at (memof w) buf inp -> (k <= length inp)%nat -> conv_fields c s p -> c <> Cc -> c <> Cs ->
  counts p 0 -> negative p = cbool neg -> numberState p = SECUREC_NUMBER_STATE_DEFAULT -> convChr p = oriConvChr p ->
  reads_prefix && hex_prefix (lim p (drop k inp)) = false -> (c = Ci -> head (lim p (drop k inp)) <> Some (chr "0")) ->
  let u := read_unsigned c (lim p (drop k inp)) in
  (forall p' b, (ch p' =? EOF) = unsigned_end k p u.2 ->
     match u.1 with Some mag => b = true /\ number_read neg p p' u.2 mag | None => b = false end ->
     Q (b, (st (k + u.2)%nat, p')) w) ->
  wp (SecInputNumberDigital fuel (st k, as_decimal p)) Q w.
Proof.
  intros Hs Hk Hf HCc HCs Hc Hn Hst Hcv Hpre Hhd u HQ. set (p2 := as_decimal p).
  assert (conv_fields c s p2 /\ counts p2 0 /\ negative p2 = cbool neg /\ numberState p2 = SECUREC_NUMBER_STATE_DEFAULT /\
    forall n mag p', number_read neg p2 p' n mag -> number_read neg p p' n mag) as (Hf2 & Hc2 & Hn2 & Hst2 & Hback).
  { unfold p2, as_decimal. destruct Hf, Hc. destruct (oriConvChr p =? chr "i"); (split_and!; [by split | by split | done | done | by intros ? ? ? []; split]). }
  assert (lim p2 (drop k inp) = lim p (drop k inp)) as Hlim by (unfold p2, as_decimal; by destruct (oriConvChr p =? chr "i")).
  unfold u in *. rewrite read_plain in HQ by done. apply (wp_no_prefix neg k p2); try done.
  rewrite (base_decimal p Hf HCc HCs Hcv : base_of_conv (convChr p2) = _), Hlim. intros p' He Hr. cbn [snd fst unsigned_of Nat.add] in HQ. apply HQ.
  - rewrite He. unfold unsigned_end, p2, as_decimal. by destruct (oriConvChr p =? chr "i").
  - destruct (digits_in_front _ _ _) as [v n] eqn:Er. cbn [snd fst] in *. destruct (decide (n = O)) as [-> | Hne]; [done |].
    rewrite bool_decide_eq_false_2 by done. split; [done |]. by apply Hback, Hr.
Qed.

Lemma stored_zero neg : stored_number c s neg 0 = 0.
Proof. rewrite stored_is. destruct (conv_bits_cases c s) as [-> | [-> | [-> | ->]]]; by destruct neg, (is_signed c). Qed.

Lemma dec_set p : widthSet (SECUREC_FILED_WIDTH_DEC p) = widthSet p.
Proof. unfold SECUREC_FILED_WIDTH_DEC. by destruct (negb _). Qed.
Lemma dec_width p : width (SECUREC_FILED_WIDTH_DEC p) = if widthSet p =? 0 then width p else width p - 1.
Proof. unfold SECUREC_FILED_WIDTH_DEC. by destruct (widthSet p =? 0). Qed.
Lemma lim_dec_ext p q l : widthSet p = widthSet q -> width p = width q ->
  lim (SECUREC_FILED_WIDTH_DEC p) l = lim (SECUREC_FILED_WIDTH_DEC q) l.
Proof. intros H1 H2. unfold lim. by rewrite !dec_set, !dec_width, H1, H2. Qed.
Lemma lim_dec_base x p l : lim (SECUREC_FILED_WIDTH_DEC (with_convChr x p)) l = lim (SECUREC_FILED_WIDTH_DEC p) l.
Proof. unfold lim, SECUREC_FILED_WIDTH_DEC. change (widthSet (with_convChr x p)) with (widthSet p). by destruct (negb (widthSet p =? 0)). Qed.
Lemma enough_dec_base x p j : enough (SECUREC_FILED_WIDTH_DEC (with_convChr x p)) j = enough (SECUREC_FILED_WIDTH_DEC p) j.
Proof. unfold enough, SECUREC_FILED_WIDTH_DEC. change (widthSet (with_convChr x p)) with (widthSet p). by destruct (negb (widthSet p =? 0)). Qed.

(** A hexadecimal prefix, [k] behind it. *)
Lemma wp_hex_prefix neg k p p4 m (Q : bool * (SecFileStream * SecScanSpec) -> world G D -> Prop) w :
  str_at (memof w) buf inp -> (S (S k) <= length inp)%nat -> at_digits neg p p4 2 -> convChr p4 = chr "x" ->
  numberState p4 = SECUREC_NUMBER_STATE_DEFAULT -> is_char (ch p4) -> (forall j, enough p4 j = enough p (S (S j))) ->
  lim p4 (drop (S (S k)) inp) = m ->
  let u := unsigned_of 2 (digits_in_front 16 0 m) in
  (forall p' b, (ch p' =? EOF) = unsigned_end k p u.2 ->
     match u.1 with Some mag => b = true /\ number_read neg p p' u.2 mag | None => b = false end ->
     Q (b, (st (k + u.2)%nat, p')) w) ->
  wp (SecInputNumberDigital fuel (st (S (S k)), p4)) Q w.
Proof.
  intros Hs Hk Hd Hcv Hst Hch Hen <- u HQ. pose proof Hd as [].
  apply (wp_no_prefix neg (S (S k)) p4); try done. rewrite Hcv. change (base_of_conv (chr "x")) with 16. unfold u in HQ.
  destruct (digits_in_front 16 0 (lim p4 (drop (S (S k)) inp))) as [v n]. cbn [fst snd unsigned_of] in *.
  intros p' He Hr. replace (S (S k) + n)%nat with (k + (2 + n))%nat by lia. apply HQ.
  - rewrite He. unfold unsigned_end. rewrite Hen. change (2 + n)%nat with (S (S n)). replace (S (S k) + n)%nat with (k + S (S n))%nat by lia.
    destruct (enough p (S (S n))); [done |]. rewrite (bool_decide_eq_false_2 (S (S n) = 0%nat)) by lia.
    destruct (bool_decide _); [| done]. unfold is_char, EOF in *. lia.
  - destruct (decide (n = O)) as [-> | Hne]; [done |]. rewrite bool_decide_eq_false_2 by done. split; [done |].
    by eapply number_read_from, Hr.
Qed.

(** A zero that is the first digit, [k] behind it. *)
Lemma wp_zero_digit neg k p p5 m (Q : bool * (SecFileStream * SecScanSpec) -> world G D -> Prop) w :
  str_at (memof w) buf inp -> (S k <= length inp)%nat -> at_digits neg p p5 1 -> 
  numberState p5 = SECUREC_NUMBER_STATE_STARTED -> (forall j, enough p5 j = enough p (S j)) -> enough p 1 = true ->
  lim p5 (drop (S k) inp) = m ->
  let u := unsigned_of 1 (digits_in_front (base_of_conv (convChr p5)) 0 m) in
  (forall p', (ch p' =? EOF) = unsigned_end k p u.2 ->
     number_read neg p p' u.2 (digits_in_front (base_of_conv (convChr p5)) 0 m).1 -> Q (true, (st (k + u.2)%nat, p')) w) ->
  wp (SecInputNumberDigital fuel (st (S k), p5)) Q w.
Proof.
  intros Hs Hk Hd Hst Hen He1 <- u HQ. pose proof Hd as []. apply (wp_digital neg (S k) p5 0); try done. unfold u in HQ.
  destruct (digits_in_front _ 0 (lim p5 (drop (S k) inp))) as [v n]. cbn [fst snd unsigned_of] in *. rewrite Hst.
  change (SECUREC_NUMBER_STATE_STARTED =? SECUREC_NUMBER_STATE_STARTED) with true. rewrite orb_true_r. intros p' Hr He. replace (S k + n)%nat with (k + (1 + n))%nat by lia. apply HQ.
  - rewrite He. unfold unsigned_end. rewrite Hen. change (1 + n)%nat with (S n). replace (S k + n)%nat with (k + S n)%nat by lia.
    destruct (enough p (S n)) eqn:E; [done |]. rewrite (bool_decide_eq_false_2 (S n = 0%nat)) by lia.
    rewrite bool_decide_eq_false_2; [done |]. intros ->. by rewrite He1 in E.
  - by eapply number_read_from.
Qed.

(** A zero in front: it says that the number is octal or hexadecimal. *)
Lemma wp_unsigned_zero neg k p (Q : bool * (SecFileStream * SecScanSpec) -> world G D -> Prop) w :
  str_at (memof w) buf inp -> (k <= length inp)%nat -> conv_fields c s p -> reads_prefix = true ->
  counts p 0 -> negative p = cbool neg -> numberState p = SECUREC_NUMBER_STATE_DEFAULT -> convChr p = oriConvChr p ->
  head (lim p (drop k inp)) = Some (chr "0") ->
  let u := read_unsigned c (lim p (drop k inp)) in
  (forall p' b, (ch p' =? EOF) = unsigned_end k p u.2 ->
     match u.1 with Some mag => b = true /\ number_read neg p p' u.2 mag | None => b = false end ->
     Q (b, (st (k + u.2)%nat, p')) w) ->
  wp (x ← get_ch (st k, SECUREC_FILED_WIDTH_DEC (as_decimal p));
      if negb (SECUREC_FILED_WIDTH_ENOUGH x.2) then mret (true, x)
      else
        x ← get_ch x;
        if (u8 (ch x.2) =? chr "x") || (u8 (ch x.2) =? chr "X") then
          SecInputNumberDigital fuel (x.1, SECUREC_FILED_WIDTH_DEC (with_convChr (chr "x") x.2))
        else
          let x := if oriConvChr x.2 =? chr "i" then (x.1, with_convChr (chr "o") x.2) else x in
          let x := unget_ch x in
          SecInputNumberDigital fuel (x.1, with_numberState SECUREC_NUMBER_STATE_STARTED x.2)) Q w.
Proof.
  intros Hs Hk Hf Hpre Hc Hn Hst Hcv Hhd u HQ. destruct (lim p (drop k inp)) as [| y m] eqn:El; [done |]. apply (inj Some) in Hhd as ->.
  destruct (lim_head _ _ _ _ El) as (He & Hch & Hx & Hlt & Em). unfold u in HQ. clear u. set (p2 := as_decimal p). set (q0 := SECUREC_FILED_WIDTH_DEC p2).
  assert (forall l, lim q0 l = lim (SECUREC_FILED_WIDTH_DEC p) l) as Hlim
    by (intros l; unfold q0, p2, as_decimal; destruct (oriConvChr p =? chr "i"); [apply lim_dec_base | done]).
  assert (forall j, enough q0 j = enough p (S j)) as Hen.
  { intros j. rewrite <- enough_dec. unfold q0, p2, as_decimal. destruct (oriConvChr p =? chr "i"); [apply enough_dec_base | done]. }
  apply wp_bind, wp_get_ch; [done | done | lia |]. unfold after_ch. rewrite bool_decide_eq_true_2 by done. rewrite Hch.
  set (q1 := with_ch _ _). cbn [fst snd]. change (SECUREC_FILED_WIDTH_ENOUGH q1) with (enough q0 0). rewrite Hen.
  assert (at_digits neg p q1 1 /\ convChr q1 = convChr p2 /\ numberState q1 = SECUREC_NUMBER_STATE_DEFAULT) as (Hd1 & Hcv1 & Hst1).
  { destruct (dec_fields p2) as [wd Hwd]. unfold q1, q0. rewrite Hwd. unfold p2, as_decimal. destruct Hf, Hc.
    destruct (oriConvChr p =? chr "i"); (split_and!; [split; [by split | by split | done .. ] | done | done]). }
  destruct (enough p 1) eqn:He1; cbn [negb].
  2: { apply wp_ret. rewrite lim_none in Em by (by rewrite enough_dec). subst m.
    assert (read_unsigned c [chr "0"] = (Some 0, 1%nat)) as Eu by (unfold read_unsigned; clear - Hpre; unfold reads_prefix in Hpre; by destruct c).
    rewrite Eu in HQ. cbn [fst snd] in HQ. rewrite Nat.add_1_r in HQ. apply HQ.
    - unfold unsigned_end. by rewrite He1.
    - split; [done |]. destruct Hd1 as [A1 [B1 B2 B3] A3 A4 A5]. split; [| done | done | done].
      rewrite stored_zero, B2. change (u64 0) with 0. by destruct (conv_bits_cases c s) as [-> | [-> | [-> | ->]]]. }
  apply wp_bind, wp_get_ch; [done | done | lia |].
  assert ((u8 (ch (after_ch buf inp (S k) q1).2) =? chr "x") || (u8 (ch (after_ch buf inp (S k) q1).2) =? chr "X") = hex_prefix (chr "0" :: m)) as Ex.
  { cbn [after_ch snd ch with_ch hex_prefix]. change (chr "0" =? chr "0") with true. cbn [andb]. rewrite Em.
    destruct (drop (S k) inp) as [| y l] eqn:E2.
    - rewrite (ch_at_nil _ _ E2). assert (lim (SECUREC_FILED_WIDTH_DEC p) [] = []) as -> by (unfold lim; destruct (_ =? _); [done | apply take_nil]). done.
    - destruct (ch_at_drop _ Hchars _ _ _ E2) as (Hy1 & Hy2 & _ & _). rewrite Hy1, u8_char by done. by rewrite lim_enough by (by rewrite enough_dec). }
  rewrite Ex. destruct (hex_prefix (chr "0" :: m)) eqn:Hhex.
  - assert (exists y m', m = y :: m') as (y & m' & ->) by (destruct m as [| y m']; [done | by eexists _, _]).
    destruct (lim_head (SECUREC_FILED_WIDTH_DEC p) (S k) y m' (eq_sym Em)) as (_ & Hy & Hyc & Hlt2 & Em2).
    assert (read_unsigned c (chr "0" :: y :: m') = unsigned_of 2 (digits_in_front 16 0 m')) as Eu.
    { unfold read_unsigned. fold reads_prefix. rewrite Hpre, Hhex. clear - Hpre. unfold reads_prefix in Hpre. by destruct c. }
    rewrite Eu in HQ. unfold after_ch. rewrite bool_decide_eq_true_2 by done.
    set (q2 := with_ch _ _). cbn [fst snd].
    eapply (wp_hex_prefix neg k p _ m'); [done | lia | | | | | | | exact HQ].
    + destruct (dec_fields (with_convChr (chr "x") q2)) as [wd Hwd]. rewrite Hwd. destruct Hd1 as [[] [] ? ? ?].
      split; [by split | by split | done | done | cbn in *; lia].
    + by destruct (dec_fields (with_convChr (chr "x") q2)) as [wd ->].
    + by destruct (dec_fields (with_convChr (chr "x") q2)) as [wd ->].
    + destruct (dec_fields (with_convChr (chr "x") q2)) as [wd ->]. cbn. by rewrite Hy.
    + intros j. rewrite enough_dec_base, enough_dec. change (enough q2 (S j)) with (enough q0 (S j)). apply Hen.
    + rewrite lim_dec_base, Em2. apply lim_dec_ext.
      * change (widthSet q2) with (widthSet q0). unfold q0, p2, as_decimal. rewrite !dec_set. by destruct (oriConvChr p =? chr "i").
      * change (width q2) with (width q0). unfold q0, p2, as_decimal. rewrite !dec_width. by destruct (oriConvChr p =? chr "i").
  - set (q2 := if oriConvChr q1 =? chr "i" then with_convChr (chr "o") q1 else q1).
    replace (if oriConvChr (after_ch buf inp (S k) q1).2 =? chr "i" then ((after_ch buf inp (S k) q1).1, with_convChr (chr "o") (after_ch buf inp (S k) q1).2)
       else after_ch buf inp (S k) q1) with (after_ch buf inp (S k) q2)
      by (unfold q2; change (oriConvChr (after_ch buf inp (S k) q1).2) with (oriConvChr q1); by destruct (oriConvChr q1 =? chr "i")).
    cbv zeta. rewrite unget_next by (done || lia). cbn [fst snd]. set (p5 := with_numberState _ _).
    assert (base_of_conv (convChr p5) = match c with Ci => 8 | _ => 16 end) as Eb.
    { change (convChr p5) with (convChr q2). unfold q2. pose proof (cf_ori _ _ _ (ad_fields _ _ _ _ Hd1)) as Ho. rewrite Ho.
      pose proof (cf_ori _ _ _ Hf) as Ho'. clear - Hpre Hcv1 Hcv Ho'. unfold reads_prefix in Hpre.
      destruct (SECUREC_TO_LOWERCASE (conv_char c) =? chr "i") eqn:E; [by destruct c |].
      rewrite Hcv1. unfold p2, as_decimal. rewrite Ho', E, Hcv, Ho'. by destruct c. }
    assert (let r := digits_in_front (base_of_conv (convChr p5)) 0 m in read_unsigned c (chr "0" :: m) = (Some r.1, S r.2)) as Eu.
    { rewrite Eb. unfold read_unsigned. fold reads_prefix. rewrite Hpre, Hhex. cbn [andb]. clear - Hpre. unfold reads_prefix in Hpre.
      assert (forall b, 0 < b -> digits_in_front b 0 (chr "0" :: m) = let r := digits_in_front b 0 m in (r.1, S r.2)) as E.
      { intros b Hb. cbn [digits_in_front]. rewrite zero_digit by done. by rewrite Z.mul_0_r. }
      destruct c; try done; by rewrite E. }
    cbv zeta in Eu. rewrite Eu in HQ. cbn [fst snd] in HQ.
    eapply (wp_zero_digit neg k p p5 m); [done | lia | | done | | done | | ].
    + unfold p5, q2. destruct Hd1 as [[] [] ? ? ?].
      destruct (oriConvChr q1 =? chr "i"); (split; [by split | by split | done | done | cbn in *; lia]).
    + intros j. rewrite <- Hen. unfold p5, q2. by destruct (oriConvChr q1 =? chr "i").
    + rewrite Em, <- Hlim. unfold p5, q2. by destruct (oriConvChr q1 =? chr "i").
    + cbn [unsigned_of snd]. intros p' H1 H2. by apply HQ.
Qed.

Lemma wp_magnitude neg k p (Q : bool * (SecFileStream * SecScanSpec) -> world G D -> Prop) w :
  str_at (memof w) buf inp -> (k <= length inp)%nat -> conv_fields c s p -> c <> Cc -> c <> Cs ->
  counts p 0 -> negative p = cbool neg -> numberState p = SECUREC_NUMBER_STATE_DEFAULT -> convChr p = oriConvChr p -> ch p = ch_at k ->
  let u := read_unsigned c (lim p (drop k inp)) in
  (forall p' b, (ch p' =? EOF) = unsigned_end k p u.2 ->
     match u.1 with Some mag => b = true /\ number_read neg p p' u.2 mag | None => b = false end ->
     Q (b, (st (k + u.2)%nat, p')) w) ->
  wp (input_unsigned fuel (st k, p)) Q w.
Proof.
  intros Hs Hk Hf HCc HCs Hc Hn Hst Hcv Hch u HQ. unfold input_unsigned. cbn [fst snd].
  replace (if oriConvChr p =? chr "i" then (st k, with_convChr (chr "d") p) else (st k, p)) with (st k, as_decimal p)
    by (unfold as_decimal; by destruct (oriConvChr p =? chr "i")).
  cbn [fst snd]. rewrite (ori_prefix (as_decimal p)) by (unfold as_decimal; destruct Hf; destruct (oriConvChr p =? chr "i"); by split).
  assert ((ch (as_decimal p) =? chr "0") && reads_prefix && SECUREC_FILED_WIDTH_ENOUGH (as_decimal p) =
    (ch_at k =? chr "0") && reads_prefix && enough p 0) as -> by (rewrite <- Hch; unfold as_decimal; by destruct (oriConvChr p =? chr "i")).
  destruct ((ch_at k =? chr "0") && reads_prefix && enough p 0) eqn:E.
  - apply andb_true_iff in E as [E He]. apply andb_true_iff in E as [E0 Hpre]. apply Z.eqb_eq in E0.
    apply (wp_unsigned_zero neg k p); try done. destruct (drop k inp) as [| y l] eqn:El; [by rewrite (ch_at_nil _ _ El) in E0 |].
    destruct (ch_at_drop _ Hchars _ _ _ El) as (Hy & _ & _ & _). rewrite lim_enough by done. cbn [head]. by rewrite <- Hy, E0.
  - assert (reads_prefix = true -> head (lim p (drop k inp)) <> Some (chr "0")) as Hhd.
    { intros Hpre. rewrite Hpre, andb_true_r in E. destruct (lim p (drop k inp)) as [| y m] eqn:El; [done |].
      destruct (lim_head _ _ _ _ El) as (He & Hy & _ & _ & _). rewrite He, andb_true_r, Hy in E. intros [= ->]. done. }
    apply (wp_unsigned_plain neg k p); try done.
    + destruct reads_prefix; [| done]. by apply hex_prefix_head, Hhd.
    + intros E1. apply Hhd. unfold reads_prefix. by rewrite E1.
Qed.

(** The end of the text was seen. *)
Definition number_end (k : nat) (p : SecScanSpec) (x : Z) (m : nat) : bool :=
  if is_sign x && negb (enough p 1) then bool_decide (k + 1 = length inp)%nat else enough p m && bool_decide (k + m = length inp)%nat.

Lemma wp_input_number k p x l (Q : bool * (SecFileStream * SecScanSpec) -> world G D -> Prop) w :
  str_at (memof w) buf inp -> drop k inp = x :: l -> ch p = x -> conv_fields c s p -> c <> Cc -> c <> Cs ->
  counts p 0 -> negative p = 0 -> numberState p = SECUREC_NUMBER_STATE_DEFAULT -> convChr p = oriConvChr p -> enough p 0 = true ->
  let t := read_int c (lim p (x :: l)) in
  (forall p' b, (ch p' =? EOF) = number_end k p x (it_len t) ->
     match it_mag t with Some mag => b = true /\ number_read (it_neg t) p p' (it_len t) mag | None => b = false end ->
     Q (b, (st (k + it_len t)%nat, p')) w) ->
  wp (SecInputNumber fuel (st k, p)) Q w.
Proof.
  intros Hs El Hch Hf HCc HCs Hc Hn Hst Hcv He t HQ. unfold SecInputNumber. apply wp_bind.
  destruct (ch_at_drop _ Hchars _ _ _ El) as (Hcc & Hx & Hl & Hlt).
  eapply (wp_sign k p x l); try done. set (n := if is_sign x then 1%nat else 0%nat). intros p1 Hd Hch1 Hcv1 Hst1 Hlim Hen.
  pose proof Hd as [A1 A2 A3 A4 A5]. assert (n <= 1)%nat as Hn1 by (unfold n; destruct (is_sign x); lia).
  eapply (wp_magnitude (x =? chr "-") (k + n) p1); try done;
    [lia | congruence | rewrite Hcv1, Hcv, (cf_ori _ _ _ Hf); by rewrite (cf_ori _ _ _ A1) |].
  assert (t = let r := read_unsigned c (lim p1 (drop (k + n) inp)) in IntText (x =? chr "-") r.1 (n + r.2)) as Et.
  { unfold t. rewrite Hlim. rewrite lim_enough by done. cbn [read_int tail]. unfold n. by destruct (is_sign x). }
  cbv zeta in Et |- *. rewrite Et in HQ. cbn [it_neg it_mag it_len] in HQ. clear t Et.
  assert (enough p1 0 = false -> (read_unsigned c (lim p1 (drop (k + n) inp))).2 = O) as Hnone.
  { intros E. rewrite lim_none by done. by destruct c. }
  destruct (read_unsigned c (lim p1 (drop (k + n) inp))) as [o m]. cbn [fst snd] in *.
  intros p' b He' Hr. rewrite <- Nat.add_assoc. apply HQ.
  - rewrite He'. unfold unsigned_end, number_end. rewrite Hen. rewrite Hen, Nat.add_0_r in Hnone. rewrite Hch1, Nat.add_assoc.
    unfold n in *. destruct (is_sign x); cbn [andb].
    + rewrite (ch_at_eof inp Hchars (k + 1)) by lia. destruct (enough p 1) eqn:E1; cbn [negb].
      * destruct (enough p (1 + m)) eqn:E; [done |]. rewrite bool_decide_eq_false_2; [done |]. intros ->. change (1 + 0)%nat with 1%nat in E. by rewrite E1 in E.
      * rewrite Hnone by done. rewrite Nat.add_0_r, E1. by rewrite bool_decide_eq_true_2 by done.
    + destruct (enough p (0 + m)) eqn:E; [done |]. rewrite bool_decide_eq_false_2; [done |]. intros ->. change (0 + 0)%nat with 0%nat in E. by rewrite He in E.
  - destruct o as [mag |]; [| done]. destruct Hr as [-> Hr]. split; [done |]. by eapply number_read_from.
Qed.
End Number.
