(* ===== verification/ScanfFormat.v ===== *)
(** * ScanfFormat: formatted input reads its format *)
From stdpp Require Import prelude gmap list strings.
From Stdlib Require Import ZArith Lia.
From S2P Require Import Prelude Hw Mem Securec Printf PrintfSpec PrintfProps PrintfConv PrintfLoop Scanf ScanfSpec ScanfProps.
Local Open Scope Z_scope.

Lemma str_at_skip m f (xs ys : list Z) : str_at m f (xs ++ ys) -> str_at m (f + Z.of_nat (length xs)) ys.
Proof. intros H. apply (str_at_drop _ _ _ (length xs)) in H; [| rewrite length_app; lia]. by rewrite drop_app_length in H. Qed.

Lemma is_digit_char c : is_digit c -> SecIsDigit c = true.
Proof. unfold is_digit. change (chr "0") with 48. change (chr "9") with 57. intros H. unfold SecIsDigit, isdigit. rewrite wrap_id by (split; lia). change (chr "0") with 48. change (chr "9") with 57. lia. Qed.

Section Format.
Context {G D : Type} `{MD : Machine D} `{HM : !Has G mem}.
Implicit Types (w : world G D).

(** ** The width *)
Definition with_digits (ds : list Z) (p : SecScanSpec) : SecScanSpec :=
  match ds with [] => p | _ => with_fieldWidth (number_from (width p) ds) (with_widthSet 1 p) end.
Lemma wp_scan_width fuel f ds c rest p (Q : option (Z * SecScanSpec) -> world G D -> Prop) w :
  str_at (memof w) f (ds ++ c :: rest) -> Forall is_digit ds -> SecIsDigit c = false -> 0 <= width p ->
  number_from (width p) ds <= SECUREC_MAX_WIDTH_LEN -> (length ds < fuel)%nat ->
  Q (Some (f + Z.of_nat (length ds), with_digits ds p)) w -> wp (SecDecodeScanWidth fuel f p) Q w.
Proof.
  intros Hs Hds Hc. unfold SecDecodeScanWidth. revert f p fuel Hs. induction Hds as [| d ds Hd Hds IH]; intros f p fuel Hs Hw Hm Hf HQ;
    (destruct fuel as [| fuel]; [cbn in Hf; lia |]); rewrite loop_S; apply wp_bind, wp_bind; cbn [fst snd].
  - apply str_at_cons in Hs as (Hl & _ & _). eapply wp_ld8; [exact Hl |]. rewrite Hc. apply wp_ret, wp_ret.
    cbn [length with_digits] in HQ. by rewrite Z.add_0_r in HQ.
  - apply str_at_cons in Hs as (Hl & _ & Hs). eapply wp_ld8; [exact Hl |]. rewrite is_digit_char by done.
    pose proof (number_from_small (width p) d ds Hw Hd Hds Hm) as Hle.
    change (width (with_widthSet 1 p)) with (width p). unfold SECUREC_MUL_TEN_ADD_BEYOND_MAX. replace (_ <? width p) with false by lia.
    rewrite mul_ten, digit_value by done. apply wp_ret. apply IH; [done | | | cbn in Hf; lia |].
    + cbn [width with_fieldWidth]. pose proof Hd as [Hd1 _]. lia.
    + exact Hm.
    + replace (f + 1 + Z.of_nat (length ds)) with (f + Z.of_nat (length (d :: ds))) by (cbn [length]; lia).
      destruct ds; exact HQ.
Qed.

(** ** The qualifiers *)
Definition is_qualifier (c : Z) : bool := existsb (Z.eqb c) (chars "FNhjtzLqlw*I").
Lemma wp_no_qualifier f c rest p (Q : Z * SecScanSpec * bool -> world G D -> Prop) w :
  str_at (memof w) f (c :: rest) -> is_qualifier c = false -> Q (f, p, true) w -> wp (SecDecodeScanQualifier f p) Q w.
Proof.
  intros Hs Hc HQ. apply str_at_cons in Hs as (Hl & _ & _). unfold SecDecodeScanQualifier. apply wp_bind. eapply wp_ld8; [exact Hl |].
  unfold is_qualifier in Hc. change (chars "FNhjtzLqlw*I") with
    [chr "F"; chr "N"; chr "h"; chr "j"; chr "t"; chr "z"; chr "L"; chr "q"; chr "l"; chr "w"; chr "*"; chr "I"] in Hc.
  cbn [existsb] in Hc. rewrite !orb_false_iff in Hc. destruct Hc as (-> & -> & -> & -> & -> & -> & -> & -> & -> & -> & -> & -> & _).
  by apply wp_ret.
Qed.

(** What a size says. *)
Definition short_int (p : SecScanSpec) : SecScanSpec := with_isWCharOrLong (-1) (with_numberWidth (numberWidth p - 1) p).
Definition sized (s : int_size) (p : SecScanSpec) : SecScanSpec :=
  match s with
  | HH => short_int (short_int p)
  | H => short_int p
  | Plain => p
  | L => with_isWCharOrLong 1 (with_numberArgType 1 (with_numberWidth SECUREC_NUM_WIDTH_LONG p))
  | LL => with_numberWidth SECUREC_NUM_WIDTH_LONG_LONG (with_numberArgType 1 p)
  | J | ZZ | T => with_numberArgType 1 (with_numberWidth SECUREC_NUM_WIDTH_LONG_LONG p)
  end.

Abbreviation flag_body fuel := (fun x : Z * SecScanSpec =>
    r ← SecDecodeScanWidth fuel (x.1 + 1) x.2;
    match r with
    | None => mret (inr None)
    | Some (fmt, p) =>
        q ← SecDecodeScanQualifier fmt p;
        let '(fmt, p, finishFlag) := q in
        mret (if (finishFlag : bool) then inr (Some (fmt, p)) else inl (fmt, p))
    end).
Abbreviation flag_loop n fuel x := (loop n (flag_body fuel) x : M G D (option (Z * SecScanSpec))).

(** A round: digits, and the qualifier [c] behind them. *)
Lemma wp_flag_round n fuel f a ds c rest p p2 off fin (Q : option (Z * SecScanSpec) -> world G D -> Prop) w :
  str_at (memof w) f (a :: ds ++ c :: rest) -> Forall is_digit ds -> SecIsDigit c = false -> 0 <= width p ->
  number_from (width p) ds <= SECUREC_MAX_WIDTH_LEN -> (length ds < fuel)%nat ->
  (forall f' Q', str_at (memof w) f' (c :: rest) -> Q' (f' + off, p2, fin) w -> wp (SecDecodeScanQualifier f' (with_digits ds p)) Q' w) ->
  (str_at (memof w) (f + 1 + Z.of_nat (length ds)) (c :: rest) -> let f' := f + 1 + Z.of_nat (length ds) + off in
   if (fin : bool) then Q (Some (f', p2)) w else wp (flag_loop n fuel (f', p2)) Q w) ->
  wp (flag_loop (S n) fuel (f, p)) Q w.
Proof.
  intros Hs Hds Hc Hw Hm Hf Hq HQ. rewrite loop_S. apply wp_bind, wp_bind. cbn [fst snd].
  apply str_at_cons in Hs as (_ & _ & Hs). eapply wp_scan_width; [exact Hs | done .. |]. apply str_at_skip in Hs. specialize (HQ Hs).
  apply wp_bind, Hq; [done |]. apply wp_ret. destruct fin; [by apply wp_ret | done].
Qed.

Definition is_conv_char (c : Z) : Prop := is_qualifier c = false /\ SecIsDigit c = false.

Lemma wp_flag_mid n fuel f a c rest p p2 off fin (Q : option (Z * SecScanSpec) -> world G D -> Prop) w :
  str_at (memof w) f (a :: c :: rest) -> SecIsDigit c = false -> 0 <= width p <= SECUREC_MAX_WIDTH_LEN -> (0 < fuel)%nat ->
  (forall f' Q', str_at (memof w) f' (c :: rest) -> Q' (f' + off, p2, fin) w -> wp (SecDecodeScanQualifier f' p) Q' w) ->
  (str_at (memof w) (f + 1) (c :: rest) -> if (fin : bool) then Q (Some (f + 1 + off, p2)) w else wp (flag_loop n fuel (f + 1 + off, p2)) Q w) ->
  wp (flag_loop (S n) fuel (f, p)) Q w.
Proof.
  intros Hs Hc Hw Hf Hq HQ. apply (wp_flag_round n fuel f a [] c rest p p2 off fin); try done; [lia | cbn; lia |].
  cbn [length]. by replace (f + 1 + Z.of_nat 0) with (f + 1) by lia.
Qed.
Lemma wp_flag_last n fuel f a c rest p (Q : option (Z * SecScanSpec) -> world G D -> Prop) w :
  str_at (memof w) f (a :: c :: rest) -> is_conv_char c -> 0 <= width p <= SECUREC_MAX_WIDTH_LEN -> (0 < fuel)%nat ->
  Q (Some (f + 1, p)) w -> wp (flag_loop (S n) fuel (f, p)) Q w.
Proof.
  intros Hs [Hq Hc] Hw Hf HQ. apply (wp_flag_mid n fuel f a c rest p p 0 true); try done.
  - intros f' Q' Hs' HQ'. eapply wp_no_qualifier; [done | done |]. by rewrite Z.add_0_r in HQ'.
  - intros _. by rewrite Z.add_0_r.
Qed.

Lemma wp_qualifier f c rest p (Q : Z * SecScanSpec * bool -> world G D -> Prop) w :
  str_at (memof w) f (c :: rest) ->
  Q (f, if c =? chr "h" then short_int p else if c =? chr "*" then with_suppress 1 p
        else with_numberArgType 1 (with_numberWidth SECUREC_NUM_WIDTH_LONG_LONG p), false) w ->
  In c (chars "hjtz*") -> wp (SecDecodeScanQualifier f p) Q w.
Proof.
  intros Hs HQ Hc. apply str_at_cons in Hs as (Hl & _ & _). unfold SecDecodeScanQualifier. apply wp_bind. eapply wp_ld8; [exact Hl |].
  destruct Hc as [<- | [<- | [<- | [<- | [<- | []]]]]]; exact HQ.
Qed.
Lemma wp_qualifier_l f c rest p (Q : Z * SecScanSpec * bool -> world G D -> Prop) w :
  str_at (memof w) f (chr "l" :: c :: rest) ->
  Q (if c =? chr "l" then (f + 1, sized LL p) else (f, sized L p), false) w -> wp (SecDecodeScanQualifier f p) Q w.
Proof.
  intros Hs HQ. apply str_at_cons in Hs as (Hl & _ & Hs). apply str_at_cons in Hs as (Hc & _ & _). unfold SecDecodeScanQualifier.
  apply wp_bind. eapply wp_ld8; [exact Hl |]. change (wp (r ← SecDecodeScanQualifierL f p; mret (r, false)) Q w).
  unfold SecDecodeScanQualifierL, at_char. apply wp_bind, wp_bind, wp_bind. eapply wp_ld8; [exact Hc |]. apply wp_ret.
  destruct (c =? chr "l"); by apply wp_ret, wp_ret.
Qed.

Lemma with_digits_width ds p : width (with_digits ds p) = number_from (width p) ds.
Proof. by destruct ds. Qed.

(** The size and the character of the conversion, behind the width. *)
Lemma wp_flag_size s n fuel f a ds c rest p (Q : option (Z * SecScanSpec) -> world G D -> Prop) w :
  str_at (memof w) f (a :: ds ++ print_size s ++ c :: rest) -> Forall is_digit ds -> is_conv_char c -> 0 <= width p ->
  number_from (width p) ds <= SECUREC_MAX_WIDTH_LEN -> (length ds < fuel)%nat -> (3 <= n)%nat ->
  Q (Some (f + 1 + Z.of_nat (length ds) + Z.of_nat (length (print_size s)), sized s (with_digits ds p))) w ->
  wp (flag_loop n fuel (f, p)) Q w.
Proof.
  intros Hs Hds Hcc Hw Hm Hf Hn HQ. pose proof Hcc as [Hq Hc]. pose proof (number_from_ge (width p) ds Hw Hds) as Hge.
  assert ((c =? chr "l") = false) as Hl by (destruct (Z.eqb_spec c (chr "l")) as [-> |]; done).
  destruct n as [| [| [| n]]]; [lia .. |].
  rewrite <- (with_digits_width ds p) in Hm, Hge. set (q := with_digits ds p) in *.
  assert (forall q2, width q2 = width q -> 0 <= width q2 <= SECUREC_MAX_WIDTH_LEN) as Hok by (intros q2 ->; lia).
  assert (0 < fuel)%nat as Hf0 by lia. set (f1 := f + 1 + Z.of_nat (length ds)) in *.
  (* a size that is one qualifier, not an l *)
  assert (forall x, In x (chars "hjtz*") -> str_at (memof w) f (a :: ds ++ x :: c :: rest) ->
    Q (Some (f1 + 1, if x =? chr "h" then short_int q else if x =? chr "*" then with_suppress 1 q
        else with_numberArgType 1 (with_numberWidth SECUREC_NUM_WIDTH_LONG_LONG q))) w ->
    wp (flag_loop (S (S (S n))) fuel (f, p)) Q w) as Hone.
  { intros x Hx Hsx HQx.
    eapply (wp_flag_round _ fuel f a ds x _ p _ 0 false); [exact Hsx | done | | done | by rewrite <- with_digits_width | lia | |].
    { by destruct Hx as [<- | [<- | [<- | [<- | [<- | []]]]]]. }
    { intros f' Q' Hs' HQ'. rewrite Z.add_0_r in HQ'. eapply wp_qualifier; [exact Hs' | exact HQ' | done]. }
    intros Hs'. cbv zeta. fold f1. rewrite Z.add_0_r. eapply wp_flag_last; [exact Hs' | done | | done | exact HQx].
    apply Hok. by destruct Hx as [<- | [<- | [<- | [<- | [<- | []]]]]]. }
  destruct s; cbn [print_size app] in Hs; cbn [print_size sized] in HQ.
  - change (chars "hh") with [chr "h"; chr "h"] in *. cbn [app length] in *.
    eapply (wp_flag_round _ fuel f a ds (chr "h") _ p (short_int q) 0 false); [exact Hs | done | done | done | by rewrite <- with_digits_width | lia | |].
    { intros f' Q' Hs' HQ'. rewrite Z.add_0_r in HQ'. eapply wp_qualifier; [exact Hs' | done | by left]. }
    intros Hs'. cbv zeta. fold f1 in Hs' |- *. rewrite Z.add_0_r.
    eapply (wp_flag_mid _ fuel f1 (chr "h") (chr "h") _ _ (short_int (short_int q)) 0 false); [exact Hs' | done | by apply Hok | done | |].
    { intros f' Q' Hs2 HQ'. rewrite Z.add_0_r in HQ'. eapply wp_qualifier; [exact Hs2 | done | by left]. }
    intros Hs2. rewrite Z.add_0_r. eapply wp_flag_last; [exact Hs2 | done | by apply Hok | done |].
    by replace (f1 + 1 + 1) with (f1 + Z.of_nat 2) by lia.
  - apply (Hone (chr "h")); [by left | exact Hs | exact HQ].
  - eapply (wp_flag_round _ fuel f a ds c _ p q 0 true); [exact Hs | done | done | done | by rewrite <- with_digits_width | lia | |].
    { intros f' Q' Hs' HQ'. rewrite Z.add_0_r in HQ'. by eapply wp_no_qualifier. }
    intros _. exact HQ.
  - change (chars "l") with [chr "l"] in *. cbn [app length] in *.
    eapply (wp_flag_round _ fuel f a ds (chr "l") _ p (sized L q) 0 false); [exact Hs | done | done | done | by rewrite <- with_digits_width | lia | |].
    { intros f' Q' Hs' HQ'. rewrite Z.add_0_r in HQ'. eapply wp_qualifier_l; [exact Hs' |]. by rewrite Hl. }
    intros Hs'. cbv zeta. fold f1 in Hs' |- *. rewrite Z.add_0_r. eapply wp_flag_last; [exact Hs' | done | by apply Hok | done | exact HQ].
  - change (chars "ll") with [chr "l"; chr "l"] in *. cbn [app length] in *.
    eapply (wp_flag_round _ fuel f a ds (chr "l") _ p (sized LL q) 1 false); [exact Hs | done | done | done | by rewrite <- with_digits_width | lia | |].
    { intros f' Q' Hs' HQ'. by eapply wp_qualifier_l; [exact Hs' |]. }
    intros Hs'. cbv zeta. fold f1 in Hs' |- *. apply str_at_cons in Hs' as (_ & _ & Hs').
    eapply wp_flag_last; [exact Hs' | done | by apply Hok | done |]. by replace (f1 + 1 + 1) with (f1 + Z.of_nat 2) by lia.
  - apply (Hone (chr "j")); [right; by left | exact Hs | exact HQ].
  - apply (Hone (chr "z")); [do 3 right; by left | exact Hs | exact HQ].
  - apply (Hone (chr "t")); [do 2 right; by left | exact Hs | exact HQ].
Qed.

(** A whole directive, up to its conversion. *)
Definition directive_spec (d : scan_directive) (p : SecScanSpec) : SecScanSpec :=
  sized (sd_size d) (with_digits (default [] (sd_width d)) (if sd_suppress d then with_suppress 1 p else p)).
Definition directive_front (d : scan_directive) : list Z :=
  [chr "%"] ++ (if sd_suppress d then [chr "*"] else []) ++ default [] (sd_width d) ++ print_size (sd_size d).
Lemma directive_front_print d : scan_directive_print d = directive_front d ++ scan_conv_print (sd_conv d).
Proof. unfold scan_directive_print, directive_front. by rewrite <- !app_assoc. Qed.

Lemma wp_scan_flag d fuel f c rest p (Q : option (Z * SecScanSpec) -> world G D -> Prop) w :
  str_at (memof w) f (directive_front d ++ c :: rest) -> is_conv_char c -> scan_directive_ok d -> width p = 0 ->
  (length (directive_front d) + 4 <= fuel)%nat ->
  Q (Some (f + Z.of_nat (length (directive_front d)), directive_spec d p)) w -> wp (SecDecodeScanFlag fuel f p) Q w.
Proof.
  intros Hs Hc [_ Hok] Hw Hf HQ. unfold SecDecodeScanFlag. unfold directive_front, directive_spec in *.
  set (ds := default [] (sd_width d)) in *.
  assert (Forall is_digit ds /\ number_from 0 ds <= SECUREC_MAX_WIDTH_LEN) as [Hds Hm].
  { unfold ds. destruct (sd_width d) as [ds' |]; [by split; [apply Hok | apply Hok] | by split]. }
  rewrite !length_app in Hf, HQ. rewrite <- !app_assoc in Hs. cbn [length app] in Hf, HQ, Hs.
  destruct (sd_suppress d); cbn [length app] in Hf, HQ, Hs.
  - destruct fuel as [| fuel]; [lia |].
    eapply (wp_flag_mid fuel (S fuel) f (chr "%") (chr "*") _ p (with_suppress 1 p) 0 false); [exact Hs | done | rewrite Hw; done | lia | |].
    { intros f' Q' Hs' HQ'. rewrite Z.add_0_r in HQ'. eapply wp_qualifier; [exact Hs' | exact HQ' | do 4 right; by left]. }
    intros Hs'. rewrite Z.add_0_r.
    eapply (wp_flag_size (sd_size d)); [exact Hs' | done | done | change (width (with_suppress 1 p)) with (width p); lia |
      change (width (with_suppress 1 p)) with (width p); by rewrite Hw | lia | lia |].
    by replace (f + 1 + 1 + Z.of_nat (length ds) + Z.of_nat (length (print_size (sd_size d))))
      with (f + Z.of_nat (S (S (length ds + length (print_size (sd_size d)))))) by lia.
  - eapply (wp_flag_size (sd_size d)); [exact Hs | done | done | lia | by rewrite Hw | lia | lia |].
    by replace (f + 1 + Z.of_nat (length ds) + Z.of_nat (length (print_size (sd_size d))))
      with (f + Z.of_nat (S (length ds + length (print_size (sd_size d))))) by lia.
Qed.
End Format.

(** ** The set of a bracket *)
Definition in_bits (t : list Z) (c : Z) : bool := Z.testbit (nth (Z.to_nat (c / 8)) t 0) (c mod 8).

Lemma bracket_value c : fits 8 c -> SECUREC_BRACKET_VALUE c = 2 ^ (c mod 8).
Proof.
  intros Hc. unfold SECUREC_BRACKET_VALUE. change 7 with (Z.ones 3). rewrite Z.land_ones, Z.shiftl_mul_pow2, Z.mul_1_l by (try apply Z.mod_pos_bound; lia).
  change (2 ^ 3) with 8. apply wrap_id. pose proof (Z.mod_pos_bound c 8 ltac:(lia)). split; [apply Z.pow_nonneg; lia |].
  apply Z.pow_lt_mono_r; lia.
Qed.
Lemma bracket_char c : fits 8 c -> Z.land c 0xff = c.
Proof. intros Hc. change 0xff with (Z.ones 8). rewrite Z.land_ones by lia. by apply Z.mod_small. Qed.

Lemma set_bit_length t c : length (SecBracketSetBit t c) = length t.
Proof. apply length_insert. Qed.
Lemma set_bit_in t c x : length t = 32%nat -> fits 8 c -> fits 8 x -> in_bits (SecBracketSetBit t c) x = (x =? c) || in_bits t x.
Proof.
  intros Hl Hc Hx. unfold in_bits, SecBracketSetBit. rewrite bracket_char, bracket_value by done. unfold SECUREC_BRACKET_INDEX.
  rewrite Z.shiftr_div_pow2 by lia. change (2 ^ 3) with 8. unfold fits in *. change (2 ^ 8) with 256 in *.
  assert (forall y, 0 <= y < 256 -> (Z.to_nat (y / 8) < 32)%nat) as Hi by (intros y Hy; pose proof (Z.div_lt_upper_bound y 8 32); pose proof (Z.div_pos y 8); lia).
  pose proof (Z.mod_pos_bound x 8 ltac:(lia)). pose proof (Z.mod_pos_bound c 8 ltac:(lia)).
  pose proof (Z.div_mod x 8 ltac:(lia)). pose proof (Z.div_mod c 8 ltac:(lia)).
  rewrite !nth_lookup. destruct (decide (x / 8 = c / 8)) as [E | E].
  - rewrite E, list_lookup_insert_eq by (rewrite Hl; by apply Hi). cbn [from_option id].
    rewrite Z.lor_spec, orb_comm. f_equal. rewrite Z.pow2_bits_eqb by lia. destruct (Z.eqb_spec x c), (Z.eqb_spec (c mod 8) (x mod 8)); lia.
  - rewrite list_lookup_insert_ne.
    + replace (x =? c) with false; [done |]. symmetry. apply Z.eqb_neq. intros ->. done.
    + pose proof (Z.div_pos x 8). pose proof (Z.div_pos c 8). lia.
Qed.
Lemma bracket_bits_length n t a b : length (bracket_bits n t a b) = length t.
Proof. revert t a. induction n as [| n IH]; intros t a; cbn; rewrite ?IH; apply set_bit_length. Qed.
Lemma bracket_bits_in n t a b x : length t = 32%nat -> 0 <= a -> a + Z.of_nat n <= 255 -> fits 8 b -> fits 8 x ->
  in_bits (bracket_bits n t a b) x = ((a <=? x) && (x <? a + Z.of_nat n)) || (x =? b) || in_bits t x.
Proof.
  revert t a. induction n as [| n IH]; intros t a Hl Ha Hn Hb Hx; cbn [bracket_bits].
  - rewrite set_bit_in by done. replace ((a <=? x) && _) with false; [done |]. change (Z.of_nat 0) with 0. lia.
  - assert (fits 8 a) as Hfa by (split; [done | change (2 ^ 8) with 256; lia]).
    rewrite IH by (rewrite ?set_bit_length; done || lia). rewrite set_bit_in by done.
    rewrite !orb_assoc. f_equal. rewrite <- !orb_assoc, (orb_comm (x =? b)), !orb_assoc. f_equal.
    replace (Z.of_nat (S n)) with (Z.of_nat n + 1) by lia. lia.
Qed.
Lemma bracket_range_in t a b x : length t = 32%nat -> fits 8 a -> fits 8 b -> a <= b -> fits 8 x ->
  in_bits (SecBracketSetBitRange t a b) x = ((a <=? x) && (x <=? b)) || in_bits t x.
Proof.
  intros Hl Ha Hb Hab Hx. unfold SecBracketSetBitRange. unfold fits in *. change (2 ^ 8) with 256 in *.
  rewrite bracket_bits_in by (unfold fits; done || lia). f_equal. rewrite Z2Nat.id by lia. lia.
Qed.

Section Bracket.
Context {G D : Type} `{MD : Machine D} `{HM : !Has G mem}.
Implicit Types (w : world G D).
Definition in_set (set : list set_item) (x : Z) : bool := existsb (in_set_item x) set.

Abbreviation set_body m := (fun x : Z * Z * list Z =>
      let '(fmt, prevChar, t) := x in
      expCh ← ld8 fmt;
      if (expCh =? 0) || (expCh =? chr "]") then mret (inr (Some (fmt, BracketTable t m)))
      else
        c ← ld8 (fmt + 1);
        if negb (expCh =? chr "-") || (prevChar =? 0) || (c =? chr "]") then
          mret (inl (fmt + 1, expCh, SecBracketSetBit t expCh))
        else
          let t := if prevChar <=? c then SecBracketSetBitRange t prevChar c
                   else SecBracketSetBit (SecBracketSetBit t (chr "-")) c in
          mret (inl (fmt + 2, 0, t))).
Abbreviation set_loop n m x := (loop n (set_body m) x : M G D (option (Z * SecBracketTable))).

Lemma wp_set_char n m f c c2 rest prev t (Q : option (Z * SecBracketTable) -> world G D -> Prop) w :
  str_at (memof w) f (c :: c2 :: rest) -> set_char c -> c <> chr "-" ->
  wp (set_loop n m (f + 1, c, SecBracketSetBit t c)) Q w -> wp (set_loop (S n) m (f, prev, t)) Q w.
Proof.
  intros Hs (_ & H0 & Hb) Hd HQ. rewrite loop_S. apply str_at_cons in Hs as (Hc & _ & Hs). apply str_at_cons in Hs as (Hc2 & _ & _).
  apply wp_bind, wp_bind. eapply wp_ld8; [exact Hc |]. replace ((c =? 0) || (c =? chr "]")) with false by lia.
  apply wp_bind. eapply wp_ld8; [exact Hc2 |]. replace (negb (c =? chr "-")) with true by lia. by apply wp_ret.
Qed.

Lemma wp_set_loop set n m f rest prev t (Q : option (Z * SecBracketTable) -> world G D -> Prop) w :
  str_at (memof w) f ((set ≫= print_set_item) ++ chr "]" :: rest) -> Forall set_item_ok set -> length t = 32%nat ->
  (length (set ≫= print_set_item) < n)%nat ->
  (forall t', length t' = 32%nat -> (forall x, fits 8 x -> in_bits t' x = in_set set x || in_bits t x) ->
     Q (Some (f + Z.of_nat (length (set ≫= print_set_item)), BracketTable t' m)) w) ->
  wp (set_loop n m (f, prev, t)) Q w.
Proof.
  intros Hs Hok. revert n f prev t Hs. induction Hok as [| i set Hi Hok IH]; intros n f prev t Hs Hl Hn HQ.
  - destruct n as [| n]; [lia |]. rewrite loop_S. cbn [mbind list_bind app length] in *. apply str_at_cons in Hs as (Hc & _ & _).
    apply wp_bind, wp_bind. eapply wp_ld8; [exact Hc |]. change ((chr "]" =? 0) || (chr "]" =? chr "]")) with true. cbv iota.
    apply wp_ret, wp_ret. rewrite Z.add_0_r in HQ. by apply HQ.
  - assert (forall xs, (i :: set) ≫= print_set_item = xs -> print_set_item i ++ (set ≫= print_set_item) = xs) as E by done.
    rewrite <- (E _ eq_refl) in Hs, Hn, HQ. clear E. rewrite length_app in Hn, HQ.
    assert (forall r : list Z, exists y r', (set ≫= print_set_item) ++ chr "]" :: rest = y :: r') as Hnext.
    { intros _. destruct (set ≫= print_set_item); by eexists _, _. }
    destruct (Hnext []) as (y & r' & Ey). destruct i as [c | a b]; cbn [print_set_item app length] in *; rewrite <- app_assoc in Hs || idtac.
    + destruct n as [| n]; [lia |]. destruct Hi as [Hc Hd]. rewrite Ey in Hs. eapply wp_set_char; [exact Hs | done | done |].
      apply str_at_cons in Hs as (_ & _ & Hs). rewrite <- Ey in Hs. apply IH; [done | by rewrite set_bit_length | lia |].
      intros t' Hl' Ht'. replace (f + 1 + Z.of_nat (length (set ≫= print_set_item))) with (f + Z.of_nat (1 + length (set ≫= print_set_item))) by lia.
      apply HQ; [done |]. intros x Hx. rewrite Ht', set_bit_in by (done || by destruct Hc). cbn [in_set existsb in_set_item]. unfold in_set.
      destruct (x =? c), (existsb _ set), (in_bits t x); done.
    + destruct n as [| [| n]]; [lia | lia |]. destruct Hi as (Ha & Hb & Had & Hab). cbn [app] in Hs. eapply wp_set_char; [exact Hs | done | done |].
      apply str_at_cons in Hs as (_ & _ & Hs). rewrite loop_S. pose proof Hs as Hs1.
      apply str_at_cons in Hs as (Hc1 & _ & Hs). apply str_at_cons in Hs as (Hc2 & _ & Hs).
      apply wp_bind, wp_bind. eapply wp_ld8; [exact Hc1 |]. change ((chr "-" =? 0) || (chr "-" =? chr "]")) with false. cbv iota.
      apply wp_bind. eapply wp_ld8; [exact Hc2 |]. destruct Ha as (Ha8 & Ha0 & Hab'). destruct Hb as (Hb8 & Hb0 & Hbb).
      change (chr "-" =? chr "-") with true. replace (negb true || (a =? 0) || (b =? chr "]")) with false by (cbn [negb]; lia).
      replace (a <=? b) with true by lia. apply wp_ret. replace (f + 1 + 2) with (f + 1 + 1 + 1) by lia.
      apply IH; [exact Hs | by unfold SecBracketSetBitRange; rewrite bracket_bits_length, set_bit_length | lia |].
      intros t' Hl' Ht'. replace (f + 1 + 1 + 1 + Z.of_nat (length (set ≫= print_set_item))) with (f + Z.of_nat (3 + length (set ≫= print_set_item))) by lia.
      apply HQ; [done |]. intros x Hx. rewrite Ht', bracket_range_in, set_bit_in by (done || by rewrite set_bit_length).
      cbn [in_set existsb in_set_item]. unfold in_set.
      assert ((x =? a) = true -> (a <=? x) && (x <=? b) = true) as Hxa by lia.
      destruct (x =? a), ((a <=? x) && (x <=? b)), (existsb _ set), (in_bits t x); cbn in *; try done; by specialize (Hxa eq_refl).
Qed.

Lemma wp_bracket neg set fuel f rest b (Q : option (Z * SecBracketTable) -> world G D -> Prop) w :
  str_at (memof w) f (scan_conv_print (Bracket neg set) ++ rest) -> scan_conv_ok (Bracket neg set) Plain -> length (table b) = 32%nat ->
  (length (scan_conv_print (Bracket neg set)) < fuel)%nat -> (forall x, fits 8 x -> in_bits (table b) x = false) ->
  (forall t, length t = 32%nat -> (forall x, fits 8 x -> in_bits t x = in_set set x) ->
     Q (Some (f + Z.of_nat (length (scan_conv_print (Bracket neg set))) - 1, BracketTable t (if neg then 0xff else 0))) w) ->
  wp (SecSetupBracketTable fuel f b) Q w.
Proof.
  intros Hs (_ & Hne & Hok & Hneg) Hl Hn Hempty HQ. unfold SecSetupBracketTable. cbn [scan_conv_print app length] in Hs, Hn, HQ.
  rewrite !length_app in Hn, HQ. cbn [length] in Hn, HQ.
  apply str_at_cons in Hs as (Hc & _ & Hs). apply wp_bind. eapply wp_ld8; [exact Hc |]. change (chr "[" =? chr "{") with false. cbv iota.
  destruct set as [| i set]; [done |]. pose proof Hok as [Hi Hok']%Forall_cons.
  assert (exists r, (i :: set) ≫= print_set_item = item_start i :: r) as [r Er] by (destruct i; by eexists).
  assert (set_char (item_start i)) as (Hi8 & Hi0 & Hib) by (destruct i; apply Hi).
  assert (forall f1, str_at (memof w) f1 (((i :: set) ≫= print_set_item) ++ chr "]" :: rest) ->
    f1 + Z.of_nat (length ((i :: set) ≫= print_set_item)) = f + Z.of_nat (S (length (if neg then [chr "^"] else []) + (length ((i :: set) ≫= print_set_item) + 1))) - 1 ->
    wp (c ← ld8 f1;
        let '(fmt, prevChar, t) := if c =? chr "]" then (f1 + 1, chr "]", SecBracketSetBit (table b) (chr "]")) else (f1, 0, table b) in
        set_loop fuel (if neg then 0xff else 0) (fmt, prevChar, t)) Q w) as Hloop.
  { intros f1 Hs1 Ef. pose proof Hs1 as Hs2. rewrite Er in Hs2. cbn [app] in Hs2. apply str_at_cons in Hs2 as (Hc1 & _ & _).
    apply wp_bind. eapply wp_ld8; [exact Hc1 |]. replace (item_start i =? chr "]") with false by lia.
    eapply (wp_set_loop (i :: set)); [exact Hs1 | done | done | lia |]. intros t Ht Hin. rewrite Ef. apply HQ; [done |].
    intros x Hx. by rewrite Hin, Hempty, orb_false_r. }
  rewrite <- app_assoc in Hs. cbn [app] in Hs. destruct neg; cbn [app length] in *.
  - apply str_at_cons in Hs as (Hc1 & _ & Hs). apply wp_bind. eapply wp_ld8; [exact Hc1 |]. change (chr "^" =? chr "^") with true. cbv iota beta.
    replace (f + 2) with (f + 1 + 1) by lia. rewrite <- app_assoc in Hs. apply (Hloop _ Hs). lia.
  - rewrite <- app_assoc in Hs. pose proof Hs as Hs1. rewrite Er in Hs1. cbn [app] in Hs1. apply str_at_cons in Hs1 as (Hc1 & _ & _).
    apply wp_bind. eapply wp_ld8; [exact Hc1 |]. replace (item_start i =? chr "^") with false.
    + apply (Hloop _ Hs). lia.
    + symmetry. apply Z.eqb_neq. intros E. specialize (Hneg eq_refl). cbn [head option_map] in Hneg. congruence.
Qed.
End Bracket.

Lemma can_input_bracket t (neg : bool) c set : length t = 32%nat -> (forall x, fits 8 x -> in_bits t x = in_set set x) -> is_char c ->
  SecCanInputForBracket SECUREC_BRACE c (BracketTable t (if neg then 0xff else 0)) = accepts (Bracket neg set) c.
Proof.
  intros Hl Ht Hc. assert (fits 8 c) as Hc8 by (unfold is_char, fits in *; change (2 ^ 8) with 256; lia).
  unfold SecCanInputForBracket. change (SECUREC_BRACE =? SECUREC_BRACE) with true. cbn [andb table mask].
  rewrite (wrap_id 32 c) by (eapply fits_mono; [| exact Hc8]; lia). rewrite bracket_char, bracket_value by done.
  cbn [accepts]. fold (in_set set c). rewrite <- Ht by done. unfold in_bits. change (SECUREC_BRACKET_INDEX c) with (Z.shiftr c 3).
  rewrite Z.shiftr_div_pow2 by lia. change (2 ^ 3) with 8. set (y := nth _ t 0). pose proof (Z.mod_pos_bound c 8 ltac:(lia)) as Hm.
  assert (forall z k, 0 <= k -> negb (Z.land z (2 ^ k) =? 0) = Z.testbit z k) as Hbit.
  { intros z k Hk. destruct (Z.testbit z k) eqn:E.
    - apply negb_true_iff, Z.eqb_neq. intros E0. apply (f_equal (fun a => Z.testbit a k)) in E0.
      rewrite Z.land_spec, E, Z.pow2_bits_true, Z.bits_0 in E0 by done. done.
    - apply negb_false_iff, Z.eqb_eq, Z.bits_inj'. intros i Hi. rewrite Z.land_spec, Z.bits_0, Z.pow2_bits_eqb by done.
      destruct (Z.eqb_spec k i) as [<- |]; [by rewrite E | apply andb_false_r]. }
  rewrite Hbit by lia. rewrite Z.lxor_spec. destruct neg.
  - change 0xff with (Z.ones 8). rewrite Z.ones_spec_low by lia. by destruct (Z.testbit y (c mod 8)).
  - rewrite Z.bits_0. by destruct (Z.testbit y (c mod 8)).
Qed.
