(* ===== verification/ScanfText.v ===== *)
(** * ScanfText: characters and strings of the text *)
From stdpp Require Import prelude gmap list strings.
From Stdlib Require Import ZArith Lia.
From S2P Require Import Prelude Hw Mem Securec Printf PrintfSpec Scanf ScanfSpec ScanfProps ScanfNumber ScanfFormat.
Local Open Scope Z_scope.

Lemma str_at_wr m a bs p l : str_at m p l -> a + Z.of_nat (length bs) <= p \/ p + Z.of_nat (length l) + 1 <= a -> str_at (wr m a bs) p l.
Proof. intros [Hr Hf] H. split; [| done]. rewrite rd_wr_ne; [done | lia]. Qed.

Section Text.
Context {G D : Type} `{MD : Machine D} `{HM : !Has G mem} `{LC : Libc} `{LI : !LibcIn}.
Context (fuel : nat) (buf : Z) (inp : list Z).
Context (Hbuf : 0 < buf) (Hchars : Forall is_char inp) (Hfuel : (length inp < fuel)%nat).
Implicit Types (w : world G D).
Abbreviation st := (st buf inp).
Abbreviation ch_at := (ch_at inp).
(** The conversion, as a character, and what it accepts. *)
Context (b : SecBracketTable) (cv : Z) (f : Z -> bool).
Context (Hf : forall p, is_char (ch p) -> convChr p = cv -> SecCanInput p b = f (ch p)).

Definition text_body (y : SecFileStream * SecScanSpec * bool) :
    M G D (SecFileStream * SecScanSpec * bool + SecFileStream * SecScanSpec * bool * bool) :=
  let '(x, suppressed) := y in
  if SECUREC_FILED_WIDTH_ENOUGH x.2 then
    x ← get_ch (x.1, SECUREC_FILED_WIDTH_DEC x.2);
    if SecCanInput x.2 b then
      if negb (suppress x.2 =? 0) then mret (inl (x, true))
      else if arrayWidth x.2 =? 0 then mret (inr (x, suppressed, true))
      else x ← SecInputForChar fuel x; mret (inl (x, suppressed))
    else mret (inr (unget_ch x, suppressed, false))
  else mret (inr (x, suppressed, false)).

(** After [n] characters. *)
Record text_read (p p' : SecScanSpec) (k n : nat) : Prop := {
  tx_sup : suppress p' = suppress p;
  tx_conv : convChr p' = convChr p;
  tx_wide : isWCharOrLong p' = isWCharOrLong p;
  tx_count : charCount p' = charCount p + Z.of_nat n;
  tx_end : (ch p' =? EOF) =
    if enough p n then bool_decide (k + n = length inp)%nat else if bool_decide (n = O) then ch p =? EOF else false;
}.

Lemma wp_text_stop k p sup (Q : SecFileStream * SecScanSpec * bool * bool -> world G D -> Prop) w rest :
  str_at (memof w) buf inp -> (k <= length inp)%nat -> convChr p = cv -> run_of f (lim p (drop k inp)) = [] ->
  (forall p', text_read p p' k 0 -> argPtr p' = argPtr p -> Q (st k, p', sup, false) w) ->
  wp (r ← text_body (st k, p, sup); match r with inl s => rest s | inr a => mret a end) Q w.
Proof.
  intros Hs Hk Hcv Hrun HQ. unfold text_body. cbn [fst snd]. change (SECUREC_FILED_WIDTH_ENOUGH p) with (enough p 0).
  destruct (enough p 0) eqn:He; cbn [fst snd].
  2: { apply wp_bind, wp_ret, wp_ret. apply HQ; [| done]. split; try done; [lia |]. by rewrite He. }
  destruct (dec_fields p) as [wd Hwd]. rewrite Hwd. apply wp_bind, wp_bind, wp_get_ch; [done | done | done |]. cbn [fst snd].
  assert (SecCanInput (after_ch buf inp k (with_fieldWidth wd p)).2 b = false) as ->.
  { destruct (drop k inp) as [| c l] eqn:El; [by apply ch_at_nil in El; unfold SecCanInput, after_ch; cbn; rewrite El |].
    destruct (ch_at_drop _ Hchars _ _ _ El) as (Hcc & Hc & Hl & Hlt). rewrite lim_enough in Hrun by done. cbn [run_of] in Hrun.
    rewrite Hf; cbn; rewrite ?Hcc; [| done | done]. by destruct (f c). }
  apply wp_ret, wp_ret. rewrite unget_next by done. apply HQ; [| done].
  split; try done; [cbn; lia |]. rewrite He. unfold seen_ch. cbn [ch with_ch]. rewrite ch_at_eof by done. by rewrite Nat.add_0_r.
Qed.

(** The character [c] is read, in front of [l]. *)
Lemma text_read_step p p1 p' k n c : (k < length inp)%nat -> is_char c -> text_read p1 p' (S k) n -> suppress p1 = suppress p -> convChr p1 = convChr p ->
  isWCharOrLong p1 = isWCharOrLong p -> charCount p1 = charCount p + 1 -> ch p1 = c -> (forall j, enough p1 j = enough p (S j)) ->
  text_read p p' k (S n).
Proof.
  intros Hk Hc [A1 A2 A3 A4 A5] B1 B2 B3 B4 B5 B6. split; [congruence | congruence | congruence | lia |].
  rewrite A5, B6. replace (S k + n)%nat with (k + S n)%nat by lia. rewrite (bool_decide_eq_false_2 (S n = 0%nat)) by lia.
  destruct (enough p (S n)); [done |]. destruct (bool_decide (n = O)); [| done]. rewrite B5. unfold is_char, EOF in *. lia.
Qed.

(** The next character, which is accepted. *)
Lemma wp_text_step k p sup c s (Q : SecFileStream * SecScanSpec * bool * bool -> world G D -> Prop) w rest :
  str_at (memof w) buf inp -> (k <= length inp)%nat -> convChr p = cv -> run_of f (lim p (drop k inp)) = c :: s ->
  (forall p1, (k < length inp)%nat -> is_char c -> ch p1 = c -> suppress p1 = suppress p -> convChr p1 = convChr p ->
     isWCharOrLong p1 = isWCharOrLong p -> charCount p1 = charCount p + 1 -> argPtr p1 = argPtr p -> arrayWidth p1 = arrayWidth p ->
     (forall j, enough p1 j = enough p (S j)) -> (forall q, width q = width p1 -> widthSet q = widthSet p1 -> run_of f (lim q (drop (S k) inp)) = s) ->
     let x := (st (S k), p1) in
     wp (r ← (if negb (suppress p1 =? 0) then mret (inl (x, true))
         else if arrayWidth p1 =? 0 then mret (inr (x, sup, true))
         else x ← SecInputForChar fuel x; mret (inl (x, sup))); match r with inl s => rest s | inr a => mret a end) Q w) ->
  wp (r ← text_body (st k, p, sup); match r with inl s => rest s | inr a => mret a end) Q w.
Proof.
  intros Hs Hk Hcv Hrun HQ. unfold text_body. cbn [fst snd]. change (SECUREC_FILED_WIDTH_ENOUGH p) with (enough p 0).
  destruct (enough p 0) eqn:He; [| by rewrite lim_none in Hrun by done].
  destruct (drop k inp) as [| x l] eqn:El.
  { replace (lim p []) with (@nil Z) in Hrun by (unfold lim; destruct (_ =? _); [done | by rewrite take_nil]). done. }
  destruct (ch_at_drop _ Hchars _ _ _ El) as (Hcc & Hc & Hl & Hlt). rewrite lim_enough in Hrun by done. cbn [run_of] in Hrun.
  destruct (f x) eqn:Efx; [| done]. injection Hrun as <- Hrun.
  destruct (dec_fields p) as [wd Hwd]. rewrite Hwd in Hrun. rewrite Hwd. apply wp_bind, wp_bind, wp_get_ch; [done | done | done |].
  unfold after_ch. rewrite bool_decide_eq_true_2 by done. cbn [fst snd].
  set (p1 := with_ch (ch_at k) (with_charCount _ (with_fieldWidth wd p))). rewrite Hf; [| by unfold p1; cbn; rewrite Hcc | done].
  change (ch p1) with (ch_at k). rewrite Hcc, Efx. apply wp_bind_inv. apply HQ; try done.
  - intros j. rewrite <- enough_dec, Hwd. done.
  - intros q Hq1 Hq2. rewrite Hl. unfold lim in *. rewrite Hq1, Hq2. exact Hrun.
Qed.

Abbreviation text_loop n y := (loop n text_body y).

Lemma wp_skip_text s n k p sup (Q : SecFileStream * SecScanSpec * bool * bool -> world G D -> Prop) w :
  str_at (memof w) buf inp -> (k <= length inp)%nat -> (length inp - k < n)%nat -> convChr p = cv -> suppress p <> 0 ->
  run_of f (lim p (drop k inp)) = s ->
  (forall p', text_read p p' k (length s) -> Q (st (k + length s)%nat, p', sup || negb (bool_decide (s = [])), false) w) ->
  wp (text_loop n (st k, p, sup)) Q w.
Proof.
  intros Hs. revert n k p sup. induction s as [| c s IH]; intros n k p sup Hk Hn Hcv Hsup Hrun HQ; (destruct n as [| n]; [lia |]); rewrite loop_S.
  - apply wp_text_stop; try done. intros p' Ht _. specialize (HQ p' Ht). rewrite Nat.add_0_r in HQ. by rewrite orb_false_r in HQ.
  - eapply wp_text_step; [done .. |]. intros p1 Hlt Hc Hch E1 E2 E3 E4 E5 E6 He Hr. cbv zeta. rewrite E1.
    replace (suppress p =? 0) with false by lia. apply wp_bind, wp_ret.
    apply IH; [lia | lia | congruence | congruence | by apply Hr |]. intros p' Ht.
    replace (S k + length s)%nat with (k + length (c :: s))%nat by (cbn; lia). specialize (HQ p').
    rewrite orb_true_r in HQ. apply HQ. by eapply text_read_step.
Qed.

Lemma wp_put_text s n k p sup (Q : SecFileStream * SecScanSpec * bool * bool -> world G D -> Prop) w :
  str_at (memof w) buf inp -> (k <= length inp)%nat -> (length inp - k < n)%nat -> convChr p = cv -> suppress p = 0 ->
  isWCharOrLong p <= 0 -> 0 <= arrayWidth p -> run_of f (lim p (drop k inp)) = s ->
  let put := take (Z.to_nat (arrayWidth p)) s in
  mapped (memof w) (argPtr p) (Z.of_nat (length put)) ->
  ((1 <= length put)%nat -> argPtr p + Z.of_nat (length put) <= buf \/ buf + Z.of_nat (length inp) + 1 <= argPtr p) ->
  (forall x p', suppress p' = 0 -> isWCharOrLong p' = isWCharOrLong p -> ch p' <> EOF -> (Z.to_nat (arrayWidth p) < length s)%nat ->
     Q (x, p', sup, true) (setm (wr (memof w) (argPtr p) put) w)) ->
  (forall p', text_read p p' k (length s) -> argPtr p' = argPtr p + Z.of_nat (length s) -> (length s <= Z.to_nat (arrayWidth p))%nat ->
     Q (st (k + length s)%nat, p', sup, false) (setm (wr (memof w) (argPtr p) s) w)) ->
  wp (text_loop n (st k, p, sup)) Q w.
Proof.
  revert n k p w. induction s as [| c s IH]; intros n k p w Hs Hk Hn Hcv Hsup Hwc Haw Hrun put Hm Ha Hfull HQ; (destruct n as [| n]; [lia |]); rewrite loop_S.
  - apply wp_text_stop; try done. intros p' Ht Hp. specialize (HQ p' Ht). rewrite Nat.add_0_r, Z.add_0_r in HQ. cbn [wr length] in HQ.
    rewrite setm_memof in HQ. apply HQ; [done | lia].
  - eapply wp_text_step; [done .. |]. intros p1 Hlt Hc Hch E1 E2 E3 E4 E5 E6 He Hr. cbv zeta. rewrite E1, Hsup. cbn [Z.eqb negb]. rewrite E6.
    destruct (Z.eqb_spec (arrayWidth p) 0) as [E0 | E0].
    { apply wp_bind, wp_ret, wp_ret. unfold put in Hfull. rewrite E0 in Hfull. change (Z.to_nat 0) with O in Hfull. cbn [take wr length] in Hfull. rewrite setm_memof in Hfull.
      apply Hfull; [congruence | done | rewrite Hch; unfold EOF, is_char in *; lia | lia]. }
    unfold put in *. replace (Z.to_nat (arrayWidth p)) with (S (Z.to_nat (arrayWidth p - 1))) in * by lia. cbn [take length wr] in *.
    apply wp_bind, wp_bind. unfold SecInputForChar. cbn [fst snd]. rewrite E3. replace (0 <? isWCharOrLong p) with false by lia.
    apply wp_bind. rewrite E5, E6, Hch. apply wp_stn; [eapply mapped_sub; [exact Hm | lia | lia] |]. apply wp_ret, wp_ret.
    assert (le_bytes 1 c = [c]) as -> by (cbn; by rewrite u8_char). cbn [wr]. set (w1 := setm _ w).
    set (p2 := with_argPtr _ _). assert (argPtr p2 = argPtr p + 1 /\ arrayWidth p2 = arrayWidth p - 1) as [Ep2 Ea2] by done.
    assert (forall y, setm y w1 = setm y w) as Hw1 by (intros y; apply setm_setm).
    assert (memof w1 = wr (memof w) (argPtr p) [c]) as Hm1 by apply memof_setm. clearbody w1.
    apply IH; rewrite ?Hw1, ?Hm1, ?Ep2, ?Ea2.
    + apply str_at_wr; [done | cbn; lia].
    + lia.
    + lia.
    + exact (eq_trans E2 Hcv).
    + exact (eq_trans E1 Hsup).
    + change (isWCharOrLong p2) with (isWCharOrLong p1). lia.
    + lia.
    + by apply Hr.
    + apply mapped_wr. eapply mapped_sub; [exact Hm | lia | lia].
    + lia.
    + intros x p' F1 F2 F3 F4. apply Hfull; [done | exact (eq_trans F2 E3) | done | lia].
    + intros p' Ht F1 F2. replace (S k + length s)%nat with (k + S (length s))%nat by lia. apply HQ; [| lia | lia].
      eapply (text_read_step p p1); try done. by destruct Ht.
Qed.

Lemma wp_ending_zero a p (Q : unit -> world G D -> Prop) w : suppress p = 0 -> isWCharOrLong p <= 0 -> mapped (memof w) a 1 ->
  Q tt (setm (wr (memof w) a [0]) w) -> wp (SecAddEndingZero a p) Q w.
Proof.
  intros Hs Hw Hm HQ. unfold SecAddEndingZero, when. rewrite Hs. change (0 =? 0) with true. cbv iota. apply wp_bind, wp_stn; [done |].
  replace (0 <? isWCharOrLong p) with false by lia. by apply wp_ret.
Qed.

Lemma wp_skip_string k p n0 (Q : bool * (SecFileStream * SecScanSpec) * Z -> world G D -> Prop) w :
  str_at (memof w) buf inp -> (k <= length inp)%nat -> convChr p = cv -> suppress p <> 0 ->
  let s := run_of f (lim p (drop k inp)) in
  (forall p', text_read p p' k (length s) -> Q (negb (bool_decide (length s = O)), (st (k + length s)%nat, p'), n0) w) ->
  wp (SecInputString fuel (st k, p) b n0) Q w.
Proof.
  intros Hs Hk Hcv Hsup s HQ. unfold SecInputString. apply wp_bind. fold text_body.
  apply (wp_skip_text s fuel k p false); [done | done | lia | done | done | done |].
  intros p' Ht. specialize (HQ p' Ht). destruct Ht as [E1 E2 E3 E4 E5]. cbn [orb fst snd]. rewrite E1.
  replace (suppress p =? 0) with false by lia. cbn [negb andb orb].
  replace (bool_decide (length s = O)) with (bool_decide (s = [])) in HQ by (clearbody s; by destruct s).
  rewrite orb_false_r, negb_involutive. destruct (bool_decide (s = [])); [by apply wp_ret |].
  apply wp_bind. unfold SecAddEndingZero, when. rewrite E1. replace (suppress p =? 0) with false by lia.
  destruct (negb (convChr p' =? chr "c")); by apply wp_ret, wp_ret.
Qed.

Lemma wp_put_string k p n0 (Q : bool * (SecFileStream * SecScanSpec) * Z -> world G D -> Prop) w :
  str_at (memof w) buf inp -> (k <= length inp)%nat -> convChr p = cv -> suppress p = 0 -> isWCharOrLong p <= 0 -> 0 <= arrayWidth p ->
  let s := run_of f (lim p (drop k inp)) in
  let room := Z.to_nat (arrayWidth p) in
  let a := argPtr p in
  let free n := mapped (memof w) a (Z.of_nat n) /\ (a + Z.of_nat n <= buf \/ buf + Z.of_nat (length inp) + 1 <= a) in
  (if (room <? length s)%nat then
     free (length (take room s)) /\ mapped (memof w) a 1 /\
     forall x p', ch p' <> EOF -> Q (false, (x, p'), n0) (setm (wr (wr (memof w) a (take room s)) a [0]) w)
   else if bool_decide (length s = O) then forall p', text_read p p' k (length s) -> Q (false, (st k, p'), n0) w
   else
     let bs := s ++ if cv =? chr "c" then [] else [0] in
     free (length bs) /\ forall p', text_read p p' k (length s) -> Q (true, (st (k + length s)%nat, p'), n0 + 1) (setm (wr (memof w) a bs) w)) ->
  wp (SecInputString fuel (st k, p) b n0) Q w.
Proof.
  intros Hs Hk Hcv Hsup Hwc Haw s room a free0 HQ. unfold SecInputString. apply wp_bind. fold text_body. change (argPtr (st k, p).2) with a.
  apply (wp_put_text s fuel k p false); [done | done | lia | done | done | done | done | done | | | |]; fold room a.
  - destruct (Nat.ltb_spec room (length s)); [apply HQ |]. rewrite take_ge by done.
    destruct s as [| c s']; [intros i Hi; cbn in Hi; lia |]. cbn [length] in HQ. rewrite bool_decide_eq_false_2 in HQ by done.
    destruct HQ as [[Hm _] _]. eapply mapped_sub; [exact Hm | lia | rewrite length_app; cbn [length]; lia].
  - destruct (Nat.ltb_spec room (length s)); [intros _; apply HQ |]. rewrite take_ge by done.
    destruct s as [| c s']; [cbn; lia |]. cbn [length] in HQ. rewrite bool_decide_eq_false_2 in HQ by done.
    destruct HQ as [[_ Ha] _]. rewrite length_app in Ha. cbn [length] in *. lia.
  - intros x p' H1 H2 H3 H4. replace (room <? length s)%nat with true in HQ by (symmetry; by apply Nat.ltb_lt).
    destruct HQ as (_ & Hm & HQ). apply wp_bind. apply wp_ending_zero; [done | cbn; lia | rewrite memof_setm; by apply mapped_wr |].
    rewrite memof_setm, setm_setm. apply wp_ret. by apply HQ.
  - intros p' Ht Hp Hlen. replace (room <? length s)%nat with false in HQ by (symmetry; by apply Nat.ltb_ge). 
    pose proof Ht as [E1 E2 E3 E4 E5]. cbn [fst snd]. rewrite E1, Hsup, E2, Hcv, Hp. cbn [Z.eqb negb andb orb].
    destruct (decide (length s = O)) as [E0 | E0].
    + rewrite bool_decide_eq_true_2 in HQ by done. rewrite E0. change (a + Z.of_nat 0) with (a + 0). rewrite Z.add_0_r, Z.eqb_refl. apply wp_ret.
      apply nil_length_inv in E0. rewrite E0 in HQ, Ht |- *. cbn [wr length] in *. rewrite setm_memof, Nat.add_0_r. by apply HQ.
    + rewrite bool_decide_eq_false_2 in HQ by done. replace (a =? a + Z.of_nat (length s)) with false by lia.
      destruct HQ as [[Hm _] HQ]. specialize (HQ p' Ht). apply wp_bind. unfold when. rewrite length_app in Hm. destruct (cv =? chr "c"); cbn [negb length] in *.
      * apply wp_ret, wp_ret. by rewrite app_nil_r in HQ.
      * rewrite wr_app in HQ. apply wp_ending_zero; [lia | lia | rewrite memof_setm; apply mapped_wr; eapply mapped_sub; [exact Hm | lia | lia] |].
        rewrite memof_setm, setm_setm. by apply wp_ret.
Qed.
End Text.
