(* ===== verification/ScanfLoop.v ===== *)
(** * ScanfLoop: formatted input goes through its format *)
From stdpp Require Import prelude gmap list strings.
From Stdlib Require Import ZArith Lia.
From S2P Require Import Prelude Hw Mem Securec Printf PrintfSpec PrintfProps PrintfConv PrintfLoop Scanf ScanfSpec ScanfProps ScanfNumber ScanfFormat ScanfText.
Local Open Scope Z_scope.

(** ** The conversion that a directive stands for *)
Definition conv_first (c : scan_conv) : Z :=
  match c with Int c => conv_char c | Chars => chr "c" | Str => chr "s" | Count => chr "n" | Bracket _ _ => chr "[" end.
Definition conv_spec (d : scan_directive) (c : Z) (p : SecScanSpec) : SecScanSpec :=
  let p := SecUpdateWcharFlagByType c (directive_spec d (SecSetDefaultScanSpec p)) in
  let p := with_convChr (SECUREC_TO_LOWERCASE c) p in
  with_oriConvChr (convChr p) p.

Record spec_ready (d : scan_directive) (c : Z) (p q : SecScanSpec) : Prop := {
  rd_suppress : (suppress q =? 0) = negb (sd_suppress d);
  rd_set : (widthSet q =? 0) = bool_decide (sd_width d = None);
  rd_width : forall ds, sd_width d = Some ds -> width q = number_of ds;
  rd_conv : convChr q = SECUREC_TO_LOWERCASE c;
  rd_ori : oriConvChr q = SECUREC_TO_LOWERCASE c;
  rd_wide : sd_size d = Plain -> c <> chr "C" -> c <> chr "S" -> isWCharOrLong q <= 0;
  rd_count : charCount q = charCount p;
  rd_ch : ch q = ch p;
  rd_fresh : number q = 0 /\ number64 q = 0 /\ beyondMax q = 0;
  rd_neg : negative q = 0;
  rd_state : numberState q = SECUREC_NUMBER_STATE_DEFAULT;
  rd_type : numberArgType q = match sd_size d with HH | H | Plain => 0 | _ => 1 end;
  rd_bits : numberWidth q = match sd_size d with HH => -1 | H => 0 | Plain => 1 | L => 2 | _ => 3 end;
}.

Lemma update_wchar_fields c p : exists x, SecUpdateWcharFlagByType c p = with_isWCharOrLong x p /\
  (isWCharOrLong p = 0 -> c <> chr "C" -> c <> chr "S" -> x = -1).
Proof.
  unfold SecUpdateWcharFlagByType. destruct (Z.eqb_spec (isWCharOrLong p) 0) as [E | E]; cbn [negb].
  - destruct ((c =? chr "C") || (c =? chr "S")) eqn:Ec.
    + exists 1. split; [done |]. intros _ H1 H2. lia.
    + by exists (-1).
  - exists (isWCharOrLong p). split; [by destruct p | done].
Qed.

Lemma conv_spec_ready d c p : scan_directive_ok d -> spec_ready d c p (conv_spec d c p).
Proof.
  intros [_ Hw]. unfold conv_spec. destruct (update_wchar_fields c (directive_spec d (SecSetDefaultScanSpec p))) as (x & -> & Hx).
  unfold directive_spec in *. destruct d as [sup [ds |] s cv]; cbn [sd_suppress sd_width sd_size sd_conv default from_option id] in *.
  - destruct ds as [| c0 ds]; [cbn in Hw; lia |]. 
    destruct sup, s; (split; try done; cbn; try (by intros ? [= <-]); intros H1 H2 H3; by rewrite Hx).
  - destruct sup, s; (split; try done; cbn; intros H1 H2 H3; by rewrite Hx).
Qed.

Lemma ready_lim d c p q l : spec_ready d c p q -> lim q l = at_most (sd_width d) l.
Proof.
  intros H. unfold lim. rewrite (rd_set _ _ _ _ H). destruct (sd_width d) eqn:E; [| by rewrite bool_decide_eq_true_2].
  rewrite bool_decide_eq_false_2 by done. by rewrite (rd_width _ _ _ _ H _ E).
Qed.
Lemma ready_enough d c p q n : spec_ready d c p q ->
  enough q n = match sd_width d with Some ds => Z.of_nat n <? number_of ds | None => true end.
Proof.
  intros H. unfold enough. rewrite (rd_set _ _ _ _ H). destruct (sd_width d) eqn:E; [| by rewrite bool_decide_eq_true_2].
  rewrite bool_decide_eq_false_2 by done. by rewrite (rd_width _ _ _ _ H _ E).
Qed.

(** ** The loop *)
Section Rounds.
Context {G D : Type} `{MD : Machine D} `{HM : !Has G mem} `{LC : Libc} `{LI : !LibcIn}.
Context (fuel : nat) (buf : Z) (inp : list Z) (fmt : Z) (full : list Z).
Context (Hbuf : 0 < buf) (Hchars : Forall is_char inp) (Hfuel : (length inp < fuel)%nat) (Hfull : (length full + 5 <= fuel)%nat).
Implicit Types (w : world G D).
Abbreviation st := (st buf inp).
Abbreviation ch_at := (ch_at inp).
Abbreviation spaces := (spaces inp).

Definition readable w : Prop := str_at (memof w) buf inp /\ str_at (memof w) fmt full.
(** [n] bytes from [a] on are neither of the text nor of the format. *)
Definition clear_of (a n : Z) : Prop :=
  (a + n <= buf \/ buf + Z.of_nat (length inp) + 1 <= a) /\ (a + n <= fmt \/ fmt + Z.of_nat (length full) + 1 <= a).
Definition writable (m : mem) (ws : list (Z * list Z)) : Prop :=
  Forall (fun x => mapped m x.1 (Z.of_nat (length x.2)) /\ clear_of x.1 (Z.of_nat (length x.2))) ws.

Lemma readable_wr w a bs : readable w -> clear_of a (Z.of_nat (length bs)) -> readable (setm (wr (memof w) a bs) w).
Proof. intros [H1 H2] [H3 H4]. unfold readable. rewrite memof_setm. split; by apply str_at_wr. Qed.
Lemma writable_wr m a bs ws : writable m ws -> writable (wr m a bs) ws.
Proof. intros H. eapply Forall_impl; [exact H |]. intros x [H1 H2]. split; [by apply mapped_wr | done]. Qed.

(** The items [its] are left, [k] characters are read. *)
Record item_state (i : input) (its : list scan_item) (k : nat) (e : bool) (args : list (arg real)) (d m : Z) : Prop := {
  it_format : exists pre, full = pre ++ scan_print its /\ in_format i = fmt + Z.of_nat (length pre);
  it_io : exists p, in_io i = (st k, p) /\ charCount p = Z.of_nat k /\ (ch p =? EOF) = e;
  it_k : (k <= length inp)%nat;
  it_args : in_args i = args;
  it_done : doneCount i = d;
  it_match : match_ i = m;
  it_float : in_float i = SecInitFloatSpec;
  it_errors : errRet i = 0 /\ formatError i = 0 /\ paraIsNull i = 0;
}.

(** The reading from a world [w] on, with [d] stored and [m] matched before, has ended with [v]. *)
Definition fin (d m : Z) (v : scan_verdict) w (i' : input) w' : Prop :=
  (ch (in_io i').2 =? EOF) = v_end v /\ (v_end v = false -> negb (formatError i' =? 0) || negb (paraIsNull i' =? 0) = v_refused v) /\
  doneCount i' = d + v_done v /\ match_ i' = m + v_match v /\ 0 <= v_done v /\ in_float i' = SecInitFloatSpec /\
  w' = setm (write_all (memof w) (v_writes v)) w.

Lemma fin_stop d m e r w i : (ch (in_io i).2 =? EOF) = e -> (e = false -> negb (formatError i =? 0) || negb (paraIsNull i =? 0) = r) ->
  doneCount i = d -> match_ i = m -> in_float i = SecInitFloatSpec -> fin d m (stop e r) w i w.
Proof. intros H1 H2 <- <- H3. unfold fin, stop, write_all. cbn [v_end v_refused v_done v_match v_writes foldl fst snd]. rewrite setm_memof. split_and!; try done; lia. Qed.
Lemma fin_write d m v a bs w i w' : fin d m v (setm (wr (memof w) a bs) w) i w' -> fin d m (and_write a bs v) w i w'.
Proof. unfold fin, and_write, write_all. cbn [v_end v_refused v_done v_match v_writes foldl fst snd]. rewrite memof_setm, setm_setm. done. Qed.
Lemma fin_done d m v w i w' : fin (d + 1) m v w i w' -> fin d m (and_done 1 v) w i w'.
Proof. unfold fin. cbn [v_end v_refused v_done v_match v_writes and_done and_match]. intros (H1 & H2 & H3 & H4 & H5 & H6 & H7). split_and!; try done; lia. Qed.
Lemma fin_match d m v w i w' : fin d (m + 1) v w i w' -> fin d m (and_match v) w i w'.
Proof. unfold fin. cbn [v_end v_refused v_done v_match v_writes and_done and_match]. intros (H1 & H2 & H3 & H4 & H5 & H6 & H7). split_and!; try done; lia. Qed.

(** What a round does when the rest of the reading is [scan its inp]: it goes
    on with that, or the reading ends. *)
Definition goes_on (its : list scan_item) (d m : Z) (v : scan_verdict) w (i' : input) w' : Prop :=
  exists k e args v' d' m', scan its inp k e args = Some v' /\ item_state i' its k e args d' m' /\
    readable w' /\ writable (memof w') (v_writes v') /\ forall i2 w2, fin d' m' v' w' i2 w2 -> fin d m v w i2 w2.
Definition round_post (its : list scan_item) (d m : Z) (v : scan_verdict) w (r : input + input) w' : Prop :=
  match r with
  | inl i' => goes_on its d m v w i' w' \/ (1 <= errRet i' /\ fin d m v w i' w')
  | inr i' => fin d m v w i' w'
  end.

Lemma item_text i it its k e args d m w : item_state i (it :: its) k e args d m -> readable w ->
  str_at (memof w) (in_format i) (scan_item_print it ++ scan_print its).
Proof. intros [(pre & E & ->) _ _ _ _ _ _ _] [_ Hs]. rewrite E in Hs. by apply str_at_skip in Hs. Qed.
(** A round begins: there is an item, and no error yet. *)
Lemma wp_item_round i it its k e args d m c r (Q : input + input -> world G D -> Prop) w :
  item_state i (it :: its) k e args d m -> readable w -> scan_item_print it = c :: r ->
  (str_at (memof w) (in_format i) (c :: r ++ scan_print its) ->
   wp (if SecIsSpace c then
         x ← skip_ch fuel (in_io i);
         fmt ← SecSkipSpaceFormat fuel (in_format i);
         mret (inl (at_format fmt (at_io (unget_ch x) i)))
       else if negb (c =? chr "%") then
         x ← get_ch (in_io i);
         if negb (c =? ch x.2) then mret (inr (at_io (unget_ch x) i))
         else mret (inl (at_format (in_format i + 1) (at_io x i)))
       else i ← input_directive fuel i; mret (inl i)) Q w) ->
  wp (input_round fuel i) Q w.
Proof.
  intros Hi Hr Ep HQ. pose proof (item_text _ _ _ _ _ _ _ _ _ Hi Hr) as Hs. rewrite Ep in Hs. specialize (HQ Hs).
  unfold input_round. replace (errRet i <? 1) with true by (by destruct (it_errors _ _ _ _ _ _ _ Hi) as [-> _]).
  apply str_at_cons in Hs as (Hc & Hc0 & _). apply wp_bind. eapply wp_ld8; [exact Hc |]. by replace (c =? 0) with false by lia.
Qed.

Lemma item_next i i' it its k k' e e' args args' d d' m m' p' f : item_state i (it :: its) k e args d m ->
  in_format i' = in_format i + Z.of_nat (length (scan_item_print it)) -> in_io i' = (st f, p') -> f = k' -> charCount p' = Z.of_nat k' ->
  (ch p' =? EOF) = e' -> (k' <= length inp)%nat -> in_args i' = args' -> doneCount i' = d' -> match_ i' = m' -> in_float i' = in_float i ->
  errRet i' = errRet i -> formatError i' = formatError i -> paraIsNull i' = paraIsNull i -> item_state i' its k' e' args' d' m'.
Proof.
  intros [(pre & E & Ef) _ _ _ _ _ F (B1 & B2 & B3)] Hf Hio -> Hc He Hk <- <- <- A1 A2 A3 A4.
  split; try done; [| eauto | congruence | split_and!; congruence].
  exists (pre ++ scan_item_print it). rewrite <- app_assoc. split; [exact E |]. rewrite Hf, Ef, length_app. lia.
Qed.

(** *** A blank *)
Lemma wp_skip_format n a l c rest (Q : Z -> world G D -> Prop) w : str_at (memof w) a (l ++ rest) -> Forall (fun c => isspace c = true) l ->
  Forall (fun c => fits 8 c) l -> c = default 0 (head rest) -> SecIsSpace c = false -> (length l < n)%nat -> Q (a + Z.of_nat (length l)) w ->
  wp (loop n (fun f => x ← ld8 f; mret (if SecIsSpace x then inl (f + 1) else inr f)) a) Q w.
Proof.
  intros Hs Hl Hb Hc Hsp. revert n a Hs. induction Hl as [| x l Hx Hl IH]; intros n a Hs Hn HQ; (destruct n as [| n]; [cbn in Hn; lia |]); rewrite loop_S; apply wp_bind, wp_bind.
  - cbn [length app] in *. rewrite Z.add_0_r in HQ. eapply (wp_ld8 a c); [| rewrite Hsp; by apply wp_ret, wp_ret].
    destruct rest as [| y rest]; cbn in Hc; subst c; [by apply str_at_nil in Hs | by apply str_at_cons in Hs as (? & _ & _)].
  - apply Forall_cons in Hb as [Hbx Hb]. apply str_at_cons in Hs as (Hx' & _ & Hs). eapply wp_ld8; [exact Hx' |].
    unfold SecIsSpace at 1. rewrite wrap_id by done. rewrite Hx. apply wp_ret. apply IH; [done | done | cbn in Hn; lia |].
    replace (a + 1 + Z.of_nat (length l)) with (a + Z.of_nat (length (x :: l))) by (cbn [length]; lia). done.
Qed.

Lemma space_char c : isspace c = true -> 0 < c < 128.
Proof. unfold isspace. change (chr " ") with 32. lia. Qed.
Lemma item_start_ok it its : scan_item_ok it -> match it with Blank _ => False | _ => True end ->
  SecIsSpace (default 0 (head (scan_item_print it ++ its))) = false.
Proof.
  destruct it as [cs | c | | d]; try done. intros (Hf & _ & Hs & _) _. cbn. unfold SecIsSpace. by rewrite wrap_id.
Qed.

Lemma wp_blank cs its i k e args d m v w : item_state i (Blank cs :: its) k e args d m -> readable w -> scan_items_ok (Blank cs :: its) ->
  scan (Blank cs :: its) inp k e args = Some v -> writable (memof w) (v_writes v) ->
  wp (input_round fuel i) (round_post its d m v w) w.
Proof.
  intros Hi Hr ((Hne & Hsp) & Hnext & Hok) Hv Hw. destruct cs as [| c cs]; [done |].
  pose proof (item_text _ _ _ _ _ _ _ _ _ Hi Hr) as Hs. cbn [scan_item_print] in Hs.
  assert (Forall (fun c => fits 8 c) (c :: cs)) as Hb
    by (eapply Forall_impl; [exact Hsp |]; intros x Hx; apply space_char in Hx; unfold fits; change (2 ^ 8) with 256; lia).
  eapply wp_item_round; [exact Hi | done | reflexivity |]. intros _.
  replace (SecIsSpace c) with true by (apply Forall_cons in Hsp as [E _]; apply Forall_cons in Hb as [F _]; unfold SecIsSpace; by rewrite wrap_id).
  pose proof Hi as [(pre & Ef & _) (p & Eio & Hcc & He) Hk _ Hd Hm Hfl _]. rewrite Eio. apply wp_bind.
  apply wp_skip_ch; [done | apply Hr | done | done |]. apply wp_bind.
  eapply (wp_skip_format fuel _ (c :: cs)); [exact Hs | done | done | reflexivity | | |].
  - destruct its as [| it its]; [done |]. destruct Hok as (Hit & _). apply item_start_ok; [done |]. by destruct it.
  - rewrite Ef in Hfull. unfold scan_print in Hfull. cbn [mbind list_bind scan_item_print] in Hfull. rewrite !length_app in Hfull. cbn [length] in *. lia.
  - pose proof (spaces_le inp k Hk) as Hle. rewrite unget_next by done. apply wp_ret. left. cbn [scan] in Hv. fold (spaces k) in Hv.
    eexists (k + spaces k)%nat, _, args, v, d, m. split_and!; [exact Hv | | done | done | done].
    eapply item_next; [exact Hi | reflexivity | reflexivity | done | | | done | by destruct Hi | done | done | done | done | done | done].
    + cbn. lia.
    + change (ch (seen_ch inp (k + spaces k) ?x)) with (ch_at (k + spaces k)). unfold seen_ch. cbn [ch with_ch].
      rewrite ch_at_eof by done. apply bool_decide_ext. rewrite length_drop. lia.
Qed.

(** *** A character *)
Lemma wp_exactly c its i k e args d m v w : item_state i (Exactly c :: its) k e args d m -> readable w -> scan_item_ok (Exactly c) ->
  scan (Exactly c :: its) inp k e args = Some v -> writable (memof w) (v_writes v) ->
  wp (input_round fuel i) (round_post its d m v w) w.
Proof.
  intros Hi Hr (Hc8 & Hc0 & Hsp & Hpc) Hv Hw. eapply wp_item_round; [exact Hi | done | reflexivity |]. intros _.
  unfold SecIsSpace. rewrite wrap_id by done. rewrite Hsp. replace (c =? chr "%") with false by lia. cbn [negb].
  pose proof Hi as [_ (p & Eio & Hcc & He) Hk _ Hd Hm Hfl (E1 & E2 & E3)]. rewrite Eio. apply wp_bind.
  apply wp_get_ch; [done | apply Hr | done |]. cbn [scan] in Hv. change (ch (after_ch buf inp k p).2) with (ch_at k).
  assert (forall e, (ch_at k =? EOF) = e -> v = stop e false -> (c =? ch_at k) = false ->
    wp (if negb (c =? ch_at k) then mret (inr (at_io (unget_ch (after_ch buf inp k p)) i))
        else mret (inl (at_format (in_format i + 1) (at_io (after_ch buf inp k p) i)))) (round_post its d m v w) w) as Hstop.
  { intros e' He' -> ->. cbn [negb]. apply wp_ret. rewrite unget_next by done.
    apply fin_stop; [exact He' | intros _; cbn; by rewrite E2, E3 | done | done | done]. }
  destruct (drop k inp) as [| x l] eqn:El.
  - pose proof (ch_at_nil inp _ El) as En. rewrite En in Hstop |- *. apply (Hstop true); [done | congruence | unfold fits, EOF in *; lia].
  - destruct (ch_at_drop _ Hchars _ _ _ El) as (Hcx & Hx & Hl & Hlt). rewrite Hcx in Hstop |- *.
    destruct (Z.eqb_spec x c) as [-> | Hne].
    + rewrite Z.eqb_refl. cbn [negb]. apply wp_ret. left. eexists (k + 1)%nat, _, args, v, d, m. split_and!; [exact Hv | | done | done | done].
      unfold after_ch. rewrite bool_decide_eq_true_2 by done.
      eapply (item_next i _ (Exactly c) its k (k + 1)); [exact Hi | reflexivity | reflexivity | lia | | | lia | by destruct Hi | done | done | done | done | done | done].
      * cbn. lia.
      * cbn. rewrite Hcx. unfold is_char, EOF in *. lia.
    + apply (Hstop false); [unfold is_char, EOF in *; lia | congruence | lia].
Qed.

(** ** A directive *)
(** What follows the reading of it: the conversion [c] with [p]. *)
Definition directive_tail (c : Z) (i : input) (p : SecScanSpec) : M G D input :=
  let x := ((in_io i).1, p) in
  x ← (if negb (convChr p =? chr "n") then
         if negb (convChr p =? chr "c") && negb (convChr p =? SECUREC_BRACE) then skip_ch fuel x else get_ch x
       else mret x);
  let i := at_io x i in
  if negb (convChr p =? chr "n") && (ch x.2 =? EOF) then mret (err i)
  else
    let o := oriConvChr p in
    if (o =? chr "c") || (o =? chr "s") || (o =? SECUREC_BRACE) then input_text fuel i
    else if existsb (Z.eqb o) (chars "poudix") then input_number fuel i
    else if o =? chr "n" then input_count i
    else if existsb (Z.eqb o) (chars "efg") then input_float fuel i
    else input_other c i.

Lemma item_pre it its : full = it ++ scan_print its -> (length it <= length full)%nat.
Proof. intros ->. rewrite length_app. lia. Qed.

(** The front of [d] is read, then [c] and [more] follow. *)
Lemma wp_front d it its k e args dm m i c more p (Q : input + input -> world G D -> Prop) w :
  item_state i (it :: its) k e args dm m -> readable w -> scan_directive_ok d -> scan_item_print it = directive_front d ++ c :: more ->
  is_conv_char c -> in_io i = (st k, p) ->
  (forall q, spec_ready d c p q -> wp (i ← directive_tail c (at_format (in_format i + Z.of_nat (length (directive_front d))) i) q; mret (inl i)) Q w) ->
  wp (input_round fuel i) Q w.
Proof.
  intros Hi Hr Hok Ep Hc Hio HQ. pose proof (item_text _ _ _ _ _ _ _ _ _ Hi Hr) as Hs. rewrite Ep, <- app_assoc in Hs. cbn [app] in Hs.
  eapply (wp_item_round i it its _ _ _ _ _ (chr "%") (drop 1 (scan_item_print it))); [exact Hi | done | by rewrite Ep |]. intros _.
  change (SecIsSpace (chr "%")) with false. change (negb (chr "%" =? chr "%")) with false. cbv iota.
  unfold input_directive. rewrite Hio. cbn [fst snd]. apply wp_bind, wp_bind.
  assert (length (directive_front d) < length full)%nat as Hlen.
  { pose proof Hi as [(pre & Ef & _) _ _ _ _ _ _ _]. rewrite Ef. unfold scan_print. cbn [mbind list_bind]. rewrite Ep, !length_app. cbn [length]. lia. }
  eapply (wp_scan_flag d); [exact Hs | done | done | done | lia |].
  pose proof (conv_spec_ready d c p Hok) as Hrd. cbn [in_format at_format].
  assert (SECUREC_FILED_WIDTH_ENOUGH (directive_spec d (SecSetDefaultScanSpec p)) = true) as ->.
  { change (enough (directive_spec d (SecSetDefaultScanSpec p)) 0 = true).
    replace (enough _ 0) with (enough (conv_spec d c p) 0)
      by (unfold conv_spec; destruct (update_wchar_fields c (directive_spec d (SecSetDefaultScanSpec p))) as (x & -> & _); done).
    rewrite (ready_enough _ _ _ _ 0 Hrd). destruct Hok as [_ Hok]. destruct (sd_width d); [| done]. change (Z.of_nat 0) with 0. lia. }
  cbn [negb]. apply str_at_skip, str_at_cons in Hs as (Hcc & _ & _). apply wp_bind. eapply wp_ld8; [exact Hcc |].
  specialize (HQ _ Hrd). apply wp_bind_inv in HQ. exact HQ.
Qed.

(** With the spaces in front of it skipped, or at the end. *)
Definition skips (c : Z) : bool := negb (c =? chr "n") && negb (c =? chr "c") && negb (c =? SECUREC_BRACE).
Definition seen_at (k : nat) (q : SecScanSpec) : SecScanSpec := with_ch (ch_at k) (with_charCount (Z.of_nat k + 1) q).
Definition past (k : nat) : SecFileStream := st (if bool_decide (k < length inp)%nat then S k else k).
Lemma wp_tail_skip c f i k p (Q : input -> world G D -> Prop) w :
  readable w -> (k <= length inp)%nat -> in_io i = (st k, p) -> skips (SECUREC_TO_LOWERCASE c) = true ->
  forall q, (exists d, spec_ready d c p q) -> charCount p = Z.of_nat k ->
  let j := (k + spaces k)%nat in
  let i' := at_io (past j, seen_at j q) (at_format f i) in
  (drop (spaces k) (drop k inp) = [] -> Q (err i') w) ->
  (forall x l, drop (spaces k) (drop k inp) = x :: l ->
   wp (let o := oriConvChr q in
    if (o =? chr "c") || (o =? chr "s") || (o =? SECUREC_BRACE) then input_text fuel i'
    else if existsb (Z.eqb o) (chars "poudix") then input_number fuel i'
    else if o =? chr "n" then input_count i'
    else if existsb (Z.eqb o) (chars "efg") then input_float fuel i'
    else input_other c i') Q w) ->
  wp (directive_tail c (at_format f i) q) Q w.
Proof.
  intros Hr Hk Hio Hsk q [d Hq] Hcc j i' Hend HQ. unfold directive_tail. cbn [in_io at_format] in Hio |- *. rewrite Hio, (rd_conv _ _ _ _ Hq). unfold skips in Hsk.
  rewrite !andb_true_iff in Hsk. destruct Hsk as [[-> ->] ->]. cbn [andb fst snd]. apply wp_bind.
  apply wp_skip_ch; [done | apply Hr | done | done |]. rewrite (rd_count _ _ _ _ Hq), Hcc, <- Nat2Z.inj_add.
  change (at_io (after_ch buf inp (k + spaces k) (with_charCount (Z.of_nat (k + spaces k)) q)) (at_format f i)) with i'.
  change (ch (after_ch buf inp (k + spaces k) (with_charCount (Z.of_nat (k + spaces k)) q)).2) with (ch_at (k + spaces k)).
  rewrite drop_drop in Hend, HQ. destruct (drop (k + spaces k) inp) as [| x l] eqn:El.
  - rewrite (ch_at_nil inp _ El). change (EOF =? EOF) with true. cbv iota. apply wp_ret. by apply Hend.
  - destruct (ch_at_drop _ Hchars _ _ _ El) as (Hcx & Hx & _ & _). rewrite Hcx. replace (x =? EOF) with false by (unfold is_char, EOF in *; lia).
    by eapply HQ.
Qed.

(** *** Integers *)
Lemma digits_in_front_length base v l : ((digits_in_front base v l).2 <= length l)%nat.
Proof. revert v. induction l as [| c l IH]; intros v; cbn; [done |]. destruct (value_of_digit base c); cbn; [specialize (IH (base * v + z)); lia | lia]. Qed.
Lemma read_unsigned_length c l : ((read_unsigned c l).2 <= length l)%nat.
Proof.
  unfold read_unsigned. cbv zeta. cbn [snd]. set (pre := _ && hex_prefix l). destruct pre eqn:E.
  - apply andb_true_iff in E as [_ E]. destruct l as [| z [| y l]]; try done. cbv iota. cbn [drop length]. rewrite drop_0.
    match goal with |- context [digits_in_front ?b ?v l] => pose proof (digits_in_front_length b v l) end. lia.
  - cbv iota. match goal with |- context [digits_in_front ?b ?v l] => pose proof (digits_in_front_length b v l) end. lia.
Qed.
Lemma read_int_length c l : (it_len (read_int c l) <= length l)%nat.
Proof.
  destruct l as [| x l]; [done |]. cbn [read_int it_len]. destruct (is_sign x).
  - pose proof (read_unsigned_length c l). cbn [length]. lia.
  - apply (read_unsigned_length c (x :: l)).
Qed.
Lemma at_most_length ow l : (length (at_most ow l) <= length l)%nat.
Proof. destruct ow; cbn; [rewrite length_take; lia | done]. Qed.

Lemma number_end_is d c p q x l k n : spec_ready d c p q -> scan_directive_ok d -> drop k inp = x :: l ->
  number_end inp k q x n = int_saw_end (sd_width d) (x :: l) n.
Proof.
  intros Hr [_ Hok] El. assert (length inp = k + S (length l))%nat as Hl.
  { pose proof (f_equal length El) as E. rewrite length_drop in E. cbn [length] in E. lia. }
  unfold number_end, int_saw_end, saw_end. rewrite !(ready_enough _ _ _ _ _ Hr).
  assert (forall n, bool_decide (k + n = length inp)%nat = bool_decide (n = length (x :: l))) as Eb
    by (intros n'; apply bool_decide_ext; cbn [length]; lia).
  destruct (sd_width d) as [ds |].
  - assert (negb (Z.of_nat 1 <? number_of ds) = (number_of ds =? 1)) as -> by (change (Z.of_nat 1) with 1; lia).
    rewrite !Eb. destruct (is_sign x && (number_of ds =? 1)); [| apply andb_comm]. apply bool_decide_ext. lia.
  - cbn [negb]. rewrite andb_false_r. rewrite Eb. apply andb_comm.
Qed.

Lemma lower_conv c : c <> Cc -> c <> Cs ->
  skips (SECUREC_TO_LOWERCASE (conv_char c)) = true /\ is_conv_char (conv_char c) /\
  let o := SECUREC_TO_LOWERCASE (conv_char c) in
  (o =? chr "c") || (o =? chr "s") || (o =? SECUREC_BRACE) = false /\ existsb (Z.eqb o) (chars "poudix") = true /\ (o =? chr "p") = bool_decide (c = Cp).
Proof. by destruct c. Qed.

Definition as_pointer (p : SecScanSpec) : SecScanSpec :=
  if oriConvChr p =? chr "p" then with_numberArgType 1 (with_numberWidth SECUREC_NUM_WIDTH_INT p) else p.
(** The conversion that reads a number, [k] characters on. *)
Definition number_spec (k : nat) (q : SecScanSpec) : SecScanSpec := seen_ch inp k (with_charCount (Z.of_nat k) (as_pointer q)).
Lemma unget_number k q : (k <= length inp)%nat -> unget_ch (past k, as_pointer (seen_at k q)) = (st k, number_spec k q).
Proof.
  intros Hk. unfold number_spec. rewrite <- unget_next by done. unfold after_ch, past, seen_at, as_pointer. by destruct q, (_ =? chr "p").
Qed.
Lemma number_spec_fields c d p q k : spec_ready d (conv_char c) p q -> c <> Cc -> c <> Cs ->
  conv_fields c (sd_size d) (number_spec k q) /\ counts (number_spec k q) 0 /\ negative (number_spec k q) = 0 /\
  numberState (number_spec k q) = SECUREC_NUMBER_STATE_DEFAULT /\ convChr (number_spec k q) = oriConvChr (number_spec k q) /\
  (suppress (number_spec k q) =? 0) = negb (sd_suppress d) /\ charCount (number_spec k q) = Z.of_nat k /\
  (forall n, enough (number_spec k q) n = enough q n) /\ (forall l, lim (number_spec k q) l = lim q l).
Proof.
  intros [A1 A2 A3 A4 A5 A6 A7 A8 (B1 & B2 & B3) A9 A10 A11 A12] H1 H2. unfold number_spec, as_pointer. rewrite A5.
  destruct (lower_conv c H1 H2) as (_ & _ & _ & _ & ->).
  destruct (decide (c = Cp)) as [-> | Hp].
  - rewrite bool_decide_eq_true_2 by done. split_and!; try done.
    + split; [done | by left | exact A5].
    + change (convChr q = oriConvChr q). congruence.
  - rewrite bool_decide_eq_false_2 by done. split_and!; try done.
    + split; cbn; rewrite ?A11, ?A12; [| | exact A5]; destruct c, (sd_size d); try done; (by left) || (by right).
    + split; [done | | done]. unfold num_val. change (numberArgType _) with (numberArgType q). by destruct (numberArgType q =? 0).
    + change (convChr q = oriConvChr q). congruence.
Qed.

(** A round that begins with a read directive [d]: the state behind it. *)
Lemma goes_on_item i i' it its k k' e' args args' e d m d' m' v v' w w' p' : item_state i (it :: its) k e args d m ->
  scan its inp k' e' args' = Some v' -> in_format i' = in_format i + Z.of_nat (length (scan_item_print it)) -> in_io i' = (st k', p') ->
  charCount p' = Z.of_nat k' -> (ch p' =? EOF) = e' -> (k' <= length inp)%nat -> in_args i' = args' -> doneCount i' = d' -> match_ i' = m' ->
  in_float i' = in_float i -> errRet i' = errRet i -> formatError i' = formatError i -> paraIsNull i' = paraIsNull i ->
  readable w' -> writable (memof w') (v_writes v') -> (forall i2 w2, fin d' m' v' w' i2 w2 -> fin d m v w i2 w2) ->
  round_post its d m v w (inl i') w'.
Proof.
  intros Hi Hv Hf Hio Hc He Hk Ha Hd Hm A1 A2 A3 A4 Hr Hw Hfin. left. exists k', e', args', v', d', m'. split_and!; try done.
  eapply item_next; [exact Hi | done | exact Hio | done .. ].
Qed.
Lemma stops its i d m e r w v : 1 <= errRet i -> (ch (in_io i).2 =? EOF) = e -> (e = false -> negb (formatError i =? 0) || negb (paraIsNull i =? 0) = r) ->
  doneCount i = d -> match_ i = m -> in_float i = SecInitFloatSpec -> stop e r = v -> round_post its d m v w (inl i) w.
Proof. intros H0 H1 H2 H3 H4 H5 <-. right. split; [done |]. by apply fin_stop. Qed.

Lemma wp_va_word v args (Q : Z * list (arg real) -> world G D -> Prop) w : Q (v, args) w -> wp (va_word (Word v :: args)) Q w.
Proof. intros H. by apply wp_ret. Qed.

Lemma wp_int d c its i k e args dm m v w : sd_conv d = Int c -> item_state i (Scan d :: its) k e args dm m -> readable w ->
  scan_directive_ok d -> scan (Scan d :: its) inp k e args = Some v -> writable (memof w) (v_writes v) ->
  wp (input_round fuel i) (round_post its dm m v w) w.
Proof.
  intros Ed Hi Hr Hok Hv Hw. pose proof Hok as [Hcok _]. rewrite Ed in Hcok. destruct Hcok as [HCc HCs].
  destruct (lower_conv c HCc HCs) as (Hsk & Hcc & Hd1 & Hd2 & _).
  assert (scan_item_print (Scan d) = directive_front d ++ [conv_char c]) as Ep by (cbn [scan_item_print]; by rewrite directive_front_print, Ed).
  pose proof Hi as [_ (p & Eio & Hcp & He) Hk Hargs Hdn Hm Hfl (E1 & E2 & E3)].
  eapply (wp_front d (Scan d)); [exact Hi | done | done | exact Ep | done | exact Eio |]. intros q Hq. apply wp_bind.
  set (f := in_format i + _). cbn [scan] in Hv. rewrite Ed in Hv. fold (spaces k) in Hv.
  eapply (wp_tail_skip _ f i k p); [done | done | exact Eio | done | by exists d | done | |].
  { intros El. rewrite El in Hv. rewrite bool_decide_eq_true_2 in Hv by done. injection Hv as <-. apply wp_ret.
    rewrite drop_drop in El. eapply stops; [| | | | | | reflexivity]; try done; [cbn; lia | cbn; by rewrite (ch_at_nil inp _ El)]. }
  intros x l El. rewrite El in Hv. rewrite bool_decide_eq_false_2 in Hv by done. rewrite drop_drop in El. cbv zeta.
  rewrite (rd_ori _ _ _ _ Hq), Hd1, Hd2. set (j := (k + spaces k)%nat) in *. pose proof (spaces_le inp k Hk) as Hj. fold j in Hj.
  unfold input_number. apply wp_bind. cbn [in_io at_io snd fst]. fold (as_pointer (seen_at j q)). rewrite unget_number by done.
  destruct (number_spec_fields c d p q j Hq HCc HCs) as (F1 & F2 & F3 & F4 & F5 & F6 & F7 & F8 & F9).
  destruct (ch_at_drop _ Hchars _ _ _ El) as (Hcx & Hx & _ & Hlt).
  eapply (wp_input_number fuel buf inp Hbuf Hchars Hfuel c (sd_size d) j (number_spec j q) x l);
    [apply Hr | exact El | exact Hcx | done | done | done | done | done | done | done | |].
  { rewrite F8, (ready_enough _ _ _ _ _ Hq). destruct Hok as [_ Hok]. destruct (sd_width d); [| done]. change (Z.of_nat 0) with 0. lia. }
  assert (forall n, number_end inp j (number_spec j q) x n = int_saw_end (sd_width d) (x :: l) n) as Hend.
  { intros n. rewrite <- (number_end_is d (conv_char c) p q x l j n Hq Hok El). unfold number_end. by rewrite !F8. }
  rewrite F9, (ready_lim _ _ _ _ _ Hq). unfold scan_number in Hv. set (t := read_int c (at_most (sd_width d) (x :: l))) in *.
  assert (j + it_len t <= length inp)%nat as Hlen.
  { pose proof (read_int_length c (at_most (sd_width d) (x :: l))) as H1. pose proof (at_most_length (sd_width d) (x :: l)) as H2.
    pose proof (f_equal length El) as H3. rewrite length_drop in H3. fold t in H1. lia. }
  cbv zeta. intros p' b He' Hb. rewrite Hend in He'. cbn [snd fst]. destruct (it_mag t) as [mag |].
  2: { subst b. injection Hv as <-. cbn [negb]. apply wp_ret, wp_ret. eapply stops; [| | | | | | reflexivity]; try done; [cbn; lia | intros _; cbn; by rewrite E2, E3]. }
  destruct Hb as [-> [G1 G2 G3 G4]]. cbn [negb]. rewrite G3, F6.
  assert (f + 1 = in_format i + Z.of_nat (length (scan_item_print (Scan d)))) as Hf
    by (unfold f; rewrite Ep, length_app; cbn [length]; lia).
  rewrite F7 in G4. rewrite <- Nat2Z.inj_add in G4. destruct (sd_suppress d); cbn [negb].
  - apply fmap_Some in Hv as (v' & Hv' & ->). apply wp_ret, wp_ret.
    eapply goes_on_item; [exact Hi | exact Hv' | exact Hf | reflexivity | done | done | done | done | exact Hdn | reflexivity | done | done | done | done | done | done |].
    intros i2 w2 H. cbn [match_ at_io matched at_format at_match] in H. rewrite Hm in H. by apply fin_match.
  - rewrite <- Hargs in Hv. change (in_args (at_io _ _)) with (in_args i). destruct (in_args i) as [| [a |] args']; try done.
    apply wp_bind, wp_va_word. cbn [snd fst]. destruct (a =? NULL) eqn:Enull.
    { injection Hv as <-. apply wp_ret, wp_ret. eapply stops; [| | | | | | reflexivity]; try done; [cbn; lia |]. intros _. cbn. by rewrite orb_true_r. }
    apply fmap_Some in Hv as (v' & Hv' & ->). cbn [and_write and_done and_match v_writes] in Hw. apply Forall_cons in Hw as [[Hmp Haw] Hw].
    cbn [fst snd] in Hmp, Haw. apply wp_bind. eapply (wp_assign c (sd_size d)); [destruct G2; by split | exact G1 | |].
    { rewrite length_le_bytes in Hmp. rewrite Z2Nat.id in Hmp by (destruct (conv_bits_cases c (sd_size d)) as [-> | [-> | [-> | ->]]]; done). exact Hmp. }
    apply wp_ret, wp_ret.
    eapply goes_on_item; [exact Hi | exact Hv' | exact Hf | reflexivity | exact G4 | exact He' | done | done | reflexivity | reflexivity | done | done | done | done |
      by apply readable_wr | rewrite memof_setm; by apply writable_wr |].
    intros i2 w2 H. cbn [match_ doneCount at_io matched at_format at_match at_done at_args] in H. rewrite Hm, Hdn in H.
    by apply fin_write, fin_done, fin_match.
Qed.

(** *** A percent sign *)
Lemma wp_percent its i k e args dm m v w : item_state i (PercentSign :: its) k e args dm m -> readable w ->
  scan (PercentSign :: its) inp k e args = Some v -> writable (memof w) (v_writes v) ->
  wp (input_round fuel i) (round_post its dm m v w) w.
Proof.
  intros Hi Hr Hv Hw. set (d := ScanDirective false None Plain Chars).
  pose proof Hi as [_ (p & Eio & Hcp & He) Hk Hargs Hdn Hm Hfl (E1 & E2 & E3)].
  eapply (wp_front d PercentSign _ _ _ _ _ _ _ (chr "%") []); [exact Hi | done | done | reflexivity | done | exact Eio |].
  intros q Hq. apply wp_bind. set (f := in_format i + _). cbn [scan] in Hv. fold (spaces k) in Hv.
  eapply (wp_tail_skip _ f i k p); [done | done | exact Eio | done | by exists d | done | |].
  { intros El. rewrite El in Hv. injection Hv as <-. apply wp_ret.
    rewrite drop_drop in El. eapply stops; [| | | | | | reflexivity]; try done; [cbn; lia | cbn; by rewrite (ch_at_nil inp _ El)]. }
  intros x l El. rewrite El in Hv. rewrite drop_drop in El. cbv zeta. rewrite (rd_ori _ _ _ _ Hq).
  change (SECUREC_TO_LOWERCASE (chr "%")) with (chr "%"). change (existsb (Z.eqb (chr "%")) (chars "poudix")) with false.
  change (existsb (Z.eqb (chr "%")) (chars "efg")) with false. change (chr "%" =? chr "n") with false.
  change ((chr "%" =? chr "c") || (chr "%" =? chr "s") || (chr "%" =? SECUREC_BRACE)) with false. cbv iota.
  pose proof (spaces_le inp k Hk) as Hj. set (j := (k + spaces k)%nat) in *.
  destruct (ch_at_drop _ Hchars _ _ _ El) as (Hcx & Hx & _ & Hlt). unfold input_other. cbn [in_io at_io snd].
  change (ch (seen_at j q)) with (ch_at j). rewrite Hcx, (Z.eqb_sym (chr "%")). destruct (x =? chr "%") eqn:Ex; cbn [negb].
  - apply wp_ret, wp_ret.
    eapply (goes_on_item i _ PercentSign its k (j + 1)%nat); [exact Hi | exact Hv | | unfold past; by rewrite bool_decide_eq_true_2, Nat.add_1_r by done | | | lia | exact Hargs | exact Hdn | exact Hm | done ..].
    + change (in_format (at_format ?y _)) with y. unfold f. cbn. lia.
    + cbn. lia.
    + cbn. rewrite Hcx. unfold is_char, EOF in *. lia.
  - injection Hv as <-. apply wp_ret, wp_ret.
    assert (forall g, unget_ch (past j, seen_at j q) = g -> g = (st j, seen_ch inp j (with_charCount (Z.of_nat j) q))) as Eu.
    { intros g <-. rewrite <- unget_next by done. unfold after_ch, past, seen_at. by destruct q. }
    eapply stops; [| | | | | | reflexivity]; try done; [cbn; lia |]. cbn [in_io format_err at_io]. rewrite (Eu _ eq_refl). cbn. rewrite Hcx. unfold is_char, EOF in *. lia.
Qed.

(** *** The number of characters *)
Lemma wp_count d its i k e args dm m v w : sd_conv d = Count -> item_state i (Scan d :: its) k e args dm m -> readable w ->
  scan_directive_ok d -> scan (Scan d :: its) inp k e args = Some v -> writable (memof w) (v_writes v) ->
  wp (input_round fuel i) (round_post its dm m v w) w.
Proof.
  intros Ed Hi Hr Hok Hv Hw.
  assert (scan_item_print (Scan d) = directive_front d ++ [chr "n"]) as Ep by (cbn [scan_item_print]; by rewrite directive_front_print, Ed).
  pose proof Hi as [_ (p & Eio & Hcp & He) Hk Hargs Hdn Hm Hfl (E1 & E2 & E3)].
  eapply (wp_front d (Scan d)); [exact Hi | done | done | exact Ep | done | exact Eio |]. intros q Hq. apply wp_bind.
  set (f := in_format i + _). cbn [scan] in Hv. rewrite Ed in Hv. unfold scan_count in Hv.
  unfold directive_tail. cbn [in_io at_format]. rewrite Eio, (rd_conv _ _ _ _ Hq), (rd_ori _ _ _ _ Hq).
  change (SECUREC_TO_LOWERCASE (chr "n")) with (chr "n"). change (existsb (Z.eqb (chr "n")) (chars "poudix")) with false.
  change ((chr "n" =? chr "c") || (chr "n" =? chr "s") || (chr "n" =? SECUREC_BRACE)) with false. change (chr "n" =? chr "n") with true.
  cbn [negb andb fst snd]. apply wp_bind, wp_ret. unfold input_count. cbn [in_io at_io snd fst].
  assert (f + 1 = in_format i + Z.of_nat (length (scan_item_print (Scan d)))) as Hf
    by (unfold f; rewrite Ep, length_app; cbn [length]; lia).
  rewrite (rd_suppress _ _ _ _ Hq). destruct (sd_suppress d) eqn:Esup; cbn [negb].
  - apply fmap_Some in Hv as (v' & Hv' & ->). apply wp_ret, wp_ret.
    eapply goes_on_item; [exact Hi | exact Hv' | exact Hf | reflexivity | by rewrite (rd_count _ _ _ _ Hq) | by rewrite (rd_ch _ _ _ _ Hq) | done | done | exact Hdn | reflexivity | done | done | done | done | done | done |].
    intros i2 w2 H. cbn [match_ at_io matched at_format at_match] in H. rewrite Hm in H. by apply fin_match.
  - rewrite <- Hargs in Hv. change (in_args (at_io _ _)) with (in_args i). destruct (in_args i) as [| [a |] args']; try done.
    apply wp_bind, wp_va_word. cbn [snd fst]. destruct (a =? NULL) eqn:Enull.
    { injection Hv as <-. apply wp_ret, wp_ret. eapply stops; [| | | | | | reflexivity]; try done;
        [cbn; lia | cbn; by rewrite (rd_ch _ _ _ _ Hq) | intros _; cbn; by rewrite orb_true_r]. }
    apply fmap_Some in Hv as (v' & Hv' & ->). cbn [and_write and_done and_match v_writes] in Hw. apply Forall_cons in Hw as [[Hmp Haw] Hw].
    cbn [fst snd] in Hmp, Haw. rewrite length_le_bytes in Hmp. apply wp_bind.
    change (charCount (with_argPtr a q)) with (charCount q). rewrite (rd_count _ _ _ _ Hq), Hcp.
    set (p' := with_numberArgType 0 _). set (n := match sd_size d with HH => 1 | H => 2 | Plain => 4 | _ => 8 end%nat) in *.
    eapply wp_mono with (P := fun _ w' => w' = setm (wr (memof w) a (le_bytes n (u32 (Z.of_nat k)))) w).
    { assert (numberWidth p' = numberWidth q) as Ew by done. unfold SecAssignNumber. change (numberArgType p') with 0. rewrite Ew, (rd_bits _ _ _ _ Hq).
      unfold n in *. destruct (sd_size d); by apply wp_stn. }
    intros [] w' ->. apply wp_ret, wp_ret.
    eapply goes_on_item; [exact Hi | exact Hv' | exact Hf | reflexivity | by rewrite <- Hcp, <- (rd_count _ _ _ _ Hq) | by rewrite <- He, <- (rd_ch _ _ _ _ Hq) | done | done | reflexivity | reflexivity | done | done | done | done |
      by apply readable_wr | rewrite memof_setm; by apply writable_wr |].
    intros i2 w2 H. cbn [match_ doneCount at_io matched at_format at_match at_done at_args] in H. rewrite Hm, Hdn in H.
    by apply fin_write, fin_match.
Qed.

(** *** Characters and strings *)
Definition is_text (c : scan_conv) : bool := match c with Chars | Str | Bracket _ _ => true | _ => false end.
Definition is_chars (c : scan_conv) : bool := match c with Chars => true | _ => false end.
Definition text_width (d : scan_directive) : option (list Z) :=
  if is_chars (sd_conv d) then Some (default [chr "1"] (sd_width d)) else sd_width d.

(** The set that is ready for the conversion. *)
Definition table_ok (c : scan_conv) (b : SecBracketTable) : Prop :=
  match c with
  | Bracket neg set => exists t, b = BracketTable t (if neg then 0xff else 0) /\ length t = 32%nat /\ forall x, fits 8 x -> in_bits t x = in_set set x
  | _ => True
  end.
Lemma can_input c b p : table_ok c b -> is_text c = true -> is_char (ch p) -> convChr p = SECUREC_TO_LOWERCASE (conv_first c) ->
  SecCanInput p b = accepts c (ch p).
Proof.
  intros Hb Hc Hch Hcv. unfold SecCanInput. rewrite Hcv. replace (ch p =? EOF) with false by (unfold is_char, EOF in *; lia). cbn [negb andb].
  destruct c as [| | | neg set |]; try done; cbn [conv_first accepts].
  - unfold SecCanInputCharacter, SecCanInputString, SecCanInputForBracket. change (SECUREC_TO_LOWERCASE (chr "s")) with (chr "s").
    change (chr "s" =? chr "c") with false. change (chr "s" =? chr "s") with true. change (chr "s" =? SECUREC_BRACE) with false.
    unfold isspace. cbn [andb orb]. rewrite orb_false_r. by rewrite negb_orb.
  - destruct Hb as (t & -> & Hl & Ht). change (SECUREC_TO_LOWERCASE (chr "[")) with SECUREC_BRACE.
    change (SecCanInputCharacter SECUREC_BRACE) with false. change (SecCanInputString SECUREC_BRACE (ch p)) with false. cbn [orb].
    by apply can_input_bracket.
Qed.

Definition as_chars (p : SecScanSpec) : SecScanSpec :=
  if (oriConvChr p =? chr "c") && (widthSet p =? 0) then with_fieldWidth 1 (with_widthSet 1 p) else p.
Definition text_spec (k : nat) (q : SecScanSpec) : SecScanSpec := seen_ch inp k (with_charCount (Z.of_nat k) (as_chars q)).
Lemma unget_text k q : (k <= length inp)%nat -> unget_ch (past k, as_chars (seen_at k q)) = (st k, text_spec k q).
Proof.
  intros Hk. unfold text_spec. rewrite <- unget_next by done. unfold after_ch, past, seen_at, as_chars. by destruct q, (_ && _).
Qed.

(** Ready to read the text from [k] on. *)
Record text_ready (d : scan_directive) (k : nat) (q : SecScanSpec) : Prop := {
  tr_lim : forall l, lim q l = at_most (text_width d) l;
  tr_enough : forall n, enough q n = match text_width d with Some ds => Z.of_nat n <? number_of ds | None => true end;
  tr_conv : convChr q = SECUREC_TO_LOWERCASE (conv_first (sd_conv d));
  tr_wide : isWCharOrLong q <= 0;
  tr_sup : (suppress q =? 0) = negb (sd_suppress d);
  tr_count : charCount q = Z.of_nat k;
  tr_ch : ch q = ch_at k;
}.
Lemma text_spec_ready d p q k : spec_ready d (conv_first (sd_conv d)) p q -> is_text (sd_conv d) = true -> scan_directive_ok d ->
  text_ready d k (text_spec k q).
Proof.
  intros Hr Ht [Hok _].
  assert (isWCharOrLong q <= 0) as Hw.
  { apply (rd_wide _ _ _ _ Hr); destruct (sd_conv d); try done. by destruct Hok. }
  pose proof (fun l => ready_lim _ _ _ _ l Hr) as Hl. pose proof (fun n => ready_enough _ _ _ _ n Hr) as He.
  unfold text_spec, as_chars. rewrite (rd_ori _ _ _ _ Hr), (rd_set _ _ _ _ Hr).
  assert ((SECUREC_TO_LOWERCASE (conv_first (sd_conv d)) =? chr "c") = is_chars (sd_conv d)) as -> by (by destruct (sd_conv d)).
  destruct Hr as [A1 A2 A3 A4 A5 A6 A7 A8 _ A9 A10 A11 A12]. destruct (is_chars (sd_conv d)) eqn:Ec; cbn [andb]; [destruct (sd_width d) eqn:Ew |].
  - rewrite bool_decide_eq_false_2 by done. split; try done; intros; unfold text_width; rewrite Ec, Ew; [apply Hl | apply He].
  - rewrite bool_decide_eq_true_2 by done. split; try done; intros; unfold text_width; by rewrite Ec, Ew.
  - split; try done; intros; unfold text_width; rewrite Ec; [apply Hl | apply He].
Qed.

Lemma text_end_is d k q x l n : text_ready d k q -> drop k inp = x :: l ->
  (if enough q n then bool_decide (k + n = length inp)%nat else if bool_decide (n = O) then ch q =? EOF else false) =
  saw_end (text_width d) (x :: l) n.
Proof.
  intros Hr El. destruct (ch_at_drop _ Hchars _ _ _ El) as (Hcx & Hx & _ & Hlt). rewrite (tr_enough _ _ _ Hr), (tr_ch _ _ _ Hr), Hcx.
  replace (x =? EOF) with false by (unfold is_char, EOF in *; lia). unfold saw_end.
  assert (length inp = k + S (length l))%nat as Hl.
  { pose proof (f_equal length El) as E. rewrite length_drop in E. cbn [length] in E. lia. }
  replace (bool_decide (k + n = length inp)%nat) with (bool_decide (n = length (x :: l))) by (apply bool_decide_ext; cbn [length]; lia).
  match goal with |- (if ?b then _ else _) = _ => destruct b end; [by rewrite andb_true_r | rewrite andb_false_r; by destruct (bool_decide _)].
Qed.

(** The set is read, if there is one. *)
Lemma wp_text_set d i f rest (Q : input + input -> world G D -> Prop) w :
  str_at (memof w) f (scan_conv_print (sd_conv d) ++ rest) -> in_format i = f -> scan_directive_ok d -> is_text (sd_conv d) = true ->
  (length (scan_conv_print (sd_conv d)) < fuel)%nat -> convChr (in_io i).2 = SECUREC_TO_LOWERCASE (conv_first (sd_conv d)) ->
  (forall b, table_ok (sd_conv d) b -> Q (inl (at_table b (at_format (f + Z.of_nat (length (scan_conv_print (sd_conv d))) - 1) i))) w) ->
  wp (text_set fuel i) Q w.
Proof.
  intros Hs <- [Hok _] Ht Hn Hcv HQ. unfold text_set. rewrite Hcv. destruct (sd_conv d) as [| | | neg set |]; try done; cbn [conv_first].
  - change (SECUREC_TO_LOWERCASE (chr "c") =? SECUREC_BRACE) with false. cbv iota. apply wp_ret.
    specialize (HQ (Scanf.in_table i) I). cbn [scan_conv_print length] in HQ. replace (_ + Z.of_nat 1 - 1) with (in_format i) in HQ by lia. by destruct i.
  - change (SECUREC_TO_LOWERCASE (chr "s") =? SECUREC_BRACE) with false. cbv iota. apply wp_ret.
    specialize (HQ (Scanf.in_table i) I). cbn [scan_conv_print length] in HQ. replace (_ + Z.of_nat 1 - 1) with (in_format i) in HQ by lia. by destruct i.
  - change (SECUREC_TO_LOWERCASE (chr "[") =? SECUREC_BRACE) with true. cbv iota. apply wp_bind.
    assert (exists l, scan_conv_print (Bracket neg set) = l ++ [chr "]"]) as [l El] by (cbn [scan_conv_print]; rewrite !app_assoc; by eexists).
    destruct Hok as [_ Hok]. eapply (wp_bracket neg set); [exact Hs | by split | done | done | |].
    { intros x Hx. unfold in_bits. change (nth _ _ 0) with (nth (Z.to_nat (x / 8)) (replicate 32 0) 0).
      replace (nth _ _ 0) with 0; [by rewrite Z.bits_0 |]. symmetry. rewrite nth_lookup. destruct (replicate 32 0 !! _) eqn:E; [| done].
      by apply lookup_replicate in E as [-> _]. }
    intros t Hlt Hin. cbn [at_table at_format in_io]. apply wp_bind.
    assert (memof w !! (in_format i + Z.of_nat (length (scan_conv_print (Bracket neg set))) - 1) = Some (chr "]")) as Hc.
    { rewrite El in Hs |- *. rewrite <- app_assoc in Hs. apply str_at_skip, str_at_cons in Hs as (Hc & _ & _). rewrite length_app. cbn [length].
      by replace (in_format i + Z.of_nat (length l + 1) - 1) with (in_format i + Z.of_nat (length l)) by lia. }
    eapply wp_ld8; [exact Hc |]. change (chr "]" =? 0) with false. cbv iota. apply wp_ret.
    specialize (HQ (BracketTable t (if neg then 0xff else 0))). destruct i. apply HQ. by eexists.
Qed.

(** The arguments of a text are taken, or the reading ends. *)
Lemma wp_text_arg d i k q (Q : input + input -> world G D -> Prop) w :
  is_text (sd_conv d) = true -> in_io i = (st k, q) -> text_ready d k q ->
  (if sd_suppress d then forall q', text_ready d k q' -> Q (inl (at_io (st k, q') i)) w
   else exists a args', in_args i = Word a :: args' /\
     if a =? NULL then forall q', ch q' = ch q -> Q (inr (null_err (at_io (st k, q') (at_args args' i)))) w
     else exists n args2, args' = Word n :: args2 /\
       let size := Z.land n 0xffffffff in
       if (size =? 0) || (SECUREC_STRING_MAX_LEN <? size) then forall q', ch q' = ch q -> Q (inr (err (at_io (st k, q') (at_args args2 i)))) w
       else forall q', text_ready d k q' -> argPtr q' = a -> arrayWidth q' = (if is_chars (sd_conv d) then size else size - 1) ->
         Q (inl (at_io (st k, q') (at_args args2 i))) w) ->
  wp (text_arg i) Q w.
Proof.
  intros Ht Eio [B1 B2 B3 B4 B5 B6 B7] HQ. unfold text_arg. rewrite Eio. cbn [fst snd]. rewrite B5. destruct (sd_suppress d) eqn:Esup; cbn [negb].
  - apply wp_ret, HQ. split; try done. by rewrite Esup.
  - destruct HQ as (a & args' & -> & HQ). apply wp_bind, wp_va_word. cbn [fst snd].
    destruct (a =? NULL); [by apply wp_ret, HQ |]. destruct HQ as (n & args2 & -> & HQ). change (in_args (at_args ?y i)) with y.
    apply wp_bind, wp_va_word. cbn [fst snd]. cbv zeta in HQ. set (size := Z.land n _) in *.
    assert (SECUREC_ARRAY_WIDTH_IS_WRONG (with_arrayWidth size (with_argPtr a q)) = (size =? 0) || (SECUREC_STRING_MAX_LEN <? size)) as ->.
    { unfold SECUREC_ARRAY_WIDTH_IS_WRONG. cbn [arrayWidth isWCharOrLong with_arrayWidth with_argPtr].
      replace (isWCharOrLong q <=? 0) with true by lia. replace (0 <? isWCharOrLong q) with false by lia. by rewrite orb_false_r. }
    destruct ((size =? 0) || (SECUREC_STRING_MAX_LEN <? size)); [by apply wp_ret, HQ |]. apply wp_ret.
    change (convChr (with_arrayWidth size (with_argPtr a q))) with (convChr q). rewrite B3.
    replace (SECUREC_TO_LOWERCASE (conv_first (sd_conv d)) =? chr "c") with (is_chars (sd_conv d)) by (by destruct (sd_conv d)).
    destruct (is_chars (sd_conv d)) eqn:Ec; cbn [negb]; (apply HQ; [split; try done; by rewrite Esup | done | done]).
Qed.

(** Where the conversion is in the format, and what it reads in the text. *)
Lemma text_item_facts d its i k e args dm m w j l x f : item_state i (Scan d :: its) k e args dm m -> readable w -> drop j inp = x :: l ->
  f = in_format i + Z.of_nat (length (directive_front d)) ->
  str_at (memof w) f (scan_conv_print (sd_conv d) ++ scan_print its) /\ (length (scan_conv_print (sd_conv d)) < fuel)%nat /\
  f + Z.of_nat (length (scan_conv_print (sd_conv d))) - 1 + 1 = in_format i + Z.of_nat (length (scan_item_print (Scan d))) /\
  (j + length (run_of (accepts (sd_conv d)) (at_most (text_width d) (x :: l))) <= length inp)%nat.
Proof.
  intros Hi Hr El ->. split_and!.
  - pose proof (item_text _ _ _ _ _ _ _ _ _ Hi Hr) as Hs. cbn [scan_item_print] in Hs. rewrite directive_front_print, <- app_assoc in Hs.
    by apply str_at_skip in Hs.
  - pose proof Hi as [(pre & E & _) _ _ _ _ _ _ _]. rewrite E in Hfull. unfold scan_print in Hfull. cbn [mbind list_bind scan_item_print] in Hfull.
    rewrite directive_front_print, !length_app in Hfull. lia.
  - cbn [scan_item_print]. rewrite directive_front_print, length_app. lia.
  - pose proof (run_of_length (accepts (sd_conv d)) (at_most (text_width d) (x :: l))). pose proof (at_most_length (text_width d) (x :: l)).
    pose proof (f_equal length El) as E. rewrite length_drop in E. cbn [length] in *. lia.
Qed.

Lemma wp_input_text d its i k e args dm m v w j q f l x :
  is_text (sd_conv d) = true -> item_state i (Scan d :: its) k e args dm m -> readable w ->
  scan_directive_ok d -> drop j inp = x :: l -> scan_text d (x :: l) args (fun n => scan its inp (j + n)) = Some v ->
  writable (memof w) (v_writes v) -> f = in_format i + Z.of_nat (length (directive_front d)) ->
  spec_ready d (conv_first (sd_conv d)) (in_io i).2 q -> 
  wp (input_text fuel (at_io (past j, seen_at j q) (at_format f i))) (fun i' => round_post its dm m v w (inl i')) w.
Proof.
  intros Ht Hi Hr Hok El Hv Hw Ef Hq.
  destruct (ch_at_drop _ Hchars _ _ _ El) as (Hcx & Hx & _ & Hlt). pose proof (text_spec_ready d _ q j Hq Ht Hok) as Hrt.
  pose proof Hi as [_ _ Hk Hargs Hdn Hm Hfl (E1 & E2 & E3)].
  unfold input_text. cbn [in_io at_io snd fst]. fold (as_chars (seen_at j q)). rewrite unget_text by lia.
  assert (ch (text_spec j q) = x) as Hchx by (by rewrite (tr_ch _ _ _ Hrt)). apply wp_bind.
  set (i1 := at_io (st j, text_spec j q) _). assert (in_io i1 = (st j, text_spec j q)) as Eio1 by done.
  eapply (wp_text_arg d i1 j (text_spec j q)); [done | done | done |].
  assert ((x =? EOF) = false) as Hxe by (unfold is_char, EOF in *; lia).
  unfold scan_text in Hv. fold (is_chars (sd_conv d)) in Hv. fold (text_width d) in Hv. set (s := run_of _ _) in Hv.
  destruct (text_item_facts d its i k e args dm m w j l x f Hi Hr El Ef) as (Hs & Hlf & Hf & Hjs). fold s in Hjs.
  destruct (sd_suppress d) eqn:Esup.
  - intros q' Hq'. apply wp_bind. eapply (wp_text_set d _ f); [exact Hs | done | done | done | done | apply (tr_conv _ _ _ Hq') |].
    intros b Hb. apply wp_bind. cbn [in_io at_table at_format at_io Scanf.in_table].
    eapply (wp_skip_string fuel buf inp Hbuf Hchars Hfuel b (SECUREC_TO_LOWERCASE (conv_first (sd_conv d))) (accepts (sd_conv d)));
      [intros p0 Hp1 Hp2; by apply can_input | apply Hr | lia | apply (tr_conv _ _ _ Hq') | pose proof (tr_sup _ _ _ Hq') as H; rewrite Esup in H; cbn in H; lia |].
    rewrite El, (tr_lim _ _ _ Hq'). fold s. intros p' Hp'.
    pose proof (tx_end _ _ _ _ _ Hp') as He. rewrite (text_end_is d j q' x l _ Hq' El) in He. pose proof (tx_count _ _ _ _ _ Hp') as Hc.
    rewrite (tr_count _ _ _ Hq') in Hc. destruct (bool_decide (length s = O)) eqn:E0; cbn [negb fst snd].
    + injection Hv as <-. apply wp_ret. eapply stops; [| exact He | | exact Hdn | exact Hm | done | reflexivity]; [cbn; lia | intros _; cbn; by rewrite E2, E3].
    + apply fmap_Some in Hv as (v' & Hv' & ->). apply wp_ret.
      eapply goes_on_item; [exact Hi | exact Hv' | exact Hf | reflexivity | cbn; lia | exact He | lia | done | exact Hdn | reflexivity | done | done | done | done | done | done |].
      intros i2 w2 H. cbn [match_ matched at_format at_match at_io at_done at_table] in H. unfold i1 in H. cbn [match_ at_io at_format] in H. rewrite Hm in H. by apply fin_match.
  - change (in_args i1) with (in_args i). rewrite Hargs. destruct args as [| [a |] args']; try done.
    exists a, args'. split; [done |]. destruct (a =? NULL).
    { intros q' Hq'. injection Hv as <-. apply wp_ret.
      eapply stops; [| | | exact Hdn | exact Hm | done | reflexivity]; [cbn; lia | cbn; by rewrite Hq', Hchx | intros _; cbn; by rewrite orb_true_r]. }
    destruct args' as [| [n |] args2]; try done. exists n, args2. split; [done |]. cbv zeta in Hv |- *. set (size := Z.land n _) in *.
    destruct ((size =? 0) || (SECUREC_STRING_MAX_LEN <? size)) eqn:Esz.
    { intros q' Hq'. injection Hv as <-. apply wp_ret.
      eapply stops; [| | | exact Hdn | exact Hm | done | reflexivity]; [cbn; lia | cbn; by rewrite Hq', Hchx | intros _; cbn; by rewrite E2, E3]. }
    intros q' Hq' Hap Haw. apply wp_bind. eapply (wp_text_set d _ f); [exact Hs | done | done | done | done | apply (tr_conv _ _ _ Hq') |].
    intros b Hb. apply wp_bind. cbn [in_io at_table at_format at_io Scanf.in_table at_args].
    assert ((if is_chars (sd_conv d) then size else size - 1) = arrayWidth q') as Eaw by done.
    assert (0 <= arrayWidth q') as Haw0.
    { assert (0 <= size) by (apply Z.land_nonneg; by right). rewrite Haw. destruct (is_chars (sd_conv d)); lia. }
    eapply (wp_put_string fuel buf inp Hbuf Hchars Hfuel b (SECUREC_TO_LOWERCASE (conv_first (sd_conv d))) (accepts (sd_conv d)));
      [intros p0 Hp1 Hp2; by apply can_input | apply Hr | lia | apply (tr_conv _ _ _ Hq') |
       pose proof (tr_sup _ _ _ Hq') as H; rewrite Esup in H; cbn in H; lia | apply (tr_wide _ _ _ Hq') | done |].
    rewrite El, (tr_lim _ _ _ Hq'), Hap. fold s. cbv zeta. rewrite Eaw in Hv. change (doneCount _) with (doneCount i).
    replace (SECUREC_TO_LOWERCASE (conv_first (sd_conv d)) =? chr "c") with (is_chars (sd_conv d)) by (by destruct (sd_conv d)).
    destruct (_ <? length s)%nat eqn:Eroom.
    + injection Hv as <-. cbn [v_writes and_write] in Hw. apply Forall_cons in Hw as [[Hm1 Ha1] [[Hm2 Ha2] _]%Forall_cons]. cbn [fst snd length] in *.
      split; [split; [done | apply Ha1] |]. split; [done |]. intros x' p' Hp'. apply wp_ret. right. split; [cbn; lia |].
      apply fin_write, fin_write. rewrite memof_setm, setm_setm.
      apply fin_stop; [cbn; unfold EOF in *; lia | intros _; cbn; by rewrite E2, E3 | exact Hdn | exact Hm | done].
    + destruct (bool_decide (length s = O)) eqn:E0.
      * injection Hv as <-. intros p' Hp'. pose proof (tx_end _ _ _ _ _ Hp') as He. rewrite (text_end_is d j q' x l _ Hq' El) in He. apply wp_ret.
        eapply stops; [| exact He | | exact Hdn | exact Hm | done | reflexivity]; [cbn; lia | intros _; cbn; by rewrite E2, E3].
      * apply fmap_Some in Hv as (v' & Hv' & ->). cbn [and_write and_done and_match v_writes] in Hw. apply Forall_cons in Hw as [[Hmp Haw'] Hw].
        cbn [fst snd] in Hmp, Haw'. split; [split; [done | apply Haw'] |]. intros p' Hp'.
        pose proof (tx_end _ _ _ _ _ Hp') as He. rewrite (text_end_is d j q' x l _ Hq' El) in He. pose proof (tx_count _ _ _ _ _ Hp') as Hc.
        rewrite (tr_count _ _ _ Hq') in Hc. apply wp_ret.
        eapply goes_on_item; [exact Hi | exact Hv' | exact Hf | reflexivity | lia | exact He | lia | done | reflexivity | reflexivity | done | done | done | done |
          by apply readable_wr | rewrite memof_setm; by apply writable_wr |].
        intros i2 w2 H. apply fin_write, fin_done, fin_match. rewrite <- Hdn, <- Hm. exact H.
Qed.

(** The first character is taken as it is. *)
Lemma wp_tail_get c f i k p (Q : input -> world G D -> Prop) w :
  readable w -> (k <= length inp)%nat -> in_io i = (st k, p) ->
  (SECUREC_TO_LOWERCASE c =? chr "c") || (SECUREC_TO_LOWERCASE c =? SECUREC_BRACE) = true ->
  forall q d, spec_ready d c p q -> charCount p = Z.of_nat k ->
  let i' := at_io (past k, seen_at k q) (at_format f i) in
  (drop k inp = [] -> Q (err i') w) ->
  (forall x l, drop k inp = x :: l -> wp (input_text fuel i') Q w) ->
  wp (directive_tail c (at_format f i) q) Q w.
Proof.
  intros Hr Hk Hio Hc q d Hq Hcc i' Hend HQ. unfold directive_tail. cbn [in_io at_format] in Hio |- *.
  rewrite Hio, (rd_conv _ _ _ _ Hq), (rd_ori _ _ _ _ Hq). set (o := SECUREC_TO_LOWERCASE c) in *. clearbody o.
  assert ((o =? chr "n") = false /\ negb (o =? chr "c") && negb (o =? SECUREC_BRACE) = false) as [-> ->].
  { unfold SECUREC_BRACE in *. apply orb_true_iff in Hc as [->%Z.eqb_eq | ->%Z.eqb_eq]; done. }
  cbn [negb andb fst snd]. apply wp_bind, wp_get_ch; [done | apply Hr | done |].
  assert (after_ch buf inp k q = (past k, seen_at k q)) as -> by (unfold after_ch, past, seen_at; by rewrite (rd_count _ _ _ _ Hq), Hcc).
  fold i'. cbn [snd]. change (ch (seen_at k q)) with (ch_at k). destruct (drop k inp) as [| x l] eqn:El.
  - rewrite (ch_at_nil inp _ El). change (EOF =? EOF) with true. cbv iota. apply wp_ret. by apply Hend.
  - destruct (ch_at_drop _ Hchars _ _ _ El) as (Hcx & Hx & _ & _). rewrite Hcx. replace (x =? EOF) with false by (unfold is_char, EOF in *; lia).
    assert ((o =? chr "c") || (o =? chr "s") || (o =? SECUREC_BRACE) = true) as ->.
    { destruct (o =? chr "c"), (o =? chr "s"); done. }
    by eapply HQ.
Qed.

Lemma wp_text d its i k e args dm m v w : is_text (sd_conv d) = true -> item_state i (Scan d :: its) k e args dm m -> readable w ->
  scan_directive_ok d -> scan (Scan d :: its) inp k e args = Some v -> writable (memof w) (v_writes v) ->
  wp (input_round fuel i) (round_post its dm m v w) w.
Proof.
  intros Ht Hi Hr Hok Hv Hw.
  assert (exists more, scan_item_print (Scan d) = directive_front d ++ conv_first (sd_conv d) :: more) as [more Ep].
  { cbn [scan_item_print]. rewrite directive_front_print. by destruct (sd_conv d); try done; eexists. }
  assert (is_conv_char (conv_first (sd_conv d))) as Hcc by (by destruct (sd_conv d)).
  pose proof Hi as [_ (p & Eio & Hcp & He) Hk Hargs Hdn Hm Hfl (E1 & E2 & E3)].
  eapply (wp_front d (Scan d)); [exact Hi | done | done | exact Ep | done | exact Eio |]. intros q Hq. apply wp_bind.
  set (f := in_format i + _).
  assert (forall j, drop j inp = [] -> Some v = Some (stop true false) -> (charCount p = Z.of_nat k) ->
    wp (mret (inl (err (at_io (past j, seen_at j q) (at_format f i))))) (round_post its dm m v w) w) as Hend.
  { intros j El [= ->] _. apply wp_ret. eapply stops; [| | | | | | reflexivity]; try done; [cbn; lia | cbn; by rewrite (ch_at_nil inp _ El)]. }
  assert (forall j x l, drop j inp = x :: l -> scan_text d (x :: l) args (fun n => scan its inp (j + n)) = Some v ->
    wp (input_text fuel (at_io (past j, seen_at j q) (at_format f i))) (fun a w' => wp (mret (inl a)) (round_post its dm m v w) w') w) as Htext.
  { intros j x l El Hs. eapply wp_mono; [eapply wp_input_text; try done; by rewrite Eio |]. intros i' w' H. by apply wp_ret. }
  assert (sd_conv d = Str \/ sd_conv d <> Str) as [Estr | Estr] by (destruct (sd_conv d); (by left) || by right).
  - cbn [scan] in Hv. rewrite Estr in Hv. fold (spaces k) in Hv.
    rewrite Estr in Hq |- *. cbn [conv_first] in Hq |- *.
    eapply (wp_tail_skip _ f i k p); [done | done | exact Eio | done | by exists d | done | |].
    + intros El. rewrite El in Hv. rewrite bool_decide_eq_true_2 in Hv by done. rewrite drop_drop in El. by apply Hend.
    + intros x l El. rewrite El in Hv. rewrite bool_decide_eq_false_2 in Hv by done. rewrite drop_drop in El. cbv zeta.
      rewrite (rd_ori _ _ _ _ Hq). change (SECUREC_TO_LOWERCASE (chr "s")) with (chr "s").
      change ((chr "s" =? chr "c") || (chr "s" =? chr "s") || (chr "s" =? SECUREC_BRACE)) with true. cbv iota. by eapply Htext.
  - assert (scan (Scan d :: its) inp k e args = if bool_decide (drop k inp = []) then Some (stop true false)
        else scan_text d (drop k inp) args (fun n => scan its inp (k + n))) as Ev.
    { cbn [scan]. destruct (sd_conv d); try done; by rewrite Nat.add_0_r, drop_0. }
    rewrite Ev in Hv.
    eapply (wp_tail_get _ f i k p); [done | done | exact Eio | by destruct (sd_conv d) | exact Hq | done | |].
    + intros El. rewrite El in Hv. rewrite bool_decide_eq_true_2 in Hv by done. by apply Hend.
    + intros x l El. rewrite El in Hv. rewrite bool_decide_eq_false_2 in Hv by done. by eapply Htext.
Qed.

(** ** The whole format *)
Lemma wp_input_loop n its i k e args dm m v w : item_state i its k e args dm m -> readable w -> scan_items_ok its ->
  scan its inp k e args = Some v -> writable (memof w) (v_writes v) -> (length its + 1 < n)%nat ->
  wp (loop n (input_round fuel) i) (fin dm m v w) w.
Proof.
  revert n i k e args dm m v w. induction its as [| it its IH]; intros n i k e args dm m v w Hi Hr Hok Hv Hw Hn;
    (destruct n as [| n]; [lia |]); rewrite loop_S; apply wp_bind.
  - injection Hv as <-. pose proof Hi as [(pre & E & Ef) (p & Eio & Hcp & He) Hk Hargs Hdn Hm Hfl (E1 & E2 & E3)].
    unfold input_round. rewrite E1. cbn [Z.ltb Z.compare]. rewrite Ef. destruct Hr as [_ Hs].
    rewrite E in Hs. apply str_at_skip, str_at_nil in Hs. apply wp_bind. eapply wp_ld8; [exact Hs |]. apply wp_ret, wp_ret.
    apply fin_stop; [by rewrite Eio | intros _; by rewrite E2, E3 | done | done | done].
  - cbn [length] in Hn. destruct Hok as (Hit & Hnext & Hok).
    assert (wp (input_round fuel i) (round_post its dm m v w) w) as Hround.
    { destruct it as [cs | c | | d].
      - by eapply wp_blank.
      - by eapply wp_exactly.
      - by eapply wp_percent.
      - destruct (sd_conv d) eqn:Ed; [by eapply wp_int | eapply wp_text; try done; by rewrite Ed .. | by eapply wp_count]. }
    eapply wp_mono; [exact Hround |]. intros [i' | i'] w' Hpost; [| by apply wp_ret].
    destruct Hpost as [(k' & e' & args' & v' & d' & m' & Hv' & Hi' & Hr' & Hw' & Hfin) | [Herr Hfin]].
    + eapply wp_mono; [eapply IH; try done; lia |]. intros i2 w2 H. by apply Hfin.
    + destruct n as [| n]; [lia |]. rewrite loop_S. apply wp_bind. unfold input_round. replace (errRet i' <? 1) with false by lia.
      by apply wp_ret, wp_ret.
Qed.
End Rounds.
