(* ===== verification/ScanfContract.v ===== *)
(** * ScanfContract: what the functions of formatted input promise, with examples *)
From stdpp Require Import prelude gmap list strings.
From Stdlib Require Import ZArith Lia.
From S2P Require Import Prelude Hw Mem Securec Printf PrintfSpec PrintfProps PrintfConv PrintfLoop PrintfOutProps PrintfContract Scanf ScanfSpec ScanfProps ScanfNumber ScanfFormat ScanfText ScanfLoop.
Local Open Scope Z_scope.

Lemma scan_items_length its : scan_items_ok its -> (length its <= length (scan_print its))%nat.
Proof.
  induction its as [| it its IH]; intros Hok; [done |]. destruct Hok as (Hit & _ & Hok). specialize (IH Hok).
  unfold scan_print. cbn [mbind list_bind length]. rewrite length_app. fold (scan_print its).
  assert (1 <= length (scan_item_print it))%nat; [| unfold scan_print in *; lia].
  destruct it as [cs | c | | d]; cbn [scan_item_print]; [destruct cs; [by destruct Hit | cbn; lia] | cbn; lia | cbn; lia |].
  unfold scan_directive_print. cbn. lia.
Qed.

Section Contract.
Context {G D : Type} `{MD : Machine D} `{HM : !Has G mem} `{LC : Libc} `{LI : !LibcIn}.
Implicit Types (w : world G D).

Lemma wp_strlen_str k p l len (Q : Z -> world G D -> Prop) w : str_at (memof w) (p + len) l -> (length l < k)%nat ->
  Q (len + Z.of_nat (length l)) w -> wp (strlen_loop k p len) Q w.
Proof.
  revert k p len. induction l as [| c l IH]; intros k p len Hs Hk HQ; (destruct k as [| k]; [lia |]); cbn [strlen_loop]; apply wp_bind.
  - apply str_at_nil in Hs. eapply wp_ld8; [exact Hs |]. change (0 =? 0) with true. apply wp_ret. cbn [length] in HQ. by rewrite Z.add_0_r in HQ.
  - apply str_at_cons in Hs as (Hc & Hc0 & Hs). eapply wp_ld8; [exact Hc |]. replace (c =? 0) with false by lia.
    apply IH; [by rewrite Z.add_assoc | cbn in Hk; lia |]. cbn [length] in HQ. by replace (len + 1 + Z.of_nat (length l)) with (len + Z.of_nat (S (length l))) by lia.
Qed.

(** What a caller gives: a text, a well-formed format, arguments that the
    format asks for, whose places are neither in the text nor in the format. *)
Record scan_call (fuel : nat) (w : world G D) (buffer : Z) (inp : list Z) (format : Z) (its : list scan_item) (args : list (arg real))
    (v : scan_verdict) : Prop := {
  sk_null : 0 < buffer /\ format <> NULL;
  sk_text : str_at (memof w) buffer inp /\ Forall (fits 8) inp;
  sk_length : 0 < Z.of_nat (length inp) <= SECUREC_STRING_MAX_LEN;
  sk_format : str_at (memof w) format (scan_print its);
  sk_items : scan_items_ok its;
  sk_verdict : scan its inp 0 false args = Some v;
  sk_writes : writable buffer inp format (scan_print its) (memof w) (v_writes v);
  sk_fuel : (length inp < fuel)%nat /\ (length (scan_print its) + 5 <= fuel)%nat;
}.

Lemma vsscanf_s_ok fuel w buffer inp format its args v : scan_call fuel w buffer inp format its args v ->
  wp (vsscanf_s fuel buffer format args) (fun r w' => r = scan_result v /\ w' = setm (write_all (memof w) (v_writes v)) w) w.
Proof.
  intros [[Hb0 Hf0] [Hs H8] Hlen Hf Hok Hv Hw [Hn1 Hn2]]. unfold vsscanf_s.
  replace (buffer =? NULL) with false by (unfold NULL; lia). replace (format =? NULL) with false by lia. cbn [orb].
  assert (Forall is_char inp) as Hchars.
  { apply Forall_forall. intros c Hc. destruct Hs as [_ Hs]. rewrite Forall_forall in Hs, H8. specialize (Hs c Hc). specialize (H8 c Hc).
    unfold fits, is_char in *. change (2 ^ 8) with 256 in H8. lia. }
  apply wp_bind. unfold strlen. eapply wp_strlen_str; [rewrite Z.add_0_r; exact Hs | done |]. rewrite Z.add_0_l.
  replace ((Z.of_nat (length inp) =? 0) || (SECUREC_STRING_MAX_LEN <? Z.of_nat (length inp))) with false by lia. apply wp_bind. unfold SecInputS. apply wp_bind.
  eapply wp_mono.
  - eapply (wp_input_loop fuel buffer inp format (scan_print its) Hb0 Hchars Hn1 Hn2 fuel its _ 0 false args 0 0 v w);
      [| by split | done | exact Hv | exact Hw | pose proof (scan_items_length its Hok); lia].
    split; try done; [exists []; split; [done | cbn; lia] | | lia].
    exists initial_spec. split; [| done]. cbn [in_io]. unfold SECUREC_FILE_STREAM_FROM_STRING, st. by rewrite Z.add_0_r, Z.sub_0_r.
  - intros i w' (F1 & F2 & F3 & F4 & F5 & F6 & ->). rewrite F6. apply wp_bind. unfold SecFreeFloatSpec, SecInitFloatSpec.
    cbn [allocatedFloatStr]. change (negb (NULL =? NULL)) with false. apply wp_ret, wp_ret, wp_ret. split; [| done].
    rewrite F1, F3, F4, !Z.add_0_l. unfold scan_result. destruct (v_end v); cbv iota.
    + destruct (negb (v_done v =? 0) || negb (v_match v =? 0)); [| done]. by replace (v_done v <? 0) with false by lia.
    + rewrite (F2 eq_refl). destruct (v_refused v); [done |]. by replace (v_done v <? 0) with false by lia.
Qed.

(** C2: Formatted input from a string: [sscanf_s] does what its format says.
    It goes through the text as [scan] tells: blanks skip spaces, a character
    must be there, integers are read in the base of their conversion with
    their sign, prefix and width, and stored at their size; characters,
    strings and sets are stored with their terminator, if there is room.  The
    result is the number of conversions stored, or -1 at the end of the text
    or for a null pointer; nothing but what [scan] lists changes in memory. *)
Theorem sscanf_s_scans fuel w buffer inp format its args v : scan_call fuel w buffer inp format its args v ->
  wp (sscanf_s fuel buffer format args) (fun r w' => r = scan_result v /\ w' = setm (write_all (memof w) (v_writes v)) w) w.
Proof. by apply vsscanf_s_ok. Qed.
End Contract.

(** ** Examples *)
Definition no_bits (x : Empty_set) : Z := match x with end.
#[export] Instance no_floatin : @LibcIn no_floats := @Build_LibcIn no_floats false (fun _ => None) (fun _ => None)
  no_bits no_bits no_bits (fun _ => None) 1.

Definition sx_items : list scan_item :=
  [Scan (ScanDirective false None Plain (Int Ci)); Scan (ScanDirective true None Plain Chars); Blank (chars " ");
   Scan (ScanDirective false None Plain (Int Cd)); Blank (chars " ");
   Scan (ScanDirective false None Plain (Bracket false [Range (chr "a") (chr "z")])); Exactly (chr "=");
   Scan (ScanDirective false (Some (chars "2")) HH (Int Cu)); PercentSign; Scan (ScanDirective false None Plain Count)].
Definition sx_text : list Z := chars "0x1f;  -7 key=42%3".
Definition sx_args : list (arg real) := [Word 200; Word 204; Word 208; Word 8; Word 216; Word 220].
Definition sx_mem : mem := wr (wr (wr ∅ 16 (scan_print sx_items ++ [0])) 64 (sx_text ++ [0])) 200 (replicate 32 170).
Definition sx_world : world mem ram := World sx_mem ram0 [].
Definition sx_verdict : scan_verdict :=
  Verdict [(200, [31; 0; 0; 0]); (204, [249; 255; 255; 255]); (208, chars "key" ++ [0]); (216, [42]); (220, [17; 0; 0; 0])] 4 6 false false.

Example sx_print : scan_print sx_items = chars "%i%*c %d %[a-z]=%2hhu%%%n".
Proof. reflexivity. Qed.
Lemma block_mapped (m : mem) a l b n : a <= b -> b + n <= a + Z.of_nat (length l) -> mapped (wr m a l) b n.
Proof. intros H1 H2 i Hi. rewrite lookup_wr, decide_True by lia. apply lookup_lt_is_Some_2. lia. Qed.

Lemma sx_call : scan_call 40 sx_world 64 sx_text 16 sx_items sx_args sx_verdict.
Proof.
  split; try (split; done).
  - split; [split; [by vm_compute | by repeat constructor] | by repeat constructor].
  - split; [by vm_compute | by repeat constructor].
  - cbn. repeat split; try done; by repeat constructor.
  - cbn [v_writes sx_verdict]. unfold writable, sx_world, sx_mem. cbn [memof glob hget Has_self].
    repeat (apply Forall_cons_2; [split; [apply block_mapped; cbn; lia | unfold clear_of; cbn; lia] |]). apply Forall_nil_2.
  - split; cbn; lia.
Qed.
Lemma sscanf_s_scans_witness : wp (sscanf_s (D := ram) 40 64 16 sx_args) (fun r w' => r = 4 /\
  rd (memof w') 200 8 = Some [31; 0; 0; 0; 249; 255; 255; 255] /\ rd (memof w') 208 4 = Some (chars "key" ++ [0])) sx_world.
Proof.
  eapply wp_mono; [apply (sscanf_s_scans 40 sx_world 64 sx_text 16 sx_items sx_args sx_verdict sx_call) |].
  intros r w' [-> ->]. split; [reflexivity | by vm_compute].
Defined.
