(* ===== verification/ScanfRoundtrip.v ===== *)
(** * ScanfRoundtrip: formatted input reads what formatted output writes *)
From stdpp Require Import prelude gmap list strings.
From Stdlib Require Import ZArith Lia.
From S2P Require Import Prelude Hw Mem Securec Printf PrintfSpec PrintfProps PrintfConv PrintfLoop PrintfOutProps PrintfContract Scanf ScanfSpec ScanfProps ScanfNumber ScanfFormat ScanfText ScanfLoop ScanfContract.
Local Open Scope Z_scope.

(** ** Numerals are read back *)
Lemma value_of_digit_char base up d : 0 <= d < base -> base <= 16 ->
  value_of_digit base (digit_char up d) = Some d /\ is_sign (digit_char up d) = false /\ isspace (digit_char up d) = false.
Proof.
  intros Hd Hb. assert (exists k, d = Z.of_nat k /\ (k < 16)%nat) as (k & -> & Hk) by (exists (Z.to_nat d); lia).
  assert (value_of_digit 16 (digit_char up (Z.of_nat k)) = Some (Z.of_nat k) /\ is_sign (digit_char up (Z.of_nat k)) = false /\
    isspace (digit_char up (Z.of_nat k)) = false) as (H & H1 & H2).
  { do 16 (destruct k as [| k]; [by destruct up |]). lia. }
  split_and!; [| done | done]. unfold value_of_digit in *. set (o := if isdigit _ then _ else _) in *. destruct o as [v |]; [| done].
  simplify_option_eq; done || lia.
Qed.

(** All of [l] are digits; behind the number [v] they make it [v']. *)
Definition reads_all (base v : Z) (l : list Z) (v' : Z) : Prop := digits_in_front base v l = (v', length l).
Lemma reads_all_app base v l1 v1 l2 v2 : reads_all base v l1 v1 -> reads_all base v1 l2 v2 -> reads_all base v (l1 ++ l2) v2.
Proof.
  unfold reads_all. revert v. induction l1 as [| c l1 IH]; intros v H1 H2; [by injection H1 as -> |]. cbn [digits_in_front app length] in *.
  destruct (value_of_digit base c) as [d |]; [| done]. specialize (IH (base * v + d)).
  destruct (digits_in_front base (base * v + d) l1) as [a n]. cbn [fst snd] in H1. injection H1 as -> ->. by rewrite IH.
Qed.
Lemma reads_numeral k base up n : 1 < base <= 16 -> 0 <= n < base ^ Z.of_nat k -> reads_all base 0 (digit_char up <$> numeral_aux k base n) n.
Proof.
  intros Hb. revert n. induction k as [| k IH]; intros n Hn; cbn [numeral_aux]; [cbn in Hn; by replace n with 0 by lia |].
  destruct (Z.eqb_spec n 0) as [-> | Hne]; [done |]. rewrite Nat2Z.inj_succ, Z.pow_succ_r in Hn by lia.
  rewrite fmap_app. apply (reads_all_app _ _ _ (n / base)).
  - apply IH. split; [apply Z.div_pos; lia | apply Z.div_lt_upper_bound; lia].
  - pose proof (Z.mod_pos_bound n base ltac:(lia)) as Hm. unfold reads_all. cbn [fmap list_fmap digits_in_front length].
    destruct (value_of_digit_char base up (n mod base) Hm ltac:(lia)) as (-> & _ & _). cbn [fst snd].
    by rewrite <- Z.div_mod by lia.
Qed.

(** [n] as the printing functions write it. *)
Lemma reads_body base up n : 8 <= base <= 16 -> fits 64 n -> reads_all base 0 (body base up 1 n) n.
Proof.
  intros Hb [H0 Hn]. unfold body. set (ds := digit_char up <$> numeral base n).
  assert (reads_all base 0 ds n) as Hds.
  { apply reads_numeral; [lia |]. split; [done |]. eapply Z.lt_le_trans; [exact Hn |]. change 64 with (Z.of_nat 64) at 1.
    apply (Z.pow_le_mono_l 2 base); lia. }
  apply (reads_all_app _ _ _ 0); [| done]. destruct (Z.to_nat (1 - Z.of_nat (length ds))) as [| [| k]] eqn:E; [done | | lia].
  unfold reads_all. cbn [replicate digits_in_front length]. rewrite (zero_digit base) by lia. by rewrite Z.mul_0_r.
Qed.
Lemma body_chars (P : Z -> Prop) base up n : 1 < base -> (forall d, 0 <= d < base -> P (digit_char up d)) -> Forall P (body base up 1 n).
Proof.
  intros Hb HP. unfold body, numeral. apply Forall_app. split.
  - apply Forall_replicate. change (chr "0") with 48. replace 48 with (digit_char up 0) by (by destruct up). apply HP. lia.
  - generalize 64%nat as k. intros k. revert n. induction k as [| k IH]; intros n; cbn [numeral_aux]; [done |].
    destruct (n =? 0); [done |]. rewrite fmap_app. apply Forall_app. split; [done |]. constructor; [| done]. apply HP, Z.mod_pos_bound. lia.
Qed.
Lemma body_one n : fits 64 n -> n <> 0 -> body 16 false 1 n = body 16 false 0 n.
Proof.
  intros [H0 Hn] Hne. unfold body. set (ds := digit_char false <$> numeral 16 n).
  assert (reads_all 16 0 ds n) as Hds.
  { apply reads_numeral; [lia |]. split; [done |]. eapply Z.lt_le_trans; [exact Hn |]. change 64 with (Z.of_nat 64) at 1.
    apply (Z.pow_le_mono_l 2 16); lia. }
  destruct ds as [| c l]; [by injection Hds as <- |]. cbn [length].
  by replace (Z.to_nat (1 - Z.of_nat (S (length l)))) with O by lia.
Qed.
Lemma body_not_empty base up n : body base up 1 n <> [].
Proof.
  unfold body. destruct (digit_char up <$> numeral base n); [done |]. intros E. by apply app_eq_nil in E as [_ E].
Qed.

(** ** Integers *)
Definition is_int (c : conv) : bool := match c with Cd | Ci | Cu | Co | Cx | CX => true | _ => false end.
Definition conv_base (c : conv) : Z := match c with Co => 8 | Cx | CX => 16 | _ => 10 end.
Definition int_value (c : conv) (s : int_size) (v : Z) : Z := if is_signed c then signed (bits s) v else wrap (bits s) v.
(** What a conversion without flags, width and precision writes for [v]. *)
Definition int_text_of (c : conv) (s : int_size) (v : Z) : list Z :=
  let n := int_value c s v in
  (if n <? 0 then [chr "-"] else []) ++ body (conv_base c) (bool_decide (c = CX)) 1 (Z.abs n).

Lemma int_value_fits c s v : fits 64 (Z.abs (int_value c s v)).
Proof.
  unfold int_value. destruct (is_signed c); [eapply fits_mono; [| apply abs_signed_fits]; by destruct s |].
  pose proof (wrap_fits (bits s) v ltac:(by destruct s)) as Hf. rewrite Z.abs_eq by (by destruct Hf). eapply fits_mono; [| exact Hf]. by destruct s.
Qed.

Lemma no_hex_prefix base l n : reads_all base 0 l n -> hex_prefix l = false.
Proof.
  unfold reads_all. destruct l as [| z [| x l]]; [done | done |]. cbn [hex_prefix digits_in_front length]. intros H.
  destruct (Z.eqb_spec z (chr "0")) as [-> |]; [| done]. cbn [andb].
  destruct (value_of_digit base (chr "0")); cbn [fst snd] in H; [| done].
  destruct (Z.eqb_spec x (chr "x")) as [-> |]; [done |]. destruct (Z.eqb_spec x (chr "X")) as [-> |]; done.
Qed.

Lemma decimal_head n : fits 64 n -> head (body 10 false 1 n) = Some (chr "0") -> n = 0.
Proof.
  intros [H0 Hn]. destruct (decimal_numeral 64 n) as (_ & Hv & Hh); [split; [done |]; eapply Z.lt_trans; [exact Hn | done] |].
  unfold body, numeral. destruct (digit_char false <$> numeral_aux 64 10 n) as [| c ds]; [done |]. cbn [length].
  replace (Z.to_nat (1 - Z.of_nat (S (length ds)))) with O by lia. done.
Qed.
Lemma read_unsigned_body c n : let up := bool_decide (c = CX) in is_int c = true -> fits 64 n ->
  read_unsigned c (body (conv_base c) up 1 n) = (Some n, length (body (conv_base c) up 1 n)).
Proof.
  intros up Hc Hn. pose proof (reads_body (conv_base c) up n ltac:(by destruct c) Hn) as Hr.
  unfold read_unsigned. rewrite (no_hex_prefix _ _ _ Hr), andb_false_r. cbv iota.
  assert (length (body (conv_base c) up 1 n) <> O) as Hne.
  { pose proof (body_not_empty (conv_base c) up n). by destruct (body _ _ _ _). }
  assert (digits_in_front (match c with Co => 8 | Cx | CX | Cp => 16
     | Ci => if bool_decide (head (body (conv_base c) up 1 n) = Some (chr "0")) then 8 else 10 | _ => 10 end) 0 (body (conv_base c) up 1 n) =
     (n, length (body (conv_base c) up 1 n))) as ->.
  { destruct c; try done. change up with false in *. cbn [conv_base] in *.
    destruct (bool_decide (head _ = _)) eqn:E; [| done]. apply bool_decide_eq_true in E.
    by rewrite (decimal_head n Hn E). }
  cbn [fst snd]. by rewrite bool_decide_eq_false_2 by done.
Qed.

Lemma read_int_text c s v : is_int c = true -> let n := int_value c s v in
  read_int c (int_text_of c s v) = IntText (n <? 0) (Some (Z.abs n)) (length (int_text_of c s v)).
Proof.
  intros Hc n. pose proof (int_value_fits c s v) as Hf. fold n in Hf.
  pose proof (read_unsigned_body c (Z.abs n) Hc Hf) as Hr. cbv zeta in Hr. unfold int_text_of. fold n.
  pose proof (body_chars (fun x => is_sign x = false) (conv_base c) (bool_decide (c = CX)) (Z.abs n) ltac:(by destruct c)
    ltac:(intros d Hd; by eapply value_of_digit_char; [exact Hd | destruct c])) as Hs.
  destruct (n <? 0) eqn:En.
  - cbn [app read_int]. change (is_sign (chr "-")) with true. change (chr "-" =? chr "-") with true. cbv iota. by rewrite Hr.
  - cbn [app]. destruct (body _ _ _ _) as [| x l] eqn:El; [by apply body_not_empty in El |]. rewrite ?El in Hr. cbn [read_int].
    apply Forall_cons in Hs as [Hx _]. rewrite Hx. cbv iota. rewrite Hr. cbn [fst snd]. f_equal.
    unfold is_sign in Hx. by destruct (x =? chr "-"); rewrite ?orb_true_r in Hx.
Qed.

Lemma stored_back c s v : is_int c = true -> let n := int_value c s v in stored_number c s (n <? 0) (Z.abs n) = wrap (bits s) v.
Proof.
  intros Hc n. rewrite stored_is. assert (conv_bits c s = bits s) as -> by (by destruct c).
  unfold stored_value. assert ((if n <? 0 then - Z.abs n else Z.abs n) = n) as -> by (destruct (Z.ltb_spec n 0); lia).
  unfold n, int_value. destruct (is_signed c) eqn:Es.
  - pose proof (signed_range (bits s) v ltac:(by destruct s)) as Hr.
    assert (2 ^ (bits s - 1) <= 2 ^ 63) by (by destruct s). rewrite Z.min_r, Z.max_r by lia. apply wrap_signed. by destruct s.
  - pose proof (wrap_fits (bits s) v ltac:(by destruct s)) as Hf. rewrite (Z.abs_eq (wrap _ v)) by (by destruct Hf).
    assert (2 ^ bits s <= 2 ^ 64) by (by destruct s). replace (wrap (bits s) v <? 0) with false by (destruct Hf; lia).
    replace (2 ^ 64 <=? wrap (bits s) v) with false by (destruct Hf; lia). cbn [andb]. apply wrap_idem. by destruct s.
Qed.

Lemma text_starts c s v : is_int c = true -> exists x l, int_text_of c s v = x :: l /\ isspace x = false.
Proof.
  intros Hc. unfold int_text_of. destruct (_ <? 0); [by eexists _, _ |]. cbn [app].
  pose proof (body_chars (fun x => isspace x = false) (conv_base c) (bool_decide (c = CX)) (Z.abs (int_value c s v)) ltac:(by destruct c)
    ltac:(intros d Hd; by eapply value_of_digit_char; [exact Hd | destruct c])) as Hs.
  destruct (body _ _ _ _) as [| x l] eqn:El; [by apply body_not_empty in El |]. apply Forall_cons in Hs as [Hx _]. eauto.
Qed.

Definition scan_one (c : conv) (s : int_size) : list scan_item := [Scan (ScanDirective false None s (Int c))].
Lemma scan_text_back {F} c s v p : is_int c = true -> p <> NULL ->
  scan (F := F) (scan_one c s) (int_text_of c s v) 0 false [Word p] =
  Some (Verdict [(p, le_bytes (Z.to_nat (bits s / 8)) v)] 1 1 true false).
Proof.
  intros Hc Hp. destruct (text_starts c s v Hc) as (x & l & E & Hx). pose proof (read_int_text c s v Hc) as Hr. cbv zeta in Hr.
  pose proof (stored_back c s v Hc) as Hst. cbv zeta in Hst.
  unfold scan_one. cbn [scan sd_conv]. rewrite drop_0, E. cbn [run_of]. rewrite Hx. cbn [length]. rewrite drop_0.
  rewrite bool_decide_eq_false_2 by done. unfold scan_number. cbn [sd_width sd_suppress sd_size at_most]. rewrite <- E, Hr. cbn [it_mag it_neg it_len].
  replace (p =? NULL) with false by lia. rewrite Hst. cbn [fmap option_fmap option_map]. unfold and_write, and_done, and_match, stop. cbn.
  assert (conv_bits c s = bits s) as -> by (by destruct c).
  assert (le_bytes (Z.to_nat (bits s / 8)) (wrap (bits s) v) = le_bytes (Z.to_nat (bits s / 8)) v) as ->.
  { replace (bits s) with (8 * Z.of_nat (Z.to_nat (bits s / 8))) at 2 by (by destruct s). apply le_bytes_wrap. }
  unfold int_saw_end, saw_end. rewrite E, bool_decide_eq_true_2 by done. done.
Qed.

(** ** Writing, then reading *)
Definition print_one (c : conv) (s : int_size) : list item := [Dir (Directive [] None None s c)].
Lemma print_one_is c s : print (print_one c s) = scan_print (scan_one c s).
Proof. done. Qed.
Lemma render_one {F} m strings c s v : is_int c = true -> render (F := F) m strings (print_one c s) [Word v] (int_text_of c s v).
Proof.
  intros Hc. rewrite <- (app_nil_r (int_text_of c s v)). eapply render_dir; [| apply render_end]. econstructor; [done .. |].
  cbn [d_conv]. assert (render_number (Directive [] None None s c) (Z.abs 0) (has_flag (Directive [] None None s c) Minus || (0 <? 0)) None v = int_text_of c s v) as <-;
    [| by destruct c].
  unfold render_number, int_text_of, int_value. cbn [d_size d_conv from_option id].
  assert (Z.min SECUREC_MAX_PRECISION 1 = 1) as -> by done.
  assert (forall pre t, field (Z.abs 0) (has_flag (Directive [] None None s c) Minus || (0 <? 0)) false pre t = pre ++ t) as Hfield.
  { intros pre t. unfold field. change (has_flag _ Minus || _) with false. cbv zeta iota. change (Z.abs 0) with 0.
    by replace (Z.to_nat (0 - Z.of_nat (length (pre ++ t)))) with O by lia. }
  change (has_flag _ Zero && _) with false. change (has_flag (Directive [] None None s c) Hash) with false. cbn [andb].
  pose proof (wrap_fits (bits s) v ltac:(by destruct s)) as [Hu _].
  assert ((wrap (bits s) v <? 0) = false) as Hpos by lia.
  destruct c; try done; cbn [is_signed conv_base]; rewrite Hfield, ?Hpos, ?(Z.abs_eq (wrap (bits s) v)) by done; try done.
Qed.

Lemma int_text_small c s v : is_int c = true -> (length (int_text_of c s v) <= 23)%nat /\ Forall (fits 8) (int_text_of c s v) /\ Forall (fun x => x <> 0) (int_text_of c s v).
Proof.
  intros Hc. pose proof (int_value_fits c s v) as Hf. unfold int_text_of. set (n := int_value c s v) in *.
  pose proof (body_fits (conv_base c) (bool_decide (c = CX)) 1 (Z.abs n)) as Hb.
  pose proof (body_chars (fun x => x <> 0) (conv_base c) (bool_decide (c = CX)) (Z.abs n) ltac:(by destruct c)) as Hz.
  assert (length (body (conv_base c) (bool_decide (c = CX)) 1 (Z.abs n)) <= 22)%nat as Hl.
  { unfold body. rewrite length_app, length_replicate, length_fmap.
    pose proof (numeral_length (conv_base c) (Z.abs n) ltac:(by destruct c) Hf). lia. }
  assert (Forall (fun x => x <> 0) (body (conv_base c) (bool_decide (c = CX)) 1 (Z.abs n))) as Hz'.
  { apply Hz. intros d Hd E. destruct (value_of_digit_char (conv_base c) (bool_decide (c = CX)) d Hd ltac:(by destruct c)) as (H & _ & _).
    by rewrite E in H. }
  destruct (n <? 0); (split_and!; [cbn [length app]; lia | |]); try done; by constructor.
Qed.

Section Roundtrip.
Context {G D : Type} `{MD : Machine D} `{HM : !Has G mem} `{LC : Libc} `{LI : !LibcIn}.

(** Printing into a buffer, then reading the buffer with the same format. *)
Record print_scan (fuel : nat) (w0 : world G D) (buffer size format : Z) (its : list item) (sits : list scan_item)
    (o : list Z) (v : scan_verdict) : Prop := {
  ps_bytes : bytes (memof w0);
  ps_buffer : 0 < buffer /\ Z.of_nat (length o) < size <= SECUREC_STRING_MAX_LEN /\ mapped (memof w0) buffer size;
  ps_format : format <> NULL /\ str_at (memof w0) format (print its) /\
    (format + Z.of_nat (length (print its)) + 1 <= buffer \/ buffer + size <= format);
  ps_items : Forall item_ok its /\ scan_items_ok sits /\ print its = scan_print sits;
  ps_text : o <> [] /\ Forall (fits 8) o /\ Forall (fun x => x <> 0) o;
  ps_writes : Forall (fun x => mapped (memof w0) x.1 (Z.of_nat (length x.2)) /\
    (x.1 + Z.of_nat (length x.2) <= buffer \/ buffer + size <= x.1) /\
    (x.1 + Z.of_nat (length x.2) <= format \/ format + Z.of_nat (length (print its)) + 1 <= x.1)) (v_writes v);
  ps_fuel : (length o < fuel)%nat /\ (length (print its) + 5 <= fuel)%nat;
}.

Lemma wp_print_scan fuel (w0 : world G D) buffer size format its sits o v args args' :
  print_scan fuel w0 buffer size format its sits o v ->
  render (memof w0) (outside buffer (Z.to_nat size) fuel) its args o -> scan sits o 0 false args' = Some v ->
  wp (_ ← vsnprintf_s fuel buffer size (size - 1) format args; sscanf_s fuel buffer format args')
    (fun r w => r = scan_result v /\ w = setm (write_all (wr (memof w0) buffer (o ++ [0])) (v_writes v)) w0) w0.
Proof.
  intros [Hby (Hb & Hsz & Hm) (Hf & Hfmt & Haf) (Hi1 & Hi2 & Ep) (Ho & H8 & H0) Hws [Hfu1 Hfu2]] Hren Hv.
  assert ((size - 1 <? size) = true) as Es by lia. assert (size - 1 + 1 = size) as Es2 by lia.
  apply wp_bind. eapply wp_mono.
  { apply (vsnprintf_s_ok fuel w0 buffer size Hby ltac:(unfold NULL; lia) ltac:(lia) (size - 1) format args its o); [lia | done | |];
      rewrite Es, Es2.
    - by rewrite Z2Nat.id by lia.
    - split; [done | done | | lia]. destruct Hfmt as [Hr _]. split; [by rewrite length_app, Nat.add_1_r |].
      unfold apart. rewrite length_app. cbn [length]. lia. }
  intros r w Hw. rewrite Es, Es2 in Hw. replace (length o <? Z.to_nat size)%nat with true in Hw by (symmetry; apply Nat.ltb_lt; lia).
  destruct Hw as [_ ->]. set (w := setm (wr (memof w0) buffer (o ++ [0])) w0). assert (memof w = wr (memof w0) buffer (o ++ [0])) as Em by apply memof_setm.
  eapply wp_mono; [apply (vsscanf_s_ok fuel w buffer o format sits args' v) |].
  - split; try done.
    + rewrite Em. split; [split; [replace (S (length o)) with (length (o ++ [0])) by (rewrite length_app; cbn; lia); apply rd_wr_eq | done] | done].
    + destruct o; [done |]. cbn [length] in *. lia.
    + rewrite Em, <- Ep. apply str_at_wr; [exact Hfmt |]. rewrite length_app. cbn [length]. lia.
    + rewrite Em. eapply Forall_impl; [exact Hws |]. intros x (A1 & A2 & A3). split; [by apply mapped_wr |]. unfold clear_of. rewrite <- Ep. lia.
    + by rewrite <- Ep.
  - intros r' w' [-> ->]. split; [done |]. unfold w. by rewrite memof_setm, setm_setm.
Qed.

(** Where the number goes, and where the rest is. *)
Record one_number (fuel : nat) (w0 : world G D) (buffer size format : Z) (fmt : list Z) (p k : Z) : Prop := {
  on_bytes : bytes (memof w0);
  on_buffer : 0 < buffer /\ 24 <= size <= SECUREC_STRING_MAX_LEN /\ mapped (memof w0) buffer size;
  on_format : format <> NULL /\ str_at (memof w0) format fmt /\ (format + Z.of_nat (length fmt) + 1 <= buffer \/ buffer + size <= format);
  on_place : p <> NULL /\ mapped (memof w0) p k /\ (p + k <= buffer \/ buffer + size <= p) /\
    (p + k <= format \/ format + Z.of_nat (length fmt) + 1 <= p);
  on_fuel : (24 <= fuel)%nat;
}.
Lemma one_print_scan fuel w0 buffer size format p c s o bs v : o <> [] -> (length o <= 23)%nat -> Forall (fits 8) o -> Forall (fun x => x <> 0) o ->
  one_number fuel w0 buffer size format (print (print_one c s)) p (Z.of_nat (length bs)) -> c <> Cc -> c <> Cs -> v_writes v = [(p, bs)] ->
  print_scan fuel w0 buffer size format (print_one c s) (scan_one c s) o v.
Proof.
  intros Ho Hl H8 H0 [Hby (Hb & Hsz & Hm) (Hf & Hfmt & Haf) (Hp & Hmp & Hap & Hapf) Hfu] H1 H2 Ev.
  assert (length (print (print_one c s)) <= 4)%nat as Hfl by (by destruct c, s; cbn; lia).
  split; try done; try lia.
  - split_and!; [done | lia | lia | done].
  - split_and!; [| split; [split; [by destruct c | done] | done] | done]. repeat constructor. cbn. intros [-> | ->]; done.
  - rewrite Ev. by apply Forall_singleton.
Qed.
Lemma rd_after (w0 : world G D) m p bs : rd (memof (setm (write_all m [(p, bs)]) w0)) p (length bs) = Some bs.
Proof. rewrite memof_setm. apply rd_wr_eq. Qed.

(** C3: What [vsnprintf_s] writes for an integer, [sscanf_s] reads back with
    the same format: for every value and every size, signed, unsigned, octal
    or hexadecimal, it stores the bytes of the value at its size and says
    that one number was stored. *)
Theorem printed_reads_back fuel (w0 : world G D) buffer size format p c s v :
  one_number fuel w0 buffer size format (print (print_one c s)) p (bits s / 8) -> is_int c = true ->
  wp (_ ← vsnprintf_s fuel buffer size (size - 1) format [Word v]; sscanf_s fuel buffer format [Word p])
    (fun r w => r = 1 /\ rd (memof w) p (Z.to_nat (bits s / 8)) = Some (le_bytes (Z.to_nat (bits s / 8)) v)) w0.
Proof.
  intros Hon Hc. destruct (int_text_small c s v Hc) as (Hl & H8 & H0). destruct (text_starts c s v Hc) as (x & l & Eo & _).
  set (bs := le_bytes _ v). assert (length bs = Z.to_nat (bits s / 8)) as Hbs by apply length_le_bytes.
  assert (0 <= bits s / 8) as Hb0 by (by destruct s).
  eapply wp_mono; [eapply (wp_print_scan _ _ _ _ _ (print_one c s) (scan_one c s) (int_text_of c s v) (Verdict [(p, bs)] 1 1 true false)) |].
  - eapply one_print_scan; [by rewrite Eo | done | done | done | rewrite Hbs, Z2Nat.id by done; exact Hon | by destruct c | by destruct c | reflexivity].
  - by apply render_one.
  - apply scan_text_back; [done | apply Hon].
  - intros r w [-> ->]. split; [done |]. rewrite <- Hbs. apply rd_after.
Qed.

(** A pointer that [vsnprintf_s] has written is not read back: its text
    starts with 0x, which [%p] does not take for a prefix, so that [sscanf_s]
    stores the null pointer, for every pointer but the null pointer, and says
    that one was stored. *)
Theorem pointer_reads_null fuel (w0 : world G D) buffer size format p v :
  one_number fuel w0 buffer size format (print (print_one Cp Plain)) p 8 -> u64 v <> 0 ->
  wp (_ ← vsnprintf_s fuel buffer size (size - 1) format [Word v]; sscanf_s fuel buffer format [Word p])
    (fun r w => r = 1 /\ rd (memof w) p 8 = Some (replicate 8 0)) w0.
Proof.
  intros Hon Hv. pose proof (wrap_fits 64 v ltac:(done)) as Hf.
  assert (int_text_of Cx LL v = body 16 false 0 (u64 v)) as Eb.
  { unfold int_text_of, int_value. cbn [is_signed bits conv_base]. replace (u64 v <? 0) with false by (destruct Hf; lia).
    rewrite Z.abs_eq by (by destruct Hf). by apply body_one. }
  destruct (int_text_small Cx LL v ltac:(done)) as (Hl & H8 & H0). rewrite Eb in Hl, H8, H0.
  assert (length (body 16 false 0 (u64 v)) <= 16)%nat as Hl16.
  { unfold body. rewrite length_app, length_replicate, length_fmap. pose proof (numeral_aux_length 64 16 (u64 v) 16 ltac:(done) Hf). unfold numeral. lia. }
  set (b := body 16 false 0 (u64 v)) in *. set (o := chars "0x" ++ b).
  eapply wp_mono; [eapply (wp_print_scan _ _ _ _ _ (print_one Cp Plain) (scan_one Cp Plain) o (Verdict [(p, replicate 8 0)] 1 1 false false) [Word v] [Word p]) |].
  - apply (one_print_scan _ _ _ _ _ p Cp Plain o (replicate 8 0)); try done.
    + unfold o. rewrite length_app. cbn. lia.
    + unfold o. apply Forall_app. split; [by repeat constructor | done].
    + unfold o. apply Forall_app. split; [by repeat constructor | done].
  - rewrite <- (app_nil_r o). eapply render_dir; [| apply render_end]. econstructor; [done .. |]. cbn [d_conv].
    unfold render_number. cbn [d_conv]. replace (u64 v =? 0) with false by lia. fold b. unfold field.
    change (has_flag _ Minus || _) with false. cbv zeta iota. change (has_flag _ Zero) with false. cbv iota.
    change (Z.abs (default 0 None)) with 0. by replace (Z.to_nat (0 - _)) with O by lia.
  - unfold o. change (chars "0x") with [chr "0"; chr "x"]. cbn [app]. unfold scan_one. cbn [scan sd_conv]. rewrite drop_0.
    change (run_of isspace (chr "0" :: _)) with (@nil Z). cbn [length]. rewrite drop_0, bool_decide_eq_false_2 by done.
    unfold scan_number. cbn [sd_width sd_suppress sd_size at_most].
    change (read_int Cp (chr "0" :: chr "x" :: b)) with (IntText false (Some 0) 1). cbn [it_mag it_neg it_len].
    replace (p =? NULL) with false by (symmetry; apply Z.eqb_neq; apply Hon).
    unfold int_saw_end, saw_end. rewrite bool_decide_eq_false_2 by done. reflexivity.
  - intros r w [-> ->]. split; [done |]. apply (rd_after w0 _ p (replicate 8 0)).
Qed.
End Roundtrip.

(** ** Examples *)
Definition rt_fmt (c : conv) (s : int_size) : list Z := print (print_one c s).
Definition rt_world (c : conv) (s : int_size) : world mem ram :=
  World (wr (wr (wr ∅ 16 (rt_fmt c s ++ [0])) 64 (replicate 32 170)) 200 (replicate 8 170)) ram0 [].

Lemma rt_ready c s k : 0 < k <= 8 -> one_number 40 (rt_world c s) 64 32 16 (rt_fmt c s) 200 k.
Proof.
  intros Hk. assert (length (rt_fmt c s) <= 4)%nat as Hl by (by destruct c, s; cbn; lia). unfold rt_world.
  split; cbn [memof glob hget Has_self]; unfold SECUREC_STRING_MAX_LEN, NULL; try lia.
  - repeat apply bytes_wr; try (by apply Forall_replicate); [intros i b Hb; by rewrite lookup_empty in Hb |]. by destruct c, s; repeat constructor.
  - split_and!; try lia. apply mapped_wr, block_mapped; cbn; lia.
  - split_and!; try lia. split; [| by destruct c, s; repeat constructor].
    fold (rt_fmt c s). rewrite !rd_wr_ne by (rewrite ?length_replicate; lia). replace (S (length (rt_fmt c s))) with (length (rt_fmt c s ++ [0])) by (rewrite length_app; cbn; lia). apply rd_wr_eq.
  - split_and!; try lia. apply block_mapped; cbn; lia.
Qed.

Lemma printed_reads_back_witness :
  wp (_ ← vsnprintf_s (D := ram) 40 64 32 31 16 [Word (-3)]; sscanf_s (D := ram) 40 64 16 [Word 200])
    (fun r w => r = 1 /\ rd (memof w) 200 2 = Some [253; 255]) (rt_world Cd H) /\
  wp (_ ← vsnprintf_s (D := ram) 40 64 32 31 16 [Word 0xcafe]; sscanf_s (D := ram) 40 64 16 [Word 200])
    (fun r w => r = 1 /\ rd (memof w) 200 8 = Some [254; 202; 0; 0; 0; 0; 0; 0]) (rt_world CX L).
Proof.
  split.
  - exact (printed_reads_back 40 (rt_world Cd H) 64 32 16 200 Cd H (-3) (rt_ready Cd H 2 ltac:(lia)) eq_refl).
  - exact (printed_reads_back 40 (rt_world CX L) 64 32 16 200 CX L 0xcafe (rt_ready CX L 8 ltac:(lia)) eq_refl).
Defined.
Lemma pointer_reads_null_witness :
  wp (_ ← vsnprintf_s (D := ram) 40 64 32 31 16 [Word 0x4000]; sscanf_s (D := ram) 40 64 16 [Word 200])
    (fun r w => r = 1 /\ rd (memof w) 200 8 = Some [0; 0; 0; 0; 0; 0; 0; 0]) (rt_world Cp Plain).
Proof.
  exact (pointer_reads_null 40 (rt_world Cp Plain) 64 32 16 200 0x4000 (rt_ready Cp Plain 8 ltac:(lia)) ltac:(done)).
Defined.
