(* ===== verification/ScanfEdge.v ===== *)
(** * ScanfEdge: the edges of formatted input: an empty text, a set without an
    end, the end of a line *)
From stdpp Require Import prelude gmap list strings.
From Stdlib Require Import ZArith Lia.
From S2P Require Import Prelude Hw Mem Securec Printf PrintfSpec PrintfProps PrintfConv PrintfLoop PrintfOutProps PrintfContract Scanf ScanfSpec ScanfProps ScanfNumber ScanfFormat ScanfText ScanfLoop ScanfContract.
Local Open Scope Z_scope.

Section Edge.
Context {G D : Type} `{MD : Machine D} `{HM : !Has G mem} `{LC : Libc} `{LI : !LibcIn}.
Implicit Types (w : world G D).

(** ** An empty text *)
Lemma wp_seek_char c n a l rest (Q : Z -> world G D -> Prop) w : str_at (memof w) a (l ++ c :: rest) -> Forall (fun x => x <> c) l ->
  (length l < n)%nat -> Q (a + Z.of_nat (length l)) w -> wp (seek_char n c a) Q w.
Proof.
  intros Hs Hl. unfold seek_char. revert n a Hs. induction Hl as [| x l Hx Hl IH]; intros n a Hs Hn HQ; (destruct n as [| n]; [lia |]);
    rewrite loop_S; apply wp_bind, wp_bind; apply str_at_cons in Hs as (Hc & H0 & Hs); (eapply wp_ld8; [exact Hc |]).
  - rewrite Z.eqb_refl, andb_false_r. apply wp_ret, wp_ret. cbn [length] in HQ. by rewrite Z.add_0_r in HQ.
  - replace (negb (x =? 0) && negb (x =? c)) with true by lia. apply wp_ret. apply IH; [done | cbn in Hn; lia |].
    replace (a + 1 + Z.of_nat (length l)) with (a + Z.of_nat (length (x :: l))) by (cbn [length]; lia). done.
Qed.

Lemma set_text_chars set : Forall set_item_ok set -> Forall (fun x => x <> chr "]") (set ≫= print_set_item).
Proof.
  induction 1 as [| i set Hi _ IH]; [done |]. cbn [mbind list_bind]. apply Forall_app. split; [| done].
  destruct i as [c | a b]; cbn [print_set_item set_item_ok] in *; unfold set_char in *; repeat constructor; try done; lia || tauto.
Qed.

Lemma wp_clear_format fuel c f rest (Q : option Z -> world G D -> Prop) w : is_text c = true -> scan_conv_ok c Plain ->
  str_at (memof w) f (scan_conv_print c ++ rest) -> (length (scan_conv_print c) < fuel)%nat ->
  Q (Some (SECUREC_TO_LOWERCASE (conv_first c))) w -> wp (SecDecodeClearFormat fuel f) Q w.
Proof.
  intros Ht Hok Hs Hn HQ. unfold SecDecodeClearFormat. apply wp_bind.
  destruct c as [| | | neg set |]; try done; cbn [scan_conv_print app conv_first] in *; pose proof Hs as (Hc & _ & Hs')%str_at_cons;
    (eapply wp_ld8; [exact Hc |]); [by apply wp_ret | by apply wp_ret |].
  change (SECUREC_TO_LOWERCASE (chr "[")) with SECUREC_BRACE in *.
  change (negb ((SECUREC_BRACE =? chr "c") || (SECUREC_BRACE =? chr "s") || (SECUREC_BRACE =? SECUREC_BRACE))) with false.
  change (SECUREC_BRACE =? SECUREC_BRACE) with true. change (chr "[" =? chr "{") with false. cbv zeta iota.
  destruct Hok as (_ & Hne & Hok & Hneg). destruct set as [| i set]; [done |].
  assert (exists r, (i :: set) ≫= print_set_item = item_start i :: r) as [r Er] by (destruct i; by eexists).
  pose proof (set_text_chars _ Hok) as Hcs. set (l := (i :: set) ≫= print_set_item) in *. clearbody l.
  assert (item_start i <> chr "]") as Hib by (rewrite Er in Hcs; by apply Forall_cons in Hcs as [? _]).
  assert (forall f1, str_at (memof w) f1 (l ++ chr "]" :: rest) ->
    wp (c ← ld8 f1; fmt ← seek_char fuel (chr "]") (if c =? chr "]" then f1 + 1 else f1);
        c ← ld8 fmt; mret (if c =? 0 then None else Some SECUREC_BRACE)) Q w) as Hend.
  { intros f1 Hs1. pose proof Hs1 as Hs2. rewrite Er in Hs2. cbn [app] in Hs2. apply str_at_cons in Hs2 as (Hc1 & _ & _).
    apply wp_bind. eapply wp_ld8; [exact Hc1 |]. replace (item_start i =? chr "]") with false by lia.
    apply wp_bind. eapply wp_seek_char; [exact Hs1 | done | cbn [length] in Hn; rewrite !length_app in Hn; lia |].
    apply str_at_skip, str_at_cons in Hs1 as (Hc2 & _ & _). apply wp_bind. eapply wp_ld8; [exact Hc2 |]. by apply wp_ret. }
  destruct neg; cbn [app] in Hs'; rewrite <- app_assoc in Hs'.
  - apply str_at_cons in Hs' as (Hc1 & _ & Hs'). apply wp_bind. eapply wp_ld8; [exact Hc1 |].
    change (chr "^" =? chr "^") with true. cbv iota. replace (f + 2) with (f + 1 + 1) by lia. by apply Hend.
  - pose proof Hs' as Hs2. rewrite Er in Hs2. cbn [app] in Hs2. apply str_at_cons in Hs2 as (Hc1 & _ & _).
    apply wp_bind. eapply wp_ld8; [exact Hc1 |]. replace (item_start i =? chr "^") with false; [by apply Hend |].
    symmetry. apply Z.eqb_neq. intros E. specialize (Hneg eq_refl). cbn [head option_map] in Hneg. congruence.
Qed.


(** ** A set without an end *)
Lemma bind_assoc {A B C} (m : M G D A) (f : A -> M G D B) (g : B -> M G D C) w : ((m ≫= f) ≫= g) w = (m ≫= (fun x => f x ≫= g)) w.
Proof. unfold mbind, M_bind. by destruct (m w). Qed.
Lemma ld8_then {A} a b (k : Z -> M G D A) w : memof w !! a = Some b -> (ld8 a ≫= k) w = k b w.
Proof. intros H. unfold ld8, ldn, gets, some_or, mbind, mret, M_bind, M_ret. cbn [rd]. rewrite H. cbn [option_bind mbind]. by rewrite <- (le_word_1 b) at 2. Qed.
Lemma ld8_fault {A} a (k : Z -> M G D A) w : memof w !! a = None -> (ld8 a ≫= k) w = Fault Unmapped.
Proof. intros H. unfold ld8, ldn, gets, some_or, mbind, mret, M_bind, M_ret. cbn [rd]. by rewrite H. Qed.

(** A set that ends with a minus sign and the end of the format, as in
    [%[a-], is not refused: [SecSetupBracketTable] takes the terminator for the
    end of a range and goes on behind it, beyond the format. *)
Theorem open_range_overruns fuel w f a b : (3 <= fuel)%nat ->
  str_at (memof w) f [chr "["; a; chr "-"] -> set_char a -> a <> chr "^" -> a <> chr "-" -> memof w !! (f + 4) = None ->
  SecSetupBracketTable fuel f b w = Fault Unmapped.
Proof.
  intros Hfu Hs (Ha8 & Ha0 & Hab) Hcar Hmin Hout.
  apply str_at_cons in Hs as (H0 & _ & Hs). apply str_at_cons in Hs as (H1 & _ & Hs). apply str_at_cons in Hs as (H2 & _ & Hs).
  apply str_at_nil in Hs. destruct fuel as [| [| [| fuel]]]; [lia .. |]. unfold SecSetupBracketTable.
  rewrite (ld8_then _ _ _ _ H0). change (chr "[" =? chr "{") with false. cbv iota.
  rewrite (ld8_then _ _ _ _ H1). replace (a =? chr "^") with false by lia. rewrite (ld8_then _ _ _ _ H1).
  replace (a =? chr "]") with false by lia. rewrite loop_S, bind_assoc, (ld8_then _ _ _ _ H1). replace ((a =? 0) || (a =? chr "]")) with false by lia.
  rewrite bind_assoc, (ld8_then _ _ _ _ H2). replace (negb (a =? chr "-")) with true by lia. cbn [orb]. rewrite bind_ret.
  rewrite loop_S, bind_assoc, (ld8_then _ _ _ _ H2). change ((chr "-" =? 0) || (chr "-" =? chr "]")) with false. cbv iota.
  rewrite bind_assoc, (ld8_then _ _ _ _ Hs). change (negb (chr "-" =? chr "-")) with false. replace (a =? 0) with false by lia.
  change (0 =? chr "]") with false. cbn [orb]. rewrite bind_ret. rewrite loop_S, bind_assoc.
  replace (f + 1 + 1 + 2) with (f + 4) by lia. by rewrite (ld8_fault _ _ _ Hout).
Qed.

(** ** The end of a line *)
Definition is_eol (c : Z) : bool := (c =? 13) || (c =? 10).
Fixpoint drop_eol (l : list Z) : list Z := match l with c :: l' => if is_eol c then drop_eol l' else l | [] => [] end.
(** [l] without the carriage returns and line feeds at its end. *)
Definition trimmed (l : list Z) : list Z := rev (drop_eol (rev l)).
Lemma trimmed_snoc l c : trimmed (l ++ [c]) = if is_eol c then trimmed l else l ++ [c].
Proof. unfold trimmed. rewrite rev_app_distr. cbn. destruct (is_eol c); [done |]. cbn. by rewrite rev_involutive. Qed.
Lemma trimmed_length l : (length (trimmed l) <= length l)%nat.
Proof. induction l as [| c l IH] using rev_ind; [done |]. rewrite trimmed_snoc, length_app. destruct (is_eol c); rewrite ?length_app; cbn; lia. Qed.

(** [l] and zeros behind it, in a block of [n] bytes more than [l] has. *)
Definition zeros (j : nat) : list Z := replicate j 0.
Lemma wr_zero m a l c j : wr (wr m a ((l ++ [c]) ++ zeros j)) (a + Z.of_nat (length l)) [0] = wr m a (l ++ zeros (S j)).
Proof.
  apply map_eq. intros i. rewrite !lookup_wr. rewrite !length_app. unfold zeros. cbn [length replicate]. rewrite !length_replicate.
  repeat case_decide; try lia; try done.
  - assert (i = a + Z.of_nat (length l)) as -> by lia. replace (Z.to_nat (_ - (_ + _))) with O by lia. cbn.
    rewrite lookup_app_r by lia. replace (Z.to_nat _ - length l)%nat with O by lia. done.
  - destruct (decide (i < a + Z.of_nat (length l))).
    + rewrite <- app_assoc, !lookup_app_l by lia. done.
    + rewrite <- app_assoc, (lookup_app_r l) by lia. rewrite (lookup_app_r l) by lia. replace (Z.to_nat (i - a) - length l)%nat with (S (Z.to_nat (i - a) - length l - 1)) by lia. done.
Qed.
Lemma wp_trim l j n a size m (Q : unit -> world G D -> Prop) w :
  Forall (fun c => c <> 0) l -> memof w = wr m a (l ++ zeros (S j)) -> (length l < n)%nat ->
  Z.of_nat (length l) <= size < 2 ^ 64 - 1 ->
  Q tt (setm (wr m a (trimmed l ++ zeros (S j + (length l - length (trimmed l))))) w) ->
  wp (loop n (fun len =>
    if len <? size then
      c ← ld8 (a + len);
      if (c =? 13) || (c =? 10) then st8 (a + len) 0 ;; mret (inl (u64 (len - 1)))
      else mret (inr tt)
    else mret (inr tt)) (u64 (Z.of_nat (length l) - 1))) Q w.
Proof.
  revert j n w. induction l as [| c l IH] using rev_ind; intros j n w H0 Hm Hn Hsz HQ; (destruct n as [| n]; [lia |]); rewrite loop_S; apply wp_bind.
  - change (u64 (Z.of_nat (length []) - 1)) with (2 ^ 64 - 1). replace (2 ^ 64 - 1 <? size) with false by lia. apply wp_ret, wp_ret.
    cbn [length trimmed] in HQ. rewrite Nat.sub_0_r in HQ. change (length (trimmed [])) with O in HQ. rewrite Nat.add_0_r in HQ.
    change (trimmed [] ++ zeros (S j)) with ([] ++ zeros (S j)) in HQ. rewrite <- Hm, setm_memof in HQ. exact HQ.
  - rewrite length_app in *. cbn [length] in *. replace (Z.of_nat (length l + 1) - 1) with (Z.of_nat (length l)) by lia.
    rewrite (wrap_id 64 (Z.of_nat (length l))) by (split; lia). replace (Z.of_nat (length l) <? size) with true by lia. apply wp_bind.
    apply Forall_app in H0 as [H0 [Hc _]%Forall_cons]. rewrite trimmed_snoc in HQ.
    assert (memof w !! (a + Z.of_nat (length l)) = Some c) as Hl.
    { rewrite Hm, lookup_wr, length_app, length_app. cbn [length]. rewrite decide_True by lia. replace (Z.to_nat _) with (length l) by lia.
      by rewrite <- app_assoc, lookup_app_r, Nat.sub_diag by lia. }
    eapply wp_ld8; [exact Hl |]. fold (is_eol c). destruct (is_eol c).
    + apply wp_bind, wp_stn; [intros i Hi; assert (i = a + Z.of_nat (length l)) as -> by lia; by eexists |].
      change (le_bytes 1 0) with [0]. rewrite Hm, wr_zero. apply wp_ret. apply (IH (S j)); [done | apply memof_setm | lia | lia |].
      rewrite setm_setm. pose proof (trimmed_length l).
      by replace (S (S j) + (length l - length (trimmed l)))%nat with (S j + (length l + 1 - length (trimmed l)))%nat by lia.
    + apply wp_ret, wp_ret. rewrite length_app in HQ. cbn [length] in HQ. replace (S j + _)%nat with (S j) in HQ by lia. rewrite <- Hm, setm_memof in HQ. exact HQ.
Qed.

(** C5: A line of the standard input: with [fgets] storing the characters of
    the line and their terminator, [gets_s] returns its buffer with the line
    without its carriage returns and line feeds, which are overwritten with
    zeros; also when nothing is left of it. *)
Theorem gets_s_line fuel fgets w buffer destMax l :
  buffer <> NULL -> Z.of_nat (length l) < destMax <= SECUREC_STRING_MAX_LEN -> Forall (fun c => c <> 0) l -> (length l < fuel)%nat ->
  wp (fgets buffer destMax) (fun r w' => r = buffer /\ w' = setm (wr (memof w) buffer (l ++ [0])) w) w ->
  wp (gets_s fuel fgets buffer destMax) (fun r w' => r = buffer /\
    w' = setm (wr (memof w) buffer (trimmed l ++ zeros (1 + (length l - length (trimmed l))))) w) w.
Proof.
  intros Hb Hd H0 Hn Hg. unfold gets_s. replace (buffer =? NULL) with false by lia. replace (destMax =? 0) with false by lia.
  replace (SECUREC_STRING_MAX_LEN <? destMax) with false by lia. cbn [orb]. unfold SECUREC_STRING_MAX_LEN in Hd.
  rewrite s32_small by lia. apply wp_bind. eapply wp_mono; [exact Hg |]. intros r w' [-> ->]. replace (buffer =? NULL) with false by lia. cbn [negb].
  apply wp_bind. unfold SecTrimCRLF, strlen. apply wp_bind. eapply (wp_strlen_str _ _ l); [| done |].
  { rewrite memof_setm, Z.add_0_r. split; [| done]. replace (S (length l)) with (length (l ++ [0])) by (rewrite length_app; cbn; lia). apply rd_wr_eq. }
  rewrite Z.add_0_l. eapply (wp_trim l 0); [done | apply memof_setm | done | lia |]. apply wp_ret. split; [done |]. by rewrite setm_setm.
Qed.
End Edge.

(** ** Examples *)
Definition ed_mem : mem := wr (wr (wr ∅ 16 (chars "x=%5[^a-z]" ++ [0])) 64 [0]) 200 (replicate 8 170).

Lemma open_range_overruns_witness :
  SecSetupBracketTable (D := ram) 40 16 (BracketTable (replicate 32 0) 0) (World (wr ∅ 16 (chars "[a-" ++ [0])) ram0 [] : world mem ram) = Fault Unmapped.
Proof.
  apply (open_range_overruns 40 (World (wr ∅ 16 (chars "[a-" ++ [0])) ram0 []) 16 (chr "a")); try done; [lia |].
  split; [by vm_compute | by repeat constructor].
Defined.

Definition ex_fgets (a n : Z) : M mem ram Z := st_bytes a (chars "ab" ++ [13; 10; 0]) ;; mret a.
Lemma gets_s_line_witness : wp (gets_s (D := ram) 40 ex_fgets 200 8)
  (fun r w' => r = 200 /\ rd (memof w') 200 6 = Some (chars "ab" ++ [0; 0; 0; 170])) (World ed_mem ram0 [] : world mem ram).
Proof.
  eapply wp_mono; [apply (gets_s_line 40 ex_fgets (World ed_mem ram0 []) 200 8 (chars "ab" ++ [13; 10])) |].
  - done.
  - cbn. unfold SECUREC_STRING_MAX_LEN. lia.
  - by repeat constructor.
  - cbn. lia.
  - unfold ex_fgets. apply wp_bind, wp_st_bytes; [apply block_mapped; cbn; lia |]. apply wp_ret. split; reflexivity.
  - intros r w' [-> ->]. split; [reflexivity | by vm_compute].
Defined.
